(* ===== verification/_CoqProject ===== *)
-Q . S2P
Prelude.v
Errors.v
Effects.v
Enums.v
PyNumbers.v
Text.v
Models.v
AppModels.v
Ports.v
Database.v
SourceFiles.v
SourceFilesFacts.v
Operations.v
Samples.v
SourceFilesSpec.v
Staging.v
StagingFacts.v
IngestionService.v
IngestionFacts.v
PostgresRepository.v
World.v
IngestionSpec.v
CollectionPorts.v
CollectionService.v
CollectionFacts.v
CollectionContracts.v
CollectionRuns.v
CollectionStore.v
CollectionStoreFacts.v
CollectionLedger.v
CollectionWindow.v
CollectionMemory.v
CollectionSpec.v
SourceValues.v
Decimals.v
Rebuild.v
RebuildFacts.v
Maintenance.v
MaintenanceFacts.v
CatalogMatching.v
CatalogMatchingFacts.v
CatalogReview.v
CatalogReviewFacts.v
ExactGtins.v
ExactGtinsFacts.v
ArchiveKeys.v
ZipDirectory.v
ZipDirectoryFacts.v
Streams.v
StreamsFacts.v
XmlTokens.v
XmlTokensFacts.v
XmlRecords.v
XmlRecordsFacts.v
XmlDocument.v
XmlDocumentFacts.v
XmlScopes.v
Temporal.v
Catalog.v
Prices.v
PricesFacts.v
PricesReplay.v
Roster.v
CatalogSpec.v
Promotions.v
PromotionsFacts.v
Apply.v
ApplyFacts.v
ApplySpec.v
StagedRows.v
StagingStore.v
StagingStoreFacts.v
XmlStaging.v
XmlSpec.v
StagingRepository.v
StagingSpec.v
MaintenanceSpec.v
CatalogReviewSpec.v
Worker.v
WorkerFacts.v
