(* ===== verification/Prelude.v ===== *)
(** Makolet: a verification library.

    Makolet collects the price-transparency files of retailers. A worker runs every source on
    its cadence; a collection run lists the files of a portal within a budget and hands each
    file to the ingestion service; the service downloads and archives it, parses the archived
    bytes, stages the records in PostgreSQL and applies them to the catalog in one transaction.
    The files under [src/src/makolet] that carry this out are modelled here as executable
    definitions, in the order of the code, with the theorems that make them correct.

    * How the code is written here

    [Prelude.v], [Effects.v], [Errors.v]: a handler is a function of the state monad with
    exceptions [M W]; an exception carries its class, [retryable] and the attributes control
    flow reads, and [raise], [try_with], [transaction] are Python's [raise], [try],
    [session.begin()]. The weakest-precondition calculus of [Effects.v] ([wp], [wp_step]) is the
    tool of most proofs. Strings are lists of code points, Python integers are [Z], [Decimal]s
    and float quotients are in [PyNumbers.v], aware datetimes are instants in microseconds.
    Ports (protocols of [application/ports.py] and [application/collection.py]) are classes, in
    [Ports.v] and [CollectionPorts.v]; what a client relies on is a class of laws
    ([IngestionFacts.v], [CollectionContracts.v]) that the implementation discharges.

    * The parts

    Domain values: [Enums.v], [Models.v], [AppModels.v] ([domain/enums.py], [domain/models.py],
    [application/models.py]); every [__post_init__] is a handler.

    Source files: [Database.v], [SourceFiles.v], [Operations.v] are the lifecycle tables and the
    lifecycle methods of [adapters/persistence/ingestion.py], [leases.py] and [operations.py].
    [SourceFilesFacts.v] has their invariant; [SourceFilesSpec.v] shows that the event log of a
    file is a chain of allowed transitions in every reachable database, that [transition] is a
    compare-and-set, that terminal files and archived facts never change, and what
    [recover_stale_jobs] does, with its termination.

    Ingestion service: [Staging.v] (batches), [IngestionService.v] ([application/ingestion.py]:
    register, ingest, archive_only, replay). [IngestionFacts.v] and [StagingFacts.v] prove,
    against the contracts, what [IngestionSpec.v] states: every ingestion settles its file or
    raises without stranding it, failures are recorded faithfully, exactly the parsed events are
    staged within the batch limits, a replay never changes a lifecycle. [PostgresRepository.v]
    makes the lifecycle methods an instance of the ports, [World.v] is a concrete world for the
    witnesses.

    Collection: [CollectionService.v] ([application/collection.py]: one bounded traversal),
    [CollectionStore.v] ([adapters/persistence/collection.py]: its durable state and charge
    ledger) and [CollectionMemory.v] (the process-local store). [CollectionFacts.v],
    [CollectionRuns.v], [CollectionStoreFacts.v], [CollectionLedger.v], [CollectionWindow.v] and
    [CollectionSpec.v]: the durable boundary only passes finished files, no run charges more
    than its limits on any exit, the page loop ends, and the ledger and its rolling-window cache
    are exact in every reachable state.

    Archive bytes: [ArchiveKeys.v] ([adapters/archive/keys.py]: keys and digests convert back
    and forth), [ZipDirectory.v] with [ZipDirectoryFacts.v] and [Streams.v] with
    [StreamsFacts.v] ([adapters/parsers/streams.py]): the preflight accepts exactly the archives
    of a grammar, and decompression stays within its limits whatever the codecs do.

    Documents: [SourceValues.v] ([domain/normalization.py]), [XmlTokens.v] (the token guard,
    [adapters/parsers/encoding.py] and the checks on raw bytes), [XmlRecords.v] and
    [XmlDocument.v] ([adapters/parsers/xml.py]). [XmlSpec.v], by way of the files ending in
    Facts, [XmlScopes.v] and [XmlStaging.v], shows what every parse yields, that the context of
    a record is lexical, that the guard bounds what it lets through and does not depend on the
    chunks outside its terminators, that no declaration slips through the scan of the bytes, and
    that the staging tables accept every row of what is parsed, but for the integers nothing
    bounds.

    Staging and apply: [StagedRows.v], [StagingStore.v] (staging, its deduplication and reuse),
    [Temporal.v], [Catalog.v], [Prices.v], [Roster.v], [Promotions.v] (price, store and
    promotion files), [Apply.v] (the apply transaction, its watermarks and content claims), all
    of [adapters/persistence/ingestion.py] on the tables of [schema.py]. [CatalogSpec.v],
    [ApplySpec.v] and [StagingSpec.v]: timelines are updated exactly by the file and stay well
    formed, watermarks only advance, buffered copies are exact, duplicates resolve to the last
    record, and a document that is ingested is in the tables. [StagingRepository.v] makes all of
    it the instance that the service's theorems take.

    Worker: [Worker.v] ([application/worker.py]), a machine of interleaved coroutines;
    [WorkerFacts.v]: no source runs twice at a time or faster than its cadence, and the worker
    drains.

    Catalog matching: [Decimals.v] (decimal arithmetic with its rounding, and the quantity of a
    free text), [CatalogMatching.v] ([domain/catalog.py]: scores and ranking), [CatalogReview.v]
    ([adapters/persistence/catalog_matching.py] and [application/catalog_matching.py]: products
    of their own for new items, candidate generation, review) and [ExactGtins.v]
    ([_match_exact_gtins], which an apply runs), on one set of tables. [CatalogMatchingFacts.v],
    [CatalogReviewFacts.v] and [ExactGtinsFacts.v] lead to [CatalogReviewSpec.v]: the scores are
    exact up to a stated rounding error, only items of different retailers are confirmed
    automatically, decisions are final, acceptance has exactly its effects, and in every
    reachable catalog the identifiers and exact matches of a GTIN are those that its live
    assertions justify.

    Rebuilds: [Rebuild.v] ([adapters/persistence/maintenance.py]: the life of a normalized
    rebuild, its snapshots and stable ids, the listing of the archive) and [Maintenance.v]
    ([application/maintenance.py]: the service that replays the archive, over its ports and what
    it relies on). [RebuildFacts.v], [MaintenanceFacts.v] and [MaintenanceSpec.v]: the state
    machine of rebuilds and its barrier, with the ingestion service running in between; a
    rebuild replays every pending file once in order, can be resumed after any interruption, and
    either restores every derived row with its id or keeps the barrier; the archive listing is
    complete.

    * Bounds and fuel

    [collection_fuel] is the number of record visits left plus two; the page loop is proved to
    end within it and not to depend on it. The guard loop gets two turns a character,
    [pending_findings] one per element; the loops over a ZIP directory one per byte of it; the
    decompression loops need more rounds than the limit on decompressed bytes, and more change
    nothing ([decompression_bounded]). [rebuild_pages] needs more pages than there are pending
    files, and more change nothing ([rebuild_in_order]). [bootstrap_source_file] takes a turn
    for every 500 unmatched items ([bootstrap_complete]). The worker's liveness theorems count
    the steps. [COPY_BATCH_SIZE] and all limits are those of the code.

    * Parameters

    Code that is not in the repository is a parameter: the database's collation ([collate]) and
    its UUIDs ([uuidv7], [UuidText]), the rows of its tables as JSON ([DerivedTables]),
    [hash_resource] (the lock hash), [json_sha256], [split_url] and [casefold], the classes
    [Unicode], [Calendar], [Codecs], [Expat], [Decompressor] and [ZipLibrary], and the ports of
    the network and of the object store. In [Apply.v] [match_exact_gtins] is a parameter, as it
    works on other tables; [ExactGtins.v] has it. [Trigrams] is the distance of names of the
    trigram index, [WordCharacters] the class of regular expressions for words.
    [encoded_record_size] and [rejection_message] stand for a serialization and for message
    texts (see [XmlDocument.v]).

    * Not modelled

    Messages, logging and metrics (no code path branches on them); the SQL of the read-side
    queries (its meaning is the server's); transports, the archive back ends, export, backup,
    the command line, the HTTP and MCP interfaces, deployment and composition (I/O and glue).
    The manifest lists them one by one. *)

From stdpp Require Export prelude gmap strings list fin_maps sorting.
From Stdlib Require Export ZArith Lia.

#[global] Open Scope Z_scope.
#[export] Set Warnings "-clear-no-such-hyp,-register-all".

(** ** Python strings

    A Python [str] is a sequence of Unicode code points: [len] counts code
    points, and the UTF-8 size of a string is computed from them.  String
    literals of the source are written [py "..."]. *)
Abbreviation pystr := (list Z).

Definition py (s : string) : pystr :=
  map (fun a => Z.of_nat (Ascii.nat_of_ascii a)) (String.list_ascii_of_string s).

Arguments py _ : simpl never.

(** [len(value)] of a list, tuple or string, as a Python integer. *)
Definition py_len {A} (l : list A) : Z := Z.of_nat (length l).

(** [len(character.encode("utf-8"))] for one code point; lone surrogates, which
    Python refuses to encode, are counted like the other three-byte points. *)
Definition utf8_width (c : Z) : Z :=
  if c <=? 0x7F then 1 else if c <=? 0x7FF then 2 else if c <=? 0xFFFF then 3 else 4.

(** [len(value.encode("utf-8"))]. *)
Definition utf8_len (s : pystr) : Z := foldr (fun c n => utf8_width c + n) 0 s.

(** [sum] of a list of integers. *)
Definition zsum (l : list Z) : Z := foldr Z.add 0 l.

(** Truth value of a string ([if value:], [not value]). *)
Definition str_truthy (s : pystr) : bool := match s with [] => false | _ => true end.

(** [any(predicate(x) for x in l)] and [all(...)]. *)
Definition py_any {A} (f : A -> bool) (l : list A) : bool := existsb f l.
Definition py_all {A} (f : A -> bool) (l : list A) : bool := forallb f l.

(** ** Lemmas the components share *)

Section generic.
Context {A : Type}.
Implicit Types (l : list A).

Lemma py_len_nonneg l : 0 <= py_len l.
Proof. unfold py_len; lia. Qed.

Lemma py_len_app l k : py_len (l ++ k) = py_len l + py_len k.
Proof. unfold py_len; rewrite length_app; lia. Qed.

Lemma py_len_cons x l : py_len (x :: l) = 1 + py_len l.
Proof. unfold py_len; simpl; lia. Qed.

Lemma py_len_nil : py_len (@nil A) = 0.
Proof. reflexivity. Qed.

Lemma py_len_0_nil l : py_len l = 0 -> l = [].
Proof. destruct l; [done|]. rewrite py_len_cons. pose proof (py_len_nonneg l); lia. Qed.
End generic.

Lemma zsum_app l k : zsum (l ++ k) = zsum l + zsum k.
Proof. induction l; simpl; lia. Qed.

Lemma zsum_nonneg l : Forall (fun z => 0 <= z) l -> 0 <= zsum l.
Proof. induction 1; simpl; lia. Qed.

Lemma utf8_width_bounds c : 1 <= utf8_width c <= 4.
Proof. unfold utf8_width; repeat case_match; lia. Qed.

Lemma utf8_len_bounds s : py_len s <= utf8_len s <= 4 * py_len s.
Proof.
  induction s as [|c s IH]; [unfold py_len; simpl; lia|].
  rewrite py_len_cons; simpl. pose proof (utf8_width_bounds c); lia.
Qed.

Lemma utf8_len_app s t : utf8_len (s ++ t) = utf8_len s + utf8_len t.
Proof. induction s; simpl; lia. Qed.

(** Sums over a finite map. *)
Section msum.
Context `{Countable K} {A : Type}.
Implicit Types (f : K -> A -> Z) (m : gmap K A).

Definition msum f m : Z := map_fold (fun k a n => f k a + n) 0 m.

Lemma msum_empty f : msum f ∅ = 0.
Proof. apply map_fold_empty. Qed.

Lemma msum_fresh f m k a : m !! k = None -> msum f (<[ k := a ]> m) = f k a + msum f m.
Proof.
  intros Hk. unfold msum. rewrite map_fold_insert_L; [done| |done]. intros. lia.
Qed.

Lemma msum_delete f m k a : m !! k = Some a -> msum f m = f k a + msum f (delete k m).
Proof.
  intros Hk. rewrite <- (msum_fresh f (delete k m) k a) by apply lookup_delete_eq.
  by rewrite insert_delete_id.
Qed.

Lemma msum_update f m k a b :
  m !! k = Some a -> msum f (<[ k := b ]> m) = msum f m - f k a + f k b.
Proof.
  intros Hk. rewrite <- insert_delete_eq, msum_fresh by apply lookup_delete_eq.
  rewrite (msum_delete f m k a Hk). lia.
Qed.

Lemma msum_ext f g m : (forall k a, m !! k = Some a -> f k a = g k a) -> msum f m = msum g m.
Proof.
  induction m as [|k a m Hk IH] using map_ind; intros Hfg; [by rewrite !msum_empty|].
  rewrite !msum_fresh by done. rewrite (Hfg k a) by apply lookup_insert_eq.
  rewrite IH; [done|]. intros j b Hj. apply Hfg. rewrite lookup_insert_ne; [done|].
  intros ->. congruence.
Qed.

Lemma msum_nonneg f m : (forall k a, m !! k = Some a -> 0 <= f k a) -> 0 <= msum f m.
Proof.
  induction m as [|k a m Hk IH] using map_ind; intros Hf; [by rewrite msum_empty|].
  rewrite msum_fresh by done. pose proof (Hf k a (lookup_insert_eq _ _ _)).
  assert (0 <= msum f m); [|lia]. apply IH. intros j b Hj. apply Hf.
  rewrite lookup_insert_ne; [done|]. intros ->. congruence.
Qed.

Lemma msum_plus f g m : msum (fun k a => f k a + g k a) m = msum f m + msum g m.
Proof.
  induction m as [|k a m Hk IH] using map_ind; [by rewrite !msum_empty|].
  rewrite !msum_fresh by done. lia.
Qed.

Lemma msum_zero f m : (forall k a, m !! k = Some a -> f k a = 0) -> msum f m = 0.
Proof.
  intros Hf. rewrite (msum_ext f (fun _ _ => 0) m) by done.
  induction m as [|k a m Hk IH] using map_ind; [by rewrite msum_empty|].
  rewrite msum_fresh by done. rewrite IH; [done|]. intros j b Hj. apply (Hf j b).
  rewrite lookup_insert_ne; [done|]. intros ->. congruence.
Qed.
Lemma msum_zero_inv f m k a : (forall k a, m !! k = Some a -> 0 <= f k a) -> msum f m = 0 ->
  m !! k = Some a -> f k a = 0.
Proof.
  intros Hf Hz Hk. rewrite (msum_delete f m k a Hk) in Hz. pose proof (Hf _ _ Hk).
  assert (0 <= msum f (delete k m)); [|lia].
  apply msum_nonneg. intros j b [_ Hj]%lookup_delete_Some. eauto.
Qed.

(** A sum with at most one term. *)
Lemma msum_point f m k0 : (forall k a, k <> k0 -> f k a = 0) ->
  msum f m = from_option (f k0) 0 (m !! k0).
Proof.
  intros Hf. destruct (m !! k0) as [a|] eqn:Hk; simpl.
  - rewrite (msum_delete f m k0 a Hk), msum_zero; [lia|].
    intros k b [Hne _]%lookup_delete_Some. by apply Hf.
  - apply msum_zero. intros k b Hb. apply Hf. intros ->. congruence.
Qed.
End msum.

Lemma msum_exchange `{Countable K, Countable J} {A B} (F : K -> A -> J -> B -> Z)
    (m : gmap K A) (n : gmap J B) :
  msum (fun k a => msum (F k a) n) m = msum (fun j b => msum (fun k a => F k a j b) m) n.
Proof.
  induction n as [|j b n Hj IH] using map_ind.
  - rewrite msum_empty. apply msum_zero. intros k a _. apply msum_empty.
  - rewrite msum_fresh by done. rewrite <- IH, <- msum_plus. apply msum_ext.
    intros k a _. by rewrite msum_fresh.
Qed.

Create HintDb makolet.
Create Rewrite HintDb makolet.
#[export] Hint Rewrite @py_len_app @py_len_cons @py_len_nil zsum_app utf8_len_app : makolet.
#[export] Hint Resolve py_len_nonneg zsum_nonneg : makolet.

(** ** Tactics *)

(** Turn the boolean tests of the executable definitions into propositions. *)
Ltac reflect_bools :=
  repeat match goal with
  | H : (_ && _) = true |- _ => apply andb_true_iff in H as [??]
  | H : (_ || _) = false |- _ => apply orb_false_iff in H as [??]
  | H : negb _ = true |- _ => apply negb_true_iff in H
  | H : negb _ = false |- _ => apply negb_false_iff in H
  | H : (_ <=? _) = true |- _ => apply Z.leb_le in H
  | H : (_ <=? _) = false |- _ => apply Z.leb_gt in H
  | H : (_ <? _) = true |- _ => apply Z.ltb_lt in H
  | H : (_ <? _) = false |- _ => apply Z.ltb_ge in H
  | H : (_ =? _) = true |- _ => apply Z.eqb_eq in H
  | H : (_ =? _) = false |- _ => apply Z.eqb_neq in H
  | H : bool_decide _ = true |- _ => apply bool_decide_eq_true_1 in H
  | H : bool_decide _ = false |- _ => apply bool_decide_eq_false_1 in H
  end.

(** Case analysis on the [match] and [if] blocking the goal or a hypothesis, with
    the impossible cases closed by congruence. *)
Ltac break_match_hyp :=
  match goal with
  | H : context [match ?x with _ => _ end] |- _ => destruct x eqn:?; simplify_eq/=
  end.
Ltac break_match_goal :=
  match goal with
  | |- context [match ?x with _ => _ end] => destruct x eqn:?; simplify_eq/=
  end.
Ltac break_all := repeat (first [break_match_hyp | break_match_goal]).
