(* ===== verification/Errors.v ===== *)
(** Exceptions: [src/src/makolet/domain/errors.py] and
    [adapters/persistence/errors.py].

    A raised exception carries its class, the class attributes [code] and
    [retryable], and the instance attributes the control flow reads
    ([transferred_bytes], [budget_limited], [reason]).  Messages are not kept: no
    code path branches on them. *)
From S2P Require Import Prelude.

(** The three reasons [DiscoveryBudgetExceededError.__init__] accepts. *)
Inductive discovery_reason := listing_request_limit | listing_byte_limit | listing_elapsed_limit.

(** One constructor per [MakoletError] subclass; the two classes with an extra
    instance attribute carry it. *)
Inductive makolet_class :=
  | MakoletError
  | DomainValidationError
  | InvalidStateTransitionError
  | SourceAccessError
  | SourceResponseError
  | SourceBlockedError
  | UnsafeRemoteError
  | DownloadLimitError (budget_limited : bool)
  | DiscoveryBudgetExceededError (reason : discovery_reason)
  | ChargeBudgetExceededError
  | ArchiveCapacityError
  | ArchiveIntegrityError
  | UnsafeArchiveError
  | MalformedDocumentError
  | QuarantinedFileError
  | RepositoryError
  | LeaseUnavailableError
  | MaintenanceModeError
  | NormalizedRebuildInterruptedError
  | QueryLimitError
  | NotFoundError
  | CatalogMatchConflictError.

(** Exceptions outside the [MakoletError] hierarchy that the modelled code raises
    or distinguishes.  The [Persistence*] classes derive from [RuntimeError].
    [CancelledError] derives from [BaseException] only, so [except Exception]
    does not catch it. *)
Inductive py_class :=
  | ValueError
  | RuntimeError
  | AssertionError
  | KeyError
  | TimeoutError
  | PersistenceConflictError
  | PersistenceNotFoundError
  | SnapshotValidationError
  | OtherException
  | CancelledError.

Inductive exn :=
  | MakoletExn (cls : makolet_class) (transferred_bytes : Z)
  | PyExn (cls : py_class).

#[export] Instance discovery_reason_eq_dec : EqDecision discovery_reason.
Proof. solve_decision. Defined.
#[export] Instance makolet_class_eq_dec : EqDecision makolet_class.
Proof. solve_decision. Defined.
#[export] Instance py_class_eq_dec : EqDecision py_class.
Proof. solve_decision. Defined.
#[export] Instance exn_eq_dec : EqDecision exn.
Proof. solve_decision. Defined.

(** The class attribute [code]. *)
Definition error_class_code (c : makolet_class) : string :=
  match c with
  | MakoletError => "makolet_error"
  | DomainValidationError => "domain_validation_error"
  | InvalidStateTransitionError => "invalid_state_transition"
  | SourceAccessError => "source_access_error"
  | SourceResponseError => "source_response_error"
  | SourceBlockedError => "source_blocked"
  | UnsafeRemoteError => "unsafe_remote"
  | DownloadLimitError _ => "download_limit_exceeded"
  | DiscoveryBudgetExceededError _ => "discovery_budget_exceeded"
  | ChargeBudgetExceededError => "charge_budget_exceeded"
  | ArchiveCapacityError => "archive_capacity_exhausted"
  | ArchiveIntegrityError => "archive_integrity_error"
  | UnsafeArchiveError => "unsafe_archive"
  | MalformedDocumentError => "malformed_document"
  | QuarantinedFileError => "file_quarantined"
  | RepositoryError => "repository_error"
  | LeaseUnavailableError => "lease_unavailable"
  | MaintenanceModeError => "maintenance_mode_active"
  | NormalizedRebuildInterruptedError => "normalized_rebuild_interrupted"
  | QueryLimitError => "query_limit_exceeded"
  | NotFoundError => "not_found"
  | CatalogMatchConflictError => "catalog_match_conflict"
  end.

(** The class attribute [retryable] ([False] unless the class overrides it). *)
Definition retryable (c : makolet_class) : bool :=
  match c with
  | SourceAccessError | DiscoveryBudgetExceededError _ | ChargeBudgetExceededError
  | ArchiveCapacityError | RepositoryError | LeaseUnavailableError
  | MaintenanceModeError | NormalizedRebuildInterruptedError => true
  | _ => false
  end.

(** [MakoletError.__init__]: a negative [transferred_bytes] is a [ValueError]. *)
Definition makolet_error (c : makolet_class) (transferred_bytes : Z) : exn :=
  if transferred_bytes <? 0 then PyExn ValueError else MakoletExn c transferred_bytes.

(** [isinstance(error, MakoletError)]. *)
Definition is_makolet (e : exn) : bool :=
  match e with MakoletExn _ _ => true | PyExn _ => false end.

(** [isinstance(error, Exception)]: everything but [CancelledError]. *)
Definition is_exception (e : exn) : bool :=
  match e with PyExn CancelledError => false | _ => true end.

(** [isinstance(error, ValueError)]; two Makolet classes also derive from it. *)
Definition is_value_error (e : exn) : bool :=
  match e with
  | PyExn ValueError | MakoletExn DomainValidationError _ | MakoletExn QueryLimitError _ => true
  | _ => false
  end.

(** [isinstance(error, RuntimeError)]. *)
Definition is_runtime_error (e : exn) : bool :=
  match e with
  | PyExn (RuntimeError | PersistenceConflictError | PersistenceNotFoundError
          | SnapshotValidationError) => true
  | _ => false
  end.

(** [getattr(error, "transferred_bytes", None)]. *)
Definition exn_transferred (e : exn) : option Z :=
  match e with MakoletExn _ n => Some n | PyExn _ => None end.

(** [error.transferred_bytes = n] on a Makolet error (a plain attribute write). *)
Definition set_transferred (n : Z) (e : exn) : exn :=
  match e with MakoletExn c _ => MakoletExn c n | PyExn c => PyExn c end.
