(* ===== verification/Effects.v ===== *)
(** State-and-exception effects: how the handlers of the source are written here,
    and the weakest-precondition calculus their theorems are proved with. *)
From S2P Require Import Prelude Errors.

(** ** State and exceptions

    A handler that reads and writes a state [W] and may raise: the outcome is a
    value or the exception, and the state as it was left.  [await] is sequencing:
    one handler runs to its end, and what other tasks do in between enters a
    model as an operation of the state it is given. *)
Inductive outcome (A : Type) := Returned (a : A) | Raised (e : exn).
Arguments Returned {A} _.
Arguments Raised {A} _.

Definition M (W A : Type) : Type := W -> outcome A * W.

#[export] Instance M_ret W : MRet (M W) := fun A a w => (Returned a, w).
#[export] Instance M_bind W : MBind (M W) := fun A B f m w =>
  match m w with
  | (Returned a, w') => f a w'
  | (Raised e, w') => (Raised e, w')
  end.
#[export] Instance M_map W : FMap (M W) := fun A B f m w =>
  match m w with
  | (Returned a, w') => (Returned (f a), w')
  | (Raised e, w') => (Raised e, w')
  end.

Section effects.
Context {W : Type}.

Definition raise {A} (e : exn) : M W A := fun w => (Raised e, w).
Definition get_state : M W W := fun w => (Returned w, w).
Definition put_state (w : W) : M W unit := fun _ => (Returned tt, w).
Definition gets {A} (f : W -> A) : M W A := fun w => (Returned (f w), w).
Definition modify (f : W -> W) : M W unit := fun w => (Returned tt, f w).

(** [if condition: raise error]. *)
Definition raise_if (b : bool) (e : exn) : M W unit := if b then raise e else mret tt.

(** [if condition: await action()]. *)
Definition when (b : bool) (m : M W unit) : M W unit := if b then m else mret tt.

(** [try: m  except BaseException as error: handler(error)]; a handler that
    is for [Exception] only re-raises the rest itself. *)
Definition try_with {A} (m : M W A) (handler : exn -> M W A) : M W A := fun w =>
  match m w with
  | (Returned a, w') => (Returned a, w')
  | (Raised e, w') => handler e w'
  end.

(** [try: m  except Exception as error: handler(error)]. *)
Definition try_except {A} (m : M W A) (handler : exn -> M W A) : M W A :=
  try_with m (fun e => if is_exception e then handler e else raise e).

(** A database transaction: commit the state on return, roll it back when the
    body raises. *)
Definition transaction {A} (m : M W A) : M W A := fun w =>
  match m w with
  | (Returned a, w') => (Returned a, w')
  | (Raised e, _) => (Raised e, w)
  end.

Lemma transaction_raised {A} (m : M W A) w e w' :
  transaction m w = (Raised e, w') -> w' = w.
Proof. unfold transaction. destruct (m w) as [[?|?] ?]; congruence. Qed.

Lemma transaction_returned {A} (m : M W A) w a w' :
  transaction m w = (Returned a, w') <-> m w = (Returned a, w').
Proof. unfold transaction. destruct (m w) as [[?|?] ?]; split; congruence. Qed.

Lemma bind_returned {A B} (m : M W A) (f : A -> M W B) w b w' :
  (m ≫= f) w = (Returned b, w') <->
  exists a w0, m w = (Returned a, w0) /\ f a w0 = (Returned b, w').
Proof.
  unfold mbind, M_bind. destruct (m w) as [[a|e] w0]; split.
  - eauto.
  - by intros (? & ? & [= <- <-] & ?).
  - congruence.
  - by intros (? & ? & [=] & ?).
Qed.

Lemma bind_raised {A B} (m : M W A) (f : A -> M W B) w e w' :
  (m ≫= f) w = (Raised e, w') <->
  m w = (Raised e, w') \/
  exists a w0, m w = (Returned a, w0) /\ f a w0 = (Raised e, w').
Proof.
  unfold mbind, M_bind. destruct (m w) as [[a|e0] w0]; split.
  - eauto.
  - by intros [[=]|(? & ? & [= <- <-] & ?)].
  - left; congruence.
  - intros [[= <- <-]|(? & ? & [=] & ?)]. done.
Qed.

(** Getting past a guard. *)
Lemma guard_returned {A} b e (m : M W A) w a w' :
  (raise_if b e ;; m) w = (Returned a, w') <-> b = false /\ m w = (Returned a, w').
Proof. destruct b; cbv [raise_if raise mbind M_bind mret M_ret]; split; [done|by intros []|done|by intros []]. Qed.

(** A handler that leaves the state alone whatever it returns. *)
Definition read_only {A} (m : M W A) : Prop := forall w, (m w).2 = w.

Lemma read_only_eq {A} (m : M W A) w o w' : read_only m -> m w = (o, w') -> w' = w.
Proof. intros H E. specialize (H w). by rewrite E in H. Qed.
End effects.

(** ** Weakest preconditions

    [wp m Q E w]: run from [w], [m] returns a value satisfying [Q] or raises an
    exception satisfying [E], each together with the state it leaves. *)
Definition wp {W A} (m : M W A) (Q : A -> W -> Prop) (E : exn -> W -> Prop) (w : W) : Prop :=
  match m w with
  | (Returned a, w') => Q a w'
  | (Raised e, w') => E e w'
  end.

Section wp_rules.
Context {W : Type}.
Implicit Types (w : W).

Lemma wp_ret {A} (a : A) Q E w : Q a w -> wp (mret a) Q E w.
Proof. done. Qed.

Lemma wp_raise {A} e (Q : A -> W -> Prop) E w : E e w -> wp (raise e) Q E w.
Proof. done. Qed.

Lemma wp_bind {A B} (m : M W A) (f : A -> M W B) Q E w :
  wp m (fun a w' => wp (f a) Q E w') E w -> wp (m ≫= f) Q E w.
Proof. unfold wp, mbind, M_bind. by destruct (m w) as [[?|?] ?]. Qed.

Lemma wp_fmap {A B} (g : A -> B) (m : M W A) Q E w :
  wp m (fun a w' => Q (g a) w') E w -> wp (g <$> m) Q E w.
Proof. unfold wp, fmap, M_map. by destruct (m w) as [[?|?] ?]. Qed.

Lemma wp_mono {A} (m : M W A) (Q Q' : A -> W -> Prop) (E E' : exn -> W -> Prop) w :
  wp m Q E w -> (forall a w', Q a w' -> Q' a w') -> (forall e w', E e w' -> E' e w') ->
  wp m Q' E' w.
Proof. unfold wp. destruct (m w) as [[?|?] ?]; auto. Qed.

Lemma wp_try_with {A} (m : M W A) h Q E w :
  wp m Q (fun e w' => wp (h e) Q E w') w -> wp (try_with m h) Q E w.
Proof. unfold wp, try_with. by destruct (m w) as [[?|?] ?]. Qed.

Lemma wp_try_except {A} (m : M W A) h Q E w :
  wp m Q (fun e w' => if is_exception e then wp (h e) Q E w' else E e w') w ->
  wp (try_except m h) Q E w.
Proof.
  intros H. apply wp_try_with. eapply wp_mono; [exact H|done|].
  cbv beta. intros e w' He. by destruct (is_exception e).
Qed.

Lemma wp_transaction {A} (m : M W A) Q E w :
  wp m Q (fun e _ => E e w) w -> wp (transaction m) Q E w.
Proof. unfold wp, transaction. by destruct (m w) as [[?|?] ?]. Qed.

Lemma wp_raise_if (b : bool) e (Q : unit -> W -> Prop) E w :
  (b = true -> E e w) -> (b = false -> Q tt w) -> wp (raise_if b e) Q E w.
Proof. destruct b; unfold wp; simpl; auto. Qed.

Lemma wp_when (b : bool) (m : M W unit) Q E w :
  (b = true -> wp m Q E w) -> (b = false -> Q tt w) -> wp (when b m) Q E w.
Proof. destruct b; unfold when; [auto|]. intros _ H. by apply wp_ret, H. Qed.

Lemma wp_gets {A} (f : W -> A) Q E w : Q (f w) w -> wp (gets f) Q E w.
Proof. done. Qed.

Lemma wp_modify (f : W -> W) (Q : unit -> W -> Prop) E w :
  Q tt (f w) -> wp (modify f) Q E w.
Proof. done. Qed.

Lemma wp_get_state (Q : W -> W -> Prop) E w : Q w w -> wp get_state Q E w.
Proof. done. Qed.

Lemma wp_put_state v (Q : unit -> W -> Prop) E w : Q tt v -> wp (put_state v) Q E w.
Proof. done. Qed.

(** The calculus and the results of a run say the same. *)
Lemma wp_returned {A} (m : M W A) Q E w a w' :
  wp m Q E w -> m w = (Returned a, w') -> Q a w'.
Proof. unfold wp. intros H Heq. by rewrite Heq in H. Qed.

Lemma wp_raised {A} (m : M W A) Q E w e w' :
  wp m Q E w -> m w = (Raised e, w') -> E e w'.
Proof. unfold wp. intros H Heq. by rewrite Heq in H. Qed.

Lemma wp_intro {A} (m : M W A) (Q : A -> W -> Prop) (E : exn -> W -> Prop) w :
  (forall a w', m w = (Returned a, w') -> Q a w') ->
  (forall e w', m w = (Raised e, w') -> E e w') -> wp m Q E w.
Proof. unfold wp. destruct (m w) as [[?|?] ?]; auto. Qed.

Lemma wp_and {A} (m : M W A) Q E Q' E' w :
  wp m Q E w -> wp m Q' E' w ->
  wp m (fun a w' => Q a w' /\ Q' a w') (fun e w' => E e w' /\ E' e w') w.
Proof. unfold wp. destruct (m w) as [[?|?] ?]; auto. Qed.
End wp_rules.

(** A concrete run, from what it answers. *)
Lemma run_eq {W A} (m : M W A) w o : (m w).1 = o -> m w = (o, (m w).2).
Proof. intros <-. by destruct (m w). Qed.

(** Dropping the answer of a run does not change the state it leaves. *)
Lemma run_drop {W A} (m : M W A) w : ((m ;; mret tt) w).2 = (m w).2.
Proof. unfold mbind, M_bind. by destruct (m w) as [[?|?] ?]. Qed.

(** One symbolic step of a handler in the goal. *)
Ltac wp_step :=
  lazymatch goal with
  | |- wp (mret _) _ _ _ => apply wp_ret
  | |- wp (raise _) _ _ _ => apply wp_raise
  | |- wp (_ ≫= _) _ _ _ => apply wp_bind
  | |- wp (_ <$> _) _ _ _ => apply wp_fmap
  | |- wp (try_with _ _) _ _ _ => apply wp_try_with
  | |- wp (try_except _ _) _ _ _ => apply wp_try_except
  | |- wp (transaction _) _ _ _ => apply wp_transaction
  | |- wp (raise_if _ _) _ _ _ => apply wp_raise_if; intros
  | |- wp (when _ _) _ _ _ => apply wp_when; intros
  | |- wp (gets _) _ _ _ => apply wp_gets
  | |- wp get_state _ _ _ => apply wp_get_state
  | |- wp (put_state _) _ _ _ => apply wp_put_state
  | |- wp (modify _) _ _ _ => apply wp_modify
  | |- wp (match ?x with _ => _ end) _ _ _ => destruct x eqn:?
  | |- wp (let '(_, _) := ?x in _) _ _ _ => destruct x eqn:?
  end.

Lemma wp_true {W A} (m : M W A) w : wp m (fun _ _ => True) (fun _ _ => True) w.
Proof. unfold wp. by destruct (m w) as [[?|?] ?]. Qed.

(** A property of the result alone: what runs before the last step does not matter. *)
Lemma wp_skip {W A B} (m : M W A) (f : A -> M W B) (P : B -> Prop) w :
  (forall a w', wp (f a) (fun x _ => P x) (fun _ _ => True) w') ->
  wp (m ≫= f) (fun x _ => P x) (fun _ _ => True) w.
Proof. intros Hf. wp_step. eapply wp_mono; [apply wp_true|auto|done]. Qed.

(** ** Local variables

    A handler whose local variables outlive an exception (a running total its [except]
    clause reads) runs on the world paired with them. *)
Section locals.
Context {W L : Type}.

Definition lift {A} (m : M W A) : M (W * L) A :=
  fun '(w, l) => let '(r, w') := m w in (r, (w', l)).
Definition locals : M (W * L) L := gets snd.
Definition set_locals (f : L -> L) : M (W * L) unit := modify (fun '(w, l) => (w, f l)).

Definition on_locals {A} (m : M L A) : M (W * L) A :=
  fun '(w, l) => let '(r, l') := m l in (r, (w, l')).

(** Run a body that owns the locals, from their initial values. *)
Definition with_locals {A} (l : L) (m : M (W * L) A) : M W A := fun w =>
  let '(r, (w', _)) := m (w, l) in (r, w').

Lemma wp_lift {A} (m : M W A) (Q : A -> W * L -> Prop) E w l :
  wp m (fun a w' => Q a (w', l)) (fun e w' => E e (w', l)) w -> wp (lift m) Q E (w, l).
Proof. unfold wp, lift. by destruct (m w) as [[a|e] w']. Qed.

Lemma wp_on_locals {A} (m : M L A) (Q : A -> W * L -> Prop) E w l :
  wp m (fun a l' => Q a (w, l')) (fun e l' => E e (w, l')) l -> wp (on_locals m) Q E (w, l).
Proof. unfold wp, on_locals. by destruct (m l) as [[a|e] l']. Qed.

Lemma wp_with_locals {A} (m : M (W * L) A) Q E w l :
  wp m (fun a p => Q a p.1) (fun e p => E e p.1) (w, l) -> wp (with_locals l m) Q E w.
Proof. unfold wp, with_locals. by destruct (m (w, l)) as [[a|e] [w' l']]. Qed.

Lemma wp_locals (Q : L -> W * L -> Prop) E w l : Q l (w, l) -> wp locals Q E (w, l).
Proof. done. Qed.

Lemma wp_set_locals f (Q : unit -> W * L -> Prop) E w l :
  Q tt (w, f l) -> wp (set_locals f) Q E (w, l).
Proof. done. Qed.
End locals.

(** Running on a part of the state. *)
Definition zoom {W V A} (get : W -> V) (put : V -> W -> W) (m : M V A) : M W A :=
  fun w => let '(r, v) := m (get w) in (r, put v w).

Lemma wp_zoom {W V A} get put (m : M V A) (Q : A -> W -> Prop) E w :
  wp m (fun a v => Q a (put v w)) (fun e v => E e (put v w)) (get w) -> wp (zoom get put m) Q E w.
Proof. unfold wp, zoom. by destruct (m (get w)) as [[a|e] v]. Qed.

(** ** Preserved properties

    [preserves I m]: [m] keeps [I] on every exit. *)
Definition preserves {W A} (I : W -> Prop) (m : M W A) : Prop :=
  forall w, I w -> wp m (fun _ w' => I w') (fun _ w' => I w') w.

Section preserves.
Context {W : Type} (I : W -> Prop).

Lemma preserves_ret {A} (a : A) : preserves I (mret a).
Proof. intros w Hw. by wp_step. Qed.

Lemma preserves_raise {A} e : preserves I (@raise W A e).
Proof. intros w Hw. by wp_step. Qed.

Lemma preserves_gets {A} (f : W -> A) : preserves I (gets f).
Proof. intros w Hw. by wp_step. Qed.

Lemma preserves_modify f : (forall w, I w -> I (f w)) -> preserves I (modify f).
Proof. intros Hf w Hw. wp_step. auto. Qed.

Lemma preserves_raise_if b e : preserves I (raise_if b e).
Proof. intros w Hw. by wp_step. Qed.

Lemma preserves_when b m : preserves I m -> preserves I (when b m).
Proof. intros Hm w Hw. wp_step; auto. Qed.

Lemma preserves_bind {A B} (m : M W A) (f : A -> M W B) :
  preserves I m -> (forall a, preserves I (f a)) -> preserves I (m ≫= f).
Proof.
  intros Hm Hf w Hw. wp_step. eapply wp_mono; [by apply Hm| |done].
  intros a w' Hw'. by apply Hf.
Qed.

Lemma preserves_try_with {A} (m : M W A) h :
  preserves I m -> (forall e, preserves I (h e)) -> preserves I (try_with m h).
Proof.
  intros Hm Hh w Hw. wp_step. eapply wp_mono; [by apply Hm|done|].
  intros e w' Hw'. by apply Hh.
Qed.

Lemma preserves_try_except {A} (m : M W A) h :
  preserves I m -> (forall e, preserves I (h e)) -> preserves I (try_except m h).
Proof.
  intros Hm Hh. apply preserves_try_with; [done|]. intros e.
  destruct (is_exception e); [apply Hh|apply preserves_raise].
Qed.
End preserves.

Section preserves_locals.
Context {W L : Type} (I : W -> Prop).

Lemma preserves_lift {A} (m : M W A) :
  preserves I m -> preserves (fun p : W * L => I p.1) (lift m).
Proof. intros Hm [w l] Hw. apply wp_lift. by apply Hm. Qed.

Lemma preserves_locals : preserves (fun p : W * L => I p.1) locals.
Proof. apply preserves_gets. Qed.

Lemma preserves_set_locals f : preserves (fun p : W * L => I p.1) (set_locals f).
Proof. apply preserves_modify. by intros [w l]. Qed.

Lemma preserves_with_locals {A} l (m : M (W * L) A) :
  preserves (fun p => I p.1) m -> preserves I (with_locals l m).
Proof. intros Hm w Hw. apply wp_with_locals. by apply Hm. Qed.
End preserves_locals.

Create HintDb preserves.
#[export] Hint Resolve preserves_locals preserves_set_locals : preserves.
#[export] Hint Resolve preserves_ret preserves_raise preserves_gets preserves_raise_if
  preserves_when preserves_bind preserves_try_with preserves_try_except : preserves.

(** Walk through a handler, leaving the calls no hint covers. *)
Ltac preserve_step :=
  lazymatch goal with
  | |- preserves _ (_ ≫= _) => apply preserves_bind
  | |- preserves _ (try_except _ _) => apply preserves_try_except
  | |- preserves _ (try_with _ _) => apply preserves_try_with
  | |- preserves _ (when _ _) => apply preserves_when
  | |- preserves _ (match ?x with _ => _ end) => destruct x
  | |- preserves _ _ => solve [auto with preserves nocore]
  | |- forall _, _ => intro
  | |- _ => progress cbv beta zeta
  end.
Ltac preserve := repeat (first [progress cbv beta zeta | preserve_step]).
