(* ===== verification/Enums.v ===== *)
(** Stable domain enumerations and the ingestion lifecycle:
    [src/src/makolet/domain/enums.py]. *)
From S2P Require Import Prelude Errors Effects.

Inductive DocumentType :=
  STORES | PRICE_FULL | PRICE_DELTA | PROMOTION_FULL | PROMOTION_DELTA | DOC_UNKNOWN.

Inductive CompressionFormat := COMP_NONE | GZIP | ZIP | ZSTANDARD | COMP_UNKNOWN.

Inductive SourceProtocol := HTTPS | HTTP | FTP | FTPS | FIXTURE.

Inductive IngestionStatus :=
  | DISCOVERED | DOWNLOADING | ARCHIVED | PARSING | STAGED | VALIDATING | APPLYING
  | COMPLETED | QUARANTINED | FAILED_RETRYABLE | FAILED_TERMINAL.

(** [IssueCategory], and its alias [IssueSeverity]. *)
Inductive IssueSeverity :=
  WARNING | RECORD_REJECTION | FILE_QUARANTINE | SOURCE_FAILURE | SYSTEM_FAILURE.

Inductive IdentifierKind := GTIN | RETAILER_ITEM | MANUFACTURER | ID_UNKNOWN.

Inductive DiscountKind :=
  | FIXED_PRICE | PERCENTAGE | AMOUNT | QUANTITY | SECOND_ITEM | MIX_AND_MATCH
  | CONDITIONAL | DISCOUNT_UNKNOWN.

#[export] Instance DocumentType_eq_dec : EqDecision DocumentType.
Proof. solve_decision. Defined.
#[export] Instance CompressionFormat_eq_dec : EqDecision CompressionFormat.
Proof. solve_decision. Defined.
#[export] Instance SourceProtocol_eq_dec : EqDecision SourceProtocol.
Proof. solve_decision. Defined.
#[export] Instance IngestionStatus_eq_dec : EqDecision IngestionStatus.
Proof. solve_decision. Defined.
#[export] Instance IssueSeverity_eq_dec : EqDecision IssueSeverity.
Proof. solve_decision. Defined.
#[export] Instance IdentifierKind_eq_dec : EqDecision IdentifierKind.
Proof. solve_decision. Defined.
#[export] Instance DiscountKind_eq_dec : EqDecision DiscountKind.
Proof. solve_decision. Defined.

(** ** Document semantics *)

Definition is_full_snapshot (d : DocumentType) : bool :=
  bool_decide (d ∈ [STORES; PRICE_FULL; PROMOTION_FULL]).
Definition is_delta (d : DocumentType) : bool :=
  bool_decide (d ∈ [PRICE_DELTA; PROMOTION_DELTA]).
Definition is_price (d : DocumentType) : bool :=
  bool_decide (d ∈ [PRICE_FULL; PRICE_DELTA]).
Definition is_promotion (d : DocumentType) : bool :=
  bool_decide (d ∈ [PROMOTION_FULL; PROMOTION_DELTA]).

(** ** Wire values of the lifecycle states ([IngestionStatus.value]) *)

Definition status_value (s : IngestionStatus) : string :=
  match s with
  | DISCOVERED => "discovered"
  | DOWNLOADING => "downloading"
  | ARCHIVED => "archived"
  | PARSING => "parsing"
  | STAGED => "staged"
  | VALIDATING => "validating"
  | APPLYING => "applying"
  | COMPLETED => "completed"
  | QUARANTINED => "quarantined"
  | FAILED_RETRYABLE => "failed_retryable"
  | FAILED_TERMINAL => "failed_terminal"
  end.

Definition all_statuses : list IngestionStatus :=
  [DISCOVERED; DOWNLOADING; ARCHIVED; PARSING; STAGED; VALIDATING; APPLYING; COMPLETED;
   QUARANTINED; FAILED_RETRYABLE; FAILED_TERMINAL].

(** [IngestionStatus(value)]: the member with that value, or [ValueError] ([None]). *)
Definition status_of_value (v : string) : option IngestionStatus :=
  find (fun s => bool_decide (status_value s = v)) all_statuses.

(** Reading back a stored status value gives the status that was stored, so the
    tables of the persistence model hold statuses rather than their strings. *)
Lemma status_of_value_value s : status_of_value (status_value s) = Some s.
Proof. by destruct s. Qed.

(** ** Wire values of the other enumerations that are measured or stored as text *)

Definition document_type_value (d : DocumentType) : string :=
  match d with
  | STORES => "stores"
  | PRICE_FULL => "price_full"
  | PRICE_DELTA => "price_delta"
  | PROMOTION_FULL => "promotion_full"
  | PROMOTION_DELTA => "promotion_delta"
  | DOC_UNKNOWN => "unknown"
  end.

Definition severity_value (s : IssueSeverity) : string :=
  match s with
  | WARNING => "warning"
  | RECORD_REJECTION => "record_rejection"
  | FILE_QUARANTINE => "file_quarantine"
  | SOURCE_FAILURE => "source_failure"
  | SYSTEM_FAILURE => "system_failure"
  end.

Definition discount_kind_value (d : DiscountKind) : string :=
  match d with
  | FIXED_PRICE => "fixed_price"
  | PERCENTAGE => "percentage"
  | AMOUNT => "amount"
  | QUANTITY => "quantity"
  | SECOND_ITEM => "second_item"
  | MIX_AND_MATCH => "mix_and_match"
  | CONDITIONAL => "conditional"
  | DISCOUNT_UNKNOWN => "unknown"
  end.

(** ** The lifecycle *)

(** [_ALLOWED_TRANSITIONS]. *)
Definition ALLOWED_TRANSITIONS (s : IngestionStatus) : list IngestionStatus :=
  match s with
  | DISCOVERED => [DOWNLOADING; FAILED_RETRYABLE; FAILED_TERMINAL]
  | DOWNLOADING => [ARCHIVED; FAILED_RETRYABLE; FAILED_TERMINAL]
  | ARCHIVED => [PARSING; QUARANTINED; FAILED_RETRYABLE; FAILED_TERMINAL]
  | PARSING => [STAGED; QUARANTINED; FAILED_RETRYABLE; FAILED_TERMINAL]
  | STAGED => [VALIDATING; QUARANTINED; FAILED_RETRYABLE; FAILED_TERMINAL]
  | VALIDATING => [APPLYING; QUARANTINED; FAILED_RETRYABLE; FAILED_TERMINAL]
  | APPLYING => [COMPLETED; QUARANTINED; FAILED_RETRYABLE; FAILED_TERMINAL]
  | FAILED_RETRYABLE =>
      [ARCHIVED; DOWNLOADING; PARSING; VALIDATING; APPLYING; FAILED_TERMINAL]
  | COMPLETED => []
  | QUARANTINED => []
  | FAILED_TERMINAL => []
  end.

Definition allowed (current target : IngestionStatus) : bool :=
  bool_decide (target ∈ ALLOWED_TRANSITIONS current).

(** [ensure_ingestion_transition]. *)
Definition ensure_ingestion_transition {W} (current target : IngestionStatus) : M W unit :=
  raise_if (negb (allowed current target)) (MakoletExn InvalidStateTransitionError 0).

(** ** Facts about the lifecycle graph *)

(** The states with no way out. *)
Definition terminal (s : IngestionStatus) : bool :=
  bool_decide (s ∈ [COMPLETED; QUARANTINED; FAILED_TERMINAL]).

(** Progress along the ordinary path; a failed state has none. *)
Definition rank (s : IngestionStatus) : Z :=
  match s with
  | DISCOVERED => 0 | DOWNLOADING => 1 | ARCHIVED => 2 | PARSING => 3 | STAGED => 4
  | VALIDATING => 5 | APPLYING => 6 | COMPLETED => 7
  | QUARANTINED | FAILED_RETRYABLE | FAILED_TERMINAL => 8
  end.

Lemma terminal_no_exit s t : terminal s = true -> allowed s t = false.
Proof. by destruct s, t. Qed.

Lemma terminal_iff_no_exit s : terminal s = true <-> ALLOWED_TRANSITIONS s = [].
Proof. by destruct s. Qed.

Lemma allowed_irrefl s : allowed s s = false.
Proof. by destruct s. Qed.

Lemma allowed_advances s t :
  allowed s t = true -> s <> FAILED_RETRYABLE -> rank s < rank t.
Proof. by destruct s, t. Qed.

(** Only the apply step completes a file. *)
Lemma completed_only_from_applying s : allowed s COMPLETED = true -> s = APPLYING.
Proof. by destruct s. Qed.

(** No file is applied before it was validated or a failed attempt is resumed. *)
Lemma applying_only_after_validation s :
  allowed s APPLYING = true -> s = VALIDATING \/ s = FAILED_RETRYABLE.
Proof. destruct s; vm_compute; intros; eauto; discriminate. Qed.

(** A file is quarantined only once its bytes are archived. *)
Lemma quarantined_has_archive_rank s : allowed s QUARANTINED = true -> 2 <= rank s <= 6.
Proof. destruct s; vm_compute; intros; split; congruence. Qed.

(** Every path through the lifecycle is a chain of allowed transitions. *)
Inductive lifecycle_path : IngestionStatus -> list IngestionStatus -> IngestionStatus -> Prop :=
  | path_nil s : lifecycle_path s [] s
  | path_cons s t u l :
      allowed s t = true -> lifecycle_path t l u -> lifecycle_path s (t :: l) u.

Lemma lifecycle_path_app s l t k u :
  lifecycle_path s l t -> lifecycle_path t k u -> lifecycle_path s (l ++ k) u.
Proof. induction 1; simpl; eauto using lifecycle_path. Qed.

Lemma lifecycle_path_snoc s l t u :
  lifecycle_path s l t -> allowed t u = true -> lifecycle_path s (l ++ [u]) u.
Proof. intros. eapply lifecycle_path_app; eauto using lifecycle_path. Qed.

Lemma lifecycle_path_terminal s l t :
  terminal s = true -> lifecycle_path s l t -> l = [] /\ t = s.
Proof.
  intros Hs. destruct 1 as [|s t u l Hst _]; [done|].
  by rewrite (terminal_no_exit _ _ Hs) in Hst.
Qed.

(** A path that never fails has at most seven steps. *)
Lemma lifecycle_path_bounded s l t :
  lifecycle_path s l t -> s <> FAILED_RETRYABLE -> FAILED_RETRYABLE ∉ l ->
  rank s + py_len l <= rank t.
Proof.
  induction 1 as [s|s t u l Hst Hp IH]; intros Hs Hl; [unfold py_len; simpl; lia|].
  rewrite py_len_cons. apply not_elem_of_cons in Hl as [Ht Hl].
  pose proof (allowed_advances s t Hst Hs). specialize (IH ltac:(congruence) Hl). lia.
Qed.
