(* ===== verification/PyNumbers.v ===== *)
(** The numbers of the source that are not integers: [decimal.Decimal], as far as the
    code inspects it (finiteness, sign, comparison, digit count), and the binary64
    quotient of two integers ([a / b]), computed by the Standard Library's
    executable IEEE 754 model. *)
From S2P Require Import Prelude.
From Corelib Require Import SpecFloat.
From Stdlib Require Import DecimalN.

(** ** [decimal.Decimal] *)

(** [Finite neg coeff expo] is [(-1)^neg * coeff * 10^expo]; a NaN's payload is not
    looked at. *)
Inductive decimal :=
  | Finite (neg : bool) (coeff : N) (expo : Z)
  | Infinite (neg : bool)
  | NotANumber.

#[export] Instance decimal_eq_dec : EqDecision decimal.
Proof. solve_decision. Defined.

Definition is_finite (d : decimal) : bool :=
  match d with Finite _ _ _ => true | _ => false end.

(** The signed coefficient brought to exponent [e], for [e] at most the value's own. *)
Definition scaled (neg : bool) (coeff : N) (expo e : Z) : Z :=
  (if neg then -1 else 1) * Z.of_N coeff * 10 ^ (expo - e).

(** Numerical [<] and [<=] of two finite decimals; the code never compares others. *)
Definition dec_ltb (x y : decimal) : bool :=
  match x, y with
  | Finite n1 c1 e1, Finite n2 c2 e2 =>
      let e := Z.min e1 e2 in scaled n1 c1 e1 e <? scaled n2 c2 e2 e
  | _, _ => false
  end.
Definition dec_leb (x y : decimal) : bool :=
  match x, y with
  | Finite n1 c1 e1, Finite n2 c2 e2 =>
      let e := Z.min e1 e2 in scaled n1 c1 e1 e <=? scaled n2 c2 e2 e
  | _, _ => false
  end.

Definition dec_zero : decimal := Finite false 0 0.
(** [Decimal(n)] of a nonnegative integer. *)
Definition dec_of_N (n : N) : decimal := Finite false n 0.

(** [len(value.as_tuple().digits)]. *)
Definition dec_digits (d : decimal) : Z :=
  match d with
  | Finite _ c _ => Z.of_nat (Decimal.nb_digits (N.to_uint c))
  | Infinite _ => 1
  | NotANumber => 0
  end.

Lemma dec_leb_ltb x y :
  is_finite x = true -> is_finite y = true -> dec_ltb y x = negb (dec_leb x y).
Proof.
  destruct x as [n1 c1 e1| |], y as [n2 c2 e2| |]; try done; intros _ _. simpl.
  rewrite (Z.min_comm e2 e1). rewrite Z.ltb_antisym. done.
Qed.

Lemma dec_digits_nonneg d : 0 <= dec_digits d.
Proof. destruct d; simpl; lia. Qed.

(** ** Binary64 *)

Abbreviation float64 := spec_float.
Abbreviation prec := 53 (only parsing).
Abbreviation emax := 1024 (only parsing).

(** An integer as an exact (unrounded) float operand. *)
Definition float_of_Z (z : Z) : float64 :=
  match z with
  | Z0 => S754_zero false
  | Zpos p => S754_finite false p 0
  | Zneg p => S754_finite true p 0
  end.

(** [a / b] for integers: Python rounds the exact quotient once, to nearest even. *)
Definition py_truediv (a b : Z) : float64 := SFdiv prec emax (float_of_Z a) (float_of_Z b).

Definition float_ltb (x y : float64) : bool := SFltb x y.
Definition float_leb (x y : float64) : bool := SFleb x y.

(** [0 <= x < 1], the range the policies demand of a fraction. *)
Definition is_fraction (x : float64) : bool :=
  float_leb (S754_zero false) x && float_ltb x (S754_finite false 1 0).

(** The literals [0.10] and [0.50]. *)
Definition float_0_10 : float64 := S754_finite false 7205759403792794 (-56).
Definition float_0_50 : float64 := S754_finite false 4503599627370496 (-53).

(** [1 / 10] is the float written [0.10], so one record rejected in ten does not
    exceed that fraction, and one in nine does. *)
Example truediv_tenth : py_truediv 1 10 = float_0_10.
Proof. vm_compute. reflexivity. Qed.
Example truediv_half : py_truediv 3 6 = float_0_50.
Proof. vm_compute. reflexivity. Qed.
Example tenth_is_not_above : float_ltb float_0_10 (py_truediv 10 100) = false.
Proof. vm_compute. reflexivity. Qed.
Example ninth_is_above : float_ltb float_0_10 (py_truediv 1 9) = true.
Proof. vm_compute. reflexivity. Qed.

Lemma truediv_zero b : b <> 0 -> float_ltb float_0_10 (py_truediv 0 b) = false.
Proof. by destruct b. Qed.
