(* ===== verification/Text.v ===== *)
(** The methods of [str] the source calls on short identifiers, and the code points they
    test. *)
From S2P Require Import Prelude.

(** ** Character classes *)

Definition is_digit (c : Z) : bool := (48 <=? c) && (c <=? 57).
Definition is_upper (c : Z) : bool := (65 <=? c) && (c <=? 90).
Definition is_lower (c : Z) : bool := (97 <=? c) && (c <=? 122).
(** [0-9a-f]. *)
Definition is_hex (c : Z) : bool := is_digit c || ((97 <=? c) && (c <=? 102)).

(** [str.isspace] of one character. *)
Definition is_space (c : Z) : bool :=
  ((9 <=? c) && (c <=? 13)) || ((28 <=? c) && (c <=? 32)) || (c =? 133) || (c =? 160)
  || (c =? 5760) || ((8192 <=? c) && (c <=? 8202)) || (c =? 8232) || (c =? 8233)
  || (c =? 8239) || (c =? 8287) || (c =? 12288).

(** ** Methods *)

Fixpoint drop_while (f : Z -> bool) (s : pystr) : pystr :=
  match s with
  | [] => []
  | c :: s' => if f c then drop_while f s' else s
  end.

(** [value.strip()], and [value.strip(chars)]. *)
Definition strip_with (f : Z -> bool) (s : pystr) : pystr :=
  reverse (drop_while f (reverse (drop_while f s))).
Definition py_strip (s : pystr) : pystr := strip_with is_space s.

(** [value.startswith(prefix)]. *)
Fixpoint starts_with (p s : pystr) : bool :=
  match p, s with
  | [], _ => true
  | _ :: _, [] => false
  | a :: p, b :: s => (a =? b) && starts_with p s
  end.

(** [piece in text]. *)
Fixpoint contains (piece text : pystr) : bool :=
  starts_with piece text || match text with [] => false | _ :: text => contains piece text end.

(** [value.split(c)] for a one-character separator. *)
Fixpoint split_on (c : Z) (s : pystr) : list pystr :=
  match s with
  | [] => [[]]
  | d :: s => if d =? c then [] :: split_on c s
              else match split_on c s with
                   | [] => [[d]]
                   | w :: ws => (d :: w) :: ws
                   end
  end.

(** ** Lemmas *)

Lemma py_all_app {A} (f : A -> bool) s t : py_all f (s ++ t) = py_all f s && py_all f t.
Proof. apply forallb_app. Qed.
Lemma py_all_take {A} (f : A -> bool) n s : py_all f s = true -> py_all f (take n s) = true.
Proof. intros H. rewrite <- (take_drop n s), py_all_app in H. by reflect_bools. Qed.
Lemma py_all_drop {A} (f : A -> bool) n s : py_all f s = true -> py_all f (drop n s) = true.
Proof. intros H. rewrite <- (take_drop n s), py_all_app in H. by reflect_bools. Qed.

Lemma starts_with_app p s : starts_with p (p ++ s) = true.
Proof. induction p as [|a p IH]; [done|]. simpl. by rewrite Z.eqb_refl. Qed.

Lemma starts_with_spec p s : starts_with p s = true <-> exists r, s = p ++ r.
Proof.
  split; [|intros [r ->]; apply starts_with_app].
  revert s. induction p as [|a p IH]; intros s; [by exists s|].
  destruct s as [|b s]; [done|]. simpl. intros [Hab Hp]%andb_true_iff.
  apply Z.eqb_eq in Hab as ->. destruct (IH _ Hp) as [r ->]. by exists r.
Qed.

Lemma contains_spec p s : contains p s = true <-> exists a b, s = a ++ p ++ b.
Proof.
  split.
  - induction s as [|c s IH]; cbn [contains]; intros [Hp|Ht]%orb_true_iff; try done.
    + apply starts_with_spec in Hp as [r ->]. by exists [], r.
    + apply starts_with_spec in Hp as [r Hr]. exists [], r. by rewrite Hr.
    + destruct (IH Ht) as (a & b & ->). by exists (c :: a), b.
  - intros (a & b & ->). induction a as [|c a IH]; cbn [app].
    + destruct (p ++ b) eqn:E; cbn [contains]; rewrite <- E, starts_with_app; done.
    + cbn [contains]. by rewrite IH, orb_true_r.
Qed.

Lemma drop_while_head f s : match drop_while f s with [] => True | c :: _ => f c = false end.
Proof. induction s as [|c s IH]; [done|]. simpl. destruct (f c) eqn:E; [done|]. exact E. Qed.

Lemma drop_while_id f s : match s with [] => True | c :: _ => f c = false end -> drop_while f s = s.
Proof. destruct s; [done|]. simpl. by intros ->. Qed.

Lemma drop_while_suffix f s : drop_while f s `suffix_of` s.
Proof.
  induction s as [|c s IH]; [done|]. simpl. destruct (f c); [|done].
  by apply suffix_cons_r.
Qed.

(** Stripping is idempotent. *)
Lemma strip_with_idemp f s : strip_with f (strip_with f s) = strip_with f s.
Proof.
  unfold strip_with. set (t := drop_while f s). set (u := drop_while f (reverse t)).
  assert (Hu : match u with [] => True | c :: _ => f c = false end) by apply drop_while_head.
  assert (Ht : match t with [] => True | c :: _ => f c = false end) by apply drop_while_head.
  rewrite (drop_while_id f (reverse u)).
  - by rewrite reverse_involutive, (drop_while_id f u).
  - destruct (drop_while_suffix f (reverse t)) as [p Hp]. fold u in Hp.
    assert (Et : t = reverse u ++ reverse p) by (rewrite <- reverse_app, <- Hp; by rewrite reverse_involutive).
    destruct (reverse u) as [|c r] eqn:E; [done|]. by rewrite Et in Ht.
Qed.

(** Splitting at a separator. *)
Lemma split_on_ne c s : split_on c s <> [].
Proof. destruct s as [|d s]; simpl; [done|]. by repeat case_match. Qed.

Lemma split_on_app c s t : split_on c (s ++ c :: t) = split_on c s ++ split_on c t.
Proof.
  induction s as [|d s IH]; simpl; [by rewrite Z.eqb_refl|].
  rewrite IH. destruct (d =? c); [done|].
  pose proof (split_on_ne c s). by destruct (split_on c s).
Qed.

Lemma split_on_none c s : c ∉ s -> split_on c s = [s].
Proof.
  induction s as [|d s IH]; [done|]. intros [Hc Hs]%not_elem_of_cons. simpl.
  rewrite IH by done. destruct (Z.eqb_spec d c); [congruence|done].
Qed.

(** Byte strings and the little-endian layouts of [struct.Struct("<...")]. *)
(** [bytes]: a sequence of integers between 0 and 255. *)
Abbreviation bytes := (list Z).
Definition is_byte (b : Z) : Prop := 0 <= b < 256.

(** [data[lo:hi]] for offsets within the data. *)
Definition slice (lo hi : nat) (data : bytes) : bytes := take (hi - lo) (drop lo data).

(** An unsigned little-endian integer, and its encoding in [n] bytes. *)
Fixpoint le_combine (l : bytes) : Z :=
  match l with [] => 0 | b :: l => b + 256 * le_combine l end.
Fixpoint le_split (n : nat) (z : Z) : bytes :=
  match n with O => [] | S n => z mod 256 :: le_split n (z / 256) end.

(** The integer fields of a layout, given their widths in bytes. *)
Fixpoint unpack_fields (widths : list nat) (data : bytes) : list Z :=
  match widths with
  | [] => []
  | n :: widths => le_combine (take n data) :: unpack_fields widths (drop n data)
  end.
Fixpoint pack_fields (widths : list nat) (values : list Z) : bytes :=
  match widths, values with
  | n :: widths, z :: values => le_split n z ++ pack_fields widths values
  | _, _ => []
  end.

(** [Struct.size]. *)
Definition layout_size (widths : list nat) : nat := foldr Nat.add 0%nat widths.

(** [value] fits a field of [n] bytes. *)
Definition fits (n : nat) (value : Z) : Prop := 0 <= value < 256 ^ Z.of_nat n.
Definition all_fit (widths : list nat) (values : list Z) : Prop := Forall2 fits widths values.

(** ** Lemmas *)

Lemma le_combine_fits l : Forall is_byte l -> fits (length l) (le_combine l).
Proof.
  unfold fits. induction 1 as [|b l Hb _ IH]; cbn [length le_combine]; [lia|].
  rewrite Nat2Z.inj_succ, Z.pow_succ_r by lia. unfold is_byte in Hb. lia.
Qed.

Lemma le_split_length n z : length (le_split n z) = n.
Proof. revert z. induction n; intros; simpl; auto. Qed.

Lemma le_split_bytes n z : Forall is_byte (le_split n z).
Proof.
  revert z. induction n; intros; simpl; constructor; [|done].
  unfold is_byte. apply Z.mod_pos_bound. lia.
Qed.

Lemma le_split_combine l : Forall is_byte l -> le_split (length l) (le_combine l) = l.
Proof.
  induction 1 as [|b l Hb _ IH]; [done|]. cbn [length le_split le_combine].
  unfold is_byte in Hb. rewrite (Z.mul_comm 256), Z_mod_plus_full, Z_div_plus_full by lia.
  rewrite Z.mod_small, Z.div_small, Z.add_0_l by lia. by rewrite IH.
Qed.

Lemma le_combine_split n z : fits n z -> le_combine (le_split n z) = z.
Proof.
  unfold fits. revert z. induction n as [|n IH]; intros z Hz; simpl.
  - simpl in Hz. lia.
  - rewrite Nat2Z.inj_succ, Z.pow_succ_r in Hz by lia. rewrite IH.
    + pose proof (Z_div_mod_eq_full z 256). lia.
    + split; [apply Z.div_pos; lia|]. apply Z.div_lt_upper_bound; lia.
Qed.

Lemma pack_fields_length widths values : length widths = length values ->
  length (pack_fields widths values) = layout_size widths.
Proof.
  revert values. induction widths as [|n ws IH]; intros [|z vs] [=]; [done|].
  cbn [pack_fields]. by rewrite length_app, le_split_length, IH.
Qed.

Lemma pack_fields_bytes widths values : Forall is_byte (pack_fields widths values).
Proof.
  revert values. induction widths as [|n ws IH]; intros [|z vs]; cbn [pack_fields]; try by constructor.
  apply Forall_app. split; [apply le_split_bytes|done].
Qed.

Lemma unpack_pack widths values rest : all_fit widths values ->
  unpack_fields widths (pack_fields widths values ++ rest) = values.
Proof.
  induction 1 as [|n z ws vs Hz _ IH]; [done|]. cbn [pack_fields unpack_fields].
  rewrite <- app_assoc, take_app_length', drop_app_length' by (symmetry; apply le_split_length).
  by rewrite le_combine_split, IH.
Qed.

Lemma pack_unpack widths data : Forall is_byte data -> (layout_size widths <= length data)%nat ->
  data = pack_fields widths (unpack_fields widths data) ++ drop (layout_size widths) data.
Proof.
  revert data. induction widths as [|n ws IH]; intros data Hb Hl; [done|].
  change (layout_size (n :: ws)) with (n + layout_size ws)%nat in *.
  cbn [pack_fields unpack_fields].
  assert (Hn : length (take n data) = n) by (rewrite length_take; lia).
  rewrite <- Hn at 1. rewrite le_split_combine by by apply Forall_take.
  rewrite <- app_assoc, <- drop_drop, <- (IH (drop n data)).
  - by rewrite take_drop.
  - by apply Forall_drop.
  - rewrite length_drop. lia.
Qed.

Lemma unpack_all_fit widths data : Forall is_byte data -> (layout_size widths <= length data)%nat ->
  all_fit widths (unpack_fields widths data).
Proof.
  revert data. induction widths as [|n ws IH]; intros data Hb Hl; [constructor|].
  change (layout_size (n :: ws)) with (n + layout_size ws)%nat in *.
  cbn [unpack_fields]. constructor.
  - assert (Hn : length (take n data) = n) by (rewrite length_take; lia).
    pose proof (le_combine_fits (take n data)) as H. rewrite Hn in H. apply H. by apply Forall_take.
  - apply IH; [by apply Forall_drop|]. rewrite length_drop. lia.
Qed.
