(* ===== verification/Models.v ===== *)
(** The immutable records of [src/src/makolet/domain/models.py].

    [__post_init__] is a handler that returns or raises.  A [datetime] is naive, or
    aware and then known by its UTC instant in microseconds, which is all that
    comparisons of aware datetimes look at. *)
From S2P Require Import Prelude Errors Effects Enums PyNumbers.

Abbreviation uuid := Z (only parsing).

Inductive datetime := Naive (wall : Z) | Aware (instant : Z).
#[export] Instance datetime_eq_dec : EqDecision datetime.
Proof. solve_decision. Defined.

Definition is_aware (d : datetime) : bool :=
  match d with Aware _ => true | Naive _ => false end.
Definition instant_of (d : datetime) : Z :=
  match d with Aware i => i | Naive w => w end.

Definition MAXIMUM_PLAUSIBLE_QUANTITY : decimal := dec_of_N 1000000.
(** [Decimal("9999999999.9999")]. *)
Definition MAXIMUM_STORED_MONEY : decimal := Finite false 99999999999999 (-4).

Definition validation_error : exn := MakoletExn DomainValidationError 0.

(** ** Field checks *)

Section checks.
Context {W : Type}.

Definition ensure_aware (value : datetime) : M W unit :=
  raise_if (negb (is_aware value)) validation_error.

Definition ensure_aware_opt (value : option datetime) : M W unit :=
  match value with Some v => ensure_aware v | None => mret tt end.

Definition ensure_text_length (value : option pystr) (maximum : Z) (required : bool)
  : M W unit :=
  raise_if (required && negb (match value with Some v => str_truthy v | None => false end))
    validation_error;;
  match value with
  | Some v => raise_if (maximum <? py_len v) validation_error
  | None => mret tt
  end.

Definition ensure_decimal_range (value : option decimal) (maximum : decimal) : M W unit :=
  match value with
  | None => mret tt
  | Some v =>
      raise_if (negb (is_finite v) || dec_ltb v dec_zero || dec_ltb maximum v)
        validation_error
  end.
End checks.

(** ** Discovery metadata *)

Record RemoteFile := {
  rf_retailer_id : pystr;
  rf_portal_id : pystr;
  rf_protocol : SourceProtocol;
  rf_remote_id : pystr;
  rf_download_url : pystr;
  rf_original_filename : pystr;
  rf_document_type : DocumentType;
  rf_compression : CompressionFormat;
  rf_discovered_at : datetime;
  rf_source_timestamp : option datetime;
  rf_content_length : option Z;
  rf_media_type : option pystr;
  rf_etag : option pystr;
  rf_last_modified : option datetime;
  rf_response_metadata : list (pystr * pystr)
}.
#[export] Instance RemoteFile_eq_dec : EqDecision RemoteFile.
Proof. solve_decision. Defined.

Record ArchiveReceipt := {
  ar_content_sha256 : pystr;
  ar_object_key : pystr;
  ar_content_length : Z;
  ar_archived_at : datetime;
  ar_created : bool
}.

Definition hex_digits : pystr := py "0123456789abcdef".

(** [len(value) == 64] and every character a lowercase hexadecimal digit. *)
Definition is_sha256_hex (s : pystr) : bool :=
  (py_len s =? 64) && negb (py_any (fun c => negb (bool_decide (c ∈ hex_digits))) s).

(** [ArchiveReceipt.__post_init__]. *)
Definition ArchiveReceipt_post_init {W} (r : ArchiveReceipt) : M W unit :=
  raise_if (negb (is_sha256_hex (ar_content_sha256 r))) validation_error;;
  raise_if (ar_content_length r <? 0) validation_error;;
  ensure_aware (ar_archived_at r).

(** ** Parsed document events *)

Record DocumentMetadata := {
  dm_source_file_id : uuid;
  dm_document_type : DocumentType;
  dm_chain_id : option pystr;
  dm_subchain_id : option pystr;
  dm_store_id : option pystr;
  dm_audit_number : option pystr;
  dm_source_updated_at : option datetime
}.

Definition DocumentMetadata_post_init {W} (r : DocumentMetadata) : M W unit :=
  ensure_text_length (dm_chain_id r) 128 false;;
  ensure_text_length (dm_subchain_id r) 128 false;;
  ensure_text_length (dm_store_id r) 128 false;;
  ensure_text_length (dm_audit_number r) 128 false;;
  ensure_aware_opt (dm_source_updated_at r).

Record StoreRecord := {
  sr_source_file_id : uuid;
  sr_record_index : Z;
  sr_chain_id : pystr;
  sr_subchain_id : pystr;
  sr_store_id : pystr;
  sr_audit_number : option pystr;
  sr_store_type : option pystr;
  sr_chain_name : option pystr;
  sr_subchain_name : option pystr;
  sr_store_name : pystr;
  sr_address : option pystr;
  sr_city : option pystr;
  sr_postal_code : option pystr
}.

Definition StoreRecord_post_init {W} (r : StoreRecord) : M W unit :=
  ensure_text_length (Some (sr_chain_id r)) 128 true;;
  ensure_text_length (Some (sr_subchain_id r)) 128 false;;
  ensure_text_length (Some (sr_store_id r)) 128 true;;
  ensure_text_length (sr_audit_number r) 128 false;;
  ensure_text_length (sr_store_type r) 128 false;;
  ensure_text_length (Some (sr_store_name r)) 1024 true;;
  ensure_text_length (sr_postal_code r) 32 false.

Record PriceRecord := {
  pr_source_file_id : uuid;
  pr_record_index : Z;
  pr_chain_id : pystr;
  pr_subchain_id : pystr;
  pr_store_id : pystr;
  pr_item_code : pystr;
  pr_item_type : option Z;
  pr_item_name : pystr;
  pr_manufacturer_name : option pystr;
  pr_manufacturer_country : option pystr;
  pr_manufacturer_description : option pystr;
  pr_unit_quantity : option pystr;
  pr_quantity : option decimal;
  pr_unit_of_measure : option pystr;
  pr_is_weighted : option bool;
  pr_quantity_in_package : option decimal;
  pr_item_price : decimal;
  pr_unit_of_measure_price : option decimal;
  pr_allow_discount : option bool;
  pr_item_status : option Z;
  pr_price_updated_at : option datetime;
  pr_last_sale_at : option datetime;
  pr_audit_number : option pystr
}.

Definition PriceRecord_post_init {W} (r : PriceRecord) : M W unit :=
  ensure_text_length (Some (pr_chain_id r)) 128 true;;
  ensure_text_length (Some (pr_subchain_id r)) 128 false;;
  ensure_text_length (Some (pr_store_id r)) 128 true;;
  ensure_text_length (Some (pr_item_code r)) 128 true;;
  ensure_text_length (Some (pr_item_name r)) 2048 true;;
  ensure_text_length (pr_unit_of_measure r) 64 false;;
  ensure_text_length (pr_audit_number r) 128 false;;
  ensure_decimal_range (pr_quantity r) MAXIMUM_PLAUSIBLE_QUANTITY;;
  ensure_decimal_range (pr_quantity_in_package r) MAXIMUM_PLAUSIBLE_QUANTITY;;
  ensure_decimal_range (Some (pr_item_price r)) MAXIMUM_STORED_MONEY;;
  ensure_decimal_range (pr_unit_of_measure_price r) MAXIMUM_STORED_MONEY;;
  ensure_aware_opt (pr_price_updated_at r);;
  ensure_aware_opt (pr_last_sale_at r).

Record PromotionItem := {
  pi_item_code : pystr;
  pi_item_type : option Z;
  pi_is_gift : bool
}.

Definition PromotionItem_post_init {W} (r : PromotionItem) : M W unit :=
  ensure_text_length (Some (pi_item_code r)) 128 true.

Record PromotionRecord := {
  pm_source_file_id : uuid;
  pm_record_index : Z;
  pm_chain_id : pystr;
  pm_subchain_id : pystr;
  pm_source_store_id : option pystr;
  pm_promotion_id : pystr;
  pm_description : option pystr;
  pm_discount_kind : DiscountKind;
  pm_starts_at : option datetime;
  pm_ends_at : option datetime;
  pm_items : list PromotionItem;
  pm_store_ids : list pystr;
  pm_club_ids : list pystr;
  pm_reward_type : option Z;
  pm_allows_multiple_discounts : option bool;
  pm_minimum_quantity : option decimal;
  pm_maximum_quantity : option decimal;
  pm_discount_rate : option decimal;
  pm_minimum_purchase : option decimal;
  pm_discounted_price : option decimal;
  pm_discounted_unit_price : option decimal;
  pm_minimum_items_offered : option Z;
  pm_additional_restrictions : option pystr;
  pm_remarks : option pystr;
  pm_is_active : option bool
}.

(** [for value in values: action(value)]. *)
Fixpoint for_each {W A} (f : A -> M W unit) (l : list A) : M W unit :=
  match l with
  | [] => mret tt
  | x :: l => f x;; for_each f l
  end.

Definition PromotionRecord_post_init {W} (r : PromotionRecord) : M W unit :=
  ensure_text_length (Some (pm_chain_id r)) 128 true;;
  ensure_text_length (Some (pm_subchain_id r)) 128 false;;
  ensure_text_length (pm_source_store_id r) 128 false;;
  ensure_text_length (Some (pm_promotion_id r)) 256 true;;
  for_each (fun v => ensure_text_length (Some v) 128 true) (pm_store_ids r);;
  for_each (fun v => ensure_text_length (Some v) 128 true) (pm_club_ids r);;
  ensure_aware_opt (pm_starts_at r);;
  ensure_aware_opt (pm_ends_at r);;
  raise_if (match pm_starts_at r, pm_ends_at r with
            | Some s, Some e => instant_of e <? instant_of s
            | _, _ => false
            end) validation_error;;
  ensure_decimal_range (pm_minimum_quantity r) MAXIMUM_PLAUSIBLE_QUANTITY;;
  ensure_decimal_range (pm_maximum_quantity r) MAXIMUM_PLAUSIBLE_QUANTITY;;
  raise_if (match pm_minimum_quantity r, pm_maximum_quantity r with
            | Some lo, Some hi => dec_ltb hi lo
            | _, _ => false
            end) validation_error;;
  ensure_decimal_range (pm_discount_rate r) (dec_of_N 100);;
  for_each (fun v => ensure_decimal_range v MAXIMUM_STORED_MONEY)
    [pm_minimum_purchase r; pm_discounted_price r; pm_discounted_unit_price r];;
  raise_if (match pm_minimum_items_offered r with
            | Some n => negb ((0 <=? n) && (n <=? 1000000))
            | None => false
            end) validation_error.

Record ValidationIssue := {
  vi_source_file_id : uuid;
  vi_severity : IssueSeverity;
  vi_code : pystr;
  vi_message : pystr;
  vi_record_index : option Z;
  vi_field_name : option pystr;
  vi_rejected_value : option pystr
}.

Inductive ParsedEvent :=
  | EvMetadata (r : DocumentMetadata)
  | EvStore (r : StoreRecord)
  | EvPrice (r : PriceRecord)
  | EvPromotion (r : PromotionRecord)
  | EvIssue (r : ValidationIssue).

(** ** Promotion store relationships *)

(** [tuple(dict.fromkeys(values))]: first occurrences, in order. *)
Fixpoint dict_fromkeys_aux {A} `{EqDecision A} (seen l : list A) : list A :=
  match l with
  | [] => []
  | x :: l =>
      if bool_decide (x ∈ seen) then dict_fromkeys_aux seen l
      else x :: dict_fromkeys_aux (x :: seen) l
  end.
Definition dict_fromkeys {A} `{EqDecision A} (l : list A) : list A := dict_fromkeys_aux [] l.

Definition effective_promotion_store_ids (event : PromotionRecord) : list pystr :=
  let scoped := match pm_source_store_id event with
                | Some s => if str_truthy s then [s] else []
                | None => []
                end in
  dict_fromkeys (pm_store_ids event ++ scoped).

Section dict_fromkeys.
Context {A} `{EqDecision A}.
Implicit Types (l seen : list A).

Lemma elem_of_dict_fromkeys_aux seen l x :
  x ∈ dict_fromkeys_aux seen l <-> x ∈ l /\ x ∉ seen.
Proof.
  revert seen. induction l as [|y l IH]; intros seen; simpl; [set_solver|].
  case_bool_decide; [rewrite IH; set_solver|].
  rewrite elem_of_cons, IH, not_elem_of_cons, elem_of_cons.
  destruct (decide (x = y)) as [->|]; naive_solver.
Qed.

Lemma NoDup_dict_fromkeys_aux seen l : NoDup (dict_fromkeys_aux seen l).
Proof.
  revert seen. induction l as [|y l IH]; intros seen; simpl; [constructor|].
  case_bool_decide; [apply IH|]. constructor; [|apply IH].
  rewrite elem_of_dict_fromkeys_aux. set_solver.
Qed.

Lemma elem_of_dict_fromkeys l x : x ∈ dict_fromkeys l <-> x ∈ l.
Proof. unfold dict_fromkeys. rewrite elem_of_dict_fromkeys_aux. set_solver. Qed.

Lemma NoDup_dict_fromkeys l : NoDup (dict_fromkeys l).
Proof. apply NoDup_dict_fromkeys_aux. Qed.

Lemma length_dict_fromkeys_aux seen l :
  (length (dict_fromkeys_aux seen l) <= length l)%nat.
Proof.
  revert seen. induction l as [|y l IH]; intros seen; simpl; [lia|].
  case_bool_decide; simpl; [specialize (IH seen)|specialize (IH (y :: seen))]; lia.
Qed.

(** Deduplicating keeps a list that has no duplicates as it is. *)
Lemma dict_fromkeys_aux_id seen l :
  NoDup l -> (forall x, x ∈ l -> x ∉ seen) -> dict_fromkeys_aux seen l = l.
Proof.
  intros Hl. revert seen. induction Hl as [|y l Hy Hl IH]; intros seen Hd; simpl; [done|].
  rewrite bool_decide_eq_false_2 by set_solver. f_equal. apply IH. set_solver.
Qed.

Lemma dict_fromkeys_id l : NoDup l -> dict_fromkeys l = l.
Proof. intros. apply dict_fromkeys_aux_id; set_solver. Qed.
End dict_fromkeys.
#[export] Hint Resolve NoDup_dict_fromkeys : makolet.
