(* ===== verification/AppModels.v ===== *)
(** Command and result values of the application layer:
    [src/src/makolet/application/models.py]. *)
From S2P Require Import Prelude Errors Effects Enums PyNumbers Models.

(** ** Validation evidence *)

Definition issue_texts (issue : ValidationIssue) : list (option pystr) :=
  [Some (vi_code issue); Some (vi_message issue); vi_field_name issue;
   vi_rejected_value issue].

(** [validation_issue_charge]. *)
Definition validation_issue_charge (issue : ValidationIssue) : Z :=
  64 + zsum (map utf8_len (omap id (issue_texts issue))).

Lemma utf8_len_nonneg s : 0 <= utf8_len s.
Proof. pose proof (utf8_len_bounds s). pose proof (py_len_nonneg s). lia. Qed.

Lemma validation_issue_charge_lower issue : 64 <= validation_issue_charge issue.
Proof.
  unfold validation_issue_charge.
  assert (0 <= zsum (map utf8_len (omap id (issue_texts issue)))); [|lia].
  apply zsum_nonneg, Forall_forall. intros z Hz.
  apply list_elem_of_fmap in Hz as (s & -> & _). apply utf8_len_nonneg.
Qed.

(** ** The listing budget of one collection run

    Clock readings and durations are integers (nanoseconds); [time.monotonic] is
    the argument [now]. *)
Record DiscoveryRunBudget := {
  maximum_requests : Z;
  maximum_bytes : Z;
  maximum_elapsed : Z;
  request_count : Z;
  consumed_bytes : Z;
  started_at : Z
}.

Definition one_second : Z := 1000000000.

(** The constructor with its [__post_init__]. *)
Definition new_budget {W} (requests bytes elapsed now : Z) : M W DiscoveryRunBudget :=
  raise_if (negb ((1 <=? requests) && (requests <=? 1000000))) (PyExn ValueError);;
  raise_if (negb ((1 <=? bytes) && (bytes <=? 1024 * 1024 * 1024))) (PyExn ValueError);;
  raise_if (negb ((0 <? elapsed) && (elapsed <=? 86400 * one_second))) (PyExn ValueError);;
  mret {| maximum_requests := requests; maximum_bytes := bytes; maximum_elapsed := elapsed;
          request_count := 0; consumed_bytes := 0; started_at := now |}.

Definition remaining_bytes (b : DiscoveryRunBudget) : Z := maximum_bytes b - consumed_bytes b.
Definition remaining_elapsed (now : Z) (b : DiscoveryRunBudget) : Z :=
  Z.max 0 (maximum_elapsed b - (now - started_at b)).
Definition elapsed_exhausted (now : Z) (b : DiscoveryRunBudget) : bool :=
  remaining_elapsed now b <=? 0.

Definition with_request (b : DiscoveryRunBudget) : DiscoveryRunBudget :=
  {| maximum_requests := maximum_requests b; maximum_bytes := maximum_bytes b;
     maximum_elapsed := maximum_elapsed b; request_count := request_count b + 1;
     consumed_bytes := consumed_bytes b; started_at := started_at b |}.
Definition with_bytes (n : Z) (b : DiscoveryRunBudget) : DiscoveryRunBudget :=
  {| maximum_requests := maximum_requests b; maximum_bytes := maximum_bytes b;
     maximum_elapsed := maximum_elapsed b; request_count := request_count b;
     consumed_bytes := consumed_bytes b + n; started_at := started_at b |}.

Definition budget_exceeded (r : discovery_reason) : exn :=
  MakoletExn (DiscoveryBudgetExceededError r) 0.

Definition checkpoint (now : Z) : M DiscoveryRunBudget unit :=
  b ← get_state;
  raise_if (elapsed_exhausted now b) (budget_exceeded listing_elapsed_limit).

Definition begin_request (minimum_bytes now : Z) : M DiscoveryRunBudget unit :=
  raise_if (minimum_bytes <? 0) (PyExn ValueError);;
  checkpoint now;;
  b ← get_state;
  raise_if (maximum_requests b <=? request_count b) (budget_exceeded listing_request_limit);;
  raise_if ((remaining_bytes b <? minimum_bytes) || (remaining_bytes b <=? 0))
    (budget_exceeded listing_byte_limit);;
  modify with_request.

Definition consume_bytes (byte_count now : Z) : M DiscoveryRunBudget unit :=
  raise_if (byte_count <? 0) (PyExn ValueError);;
  checkpoint now;;
  b ← get_state;
  raise_if (remaining_bytes b <? byte_count) (budget_exceeded listing_byte_limit);;
  modify (with_bytes byte_count).

(** One listing's work against its budget, as the adapters do it: requests and byte
    charges, each at a clock reading, up to the first refusal. *)
Inductive listing_step := ListRequest (minimum : Z) | ListBytes (n : Z).
Definition listing_op (s : listing_step) (now : Z) : M DiscoveryRunBudget unit :=
  match s with ListRequest m => begin_request m now | ListBytes n => consume_bytes n now end.
Fixpoint listing_run (l : list (listing_step * Z)) : M DiscoveryRunBudget unit :=
  match l with
  | [] => mret tt
  | (s, now) :: l => listing_op s now;; listing_run l
  end.

Definition budget_wf (b : DiscoveryRunBudget) : Prop :=
  0 <= request_count b <= maximum_requests b /\ 0 <= consumed_bytes b <= maximum_bytes b.
Definition same_limits (b b' : DiscoveryRunBudget) : Prop :=
  maximum_requests b' = maximum_requests b /\ maximum_bytes b' = maximum_bytes b /\
  maximum_elapsed b' = maximum_elapsed b /\ started_at b' = started_at b.

(** How many requests, and how many bytes, a run was granted. *)
Definition granted_requests (l : list (listing_step * Z)) : Z :=
  zsum (map (fun s => match s.1 with ListRequest _ => 1 | ListBytes _ => 0 end) l).
Definition granted_bytes (l : list (listing_step * Z)) : Z :=
  zsum (map (fun s => match s.1 with ListRequest _ => 0 | ListBytes n => n end) l).

Lemma listing_op_spec s now b :
  budget_wf b ->
  wp (listing_op s now)
    (fun _ b' => budget_wf b' /\ same_limits b b' /\ elapsed_exhausted now b = false /\
       request_count b' = request_count b + granted_requests [(s, now)] /\
       consumed_bytes b' = consumed_bytes b + granted_bytes [(s, now)])
    (fun _ b' => b' = b) b.
Proof.
  intros [Hr Hb]. unfold wp, same_limits, budget_wf in *.
  destruct s; simpl; unfold begin_request, consume_bytes, checkpoint, raise_if, get_state,
    modify, raise, mret, M_ret, mbind, M_bind, remaining_bytes in *;
    repeat (case_match; simplify_eq/=); reflect_bools; try done; repeat split;
    unfold granted_requests, granted_bytes; simpl; try done; lia.
Qed.

(** [CollectionChargeBudget] with its [__post_init__]. *)
Record CollectionChargeBudget := {
  run_charged_bytes : Z;
  day_charged_bytes : Z;
  day_source_identities : Z;
  day_transfer_attempts : Z;
  day_successes : Z
}.
#[export] Instance CollectionChargeBudget_eq_dec : EqDecision CollectionChargeBudget.
Proof. solve_decision. Defined.

Definition new_charge_budget {W} (b : CollectionChargeBudget) : M W CollectionChargeBudget :=
  raise_if (Z.min (run_charged_bytes b) (Z.min (day_charged_bytes b)
             (Z.min (day_source_identities b)
               (Z.min (day_transfer_attempts b) (day_successes b)))) <? 0)
    (PyExn ValueError);;
  mret b.

(** [CollectionScope] and its [__post_init__]; [operation] is the validated pair of
    literals.  Comparing the portal tuple with its sorted deduplication is the
    code's test that it is strictly increasing. *)
Inductive operation := ordinary | backfill.
#[export] Instance operation_eq_dec : EqDecision operation.
Proof. solve_decision. Defined.

Record CollectionScope := {
  sc_source_id : pystr;
  sc_portal_ids : list pystr;
  sc_operation : operation;
  sc_since : option datetime;
  sc_until : option datetime;
  sc_archive_only : bool
}.
#[export] Instance CollectionScope_eq_dec : EqDecision CollectionScope.
Proof. solve_decision. Defined.

(** One attempt of a traversal, and its committed boundary. *)
Record CollectionAttempt := {
  ca_attempt_id : uuid;
  ca_checkpoint_id : uuid;
  ca_generation : Z;
  ca_cursor : option pystr;
  ca_page_offset : Z;
  ca_recognized_count : Z;
  ca_unknown_count : Z;
  ca_retry_boundary : bool
}.

(** ** Ingestion values *)

Record RegisteredSourceFile := {
  reg_source_file_id : uuid;
  reg_remote_file : RemoteFile;
  reg_status : IngestionStatus;
  reg_already_registered : bool;
  reg_completed_content_sha256 : option pystr;
  reg_archive_object_key : option pystr;
  reg_content_sha256 : option pystr;
  reg_archive_content_length : option Z
}.

Record DownloadEvidence := {
  de_started_at : datetime;
  de_finished_at : datetime;
  de_status_code : option Z;
  de_content_length : Z;
  de_media_type : option pystr;
  de_etag : option pystr;
  de_last_modified : option datetime;
  de_response_metadata : list (pystr * pystr)
}.

Record ArchivedDownload := {
  ad_archive : ArchiveReceipt;
  ad_evidence : DownloadEvidence;
  ad_transferred_bytes : Z
}.

(** [ArchivedDownload.__post_init__], also run by [replace]. *)
Definition ArchivedDownload_post_init {W} (a : ArchivedDownload) : M W unit :=
  raise_if (ad_transferred_bytes a <? 0) (PyExn ValueError).

Record StageSummary := {
  metadata_records : Z;
  store_records : Z;
  price_records : Z;
  promotion_records : Z;
  warnings : Z;
  rejected_records : Z;
  file_quarantines : Z;
  validation_issue_bytes : Z;
  sampled_validation_issues : Z
}.
#[export] Instance StageSummary_eq_dec : EqDecision StageSummary.
Proof. solve_decision. Defined.

(** [StageSummary()]. *)
Definition empty_stage : StageSummary :=
  {| metadata_records := 0; store_records := 0; price_records := 0; promotion_records := 0;
     warnings := 0; rejected_records := 0; file_quarantines := 0;
     validation_issue_bytes := 0; sampled_validation_issues := 0 |}.

Definition accepted_records (s : StageSummary) : Z :=
  store_records s + price_records s + promotion_records s.

Record ApplySummary := {
  inserted : Z;
  updated : Z;
  unchanged : Z;
  unavailable : Z;
  history_events : Z
}.

Record IngestionResult := {
  ir_source_file_id : uuid;
  ir_status : IngestionStatus;
  ir_content_sha256 : option pystr;
  ir_stage : option StageSummary;
  ir_apply : option ApplySummary;
  ir_duplicate : bool;
  ir_replayed : bool;
  ir_transferred_bytes : Z
}.

(** [IngestionResult.__post_init__]. *)
Definition IngestionResult_post_init {W} (r : IngestionResult) : M W unit :=
  raise_if (ir_transferred_bytes r <? 0) (PyExn ValueError).
