(* ===== verification/Ports.v ===== *)
(** The structural ports of [src/src/makolet/application/ports.py], as classes: what
    the ingestion service asks of the repository, the archive, the transports, the
    parser and the lease manager.  [W] is the state they share; each operation is a
    handler on it.  Logging and metric calls have no port here. *)
From S2P Require Import Prelude Errors Effects Enums PyNumbers Models AppModels.

(** [IngestionRepository]. *)
Class IngestionRepository (W : Type) := {
  assert_ingestion_allowed : option uuid -> M W unit;
  register_discovery : RemoteFile -> bool -> M W RegisteredSourceFile;
  repo_get : uuid -> M W RegisteredSourceFile;
  transition :
    uuid -> list IngestionStatus -> IngestionStatus -> option string -> M W unit;
  record_archive : uuid -> ArchivedDownload -> pystr -> M W bool;
  reuse_validated_staging :
    uuid -> pystr -> DocumentType -> CompressionFormat -> M W (option StageSummary);
  stage : uuid -> list ParsedEvent -> M W StageSummary;
  finalize_staging : uuid -> DocumentType -> M W StageSummary;
  has_file_quarantine_issue : uuid -> M W bool;
  apply_staged : uuid -> DocumentType -> Z -> float64 -> M W ApplySummary;
  archive_sha256 : uuid -> M W pystr;
  begin_replay : uuid -> pystr -> option uuid -> M W uuid;
  finish_replay : uuid -> bool -> option string -> M W unit
}.

(** [RawArchive].  [put] consumes the raw chunk stream of an open download session;
    [open_archive] gives the handle the parser reads its chunks from. *)
Class RawArchive (W Session Chunks : Type) := {
  archive_put : Session -> pystr -> M W (pystr * Z * bool);
  open_archive : pystr -> M W Chunks;
  close_archive : Chunks -> M W unit;
  archive_verify : pystr -> pystr -> M W Z
}.

(** [Downloader] and [DownloadSession]; [close_session] is the exit of the
    [async with] block. *)
Class Downloader (W Session : Type) := {
  open_download : RemoteFile -> option Z -> M W Session;
  session_transferred : Session -> M W Z;
  session_finish : Session -> Z -> M W DownloadEvidence;
  close_session : Session -> M W unit
}.

(** [DocumentParser].  A parse reads only its chunk stream, so what a consumer of
    the generator sees is a finite sequence of events that ends by exhaustion
    ([None]) or with an exception. *)
Class DocumentParser (W Chunks : Type) := {
  parser_version : pystr;
  parse :
    Chunks -> uuid -> DocumentType -> CompressionFormat -> pystr ->
    M W (list ParsedEvent * option exn)
}.

(** [LeaseManager]: entering the context yields whether the lease was acquired,
    leaving it releases what was acquired. *)
Class LeaseManager (W : Type) := {
  lease_acquire : pystr -> pystr -> Z -> M W bool;
  lease_release : pystr -> M W unit
}.

(** The resource [source-file:<id>]: [str(UUID)] as it appears in a lease resource; any injective rendering serves. *)
Definition source_file_resource (sid : uuid) : pystr := py "source-file:" ++ [sid].

(** [async with leases.acquire(resource, owner, ttl) as acquired: body].  The
    release runs on every exit; if it raises, its exception is the one that
    propagates. *)
Definition with_lease {W A} `{LeaseManager W} (resource owner : pystr) (ttl : Z)
    (body : bool -> M W A) : M W A :=
  acquired ← lease_acquire resource owner ttl;
  result ← try_with (body acquired)
             (fun e => when acquired (lease_release resource);; raise e);
  when acquired (lease_release resource);;
  mret result.

(** [AsyncRetrying(stop=stop_after_attempt(limit), retry=retry_if_exception(p),
    reraise=True)] around one [with attempt:] body that returns from the enclosing
    function: the library calls the body with attempt numbers from 1 and either
    runs it again or re-raises.  Its waiting time between attempts has no state. *)
Fixpoint attempts {W A} (more : nat) (number : Z) (p : exn -> bool)
    (body : Z -> M W A) : M W A :=
  match more with
  | O => body number
  | S more =>
      try_with (body number) (fun e =>
        if p e then attempts more (number + 1) p body else raise e)
  end.

(** The library's loop, and its documented behaviour. *)
Class Retrying := { retrying : forall {W A}, Z -> (exn -> bool) -> (Z -> M W A) -> M W A }.
Class RetryingOk `{Retrying} : Prop := {
  retrying_attempts : forall W A limit p (body : Z -> M W A) w,
    0 < limit -> retrying limit p body w = attempts (Z.to_nat limit - 1) 1 p body w
}.
