(* ===== verification/Database.v ===== *)
(** The source-file tables of [src/src/makolet/adapters/persistence/schema.py] and the
    transaction discipline of [adapters/persistence/ingestion.py] and
    [adapters/persistence/leases.py].

    A surrogate id whose row also has a unique natural key is represented by that
    key: a retailer by its source key, a portal by retailer and portal key, an
    archive object by its digest.  Columns no modelled operation reads back (error
    messages, creation times) are left out; the staging counters of a run belong to
    the staging tables. *)
From S2P Require Import Prelude Errors Effects Enums PyNumbers Models AppModels Ports.

(** ** Rows *)

(** [source_files]: the discovery columns are those of the [RemoteFile] they were
    written from. *)
Record SourceRow := {
  src_remote : RemoteFile;
  src_status : IngestionStatus;
  src_archive : option pystr;
  src_parser_version : option pystr;
  src_evidence : option DownloadEvidence;
  src_error_code : option string;
  src_updated_at : Z
}.

(** [ingestion_runs]. *)
Record RunRow := {
  run_id : uuid;
  run_source : uuid;
  run_attempt : Z;
  run_status : IngestionStatus;
  run_finished_at : option Z;
  run_error_code : option string
}.

(** [source_file_events]. *)
Record EventRow := {
  ev_source : uuid;
  ev_run : uuid;
  ev_from : option IngestionStatus;
  ev_to : IngestionStatus;
  ev_error_code : option string
}.

(** [raw_archive_objects], keyed by [content_sha256]. *)
Record ArchiveRow := {
  arc_object_key : pystr;
  arc_content_length : Z;
  arc_archived_at : datetime
}.

(** [replay_runs]. *)
Record ReplayRow := {
  rp_id : uuid;
  rp_source : uuid;
  rp_rebuild : option uuid;
  rp_requested_version : pystr;
  rp_previous_version : option pystr;
  rp_status : IngestionStatus;
  rp_finished_at : option Z;
  rp_succeeded : option bool;
  rp_error_code : option string
}.

(** [normalized_rebuild_runs], keyed by id; a column that is only reported is left out. *)
Inductive RebuildStatus := REBUILD_RUNNING | REBUILD_FAILED | REBUILD_COMPLETED.
#[export] Instance RebuildStatus_eq_dec : EqDecision RebuildStatus.
Proof. solve_decision. Defined.

Record RebuildRun := {
  nr_status : RebuildStatus;
  nr_requested_by : pystr;
  nr_parser_version : pystr;
  nr_archive_cutoff : Z;
  nr_total : Z;
  nr_completed : Z;
  nr_last_sequence : option Z;
  nr_last_source : option uuid;
  nr_last_archived_at : option datetime;
  nr_finished_at : option Z;
  nr_error_code : option string
}.

(** [clock] is [clock_timestamp()] and [next_id] the source of [gen_random_uuid()]:
    an id no row has. *)
Record Db := {
  portals : gmap (pystr * pystr) SourceProtocol;
  sources : gmap uuid SourceRow;
  runs : list RunRow;
  events : list EventRow;
  archives : gmap pystr ArchiveRow;
  replays : list ReplayRow;
  active_rebuild : option uuid;
  rebuild_runs : gmap uuid RebuildRun;
  clock : Z;
  next_id : uuid
}.

Definition empty_db : Db :=
  {| portals := ∅; sources := ∅; runs := []; events := []; archives := ∅; replays := [];
     active_rebuild := None; rebuild_runs := ∅; clock := 0; next_id := 1 |}.

(** Writes of one table. *)
Definition set_portals f (d : Db) := {| portals := f (portals d); sources := sources d;
  runs := runs d; events := events d; archives := archives d; replays := replays d;
  active_rebuild := active_rebuild d; rebuild_runs := rebuild_runs d;
  clock := clock d; next_id := next_id d |}.
Definition set_sources f (d : Db) := {| portals := portals d; sources := f (sources d);
  runs := runs d; events := events d; archives := archives d; replays := replays d;
  active_rebuild := active_rebuild d; rebuild_runs := rebuild_runs d;
  clock := clock d; next_id := next_id d |}.
Definition set_runs f (d : Db) := {| portals := portals d; sources := sources d;
  runs := f (runs d); events := events d; archives := archives d; replays := replays d;
  active_rebuild := active_rebuild d; rebuild_runs := rebuild_runs d;
  clock := clock d; next_id := next_id d |}.
Definition set_events f (d : Db) := {| portals := portals d; sources := sources d;
  runs := runs d; events := f (events d); archives := archives d; replays := replays d;
  active_rebuild := active_rebuild d; rebuild_runs := rebuild_runs d;
  clock := clock d; next_id := next_id d |}.
Definition set_archives f (d : Db) := {| portals := portals d; sources := sources d;
  runs := runs d; events := events d; archives := f (archives d); replays := replays d;
  active_rebuild := active_rebuild d; rebuild_runs := rebuild_runs d;
  clock := clock d; next_id := next_id d |}.
Definition set_replays f (d : Db) := {| portals := portals d; sources := sources d;
  runs := runs d; events := events d; archives := archives d; replays := f (replays d);
  active_rebuild := active_rebuild d; rebuild_runs := rebuild_runs d;
  clock := clock d; next_id := next_id d |}.
Definition bump_id (d : Db) := {| portals := portals d; sources := sources d;
  runs := runs d; events := events d; archives := archives d; replays := replays d;
  active_rebuild := active_rebuild d; rebuild_runs := rebuild_runs d;
  clock := clock d; next_id := next_id d + 1 |}.

(** [gen_random_uuid()]. *)
Definition fresh_id : M Db uuid := d ← get_state; modify bump_id;; mret (next_id d).

(** ** Sessions and locks

    [lock_stack] is the context variable [_CURRENT_INGESTION_LOCK] with the values its
    tokens restore; [held] are the advisory locks of every session, by hash. *)
Record Session_state := {
  db : Db;
  lock_stack : list pystr;
  held : gset Z
}.

Definition current_ingestion_lock (s : Session_state) : option pystr := head (lock_stack s).

Definition with_db (d : Db) (s : Session_state) : Session_state :=
  {| db := d; lock_stack := lock_stack s; held := held s |}.

(** [self._engine.begin()] or [lock.connection.begin()]: the body commits when it
    returns and is rolled back when it raises. *)
Definition begin {A} (m : M Db A) : M Session_state A := fun s =>
  let '(r, d) := transaction m (db s) in (r, with_db d s).

Definition conflict : exn := PyExn PersistenceConflictError.
Definition not_found : exn := PyExn PersistenceNotFoundError.

(** [PostgresIngestionRepository._transaction]. *)
Definition in_transaction {A} (sid : option uuid) (require_owned : bool) (m : M Db A)
    : M Session_state A :=
  lock ← gets current_ingestion_lock;
  raise_if (require_owned && bool_decide (lock = None)) conflict;;
  raise_if (match lock, sid with
            | Some r, Some i => negb (bool_decide (r = source_file_resource i))
            | _, _ => false
            end) conflict;;
  begin m.

(** ** Leases *)

Definition MAXIMUM_LEASE_TTL : Z := 24 * 3600 * 1000000.

Section leases.
(** [hashtextextended(resource, 0)]. *)
Variable hash_resource : pystr -> Z.

(** [PostgresLeaseManager.acquire] up to its [yield]. *)
Definition acquire (resource owner : pystr) (ttl : Z) : M Session_state bool :=
  raise_if (negb (str_truthy resource) || (512 <? py_len resource)) (PyExn ValueError);;
  raise_if (negb (str_truthy owner) || (256 <? py_len owner)) (PyExn ValueError);;
  raise_if ((ttl <=? 0) || (MAXIMUM_LEASE_TTL <? ttl)) (PyExn ValueError);;
  s ← get_state;
  let key := hash_resource (py "makolet:ingestion-file:" ++ resource) in
  if bool_decide (key ∈ held s) then mret false
  else
    put_state {| db := db s; lock_stack := resource :: lock_stack s;
                 held := {[ key ]} ∪ held s |};;
    mret true.

(** Its [finally] block for an acquired lock. *)
Definition release (resource : pystr) : M Session_state unit :=
  modify (fun s =>
    {| db := db s; lock_stack := tail (lock_stack s);
       held := held s ∖ {[ hash_resource (py "makolet:ingestion-file:" ++ resource) ]} |}).
End leases.
