(* ===== verification/SourceFiles.v ===== *)
(** Source-file lifecycle persistence: [register_discovery], [get], [transition],
    [record_archive], [archive_sha256], [begin_replay] and [finish_replay] of
    [src/src/makolet/adapters/persistence/ingestion.py], the maintenance barrier of
    [adapters/persistence/maintenance.py] and [recover_stale_jobs] of
    [adapters/persistence/operations.py]. *)
From S2P Require Import Prelude Errors Effects Enums PyNumbers Models AppModels Ports Database.

(** ** Reading rows *)

Definition runs_of (sid : uuid) (d : Db) : list RunRow :=
  filter (fun r => run_source r = sid) (runs d).

(** [SELECT max(attempt) ... WHERE source_file_id = sid], [NULL] when there is none. *)
Definition max_attempt (l : list RunRow) : option Z :=
  foldr (fun r m => match m with
                    | Some k => Some (Z.max (run_attempt r) k)
                    | None => Some (run_attempt r)
                    end) None l.

(** [_current_run_id]: the run of the highest attempt. *)
Definition current_run (sid : uuid) (d : Db) : option RunRow :=
  let l := runs_of sid d in
  match max_attempt l with
  | Some k => find (fun r => run_attempt r =? k) l
  | None => None
  end.

Definition current_run_id (sid : uuid) : M Db uuid :=
  d ← get_state;
  match current_run sid d with
  | Some r => mret (run_id r)
  | None => raise not_found
  end.

(** [_source_row]. *)
Definition source_row (sid : uuid) : M Db SourceRow :=
  d ← get_state;
  match sources d !! sid with
  | Some r => mret r
  | None => raise not_found
  end.

(** The archive object a source row joins to. *)
Definition joined_archive (d : Db) (r : SourceRow) : option (pystr * ArchiveRow) :=
  sha ← src_archive r; a ← archives d !! sha; Some (sha, a).

(** [_registered_source_file]. *)
Definition registered_source_file (d : Db) (sid : uuid) (r : SourceRow) (already : bool)
    : RegisteredSourceFile :=
  let joined := joined_archive d r in
  let sha := fst <$> joined in
  {| reg_source_file_id := sid;
     reg_remote_file := src_remote r;
     reg_status := src_status r;
     reg_already_registered := already;
     reg_completed_content_sha256 :=
       if bool_decide (src_status r = COMPLETED)
       then match sha with Some s => if str_truthy s then Some s else None | None => None end
       else None;
     reg_archive_object_key := (fun p => arc_object_key p.2) <$> joined;
     reg_content_sha256 := sha;
     reg_archive_content_length := (fun p => arc_content_length p.2) <$> joined |}.

(** ** Writing rows *)

Definition update_source (sid : uuid) (f : SourceRow -> SourceRow) (d : Db) : Db :=
  set_sources (alter f sid) d.

Definition update_run (rid : uuid) (f : RunRow -> RunRow) (d : Db) : Db :=
  set_runs (map (fun r => if run_id r =? rid then f r else r)) d.

Definition insert_run (r : RunRow) (d : Db) : Db := set_runs (fun l => l ++ [r]) d.
Definition insert_event (e : EventRow) (d : Db) : Db := set_events (fun l => l ++ [e]) d.

(** [source_files.status], the error columns and [updated_at]. *)
Definition with_status (s : IngestionStatus) (code : option string) (now : Z)
    (r : SourceRow) : SourceRow :=
  {| src_remote := src_remote r; src_status := s; src_archive := src_archive r;
     src_parser_version := src_parser_version r; src_evidence := src_evidence r;
     src_error_code := code; src_updated_at := now |}.

Definition run_with_status (s : IngestionStatus) (code : option string)
    (finished : option Z) (r : RunRow) : RunRow :=
  {| run_id := run_id r; run_source := run_source r; run_attempt := run_attempt r;
     run_status := s; run_finished_at := finished; run_error_code := code |}.

(** ** The maintenance barrier *)

Definition assert_db_ingestion_allowed (rebuild : option uuid) : M Db unit :=
  d ← get_state;
  match active_rebuild d with
  | None =>
      raise_if (match rebuild with Some _ => true | None => false end)
        (MakoletExn MaintenanceModeError 0)
  | Some active =>
      raise_if (negb (bool_decide (rebuild = Some active))) (MakoletExn MaintenanceModeError 0);;
      raise_if (negb (bool_decide (nr_status <$> rebuild_runs d !! active = Some REBUILD_RUNNING)))
        (MakoletExn MaintenanceModeError 0)
  end.

(** ** Rediscovery *)

(** The parts of a URL the rotation test reads, from [urlsplit] and [parse_qsl]. *)
Record SplitUrl := {
  url_scheme : pystr;
  url_hostname : option pystr;
  url_port : option Z;
  url_path : pystr;
  url_fragment : pystr;
  url_query : list (pystr * pystr)
}.

(** The order of Python strings: lexicographic by code point. *)
Fixpoint pystr_leb (a b : pystr) : bool :=
  match a, b with
  | [], _ => true
  | _, [] => false
  | x :: a, y :: b => (x <? y) || ((x =? y) && pystr_leb a b)
  end.
Definition pair_leb (a b : pystr * pystr) : bool :=
  if bool_decide (a.1 = b.1) then pystr_leb a.2 b.2 else pystr_leb a.1 b.1.

Fixpoint insert_sorted (x : pystr * pystr) (l : list (pystr * pystr)) :=
  match l with
  | [] => [x]
  | y :: l => if pair_leb x y then x :: y :: l else y :: insert_sorted x l
  end.
(** [sorted] of a list of string pairs. *)
Definition py_sorted (l : list (pystr * pystr)) : list (pystr * pystr) :=
  foldr insert_sorted [] l.

Definition SIGNED_QUERY_KEYS : list pystr := map py
  ["access_token"; "expires"; "expiry"; "se"; "sig"; "signature"; "ske"; "skoid"; "sks";
   "skt"; "sktid"; "skv"; "sp"; "sr"; "st"; "sv"; "token"]%string.

(** [str.startswith]. *)
Definition starts_with (prefix s : pystr) : bool := bool_decide (prefix `prefix_of` s).

Definition is_signed_query_key (key : pystr) : bool :=
  bool_decide (key ∈ SIGNED_QUERY_KEYS)
  || starts_with (py "x-amz-") key || starts_with (py "x-goog-") key.

Section urls.
(** [urlsplit] with [parse_qsl(..., keep_blank_values=True)], and [str.casefold]. *)
Variable split_url : pystr -> SplitUrl.
Variable casefold : pystr -> pystr.

(** [_url_identity]. *)
Definition url_identity (u : SplitUrl) : option pystr * option Z * pystr * pystr :=
  (casefold <$> url_hostname u, url_port u, url_path u, url_fragment u).

Definition folded_query (u : SplitUrl) : list (pystr * pystr) :=
  map (fun p => (casefold p.1, p.2)) (url_query u).
Definition stable_query (u : SplitUrl) : list (pystr * pystr) :=
  py_sorted (List.filter (fun p => negb (is_signed_query_key p.1)) (folded_query u)).
Definition signed_query (u : SplitUrl) : list (pystr * pystr) :=
  py_sorted (List.filter (fun p => is_signed_query_key p.1) (folded_query u)).

Definition nonempty {A} (l : list A) : bool := match l with [] => false | _ => true end.

(** [_is_signed_url_rotation]. *)
Definition is_signed_url_rotation (existing candidate : pystr) : bool :=
  let existing_url := split_url existing in
  let candidate_url := split_url candidate in
  if negb (bool_decide (casefold (url_scheme existing_url) = py "https"))
     || negb (bool_decide (casefold (url_scheme candidate_url) = py "https"))
  then false
  else if negb (bool_decide (url_identity existing_url = url_identity candidate_url))
  then false
  else
    bool_decide (stable_query existing_url = stable_query candidate_url)
    && nonempty (signed_query existing_url) && nonempty (signed_query candidate_url)
    && negb (bool_decide (signed_query existing_url = signed_query candidate_url)).

(** A column [_rediscovery_updates] may write, with its value. *)
Inductive column :=
  | ColDownloadUrl (v : pystr)
  | ColSourceTimestamp (v : datetime)
  | ColDeclaredContentLength (v : Z)
  | ColMediaType (v : pystr)
  | ColEtag (v : pystr)
  | ColLastModified (v : datetime)
  | ColResponseMetadata (v : list (pystr * pystr)).

(** One [candidate_evidence] entry. *)
Definition evidence_update {A} `{EqDecision A} (col : A -> column) (writable : bool)
    (existing candidate : option A) : M Db (list column) :=
  match existing, candidate with
  | Some x, Some y => raise_if (negb (bool_decide (x = y))) conflict;; mret []
  | None, Some y => mret (if writable then [col y] else [])
  | _, None => mret []
  end.

(** [_rediscovery_updates]. *)
Definition rediscovery_updates (row : SourceRow) (rf : RemoteFile) (owned_refresh : bool)
    : M Db (list column) :=
  let old := src_remote row in
  raise_if (negb (bool_decide (rf_original_filename old = rf_original_filename rf))) conflict;;
  raise_if (negb (bool_decide (rf_document_type old = rf_document_type rf))) conflict;;
  raise_if (negb (bool_decide (rf_compression old = rf_compression rf))) conflict;;
  raise_if (negb (bool_decide (rf_protocol old = rf_protocol rf))) conflict;;
  let archive_attached := match src_archive row with Some _ => true | None => false end in
  let writable := owned_refresh && negb archive_attached in
  url ← (if bool_decide (rf_download_url old = rf_download_url rf) then mret []
         else
           raise_if (negb (bool_decide (rf_protocol rf = HTTPS))
                     || negb (is_signed_url_rotation (rf_download_url old)
                                (rf_download_url rf))) conflict;;
           mret (if writable then [ColDownloadUrl (rf_download_url rf)] else []));
  c1 ← evidence_update ColSourceTimestamp writable (rf_source_timestamp old)
         (rf_source_timestamp rf);
  c2 ← evidence_update ColDeclaredContentLength writable (rf_content_length old)
         (rf_content_length rf);
  c3 ← evidence_update ColMediaType writable (rf_media_type old) (rf_media_type rf);
  c4 ← evidence_update ColEtag writable (rf_etag old) (rf_etag rf);
  c5 ← evidence_update ColLastModified writable (rf_last_modified old) (rf_last_modified rf);
  let existing_metadata := rf_response_metadata old in
  let candidate_metadata := rf_response_metadata rf in
  raise_if (nonempty existing_metadata && nonempty candidate_metadata
            && negb (bool_decide (existing_metadata = candidate_metadata))) conflict;;
  let c6 := if writable && negb (nonempty existing_metadata) && nonempty candidate_metadata
            then [ColResponseMetadata candidate_metadata] else [] in
  mret (url ++ c1 ++ c2 ++ c3 ++ c4 ++ c5 ++ c6).

Definition write_column (rf : RemoteFile) (c : column) : RemoteFile :=
  let w url ts len media etag modified metadata := {|
    rf_retailer_id := rf_retailer_id rf; rf_portal_id := rf_portal_id rf;
    rf_protocol := rf_protocol rf; rf_remote_id := rf_remote_id rf;
    rf_download_url := url; rf_original_filename := rf_original_filename rf;
    rf_document_type := rf_document_type rf; rf_compression := rf_compression rf;
    rf_discovered_at := rf_discovered_at rf; rf_source_timestamp := ts;
    rf_content_length := len; rf_media_type := media; rf_etag := etag;
    rf_last_modified := modified; rf_response_metadata := metadata |} in
  let url := rf_download_url rf in let ts := rf_source_timestamp rf in
  let len := rf_content_length rf in let media := rf_media_type rf in
  let etag := rf_etag rf in let modified := rf_last_modified rf in
  let metadata := rf_response_metadata rf in
  match c with
  | ColDownloadUrl v => w v ts len media etag modified metadata
  | ColSourceTimestamp v => w url (Some v) len media etag modified metadata
  | ColDeclaredContentLength v => w url ts (Some v) media etag modified metadata
  | ColMediaType v => w url ts len (Some v) etag modified metadata
  | ColEtag v => w url ts len media (Some v) modified metadata
  | ColLastModified v => w url ts len media etag (Some v) metadata
  | ColResponseMetadata v => w url ts len media etag modified v
  end.

Definition with_columns (cs : list column) (now : Z) (r : SourceRow) : SourceRow :=
  {| src_remote := foldl write_column (src_remote r) cs; src_status := src_status r;
     src_archive := src_archive r; src_parser_version := src_parser_version r;
     src_evidence := src_evidence r; src_error_code := src_error_code r;
     src_updated_at := now |}.

(** ** [register_discovery] *)

(** The unique index on portal and remote id. *)
Definition same_identity (rf rf' : RemoteFile) : bool :=
  bool_decide (rf_retailer_id rf = rf_retailer_id rf' /\ rf_portal_id rf = rf_portal_id rf'
               /\ rf_remote_id rf = rf_remote_id rf').

Definition find_source (rf : RemoteFile) (d : Db) : option (uuid * SourceRow) :=
  find (fun p => same_identity rf (src_remote p.2)) (map_to_list (sources d)).

(** [_ensure_retailer] and [_ensure_portal]. *)
Definition ensure_portal (rf : RemoteFile) (d : Db) : Db :=
  set_portals (fun m => <[ (rf_retailer_id rf, rf_portal_id rf) := rf_protocol rf ]> m) d.

Definition discovered_row (rf : RemoteFile) (now : Z) : SourceRow :=
  {| src_remote := rf; src_status := DISCOVERED; src_archive := None;
     src_parser_version := None; src_evidence := None; src_error_code := None;
     src_updated_at := now |}.

(** The insertion branch: the row, its first run and its first event. *)
Definition insert_source (rf : RemoteFile) : M Db uuid :=
  sid ← fresh_id;
  modify (fun d => set_sources (fun m => <[ sid := discovered_row rf (clock d) ]> m) d);;
  rid ← fresh_id;
  modify (insert_run {| run_id := rid; run_source := sid; run_attempt := 1;
                        run_status := DISCOVERED; run_finished_at := None;
                        run_error_code := None |});;
  modify (insert_event {| ev_source := sid; ev_run := rid; ev_from := None;
                          ev_to := DISCOVERED; ev_error_code := None |});;
  mret sid.

(** The conflict branch. *)
Definition refresh_source (sid : uuid) (row : SourceRow) (rf : RemoteFile) (owned : bool)
    : M Db unit :=
  if bool_decide (src_status row = COMPLETED) then mret tt
  else
    updates ← rediscovery_updates row rf owned;
    when (nonempty updates)
      (modify (fun d => update_source sid (with_columns updates (clock d)) d)).

Definition register_body (lock : option pystr) (rf : RemoteFile) (owned : bool)
    : M Db RegisteredSourceFile :=
  modify (ensure_portal rf);;
  d ← get_state;
  '(sid, already) ←
    match find_source rf d with
    | Some (sid, row) => refresh_source sid row rf owned;; mret (sid, true)
    | None => sid ← insert_source rf; mret (sid, false)
    end;
  when owned
    (raise_if (negb (bool_decide (lock = Some (source_file_resource sid)))) conflict);;
  row ← source_row sid;
  d ← get_state;
  mret (registered_source_file d sid row already).

Definition db_register_discovery (rf : RemoteFile) (owned : bool)
    : M Session_state RegisteredSourceFile :=
  lock ← gets current_ingestion_lock;
  in_transaction None owned (register_body lock rf owned).
End urls.

(** ** [get] and [archive_sha256] *)

Definition db_get (sid : uuid) : M Session_state RegisteredSourceFile :=
  in_transaction (Some sid) false
    (row ← source_row sid; d ← get_state; mret (registered_source_file d sid row true)).

Definition db_archive_sha256 (sid : uuid) : M Session_state pystr :=
  in_transaction (Some sid) false
    (d ← get_state;
     match sources d !! sid ≫= joined_archive d with
     | Some (sha, _) => mret sha
     | None => raise not_found
     end).

(** ** [transition] *)

Definition code_too_long (code : option string) : bool :=
  match code with Some c => 128 <? Z.of_nat (String.length c) | None => false end.

(** The statuses a run ends in. *)
Definition finishes (s : IngestionStatus) : bool :=
  bool_decide (s ∈ [COMPLETED; QUARANTINED; FAILED_RETRYABLE; FAILED_TERMINAL]).

Definition transition_body (sid : uuid) (expected : list IngestionStatus)
    (target : IngestionStatus) (code : option string) : M Db unit :=
  row ← source_row sid;
  let current := src_status row in
  raise_if (negb (bool_decide (current ∈ expected))) conflict;;
  ensure_ingestion_transition current target;;
  rid ← current_run_id sid;
  rid ← (if bool_decide (current = FAILED_RETRYABLE)
         then
           d ← get_state;
           let attempt := default 0 (max_attempt (runs_of sid d)) + 1 in
           rid ← fresh_id;
           modify (insert_run {| run_id := rid; run_source := sid; run_attempt := attempt;
                                 run_status := target; run_finished_at := None;
                                 run_error_code := None |});;
           mret rid
         else
           modify (fun d => update_run rid
             (run_with_status target code
                (if finishes target then Some (clock d) else None)) d);;
           mret rid);
  modify (fun d => update_source sid (with_status target code (clock d)) d);;
  modify (insert_event {| ev_source := sid; ev_run := rid; ev_from := Some current;
                          ev_to := target; ev_error_code := code |}).

Definition db_transition (sid : uuid) (expected : list IngestionStatus)
    (target : IngestionStatus) (code : option string) : M Session_state unit :=
  raise_if (match expected with [] => true | _ => false end) (PyExn ValueError);;
  raise_if (code_too_long code) (PyExn ValueError);;
  in_transaction (Some sid) false (transition_body sid expected target code).

(** ** [record_archive] *)

Definition version_invalid (v : pystr) : bool := negb (str_truthy v) || (128 <? py_len v).

(** [pg_insert(raw_archive_objects).on_conflict_do_nothing] and the checks on a
    conflicting row; the result says whether the row was new.  The conflict that is let
    through is one of the digest: an object key in use under another digest violates its
    [UniqueConstraint]. *)
Definition archive_row (r : ArchiveReceipt) : ArchiveRow :=
  {| arc_object_key := ar_object_key r; arc_content_length := ar_content_length r;
     arc_archived_at := ar_archived_at r |}.
Definition key_taken (key : pystr) (m : gmap pystr ArchiveRow) : bool :=
  existsb (fun p => bool_decide (arc_object_key p.2 = key)) (map_to_list m).
Definition attach_archive (r : ArchiveReceipt) : M Db bool :=
  d ← get_state;
  match archives d !! ar_content_sha256 r with
  | None =>
      raise_if (key_taken (ar_object_key r) (archives d)) (PyExn OtherException);;
      modify (set_archives (fun m => <[ ar_content_sha256 r := archive_row r ]> m));;
      mret true
  | Some a =>
      raise_if (negb (arc_content_length a =? ar_content_length r)) conflict;;
      raise_if (negb (bool_decide (arc_object_key a = ar_object_key r))) conflict;;
      mret false
  end.

(** [coalesce(new, old)]. *)
Definition coalesce {A} (new old : option A) : option A :=
  match new with Some _ => new | None => old end.

Definition with_archive (a : ArchivedDownload) (version : pystr) (now : Z) (r : SourceRow)
    : SourceRow :=
  let e := ad_evidence a in
  let rf := src_remote r in
  {| src_remote := {|
       rf_retailer_id := rf_retailer_id rf; rf_portal_id := rf_portal_id rf;
       rf_protocol := rf_protocol rf; rf_remote_id := rf_remote_id rf;
       rf_download_url := rf_download_url rf;
       rf_original_filename := rf_original_filename rf;
       rf_document_type := rf_document_type rf; rf_compression := rf_compression rf;
       rf_discovered_at := rf_discovered_at rf; rf_source_timestamp := rf_source_timestamp rf;
       rf_content_length := rf_content_length rf;
       rf_media_type := coalesce (de_media_type e) (rf_media_type rf);
       rf_etag := coalesce (de_etag e) (rf_etag rf);
       rf_last_modified := coalesce (de_last_modified e) (rf_last_modified rf);
       rf_response_metadata := rf_response_metadata rf |};
     src_status := ARCHIVED; src_archive := Some (ar_content_sha256 (ad_archive a));
     src_parser_version := Some version; src_evidence := Some e;
     src_error_code := src_error_code r; src_updated_at := now |}.

(** The [download_status_code_range] constraint. *)
Definition status_code_ok (c : option Z) : bool :=
  match c with Some c => (100 <=? c) && (c <=? 599) | None => true end.

Definition record_archive_body (sid : uuid) (a : ArchivedDownload) (version : pystr)
    : M Db bool :=
  row ← source_row sid;
  let current := src_status row in
  raise_if (negb (bool_decide (current = DOWNLOADING))) conflict;;
  ensure_ingestion_transition current ARCHIVED;;
  rid ← current_run_id sid;
  inserted ← attach_archive (ad_archive a);
  raise_if (negb (status_code_ok (de_status_code (ad_evidence a)))) (PyExn OtherException);;
  modify (fun d => update_source sid (with_archive a version (clock d)) d);;
  modify (update_run rid (fun r =>
    run_with_status ARCHIVED (run_error_code r) (run_finished_at r) r));;
  modify (insert_event {| ev_source := sid; ev_run := rid; ev_from := Some current;
                          ev_to := ARCHIVED; ev_error_code := None |});;
  mret (negb (ar_created (ad_archive a)) || negb inserted).

Definition db_record_archive (sid : uuid) (a : ArchivedDownload) (version : pystr)
    : M Session_state bool :=
  let e := ad_evidence a in
  raise_if (version_invalid version) (PyExn ValueError);;
  raise_if (negb (de_content_length e =? ar_content_length (ad_archive a))) conflict;;
  (* comparing a naive with an aware datetime is a TypeError *)
  raise_if (negb (Bool.eqb (is_aware (de_finished_at e)) (is_aware (de_started_at e))))
    (PyExn OtherException);;
  raise_if (instant_of (de_finished_at e) <? instant_of (de_started_at e)) (PyExn ValueError);;
  raise_if (negb (is_aware (de_started_at e))) (PyExn ValueError);;
  raise_if (negb (is_aware (de_finished_at e))) (PyExn ValueError);;
  in_transaction (Some sid) false (record_archive_body sid a version).

(** ** Replay runs *)

Definition interrupted (sid : uuid) (now : Z) (r : ReplayRow) : ReplayRow :=
  if (rp_source r =? sid) && bool_decide (rp_finished_at r = None)
  then {| rp_id := rp_id r; rp_source := rp_source r; rp_rebuild := rp_rebuild r;
          rp_requested_version := rp_requested_version r;
          rp_previous_version := rp_previous_version r; rp_status := FAILED_RETRYABLE;
          rp_finished_at := Some now; rp_succeeded := Some false;
          rp_error_code := Some "interrupted_replay_recovered"%string |}
  else r.

Definition begin_replay_body (sid : uuid) (version : pystr) (rebuild : option uuid)
    : M Db uuid :=
  assert_db_ingestion_allowed rebuild;;
  row ← source_row sid;
  raise_if (bool_decide (src_archive row = None)) conflict;;
  modify (fun d => set_replays (map (interrupted sid (clock d))) d);;
  rid ← fresh_id;
  modify (set_replays (fun l => l ++
    [{| rp_id := rid; rp_source := sid; rp_rebuild := rebuild;
        rp_requested_version := version; rp_previous_version := src_parser_version row;
        rp_status := PARSING; rp_finished_at := None; rp_succeeded := None;
        rp_error_code := None |}]));;
  mret rid.

Definition db_begin_replay (sid : uuid) (version : pystr) (rebuild : option uuid)
    : M Session_state uuid :=
  raise_if (version_invalid version) (PyExn ValueError);;
  in_transaction (Some sid) false (begin_replay_body sid version rebuild).

Definition open_replay (rid : uuid) (r : ReplayRow) : bool :=
  (rp_id r =? rid) && bool_decide (rp_finished_at r = None).

Definition finished (succeeded : bool) (code : option string) (now : Z) (r : ReplayRow)
    : ReplayRow :=
  {| rp_id := rp_id r; rp_source := rp_source r; rp_rebuild := rp_rebuild r;
     rp_requested_version := rp_requested_version r;
     rp_previous_version := rp_previous_version r;
     rp_status := if succeeded then COMPLETED else FAILED_TERMINAL;
     rp_finished_at := Some now; rp_succeeded := Some succeeded;
     rp_error_code := coalesce code (rp_error_code r) |}.

Definition finish_replay_body (lock : option pystr) (rid : uuid) (succeeded : bool)
    (code : option string) : M Db bool :=
  d ← get_state;
  raise_if (match lock with
            | Some resource =>
                match find (fun r => rp_id r =? rid) (replays d) with
                | Some r => negb (bool_decide (resource = source_file_resource (rp_source r)))
                | None => true
                end
            | None => false
            end) conflict;;
  modify (set_replays (map (fun r =>
    if open_replay rid r then finished succeeded code (clock d) r else r)));;
  mret (py_any (open_replay rid) (replays d)).

Definition db_finish_replay (rid : uuid) (succeeded : bool) (code : option string)
    : M Session_state unit :=
  raise_if (code_too_long code) (PyExn ValueError);;
  raise_if (succeeded && negb (bool_decide (code = None))) (PyExn ValueError);;
  lock ← gets current_ingestion_lock;
  updated ← in_transaction None false (finish_replay_body lock rid succeeded code);
  raise_if (negb updated) conflict.
