(* ===== verification/SourceFilesFacts.v ===== *)
(** The durable lifecycle is consistent: what every operation of [SourceFiles.v]
    keeps true of the source, run, event, archive and replay tables. *)
From S2P Require Import Prelude Errors Effects Enums PyNumbers Models AppModels Ports Database SourceFiles.

(** ** The invariant *)

Definition events_of (sid : uuid) (d : Db) : list EventRow :=
  filter (fun e => ev_source e = sid) (events d).

(** A log in which each event starts where the previous one ended, along allowed
    transitions. *)
Inductive event_path : IngestionStatus -> list EventRow -> IngestionStatus -> Prop :=
  | event_path_nil s : event_path s [] s
  | event_path_cons s e l t :
      ev_from e = Some s -> allowed s (ev_to e) = true -> event_path (ev_to e) l t ->
      event_path s (e :: l) t.

Lemma event_path_snoc s l t e :
  event_path s l t -> ev_from e = Some t -> allowed t (ev_to e) = true ->
  event_path s (l ++ [e]) (ev_to e).
Proof. induction 1; simpl; eauto using event_path. Qed.

Lemma event_path_lifecycle s l t :
  event_path s l t -> lifecycle_path s (map ev_to l) t.
Proof. induction 1; simpl; eauto using lifecycle_path. Qed.

(** The events that resume a failed file. *)
Definition resumes (es : list EventRow) : Z :=
  zsum (map (fun e => if bool_decide (ev_from e = Some FAILED_RETRYABLE) then 1 else 0) es).

Record history_ok (st : IngestionStatus) (rs : list RunRow) (es : list EventRow) : Prop := {
  h_runs : exists front r, rs = front ++ [r] /\ run_status r = st /\
    Forall (fun q => run_status q = FAILED_RETRYABLE) front;
  h_attempts : map run_attempt rs = seqZ 1 (py_len rs);
  h_events : exists e l, es = e :: l /\ ev_from e = None /\ ev_to e = DISCOVERED /\
    event_path DISCOVERED l st;
  h_event_runs : Forall (fun e => ev_run e ∈ map run_id rs) es;
  h_resumes : py_len rs = 1 + resumes es;
  h_finished : Forall (fun q => run_status q <> FAILED_TERMINAL ->
    (run_finished_at q <> None <-> finishes (run_status q) = true)) rs
}.

(** The archive a source row claims is there, with the length its evidence states. *)
Definition archive_ok (d : Db) (row : SourceRow) : Prop :=
  match src_archive row with
  | None => src_evidence row = None
  | Some sha => exists a e, archives d !! sha = Some a /\ src_evidence row = Some e /\
      de_content_length e = arc_content_length a
  end.

Definition identity (row : SourceRow) : pystr * pystr * pystr :=
  (rf_retailer_id (src_remote row), rf_portal_id (src_remote row),
   rf_remote_id (src_remote row)).

Definition open_replays (sid : uuid) (d : Db) : list ReplayRow :=
  filter (fun r => rp_source r = sid /\ rp_finished_at r = None) (replays d).

Record db_wf (d : Db) : Prop := {
  wf_run_ids : NoDup (map run_id (runs d));
  wf_run_fresh : Forall (fun r => run_id r < next_id d) (runs d);
  wf_source_fresh : forall sid row, sources d !! sid = Some row -> sid < next_id d;
  wf_run_sources : Forall (fun r => is_Some (sources d !! run_source r)) (runs d);
  wf_event_sources : Forall (fun e => is_Some (sources d !! ev_source e)) (events d);
  wf_history : forall sid row, sources d !! sid = Some row ->
    history_ok (src_status row) (runs_of sid d) (events_of sid d);
  wf_archive : forall sid row, sources d !! sid = Some row -> archive_ok d row;
  wf_identity : forall s1 s2 r1 r2, sources d !! s1 = Some r1 -> sources d !! s2 = Some r2 ->
    identity r1 = identity r2 -> s1 = s2;
  wf_replays : forall sid, (length (open_replays sid d) <= 1)%nat
}.

Lemma empty_db_wf : db_wf empty_db.
Proof.
  split; unfold empty_db; simpl; try (by constructor); intros *; rewrite ?lookup_empty;
    try done; unfold open_replays; simpl; lia.
Qed.

(** ** The current run is the last one *)

Lemma max_attempt_seq rs n :
  map run_attempt rs = seqZ 1 n -> n = py_len rs ->
  max_attempt rs = match rs with [] => None | _ => Some n end.
Proof.
  intros Hm Hn.
  assert (Hgen : forall rs k, map run_attempt rs = seqZ k (py_len rs) ->
    max_attempt rs = match rs with [] => None | _ => Some (k + py_len rs - 1) end).
  { clear. intros rs. induction rs as [|r rs IH]; intros k Hk; [done|].
    rewrite py_len_cons in Hk. rewrite seqZ_cons in Hk by (pose proof (py_len_nonneg rs); lia).
    simpl in Hk. injection Hk as Hr Hrs. simpl.
    replace (Z.pred (1 + py_len rs)) with (py_len rs) in Hrs by lia.
    rewrite (IH (Z.succ k) Hrs). destruct rs; [unfold py_len; simpl; f_equal; lia|].
    f_equal. rewrite !py_len_cons. pose proof (py_len_nonneg rs). lia. }
  rewrite (Hgen rs 1) by (by rewrite <- Hn). destruct rs; [done|]. f_equal. lia.
Qed.

Lemma seqZ_snoc m n : 0 <= n -> seqZ m (n + 1) = seqZ m n ++ [m + n].
Proof.
  intros. rewrite seqZ_app by lia. by f_equal.
Qed.

Lemma find_last_unique {A} (p : A -> bool) l x :
  (forall y, y ∈ l -> p y = false) -> p x = true -> find p (l ++ [x]) = Some x.
Proof.
  intros Hl Hx. induction l as [|y l IH]; simpl; [by rewrite Hx|].
  rewrite Hl by left. apply IH. intros z Hz. apply Hl. by right.
Qed.

Lemma current_run_last sid d front r :
  runs_of sid d = front ++ [r] ->
  map run_attempt (runs_of sid d) = seqZ 1 (py_len (runs_of sid d)) ->
  current_run sid d = Some r.
Proof.
  intros Hr Ha. unfold current_run. rewrite (max_attempt_seq _ _ Ha) by done.
  rewrite Hr in *. destruct (front ++ [r]) eqn:E; [by destruct front|]. rewrite <- E in *.
  rewrite map_app, py_len_app in Ha. change (py_len [r]) with 1 in Ha.
  rewrite seqZ_snoc in Ha by auto with makolet.
  apply app_inj_tail in Ha as [Hf Hlast].
  rewrite py_len_app. change (py_len [r]) with 1. apply find_last_unique.
  - intros y Hy. assert (Hin : run_attempt y ∈ seqZ 1 (py_len front)).
    { rewrite <- Hf. by apply (list_elem_of_fmap_2 run_attempt). }
    apply elem_of_seqZ in Hin. apply Z.eqb_neq. lia.
  - apply Z.eqb_eq. lia.
Qed.

(** ** Frames *)

Lemma runs_of_insert_run sid r d :
  runs_of sid (insert_run r d) =
  runs_of sid d ++ (if bool_decide (run_source r = sid) then [r] else []).
Proof.
  unfold runs_of, insert_run. simpl. rewrite filter_app. f_equal.
  rewrite filter_cons, filter_nil. by repeat case_match; case_bool_decide.
Qed.

Lemma events_of_insert_event sid e d :
  events_of sid (insert_event e d) =
  events_of sid d ++ (if bool_decide (ev_source e = sid) then [e] else []).
Proof.
  unfold events_of, insert_event. simpl. rewrite filter_app. f_equal.
  rewrite filter_cons, filter_nil. by repeat case_match; case_bool_decide.
Qed.

Lemma runs_of_update_run sid rid f d :
  (forall r, run_source (f r) = run_source r) ->
  runs_of sid (update_run rid f d) =
  map (fun r => if run_id r =? rid then f r else r) (runs_of sid d).
Proof.
  intros Hf. unfold runs_of, update_run. simpl.
  induction (runs d) as [|r l IH]; [done|]. simpl.
  rewrite !filter_cons. destruct (run_id r =? rid) eqn:E; rewrite ?Hf;
    destruct (decide (run_source r = sid)); simpl; rewrite ?E, IH; done.
Qed.

Lemma update_run_ids rid f d :
  (forall r, run_id (f r) = run_id r) ->
  map run_id (runs (update_run rid f d)) = map run_id (runs d).
Proof.
  intros Hf. unfold update_run. simpl. rewrite map_map. apply map_ext. intros r.
  by case_match.
Qed.

Lemma elem_of_runs_of r sid d : r ∈ runs_of sid d <-> run_source r = sid /\ r ∈ runs d.
Proof. unfold runs_of. by rewrite list_elem_of_filter. Qed.

(** An update of one run leaves a list without that id alone. *)
Lemma map_update_other rid (f : RunRow -> RunRow) l :
  rid ∉ map run_id l -> map (fun r => if run_id r =? rid then f r else r) l = l.
Proof.
  intros Hl. induction l as [|r l IH]; [done|]. simpl in *.
  apply not_elem_of_cons in Hl as [Hr Hl].
  destruct (Z.eqb_spec (run_id r) rid); [congruence|]. f_equal. auto.
Qed.

(** Ids tell the runs of different files apart. *)
Lemma run_ids_disjoint d r sid :
  NoDup (map run_id (runs d)) -> r ∈ runs d -> run_source r <> sid ->
  run_id r ∉ map run_id (runs_of sid d).
Proof.
  intros Hnd Hr Hs Hin. apply list_elem_of_fmap in Hin as (q & Hq & Hin).
  apply elem_of_runs_of in Hin as [Hqs Hin].
  assert (q = r); [|by subst].
  apply list_elem_of_lookup in Hr as [i Hi]. apply list_elem_of_lookup in Hin as [j Hj].
  assert (i = j); [|congruence].
  eapply NoDup_lookup; [exact Hnd|..]; rewrite list_lookup_fmap;
    [rewrite Hi|rewrite Hj]; simpl; by rewrite ?Hq.
Qed.

Lemma NoDup_runs_of sid d : NoDup (map run_id (runs d)) -> NoDup (map run_id (runs_of sid d)).
Proof.
  unfold runs_of. induction (runs d) as [|r l IH]; [done|].
  simpl. intros [Hr Hl]%NoDup_cons. rewrite filter_cons. case_decide; [|auto].
  simpl. constructor; [|auto]. intros Hin. apply Hr.
  apply list_elem_of_fmap in Hin as (q & -> & Hq). apply list_elem_of_filter in Hq as [_ Hq].
  by apply (list_elem_of_fmap_2 run_id).
Qed.

(** ** One lifecycle step keeps the history of a file *)

Lemma resumes_snoc es e :
  resumes (es ++ [e]) =
  resumes es + (if bool_decide (ev_from e = Some FAILED_RETRYABLE) then 1 else 0).
Proof. unfold resumes. rewrite map_app, zsum_app. simpl. lia. Qed.

Lemma event_runs_mono (es : list EventRow) (l k : list uuid) :
  (forall x, x ∈ l -> x ∈ k) ->
  Forall (fun e => ev_run e ∈ l) es -> Forall (fun e => ev_run e ∈ k) es.
Proof. intros Hlk Hes. eapply Forall_impl; [exact Hes|auto]. Qed.

Section steps.
Context (st target : IngestionStatus) (rs : list RunRow) (es : list EventRow).
Hypothesis Hok : history_ok st rs es.
Hypothesis Hallowed : allowed st target = true.
Context (e : EventRow).
Hypothesis Hfrom : ev_from e = Some st.
Hypothesis Hto : ev_to e = target.

Lemma events_step :
  exists e0 l, es ++ [e] = e0 :: l /\ ev_from e0 = None /\ ev_to e0 = DISCOVERED /\
    event_path DISCOVERED l target.
Proof.
  destruct (h_events _ _ _ Hok) as (e0 & l & -> & ? & ? & Hp).
  exists e0, (l ++ [e]). split_and!; try done. rewrite <- Hto.
  eapply event_path_snoc; [done..|]. by rewrite Hto.
Qed.

(** The current run is updated in place. *)
Lemma history_move f front r :
  st <> FAILED_RETRYABLE -> rs = front ++ [r] -> NoDup (map run_id rs) ->
  ev_run e = run_id r ->
  run_id (f r) = run_id r -> run_attempt (f r) = run_attempt r -> run_status (f r) = target ->
  (target <> FAILED_TERMINAL ->
   (run_finished_at (f r) <> None <-> finishes target = true)) ->
  history_ok target (map (fun q => if run_id q =? run_id r then f q else q) rs) (es ++ [e]).
Proof.
  intros Hst Hrs Hnd Hrun Hid Hatt Hstat Hfin.
  assert (Hmap : map (fun q => if run_id q =? run_id r then f q else q) rs
                 = front ++ [f r]).
  { rewrite Hrs, map_app. simpl. rewrite Z.eqb_refl. f_equal.
    apply map_update_other. rewrite Hrs, map_app in Hnd. simpl in Hnd.
    apply NoDup_app in Hnd as (_ & Hd & _). intros Hin. by apply (Hd _ Hin), list_elem_of_singleton. }
  assert (Hids : map run_id (front ++ [f r]) = map run_id rs).
  { rewrite Hrs, !map_app. simpl. by rewrite Hid. }
  rewrite Hmap. destruct (h_runs _ _ _ Hok) as (front' & r' & Hrs' & Hr' & Hfront).
  rewrite Hrs in Hrs'. apply app_inj_tail in Hrs' as [<- <-].
  split.
  - by exists front, (f r).
  - pose proof (h_attempts _ _ _ Hok) as Ha. rewrite Hrs, !map_app, !py_len_app in *.
    simpl in *. by rewrite Hatt.
  - exact events_step.
  - rewrite Hids. apply Forall_app. split; [exact (h_event_runs _ _ _ Hok)|].
    apply Forall_singleton. rewrite Hrun, Hrs, map_app. set_solver.
  - rewrite resumes_snoc, Hfrom, bool_decide_eq_false_2 by congruence.
    pose proof (h_resumes _ _ _ Hok) as Hn. rewrite Hrs, !py_len_app in *.
    unfold py_len at 2 in Hn. unfold py_len at 2. simpl in *. lia.
  - pose proof (h_finished _ _ _ Hok) as Hf. rewrite Hrs in Hf.
    apply Forall_app in Hf as [Hf _]. apply Forall_app. split; [done|].
    apply Forall_singleton. by rewrite Hstat.
Qed.

(** A failed file resumes with a new run. *)
Lemma history_resume r :
  st = FAILED_RETRYABLE -> ev_run e = run_id r ->
  run_attempt r = py_len rs + 1 -> run_status r = target -> run_finished_at r = None ->
  history_ok target (rs ++ [r]) (es ++ [e]).
Proof.
  intros Hst Hrun Hatt Hstat Hfin. split.
  - exists rs, r. split_and!; [done..|].
    destruct (h_runs _ _ _ Hok) as (front & q & -> & Hq & Hfront).
    apply Forall_app. split; [done|]. apply Forall_singleton. congruence.
  - rewrite map_app, (h_attempts _ _ _ Hok), py_len_app. simpl.
    change (py_len [r]) with 1. rewrite seqZ_snoc by auto with makolet.
    rewrite Hatt. do 2 f_equal. lia.
  - exact events_step.
  - rewrite map_app. apply Forall_app. split.
    + eapply event_runs_mono; [|exact (h_event_runs _ _ _ Hok)]. set_solver.
    + apply Forall_singleton. rewrite Hrun. set_solver.
  - rewrite resumes_snoc, Hfrom, Hst, bool_decide_eq_true_2 by done.
    rewrite py_len_app, (h_resumes _ _ _ Hok). unfold py_len. simpl. lia.
  - apply Forall_app. split; [exact (h_finished _ _ _ Hok)|]. apply Forall_singleton.
    rewrite Hstat, Hfin. intros Hnt. split; [done|]. intros Hf. exfalso.
    rewrite Hst in Hallowed. by destruct target.
Qed.
End steps.

(** ** One step of one file keeps the database well formed *)

Lemma wf_step d d' sid row row' :
  db_wf d -> sources d !! sid = Some row ->
  sources d' = <[ sid := row' ]> (sources d) -> identity row' = identity row ->
  history_ok (src_status row') (runs_of sid d') (events_of sid d') ->
  (forall s, s <> sid -> runs_of s d' = runs_of s d /\ events_of s d' = events_of s d) ->
  NoDup (map run_id (runs d')) -> Forall (fun r => run_id r < next_id d') (runs d') ->
  next_id d <= next_id d' ->
  Forall (fun r => is_Some (sources d !! run_source r)) (runs d') ->
  Forall (fun e => is_Some (sources d !! ev_source e)) (events d') ->
  archives d ⊆ archives d' -> archive_ok d' row' -> replays d' = replays d -> db_wf d'.
Proof.
  intros Hwf Hrow Hsrc Hid Hh Hframe Hnd Hfresh Hnext Hrs Hes Harc Hrow' Hrp.
  assert (Hsome : forall k, is_Some (sources d !! k) -> is_Some (sources d' !! k)).
  { intros k. rewrite Hsrc. destruct (decide (k = sid)) as [->|];
      [by rewrite lookup_insert_eq|by rewrite lookup_insert_ne]. }
  split.
  - done.
  - done.
  - intros s r. rewrite Hsrc, lookup_insert_Some. intros [[<- <-]|[? Hs]];
      [pose proof (wf_source_fresh _ Hwf _ _ Hrow)|pose proof (wf_source_fresh _ Hwf _ _ Hs)]; lia.
  - eapply Forall_impl; [exact Hrs|auto].
  - eapply Forall_impl; [exact Hes|auto].
  - intros s r. rewrite Hsrc, lookup_insert_Some. intros [[<- <-]|[Hne Hs]]; [done|].
    destruct (Hframe s ltac:(congruence)) as [-> ->]. by apply Hwf.
  - intros s r. rewrite Hsrc, lookup_insert_Some. intros [[<- <-]|[Hne Hs]]; [done|].
    pose proof (wf_archive _ Hwf _ _ Hs) as Ha. unfold archive_ok in *.
    destruct (src_archive r) as [sha|]; [|done].
    destruct Ha as (a & e & Ha & ? & ?). exists a, e. split_and!; [|done..].
    by eapply lookup_weaken.
  - assert (Hall : forall s r, sources d' !! s = Some r ->
      exists r0, sources d !! s = Some r0 /\ identity r = identity r0).
    { intros s r. rewrite Hsrc, lookup_insert_Some. intros [[<- <-]|[Hne Hs]]; eauto. }
    intros s1 s2 r1 r2 H1 H2 H12.
    destruct (Hall _ _ H1) as (q1 & ? & ?). destruct (Hall _ _ H2) as (q2 & ? & ?).
    eapply (wf_identity _ Hwf); [done..|congruence].
  - intros s. unfold open_replays. rewrite Hrp. apply (wf_replays _ Hwf).
Qed.

(** What a lifecycle step of [sid] does to the tables. *)
Record stepped (sid : uuid) (row : SourceRow) (d d' : Db) : Prop := {
  st_sources : sources d' = <[ sid := row ]> (sources d);
  st_archives : archives d ⊆ archives d';
  st_replays : replays d' = replays d;
  st_events : exists e, events d' = events d ++ [e] /\ ev_source e = sid /\
    ev_to e = src_status row;
  st_control : active_rebuild d' = active_rebuild d /\
    rebuild_runs d' = rebuild_runs d /\ clock d' = clock d /\ portals d' = portals d
}.

Lemma wf_current d sid row :
  db_wf d -> sources d !! sid = Some row ->
  exists front r, runs_of sid d = front ++ [r] /\ current_run sid d = Some r /\
    r ∈ runs d /\ run_source r = sid /\ run_status r = src_status row.
Proof.
  intros Hwf Hrow. pose proof (wf_history _ Hwf _ _ Hrow) as Hh.
  destruct (h_runs _ _ _ Hh) as (front & r & Hr & Hst & _). exists front, r.
  assert (Hin : r ∈ runs_of sid d) by (rewrite Hr; set_solver).
  apply elem_of_runs_of in Hin as [? ?]. split_and!; try done.
  eapply current_run_last; [done|]. apply Hh.
Qed.

(** A step that updates the current run of [sid] in place and appends its event. *)
Lemma wf_move d d' sid row row' front r f e :
  db_wf d -> sources d !! sid = Some row ->
  runs_of sid d = front ++ [r] -> r ∈ runs d ->
  src_status row <> FAILED_RETRYABLE -> allowed (src_status row) (src_status row') = true ->
  (forall q, run_id (f q) = run_id q /\ run_source (f q) = run_source q /\
     run_attempt (f q) = run_attempt q /\ run_status (f q) = src_status row') ->
  (src_status row' <> FAILED_TERMINAL ->
   (run_finished_at (f r) <> None <-> finishes (src_status row') = true)) ->
  ev_source e = sid -> ev_run e = run_id r -> ev_from e = Some (src_status row) ->
  ev_to e = src_status row' ->
  sources d' = <[ sid := row' ]> (sources d) -> identity row' = identity row ->
  runs d' = runs (update_run (run_id r) f d) -> events d' = events d ++ [e] ->
  next_id d' = next_id d -> archives d ⊆ archives d' -> archive_ok d' row' ->
  replays d' = replays d -> db_wf d'.
Proof.
  intros Hwf Hrow Hruns Hr Hst Hal Hf Hfin Hes Her Hef Het Hsrc Hid Hd'r Hd'e Hnx Harc Hok Hrp.
  assert (Hids : map run_id (runs d') = map run_id (runs d)).
  { rewrite Hd'r. apply update_run_ids. apply Hf. }
  assert (Hro : forall s, runs_of s d' =
    map (fun q => if run_id q =? run_id r then f q else q) (runs_of s d)).
  { intros s. rewrite <- runs_of_update_run by apply Hf. unfold runs_of. by rewrite Hd'r. }
  assert (Heo : forall s, events_of s d' = events_of s d ++
    (if bool_decide (ev_source e = s) then [e] else [])).
  { intros s. rewrite <- events_of_insert_event. unfold events_of, insert_event. simpl.
    by rewrite Hd'e. }
  assert (Hsid : run_source r = sid).
  { assert (Hin : r ∈ runs_of sid d) by (rewrite Hruns; set_solver).
    by apply elem_of_runs_of in Hin as [? _]. }
  eapply (wf_step d d' sid row row'); try done.
  - rewrite Hro, Heo, bool_decide_eq_true_2 by done.
    apply (history_move (src_status row) _ _ _ (wf_history _ Hwf _ _ Hrow) Hal e Hef Het
             f front r); try done; try apply Hf.
    apply NoDup_runs_of, Hwf.
  - intros s Hs. rewrite Hro, Heo, bool_decide_eq_false_2 by congruence.
    rewrite app_nil_r. split; [|done]. apply map_update_other.
    apply run_ids_disjoint; [apply Hwf|done|congruence].
  - rewrite Hids. apply Hwf.
  - rewrite Hd'r, Hnx. unfold update_run. simpl. apply Forall_map.
    eapply Forall_impl; [apply (wf_run_fresh _ Hwf)|]. intros q Hq. simpl.
    case_match; [|done]. destruct (Hf q) as [-> _]. done.
  - lia.
  - rewrite Hd'r. unfold update_run. simpl. apply Forall_map.
    eapply Forall_impl; [apply (wf_run_sources _ Hwf)|]. intros q Hq. simpl.
    case_match; [|done]. destruct (Hf q) as (_ & -> & _). done.
  - rewrite Hd'e. apply Forall_app. split; [apply Hwf|]. apply Forall_singleton.
    rewrite Hes. eauto.
Qed.

(** A step that resumes a failed file with a new run. *)
Lemma wf_resume d d' sid row row' r e :
  db_wf d -> sources d !! sid = Some row ->
  src_status row = FAILED_RETRYABLE -> allowed (src_status row) (src_status row') = true ->
  run_id r = next_id d -> run_source r = sid ->
  run_attempt r = py_len (runs_of sid d) + 1 -> run_status r = src_status row' ->
  run_finished_at r = None ->
  ev_source e = sid -> ev_run e = run_id r -> ev_from e = Some (src_status row) ->
  ev_to e = src_status row' ->
  sources d' = <[ sid := row' ]> (sources d) -> identity row' = identity row ->
  runs d' = runs d ++ [r] -> events d' = events d ++ [e] ->
  next_id d' = next_id d + 1 -> archives d ⊆ archives d' -> archive_ok d' row' ->
  replays d' = replays d -> db_wf d'.
Proof.
  intros Hwf Hrow Hst Hal Hri Hrs Hra Hrst Hrf Hes Her Hef Het Hsrc Hid Hd'r Hd'e Hnx Harc Hok Hrp.
  assert (Hro : forall s, runs_of s d' = runs_of s d ++
    (if bool_decide (run_source r = s) then [r] else [])).
  { intros s. rewrite <- runs_of_insert_run. unfold runs_of, insert_run. simpl. by rewrite Hd'r. }
  assert (Heo : forall s, events_of s d' = events_of s d ++
    (if bool_decide (ev_source e = s) then [e] else [])).
  { intros s. rewrite <- events_of_insert_event. unfold events_of, insert_event. simpl.
    by rewrite Hd'e. }
  eapply (wf_step d d' sid row row'); try done.
  - rewrite Hro, Heo, !bool_decide_eq_true_2 by done.
    apply (history_resume (src_status row) _ _ _ (wf_history _ Hwf _ _ Hrow) Hal e Hef Het);
      done.
  - intros s Hs. rewrite Hro, Heo, !bool_decide_eq_false_2 by congruence.
    by rewrite !app_nil_r.
  - rewrite Hd'r, map_app. apply NoDup_app. split_and!; [apply Hwf| |apply NoDup_singleton].
    intros x Hx. simpl. rewrite list_elem_of_singleton, Hri. intros ->.
    apply list_elem_of_fmap in Hx as (q & Hq & Hin).
    pose proof (wf_run_fresh _ Hwf) as Hf. rewrite Forall_forall in Hf. specialize (Hf _ Hin). lia.
  - rewrite Hd'r, Hnx. apply Forall_app. split; [|apply Forall_singleton; lia].
    eapply Forall_impl; [apply (wf_run_fresh _ Hwf)|]. simpl. lia.
  - lia.
  - rewrite Hd'r. apply Forall_app. split; [apply Hwf|]. apply Forall_singleton.
    rewrite Hrs. eauto.
  - rewrite Hd'e. apply Forall_app. split; [apply Hwf|]. apply Forall_singleton.
    rewrite Hes. eauto.
Qed.

(** ** The operations *)

Lemma update_source_insert sid f (m : gmap uuid SourceRow) row :
  m !! sid = Some row -> alter f sid m = <[ sid := f row ]> m.
Proof.
  intros Hm. apply map_eq. intros k. destruct (decide (k = sid)) as [->|].
  - by rewrite lookup_alter_eq, lookup_insert_eq, Hm.
  - by rewrite lookup_alter_ne, lookup_insert_ne.
Qed.

Lemma source_row_spec sid d :
  wp (source_row sid) (fun row d' => d' = d /\ sources d !! sid = Some row)
    (fun e _ => e = not_found /\ sources d !! sid = None) d.
Proof. unfold source_row. repeat wp_step; auto. Qed.

Lemma current_run_id_spec sid d row :
  db_wf d -> sources d !! sid = Some row ->
  wp (current_run_id sid)
    (fun rid d' => d' = d /\ exists front r, runs_of sid d = front ++ [r] /\ r ∈ runs d /\
       run_source r = sid /\ rid = run_id r /\ run_status r = src_status row)
    (fun _ _ => False) d.
Proof.
  intros Hwf Hrow. destruct (wf_current _ _ _ Hwf Hrow) as (front & r & ? & Hc & ? & ? & ?).
  unfold current_run_id. do 2 wp_step. rewrite Hc. wp_step. eauto 10.
Qed.

Lemma archive_ok_same d d' row row' :
  archive_ok d row -> src_archive row' = src_archive row ->
  src_evidence row' = src_evidence row -> archives d ⊆ archives d' -> archive_ok d' row'.
Proof.
  unfold archive_ok. intros Hok -> -> Hsub. destruct (src_archive row); [|done].
  destruct Hok as (a & e & ? & ? & ?). exists a, e. split_and!; [|done..].
  by eapply lookup_weaken.
Qed.

(** Why [transition] refuses. *)
Definition transition_refusal (d : Db) (sid : uuid) (expected : list IngestionStatus)
    (target : IngestionStatus) (e : exn) : Prop :=
  match sources d !! sid with
  | None => e = not_found
  | Some row =>
      if bool_decide (src_status row ∈ expected)
      then allowed (src_status row) target = false /\
           e = MakoletExn InvalidStateTransitionError 0
      else e = conflict
  end.

Lemma transition_body_spec sid expected target code d :
  db_wf d ->
  wp (transition_body sid expected target code)
    (fun _ d' => exists row, sources d !! sid = Some row /\ src_status row ∈ expected /\
       allowed (src_status row) target = true /\
       stepped sid (with_status target code (clock d) row) d d' /\ db_wf d')
    (fun e _ => transition_refusal d sid expected target e) d.
Proof.
  intros Hwf. unfold transition_body, transition_refusal, ensure_ingestion_transition.
  wp_step. eapply wp_mono; [apply source_row_spec|..]; cbv beta.
  2: { intros e _ [-> ->]. done. }
  intros row d0 [-> Hrow]. rewrite Hrow. do 2 wp_step; reflect_bools.
  { by rewrite bool_decide_eq_false_2. }
  do 2 wp_step; reflect_bools; [by rewrite bool_decide_eq_true_2|]. wp_step.
  eapply wp_mono; [by apply current_run_id_spec|..]; cbv beta; [|done].
  intros rid d1 (-> & front & r & Hruns & Hr & Hrs & -> & Hst). wp_step.
  pose proof (wf_archive _ Hwf _ _ Hrow) as Harc.
  case_bool_decide as Hret.
  - unfold fresh_id. repeat wp_step.
    set (r' := {| run_id := next_id d; run_source := sid |}).
    set (e := {| ev_source := sid; ev_run := next_id d |}).
    assert (Hsrc : alter (with_status target code (clock d)) sid (sources d)
                   = <[ sid := with_status target code (clock d) row ]> (sources d))
      by by apply update_source_insert.
    exists row. split_and!; try done.
    + split; simpl; try done. by exists e.
    + eapply (wf_resume d _ sid row (with_status target code (clock d) row) r' e); try done.
      { subst r'. simpl. pose proof (wf_history _ Hwf _ _ Hrow) as Hh.
        rewrite (max_attempt_seq _ _ (h_attempts _ _ _ Hh)) by done.
        rewrite Hruns. by destruct front. }
      all: simpl; done.
  - repeat wp_step.
    set (e := {| ev_source := sid; ev_run := run_id r |}).
    assert (Hsrc : alter (with_status target code (clock d)) sid (sources d)
                   = <[ sid := with_status target code (clock d) row ]> (sources d))
      by by apply update_source_insert.
    exists row. split_and!; try done.
    + split; simpl; try done. by exists e.
    + eapply (wf_move d _ sid row (with_status target code (clock d) row) front r
        (run_with_status target code (if finishes target then Some (clock d) else None)) e);
        try done; simpl; try done.
      intros _. by destruct (finishes target).
Qed.

Lemma with_db_same s : with_db (db s) s = s.
Proof. by destruct s. Qed.

(** Whether a transaction of [sid] may run under the lock the session holds. *)
Definition lock_permits (sid : option uuid) (owned : bool) (s : Session_state) : bool :=
  match current_ingestion_lock s, sid with
  | None, _ => negb owned
  | Some r, Some i => bool_decide (r = source_file_resource i)
  | Some _, None => true
  end.

(** A transaction changes the tables only by committing. *)
Lemma wp_in_transaction {A} sid owned (m : M Db A) Q E s :
  (lock_permits sid owned s = false -> E conflict s) ->
  (lock_permits sid owned s = true ->
   wp m (fun a d' => Q a (with_db d' s)) (fun e _ => E e s) (db s)) ->
  wp (in_transaction sid owned m) Q E s.
Proof.
  intros Hno Hyes.
  assert (Hbegin : lock_permits sid owned s = true -> wp (begin m) Q E s).
  { intros Hp. specialize (Hyes Hp). unfold begin, wp, transaction in *.
    destruct (m (db s)) as [[a|e] d']; simpl in *; [done|]. by rewrite with_db_same. }
  clear Hyes. unfold in_transaction, lock_permits in *. do 2 wp_step.
  destruct (current_ingestion_lock s) as [r|] eqn:Hl; simpl.
  - rewrite andb_false_r.
    do 2 wp_step; [done|]. wp_step. destruct sid as [i|]; wp_step; reflect_bools; auto.
    + apply Hno. by apply bool_decide_eq_false_2.
    + apply Hbegin. by apply bool_decide_eq_true_2.
  - rewrite andb_true_r. do 2 wp_step; [apply Hno; by subst|].
    do 2 wp_step. apply Hbegin. by subst.
Qed.

(** What [transition] answers: the exception it raises, or [None] when it commits. *)
Definition transition_verdict (sid : uuid) (expected : list IngestionStatus)
    (target : IngestionStatus) (code : option string) (s : Session_state) : option exn :=
  if bool_decide (expected = []) || code_too_long code then Some (PyExn ValueError)
  else if negb (lock_permits (Some sid) false s) then Some conflict
  else match sources (db s) !! sid with
       | None => Some not_found
       | Some row =>
           if negb (bool_decide (src_status row ∈ expected)) then Some conflict
           else if negb (allowed (src_status row) target)
           then Some (MakoletExn InvalidStateTransitionError 0)
           else None
       end.

Lemma db_transition_spec sid expected target code s :
  db_wf (db s) ->
  wp (db_transition sid expected target code)
    (fun _ s' => transition_verdict sid expected target code s = None /\
       exists row d', sources (db s) !! sid = Some row /\ s' = with_db d' s /\
         stepped sid (with_status target code (clock (db s)) row) (db s) d' /\ db_wf d')
    (fun e s' => transition_verdict sid expected target code s = Some e /\ s' = s) s.
Proof.
  intros Hd. unfold db_transition, transition_verdict.
  assert (Hexp : match expected with [] => true | _ => false end = bool_decide (expected = [])).
  { destruct expected; [by rewrite bool_decide_eq_true_2|by rewrite bool_decide_eq_false_2]. }
  rewrite Hexp. wp_step. wp_step; [by rewrite H|]. rewrite H. wp_step. wp_step; [by rewrite H0|].
  rewrite H0. simpl. apply wp_in_transaction; intros ->; [done|]. simpl.
  eapply wp_mono; [by apply transition_body_spec|..]; cbv beta.
  - intros _ d' (row & Hrow & Hin & Hal & Hst & Hwf').
    rewrite Hrow, Hal, bool_decide_eq_true_2 by done. simpl. split; [done|]. eauto 6.
  - intros e _ Href. unfold transition_refusal in Href.
    destruct (sources (db s) !! sid) as [row|]; [|by subst].
    case_bool_decide; simpl; [|by subst]. by destruct Href as [-> ->].
Qed.

(** [raw_archive_objects] maps a digest to one object for good. *)
(** The archive table after [r] was stored. *)
Definition with_object (r : ArchiveReceipt) (m : gmap pystr ArchiveRow) : gmap pystr ArchiveRow :=
  match m !! ar_content_sha256 r with
  | Some _ => m
  | None => <[ ar_content_sha256 r := archive_row r ]> m
  end.

Lemma with_object_grows r m : m ⊆ with_object r m.
Proof. unfold with_object. destruct (m !! _) eqn:E; [done|]. by apply insert_subseteq. Qed.

Lemma attach_archive_spec r d :
  wp (attach_archive r)
    (fun inserted d' => inserted = bool_decide (archives d !! ar_content_sha256 r = None) /\
       (exists a, archives d' !! ar_content_sha256 r = Some a /\
          arc_object_key a = ar_object_key r /\ arc_content_length a = ar_content_length r) /\
       d' = set_archives (fun _ => archives d') d /\ archives d' = with_object r (archives d))
    (fun _ d' => d' = d) d.
Proof.
  unfold attach_archive, with_object. do 2 wp_step. destruct (archives d !! ar_content_sha256 r) eqn:E.
  - repeat wp_step; reflect_bools; eauto. split_and!; try done; [eauto|by destruct d].
  - repeat wp_step; [done|]. split_and!; try done; simpl.
    eexists. by rewrite lookup_insert_eq.
Qed.

Lemma record_archive_body_spec sid a version d :
  db_wf d -> de_content_length (ad_evidence a) = ar_content_length (ad_archive a) ->
  wp (record_archive_body sid a version)
    (fun reused d' => exists row, sources d !! sid = Some row /\ src_status row = DOWNLOADING /\
       stepped sid (with_archive a version (clock d) row) d d' /\ db_wf d' /\
       archives d' = with_object (ad_archive a) (archives d) /\
       (exists arc, archives d' !! ar_content_sha256 (ad_archive a) = Some arc /\
          arc_object_key arc = ar_object_key (ad_archive a)) /\
       reused = negb (ar_created (ad_archive a)) ||
                bool_decide (is_Some (archives d !! ar_content_sha256 (ad_archive a))))
    (fun _ _ => True) d.
Proof.
  intros Hwf Hlen. unfold record_archive_body, ensure_ingestion_transition.
  wp_step. eapply wp_mono; [apply source_row_spec|..]; cbv beta; [|done].
  intros row d0 [-> Hrow]. do 2 wp_step; [done|]. reflect_bools. rewrite H.
  do 2 wp_step; [done|]. wp_step. eapply wp_mono; [by apply current_run_id_spec|..];
    cbv beta; [|done].
  intros rid d1 (-> & front & r & Hruns & Hr & Hrs & -> & Hst). wp_step.
  eapply wp_mono; [apply attach_archive_spec|..]; cbv beta; [|done].
  intros inserted d1 (-> & (arc & Harc & Hkey & Hal) & Hd1 & Hatt).
  pose proof (with_object_grows (ad_archive a) (archives d)) as Hsub. rewrite <- Hatt in Hsub.
  remember (archives d1) as m eqn:Hm. clear Hm. subst d1.
  repeat wp_step; [done|].
  set (e := {| ev_source := sid; ev_run := run_id r |}).
  set (f := fun r => run_with_status ARCHIVED (run_error_code r) (run_finished_at r) r).
  set (row' := with_archive a version (clock d) row).
  assert (Hsrc : alter (with_archive a version (clock d)) sid (sources d)
                 = <[ sid := row' ]> (sources d)) by by apply update_source_insert.
  exists row. split_and!; [done|done|..].
  - split; simpl; try done. by exists e.
  - assert (Hfin : finishes ARCHIVED = false) by done.
    pose proof (h_finished _ _ _ (wf_history _ Hwf _ _ Hrow)) as Hf.
    rewrite Forall_forall in Hf. specialize (Hf r). rewrite Hst, H in Hf.
    apply (wf_move d _ sid row row' front r f e); simpl; rewrite ?H; try done.
    + intros _. apply Hf; [|done]. rewrite Hruns. set_solver.
    + unfold archive_ok. simpl. exists arc, (ad_evidence a).
      split_and!; [done..|]. by rewrite Hal.
  - done.
  - eauto.
  - destruct (archives d !! _); simpl; by rewrite ?bool_decide_eq_false_2, ?bool_decide_eq_true_2.
Qed.

(** ** Rediscovery *)

(** A value that was known is kept. *)
Definition known {A} (old new : option A) : Prop := forall x, old = Some x -> new = Some x.

Section rediscovery.
Variable split_url : pystr -> SplitUrl.
Variable casefold : pystr -> pystr.

(** What rediscovering a file may change in its discovery columns. *)
Record remote_refreshed (old new : RemoteFile) : Prop := {
  rr_identity : rf_retailer_id new = rf_retailer_id old /\
    rf_portal_id new = rf_portal_id old /\ rf_remote_id new = rf_remote_id old;
  rr_shape : rf_original_filename new = rf_original_filename old /\
    rf_document_type new = rf_document_type old /\
    rf_compression new = rf_compression old /\ rf_protocol new = rf_protocol old /\
    rf_discovered_at new = rf_discovered_at old;
  rr_url : rf_download_url new = rf_download_url old \/
    rf_protocol old = HTTPS /\
    is_signed_url_rotation split_url casefold (rf_download_url old)
      (rf_download_url new) = true;
  rr_evidence : known (rf_source_timestamp old) (rf_source_timestamp new) /\
    known (rf_content_length old) (rf_content_length new) /\
    known (rf_media_type old) (rf_media_type new) /\ known (rf_etag old) (rf_etag new) /\
    known (rf_last_modified old) (rf_last_modified new);
  rr_metadata : rf_response_metadata old <> [] ->
    rf_response_metadata new = rf_response_metadata old
}.

(** A column an update may write over [old]. *)
Definition column_ok (old : RemoteFile) (c : column) : Prop :=
  match c with
  | ColDownloadUrl v => rf_protocol old = HTTPS /\
      is_signed_url_rotation split_url casefold (rf_download_url old) v = true
  | ColSourceTimestamp _ => rf_source_timestamp old = None
  | ColDeclaredContentLength _ => rf_content_length old = None
  | ColMediaType _ => rf_media_type old = None
  | ColEtag _ => rf_etag old = None
  | ColLastModified _ => rf_last_modified old = None
  | ColResponseMetadata _ => rf_response_metadata old = []
  end.

Lemma remote_refreshed_refl rf : remote_refreshed rf rf.
Proof. split; auto; unfold known; auto 10. Qed.

Lemma write_column_refreshed old cur c :
  remote_refreshed old cur -> column_ok old c -> remote_refreshed old (write_column cur c).
Proof.
  intros [Hi Hs Hu He Hm] Hc. unfold known in *.
  destruct c; simpl in Hc; split; simpl; try done; try tauto; try congruence;
    intuition congruence.
Qed.

Lemma write_columns_refreshed old cs cur :
  remote_refreshed old cur -> Forall (column_ok old) cs ->
  remote_refreshed old (foldl write_column cur cs).
Proof.
  intros Hcur Hcs. revert cur Hcur. induction Hcs as [|c cs Hc _ IH]; intros cur Hcur; [done|].
  simpl. by apply IH, write_column_refreshed.
Qed.

(** Columns written by an update that is allowed to write. *)
Definition columns_ok (old : RemoteFile) (writable : bool) (cs : list column) : Prop :=
  Forall (column_ok old) cs /\ (writable = false -> cs = []).

Lemma columns_ok_app old b cs ds :
  columns_ok old b cs -> columns_ok old b ds -> columns_ok old b (cs ++ ds).
Proof.
  intros [Hc Hcn] [Hd Hdn]. split; [by apply Forall_app|]. intros Hb.
  by rewrite Hcn, Hdn.
Qed.

Lemma columns_ok_nil old b : columns_ok old b [].
Proof. by split. Qed.

Lemma columns_ok_one old (b : bool) c :
  column_ok old c -> columns_ok old b (if b then [c] else []).
Proof. intros Hc. destruct b; split; auto; done. Qed.

Lemma evidence_update_spec {A} `{EqDecision A} (col : A -> column) old b x y d :
  (x = None -> forall v, column_ok old (col v)) ->
  wp (evidence_update col b x y) (fun cs d' => d' = d /\ columns_ok old b cs)
    (fun e d' => e = conflict) d.
Proof.
  intros Hcol. unfold evidence_update. destruct x, y; repeat wp_step; auto using columns_ok_nil.
  split; [done|]. apply (columns_ok_one old b (col a)). auto.
Qed.

Definition attached (row : SourceRow) : bool :=
  match src_archive row with Some _ => true | None => false end.

Lemma rediscovery_updates_spec row rf owned d :
  wp (rediscovery_updates split_url casefold row rf owned)
    (fun cs d' => d' = d /\ columns_ok (src_remote row) (owned && negb (attached row)) cs)
    (fun e _ => e = conflict) d.
Proof.
  unfold rediscovery_updates. fold (attached row).
  set (old := src_remote row). set (b := owned && negb (attached row)).
  do 8 (wp_step; try done). wp_step.
  apply wp_mono with (Q := fun cs d' => d' = d /\ columns_ok old b cs)
    (E := fun e (_ : Db) => e = conflict); [| |done].
  { destruct (bool_decide (rf_download_url old = _)); repeat wp_step; auto using columns_ok_nil.
    split; [done|]. apply (columns_ok_one old b (ColDownloadUrl _)).
    reflect_bools. simpl. subst old. split; congruence. }
  intros url d0 [-> Hurl].
  do 5 (wp_step; eapply wp_mono; [apply (evidence_update_spec _ old b); by simpl| |done];
    intros ? ? [-> ?]). wp_step. wp_step; [done|]. wp_step. split; [done|].
  repeat apply columns_ok_app; try done.
  destruct b; simpl; [|apply columns_ok_nil].
  destruct (negb (nonempty (rf_response_metadata old)) && _) eqn:Hm;
    [|apply columns_ok_nil]. reflect_bools.
  apply (columns_ok_one old true (ColResponseMetadata _)). simpl.
  by destruct (rf_response_metadata old).
Qed.
End rediscovery.

(** ** Registration *)

Lemma find_some {A} (p : A -> bool) l x : find p l = Some x -> x ∈ l /\ p x = true.
Proof. intros [Hin ?]%List.find_some. split; [|done]. by apply list_elem_of_In. Qed.

Definition remote_identity (rf : RemoteFile) : pystr * pystr * pystr :=
  (rf_retailer_id rf, rf_portal_id rf, rf_remote_id rf).

Lemma same_identity_iff rf row :
  same_identity rf (src_remote row) = true <-> identity row = remote_identity rf.
Proof.
  unfold same_identity, identity, remote_identity. rewrite bool_decide_eq_true. split.
  - by intros (-> & -> & ->).
  - by intros [= -> -> ->].
Qed.

Lemma find_source_some rf d sid row :
  find_source rf d = Some (sid, row) ->
  sources d !! sid = Some row /\ identity row = remote_identity rf.
Proof.
  intros [Hin Hid]%find_some. apply elem_of_map_to_list in Hin.
  by apply same_identity_iff in Hid.
Qed.

Lemma find_source_none rf d sid row :
  find_source rf d = None -> sources d !! sid = Some row ->
  identity row <> remote_identity rf.
Proof.
  intros Hnone Hrow Hid%same_identity_iff.
  apply elem_of_map_to_list, list_elem_of_In in Hrow.
  pose proof (List.find_none _ _ Hnone _ Hrow). simpl in *. congruence.
Qed.

Lemma runs_of_unknown d sid : db_wf d -> sources d !! sid = None -> runs_of sid d = [].
Proof.
  intros Hwf Hnone. unfold runs_of. pose proof (wf_run_sources _ Hwf) as Hr.
  induction Hr as [|r l [row Hrow] _ IH]; [done|]. rewrite filter_cons.
  case_decide; [congruence|done].
Qed.

Lemma events_of_unknown d sid : db_wf d -> sources d !! sid = None -> events_of sid d = [].
Proof.
  intros Hwf Hnone. unfold events_of. pose proof (wf_event_sources _ Hwf) as Hr.
  induction Hr as [|r l [row Hrow] _ IH]; [done|]. rewrite filter_cons.
  case_decide; [congruence|done].
Qed.

Lemma next_id_unknown d : db_wf d -> sources d !! next_id d = None.
Proof.
  intros Hwf. destruct (sources d !! next_id d) eqn:E; [|done].
  pose proof (wf_source_fresh _ Hwf _ _ E). lia.
Qed.

(** The database with a newly discovered file. *)
Definition newly_inserted (rf : RemoteFile) (d d' : Db) : Prop :=
  sources d' = <[ next_id d := discovered_row rf (clock d) ]> (sources d) /\
  runs d' = runs d ++ [{| run_id := next_id d + 1; run_source := next_id d; run_attempt := 1;
    run_status := DISCOVERED; run_finished_at := None; run_error_code := None |}] /\
  events d' = events d ++ [{| ev_source := next_id d; ev_run := next_id d + 1;
    ev_from := None; ev_to := DISCOVERED; ev_error_code := None |}] /\
  archives d' = archives d /\ replays d' = replays d /\ next_id d' = next_id d + 2 /\
  active_rebuild d' = active_rebuild d /\ rebuild_runs d' = rebuild_runs d /\
  clock d' = clock d.

Lemma insert_source_spec rf d :
  wp (insert_source rf) (fun sid d' => sid = next_id d /\ newly_inserted rf d d') (fun _ _ => False) d.
Proof.
  unfold insert_source, fresh_id, newly_inserted. repeat wp_step. simpl. split_and!; try done. lia.
Qed.

Lemma wf_insert rf d d' :
  db_wf d -> newly_inserted rf d d' ->
  (forall sid row, sources d !! sid = Some row -> identity row <> remote_identity rf) ->
  db_wf d'.
Proof.
  intros Hwf (Hs & Hr & He & Ha & Hp & Hn & _) Hnew.
  pose proof (next_id_unknown _ Hwf) as Hnone.
  assert (Hsome : forall k, is_Some (sources d !! k) -> is_Some (sources d' !! k)).
  { intros k [row Hk]. rewrite Hs, lookup_insert_ne; [eauto|congruence]. }
  assert (Hself : is_Some (sources d' !! next_id d)) by (rewrite Hs, lookup_insert_eq; eauto).
  assert (Hold : forall s, runs_of s d' = runs_of s d ++ (if bool_decide (next_id d = s)
            then [{| run_id := next_id d + 1; run_source := next_id d; run_attempt := 1;
    run_status := DISCOVERED; run_finished_at := None; run_error_code := None |}] else [])).
  { intros s. unfold runs_of. rewrite Hr, filter_app. f_equal.
    rewrite filter_cons, filter_nil. simpl. by case_decide; case_bool_decide. }
  assert (Hevs : forall s, events_of s d' = events_of s d ++ (if bool_decide (next_id d = s)
            then [{| ev_source := next_id d; ev_run := next_id d + 1;
    ev_from := None; ev_to := DISCOVERED; ev_error_code := None |}] else [])).
  { intros s. unfold events_of. rewrite He, filter_app. f_equal.
    rewrite filter_cons, filter_nil. simpl. by case_decide; case_bool_decide. }
  split.
  - rewrite Hr, map_app. apply NoDup_app. split_and!; [apply Hwf| |apply NoDup_singleton].
    intros x Hx. simpl. rewrite list_elem_of_singleton. intros ->.
    apply list_elem_of_fmap in Hx as (q & Hq & Hin).
    pose proof (wf_run_fresh _ Hwf) as Hf. rewrite Forall_forall in Hf. specialize (Hf _ Hin). lia.
  - rewrite Hr, Hn. apply Forall_app. split; [|apply Forall_singleton; simpl; lia].
    eapply Forall_impl; [apply (wf_run_fresh _ Hwf)|]. simpl. lia.
  - intros s r. rewrite Hs, Hn, lookup_insert_Some. intros [[<- _]|[_ H]]; [lia|].
    pose proof (wf_source_fresh _ Hwf _ _ H). lia.
  - rewrite Hr. apply Forall_app. split; [|by apply Forall_singleton].
    eapply Forall_impl; [apply (wf_run_sources _ Hwf)|auto].
  - rewrite He. apply Forall_app. split; [|by apply Forall_singleton].
    eapply Forall_impl; [apply (wf_event_sources _ Hwf)|auto].
  - intros s r. rewrite Hs, lookup_insert_Some, Hold, Hevs. intros [[<- <-]|[Hne H]].
    + rewrite !bool_decide_eq_true_2, runs_of_unknown, events_of_unknown by done. simpl.
      split; simpl; try done.
      * by eexists [], _.
      * eexists _, []. split_and!; try done. constructor.
      * repeat constructor.
      * by repeat constructor.
    + rewrite !bool_decide_eq_false_2, !app_nil_r by done. by apply Hwf.
  - intros s r. rewrite Hs, lookup_insert_Some. intros [[<- <-]|[_ H]]; [done|].
    pose proof (wf_archive _ Hwf _ _ H) as Hok. unfold archive_ok in *. by rewrite Ha.
  - intros s1 s2 r1 r2. rewrite Hs, !lookup_insert_Some.
    intros [[<- <-]|[_ H1]] [[<- <-]|[_ H2]] Heq; try done.
    + exfalso. by apply (Hnew _ _ H2).
    + exfalso. by apply (Hnew _ _ H1).
    + by eapply (wf_identity _ Hwf).
  - intros s. unfold open_replays. rewrite Hp. apply (wf_replays _ Hwf).
Qed.

(** Only [sid]'s own row changed, and not its lifecycle. *)
Record touched (sid : uuid) (row row' : SourceRow) (d d' : Db) : Prop := {
  to_sources : sources d' = <[ sid := row' ]> (sources d);
  to_lifecycle : src_status row' = src_status row /\ src_archive row' = src_archive row /\
    src_parser_version row' = src_parser_version row /\
    src_evidence row' = src_evidence row /\ src_error_code row' = src_error_code row;
  to_identity : identity row' = identity row;
  to_tables : runs d' = runs d /\ events d' = events d /\ archives d' = archives d /\
    replays d' = replays d /\ next_id d' = next_id d /\
    active_rebuild d' = active_rebuild d /\ rebuild_runs d' = rebuild_runs d /\
    clock d' = clock d
}.

Lemma wf_touched d d' sid row row' :
  db_wf d -> sources d !! sid = Some row -> touched sid row row' d d' -> db_wf d'.
Proof.
  intros Hwf Hrow [Hs (Hst & Ha & _ & He & _) Hi (Hr & Hv & Harc & Hp & Hn & _)].
  assert (Hro : forall s, runs_of s d' = runs_of s d) by (unfold runs_of; by rewrite Hr).
  assert (Heo : forall s, events_of s d' = events_of s d) by (unfold events_of; by rewrite Hv).
  eapply (wf_step d d' sid row row'); try done.
  - rewrite Hro, Heo, Hst. by apply Hwf.
  - rewrite Hr. apply Hwf.
  - rewrite Hr, Hn. apply Hwf.
  - lia.
  - rewrite Hr. apply Hwf.
  - rewrite Hv. apply Hwf.
  - by rewrite Harc.
  - apply (archive_ok_same d d' row row'); [by eapply wf_archive|done|done|by rewrite Harc].
Qed.

Lemma wf_portals d f : db_wf d -> db_wf (set_portals f d).
Proof.
  by intros [].
Qed.

Section registration.
Variable split_url : pystr -> SplitUrl.
Variable casefold : pystr -> pystr.

(** What registering [rf] does when the file is already known. *)
Definition rediscovered (rf : RemoteFile) (owned : bool) (sid : uuid) (row row' : SourceRow)
    (d d' : Db) : Prop :=
  sources d !! sid = Some row /\ identity row = remote_identity rf /\
  touched sid row row' d d' /\
  remote_refreshed split_url casefold (src_remote row) (src_remote row') /\
  (owned = false \/ attached row = true \/ src_status row = COMPLETED -> row' = row).

Lemma refresh_source_spec sid row rf owned d :
  sources d !! sid = Some row ->
  wp (refresh_source split_url casefold sid row rf owned)
    (fun _ d' => exists row', touched sid row row' d d' /\
       remote_refreshed split_url casefold (src_remote row) (src_remote row') /\
       (owned = false \/ attached row = true \/ src_status row = COMPLETED -> row' = row))
    (fun e _ => e = conflict) d.
Proof.
  intros Hrow. unfold refresh_source.
  assert (Hsame : touched sid row row d d).
  { split; [by rewrite insert_id|done..]. }
  wp_step.
  - wp_step. exists row. split_and!; [done|apply remote_refreshed_refl|done].
  - wp_step. eapply wp_mono; [apply rediscovery_updates_spec| |done]; cbv beta.
    intros cs d' [-> [Hcs Hnone]]. wp_step.
    + wp_step. exists (with_columns cs (clock d) row).
      pose proof (write_columns_refreshed _ _ _ cs _
        (remote_refreshed_refl split_url casefold (src_remote row)) Hcs) as Hrf.
      split_and!; [|done|].
      * destruct Hrf as [(Hi1 & Hi2 & Hi3) _ _ _ _].
        split; [by apply update_source_insert|done| |done].
        unfold identity. simpl. by rewrite Hi1, Hi2, Hi3.
      * reflect_bools. intros Hc. assert (cs = []) as ->; [|done].
        apply Hnone. destruct Hc as [->|[->|Hc]]; [done|apply andb_false_r|done].
    + destruct cs; [|done]. exists row.
      split_and!; [done|apply remote_refreshed_refl|done].
Qed.

Lemma register_body_spec lock rf owned d :
  db_wf d ->
  wp (register_body split_url casefold lock rf owned)
    (fun reg d' => exists sid row', reg_source_file_id reg = sid /\
       sources d' !! sid = Some row' /\
       reg = registered_source_file d' sid row' (reg_already_registered reg) /\
       db_wf d' /\ (owned = true -> lock = Some (source_file_resource sid)) /\
       if reg_already_registered reg
       then exists row, rediscovered rf owned sid row row' d d'
       else find_source rf d = None /\ sid = next_id d /\ newly_inserted rf d d')
    (fun e _ => e = conflict) d.
Proof.
  intros Hwf. unfold register_body. do 4 wp_step. wp_step.
  set (d0 := ensure_portal rf d). assert (Hwf0 : db_wf d0) by by apply wf_portals.
  change (find_source rf d0) with (find_source rf d).
  destruct (find_source rf d) as [[sid row]|] eqn:Hfind.
  - destruct (find_source_some _ _ _ _ Hfind) as [Hrow Hid].
    wp_step. eapply wp_mono; [by apply (refresh_source_spec sid row rf owned d0)| |done].
    cbv beta. intros _ d1 (row' & Ht & Hrf & Hfr). wp_step. wp_step.
    assert (Hrow' : sources d1 !! sid = Some row').
    { by rewrite (to_sources _ _ _ _ _ Ht), lookup_insert_eq. }
    assert (Hwf1 : db_wf d1) by by eapply (wf_touched d0).
    assert (Hred : rediscovered rf owned sid row row' d d1) by (split_and!; try done; by destruct Ht).
    apply wp_mono with (Q := fun _ d2 => d2 = d1 /\
      (owned = true -> lock = Some (source_file_resource sid)))
      (E := fun e (_ : Db) => e = conflict); [repeat wp_step; reflect_bools; try done| |done].
    { split; [done|congruence]. }
    intros _ d2 [-> Hlock]. wp_step. unfold source_row. do 2 wp_step. rewrite Hrow'.
    repeat wp_step. exists sid, row'. simpl. split_and!; eauto.
  - wp_step. eapply wp_mono; [apply (insert_source_spec rf d0)| |done].
    cbv beta. intros sid d1 [-> Hins]. wp_step. wp_step.
    assert (Hrow' : sources d1 !! next_id d0 = Some (discovered_row rf (clock d0))).
    { destruct Hins as [-> _]. by rewrite lookup_insert_eq. }
    assert (Hwf1 : db_wf d1).
    { eapply (wf_insert rf d0); [done..|]. intros s r Hs. by eapply find_source_none. }
    apply wp_mono with (Q := fun _ d2 => d2 = d1 /\
      (owned = true -> lock = Some (source_file_resource (next_id d0))))
      (E := fun e (_ : Db) => e = conflict); [repeat wp_step; reflect_bools; try done| |done].
    { split; [done|congruence]. }
    intros _ d2 [-> Hlock]. wp_step. unfold source_row. do 2 wp_step. rewrite Hrow'.
    repeat wp_step. exists (next_id d0), (discovered_row rf (clock d0)).
    simpl. split_and!; eauto.
Qed.
End registration.

(** ** Replay runs *)

Definition is_open (sid : uuid) (r : ReplayRow) : bool :=
  bool_decide (rp_source r = sid /\ rp_finished_at r = None).

Lemma open_replays_map sid f d :
  (forall r, rp_source (f r) = rp_source r /\
     (rp_finished_at (f r) = None -> rp_finished_at r = None)) ->
  (length (open_replays sid (set_replays (map f) d)) <= length (open_replays sid d))%nat.
Proof.
  intros Hf. unfold open_replays. simpl. induction (replays d) as [|r l IH]; [done|].
  simpl. rewrite !filter_cons. destruct (Hf r) as [Hs Hn].
  rewrite Hs. repeat case_decide; simpl; try lia. naive_solver.
Qed.

Lemma open_replays_interrupted sid now d :
  open_replays sid (set_replays (map (interrupted sid now)) d) = [].
Proof.
  unfold open_replays. simpl. induction (replays d) as [|r l IH]; [done|].
  simpl. rewrite filter_cons. case_decide as Hopen; [|done]. exfalso.
  unfold interrupted in Hopen.
  destruct ((rp_source r =? sid) && bool_decide (rp_finished_at r = None)) eqn:E;
    simpl in Hopen; [by destruct Hopen|].
  destruct Hopen as [Hs Hn]. rewrite Hs, Z.eqb_refl, bool_decide_eq_true_2 in E; done.
Qed.

Lemma wf_replays_only d d' :
  db_wf d -> sources d' = sources d -> runs d' = runs d -> events d' = events d ->
  archives d' = archives d -> next_id d <= next_id d' ->
  (forall sid, (length (open_replays sid d') <= 1)%nat) -> db_wf d'.
Proof.
  intros Hwf Hs Hr He Ha Hn Hp. split; rewrite ?Hs, ?Hr, ?He; try apply Hwf; try done.
  - eapply Forall_impl; [apply (wf_run_fresh _ Hwf)|]. simpl. lia.
  - intros s r H. pose proof (wf_source_fresh _ Hwf _ _ H). lia.
  - intros s r H. unfold runs_of, events_of. rewrite Hr, He. by apply Hwf.
  - intros s r H. pose proof (wf_archive _ Hwf _ _ H) as Hok.
    unfold archive_ok in *. by rewrite Ha.
Qed.

Lemma interrupted_keeps sid now r :
  rp_source (interrupted sid now r) = rp_source r /\
  (rp_finished_at (interrupted sid now r) = None -> rp_finished_at r = None).
Proof. unfold interrupted. by case_match. Qed.

Lemma begin_replay_body_spec sid version rebuild d :
  db_wf d ->
  wp (begin_replay_body sid version rebuild)
    (fun rid d' => rid = next_id d /\ db_wf d' /\ sources d' = sources d /\
       runs d' = runs d /\ events d' = events d /\ archives d' = archives d /\
       (exists row, sources d !! sid = Some row /\ src_archive row <> None) /\
       map rp_id (open_replays sid d') = [rid])
    (fun _ _ => True) d.
Proof.
  intros Hwf. unfold begin_replay_body. wp_step.
  apply wp_mono with (Q := fun _ d' => d' = d) (E := fun (_ : exn) (_ : Db) => True); [| |done].
  { unfold assert_db_ingestion_allowed. do 2 wp_step. destruct (active_rebuild d);
      repeat wp_step; done. }
  intros _ d0 ->. wp_step. eapply wp_mono; [apply source_row_spec| |done]; cbv beta.
  intros row d0 [-> Hrow]. unfold fresh_id.
  wp_step. wp_step; [done|]. reflect_bools. repeat wp_step.
  assert (Hopen : forall s, open_replays s (set_replays (fun l => l ++
    [{| rp_id := next_id d; rp_source := sid; rp_rebuild := rebuild;
        rp_requested_version := version; rp_previous_version := src_parser_version row;
        rp_status := PARSING; rp_finished_at := None; rp_succeeded := None;
        rp_error_code := None |}]) (bump_id (set_replays (map (interrupted sid (clock d))) d)))
    = open_replays s (set_replays (map (interrupted sid (clock d))) d) ++
      (if bool_decide (sid = s) then [{| rp_id := next_id d; rp_source := sid;
        rp_rebuild := rebuild; rp_requested_version := version;
        rp_previous_version := src_parser_version row; rp_status := PARSING;
        rp_finished_at := None; rp_succeeded := None; rp_error_code := None |}] else [])).
  { intros s. unfold open_replays. simpl. rewrite filter_app. f_equal.
    rewrite filter_cons, filter_nil. simpl.
    case_decide as H1; case_bool_decide; try done; exfalso; naive_solver. }
  split_and!; try done; [|eauto|].
  - apply (wf_replays_only d); try done; [simpl; lia|]. intros s. rewrite Hopen, length_app.
    case_bool_decide.
    + subst s. by rewrite open_replays_interrupted.
    + simpl. pose proof (open_replays_map s (interrupted sid (clock d)) d
        (interrupted_keeps _ _)). pose proof (wf_replays _ Hwf s). lia.
  - rewrite Hopen, open_replays_interrupted, bool_decide_eq_true_2 by done. done.
Qed.

Lemma map_no_match (p : ReplayRow -> bool) f l :
  py_any p l = false -> map (fun r => if p r then f r else r) l = l.
Proof.
  induction l as [|r l IH]; [done|]. simpl. intros [-> Hl]%orb_false_iff. f_equal. auto.
Qed.

Lemma set_replays_same f d : f (replays d) = replays d -> set_replays f d = d.
Proof. destruct d. unfold set_replays. simpl. by intros ->. Qed.

Lemma finish_replay_body_spec lock rid succeeded code d :
  db_wf d ->
  wp (finish_replay_body lock rid succeeded code)
    (fun updated d' => db_wf d' /\ sources d' = sources d /\ runs d' = runs d /\
       events d' = events d /\ archives d' = archives d /\
       updated = py_any (open_replay rid) (replays d) /\ (updated = false -> d' = d))
    (fun _ _ => True) d.
Proof.
  intros Hwf. unfold finish_replay_body. do 4 wp_step; [done|]. repeat wp_step.
  split_and!; try done.
  - apply (wf_replays_only d); try done.
    intros s. etransitivity; [|apply (wf_replays _ Hwf s)]. apply open_replays_map.
    intros r. by destruct (open_replay rid r).
  - intros Hno. by apply set_replays_same, map_no_match.
Qed.

(** ** Runs of the whole system

    Any number of sessions call the operations in any order; each call runs as its
    transaction does.  Locks come and go, time passes and the maintenance barrier is
    set and cleared between them. *)
Section reachability.
Variable split_url : pystr -> SplitUrl.
Variable casefold : pystr -> pystr.

Inductive request :=
  | ReqRegister (rf : RemoteFile) (owned : bool)
  | ReqGet (sid : uuid)
  | ReqTransition (sid : uuid) (expected : list IngestionStatus) (target : IngestionStatus)
      (code : option string)
  | ReqRecordArchive (sid : uuid) (a : ArchivedDownload) (version : pystr)
  | ReqBeginReplay (sid : uuid) (version : pystr) (rebuild : option uuid)
  | ReqFinishReplay (rid : uuid) (succeeded : bool) (code : option string).

Definition serve (q : request) : M Session_state unit :=
  match q with
  | ReqRegister rf owned => db_register_discovery split_url casefold rf owned;; mret tt
  | ReqGet sid => db_get sid;; mret tt
  | ReqTransition sid expected target code => db_transition sid expected target code
  | ReqRecordArchive sid a version => db_record_archive sid a version;; mret tt
  | ReqBeginReplay sid version rebuild => db_begin_replay sid version rebuild;; mret tt
  | ReqFinishReplay rid succeeded code => db_finish_replay rid succeeded code
  end.

(** The parts of the database the requests do not own. *)
Definition retimed (d d' : Db) : Prop :=
  sources d' = sources d /\ runs d' = runs d /\ events d' = events d /\
  archives d' = archives d /\ replays d' = replays d /\ next_id d' = next_id d.

Inductive system_step : Db -> Db -> Prop :=
  | step_request q locks locked d r s' :
      serve q {| db := d; lock_stack := locks; held := locked |} = (r, s') ->
      system_step d (db s')
  | step_other d d' : retimed d d' -> system_step d d'.

Definition reachable : Db -> Prop := rtc system_step empty_db.

(** A request keeps the tables well formed, and leaves them alone when it raises. *)
Lemma serve_spec q s :
  db_wf (db s) ->
  wp (serve q) (fun _ s' => db_wf (db s')) (fun _ s' => db s' = db s) s.
Proof.
  intros Hwf.
  destruct q as [rf owned|sid|sid expected target code|sid a version|sid version rebuild
                |rid succeeded code]; simpl.
  - wp_step. unfold db_register_discovery. do 2 wp_step. apply wp_in_transaction; [done|].
    intros _. eapply wp_mono; [by apply register_body_spec| |done]; cbv beta.
    intros reg d' (sid & row' & _ & _ & _ & Hwf' & _). by wp_step.
  - wp_step. unfold db_get. apply wp_in_transaction; [done|]. intros _. wp_step.
    eapply wp_mono; [apply source_row_spec| |done]; cbv beta. intros row d' [-> _].
    by repeat wp_step.
  - unfold db_transition. wp_step. wp_step; [done|]. wp_step. wp_step; [done|].
    apply wp_in_transaction; [done|].
    intros _. eapply wp_mono; [by apply transition_body_spec| |done]; cbv beta.
    intros _ d' (row & _ & _ & _ & _ & Hwf'). done.
  - wp_step. unfold db_record_archive. do 6 (wp_step; wp_step; [done|]).
    apply wp_in_transaction; [done|]. intros _. reflect_bools.
    eapply wp_mono; [by apply record_archive_body_spec| |done]; cbv beta.
    intros re d' (row & _ & _ & _ & Hwf' & _). by wp_step.
  - wp_step. unfold db_begin_replay. wp_step. wp_step; [done|].
    apply wp_in_transaction; [done|]. intros _.
    eapply wp_mono; [by apply begin_replay_body_spec| |done]; cbv beta.
    intros rid d' (_ & Hwf' & _). by wp_step.
  - unfold db_finish_replay. wp_step. wp_step; [done|]. wp_step. wp_step; [done|].
    do 2 wp_step. wp_step. apply wp_in_transaction; [done|]. intros _.
    eapply wp_mono; [by apply finish_replay_body_spec| |done]; cbv beta.
    intros updated d' (Hwf' & _ & _ & _ & _ & _ & Hno). wp_step; [|done].
    reflect_bools. simpl. by apply Hno.
Qed.

Lemma retimed_wf d d' : db_wf d -> retimed d d' -> db_wf d'.
Proof.
  intros Hwf (Hs & Hr & He & Ha & Hp & Hn). apply (wf_replays_only d); try done; [lia|].
  intros sid. unfold open_replays. rewrite Hp. apply (wf_replays _ Hwf).
Qed.

Lemma system_step_wf d d' : db_wf d -> system_step d d' -> db_wf d'.
Proof.
  intros Hwf Hstep. destruct Hstep as [q locks locked d r s' Hq|d d' Hrt]; [|by eapply retimed_wf].
  pose proof (serve_spec q {| db := d; lock_stack := locks; held := locked |} Hwf) as Hs.
  unfold wp in Hs. rewrite Hq in Hs. destruct r; [done|]. by rewrite Hs.
Qed.

Lemma reachable_wf d : reachable d -> db_wf d.
Proof.
  unfold reachable. intros Hd. assert (Hgen : forall d0, db_wf d0 -> rtc system_step d0 d -> db_wf d).
  { induction 2; [done|]. eauto using system_step_wf. }
  by eapply Hgen; [apply empty_db_wf|].
Qed.

(** What any step leaves of a source row: its identity always, its status and archive
    once it is terminal, the whole row once it is completed. *)
Definition row_evolves (row row' : SourceRow) : Prop :=
  identity row' = identity row /\
  (terminal (src_status row) = true ->
   src_status row' = src_status row /\ src_archive row' = src_archive row) /\
  (src_status row = COMPLETED -> row' = row).

Lemma row_evolves_refl row : row_evolves row row.
Proof. split_and!; auto. Qed.

Lemma row_evolves_trans r1 r2 r3 : row_evolves r1 r2 -> row_evolves r2 r3 -> row_evolves r1 r3.
Proof.
  intros (Hi & Ht & Hc) (Hi' & Ht' & Hc'). split_and!; [congruence|..].
  - intros H. destruct (Ht H) as [Hs Ha]. rewrite <- Hs in H. destruct (Ht' H). split; congruence.
  - intros H. specialize (Hc H). subst r2. auto.
Qed.

Definition db_evolves (d d' : Db) : Prop :=
  archives d ⊆ archives d' /\
  forall sid row, sources d !! sid = Some row ->
    exists row', sources d' !! sid = Some row' /\ row_evolves row row'.

Lemma db_evolves_same d d' :
  archives d' = archives d -> sources d' = sources d -> db_evolves d d'.
Proof.
  intros Ha Hs. split; [by rewrite Ha|]. intros sid row Hrow. exists row.
  rewrite Hs. auto using row_evolves_refl.
Qed.

Lemma db_evolves_insert d d' sid row row' :
  archives d ⊆ archives d' -> sources d !! sid = Some row ->
  sources d' = <[ sid := row' ]> (sources d) -> row_evolves row row' -> db_evolves d d'.
Proof.
  intros Ha Hrow Hs Hev. split; [done|]. intros k r Hk. rewrite Hs.
  destruct (decide (k = sid)) as [->|Hne].
  - rewrite lookup_insert_eq. simplify_eq. eauto.
  - rewrite lookup_insert_ne by done. eauto using row_evolves_refl.
Qed.

Lemma stepped_evolves d d' sid row row' :
  sources d !! sid = Some row -> allowed (src_status row) (src_status row') = true ->
  identity row' = identity row -> stepped sid row' d d' -> db_evolves d d'.
Proof.
  intros Hrow Hal Hid Hst. eapply db_evolves_insert; [apply Hst|done|apply Hst|].
  split_and!; [done|..].
  - intros Ht. by rewrite (terminal_no_exit _ _ Ht) in Hal.
  - intros Hc. rewrite Hc in Hal. by destruct (src_status row').
Qed.

Lemma register_evolves d d' rf owned sid row row' :
  rediscovered split_url casefold rf owned sid row row' d d' -> db_evolves d d'.
Proof.
  intros (Hrow & _ & [Hs (Hst & Ha & _) Hi (_ & _ & Harc & _)] & _ & Hfr).
  eapply db_evolves_insert; [by rewrite Harc|done|done|].
  split_and!; auto.
Qed.

Lemma serve_evolves q s :
  db_wf (db s) ->
  wp (serve q) (fun _ s' => db_evolves (db s) (db s')) (fun _ _ => True) s.
Proof.
  intros Hwf.
  destruct q as [rf owned|sid|sid expected target code|sid a version|sid version rebuild
                |rid succeeded code]; simpl.
  - wp_step. unfold db_register_discovery. do 2 wp_step. apply wp_in_transaction; [done|].
    intros _. eapply wp_mono; [by apply register_body_spec| |done]; cbv beta.
    intros reg d' (sid & row' & _ & _ & _ & _ & _ & Hcase). wp_step. simpl.
    destruct (reg_already_registered reg).
    + destruct Hcase as [row Hred]. by eapply register_evolves.
    + destruct Hcase as (_ & _ & Hs & _ & _ & Ha & _). split; [by rewrite Ha|].
      intros k r Hk. rewrite Hs. pose proof (next_id_unknown _ Hwf).
      rewrite lookup_insert_ne by congruence. eauto using row_evolves_refl.
  - wp_step. unfold db_get. apply wp_in_transaction; [done|]. intros _. wp_step.
    eapply wp_mono; [apply source_row_spec| |done]; cbv beta. intros row d' [-> _].
    repeat wp_step. by apply db_evolves_same.
  - unfold db_transition. wp_step. wp_step; [done|]. wp_step. wp_step; [done|].
    apply wp_in_transaction; [done|].
    intros _. eapply wp_mono; [by apply transition_body_spec| |done]; cbv beta.
    intros _ d' (row & Hrow & _ & Hal & Hst & _).
    by apply (stepped_evolves (db s) d' sid row (with_status target code (clock (db s)) row)).
  - wp_step. unfold db_record_archive. do 6 (wp_step; wp_step; [done|]).
    apply wp_in_transaction; [done|]. intros _. reflect_bools.
    eapply wp_mono; [by apply record_archive_body_spec| |done]; cbv beta.
    intros re d' (row & Hrow & Hdl & Hst & _). wp_step.
    apply (stepped_evolves (db s) d' sid row (with_archive a version (clock (db s)) row));
      try done. by rewrite Hdl.
  - wp_step. unfold db_begin_replay. wp_step. wp_step; [done|].
    apply wp_in_transaction; [done|]. intros _.
    eapply wp_mono; [by apply begin_replay_body_spec| |done]; cbv beta.
    intros rid d' (_ & _ & Hs & _ & _ & Ha & _). wp_step. by apply db_evolves_same.
  - unfold db_finish_replay. wp_step. wp_step; [done|]. wp_step. wp_step; [done|].
    do 2 wp_step. wp_step. apply wp_in_transaction; [done|]. intros _.
    eapply wp_mono; [by apply finish_replay_body_spec| |done]; cbv beta.
    intros updated d' (_ & Hs & _ & _ & Ha & _). wp_step; [done|]. by apply db_evolves_same.
Qed.

Lemma system_step_evolves d d' : db_wf d -> system_step d d' -> db_evolves d d'.
Proof.
  intros Hwf Hstep. destruct Hstep as [q locks locked d r s' Hq|d d' Hrt].
  - pose proof (wp_and _ _ _ _ _ _
      (serve_spec q {| db := d; lock_stack := locks; held := locked |} Hwf)
      (serve_evolves q {| db := d; lock_stack := locks; held := locked |} Hwf)) as Hs.
    unfold wp in Hs. rewrite Hq in Hs. destruct r; [apply Hs|].
    destruct Hs as [-> _]. by apply db_evolves_same.
  - destruct Hrt as (Hs & _ & _ & Ha & _). by apply db_evolves_same.
Qed.

Lemma system_steps_evolve d d' : db_wf d -> rtc system_step d d' -> db_evolves d d'.
Proof.
  intros Hwf Hrtc. revert Hwf. induction Hrtc as [d|d1 d2 d3 Hstep _ IH]; intros Hwf.
  - by apply db_evolves_same.
  - destruct (system_step_evolves _ _ Hwf Hstep) as [Ha Hev].
    destruct (IH (system_step_wf _ _ Hwf Hstep)) as [Ha' Hev'].
    split; [by etransitivity|]. intros sid row Hrow.
    destruct (Hev _ _ Hrow) as (row' & Hrow' & H1). destruct (Hev' _ _ Hrow') as (row'' & ? & H2).
    eauto using row_evolves_trans.
Qed.
End reachability.
