(* ===== verification/Operations.v ===== *)
(** Recovery of abandoned ingestions: [recover_stale_jobs] of
    [src/src/makolet/adapters/persistence/operations.py], on the session locks of
    [adapters/persistence/leases.py]. *)
From S2P Require Import Prelude Errors Effects Enums PyNumbers Models AppModels Ports Database SourceFiles SourceFilesFacts.

Definition ACTIVE_STATUSES : list IngestionStatus :=
  [DOWNLOADING; ARCHIVED; PARSING; STAGED; VALIDATING; APPLYING].

(** Durations in microseconds. *)
Definition RECOVERY_LEASE_TTL : Z := 5 * 60 * 1000000.
Definition SEVEN_DAYS : Z := 7 * 86400 * 1000000.

Section recovery.
Variable hash_resource : pystr -> Z.

(** The lease manager of a session. *)
#[local] Instance session_leases : LeaseManager Session_state :=
  {| lease_acquire := acquire hash_resource; lease_release := release hash_resource |}.

Definition is_stale (stale_after : Z) (d : Db) (row : SourceRow) : bool :=
  bool_decide (src_status row ∈ ACTIVE_STATUSES)
  && (src_updated_at row <? clock d - stale_after).

(** [ORDER BY updated_at, id]. *)
Definition older (a b : uuid * SourceRow) : Prop :=
  src_updated_at a.2 < src_updated_at b.2 \/
  (src_updated_at a.2 = src_updated_at b.2 /\ a.1 <= b.1).
#[local] Instance older_dec a b : Decision (older a b).
Proof. unfold older. apply _. Defined.

(** The rows of the [SELECT]. *)
Definition stale_rows (stale_after : Z) (d : Db) : list (uuid * IngestionStatus) :=
  map (fun p => (p.1, src_status p.2))
    (take 1000 (merge_sort older
      (List.filter (fun p => is_stale stale_after d p.2) (map_to_list (sources d))))).

(** The body of the loop: whether the row was recovered. *)
Definition recover_row (row : uuid * IngestionStatus) : M Session_state bool :=
  let '(sid, current) := row in
  with_lease (source_file_resource sid) (py "stale-ingestion-recovery") RECOVERY_LEASE_TTL
    (fun acquired =>
      if acquired then
        try_with
          (db_transition sid [current] FAILED_RETRYABLE (Some "stale_job_recovered"%string);;
           mret true)
          (fun e => if bool_decide (e = conflict) then mret false else raise e)
      else mret false).

Fixpoint recover_rows (rows : list (uuid * IngestionStatus)) (recovered : Z)
    : M Session_state Z :=
  match rows with
  | [] => mret recovered
  | row :: rows =>
      done ← recover_row row;
      recover_rows rows (recovered + Z.b2z done)
  end.

Definition recover_stale_jobs (stale_after : Z) : M Session_state Z :=
  raise_if ((stale_after <=? 0) || (SEVEN_DAYS <? stale_after)) (PyExn ValueError);;
  s ← get_state;
  recover_rows (stale_rows stale_after (db s)) 0.

(** ** What recovery does *)

Definition lock_key (sid : uuid) : Z :=
  hash_resource (py "makolet:ingestion-file:" ++ source_file_resource sid).

(** Nobody holds the lock of [sid]. *)
Definition free (s : Session_state) (sid : uuid) : bool :=
  negb (bool_decide (lock_key sid ∈ held s)).

Definition recovered_row (now : Z) (row : SourceRow) : SourceRow :=
  with_status FAILED_RETRYABLE (Some "stale_job_recovered"%string) now row.

Lemma active_can_fail st : st ∈ ACTIVE_STATUSES -> allowed st FAILED_RETRYABLE = true.
Proof. intros Hin. repeat (apply elem_of_cons in Hin as [->|Hin]; [done|]). set_solver. Qed.

(** The session that took the lock of [sid]. *)
Definition locked (sid : uuid) (s : Session_state) : Session_state :=
  {| db := db s; lock_stack := source_file_resource sid :: lock_stack s;
     held := {[ lock_key sid ]} ∪ held s |}.

Lemma acquire_spec sid s :
  wp (acquire hash_resource (source_file_resource sid) (py "stale-ingestion-recovery")
        RECOVERY_LEASE_TTL)
    (fun b s' => b = free s sid /\ s' = if free s sid then locked sid s else s)
    (fun _ _ => False) s.
Proof.
  unfold acquire, free. do 3 (wp_step; wp_step; [by vm_compute in H|]). do 2 wp_step.
  fold (lock_key sid). case_bool_decide; repeat wp_step; done.
Qed.

Lemma release_spec sid s d :
  lock_key sid ∉ held s ->
  wp (release hash_resource (source_file_resource sid)) (fun _ s' => s' = with_db d s)
    (fun _ _ => False) (with_db d (locked sid s)).
Proof.
  intros Hk. unfold release. wp_step. unfold with_db, locked. simpl. f_equal.
  fold (lock_key sid). set_solver.
Qed.

(** One row: recovered when its lock is free and its status has not changed. *)
Lemma recover_row_spec sid row s :
  db_wf (db s) -> sources (db s) !! sid = Some row -> src_status row ∈ ACTIVE_STATUSES ->
  wp (recover_row (sid, src_status row))
    (fun b s' => b = free s sid /\ held s' = held s /\ lock_stack s' = lock_stack s /\
       db_wf (db s') /\ clock (db s') = clock (db s) /\
       sources (db s') = if free s sid
         then <[ sid := recovered_row (clock (db s)) row ]> (sources (db s))
         else sources (db s))
    (fun _ _ => False) s.
Proof.
  intros Hwf Hrow Hact. unfold recover_row, with_lease. cbn [lease_acquire lease_release session_leases]. wp_step.
  eapply wp_mono; [apply acquire_spec| |done]; cbv beta. intros b s1 [-> ->].
  destruct (free s sid) eqn:Hfree; cbv iota.
  - unfold free in Hfree. reflect_bools.
    wp_step. wp_step. wp_step. wp_step. unfold db_transition.
    wp_step. wp_step; [done|]. wp_step. wp_step; [done|].
    apply wp_in_transaction.
    { unfold lock_permits, current_ingestion_lock. cbn [lock_stack locked head].
      by rewrite bool_decide_eq_true_2. }
    intros _. eapply wp_mono; [by apply transition_body_spec|..]; cbv beta; cbn [db locked].
    + intros _ d' (row0 & Hrow0 & _ & _ & Hst & Hwf'). simplify_eq. repeat wp_step; [|done].
      eapply wp_mono; [by apply (release_spec sid s d')| |done]; cbv beta.
      intros _ s' ->. wp_step. cbn [db held lock_stack with_db]. split_and!; try done; [apply Hst|].
      apply (st_sources _ _ _ _ Hst).
    + intros e _ Href. unfold transition_refusal in Href. rewrite Hrow in Href.
      rewrite bool_decide_eq_true_2 in Href by set_solver.
      destruct Href as [Hal _]. by rewrite (active_can_fail _ Hact) in Hal.
  - repeat wp_step; done.
Qed.

Definition recovered_count (s : Session_state) (rows : list (uuid * IngestionStatus)) : Z :=
  py_len (List.filter (fun p => free s p.1) rows).

Lemma recover_rows_spec rows : forall n s,
  db_wf (db s) -> NoDup (map fst rows) ->
  (forall sid st, (sid, st) ∈ rows -> st ∈ ACTIVE_STATUSES /\
     exists row, sources (db s) !! sid = Some row /\ src_status row = st) ->
  wp (recover_rows rows n)
    (fun k s' => k = n + recovered_count s rows /\ held s' = held s /\
       lock_stack s' = lock_stack s /\ db_wf (db s') /\
       forall sid, sources (db s') !! sid =
         if bool_decide (sid ∈ map fst rows) && free s sid
         then recovered_row (clock (db s)) <$> sources (db s) !! sid
         else sources (db s) !! sid)
    (fun _ _ => False) s.
Proof.
  induction rows as [|[sid st] rows IH]; intros n s Hwf Hnd Hrows; simpl.
  - wp_step. split_and!; try done. unfold recovered_count, py_len. simpl. lia.
  - apply NoDup_cons in Hnd as [Hnew Hnd].
    destruct (Hrows sid st) as (Hact & row & Hrow & <-); [by left|].
    wp_step. eapply wp_mono; [by apply recover_row_spec| |done]; cbv beta.
    intros b s1 (-> & Hheld & Hstack & Hwf1 & Hclk & Hsrc).
    assert (Hfree : forall k, free s1 k = free s k) by (intros; unfold free; by rewrite Hheld).
    assert (Hother : forall k, k <> sid -> sources (db s1) !! k = sources (db s) !! k).
    { intros k Hk. rewrite Hsrc. destruct (free s sid); [|done]. by rewrite lookup_insert_ne. }
    eapply wp_mono; [apply IH; try done| |done]; cbv beta.
    { intros k st Hin. destruct (Hrows k st) as (? & r & ? & ?); [by right|].
      split; [done|]. exists r. rewrite Hother; [done|]. intros ->.
      apply Hnew. exact (list_elem_of_fmap_2 fst _ _ Hin). }
    intros k s2 (-> & ? & ? & ? & Hs2). split_and!; [|congruence|congruence|done|].
    + unfold recovered_count. simpl.
      rewrite (List.filter_ext _ (fun p => free s p.1)) by (intros; apply Hfree).
      destruct (free s sid); simpl; rewrite ?py_len_cons; lia.
    + intros k. rewrite Hs2, Hfree, Hclk. destruct (decide (k = sid)) as [->|Hne].
      * rewrite (bool_decide_eq_false_2 (sid ∈ map fst rows)) by done.
        rewrite (bool_decide_eq_true_2 (sid ∈ sid :: _)) by set_solver. simpl.
        rewrite Hsrc. destruct (free s sid); [|done]. rewrite lookup_insert_eq, Hrow. done.
      * rewrite Hother by done.
        by rewrite (bool_decide_ext (k ∈ map fst rows) (k ∈ sid :: map fst rows)) by set_solver.
Qed.

(** The selected rows are distinct, and stale. *)
Lemma elem_of_stale_rows stale d sid st :
  (sid, st) ∈ stale_rows stale d ->
  exists row, sources d !! sid = Some row /\ src_status row = st /\ is_stale stale d row = true.
Proof.
  unfold stale_rows. intros ([k row] & [= -> ->] & Hin)%list_elem_of_fmap.
  eapply elem_of_sublist in Hin; [|apply sublist_take].
  rewrite merge_sort_Permutation in Hin.
  apply list_elem_of_In, filter_In in Hin as [Hin Hst].
  apply list_elem_of_In, elem_of_map_to_list in Hin. eauto.
Qed.

Lemma NoDup_stale_rows stale d : NoDup (map fst (stale_rows stale d)).
Proof.
  unfold stale_rows. rewrite map_map. simpl.
  eapply sublist_NoDup; [|apply fmap_sublist, sublist_take].
  rewrite merge_sort_Permutation.
  eapply sublist_NoDup; [apply (NoDup_fst_map_to_list (sources d))|].
  apply fmap_sublist. induction (map_to_list (sources d)) as [|p l IH]; [done|].
  simpl. case_match; by constructor.
Qed.

Lemma is_stale_active stale d row : is_stale stale d row = true -> src_status row ∈ ACTIVE_STATUSES.
Proof. unfold is_stale. intros. reflect_bools. done. Qed.

Lemma recover_stale_jobs_spec stale s :
  db_wf (db s) -> 0 < stale <= SEVEN_DAYS ->
  wp (recover_stale_jobs stale)
    (fun k s' => k = recovered_count s (stale_rows stale (db s)) /\ held s' = held s /\
       lock_stack s' = lock_stack s /\
       forall sid, sources (db s') !! sid =
         if bool_decide (sid ∈ map fst (stale_rows stale (db s))) && free s sid
         then recovered_row (clock (db s)) <$> sources (db s) !! sid
         else sources (db s) !! sid)
    (fun _ _ => False) s.
Proof.
  intros Hwf Hstale. unfold recover_stale_jobs. do 2 wp_step.
  { apply orb_true_iff in H as [H|H]; reflect_bools; lia. }
  do 2 wp_step. eapply wp_mono; [apply recover_rows_spec; try done| |done]; cbv beta.
  - apply NoDup_stale_rows.
  - intros sid st (row & ? & <- & Hst)%elem_of_stale_rows. eauto using is_stale_active.
  - intros k s' (-> & ? & ? & _ & ?). by rewrite Z.add_0_l.
Qed.
End recovery.
