(* ===== verification/Samples.v ===== *)
(** Concrete values the witnesses of the theorems run on. *)
From S2P Require Import Prelude Errors Effects Enums PyNumbers Models AppModels Ports Database SourceFiles SourceFilesFacts.

Definition sample_remote : RemoteFile := {|
  rf_retailer_id := py "shufersal"; rf_portal_id := py "main"; rf_protocol := HTTPS;
  rf_remote_id := py "Price-1"; rf_download_url := py "https://prices.example/1?sig=a";
  rf_original_filename := py "Price7290027600007-001-202601010300.gz";
  rf_document_type := PRICE_DELTA; rf_compression := GZIP;
  rf_discovered_at := Aware 1000; rf_source_timestamp := Some (Aware 900);
  rf_content_length := None; rf_media_type := None; rf_etag := None;
  rf_last_modified := None; rf_response_metadata := []
|}.

(** The same file listed again, with an entity tag. *)
Definition sample_relisted : RemoteFile := {|
  rf_retailer_id := py "shufersal"; rf_portal_id := py "main"; rf_protocol := HTTPS;
  rf_remote_id := py "Price-1"; rf_download_url := py "https://prices.example/1?sig=a";
  rf_original_filename := py "Price7290027600007-001-202601010300.gz";
  rf_document_type := PRICE_DELTA; rf_compression := GZIP;
  rf_discovered_at := Aware 2000; rf_source_timestamp := Some (Aware 900);
  rf_content_length := None; rf_media_type := None; rf_etag := Some (py "v1");
  rf_last_modified := None; rf_response_metadata := []
|}.

Definition sample_digest : pystr := repeat 97 64.

Definition sample_evidence : DownloadEvidence := {|
  de_started_at := Aware 1100; de_finished_at := Aware 1200; de_status_code := Some 200;
  de_content_length := 42; de_media_type := None; de_etag := None; de_last_modified := None;
  de_response_metadata := []
|}.

Definition sample_archived : ArchivedDownload := {|
  ad_archive := {| ar_content_sha256 := sample_digest;
                   ar_object_key := py "sha256/aa/" ++ sample_digest;
                   ar_content_length := 42; ar_archived_at := Aware 1200;
                   ar_created := true |};
  ad_evidence := sample_evidence;
  ad_transferred_bytes := 42
|}.

(** A URL splitter and a case fold for inputs that are already split and folded. *)
Definition sample_split (s : pystr) : SplitUrl :=
  {| url_scheme := py "https"; url_hostname := Some (py "prices.example"); url_port := None;
     url_path := []; url_fragment := []; url_query := [(py "sig", s)] |}.
Definition sample_fold (s : pystr) : pystr := s.

Definition no_lock (d : Db) : Session_state := {| db := d; lock_stack := []; held := ∅ |}.

(** A database in which [sample_remote] is discovered, downloading, then archived. *)
Definition serve_db {A} (m : M Session_state A) (d : Db) : Db := db (m (no_lock d)).2.
Definition db_discovered : Db :=
  serve_db (db_register_discovery sample_split sample_fold sample_remote false) empty_db.
Definition db_downloading : Db :=
  serve_db (db_transition 1 [DISCOVERED; FAILED_RETRYABLE] DOWNLOADING None) db_discovered.
Definition db_archived : Db :=
  serve_db (db_record_archive 1 sample_archived (py "v1")) db_downloading.
Definition db_failed : Db :=
  serve_db (db_transition 1 [ARCHIVED] FAILED_RETRYABLE (Some "repository_error"%string))
    db_archived.

(** ... and driven through the rest of its lifecycle. *)
Definition db_applying : Db :=
  serve_db (db_transition 1 [VALIDATING] APPLYING None)
    (serve_db (db_transition 1 [STAGED] VALIDATING None)
      (serve_db (db_transition 1 [PARSING] STAGED None)
        (serve_db (db_transition 1 [ARCHIVED] PARSING None) db_archived))).
Definition db_completed : Db :=
  serve_db (db_transition 1 [APPLYING] COMPLETED None) db_applying.
Definition db_given_up : Db :=
  serve_db (db_transition 1 [DISCOVERED] FAILED_TERMINAL None) db_discovered.

Example samples_run :
  (fun d => src_status <$> sources d !! 1) <$> [db_discovered; db_downloading; db_archived;
    db_failed; db_completed] =
  [Some DISCOVERED; Some DOWNLOADING; Some ARCHIVED; Some FAILED_RETRYABLE; Some COMPLETED].
Proof. vm_compute. reflexivity. Qed.

Definition owner_of (sid : uuid) (d : Db) : Session_state :=
  {| db := d; lock_stack := [source_file_resource sid]; held := ∅ |}.

(** ** The sample databases are reachable *)

Lemma reachable_serve q d d' :
  reachable sample_split sample_fold d ->
  db (serve sample_split sample_fold q (no_lock d)).2 = d' ->
  reachable sample_split sample_fold d'.
Proof.
  intros Hd <-. eapply rtc_r; [exact Hd|].
  destruct (serve sample_split sample_fold q (no_lock d)) as [r s'] eqn:E. simpl.
  by eapply (step_request _ _ q [] ∅).
Qed.

Lemma reachable_discovered : reachable sample_split sample_fold db_discovered.
Proof.
  apply (reachable_serve (ReqRegister sample_remote false) empty_db); [constructor|].
  exact (f_equal db (run_drop _ _)).
Qed.
Lemma reachable_downloading : reachable sample_split sample_fold db_downloading.
Proof.
  apply (reachable_serve (ReqTransition 1 [DISCOVERED; FAILED_RETRYABLE] DOWNLOADING None)
    db_discovered); [apply reachable_discovered|reflexivity].
Qed.
Lemma reachable_archived : reachable sample_split sample_fold db_archived.
Proof.
  apply (reachable_serve (ReqRecordArchive 1 sample_archived (py "v1")) db_downloading);
    [apply reachable_downloading|]. exact (f_equal db (run_drop _ _)).
Qed.
Lemma reachable_failed : reachable sample_split sample_fold db_failed.
Proof.
  apply (reachable_serve (ReqTransition 1 [ARCHIVED] FAILED_RETRYABLE
    (Some "repository_error"%string)) db_archived); [apply reachable_archived|reflexivity].
Qed.

Definition row_of (d : Db) (sid : uuid) : SourceRow :=
  default (discovered_row sample_remote 0) (sources d !! sid).

Lemma reachable_completed : reachable sample_split sample_fold db_completed.
Proof.
  apply (reachable_serve (ReqTransition 1 [APPLYING] COMPLETED None) db_applying); [|reflexivity].
  eapply (reachable_serve (ReqTransition 1 [VALIDATING] APPLYING None)); [|reflexivity].
  eapply (reachable_serve (ReqTransition 1 [STAGED] VALIDATING None)); [|reflexivity].
  eapply (reachable_serve (ReqTransition 1 [PARSING] STAGED None)); [|reflexivity].
  eapply (reachable_serve (ReqTransition 1 [ARCHIVED] PARSING None) db_archived);
    [apply reachable_archived|reflexivity].
Qed.
