(* ===== verification/SourceFilesSpec.v ===== *)
(** The properties of the durable lifecycle, and the concrete runs that witness them. *)
From S2P Require Import Prelude Errors Effects Enums PyNumbers Models AppModels Ports Database SourceFiles SourceFilesFacts Operations Samples.

(** ** The audit trail *)

(** C1: in every reachable database, the events of a source file are its creation in
    [DISCOVERED] followed by a chain of allowed lifecycle transitions, each starting
    where the previous one ended, and the chain ends in the status the file has. *)
Theorem lifecycle_audit split_url casefold d sid row :
  reachable split_url casefold d -> sources d !! sid = Some row ->
  exists created rest, events_of sid d = created :: rest /\
    ev_from created = None /\ ev_to created = DISCOVERED /\
    event_path DISCOVERED rest (src_status row) /\
    lifecycle_path DISCOVERED (map ev_to rest) (src_status row).
Proof.
  intros Hd Hrow. apply reachable_wf in Hd.
  destruct (h_events _ _ _ (wf_history _ Hd _ _ Hrow)) as (e & l & ? & ? & ? & ?).
  exists e, l. split_and!; auto using event_path_lifecycle.
Qed.

Lemma lifecycle_audit_witness :
  exists created rest, events_of 1 db_archived = created :: rest /\
    ev_from created = None /\ ev_to created = DISCOVERED /\
    event_path DISCOVERED rest (src_status (row_of db_archived 1)) /\
    lifecycle_path DISCOVERED (map ev_to rest) (src_status (row_of db_archived 1)).
Proof.
  apply (lifecycle_audit sample_split sample_fold); [apply reachable_archived|].
  vm_compute. reflexivity.
Defined.

(** The attempts of a source file are numbered 1, 2, 3, ... without gaps, there is
    one more than there are resumptions in its event log, every attempt but the last
    ended in [FAILED_RETRYABLE], and the last one has the status of the file. *)
Theorem attempts_numbered split_url casefold d sid row :
  reachable split_url casefold d -> sources d !! sid = Some row ->
  map run_attempt (runs_of sid d) = seqZ 1 (py_len (runs_of sid d)) /\
  py_len (runs_of sid d) = 1 + resumes (events_of sid d) /\
  exists earlier current, runs_of sid d = earlier ++ [current] /\
    run_status current = src_status row /\
    Forall (fun r => run_status r = FAILED_RETRYABLE) earlier.
Proof.
  intros Hd Hrow. apply reachable_wf in Hd. pose proof (wf_history _ Hd _ _ Hrow) as Hh.
  split_and!; apply Hh.
Qed.

Lemma attempts_numbered_witness :
  map run_attempt (runs_of 1 db_failed) = seqZ 1 (py_len (runs_of 1 db_failed)) /\
  py_len (runs_of 1 db_failed) = 1 + resumes (events_of 1 db_failed) /\
  exists earlier current, runs_of 1 db_failed = earlier ++ [current] /\
    run_status current = src_status (row_of db_failed 1) /\
    Forall (fun r => run_status r = FAILED_RETRYABLE) earlier.
Proof.
  apply (attempts_numbered sample_split sample_fold); [apply reachable_failed|].
  vm_compute. reflexivity.
Defined.

(** ** One operation *)

(** C2: [transition] is a compare-and-set on the lifecycle.  It refuses with exactly the
    error of its first failing guard and then changes nothing; otherwise it sets the
    status, error code and time of this one file, appends exactly one event that leads
    to the target, and touches no other file, archive or replay. *)
Theorem transition_functional split_url casefold sid expected target code s :
  reachable split_url casefold (db s) ->
  match transition_verdict sid expected target code s with
  | Some e => db_transition sid expected target code s = (Raised e, s)
  | None => exists row d', sources (db s) !! sid = Some row /\
      db_transition sid expected target code s = (Returned tt, with_db d' s) /\
      stepped sid (with_status target code (clock (db s)) row) (db s) d'
  end.
Proof.
  intros Hd%reachable_wf.
  pose proof (db_transition_spec sid expected target code s Hd) as Hwp.
  unfold wp in Hwp. destruct (db_transition _ _ _ _ s) as [[[]|e] s'].
  - destruct Hwp as (-> & row & d' & ? & -> & ? & _). eauto.
  - by destruct Hwp as [-> ->].
Qed.

Lemma transition_functional_witness :
  let s := no_lock db_discovered in
  exists row d', sources (db s) !! 1 = Some row /\
    db_transition 1 [DISCOVERED; FAILED_RETRYABLE] DOWNLOADING None s =
      (Returned tt, with_db d' s) /\
    stepped 1 (with_status DOWNLOADING None (clock (db s)) row) (db s) d'.
Proof.
  intros s.
  pose proof (transition_functional sample_split sample_fold 1 [DISCOVERED; FAILED_RETRYABLE]
    DOWNLOADING None s reachable_discovered) as H.
  assert (Hv : transition_verdict 1 [DISCOVERED; FAILED_RETRYABLE] DOWNLOADING None s = None)
    by (vm_compute; reflexivity).
  rewrite Hv in H. exact H.
Defined.

(** A request that raises leaves every table as it was: discovery, lifecycle
    transitions, archive recording and replay bookkeeping are atomic. *)
Theorem request_atomic split_url casefold q s e s' :
  reachable split_url casefold (db s) -> serve split_url casefold q s = (Raised e, s') ->
  db s' = db s.
Proof.
  intros Hd%reachable_wf Hq. exact (wp_raised _ _ _ _ _ _ (serve_spec _ _ q s Hd) Hq).
Qed.

Lemma request_atomic_witness :
  let s := no_lock db_discovered in
  db (serve sample_split sample_fold (ReqTransition 1 [ARCHIVED] PARSING None) s).2 = db s.
Proof.
  intros s.
  apply (request_atomic sample_split sample_fold (ReqTransition 1 [ARCHIVED] PARSING None)
    s conflict); [apply reachable_discovered|]. apply run_eq. vm_compute. reflexivity.
Defined.

(** C3: a terminal status is final.  Whatever requests follow, in any order and from any
    session, the file keeps its identity, its status and its archived content, a
    completed row is never written again, and no archive object is changed or removed. *)
Theorem terminal_absorbing split_url casefold d d' sid row :
  reachable split_url casefold d -> rtc (system_step split_url casefold) d d' ->
  sources d !! sid = Some row -> terminal (src_status row) = true ->
  archives d ⊆ archives d' /\
  exists row', sources d' !! sid = Some row' /\ identity row' = identity row /\
    src_status row' = src_status row /\ src_archive row' = src_archive row /\
    (src_status row = COMPLETED -> row' = row).
Proof.
  intros Hd%reachable_wf Hsteps Hrow Ht.
  destruct (system_steps_evolve _ _ _ _ Hd Hsteps) as [Ha Hev]. split; [done|].
  destruct (Hev _ _ Hrow) as (row' & ? & ? & Hterm & ?). exists row'.
  destruct (Hterm Ht). done.
Qed.

Lemma terminal_absorbing_witness :
  archives db_given_up ⊆ archives db_given_up /\
  exists row', sources db_given_up !! 1 = Some row' /\
    identity row' = identity (row_of db_given_up 1) /\
    src_status row' = src_status (row_of db_given_up 1) /\
    src_archive row' = src_archive (row_of db_given_up 1) /\
    (src_status (row_of db_given_up 1) = COMPLETED -> row' = row_of db_given_up 1).
Proof.
  apply (terminal_absorbing sample_split sample_fold db_given_up db_given_up).
  - apply (reachable_serve (ReqTransition 1 [DISCOVERED] FAILED_TERMINAL None) db_discovered);
      [apply reachable_discovered|vm_compute; reflexivity].
  - constructor.
  - vm_compute. reflexivity.
  - vm_compute. reflexivity.
Defined.

(** Rediscovering a known file never rewrites what is known about it: identity,
    filename, document type, compression and protocol are fixed, evidence that was
    recorded is kept, the URL may only rotate its signature, and nothing at all changes
    without the per-file lock, once an archive is attached, or once completed.  No run,
    event or other file is touched. *)
Theorem rediscovery_immutable split_url casefold rf owned s reg s' row :
  reachable split_url casefold (db s) ->
  db_register_discovery split_url casefold rf owned s = (Returned reg, s') ->
  sources (db s) !! reg_source_file_id reg = Some row ->
  exists row', identity row = remote_identity rf /\
    sources (db s') = <[ reg_source_file_id reg := row' ]> (sources (db s)) /\
    remote_refreshed split_url casefold (src_remote row) (src_remote row') /\
    src_status row' = src_status row /\ src_archive row' = src_archive row /\
    (owned = false \/ attached row = true \/ src_status row = COMPLETED -> row' = row) /\
    runs (db s') = runs (db s) /\ events (db s') = events (db s).
Proof.
  intros Hd%reachable_wf Hreg Hrow.
  assert (Hwp : wp (db_register_discovery split_url casefold rf owned)
    (fun reg s' => forall row, sources (db s) !! reg_source_file_id reg = Some row ->
       exists row', rediscovered split_url casefold rf owned (reg_source_file_id reg) row row'
         (db s) (db s')) (fun _ _ => True) s).
  { unfold db_register_discovery. do 2 wp_step. apply wp_in_transaction; [done|]. intros _.
    eapply wp_mono; [by apply register_body_spec| |done]; cbv beta.
    intros reg' d' (sid & row' & <- & _ & _ & _ & _ & Hcase) row0 Hrow0.
    destruct (reg_already_registered reg').
    - destruct Hcase as [r Hr]. assert (r = row0) as -> by (destruct Hr; congruence). eauto.
    - destruct Hcase as (_ & Hnew & _). rewrite Hnew, next_id_unknown in Hrow0; done. }
  destruct (wp_returned _ _ _ _ _ _ Hwp Hreg _ Hrow) as (row' & _ & Hid & Ht & Hrf & Hfr).
  destruct Ht as [Hs (? & ? & _) _ (? & ? & _)]. exists row'. by split_and!.
Qed.

Lemma rediscovery_immutable_witness :
  let s := owner_of 1 db_discovered in
  let s' := (db_register_discovery sample_split sample_fold sample_relisted true s).2 in
  exists row', identity (row_of (db s) 1) = remote_identity sample_relisted /\
    sources (db s') = <[ 1 := row' ]> (sources (db s)) /\
    remote_refreshed sample_split sample_fold (src_remote (row_of (db s) 1)) (src_remote row') /\
    src_status row' = src_status (row_of (db s) 1) /\
    src_archive row' = src_archive (row_of (db s) 1) /\
    (true = false \/ attached (row_of (db s) 1) = true \/
     src_status (row_of (db s) 1) = COMPLETED -> row' = row_of (db s) 1) /\
    runs (db s') = runs (db s) /\ events (db s') = events (db s).
Proof.
  intros s s'.
  destruct (db_register_discovery sample_split sample_fold sample_relisted true s)
    as [[reg|e] s1] eqn:E; [|vm_compute in E; discriminate].
  assert (Hid : reg_source_file_id reg = 1) by (vm_compute in E; by injection E as <- _).
  assert (Hrow : sources (db s) !! reg_source_file_id reg = Some (row_of (db s) 1))
    by (rewrite Hid; vm_compute; reflexivity).
  pose proof (rediscovery_immutable sample_split sample_fold sample_relisted true s reg s1
    (row_of (db s) 1) reachable_discovered E Hrow) as Hmain.
  rewrite Hid in Hmain. exact Hmain.
Defined.

(** Recording an archive moves exactly the downloading file to [ARCHIVED] with the
    receipt's digest; afterwards the object of that digest has the receipt's key and length,
    which is also the length the download evidence states, and is the only one added, if it
    was not there (deduplication by digest), which is what the answer says. *)
Theorem record_archive_attaches split_url casefold sid a version s reused s' :
  reachable split_url casefold (db s) ->
  db_record_archive sid a version s = (Returned reused, s') ->
  exists row arc, sources (db s) !! sid = Some row /\ src_status row = DOWNLOADING /\
    sources (db s') = <[ sid := with_archive a version (clock (db s)) row ]> (sources (db s)) /\
    archives (db s') !! ar_content_sha256 (ad_archive a) = Some arc /\
    arc_object_key arc = ar_object_key (ad_archive a) /\
    arc_content_length arc = ar_content_length (ad_archive a) /\
    de_content_length (ad_evidence a) = arc_content_length arc /\
    archives (db s') = with_object (ad_archive a) (archives (db s)) /\
    (reused = false <-> ar_created (ad_archive a) = true /\
       archives (db s) !! ar_content_sha256 (ad_archive a) = None).
Proof.
  intros Hd%reachable_wf Hrun.
  assert (Hwp : wp (db_record_archive sid a version)
    (fun reused s' => de_content_length (ad_evidence a) = ar_content_length (ad_archive a) /\
       exists row, sources (db s) !! sid = Some row /\ src_status row = DOWNLOADING /\
       stepped sid (with_archive a version (clock (db s)) row) (db s) (db s') /\
       db_wf (db s') /\ archives (db s') = with_object (ad_archive a) (archives (db s)) /\
       (exists arc, archives (db s') !! ar_content_sha256 (ad_archive a) = Some arc /\
          arc_object_key arc = ar_object_key (ad_archive a)) /\
       reused = negb (ar_created (ad_archive a)) ||
                bool_decide (is_Some (archives (db s) !! ar_content_sha256 (ad_archive a))))
    (fun _ _ => True) s).
  { unfold db_record_archive. do 6 (wp_step; wp_step; [done|]).
    apply wp_in_transaction; [done|]. intros _. reflect_bools.
    eapply wp_mono; [by apply record_archive_body_spec| |done]; cbv beta.
    intros re d' Hre. by split. }
  destruct (wp_returned _ _ _ _ _ _ Hwp Hrun)
    as (Hlen & row & Hrow & Hdl & Hst & Hwf' & Hobj & (arc & Harc & Hkey) & ->).
  assert (Hrow' : sources (db s') !! sid = Some (with_archive a version (clock (db s)) row)).
  { by rewrite (st_sources _ _ _ _ Hst), lookup_insert_eq. }
  pose proof (wf_archive _ Hwf' _ _ Hrow') as Hok. unfold archive_ok in Hok. simpl in Hok.
  destruct Hok as (arc' & e & Harc' & [= <-] & Hl).
  assert (arc' = arc) as -> by congruence. exists row, arc.
  split_and!; try done; [apply Hst|congruence|].
  rewrite orb_false_iff, negb_false_iff, bool_decide_eq_false, <- eq_None_not_Some. done.
Qed.

Lemma record_archive_attaches_witness :
  let s := no_lock db_downloading in
  let s' := (db_record_archive 1 sample_archived (py "v1") s).2 in
  let digest := ar_content_sha256 (ad_archive sample_archived) in
  exists row arc, sources (db s) !! 1 = Some row /\ src_status row = DOWNLOADING /\
    sources (db s') =
      <[ 1 := with_archive sample_archived (py "v1") (clock (db s)) row ]> (sources (db s)) /\
    archives (db s') !! digest = Some arc /\
    arc_object_key arc = ar_object_key (ad_archive sample_archived) /\
    arc_content_length arc = ar_content_length (ad_archive sample_archived) /\
    de_content_length (ad_evidence sample_archived) = arc_content_length arc /\
    archives (db s') = with_object (ad_archive sample_archived) (archives (db s)) /\
    (false = false <-> ar_created (ad_archive sample_archived) = true /\
       archives (db s) !! digest = None).
Proof.
  intros s s' digest.
  apply (record_archive_attaches sample_split sample_fold 1 sample_archived (py "v1")
    s false s'); [apply reachable_downloading|].
  apply (run_eq (db_record_archive 1 sample_archived (py "v1")) s (Returned false)). vm_compute. reflexivity.
Defined.

(** Beginning a replay closes whatever replay an interrupted owner left open, so the
    new run is the only open one of its file; it is only begun for an archived file, and
    it does not touch the lifecycle. *)
Theorem begin_replay_takes_over split_url casefold sid version rebuild s rid s' :
  reachable split_url casefold (db s) ->
  db_begin_replay sid version rebuild s = (Returned rid, s') ->
  map rp_id (open_replays sid (db s')) = [rid] /\
  (exists row, sources (db s) !! sid = Some row /\ src_archive row <> None) /\
  sources (db s') = sources (db s) /\ events (db s') = events (db s).
Proof.
  intros Hd%reachable_wf Hrun.
  assert (Hwp : wp (db_begin_replay sid version rebuild)
    (fun rid s' => map rp_id (open_replays sid (db s')) = [rid] /\
      (exists row, sources (db s) !! sid = Some row /\ src_archive row <> None) /\
      sources (db s') = sources (db s) /\ events (db s') = events (db s))
    (fun _ _ => True) s).
  { unfold db_begin_replay. wp_step. wp_step; [done|]. apply wp_in_transaction; [done|].
    intros _. eapply wp_mono; [by apply begin_replay_body_spec| |done]; cbv beta.
    by intros k d' (_ & _ & ? & _ & ? & _ & ? & ?). }
  exact (wp_returned _ _ _ _ _ _ Hwp Hrun).
Qed.

Definition db_replaying : Db := serve_db (db_begin_replay 1 (py "v2") None) db_archived.

Lemma reachable_replaying : reachable sample_split sample_fold db_replaying.
Proof.
  apply (reachable_serve (ReqBeginReplay 1 (py "v2") None) db_archived);
    [apply reachable_archived|]. exact (f_equal db (run_drop _ _)).
Qed.

Lemma begin_replay_takes_over_witness :
  let s := no_lock db_replaying in let s' := (db_begin_replay 1 (py "v3") None s).2 in
  map rp_id (open_replays 1 (db s')) = [4] /\
  (exists row, sources (db s) !! 1 = Some row /\ src_archive row <> None) /\
  sources (db s') = sources (db s) /\ events (db s') = events (db s).
Proof.
  intros s s'.
  apply (begin_replay_takes_over sample_split sample_fold 1 (py "v3") None s 4 s');
    [apply reachable_replaying|].
  apply (run_eq (db_begin_replay 1 (py "v3") None) s (Returned 4)). vm_compute. reflexivity.
Defined.

(** C4: recovering stale jobs always finishes, moves exactly the selected abandoned
    files whose lock nobody holds to [FAILED_RETRYABLE], counts them, leaves every
    other file alone (files being worked on and finished ones included), and gives back
    every lock it took. *)
Theorem recover_stale_jobs_sound split_url casefold hash stale s :
  reachable split_url casefold (db s) -> 0 < stale <= SEVEN_DAYS ->
  exists s', recover_stale_jobs hash stale s =
      (Returned (recovered_count hash s (stale_rows stale (db s))), s') /\
    held s' = held s /\ lock_stack s' = lock_stack s /\
    forall sid, sources (db s') !! sid =
      if bool_decide (sid ∈ map fst (stale_rows stale (db s))) && free hash s sid
      then recovered_row (clock (db s)) <$> sources (db s) !! sid
      else sources (db s) !! sid.
Proof.
  intros Hd%reachable_wf Hst. pose proof (recover_stale_jobs_spec hash stale s Hd Hst) as H.
  unfold wp in H. destruct (recover_stale_jobs hash stale s) as [[k|e] s']; [|done].
  destruct H as (-> & ? & ? & ?). exists s'. by split_and!.
Qed.

(** [db_archived] an hour later. *)
Definition later (d : Db) : Db :=
  {| portals := portals d; sources := sources d; runs := runs d; events := events d;
     archives := archives d; replays := replays d; active_rebuild := active_rebuild d;
     rebuild_runs := rebuild_runs d; clock := clock d + 3600 * 1000000;
     next_id := next_id d |}.

Lemma recover_stale_jobs_sound_witness :
  let s := no_lock (later db_archived) in
  exists s', recover_stale_jobs zsum 1000000 s = (Returned 1, s') /\
    held s' = held s /\ lock_stack s' = lock_stack s /\
    forall sid, sources (db s') !! sid =
      if bool_decide (sid ∈ map fst (stale_rows 1000000 (db s))) && free zsum s sid
      then recovered_row (clock (db s)) <$> sources (db s) !! sid
      else sources (db s) !! sid.
Proof.
  intros s.
  assert (Hn : recovered_count zsum s (stale_rows 1000000 (db s)) = 1)
    by (vm_compute; reflexivity).
  rewrite <- Hn. apply (recover_stale_jobs_sound sample_split sample_fold).
  - eapply rtc_r; [apply reachable_archived|]. by apply step_other.
  - by vm_compute.
Defined.

(** A failed file that fails for good while it is resumed gets a run that never
    ends: the new attempt is stored as [FAILED_TERMINAL] with neither the error code nor
    a finishing time, although the file itself carries the code. *)
Theorem resume_terminal_unstamped split_url casefold sid code s row :
  reachable split_url casefold (db s) -> sources (db s) !! sid = Some row ->
  src_status row = FAILED_RETRYABLE -> lock_permits (Some sid) false s = true ->
  code_too_long (Some code) = false ->
  exists s' r, db_transition sid [FAILED_RETRYABLE] FAILED_TERMINAL (Some code) s =
      (Returned tt, s') /\
    (src_error_code <$> sources (db s') !! sid) = Some (Some code) /\
    current_run sid (db s') = Some r /\ run_status r = FAILED_TERMINAL /\
    run_error_code r = None /\ run_finished_at r = None.
Proof.
  intros Hd%reachable_wf Hrow Hst Hlock Hcode.
  enough (Hwp : wp (db_transition sid [FAILED_RETRYABLE] FAILED_TERMINAL (Some code))
    (fun _ s' => exists r, (src_error_code <$> sources (db s') !! sid) = Some (Some code) /\
       current_run sid (db s') = Some r /\ run_status r = FAILED_TERMINAL /\
       run_error_code r = None /\ run_finished_at r = None) (fun _ _ => False) s).
  { unfold wp in Hwp. destruct (db_transition _ _ _ _ s) as [[[]|e] s']; [|done].
    destruct Hwp as [r ?]. by exists s', r. }
  unfold db_transition. wp_step. wp_step; [done|]. wp_step. wp_step; [congruence|].
  apply wp_in_transaction; [congruence|]. intros _.
  destruct (wf_current _ _ _ Hd Hrow) as (front & r & Hruns & Hcur & _).
  pose proof (h_attempts _ _ _ (wf_history _ Hd _ _ Hrow)) as Hatt.
  unfold transition_body, source_row, ensure_ingestion_transition, current_run_id, fresh_id.
  do 3 wp_step. rewrite Hrow. wp_step. rewrite Hst. do 2 wp_step; [done|].
  do 2 wp_step; [done|]. do 3 wp_step. rewrite Hcur. wp_step.
  rewrite bool_decide_eq_true_2 by done. repeat wp_step. simpl.
  rewrite lookup_alter_eq, Hrow. simpl.
  exists {| run_id := next_id (db s); run_source := sid;
            run_attempt := default 0 (max_attempt (runs_of sid (db s))) + 1;
            run_status := FAILED_TERMINAL; run_finished_at := None; run_error_code := None |}.
  split_and!; try done.
  assert (Hmax : default 0 (max_attempt (runs_of sid (db s))) = py_len (runs_of sid (db s))).
  { rewrite (max_attempt_seq _ _ Hatt) by done. by rewrite Hruns; destruct front. }
  rewrite Hmax. set (d' := insert_event _ _).
  assert (Hd' : runs_of sid d' = runs_of sid (db s) ++ [{| run_id := next_id (db s);
    run_source := sid; run_attempt := py_len (runs_of sid (db s)) + 1;
    run_status := FAILED_TERMINAL; run_finished_at := None; run_error_code := None |}]).
  { unfold runs_of at 1. simpl. rewrite filter_app, filter_cons, filter_nil. simpl.
    by rewrite decide_True. }
  eapply current_run_last; [exact Hd'|].
  rewrite Hd', map_app, py_len_app, Hatt. simpl. change (py_len [_]) with 1.
  rewrite seqZ_snoc by auto with makolet. do 2 f_equal. lia.
Qed.

Lemma resume_terminal_unstamped_witness :
  exists s' r, db_transition 1 [FAILED_RETRYABLE] FAILED_TERMINAL
      (Some "archive_integrity_error"%string) (no_lock db_failed) = (Returned tt, s') /\
    (src_error_code <$> sources (db s') !! 1) = Some (Some "archive_integrity_error"%string) /\
    current_run 1 (db s') = Some r /\ run_status r = FAILED_TERMINAL /\
    run_error_code r = None /\ run_finished_at r = None.
Proof.
  apply (resume_terminal_unstamped sample_split sample_fold 1 _ (no_lock db_failed)
    (row_of db_failed 1)); [apply reachable_failed|vm_compute; reflexivity..].
Defined.
