(* ===== verification/Staging.v ===== *)
(** Bounded staging of parsed events: the batch accounting of
    [src/src/makolet/application/ingestion.py] and the streaming loop of
    [_parse_validate_apply]. *)
From S2P Require Import Prelude Errors Effects Enums PyNumbers Models AppModels Ports.

(** ** The policy *)

Record IngestionPolicy := {
  stage_batch_size : Z;
  maximum_stage_batch_bytes : Z;
  lease_ttl : Z;
  download_attempts : Z;
  minimum_full_records : option Z;
  minimum_full_store_records : Z;
  minimum_full_price_records : Z;
  minimum_full_promotion_records : Z;
  maximum_full_snapshot_drop_fraction : float64;
  maximum_record_rejection_fraction : float64;
  maximum_validation_issues : Z;
  maximum_validation_issue_bytes : Z
}.

(** [IngestionPolicy()]; the time-to-live is in microseconds. *)
Definition default_policy : IngestionPolicy := {|
  stage_batch_size := 5000;
  maximum_stage_batch_bytes := 64 * 1024 * 1024;
  lease_ttl := 30 * 60 * 1000000;
  download_attempts := 4;
  minimum_full_records := None;
  minimum_full_store_records := 1;
  minimum_full_price_records := 100;
  minimum_full_promotion_records := 1;
  maximum_full_snapshot_drop_fraction := float_0_50;
  maximum_record_rejection_fraction := float_0_10;
  maximum_validation_issues := 100000;
  maximum_validation_issue_bytes := 64 * 1024 * 1024
|}.

(** [IngestionPolicy.__post_init__]: every refusal is a [ValueError]. *)
Definition IngestionPolicy_post_init {W} (p : IngestionPolicy) : M W unit :=
  raise_if ((stage_batch_size p <=? 0) || (maximum_stage_batch_bytes p <=? 0)
            || (download_attempts p <=? 0) || (maximum_validation_issues p <=? 0)
            || (maximum_validation_issue_bytes p <=? 0)) (PyExn ValueError);;
  raise_if (lease_ttl p <=? 0) (PyExn ValueError);;
  raise_if (match minimum_full_records p with Some m => m <? 0 | None => false end)
    (PyExn ValueError);;
  raise_if (py_any (fun m => m <? 0)
              [minimum_full_store_records p; minimum_full_price_records p;
               minimum_full_promotion_records p]) (PyExn ValueError);;
  raise_if (negb (is_fraction (maximum_full_snapshot_drop_fraction p))) (PyExn ValueError);;
  raise_if (negb (is_fraction (maximum_record_rejection_fraction p))) (PyExn ValueError).

Definition policy_ok (p : IngestionPolicy) : Prop :=
  IngestionPolicy_post_init p tt = (Returned tt, tt).

Definition minimum_full_records_for (p : IngestionPolicy) (d : DocumentType) : Z :=
  match minimum_full_records p with
  | Some m => m
  | None =>
      if bool_decide (d = STORES) then minimum_full_store_records p
      else if is_price d then minimum_full_price_records p
      else minimum_full_promotion_records p
  end.

(** ** Retained-memory charges *)

Definition STAGE_CONTAINER_OVERHEAD_BYTES : Z := 256.
Definition STAGE_SCALAR_OVERHEAD_BYTES : Z := 128.
Definition STAGE_PERSISTENCE_ROW_OVERHEAD_BYTES : Z := 512.

(** The values [_retained_value_charge] tells apart.  A [StrEnum] member is a [str]
    and a [bool] is an [int]. *)
Inductive pyvalue :=
  | PyStr (s : pystr)
  | PyTuple (l : list pyvalue)
  | PyDecimal (d : decimal)
  | PyInt (z : Z)
  | PyDataclass (fields : list pyvalue)
  | PyOther.

(** [int.bit_length]. *)
Definition bit_length (z : Z) : Z := if z =? 0 then 0 else Z.log2 (Z.abs z) + 1.

Fixpoint retained_value_charge (v : pyvalue) : Z :=
  match v with
  | PyStr s => STAGE_SCALAR_OVERHEAD_BYTES + 4 * py_len s
  | PyTuple l => STAGE_CONTAINER_OVERHEAD_BYTES + zsum (map retained_value_charge l)
  | PyDecimal d => STAGE_SCALAR_OVERHEAD_BYTES + 4 * dec_digits d
  | PyInt z => STAGE_SCALAR_OVERHEAD_BYTES + (bit_length z + 7) / 8
  | PyDataclass l => STAGE_CONTAINER_OVERHEAD_BYTES + zsum (map retained_value_charge l)
  | PyOther => STAGE_SCALAR_OVERHEAD_BYTES
  end.

(** [getattr(value, field.name)] over [fields(value)], per record class. *)
Definition v_opt {A} (f : A -> pyvalue) (o : option A) : pyvalue :=
  match o with Some a => f a | None => PyOther end.
Definition v_enum (s : string) : pyvalue := PyStr (py s).
Definition v_bool (b : bool) : pyvalue := PyInt (if b then 1 else 0).

Definition metadata_value (r : DocumentMetadata) : pyvalue :=
  PyDataclass [PyOther; v_enum (document_type_value (dm_document_type r));
    v_opt PyStr (dm_chain_id r); v_opt PyStr (dm_subchain_id r);
    v_opt PyStr (dm_store_id r); v_opt PyStr (dm_audit_number r); PyOther].

Definition store_value (r : StoreRecord) : pyvalue :=
  PyDataclass [PyOther; PyInt (sr_record_index r); PyStr (sr_chain_id r);
    PyStr (sr_subchain_id r); PyStr (sr_store_id r); v_opt PyStr (sr_audit_number r);
    v_opt PyStr (sr_store_type r); v_opt PyStr (sr_chain_name r);
    v_opt PyStr (sr_subchain_name r); PyStr (sr_store_name r);
    v_opt PyStr (sr_address r); v_opt PyStr (sr_city r); v_opt PyStr (sr_postal_code r)].

Definition price_value (r : PriceRecord) : pyvalue :=
  PyDataclass [PyOther; PyInt (pr_record_index r); PyStr (pr_chain_id r);
    PyStr (pr_subchain_id r); PyStr (pr_store_id r); PyStr (pr_item_code r);
    v_opt PyInt (pr_item_type r); PyStr (pr_item_name r);
    v_opt PyStr (pr_manufacturer_name r); v_opt PyStr (pr_manufacturer_country r);
    v_opt PyStr (pr_manufacturer_description r); v_opt PyStr (pr_unit_quantity r);
    v_opt PyDecimal (pr_quantity r); v_opt PyStr (pr_unit_of_measure r);
    v_opt v_bool (pr_is_weighted r); v_opt PyDecimal (pr_quantity_in_package r);
    PyDecimal (pr_item_price r); v_opt PyDecimal (pr_unit_of_measure_price r);
    v_opt v_bool (pr_allow_discount r); v_opt PyInt (pr_item_status r); PyOther; PyOther;
    v_opt PyStr (pr_audit_number r)].

Definition promotion_item_value (r : PromotionItem) : pyvalue :=
  PyDataclass [PyStr (pi_item_code r); v_opt PyInt (pi_item_type r); v_bool (pi_is_gift r)].

Definition promotion_value (r : PromotionRecord) : pyvalue :=
  PyDataclass [PyOther; PyInt (pm_record_index r); PyStr (pm_chain_id r);
    PyStr (pm_subchain_id r); v_opt PyStr (pm_source_store_id r);
    PyStr (pm_promotion_id r); v_opt PyStr (pm_description r);
    v_enum (discount_kind_value (pm_discount_kind r)); PyOther; PyOther;
    PyTuple (map promotion_item_value (pm_items r)); PyTuple (map PyStr (pm_store_ids r));
    PyTuple (map PyStr (pm_club_ids r)); v_opt PyInt (pm_reward_type r);
    v_opt v_bool (pm_allows_multiple_discounts r); v_opt PyDecimal (pm_minimum_quantity r);
    v_opt PyDecimal (pm_maximum_quantity r); v_opt PyDecimal (pm_discount_rate r);
    v_opt PyDecimal (pm_minimum_purchase r); v_opt PyDecimal (pm_discounted_price r);
    v_opt PyDecimal (pm_discounted_unit_price r); v_opt PyInt (pm_minimum_items_offered r);
    v_opt PyStr (pm_additional_restrictions r); v_opt PyStr (pm_remarks r);
    v_opt v_bool (pm_is_active r)].

Definition issue_value (r : ValidationIssue) : pyvalue :=
  PyDataclass [PyOther; v_enum (severity_value (vi_severity r)); PyStr (vi_code r);
    PyStr (vi_message r); v_opt PyInt (vi_record_index r); v_opt PyStr (vi_field_name r);
    v_opt PyStr (vi_rejected_value r)].

Definition event_value (event : ParsedEvent) : pyvalue :=
  match event with
  | EvMetadata r => metadata_value r
  | EvStore r => store_value r
  | EvPrice r => price_value r
  | EvPromotion r => promotion_value r
  | EvIssue r => issue_value r
  end.

(** [_stage_units] and [_stage_memory_charge]. *)
Definition stage_units (event : ParsedEvent) : Z :=
  match event with
  | EvPromotion r =>
      1 + py_len (pm_items r) + py_len (effective_promotion_store_ids r) + py_len (pm_club_ids r)
  | _ => 1
  end.

Definition stage_memory_charge (event : ParsedEvent) (units : Z) : Z :=
  retained_value_charge (event_value event) + units * STAGE_PERSISTENCE_ROW_OVERHEAD_BYTES.

(** The charge the loop books for an event. *)
Definition event_bytes (event : ParsedEvent) : Z := stage_memory_charge event (stage_units event).

(** ** Summaries *)

Definition combine_stage (left right : StageSummary) : StageSummary := {|
  metadata_records := metadata_records left + metadata_records right;
  store_records := store_records left + store_records right;
  price_records := price_records left + price_records right;
  promotion_records := promotion_records left + promotion_records right;
  warnings := warnings left + warnings right;
  rejected_records := rejected_records left + rejected_records right;
  file_quarantines := file_quarantines left + file_quarantines right;
  validation_issue_bytes := validation_issue_bytes left + validation_issue_bytes right;
  sampled_validation_issues :=
    sampled_validation_issues left + sampled_validation_issues right
|}.

(** [stage_events]: the loop's counters are the summary's fields, and the issue count
    is filled in at the end. *)
Definition count_event (s : StageSummary) (event : ParsedEvent) : StageSummary :=
  let add m st p pm w r q b := {|
    metadata_records := metadata_records s + m;
    store_records := store_records s + st;
    price_records := price_records s + p;
    promotion_records := promotion_records s + pm;
    warnings := warnings s + w;
    rejected_records := rejected_records s + r;
    file_quarantines := file_quarantines s + q;
    validation_issue_bytes := validation_issue_bytes s + b;
    sampled_validation_issues := sampled_validation_issues s
  |} in
  match event with
  | EvMetadata _ => add 1 0 0 0 0 0 0 0
  | EvStore _ => add 0 1 0 0 0 0 0 0
  | EvPrice _ => add 0 0 1 0 0 0 0 0
  | EvPromotion _ => add 0 0 0 1 0 0 0 0
  | EvIssue i =>
      let b := validation_issue_charge i in
      match vi_severity i with
      | WARNING => add 0 0 0 0 1 0 0 b
      | RECORD_REJECTION => add 0 0 0 0 0 1 0 b
      | FILE_QUARANTINE => add 0 0 0 0 0 0 1 b
      | SOURCE_FAILURE | SYSTEM_FAILURE => add 0 0 0 0 0 0 0 b
      end
  end.

Definition stage_events (events : list ParsedEvent) : StageSummary :=
  let s := foldl count_event empty_stage events in {|
    metadata_records := metadata_records s;
    store_records := store_records s;
    price_records := price_records s;
    promotion_records := promotion_records s;
    warnings := warnings s;
    rejected_records := rejected_records s;
    file_quarantines := file_quarantines s;
    validation_issue_bytes := validation_issue_bytes s;
    sampled_validation_issues := warnings s + rejected_records s + file_quarantines s
  |}.

(** ** The streaming loop *)

Definition quarantined_error : exn := MakoletExn QuarantinedFileError 0.

(** [_ensure_validation_issue_attempt_within_limits]. *)
Definition ensure_validation_issue_attempt_within_limits {W} (count bytes : Z)
    (p : IngestionPolicy) : M W unit :=
  raise_if ((maximum_validation_issues p <? count)
            || (maximum_validation_issue_bytes p <? bytes)) quarantined_error.

(** [_ensure_stage_event_within_limits]. *)
Definition ensure_stage_event_within_limits {W} (units bytes : Z) (p : IngestionPolicy)
    : M W unit :=
  raise_if (stage_batch_size p <? units) quarantined_error;;
  raise_if (maximum_stage_batch_bytes p <? bytes) quarantined_error.

(** The local variables of [_parse_validate_apply] that the loop and its closure
    [flush_batch] share. *)
Record stage_locals := {
  l_summary : StageSummary;
  l_batch : list ParsedEvent;
  l_batch_units : Z;
  l_batch_bytes : Z;
  l_issue_count : Z;
  l_issue_bytes : Z
}.

Definition initial_locals : stage_locals :=
  {| l_summary := empty_stage; l_batch := []; l_batch_units := 0; l_batch_bytes := 0;
     l_issue_count := 0; l_issue_bytes := 0 |}.

Section loop.
Context {W : Type} `{IngestionRepository W}.
Variable policy : IngestionPolicy.
Variable source_file_id : uuid.

(** [flush_batch]. *)
Definition flush_batch (l : stage_locals) : M W stage_locals :=
  staged ← stage source_file_id (l_batch l);
  mret {| l_summary := combine_stage (l_summary l) staged; l_batch := [];
          l_batch_units := 0; l_batch_bytes := 0; l_issue_count := l_issue_count l;
          l_issue_bytes := l_issue_bytes l |}.

(** [if isinstance(event, ValidationIssue): ...]. *)
Definition count_issue (l : stage_locals) (event : ParsedEvent) : M W stage_locals :=
  match event with
  | EvIssue i =>
      let count := l_issue_count l + 1 in
      let bytes := l_issue_bytes l + validation_issue_charge i in
      ensure_validation_issue_attempt_within_limits count bytes policy;;
      mret {| l_summary := l_summary l; l_batch := l_batch l;
              l_batch_units := l_batch_units l; l_batch_bytes := l_batch_bytes l;
              l_issue_count := count; l_issue_bytes := bytes |}
  | _ => mret l
  end.

Definition batch_nonempty (l : stage_locals) : bool :=
  match l_batch l with [] => false | _ => true end.

Definition append_event (l : stage_locals) (event : ParsedEvent) (units bytes : Z)
    : stage_locals :=
  {| l_summary := l_summary l; l_batch := l_batch l ++ [event];
     l_batch_units := l_batch_units l + units; l_batch_bytes := l_batch_bytes l + bytes;
     l_issue_count := l_issue_count l; l_issue_bytes := l_issue_bytes l |}.

(** One turn of [async for event in self._parser.parse(...)]. *)
Definition stage_event (l : stage_locals) (event : ParsedEvent) : M W stage_locals :=
  l ← count_issue l event;
  let event_units := stage_units event in
  let event_bytes := stage_memory_charge event event_units in
  ensure_stage_event_within_limits event_units event_bytes policy;;
  l ← (if batch_nonempty l
          && ((stage_batch_size policy <? l_batch_units l + event_units)
              || (maximum_stage_batch_bytes policy <? l_batch_bytes l + event_bytes))
       then flush_batch l else mret l);
  let l := append_event l event event_units event_bytes in
  if (stage_batch_size policy <=? l_batch_units l)
     || (maximum_stage_batch_bytes policy <=? l_batch_bytes l)
  then flush_batch l else mret l.

Fixpoint stage_each (l : stage_locals) (events : list ParsedEvent) : M W stage_locals :=
  match events with
  | [] => mret l
  | event :: events => l ← stage_event l event; stage_each l events
  end.

(** The [async for] over one parse: the events in order, then the way the generator
    ended. *)
Definition stage_stream (parsed : list ParsedEvent * option exn) : M W stage_locals :=
  l ← stage_each initial_locals (fst parsed);
  match snd parsed with
  | Some e => raise e
  | None => mret l
  end.

(** [if batch: await flush_batch()] after the stream. *)
Definition flush_rest (l : stage_locals) : M W StageSummary :=
  l ← (if batch_nonempty l then flush_batch l else mret l);
  mret (l_summary l).
End loop.
