(* ===== verification/StagingFacts.v ===== *)
(** What the staging loop guarantees, proved against any repository that records the
    batches it accepts. *)
From S2P Require Import Prelude Errors Effects Enums PyNumbers Models AppModels Ports Staging.

(** ** The contract asked of a repository

    [staged_batches sid l w] says that what is stored for a file is the batches [l];
    [stage] is atomic: it stores the batch and returns, or raises and stores nothing. *)
Class StagingLog (W : Type) `{IngestionRepository W} := {
  staged_batches : uuid -> list (list ParsedEvent) -> W -> Prop;
  stage_logs : forall sid l batch w, staged_batches sid l w ->
    wp (stage sid batch) (fun _ w' => staged_batches sid (l ++ [batch]) w')
      (fun _ w' => staged_batches sid l w') w
}.

(** Summaries that agree on everything but the number of sampled issues, which the
    repository may cap. *)
Definition same_counts (a b : StageSummary) : Prop :=
  metadata_records a = metadata_records b /\ store_records a = store_records b /\
  price_records a = price_records b /\ promotion_records a = promotion_records b /\
  warnings a = warnings b /\ rejected_records a = rejected_records b /\
  file_quarantines a = file_quarantines b /\
  validation_issue_bytes a = validation_issue_bytes b.

#[export] Instance same_counts_equiv : Equivalence same_counts.
Proof. unfold same_counts. split; red; intuition congruence. Qed.

#[export] Instance combine_stage_proper :
  Proper (same_counts ==> same_counts ==> same_counts) combine_stage.
Proof. unfold same_counts. intros a a' Ha b b' Hb. simpl. intuition congruence. Qed.

#[export] Instance accepted_records_proper : Proper (same_counts ==> eq) accepted_records.
Proof. unfold same_counts, accepted_records. intros a a' Ha. intuition congruence. Qed.

(** A repository whose summaries count the batch it stored. *)
Class StagingCounts (W : Type) `{IngestionRepository W} : Prop := {
  stage_counts : forall sid batch w,
    wp (stage sid batch) (fun s _ => same_counts s (stage_events batch))
      (fun _ _ => True) w
}.

(** ** Counting is a homomorphism *)

Lemma count_event_shift a b e :
  same_counts (combine_stage a (count_event b e)) (count_event (combine_stage a b) e).
Proof.
  destruct e as [| | | |i]; [..|destruct (vi_severity i) eqn:E];
    unfold same_counts, count_event; try rewrite E; simpl; lia.
Qed.

#[export] Instance count_event_proper e :
  Proper (same_counts ==> same_counts) (fun s => count_event s e).
Proof.
  intros a b Hab. destruct Hab as (?&?&?&?&?&?&?&?).
  destruct e as [| | | |i]; [..|destruct (vi_severity i) eqn:E];
    unfold same_counts, count_event; try rewrite E; simpl; lia.
Qed.

Lemma foldl_count_proper l a b :
  same_counts a b -> same_counts (foldl count_event a l) (foldl count_event b l).
Proof.
  revert a b. induction l as [|e l IH]; intros a b Hab; [done|].
  simpl. apply IH. by apply (count_event_proper e).
Qed.

Lemma foldl_count_shift l a b :
  same_counts (combine_stage a (foldl count_event b l))
    (foldl count_event (combine_stage a b) l).
Proof.
  revert b. induction l as [|e l IH]; intros b; [reflexivity|].
  simpl. rewrite IH. apply foldl_count_proper, count_event_shift.
Qed.

Lemma stage_events_fold l : same_counts (stage_events l) (foldl count_event empty_stage l).
Proof. unfold same_counts. repeat split. Qed.

Lemma combine_empty_r a : same_counts (combine_stage a empty_stage) a.
Proof. unfold same_counts; simpl; lia. Qed.

Lemma combine_empty_l a : same_counts (combine_stage empty_stage a) a.
Proof. unfold same_counts; simpl; lia. Qed.

Lemma combine_stage_app l k :
  same_counts (combine_stage (stage_events l) (stage_events k)) (stage_events (l ++ k)).
Proof.
  rewrite !stage_events_fold, foldl_app, foldl_count_shift.
  apply foldl_count_proper, combine_empty_r.
Qed.

(** ** Charges are positive *)

Lemma stage_units_pos e : 1 <= stage_units e.
Proof.
  destruct e; simpl; try lia.
  pose proof (py_len_nonneg (pm_items r)). pose proof (py_len_nonneg (pm_club_ids r)).
  pose proof (py_len_nonneg (effective_promotion_store_ids r)). lia.
Qed.

Fixpoint retained_value_charge_pos (v : pyvalue) : 128 <= retained_value_charge v.
Proof.
  assert (Hl : forall l, 0 <= zsum (map retained_value_charge l)).
  { induction l as [|v' l IH]; simpl; [lia|].
    pose proof (retained_value_charge_pos v'). lia. }
  destruct v; simpl; unfold STAGE_SCALAR_OVERHEAD_BYTES, STAGE_CONTAINER_OVERHEAD_BYTES.
  - pose proof (py_len_nonneg s). lia.
  - specialize (Hl l). lia.
  - pose proof (dec_digits_nonneg d). lia.
  - unfold bit_length. case_match; [done|].
    pose proof (Z.log2_nonneg (Z.abs z)).
    assert (0 <= (Z.log2 (Z.abs z) + 1 + 7) / 8) by (apply Z.div_pos; lia). lia.
  - specialize (Hl fields). lia.
  - lia.
Qed.

(** A staged row is never charged less than its persistence overhead. *)
Lemma event_bytes_lower e : 128 + 512 * stage_units e <= event_bytes e.
Proof.
  unfold event_bytes, stage_memory_charge, STAGE_PERSISTENCE_ROW_OVERHEAD_BYTES.
  pose proof (retained_value_charge_pos (event_value e)). lia.
Qed.

(** ** The loop *)

Definition total_units (b : list ParsedEvent) : Z := zsum (map stage_units b).
Definition total_bytes (b : list ParsedEvent) : Z := zsum (map event_bytes b).

(** A batch the policy accepts. *)
Definition batch_ok (p : IngestionPolicy) (b : list ParsedEvent) : Prop :=
  b <> [] /\ total_units b <= stage_batch_size p /\
  total_bytes b <= maximum_stage_batch_bytes p.

Lemma total_units_app b c : total_units (b ++ c) = total_units b + total_units c.
Proof. unfold total_units. by rewrite map_app, zsum_app. Qed.
Lemma total_bytes_app b c : total_bytes (b ++ c) = total_bytes b + total_bytes c.
Proof. unfold total_bytes. by rewrite map_app, zsum_app. Qed.
#[export] Hint Rewrite total_units_app total_bytes_app : makolet.

Lemma policy_ok_positive p :
  policy_ok p -> 0 < stage_batch_size p /\ 0 < maximum_stage_batch_bytes p /\
                 0 < download_attempts p /\ 0 < lease_ttl p.
Proof.
  unfold policy_ok, IngestionPolicy_post_init, raise_if, mbind, M_bind, raise, mret, M_ret.
  intros H. repeat (case_match; simplify_eq/=). all: reflect_bools; lia.
Qed.

Section loop.
Context {W : Type} `{StagingLog W}.
Variable policy : IngestionPolicy.
Variable sid : uuid.
Hypothesis Hpolicy : policy_ok policy.

(** What holds between two events: [seen] was consumed, [batches] were stored. *)
Definition loop_inv (seen : list ParsedEvent) (batches : list (list ParsedEvent))
    (l : stage_locals) : Prop :=
  concat batches ++ l_batch l = seen /\ Forall (batch_ok policy) batches /\
  l_batch_units l = total_units (l_batch l) /\ l_batch_bytes l = total_bytes (l_batch l) /\
  l_batch_units l < stage_batch_size policy /\
  l_batch_bytes l < maximum_stage_batch_bytes policy.

(** Where a run stands that started with [base] stored and consumed part of [events]. *)
Definition partial (base : list (list ParsedEvent)) (events : list ParsedEvent) (w : W)
    : Prop :=
  exists batches, staged_batches sid (base ++ batches) w /\
    Forall (batch_ok policy) batches /\ concat batches `prefix_of` events.

Lemma flush_batch_spec l base batches w :
  staged_batches sid (base ++ batches) w ->
  wp (flush_batch sid l)
    (fun l' w' => staged_batches sid (base ++ batches ++ [l_batch l]) w' /\
       l_batch l' = [] /\ l_batch_units l' = 0 /\ l_batch_bytes l' = 0 /\
       l_issue_count l' = l_issue_count l /\ l_issue_bytes l' = l_issue_bytes l)
    (fun _ w' => staged_batches sid (base ++ batches) w') w.
Proof.
  intros Hw. unfold flush_batch. wp_step.
  eapply wp_mono; [by apply (stage_logs sid (base ++ batches))|..]; cbv beta; [|done].
  intros s w' Hs. wp_step. by rewrite app_assoc.
Qed.

Lemma count_issue_spec l event (w : W) :
  wp (count_issue policy l event)
    (fun l' w' => w' = w /\ l_batch l' = l_batch l /\ l_batch_units l' = l_batch_units l /\
       l_batch_bytes l' = l_batch_bytes l /\ l_summary l' = l_summary l)
    (fun _ w' => w' = w) w.
Proof.
  unfold count_issue, ensure_validation_issue_attempt_within_limits.
  destruct event; repeat wp_step; done.
Qed.

Lemma ensure_limits_spec units bytes (w : W) :
  wp (ensure_stage_event_within_limits units bytes policy)
    (fun _ w' => w' = w /\ units <= stage_batch_size policy /\
       bytes <= maximum_stage_batch_bytes policy)
    (fun _ w' => w' = w) w.
Proof.
  unfold ensure_stage_event_within_limits. repeat wp_step; reflect_bools; try done.
Qed.

Lemma partial_weaken base seen rest w :
  partial base seen w -> partial base (seen ++ rest) w.
Proof.
  intros (b & ? & ? & ?). exists b. split_and!; [done..|]. by apply prefix_app_r.
Qed.

Lemma loop_inv_partial base seen batches l w :
  staged_batches sid (base ++ batches) w -> loop_inv seen batches l -> partial base seen w.
Proof.
  intros Hw (<- & ? & _). exists batches. split_and!; [done..|]. by apply prefix_app_r.
Qed.

(** Flushing closes the open batch; appending and then flushing when the limits are
    reached restores the invariant. *)
Lemma flush_if_full_spec base seen batches l e w :
  staged_batches sid (base ++ batches) w ->
  concat batches ++ l_batch l = seen -> Forall (batch_ok policy) batches ->
  l_batch_units l = total_units (l_batch l) -> l_batch_bytes l = total_bytes (l_batch l) ->
  l_batch_units l + stage_units e <= stage_batch_size policy ->
  l_batch_bytes l + event_bytes e <= maximum_stage_batch_bytes policy ->
  wp (let l := append_event l e (stage_units e) (event_bytes e) in
      if (stage_batch_size policy <=? l_batch_units l)
         || (maximum_stage_batch_bytes policy <=? l_batch_bytes l)
      then flush_batch sid l else mret l)
    (fun l' w' => exists batches', staged_batches sid (base ++ batches') w' /\
       loop_inv (seen ++ [e]) batches' l')
    (fun _ w' => partial base (seen ++ [e]) w') w.
Proof.
  intros Hw Hseen Hok Hu Hb Hue Hbe. cbv zeta.
  set (l' := append_event l e (stage_units e) (event_bytes e)).
  assert (Hl' : batch_ok policy (l_batch l')).
  { unfold batch_ok. simpl. autorewrite with makolet. unfold total_units, total_bytes in *.
    simpl. split_and!; [by destruct (l_batch l)|lia|lia]. }
  pose proof (policy_ok_positive _ Hpolicy) as (? & ? & _).
  wp_step.
  - eapply wp_mono; [by apply (flush_batch_spec l' base batches)|..]; cbv beta.
    + intros l'' w' (Hw' & Hb0 & Hu0 & Hy0 & _). exists (batches ++ [l_batch l']).
      split; [done|]. unfold loop_inv. rewrite Hb0, Hu0, Hy0. split_and!; try done.
      * rewrite concat_app. simpl. by rewrite !app_nil_r, app_assoc, Hseen.
      * apply Forall_app. eauto.
    + intros _ w' Hw'. exists batches. split_and!; [done..|].
      rewrite <- Hseen. by apply prefix_app_r, prefix_app_r.
  - apply orb_false_iff in Heqb as [??]. reflect_bools. wp_step.
    exists batches. split; [done|]. unfold loop_inv. simpl in *. split_and!; try done.
    + by rewrite app_assoc, Hseen.
    + rewrite total_units_app, Hu. unfold total_units. simpl. lia.
    + rewrite total_bytes_app, Hb. unfold total_bytes. simpl. lia.
Qed.

Lemma stage_event_spec base seen batches l e w :
  staged_batches sid (base ++ batches) w -> loop_inv seen batches l ->
  wp (stage_event policy sid l e)
    (fun l' w' => exists batches', staged_batches sid (base ++ batches') w' /\
       loop_inv (seen ++ [e]) batches' l')
    (fun _ w' => partial base (seen ++ [e]) w') w.
Proof.
  intros Hw Hinv. unfold stage_event. fold (event_bytes e).
  pose proof (policy_ok_positive _ Hpolicy) as (? & ? & _).
  wp_step. eapply wp_mono; [apply count_issue_spec|..]; cbv beta.
  2: { intros _ w' ->. eapply partial_weaken, loop_inv_partial; eauto. }
  intros l1 w1 (-> & Hlb & Hlu & Hly & _). wp_step. fold (event_bytes e).
  eapply wp_mono; [apply ensure_limits_spec|..]; cbv beta.
  2: { intros _ w' ->. eapply partial_weaken, loop_inv_partial; eauto. }
  intros [] w2 (-> & He1 & He2). wp_step.
  destruct Hinv as (Hseen & Hok & Hu & Hb & Hu' & Hb').
  destruct (batch_nonempty l1 && _) eqn:Hflush.
  - apply andb_true_iff in Hflush as [Hne _].
    eapply wp_mono; [by apply (flush_batch_spec l1 base batches)|..]; cbv beta.
    + intros l2 w3 (Hw3 & Hb0 & Hu0 & Hy0 & _).
      assert (batch_ok policy (l_batch l1)).
      { unfold batch_ok. rewrite Hlb, <- Hu, <- Hb. split_and!; [|lia|lia].
        rewrite <- Hlb. unfold batch_nonempty in Hne. by destruct (l_batch l1). }
      apply flush_if_full_spec with (batches := batches ++ [l_batch l1]); try done.
      * rewrite Hb0, app_nil_r, concat_app, Hlb. simpl. by rewrite app_nil_r.
      * apply Forall_app; eauto.
      * by rewrite Hu0, Hb0.
      * by rewrite Hy0, Hb0.
      * lia.
      * lia.
    + intros _ w3 Hw3. exists batches. split_and!; [done..|].
      rewrite <- Hseen. by apply prefix_app_r, prefix_app_r.
  - wp_step. apply flush_if_full_spec with (batches := batches); try done.
    + by rewrite Hlb.
    + by rewrite Hlu, Hlb.
    + by rewrite Hly, Hlb.
    + apply andb_false_iff in Hflush as [Hf|Hf].
      * unfold batch_nonempty in Hf. rewrite Hlb in Hf.
        destruct (l_batch l); [|done]. rewrite Hlu, Hu. unfold total_units. simpl. lia.
      * apply orb_false_iff in Hf as [??]. reflect_bools. lia.
    + apply andb_false_iff in Hflush as [Hf|Hf].
      * unfold batch_nonempty in Hf. rewrite Hlb in Hf.
        destruct (l_batch l); [|done]. rewrite Hly, Hb. unfold total_bytes. simpl. lia.
      * apply orb_false_iff in Hf as [??]. reflect_bools. lia.
Qed.

Lemma stage_each_spec base events seen batches l w :
  staged_batches sid (base ++ batches) w -> loop_inv seen batches l ->
  wp (stage_each policy sid l events)
    (fun l' w' => exists batches', staged_batches sid (base ++ batches') w' /\
       loop_inv (seen ++ events) batches' l')
    (fun _ w' => partial base (seen ++ events) w') w.
Proof.
  revert seen batches l w. induction events as [|e events IH]; intros seen batches l w Hw Hl.
  - rewrite app_nil_r. simpl. wp_step. eauto.
  - simpl. wp_step. eapply wp_mono; [eapply stage_event_spec; done|..]; cbv beta.
    + intros l' w' (batches' & Hw' & Hl'). rewrite cons_middle, app_assoc. eauto.
    + intros _ w' Hp. rewrite cons_middle, app_assoc. by apply partial_weaken.
Qed.

Lemma stage_stream_spec parsed base w :
  staged_batches sid base w ->
  wp (stage_stream policy sid parsed)
    (fun l w' => exists batches, staged_batches sid (base ++ batches) w' /\
       loop_inv parsed.1 batches l /\ parsed.2 = None)
    (fun _ w' => partial base parsed.1 w') w.
Proof.
  intros Hw. pose proof (policy_ok_positive _ Hpolicy) as (? & ? & _).
  unfold stage_stream. wp_step.
  eapply wp_mono; [eapply (stage_each_spec base parsed.1 [] [] initial_locals)|..];
    cbv beta.
  - by rewrite app_nil_r.
  - unfold loop_inv; simpl; repeat split; try done; constructor.
  - intros l w' (batches & Hw' & Hl). simpl in Hl. destruct parsed.2; wp_step; eauto.
    by eapply loop_inv_partial.
  - done.
Qed.

Lemma flush_rest_spec seen batches l base w :
  staged_batches sid (base ++ batches) w -> loop_inv seen batches l ->
  wp (flush_rest sid l)
    (fun _ w' => exists batches', staged_batches sid (base ++ batches') w' /\
       Forall (batch_ok policy) batches' /\ concat batches' = seen)
    (fun _ w' => partial base seen w') w.
Proof.
  intros Hw' (Hseen & Hok & Hu & Hb & Hu' & Hb'). unfold flush_rest. wp_step.
  destruct (batch_nonempty l) eqn:Hne.
  - eapply wp_mono; [by apply (flush_batch_spec l base batches)|..]; cbv beta.
    + intros l' w'' (Hw'' & _). wp_step. eexists. split; [done|].
      split; [|by rewrite concat_app; simpl; rewrite app_nil_r].
      apply Forall_app; split; [done|]. apply Forall_singleton.
      unfold batch_ok. rewrite <- Hu, <- Hb. split_and!; [|lia|lia].
      unfold batch_nonempty in Hne. by destruct (l_batch l).
    + intros _ w'' Hw''. exists batches. split_and!; [done..|].
      rewrite <- Hseen. by apply prefix_app_r.
  - wp_step. wp_step. exists batches. split_and!; try done.
    unfold batch_nonempty in Hne. destruct (l_batch l); [|done].
    by rewrite app_nil_r in Hseen.
Qed.
End loop.

(** ** The summary counts the document *)

Section counts.
Context {W : Type} `{StagingCounts W}.
Variable policy : IngestionPolicy.
Variable sid : uuid.

(** What was flushed and what is still batched together count the events seen. *)
Definition counts_inv (seen : list ParsedEvent) (l : stage_locals) : Prop :=
  same_counts (combine_stage (l_summary l) (stage_events (l_batch l))) (stage_events seen).

Lemma combine_assoc a b c :
  same_counts (combine_stage (combine_stage a b) c) (combine_stage a (combine_stage b c)).
Proof. unfold same_counts; simpl; lia. Qed.

Lemma flush_counts seen l w :
  counts_inv seen l ->
  wp (flush_batch sid l)
    (fun l' (_ : W) => counts_inv seen l' /\ l_batch l' = [] /\
       same_counts (l_summary l') (stage_events seen))
    (fun _ _ => True) w.
Proof.
  intros Hinv. unfold flush_batch. wp_step.
  eapply wp_mono; [apply stage_counts|..]; cbv beta; [|done].
  intros s w' Hs. wp_step. unfold counts_inv in *. simpl. rewrite Hs.
  split_and!; [|done..]. etransitivity; [apply combine_empty_r|done].
Qed.

Lemma maybe_flush_counts (b : bool) seen l w :
  counts_inv seen l ->
  wp (if b then flush_batch sid l else mret l)
    (fun l' (_ : W) => counts_inv seen l') (fun _ _ => True) w.
Proof.
  intros Hl. destruct b; [|by wp_step].
  eapply wp_mono; [by apply flush_counts|..]; [|done]. intros l' w' Hl'. apply Hl'.
Qed.

Lemma append_counts seen l e units bytes :
  counts_inv seen l -> counts_inv (seen ++ [e]) (append_event l e units bytes).
Proof.
  unfold counts_inv. simpl. intros Hl. rewrite <- !combine_stage_app.
  rewrite <- combine_assoc. by rewrite Hl.
Qed.

Lemma stage_event_counts seen l e w :
  counts_inv seen l ->
  wp (stage_event policy sid l e)
    (fun l' (_ : W) => counts_inv (seen ++ [e]) l') (fun _ _ => True) w.
Proof.
  intros Hinv. unfold stage_event. wp_step.
  eapply wp_mono; [apply count_issue_spec|..]; cbv beta; [|done].
  intros l1 w1 (-> & Hb & _ & _ & Hs). wp_step.
  eapply wp_mono; [apply ensure_limits_spec|..]; cbv beta; [|done].
  intros [] w2 _. wp_step.
  eapply wp_mono; [apply (maybe_flush_counts _ seen)|..]; cbv beta; [|..|done].
  { unfold counts_inv. by rewrite Hb, Hs. }
  intros l2 w3 Hl2. by apply maybe_flush_counts, append_counts.
Qed.

Lemma stage_each_counts events seen l w :
  counts_inv seen l ->
  wp (stage_each policy sid l events)
    (fun l' (_ : W) => counts_inv (seen ++ events) l') (fun _ _ => True) w.
Proof.
  revert seen l w. induction events as [|e events IH]; intros seen l w Hl; simpl.
  - rewrite app_nil_r. by wp_step.
  - wp_step. eapply wp_mono; [by apply stage_event_counts|..]; cbv beta; [|done].
    intros l' w' Hl'. rewrite cons_middle, app_assoc. by apply IH.
Qed.

Lemma stage_stream_counts parsed w :
  wp (stage_stream policy sid parsed)
    (fun l (_ : W) => counts_inv parsed.1 l) (fun _ _ => True) w.
Proof.
  unfold stage_stream. wp_step.
  eapply wp_mono; [apply (stage_each_counts _ [] initial_locals)|..]; cbv beta; [..|done].
  { unfold counts_inv, same_counts; simpl. lia. }
  intros l w' Hl. by wp_step; wp_step.
Qed.

Lemma flush_rest_counts seen l w :
  counts_inv seen l ->
  wp (flush_rest sid l)
    (fun s (_ : W) => same_counts s (stage_events seen)) (fun _ _ => True) w.
Proof.
  intros Hl. unfold flush_rest. wp_step. destruct (batch_nonempty l) eqn:Hne.
  - eapply wp_mono; [by apply (flush_counts seen)|..]; cbv beta; [|done].
    intros l' w'' (_ & _ & Hs). by wp_step.
  - do 2 wp_step. unfold counts_inv, batch_nonempty in *. destruct (l_batch l); [|done].
    etransitivity; [|exact Hl]. symmetry. apply combine_empty_r.
Qed.
End counts.

(** ** One document *)

(** Reading an archived document stages nothing by itself. *)
Class ReadsOnly (W Session Chunks : Type) `{StagingLog W, !RawArchive W Session Chunks, !DocumentParser W Chunks} : Prop := {
  open_stages_nothing : forall k sid l,
    preserves (staged_batches sid l) (open_archive k);
  close_stages_nothing : forall (c : Chunks) sid l,
    preserves (staged_batches sid l) (close_archive c);
  parse_stages_nothing : forall (c : Chunks) i d k n sid l,
    preserves (staged_batches sid l) (parse c i d k n)
}.
