(* ===== verification/IngestionService.v ===== *)
(** The ingestion service of [src/src/makolet/application/ingestion.py]: [register],
    [ingest], [archive_only], [replay] and what they are made of, over the ports of
    [Ports.v].  Lifecycle log events and metrics are not modelled. *)
From S2P Require Import Prelude Errors Effects Enums PyNumbers Models AppModels Ports Staging.

(** ** Helpers without state *)

(** [_error_code]. *)
Definition error_code (e : exn) : string :=
  match e with MakoletExn c _ => error_class_code c | PyExn _ => "unexpected_error" end.

(** [_is_retryable]. *)
Definition is_retryable (e : exn) : bool :=
  match e with
  | MakoletExn ChargeBudgetExceededError _ | MakoletExn ArchiveCapacityError _ => false
  | MakoletExn c _ => retryable c
  | PyExn _ => false
  end.

(** The [isinstance] test for the three quarantine errors. *)
Definition is_quarantine_error (e : exn) : bool :=
  match e with
  | MakoletExn (MalformedDocumentError | UnsafeArchiveError | QuarantinedFileError) _ => true
  | _ => false
  end.

(** The state [_record_failure] moves a file in [current] to. *)
Definition failure_target (current : IngestionStatus) (e : exn) : IngestionStatus :=
  let can_quarantine :=
    bool_decide (current ∈ [ARCHIVED; PARSING; STAGED; VALIDATING; APPLYING]) in
  if is_quarantine_error e && can_quarantine then QUARANTINED
  else match e with
       | MakoletExn c _ => if retryable c then FAILED_RETRYABLE else FAILED_TERMINAL
       | PyExn _ => FAILED_TERMINAL
       end.

(** [object_key.rsplit("/", 1)[-1]]. *)
Definition slash : Z := 47.
Fixpoint after_last_slash (s : pystr) : pystr :=
  match s with
  | [] => []
  | c :: rest =>
      if bool_decide (slash ∈ rest) then after_last_slash rest
      else if c =? slash then rest else c :: rest
  end.

(** [_duplicate_result]. *)
Definition duplicate_result (sid : uuid) (sha : option pystr) : IngestionResult :=
  {| ir_source_file_id := sid; ir_status := COMPLETED; ir_content_sha256 := sha;
     ir_stage := None; ir_apply := None; ir_duplicate := true; ir_replayed := false;
     ir_transferred_bytes := 0 |}.

(** What [_ingest] and [_archive_only] re-raise once bytes were transferred: a Makolet
    error keeps its class and takes the larger byte count, anything else becomes a
    [RepositoryError]; with no bytes transferred the error is untouched. *)
Definition propagated_error (transferred : Z) (e : exn) : exn :=
  if transferred =? 0 then e
  else match e with
       | MakoletExn c n => MakoletExn c (Z.max n transferred)
       | PyExn _ => makolet_error RepositoryError transferred
       end.

(** [a or b] for optional strings. *)
Definition str_or (a b : option pystr) : option pystr :=
  match a with Some s => if str_truthy s then a else b | None => b end.

Section service.
Context {W Session Chunks : Type}.
Context `{IngestionRepository W} `{!RawArchive W Session Chunks} `{!Downloader W Session}
  `{!DocumentParser W Chunks} `{!LeaseManager W} `{!Retrying}.
Variable policy : IngestionPolicy.
Variable worker_id : pystr.

(** [_ensure_archive_length]. *)
Definition ensure_archive_length (registered : RegisteredSourceFile) (verified : Z)
    : M W unit :=
  raise_if (match reg_archive_content_length registered with
            | Some expected => negb (verified =? expected)
            | None => false
            end) (MakoletExn ArchiveIntegrityError 0).

(** [_validate_archive_byte_limit]. *)
Definition validate_archive_byte_limit (maximum : option Z) : M W unit :=
  raise_if (match maximum with Some m => m <=? 0 | None => false end) (PyExn ValueError).

(** [register]. *)
Definition register (remote_file : RemoteFile) : M W RegisteredSourceFile :=
  assert_ingestion_allowed None;;
  register_discovery remote_file false.

(** ** Downloading *)

(** The local variables of [_download_and_archive] that survive an exception: the
    running byte total, and within one attempt the bytes of the attempt and the
    open session. *)
Record dl_locals := {
  dl_transferred : Z;
  dl_attempt : Z;
  dl_session : option Session
}.

Definition no_download : dl_locals :=
  {| dl_transferred := 0; dl_attempt := 0; dl_session := None |}.

(** [async with download as session: body]. *)
Definition with_session {A} (session : Session) (body : M (W * dl_locals) A)
    : M (W * dl_locals) A :=
  r ← try_with body (fun e => lift (close_session session);; raise e);
  lift (close_session session);;
  mret r.

(** The body of the [async with] block. *)
Definition archive_session (registered : RegisteredSourceFile) (session : Session)
    : M (W * dl_locals) (ArchivedDownload * bool) :=
  '(object_key, content_length, created) ←
    lift (archive_put session (rf_original_filename (reg_remote_file registered)));
  wire ← lift (session_transferred session);
  let attempt_transferred_bytes := Z.max content_length wire in
  set_locals (fun l => {| dl_transferred := dl_transferred l;
                          dl_attempt := attempt_transferred_bytes;
                          dl_session := dl_session l |});;
  evidence ← lift (session_finish session content_length);
  let receipt := {| ar_content_sha256 := after_last_slash object_key;
                    ar_object_key := object_key; ar_content_length := content_length;
                    ar_archived_at := de_finished_at evidence; ar_created := created |} in
  lift (ArchiveReceipt_post_init receipt);;
  let archived := {| ad_archive := receipt; ad_evidence := evidence;
                     ad_transferred_bytes := 0 |} in
  duplicate ← lift (record_archive (reg_source_file_id registered) archived parser_version);
  set_locals (fun l => {| dl_transferred := dl_transferred l + attempt_transferred_bytes;
                          dl_attempt := dl_attempt l; dl_session := dl_session l |});;
  l ← locals;
  let result := {| ad_archive := receipt; ad_evidence := evidence;
                   ad_transferred_bytes := dl_transferred l |} in
  lift (ArchivedDownload_post_init result);;
  mret (result, duplicate).

(** The [except] clauses: charge what the attempt moved, then re-raise. *)
Definition fail_attempt (e : exn) : M (W * dl_locals) (ArchivedDownload * bool) :=
  l ← locals;
  wire ← match dl_session l with
         | Some session => lift (session_transferred session)
         | None => mret 0
         end;
  let claimed := default 0 (exn_transferred e) in
  let transferred := dl_transferred l + Z.max (dl_attempt l) (Z.max claimed wire) in
  set_locals (fun l => {| dl_transferred := transferred; dl_attempt := dl_attempt l;
                          dl_session := dl_session l |});;
  match e with
  | MakoletExn (DownloadLimitError true) _ =>
      raise (makolet_error ChargeBudgetExceededError transferred)
  | MakoletExn _ _ => raise (set_transferred transferred e)
  | PyExn _ =>
      if transferred =? 0 then raise e
      else raise (makolet_error RepositoryError transferred)
  end.

(** One [with attempt:] body. *)
Definition download_attempt (registered : RegisteredSourceFile) (maximum : option Z)
    (attempt_number : Z) : M (W * dl_locals) (ArchivedDownload * bool) :=
  set_locals (fun l => {| dl_transferred := dl_transferred l; dl_attempt := 0;
                          dl_session := None |});;
  try_except
    (l ← locals;
     let remaining := (fun m => m - dl_transferred l) <$> maximum in
     raise_if (match remaining with Some r => r <=? 0 | None => false end)
       (MakoletExn ChargeBudgetExceededError 0);;
     session ← lift (open_download (reg_remote_file registered) remaining);
     set_locals (fun l => {| dl_transferred := dl_transferred l; dl_attempt := dl_attempt l;
                             dl_session := Some session |});;
     with_session session (archive_session registered session))
    fail_attempt.

(** [_download_and_archive]. *)
Definition download_and_archive (registered : RegisteredSourceFile) (maximum : option Z)
    : M W (ArchivedDownload * bool) :=
  transition (reg_source_file_id registered) [DISCOVERED; FAILED_RETRYABLE] DOWNLOADING None;;
  with_locals no_download (retrying (download_attempts policy) is_retryable
                 (download_attempt registered maximum)).

(** [_ensure_archived]: object key, digest, duplicate flag, transferred bytes. *)
Definition ensure_archived (registered : RegisteredSourceFile) (maximum : option Z)
    : M W (pystr * pystr * bool * Z) :=
  match reg_archive_object_key registered with
  | Some key =>
      digest ← match reg_content_sha256 registered with
               | Some s => if str_truthy s then mret s
                           else archive_sha256 (reg_source_file_id registered)
               | None => archive_sha256 (reg_source_file_id registered)
               end;
      verified ← archive_verify key digest;
      ensure_archive_length registered verified;;
      mret (key, digest, false, 0)
  | None =>
      '(archived, duplicate) ← download_and_archive registered maximum;
      mret (ar_object_key (ad_archive archived), ar_content_sha256 (ad_archive archived),
            duplicate, ad_transferred_bytes archived)
  end.

(** ** Parsing, validating and applying *)

(** [async with self._archive.open(object_key) as chunks: ...] around the stream. *)
Definition read_stream (sid : uuid) (rf : RemoteFile) (object_key : pystr)
    : M W stage_locals :=
  chunks ← open_archive object_key;
  l ← try_with
        (parsed ← parse chunks sid (rf_document_type rf) (rf_compression rf)
                    (rf_original_filename rf);
         stage_stream policy sid parsed)
        (fun e => close_archive chunks;; raise e);
  close_archive chunks;;
  mret l.

Definition parse_and_stage (sid : uuid) (rf : RemoteFile) (object_key : pystr)
    : M W StageSummary :=
  l ← read_stream sid rf object_key;
  flush_rest sid l.

(** The record-rejection test; the second operand is only reached with accepted
    records, so the quotient has a positive denominator. *)
Definition rejection_exceeds (s : StageSummary) : bool :=
  let evaluated := accepted_records s + rejected_records s in
  negb (rejected_records s =? 0)
  && ((accepted_records s =? 0)
      || float_ltb (maximum_record_rejection_fraction policy)
           (py_truediv (rejected_records s) evaluated)).

(** [_parse_validate_apply]. *)
Definition parse_validate_apply (sid : uuid) (rf : RemoteFile) (object_key : pystr)
    (transition_states : bool) : M W (StageSummary * ApplySummary) :=
  when transition_states (transition sid [ARCHIVED; FAILED_RETRYABLE] PARSING None);;
  reused ← reuse_validated_staging sid parser_version (rf_document_type rf)
             (rf_compression rf);
  match reused with
  | None => parse_and_stage sid rf object_key;; mret tt
  | Some _ => mret tt
  end;;
  summary ← finalize_staging sid (rf_document_type rf);
  when transition_states
    (transition sid [PARSING] STAGED None;; transition sid [STAGED] VALIDATING None);;
  quarantine ← has_file_quarantine_issue sid;
  raise_if quarantine quarantined_error;;
  raise_if (rejection_exceeds summary) quarantined_error;;
  when transition_states (transition sid [VALIDATING] APPLYING None);;
  applied ← apply_staged sid (rf_document_type rf)
              (minimum_full_records_for policy (rf_document_type rf))
              (maximum_full_snapshot_drop_fraction policy);
  when transition_states (transition sid [APPLYING] COMPLETED None);;
  mret (summary, applied).

(** ** Failure recording *)

(** [_record_failure]. *)
Definition record_failure (sid : uuid) (e : exn) : M W unit :=
  current ← repo_get sid;
  if bool_decide (reg_status current ∈ [COMPLETED; QUARANTINED; FAILED_TERMINAL])
  then mret tt
  else transition sid [reg_status current] (failure_target (reg_status current) e)
         (Some (error_code e)).

(** The [except] clause of [_ingest] and [_archive_only], with the byte count the
    [try] block had reached. *)
Definition on_error {A} (sid : uuid) (transferred : Z) (e : exn) : M W A :=
  let e' := propagated_error transferred e in
  record_failure sid e';; raise e'.

(** Their [try] block: until [archive] returns, [transferred_bytes] is 0. *)
Definition guarded {A} (sid : uuid) (archive : M W (pystr * pystr * bool * Z))
    (rest : pystr * pystr * bool * Z -> M W A) : M W A :=
  archived ← try_except archive (on_error sid 0);
  try_except (rest archived) (on_error sid (snd archived)).

(** What the [try] block of [_ingest] does with the archived document. *)
Definition ingest_rest (current : RegisteredSourceFile) (archived : pystr * pystr * bool * Z)
    : M W IngestionResult :=
  let '(object_key, content_sha256, duplicate, transferred) := archived in
  let sid := reg_source_file_id current in
  '(stage, applied) ←
    parse_validate_apply sid (reg_remote_file current) object_key true;
  let result := {| ir_source_file_id := sid; ir_status := COMPLETED;
                   ir_content_sha256 := Some content_sha256; ir_stage := Some stage;
                   ir_apply := Some applied; ir_duplicate := duplicate;
                   ir_replayed := false; ir_transferred_bytes := transferred |} in
  IngestionResult_post_init result;;
  mret result.

(** That [try] block alone, without its [except] clause. *)
Definition ingest_work (current : RegisteredSourceFile) (maximum : option Z)
    : M W IngestionResult :=
  archived ← ensure_archived current maximum;
  ingest_rest current archived.

Definition ingest_owned (current : RegisteredSourceFile) (maximum : option Z)
    : M W IngestionResult :=
  guarded (reg_source_file_id current) (ensure_archived current maximum) (ingest_rest current).

(** [_ingest]. *)
Definition ingest_inner (remote_file : RemoteFile) (maximum : option Z)
    : M W IngestionResult :=
  assert_ingestion_allowed None;;
  registered ← register_discovery remote_file false;
  if bool_decide (reg_status registered = COMPLETED)
  then mret (duplicate_result (reg_source_file_id registered)
               (str_or (reg_content_sha256 registered)
                  (reg_completed_content_sha256 registered)))
  else
    with_lease (source_file_resource (reg_source_file_id registered)) worker_id
      (lease_ttl policy) (fun acquired =>
        raise_if (negb acquired) (MakoletExn LeaseUnavailableError 0);;
        current ← register_discovery remote_file true;
        if bool_decide (reg_status current = COMPLETED)
        then mret (duplicate_result (reg_source_file_id current) (reg_content_sha256 current))
        else ingest_owned current maximum).

(** [ingest]. *)
Definition ingest (remote_file : RemoteFile) (maximum : option Z) : M W IngestionResult :=
  validate_archive_byte_limit maximum;;
  ingest_inner remote_file maximum.

(** The [try] block of [_archive_only]. *)
Definition archive_owned (current : RegisteredSourceFile) (maximum : option Z)
    : M W IngestionResult :=
  let sid := reg_source_file_id current in
  guarded sid (ensure_archived current maximum)
    (fun '(_, content_sha256, duplicate, transferred) =>
      when (match reg_archive_object_key current with Some _ => true | None => false end
            && negb (bool_decide (reg_status current = ARCHIVED)))
        (transition sid [FAILED_RETRYABLE] ARCHIVED None);;
      let result := {| ir_source_file_id := sid; ir_status := ARCHIVED;
                       ir_content_sha256 := Some content_sha256; ir_stage := None;
                       ir_apply := None; ir_duplicate := duplicate; ir_replayed := false;
                       ir_transferred_bytes := transferred |} in
      IngestionResult_post_init result;;
      mret result).

(** [archive_only] and [_archive_only]. *)
Definition archive_only (remote_file : RemoteFile) (maximum : option Z)
    : M W IngestionResult :=
  validate_archive_byte_limit maximum;;
  assert_ingestion_allowed None;;
  registered ← register_discovery remote_file false;
  if bool_decide (reg_status registered = COMPLETED)
  then mret (duplicate_result (reg_source_file_id registered)
               (str_or (reg_content_sha256 registered)
                  (reg_completed_content_sha256 registered)))
  else
    with_lease (source_file_resource (reg_source_file_id registered)) worker_id
      (lease_ttl policy) (fun acquired =>
        raise_if (negb acquired) (MakoletExn LeaseUnavailableError 0);;
        current ← register_discovery remote_file true;
        archive_owned current maximum).

(** ** Replay *)

(** [_replay_registered]. *)
Definition replay_registered (registered : RegisteredSourceFile) (rebuild : option uuid)
    : M W (IngestionResult * uuid) :=
  let sid := reg_source_file_id registered in
  with_lease (source_file_resource sid) worker_id (lease_ttl policy) (fun acquired =>
    raise_if (negb acquired) (MakoletExn LeaseUnavailableError 0);;
    current ← repo_get sid;
    match reg_archive_object_key current, reg_content_sha256 current with
    | Some key, Some digest =>
        verified ← archive_verify key digest;
        ensure_archive_length current verified;;
        replay_id ← begin_replay sid parser_version rebuild;
        '(stage, applied) ←
          try_except (parse_validate_apply sid (reg_remote_file current) key false)
            (fun e => finish_replay replay_id false (Some (error_code e));; raise e);
        finish_replay replay_id true None;;
        let result := {| ir_source_file_id := sid; ir_status := COMPLETED;
                         ir_content_sha256 := Some digest; ir_stage := Some stage;
                         ir_apply := Some applied; ir_duplicate := false;
                         ir_replayed := true; ir_transferred_bytes := 0 |} in
        IngestionResult_post_init result;;
        mret (result, replay_id)
    | _, _ => raise (MakoletExn MalformedDocumentError 0)
    end).

(** [replay]. *)
Definition replay (sid : uuid) (rebuild : option uuid) : M W IngestionResult :=
  assert_ingestion_allowed rebuild;;
  registered ← repo_get sid;
  '(result, _) ← replay_registered registered rebuild;
  mret result.
End service.
