(* ===== verification/IngestionFacts.v ===== *)
(** What the ingestion service does to the lifecycle of the file it works on, proved
    against contracts of the ports it calls. *)
From S2P Require Import Prelude Errors Effects Enums PyNumbers Models AppModels Ports SourceFiles Staging StagingFacts IngestionService.

(** The retry loop of [_download_and_archive]: how often it opens a download, and with
    what byte allowance. *)
(** What is observed of the transport: the allowances of the downloads opened so far.
    A session never reports a negative number of bytes. *)
Class DownloadLog (W Session Chunks : Type) `{IngestionRepository W, !RawArchive W Session Chunks, !Downloader W Session} := {
  opens : W -> list (option Z);
  open_logs : forall rf m (w : W),
    wp (open_download rf m) (fun _ w' => opens w' = opens w ++ [m])
      (fun _ w' => opens w' = opens w ++ [m]) w;
  transferred_nonneg : forall (s : Session) (w : W),
    wp (session_transferred s) (fun n w' => 0 <= n /\ opens w' = opens w)
      (fun _ w' => opens w' = opens w) w;
  put_opens : forall (s : Session) n w0, preserves (fun w => opens w = w0) (archive_put s n);
  finish_opens : forall (s : Session) n w0, preserves (fun w => opens w = w0) (session_finish s n);
  close_opens : forall (s : Session) w0, preserves (fun w => opens w = w0) (close_session s);
  transition_opens : forall sid e t c w0, preserves (fun w => opens w = w0) (transition sid e t c);
  record_opens : forall sid a v w0, preserves (fun w => opens w = w0) (record_archive sid a v)
}.

Section download.
Context {W Session Chunks : Type}.
Context `{IngestionRepository W} `{!RawArchive W Session Chunks} `{!Downloader W Session}
  `{!DocumentParser W Chunks} `{!Retrying} `{!RetryingOk} `{!DownloadLog W Session Chunks}.
Variable policy : IngestionPolicy.
Hypothesis Hpolicy : policy_ok policy.
Variable registered : RegisteredSourceFile.
Variable maximum : option Z.

(** An allowance: none without a limit, otherwise positive and within it. *)
Definition allowance_ok (m : option Z) : Prop :=
  match maximum, m with
  | None, None => True
  | Some limit, Some k => 0 < k <= limit
  | _, _ => False
  end.

(** At most [n] downloads were opened since [base], each with a proper allowance. *)
Definition opened_within (base : list (option Z)) (n : Z) (w : W) : Prop :=
  exists log, opens w = base ++ log /\ py_len log <= n /\ Forall allowance_ok log.

Definition attempt_inv (base : list (option Z)) (n : Z) (p : W * @dl_locals Session) : Prop :=
  opened_within base n p.1 /\ 0 <= dl_transferred p.2.

Lemma opened_same base n w w' : opens w' = opens w -> opened_within base n w -> opened_within base n w'.
Proof. unfold opened_within. by intros ->. Qed.

Lemma opened_more base n m w : n <= m -> opened_within base n w -> opened_within base m w.
Proof. intros Hnm (log & ? & ? & ?). exists log. split_and!; [done|lia|done]. Qed.

(** Calls that open nothing. *)
Lemma keep_opens {A} base n (m : M W A) :
  (forall w0, preserves (fun w => opens w = w0) m) ->
  preserves (opened_within base n) m.
Proof.
  intros Hm w Hw. eapply wp_mono; [by apply (Hm (opens w))|..]; cbv beta;
    intros ? w' Heq; by apply (opened_same base n w).
Qed.

(** The running totals inside an open session: never negative, counted or not. *)
Definition session_inv (base : list (option Z)) (n : Z) (session : Session)
    (p : W * @dl_locals Session) : Prop :=
  attempt_inv base n p /\ dl_session p.2 = Some session.

Lemma lift_session_inv {A} base n s (m : M W A) :
  preserves (opened_within base n) m -> preserves (session_inv base n s) (lift m).
Proof.
  intros Hm [w l] [[Hw Hl] Hs]. apply wp_lift.
  eapply wp_mono; [by apply Hm|..]; cbv beta; intros ? w' Hw'; by split.
Qed.

Lemma archive_session_inv base n s : preserves (session_inv base n s) (archive_session registered s).
Proof.
  intros p Hp. unfold archive_session. wp_step.
  eapply wp_mono; [apply lift_session_inv; [apply keep_opens; intros; apply put_opens|done]| |done];
    cbv beta. clear p Hp. intros [[key len] created] p Hp. wp_step.
  destruct p as [w l]. apply wp_lift.
  eapply wp_mono; [apply transferred_nonneg|..]; cbv beta.
  2: { intros e w' Heq. destruct Hp as [[Hw Hl] Hs]. split; [split; [by eapply opened_same|done]|done]. }
  intros wire w' [Hwire Heq].
  assert (Hp' : session_inv base n s (w', l)).
  { destruct Hp as [[Hw Hl] Hs]. split; [split; [by eapply opened_same|done]|done]. }
  clear Hp Heq w. revert Hp'. generalize (w', l). clear w' l. intros p Hp. cbv zeta.
  assert (Hset : forall f : @dl_locals Session -> @dl_locals Session,
    (forall l, 0 <= dl_transferred l -> 0 <= dl_transferred (f l) /\ dl_session (f l) = dl_session l) ->
    preserves (session_inv base n s) (@set_locals W (@dl_locals Session) f)).
  { intros f Hf. apply preserves_modify. intros [w l] [[Hw Hl] Hs]. simpl in *.
    destruct (Hf l Hl) as [? Hse]. split; [by split|by rewrite <- Hs]. }
  enough (Hpres : preserves (session_inv base n s)
    (set_locals (fun l => {| dl_transferred := dl_transferred l;
       dl_attempt := Z.max len wire; dl_session := dl_session l |});;
     evidence ← lift (session_finish s len);
     let receipt := {| ar_content_sha256 := after_last_slash key;
                       ar_object_key := key; ar_content_length := len;
                       ar_archived_at := de_finished_at evidence; ar_created := created |} in
     lift (ArchiveReceipt_post_init receipt);;
     let archived := {| ad_archive := receipt; ad_evidence := evidence;
                        ad_transferred_bytes := 0 |} in
     duplicate ← lift (record_archive (reg_source_file_id registered) archived parser_version);
     set_locals (fun l => {| dl_transferred := dl_transferred l + Z.max len wire;
                             dl_attempt := dl_attempt l; dl_session := dl_session l |});;
     l ← locals;
     let result := {| ad_archive := receipt; ad_evidence := evidence;
                      ad_transferred_bytes := dl_transferred l |} in
     lift (ArchivedDownload_post_init result);;
     mret (result, duplicate))) by by apply Hpres.
  unfold ArchiveReceipt_post_init, ArchivedDownload_post_init, ensure_aware.
  repeat (first
    [ progress cbv beta zeta
    | apply preserves_bind; [|intros ?]
    | apply lift_session_inv; first
        [ apply keep_opens; intros; apply finish_opens
        | apply keep_opens; intros; apply record_opens
        | solve [preserve] ]
    | apply Hset; simpl; intros; split; [lia|done]
    | apply preserves_ret | unfold locals; apply preserves_gets ]).
Qed.

Lemma with_session_inv {A} base n s (body : M (W * @dl_locals Session) A) :
  preserves (session_inv base n s) body -> preserves (session_inv base n s) (with_session s body).
Proof.
  intros Hb. unfold with_session.
  assert (Hc : preserves (session_inv base n s) (lift (close_session s))).
  { apply lift_session_inv, keep_opens. intros. apply close_opens. }
  preserve; exact Hc || exact Hb.
Qed.

(** Whatever a failed attempt charges is not negative. *)
Lemma fail_attempt_inv base n e p :
  attempt_inv base n p -> (dl_session p.2 = None -> 0 <= dl_attempt p.2) ->
  wp (fail_attempt e) (fun _ => attempt_inv base n) (fun _ => attempt_inv base n) p.
Proof.
  destruct p as [w l]. intros Hp Hatt. unfold fail_attempt, locals, set_locals. do 2 wp_step.
  simpl. wp_step.
  assert (Hend : forall wire w', opens w' = opens w -> (dl_session l <> None -> 0 <= wire) ->
    wp (let claimed := default 0 (exn_transferred e) in
        let transferred := dl_transferred l + Z.max (dl_attempt l) (Z.max claimed wire) in
        modify (fun '(w, l) => (w, {| dl_transferred := transferred; dl_attempt := dl_attempt l;
                            dl_session := dl_session l |}));;
        match e with
        | MakoletExn (DownloadLimitError true) _ =>
            raise (makolet_error ChargeBudgetExceededError transferred)
        | MakoletExn _ _ => raise (set_transferred transferred e)
        | PyExn _ =>
            if transferred =? 0 then raise e
            else raise (makolet_error RepositoryError transferred)
        end) (fun _ : ArchivedDownload * bool => attempt_inv base n)
      (fun _ => attempt_inv base n) (w', l)).
  { intros wire w' Heq Hwire. destruct Hp as [Hw Hl]. cbv zeta. wp_step. wp_step.
    assert (Hgoal : attempt_inv base n (w', {| dl_transferred := dl_transferred l +
        Z.max (dl_attempt l) (Z.max (default 0 (exn_transferred e)) wire);
        dl_attempt := dl_attempt l; dl_session := dl_session l |})).
    { split; simpl; [by eapply opened_same|]. simpl in *.
      destruct (dl_session l); [specialize (Hwire ltac:(done))|specialize (Hatt eq_refl)]; lia. }
    destruct e as [c k|c]; [destruct c as [| | | | | | |[]| | | | | | | | | | | | | |]|];
      try exact Hgoal. by case_match. }
  destruct (dl_session l) as [s|] eqn:Hs; [|apply wp_ret; by apply Hend].
  apply wp_lift. eapply wp_mono; [apply transferred_nonneg|..]; cbv beta.
  - intros wire w' [Hwire Heq]. by apply Hend.
  - intros e' w' Heq. destruct Hp. split; [by eapply opened_same|done].
Qed.

(** One attempt opens at most one download. *)
Lemma download_attempt_inv base n k p :
  attempt_inv base n p ->
  wp (download_attempt registered maximum k) (fun _ => attempt_inv base (n + 1))
    (fun _ => attempt_inv base (n + 1)) p.
Proof.
  destruct p as [w l]. intros [Hw Hl]. simpl in Hw, Hl.
  unfold download_attempt, locals. wp_step. unfold set_locals at 1. wp_step. wp_step.
  set (l0 := {| dl_transferred := dl_transferred l; dl_attempt := 0; dl_session := None |}).
  assert (Hfail : forall e w', opened_within base (n + 1) w' ->
    wp (if is_exception e then fail_attempt e else raise e)
      (fun _ => attempt_inv base (n + 1)) (fun _ => attempt_inv base (n + 1)) (w', l0)).
  { intros e w' Hw'. destruct (is_exception e); [|apply wp_raise; by split].
    apply fail_attempt_inv; [by split|]. simpl. lia. }
  assert (Hcatch : forall e p, attempt_inv base (n + 1) p ->
    (dl_session p.2 = None -> 0 <= dl_attempt p.2) ->
    (fun e w' => if is_exception e then
       wp (fail_attempt e) (fun _ => attempt_inv base (n + 1)) (fun _ => attempt_inv base (n + 1)) w'
     else attempt_inv base (n + 1) w') e p).
  { intros e p Hp Hatt. cbv beta. case_match; [by apply fail_attempt_inv|done]. }
  do 2 wp_step. cbv zeta. wp_step.
  assert (Hw0 : opened_within base (n + 1) w) by by (eapply opened_more; [|exact Hw]; lia).
  wp_step; [apply Hcatch; [by split|simpl; lia]|]. wp_step. apply wp_lift.
  set (m := (fun m => m - dl_transferred l) <$> maximum).
  assert (Hm : allowance_ok m).
  { unfold m, allowance_ok. destruct maximum as [b|]; [|done]. simpl in *. reflect_bools. lia. }
  assert (Hlog : forall w', opens w' = opens w ++ [m] -> opened_within base (n + 1) w').
  { intros w' Heq. destruct Hw as (log & Hlog & Hlen & Hall). exists (log ++ [m]).
    rewrite Heq, Hlog, app_assoc, py_len_app. change (py_len [m]) with 1.
    split_and!; [done|lia|]. apply Forall_app. split; [done|by apply Forall_singleton]. }
  eapply wp_mono; [apply open_logs|..]; cbv beta.
  2: { intros e w' Heq. apply Hcatch; [|simpl; lia]. split; [by apply Hlog|done]. }
  intros s w' Heq. wp_step. unfold set_locals. wp_step.
  eapply wp_mono; [apply (with_session_inv base (n + 1) s _ (archive_session_inv base (n + 1) s))|..];
    cbv beta.
  - split; [split; [by apply Hlog|done]|done].
  - intros a p [Hp _]. done.
  - intros e p [Hp Hs]. apply Hcatch; [done|]. by rewrite Hs.
Qed.

Lemma attempts_inv base more : forall n k p,
  attempt_inv base n p ->
  wp (attempts more k is_retryable (download_attempt registered maximum))
    (fun _ => attempt_inv base (n + 1 + Z.of_nat more))
    (fun _ => attempt_inv base (n + 1 + Z.of_nat more)) p.
Proof.
  assert (Hmono : forall a b p, a <= b -> attempt_inv base a p -> attempt_inv base b p).
  { intros a b p Hab [Hw Hl]. split; [by eapply opened_more|done]. }
  induction more as [|more IH]; intros n k p Hp; simpl.
  - eapply wp_mono; [by apply download_attempt_inv|..]; cbv beta; intros ? ?; apply Hmono; lia.
  - wp_step. eapply wp_mono; [by apply download_attempt_inv|..]; cbv beta.
    + intros a p'. apply Hmono. lia.
    + intros e p' Hp'. case_match; [|wp_step; revert Hp'; apply Hmono; lia].
      eapply wp_mono; [by apply IH|..]; cbv beta; intros ? ?; apply Hmono; lia.
Qed.

Lemma download_and_archive_bounded w :
  wp (download_and_archive policy registered maximum)
    (fun _ => opened_within (opens w) (download_attempts policy))
    (fun _ => opened_within (opens w) (download_attempts policy)) w.
Proof.
  pose proof (policy_ok_positive policy Hpolicy) as (_ & _ & Hatt & _).
  assert (Hzero : opened_within (opens w) 0 w).
  { exists []. rewrite app_nil_r. split_and!; [done|done|constructor]. }
  unfold download_and_archive. wp_step.
  eapply wp_mono; [apply (keep_opens (opens w) 0); [intros; apply transition_opens|done]|..];
    cbv beta; [|intros e w'; apply opened_more; lia].
  intros _ w' Hw'. unfold with_locals, wp at 1. rewrite retrying_attempts by done.
  pose proof (attempts_inv (opens w) (Z.to_nat (download_attempts policy) - 1) 0 1
    (w', {| dl_transferred := 0; dl_attempt := 0; dl_session := None |})) as Ha.
  unfold wp in Ha. destruct (attempts _ _ _ _ _) as [[a|e] [w2 l2]];
    (eapply opened_more; [|apply Ha; split; [done|simpl; lia]]; lia).
Qed.
End download.

(** Staging one document, end to end: reading the archived bytes, parsing and batching. *)
Section document.
Context {W Session Chunks : Type}.
Context `{StagingLog W} `{!StagingCounts W} `{!RawArchive W Session Chunks}
  `{!DocumentParser W Chunks} `{!ReadsOnly W Session Chunks}.
Variable policy : IngestionPolicy.
Variable sid : uuid.
Hypothesis Hpolicy : policy_ok policy.

(** Some parse of the document [key] produced [parsed]. *)
Definition parsed_as (rf : RemoteFile) (key : pystr) (parsed : list ParsedEvent * option exn) : Prop :=
  exists chunks w0 w1 w2, open_archive key w0 = (Returned chunks, w1) /\
    parse chunks sid (rf_document_type rf) (rf_compression rf) (rf_original_filename rf) w1 =
      (Returned parsed, w2).

(** What an interrupted staging leaves: whole batches that are a prefix of what some
    parse of the document produced. *)
Definition staged_prefix (rf : RemoteFile) (key : pystr) (base : list (list ParsedEvent)) (w : W) : Prop :=
  staged_batches sid base w \/
  exists parsed, parsed_as rf key parsed /\ partial policy sid base parsed.1 w.

(** Whatever [close_archive] answers, what is stored stays. *)
Lemma close_keeps {A} (c : Chunks) l (k : M W A) (Q : A -> W -> Prop) (E : exn -> W -> Prop) w :
  staged_batches sid l w ->
  (forall w', staged_batches sid l w' -> wp k Q E w') ->
  (forall e w', staged_batches sid l w' -> E e w') ->
  wp (close_archive c ;; k) Q E w.
Proof.
  intros Hl Hk He. wp_step.
  eapply wp_mono; [by apply (close_stages_nothing (Session := Session) c sid l)|..]; cbv beta; auto.
Qed.

Lemma read_stream_spec rf key base w :
  staged_batches sid base w ->
  wp (read_stream policy sid rf key)
    (fun l w' => exists parsed batches, parsed_as rf key parsed /\ parsed.2 = None /\
       staged_batches sid (base ++ batches) w' /\ loop_inv policy parsed.1 batches l /\
       counts_inv parsed.1 l)
    (fun _ w' => staged_prefix rf key base w') w.
Proof.
  intros Hw. unfold read_stream. wp_step.
  pose proof (open_stages_nothing (Session := Session) key sid base w Hw) as Ho.
  apply wp_intro; [intros chunks w1 Hopen|intros e w1 Hopen; left; by apply (wp_raised _ _ _ _ _ _ Ho Hopen)].
  pose proof (wp_returned _ _ _ _ _ _ Ho Hopen) as Hw1. cbv beta in Hw1.
  pose proof (parse_stages_nothing (Session := Session) chunks sid (rf_document_type rf)
    (rf_compression rf) (rf_original_filename rf) sid base w1 Hw1) as Hp.
  do 3 wp_step. apply wp_intro.
  - intros parsed w2 Hparse. pose proof (wp_returned _ _ _ _ _ _ Hp Hparse) as Hw2. cbv beta in Hw2.
    assert (Hpa : parsed_as rf key parsed) by (exists chunks, w, w1, w2; done).
    eapply wp_mono; [apply wp_and;
      [by apply (stage_stream_spec policy sid Hpolicy parsed base w2)|apply stage_stream_counts]|..];
      cbv beta.
    + intros l w3 [(batches & Hb & Hl & Hend) Hc]. apply (close_keeps chunks (base ++ batches)); [done|..].
      * intros w4 Hw4. wp_step. exists parsed, batches. by split_and!.
      * intros e w4 Hw4. right. exists parsed. split; [done|]. by eapply loop_inv_partial.
    + intros e w3 [(batches & Hb & Hok & Hpre) _].
      assert (Hpart : forall w4, staged_batches sid (base ++ batches) w4 -> staged_prefix rf key base w4).
      { intros w4 Hw4. right. exists parsed. split; [done|]. by exists batches. }
      apply (close_keeps chunks (base ++ batches)); [done|..]; [intros w4 Hw4; wp_step|intros e' w4 Hw4]; auto.
  - intros e w2 Hparse. pose proof (wp_raised _ _ _ _ _ _ Hp Hparse) as Hw2. cbv beta in Hw2.
    apply (close_keeps chunks base); [done|..]; [intros w4 Hw4; wp_step|intros e' w4 Hw4]; by left.
Qed.

Lemma parse_and_stage_spec rf key base w :
  staged_batches sid base w ->
  wp (parse_and_stage policy sid rf key)
    (fun s w' => exists parsed batches, parsed_as rf key parsed /\ parsed.2 = None /\
       staged_batches sid (base ++ batches) w' /\ Forall (batch_ok policy) batches /\
       concat batches = parsed.1 /\ same_counts s (stage_events parsed.1))
    (fun _ w' => staged_prefix rf key base w') w.
Proof.
  intros Hw. unfold parse_and_stage. wp_step.
  eapply wp_mono; [by apply (read_stream_spec rf key base)|..]; cbv beta; [|done].
  intros l w1 (parsed & batches & Hpa & Hend & Hb & Hl & Hc).
  eapply wp_mono; [apply wp_and;
    [by apply (flush_rest_spec policy sid parsed.1 batches l base w1)|
     by apply (flush_rest_counts sid parsed.1 l w1)]|..]; cbv beta.
  - intros s w2 [(batches' & ? & ? & ?) ?]. exists parsed, batches'. by split_and!.
  - intros e w2 [Hp _]. right. eauto.
Qed.
End document.

(** What the ingestion service relies on, as classes over its ports: how the repository
    moves a file through its lifecycle, and that everything else leaves lifecycles alone.
    [PostgresRepository.v] discharges the repository's part. *)
(** [file_status] observes the stored status of a file; [consistent] is the storage
    invariant; [may_write] says the session may write the file (it holds the file's lock,
    or none at all). *)
Class FileStore (W : Type) := {
  file_status : uuid -> W -> option IngestionStatus;
  consistent : W -> Prop;
  may_write : uuid -> W -> Prop
}.

Section quiet.
Context {W : Type} `{!FileStore W}.

Definition same_statuses (w w' : W) : Prop := forall k, file_status k w' = file_status k w.

(** What a step keeps that is not about lifecycles. *)
Definition undisturbed (w w' : W) : Prop :=
  consistent w' /\ same_statuses w w' /\ forall k, may_write k w -> may_write k w'.

Definition quiet {A} (m : M W A) : Prop :=
  forall w, consistent w -> wp m (fun _ w' => undisturbed w w') (fun _ w' => undisturbed w w') w.

(** The step of one file from its status to [target]. *)
Definition moved (sid : uuid) (target : IngestionStatus) (w w' : W) : Prop :=
  consistent w' /\ file_status sid w' = Some target /\
  (forall k, k <> sid -> file_status k w' = file_status k w) /\
  forall k, may_write k w -> may_write k w'.
End quiet.

(** The repository. *)
Class FileLifecycle (W : Type) `{IngestionRepository W, !FileStore W} : Prop := {
  transition_moves : forall sid expected target code (w : W), consistent w ->
    wp (transition sid expected target code)
      (fun _ w' => (exists cur, file_status sid w = Some cur /\ cur ∈ expected /\
          allowed cur target = true) /\ moved sid target w w')
      (fun _ w' => undisturbed w w') w;
  transition_succeeds : forall sid expected target code (w : W) cur,
    consistent w -> may_write sid w -> file_status sid w = Some cur -> cur ∈ expected ->
    expected <> [] -> allowed cur target = true -> code_too_long code = false ->
    exists w', transition sid expected target code w = (Returned tt, w');
  record_archive_moves : forall sid a version (w : W), consistent w ->
    wp (record_archive sid a version)
      (fun _ w' => file_status sid w = Some DOWNLOADING /\ moved sid ARCHIVED w w')
      (fun _ w' => undisturbed w w') w;
  get_reads : forall sid (w : W), consistent w ->
    wp (repo_get sid)
      (fun reg w' => undisturbed w w' /\ reg_source_file_id reg = sid /\
         file_status sid w = Some (reg_status reg))
      (fun _ w' => undisturbed w w' /\ (may_write sid w -> file_status sid w = None)) w;
  register_reads : forall rf owned (w : W), consistent w ->
    wp (register_discovery rf owned)
      (fun reg w' => consistent w' /\ (forall k, may_write k w -> may_write k w') /\
         file_status (reg_source_file_id reg) w' = Some (reg_status reg) /\
         (forall k, k <> reg_source_file_id reg -> file_status k w' = file_status k w) /\
         (file_status (reg_source_file_id reg) w = Some (reg_status reg) \/
          file_status (reg_source_file_id reg) w = None /\ reg_status reg = DISCOVERED) /\
         (owned = true -> may_write (reg_source_file_id reg) w'))
      (fun _ w' => undisturbed w w') w;
  quiet_assert_allowed : forall r, quiet (assert_ingestion_allowed r);
  quiet_archive_sha256 : forall sid, quiet (archive_sha256 sid);
  quiet_reuse : forall sid v d c, quiet (reuse_validated_staging sid v d c);
  quiet_stage : forall sid b, quiet (stage sid b);
  quiet_finalize : forall sid d, quiet (finalize_staging sid d);
  quiet_has_quarantine : forall sid, quiet (has_file_quarantine_issue sid);
  quiet_apply : forall sid d m f, quiet (apply_staged sid d m f);
  quiet_begin_replay : forall sid v r, quiet (begin_replay sid v r);
  quiet_finish_replay : forall rid b c, quiet (finish_replay rid b c)
}.

(** The archive, the transports and the parser do not write lifecycles. *)
Class QuietPorts (W Session Chunks : Type) `{!FileStore W, !RawArchive W Session Chunks,
    !Downloader W Session, !DocumentParser W Chunks} : Prop := {
  quiet_put : forall (s : Session) n, quiet (archive_put s n);
  quiet_open_archive : forall k, quiet (open_archive k);
  quiet_close_archive : forall c : Chunks, quiet (close_archive c);
  quiet_verify : forall k d, quiet (archive_verify k d);
  quiet_open_download : forall rf m, quiet (open_download rf m);
  quiet_transferred : forall s : Session, quiet (session_transferred s);
  quiet_finish : forall (s : Session) n, quiet (session_finish s n);
  quiet_close_session : forall s : Session, quiet (close_session s);
  quiet_parse : forall (c : Chunks) sid d k n, quiet (parse c sid d k n)
}.

(** Leases come and go without touching lifecycles; releasing a held one succeeds. *)
Class FileLeases (W : Type) `{!FileStore W, !LeaseManager W} : Prop := {
  acquire_keeps : forall r o t (w : W), consistent w ->
    wp (lease_acquire r o t) (fun _ w' => consistent w' /\ same_statuses w w')
      (fun _ w' => consistent w' /\ same_statuses w w') w;
  release_keeps : forall r (w : W), consistent w ->
    wp (lease_release r) (fun _ w' => consistent w' /\ same_statuses w w')
      (fun _ _ => False) w
}.

Create HintDb quiet.

Section service.
Context {W Session Chunks : Type}.
Context `{IngestionRepository W} `{!RawArchive W Session Chunks} `{!Downloader W Session}
  `{!DocumentParser W Chunks} `{!LeaseManager W} `{!Retrying} `{!FileStore W}
  `{!FileLifecycle W} `{!QuietPorts W Session Chunks} `{!FileLeases W} `{!RetryingOk}.
Variable policy : IngestionPolicy.
Variable worker_id : pystr.
Hypothesis Hpolicy : policy_ok policy.

(** ** Working on one file *)

(** The session owns [sid], and no other file moved since [w0]. *)
Definition owned (sid : uuid) (w0 w : W) : Prop :=
  consistent w /\ may_write sid w /\ is_Some (file_status sid w) /\
  forall k, k <> sid -> file_status k w = file_status k w0.

(** Besides where the file was at the start, the statuses the service's work brings it to. *)
Definition stages : list IngestionStatus :=
  [DOWNLOADING; ARCHIVED; PARSING; STAGED; VALIDATING; APPLYING].
Definition is_stage (st : IngestionStatus) : bool := bool_decide (st ∈ stages).

Definition working (sid : uuid) (w0 w : W) : Prop :=
  owned sid w0 w /\ exists st, file_status sid w = Some st /\
    (file_status sid w0 = Some st \/ is_stage st = true).

Lemma owned_start sid w : owned sid w w -> working sid w w.
Proof. intros Hw. split; [done|]. destruct Hw as (_ & _ & [st Hst] & _). eauto. Qed.

Lemma undisturbed_owned sid w0 w w' : owned sid w0 w -> undisturbed w w' -> owned sid w0 w'.
Proof.
  intros (Hc & Hm & Hs & Ho) (Hc' & Hsame & Hm'). split_and!; [done|auto|by rewrite Hsame|].
  intros k Hk. rewrite Hsame. auto.
Qed.

Lemma moved_owned sid target w0 w w' :
  owned sid w0 w -> moved sid target w w' -> owned sid w0 w'.
Proof.
  intros (Hc & Hm & Hs & Ho) (Hc' & Hst & Hoth & Hm').
  split_and!; [done|auto|rewrite Hst; eauto|]. intros k Hk. rewrite Hoth by done. auto.
Qed.

Lemma undisturbed_working sid w0 w w' : working sid w0 w -> undisturbed w w' -> working sid w0 w'.
Proof.
  intros [Hw (st & Hst & Hor)] Hu. split; [by eapply undisturbed_owned|].
  exists st. destruct Hu as (_ & -> & _). done.
Qed.

Lemma moved_working sid target w0 w w' :
  is_stage target = true -> working sid w0 w -> moved sid target w w' -> working sid w0 w'.
Proof.
  intros Ht [Hw _] Hm. split; [by eapply moved_owned|]. exists target. split; [apply Hm|auto].
Qed.

Lemma quiet_working {A} sid w0 (m : M W A) : quiet m -> preserves (working sid w0) m.
Proof.
  intros Hm w Hw. eapply wp_mono; [apply Hm, Hw|..]; cbv beta; eauto using undisturbed_working.
Qed.

Lemma transition_working sid w0 expected target code :
  is_stage target = true -> preserves (working sid w0) (transition sid expected target code).
Proof.
  intros Ht w Hw. eapply wp_mono; [apply transition_moves, Hw|..]; cbv beta.
  - intros _ w' [_ Hm]. by eapply moved_working.
  - eauto using undisturbed_working.
Qed.

Lemma record_archive_working sid w0 a v : preserves (working sid w0) (record_archive sid a v).
Proof.
  intros w Hw. eapply wp_mono; [apply record_archive_moves, Hw|..]; cbv beta.
  - intros _ w' [_ Hm]. by apply (moved_working sid ARCHIVED w0 w w' eq_refl).
  - eauto using undisturbed_working.
Qed.

Lemma repo_get_working sid w0 k : preserves (working sid w0) (repo_get k).
Proof.
  intros w Hw. eapply wp_mono; [apply get_reads, Hw|..]; cbv beta.
  - intros _ w' [? _]. eauto using undisturbed_working.
  - intros _ w' [? _]. eauto using undisturbed_working.
Qed.

Hint Resolve quiet_assert_allowed quiet_archive_sha256 quiet_reuse quiet_stage quiet_finalize
  quiet_has_quarantine quiet_apply quiet_begin_replay quiet_finish_replay : quiet.
Hint Extern 1 (quiet _) => first
  [ apply (quiet_put (Session := Session) (Chunks := Chunks))
  | apply (quiet_open_archive (Session := Session) (Chunks := Chunks))
  | apply (quiet_close_archive (Session := Session) (Chunks := Chunks))
  | apply (quiet_verify (Session := Session) (Chunks := Chunks))
  | apply (quiet_open_download (Session := Session) (Chunks := Chunks))
  | apply (quiet_transferred (Session := Session) (Chunks := Chunks))
  | apply (quiet_finish (Session := Session) (Chunks := Chunks))
  | apply (quiet_close_session (Session := Session) (Chunks := Chunks))
  | apply (quiet_parse (Session := Session) (Chunks := Chunks)) ] : quiet.
Hint Extern 1 (preserves _ _) =>
  (apply quiet_working; solve [auto with quiet nocore]) : preserves.
Hint Extern 1 (preserves _ (transition _ _ _ _)) =>
  (apply transition_working; reflexivity) : preserves.
Hint Resolve record_archive_working repo_get_working : preserves.

(** ** The download loop keeps ownership *)

Lemma preserves_attempts {V A} (I : V -> Prop) p (body : Z -> M V A) more n :
  (forall k, preserves I (body k)) -> preserves I (attempts more n p body).
Proof.
  intros Hb. revert n. induction more as [|more IH]; intros n; simpl; [apply Hb|].
  apply preserves_try_with; [apply Hb|]. intros e. destruct (p e); auto with preserves.
Qed.

Lemma preserves_retrying {V A} (I : V -> Prop) limit p (body : Z -> M V A) :
  0 < limit -> (forall k, preserves I (body k)) -> preserves I (retrying limit p body).
Proof.
  intros Hl Hb v Hv. pose proof (preserves_attempts I p body (Z.to_nat limit - 1) 1 Hb v Hv) as Ha.
  unfold wp in *. by rewrite retrying_attempts.
Qed.

Hint Extern 1 (preserves _ (lift _)) => apply preserves_lift : preserves.

Lemma download_attempt_working sid w0 registered maximum n :
  reg_source_file_id registered = sid ->
  preserves (fun p => working sid w0 p.1) (download_attempt registered maximum n).
Proof.
  intros <-. unfold download_attempt, with_session, archive_session, fail_attempt,
    ArchiveReceipt_post_init, ArchivedDownload_post_init, ensure_aware.
  preserve; apply preserves_lift; preserve.
Qed.

Lemma download_and_archive_working sid w0 registered maximum :
  reg_source_file_id registered = sid ->
  preserves (working sid w0) (download_and_archive policy registered maximum).
Proof.
  intros Hsid. unfold download_and_archive. rewrite Hsid. preserve.
  apply preserves_with_locals, preserves_retrying.
  - apply (policy_ok_positive policy Hpolicy).
  - intros k. by apply download_attempt_working.
Qed.

Lemma ensure_archived_working sid w0 registered maximum :
  reg_source_file_id registered = sid ->
  preserves (working sid w0) (ensure_archived policy registered maximum).
Proof.
  intros Hsid. unfold ensure_archived, ensure_archive_length. preserve.
  by apply download_and_archive_working.
Qed.

Lemma with_lease_result {A} resource owner ttl (body : bool -> M W A) (P : A -> Prop) v :
  (forall b v', wp (body b) (fun x _ => P x) (fun _ _ => True) v') ->
  wp (with_lease resource owner ttl body) (fun x _ => P x) (fun _ _ => True) v.
Proof.
  intros Hb. unfold with_lease. apply wp_skip. intros b v0. wp_step. wp_step.
  eapply wp_mono; [apply Hb|..]; cbv beta.
  - intros a v1 Ha. apply wp_skip. intros _ v2. by wp_step.
  - intros e v1 _. wp_step. eapply wp_mono; [apply wp_true| |done]. intros _ v2 _. by wp_step.
Qed.

(** The bytes an archived file is charged are not negative. *)
Lemma attempts_returns {V A} (P : A -> Prop) p (body : Z -> M V A) more :
  (forall k v, wp (body k) (fun a _ => P a) (fun _ _ => True) v) ->
  forall n v, wp (attempts more n p body) (fun a _ => P a) (fun _ _ => True) v.
Proof.
  intros Hb. induction more as [|more IH]; intros n v; simpl; [apply Hb|].
  wp_step. eapply wp_mono; [apply Hb|done|]; cbv beta.
  intros e v' _. by destruct (p e).
Qed.

Lemma with_session_result {A} s (body : M (W * @dl_locals Session) A) (P : A -> Prop) v :
  (forall v', wp body (fun x _ => P x) (fun _ _ => True) v') ->
  wp (with_session s body) (fun x _ => P x) (fun _ _ => True) v.
Proof.
  intros Hb. unfold with_session. wp_step. wp_step. eapply wp_mono; [apply Hb|..]; cbv beta.
  - intros a v1 Ha. apply wp_skip. intros _ v2. by wp_step.
  - intros e v1 _. wp_step. eapply wp_mono; [apply wp_true| |done]. intros _ v2 _. by wp_step.
Qed.

Lemma download_attempt_bytes registered maximum n v :
  wp (download_attempt registered maximum n) (fun x _ => 0 <= ad_transferred_bytes x.1)
    (fun _ _ => True) v.
Proof.
  unfold download_attempt. apply wp_skip. intros _ v1. wp_step.
  apply (wp_mono _ (fun x _ => 0 <= ad_transferred_bytes x.1) _ (fun _ _ => True)); [|done|].
  - do 4 (apply wp_skip; intros ? ?). apply with_session_result. intros v2.
    unfold archive_session. apply wp_skip. intros [[key n0] created] v3.
    do 7 (apply wp_skip; intros ? ?). wp_step. unfold ArchivedDownload_post_init.
    match goal with |- wp (lift _) _ _ ?p => destruct p end. apply wp_lift. wp_step; [done|]. wp_step. simpl in *. by reflect_bools.
  - cbv beta. intros e v2 _. destruct (is_exception e); [|done].
    unfold fail_attempt. do 3 (apply wp_skip; intros ? ?). by repeat wp_step.
Qed.

Lemma ensure_archived_bytes registered maximum w :
  wp (ensure_archived policy registered maximum) (fun x _ => 0 <= x.2) (fun _ _ => True) w.
Proof.
  unfold ensure_archived. destruct (reg_archive_object_key registered).
  - do 3 (apply wp_skip; intros ? ?). by wp_step.
  - wp_step. unfold download_and_archive. wp_step.
    eapply wp_mono; [apply wp_true| |done]; cbv beta. intros _ w1 _.
    unfold with_locals, wp. rewrite retrying_attempts by apply (policy_ok_positive policy Hpolicy).
    pose proof (attempts_returns (fun x => 0 <= ad_transferred_bytes x.1) is_retryable _
      (Z.to_nat (download_attempts policy) - 1) (download_attempt_bytes registered maximum) 1
      (w1, no_download)) as Ha.
    unfold wp in Ha. destruct (attempts _ _ _ _ _) as [[[a dup]|e] [w2 l]]; [|done].
    exact Ha.
Qed.

(** ** Parsing, staging and applying *)

Lemma flush_batch_working sid w0 k l : preserves (working sid w0) (flush_batch k l).
Proof. unfold flush_batch. preserve. Qed.
Hint Resolve flush_batch_working : preserves.

Lemma stage_event_working sid w0 k l e : preserves (working sid w0) (stage_event policy k l e).
Proof.
  unfold stage_event, count_issue, ensure_validation_issue_attempt_within_limits,
    ensure_stage_event_within_limits. preserve.
Qed.
Hint Resolve stage_event_working : preserves.

Lemma stage_each_working sid w0 k events l : preserves (working sid w0) (stage_each policy k l events).
Proof. revert l. induction events as [|e events IH]; intros l; simpl; preserve. Qed.
Hint Resolve stage_each_working : preserves.

Lemma parse_and_stage_working sid w0 k rf key :
  preserves (working sid w0) (parse_and_stage policy k rf key).
Proof. unfold parse_and_stage, read_stream, stage_stream, flush_rest. preserve. Qed.
Hint Resolve parse_and_stage_working : preserves.

(** It completes the file, from the validated and applied staging. *)
Lemma parse_validate_apply_completes sid w0 rf key w :
  working sid w0 w ->
  wp (parse_validate_apply policy sid rf key true)
    (fun _ w' => owned sid w0 w' /\ file_status sid w' = Some COMPLETED)
    (fun _ w' => working sid w0 w') w.
Proof.
  intros Hw. unfold parse_validate_apply, when.
  assert (Hstep : forall A B (m : M W A) (f : A -> M W B) Q w, working sid w0 w ->
    preserves (working sid w0) m ->
    (forall a w', working sid w0 w' -> wp (f a) Q (fun _ w' => working sid w0 w') w') ->
    wp (m ≫= f) Q (fun _ w' => working sid w0 w') w).
  { intros A B m f Q v Hv Hm Hf. wp_step. eapply wp_mono; [by apply Hm|auto|auto]. }
  do 10 (apply Hstep; [done|solve [preserve]|intros ? ? ?]).
  wp_step. eapply wp_mono; [apply transition_moves; by destruct H11 as [[??] _]|..]; cbv beta.
  - intros _ v [_ Hm]. wp_step. split; [eapply moved_owned; [apply H11|done]|apply Hm].
  - eauto using undisturbed_working.
Qed.

(** ** Replays *)

(** Nothing has moved since [w0]. *)
Definition unmoved (w0 w : W) : Prop := consistent w /\ same_statuses w0 w.

Lemma quiet_unmoved {A} w0 (m : M W A) : quiet m -> preserves (unmoved w0) m.
Proof.
  intros Hm w [Hc Hs]. eapply wp_mono; [by apply Hm|..]; cbv beta;
    intros ? w' (Hc' & Hs' & _); split; try done; intros k; by rewrite Hs'.
Qed.
Hint Extern 1 (preserves (unmoved _) _) =>
  (apply quiet_unmoved; solve [auto with quiet nocore]) : preserves.

Lemma repo_get_unmoved w0 k : preserves (unmoved w0) (repo_get k).
Proof.
  intros w [Hc Hs]. eapply wp_mono; [by apply get_reads|..]; cbv beta;
    [intros a w' [(Hc' & Hs' & _) _]|intros e w' [(Hc' & Hs' & _) _]];
    (split; [done|]); intros j; by rewrite Hs'.
Qed.

Lemma with_lease_unmoved {A} w0 resource owner ttl (body : bool -> M W A) :
  (forall b, preserves (unmoved w0) (body b)) ->
  preserves (unmoved w0) (with_lease resource owner ttl body).
Proof.
  intros Hb. unfold with_lease.
  assert (Hr : preserves (unmoved w0) (lease_release resource)).
  { intros w [Hc Hs]. eapply wp_mono; [by apply release_keeps| |done]; cbv beta.
    intros ? w' [Hc' Hs']. split; [done|]. intros k. by rewrite Hs'. }
  assert (Ha : preserves (unmoved w0) (lease_acquire resource owner ttl)).
  { intros w [Hc Hs]. eapply wp_mono; [by apply acquire_keeps|..]; cbv beta;
      intros ? w' [Hc' Hs']; (split; [done|]); intros k; by rewrite Hs'. }
  preserve; done || apply Hb.
Qed.

Lemma flush_batch_unmoved w0 k l : preserves (unmoved w0) (flush_batch k l).
Proof. unfold flush_batch. preserve. Qed.
Hint Resolve repo_get_unmoved flush_batch_unmoved : preserves.

Lemma stage_each_unmoved w0 k events l : preserves (unmoved w0) (stage_each policy k l events).
Proof.
  revert l. induction events as [|e events IH]; intros l; simpl; preserve.
  all: unfold stage_event, count_issue, ensure_validation_issue_attempt_within_limits,
    ensure_stage_event_within_limits; preserve.
Qed.
Hint Resolve stage_each_unmoved : preserves.

Lemma replay_keeps w0 sid rebuild :
  preserves (unmoved w0) (replay policy worker_id sid rebuild).
Proof.
  unfold replay, replay_registered. preserve. apply with_lease_unmoved. intros b.
  unfold ensure_archive_length, parse_validate_apply, parse_and_stage, read_stream,
    stage_stream, flush_rest, IngestionResult_post_init. simpl. preserve.
Qed.

Lemma replay_result sid rebuild w :
  wp (replay policy worker_id sid rebuild)
    (fun r _ => ir_status r = COMPLETED /\ ir_replayed r = true /\ ir_transferred_bytes r = 0)
    (fun _ _ => True) w.
Proof.
  unfold replay. do 2 (apply wp_skip; intros ? ?). wp_step.
  apply (wp_mono _ (fun x _ => ir_status x.1 = COMPLETED /\ ir_replayed x.1 = true /\
    ir_transferred_bytes x.1 = 0) _ (fun _ _ => True)); [|by intros [r rid] w1 ?; wp_step|done].
  unfold replay_registered. apply with_lease_result. intros b w1.
  apply wp_skip. intros ? ?. apply wp_skip. intros current w2.
  destruct (reg_archive_object_key current), (reg_content_sha256 current); try by wp_step.
  do 3 (apply wp_skip; intros ? ?). apply wp_skip. intros [stage applied] ?.
  do 2 (apply wp_skip; intros ? ?). by wp_step.
Qed.

(** ** Recording a failure *)

(** The statuses an ingestion may rest in. *)
Definition settled (st : IngestionStatus) : bool :=
  bool_decide (st ∈ [COMPLETED; QUARANTINED; FAILED_RETRYABLE; FAILED_TERMINAL]).

(** Only a resumed failure can be asked to fail the same way again. *)
Lemma failure_target_allowed cur e :
  terminal cur = false ->
  allowed cur (failure_target cur e) = true \/
  cur = FAILED_RETRYABLE /\ failure_target cur e = FAILED_RETRYABLE.
Proof.
  unfold failure_target. intros Hcur.
  destruct cur; try discriminate Hcur; clear Hcur; cbn;
    destruct (is_quarantine_error e), e as [c ?|]; cbn; try destruct (retryable c); auto.
Qed.

Lemma failure_target_settled cur e : settled (failure_target cur e) = true.
Proof. unfold failure_target. repeat case_match; done. Qed.

Lemma error_code_short e : code_too_long (Some (error_code e)) = false.
Proof. destruct e as [c ?|c]; [destruct c|]; reflexivity. Qed.

(** Where a file in [cur] is left when [e] is recorded. *)
Definition failed_status (cur : IngestionStatus) (e : exn) : IngestionStatus :=
  if terminal cur then cur else failure_target cur e.

Lemma record_failure_spec sid w0 e w :
  owned sid w0 w ->
  wp (record_failure sid e)
    (fun _ w' => owned sid w0 w' /\ exists cur, file_status sid w = Some cur /\
       file_status sid w' = Some (failed_status cur e))
    (fun _ w' => owned sid w0 w' /\ file_status sid w = Some FAILED_RETRYABLE /\
       failure_target FAILED_RETRYABLE e = FAILED_RETRYABLE /\
       file_status sid w' = Some FAILED_RETRYABLE) w.
Proof.
  intros Hw. unfold record_failure. wp_step.
  eapply wp_mono; [apply get_reads, Hw|..]; cbv beta.
  2: { intros e' w' [Hu Hnone]. destruct Hw as (_ & Hm & [st Hst] & _).
       rewrite Hnone in Hst by done. discriminate. }
  intros reg w1 (Hu & <- & Hst). pose proof (undisturbed_owned _ _ _ _ Hw Hu) as Hw1.
  destruct Hu as (_ & Hsame & _).
  assert (Hterm : bool_decide (reg_status reg ∈ [COMPLETED; QUARANTINED; FAILED_TERMINAL])
    = terminal (reg_status reg)) by done.
  unfold failed_status. rewrite Hterm. destruct (terminal (reg_status reg)) eqn:Ht.
  - wp_step. split; [done|]. eexists. split; [done|]. by rewrite Ht, Hsame.
  - destruct (failure_target_allowed (reg_status reg) e Ht) as [Hal|[Hfr Htgt]].
    + destruct (transition_succeeds (reg_source_file_id reg) [reg_status reg]
        (failure_target (reg_status reg) e) (Some (error_code e)) w1 (reg_status reg))
        as [w2 Hrun]; try done; [apply Hw1|apply Hw1|by rewrite Hsame|by left|
        by apply error_code_short|].
      pose proof (transition_moves (reg_source_file_id reg) [reg_status reg]
        (failure_target (reg_status reg) e) (Some (error_code e)) w1 (proj1 Hw1)) as Hmv.
      unfold wp in *. rewrite Hrun in *. destruct Hmv as [_ Hmv].
      split; [eauto using moved_owned|]. eexists. split; [done|]. rewrite Ht. apply Hmv.
    + eapply wp_mono; [apply transition_moves, Hw1|..]; cbv beta.
      * intros _ w2 [(cur & Hc & _ & Hal) _]. rewrite Hsame, Hst in Hc. simplify_eq.
        rewrite Htgt, Hfr in Hal. by rewrite allowed_irrefl in Hal.
      * intros e' w2 Hu2. rewrite Hfr in Hst. split_and!; [eauto using undisturbed_owned|done| |].
        -- by rewrite Hfr in Htgt.
        -- destruct Hu2 as (_ & -> & _). by rewrite Hsame.
Qed.

(** ** The outcome of one owned ingestion *)

Lemma failed_status_settled cur e : settled (failed_status cur e) = true.
Proof.
  unfold failed_status. destruct (terminal cur) eqn:Ht; [by destruct cur|].
  apply failure_target_settled.
Qed.

(** How a failed ingestion leaves its file: as the error it raises says, given where the
    file was; only a resumed failure may stay as it was. *)
Definition failure_recorded (sid : uuid) (w0 : W) (e : exn) (w : W) : Prop :=
  exists cur st, (file_status sid w0 = Some cur \/ is_stage cur = true) /\
    file_status sid w = Some st /\
    (st = failed_status cur e \/ cur = FAILED_RETRYABLE /\ st = cur).

Lemma failure_recorded_settled sid w0 e w : failure_recorded sid w0 e w ->
  exists st, file_status sid w = Some st /\ settled st = true.
Proof.
  intros (cur & st & _ & Hst & [->|[-> ->]]); eauto using failed_status_settled.
Qed.

Definition ended (sid : uuid) (w0 : W) (e : exn) (w : W) : Prop :=
  owned sid w0 w /\ (is_exception e = true -> failure_recorded sid w0 e w).

Lemma on_error_spec {A} sid w0 n e (Q : A -> W -> Prop) w :
  working sid w0 w -> wp (on_error sid n e) Q (ended sid w0) w.
Proof.
  intros [Hw (cur & Hcur & Hor)]. unfold on_error. wp_step.
  assert (Hor' : file_status sid w0 = Some cur \/ is_stage cur = true).
  { destruct Hor; auto. }
  eapply wp_mono; [by apply record_failure_spec|..]; cbv beta.
  - intros _ w' (Ho & cur' & Hc' & Hst). simplify_eq. wp_step. split; [done|]. intros _.
    eexists _, _. split_and!; [exact Hor'|exact Hst|by left].
  - intros e' w' (Ho & Hfr & _ & Hst). simplify_eq. split; [done|]. intros _.
    exists FAILED_RETRYABLE, FAILED_RETRYABLE. auto.
Qed.

Lemma guarded_spec {A} sid w0 archive (rest : pystr * pystr * bool * Z -> M W A) P Q w :
  working sid w0 w -> preserves (working sid w0) archive ->
  wp archive (fun x _ => P x) (fun _ _ => True) w ->
  (forall x w', P x -> working sid w0 w' -> wp (rest x) Q (fun _ w' => working sid w0 w') w') ->
  wp (guarded sid archive rest) Q (ended sid w0) w.
Proof.
  intros Hw Ha HP Hr. unfold guarded. do 2 wp_step.
  eapply wp_mono; [apply wp_and; [by apply Ha|exact HP]|..]; cbv beta.
  - intros x w1 [Hw1 Hx]. wp_step. eapply wp_mono; [by apply Hr|done|]; cbv beta.
    intros e w2 Hw2. destruct (is_exception e) eqn:He; [by apply on_error_spec|].
    split; [apply Hw2|]. by rewrite He.
  - intros e w1 [Hw1 _]. destruct (is_exception e) eqn:He.
    + by apply on_error_spec.
    + split; [apply Hw1|]. by rewrite He.
Qed.

Lemma ingest_owned_spec current maximum w :
  owned (reg_source_file_id current) w w ->
  wp (ingest_owned policy current maximum)
    (fun r w' => owned (reg_source_file_id current) w w' /\
       file_status (reg_source_file_id current) w' = Some COMPLETED /\
       ir_source_file_id r = reg_source_file_id current /\ ir_status r = COMPLETED /\
       ir_replayed r = false /\ is_Some (ir_stage r) /\ is_Some (ir_apply r) /\
       0 <= ir_transferred_bytes r)
    (ended (reg_source_file_id current) w) w.
Proof.
  intros Hw. unfold ingest_owned.
  apply (guarded_spec _ _ _ _ (fun x => 0 <= x.2)); [by apply owned_start|
    by apply ensure_archived_working|by apply ensure_archived_bytes|].
  intros [[[key digest] duplicate] transferred] w1 Ht Hw1. unfold ingest_rest. wp_step.
  eapply wp_mono; [by apply (parse_validate_apply_completes _ w)|..]; cbv beta; [|done].
  intros [stage applied] w2 [Hw2 Hst]. cbv beta iota zeta.
  unfold IngestionResult_post_init. do 2 wp_step; simpl in *; reflect_bools; [lia|].
  wp_step. simpl. split_and!; eauto.
Qed.

Lemma archive_owned_spec current maximum w :
  owned (reg_source_file_id current) w w ->
  wp (archive_owned policy current maximum)
    (fun r w' => owned (reg_source_file_id current) w w' /\
       ir_source_file_id r = reg_source_file_id current /\ ir_status r = ARCHIVED /\
       ir_stage r = None /\ ir_apply r = None)
    (ended (reg_source_file_id current) w) w.
Proof.
  intros Hw. unfold archive_owned.
  apply (guarded_spec _ _ _ _ (fun x => 0 <= x.2)); [by apply owned_start|
    by apply ensure_archived_working|by apply ensure_archived_bytes|].
  intros [[[key digest] duplicate] transferred] w1 Ht Hw1. wp_step.
  eapply wp_mono; [apply (preserves_when (working (reg_source_file_id current) w));
    [by apply transition_working|done]| |done]; cbv beta.
  intros _ w2 Hw2. cbv zeta. unfold IngestionResult_post_init.
  do 2 wp_step; simpl in *; reflect_bools; [lia|]. wp_step. split_and!; try done; apply Hw2.
Qed.

(** The failure of the guarded [try] block is the failure of the block itself, recorded. *)
Lemma record_and_raise {A} sid n e0 (w : W) e w' :
  on_error (A := A) sid n e0 w = (Raised e, w') ->
  record_failure sid (propagated_error n e0) w = (Returned tt, w') /\ e = propagated_error n e0 \/
  record_failure sid (propagated_error n e0) w = (Raised e, w').
Proof.
  unfold on_error, mbind, M_bind, raise.
  destruct (record_failure sid (propagated_error n e0) w) as [[[]|e1] w1]; intros Hrun; simplify_eq; auto.
Qed.

Lemma on_error_raises {A} sid n e0 (w : W) (a : A) w' : on_error sid n e0 w <> (Returned a, w').
Proof.
  unfold on_error, mbind, M_bind, raise. by destruct (record_failure _ _ w) as [[?|?] ?].
Qed.

Lemma guarded_raises {A} sid archive (rest : pystr * pystr * bool * Z -> M W A) w e w' :
  guarded sid archive rest w = (Raised e, w') -> is_exception e = true ->
  exists e1 w1, (archived ← archive; rest archived) w = (Raised e1, w1) /\
    is_exception e1 = true /\
    let n := match (archive w).1 with Returned a => snd a | Raised _ => 0 end in
    (record_failure sid (propagated_error n e1) w1 = (Returned tt, w') /\ e = propagated_error n e1 \/
     record_failure sid (propagated_error n e1) w1 = (Raised e, w')).
Proof.
  unfold guarded, try_except, try_with, mbind, M_bind, raise. intros Hrun He.
  destruct (archive w) as [[a|e1] w1]; simpl.
  - destruct (rest a w1) as [[b|e1] w2]; [discriminate|]. exists e1, w2.
    destruct (is_exception e1) eqn:He1.
    + split_and!; [done..|]. by eapply record_and_raise.
    + injection Hrun as -> ->. congruence.
  - exists e1, w1. destruct (is_exception e1) eqn:He1.
    + split_and!; [done..|].
      destruct (on_error sid 0 e1 w1) as [[a|e2] w2] eqn:Hon; [by apply on_error_raises in Hon|].
      simplify_eq. by apply record_and_raise in Hon.
    + injection Hrun as -> ->. congruence.
Qed.

Lemma ingest_work_working current maximum w :
  owned (reg_source_file_id current) w w ->
  wp (ingest_work policy current maximum) (fun _ _ => True)
    (fun _ w' => working (reg_source_file_id current) w w') w.
Proof.
  intros Hw. unfold ingest_work. wp_step.
  eapply wp_mono; [apply wp_and; [by apply ensure_archived_working, owned_start|
    by apply ensure_archived_bytes]|..]; cbv beta; [|by intros ? ? [? _]].
  intros [[[key digest] duplicate] transferred] w1 [Hw1 Ht]. unfold ingest_rest. wp_step.
  eapply wp_mono; [by apply (parse_validate_apply_completes _ w)|..]; cbv beta; [|done].
  intros [stage applied] w2 [Hw2 Hst]. cbv beta iota zeta.
  unfold IngestionResult_post_init. do 2 wp_step; simpl in *; reflect_bools; [lia|]. by wp_step.
Qed.

(** ** The whole entry point *)

(** A property of the stored statuses only. *)
Definition status_property (P : W -> Prop) : Prop :=
  forall w w', same_statuses w w' -> P w -> P w'.

(** A lease around a body changes nothing the body's statuses show. *)
Lemma with_lease_spec {A} resource owner ttl (body : bool -> M W A) Q E w :
  consistent w -> (forall a, status_property (Q a)) -> (forall e, status_property (E e)) ->
  (forall e w', same_statuses w w' -> E e w') ->
  (forall b w', consistent w' -> same_statuses w w' ->
     wp (body b) (fun a w2 => consistent w2 /\ Q a w2) (fun e w2 => consistent w2 /\ E e w2) w') ->
  wp (with_lease resource owner ttl body) Q E w.
Proof.
  intros Hc HQ HE Hacq Hbody. unfold with_lease. wp_step.
  eapply wp_mono; [by apply acquire_keeps|..]; cbv beta; [|intros e w' [_ ?]; auto].
  intros b w1 [Hc1 Hs1]. wp_step. wp_step.
  assert (Hrel : forall R (w2 : W), consistent w2 -> (forall w3, same_statuses w2 w3 -> R w3) ->
    wp (when b (lease_release resource)) (fun _ w3 => R w3) (fun _ _ => False) w2).
  { intros R w2 Hc2 HR. wp_step; [|by apply HR].
    eapply wp_mono; [by apply release_keeps| |done]. intros _ w3 [_ ?]. auto. }
  eapply wp_mono; [by apply Hbody|..]; cbv beta.
  - intros a w2 [Hc2 Ha]. wp_step.
    eapply wp_mono; [apply (Hrel (Q a) w2 Hc2)| |done]; [intros w3 Hs; by eapply HQ|].
    intros ? w3 Hw3. by wp_step.
  - intros e w2 [Hc2 He]. wp_step.
    eapply wp_mono; [apply (Hrel (E e) w2 Hc2)| |done]; [intros w3 Hs; by eapply HE|].
    intros ? w3 Hw3. by wp_step.
Qed.

(** Every file keeps its status, except that files may have been registered, which then
    wait to be started. *)
Definition statuses_kept (w0 w : W) : Prop := forall k,
  file_status k w = file_status k w0 \/
  file_status k w0 = None /\ file_status k w = Some DISCOVERED.

(** What an ingestion may do to the files, known before or not: every one keeps its status
    or is registered and not started, but for the one worked on, which may have completed
    or failed instead. *)
Definition files_settled (w0 w : W) : Prop := exists sid, forall k,
  file_status k w = file_status k w0 \/
  file_status k w0 = None /\ file_status k w = Some DISCOVERED \/
  k = sid /\ exists st, file_status k w = Some st /\ settled st = true.

Lemma statuses_kept_settled w0 w : statuses_kept w0 w -> files_settled w0 w.
Proof. intros Hs. exists 0. intros k. destruct (Hs k); auto. Qed.

Lemma same_kept w w' : same_statuses w w' -> statuses_kept w w'.
Proof. intros Hs k. by left. Qed.

Lemma settled_property w0 : status_property (files_settled w0).
Proof. intros w w' Hs (sid & H'). exists sid. intros k. rewrite Hs. auto. Qed.

Lemma kept_trans w0 w1 w2 : statuses_kept w0 w1 -> statuses_kept w1 w2 -> statuses_kept w0 w2.
Proof.
  intros Hs1 Hs2 k. destruct (Hs1 k) as [E1|[N1 D1]], (Hs2 k) as [E2|[N2 D2]].
  - left. congruence.
  - right. split; congruence.
  - right. split; congruence.
  - congruence.
Qed.

Lemma kept_same w0 w w' : statuses_kept w0 w -> same_statuses w w' -> statuses_kept w0 w'.
Proof. intros Hk Hs. eapply kept_trans; eauto using same_kept. Qed.

(** Registering a file keeps the statuses. *)
Lemma registered_kept sid st (w w' : W) :
  file_status sid w' = Some st -> (forall k, k <> sid -> file_status k w' = file_status k w) ->
  file_status sid w = Some st \/ file_status sid w = None /\ st = DISCOVERED ->
  statuses_kept w w'.
Proof.
  intros Hst Hoth Hor k. destruct (decide (k = sid)) as [->|Hne]; [|by left; auto].
  destruct Hor as [Hor|[Hn ->]]; [left; congruence|by right].
Qed.

Lemma settled_owned sid w0 w1 w :
  statuses_kept w0 w1 -> owned sid w1 w ->
  (exists st, file_status sid w = Some st /\ settled st = true) -> files_settled w0 w.
Proof.
  intros Hk (_ & _ & _ & Ho) Hst. exists sid. intros k.
  destruct (decide (k = sid)) as [->|Hne]; [by right; right|]. rewrite Ho by done.
  destruct (Hk k); auto.
Qed.

(** The result of a successful ingestion. *)
Definition ingested (w0 : W) (r : IngestionResult) (w : W) : Prop :=
  ir_status r = COMPLETED /\ file_status (ir_source_file_id r) w = Some COMPLETED /\
  ir_replayed r = false /\ files_settled w0 w.

Lemma ingested_property w0 r : status_property (ingested w0 r).
Proof.
  intros w w' Hs (? & Hst & ? & Hf). split_and!; [done|by rewrite Hs|done|].
  by eapply settled_property.
Qed.

Definition ingest_failed (w0 : W) (e : exn) (w : W) : Prop :=
  is_exception e = true -> files_settled w0 w.

Lemma ingest_inner_spec rf maximum w0 :
  consistent w0 ->
  wp (ingest_inner policy worker_id rf maximum) (ingested w0) (ingest_failed w0) w0.
Proof.
  intros Hc0. unfold ingest_inner. wp_step.
  eapply wp_mono; [by apply quiet_assert_allowed|..]; cbv beta.
  2: { intros e w1 (_ & Hs & _) _. apply statuses_kept_settled. by apply same_kept. }
  intros _ w1 (Hc1 & Hs1 & _). assert (Hk1 : statuses_kept w0 w1) by by apply same_kept.
  wp_step. eapply wp_mono; [by apply register_reads|..]; cbv beta.
  2: { intros e w2 (_ & Hs & _) _. by eapply statuses_kept_settled, kept_same. }
  intros registered w2 (Hc2 & _ & Hst2 & Hoth2 & Hor2 & _).
  assert (Hk : statuses_kept w0 w2) by eauto using kept_trans, registered_kept.
  wp_step; reflect_bools.
  - wp_step. split_and!; [done|simpl; by rewrite Hst2, Heqb|done|by apply statuses_kept_settled].
  - apply with_lease_spec; [done| |intros e w w' Hs Hf He; by eapply settled_property, Hf| |].
    { intros r. apply ingested_property. }
    { intros e w3 Hs _. by eapply statuses_kept_settled, kept_same. }
    intros acquired w3 Hc3 Hs3. pose proof (kept_same _ _ _ Hk Hs3) as Hk3.
    wp_step. wp_step; [split; [done|]; intros _; by apply statuses_kept_settled|].
    wp_step. eapply wp_mono; [by apply register_reads|..]; cbv beta.
    2: { intros e w4 (Hc4 & Hs & _). split; [done|]. intros _. by eapply statuses_kept_settled, kept_same. }
    intros current w4 (Hc4 & _ & Hst4 & Hoth4 & Hor4 & Hown).
    assert (Hk' : statuses_kept w0 w4) by eauto using kept_trans, registered_kept.
    wp_step; reflect_bools.
    + wp_step. split; [done|]. split_and!; [done|simpl; by rewrite Hst4, Heqb0|done|by apply statuses_kept_settled].
    + eapply wp_mono; [apply (ingest_owned_spec current maximum w4)|..]; cbv beta.
      * split_and!; [done|by apply Hown|by rewrite Hst4|done].
      * intros r w5 (Ho & Hst & Hid & Hr & Hrep & _). split; [apply Ho|].
        split_and!; [done|by rewrite Hid|done|]. eapply settled_owned; eauto.
      * intros e w5 (Ho & Hrec). split; [apply Ho|]. intros He.
        eapply settled_owned; eauto using failure_recorded_settled.
Qed.

Lemma ingest_spec rf maximum w0 :
  consistent w0 -> wp (ingest policy worker_id rf maximum) (ingested w0) (ingest_failed w0) w0.
Proof.
  intros Hc. unfold ingest, validate_archive_byte_limit. wp_step. wp_step.
  - intros _. apply statuses_kept_settled. by left.
  - by apply ingest_inner_spec.
Qed.
End service.

(** Whatever every port operation keeps, the ingestion service keeps: on every exit of
    [register], [ingest], [archive_only] and [replay]. *)
Section invariants.
Context {W Session Chunks : Type}.
Context `{IngestionRepository W} `{!RawArchive W Session Chunks} `{!Downloader W Session}
  `{!DocumentParser W Chunks} `{!LeaseManager W} `{!Retrying} `{!RetryingOk}.
Variable I : W -> Prop.

(** Every operation of the ports keeps [I]. *)
Record ports_keep : Prop := {
  keep_allowed : forall r, preserves I (assert_ingestion_allowed r);
  keep_register : forall rf o, preserves I (register_discovery rf o);
  keep_get : forall sid, preserves I (repo_get sid);
  keep_transition : forall sid e t c, preserves I (transition sid e t c);
  keep_record_archive : forall sid a v, preserves I (record_archive sid a v);
  keep_reuse : forall sid v d k, preserves I (reuse_validated_staging sid v d k);
  keep_stage : forall sid events, preserves I (stage sid events);
  keep_finalize : forall sid d, preserves I (finalize_staging sid d);
  keep_has_quarantine : forall sid, preserves I (has_file_quarantine_issue sid);
  keep_apply : forall sid d m f, preserves I (apply_staged sid d m f);
  keep_sha256 : forall sid, preserves I (archive_sha256 sid);
  keep_begin_replay : forall sid v r, preserves I (begin_replay sid v r);
  keep_finish_replay : forall rid b c, preserves I (finish_replay rid b c);
  keep_put : forall (s : Session) n, preserves I (archive_put s n);
  keep_open_archive : forall k, preserves I (open_archive k);
  keep_close_archive : forall c : Chunks, preserves I (close_archive c);
  keep_verify : forall k d, preserves I (archive_verify k d);
  keep_open_download : forall rf m, preserves I (open_download rf m);
  keep_transferred : forall s : Session, preserves I (session_transferred s);
  keep_finish : forall (s : Session) n, preserves I (session_finish s n);
  keep_close_session : forall s : Session, preserves I (close_session s);
  keep_parse : forall (c : Chunks) sid d k n, preserves I (parse c sid d k n);
  keep_acquire : forall r o t, preserves I (lease_acquire r o t);
  keep_release : forall r, preserves I (lease_release r)
}.
Hypothesis Hports : ports_keep.
Variable policy : IngestionPolicy.
Variable worker_id : pystr.
Hypothesis Hpolicy : policy_ok policy.

Hint Extern 1 (preserves I _) => (first
  [ apply (keep_allowed Hports) | apply (keep_register Hports) | apply (keep_get Hports)
  | apply (keep_transition Hports) | apply (keep_record_archive Hports) | apply (keep_reuse Hports)
  | apply (keep_stage Hports) | apply (keep_finalize Hports) | apply (keep_has_quarantine Hports)
  | apply (keep_apply Hports) | apply (keep_sha256 Hports) | apply (keep_begin_replay Hports)
  | apply (keep_finish_replay Hports) | apply (keep_put Hports) | apply (keep_open_archive Hports)
  | apply (keep_close_archive Hports) | apply (keep_verify Hports) | apply (keep_open_download Hports)
  | apply (keep_transferred Hports) | apply (keep_finish Hports) | apply (keep_close_session Hports)
  | apply (keep_parse Hports) | apply (keep_acquire Hports) | apply (keep_release Hports) ]) : preserves.
Hint Extern 1 (preserves _ (lift _)) => apply preserves_lift : preserves.

Lemma stage_each_keeps sid l events : preserves I (stage_each policy sid l events).
Proof.
  revert l. induction events as [|e events IH]; intros l; simpl; preserve.
  all: unfold stage_event, count_issue, ensure_validation_issue_attempt_within_limits,
    ensure_stage_event_within_limits, flush_batch; preserve.
Qed.
Hint Resolve stage_each_keeps : preserves.

Lemma parse_and_stage_keeps sid rf key : preserves I (parse_and_stage policy sid rf key).
Proof. unfold parse_and_stage, read_stream, stage_stream, flush_rest, flush_batch. preserve. Qed.
Hint Resolve parse_and_stage_keeps : preserves.

Lemma parse_validate_apply_keeps sid rf key b : preserves I (parse_validate_apply policy sid rf key b).
Proof. unfold parse_validate_apply. preserve. Qed.
Hint Resolve parse_validate_apply_keeps : preserves.

Lemma download_keeps registered maximum : preserves I (download_and_archive policy registered maximum).
Proof.
  unfold download_and_archive. apply preserves_bind; [preserve|]. intros _.
  apply preserves_with_locals. apply preserves_retrying; [by apply (policy_ok_positive policy)|].
  intros n. unfold download_attempt, fail_attempt, with_session, archive_session,
    ArchiveReceipt_post_init, ArchivedDownload_post_init, ensure_aware. preserve.
Qed.
Hint Resolve download_keeps : preserves.

Lemma on_error_keeps {A} sid n e : preserves I (on_error (A := A) sid n e).
Proof. unfold on_error, record_failure. preserve. Qed.
Hint Extern 1 (preserves I (on_error _ _ _)) => apply on_error_keeps : preserves.

Lemma with_lease_keeps {A} r o t (body : bool -> M W A) :
  (forall b, preserves I (body b)) -> preserves I (with_lease r o t body).
Proof. intros Hb. unfold with_lease. preserve; done || apply Hb. Qed.

Lemma ensure_archived_keeps registered maximum : preserves I (ensure_archived policy registered maximum).
Proof. unfold ensure_archived, ensure_archive_length. preserve. Qed.
Hint Resolve ensure_archived_keeps : preserves.

Lemma guarded_keeps {A} sid archive (rest : pystr * pystr * bool * Z -> M W A) :
  preserves I archive -> (forall x, preserves I (rest x)) -> preserves I (guarded sid archive rest).
Proof. intros Ha Hr. unfold guarded. preserve; done || apply Hr. Qed.

(** ** The operations of the service *)

Lemma ingest_keeps rf maximum : preserves I (ingest policy worker_id rf maximum).
Proof.
  unfold ingest, ingest_inner, validate_archive_byte_limit. preserve. apply with_lease_keeps. intros b. preserve.
  apply guarded_keeps; [preserve|]. intros [[[? ?] ?] ?].
  unfold ingest_rest, IngestionResult_post_init. preserve.
Qed.

Lemma archive_only_keeps rf maximum : preserves I (archive_only policy worker_id rf maximum).
Proof.
  unfold archive_only, validate_archive_byte_limit. preserve. apply with_lease_keeps. intros b. preserve.
  apply guarded_keeps; [preserve|]. intros [[[? ?] ?] ?]. unfold IngestionResult_post_init. preserve.
Qed.

Lemma replay_keeps_all sid rebuild : preserves I (replay policy worker_id sid rebuild).
Proof.
  unfold replay, replay_registered. preserve. apply with_lease_keeps. intros b.
  unfold ensure_archive_length, IngestionResult_post_init. preserve.
Qed.
End invariants.
