(* ===== verification/PostgresRepository.v ===== *)
(** The repository and leases of [src/src/makolet/adapters/persistence] as an instance of
    the service's ports, and the proof that they keep the contracts of [IngestionFacts.v].

    The world is the session with its database, and whatever state the other ports have.
    Staging and apply are parameters here: they work on tables of their own. *)
From S2P Require Import Prelude Errors Effects Enums PyNumbers Models AppModels Ports Database SourceFiles SourceFilesFacts IngestionFacts.

(** The operations on the staging and catalog tables. *)
Record StagingOps (W : Type) := {
  op_reuse : uuid -> pystr -> DocumentType -> CompressionFormat -> M W (option StageSummary);
  op_stage : uuid -> list ParsedEvent -> M W StageSummary;
  op_finalize : uuid -> DocumentType -> M W StageSummary;
  op_has_quarantine : uuid -> M W bool;
  op_apply : uuid -> DocumentType -> Z -> float64 -> M W ApplySummary
}.
Arguments op_reuse {W}. Arguments op_stage {W}. Arguments op_finalize {W}.
Arguments op_has_quarantine {W}. Arguments op_apply {W}.

Section postgres.
Context {X : Type}.
Variable split_url : pystr -> SplitUrl.
Variable casefold : pystr -> pystr.
Variable hash_resource : pystr -> Z.
Variable ops : StagingOps (Session_state * X).

(** A repository call leaves the other ports' state alone. *)
Definition in_session {A} (m : M Session_state A) : M (Session_state * X) A :=
  fun '(s, x) => let '(r, s') := m s in (r, (s', x)).

Definition db_assert_ingestion_allowed (rebuild : option uuid) : M Session_state unit :=
  begin (assert_db_ingestion_allowed rebuild).

#[export] Instance postgres_repository : IngestionRepository (Session_state * X) := {|
  assert_ingestion_allowed r := in_session (db_assert_ingestion_allowed r);
  register_discovery rf o := in_session (db_register_discovery split_url casefold rf o);
  repo_get sid := in_session (db_get sid);
  transition sid e t c := in_session (db_transition sid e t c);
  record_archive sid a v := in_session (db_record_archive sid a v);
  reuse_validated_staging := op_reuse ops;
  stage := op_stage ops;
  finalize_staging := op_finalize ops;
  has_file_quarantine_issue := op_has_quarantine ops;
  apply_staged := op_apply ops;
  archive_sha256 sid := in_session (db_archive_sha256 sid);
  begin_replay sid v r := in_session (db_begin_replay sid v r);
  finish_replay rid b c := in_session (db_finish_replay rid b c)
|}.

#[export] Instance postgres_leases : LeaseManager (Session_state * X) := {|
  lease_acquire r o t := in_session (acquire hash_resource r o t);
  lease_release r := in_session (release hash_resource r)
|}.

#[export] Instance postgres_store : FileStore (Session_state * X) := {|
  file_status k w := src_status <$> sources (db w.1) !! k;
  consistent w := db_wf (db w.1);
  may_write k w := lock_permits (Some k) false w.1 = true
|}.

(** Work on the other tables. *)
Definition keeps_sources {A} (m : M (Session_state * X) A) : Prop :=
  forall w, wp m (fun _ w' => db w'.1 = db w.1 /\ lock_stack w'.1 = lock_stack w.1)
    (fun _ w' => db w'.1 = db w.1 /\ lock_stack w'.1 = lock_stack w.1) w.

Record staging_separate : Prop := {
  sep_reuse : forall sid v d c, keeps_sources (op_reuse ops sid v d c);
  sep_stage : forall sid b, keeps_sources (op_stage ops sid b);
  sep_finalize : forall sid d, keeps_sources (op_finalize ops sid d);
  sep_has_quarantine : forall sid, keeps_sources (op_has_quarantine ops sid);
  sep_apply : forall sid d m f, keeps_sources (op_apply ops sid d m f)
}.

Lemma wp_in_session {A} (m : M Session_state A) Q E s x :
  wp m (fun a s' => Q a (s', x)) (fun e s' => E e (s', x)) s -> wp (in_session m) Q E (s, x).
Proof. unfold wp, in_session. by destruct (m s) as [[a|e] s']. Qed.

Lemma keeps_sources_quiet {A} (m : M (Session_state * X) A) : keeps_sources m -> quiet m.
Proof.
  intros Hm w Hc. unfold undisturbed, same_statuses. simpl in *.
  eapply wp_mono; [apply Hm|..]; cbv beta; intros ? w' [Hdb Hl]; rewrite Hdb;
    unfold lock_permits, current_ingestion_lock; by rewrite Hl.
Qed.

(** A session step that leaves the source rows and the lock alone is quiet. *)
Lemma session_quiet {A} (m : M Session_state A) :
  (forall s, db_wf (db s) ->
     let post s' := db_wf (db s') /\ sources (db s') = sources (db s) /\
                    lock_stack s' = lock_stack s in
     wp m (fun _ => post) (fun _ => post) s) ->
  quiet (in_session m).
Proof.
  intros Hm [s x] Hc. apply wp_in_session. eapply wp_mono; [by apply Hm|..]; cbv beta zeta;
    intros ? s' (Hwf & Hs & Hl); unfold undisturbed, same_statuses; simpl;
    unfold lock_permits, current_ingestion_lock; by rewrite Hs, Hl.
Qed.

(** The same for the transactions of [SourceFiles.v]. *)
Lemma transaction_quiet {A} sid o (m : M Db A) :
  (forall d, db_wf d ->
     wp m (fun _ d' => db_wf d' /\ sources d' = sources d) (fun _ _ => True) d) ->
  forall s, db_wf (db s) ->
  let post s' := db_wf (db s') /\ sources (db s') = sources (db s) /\
                 lock_stack s' = lock_stack s in
  wp (in_transaction sid o m) (fun _ => post) (fun _ => post) s.
Proof.
  intros Hm s Hwf post. apply wp_in_transaction; [done|]. intros _.
  eapply wp_mono; [by apply Hm|..]; cbv beta; [|done]. by intros a d' [? ?].
Qed.

Hypothesis Hsep : staging_separate.

Lemma source_row_reads sid d : db_wf d ->
  wp (source_row sid) (fun _ d' => d' = d) (fun _ _ => True) d.
Proof.
  intros Hwf. eapply wp_mono; [apply source_row_spec| |done]. by intros row d' [-> _].
Qed.

Lemma assert_allowed_reads r w :
  wp (in_session (db_assert_ingestion_allowed r)) (fun _ w' => w' = w) (fun _ w' => w' = w) w.
Proof.
  destruct w as [s x]. apply wp_in_session. unfold db_assert_ingestion_allowed, begin, wp, transaction.
  assert (Hr : (assert_db_ingestion_allowed r (db s)).2 = db s).
  { unfold assert_db_ingestion_allowed, mbind, M_bind, get_state, raise_if.
    destruct (active_rebuild (db s)) as [a|].
    - by destruct (negb (bool_decide (r = Some a))), (negb (bool_decide (nr_status <$> rebuild_runs (db s) !! a = Some REBUILD_RUNNING))).
    - by destruct r. }
  destruct (assert_db_ingestion_allowed r (db s)) as [[a|e] d']; simpl in *; subst;
    by rewrite with_db_same.
Qed.

Lemma postgres_assert_quiet r : quiet (in_session (db_assert_ingestion_allowed r)).
Proof.
  intros w Hc. eapply wp_mono; [apply assert_allowed_reads|..]; cbv beta; intros ? w' ->; by split_and!.
Qed.

Lemma postgres_transition_moves sid expected target code w :
  consistent w ->
  wp (transition sid expected target code)
    (fun _ w' => (exists cur, file_status sid w = Some cur /\ cur ∈ expected /\
        allowed cur target = true) /\ moved sid target w w')
    (fun _ w' => undisturbed w w') w.
Proof.
  destruct w as [s x]. intros Hc. apply wp_in_session. simpl in Hc.
  eapply wp_mono; [by apply db_transition_spec|..]; cbv beta.
  - intros _ s' (Hv & row & d' & Hrow & -> & Hst & Hwf').
    unfold transition_verdict in Hv. rewrite Hrow in Hv.
    destruct (bool_decide (expected = []) || code_too_long code); [done|].
    destruct (negb (lock_permits (Some sid) false s)); [done|].
    destruct (bool_decide (src_status row ∈ expected)) eqn:Hin; [|done].
    destruct (allowed (src_status row) target) eqn:Hal; [|done]. reflect_bools.
    split; [exists (src_status row); simpl; by rewrite Hrow|].
    unfold moved. simpl. rewrite (st_sources _ _ _ _ Hst). split_and!; try done.
    + by rewrite lookup_insert_eq.
    + intros k Hk. by rewrite lookup_insert_ne.
  - intros e s' [_ ->]. by split_and!.
Qed.

Lemma postgres_transition_succeeds sid expected target code w cur :
  consistent w -> may_write sid w -> file_status sid w = Some cur -> cur ∈ expected ->
  expected <> [] -> allowed cur target = true -> code_too_long code = false ->
  exists w', transition sid expected target code w = (Returned tt, w').
Proof.
  destruct w as [s x]. simpl. intros Hc Hm Hst Hin Hne Hal Hcode.
  pose proof (db_transition_spec sid expected target code s Hc) as Hspec.
  apply fmap_Some in Hst as (row & Hrow & ->). unfold wp in Hspec. unfold in_session.
  destruct (db_transition sid expected target code s) as [[[]|e] s']; [by eexists|].
  destruct Hspec as [Hv _]. unfold transition_verdict in Hv.
  by rewrite Hcode, Hm, Hrow, Hal, bool_decide_eq_false_2, bool_decide_eq_true_2 in Hv.
Qed.

Lemma postgres_record_archive_moves sid a version w :
  consistent w ->
  wp (record_archive sid a version)
    (fun _ w' => file_status sid w = Some DOWNLOADING /\ moved sid ARCHIVED w w')
    (fun _ w' => undisturbed w w') w.
Proof.
  destruct w as [s x]. intros Hc. apply wp_in_session. simpl in Hc.
  assert (Hu : undisturbed (s, x) (s, x)) by by split_and!.
  unfold db_record_archive. do 6 (wp_step; wp_step; [done|]).
  apply wp_in_transaction; [done|]. intros _. reflect_bools.
  eapply wp_mono; [by apply record_archive_body_spec| |done]; cbv beta.
  intros re d' (row & Hrow & Hdl & Hst & Hwf' & _).
  split; [simpl; by rewrite Hrow, <- Hdl|]. unfold moved. simpl.
  rewrite (st_sources _ _ _ _ Hst). split_and!; try done.
  - by rewrite lookup_insert_eq.
  - intros k Hk. by rewrite lookup_insert_ne.
Qed.

Lemma postgres_get_reads sid w :
  consistent w ->
  wp (repo_get sid)
    (fun reg w' => undisturbed w w' /\ reg_source_file_id reg = sid /\
       file_status sid w = Some (reg_status reg))
    (fun _ w' => undisturbed w w' /\ (may_write sid w -> file_status sid w = None)) w.
Proof.
  destruct w as [s x]. intros Hc. apply wp_in_session. simpl in Hc.
  assert (Hu : undisturbed (s, x) (s, x)) by by split_and!.
  unfold db_get. apply wp_in_transaction.
  - intros Hl. split; [done|]. simpl. by rewrite Hl.
  - intros _. wp_step. eapply wp_mono; [apply source_row_spec|..]; cbv beta.
    + intros row d' [-> Hrow]. repeat wp_step. rewrite with_db_same. simpl. by rewrite Hrow.
    + intros e d' [_ Hnone]. split; [done|]. intros _. simpl. by rewrite Hnone.
Qed.

Lemma postgres_register_reads rf owned w :
  consistent w ->
  wp (register_discovery rf owned)
    (fun reg w' => consistent w' /\ (forall k, may_write k w -> may_write k w') /\
       file_status (reg_source_file_id reg) w' = Some (reg_status reg) /\
       (forall k, k <> reg_source_file_id reg -> file_status k w' = file_status k w) /\
       (file_status (reg_source_file_id reg) w = Some (reg_status reg) \/
        file_status (reg_source_file_id reg) w = None /\ reg_status reg = DISCOVERED) /\
       (owned = true -> may_write (reg_source_file_id reg) w'))
    (fun _ w' => undisturbed w w') w.
Proof.
  destruct w as [s x]. intros Hc. apply wp_in_session. simpl in Hc.
  assert (Hu : undisturbed (s, x) (s, x)) by by split_and!.
  unfold db_register_discovery. do 2 wp_step. apply wp_in_transaction; [done|]. intros _.
  eapply wp_mono; [by apply register_body_spec| |done]; cbv beta.
  intros reg d' (sid & row' & Hid & Hrow' & Hreg & Hwf' & Hlock & Hcase). simpl.
  split_and!; [done|done|by rewrite Hid, Hrow', Hreg| | |].
  - rewrite Hid. intros k Hk. destruct (reg_already_registered reg).
    + destruct Hcase as (row & _ & _ & Ht & _). rewrite (to_sources _ _ _ _ _ Ht).
      by rewrite lookup_insert_ne.
    + destruct Hcase as (_ & -> & Hs & _). rewrite Hs. by rewrite lookup_insert_ne.
  - rewrite Hid. destruct (reg_already_registered reg).
    + left. destruct Hcase as (row & -> & _ & Ht & _). simpl.
      rewrite Hreg. simpl. by rewrite (proj1 (to_lifecycle _ _ _ _ _ Ht)).
    + right. destruct Hcase as (_ & -> & Hs & _). rewrite next_id_unknown by done.
      rewrite Hs, lookup_insert_eq in Hrow'. injection Hrow' as <-. by rewrite Hreg.
  - intros ->. unfold lock_permits. change (current_ingestion_lock (with_db d' s))
      with (current_ingestion_lock s). rewrite (Hlock eq_refl), Hid.
    by rewrite bool_decide_eq_true_2.
Qed.

#[export] Instance postgres_lifecycle : FileLifecycle (Session_state * X).
Proof.
  split.
  - exact postgres_transition_moves.
  - exact postgres_transition_succeeds.
  - exact postgres_record_archive_moves.
  - exact postgres_get_reads.
  - exact postgres_register_reads.
  - exact postgres_assert_quiet.
  - intros sid. apply session_quiet. intros s Hwf. apply transaction_quiet; [|done].
    intros d Hd. do 2 wp_step. by destruct (sources d !! sid ≫= joined_archive d) as [[]|]; wp_step.
  - intros. apply keeps_sources_quiet, Hsep.
  - intros. apply keeps_sources_quiet, Hsep.
  - intros. apply keeps_sources_quiet, Hsep.
  - intros. apply keeps_sources_quiet, Hsep.
  - intros. apply keeps_sources_quiet, Hsep.
  - intros sid v r. apply session_quiet. intros s Hwf post. unfold db_begin_replay.
    wp_step. wp_step; [by split_and!|]. apply transaction_quiet; [|done].
    intros d Hd. eapply wp_mono; [by apply begin_replay_body_spec| |done]; cbv beta.
    by intros rid d' (_ & ? & ? & _).
  - intros rid b c. apply session_quiet. intros s Hwf post. unfold db_finish_replay.
    wp_step. wp_step; [by split_and!|]. wp_step. wp_step; [by split_and!|].
    do 3 wp_step. eapply wp_mono; [apply (transaction_quiet None false); [|done]|..].
    + intros d Hd. eapply wp_mono; [by apply finish_replay_body_spec| |done]; cbv beta.
      by intros u d' (? & ? & _).
    + cbv beta. intros u s' Hpost. by wp_step.
    + done.
Qed.

#[export] Instance postgres_file_leases : FileLeases (Session_state * X).
Proof.
  split.
  - intros r o t [s x] Hc. apply wp_in_session. unfold acquire. simpl in Hc.
    do 3 (wp_step; wp_step; [done|]). do 2 wp_step. by repeat wp_step.
  - intros r [s x] Hc. apply wp_in_session. unfold release. by wp_step.
Qed.
End postgres.
