(* ===== verification/World.v ===== *)
(** A concrete world for the ports: the repository of [PostgresRepository.v] next to a
    scripted transport, an archive and a parser, in the manner of the in-memory fakes of
    [src/tests/fakes/ingestion.py].  The witnesses of the service's theorems run in it. *)
From S2P Require Import Prelude Errors Effects Enums PyNumbers Models AppModels Ports Database SourceFiles SourceFilesFacts Samples Staging StagingFacts IngestionService IngestionFacts PostgresRepository.

(** [toy_script] is what the coming downloads do: the error of the upload, if any, and
    the bytes moved; [toy_document] what every parse yields; [toy_verify] the error a
    verification raises. *)
Record Toy := {
  toy_staged : gmap uuid (list (list ParsedEvent));
  toy_opens : list (option Z);
  toy_script : list (option exn * Z);
  toy_document : list ParsedEvent * option exn;
  toy_verify : option exn
}.

Definition ToyWorld : Type := Session_state * Toy.
Definition ToySession : Type := option exn * Z.
Definition ToyChunks : Type := pystr.

Definition on_toy (f : Toy -> Toy) : M ToyWorld unit := modify (fun '(s, t) => (s, f t)).
Definition toy_raise {A} (e : option exn) (a : A) : M ToyWorld A :=
  match e with Some e => raise e | None => mret a end.

Definition log_open (m : option Z) (t : Toy) : Toy :=
  {| toy_staged := toy_staged t; toy_opens := toy_opens t ++ [m];
     toy_script := tail (toy_script t); toy_document := toy_document t;
     toy_verify := toy_verify t |}.
Definition log_batch (sid : uuid) (b : list ParsedEvent) (t : Toy) : Toy :=
  {| toy_staged := <[ sid := default [] (toy_staged t !! sid) ++ [b] ]> (toy_staged t);
     toy_opens := toy_opens t; toy_script := toy_script t; toy_document := toy_document t;
     toy_verify := toy_verify t |}.
Definition staged_events (sid : uuid) (w : ToyWorld) : list ParsedEvent :=
  concat (default [] (toy_staged w.2 !! sid)).

Definition toy_ops : StagingOps ToyWorld := {|
  op_reuse sid v d c := mret None;
  op_stage sid b := on_toy (log_batch sid b);; mret (stage_events b);
  op_finalize sid d := w ← get_state; mret (stage_events (staged_events sid w));
  op_has_quarantine sid :=
    w ← get_state; mret (0 <? file_quarantines (stage_events (staged_events sid w)));
  op_apply sid d m f :=
    w ← get_state;
    mret {| inserted := accepted_records (stage_events (staged_events sid w)); updated := 0;
            unchanged := 0; unavailable := 0; history_events := 0 |}
|}.

#[export] Instance toy_repository : IngestionRepository ToyWorld :=
  postgres_repository sample_split sample_fold toy_ops.
#[export] Instance toy_leases : LeaseManager ToyWorld := postgres_leases zsum.
#[export] Instance toy_store : FileStore ToyWorld := postgres_store.
#[export] Instance toy_retrying : Retrying :=
  {| retrying W A limit p body := attempts (Z.to_nat limit - 1) 1 p body |}.
#[export] Instance toy_retrying_ok : RetryingOk.
Proof. done. Qed.

#[export] Instance toy_archive : RawArchive ToyWorld ToySession ToyChunks := {|
  archive_put s n :=
    toy_raise (fst s) (py "sha256/aa/" ++ sample_digest, snd s, true);
  open_archive k := mret k;
  close_archive c := mret tt;
  archive_verify k d := w ← get_state; toy_raise (toy_verify (snd w)) 42
|}.

#[export] Instance toy_downloader : Downloader ToyWorld ToySession := {|
  open_download rf m :=
    w ← get_state;
    on_toy (log_open m);;
    mret (default (None, 42) (head (toy_script (snd w))));
  session_transferred s := mret (Z.max 0 (snd s));
  session_finish s n := mret
    {| de_started_at := Aware 1100; de_finished_at := Aware 1200; de_status_code := Some 200;
       de_content_length := n; de_media_type := None; de_etag := None;
       de_last_modified := None; de_response_metadata := [] |};
  close_session s := mret tt
|}.

#[export] Instance toy_parser : DocumentParser ToyWorld ToyChunks := {|
  parser_version := py "v1";
  parse c sid d k n := w ← get_state; mret (toy_document (snd w))
|}.

(** ** The world keeps every contract *)

Lemma toy_separate : staging_separate toy_ops.
Proof.
  split; intros; intros [s t]; unfold toy_ops, on_toy; cbn [op_reuse op_stage op_finalize
    op_has_quarantine op_apply]; repeat wp_step; done.
Qed.

#[export] Instance toy_lifecycle : FileLifecycle ToyWorld :=
  postgres_lifecycle sample_split sample_fold toy_ops toy_separate.
#[export] Instance toy_file_leases : FileLeases ToyWorld := postgres_file_leases zsum.

Lemma toy_quiet {A} (m : M ToyWorld A) :
  (forall w, (m w).2.1 = w.1) -> quiet m.
Proof.
  intros Hm w Hc. unfold wp. specialize (Hm w). unfold undisturbed, same_statuses.
  simpl in *. destruct (m w) as [[a|e] w']; simpl in Hm; by rewrite Hm.
Qed.

#[export] Instance toy_quiet_ports : QuietPorts ToyWorld ToySession ToyChunks.
Proof.
  split; intros; apply toy_quiet; intros [st [? ? ? ? v]]; cbn; try done.
  - unfold toy_raise. by destruct (fst s).
  - unfold mbind, M_bind, get_state, toy_raise. simpl. by destruct v.
Qed.

#[export] Instance toy_log : DownloadLog ToyWorld ToySession ToyChunks.
Proof.
  refine {| opens := fun w => toy_opens w.2 |}.
  - intros rf m [s t]. unfold open_download, toy_downloader, on_toy. by repeat wp_step.
  - intros s [se t]. unfold session_transferred, toy_downloader. repeat wp_step. split; [lia|done].
  - intros s n w0. unfold archive_put, toy_archive, toy_raise. destruct (fst s); preserve.
  - intros s n w0. unfold session_finish, toy_downloader. preserve.
  - intros s w0. unfold close_session, toy_downloader. preserve.
  - intros sid e t c w0 [s x] Hw. apply wp_in_session. unfold wp.
    by destruct (db_transition sid e t c s) as [[?|?] ?].
  - intros sid a v w0 [s x] Hw. apply wp_in_session. unfold wp.
    by destruct (db_record_archive sid a v s) as [[?|?] ?].
Defined.

#[export] Instance toy_staging_log : StagingLog ToyWorld.
Proof.
  refine {| staged_batches := fun sid l w => default [] (toy_staged w.2 !! sid) = l |}.
  intros sid l batch [s t] Hl. unfold stage, toy_repository, postgres_repository, toy_ops, op_stage, on_toy.
  repeat wp_step. simpl in *. by rewrite lookup_insert_eq, Hl.
Defined.

#[export] Instance toy_counts : StagingCounts ToyWorld.
Proof.
  split. intros sid batch [s t].
  unfold stage, toy_repository, postgres_repository, toy_ops, op_stage, on_toy.
  by repeat wp_step.
Qed.

#[export] Instance toy_reads_only : ReadsOnly ToyWorld ToySession ToyChunks.
Proof.
  split; intros; unfold open_archive, close_archive, parse, toy_archive, toy_parser; preserve.
  unfold get_state. intros w Hw. done.
Qed.

(** ** Runs *)

Definition sample_issue : ValidationIssue := {|
  vi_source_file_id := 1; vi_severity := WARNING; vi_code := py "odd"; vi_message := py "odd value";
  vi_record_index := Some 3; vi_field_name := None; vi_rejected_value := None |}.
Definition sample_store : StoreRecord := {|
  sr_source_file_id := 1; sr_record_index := 1; sr_chain_id := py "7290027600007";
  sr_subchain_id := py "1"; sr_store_id := py "5"; sr_audit_number := None;
  sr_store_type := None; sr_chain_name := None; sr_subchain_name := None;
  sr_store_name := py "Center"; sr_address := None; sr_city := None; sr_postal_code := None |}.
Definition sample_events : list ParsedEvent := [EvStore sample_store; EvIssue sample_issue].

(** [script] is what the downloads do, [d] the database at the start. *)
Definition toy_world (d : Db) (script : list (option exn * Z)) (verify : option exn) : ToyWorld :=
  (no_lock d, {| toy_staged := ∅; toy_opens := []; toy_script := script;
                 toy_document := (sample_events, None); toy_verify := verify |}).

Definition toy_ingest (maximum : option Z) : M ToyWorld IngestionResult :=
  ingest default_policy (py "worker") sample_remote maximum.

Example toy_ingest_completes :
  let '(r, w) := toy_ingest None (toy_world empty_db [] None) in
  (match r with Returned r => Some (ir_status r, ir_transferred_bytes r) | Raised _ => None end,
   file_status 1 w) = (Some (COMPLETED, 42), Some COMPLETED).
Proof. vm_compute. reflexivity. Qed.

(** Two failing downloads before the one that succeeds. *)
Definition access_failure : exn := MakoletExn SourceAccessError 0.
Example toy_ingest_retries :
  let '(r, w) := toy_ingest (Some 100) (toy_world empty_db
    [(Some access_failure, 10); (Some access_failure, 20)] None) in
  (match r with Returned r => Some (ir_status r, ir_transferred_bytes r) | Raised _ => None end,
   toy_opens w.2) = (Some (COMPLETED, 72), [Some 100; Some 90; Some 70]).
Proof. vm_compute. reflexivity. Qed.

Lemma default_policy_ok : policy_ok default_policy.
Proof. vm_compute. reflexivity. Qed.
