(* ===== verification/IngestionSpec.v ===== *)
(** The properties of the ingestion service, and the runs that witness them. *)
From S2P Require Import Prelude Errors Effects Enums PyNumbers Models AppModels Ports Database SourceFiles SourceFilesFacts Samples Staging StagingFacts IngestionService IngestionFacts PostgresRepository World.

Section ingestion.
Context {W Session Chunks : Type}.
Context `{IngestionRepository W} `{!RawArchive W Session Chunks} `{!Downloader W Session}
  `{!DocumentParser W Chunks} `{!LeaseManager W} `{!Retrying} `{!FileStore W}.

(** C5: an ingestion either completes its file, whose stored status is then [COMPLETED],
    or raises.  Over all files, known before or not: each keeps its status or was just
    registered and waits to be started, except that the one worked on, when the exception is
    anything but a cancellation, ends completed, quarantined or failed; no file is left in
    the middle of its lifecycle.  This rests on the repository's contract [FileLifecycle]: a
    permitted transition of a file whose lock the session holds succeeds, and so does reading
    it.  [PostgresRepository.v] discharges it; a failing database is outside it. *)
Theorem ingest_settles `{!FileLifecycle W} `{!QuietPorts W Session Chunks} `{!FileLeases W}
    `{!RetryingOk} policy worker_id rf maximum (w : W) :
  policy_ok policy -> consistent w ->
  match ingest policy worker_id rf maximum w with
  | (Returned r, w') => ingested w r w'
  | (Raised e, w') => is_exception e = true -> files_settled w w'
  end.
Proof.
  intros Hp Hw. pose proof (ingest_spec (Session := Session) (Chunks := Chunks) policy worker_id Hp
    rf maximum w Hw) as Hwp.
  unfold wp in Hwp. by destruct (ingest policy worker_id rf maximum w) as [[r|e] w'].
Qed.

(** C6: a failed ingestion records exactly what failed.  Take the [try] block of [_ingest]
    alone, from the same state: it raised [e1] with the file in status [cur].  That exception,
    with the bytes transferred once the archive had returned, and that status decide the final
    status: quarantined for bad content of an archived file, otherwise retryable or terminal
    as the error says, and a terminal status stays.  The same exception is raised, but for
    a file that already was [FAILED_RETRYABLE] and keeps that status.  No other file changes
    status. *)
Theorem failure_recorded_faithfully `{!FileLifecycle W} `{!QuietPorts W Session Chunks}
    `{!RetryingOk} policy current maximum (w : W) e w' :
  policy_ok policy -> owned (reg_source_file_id current) w w ->
  ingest_owned policy current maximum w = (Raised e, w') -> is_exception e = true ->
  (forall k, k <> reg_source_file_id current -> file_status k w' = file_status k w) /\
  exists e1 w1 cur,
    ingest_work policy current maximum w = (Raised e1, w1) /\ is_exception e1 = true /\
    file_status (reg_source_file_id current) w1 = Some cur /\
    let transferred := match (ensure_archived policy current maximum w).1 with
                       | Returned archived => snd archived
                       | Raised _ => 0
                       end in
    let recorded := propagated_error transferred e1 in
    let st := if terminal cur then cur else failure_target cur recorded in
    file_status (reg_source_file_id current) w' = Some st /\
    (e = recorded \/ cur = FAILED_RETRYABLE /\ st = FAILED_RETRYABLE).
Proof.
  intros Hp Hw Hrun He.
  pose proof (wp_raised _ _ _ _ _ _ (ingest_owned_spec (Session := Session) (Chunks := Chunks)
    policy Hp current maximum w Hw) Hrun) as [Ho _].
  split; [apply Ho|].
  destruct (guarded_raises _ _ _ _ _ _ Hrun He) as (e1 & w1 & Hwork & He1 & Hrec).
  destruct (wp_raised _ _ _ _ _ _ (ingest_work_working (Session := Session) (Chunks := Chunks)
    policy Hp current maximum w Hw) Hwork) as [Hw1 (cur & Hcur & _)].
  exists e1, w1, cur. split_and!; [done..|]. cbv zeta in Hrec |- *.
  set (e2 := propagated_error _ e1) in *. change (if terminal cur then cur else failure_target cur e2)
    with (failed_status cur e2).
  pose proof (record_failure_spec _ _ e2 w1 Hw1) as Hspec. unfold wp in Hspec.
  destruct Hrec as [[Hrec ->]|Hrec]; rewrite Hrec in Hspec.
  - destruct Hspec as (_ & cur' & Hc & Hst). simplify_eq. auto.
  - destruct Hspec as (_ & Hc & Ht & Hst). simplify_eq. unfold failed_status. simpl.
    rewrite Ht. auto.
Qed.

(** C7: staging a document stores exactly the parsed events, in order, cut into batches
    that respect the row and byte limits, and reports their counts; when it fails, what
    was stored is whole batches of a prefix of the document. *)
Theorem document_staged_exactly `{!StagingLog W} `{!StagingCounts W}
    `{!ReadsOnly W Session Chunks} policy sid rf key base (w : W) :
  policy_ok policy -> staged_batches sid base w ->
  match parse_and_stage policy sid rf key w with
  | (Returned s, w') => exists parsed batches,
      parsed_as sid rf key parsed /\ parsed.2 = None /\
      staged_batches sid (base ++ batches) w' /\
      concat batches = parsed.1 /\ Forall (batch_ok policy) batches /\
      same_counts s (stage_events parsed.1)
  | (Raised e, w') => staged_prefix policy sid rf key base w'
  end.
Proof.
  intros Hp Hw. pose proof (parse_and_stage_spec (Session := Session) (Chunks := Chunks)
    policy sid Hp rf key base w Hw) as Hs.
  unfold wp in Hs. destruct (parse_and_stage policy sid rf key w) as [[s|e] w']; [|done].
  destruct Hs as (parsed & batches & ? & ? & ? & ? & ? & ?). exists parsed, batches. by split_and!.
Qed.

(** The retry loop is bounded: a download is opened at most [download_attempts] times,
    and with a byte limit each opening is given a positive allowance within it. *)
Theorem download_bounded `{!DownloadLog W Session Chunks} `{!RetryingOk} policy registered
    maximum (w : W) o w' :
  policy_ok policy -> download_and_archive policy registered maximum w = (o, w') ->
  exists log, opens w' = opens w ++ log /\ py_len log <= download_attempts policy /\
    Forall (allowance_ok maximum) log.
Proof.
  intros Hp Hrun. pose proof (download_and_archive_bounded (Session := Session)
    (Chunks := Chunks) policy Hp registered maximum w) as Hd.
  unfold wp in Hd. rewrite Hrun in Hd. by destruct o.
Qed.

(** C8: a replay never touches a lifecycle: whatever it does, every file keeps its status;
    and what it returns is a completed replay that moved no byte. *)
Theorem replay_keeps_lifecycle `{!FileLifecycle W} `{!QuietPorts W Session Chunks}
    `{!FileLeases W} policy worker_id sid rebuild (w : W) o w' :
  consistent w -> replay policy worker_id sid rebuild w = (o, w') ->
  (forall k, file_status k w' = file_status k w) /\
  forall r, o = Returned r ->
    ir_status r = COMPLETED /\ ir_replayed r = true /\ ir_transferred_bytes r = 0.
Proof.
  intros Hw Hrun.
  pose proof (replay_keeps (Session := Session) (Chunks := Chunks) policy worker_id w sid rebuild
    w (conj Hw (fun _ => eq_refl))) as Hk.
  pose proof (replay_result policy worker_id sid rebuild w) as Hr.
  unfold wp in Hk, Hr. rewrite Hrun in Hk, Hr.
  split; [by destruct o, Hk|]. by intros r ->.
Qed.
End ingestion.

(** ** Over the PostgreSQL repository *)

Section postgres.
Context {X Session Chunks : Type}.
Variable split_url : pystr -> SplitUrl.
Variable casefold : pystr -> pystr.
Variable hash_resource : pystr -> Z.
Variable ops : StagingOps (Session_state * X).
Context `{!RawArchive (Session_state * X) Session Chunks} `{!Downloader (Session_state * X) Session}
  `{!DocumentParser (Session_state * X) Chunks} `{!Retrying}.
Let repository := postgres_repository split_url casefold ops.
Let leases : LeaseManager (Session_state * X) := postgres_leases hash_resource.
#[local] Existing Instances repository leases.

(** Ingesting a file that already completed is idempotent: it answers with a duplicate
    (or is refused), takes no lease, starts no download, parse or staging (the other
    ports are not called at all), and no source, run, event or archive row changes. *)
Theorem completed_reingest policy worker_id rf maximum s x o w' sid row :
  reachable split_url casefold (db s) ->
  find_source rf (db s) = Some (sid, row) -> src_status row = COMPLETED ->
  ingest (Session := Session) (Chunks := Chunks) policy worker_id rf maximum (s, x) = (o, w') ->
  w'.2 = x /\ held w'.1 = held s /\ sources (db w'.1) = sources (db s) /\
  runs (db w'.1) = runs (db s) /\ events (db w'.1) = events (db s) /\
  archives (db w'.1) = archives (db s) /\
  forall r, o = Returned r -> ir_source_file_id r = sid /\ ir_status r = COMPLETED /\
    ir_duplicate r = true /\ ir_transferred_bytes r = 0.
Proof.
  intros Hd%reachable_wf Hfind Hst Hrun.
  enough (Hwp : wp (ingest (Session := Session) (Chunks := Chunks) policy worker_id rf maximum)
    (fun r w' => w'.2 = x /\ held w'.1 = held s /\ sources (db w'.1) = sources (db s) /\
       runs (db w'.1) = runs (db s) /\ events (db w'.1) = events (db s) /\
       archives (db w'.1) = archives (db s) /\ ir_source_file_id r = sid /\
       ir_status r = COMPLETED /\ ir_duplicate r = true /\ ir_transferred_bytes r = 0)
    (fun _ w' => w' = (s, x)) (s, x)).
  { unfold wp in Hwp. rewrite Hrun in Hwp. destruct o as [r|e].
    - destruct Hwp as (? & ? & ? & ? & ? & ? & ?). split_and!; try done. by intros ? [= <-].
    - by subst w'. }
  unfold ingest, validate_archive_byte_limit. do 2 wp_step; [done|].
  unfold ingest_inner. wp_step. eapply wp_mono; [apply assert_allowed_reads| |done]; cbv beta.
  intros _ w1 ->. wp_step. apply wp_in_session. unfold db_register_discovery. do 2 wp_step.
  apply wp_in_transaction; [done|]. intros _.
  eapply wp_mono; [by apply register_body_spec| |done]; cbv beta.
  intros reg d' (sid' & row' & Hsid & _ & Hreg & _ & _ & Hcase).
  destruct (reg_already_registered reg) eqn:Halready; [|destruct Hcase; congruence].
  destruct Hcase as (row0 & Hrow0 & Hid & Ht & _ & Hsame).
  destruct (find_source_some _ _ _ _ Hfind) as [Hrow Hid'].
  assert (sid' = sid) as -> by (eapply (wf_identity _ Hd); eauto; congruence).
  assert (row0 = row) as -> by congruence.
  assert (row' = row) as -> by auto.
  assert (Hrst : reg_status reg = COMPLETED) by by rewrite Hreg.
  rewrite bool_decide_eq_true_2 by done. wp_step. destruct Ht as [Hs _ _ (? & ? & ? & _)].
  simpl. split_and!; try done. rewrite Hs. by apply insert_id.
Qed.

(** When a file that already is [FAILED_RETRYABLE] fails retryably again (say, its
    archive cannot be verified), the failure handler asks for the transition to the status
    the file has, which the lifecycle forbids: the handler's own
    [InvalidStateTransitionError] is raised in place of the failure and nothing is
    recorded. *)
Theorem retryable_failure_masked sid n c t s x row :
  reachable split_url casefold (db s) -> lock_permits (Some sid) false s = true ->
  sources (db s) !! sid = Some row -> src_status row = FAILED_RETRYABLE ->
  retryable c = true ->
  on_error (A := IngestionResult) sid n (MakoletExn c t) (s, x) =
    (Raised (MakoletExn InvalidStateTransitionError 0), (s, x)).
Proof.
  intros Hd%reachable_wf Hl Hrow Hst Hc.
  assert (Htgt : failure_target FAILED_RETRYABLE (propagated_error n (MakoletExn c t))
    = FAILED_RETRYABLE).
  { unfold propagated_error. destruct (n =? 0); by destruct c. }
  enough (Hwp : wp (on_error (A := IngestionResult) sid n (MakoletExn c t)) (fun _ _ => False)
    (fun e w' => e = MakoletExn InvalidStateTransitionError 0 /\ w' = (s, x)) (s, x)).
  { unfold wp in Hwp. destruct (on_error _ _ _ _) as [[?|?] ?]; [done|]. by destruct Hwp as [-> ->]. }
  unfold on_error, record_failure. do 2 wp_step. apply wp_in_session. unfold db_get.
  apply wp_in_transaction; [congruence|]. intros _. wp_step.
  eapply wp_mono; [apply source_row_spec|..]; cbv beta; [|intros e d' [_ ?]; congruence].
  intros row' d' [-> Hrow']. do 3 wp_step. assert (row' = row) as -> by congruence.
  rewrite with_db_same. cbn [registered_source_file reg_status]. rewrite Hst.
  cbn [bool_decide]. rewrite Htgt.
  apply wp_in_session. eapply wp_mono; [by apply db_transition_spec|..]; cbv beta;
    unfold transition_verdict; rewrite error_code_short, Hl, Hrow, Hst; [by intros _ w' [? _]|].
  by intros e w' [[= <-] ->].
Qed.
End postgres.

(** ** Witnesses *)

(** The session that holds the lock of file 1. *)
Definition toy_owner (d : Db) (script : list (option exn * Z)) (verify : option exn) : ToyWorld :=
  (owner_of 1 d, snd (toy_world d script verify)).

Definition registered_1 (d : Db) : RegisteredSourceFile :=
  registered_source_file d 1 (row_of d 1) true.

(** Two runs over a database that knows file 1: a download that is refused, and one of
    another remote file, which is registered and whose document is malformed. *)
Definition refused : exn := MakoletExn UnsafeRemoteError 0.
Definition malformed (w : ToyWorld) : ToyWorld :=
  (w.1, {| toy_staged := toy_staged w.2; toy_opens := toy_opens w.2; toy_script := toy_script w.2;
           toy_document := (sample_events, Some (MakoletExn MalformedDocumentError 0));
           toy_verify := toy_verify w.2 |}).

Lemma ingest_settles_witness :
  let w := toy_world db_discovered [(Some refused, 10)] None in
  let w2 := malformed (toy_world empty_db [] None) in
  (file_status 1 w = Some DISCOVERED /\
   exists e w', toy_ingest (Some 100) w = (Raised e, w') /\ files_settled w w' /\
     file_status 1 w' = Some FAILED_TERMINAL) /\
  (file_status 1 w2 = None /\
   exists e w', toy_ingest None w2 = (Raised e, w') /\ files_settled w2 w' /\
     file_status 1 w' = Some QUARANTINED).
Proof.
  intros w w2.
  pose proof (ingest_settles (Session := ToySession) (Chunks := ToyChunks) default_policy
    (py "worker") sample_remote (Some 100) w default_policy_ok (reachable_wf _ _ _ reachable_discovered)) as Hs.
  pose proof (ingest_settles (Session := ToySession) (Chunks := ToyChunks) default_policy
    (py "worker") sample_remote None w2 default_policy_ok empty_db_wf) as Hs2.
  fold (toy_ingest (Some 100)) in Hs. fold (toy_ingest None) in Hs2.
  assert (E : toy_ingest (Some 100) w = (Raised (MakoletExn UnsafeRemoteError 10),
    (toy_ingest (Some 100) w).2)) by (apply run_eq; vm_compute; reflexivity).
  assert (E2 : toy_ingest None w2 = (Raised (MakoletExn MalformedDocumentError 42),
    (toy_ingest None w2).2)) by (apply run_eq; vm_compute; reflexivity).
  rewrite E in Hs. rewrite E2 in Hs2.
  split; (split; [vm_compute; reflexivity|]); do 2 eexists.
  - split; [exact E|]. split; [by apply Hs|vm_compute; reflexivity].
  - split; [exact E2|]. split; [by apply Hs2|vm_compute; reflexivity].
Defined.

Lemma toy_owned d : reachable sample_split sample_fold d -> is_Some (src_status <$> sources d !! 1) ->
  forall script verify, owned 1 (toy_owner d script verify) (toy_owner d script verify).
Proof. intros Hd%reachable_wf Hs script verify. by split_and!. Qed.

(** A document that fails while it is parsed: the file was [PARSING], and is quarantined. *)
Lemma failure_recorded_faithfully_witness :
  let w := malformed (toy_owner db_discovered [] None) in
  let current := registered_1 db_discovered in
  let run := ingest_owned (Session := ToySession) (Chunks := ToyChunks) default_policy current None w in
  (forall k, k <> 1 -> file_status k run.2 = file_status k w) /\
  file_status 1 run.2 = Some QUARANTINED /\
  exists e1 w1 cur,
    ingest_work (Session := ToySession) (Chunks := ToyChunks) default_policy current None w
      = (Raised e1, w1) /\ is_exception e1 = true /\
    file_status 1 w1 = Some cur /\
    let transferred := match (ensure_archived (Session := ToySession) (Chunks := ToyChunks)
                                default_policy current None w).1 with
                       | Returned archived => snd archived
                       | Raised _ => 0
                       end in
    let recorded := propagated_error transferred e1 in
    let st := if terminal cur then cur else failure_target cur recorded in
    file_status 1 run.2 = Some st /\
    (MakoletExn MalformedDocumentError 42 = recorded \/ cur = FAILED_RETRYABLE /\ st = FAILED_RETRYABLE).
Proof.
  intros w current run.
  destruct (failure_recorded_faithfully (Session := ToySession) (Chunks := ToyChunks)
    default_policy current None w (MakoletExn MalformedDocumentError 42) run.2) as [Hoth Hrec].
  - apply default_policy_ok.
  - apply toy_owned; [apply reachable_discovered|vm_compute; by eexists].
  - apply run_eq. vm_compute. reflexivity.
  - reflexivity.
  - split; [exact Hoth|]. split; [vm_compute; reflexivity|exact Hrec].
Defined.

Lemma document_staged_exactly_witness :
  let w := toy_world empty_db [] None in
  match parse_and_stage (Session := ToySession) (Chunks := ToyChunks) default_policy 1
    sample_remote (py "sha256/aa/") w with
  | (Returned s, w') => exists parsed batches,
      parsed_as (Session := ToySession) (Chunks := ToyChunks) 1 sample_remote
        (py "sha256/aa/") parsed /\ parsed.2 = None /\
      staged_batches 1 ([] ++ batches) w' /\
      concat batches = parsed.1 /\ Forall (batch_ok default_policy) batches /\
      same_counts s (stage_events parsed.1)
  | (Raised e, w') => staged_prefix (Session := ToySession) (Chunks := ToyChunks)
      default_policy 1 sample_remote (py "sha256/aa/") [] w'
  end.
Proof.
  intros w. apply document_staged_exactly; [apply default_policy_ok|reflexivity].
Defined.

Lemma download_bounded_witness :
  let w := toy_owner db_discovered [(Some access_failure, 10); (Some access_failure, 20)] None in
  exists log, opens (snd (download_and_archive (Session := ToySession) (Chunks := ToyChunks)
      default_policy (registered_1 db_discovered) (Some 100) w)) = opens w ++ log /\
    py_len log <= download_attempts default_policy /\ Forall (allowance_ok (Some 100)) log.
Proof.
  intros w.
  eapply (download_bounded (Session := ToySession) (Chunks := ToyChunks) default_policy
    (registered_1 db_discovered) (Some 100) w); [apply default_policy_ok|].
  apply surjective_pairing.
Defined.

Lemma replay_keeps_lifecycle_witness :
  let w := toy_world db_completed [] None in
  (forall k, file_status k (snd (replay (Session := ToySession) (Chunks := ToyChunks)
     default_policy (py "worker") 1 None w)) = file_status k w) /\
  forall r, fst (replay (Session := ToySession) (Chunks := ToyChunks)
     default_policy (py "worker") 1 None w) = Returned r ->
    ir_status r = COMPLETED /\ ir_replayed r = true /\ ir_transferred_bytes r = 0.
Proof.
  intros w. apply (replay_keeps_lifecycle (Session := ToySession) (Chunks := ToyChunks)
    default_policy (py "worker") 1 None w); [|apply surjective_pairing].
  apply (reachable_wf _ _ _ reachable_completed).
Defined.

Lemma completed_reingest_witness :
  let w := toy_world db_completed [] None in
  let run := toy_ingest None w in
  run.2.2 = w.2 /\ held run.2.1 = held w.1 /\ sources (db run.2.1) = sources (db w.1) /\
  runs (db run.2.1) = runs (db w.1) /\ events (db run.2.1) = events (db w.1) /\
  archives (db run.2.1) = archives (db w.1) /\
  forall r, run.1 = Returned r -> ir_source_file_id r = 1 /\ ir_status r = COMPLETED /\
    ir_duplicate r = true /\ ir_transferred_bytes r = 0.
Proof.
  intros w run.
  apply (completed_reingest (Session := ToySession) (Chunks := ToyChunks) sample_split sample_fold
    zsum toy_ops default_policy (py "worker") sample_remote None w.1 w.2 run.1 run.2 1
    (row_of db_completed 1)); [apply reachable_completed|..].
  - vm_compute. reflexivity.
  - vm_compute. reflexivity.
  - apply surjective_pairing.
Defined.

Lemma retryable_failure_masked_witness :
  let w := toy_owner db_failed [] None in
  on_error (H := toy_repository) (A := IngestionResult) 1 0 (MakoletExn ArchiveCapacityError 0) w =
    (Raised (MakoletExn InvalidStateTransitionError 0), w).
Proof.
  intros w. apply (retryable_failure_masked sample_split sample_fold toy_ops 1 0 ArchiveCapacityError 0
    w.1 w.2 (row_of db_failed 1)); [apply reachable_failed|vm_compute; reflexivity..].
Defined.
