(* ===== verification/CollectionPorts.v ===== *)
(** What the traversal of [src/src/makolet/application/collection.py] asks of its
    surroundings: the protocols of that file and of [ports.py] as classes, and its
    policy.  [W] is the state the ports share. *)
From S2P Require Import Prelude Errors Effects Enums PyNumbers Models AppModels.

(** ** The transfer constants of [ports.py] *)

Definition MAXIMUM_TRANSFER_CHUNK_BYTES : Z := 64 * 1024.
Definition MAXIMUM_FTP_RESOLVED_ADDRESSES : Z := 4.
Definition FTP_CONTROL_BYTES_PER_ATTEMPT : Z := 128 * 1024.
Definition FTP_TLS13_NORMAL_RECORD_OVERHEAD_BYTES : Z := 22.
Definition FTP_TLS_APPLICATION_DATA_BYTES_PER_RECORD : Z := 16 * 1024.
Definition MAXIMUM_TRANSFER_PROTOCOL_OVERHEAD_BYTES : Z := 256 * 1024.
Definition HTTP_CONTROL_BYTES_PER_ATTEMPT : Z := 128 * 1024.
Definition HTTP_DNS_CONTROL_BYTES_PER_LOOKUP : Z := 64 * 1024.
Definition MAXIMUM_HTTP_RESOLVED_ADDRESSES : Z := MAXIMUM_FTP_RESOLVED_ADDRESSES.
Definition MAXIMUM_HTTP_REDIRECTS : Z := 3.
Definition MAXIMUM_HTTP_LOGICAL_HOPS : Z := MAXIMUM_HTTP_REDIRECTS + 1.
Definition MAXIMUM_HTTP_TLS_APPLICATION_DATA_BYTES_PER_RECORD : Z := 16 * 1024.
Definition MAXIMUM_HTTP_TLS13_NORMAL_RECORD_OVERHEAD_BYTES : Z := 22.
Definition MAXIMUM_SUPPORTED_ARCHIVE_OBJECT_BYTES : Z := 16 * 1024 * 1024 * 1024.
Definition MAXIMUM_HTTP_TLS13_FRAMING_BYTES_PER_OPEN : Z :=
  (MAXIMUM_SUPPORTED_ARCHIVE_OBJECT_BYTES
   + MAXIMUM_HTTP_TLS_APPLICATION_DATA_BYTES_PER_RECORD - 1)
  / MAXIMUM_HTTP_TLS_APPLICATION_DATA_BYTES_PER_RECORD
  * MAXIMUM_HTTP_TLS13_NORMAL_RECORD_OVERHEAD_BYTES.
Definition MAXIMUM_HTTP_CONTROL_BYTES_PER_OPEN : Z :=
  HTTP_CONTROL_BYTES_PER_ATTEMPT * MAXIMUM_HTTP_RESOLVED_ADDRESSES * MAXIMUM_HTTP_LOGICAL_HOPS
  + HTTP_DNS_CONTROL_BYTES_PER_LOOKUP * MAXIMUM_HTTP_LOGICAL_HOPS.
Definition MAXIMUM_HTTP_TRANSFER_OVERHEAD_BYTES_PER_OPEN : Z :=
  MAXIMUM_HTTP_CONTROL_BYTES_PER_OPEN + MAXIMUM_HTTP_TLS13_FRAMING_BYTES_PER_OPEN.
Definition MAXIMUM_HTTP_TRANSFER_PROTOCOL_OVERHEAD_BYTES : Z :=
  MAXIMUM_HTTP_TRANSFER_OVERHEAD_BYTES_PER_OPEN * MAXIMUM_HTTP_LOGICAL_HOPS.
Definition MAXIMUM_FTP_TLS13_FRAMING_BYTES_PER_OPEN : Z :=
  (MAXIMUM_SUPPORTED_ARCHIVE_OBJECT_BYTES + FTP_TLS_APPLICATION_DATA_BYTES_PER_RECORD - 1)
  / FTP_TLS_APPLICATION_DATA_BYTES_PER_RECORD
  * FTP_TLS13_NORMAL_RECORD_OVERHEAD_BYTES.
Definition MAXIMUM_FTP_TRANSFER_PROTOCOL_OVERHEAD_BYTES : Z :=
  MAXIMUM_TRANSFER_PROTOCOL_OVERHEAD_BYTES
  + FTP_CONTROL_BYTES_PER_ATTEMPT * MAXIMUM_FTP_RESOLVED_ADDRESSES
  + MAXIMUM_FTP_TLS13_FRAMING_BYTES_PER_OPEN.

(** ** The scope of a traversal *)

(** [tuple(sorted(set(v))) == v]: strictly increasing in code-point order. *)
Fixpoint str_ltb (a b : pystr) : bool :=
  match a, b with
  | _, [] => false
  | [], _ :: _ => true
  | x :: a, y :: b => (x <? y) || ((x =? y) && str_ltb a b)
  end.
Fixpoint strictly_sorted (l : list pystr) : bool :=
  match l with
  | [] => true
  | x :: l => match l with [] => true | y :: _ => str_ltb x y end && strictly_sorted l
  end.

Definition datetime_ltb (a b : datetime) : bool := instant_of a <? instant_of b.

(** [CollectionScope.__post_init__]. *)
Definition CollectionScope_post_init {W} (s : CollectionScope) : M W unit :=
  raise_if (negb (str_truthy (sc_source_id s)) || (128 <? py_len (sc_source_id s)))
    (PyExn ValueError);;
  raise_if (negb (bool_decide (sc_portal_ids s <> [])) || negb (strictly_sorted (sc_portal_ids s))
            || py_any (fun p => negb (str_truthy p) || (256 <? py_len p)) (sc_portal_ids s))
    (PyExn ValueError);;
  raise_if (negb (bool_decide (sc_since s = None <-> sc_until s = None))) (PyExn ValueError);;
  raise_if (match sc_since s with Some d => negb (is_aware d) | None => false end)
    (PyExn ValueError);;
  raise_if (match sc_until s with Some d => negb (is_aware d) | None => false end)
    (PyExn ValueError);;
  raise_if (match sc_since s, sc_until s with
            | Some since, Some until => datetime_ltb until since
            | _, _ => false
            end) (PyExn ValueError);;
  raise_if (bool_decide (sc_operation s = ordinary)
            && (bool_decide (sc_since s <> None) || bool_decide (sc_until s <> None)
                || sc_archive_only s)) (PyExn ValueError).

(** ** The ports *)

(** [DiscoveryPage]; a [DiscoveryCursor] is its value. *)
Record DiscoveryPage := {
  pg_files : list RemoteFile;
  pg_next_cursor : option (option pystr);
  pg_complete : bool
}.

(** [SourceAdapter.discover] under the traversal's [asyncio.timeout]: the adapter charges
    the shared budget while it lists; [None] is the timeout expiring. *)
Class SourceAdapter (W : Type) := {
  monotonic : M W Z;
  discover : pystr -> option pystr -> Z -> M (W * DiscoveryRunBudget) (option DiscoveryPage)
}.

(** [FileIngestion], and [CatalogBootstrap] where one is configured. *)
Class FileIngestion (W : Type) := {
  fi_register : RemoteFile -> M W RegisteredSourceFile;
  fi_ingest : RemoteFile -> option Z -> M W IngestionResult;
  fi_archive_only : RemoteFile -> option Z -> M W IngestionResult;
  fi_replay : uuid -> M W IngestionResult;
  catalog_bootstrap : option (uuid -> M W unit)
}.

(** The keyword arguments of [advance_attempt] that count progress. *)
Record Progress := {
  discovered_delta : Z;
  recognized_delta : Z;
  unknown_delta : Z;
  processed_delta : Z;
  duplicate_delta : Z
}.
Definition no_progress : Progress :=
  {| discovered_delta := 0; recognized_delta := 0; unknown_delta := 0; processed_delta := 0;
     duplicate_delta := 0 |}.

(** The finish statuses and the durable truncation reasons that callers pass. *)
Inductive attempt_status := running | completed | bounded | failed.
#[export] Instance attempt_status_eq_dec : EqDecision attempt_status.
Proof. solve_decision. Defined.

Inductive truncation_reason :=
  | file_limit | discovery_limit | charged_byte_run_limit | charged_byte_day_limit
  | identity_day_limit | attempt_day_limit | success_day_limit
  | listing_limit (r : discovery_reason).
#[export] Instance truncation_reason_eq_dec : EqDecision truncation_reason.
Proof. solve_decision. Defined.

(** [CollectionRepository]. *)
Class CollectionRepository (W : Type) := {
  begin_attempt : CollectionScope -> M W CollectionAttempt;
  advance_attempt : uuid -> option pystr -> Z -> option pystr -> Z -> Progress ->
    M W CollectionAttempt;
  finish_attempt : uuid -> attempt_status -> bool -> bool -> option truncation_reason ->
    option string -> M W unit;
  observe_attempt : uuid -> Z -> M W unit;
  is_terminal : RemoteFile -> bool -> M W bool;
  note_terminal : RemoteFile -> bool -> M W unit;
  charge_budget : uuid -> M W CollectionChargeBudget;
  reserve_transfer : uuid -> uuid -> RemoteFile -> Z -> M W CollectionChargeBudget;
  settle_transfer : uuid -> uuid -> RemoteFile -> Z -> M W CollectionChargeBudget
}.

(** ** The policy *)

(** [CollectionPolicy]; durations in nanoseconds. *)
Record CollectionPolicy := {
  discovery_page_size : Z;
  maximum_listing_requests_per_source_run : Z;
  maximum_listing_bytes_per_source_run : Z;
  maximum_listing_elapsed_per_source_run : Z;
  maximum_files_per_source_run : Z;
  maximum_discovery_records_per_source_run : Z;
  maximum_reported_files : Z;
  maximum_archive_object_bytes : Z;
  maximum_transfer_chunk_bytes : Z;
  maximum_transfer_protocol_overhead_bytes : Z;
  maximum_http_transfer_protocol_overhead_bytes : Z;
  maximum_charged_bytes_per_source_run : Z;
  maximum_charged_bytes_per_source_day : Z;
  maximum_source_identities_per_source_day : Z;
  maximum_transfer_attempts_per_source_day : Z;
  maximum_successes_per_source_day : Z;
  source_lease_ttl : Z
}.

(** The defaults. *)
Definition default_collection_policy : CollectionPolicy := {|
  discovery_page_size := 100;
  maximum_listing_requests_per_source_run := 256;
  maximum_listing_bytes_per_source_run := 8 * 1024 * 1024;
  maximum_listing_elapsed_per_source_run := 300 * one_second;
  maximum_files_per_source_run := 10000;
  maximum_discovery_records_per_source_run := 100000;
  maximum_reported_files := 100;
  maximum_archive_object_bytes := 2 * 1024 * 1024 * 1024;
  maximum_transfer_chunk_bytes := MAXIMUM_TRANSFER_CHUNK_BYTES;
  maximum_transfer_protocol_overhead_bytes := MAXIMUM_FTP_TRANSFER_PROTOCOL_OVERHEAD_BYTES;
  maximum_http_transfer_protocol_overhead_bytes := MAXIMUM_HTTP_TRANSFER_PROTOCOL_OVERHEAD_BYTES;
  maximum_charged_bytes_per_source_run := 8 * 1024 * 1024 * 1024;
  maximum_charged_bytes_per_source_day := 32 * 1024 * 1024 * 1024;
  maximum_source_identities_per_source_day := 2000;
  maximum_transfer_attempts_per_source_day := 4000;
  maximum_successes_per_source_day := 2000;
  source_lease_ttl := 24 * 3600 * one_second
|}.

Definition between (lo x hi : Z) : bool := (lo <=? x) && (x <=? hi).

(** [CollectionPolicy.__post_init__]. *)
Definition CollectionPolicy_post_init {W} (p : CollectionPolicy) : M W unit :=
  raise_if (negb (between 1 (discovery_page_size p) 500)) (PyExn ValueError);;
  new_budget (maximum_listing_requests_per_source_run p)
    (maximum_listing_bytes_per_source_run p) (maximum_listing_elapsed_per_source_run p) 0;;
  raise_if (negb (between 1 (maximum_files_per_source_run p) 10000)) (PyExn ValueError);;
  raise_if (negb (between (maximum_files_per_source_run p)
                    (maximum_discovery_records_per_source_run p) 1000000)) (PyExn ValueError);;
  raise_if (negb (between 1 (maximum_reported_files p) (maximum_files_per_source_run p)))
    (PyExn ValueError);;
  raise_if (negb (between 1 (maximum_archive_object_bytes p) MAXIMUM_SUPPORTED_ARCHIVE_OBJECT_BYTES
      && between 1 (maximum_transfer_chunk_bytes p) MAXIMUM_TRANSFER_CHUNK_BYTES
      && between 0 (maximum_transfer_protocol_overhead_bytes p)
           MAXIMUM_FTP_TRANSFER_PROTOCOL_OVERHEAD_BYTES
      && between 0 (maximum_http_transfer_protocol_overhead_bytes p)
           MAXIMUM_HTTP_TRANSFER_PROTOCOL_OVERHEAD_BYTES
      && between (maximum_archive_object_bytes p + maximum_transfer_chunk_bytes p
                  + Z.max (maximum_transfer_protocol_overhead_bytes p)
                      (maximum_http_transfer_protocol_overhead_bytes p))
           (maximum_charged_bytes_per_source_run p) (maximum_charged_bytes_per_source_day p)
      && (maximum_charged_bytes_per_source_day p <=? 16 * 1024 * 1024 * 1024 * 1024)))
    (PyExn ValueError);;
  raise_if (negb ((0 <? source_lease_ttl p) && (source_lease_ttl p <=? 24 * 3600 * one_second)))
    (PyExn ValueError);;
  raise_if (negb (between 1 (maximum_source_identities_per_source_day p)
                    (maximum_transfer_attempts_per_source_day p)
      && (maximum_transfer_attempts_per_source_day p <=? 100000))) (PyExn ValueError);;
  raise_if (negb (between 1 (maximum_successes_per_source_day p) 100000)) (PyExn ValueError).

(** A policy the constructor accepts. *)
Definition collection_policy_ok (p : CollectionPolicy) : Prop :=
  fst (CollectionPolicy_post_init p tt) = Returned tt.
