(* ===== verification/CollectionService.v ===== *)
(** [src/src/makolet/application/collection.py]: the bounded traversal of one source's
    listing.  The local variables of [_collect_with_context] are the record [traversal],
    threaded next to the world; the freshness gauge and the lifecycle log have no state
    here. *)
From S2P Require Import Prelude Errors Effects Enums PyNumbers Models AppModels Ports CollectionPorts.

(** ** Helpers *)

(** [_durable_truncation_reason]. *)
Definition durable_truncation_reason (r : option truncation_reason) : option truncation_reason :=
  match r with Some (listing_limit _) => Some discovery_limit | r => r end.

(** [_within_range]. *)
Definition within_range (rf : RemoteFile) (since until : option datetime) : bool :=
  match since, until with
  | None, None => true
  | _, _ =>
      match rf_source_timestamp rf with
      | None => false
      | Some t => match since with Some s => negb (datetime_ltb t s) | None => true end
                  && match until with Some u => negb (datetime_ltb u t) | None => true end
      end
  end.

(** [_collection_error_code]. *)
Definition collection_error_code (e : exn) : string :=
  match e with
  | PyExn CancelledError => "operation_cancelled"
  | PyExn _ => "unexpected_error"
  | MakoletExn c _ => error_class_code c
  end.

Definition invalid_page : exn := MakoletExn SourceResponseError 0.

(** [_publisher_cursor]. *)
Definition publisher_cursor {W} (value : pystr) : M W pystr :=
  raise_if (negb (between 1 (utf8_len value) 8192)) invalid_page;;
  mret value.

(** [_validate_remote_scope]. *)
Definition validate_remote_scope {W} (rf : RemoteFile) (scope : CollectionScope) : M W unit :=
  raise_if (negb (bool_decide (rf_retailer_id rf = sc_source_id scope))
            || negb (bool_decide (rf_portal_id rf ∈ sc_portal_ids scope))) invalid_page.

(** The test for files the traversal records but does not process. *)
Definition unknown_format (rf : RemoteFile) : bool :=
  bool_decide (rf_document_type rf = DOC_UNKNOWN) || bool_decide (rf_compression rf = COMP_UNKNOWN).

Section policy.
Variable policy : CollectionPolicy.

(** [_charge_budget_reason]. *)
Definition charge_budget_reason (b : CollectionChargeBudget) : option truncation_reason :=
  if maximum_charged_bytes_per_source_run policy <=? run_charged_bytes b
  then Some charged_byte_run_limit
  else if maximum_charged_bytes_per_source_day policy <=? day_charged_bytes b
  then Some charged_byte_day_limit
  else if maximum_source_identities_per_source_day policy <=? day_source_identities b
  then Some identity_day_limit
  else if maximum_transfer_attempts_per_source_day policy <=? day_transfer_attempts b
  then Some attempt_day_limit
  else if maximum_successes_per_source_day policy <=? day_successes b
  then Some success_day_limit
  else None.

Definition run_remaining (b : CollectionChargeBudget) : Z :=
  maximum_charged_bytes_per_source_run policy - run_charged_bytes b.
Definition day_remaining (b : CollectionChargeBudget) : Z :=
  maximum_charged_bytes_per_source_day policy - day_charged_bytes b.
Definition remaining_charge (b : CollectionChargeBudget) : Z :=
  Z.min (run_remaining b) (day_remaining b).

(** Which of the two byte limits is the nearer one. *)
Definition byte_limit_reason (b : CollectionChargeBudget) : truncation_reason :=
  if run_remaining b <=? day_remaining b then charged_byte_run_limit else charged_byte_day_limit.

Definition protocol_overhead (rf : RemoteFile) : Z :=
  if bool_decide (rf_protocol rf ∈ [FTP; FTPS])
  then maximum_transfer_protocol_overhead_bytes policy
  else if bool_decide (rf_protocol rf ∈ [HTTP; HTTPS])
  then maximum_http_transfer_protocol_overhead_bytes policy
  else 0.

Definition full_reservation (rf : RemoteFile) : Z :=
  maximum_archive_object_bytes policy + protocol_overhead rf + maximum_transfer_chunk_bytes policy.
End policy.

(** ** The locals of one traversal

    [run_truncated] and [truncation_reason] are always set together: [t_truncation]. *)
Record traversal := {
  t_attempt : CollectionAttempt;
  t_discovered : Z;
  t_ingested : Z;
  t_duplicates : Z;
  t_skipped_unknown : Z;
  t_reported : list (pystr * IngestionResult);
  t_truncation : option truncation_reason;
  t_complete : bool;
  t_retry_boundary : bool;
  t_postprocess_pending : bool;
  t_budget : option CollectionChargeBudget;
  t_charged_bytes : Z;
  t_listing : DiscoveryRunBudget
}.

Definition with_attempt (a : CollectionAttempt) (t : traversal) : traversal :=
  {| t_attempt := a; t_discovered := t_discovered t; t_ingested := t_ingested t;
     t_duplicates := t_duplicates t; t_skipped_unknown := t_skipped_unknown t;
     t_reported := t_reported t; t_truncation := t_truncation t; t_complete := t_complete t;
     t_retry_boundary := t_retry_boundary t; t_postprocess_pending := t_postprocess_pending t;
     t_budget := t_budget t; t_charged_bytes := t_charged_bytes t; t_listing := t_listing t |}.
Definition with_discovered (t : traversal) : traversal :=
  {| t_attempt := t_attempt t; t_discovered := t_discovered t + 1; t_ingested := t_ingested t;
     t_duplicates := t_duplicates t; t_skipped_unknown := t_skipped_unknown t;
     t_reported := t_reported t; t_truncation := t_truncation t; t_complete := t_complete t;
     t_retry_boundary := t_retry_boundary t; t_postprocess_pending := t_postprocess_pending t;
     t_budget := t_budget t; t_charged_bytes := t_charged_bytes t; t_listing := t_listing t |}.
Definition with_skipped (t : traversal) : traversal :=
  {| t_attempt := t_attempt t; t_discovered := t_discovered t; t_ingested := t_ingested t;
     t_duplicates := t_duplicates t; t_skipped_unknown := t_skipped_unknown t + 1;
     t_reported := t_reported t; t_truncation := t_truncation t; t_complete := t_complete t;
     t_retry_boundary := t_retry_boundary t; t_postprocess_pending := t_postprocess_pending t;
     t_budget := t_budget t; t_charged_bytes := t_charged_bytes t; t_listing := t_listing t |}.
Definition with_result (limit : Z) (rf : RemoteFile) (r : IngestionResult) (t : traversal)
    : traversal :=
  {| t_attempt := t_attempt t; t_discovered := t_discovered t; t_ingested := t_ingested t + 1;
     t_duplicates := t_duplicates t + Z.b2z (ir_duplicate r);
     t_skipped_unknown := t_skipped_unknown t;
     t_reported := if py_len (t_reported t) <? limit
                   then t_reported t ++ [(rf_original_filename rf, r)] else t_reported t;
     t_truncation := t_truncation t; t_complete := t_complete t;
     t_retry_boundary := t_retry_boundary t; t_postprocess_pending := t_postprocess_pending t;
     t_budget := t_budget t; t_charged_bytes := t_charged_bytes t; t_listing := t_listing t |}.
Definition with_truncation (r : truncation_reason) (t : traversal) : traversal :=
  {| t_attempt := t_attempt t; t_discovered := t_discovered t; t_ingested := t_ingested t;
     t_duplicates := t_duplicates t; t_skipped_unknown := t_skipped_unknown t;
     t_reported := t_reported t; t_truncation := Some r; t_complete := t_complete t;
     t_retry_boundary := t_retry_boundary t; t_postprocess_pending := t_postprocess_pending t;
     t_budget := t_budget t; t_charged_bytes := t_charged_bytes t; t_listing := t_listing t |}.
Definition with_complete (t : traversal) : traversal :=
  {| t_attempt := t_attempt t; t_discovered := t_discovered t; t_ingested := t_ingested t;
     t_duplicates := t_duplicates t; t_skipped_unknown := t_skipped_unknown t;
     t_reported := t_reported t; t_truncation := t_truncation t; t_complete := true;
     t_retry_boundary := t_retry_boundary t; t_postprocess_pending := t_postprocess_pending t;
     t_budget := t_budget t; t_charged_bytes := t_charged_bytes t; t_listing := t_listing t |}.
Definition with_flags (retry pending : bool) (t : traversal) : traversal :=
  {| t_attempt := t_attempt t; t_discovered := t_discovered t; t_ingested := t_ingested t;
     t_duplicates := t_duplicates t; t_skipped_unknown := t_skipped_unknown t;
     t_reported := t_reported t; t_truncation := t_truncation t; t_complete := t_complete t;
     t_retry_boundary := retry; t_postprocess_pending := pending;
     t_budget := t_budget t; t_charged_bytes := t_charged_bytes t; t_listing := t_listing t |}.
Definition with_budget (b : CollectionChargeBudget) (t : traversal) : traversal :=
  {| t_attempt := t_attempt t; t_discovered := t_discovered t; t_ingested := t_ingested t;
     t_duplicates := t_duplicates t; t_skipped_unknown := t_skipped_unknown t;
     t_reported := t_reported t; t_truncation := t_truncation t; t_complete := t_complete t;
     t_retry_boundary := t_retry_boundary t; t_postprocess_pending := t_postprocess_pending t;
     t_budget := Some b; t_charged_bytes := t_charged_bytes t; t_listing := t_listing t |}.
Definition with_charged (n : Z) (t : traversal) : traversal :=
  {| t_attempt := t_attempt t; t_discovered := t_discovered t; t_ingested := t_ingested t;
     t_duplicates := t_duplicates t; t_skipped_unknown := t_skipped_unknown t;
     t_reported := t_reported t; t_truncation := t_truncation t; t_complete := t_complete t;
     t_retry_boundary := t_retry_boundary t; t_postprocess_pending := t_postprocess_pending t;
     t_budget := t_budget t; t_charged_bytes := n; t_listing := t_listing t |}.
Definition with_listing (b : DiscoveryRunBudget) (t : traversal) : traversal :=
  {| t_attempt := t_attempt t; t_discovered := t_discovered t; t_ingested := t_ingested t;
     t_duplicates := t_duplicates t; t_skipped_unknown := t_skipped_unknown t;
     t_reported := t_reported t; t_truncation := t_truncation t; t_complete := t_complete t;
     t_retry_boundary := t_retry_boundary t; t_postprocess_pending := t_postprocess_pending t;
     t_budget := t_budget t; t_charged_bytes := t_charged_bytes t; t_listing := b |}.

(** Their initial values. *)
Definition new_traversal (a : CollectionAttempt) (b : DiscoveryRunBudget) : traversal :=
  {| t_attempt := a; t_discovered := 0; t_ingested := 0; t_duplicates := 0;
     t_skipped_unknown := 0; t_reported := []; t_truncation := None; t_complete := false;
     t_retry_boundary := ca_retry_boundary a; t_postprocess_pending := false;
     t_budget := None; t_charged_bytes := 0; t_listing := b |}.

(** What [break] or the end of a loop body says. *)
Inductive loop_step := Next | Stop.

(** The collection result; the remaining entries of the source's dictionary are the scope
    and the attempt it was given. *)
Record CollectionResult := {
  cr_status : attempt_status;
  cr_file_count : Z;
  cr_discovered_count : Z;
  cr_duplicate_count : Z;
  cr_skipped_unknown_count : Z;
  cr_reported_files : list (pystr * IngestionResult);
  cr_report_truncated : bool;
  cr_truncation_reason : option truncation_reason;
  cr_listing_request_count : Z;
  cr_listing_bytes : Z;
  cr_charged_bytes : Z;
  cr_attempt_id : uuid;
  cr_generation : Z
}.

Section service.
Context {W : Type}.
Context `{!SourceAdapter W} `{!FileIngestion W} `{!CollectionRepository W} `{!LeaseManager W}.
Variable policy : CollectionPolicy.
Variable strict_source_scope : bool.
Variable worker_id : pystr.

(** ** Listing *)

(** [listing_budget.checkpoint()] at the current clock reading. *)
Definition budget_checkpoint : M (W * DiscoveryRunBudget) unit :=
  now ← lift monotonic;
  on_locals (checkpoint now).

(** [_discover_page]. *)
Definition discover_page (source_id : pystr) (cursor : option pystr)
    : M (W * DiscoveryRunBudget) DiscoveryPage :=
  budget_checkpoint;;
  page ← discover source_id cursor (discovery_page_size policy);
  match page with
  | None => raise (budget_exceeded listing_elapsed_limit)
  | Some page => budget_checkpoint;; mret page
  end.

(** Work on the listing budget among the locals. *)
Definition on_listing {A} (m : M (W * DiscoveryRunBudget) A) : M (W * traversal) A :=
  fun '(w, t) => let '(r, (w', b)) := m (w, t_listing t) in (r, (w', with_listing b t)).

Definition truncate (r : truncation_reason) : M (W * traversal) unit :=
  set_locals (with_truncation r).

(** [try: m  except DiscoveryBudgetExceededError as error: truncate; break]. *)
Definition until_budget {A} (m : M (W * traversal) A) : M (W * traversal) (option A) :=
  try_with (Some <$> m) (fun e =>
    match e with
    | MakoletExn (DiscoveryBudgetExceededError r) _ => truncate (listing_limit r);; mret None
    | _ => raise e
    end).

(** ** One file *)

(** [attempt = await self._repository.advance_attempt(...)]. *)
Definition advance (expected : option pystr) (expected_offset : Z) (cursor : option pystr)
    (offset : Z) (p : Progress) : M (W * traversal) unit :=
  t ← locals;
  a ← lift (advance_attempt (ca_attempt_id (t_attempt t)) expected expected_offset cursor offset p);
  set_locals (with_attempt a).

Definition set_pending (b : bool) : M (W * traversal) unit :=
  set_locals (fun t => with_flags (t_retry_boundary t) b t).
Definition clear_retry_boundary : M (W * traversal) unit :=
  set_locals (fun t => with_flags false (t_postprocess_pending t) t).

(** The boundary moves past the file at [index]. *)
Definition pass_file (cursor : option pystr) (index : Z) (p : Progress) : M (W * traversal) unit :=
  set_locals with_discovered;;
  advance cursor index cursor (index + 1) p.

(** [_bootstrap_catalog]. *)
Definition bootstrap_catalog (r : IngestionResult) : M W unit :=
  match catalog_bootstrap with
  | Some bootstrap => when (bool_decide (ir_status r = COMPLETED)) (bootstrap (ir_source_file_id r))
  | None => mret tt
  end.

(** The nested function [process]. *)
Definition process (scope : CollectionScope) (rf : RemoteFile) (sid : uuid) (limit : option Z)
    : M (W * traversal) (IngestionResult * CollectionChargeBudget) :=
  t ← locals;
  result ← lift (if sc_archive_only scope then fi_archive_only rf limit else fi_ingest rf limit);
  budget ← lift (settle_transfer (ca_attempt_id (t_attempt t)) sid rf
                   (ir_transferred_bytes result));
  when (negb (sc_archive_only scope))
    (set_pending true;; lift (bootstrap_catalog result);; set_pending false);;
  set_locals (with_result (maximum_reported_files policy) rf result);;
  mret (result, budget).

(** The [try] block around it. *)
Definition transfer_try (scope : CollectionScope) (rf : RemoteFile) (sid : uuid)
    (limit : option Z) : M (W * traversal) (option (IngestionResult * CollectionChargeBudget)) :=
  '(result, budget) ← process scope rf sid limit;
  set_locals (with_budget budget);;
  lift (note_terminal rf (sc_archive_only scope));;
  set_locals (with_charged (run_charged_bytes budget));;
  set_pending false;;
  mret (Some (result, budget)).

(** [charged_bytes = budget.run_charged_bytes]. *)
Definition charge_from_budget : M (W * traversal) unit :=
  set_locals (fun t =>
    match t_budget t with Some b => with_charged (run_charged_bytes b) t | None => t end).

(** [except ChargeBudgetExceededError as error]: settle, and stop the run. *)
Definition charge_exceeded (rf : RemoteFile) (sid : uuid) (transferred : Z)
    : M (W * traversal) (option (IngestionResult * CollectionChargeBudget)) :=
  t ← locals;
  set_locals with_discovered;;
  budget ← lift (settle_transfer (ca_attempt_id (t_attempt t)) sid rf transferred);
  set_locals (with_budget budget);;
  charge_from_budget;;
  lift (observe_attempt (ca_attempt_id (t_attempt t)) 1);;
  truncate (byte_limit_reason policy budget);;
  mret None.

(** [except BaseException as error]: settle what was transferred and re-raise, past the
    file only if it is durably terminal. *)
Definition transfer_reraised {A} (scope : CollectionScope) (cursor : option pystr) (index : Z)
    (rf : RemoteFile) (sid : uuid) (e : exn) : M (W * traversal) A :=
  t ← locals;
  let attempt_id := ca_attempt_id (t_attempt t) in
  let boundary_was_pending := t_postprocess_pending t in
  set_pending true;;
  match exn_transferred e with
  | Some transferred =>
      when (0 <=? transferred)
        (budget ← lift (settle_transfer attempt_id sid rf transferred);
         set_locals (with_budget budget))
  | None => mret tt
  end;;
  charge_from_budget;;
  set_pending boundary_was_pending;;
  terminal ← if boundary_was_pending then mret false
             else lift (is_terminal rf (sc_archive_only scope));
  (if (terminal : bool)
   then pass_file cursor index
          {| discovered_delta := 1; recognized_delta := 1; unknown_delta := 0;
             processed_delta := 1; duplicate_delta := 0 |}
   else set_locals with_discovered;; lift (observe_attempt attempt_id 1));;
  raise e.

Definition transfer_failed (scope : CollectionScope) (cursor : option pystr) (index : Z)
    (rf : RemoteFile) (sid : uuid) (e : exn)
    : M (W * traversal) (option (IngestionResult * CollectionChargeBudget)) :=
  match e with
  | MakoletExn ChargeBudgetExceededError transferred => charge_exceeded rf sid transferred
  | _ => transfer_reraised scope cursor index rf sid e
  end.

(** After a transfer: the boundary passes the file, and the run may have to stop. *)
Definition transfer_succeeded (cursor : option pystr) (index : Z) (result : IngestionResult)
    (budget : CollectionChargeBudget) : M (W * traversal) loop_step :=
  pass_file cursor index
    {| discovered_delta := 1; recognized_delta := 1; unknown_delta := 0;
       processed_delta := 1; duplicate_delta := Z.b2z (ir_duplicate result) |};;
  clear_retry_boundary;;
  match charge_budget_reason policy budget with
  | Some reason => truncate reason;; mret Stop
  | None => mret Next
  end.

(** Registering, reserving and transferring, once the budget allows it. *)
Definition reserve_and_transfer (scope : CollectionScope) (cursor : option pystr) (index : Z)
    (rf : RemoteFile) (retrying_terminal : bool) (budget : CollectionChargeBudget)
    : M (W * traversal) loop_step :=
  let headroom := maximum_transfer_chunk_bytes policy in
  let remaining := remaining_charge policy budget in
  if (remaining <=? headroom) && negb retrying_terminal
  then truncate (byte_limit_reason policy budget);; mret Stop
  else
    registered ← lift (fi_register rf);
    let sid := reg_source_file_id registered in
    let reserved := if retrying_terminal then 0
                    else Z.min remaining (full_reservation policy rf) in
    t ← locals;
    budget ← lift (reserve_transfer (ca_attempt_id (t_attempt t)) sid rf reserved);
    set_locals (with_budget budget);;
    charge_from_budget;;
    let limit := if retrying_terminal then None else Some (reserved - headroom) in
    outcome ← try_with (transfer_try scope rf sid limit)
                (transfer_failed scope cursor index rf sid);
    match outcome with
    | None => mret Stop
    | Some (result, budget) => transfer_succeeded cursor index result budget
    end.

Definition transfer_file (scope : CollectionScope) (cursor : option pystr) (index : Z)
    (rf : RemoteFile) (already_terminal : bool) : M (W * traversal) loop_step :=
  t ← locals;
  budget ← lift (charge_budget (ca_attempt_id (t_attempt t)));
  set_locals (with_budget budget);;
  charge_from_budget;;
  let retrying_terminal := already_terminal && t_retry_boundary t in
  match charge_budget_reason policy budget with
  | Some reason =>
      if retrying_terminal
      then reserve_and_transfer scope cursor index rf retrying_terminal budget
      else truncate reason;; mret Stop
  | None => reserve_and_transfer scope cursor index rf retrying_terminal budget
  end.

(** The body of the file loop. *)
Definition visit_file (scope : CollectionScope) (cursor : option pystr) (index : Z)
    (rf : RemoteFile) : M (W * traversal) loop_step :=
  within_budget ← until_budget (on_listing budget_checkpoint);
  match within_budget with
  | None => mret Stop
  | Some _ =>
      t ← locals;
      if maximum_discovery_records_per_source_run policy <=? t_discovered t
      then truncate discovery_limit;; mret Stop
      else
        when strict_source_scope (validate_remote_scope rf scope);;
        if unknown_format rf
        then
          set_locals with_skipped;;
          pass_file cursor index
            {| discovered_delta := 1; recognized_delta := 0; unknown_delta := 1;
               processed_delta := 0; duplicate_delta := 0 |};;
          clear_retry_boundary;;
          mret Next
        else
          already_terminal ← lift (is_terminal rf (sc_archive_only scope));
          t ← locals;
          if negb (within_range rf (sc_since scope) (sc_until scope))
             || (already_terminal && negb (t_retry_boundary t))
          then
            pass_file cursor index
              {| discovered_delta := 1; recognized_delta := 1; unknown_delta := 0;
                 processed_delta := 0; duplicate_delta := 0 |};;
            clear_retry_boundary;;
            mret Next
          else if maximum_files_per_source_run policy <=? t_ingested t
          then truncate file_limit;; mret Stop
          else transfer_file scope cursor index rf already_terminal
  end.

(** [for index in range(page_offset, len(page.files))]. *)
Fixpoint visit_files (scope : CollectionScope) (cursor : option pystr) (index : Z)
    (files : list RemoteFile) : M (W * traversal) unit :=
  match files with
  | [] => mret tt
  | rf :: files =>
      step ← visit_file scope cursor index rf;
      match step with
      | Next => visit_files scope cursor (index + 1) files
      | Stop => mret tt
      end
  end.

(** ** One page *)

(** The body of [while True] after the page is discovered: [Some] next cursor continues. *)
Definition visit_page (scope : CollectionScope) (cursor : option pystr) (page_offset : Z)
    (seen : list pystr) (page : DiscoveryPage) : M (W * traversal) (option pystr) :=
  let count := py_len (pg_files page) in
  raise_if (count <? page_offset) invalid_page;;
  raise_if (bool_decide (pg_files page = []) && bool_decide (pg_next_cursor page <> None))
    invalid_page;;
  visit_files scope cursor page_offset (drop (Z.to_nat page_offset) (pg_files page));;
  t ← locals;
  match t_truncation t with
  | Some _ => mret None
  | None =>
      match pg_next_cursor page with
      | None =>
          raise_if (negb (pg_complete page)) invalid_page;;
          advance cursor count None 0 no_progress;;
          set_locals with_complete;;
          mret None
      | Some None => raise invalid_page
      | Some (Some value) =>
          raise_if (bool_decide (Some value = cursor) || bool_decide (value ∈ seen)) invalid_page;;
          selected ← publisher_cursor value;
          advance cursor count (Some selected) 0 no_progress;;
          t ← locals;
          if maximum_files_per_source_run policy <=? t_ingested t
          then truncate file_limit;; mret None
          else if maximum_discovery_records_per_source_run policy <=? t_discovered t
          then truncate discovery_limit;; mret None
          else mret (Some selected)
      end
  end.

(** [while True]; [false] says the fuel ran out. *)
Fixpoint collect_pages (fuel : nat) (scope : CollectionScope) (cursor : option pystr)
    (page_offset : Z) (seen : list pystr) : M (W * traversal) bool :=
  match fuel with
  | O => mret false
  | S fuel =>
      page ← until_budget (on_listing (discover_page (sc_source_id scope) cursor));
      match page with
      | None => mret true
      | Some page =>
          next ← visit_page scope cursor page_offset seen page;
          match next with
          | None => mret true
          | Some next => collect_pages fuel scope (Some next) 0 (next :: seen)
          end
      end
  end.

(** ** The run *)

(** Every page but the first and the last discovers a file, so this many rounds do. *)
Definition collection_fuel : nat :=
  S (S (Z.to_nat (maximum_discovery_records_per_source_run policy))).

(** The [try] block of [_collect_with_context]. *)
Definition traverse (scope : CollectionScope) (attempt : CollectionAttempt)
    : M (W * traversal) bool :=
  finished ← collect_pages collection_fuel scope (ca_cursor attempt) (ca_page_offset attempt) [];
  t ← locals;
  raise_if (t_complete t && (ca_recognized_count (t_attempt t) =? 0)
            && (0 <? ca_unknown_count (t_attempt t))) invalid_page;;
  mret finished.

Definition collection_result (t : traversal) : CollectionResult :=
  {| cr_status := match t_truncation t with Some _ => bounded | None => completed end;
     cr_file_count := t_ingested t; cr_discovered_count := t_discovered t;
     cr_duplicate_count := t_duplicates t; cr_skipped_unknown_count := t_skipped_unknown t;
     cr_reported_files := t_reported t;
     cr_report_truncated := py_len (t_reported t) <? t_ingested t;
     cr_truncation_reason := t_truncation t;
     cr_listing_request_count := request_count (t_listing t);
     cr_listing_bytes := consumed_bytes (t_listing t);
     cr_charged_bytes := t_charged_bytes t;
     cr_attempt_id := ca_attempt_id (t_attempt t);
     cr_generation := ca_generation (t_attempt t) |}.

(** [_collect_with_context]; [None] says the fuel ran out. *)
Definition collect_with_context (scope : CollectionScope) (attempt : CollectionAttempt)
    : M W (option CollectionResult) :=
  now ← monotonic;
  listing ← new_budget (maximum_listing_requests_per_source_run policy)
              (maximum_listing_bytes_per_source_run policy)
              (maximum_listing_elapsed_per_source_run policy) now;
  with_locals (new_traversal attempt listing)
    (finished ← try_with (traverse scope attempt) (fun e =>
       t ← locals;
       lift (finish_attempt (ca_attempt_id (t_attempt t)) failed false (t_complete t) None
               (Some (collection_error_code e)));;
       raise e);
     t ← locals;
     lift (finish_attempt (ca_attempt_id (t_attempt t))
             (match t_truncation t with Some _ => bounded | None => completed end)
             (match t_truncation t with Some _ => true | None => false end)
             (t_complete t) (durable_truncation_reason (t_truncation t)) None);;
     mret (if (finished : bool) then Some (collection_result t) else None)).

(** ** The entry points *)

Variable source_ids : list pystr.
Variable source_portal_ids : pystr -> list pystr.
Variable source_factory_knows : pystr -> bool.

(** [_collect], with [_adapter]. *)
Definition collect (source_id : pystr) (since until : option datetime) (archive_only : bool)
    : M W (option CollectionResult) :=
  raise_if (negb (bool_decide (source_id ∈ source_ids)) || negb (source_factory_knows source_id))
    (MakoletExn NotFoundError 0);;
  let scope := {| sc_source_id := source_id; sc_portal_ids := source_portal_ids source_id;
                  sc_operation := match since, until with None, None => ordinary | _, _ => backfill end;
                  sc_since := since; sc_until := until; sc_archive_only := archive_only |} in
  CollectionScope_post_init scope;;
  with_lease (py "collection-source:" ++ source_id) worker_id (source_lease_ttl policy)
    (fun acquired =>
      raise_if (negb acquired) (MakoletExn LeaseUnavailableError 0);;
      attempt ← begin_attempt scope;
      collect_with_context scope attempt).

(** [ingest_source] (and [ingest_retailer], its alias). *)
Definition ingest_source (source_id : pystr) : M W (option CollectionResult) :=
  collect source_id None None false.

(** [ingest_all] over the batch sources, in order. *)
Fixpoint ingest_all (batch_source_ids : list pystr) : M W (list (option CollectionResult)) :=
  match batch_source_ids with
  | [] => mret []
  | source_id :: rest =>
      r ← ingest_source source_id;
      rs ← ingest_all rest;
      mret (r :: rs)
  end.

(** [backfill]. *)
Definition backfill_source (source_id : pystr) (since until : datetime) (archive_only : bool)
    : M W (option CollectionResult) :=
  raise_if (negb (is_aware since)) (PyExn ValueError);;
  raise_if (negb (is_aware until)) (PyExn ValueError);;
  raise_if (datetime_ltb until since) (PyExn ValueError);;
  collect source_id (Some since) (Some until) archive_only.

(** [CollectionOperations.replay]. *)
Definition replay_collected (sid : uuid) : M W IngestionResult :=
  result ← fi_replay sid;
  bootstrap_catalog result;;
  mret result.
End service.
