(* ===== verification/CollectionFacts.v ===== *)
(** The traversal of one listing: how far it counts, how long it runs, and what its
    durable boundary has passed. *)
From S2P Require Import Prelude Errors Effects Enums PyNumbers Models AppModels Ports CollectionPorts CollectionService.

(** A call whose effect does not matter. *)
Lemma wp_any {W A} (m : M W A) (Q : A -> W -> Prop) E w :
  (forall a w', Q a w') -> (forall e w', E e w') -> wp m Q E w.
Proof. intros HQ HE. unfold wp. destruct (m w) as [[?|?] ?]; auto. Qed.

(** Symbolic execution over the locals, the ports left arbitrary. *)
Ltac loc_step :=
  lazymatch goal with
  | |- wp locals _ _ _ => apply wp_locals
  | |- wp (set_locals _) _ _ _ => apply wp_set_locals
  | |- wp (lift _) _ _ _ => apply wp_lift
  | |- _ => wp_step
  end; cbv beta.

(** ** What a policy the constructor accepts guarantees *)

Section policy_facts.
Variable policy : CollectionPolicy.
Hypothesis Hpolicy : collection_policy_ok policy.

Record policy_facts : Prop := {
  pf_files : 1 <= maximum_files_per_source_run policy;
  pf_records : maximum_files_per_source_run policy <= maximum_discovery_records_per_source_run policy;
  pf_reported : 1 <= maximum_reported_files policy <= maximum_files_per_source_run policy;
  pf_object : 1 <= maximum_archive_object_bytes policy;
  pf_chunk : 1 <= maximum_transfer_chunk_bytes policy;
  pf_overhead : 0 <= maximum_transfer_protocol_overhead_bytes policy /\
                0 <= maximum_http_transfer_protocol_overhead_bytes policy;
  pf_charged : 1 <= maximum_charged_bytes_per_source_run policy
               <= maximum_charged_bytes_per_source_day policy;
  pf_listing : 1 <= maximum_listing_requests_per_source_run policy /\
               1 <= maximum_listing_bytes_per_source_run policy
}.

Lemma collection_policy_facts : policy_facts.
Proof.
  assert (Hwp : wp (CollectionPolicy_post_init policy) (fun _ _ => policy_facts)
    (fun _ _ => True) tt).
  { unfold CollectionPolicy_post_init, new_budget, between.
    repeat (wp_step; try done). reflect_bools. split; lia. }
  unfold collection_policy_ok in Hpolicy. unfold wp in Hwp.
  by destruct (CollectionPolicy_post_init policy tt) as [[?|?] ?].
Qed.
End policy_facts.

(** ** Counting *)

Section counting.
Context {W : Type}.
Context `{!SourceAdapter W} `{!FileIngestion W} `{!CollectionRepository W} `{!LeaseManager W}.
Variable policy : CollectionPolicy.
Variable strict_source_scope : bool.
Hypothesis Hpolicy : collection_policy_ok policy.

(** The counters between two files. *)
Record counts_ok (t : traversal) : Prop := {
  co_ingested : 0 <= t_ingested t <= maximum_files_per_source_run policy;
  co_discovered : 0 <= t_discovered t <= maximum_discovery_records_per_source_run policy;
  co_duplicates : 0 <= t_duplicates t <= t_ingested t;
  co_skipped : 0 <= t_skipped_unknown t;
  co_passed : t_ingested t + t_skipped_unknown t <= t_discovered t;
  co_reported : py_len (t_reported t) = Z.min (t_ingested t) (maximum_reported_files policy)
}.

(** The counters of [t'] are those of [t]. *)
Definition same_counts_as (t t' : traversal) : Prop :=
  t_ingested t' = t_ingested t /\ t_discovered t' = t_discovered t /\
  t_duplicates t' = t_duplicates t /\ t_skipped_unknown t' = t_skipped_unknown t /\
  t_reported t' = t_reported t.

Lemma same_counts_ok t t' : same_counts_as t t' -> counts_ok t -> counts_ok t'.
Proof.
  intros (H1 & H2 & H3 & H4 & H5) []. split; by rewrite ?H1, ?H2, ?H3, ?H4, ?H5.
Qed.

(** After one more discovered file, which may have been ingested. *)
Definition moved_on (t t' : traversal) : Prop :=
  t_discovered t' = t_discovered t + 1 /\ counts_ok t'.

(** What one round of the file loop does to the counters. *)
Definition visited (t : traversal) (s : loop_step) (t' : traversal) : Prop :=
  counts_ok t' /\
  match s with
  | Next => t_discovered t' = t_discovered t + 1 /\ t_truncation t' = t_truncation t
  | Stop => t_truncation t' <> None
  end.

Lemma wp_until_budget {A} (m : M (W * traversal) A) Q E p :
  wp m (fun a p' => Q (Some a) p')
    (fun e p' => match e with
                 | MakoletExn (DiscoveryBudgetExceededError r) _ =>
                     Q None (p'.1, with_truncation (listing_limit r) p'.2)
                 | _ => E e p'
                 end) p ->
  wp (until_budget m) Q E p.
Proof.
  intros Hm. unfold until_budget. do 2 wp_step. eapply wp_mono; [exact Hm|done|]; cbv beta.
  intros e [w t] He. destruct e as [[]|]; exact He.
Qed.

Lemma wp_on_listing {A} (m : M (W * DiscoveryRunBudget) A) Q E w t :
  wp m (fun a p => Q a (p.1, with_listing p.2 t)) (fun e p => E e (p.1, with_listing p.2 t))
    (w, t_listing t) ->
  wp (on_listing m) Q E (w, t).
Proof. unfold wp, on_listing. by destruct (m (w, t_listing t)) as [[a|e] [w' b]]. Qed.

(** Passing a file counts it. *)
Lemma pass_file_counts cursor index p w t :
  wp (pass_file cursor index p)
    (fun _ q => exists a, q.2 = with_attempt a (with_discovered t)) (fun _ _ => True) (w, t).
Proof.
  unfold pass_file, advance. repeat loc_step. apply wp_any; [|done]. intros a w'.
  repeat loc_step. by exists a.
Qed.

(** [process] counts one result, and touches no other counter before it does. *)
Definition kept (t t' : traversal) : Prop :=
  same_counts_as t t' /\ t_truncation t' = t_truncation t.
Definition processed (rf : RemoteFile) (t : traversal)
    (r : IngestionResult * CollectionChargeBudget) (p : W * traversal) : Prop :=
  exists t1, kept t t1 /\ p.2 = with_result (maximum_reported_files policy) rf r.1 t1.

Lemma process_counts scope rf sid limit w t :
  wp (process policy scope rf sid limit) (processed rf t) (fun _ p => kept t p.2) (w, t).
Proof.
  assert (Hend : forall result budget w1 t1, kept t t1 ->
    wp (set_locals (with_result (maximum_reported_files policy) rf result);; mret (result, budget))
      (processed rf t) (fun _ p => kept t p.2) (w1, t1)).
  { intros result budget w1 t1 Hk. do 3 loc_step. by exists t1. }
  unfold process. do 4 loc_step.
  apply (wp_any (if sc_archive_only scope then _ else _)); [|by split].
  intros result w1. do 2 loc_step. apply wp_any; [|by split]. intros budget w2.
  loc_step. loc_step; [|by apply Hend].
  unfold set_pending. repeat loc_step. apply wp_any; [|by split].
  intros _ w3. loc_step. by apply Hend.
Qed.

(** Ready to count one more discovered file. *)
Definition almost (t : traversal) : Prop := counts_ok (with_discovered t).

Lemma almost_kept t t' : almost t -> same_counts_as t t' -> almost t'.
Proof.
  intros Ht (H1 & H2 & H3 & H4 & H5). eapply same_counts_ok, Ht.
  split_and!; simpl; congruence.
Qed.

Lemma almost_start t :
  counts_ok t -> t_discovered t < maximum_discovery_records_per_source_run policy -> almost t.
Proof. intros [] Hd. split; simpl; lia. Qed.

Lemma almost_result rf r t :
  counts_ok t -> t_discovered t < maximum_discovery_records_per_source_run policy ->
  t_ingested t < maximum_files_per_source_run policy ->
  almost (with_result (maximum_reported_files policy) rf r t).
Proof.
  intros [] Hd Hi. split; simpl; try lia.
  - destruct (ir_duplicate r); simpl; lia.
  - destruct (Z.ltb_spec (py_len (t_reported t)) (maximum_reported_files policy));
      [rewrite py_len_app, py_len_cons, py_len_nil|]; lia.
Qed.

(** The [try] block and its handler: a result is ready to be counted, a stopped run is
    truncated. *)
Definition transferred (t : traversal) (o : option (IngestionResult * CollectionChargeBudget))
    (t' : traversal) : Prop :=
  match o with
  | Some _ => almost t' /\ t_truncation t' = t_truncation t /\ t_discovered t' = t_discovered t
  | None => counts_ok t' /\ t_truncation t' <> None
  end.

Lemma transfer_failed_counts scope cursor index rf sid e w t0 t :
  almost t ->
  wp (transfer_failed policy scope cursor index rf sid e) (fun o p => transferred t0 o p.2)
    (fun _ _ => True) (w, t).
Proof.
  intros Ht. assert (Hre : wp (transfer_reraised scope cursor index rf sid e)
    (fun o p => transferred t0 o p.2) (fun _ _ => True) (w, t)).
  { eapply (wp_mono _ (fun _ _ => False) _ (fun _ _ => True)); [|done|done].
    unfold transfer_reraised. repeat (apply wp_skip; intros ? ?). by wp_step. }
  unfold transfer_failed. destruct e as [[]|]; try exact Hre.
  unfold charge_exceeded, truncate, charge_from_budget. repeat loc_step. apply wp_any; [|done].
  intros budget w1. repeat loc_step. apply wp_any; [|done]. intros _ w2. repeat loc_step.
  split; [|done]. eapply same_counts_ok, Ht. by split_and!.
Qed.

Lemma transfer_counts scope cursor index rf sid limit w t :
  counts_ok t -> t_discovered t < maximum_discovery_records_per_source_run policy ->
  t_ingested t < maximum_files_per_source_run policy ->
  wp (try_with (transfer_try policy scope rf sid limit)
        (transfer_failed policy scope cursor index rf sid))
    (fun o p => transferred t o p.2) (fun _ _ => True) (w, t).
Proof.
  intros Ht Hd Hi. wp_step.
  assert (Hfail : forall e w1 t1, almost t1 -> wp (transfer_failed policy scope cursor index rf sid e)
    (fun o p => transferred t o p.2) (fun _ _ => True) (w1, t1)).
  { intros. by apply transfer_failed_counts. }
  assert (Hkept : forall t1, kept t t1 -> counts_ok t1 /\
    t_discovered t1 < maximum_discovery_records_per_source_run policy /\
    t_ingested t1 < maximum_files_per_source_run policy).
  { intros t1 [Hs _]. split; [by eapply same_counts_ok|]. destruct Hs as (-> & -> & _). done. }
  unfold transfer_try. wp_step. eapply wp_mono; [apply process_counts|..]; cbv beta.
  - intros [result budget] [w1 t2] (t1 & Hk & Ht2). simpl in Ht2. subst t2.
    destruct (Hkept _ Hk) as (Hc1 & Hd1 & Hi1).
    pose proof (almost_result rf result t1 Hc1 Hd1 Hi1) as Ha.
    do 4 loc_step. apply wp_any.
    + intros _ w2. unfold set_pending. repeat loc_step. simpl.
      destruct Hk as [(_ & Hdisc & _) Htr]. split_and!; [|done|done].
      eapply almost_kept; [exact Ha|by split_and!].
    + intros e w2. apply Hfail. eapply almost_kept; [exact Ha|by split_and!].
  - intros e [w1 t1] Hk. apply Hfail. simpl in Hk. destruct (Hkept _ Hk) as (Hc1 & Hd1 & _).
    by apply almost_start.
Qed.

(** Passing a file on the way to the next one. *)
Lemma pass_file_visits cursor index p (k : M (W * traversal) loop_step) Q w t :
  (forall w' a, wp k Q (fun _ _ => True) (w', with_attempt a (with_discovered t))) ->
  wp (pass_file cursor index p;; k) Q (fun _ _ => True) (w, t).
Proof.
  intros Hk. wp_step. eapply wp_mono; [apply pass_file_counts| |done]; cbv beta.
  intros _ [w' t'] [a Ha]. simpl in Ha. subst t'. apply Hk.
Qed.

Lemma truncate_visits r w t0 t : counts_ok t ->
  wp (truncate r;; mret Stop) (fun s p => visited t0 s p.2) (fun _ _ => True) (w : W, t).
Proof.
  intros Ht. unfold truncate. repeat loc_step. split; [|done].
  eapply same_counts_ok, Ht. by split_and!.
Qed.

Lemma transfer_succeeded_counts cursor index result budget w t0 t :
  almost t -> t_truncation t = t_truncation t0 -> t_discovered t = t_discovered t0 ->
  wp (transfer_succeeded policy cursor index result budget)
    (fun s p => visited t0 s p.2) (fun _ _ => True) (w, t).
Proof.
  intros Ha Htr Hd. unfold transfer_succeeded. apply pass_file_visits. intros w1 a.
  unfold clear_retry_boundary. do 2 loc_step. destruct (charge_budget_reason policy budget).
  - apply truncate_visits. eapply same_counts_ok, Ha. by split_and!.
  - loc_step. split; [eapply same_counts_ok, Ha; by split_and!|]. simpl. by rewrite Hd.
Qed.

Lemma reserve_and_transfer_counts scope cursor index rf retrying budget w t :
  counts_ok t -> t_discovered t < maximum_discovery_records_per_source_run policy ->
  t_ingested t < maximum_files_per_source_run policy ->
  wp (reserve_and_transfer policy scope cursor index rf retrying budget)
    (fun s p => visited t s p.2) (fun _ _ => True) (w, t).
Proof.
  intros Ht Hd Hi. unfold reserve_and_transfer. loc_step; [by apply truncate_visits|].
  do 2 loc_step. apply wp_any; [|done]. intros registered w1. do 4 loc_step.
  apply wp_any; [|done]. intros reserved w2. unfold charge_from_budget. do 4 loc_step. cbn [t_budget with_budget].
  set (t1 := with_charged _ _).
  assert (Hc1 : counts_ok t1) by (eapply same_counts_ok, Ht; by split_and!).
  loc_step. eapply wp_mono; [by apply (transfer_counts _ _ _ _ _ _ _ t1)| |done]; cbv beta.
  intros [[result charged]|] [w3 t3]; simpl.
  - intros (Ha & Htr & Hdisc). by apply transfer_succeeded_counts.
  - intros [Hc3 Htr]. loc_step. by split.
Qed.

Lemma transfer_file_counts scope cursor index rf terminal w t :
  counts_ok t -> t_discovered t < maximum_discovery_records_per_source_run policy ->
  t_ingested t < maximum_files_per_source_run policy ->
  wp (transfer_file policy scope cursor index rf terminal)
    (fun s p => visited t s p.2) (fun _ _ => True) (w, t).
Proof.
  intros Ht Hd Hi. unfold transfer_file, charge_from_budget.
  do 4 loc_step. apply wp_any; [|done]. intros budget w1. do 4 loc_step. cbn [t_budget with_budget].
  set (t1 := with_charged _ _).
  assert (Hc1 : counts_ok t1) by (eapply same_counts_ok, Ht; by split_and!).
  assert (Hgo : forall b, wp (reserve_and_transfer policy scope cursor index rf b budget)
    (fun s p => visited t s p.2) (fun _ _ => True) (w1, t1)).
  { intros b. by apply (reserve_and_transfer_counts _ _ _ _ _ _ _ t1). }
  repeat (case_match; try apply Hgo). by apply truncate_visits.
Qed.

(** The skipping branches pass the file. *)
Lemma skip_counts cursor index p w t0 t :
  almost t -> t_truncation t = t_truncation t0 -> t_discovered t = t_discovered t0 ->
  wp (pass_file cursor index p;; clear_retry_boundary;; mret Next)
    (fun s p => visited t0 s p.2) (fun _ _ => True) (w, t).
Proof.
  intros Ha Htr Hd. apply pass_file_visits. intros w1 a. unfold clear_retry_boundary.
  do 3 loc_step. split; [eapply same_counts_ok, Ha; by split_and!|]. simpl. by rewrite Hd.
Qed.

Lemma visit_file_counts scope cursor index rf w t :
  counts_ok t ->
  wp (visit_file policy strict_source_scope scope cursor index rf)
    (fun s p => visited t s p.2) (fun _ _ => True) (w, t).
Proof.
  intros Ht. unfold visit_file. loc_step. apply wp_until_budget, wp_on_listing, wp_any.
  2: { intros e [w1 b]. repeat case_match; try done. loc_step. split; [|done].
       eapply same_counts_ok, Ht. by split_and!. }
  intros _ [w1 b]. simpl. set (t1 := with_listing b t).
  assert (Hc1 : counts_ok t1) by (eapply same_counts_ok, Ht; by split_and!).
  do 2 loc_step. loc_step; [by apply truncate_visits|]. reflect_bools.
  assert (Ha1 : almost t1) by by apply almost_start.
  loc_step. apply (wp_mono _ (fun _ p => exists w, p = (w, t1)) _ (fun _ _ => True)); [| |done].
  { loc_step; [|by eexists]. unfold validate_remote_scope. loc_step; [done|by eexists]. }
  intros _ p [w2 ->]. loc_step.
  - do 2 loc_step. apply skip_counts; [|done..]. destruct Hc1. split; simpl in *; try done; lia.
  - do 2 loc_step. apply wp_any; [|done]. intros terminal w3. do 2 loc_step.
    loc_step; [by apply skip_counts|]. loc_step; [by apply truncate_visits|]. reflect_bools.
    by apply (transfer_file_counts _ _ _ _ _ _ t1).
Qed.

(** The file loop discovers every file of the page, or truncates the run. *)
Lemma visit_files_counts scope cursor files : forall index w t,
  counts_ok t -> t_truncation t = None ->
  wp (visit_files policy strict_source_scope scope cursor index files)
    (fun _ p => counts_ok p.2 /\
       (t_truncation p.2 = None -> t_discovered p.2 = t_discovered t + py_len files))
    (fun _ _ => True) (w, t).
Proof.
  induction files as [|rf files IH]; intros index w t Ht Htr; simpl.
  - loc_step. split; [done|]. unfold py_len. simpl. lia.
  - loc_step. eapply wp_mono; [by apply visit_file_counts| |done]; cbv beta.
    intros [] [w1 t1] [Hc1 Hs]; simpl in *.
    + destruct Hs as [Hd1 Htr1]. eapply wp_mono; [apply IH; congruence| |done]; cbv beta.
      intros _ p [Hc Hd]. split; [done|]. intros Hnone. rewrite Hd, py_len_cons by done. lia.
    + loc_step. by split.
Qed.

(** ** The page loop ends within its fuel *)

Lemma visit_page_counts scope cursor offset seen page w t :
  counts_ok t -> t_truncation t = None ->
  wp (visit_page policy strict_source_scope scope cursor offset seen page)
    (fun next p => counts_ok p.2 /\
       match next with
       | Some _ => t_truncation p.2 = None /\ 1 <= py_len (pg_files page) /\
           t_discovered p.2 = t_discovered t + py_len (drop (Z.to_nat offset) (pg_files page)) /\
           offset <= py_len (pg_files page) /\
           t_discovered p.2 < maximum_discovery_records_per_source_run policy
       | None => True
       end) (fun _ _ => True) (w, t).
Proof.
  intros Ht Htr. unfold visit_page. cbv zeta. loc_step. loc_step; [done|]. loc_step. loc_step; [done|].
  reflect_bools. loc_step. eapply wp_mono; [by apply visit_files_counts| |done]; cbv beta.
  intros _ [w1 t1] [Hc1 Hd1]. simpl in *. do 2 loc_step. loc_step; [by loc_step|].
  specialize (Hd1 eq_refl).
  assert (Hadv : forall c o c' o' p B (f : unit -> M (W * traversal) B) Q,
    (forall w2 a, wp (f tt) Q (fun _ _ => True) (w2, with_attempt a t1)) ->
    wp (advance c o c' o' p ≫= f) Q (fun _ _ => True) (w1, t1)).
  { intros. unfold advance. repeat loc_step. apply wp_any; [|done]. intros a w2. by loc_step. }
  destruct (pg_next_cursor page) as [[value|]|] eqn:Hnext.
  - loc_step. loc_step; [done|]. loc_step. unfold publisher_cursor. loc_step. loc_step; [done|].
    loc_step. apply Hadv. intros w2 a. do 2 loc_step.
    assert (Hc2 : counts_ok (with_attempt a t1)) by (eapply same_counts_ok, Hc1; by split_and!).
    assert (Hstop : forall r (Q : option pystr -> W * traversal -> Prop),
      (forall p, counts_ok p.2 -> Q None p) ->
      wp (truncate r;; mret None) Q (fun _ _ => True) (w2, with_attempt a t1)).
    { intros r Q HQ. unfold truncate. do 3 loc_step. apply HQ. eapply same_counts_ok, Hc2. by split_and!. }
    loc_step; [by apply Hstop|]. loc_step; [by apply Hstop|]. loc_step. reflect_bools. simpl in *.
    split_and!; try done. destruct (pg_files page) as [|f l]; [done|].
    rewrite py_len_cons. pose proof (py_len_nonneg l). lia.
  - by loc_step.
  - loc_step. loc_step; [done|]. apply Hadv. intros w2 a. do 3 loc_step. split; [|done].
    eapply same_counts_ok, Hc1. by split_and!.
Qed.

(** How many rounds the page loop can still make: every page but the first one discovers a
    file from its start, and a resumed page may have nothing left. *)
Definition rounds (offset : Z) (t : traversal) : Z :=
  maximum_discovery_records_per_source_run policy - t_discovered t + (if 0 <? offset then 1 else 0).

Lemma collect_pages_counts scope fuel : forall cursor offset seen w t,
  counts_ok t -> t_truncation t = None -> rounds offset t < Z.of_nat fuel ->
  wp (collect_pages policy strict_source_scope fuel scope cursor offset seen)
    (fun finished p => finished = true /\ counts_ok p.2) (fun _ _ => True) (w, t).
Proof.
  induction fuel as [|fuel IH]; intros cursor offset seen w t Ht Htr Hf.
  { exfalso. unfold rounds in Hf. destruct Ht. case_match; lia. }
  cbn [collect_pages]. loc_step. apply wp_until_budget, wp_on_listing, wp_any.
  2: { intros e [w1 b]. repeat case_match; try done. loc_step. split; [done|].
       eapply same_counts_ok, Ht. by split_and!. }
  intros page [w1 b]. simpl. set (t1 := with_listing b t).
  assert (Hc1 : counts_ok t1) by (eapply same_counts_ok, Ht; by split_and!).
  loc_step. eapply wp_mono; [by apply visit_page_counts| |done]; cbv beta.
  intros [next|] [w2 t2] [Hc2 Hn]; simpl in *; [|by loc_step].
  destruct Hn as (Htr2 & Hlen & Hd2 & Hoff & Hmax). apply IH; [done..|].
  unfold rounds in *. simpl. rewrite Hd2. unfold py_len in *. rewrite length_drop.
  destruct (Z.ltb_spec 0 offset); lia.
Qed.

Lemma new_traversal_counts attempt b : counts_ok (new_traversal attempt b).
Proof.
  pose proof (collection_policy_facts _ Hpolicy) as []. split; simpl; try lia.
  unfold py_len. simpl. lia.
Qed.

Lemma traverse_counts scope attempt b w :
  wp (traverse policy strict_source_scope scope attempt)
    (fun finished p => finished = true /\ counts_ok p.2) (fun _ _ => True)
    (w, new_traversal attempt b).
Proof.
  unfold traverse. loc_step. eapply wp_mono; [apply collect_pages_counts| |done]; cbv beta.
  - apply new_traversal_counts.
  - done.
  - unfold rounds, collection_fuel. simpl.
    pose proof (collection_policy_facts _ Hpolicy) as []. case_match; lia.
  - intros finished [w1 t1] [-> Hc]. do 3 loc_step. loc_step; [done|]. by loc_step.
Qed.
End counting.
