(* ===== verification/CollectionContracts.v ===== *)
(** What the traversal relies on, as laws of its ports, and what its durable boundary and
    its charges are then.  [CollectionStore.v] discharges the repository's part. *)
From S2P Require Import Prelude Errors Effects Enums PyNumbers Models AppModels Ports CollectionPorts CollectionService CollectionFacts.

(** [boundary] is the committed cursor and offset of a running attempt, [charged] the
    bytes charged to it, [durably_terminal] whether a file is stored as finished. *)
Class CollectionStore (W : Type) := {
  boundary : uuid -> W -> option (option pystr * Z);
  charged : uuid -> W -> Z;
  durably_terminal : RemoteFile -> bool -> W -> Prop
}.

Section steady.
Context {W : Type} `{!CollectionStore W}.

(** Nothing finished becomes unfinished. *)
Definition terminal_kept (w w' : W) : Prop :=
  forall rf archive_only, durably_terminal rf archive_only w -> durably_terminal rf archive_only w'.

Definition steady (id : uuid) (w w' : W) : Prop :=
  boundary id w' = boundary id w /\ charged id w' = charged id w /\ terminal_kept w w'.

Lemma steady_refl id w : steady id w w.
Proof. split_and!; [done|done|]. by intros rf ao. Qed.

Lemma steady_trans id w1 w2 w3 : steady id w1 w2 -> steady id w2 w3 -> steady id w1 w3.
Proof.
  intros (B1 & C1 & K1) (B2 & C2 & K2). split_and!; [congruence|congruence|].
  intros rf ao Ht. by apply K2, K1.
Qed.

(** A settlement may also lower the charge. *)
Definition no_dearer (id : uuid) (w w' : W) : Prop :=
  boundary id w' = boundary id w /\ charged id w' <= charged id w /\ terminal_kept w w'.

Lemma steady_no_dearer id w w' : steady id w w' -> no_dearer id w w'.
Proof. intros (? & E & ?). split_and!; [done|by rewrite E|done]. Qed.

Definition keeps {A} (m : M W A) : Prop :=
  forall id w, wp m (fun _ w' => steady id w w') (fun _ w' => steady id w w') w.
End steady.

(** The collection repository. *)
Class CollectionLedger (W : Type) `{CollectionRepository W, !CollectionStore W} : Prop := {
  advance_law : forall id b c o c' o' p (w : W), boundary id w = Some b ->
    wp (advance_attempt id c o c' o' p)
      (fun a w' => ca_attempt_id a = id /\ b = (c, o) /\
         boundary id w' = Some (c', o') /\ charged id w' = charged id w /\ terminal_kept w w')
      (fun _ w' => steady id w w') w;
  finish_law : forall id st tr co r code (w : W),
    wp (finish_attempt id st tr co r code)
      (fun _ w' => charged id w' = charged id w /\ terminal_kept w w')
      (fun _ w' => steady id w w') w;
  observe_law : forall id n, keeps (observe_attempt id n);
  is_terminal_law : forall id rf archive_only (w : W),
    wp (is_terminal rf archive_only)
      (fun b w' => steady id w w' /\ (b = true -> durably_terminal rf archive_only w'))
      (fun _ w' => steady id w w') w;
  note_terminal_law : forall id rf archive_only (w : W),
    wp (note_terminal rf archive_only)
      (fun _ w' => steady id w w' /\ durably_terminal rf archive_only w')
      (fun _ w' => steady id w w') w;
  charge_budget_law : forall id (w : W),
    wp (charge_budget id)
      (fun b w' => steady id w w' /\ run_charged_bytes b = charged id w')
      (fun _ w' => steady id w w') w;
  reserve_law : forall id sid rf n (w : W),
    wp (reserve_transfer id sid rf n)
      (fun b w' => boundary id w' = boundary id w /\ terminal_kept w w' /\
         charged id w' <= charged id w + n /\ run_charged_bytes b = charged id w')
      (fun _ w' => steady id w w') w;
  settle_law : forall id sid rf n (w : W),
    wp (settle_transfer id sid rf n)
      (fun b w' => no_dearer id w w' /\ run_charged_bytes b = charged id w')
      (fun _ w' => no_dearer id w w') w
}.

(** The adapters and the ingestion service leave the traversal's tables alone. *)
Class CollectionQuiet (W : Type) `{!CollectionStore W, !SourceAdapter W, !FileIngestion W} : Prop := {
  monotonic_quiet : keeps monotonic;
  discover_quiet : forall id sid c n (w : W) b,
    wp (discover sid c n) (fun _ p => steady id w p.1) (fun _ p => steady id w p.1) (w, b);
  register_quiet : forall rf, keeps (fi_register rf);
  ingest_quiet : forall rf n, keeps (fi_ingest rf n);
  archive_only_quiet : forall rf n, keeps (fi_archive_only rf n);
  bootstrap_quiet : forall f sid, catalog_bootstrap = Some f -> keeps (f sid)
}.

Section boundary.
Context {W : Type}.
Context `{!SourceAdapter W} `{!FileIngestion W} `{CollectionRepository W} `{!CollectionStore W}
  `{!CollectionLedger W} `{!CollectionQuiet W}.
Variable policy : CollectionPolicy.
Variable strict_source_scope : bool.
Variable scope : CollectionScope.
Variable id : uuid.

Abbreviation limit := (maximum_charged_bytes_per_source_run policy).

Lemma terminal_kept_trans (w1 w2 w3 : W) :
  terminal_kept w1 w2 -> terminal_kept w2 w3 -> terminal_kept w1 w3.
Proof. intros H1 H2 rf ao Ht. by apply H2, H1. Qed.

(** A state of the traversal of attempt [id] whose boundary is [b], reached from [w0]. *)
Definition at_boundary (w0 : W) (b : option pystr * Z) (p : W * traversal) : Prop :=
  ca_attempt_id (t_attempt p.2) = id /\ boundary id p.1 = Some b /\ charged id p.1 <= limit /\
  terminal_kept w0 p.1.

Lemma at_no_dearer w0 b w w' t :
  no_dearer id w w' -> at_boundary w0 b (w, t) -> at_boundary w0 b (w', t).
Proof.
  intros (Hb & Hc & Hk) (Hid & Hb0 & Hc0 & Hk0). unfold at_boundary. simpl in *.
  rewrite Hb. split_and!; try done; [lia|]. by eapply terminal_kept_trans.
Qed.

Lemma at_steady w0 b w w' t :
  steady id w w' -> at_boundary w0 b (w, t) -> at_boundary w0 b (w', t).
Proof. intros Hs. by apply at_no_dearer, steady_no_dearer. Qed.

Lemma keeps_at {A} w0 b (m : M W A) : keeps m -> preserves (at_boundary w0 b) (lift m).
Proof.
  intros Hm [w t] Hw. apply wp_lift. eapply wp_mono; [apply (Hm id)|..]; cbv beta;
    eauto using at_steady.
Qed.

Lemma set_at w0 b f : (forall t, t_attempt (f t) = t_attempt t) ->
  preserves (at_boundary w0 b) (set_locals f).
Proof.
  intros Hf [w t] (? & ? & ? & ?). apply wp_set_locals. unfold at_boundary. simpl. by rewrite Hf.
Qed.

Lemma settle_at w0 b sid rf n : preserves (at_boundary w0 b) (lift (settle_transfer id sid rf n)).
Proof.
  intros [w t] Hw. apply wp_lift. eapply wp_mono; [apply settle_law|..]; cbv beta.
  - intros budget w' [Hs _]. by eapply at_no_dearer.
  - intros e w' Hs. by eapply at_no_dearer.
Qed.

Lemma is_terminal_at w0 b rf ao : preserves (at_boundary w0 b) (lift (is_terminal rf ao)).
Proof.
  intros [w t] Hw. apply wp_lift. eapply wp_mono; [apply (is_terminal_law id)|..]; cbv beta;
    [intros ? ? [? _]|]; eauto using at_steady.
Qed.

Lemma on_listing_at {A} w0 b (m : M (W * DiscoveryRunBudget) A) :
  (forall w l, wp m (fun _ p => steady id w p.1) (fun _ p => steady id w p.1) (w, l)) ->
  preserves (at_boundary w0 b) (on_listing m).
Proof.
  intros Hm [w t] Hw. apply wp_on_listing. eapply wp_mono; [apply Hm|..]; cbv beta;
    intros ? p Hs; pose proof (at_steady _ _ _ _ _ Hs Hw) as Ha; exact Ha.
Qed.

Lemma until_budget_at {A} w0 b (m : M (W * traversal) A) :
  preserves (at_boundary w0 b) m -> preserves (at_boundary w0 b) (until_budget m).
Proof.
  intros Hm p Hp. apply wp_until_budget. eapply wp_mono; [by apply Hm|done|]; cbv beta.
  intros e [w t] Hw. repeat case_match; exact Hw.
Qed.

(** The file at the boundary is accounted for once the boundary passes it. *)
Definition accounted (rf : RemoteFile) (w : W) : Prop :=
  unknown_format rf = true \/ within_range rf (sc_since scope) (sc_until scope) = false \/
  durably_terminal rf (sc_archive_only scope) w.

Definition passed (w0 : W) (c : option pystr) (i : Z) (rf : RemoteFile) (p : W * traversal) : Prop :=
  at_boundary w0 (c, i + 1) p /\ accounted rf p.1.

(** Where one round of the file loop may leave the boundary. *)
Definition left_at (w0 : W) (c : option pystr) (i : Z) (rf : RemoteFile) (p : W * traversal) : Prop :=
  at_boundary w0 (c, i) p \/ passed w0 c i rf p.

Lemma accounted_kept rf w w' : terminal_kept w w' -> accounted rf w -> accounted rf w'.
Proof. unfold accounted. intros Hk [?|[?|?]]; auto. Qed.

Lemma advance_at w0 c o c' o' p w t :
  at_boundary w0 (c, o) (w, t) ->
  wp (advance c o c' o' p)
    (fun _ q => at_boundary w0 (c', o') q /\ terminal_kept w q.1)
    (fun _ q => at_boundary w0 (c, o) q) (w, t).
Proof.
  intros Hw. pose proof Hw as (Hid & Hb & Hc & Hk). simpl in *. unfold advance. do 4 loc_step. rewrite Hid.
  eapply wp_mono; [by eapply advance_law|..]; cbv beta; [|eauto using at_steady].
  intros a w' (Ha & _ & Hb' & Hc' & Hk'). loc_step. unfold at_boundary. simpl. rewrite Hc'.
  split; [|done]. split_and!; try done. by eapply terminal_kept_trans.
Qed.

Lemma pass_file_at w0 c i rf p w t :
  at_boundary w0 (c, i) (w, t) -> accounted rf w ->
  wp (pass_file c i p) (fun _ => passed w0 c i rf) (fun _ => at_boundary w0 (c, i)) (w, t).
Proof.
  intros Hw Ha. unfold pass_file. do 2 loc_step.
  eapply wp_mono; [by apply (advance_at w0)| |done]; cbv beta.
  intros _ q [Hq Hk]. split; [done|]. by eapply accounted_kept.
Qed.

(** Back from a [wp] over an invariant to [preserves]. *)
Ltac as_preserves :=
  match goal with |- forall p, ?I p -> wp ?m _ _ p => change (preserves I m) end.

Hint Resolve settle_at is_terminal_at : preserves.
Hint Extern 1 (preserves (at_boundary _ _) (set_locals _)) => (apply set_at; done) : preserves.
Hint Extern 1 (preserves (at_boundary _ _) (lift ?m)) =>
  (apply keeps_at; eauto using monotonic_quiet, register_quiet, ingest_quiet, archive_only_quiet,
     observe_law) : preserves.

Lemma bootstrap_keeps r : keeps (bootstrap_catalog r).
Proof.
  intros i w. unfold bootstrap_catalog.
  pose proof (steady_refl i w).
  destruct catalog_bootstrap as [f|] eqn:Hf; [|by loc_step].
  loc_step; [|done]. by apply bootstrap_quiet.
Qed.

Lemma locals_id w0 b {A} (f : traversal -> M (W * traversal) A) Q E p :
  at_boundary w0 b p -> (ca_attempt_id (t_attempt p.2) = id -> wp (f p.2) Q E p) ->
  wp (locals ≫= f) Q E p.
Proof. destruct p as [w t]. intros (Hid & _) Hf. do 2 loc_step. by apply Hf. Qed.

Lemma process_at w0 b rf sid n :
  preserves (at_boundary w0 b) (process policy scope rf sid n).
Proof.
  intros p Hp. unfold process. eapply locals_id; [exact Hp|]. intros ->. revert p Hp.
  apply preserves_bind; [destruct (sc_archive_only scope); auto with preserves nocore|].
  intros result. apply preserves_bind; [auto with preserves nocore|]. intros budget.
  pose proof (keeps_at w0 b _ (bootstrap_keeps result)).
  unfold set_pending. preserve.
Qed.

(** Between [reserve_transfer] and the next round. *)
Lemma transfer_try_at w0 b rf sid n p :
  at_boundary w0 b p ->
  wp (transfer_try policy scope rf sid n)
    (fun _ q => at_boundary w0 b q /\ durably_terminal rf (sc_archive_only scope) q.1)
    (fun _ q => at_boundary w0 b q) p.
Proof.
  intros Hp. unfold transfer_try. loc_step. eapply wp_mono; [by apply (process_at w0 b)| |done]; cbv beta.
  intros [result budget] [w t] Hw. do 4 loc_step.
  eapply wp_mono; [apply (note_terminal_law id)|..]; cbv beta.
  - intros _ w' [Hs Hd]. unfold set_pending. repeat loc_step.
    split; [|done]. exact (at_steady _ _ _ _ _ Hs Hw).
  - intros e w' Hs. exact (at_steady _ _ _ _ _ Hs Hw).
Qed.

Lemma charge_from_budget_at w0 b : preserves (at_boundary w0 b) charge_from_budget.
Proof. apply set_at. intros t. by destruct (t_budget t). Qed.
Hint Resolve charge_from_budget_at : preserves.

Lemma transfer_failed_at w0 c i rf sid e p :
  at_boundary w0 (c, i) p ->
  wp (transfer_failed policy scope c i rf sid e)
    (fun o q => o = None /\ at_boundary w0 (c, i) q) (fun _ q => left_at w0 c i rf q) p.
Proof.
  intros Hp.
  assert (Hcharge : forall n, wp (charge_exceeded policy rf sid n)
    (fun o q => o = None /\ at_boundary w0 (c, i) q) (fun _ q => left_at w0 c i rf q) p).
  { intros n. apply (wp_mono _ (fun o q => o = None /\ at_boundary w0 (c, i) q) _
      (fun _ q => True /\ at_boundary w0 (c, i) q)); [|done|intros e' q [_ Hq]; by left].
    apply wp_and; [unfold charge_exceeded; repeat (apply wp_skip; intros ? ?); by wp_step|].
    unfold charge_exceeded. eapply locals_id; [exact Hp|]. intros ->. revert p Hp.
    as_preserves. unfold truncate. preserve. }
  assert (Hre : wp (transfer_reraised (A := option (IngestionResult * CollectionChargeBudget))
    scope c i rf sid e)
    (fun o q => o = None /\ at_boundary w0 (c, i) q) (fun _ q => left_at w0 c i rf q) p).
  { unfold transfer_reraised. eapply locals_id; [exact Hp|]. intros Hid. cbv zeta. rewrite Hid.
    set (pending := t_postprocess_pending p.2). clearbody pending. clear Hid. unfold set_pending.
    assert (Hstep : forall A B (m : M (W * traversal) A) (f : A -> M (W * traversal) B) Q q,
      at_boundary w0 (c, i) q -> preserves (at_boundary w0 (c, i)) m ->
      (forall a q', at_boundary w0 (c, i) q' -> wp (f a) Q (fun _ q => left_at w0 c i rf q) q') ->
      wp (m ≫= f) Q (fun _ q => left_at w0 c i rf q) q).
    { intros A B m f Q q Hq Hm Hf. loc_step. eapply wp_mono; [by apply Hm|auto|].
      intros e' q' Hq'. by left. }
    do 4 (eapply Hstep; [eassumption|solve [preserve]|intros ? ? ?]).
    loc_step.
    apply (wp_mono _ (fun b q => at_boundary w0 (c, i) q /\
        (b = true -> durably_terminal rf (sc_archive_only scope) q.1)) _
      (fun _ => at_boundary w0 (c, i))); [|intros terminal q [Hq Hd]|intros e' q Hq; by left].
    { destruct pending; [by loc_step|]. destruct q'2 as [w t]. loc_step.
      eapply wp_mono; [apply (is_terminal_law id)|..]; cbv beta; [intros b w' [Hs Hd]|intros e' w' Hs];
        [split; [|done]|]; by eapply at_steady. }
    loc_step. destruct terminal.
    - destruct q as [w t]. eapply wp_mono; [apply (pass_file_at w0); [done|]|..]; cbv beta.
      + right; right. by apply Hd.
      + intros _ q5 Hq5. loc_step. by right.
      + intros e' q5 Hq5. by left.
    - apply (wp_mono _ (fun _ => at_boundary w0 (c, i)) _ (fun _ => at_boundary w0 (c, i)));
        [|intros _ q5 Hq5; loc_step; by left|intros e' q5 Hq5; by left].
      revert q Hq Hd. intros q Hq _. revert q Hq. as_preserves. preserve. }
  unfold transfer_failed. destruct e as [[]|]; auto.
Qed.

Lemma transfer_succeeded_at w0 c i rf result budget p :
  at_boundary w0 (c, i) p -> durably_terminal rf (sc_archive_only scope) p.1 ->
  wp (transfer_succeeded policy c i result budget)
    (fun _ q => passed w0 c i rf q) (fun _ q => left_at w0 c i rf q) p.
Proof.
  intros Hp Hd. destruct p as [w t]. unfold transfer_succeeded, clear_retry_boundary, truncate.
  loc_step. eapply wp_mono; [apply (pass_file_at w0); [exact Hp|right; right; exact Hd]|..]; cbv beta.
  - intros _ [w1 t1] Hq. do 2 loc_step. destruct (charge_budget_reason policy budget); by repeat loc_step.
  - intros e q Hq. by left.
Qed.

Lemma reserve_and_transfer_at w0 c i rf retrying budget p :
  at_boundary w0 (c, i) p -> run_charged_bytes budget = charged id p.1 ->
  wp (reserve_and_transfer policy scope c i rf retrying budget)
    (fun s q => match s with Next => passed w0 c i rf q | Stop => left_at w0 c i rf q end)
    (fun _ q => left_at w0 c i rf q) p.
Proof.
  intros Hp Hb. destruct p as [w t]. simpl in Hb. unfold reserve_and_transfer. loc_step.
  { unfold truncate. repeat loc_step. by left. }
  do 2 loc_step. eapply wp_mono; [apply (register_quiet _ id)|..]; cbv beta.
  2: { intros e w' Hs. left. by eapply at_steady. }
  intros registered w1 Hs. pose proof (at_steady _ _ _ _ _ Hs Hp) as Hp1.
  assert (Hb1 : run_charged_bytes budget = charged id w1) by (destruct Hs as (_ & -> & _); done).
  do 4 loc_step. pose proof Hp1 as (Hid & Hbd & Hc & Hk). simpl in Hid, Hbd, Hc, Hk. rewrite Hid.
  eapply wp_mono; [apply reserve_law|..]; cbv beta.
  2: { intros e w' Hs'. left. by eapply at_steady. }
  intros reserved w2 (Hbd2 & Hk2 & Hc2 & _). unfold charge_from_budget. do 4 loc_step.
  cbn [t_budget with_budget]. loc_step.
  assert (Hp2 : at_boundary w0 (c, i)
    (w2, with_charged (run_charged_bytes reserved) (with_budget reserved t))).
  { unfold at_boundary. simpl. rewrite Hbd2. split_and!; try done; [|by eapply terminal_kept_trans].
    unfold remaining_charge, run_remaining in Hc2. destruct retrying; lia. }
  loc_step. eapply wp_mono; [by apply (transfer_try_at w0)|..]; cbv beta.
  - intros o q [Hq Hd]. destruct o as [[result charged']|].
    + eapply wp_mono; [by apply (transfer_succeeded_at w0)| |done]; cbv beta.
      intros [] q' Hq'; [done|by right].
    + loc_step. by left.
  - intros e q Hq. eapply wp_mono; [by apply (transfer_failed_at w0)| |done]; cbv beta.
    intros o q' [-> Hq']. loc_step. by left.
Qed.

Lemma transfer_file_at w0 c i rf terminal p :
  at_boundary w0 (c, i) p ->
  wp (transfer_file policy scope c i rf terminal)
    (fun s q => match s with Next => passed w0 c i rf q | Stop => left_at w0 c i rf q end)
    (fun _ q => left_at w0 c i rf q) p.
Proof.
  intros Hp. unfold transfer_file. eapply locals_id; [exact Hp|]. intros ->. destruct p as [w t].
  do 2 loc_step. eapply wp_mono; [apply charge_budget_law|..]; cbv beta.
  2: { intros e w' Hs. left. by eapply at_steady. }
  intros budget w1 [Hs Hb]. pose proof (at_steady _ _ _ _ _ Hs Hp) as Hp1.
  unfold charge_from_budget. do 4 loc_step. cbn [t_budget with_budget].
  set (t1 := with_charged _ _). assert (Hp2 : at_boundary w0 (c, i) (w1, t1)) by exact Hp1.
  repeat (case_match; try by apply (reserve_and_transfer_at w0)).
  unfold truncate. repeat loc_step. by left.
Qed.

Lemma visit_file_at w0 c i rf p :
  at_boundary w0 (c, i) p ->
  wp (visit_file policy strict_source_scope scope c i rf)
    (fun s q => match s with Next => passed w0 c i rf q | Stop => left_at w0 c i rf q end)
    (fun _ q => left_at w0 c i rf q) p.
Proof.
  intros Hp. unfold visit_file. loc_step.
  apply (wp_mono _ (fun _ => at_boundary w0 (c, i)) _ (fun _ => at_boundary w0 (c, i)));
    [|intros within q Hq|intros e q Hq; by left].
  { revert p Hp. as_preserves. apply until_budget_at, on_listing_at. intros w l.
    unfold budget_checkpoint. do 2 loc_step. eapply wp_mono; [apply (monotonic_quiet id)|..]; cbv beta;
      [|done]. intros now w' Hs. apply wp_on_locals, wp_any; intros; exact Hs. }
  destruct within as [_|]; [|loc_step; by left]. destruct q as [w t]. do 2 loc_step.
  loc_step; [unfold truncate; repeat loc_step; by left|]. loc_step.
  apply (wp_mono _ (fun _ q => q = (w, t)) _ (fun _ q => q = (w, t)));
    [|intros _ q ->|intros e q ->; by left].
  { loc_step; [|done]. unfold validate_remote_scope. by loc_step. }
  assert (Hskip : forall pr w1 t1, at_boundary w0 (c, i) (w1, t1) -> accounted rf w1 ->
    wp (pass_file c i pr;; clear_retry_boundary;; mret Next)
      (fun s q => match s with Next => passed w0 c i rf q | Stop => left_at w0 c i rf q end)
      (fun _ q => left_at w0 c i rf q) (w1, t1)).
  { intros pr w1 t1 Ht1 Ha. loc_step. eapply wp_mono; [by apply (pass_file_at w0)|..]; cbv beta.
    - intros _ [w2 t2] Hq'. unfold clear_retry_boundary. by repeat loc_step.
    - intros e q' Hq'. by left. }
  loc_step; [do 2 loc_step; apply Hskip; [exact Hq|by left]|].
  do 2 loc_step. eapply wp_mono; [apply (is_terminal_law id)|..]; cbv beta.
  2: { intros e w' Hs. left. by eapply at_steady. }
  intros terminal w1 [Hs Hd]. pose proof (at_steady _ _ _ _ _ Hs Hq) as Hq1.
  do 2 loc_step. loc_step.
  - apply Hskip; [done|]. apply orb_true_iff in Heqb1 as [Hr%negb_true_iff|[Ht _]%andb_true_iff].
    + by right; left.
    + right; right. by apply Hd.
  - loc_step; [unfold truncate; repeat loc_step; by left|]. by apply (transfer_file_at w0).
Qed.

(** How far into [files], which start at offset [o], the boundary is. *)
Definition page_left (w0 : W) (c : option pystr) (o : Z) (files : list RemoteFile)
    (p : W * traversal) : Prop :=
  exists done_files, done_files `prefix_of` files /\
    at_boundary w0 (c, o + py_len done_files) p /\ Forall (fun rf => accounted rf p.1) done_files.

Lemma visit_files_at c files : forall w0 o p,
  at_boundary w0 (c, o) p ->
  wp (visit_files policy strict_source_scope scope c o files)
    (fun _ q => page_left w0 c o files q) (fun _ q => page_left w0 c o files q) p.
Proof.
  assert (Hnone : forall w0 o files q, at_boundary w0 (c, o) q -> page_left w0 c o files q).
  { intros w0 o fs q Hq. exists []. split_and!; [apply prefix_nil| |done]. by rewrite py_len_nil, Z.add_0_r. }
  induction files as [|rf files IH]; intros w0 o p Hp; cbn [visit_files]; [loc_step; by apply Hnone|].
  assert (Hone : forall o q, passed w0 c o rf q -> page_left w0 c o (rf :: files) q).
  { intros o' q [Hq Ha]. exists [rf]. split_and!; [by exists files|exact Hq|by constructor]. }
  assert (Hleft : forall q, left_at w0 c o rf q -> page_left w0 c o (rf :: files) q).
  { intros q [Hq|Hq]; [by apply Hnone|by apply Hone]. }
  loc_step. eapply wp_mono; [by apply (visit_file_at w0)| |by auto]; cbv beta.
  intros [] q Hq; [|loc_step; by apply Hleft]. destruct Hq as [Hq Ha].
  assert (Hmore : forall q', page_left q.1 c (o + 1) files q' -> page_left w0 c o (rf :: files) q').
  { intros q' (done_files & [rest ->] & (Hid & Hb & Hc & Hk) & Hf). exists (rf :: done_files).
    destruct Hq as (_ & _ & _ & Hk0). split_and!; [by exists rest| |].
    - unfold at_boundary. rewrite py_len_cons. split_and!; try done.
      + rewrite Hb. do 2 f_equal. lia.
      + by eapply terminal_kept_trans.
    - constructor; [by eapply accounted_kept|done]. }
  eapply wp_mono; [apply (IH q.1 (o + 1))|..]; cbv beta; auto.
  destruct Hq as (? & ? & ? & _). split_and!; try done. by intros rf' ao.
Qed.

(** The boundary inside a page, or at the start of the next one with the whole page
    accounted for. *)
Definition page_visited (w0 : W) (c : option pystr) (o : Z) (files : list RemoteFile)
    (next : option pystr) (p : W * traversal) : Prop :=
  at_boundary w0 (next, 0) p /\ Forall (fun rf => accounted rf p.1) files.

Lemma visit_page_at w0 c o seen page p :
  0 <= o -> at_boundary w0 (c, o) p ->
  wp (visit_page policy strict_source_scope scope c o seen page)
    (fun next q => let rest := drop (Z.to_nat o) (pg_files page) in
       match next with
       | Some _ => page_visited w0 c o rest next q
       | None => page_left w0 c o rest q \/ exists next, page_visited w0 c o rest next q
       end)
    (fun _ q => page_left w0 c o (drop (Z.to_nat o) (pg_files page)) q) p.
Proof.
  intros Ho Hp. unfold visit_page. cbv zeta.
  assert (Hstart : page_left w0 c o (drop (Z.to_nat o) (pg_files page)) p).
  { exists []. split_and!; [apply prefix_nil| |done]. by rewrite py_len_nil, Z.add_0_r. }
  loc_step. loc_step; [done|]. loc_step. loc_step; [done|]. reflect_bools.
  loc_step. eapply wp_mono; [by apply (visit_files_at c _ w0)| |done]; cbv beta.
  intros _ [w t] Hq. do 2 loc_step. loc_step; [loc_step; by left|].
  set (rest := drop _ _) in *.
  assert (Hadv : forall next B (f : unit -> M (W * traversal) B) Q,
    (forall w1 t1, page_visited w0 c o rest next (w1, t1) -> wp (f tt) Q
       (fun _ q => page_left w0 c o rest q) (w1, t1)) ->
    wp (advance c (py_len (pg_files page)) next 0 no_progress ≫= f) Q
      (fun _ q => page_left w0 c o rest q) (w, t)).
  { intros next B f Q Hf. destruct Hq as (df & [tl Hrest] & Hat & Hacc).
    pose proof Hat as (Hid & Hb & Hc & Hk). simpl in Hid, Hb, Hc, Hk.
    loc_step. unfold advance. do 4 loc_step. rewrite Hid.
    eapply wp_mono; [by eapply advance_law|..]; cbv beta.
    - intros a w' (Ha & Hb0 & Hb' & Hc' & Hk'). loc_step. apply Hf. split.
      + unfold at_boundary. simpl. rewrite Hc'. split_and!; try done. by eapply terminal_kept_trans.
      + assert (Hlen : o + py_len df = py_len (pg_files page)) by congruence.
        assert (tl = []) as ->.
        { apply py_len_0_nil. assert (Hl : py_len rest = py_len df + py_len tl)
            by by rewrite Hrest, py_len_app. subst rest. unfold py_len in *.
          rewrite length_drop in Hl. lia. }
        rewrite app_nil_r in Hrest. rewrite Hrest. eapply Forall_impl; [exact Hacc|].
        intros rf. by apply accounted_kept.
    - intros e w' Hs. exists df. split_and!; [by exists tl|by eapply at_steady|].
      eapply Forall_impl; [exact Hacc|]. intros rf. apply accounted_kept, Hs. }
  destruct (pg_next_cursor page) as [[value|]|].
  - loc_step. loc_step; [done|]. loc_step. unfold publisher_cursor. loc_step. loc_step; [done|].
    loc_step. apply Hadv. intros w1 t1 Hv. do 2 loc_step.
    loc_step; [unfold truncate; repeat loc_step; right; by exists (Some value)|].
    loc_step; [unfold truncate; repeat loc_step; right; by exists (Some value)|]. by loc_step.
  - by loc_step.
  - loc_step. loc_step; [done|]. apply Hadv. intros w1 t1 Hv. do 3 loc_step. right. by exists None.
Qed.
End boundary.
