(* ===== verification/CollectionRuns.v ===== *)
(** Whole runs: the page loop and [_collect_with_context] keep what each page keeps.  The
    run's charge stays within its limit on every exit. *)
From S2P Require Import Prelude Errors Effects Enums PyNumbers Models AppModels Ports CollectionPorts CollectionService CollectionFacts CollectionContracts.

(** ** The boundary and the charge *)

Section runs.
Context {W : Type}.
Context `{!SourceAdapter W} `{!FileIngestion W} `{CollectionRepository W} `{!CollectionStore W}
  `{!CollectionLedger W} `{!CollectionQuiet W}.
Variable policy : CollectionPolicy.
Variable strict_source_scope : bool.
Variable scope : CollectionScope.

(** The boundary is somewhere, which is all a run needs to keep. *)
Definition run_at (id : uuid) (w0 : W) (p : W * traversal) : Prop :=
  exists b, at_boundary policy id w0 b p.

Lemma page_left_run id w0 c o files p :
  page_left policy scope id w0 c o files p -> run_at id w0 p.
Proof. intros (l & _ & Hp & _). by eexists. Qed.

Lemma page_visited_run id w0 c o files next p :
  page_visited policy scope id w0 c o files next p -> run_at id w0 p.
Proof. intros [Hp _]. by eexists. Qed.

Lemma discover_page_steady id sid c (w : W) b :
  wp (discover_page policy sid c) (fun _ p => steady id w p.1) (fun _ p => steady id w p.1) (w, b).
Proof.
  assert (Hck : forall w1 b1, steady id w w1 ->
    wp budget_checkpoint (fun _ p => steady id w p.1) (fun _ p => steady id w p.1) (w1, b1)).
  { intros w1 b1 Hw1. unfold budget_checkpoint. wp_step. apply wp_lift.
    apply (wp_mono _ (fun _ w' => steady id w w') _ (fun _ w' => steady id w w')); [|auto|auto].
    - apply (wp_mono _ (fun _ w' => steady id w1 w') _ (fun _ w' => steady id w1 w'));
        [apply monotonic_quiet| |]; intros; by eapply steady_trans.
    - intros n w' Hw'. apply wp_on_locals. by apply wp_any. }
  unfold discover_page. wp_step. eapply wp_mono; [by apply Hck, steady_refl| |auto]; cbv beta.
  intros _ [w1 b1] Hw1. wp_step.
  eapply wp_mono; [apply (discover_quiet id)| |]; cbv beta.
  - intros page [w2 b2] Hw2. simpl in *. pose proof (steady_trans _ _ _ _ Hw1 Hw2).
    destruct page as [page|]; [|by wp_step]. wp_step.
    eapply wp_mono; [by apply Hck| |auto]; cbv beta. intros _ p Hp. by wp_step.
  - intros e [w2 b2] Hw2. by eapply steady_trans.
Qed.

Lemma collect_pages_run id w0 fuel : forall c o seen p,
  0 <= o -> at_boundary policy id w0 (c, o) p ->
  wp (collect_pages policy strict_source_scope fuel scope c o seen)
    (fun _ => run_at id w0) (fun _ => run_at id w0) p.
Proof.
  induction fuel as [|fuel IH]; intros c o seen p Ho Hp; cbn [collect_pages];
    [loc_step; by eexists|].
  loc_step.
  eapply wp_mono; [apply (until_budget_at policy id w0 (c, o)); [|exact Hp]|..]; cbv beta.
  { apply on_listing_at. intros w l. apply discover_page_steady. }
  2: { intros e q Hq. by eexists. }
  intros [page|] q Hq; [|loc_step; by eexists]. loc_step.
  eapply wp_mono; [by apply (visit_page_at policy strict_source_scope scope id w0)|..]; cbv beta zeta.
  2: { intros e r Hr. by eapply page_left_run. }
  intros [next|] r Hr.
  - destruct Hr as [Hr _]. by apply IH.
  - loc_step. destruct Hr as [Hr|[next Hr]]; [by eapply page_left_run|by eapply page_visited_run].
Qed.

Lemma traverse_run w0 attempt p :
  0 <= ca_page_offset attempt ->
  at_boundary policy (ca_attempt_id attempt) w0 (ca_cursor attempt, ca_page_offset attempt) p ->
  wp (traverse policy strict_source_scope scope attempt)
    (fun _ => run_at (ca_attempt_id attempt) w0) (fun _ => run_at (ca_attempt_id attempt) w0) p.
Proof.
  intros Ho Hp. unfold traverse. loc_step.
  eapply wp_mono; [by apply collect_pages_run| |auto]; cbv beta.
  intros finished [w t] Hr. do 3 loc_step. loc_step; [done|]. by loc_step.
Qed.

(** The charge of an attempt on every exit of its run. *)
Lemma collect_with_context_charge attempt w :
  0 <= ca_page_offset attempt ->
  boundary (ca_attempt_id attempt) w = Some (ca_cursor attempt, ca_page_offset attempt) ->
  charged (ca_attempt_id attempt) w <= maximum_charged_bytes_per_source_run policy ->
  let kept w' := charged (ca_attempt_id attempt) w' <= maximum_charged_bytes_per_source_run policy /\
                 terminal_kept w w' in
  wp (collect_with_context policy strict_source_scope scope attempt)
    (fun _ => kept) (fun _ => kept) w.
Proof.
  intros Ho Hb Hc kept.
  assert (Hst : forall w1, steady (ca_attempt_id attempt) w w1 -> kept w1).
  { intros w1 (_ & E & Hk). unfold kept. by rewrite E. }
  unfold collect_with_context. loc_step.
  eapply wp_mono; [apply (monotonic_quiet (ca_attempt_id attempt))|..]; cbv beta; [|auto].
  intros now w1 Hs. loc_step. unfold new_budget.
  repeat (loc_step; try (by apply Hst)).
  set (b := {| maximum_requests := _ |}). apply wp_with_locals.
  assert (Hat : at_boundary policy (ca_attempt_id attempt) w
    (ca_cursor attempt, ca_page_offset attempt) (w1, new_traversal attempt b)).
  { destruct Hs as (E1 & E2 & Hk). unfold at_boundary. simpl. rewrite E1, E2. by split_and!. }
  assert (Hfin : forall st tr co r code w2 t2, run_at (ca_attempt_id attempt) w (w2, t2) ->
    wp (finish_attempt (ca_attempt_id (t_attempt t2)) st tr co r code)
      (fun _ => kept) (fun _ => kept) w2).
  { intros st tr co r code w2 t2 (bd & Hid & _ & Hc2 & Hk2). simpl in *. rewrite Hid.
    eapply wp_mono; [apply finish_law|..]; cbv beta; unfold kept.
    - intros _ w3 [-> Hk3]. split; [done|]. by eapply terminal_kept_trans.
    - intros _ w3 (_ & -> & Hk3). split; [done|]. by eapply terminal_kept_trans. }
  loc_step. loc_step. eapply wp_mono; [by apply (traverse_run w)|..]; cbv beta.
  - intros finished [w2 t2] Hr. do 4 loc_step.
    eapply wp_mono; [by eapply Hfin|..]; cbv beta; [|done]. intros _ w3 Hw3. by loc_step.
  - intros e [w2 t2] Hr. do 4 loc_step.
    eapply wp_mono; [by eapply Hfin|..]; cbv beta; [|done]. intros _ w3 Hw3. by loc_step.
Qed.
End runs.

(** ** Results *)

Section results.
Context {W : Type}.
Context `{!SourceAdapter W} `{!FileIngestion W} `{!CollectionRepository W} `{!LeaseManager W}.
Variable policy : CollectionPolicy.
Variable strict_source_scope : bool.

(** A property of the locals that holds at the end of every traversal is one of the
    result. *)
Lemma collect_with_context_result (P : traversal -> Prop) scope attempt w :
  (forall b w, request_count b = 0 -> consumed_bytes b = 0 ->
     maximum_requests b = maximum_listing_requests_per_source_run policy ->
     maximum_bytes b = maximum_listing_bytes_per_source_run policy ->
     wp (traverse policy strict_source_scope scope attempt)
       (fun finished p => finished = true /\ P p.2) (fun _ _ => True) (w, new_traversal attempt b)) ->
  wp (collect_with_context policy strict_source_scope scope attempt)
    (fun r _ => exists t, P t /\ r = Some (collection_result t)) (fun _ _ => True) w.
Proof.
  intros Htr. unfold collect_with_context. loc_step. apply wp_any; [|done]. intros now w1.
  unfold new_budget. repeat (loc_step; try done). apply wp_with_locals. loc_step. loc_step.
  eapply wp_mono; [by apply Htr|..]; cbv beta.
  - intros finished [w2 t2] [-> HP]. do 4 loc_step. apply wp_any; [|done]. intros _ w3.
    loc_step. by exists t2.
  - intros e [w2 t2] _. do 4 loc_step. apply wp_any; [|done]. intros _ w3. by loc_step.
Qed.

Lemma collect_result (P : option CollectionResult -> Prop) worker source_ids portal_ids knows
    source_id since until archive_only w :
  (forall scope attempt w, wp (collect_with_context policy strict_source_scope scope attempt)
     (fun r _ => P r) (fun _ _ => True) w) ->
  wp (collect policy strict_source_scope worker source_ids portal_ids knows source_id since until
        archive_only) (fun r _ => P r) (fun _ _ => True) w.
Proof.
  intros HP. unfold collect. loc_step. loc_step; [done|]. cbv zeta. loc_step. apply wp_any; [|done].
  intros _ w1. unfold with_lease. loc_step. apply wp_any; [|done]. intros acquired w2. loc_step.
  apply (wp_mono _ (fun r _ => P r) _ (fun _ _ => True)).
  - loc_step. loc_step.
    assert (Hexit : forall e w3, wp (when acquired (lease_release (py "collection-source:" ++ source_id));;
      raise e) (fun r _ => P r) (fun _ _ => True) w3).
    { intros e w3. loc_step. apply wp_any; [|done]. intros _ w4. by loc_step. }
    loc_step; [apply Hexit|]. loc_step. apply wp_any; [|auto]. intros attempt w3.
    eapply wp_mono; [apply HP|done|]. auto.
  - intros r w3 HPr. loc_step. apply wp_any; [|done]. intros _ w4. by loc_step.
  - done.
Qed.
End results.
