(* ===== verification/CollectionStore.v ===== *)
(** [src/src/makolet/adapters/persistence/collection.py]: the durable traversal state and
    its charge ledger, on the [collection_*] tables of [schema.py] next to the source
    files of [Database.v].  One row per [Record]; each method is one transaction. *)
From S2P Require Import Prelude Errors Effects Enums PyNumbers Models AppModels Ports Database SourceFiles CollectionPorts.

(** ** Tables *)

Record CheckpointRow := {
  cp_retailer : pystr;
  cp_portal_ids : list pystr;
  cp_portal_generation : pystr;
  cp_operation : operation;
  cp_since : option datetime;
  cp_until : option datetime;
  cp_archive_only : bool;
  cp_generation : Z;
  cp_cursor : option pystr;
  cp_offset : Z;
  cp_recognized : Z;
  cp_unknown : Z;
  cp_complete : bool;
  cp_last_completed_at : option Z
}.

Record AttemptRow := {
  at_checkpoint : uuid;
  at_generation : Z;
  at_status : attempt_status;
  at_started_at : Z;
  at_finished_at : option Z;
  at_start_cursor : option pystr;
  at_start_offset : Z;
  at_cursor : option pystr;
  at_offset : Z;
  at_discovered : Z;
  at_processed : Z;
  at_duplicate : Z;
  at_skipped_unknown : Z;
  at_warning : Z;
  at_charged_bytes : Z;
  at_truncation : option truncation_reason;
  at_error_code : option string
}.

Record TransferCharge := {
  tc_retailer : pystr;
  tc_content_length : Z;
  tc_settled : bool;
  tc_archive_attached : bool;
  tc_charged_at : Z
}.

Record ArchiveCharge := {
  ac_retailer : pystr;
  ac_attempt : uuid;
  ac_content_length : Z;
  ac_charged_at : Z
}.

Record Bucket := { bk_charged_bytes : Z; bk_identities : Z; bk_attempts : Z; bk_successes : Z }.

Record BudgetRow := { bg_window_started_at : Z; bg_counts : Bucket }.

(** The tables: transfer charges by attempt and source file, archive charges by source
    file, buckets by retailer and start. *)
Record CollectionDb := {
  retailers : gset pystr;
  checkpoints : gmap uuid CheckpointRow;
  attempts_table : gmap uuid AttemptRow;
  transfers : gmap (uuid * uuid) TransferCharge;
  archive_charges : gmap uuid ArchiveCharge;
  identities : gset uuid;
  buckets : gmap (pystr * Z) Bucket;
  budgets : gmap pystr BudgetRow;
  next_row : uuid
}.

(** The database of a collection session. *)
Record CState := { files : Db; col : CollectionDb }.

Definition set_col (f : CollectionDb -> CollectionDb) (s : CState) : CState :=
  {| files := files s; col := f (col s) |}.
Definition set_checkpoints f (c : CollectionDb) := {| retailers := retailers c;
  checkpoints := f (checkpoints c); attempts_table := attempts_table c; transfers := transfers c;
  archive_charges := archive_charges c; identities := identities c; buckets := buckets c;
  budgets := budgets c; next_row := next_row c |}.
Definition set_attempts f (c : CollectionDb) := {| retailers := retailers c;
  checkpoints := checkpoints c; attempts_table := f (attempts_table c); transfers := transfers c;
  archive_charges := archive_charges c; identities := identities c; buckets := buckets c;
  budgets := budgets c; next_row := next_row c |}.
Definition set_transfers f (c : CollectionDb) := {| retailers := retailers c;
  checkpoints := checkpoints c; attempts_table := attempts_table c; transfers := f (transfers c);
  archive_charges := archive_charges c; identities := identities c; buckets := buckets c;
  budgets := budgets c; next_row := next_row c |}.
Definition set_archive_charges f (c : CollectionDb) := {| retailers := retailers c;
  checkpoints := checkpoints c; attempts_table := attempts_table c; transfers := transfers c;
  archive_charges := f (archive_charges c); identities := identities c; buckets := buckets c;
  budgets := budgets c; next_row := next_row c |}.
Definition set_identities f (c : CollectionDb) := {| retailers := retailers c;
  checkpoints := checkpoints c; attempts_table := attempts_table c; transfers := transfers c;
  archive_charges := archive_charges c; identities := f (identities c); buckets := buckets c;
  budgets := budgets c; next_row := next_row c |}.
Definition set_buckets f (c : CollectionDb) := {| retailers := retailers c;
  checkpoints := checkpoints c; attempts_table := attempts_table c; transfers := transfers c;
  archive_charges := archive_charges c; identities := identities c; buckets := f (buckets c);
  budgets := budgets c; next_row := next_row c |}.
Definition set_budgets f (c : CollectionDb) := {| retailers := retailers c;
  checkpoints := checkpoints c; attempts_table := attempts_table c; transfers := transfers c;
  archive_charges := archive_charges c; identities := identities c; buckets := buckets c;
  budgets := f (budgets c); next_row := next_row c |}.
Definition bump_row (c : CollectionDb) := {| retailers := retailers c;
  checkpoints := checkpoints c; attempts_table := attempts_table c; transfers := transfers c;
  archive_charges := archive_charges c; identities := identities c; buckets := buckets c;
  budgets := budgets c; next_row := next_row c + 1 |}.

Definition write (f : CollectionDb -> CollectionDb) : M CState unit := modify (set_col f).
Definition clock_timestamp : M CState Z := gets (fun s => clock (files s)).

(** A check constraint of the schema: an [IntegrityError] of the driver. *)
Definition check_constraint (b : bool) : M CState unit := raise_if (negb b) (PyExn OtherException).

(** ** Constants, in microseconds *)

Definition BUDGET_BUCKET_WIDTH : Z := 5 * 60 * 1000000.
Definition ARCHIVE_BUDGET_WINDOW : Z := 24 * 3600 * 1000000.

(** [_budget_bucket_start]: [date_bin] of five minutes from the epoch. *)
Definition budget_bucket_start (t : Z) : Z := t - t `mod` BUDGET_BUCKET_WIDTH.

(** ** Locked reads *)

(** [_locked_attempt]. *)
Definition locked_attempt (id : uuid) : M CState (AttemptRow * CheckpointRow) :=
  s ← get_state;
  match attempts_table (col s) !! id with
  | None => raise not_found
  | Some a => match checkpoints (col s) !! at_checkpoint a with
              | None => raise (PyExn OtherException)
              | Some c => mret (a, c)
              end
  end.

(** With the test each caller makes. *)
Definition running_attempt (id : uuid) : M CState (AttemptRow * CheckpointRow) :=
  ac ← locked_attempt id;
  raise_if (negb (bool_decide (at_status (fst ac) = running))) conflict;;
  mret ac.

(** The source file of a charge, and its archive key. *)
Definition charged_source (retailer : pystr) (sid : uuid) (rf : RemoteFile)
    : M CState SourceRow :=
  raise_if (negb (bool_decide (rf_retailer_id rf = retailer))) conflict;;
  s ← get_state;
  match sources (files s) !! sid with
  | Some row =>
      if bool_decide (rf_retailer_id (src_remote row) = retailer
                      /\ rf_portal_id (src_remote row) = rf_portal_id rf
                      /\ rf_remote_id (src_remote row) = rf_remote_id rf)
      then mret row else raise conflict
  | None => raise conflict
  end.

(** ** The rolling budget *)

Definition empty_bucket : Bucket :=
  {| bk_charged_bytes := 0; bk_identities := 0; bk_attempts := 0; bk_successes := 0 |}.
Definition add_bucket (a b : Bucket) : Bucket :=
  {| bk_charged_bytes := bk_charged_bytes a + bk_charged_bytes b;
     bk_identities := bk_identities a + bk_identities b;
     bk_attempts := bk_attempts a + bk_attempts b;
     bk_successes := bk_successes a + bk_successes b |}.
Definition bucket_nonnegative (b : Bucket) : bool :=
  (0 <=? bk_charged_bytes b) && (0 <=? bk_identities b) && (0 <=? bk_attempts b)
  && (0 <=? bk_successes b).

(** The buckets of [retailer] that start in [lo, hi]. *)
Definition buckets_between (retailer : pystr) (lo hi : Z) (m : gmap (pystr * Z) Bucket)
    : list Bucket :=
  map snd (List.filter (fun kb => bool_decide (fst (fst kb) = retailer)
                                  && (lo <=? snd (fst kb)) && (snd (fst kb) <=? hi))
             (map_to_list m)).

(** [_locked_charge_budget]: prune, sum the window, refresh the retailer's row. *)
Definition locked_charge_budget (retailer : pystr) : M CState BudgetRow :=
  now ← clock_timestamp;
  let current := budget_bucket_start now in
  let window := current - ARCHIVE_BUDGET_WINDOW in
  write (set_buckets (filter (fun kb =>
    ~ (fst (fst kb) = retailer /\ snd (fst kb) < window - BUDGET_BUCKET_WIDTH))));;
  s ← get_state;
  let counts := foldr add_bucket empty_bucket
                  (buckets_between retailer window current (buckets (col s))) in
  check_constraint (bucket_nonnegative counts);;
  let row := {| bg_window_started_at := window; bg_counts := counts |} in
  write (set_budgets <[ retailer := row ]>);;
  mret row.

(** [_adjust_budget_bucket]: a negative delta only updates a bucket that still exists. *)
Definition adjust_budget_bucket (retailer : pystr) (charged_at : Z) (delta : Bucket)
    : M CState unit :=
  let start := budget_bucket_start charged_at in
  s ← get_state;
  match buckets (col s) !! (retailer, start) with
  | Some b =>
      check_constraint (bucket_nonnegative (add_bucket b delta));;
      write (set_buckets <[ (retailer, start) := add_bucket b delta ]>)
  | None =>
      if bucket_nonnegative delta
      then write (set_buckets <[ (retailer, start) := delta ]>)
      else mret tt
  end.

(** [_charge_budget_value]. *)
Definition charge_budget_value (a : AttemptRow) (b : BudgetRow)
    : M CState CollectionChargeBudget :=
  new_charge_budget
    {| run_charged_bytes := at_charged_bytes a;
       day_charged_bytes := bk_charged_bytes (bg_counts b);
       day_source_identities := bk_identities (bg_counts b);
       day_transfer_attempts := bk_attempts (bg_counts b);
       day_successes := bk_successes (bg_counts b) |}.

(** ** Attempts *)

Definition stop_attempt (status : attempt_status) (now : Z) (truncation : option truncation_reason)
    (code : option string) (a : AttemptRow) : AttemptRow :=
  {| at_checkpoint := at_checkpoint a; at_generation := at_generation a; at_status := status;
     at_started_at := at_started_at a; at_finished_at := Some now;
     at_start_cursor := at_start_cursor a; at_start_offset := at_start_offset a;
     at_cursor := at_cursor a; at_offset := at_offset a; at_discovered := at_discovered a;
     at_processed := at_processed a; at_duplicate := at_duplicate a;
     at_skipped_unknown := at_skipped_unknown a; at_warning := at_warning a;
     at_charged_bytes := at_charged_bytes a; at_truncation := truncation; at_error_code := code |}.
Definition charge_attempt (delta : Z) (a : AttemptRow) : AttemptRow :=
  {| at_checkpoint := at_checkpoint a; at_generation := at_generation a; at_status := at_status a;
     at_started_at := at_started_at a; at_finished_at := at_finished_at a;
     at_start_cursor := at_start_cursor a; at_start_offset := at_start_offset a;
     at_cursor := at_cursor a; at_offset := at_offset a; at_discovered := at_discovered a;
     at_processed := at_processed a; at_duplicate := at_duplicate a;
     at_skipped_unknown := at_skipped_unknown a; at_warning := at_warning a;
     at_charged_bytes := at_charged_bytes a + delta; at_truncation := at_truncation a;
     at_error_code := at_error_code a |}.
Definition move_attempt (cursor : option pystr) (offset : Z) (p : Progress) (a : AttemptRow)
    : AttemptRow :=
  {| at_checkpoint := at_checkpoint a; at_generation := at_generation a; at_status := at_status a;
     at_started_at := at_started_at a; at_finished_at := at_finished_at a;
     at_start_cursor := at_start_cursor a; at_start_offset := at_start_offset a;
     at_cursor := cursor; at_offset := offset;
     at_discovered := at_discovered a + discovered_delta p;
     at_processed := at_processed a + processed_delta p;
     at_duplicate := at_duplicate a + duplicate_delta p;
     at_skipped_unknown := at_skipped_unknown a + unknown_delta p;
     at_warning := at_warning a + unknown_delta p;
     at_charged_bytes := at_charged_bytes a; at_truncation := at_truncation a;
     at_error_code := at_error_code a |}.

Definition next_generation (c : CheckpointRow) : CheckpointRow :=
  {| cp_retailer := cp_retailer c; cp_portal_ids := cp_portal_ids c;
     cp_portal_generation := cp_portal_generation c; cp_operation := cp_operation c;
     cp_since := cp_since c; cp_until := cp_until c; cp_archive_only := cp_archive_only c;
     cp_generation := cp_generation c + 1; cp_cursor := None; cp_offset := 0;
     cp_recognized := 0; cp_unknown := 0; cp_complete := false;
     cp_last_completed_at := cp_last_completed_at c |}.
Definition move_checkpoint (cursor : option pystr) (offset : Z) (p : Progress)
    (c : CheckpointRow) : CheckpointRow :=
  {| cp_retailer := cp_retailer c; cp_portal_ids := cp_portal_ids c;
     cp_portal_generation := cp_portal_generation c; cp_operation := cp_operation c;
     cp_since := cp_since c; cp_until := cp_until c; cp_archive_only := cp_archive_only c;
     cp_generation := cp_generation c; cp_cursor := cursor; cp_offset := offset;
     cp_recognized := cp_recognized c + recognized_delta p;
     cp_unknown := cp_unknown c + unknown_delta p; cp_complete := cp_complete c;
     cp_last_completed_at := cp_last_completed_at c |}.
Definition complete_checkpoint (complete : bool) (at_ : option Z) (c : CheckpointRow)
    : CheckpointRow :=
  {| cp_retailer := cp_retailer c; cp_portal_ids := cp_portal_ids c;
     cp_portal_generation := cp_portal_generation c; cp_operation := cp_operation c;
     cp_since := cp_since c; cp_until := cp_until c; cp_archive_only := cp_archive_only c;
     cp_generation := cp_generation c; cp_cursor := cp_cursor c; cp_offset := cp_offset c;
     cp_recognized := cp_recognized c; cp_unknown := cp_unknown c; cp_complete := complete;
     cp_last_completed_at := at_ |}.

Section store.
(** [CollectionScope.portal_generation]: the SHA-256 of the portal list's JSON. *)
Variable portal_generation : list pystr -> pystr.

(** The unique index of [collection_checkpoints]. *)
Definition same_scope (scope : CollectionScope) (c : CheckpointRow) : bool :=
  bool_decide (cp_retailer c = sc_source_id scope
    /\ cp_portal_generation c = portal_generation (sc_portal_ids scope)
    /\ cp_operation c = sc_operation scope /\ cp_since c = sc_since scope
    /\ cp_until c = sc_until scope /\ cp_archive_only c = sc_archive_only scope).
Definition find_checkpoint (scope : CollectionScope) (c : CollectionDb)
    : option (uuid * CheckpointRow) :=
  find (fun p => same_scope scope p.2) (map_to_list (checkpoints c)).

Definition new_checkpoint (scope : CollectionScope) : CheckpointRow :=
  {| cp_retailer := sc_source_id scope; cp_portal_ids := sc_portal_ids scope;
     cp_portal_generation := portal_generation (sc_portal_ids scope);
     cp_operation := sc_operation scope; cp_since := sc_since scope; cp_until := sc_until scope;
     cp_archive_only := sc_archive_only scope; cp_generation := 1; cp_cursor := None;
     cp_offset := 0; cp_recognized := 0; cp_unknown := 0; cp_complete := false;
     cp_last_completed_at := None |}.

Definition fresh_row : M CState uuid :=
  s ← get_state;
  write bump_row;;
  mret (next_row (col s)).

(** [order_by(started_at.desc(), id.desc()).limit(1)]. *)
Definition later_attempt (p q : uuid * AttemptRow) : bool :=
  (at_started_at q.2 <? at_started_at p.2)
  || ((at_started_at q.2 =? at_started_at p.2) && (q.1 <? p.1)).
Definition latest_attempt (checkpoint : uuid) (generation : Z) (c : CollectionDb)
    : option AttemptRow :=
  snd <$> foldr (fun p best => match best with
                               | Some q => if later_attempt p q then Some p else Some q
                               | None => Some p
                               end) None
            (List.filter (fun p => bool_decide (at_checkpoint p.2 = checkpoint
                                                /\ at_generation p.2 = generation))
               (map_to_list (attempts_table c))).

(** Whether the attempt before this one ended on the boundary that is being resumed. *)
Definition stopped_at_boundary (prior : option AttemptRow) (c : CheckpointRow) : bool :=
  match prior with
  | Some a => bool_decide (at_status a ∈ [running; failed])
              && bool_decide (at_cursor a = cp_cursor c) && (at_offset a =? cp_offset c)
  | None => false
  end.

(** The sweep that fails the attempts a crash left running. *)
Definition fail_running (checkpoint : uuid) (now : Z) (a : AttemptRow) : AttemptRow :=
  if bool_decide (at_checkpoint a = checkpoint /\ at_status a = running)
  then stop_attempt failed now (at_truncation a) (Some "stale_collection_attempt"%string) a
  else a.

Definition new_attempt (checkpoint : uuid) (now : Z) (c : CheckpointRow) : AttemptRow :=
  {| at_checkpoint := checkpoint; at_generation := cp_generation c; at_status := running;
     at_started_at := now; at_finished_at := None; at_start_cursor := cp_cursor c;
     at_start_offset := cp_offset c; at_cursor := cp_cursor c; at_offset := cp_offset c;
     at_discovered := 0; at_processed := 0; at_duplicate := 0; at_skipped_unknown := 0;
     at_warning := 0; at_charged_bytes := 0; at_truncation := None; at_error_code := None |}.

(** [begin_attempt]. *)
Definition begin_attempt_body (scope : CollectionScope) : M CState CollectionAttempt :=
  s ← get_state;
  raise_if (negb (bool_decide (sc_source_id scope ∈ retailers (col s)))) not_found;;
  raise_if (negb (py_all (fun p => bool_decide (is_Some (portals (files s) !! (sc_source_id scope, p))))
                    (sc_portal_ids scope))) not_found;;
  match find_checkpoint scope (col s) with
  | Some _ => mret tt
  | None => cid ← fresh_row; write (set_checkpoints <[ cid := new_checkpoint scope ]>)
  end;;
  s ← get_state;
  match find_checkpoint scope (col s) with
  | None => raise (PyExn OtherException)
  | Some (cid, c) =>
      raise_if (negb (bool_decide (cp_portal_ids c = sc_portal_ids scope))) conflict;;
      let rolled := cp_complete c in
      let c := if rolled then next_generation c else c in
      when rolled (write (set_checkpoints <[ cid := c ]>));;
      let retry := negb rolled
        && stopped_at_boundary (latest_attempt cid (cp_generation c) (col s)) c in
      now ← clock_timestamp;
      write (set_attempts (fmap (fail_running cid now)));;
      aid ← fresh_row;
      write (set_attempts <[ aid := new_attempt cid now c ]>);;
      mret {| ca_attempt_id := aid; ca_checkpoint_id := cid; ca_generation := cp_generation c;
              ca_cursor := cp_cursor c; ca_page_offset := cp_offset c;
              ca_recognized_count := cp_recognized c; ca_unknown_count := cp_unknown c;
              ca_retry_boundary := retry |}
  end.
Definition db_begin_attempt (scope : CollectionScope) : M CState CollectionAttempt :=
  transaction (begin_attempt_body scope).

(** [_validate_progress]. *)
Definition validate_progress (cursor : option pystr) (offset : Z) (p : Progress) : M CState unit :=
  raise_if (match cursor with Some c => negb (between 1 (utf8_len c) 8192) | None => false end)
    (PyExn ValueError);;
  raise_if ((offset <? 0) || py_any (fun d => d <? 0)
              [discovered_delta p; recognized_delta p; unknown_delta p; processed_delta p;
               duplicate_delta p]) (PyExn ValueError).

(** [advance_attempt]: a compare-and-set on the checkpoint's boundary. *)
Definition db_advance_attempt (id : uuid) (expected : option pystr) (expected_offset : Z)
    (cursor : option pystr) (offset : Z) (p : Progress) : M CState CollectionAttempt :=
  validate_progress cursor offset p;;
  transaction
    ('(a, c) ← running_attempt id;
     raise_if (negb (bool_decide (at_cursor a = expected /\ at_offset a = expected_offset
                       /\ cp_cursor c = expected /\ cp_offset c = expected_offset
                       /\ at_generation a = cp_generation c))) conflict;;
     let c' := move_checkpoint cursor offset p c in
     write (set_checkpoints <[ at_checkpoint a := c' ]>);;
     write (set_attempts <[ id := move_attempt cursor offset p a ]>);;
     mret {| ca_attempt_id := id; ca_checkpoint_id := at_checkpoint a;
             ca_generation := cp_generation c; ca_cursor := cursor; ca_page_offset := offset;
             ca_recognized_count := cp_recognized c'; ca_unknown_count := cp_unknown c';
             ca_retry_boundary := false |}).

(** [finish_attempt]; [_TRUNCATION_REASONS] holds every reason but the listing limits. *)
Definition durable_reason (r : truncation_reason) : bool :=
  match r with listing_limit _ => false | _ => true end.
Definition db_finish_attempt (id : uuid) (status : attempt_status) (truncated complete : bool)
    (reason : option truncation_reason) (code : option string) : M CState unit :=
  raise_if (bool_decide (status = running)) (PyExn ValueError);;
  raise_if (match code with
            | Some c => negb (between 1 (Z.of_nat (String.length c)) 128)
            | None => false
            end) (PyExn ValueError);;
  raise_if (negb (Bool.eqb truncated (bool_decide (reason <> None)))) (PyExn ValueError);;
  raise_if (match reason with Some r => negb (durable_reason r) | None => false end)
    (PyExn ValueError);;
  transaction
    ('(a, c) ← running_attempt id;
     now ← clock_timestamp;
     write (set_attempts <[ id := stop_attempt status now reason code a ]>);;
     write (set_checkpoints <[ at_checkpoint a :=
       complete_checkpoint complete
         (if complete && bool_decide (status = completed) then Some now else cp_last_completed_at c)
         c ]>)).

(** [observe_attempt]. *)
Definition db_observe_attempt (id : uuid) (n : Z) : M CState unit :=
  raise_if (n <? 0) (PyExn ValueError);;
  transaction
    (s ← get_state;
     match attempts_table (col s) !! id with
     | Some a =>
         raise_if (negb (bool_decide (at_status a = running))) conflict;;
         write (set_attempts <[ id := move_attempt (at_cursor a) (at_offset a)
           {| discovered_delta := n; recognized_delta := 0; unknown_delta := 0;
              processed_delta := 0; duplicate_delta := 0 |} a ]>)
     | None => raise conflict
     end).

(** [is_terminal] and [note_terminal]. *)
Definition db_is_terminal (rf : RemoteFile) (archive_only : bool) : M CState bool :=
  s ← get_state;
  mret (match find_source rf (files s) with
        | Some (_, row) =>
            bool_decide (src_status row ∈ [COMPLETED; QUARANTINED; FAILED_TERMINAL])
            || (archive_only && bool_decide (is_Some (src_archive row)))
        | None => false
        end).
Definition db_note_terminal (rf : RemoteFile) (archive_only : bool) : M CState unit :=
  b ← db_is_terminal rf archive_only;
  raise_if (negb b) conflict.

(** ** Charges *)

(** [charge_budget]. *)
Definition db_charge_budget (id : uuid) : M CState CollectionChargeBudget :=
  transaction
    ('(a, c) ← running_attempt id;
     budget ← locked_charge_budget (cp_retailer c);
     charge_budget_value a budget).

(** The insertion branch of [reserve_transfer]. *)
Definition insert_reservation (id : uuid) (sid : uuid) (retailer : pystr) (n now : Z)
    (a : AttemptRow) : M CState (AttemptRow * BudgetRow) :=
  write (set_transfers <[ (id, sid) := {| tc_retailer := retailer; tc_content_length := n;
    tc_settled := false; tc_archive_attached := false; tc_charged_at := now |} ]>);;
  s ← get_state;
  let observed := bool_decide (sid ∈ identities (col s)) in
  write (set_identities (fun m => {[ sid ]} ∪ m));;
  let a' := charge_attempt n a in
  check_constraint (0 <=? at_charged_bytes a');;
  write (set_attempts <[ id := a' ]>);;
  adjust_budget_bucket retailer now
    {| bk_charged_bytes := n; bk_identities := Z.b2z (negb observed); bk_attempts := 1;
       bk_successes := 0 |};;
  budget ← locked_charge_budget retailer;
  mret (a', budget).

(** [reserve_transfer]. *)
Definition db_reserve_transfer (id sid : uuid) (rf : RemoteFile) (n : Z)
    : M CState CollectionChargeBudget :=
  raise_if (n <? 0) (PyExn ValueError);;
  transaction
    ('(a, c) ← running_attempt id;
     let retailer := cp_retailer c in
     budget ← locked_charge_budget retailer;
     now ← clock_timestamp;
     charged_source retailer sid rf;;
     s ← get_state;
     '(a, budget) ← match transfers (col s) !! (id, sid) with
                    | Some _ => mret (a, budget)
                    | None => insert_reservation id sid retailer n now a
                    end;
     charge_budget_value a budget).

(** The length of the archive the file has, and whether this charge is the first for it. *)
Definition charge_archive (id sid : uuid) (retailer : pystr) (now : Z) (row : SourceRow)
    : M CState (Z * bool) :=
  match src_archive row with
  | None => mret (0, false)
  | Some digest =>
      s ← get_state;
      match archives (files s) !! digest with
      | None => raise (PyExn OtherException)
      | Some arc =>
          let n := arc_content_length arc in
          match archive_charges (col s) !! sid with
          | Some _ => mret (n, false)
          | None =>
              write (set_archive_charges <[ sid := {| ac_retailer := retailer; ac_attempt := id;
                ac_content_length := n; ac_charged_at := now |} ]>);;
              mret (n, true)
          end
      end
  end.

(** The settlement of a reservation. *)
Definition settle_reservation (id sid : uuid) (retailer : pystr) (n : Z) (row : SourceRow)
    (r : TransferCharge) (a : AttemptRow) : M CState (AttemptRow * BudgetRow) :=
  now ← clock_timestamp;
  '(archive_length, first) ← charge_archive id sid retailer now row;
  let attached := bool_decide (is_Some (src_archive row)) in
  let transfer := if attached then Z.max 0 (n - archive_length) else n in
  let exact := transfer + (if (first : bool) then archive_length else 0) in
  raise_if (tc_content_length r <? exact) conflict;;
  write (set_transfers <[ (id, sid) := {| tc_retailer := tc_retailer r;
    tc_content_length := transfer; tc_settled := true; tc_archive_attached := attached;
    tc_charged_at := now |} ]>);;
  let a' := charge_attempt (exact - tc_content_length r) a in
  check_constraint (0 <=? at_charged_bytes a');;
  write (set_attempts <[ id := a' ]>);;
  adjust_budget_bucket retailer (tc_charged_at r)
    {| bk_charged_bytes := - tc_content_length r; bk_identities := 0; bk_attempts := 0;
       bk_successes := 0 |};;
  adjust_budget_bucket retailer now
    {| bk_charged_bytes := exact; bk_identities := 0; bk_attempts := 0;
       bk_successes := Z.b2z first |};;
  budget ← locked_charge_budget retailer;
  mret (a', budget).

(** [settle_transfer]. *)
Definition db_settle_transfer (id sid : uuid) (rf : RemoteFile) (n : Z)
    : M CState CollectionChargeBudget :=
  raise_if (n <? 0) (PyExn ValueError);;
  transaction
    ('(a, c) ← running_attempt id;
     let retailer := cp_retailer c in
     budget ← locked_charge_budget retailer;
     row ← charged_source retailer sid rf;
     s ← get_state;
     match transfers (col s) !! (id, sid) with
     | None => raise conflict
     | Some r =>
         '(a, budget) ← if tc_settled r then mret (a, budget)
                        else settle_reservation id sid retailer n row r a;
         charge_budget_value a budget
     end).
End store.
