(* ===== verification/CollectionStoreFacts.v ===== *)
(** The collection tables keep the contract the traversal relies on, and an exact ledger:
    what an attempt is charged is the sum of its transfer and archive charges. *)
From S2P Require Import Prelude Errors Effects Enums PyNumbers Models AppModels Ports Database SourceFiles SourceFilesFacts CollectionPorts CollectionService CollectionFacts CollectionContracts CollectionStore.

(** ** Frames *)

(** Only the budget cache moved: buckets and budget rows. *)
Record same_ledger (c c' : CollectionDb) : Prop := {
  sl_retailers : retailers c' = retailers c;
  sl_checkpoints : checkpoints c' = checkpoints c;
  sl_attempts : attempts_table c' = attempts_table c;
  sl_transfers : transfers c' = transfers c;
  sl_archives : archive_charges c' = archive_charges c;
  sl_identities : identities c' = identities c;
  sl_rows : next_row c' = next_row c
}.

Lemma same_ledger_refl c : same_ledger c c.
Proof. by split. Qed.

Lemma same_ledger_trans c1 c2 c3 : same_ledger c1 c2 -> same_ledger c2 c3 -> same_ledger c1 c3.
Proof. intros [] []. split; congruence. Qed.

(** A step that only moves the budget cache. *)
Definition cache_step (s s' : CState) : Prop :=
  files s' = files s /\ same_ledger (col s) (col s').

Lemma cache_step_refl s : cache_step s s.
Proof. split; [done|apply same_ledger_refl]. Qed.

Lemma cache_step_trans s1 s2 s3 : cache_step s1 s2 -> cache_step s2 s3 -> cache_step s1 s3.
Proof. intros [F1 L1] [F2 L2]. split; [congruence|by eapply same_ledger_trans]. Qed.

(** What pruning and adjusting do to the buckets. *)
Definition window_start (now : Z) : Z := budget_bucket_start now - ARCHIVE_BUDGET_WINDOW.
Definition prune (r : pystr) (now : Z) (m : gmap (pystr * Z) Bucket) : gmap (pystr * Z) Bucket :=
  filter (fun kb => ~ (fst (fst kb) = r /\ snd (fst kb) < window_start now - BUDGET_BUCKET_WIDTH)) m.
Definition adjusted (r : pystr) (t : Z) (delta : Bucket) (m : gmap (pystr * Z) Bucket)
    : gmap (pystr * Z) Bucket :=
  match m !! (r, budget_bucket_start t) with
  | Some b => <[ (r, budget_bucket_start t) := add_bucket b delta ]> m
  | None => if bucket_nonnegative delta then <[ (r, budget_bucket_start t) := delta ]> m else m
  end.
Definition window_sum (r : pystr) (now : Z) (m : gmap (pystr * Z) Bucket) : Bucket :=
  foldr add_bucket empty_bucket (buckets_between r (window_start now) (budget_bucket_start now) m).

Lemma locked_charge_budget_spec r s :
  wp (locked_charge_budget r)
    (fun b s' => cache_step s s' /\ buckets (col s') = prune r (clock (files s)) (buckets (col s)) /\
       bg_counts b = window_sum r (clock (files s)) (buckets (col s'))) (fun _ _ => True) s.
Proof.
  unfold locked_charge_budget, clock_timestamp, write, check_constraint.
  repeat (wp_step; cbv beta zeta); try done.
Qed.

Lemma adjust_budget_bucket_spec r t b s :
  wp (adjust_budget_bucket r t b)
    (fun _ s' => cache_step s s' /\ buckets (col s') = adjusted r t b (buckets (col s)))
    (fun _ _ => True) s.
Proof.
  unfold adjust_budget_bucket, adjusted, check_constraint, write. cbv zeta. wp_step. wp_step. cbv beta.
  destruct (buckets (col s) !! (r, budget_bucket_start t)).
  - wp_step. wp_step; [done|]. wp_step. split; [by repeat split|done].
  - destruct (bucket_nonnegative b); wp_step; (split; [by repeat split|done]).
Qed.

Lemma running_attempt_spec id s :
  wp (running_attempt id)
    (fun ac s' => s' = s /\ attempts_table (col s) !! id = Some ac.1 /\
       at_status ac.1 = running /\ checkpoints (col s) !! at_checkpoint ac.1 = Some ac.2)
    (fun _ s' => s' = s) s.
Proof.
  unfold running_attempt, locked_attempt. do 3 wp_step. cbv beta.
  destruct (attempts_table (col s) !! id) as [a|] eqn:Ha; [|by wp_step].
  destruct (checkpoints (col s) !! at_checkpoint a) as [c|] eqn:Hc; [|by wp_step].
  do 2 wp_step. wp_step; [done|]. reflect_bools. wp_step. by split_and!.
Qed.

Lemma charged_source_spec r sid rf s :
  wp (charged_source r sid rf)
    (fun row s' => s' = s /\ sources (files s) !! sid = Some row) (fun _ _ => True) s.
Proof.
  unfold charged_source. wp_step. wp_step; [done|]. do 2 wp_step. cbv beta.
  destruct (sources (files s) !! sid) as [row|] eqn:Hrow; [|by wp_step].
  case_bool_decide; by wp_step.
Qed.

Lemma charge_budget_value_spec a b s :
  wp (charge_budget_value a b)
    (fun v s' => s' = s /\ v = {| run_charged_bytes := at_charged_bytes a;
       day_charged_bytes := bk_charged_bytes (bg_counts b);
       day_source_identities := bk_identities (bg_counts b);
       day_transfer_attempts := bk_attempts (bg_counts b);
       day_successes := bk_successes (bg_counts b) |})
    (fun _ s' => s' = s) s.
Proof. unfold charge_budget_value, new_charge_budget. by repeat wp_step. Qed.

(** ** The operations *)

(** Only the attempt's charge moved in the attempts table. *)
Definition charged_by (id : uuid) (a : AttemptRow) (delta : Z) (s s' : CState) : Prop :=
  files s' = files s /\ checkpoints (col s') = checkpoints (col s) /\
  attempts_table (col s') = <[ id := charge_attempt delta a ]> (attempts_table (col s)).

Lemma db_charge_budget_spec id s :
  wp (db_charge_budget id)
    (fun b s' => cache_step s s' /\ exists a c, attempts_table (col s) !! id = Some a /\
       at_status a = running /\ checkpoints (col s) !! at_checkpoint a = Some c /\
       run_charged_bytes b = at_charged_bytes a /\
       buckets (col s') = prune (cp_retailer c) (clock (files s)) (buckets (col s)) /\
       day_charged_bytes b = bk_charged_bytes
         (window_sum (cp_retailer c) (clock (files s)) (buckets (col s'))))
    (fun _ s' => s' = s) s.
Proof.
  unfold db_charge_budget. wp_step. wp_step.
  eapply wp_mono; [apply running_attempt_spec| |done]; cbv beta.
  intros [a c] s1 (-> & Ha & Hr & Hc). simpl in *. wp_step.
  eapply wp_mono; [apply locked_charge_budget_spec| |done]; cbv beta.
  intros b s2 (Hs & Hb & Hw). eapply wp_mono; [apply charge_budget_value_spec| |done]; cbv beta.
  intros v s3 [-> ->]. split; [done|]. exists a, c. split_and!; try done. simpl. by rewrite Hw.
Qed.

(** A new reservation of [n] bytes. *)
Definition reservation (r : pystr) (n now : Z) : TransferCharge :=
  {| tc_retailer := r; tc_content_length := n; tc_settled := false;
     tc_archive_attached := false; tc_charged_at := now |}.

Record reserved (id sid : uuid) (r : pystr) (n : Z) (a : AttemptRow) (s s' : CState) : Prop := {
  rs_new : transfers (col s) !! (id, sid) = None;
  rs_nonneg : 0 <= n;
  rs_files : files s' = files s;
  rs_checkpoints : checkpoints (col s') = checkpoints (col s);
  rs_attempts : attempts_table (col s') = <[ id := charge_attempt n a ]> (attempts_table (col s));
  rs_transfers : transfers (col s') =
    <[ (id, sid) := reservation r n (clock (files s)) ]> (transfers (col s));
  rs_archives : archive_charges (col s') = archive_charges (col s);
  rs_buckets : exists identity, buckets (col s') = prune r (clock (files s))
    (adjusted r (clock (files s)) {| bk_charged_bytes := n; bk_identities := Z.b2z identity;
       bk_attempts := 1; bk_successes := 0 |} (prune r (clock (files s)) (buckets (col s))));
  rs_rows : next_row (col s') = next_row (col s)
}.

Lemma insert_reservation_spec id sid r n now a s0 s :
  cache_step s0 s -> buckets (col s) = prune r (clock (files s0)) (buckets (col s0)) ->
  transfers (col s) !! (id, sid) = None -> 0 <= n -> now = clock (files s0) ->
  wp (insert_reservation id sid r n now a)
    (fun ab s' => ab.1 = charge_attempt n a /\ reserved id sid r n a s0 s') (fun _ _ => True) s.
Proof.
  intros [Hf []] Hbk Hnew Hn ->. unfold insert_reservation, write, check_constraint.
  do 4 wp_step. cbv beta zeta. do 4 wp_step; [done|]. cbv beta zeta. do 2 wp_step.
  wp_step. eapply wp_mono; [apply adjust_budget_bucket_spec| |done]; cbv beta.
  intros _ s1 [[Hf1 []] Hb1]. wp_step. eapply wp_mono; [apply locked_charge_budget_spec| |done]; cbv beta.
  intros b s2 ([Hf2 []] & Hb2 & _). wp_step. split; [done|]. simpl in *.
  split; unfold reservation; try congruence.
  exists (negb (bool_decide (sid ∈ identities (col s)))). rewrite Hb2, Hb1, Hbk. congruence.
Qed.

Lemma db_reserve_transfer_spec id sid rf n s :
  wp (db_reserve_transfer id sid rf n)
    (fun v s' => 0 <= n /\ exists a c, attempts_table (col s) !! id = Some a /\
       at_status a = running /\ checkpoints (col s) !! at_checkpoint a = Some c /\
       (cache_step s s' /\ is_Some (transfers (col s) !! (id, sid)) /\
          run_charged_bytes v = at_charged_bytes a /\
          buckets (col s') = prune (cp_retailer c) (clock (files s)) (buckets (col s)) \/
        reserved id sid (cp_retailer c) n a s s' /\
          run_charged_bytes v = at_charged_bytes a + n))
    (fun _ s' => s' = s) s.
Proof.
  unfold db_reserve_transfer. wp_step. wp_step; [done|]. wp_step. reflect_bools.
  wp_step. eapply wp_mono; [apply running_attempt_spec| |done]; cbv beta.
  intros [a c] s1 (-> & Ha & Hr & Hc). simpl in Ha, Hr, Hc. cbv beta iota zeta.
  wp_step. eapply wp_mono; [apply locked_charge_budget_spec| |done]; cbv beta.
  intros b s1 (Hs1 & Hb1 & _). unfold clock_timestamp. do 2 wp_step. cbv beta.
  wp_step. eapply wp_mono; [apply charged_source_spec| |done]; cbv beta.
  intros row s2 [-> Hrow]. do 2 wp_step. cbv beta.
  destruct (transfers (col s1) !! (id, sid)) as [t|] eqn:Ht.
  - do 2 wp_step. eapply wp_mono; [apply charge_budget_value_spec| |done]; cbv beta.
    intros v s3 [-> ->]. split; [done|]. exists a, c. split_and!; try done. left. split_and!; [done| |done|done].
    destruct Hs1 as [_ []]. rewrite <- sl_transfers0. by rewrite Ht.
  - wp_step. eapply wp_mono; [apply (insert_reservation_spec _ _ _ _ _ _ s); try done;
      destruct Hs1 as [-> _]; done| |done]; cbv beta.
    intros [a' b'] s3 [Ha' Hres]. simpl in Ha'. subst a'. cbv beta iota.
    eapply wp_mono; [apply charge_budget_value_spec| |done]; cbv beta.
    intros v s4 [-> ->]. split; [done|]. exists a, c. split_and!; try done. right. split; [done|]. reflexivity.
Qed.

(** Archive objects have a length. *)
Definition archives_ok (s : CState) : Prop :=
  forall digest arc, archives (files s) !! digest = Some arc -> 0 <= arc_content_length arc.

(** The settlement of reservation [r]: [transfer] wire bytes stay with the attempt, and the
    first settlement of an archived file also charges its archive. *)
Record settled_by (id sid : uuid) (r : pystr) (res : TransferCharge) (transfer : Z)
    (archive : option Z) (a : AttemptRow) (s s' : CState) : Prop := {
  st_reserved : transfers (col s) !! (id, sid) = Some res;
  st_open : tc_settled res = false;
  st_nonneg : 0 <= transfer /\ (archives_ok s -> 0 <= default 0 archive);
  st_bound : transfer + default 0 archive <= tc_content_length res;
  st_files : files s' = files s;
  st_checkpoints : checkpoints (col s') = checkpoints (col s);
  st_attempts : attempts_table (col s') =
    <[ id := charge_attempt (transfer + default 0 archive - tc_content_length res) a ]>
      (attempts_table (col s));
  st_transfers : exists attached, transfers (col s') =
    <[ (id, sid) := {| tc_retailer := tc_retailer res; tc_content_length := transfer;
       tc_settled := true; tc_archive_attached := attached;
       tc_charged_at := clock (files s) |} ]> (transfers (col s));
  st_archives : match archive with
    | Some n => archive_charges (col s) !! sid = None /\
        archive_charges (col s') = <[ sid := {| ac_retailer := r; ac_attempt := id;
          ac_content_length := n; ac_charged_at := clock (files s) |} ]> (archive_charges (col s))
    | None => archive_charges (col s') = archive_charges (col s)
    end;
  st_buckets : exists first : bool, buckets (col s') = prune r (clock (files s))
    (adjusted r (clock (files s)) {| bk_charged_bytes := transfer + default 0 archive;
       bk_identities := 0; bk_attempts := 0; bk_successes := Z.b2z first |}
      (adjusted r (tc_charged_at res) {| bk_charged_bytes := - tc_content_length res;
         bk_identities := 0; bk_attempts := 0; bk_successes := 0 |}
        (prune r (clock (files s)) (buckets (col s)))));
  st_rows : next_row (col s') = next_row (col s)
}.

Lemma charge_archive_spec id sid r now row s :
  wp (charge_archive id sid r now row)
    (fun nf s' => (archives_ok s -> 0 <= nf.1) /\ files s' = files s /\
       checkpoints (col s') = checkpoints (col s) /\
       attempts_table (col s') = attempts_table (col s) /\
       transfers (col s') = transfers (col s) /\ next_row (col s') = next_row (col s) /\
       buckets (col s') = buckets (col s) /\
       if nf.2 : bool
       then archive_charges (col s) !! sid = None /\
            archive_charges (col s') = <[ sid := {| ac_retailer := r; ac_attempt := id;
              ac_content_length := nf.1; ac_charged_at := now |} ]> (archive_charges (col s))
       else archive_charges (col s') = archive_charges (col s))
    (fun _ _ => True) s.
Proof.
  unfold charge_archive, write. destruct (src_archive row) as [digest|]; [|by wp_step].
  do 2 wp_step. cbv beta. destruct (archives (files s) !! digest) as [arc|] eqn:Harc; [|by wp_step].
  cbv zeta. assert (archives_ok s -> 0 <= arc_content_length arc) by (intros Har; by eapply Har).
  destruct (archive_charges (col s) !! sid) eqn:Hac; [by wp_step|]. do 3 wp_step. simpl. by split_and!.
Qed.

Lemma settle_reservation_spec id sid r n row res a s0 s :
  cache_step s0 s -> buckets (col s) = prune r (clock (files s0)) (buckets (col s0)) ->
  transfers (col s0) !! (id, sid) = Some res ->
  tc_settled res = false -> 0 <= n ->
  wp (settle_reservation id sid r n row res a)
    (fun ab s' => exists transfer archive,
       ab.1 = charge_attempt (transfer + default 0 archive - tc_content_length res) a /\
       settled_by id sid r res transfer archive a s0 s') (fun _ _ => True) s.
Proof.
  intros [Hf []] Hbk Hres Hopen Hn. unfold settle_reservation, clock_timestamp, check_constraint, write.
  do 3 wp_step. cbv beta. eapply wp_mono; [apply charge_archive_spec| |done]; cbv beta.
  intros [len first] s1 (Hlen & Hf1 & Hc1 & Ha1 & Ht1 & Hr1 & Hb1 & Harc). simpl in Hlen, Harc.
  cbv beta iota zeta. set (attached := bool_decide _). set (transfer := if attached then _ else _).
  assert (Htr : 0 <= transfer) by (subst transfer; destruct attached; lia).
  wp_step. wp_step; [done|]. reflect_bools. do 2 wp_step. cbv zeta. wp_step. wp_step; [done|].
  do 3 wp_step. eapply wp_mono; [apply adjust_budget_bucket_spec| |done]; cbv beta.
  intros _ s2 [[Hf2 []] Hb2]. wp_step. eapply wp_mono; [apply adjust_budget_bucket_spec| |done]; cbv beta.
  intros _ s3 [[Hf3 []] Hb3]. wp_step. eapply wp_mono; [apply locked_charge_budget_spec| |done]; cbv beta.
  intros b s4 ([Hf4 []] & Hb4 & _). wp_step.
  exists transfer, (if first then Some len else None).
  assert (Hd : default 0 (if first then Some len else None) = if first then len else 0) by by destruct first.
  simpl in *. split; [by rewrite Hd|]. split; try rewrite Hd; try congruence.
  - split; [done|]. intros Har. destruct first; [|done]. apply Hlen. intros d arc. rewrite Hf. apply Har.
  - exists attached. congruence.
  - destruct first; [|congruence]. destruct Harc as [Hnone Harc]. split; congruence.
  - exists first. rewrite Hb4, Hb3, Hb2. simpl. rewrite Hb1, Hbk. congruence.
Qed.

Lemma db_settle_transfer_spec id sid rf n s :
  wp (db_settle_transfer id sid rf n)
    (fun v s' => exists a c, attempts_table (col s) !! id = Some a /\ at_status a = running /\
       checkpoints (col s) !! at_checkpoint a = Some c /\
       (cache_step s s' /\ run_charged_bytes v = at_charged_bytes a /\
          buckets (col s') = prune (cp_retailer c) (clock (files s)) (buckets (col s)) \/
        exists res transfer archive,
          settled_by id sid (cp_retailer c) res transfer archive a s s' /\
          run_charged_bytes v =
            at_charged_bytes a + (transfer + default 0 archive - tc_content_length res)))
    (fun _ s' => s' = s) s.
Proof.
  unfold db_settle_transfer. wp_step. wp_step; [done|]. wp_step. reflect_bools.
  wp_step. eapply wp_mono; [apply running_attempt_spec| |done]; cbv beta.
  intros [a c] s1 (-> & Ha & Hr & Hc). simpl in Ha, Hr, Hc. cbv beta iota zeta.
  wp_step. eapply wp_mono; [apply locked_charge_budget_spec| |done]; cbv beta.
  intros b s1 (Hs1 & Hb1 & _). wp_step. eapply wp_mono; [apply charged_source_spec| |done]; cbv beta.
  intros row s2 [-> Hrow]. do 2 wp_step. cbv beta.
  destruct (transfers (col s1) !! (id, sid)) as [t|] eqn:Ht; [|by wp_step].
  assert (Ht0 : transfers (col s) !! (id, sid) = Some t).
  { destruct Hs1 as [_ []]. by rewrite <- sl_transfers0. }
  destruct (tc_settled t) eqn:Hset.
  - do 2 wp_step. eapply wp_mono; [apply charge_budget_value_spec| |done]; cbv beta.
    intros v s3 [-> ->]. exists a, c. split_and!; try done. by left.
  - wp_step. eapply wp_mono; [by apply (settle_reservation_spec _ _ _ _ _ _ _ s)| |done]; cbv beta.
    intros [a' b'] s3 (transfer & archive & Ha' & Hst). simpl in Ha'. subst a'. cbv beta iota.
    eapply wp_mono; [apply charge_budget_value_spec| |done]; cbv beta.
    intros v s4 [-> ->]. exists a, c. split_and!; try done. right. by exists t, transfer, archive.
Qed.

(** ** Moving the boundary *)

Lemma validate_progress_spec c o p s :
  wp (validate_progress c o p) (fun _ s' => s' = s /\ 0 <= o) (fun _ s' => s' = s) s.
Proof.
  unfold validate_progress. wp_step. wp_step; [done|]. wp_step; [done|]. reflect_bools. done.
Qed.

Lemma db_advance_attempt_spec id c o c' o' p s :
  wp (db_advance_attempt id c o c' o' p)
    (fun r s' => exists a k, attempts_table (col s) !! id = Some a /\ at_status a = running /\
       checkpoints (col s) !! at_checkpoint a = Some k /\
       at_cursor a = c /\ at_offset a = o /\ cp_cursor k = c /\ cp_offset k = o /\
       at_generation a = cp_generation k /\ 0 <= o' /\ ca_attempt_id r = id /\
       s' = set_col (fun d => set_attempts <[ id := move_attempt c' o' p a ]>
              (set_checkpoints <[ at_checkpoint a := move_checkpoint c' o' p k ]> d)) s)
    (fun _ s' => s' = s) s.
Proof.
  unfold db_advance_attempt, write. wp_step.
  eapply wp_mono; [apply validate_progress_spec| |done]; cbv beta.
  intros _ s1 [-> Ho]. wp_step. wp_step.
  eapply wp_mono; [apply running_attempt_spec| |done]; cbv beta.
  intros [a k] s1 (-> & Ha & Hr & Hk). simpl in Ha, Hr, Hk. cbv beta iota.
  wp_step. wp_step; [done|]. reflect_bools. destruct H as (? & ? & ? & ? & ?). cbv zeta.
  repeat wp_step. exists a, k. by split_and!.
Qed.

Lemma db_observe_attempt_spec id n s :
  wp (db_observe_attempt id n)
    (fun _ s' => exists a, attempts_table (col s) !! id = Some a /\ at_status a = running /\
       s' = set_col (set_attempts <[ id := move_attempt (at_cursor a) (at_offset a)
         {| discovered_delta := n; recognized_delta := 0; unknown_delta := 0;
            processed_delta := 0; duplicate_delta := 0 |} a ]>) s)
    (fun _ s' => s' = s) s.
Proof.
  unfold db_observe_attempt, write. wp_step. wp_step; [done|]. wp_step. do 2 wp_step. cbv beta.
  destruct (attempts_table (col s) !! id) as [a|] eqn:Ha; [|by wp_step].
  wp_step. wp_step; [done|]. reflect_bools. wp_step. by exists a.
Qed.

Lemma db_finish_attempt_spec id st tr co r code s :
  wp (db_finish_attempt id st tr co r code)
    (fun _ s' => exists a k done_at, attempts_table (col s) !! id = Some a /\
       at_status a = running /\ st <> running /\
       checkpoints (col s) !! at_checkpoint a = Some k /\
       s' = set_col (fun d =>
              set_checkpoints <[ at_checkpoint a := complete_checkpoint co done_at k ]>
                (set_attempts <[ id := stop_attempt st (clock (files s)) r code a ]> d)) s)
    (fun _ s' => s' = s) s.
Proof.
  unfold db_finish_attempt, write, clock_timestamp. wp_step. wp_step; [done|].
  do 3 (wp_step; wp_step; [done|]). wp_step. wp_step.
  eapply wp_mono; [apply running_attempt_spec| |done]; cbv beta.
  intros [a k] s1 (-> & Ha & Hr & Hk). simpl in Ha, Hr, Hk. cbv beta iota.
  repeat wp_step. reflect_bools. eexists a, k, _. by split_and!.
Qed.

Lemma db_is_terminal_same rf ao s : (db_is_terminal rf ao s).2 = s.
Proof. done. Qed.

(** ** The repository as a port of the traversal *)

Section repository.
Context {X : Type}.
Variable portal_generation : list pystr -> pystr.

#[export] Instance postgres_collection : CollectionRepository (CState * X) := {|
  begin_attempt scope := lift (db_begin_attempt portal_generation scope);
  advance_attempt id c o c' o' p := lift (db_advance_attempt id c o c' o' p);
  finish_attempt id st tr co r code := lift (db_finish_attempt id st tr co r code);
  observe_attempt id n := lift (db_observe_attempt id n);
  is_terminal rf ao := lift (db_is_terminal rf ao);
  note_terminal rf ao := lift (db_note_terminal rf ao);
  charge_budget id := lift (db_charge_budget id);
  reserve_transfer id sid rf n := lift (db_reserve_transfer id sid rf n);
  settle_transfer id sid rf n := lift (db_settle_transfer id sid rf n)
|}.

(** The committed boundary of a running attempt is its checkpoint's. *)
Definition db_boundary (id : uuid) (s : CState) : option (option pystr * Z) :=
  a ← attempts_table (col s) !! id;
  if bool_decide (at_status a = running)
  then c ← checkpoints (col s) !! at_checkpoint a; Some (cp_cursor c, cp_offset c)
  else None.
Definition db_charged (id : uuid) (s : CState) : Z :=
  from_option at_charged_bytes 0 (attempts_table (col s) !! id).

#[export] Instance postgres_collection_store : CollectionStore (CState * X) := {|
  boundary id w := db_boundary id w.1;
  charged id w := db_charged id w.1;
  durably_terminal rf ao w := fst (db_is_terminal rf ao w.1) = Returned true
|}.

Lemma terminal_kept_files (s s' : CState) (x x' : X) :
  files s' = files s -> terminal_kept (s, x) (s', x').
Proof. intros Hf rf ao. unfold durably_terminal. simpl. by rewrite Hf. Qed.

Lemma db_boundary_ext id s s' :
  attempts_table (col s') = attempts_table (col s) -> checkpoints (col s') = checkpoints (col s) ->
  db_boundary id s' = db_boundary id s.
Proof.
  intros Ha Hc. unfold db_boundary. rewrite Ha.
  destruct (attempts_table (col s) !! id); [|done]. simpl. by rewrite Hc.
Qed.

Lemma cache_step_steady id s s' (x : X) : cache_step s s' -> steady id (s, x) (s', x).
Proof.
  intros [Hf []]. split_and!; [| |by apply terminal_kept_files]; simpl.
  - by apply db_boundary_ext.
  - unfold db_charged. by rewrite sl_attempts0.
Qed.

Lemma steady_same id s (x : X) : steady id (s, x) (s, x).
Proof. apply steady_refl. Qed.

(** Writing an attempt that keeps its place. *)
Lemma boundary_attempt id sid_ a a' (s : CState) s' :
  attempts_table (col s) !! id = Some a ->
  attempts_table (col s') = <[ id := a' ]> (attempts_table (col s)) ->
  at_status a' = at_status a -> at_checkpoint a' = at_checkpoint a ->
  checkpoints (col s') = checkpoints (col s) ->
  db_boundary sid_ s' = db_boundary sid_ s.
Proof.
  intros Ha Hat Hst Hcp Hck. unfold db_boundary. rewrite Hat.
  destruct (decide (id = sid_)) as [<-|Hne].
  - rewrite lookup_insert_eq, Ha. simpl. by rewrite Hst, Hcp, Hck.
  - rewrite lookup_insert_ne by done. destruct (attempts_table (col s) !! sid_); [|done].
    simpl. by rewrite Hck.
Qed.

#[export] Instance postgres_ledger : CollectionLedger (CState * X).
Proof.
  split.
  - intros id b c o c' o' p [s x] Hbd. apply wp_lift.
    eapply wp_mono; [apply db_advance_attempt_spec|..]; cbv beta; [|by intros _ s' ->; apply steady_same].
    intros r s' (a & k & Ha & Hr & Hk & _ & _ & Hc & Ho & _ & _ & Hid & ->). simpl.
    split_and!; [done| | | |by apply terminal_kept_files].
    + simpl in Hbd. unfold db_boundary in Hbd. rewrite Ha in Hbd. simpl in Hbd.
      rewrite bool_decide_eq_true_2, Hk in Hbd by done. simpl in Hbd. congruence.
    + unfold db_boundary. simpl. rewrite lookup_insert_eq. simpl.
      by rewrite bool_decide_eq_true_2, lookup_insert_eq.
    + unfold db_charged. simpl. by rewrite lookup_insert_eq, Ha.
  - intros id st tr co r code [s x]. apply wp_lift.
    eapply wp_mono; [apply db_finish_attempt_spec|..]; cbv beta; [|by intros _ s' ->; apply steady_same].
    intros _ s' (a & k & done_at & Ha & _ & _ & _ & ->). split; [|by apply terminal_kept_files].
    simpl. unfold db_charged. simpl. by rewrite lookup_insert_eq, Ha.
  - intros id n id' [s x]. apply wp_lift.
    eapply wp_mono; [apply db_observe_attempt_spec|..]; cbv beta; [|by intros _ s' ->; apply steady_same].
    intros _ s' (a & Ha & Hr & ->). split_and!; [| |by apply terminal_kept_files].
    + simpl. eapply boundary_attempt; [exact Ha|reflexivity|done..].
    + simpl. unfold db_charged. simpl. destruct (decide (id = id')) as [<-|Hne].
      * by rewrite lookup_insert_eq, Ha.
      * by rewrite lookup_insert_ne.
  - intros id rf ao [s x]. apply wp_lift. unfold wp, durably_terminal. simpl.
    split; [apply steady_same|]. by intros ->.
  - intros id rf ao [s x]. apply wp_lift. unfold db_note_terminal.
    wp_step. apply (wp_mono _ (fun b s' => s' = s /\ fst (db_is_terminal rf ao s) = Returned b) _
      (fun _ _ => False)); [done| |done].
    intros b s' [-> Hb]. wp_step; [apply steady_same|]. split; [apply steady_same|].
    change (fst (db_is_terminal rf ao s) = Returned true). rewrite Hb. by destruct b.
  - intros id [s x]. apply wp_lift.
    eapply wp_mono; [apply db_charge_budget_spec|..]; cbv beta; [|by intros _ s' ->; apply steady_same].
    intros b s' (Hs & a & c & Ha & _ & _ & Hb & _). split; [by apply cache_step_steady|]. simpl.
    unfold db_charged. destruct Hs as [_ []]. by rewrite sl_attempts0, Ha.
  - intros id sid rf n [s x]. apply wp_lift.
    eapply wp_mono; [apply db_reserve_transfer_spec|..]; cbv beta; [|by intros _ s' ->; apply steady_same].
    intros v s' (Hn & a & c & Ha & Hr & Hc & [(Hs & _ & Hv & _)|[[] Hv]]).
    + destruct (cache_step_steady id _ _ x Hs) as (Hb & Hch & Hk). split_and!; [done|done| |].
      * rewrite Hch. lia.
      * rewrite Hch, Hv. simpl. unfold db_charged. by rewrite Ha.
    + split_and!; simpl.
      * by eapply boundary_attempt; [exact Ha|eassumption|..].
      * by apply terminal_kept_files.
      * unfold db_charged. rewrite rs_attempts0, lookup_insert_eq, Ha. simpl. lia.
      * unfold db_charged. rewrite rs_attempts0, lookup_insert_eq. by rewrite Hv.
  - intros id sid rf n [s x]. apply wp_lift.
    eapply wp_mono; [apply db_settle_transfer_spec|..]; cbv beta;
      [|by intros _ s' ->; apply steady_no_dearer, steady_same].
    intros v s' (a & c & Ha & Hr & Hc & [(Hs & Hv & _)|(res & transfer & archive & [] & Hv)]).
    + pose proof (cache_step_steady id _ _ x Hs) as Hst. split; [by apply steady_no_dearer|].
      destruct Hst as (_ & -> & _). rewrite Hv. simpl. unfold db_charged. by rewrite Ha.
    + split; [split_and!|]; simpl.
      * by eapply boundary_attempt; [exact Ha|eassumption|..].
      * unfold db_charged. rewrite st_attempts0, lookup_insert_eq, Ha. simpl. lia.
      * by apply terminal_kept_files.
      * unfold db_charged. rewrite st_attempts0, lookup_insert_eq. by rewrite Hv.
Qed.
End repository.
