(* ===== verification/CollectionLedger.v ===== *)
(** The ledger of the collection tables, over every sequence of requests: attempts are
    charged exactly what their rows say, and a checkpoint has one running attempt. *)
From S2P Require Import Prelude Errors Effects Enums PyNumbers Models AppModels Ports Database SourceFiles CollectionPorts CollectionStore CollectionStoreFacts.

(** What the charge rows of an attempt sum up to. *)
Definition transfer_part (id : uuid) (k : uuid * uuid) (t : TransferCharge) : Z :=
  if bool_decide (k.1 = id) then tc_content_length t else 0.
Definition archive_part (id : uuid) (sid : uuid) (a : ArchiveCharge) : Z :=
  if bool_decide (ac_attempt a = id) then ac_content_length a else 0.
Definition attempt_charge (id : uuid) (c : CollectionDb) : Z :=
  msum (transfer_part id) (transfers c) + msum (archive_part id) (archive_charges c).

Record ledger_wf (c : CollectionDb) : Prop := {
  lw_attempt_fresh : forall id a, attempts_table c !! id = Some a -> id < next_row c;
  lw_checkpoint_fresh : forall id k, checkpoints c !! id = Some k -> id < next_row c;
  lw_transfer : forall id sid t, transfers c !! (id, sid) = Some t ->
    is_Some (attempts_table c !! id) /\ 0 <= tc_content_length t;
  lw_archive : forall sid a, archive_charges c !! sid = Some a ->
    is_Some (attempts_table c !! ac_attempt a) /\ 0 <= ac_content_length a;
  lw_charged : forall id a, attempts_table c !! id = Some a ->
    at_charged_bytes a = attempt_charge id c;
  lw_running : forall i j a b, attempts_table c !! i = Some a -> attempts_table c !! j = Some b ->
    at_status a = running -> at_status b = running -> at_checkpoint a = at_checkpoint b -> i = j;
  lw_checkpoint : forall id a, attempts_table c !! id = Some a ->
    is_Some (checkpoints c !! at_checkpoint a)
}.

Lemma ledger_wf_cache c c' : same_ledger c c' -> ledger_wf c -> ledger_wf c'.
Proof.
  intros [] []. split; unfold attempt_charge;
    rewrite ?sl_attempts, ?sl_checkpoints, ?sl_transfers, ?sl_archives, ?sl_rows; done.
Qed.

(** An attempt row that keeps its identity, status or stops, and moves its charge with the
    rows. *)
Lemma ledger_wf_update c c' id a a' :
  ledger_wf c -> attempts_table c !! id = Some a ->
  attempts_table c' = <[ id := a' ]> (attempts_table c) ->
  (forall i, is_Some (checkpoints c !! i) -> is_Some (checkpoints c' !! i)) ->
  (forall i, is_Some (checkpoints c' !! i) -> is_Some (checkpoints c !! i)) ->
  next_row c' = next_row c ->
  at_checkpoint a' = at_checkpoint a -> (at_status a' = running -> at_status a = running) ->
  (forall i sid t, transfers c' !! (i, sid) = Some t ->
     is_Some (attempts_table c !! i) /\ 0 <= tc_content_length t) ->
  (forall sid t, archive_charges c' !! sid = Some t ->
     is_Some (attempts_table c !! ac_attempt t) /\ 0 <= ac_content_length t) ->
  at_charged_bytes a' - at_charged_bytes a = attempt_charge id c' - attempt_charge id c ->
  (forall i, i <> id -> attempt_charge i c' = attempt_charge i c) ->
  ledger_wf c'.
Proof.
  intros [] Ha Hat Hck Hck' Hrow Hcp Hst Htr Har Hd Hoth.
  assert (Hlook : forall i b, attempts_table c' !! i = Some b ->
    i = id /\ b = a' \/ i <> id /\ attempts_table c !! i = Some b).
  { intros i b. rewrite Hat. destruct (decide (i = id)) as [->|Hne].
    - rewrite lookup_insert_eq. intros [= ->]. by left.
    - rewrite lookup_insert_ne by done. by right. }
  assert (Hsome : forall i, is_Some (attempts_table c !! i) -> is_Some (attempts_table c' !! i)).
  { intros i [b Hb]. rewrite Hat. destruct (decide (i = id)) as [->|Hne].
    - rewrite lookup_insert_eq. by eexists.
    - rewrite lookup_insert_ne by done. by eexists. }
  split.
  - intros i b Hb. rewrite Hrow. destruct (Hlook _ _ Hb) as [[-> _]|[_ ?]]; eauto.
  - intros i k Hk. rewrite Hrow. destruct (Hck' i) as [k' Hk']; [by eexists|]. eauto.
  - intros i sid t Ht. destruct (Htr _ _ _ Ht). auto.
  - intros sid t Ht. destruct (Har _ _ Ht). auto.
  - intros i b Hb. destruct (Hlook _ _ Hb) as [[-> ->]|[Hne Hb']].
    + pose proof (lw_charged0 _ _ Ha). lia.
    + rewrite Hoth by done. auto.
  - intros i j b b' Hi Hj Hb Hb' Hcp'.
    destruct (Hlook _ _ Hi) as [[-> ->]|[Hi1 Hi2]], (Hlook _ _ Hj) as [[-> ->]|[Hj1 Hj2]]; eauto.
    + eapply lw_running0; eauto. congruence.
    + eapply lw_running0; eauto. congruence.
  - intros i b Hb. apply Hck. destruct (Hlook _ _ Hb) as [[-> ->]|[_ Hb']]; [|eauto].
    rewrite Hcp. eauto.
Qed.

Lemma checkpoint_update c id k k' i :
  checkpoints c !! id = Some k ->
  is_Some (<[ id := k' ]> (checkpoints c) !! i) <-> is_Some (checkpoints c !! i).
Proof.
  intros Hk. destruct (decide (id = i)) as [<-|Hne].
  - rewrite lookup_insert_eq, Hk. split; by eexists.
  - by rewrite lookup_insert_ne.
Qed.

(** Rows that do not touch the charges. *)
Lemma ledger_wf_move c c' id a a' :
  ledger_wf c -> attempts_table c !! id = Some a ->
  attempts_table c' = <[ id := a' ]> (attempts_table c) ->
  (forall i, is_Some (checkpoints c' !! i) <-> is_Some (checkpoints c !! i)) ->
  next_row c' = next_row c -> transfers c' = transfers c ->
  archive_charges c' = archive_charges c ->
  at_checkpoint a' = at_checkpoint a -> (at_status a' = running -> at_status a = running) ->
  at_charged_bytes a' = at_charged_bytes a -> ledger_wf c'.
Proof.
  intros Hwf Ha Hat Hck Hrow Htr Har Hcp Hst Hch.
  eapply (ledger_wf_update c c' id a a'); try done; try (by intros i; apply Hck).
  - rewrite Htr. apply Hwf.
  - rewrite Har. apply Hwf.
  - unfold attempt_charge. rewrite Htr, Har. lia.
  - intros i _. unfold attempt_charge. by rewrite Htr, Har.
Qed.

(** ** Charges *)

Lemma transfer_part_insert_fresh c k t i :
  transfers c !! k = None ->
  msum (transfer_part i) (<[ k := t ]> (transfers c)) =
    msum (transfer_part i) (transfers c) + transfer_part i k t.
Proof. intros Hk. rewrite msum_fresh by done. lia. Qed.

Lemma reserved_wf id sid r n a s s' :
  ledger_wf (col s) -> attempts_table (col s) !! id = Some a ->
  reserved id sid r n a s s' -> ledger_wf (col s').
Proof.
  intros Hwf Ha [].
  assert (Hch : forall i, attempt_charge i (col s') =
    attempt_charge i (col s) + transfer_part i (id, sid) (reservation r n (clock (files s)))).
  { intros i. unfold attempt_charge. rewrite rs_transfers, rs_archives.
    rewrite transfer_part_insert_fresh by done. lia. }
  eapply (ledger_wf_update _ _ id a); try exact rs_attempts; try done.
  - intros i. by rewrite rs_checkpoints.
  - intros i. by rewrite rs_checkpoints.
  - intros i sd t. rewrite rs_transfers. destruct (decide ((id, sid) = (i, sd))) as [[= <- <-]|Hne].
    + rewrite lookup_insert_eq. intros [= <-]. by rewrite Ha.
    + rewrite lookup_insert_ne by done. apply Hwf.
  - intros sd t. rewrite rs_archives. apply Hwf.
  - rewrite Hch. unfold transfer_part. simpl. rewrite bool_decide_eq_true_2 by done. lia.
  - intros i Hne. rewrite Hch. unfold transfer_part. simpl.
    rewrite bool_decide_eq_false_2 by congruence. lia.
Qed.

Lemma settled_wf id sid r res transfer archive a s s' :
  archives_ok s -> ledger_wf (col s) -> attempts_table (col s) !! id = Some a ->
  settled_by id sid r res transfer archive a s s' -> ledger_wf (col s').
Proof.
  intros Hok Hwf Ha []. destruct st_transfers as [attached Htr]. destruct st_nonneg as [Hn Hn'].
  specialize (Hn' Hok).
  assert (Harc : forall i, msum (archive_part i) (archive_charges (col s')) =
    msum (archive_part i) (archive_charges (col s)) +
      (if bool_decide (id = i) then default 0 archive else 0)).
  { intros i. destruct archive as [m|]; simpl.
    - destruct st_archives as [Hnone ->]. rewrite msum_fresh by done. unfold archive_part at 1. simpl. lia.
    - rewrite st_archives. case_bool_decide; lia. }
  assert (Htrs : forall i, msum (transfer_part i) (transfers (col s')) =
    msum (transfer_part i) (transfers (col s)) +
      (if bool_decide (id = i) then transfer - tc_content_length res else 0)).
  { intros i. rewrite Htr, (msum_update _ _ _ res) by done. unfold transfer_part at 2 3. simpl.
    case_bool_decide; lia. }
  assert (Hch : forall i, attempt_charge i (col s') = attempt_charge i (col s) +
    (if bool_decide (id = i) then transfer + default 0 archive - tc_content_length res else 0)).
  { intros i. unfold attempt_charge. rewrite Harc, Htrs. case_bool_decide; lia. }
  eapply (ledger_wf_update _ _ id a); try exact st_attempts; try done.
  - intros i. by rewrite st_checkpoints.
  - intros i. by rewrite st_checkpoints.
  - intros i sd t. rewrite Htr. destruct (decide ((id, sid) = (i, sd))) as [[= <- <-]|Hne].
    + rewrite lookup_insert_eq. intros [= <-]. by rewrite Ha.
    + rewrite lookup_insert_ne by done. apply Hwf.
  - intros sd t. destruct archive as [m|]; simpl in *; [|rewrite st_archives; apply Hwf].
    destruct st_archives as [_ ->]. destruct (decide (sid = sd)) as [<-|Hne].
    + rewrite lookup_insert_eq. intros [= <-]. simpl. by rewrite Ha.
    + rewrite lookup_insert_ne by done. apply Hwf.
  - rewrite Hch, bool_decide_eq_true_2 by done. simpl. lia.
  - intros i Hne. rewrite Hch, bool_decide_eq_false_2 by congruence. lia.
Qed.

(** ** Beginning an attempt *)

Section begin.
Variable portal_generation : list pystr -> pystr.

Lemma find_checkpoint_some scope c cid k :
  find_checkpoint portal_generation scope c = Some (cid, k) ->
  checkpoints c !! cid = Some k /\ same_scope portal_generation scope k = true.
Proof.
  intros [Hin Hs]%find_some. split; [|done]. by apply elem_of_map_to_list, list_elem_of_In.
Qed.

Lemma find_checkpoint_none scope c cid k :
  find_checkpoint portal_generation scope c = None -> checkpoints c !! cid = Some k ->
  same_scope portal_generation scope k = false.
Proof.
  intros Hn Hk. apply elem_of_map_to_list, list_elem_of_In in Hk. exact (List.find_none _ _ Hn _ Hk).
Qed.

Lemma same_scope_new scope : same_scope portal_generation scope (new_checkpoint portal_generation scope) = true.
Proof. unfold same_scope. by rewrite bool_decide_eq_true_2. Qed.

(** Where a new attempt starts: the checkpoint of its scope, created or rolled to the next
    generation when the last traversal was complete. *)
Definition resumed (scope : CollectionScope) (c : CollectionDb) (cid : uuid) (k : CheckpointRow)
    (rolled : bool) : Prop :=
  match find_checkpoint portal_generation scope c with
  | Some (i, k0) => cid = i /\ rolled = cp_complete k0 /\ k = if rolled then next_generation k0 else k0
  | None => cid = next_row c /\ k = new_checkpoint portal_generation scope /\ rolled = false
  end.

Record begun (scope : CollectionScope) (r : CollectionAttempt) (s s' : CState)
    (cid : uuid) (k : CheckpointRow) (rolled : bool) : Prop := {
  bg_resumed : resumed scope (col s) cid k rolled;
  bg_portals : cp_portal_ids k = sc_portal_ids scope;
  bg_files : files s' = files s;
  bg_checkpoints : checkpoints (col s') = <[ cid := k ]> (checkpoints (col s));
  bg_attempt_fresh : next_row (col s) <= ca_attempt_id r < next_row (col s') /\
    cid < next_row (col s');
  bg_attempts : attempts_table (col s') =
    <[ ca_attempt_id r := new_attempt cid (clock (files s)) k ]>
      (fail_running cid (clock (files s)) <$> attempts_table (col s));
  bg_transfers : transfers (col s') = transfers (col s);
  bg_archives : archive_charges (col s') = archive_charges (col s);
  bg_identities : identities (col s') = identities (col s);
  bg_buckets : buckets (col s') = buckets (col s);
  bg_result : ca_checkpoint_id r = cid /\ ca_generation r = cp_generation k /\
    ca_cursor r = cp_cursor k /\ ca_page_offset r = cp_offset k /\
    ca_recognized_count r = cp_recognized k /\ ca_unknown_count r = cp_unknown k;
  bg_retry : ca_retry_boundary r =
    negb rolled && stopped_at_boundary (latest_attempt cid (cp_generation k) (col s)) k
}.

Lemma begin_attempt_spec scope s :
  (forall id k, checkpoints (col s) !! id = Some k -> id < next_row (col s)) ->
  wp (db_begin_attempt portal_generation scope)
    (fun r s' => exists cid k rolled, begun scope r s s' cid k rolled) (fun _ s' => s' = s) s.
Proof.
  intros Hfresh. unfold db_begin_attempt, begin_attempt_body. do 3 wp_step. cbv beta.
  wp_step. wp_step; [done|]. wp_step. wp_step; [done|]. reflect_bools. wp_step.
  set (s1 := if find_checkpoint portal_generation scope (col s) is Some _ then s else
    set_col (fun c => set_checkpoints
      <[ next_row (col s) := new_checkpoint portal_generation scope ]> (bump_row c)) s).
  apply (wp_mono _ (fun _ s' => s' = s1) _ (fun _ _ => False)); [|intros _ s' ->|done].
  { subst s1. destruct (find_checkpoint portal_generation scope (col s)); [by wp_step|].
    unfold fresh_row, write. by repeat wp_step. }
  do 2 wp_step. cbv beta.
  assert (Hs1 : files s1 = files s /\ attempts_table (col s1) = attempts_table (col s) /\
    transfers (col s1) = transfers (col s) /\ archive_charges (col s1) = archive_charges (col s) /\
    identities (col s1) = identities (col s) /\ buckets (col s1) = buckets (col s) /\
    next_row (col s) <= next_row (col s1)).
  { subst s1. destruct (find_checkpoint portal_generation scope (col s)); split_and!; try done; simpl; lia. }
  destruct (find_checkpoint portal_generation scope (col s1)) as [[cid k0]|] eqn:Hfind; [|by wp_step].
  destruct (find_checkpoint_some _ _ _ _ Hfind) as [Hk0 Hsame].
  wp_step. wp_step; [done|]. reflect_bools. cbv zeta.
  set (k := if cp_complete k0 then next_generation k0 else k0). unfold write, clock_timestamp, fresh_row.
  wp_step. apply (wp_mono _ (fun _ s' => exists f, s' = set_col (set_checkpoints f) s1 /\
      f (checkpoints (col s1)) = <[ cid := k ]> (checkpoints (col s1))) _ (fun _ _ => False));
    [| |done].
  { wp_step; [wp_step; by eexists|]. exists id. split; [by destruct s1 as [? []]|].
    subst k. rewrite H2. symmetry. by apply insert_id. }
  intros _ s2 (f & -> & Hf). repeat wp_step. simpl.
  destruct Hs1 as (E1 & E2 & E3 & E4 & E5 & E6 & E7).
  exists cid, k, (cp_complete k0).
  assert (Hckp : <[ cid := k ]> (checkpoints (col s1)) = <[ cid := k ]> (checkpoints (col s)) /\
    resumed scope (col s) cid k (cp_complete k0) /\ cid < next_row (col s1)).
  { unfold resumed. subst s1. destruct (find_checkpoint portal_generation scope (col s))
      as [[i k1]|] eqn:Hf0; simpl in *.
    - simplify_eq. destruct (find_checkpoint_some _ _ _ _ Hf0) as [Hk1 _]. split_and!; eauto.
    - rewrite lookup_insert_Some in Hk0. destruct Hk0 as [[<- <-]|[Hne Hk0]].
      + rewrite insert_insert_eq. split_and!; try done; simpl; lia.
      + pose proof (find_checkpoint_none _ _ _ _ Hf0 Hk0). congruence. }
  destruct Hckp as (Hckp & Hres & Hlt).
  split; simpl; rewrite ?E1, ?E2, ?E3, ?E4, ?E5, ?E6; try done.
  - subst k. by destruct (cp_complete k0).
  - by rewrite Hf.
  - lia.
  - unfold latest_attempt. by rewrite E2.
Qed.

Lemma begun_wf scope r s s' cid k rolled :
  begun scope r s s' cid k rolled -> ledger_wf (col s) -> ledger_wf (col s').
Proof.
  intros [] [].
  assert (Hnone : attempts_table (col s) !! ca_attempt_id r = None).
  { destruct (attempts_table (col s) !! ca_attempt_id r) eqn:E; [|done].
    pose proof (lw_attempt_fresh0 _ _ E). lia. }
  assert (Hlook : forall i b, attempts_table (col s') !! i = Some b ->
    i = ca_attempt_id r /\ b = new_attempt cid (clock (files s)) k \/
    exists b0, attempts_table (col s) !! i = Some b0 /\ b = fail_running cid (clock (files s)) b0).
  { intros i b. rewrite bg_attempts0, lookup_insert_Some, lookup_fmap, fmap_Some.
    intros [[<- <-]|[_ (b0 & ? & ->)]]; eauto. }
  assert (Hsome : forall i, is_Some (attempts_table (col s) !! i) ->
    is_Some (attempts_table (col s') !! i)).
  { intros i [b Hb]. rewrite bg_attempts0. destruct (decide (i = ca_attempt_id r)) as [->|Hne].
    - rewrite lookup_insert_eq. by eexists.
    - rewrite lookup_insert_ne, lookup_fmap, Hb by done. by eexists. }
  assert (Hfail : forall b, at_checkpoint (fail_running cid (clock (files s)) b) = at_checkpoint b /\
    at_charged_bytes (fail_running cid (clock (files s)) b) = at_charged_bytes b /\
    (at_status (fail_running cid (clock (files s)) b) = running ->
       at_status b = running /\ at_checkpoint b <> cid)).
  { intros b. unfold fail_running. case_bool_decide as Hb; [done|]. split_and!; [done|done|].
    intros Hr. split; [done|]. intros Hc. by apply Hb. }
  assert (Hch : forall i, attempt_charge i (col s') = attempt_charge i (col s)).
  { intros i. unfold attempt_charge. by rewrite bg_transfers0, bg_archives0. }
  split.
  - intros i b Hb. destruct (Hlook _ _ Hb) as [[-> _]|(b0 & Hb0 & _)]; [lia|].
    pose proof (lw_attempt_fresh0 _ _ Hb0). lia.
  - intros i c. rewrite bg_checkpoints0, lookup_insert_Some. intros [[<- _]|[_ Hc]]; [lia|].
    pose proof (lw_checkpoint_fresh0 _ _ Hc). lia.
  - intros i sid t. rewrite bg_transfers0. intros Ht. destruct (lw_transfer0 _ _ _ Ht). auto.
  - intros sid t. rewrite bg_archives0. intros Ht. destruct (lw_archive0 _ _ Ht). auto.
  - intros i b Hb. rewrite Hch. destruct (Hlook _ _ Hb) as [[-> ->]|(b0 & Hb0 & ->)].
    + simpl. unfold attempt_charge. symmetry. rewrite !msum_zero; [done| |].
      * intros sid t Ht. unfold archive_part. case_bool_decide as He; [|done].
        destruct (lw_archive0 _ _ Ht) as [[x Hx] _]. rewrite He in Hx. congruence.
      * intros [i sid] t Ht. unfold transfer_part. case_bool_decide as He; [|done]. simpl in He. subst i.
        destruct (lw_transfer0 _ _ _ Ht) as [[x Hx] _]. congruence.
    + destruct (Hfail b0) as (_ & -> & _). auto.
  - intros i j a b Ha Hb Hra Hrb Hcp.
    destruct (Hlook _ _ Ha) as [[-> ->]|(a0 & Ha0 & ->)], (Hlook _ _ Hb) as [[-> ->]|(b0 & Hb0 & ->)]; [done|..].
    + destruct (Hfail b0) as (Hc & _ & Hr). destruct (Hr Hrb) as [_ Hne]. rewrite Hc in Hcp. by destruct Hne.
    + destruct (Hfail a0) as (Hc & _ & Hr). destruct (Hr Hra) as [_ Hne]. rewrite Hc in Hcp. by destruct Hne.
    + destruct (Hfail a0) as (Hc & _ & Hr), (Hfail b0) as (Hc' & _ & Hr').
      rewrite Hc, Hc' in Hcp. eapply lw_running0; eauto; [by apply Hr|by apply Hr'].
  - intros i b Hb. rewrite bg_checkpoints0. destruct (Hlook _ _ Hb) as [[-> ->]|(b0 & Hb0 & ->)].
    + simpl. rewrite lookup_insert_eq. by eexists.
    + destruct (Hfail b0) as (-> & _). destruct (lw_checkpoint0 _ _ Hb0) as [c Hc].
      destruct (decide (cid = at_checkpoint b0)) as [<-|Hne].
      * rewrite lookup_insert_eq. by eexists.
      * rewrite lookup_insert_ne, Hc by done. by eexists.
Qed.
End begin.

(** ** Every sequence of requests *)

Inductive collection_request :=
  | CBegin (scope : CollectionScope)
  | CAdvance (id : uuid) (c : option pystr) (o : Z) (c' : option pystr) (o' : Z) (p : Progress)
  | CFinish (id : uuid) (st : attempt_status) (tr co : bool) (r : option truncation_reason)
      (code : option string)
  | CObserve (id : uuid) (n : Z)
  | CBudget (id : uuid)
  | CReserve (id sid : uuid) (rf : RemoteFile) (n : Z)
  | CSettle (id sid : uuid) (rf : RemoteFile) (n : Z).

Section steps.
Variable portal_generation : list pystr -> pystr.

Definition serve_collection (q : collection_request) : M CState unit :=
  match q with
  | CBegin scope => db_begin_attempt portal_generation scope;; mret tt
  | CAdvance id c o c' o' p => db_advance_attempt id c o c' o' p;; mret tt
  | CFinish id st tr co r code => db_finish_attempt id st tr co r code
  | CObserve id n => db_observe_attempt id n
  | CBudget id => db_charge_budget id;; mret tt
  | CReserve id sid rf n => db_reserve_transfer id sid rf n;; mret tt
  | CSettle id sid rf n => db_settle_transfer id sid rf n;; mret tt
  end.

(** A request of some worker, or the rest of the system moving its tables and the clock. *)
Inductive collection_step : CState -> CState -> Prop :=
  | cstep_request q s : collection_step s (serve_collection q s).2
  | cstep_files s d : clock (files s) <= clock d -> archives_ok {| files := d; col := col s |} ->
      collection_step s {| files := d; col := col s |}.

Definition empty_collection (known : gset pystr) (first_row : uuid) : CollectionDb :=
  {| retailers := known; checkpoints := ∅; attempts_table := ∅; transfers := ∅;
     archive_charges := ∅; identities := ∅; buckets := ∅; budgets := ∅; next_row := first_row |}.

Definition collection_reachable (s : CState) : Prop :=
  exists known first_row d, archives_ok {| files := d; col := empty_collection known first_row |} /\
    rtc collection_step {| files := d; col := empty_collection known first_row |} s.

(** What one request does to the tables. *)
Inductive collection_effect (s s' : CState) : Prop :=
  | eff_none : s' = s -> collection_effect s s'
  | eff_cache a c id : attempts_table (col s) !! id = Some a ->
      checkpoints (col s) !! at_checkpoint a = Some c -> cache_step s s' ->
      buckets (col s') = prune (cp_retailer c) (clock (files s)) (buckets (col s)) ->
      collection_effect s s'
  | eff_begun scope r cid k rolled : begun portal_generation scope r s s' cid k rolled ->
      collection_effect s s'
  | eff_moved id a a' : attempts_table (col s) !! id = Some a -> files s' = files s ->
      attempts_table (col s') = <[ id := a' ]> (attempts_table (col s)) ->
      at_checkpoint a' = at_checkpoint a -> (at_status a' = running -> at_status a = running) ->
      at_charged_bytes a' = at_charged_bytes a ->
      (forall i k', checkpoints (col s') !! i = Some k' ->
         exists k, checkpoints (col s) !! i = Some k /\ cp_retailer k' = cp_retailer k) ->
      (forall i, is_Some (checkpoints (col s) !! i) -> is_Some (checkpoints (col s') !! i)) ->
      next_row (col s') = next_row (col s) -> transfers (col s') = transfers (col s) ->
      archive_charges (col s') = archive_charges (col s) -> buckets (col s') = buckets (col s) ->
      collection_effect s s'
  | eff_reserved id sid n a c : attempts_table (col s) !! id = Some a ->
      checkpoints (col s) !! at_checkpoint a = Some c ->
      reserved id sid (cp_retailer c) n a s s' -> collection_effect s s'
  | eff_settled id sid res transfer archive a c : attempts_table (col s) !! id = Some a ->
      checkpoints (col s) !! at_checkpoint a = Some c ->
      settled_by id sid (cp_retailer c) res transfer archive a s s' -> collection_effect s s'.

Lemma insert_retailer (m : gmap uuid CheckpointRow) id k k' :
  m !! id = Some k -> cp_retailer k' = cp_retailer k ->
  (forall i j, <[ id := k' ]> m !! i = Some j -> exists l, m !! i = Some l /\ cp_retailer j = cp_retailer l) /\
  (forall i, is_Some (m !! i) -> is_Some (<[ id := k' ]> m !! i)).
Proof.
  intros Hk Hr. split.
  - intros i j [[<- <-]|[_ Hj]]%lookup_insert_Some; eauto.
  - intros i Hi. destruct (decide (id = i)) as [<-|Hne].
    + rewrite lookup_insert_eq. by eexists.
    + by rewrite lookup_insert_ne.
Qed.

Lemma serve_collection_effect q s :
  ledger_wf (col s) ->
  wp (serve_collection q) (fun _ s' => collection_effect s s') (fun _ s' => collection_effect s s') s.
Proof.
  intros Hwf.
  assert (Hnone : forall (e : exn) s', s' = s -> collection_effect s s') by (intros _ s' ->; by apply eff_none).
  destruct q as [scope|id c o c' o' p|id st tr co r code|id n|id|id sid rf n|id sid rf n];
    cbn [serve_collection]; try wp_step.
  - eapply wp_mono; [apply begin_attempt_spec, Hwf| |auto]; cbv beta.
    intros r s' (cid & k & rolled & Hb). wp_step. by eapply eff_begun.
  - eapply wp_mono; [apply db_advance_attempt_spec| |auto]; cbv beta.
    intros r s' (a & k & Ha & Hr & Hk & _ & _ & _ & _ & _ & _ & _ & ->). wp_step.
    destruct (insert_retailer _ _ _ (move_checkpoint c' o' p k) Hk eq_refl).
    by eapply (eff_moved _ _ id a).
  - eapply wp_mono; [apply db_finish_attempt_spec| |auto]; cbv beta.
    intros r' s' (a & k & da & Ha & Hr & Hst & Hk & ->).
    destruct (insert_retailer _ _ _ (complete_checkpoint co da k) Hk eq_refl).
    by eapply (eff_moved _ _ id a).
  - eapply wp_mono; [apply db_observe_attempt_spec| |auto]; cbv beta.
    intros r' s' (a & Ha & Hr & ->). eapply (eff_moved _ _ id a); try done. simpl. eauto.
  - eapply wp_mono; [apply db_charge_budget_spec| |auto]; cbv beta.
    intros b s' (Hs & a & c & Ha & _ & Hc & _ & Hb & _). wp_step. by eapply (eff_cache _ _ a c id).
  - eapply wp_mono; [apply db_reserve_transfer_spec| |auto]; cbv beta.
    intros v s' (_ & a & c & Ha & _ & Hc & [(Hs & _ & _ & Hb)|[Hr _]]); wp_step.
    + by eapply (eff_cache _ _ a c id).
    + by eapply eff_reserved.
  - eapply wp_mono; [apply db_settle_transfer_spec| |auto]; cbv beta.
    intros v s' (a & c & Ha & _ & Hc & [(Hs & _ & Hb)|(res & tr & ar & Hst & _)]); wp_step.
    + by eapply (eff_cache _ _ a c id).
    + by eapply eff_settled.
Qed.

Lemma effect_wf s s' :
  archives_ok s -> ledger_wf (col s) -> collection_effect s s' -> ledger_wf (col s').
Proof.
  intros Hok Hwf [|a c id Ha Hc [_ Hs] Hb|scope r cid k rolled Hb|id a a' Ha Hf Hat Hcp Hst Hch Hck Hck' Hrow Htr Har _
    |id sid n a c Ha Hc Hr|id sid res tr ar a c Ha Hc Hst]; subst; try done.
  - by eapply ledger_wf_cache.
  - by eapply begun_wf.
  - eapply (ledger_wf_move _ _ id a a'); try done. intros i. split; [|apply Hck'].
    intros [k Hk]. destruct (Hck _ _ Hk) as (k0 & ? & _). by eexists.
  - by eapply reserved_wf.
  - by eapply settled_wf.
Qed.

Lemma effect_files s s' : collection_effect s s' -> files s' = files s.
Proof.
  intros [|a c id Ha Hc [? ?] Hb|scope r cid k rolled []|id a a' Ha Hf|id sid n a c Ha Hc []
    |id sid res tr ar a c Ha Hc []]; by subst.
Qed.

Lemma empty_collection_wf known first_row : ledger_wf (empty_collection known first_row).
Proof. by split; simpl; intros *; rewrite lookup_empty. Qed.

Lemma collection_step_effect s s' : ledger_wf (col s) -> collection_step s s' ->
  collection_effect s s' \/ col s' = col s /\ clock (files s) <= clock (files s') /\ archives_ok s'.
Proof.
  intros Hwf Hstep. revert Hwf. destruct Hstep as [q s0|s0 d Hc Hok]; intros Hwf; [left|by right].
  pose proof (serve_collection_effect q s0 Hwf) as Hwp. unfold wp in Hwp.
  by destruct (serve_collection q s0) as [[?|?] ?].
Qed.

Lemma archives_ok_files s s' : files s' = files s -> archives_ok s -> archives_ok s'.
Proof. unfold archives_ok. by intros ->. Qed.

Lemma collection_reachable_wf s : collection_reachable s -> archives_ok s /\ ledger_wf (col s).
Proof.
  intros (known & first & d & Hok & Hsteps).
  revert Hsteps. apply (rtc_ind_r (fun s => archives_ok s /\ ledger_wf (col s))).
  - split; [done|apply empty_collection_wf].
  - intros s1 s2 _ Hstep [Hok1 Hwf1].
    destruct (collection_step_effect _ _ Hwf1 Hstep) as [He|(Hcol & _ & Hok2)].
    + split; [eapply archives_ok_files, Hok1; by apply effect_files|by eapply effect_wf].
    + by rewrite Hcol.
Qed.
End steps.

(** ** Consequences shared by the properties *)

Lemma attempt_charge_nonneg id c : ledger_wf c -> 0 <= attempt_charge id c.
Proof.
  intros []. unfold attempt_charge.
  assert (0 <= msum (transfer_part id) (transfers c)); [|assert (0 <= msum (archive_part id) (archive_charges c)); [|lia]].
  - apply msum_nonneg. intros [i sid] t Ht. unfold transfer_part. case_match; [|done]. by eapply lw_transfer0.
  - apply msum_nonneg. intros sid a Ha. unfold archive_part. case_match; [|done]. by eapply lw_archive0.
Qed.

Lemma reachable_request portal_generation s q s' :
  collection_reachable portal_generation s -> (serve_collection portal_generation q s).2 = s' ->
  collection_reachable portal_generation s'.
Proof.
  intros (known & first & d & Hok & Hs) <-. exists known, first, d. split; [done|].
  eapply rtc_r; [exact Hs|apply cstep_request].
Qed.

Lemma advance_from id c o c' o' p s r s' :
  db_advance_attempt id c o c' o' p s = (Returned r, s') -> db_boundary id s = Some (c, o).
Proof.
  intros Hrun. destruct (wp_returned _ _ _ _ _ _ (db_advance_attempt_spec id c o c' o' p s) Hrun)
    as (a & k & Ha & Hr & Hk & _ & _ & Hc & Ho & _).
  unfold db_boundary. rewrite Ha. simpl. rewrite bool_decide_eq_true_2, Hk by done. simpl.
  by rewrite Hc, Ho.
Qed.

Lemma stale_advance id c o c' o' p s : db_boundary id s <> Some (c, o) ->
  exists e, db_advance_attempt id c o c' o' p s = (Raised e, s).
Proof.
  intros Hne. destruct (db_advance_attempt id c o c' o' p s) as [[r|e] s'] eqn:E.
  - by apply advance_from in E.
  - exists e. f_equal. exact (wp_raised _ _ _ _ _ _ (db_advance_attempt_spec id c o c' o' p s) E).
Qed.
