(* ===== verification/CollectionWindow.v ===== *)
(** The rolling budget: the buckets always sum up to exactly the charges of the window. *)
From S2P Require Import Prelude Errors Effects Enums PyNumbers Models AppModels Ports Database SourceFiles CollectionPorts CollectionStore CollectionStoreFacts CollectionLedger.

(** The bytes charged to [r] in the buckets that satisfy [P]. *)
Definition transfer_in (r : pystr) (P : Z -> bool) (k : uuid * uuid) (t : TransferCharge) : Z :=
  if bool_decide (tc_retailer t = r) && P (budget_bucket_start (tc_charged_at t))
  then tc_content_length t else 0.
Definition archive_in (r : pystr) (P : Z -> bool) (k : uuid) (a : ArchiveCharge) : Z :=
  if bool_decide (ac_retailer a = r) && P (budget_bucket_start (ac_charged_at a))
  then ac_content_length a else 0.
Definition charged_in (r : pystr) (P : Z -> bool) (c : CollectionDb) : Z :=
  msum (transfer_in r P) (transfers c) + msum (archive_in r P) (archive_charges c).

(** ** Buckets that are exact for a ledger function *)

Section exact.
Variable theta : Z.
Implicit Types (g : pystr -> Z -> Z) (m : gmap (pystr * Z) Bucket).

Definition full g m : Prop :=
  (forall r t b, m !! (r, t) = Some b -> bk_charged_bytes b = g r t) /\
  (forall r t, m !! (r, t) = None -> theta <= t -> g r t = 0).

(** Inside a transaction on [r0], its expired buckets may be off. *)
Definition near (r0 : pystr) g m : Prop :=
  (forall r t b, m !! (r, t) = Some b -> r <> r0 \/ theta <= t -> bk_charged_bytes b = g r t) /\
  (forall r t, m !! (r, t) = None -> theta <= t -> g r t = 0).

Lemma full_near r0 g m : full g m -> near r0 g m.
Proof. intros [H1 H2]. split; eauto. Qed.

Lemma full_ext g g' m : (forall r t, g r t = g' r t) -> full g m -> full g' m.
Proof. intros E [H1 H2]. split; intros *; rewrite <- E; eauto. Qed.

Definition add_at (r0 : pystr) (t0 n : Z) g : pystr -> Z -> Z :=
  fun r t => g r t + if bool_decide (r = r0 /\ t = t0) then n else 0.

Lemma adjusted_near r0 t delta g m :
  0 <= bk_identities delta -> 0 <= bk_attempts delta -> 0 <= bk_successes delta ->
  0 <= g r0 (budget_bucket_start t) + bk_charged_bytes delta ->
  near r0 g m ->
  near r0 (add_at r0 (budget_bucket_start t) (bk_charged_bytes delta) g) (adjusted r0 t delta m).
Proof.
  intros H1 H2 H3 Hg [He Hm]. unfold adjusted, add_at. set (t0 := budget_bucket_start t) in *.
  assert (Hother : forall r t', (r, t') <> (r0, t0) -> bool_decide (r = r0 /\ t' = t0) = false).
  { intros r t' Hne. apply bool_decide_eq_false_2. intros [-> ->]. by apply Hne. }
  destruct (m !! (r0, t0)) as [b|] eqn:Hb.
  - split; intros r t'; destruct (decide ((r, t') = (r0, t0))) as [[= -> ->]|Hne];
      rewrite ?lookup_insert_eq, ?lookup_insert_ne by congruence.
    + intros b' [= <-] Hor. rewrite bool_decide_eq_true_2 by done. simpl. by rewrite (He _ _ _ Hb).
    + rewrite Hother, Z.add_0_r by done. apply He.
    + done.
    + rewrite Hother, Z.add_0_r by done. apply Hm.
  - destruct (bucket_nonnegative delta) eqn:Hn.
    + split; intros r t'; destruct (decide ((r, t') = (r0, t0))) as [[= -> ->]|Hne];
        rewrite ?lookup_insert_eq, ?lookup_insert_ne by congruence.
      * intros b' [= <-] [?|Hor]; [done|]. rewrite bool_decide_eq_true_2 by done. by rewrite (Hm _ _ Hb).
      * rewrite Hother, Z.add_0_r by done. apply He.
      * done.
      * rewrite Hother, Z.add_0_r by done. apply Hm.
    + assert (Hlt : t0 < theta).
      { destruct (Z.ltb_spec t0 theta) as [|Hge]; [done|]. rewrite (Hm _ _ Hb Hge) in Hg.
        unfold bucket_nonnegative in Hn. apply not_true_iff_false in Hn. destruct Hn.
        rewrite !andb_true_iff, !Z.leb_le. lia. }
      split; intros r t'; destruct (decide ((r, t') = (r0, t0))) as [[= -> ->]|Hne].
      * congruence.
      * rewrite Hother, Z.add_0_r by done. apply He.
      * lia.
      * rewrite Hother, Z.add_0_r by done. apply Hm.
Qed.
End exact.

Lemma prune_full r0 now g m :
  let theta := window_start now - BUDGET_BUCKET_WIDTH in
  near theta r0 g m -> full theta g (prune r0 now m).
Proof.
  intros theta [He Hm]. unfold prune. split; intros r t.
  - intros b [Hb Hk]%map_lookup_filter_Some. simpl in Hk. apply (He _ _ _ Hb).
    destruct (decide (r = r0)) as [->|]; [right|by left].
    destruct (Z.le_gt_cases theta t) as [|Hlt]; [done|]. by destruct Hk.
  - intros Hn Ht. destruct (m !! (r, t)) as [b|] eqn:Hb; [|by apply Hm].
    apply map_lookup_filter_None in Hn as [?|Hn]; [congruence|].
    destruct (Hn b Hb). simpl. intros [_ ?]. subst theta. lia.
Qed.

(** ** The invariant *)

Definition ledger_of (c : CollectionDb) (r : pystr) (t : Z) : Z := charged_in r (Z.eqb t) c.
Definition expiry (s : CState) : Z := window_start (clock (files s)) - BUDGET_BUCKET_WIDTH.

Record window_wf (s : CState) : Prop := {
  ww_full : full (expiry s) (ledger_of (col s)) (buckets (col s));
  ww_transfer : forall k t, transfers (col s) !! k = Some t -> tc_charged_at t <= clock (files s);
  ww_archive : forall k a, archive_charges (col s) !! k = Some a ->
    ac_charged_at a <= clock (files s);
  ww_retailer : forall id sid t a k, transfers (col s) !! (id, sid) = Some t ->
    attempts_table (col s) !! id = Some a -> checkpoints (col s) !! at_checkpoint a = Some k ->
    tc_retailer t = cp_retailer k
}.

Lemma budget_bucket_start_mono t t' : t <= t' -> budget_bucket_start t <= budget_bucket_start t'.
Proof.
  intros Hle. unfold budget_bucket_start.
  assert (Hp : 0 < BUDGET_BUCKET_WIDTH) by done.
  pose proof (Z.div_mod t BUDGET_BUCKET_WIDTH). pose proof (Z.div_mod t' BUDGET_BUCKET_WIDTH).
  pose proof (Z.div_le_mono t t' BUDGET_BUCKET_WIDTH Hp Hle). nia.
Qed.

Lemma ledger_of_nonneg c r t : ledger_wf c -> 0 <= ledger_of c r t.
Proof.
  intros []. unfold ledger_of, charged_in.
  assert (0 <= msum (transfer_in r (Z.eqb t)) (transfers c)); [|assert (0 <= msum (archive_in r (Z.eqb t)) (archive_charges c)); [|lia]].
  - apply msum_nonneg. intros [id sid] x Hx. unfold transfer_in. case_match; [|done]. by eapply lw_transfer.
  - apply msum_nonneg. intros sid x Hx. unfold archive_in. case_match; [|done]. by eapply lw_archive.
Qed.

Lemma ledger_of_same c c' : transfers c' = transfers c -> archive_charges c' = archive_charges c ->
  forall r t, ledger_of c r t = ledger_of c' r t.
Proof. intros H1 H2 r t. unfold ledger_of, charged_in. by rewrite H1, H2. Qed.

Lemma in_bucket (r r' : pystr) (t b n : Z) :
  (if bool_decide (r = r') && (t =? b) then n else 0) =
  (if bool_decide (r' = r /\ t = b) then n else 0).
Proof. destruct (Z.eqb_spec t b); repeat case_bool_decide; simpl; naive_solver. Qed.

Lemma reserved_ledger id sid r n a s s' : reserved id sid r n a s s' -> forall r' t,
  add_at r (budget_bucket_start (clock (files s))) n (ledger_of (col s)) r' t =
  ledger_of (col s') r' t.
Proof.
  intros [] r' t. unfold ledger_of, charged_in, add_at.
  rewrite rs_transfers, rs_archives, msum_fresh by done. unfold transfer_in at 2. simpl.
  rewrite in_bucket. lia.
Qed.

(** A settlement releases the reservation from its bucket, then charges what was used. *)
Definition released (res : TransferCharge) (r : pystr) (c : CollectionDb) : pystr -> Z -> Z :=
  add_at r (budget_bucket_start (tc_charged_at res)) (- tc_content_length res) (ledger_of c).

Lemma released_nonneg id sid r res c t :
  ledger_wf c -> transfers c !! (id, sid) = Some res -> tc_retailer res = r ->
  0 <= released res r c r t.
Proof.
  intros Hwf Hres Hr. unfold released, add_at.
  case_bool_decide as Hb; [|pose proof (ledger_of_nonneg c r t Hwf); lia]. destruct Hb as [_ ->].
  unfold ledger_of, charged_in. rewrite (msum_delete _ _ _ _ Hres).
  unfold transfer_in at 1. rewrite bool_decide_eq_true_2, Z.eqb_refl by done. simpl.
  destruct Hwf.
  match goal with |- 0 <= _ + ?x + ?y + _ => assert (0 <= x); [|assert (0 <= y); [|lia]] end.
  - apply msum_nonneg. intros [i sd] x [_ Hx]%lookup_delete_Some. unfold transfer_in.
    case_match; [|done]. by eapply lw_transfer.
  - apply msum_nonneg. intros sd x Hx. unfold archive_in. case_match; [|done]. by eapply lw_archive.
Qed.

Lemma settled_ledger id sid r res transfer archive a s s' :
  settled_by id sid r res transfer archive a s s' -> tc_retailer res = r -> forall r' t,
  add_at r (budget_bucket_start (clock (files s))) (transfer + default 0 archive)
    (released res r (col s)) r' t = ledger_of (col s') r' t.
Proof.
  intros [] Hr r' t. destruct st_transfers as [attached Htr].
  unfold released, ledger_of, charged_in, add_at. rewrite Htr, (msum_update _ _ _ _ _ st_reserved).
  assert (Ha : msum (archive_in r' (Z.eqb t)) (archive_charges (col s')) =
    msum (archive_in r' (Z.eqb t)) (archive_charges (col s)) +
    if bool_decide (r' = r /\ t = budget_bucket_start (clock (files s))) then default 0 archive else 0).
  { destruct archive as [m|]; simpl.
    - destruct st_archives as [Hnone ->]. rewrite msum_fresh by done. unfold archive_in at 1. simpl.
      rewrite in_bucket. lia.
    - rewrite st_archives. case_bool_decide; lia. }
  rewrite Ha. unfold transfer_in at 3 4. simpl. rewrite Hr, !in_bucket.
  repeat case_bool_decide; lia.
Qed.

Section steps.
Variable portal_generation : list pystr -> pystr.

Lemma reserved_window id sid r n a s s' :
  full (expiry s) (ledger_of (col s)) (buckets (col s)) -> ledger_wf (col s) ->
  reserved id sid r n a s s' ->
  full (expiry s) (ledger_of (col s')) (buckets (col s')).
Proof.
  intros Hf Hwf Hr. pose proof (reserved_ledger _ _ _ _ _ _ _ Hr) as Hl. destruct Hr.
  destruct rs_buckets as [observed ->].
  eapply full_ext; [exact Hl|]. apply (prune_full r (clock (files s))).
  apply (adjusted_near _ r (clock (files s)) {| bk_charged_bytes := n;
    bk_identities := Z.b2z observed; bk_attempts := 1; bk_successes := 0 |}); simpl;
    [destruct observed; simpl; lia|lia|lia| |].
  - pose proof (ledger_of_nonneg (col s) r (budget_bucket_start (clock (files s))) Hwf). lia.
  - apply full_near. by apply (prune_full r (clock (files s))), full_near.
Qed.

Lemma settled_window id sid r res transfer archive a s s' :
  full (expiry s) (ledger_of (col s)) (buckets (col s)) -> ledger_wf (col s) -> archives_ok s ->
  tc_retailer res = r -> settled_by id sid r res transfer archive a s s' ->
  full (expiry s) (ledger_of (col s')) (buckets (col s')).
Proof.
  intros Hf Hwf Hok Hret Hr. pose proof (settled_ledger _ _ _ _ _ _ _ _ _ Hr Hret) as Hl.
  pose proof (fun t => released_nonneg id sid r res (col s) t Hwf (st_reserved _ _ _ _ _ _ _ _ _ Hr) Hret)
    as Hnn. destruct Hr. destruct st_buckets as [first ->].
  destruct st_nonneg as [Hn1 Hn2]. specialize (Hn2 Hok).
  eapply full_ext; [exact Hl|]. apply (prune_full r (clock (files s))).
  apply (adjusted_near _ r (clock (files s)) {| bk_charged_bytes := transfer + default 0 archive;
    bk_identities := 0; bk_attempts := 0; bk_successes := Z.b2z first |}); simpl;
    [lia|lia|destruct first; simpl; lia| |].
  - pose proof (Hnn (budget_bucket_start (clock (files s)))). lia.
  - apply (adjusted_near _ r (tc_charged_at res) {| bk_charged_bytes := - tc_content_length res;
      bk_identities := 0; bk_attempts := 0; bk_successes := 0 |}); simpl; try lia.
    + pose proof (Hnn (budget_bucket_start (tc_charged_at res))) as Hx. unfold released, add_at in Hx.
      rewrite bool_decide_eq_true_2 in Hx by done. lia.
    + apply full_near. by apply (prune_full r (clock (files s))), full_near.
Qed.

(** A checkpoint that already exists keeps its retailer when an attempt begins. *)
Lemma begun_retailer scope r s s' cid k rolled k0 :
  begun portal_generation scope r s s' cid k rolled -> ledger_wf (col s) ->
  checkpoints (col s) !! cid = Some k0 -> cp_retailer k = cp_retailer k0.
Proof.
  intros [] Hwf Hk0. unfold resumed in bg_resumed.
  destruct (find_checkpoint portal_generation scope (col s)) as [[i k1]|] eqn:Hf.
  - destruct bg_resumed as (-> & -> & ->). destruct (find_checkpoint_some _ _ _ _ _ Hf) as [Hk1 _].
    simplify_eq. by destruct (cp_complete k0).
  - destruct bg_resumed as (-> & _). pose proof (lw_checkpoint_fresh _ Hwf _ _ Hk0). lia.
Qed.

Lemma window_effect s s' : archives_ok s -> ledger_wf (col s) -> window_wf s ->
  collection_effect portal_generation s s' -> window_wf s'.
Proof.
  intros Hok Hwf [Hfull Ht Ha Hr] He. pose proof (effect_files _ _ _ He) as Hfiles.
  assert (Hexp : expiry s' = expiry s) by (unfold expiry; by rewrite Hfiles).
  assert (Hret : forall id sid t a k, attempts_table (col s) !! id = Some a ->
    checkpoints (col s) !! at_checkpoint a = Some k ->
    transfers (col s) !! (id, sid) = Some t -> tc_retailer t = cp_retailer k) by (intros; eapply Hr; eauto).
  destruct He as [|a c id Hai Hci [_ []] Hb|scope r cid k rolled Hb|id a a' Hai Hf Hat Hcp Hst Hch Hck Hck' Hrow Htr Har Hbk
    |id sid n a c Hai Hci Hres|id sid res tr ar a c Hai Hci Hst]; [by subst|..].
  - split; rewrite ?Hexp, ?Hfiles, ?sl_transfers, ?sl_archives, ?sl_attempts, ?sl_checkpoints; try done.
    rewrite Hb. eapply full_ext; [by apply ledger_of_same|].
    by apply (prune_full (cp_retailer c) (clock (files s))), full_near.
  - pose proof (fun k0 => begun_retailer scope r s s' cid k rolled k0 Hb Hwf) as Hbr. destruct Hb.
    split; rewrite ?Hexp, ?Hfiles, ?bg_transfers, ?bg_archives; try done.
    + rewrite bg_buckets. eapply full_ext; [by apply ledger_of_same|done].
    + intros id sid t a k' Htr. rewrite bg_attempts, bg_checkpoints.
      rewrite lookup_insert_Some, lookup_fmap, fmap_Some. intros [[<- <-]|[_ (a0 & Ha0 & ->)]].
      * destruct (lw_transfer _ Hwf _ _ _ Htr) as [[x Hx] _].
        pose proof (lw_attempt_fresh _ Hwf _ _ Hx). lia.
      * assert (at_checkpoint (fail_running cid (clock (files s)) a0) = at_checkpoint a0) as ->.
        { unfold fail_running. by case_bool_decide. }
        destruct (lw_checkpoint _ Hwf _ _ Ha0) as [k0 Hk0].
        rewrite lookup_insert_Some. intros [[He <-]|[_ Hk']]; [|by eapply Hret].
        rewrite <- He in Hk0. rewrite (Hbr _ Hk0). rewrite He in Hk0. by eapply Hret.
  - split; rewrite ?Hexp, ?Hfiles, ?Htr, ?Har; try done.
    + rewrite Hbk. eapply full_ext; [by apply ledger_of_same|done].
    + intros i sid t b k' Hti. rewrite Hat, lookup_insert_Some.
      intros [[<- <-]|[_ Hb]] Hk'; destruct (Hck _ _ Hk') as (k0 & Hk0 & ->);
        [rewrite Hcp in Hk0|]; by eapply Hret.
  - pose proof (reserved_window _ _ _ _ _ _ _ Hfull Hwf Hres). destruct Hres.
    split; rewrite ?Hexp, ?Hfiles, ?rs_transfers, ?rs_archives, ?rs_attempts, ?rs_checkpoints; try done.
    + intros k t [[<- <-]|[_ Hk]]%lookup_insert_Some; [done|eauto].
    + intros i sd t b k Hti Hb Hk.
      apply lookup_insert_Some in Hb as [[<- <-]|[Hne Hb]].
      * simpl in Hk. apply lookup_insert_Some in Hti as [[[= ->] <-]|[_ Hti]]; [|by eapply Hret].
        simpl. congruence.
      * rewrite lookup_insert_ne in Hti by congruence. by eapply Hret.
  - assert (Hrr : tc_retailer res = cp_retailer c) by (eapply Hret; eauto; by destruct Hst).
    pose proof (settled_window _ _ _ _ _ _ _ _ _ Hfull Hwf Hok Hrr Hst). destruct Hst.
    destruct st_transfers as [attached Htr].
    split; rewrite ?Hexp, ?Hfiles, ?Htr, ?st_attempts, ?st_checkpoints; try done.
    + intros k t [[<- <-]|[_ Hk]]%lookup_insert_Some; [done|eauto].
    + destruct ar as [m|]; simpl in st_archives; [|rewrite st_archives; eauto].
      destruct st_archives as [_ ->]. intros k t [[<- <-]|[_ Hk]]%lookup_insert_Some; [done|eauto].
    + intros i sd t b k Hti Hb Hk.
      apply lookup_insert_Some in Hb as [[<- <-]|[Hne Hb]].
      * simpl in Hk. apply lookup_insert_Some in Hti as [[[= ->] <-]|[_ Hti]]; [|by eapply Hret].
        simpl. congruence.
      * rewrite lookup_insert_ne in Hti by congruence. by eapply Hret.
Qed.

Lemma window_tick s s' : col s' = col s -> clock (files s) <= clock (files s') ->
  window_wf s -> window_wf s'.
Proof.
  intros Hc Hle [[He Hm] Ht Ha Hr].
  assert (expiry s <= expiry s').
  { unfold expiry, window_start. pose proof (budget_bucket_start_mono _ _ Hle). lia. }
  split; rewrite ?Hc; try done.
  - split; [done|]. intros r t Hn Hx. apply Hm; [done|lia].
  - intros k t Hk. pose proof (Ht _ _ Hk). lia.
  - intros k t Hk. pose proof (Ha _ _ Hk). lia.
Qed.

Lemma collection_reachable_window s : collection_reachable portal_generation s ->
  archives_ok s /\ ledger_wf (col s) /\ window_wf s.
Proof.
  intros (known & first & d & Hok & Hsteps). revert Hsteps.
  apply (rtc_ind_r (fun s => archives_ok s /\ ledger_wf (col s) /\ window_wf s)).
  - split_and!; [done|apply empty_collection_wf|]. by split.
  - intros s1 s2 _ Hstep (Hok1 & Hwf1 & Hw1).
    destruct (collection_step_effect _ _ _ Hwf1 Hstep) as [He|(Hcol & Hc & Hok2)].
    + split_and!; [eapply archives_ok_files, Hok1; by eapply effect_files|by eapply effect_wf|by eapply window_effect].
    + split_and!; [done|by rewrite Hcol|by eapply window_tick].
Qed.
End steps.

(** ** The sum over the window *)

Lemma foldr_bytes l : bk_charged_bytes (foldr add_bucket empty_bucket l) = zsum (map bk_charged_bytes l).
Proof. induction l as [|b l IH]; [done|]. simpl. by rewrite IH. Qed.

Definition bucket_in (r : pystr) (P : Z -> bool) (k : pystr * Z) (b : Bucket) : Z :=
  if bool_decide (k.1 = r) && P k.2 then bk_charged_bytes b else 0.

Lemma window_sum_msum r now m :
  bk_charged_bytes (window_sum r now m) =
  msum (bucket_in r (fun t => between (window_start now) t (budget_bucket_start now))) m.
Proof.
  unfold window_sum. rewrite foldr_bytes. unfold buckets_between, msum. rewrite map_fold_foldr.
  generalize (map_to_list m). intros l. induction l as [|[k b] l IH]; [done|]. simpl.
  rewrite <- IH. unfold bucket_in, between. simpl.
  destruct (bool_decide (k.1 = r)); simpl; [|lia].
  destruct (window_start now <=? k.2); simpl; [|lia]. by destruct (k.2 <=? budget_bucket_start now).
Qed.

(** Rows summed bucket by bucket are the rows of the window, when every bucket that could
    hold one is there. *)
Lemma rows_by_bucket {K B} `{Countable K} (rows : gmap K B) (retailer : B -> pystr)
    (at_ bytes : B -> Z) (r : pystr) (lo hi : Z) (m : gmap (pystr * Z) Bucket) :
  let f (P : Z -> bool) (k : K) (b : B) := if bool_decide (retailer b = r) && P (budget_bucket_start (at_ b)) then bytes b else 0 in
  (forall k b, rows !! k = Some b -> budget_bucket_start (at_ b) <= hi) ->
  (forall k b, rows !! k = Some b -> retailer b = r -> lo <= budget_bucket_start (at_ b) ->
     m !! (r, budget_bucket_start (at_ b)) = None -> bytes b = 0) ->
  msum (fun (k : pystr * Z) (_ : Bucket) => if bool_decide (k.1 = r) && between lo k.2 hi
                   then msum (f (Z.eqb k.2)) rows else 0) m =
  msum (f (Z.leb lo)) rows.
Proof.
  intros f Hhi Hmiss.
  trans (msum (fun (k : pystr * Z) (_ : Bucket) => msum (fun j b =>
    if bool_decide (k.1 = r) && between lo k.2 hi then f (Z.eqb k.2) j b else 0) rows) m).
  { apply msum_ext. intros k b _. destruct (bool_decide (k.1 = r) && between lo k.2 hi); [done|].
    symmetry. by apply msum_zero. }
  rewrite msum_exchange. apply msum_ext. intros j b Hb. subst f. cbv beta.
  rewrite (msum_point _ _ (r, budget_bucket_start (at_ b))).
  2: { intros [r' t'] a Hne. simpl. destruct (bool_decide (r' = r)) eqn:E1; [|done].
       destruct (Z.eqb_spec t' (budget_bucket_start (at_ b))); [|rewrite andb_false_r; by case_match].
       reflect_bools. congruence. }
  simpl. rewrite bool_decide_eq_true_2, Z.eqb_refl by done. unfold between.
  pose proof (Hhi _ _ Hb). pose proof (Hmiss _ _ Hb).
  destruct (m !! (r, budget_bucket_start (at_ b))) eqn:Hm; simpl.
  - destruct (Z.leb_spec lo (budget_bucket_start (at_ b))), (Z.leb_spec (budget_bucket_start (at_ b)) hi);
      simpl; rewrite ?andb_true_r, ?andb_false_r; try done; lia.
  - case_bool_decide; simpl; [|done]. destruct (Z.leb_spec lo (budget_bucket_start (at_ b))); [|done].
    symmetry. auto.
Qed.

Lemma window_exact s r :
  ledger_wf (col s) -> window_wf s ->
  bk_charged_bytes (window_sum r (clock (files s)) (buckets (col s))) =
  charged_in r (Z.leb (window_start (clock (files s)))) (col s).
Proof.
  intros Hwf [[He Hm] Ht Ha _]. rewrite window_sum_msum. set (now := clock (files s)) in *.
  assert (Hexp : expiry s <= window_start now) by (unfold expiry; fold now; unfold BUDGET_BUCKET_WIDTH; lia).
  trans (msum (fun k (_ : Bucket) =>
    (if bool_decide (k.1 = r) && between (window_start now) k.2 (budget_bucket_start now)
     then msum (transfer_in r (Z.eqb k.2)) (transfers (col s)) else 0) +
    (if bool_decide (k.1 = r) && between (window_start now) k.2 (budget_bucket_start now)
     then msum (archive_in r (Z.eqb k.2)) (archive_charges (col s)) else 0)) (buckets (col s))).
  { apply msum_ext. intros [r' t] b Hb. unfold bucket_in. simpl.
    case_bool_decide as Hr; simpl; [subst r'|done].
    destruct (between (window_start now) t (budget_bucket_start now)); [|done].
    by rewrite (He _ _ _ Hb). }
  rewrite msum_plus. unfold charged_in.
  assert (Hzero : forall t, buckets (col s) !! (r, t) = None -> window_start now <= t ->
    msum (transfer_in r (Z.eqb t)) (transfers (col s)) = 0 /\
    msum (archive_in r (Z.eqb t)) (archive_charges (col s)) = 0).
  { intros t Hn Hw. pose proof (Hm _ _ Hn ltac:(lia)) as Hz. unfold ledger_of, charged_in in Hz.
    assert (0 <= msum (transfer_in r (Z.eqb t)) (transfers (col s))).
    { apply msum_nonneg. intros [i sd] x Hx. unfold transfer_in. case_match; [|done].
      by eapply lw_transfer. }
    assert (0 <= msum (archive_in r (Z.eqb t)) (archive_charges (col s))); [|lia].
    apply msum_nonneg. intros sd x Hx. unfold archive_in. case_match; [|done]. by eapply lw_archive. }
  f_equal.
  - apply (rows_by_bucket (transfers (col s)) tc_retailer tc_charged_at tc_content_length).
    + intros k b Hb. apply budget_bucket_start_mono. eauto.
    + intros [i sd] b Hb Hr Hlo Hn. destruct (Hzero _ Hn Hlo) as [Hz _].
      assert (Hp : transfer_in r (Z.eqb (budget_bucket_start (tc_charged_at b))) (i, sd) b = 0).
      { eapply msum_zero_inv; [|exact Hz|exact Hb]. intros [i' sd'] x Hx. unfold transfer_in.
        case_match; [|done]. by eapply lw_transfer. }
      unfold transfer_in in Hp. by rewrite bool_decide_eq_true_2, Z.eqb_refl in Hp.
  - apply (rows_by_bucket (archive_charges (col s)) ac_retailer ac_charged_at ac_content_length).
    + intros k b Hb. apply budget_bucket_start_mono. eauto.
    + intros sd b Hb Hr Hlo Hn. destruct (Hzero _ Hn Hlo) as [_ Hz].
      assert (Hp : archive_in r (Z.eqb (budget_bucket_start (ac_charged_at b))) sd b = 0).
      { eapply msum_zero_inv; [|exact Hz|exact Hb]. intros sd' x Hx. unfold archive_in.
        case_match; [|done]. by eapply lw_archive. }
      unfold archive_in in Hp. by rewrite bool_decide_eq_true_2, Z.eqb_refl in Hp.
Qed.
