(* ===== verification/CollectionMemory.v ===== *)
(** [_MemoryCollectionRepository] of [src/src/makolet/application/collection.py], the
    process-local repository, as a second implementation of the traversal's store. *)
From S2P Require Import Prelude Errors Effects Enums PyNumbers Models AppModels Ports CollectionPorts CollectionService CollectionFacts CollectionContracts.

(** ** State *)

(** [_MemoryCheckpoint]. *)
Record MemoryCheckpoint := {
  mc_checkpoint_id : uuid;
  mc_generation : Z;
  mc_cursor : option pystr;
  mc_page_offset : Z;
  mc_recognized_count : Z;
  mc_unknown_count : Z;
  mc_complete : bool;
  mc_retry_boundary : bool
}.

Definition memory_identity (rf : RemoteFile) : pystr * pystr * pystr :=
  (rf_retailer_id rf, rf_portal_id rf, rf_remote_id rf).

(** The attributes; [mem_next] is where [uuid4] takes the next identifier from. *)
Record MemoryRepository := {
  mem_checkpoints : list (CollectionScope * MemoryCheckpoint);
  mem_attempts : gmap uuid CollectionAttempt;
  mem_running : gset uuid;
  mem_terminal : gset (pystr * pystr * pystr * bool);
  mem_attempt_sources : gmap uuid pystr;
  mem_attempt_charged : gmap uuid Z;
  mem_source_charged : gmap pystr Z;
  mem_charged_sources : gset (pystr * pystr * pystr);
  mem_charged_transfers : gmap (uuid * uuid) (Z * bool);
  mem_identity_files : gmap pystr (gset uuid);
  mem_attempt_counts : gmap pystr Z;
  mem_success_counts : gmap pystr Z;
  mem_next : uuid
}.

(** [__init__]. *)
Definition empty_memory : MemoryRepository := {|
  mem_checkpoints := []; mem_attempts := ∅; mem_running := ∅; mem_terminal := ∅;
  mem_attempt_sources := ∅; mem_attempt_charged := ∅; mem_source_charged := ∅;
  mem_charged_sources := ∅; mem_charged_transfers := ∅; mem_identity_files := ∅;
  mem_attempt_counts := ∅; mem_success_counts := ∅; mem_next := 1 |}.

Definition set_mem_checkpoints f (m : MemoryRepository) := {|
  mem_checkpoints := f (mem_checkpoints m); mem_attempts := mem_attempts m;
  mem_running := mem_running m; mem_terminal := mem_terminal m;
  mem_attempt_sources := mem_attempt_sources m; mem_attempt_charged := mem_attempt_charged m;
  mem_source_charged := mem_source_charged m; mem_charged_sources := mem_charged_sources m;
  mem_charged_transfers := mem_charged_transfers m; mem_identity_files := mem_identity_files m;
  mem_attempt_counts := mem_attempt_counts m; mem_success_counts := mem_success_counts m;
  mem_next := mem_next m |}.
Definition set_mem_attempts f (m : MemoryRepository) := {|
  mem_checkpoints := mem_checkpoints m; mem_attempts := f (mem_attempts m);
  mem_running := mem_running m; mem_terminal := mem_terminal m;
  mem_attempt_sources := mem_attempt_sources m; mem_attempt_charged := mem_attempt_charged m;
  mem_source_charged := mem_source_charged m; mem_charged_sources := mem_charged_sources m;
  mem_charged_transfers := mem_charged_transfers m; mem_identity_files := mem_identity_files m;
  mem_attempt_counts := mem_attempt_counts m; mem_success_counts := mem_success_counts m;
  mem_next := mem_next m |}.
Definition set_mem_running f (m : MemoryRepository) := {|
  mem_checkpoints := mem_checkpoints m; mem_attempts := mem_attempts m;
  mem_running := f (mem_running m); mem_terminal := mem_terminal m;
  mem_attempt_sources := mem_attempt_sources m; mem_attempt_charged := mem_attempt_charged m;
  mem_source_charged := mem_source_charged m; mem_charged_sources := mem_charged_sources m;
  mem_charged_transfers := mem_charged_transfers m; mem_identity_files := mem_identity_files m;
  mem_attempt_counts := mem_attempt_counts m; mem_success_counts := mem_success_counts m;
  mem_next := mem_next m |}.
Definition add_mem_terminal k (m : MemoryRepository) := {|
  mem_checkpoints := mem_checkpoints m; mem_attempts := mem_attempts m;
  mem_running := mem_running m; mem_terminal := {[ k ]} ∪ mem_terminal m;
  mem_attempt_sources := mem_attempt_sources m; mem_attempt_charged := mem_attempt_charged m;
  mem_source_charged := mem_source_charged m; mem_charged_sources := mem_charged_sources m;
  mem_charged_transfers := mem_charged_transfers m; mem_identity_files := mem_identity_files m;
  mem_attempt_counts := mem_attempt_counts m; mem_success_counts := mem_success_counts m;
  mem_next := mem_next m |}.
(** The attempt opened for [source_id]. *)
Definition add_mem_attempt (source_id : pystr) (a : CollectionAttempt) (m : MemoryRepository) := {|
  mem_checkpoints := mem_checkpoints m; mem_attempts := <[ ca_attempt_id a := a ]> (mem_attempts m);
  mem_running := {[ ca_attempt_id a ]} ∪ mem_running m; mem_terminal := mem_terminal m;
  mem_attempt_sources := <[ ca_attempt_id a := source_id ]> (mem_attempt_sources m);
  mem_attempt_charged := <[ ca_attempt_id a := 0 ]> (mem_attempt_charged m);
  mem_source_charged := mem_source_charged m; mem_charged_sources := mem_charged_sources m;
  mem_charged_transfers := mem_charged_transfers m; mem_identity_files := mem_identity_files m;
  mem_attempt_counts := mem_attempt_counts m; mem_success_counts := mem_success_counts m;
  mem_next := mem_next m |}.
Definition bump_mem (m : MemoryRepository) := {|
  mem_checkpoints := mem_checkpoints m; mem_attempts := mem_attempts m;
  mem_running := mem_running m; mem_terminal := mem_terminal m;
  mem_attempt_sources := mem_attempt_sources m; mem_attempt_charged := mem_attempt_charged m;
  mem_source_charged := mem_source_charged m; mem_charged_sources := mem_charged_sources m;
  mem_charged_transfers := mem_charged_transfers m; mem_identity_files := mem_identity_files m;
  mem_attempt_counts := mem_attempt_counts m; mem_success_counts := mem_success_counts m;
  mem_next := mem_next m + 1 |}.

(** [d[key] = d.get(key, 0) + n]. *)
Definition bump_count `{Countable K} (k : K) (n : Z) (m : gmap K Z) : gmap K Z :=
  <[ k := default 0 (m !! k) + n ]> m.

(** The reservation's writes. *)
Definition reserve_mem (source_id : pystr) (id sid : uuid) (n : Z) (m : MemoryRepository) := {|
  mem_checkpoints := mem_checkpoints m; mem_attempts := mem_attempts m;
  mem_running := mem_running m; mem_terminal := mem_terminal m;
  mem_attempt_sources := mem_attempt_sources m;
  mem_attempt_charged := bump_count id n (mem_attempt_charged m);
  mem_source_charged := bump_count source_id n (mem_source_charged m);
  mem_charged_sources := mem_charged_sources m;
  mem_charged_transfers := <[ (id, sid) := (n, false) ]> (mem_charged_transfers m);
  mem_identity_files := <[ source_id := {[ sid ]} ∪ default ∅ (mem_identity_files m !! source_id) ]>
                          (mem_identity_files m);
  mem_attempt_counts := bump_count source_id 1 (mem_attempt_counts m);
  mem_success_counts := mem_success_counts m; mem_next := mem_next m |}.
(** The settlement's writes: [transfer] stays charged, [delta] moves the totals. *)
Definition settle_mem (source_id : pystr) (id sid : uuid) (rf : RemoteFile) (first : bool)
    (transfer delta : Z) (m : MemoryRepository) := {|
  mem_checkpoints := mem_checkpoints m; mem_attempts := mem_attempts m;
  mem_running := mem_running m; mem_terminal := mem_terminal m;
  mem_attempt_sources := mem_attempt_sources m;
  mem_attempt_charged := bump_count id delta (mem_attempt_charged m);
  mem_source_charged := bump_count source_id delta (mem_source_charged m);
  mem_charged_sources := if first then {[ memory_identity rf ]} ∪ mem_charged_sources m
                         else mem_charged_sources m;
  mem_charged_transfers := <[ (id, sid) := (transfer, true) ]> (mem_charged_transfers m);
  mem_identity_files := mem_identity_files m; mem_attempt_counts := mem_attempt_counts m;
  mem_success_counts := if first then bump_count source_id 1 (mem_success_counts m)
                        else mem_success_counts m;
  mem_next := mem_next m |}.

(** ** Operations *)

Definition uuid4 : M MemoryRepository uuid :=
  m ← get_state; modify bump_mem;; mret (mem_next m).
Definition run_error : exn := PyExn RuntimeError.

Definition memory_checkpoint (id : uuid) : MemoryCheckpoint := {|
  mc_checkpoint_id := id; mc_generation := 1; mc_cursor := None; mc_page_offset := 0;
  mc_recognized_count := 0; mc_unknown_count := 0; mc_complete := false;
  mc_retry_boundary := false |}.
Definition roll_memory (k : MemoryCheckpoint) : MemoryCheckpoint := {|
  mc_checkpoint_id := mc_checkpoint_id k; mc_generation := mc_generation k + 1;
  mc_cursor := None; mc_page_offset := 0; mc_recognized_count := 0; mc_unknown_count := 0;
  mc_complete := false; mc_retry_boundary := false |}.
Definition move_memory (cursor : option pystr) (offset : Z) (p : Progress) (k : MemoryCheckpoint)
    : MemoryCheckpoint := {|
  mc_checkpoint_id := mc_checkpoint_id k; mc_generation := mc_generation k;
  mc_cursor := cursor; mc_page_offset := offset;
  mc_recognized_count := mc_recognized_count k + recognized_delta p;
  mc_unknown_count := mc_unknown_count k + unknown_delta p;
  mc_complete := mc_complete k; mc_retry_boundary := false |}.
Definition finish_memory (status : attempt_status) (complete : bool) (k : MemoryCheckpoint)
    : MemoryCheckpoint := {|
  mc_checkpoint_id := mc_checkpoint_id k; mc_generation := mc_generation k;
  mc_cursor := mc_cursor k; mc_page_offset := mc_page_offset k;
  mc_recognized_count := mc_recognized_count k; mc_unknown_count := mc_unknown_count k;
  mc_complete := complete;
  mc_retry_boundary := bool_decide (status = failed) && negb complete |}.

(** [next(value for value in self._checkpoints.values() if ...)], and a write through the
    reference it returns. *)
Definition checkpoint_by_id (id : uuid) (l : list (CollectionScope * MemoryCheckpoint))
    : option MemoryCheckpoint :=
  snd <$> find (fun p => mc_checkpoint_id p.2 =? id) l.
Fixpoint alter_checkpoint (id : uuid) (f : MemoryCheckpoint -> MemoryCheckpoint)
    (l : list (CollectionScope * MemoryCheckpoint)) : list (CollectionScope * MemoryCheckpoint) :=
  match l with
  | [] => []
  | (s, k) :: l => if mc_checkpoint_id k =? id then (s, f k) :: l
                   else (s, k) :: alter_checkpoint id f l
  end.
(** [self._checkpoints[scope]], and the same write by key. *)
Definition checkpoint_by_scope (scope : CollectionScope)
    (l : list (CollectionScope * MemoryCheckpoint)) : option MemoryCheckpoint :=
  snd <$> find (fun p => bool_decide (p.1 = scope)) l.

(** [begin_attempt]. *)
Definition mem_begin_attempt (scope : CollectionScope) : M MemoryRepository CollectionAttempt :=
  fresh ← uuid4;
  m ← get_state;
  k ← match checkpoint_by_scope scope (mem_checkpoints m) with
      | Some k => mret k
      | None =>
          modify (set_mem_checkpoints (fun l => l ++ [(scope, memory_checkpoint fresh)]));;
          mret (memory_checkpoint fresh)
      end;
  let k' := if mc_complete k then roll_memory k else k in
  modify (set_mem_checkpoints (alter_checkpoint (mc_checkpoint_id k) (fun _ => k')));;
  id ← uuid4;
  let attempt := {| ca_attempt_id := id; ca_checkpoint_id := mc_checkpoint_id k';
    ca_generation := mc_generation k'; ca_cursor := mc_cursor k';
    ca_page_offset := mc_page_offset k'; ca_recognized_count := mc_recognized_count k';
    ca_unknown_count := mc_unknown_count k'; ca_retry_boundary := mc_retry_boundary k' |} in
  modify (add_mem_attempt (sc_source_id scope) attempt);;
  mret attempt.

(** [self._attempts[attempt_id]], and its checkpoint. *)
Definition attempt_checkpoint (id : uuid) (m : MemoryRepository)
    : option (CollectionAttempt * MemoryCheckpoint) :=
  a ← mem_attempts m !! id;
  k ← checkpoint_by_id (ca_checkpoint_id a) (mem_checkpoints m);
  Some (a, k).

(** [advance_attempt]. *)
Definition mem_advance_attempt (id : uuid) (expected : option pystr) (expected_offset : Z)
    (cursor : option pystr) (offset : Z) (p : Progress) : M MemoryRepository CollectionAttempt :=
  m ← get_state;
  raise_if (negb (bool_decide (id ∈ mem_running m))) run_error;;
  match attempt_checkpoint id m with
  | None => raise (PyExn OtherException)
  | Some (a, k) =>
      raise_if (negb (bool_decide (mc_cursor k = expected /\ mc_page_offset k = expected_offset)))
        run_error;;
      modify (set_mem_checkpoints (alter_checkpoint (mc_checkpoint_id k) (move_memory cursor offset p)));;
      let updated := {| ca_attempt_id := ca_attempt_id a; ca_checkpoint_id := ca_checkpoint_id a;
        ca_generation := ca_generation a; ca_cursor := cursor; ca_page_offset := offset;
        ca_recognized_count := mc_recognized_count k + recognized_delta p;
        ca_unknown_count := mc_unknown_count k + unknown_delta p;
        ca_retry_boundary := ca_retry_boundary a |} in
      modify (set_mem_attempts <[ id := updated ]>);;
      mret updated
  end.

(** [finish_attempt]. *)
Definition mem_finish_attempt (id : uuid) (status : attempt_status) (complete : bool)
    : M MemoryRepository unit :=
  modify (set_mem_running (fun r => r ∖ {[ id ]}));;
  m ← get_state;
  match attempt_checkpoint id m with
  | None => raise (PyExn OtherException)
  | Some (a, k) =>
      modify (set_mem_checkpoints (alter_checkpoint (mc_checkpoint_id k) (finish_memory status complete)))
  end.

(** [observe_attempt]. *)
Definition mem_observe_attempt (id : uuid) (n : Z) : M MemoryRepository unit :=
  m ← get_state;
  raise_if ((n <? 0) || negb (bool_decide (id ∈ mem_running m))) run_error.

(** [is_terminal] and [note_terminal]. *)
Definition terminal_in (rf : RemoteFile) (archive_only : bool) (m : MemoryRepository) : bool :=
  bool_decide ((memory_identity rf, false) ∈ mem_terminal m)
  || (archive_only && bool_decide ((memory_identity rf, true) ∈ mem_terminal m)).
Definition mem_is_terminal (rf : RemoteFile) (archive_only : bool) : M MemoryRepository bool :=
  gets (terminal_in rf archive_only).
Definition mem_note_terminal (rf : RemoteFile) (archive_only : bool) : M MemoryRepository unit :=
  modify (add_mem_terminal (memory_identity rf, archive_only)).

(** [charge_budget]. *)
Definition mem_charge_budget (id : uuid) : M MemoryRepository CollectionChargeBudget :=
  m ← get_state;
  raise_if (negb (bool_decide (id ∈ mem_running m))) run_error;;
  match mem_attempt_sources m !! id, mem_attempt_charged m !! id with
  | Some source_id, Some charged =>
      new_charge_budget
        {| run_charged_bytes := charged;
           day_charged_bytes := default 0 (mem_source_charged m !! source_id);
           day_source_identities :=
             Z.of_nat (size (default (∅ : gset uuid) (mem_identity_files m !! source_id)));
           day_transfer_attempts := default 0 (mem_attempt_counts m !! source_id);
           day_successes := default 0 (mem_success_counts m !! source_id) |}
  | _, _ => raise (PyExn KeyError)
  end.

(** [reserve_transfer]. *)
Definition mem_reserve_transfer (id sid : uuid) (rf : RemoteFile) (n : Z)
    : M MemoryRepository CollectionChargeBudget :=
  budget ← mem_charge_budget id;
  raise_if (n <? 0) (PyExn ValueError);;
  m ← get_state;
  match mem_charged_transfers m !! (id, sid), mem_attempt_sources m !! id with
  | Some _, _ => mret budget
  | None, Some source_id => modify (reserve_mem source_id id sid n);; mem_charge_budget id
  | None, None => raise (PyExn KeyError)
  end.

(** How a settlement splits the moved bytes: what stays as transfer, and the charge of the
    archive when this is the first for the file. *)
Definition archive_attached (rf : RemoteFile) (n : Z) (m : MemoryRepository) : bool :=
  bool_decide ((memory_identity rf, false) ∈ mem_terminal m)
  || bool_decide ((memory_identity rf, true) ∈ mem_terminal m)
  || match rf_content_length rf with Some length => length <=? n | None => false end.
Definition archive_bytes (rf : RemoteFile) (n : Z) : Z :=
  match rf_content_length rf with
  | Some length => if length =? 0 then n else length
  | None => n
  end.

(** [settle_transfer]. *)
Definition mem_settle_transfer (id sid : uuid) (rf : RemoteFile) (n : Z)
    : M MemoryRepository CollectionChargeBudget :=
  budget ← mem_charge_budget id;
  raise_if (n <? 0) (PyExn ValueError);;
  m ← get_state;
  match mem_charged_transfers m !! (id, sid), mem_attempt_sources m !! id with
  | Some (_, true), _ => mret budget
  | Some (reserved, false), Some source_id =>
      let attached := archive_attached rf n m in
      let archive := if attached then archive_bytes rf n else 0 in
      let first := attached && negb (bool_decide (memory_identity rf ∈ mem_charged_sources m)) in
      let transfer := if attached then Z.max 0 (n - archive) else n in
      let exact := transfer + (if first then archive else 0) in
      raise_if (reserved <? exact) run_error;;
      modify (settle_mem source_id id sid rf first transfer (exact - reserved));;
      mem_charge_budget id
  | _, _ => raise (PyExn KeyError)
  end.

(** ** The repository keeps the traversal's contract *)

Lemma alter_checkpoint_id id f l :
  (forall k, mc_checkpoint_id (f k) = mc_checkpoint_id k) ->
  checkpoint_by_id id (alter_checkpoint id f l) = f <$> checkpoint_by_id id l.
Proof.
  intros Hf. unfold checkpoint_by_id. induction l as [|[s k] l IH]; [done|]. simpl.
  destruct (mc_checkpoint_id k =? id) eqn:E; simpl.
  - by rewrite Hf, E.
  - by rewrite E.
Qed.

Lemma checkpoint_by_id_id id l k : checkpoint_by_id id l = Some k -> mc_checkpoint_id k = id.
Proof.
  unfold checkpoint_by_id. intros ([s k'] & Hfind & [= ->])%fmap_Some.
  apply find_some in Hfind as [_ E]. simpl in E. by apply Z.eqb_eq in E.
Qed.

Definition mem_boundary (id : uuid) (m : MemoryRepository) : option (option pystr * Z) :=
  if bool_decide (id ∈ mem_running m)
  then '(a, k) ← attempt_checkpoint id m;
       if ca_attempt_id a =? id then Some (mc_cursor k, mc_page_offset k) else None
  else None.
Definition mem_charged (id : uuid) (m : MemoryRepository) : Z :=
  default 0 (mem_attempt_charged m !! id).

(** The budget of a running attempt, read off the tables. *)
Definition mem_budget (id : uuid) (m : MemoryRepository) : option CollectionChargeBudget :=
  source_id ← mem_attempt_sources m !! id;
  charged ← mem_attempt_charged m !! id;
  Some {| run_charged_bytes := charged;
          day_charged_bytes := default 0 (mem_source_charged m !! source_id);
          day_source_identities :=
            Z.of_nat (size (default (∅ : gset uuid) (mem_identity_files m !! source_id)));
          day_transfer_attempts := default 0 (mem_attempt_counts m !! source_id);
          day_successes := default 0 (mem_success_counts m !! source_id) |}.
Definition budget_nonnegative (b : CollectionChargeBudget) : Prop :=
  0 <= run_charged_bytes b /\ 0 <= day_charged_bytes b /\ 0 <= day_source_identities b /\
  0 <= day_transfer_attempts b /\ 0 <= day_successes b.

Lemma mem_charge_budget_spec id m :
  wp (mem_charge_budget id)
    (fun b m' => m' = m /\ id ∈ mem_running m /\ mem_budget id m = Some b /\ budget_nonnegative b)
    (fun _ m' => m' = m /\ ~ (id ∈ mem_running m /\
       exists b, mem_budget id m = Some b /\ budget_nonnegative b)) m.
Proof.
  unfold mem_charge_budget, mem_budget, new_charge_budget. do 2 wp_step. cbv beta. wp_step.
  wp_step; reflect_bools; [naive_solver|].
  destruct (mem_attempt_sources m !! id) as [source_id|]; simpl; [|wp_step; naive_solver].
  destruct (mem_attempt_charged m !! id) as [charged|]; simpl; [|wp_step; naive_solver].
  wp_step. unfold budget_nonnegative. wp_step; reflect_bools; simpl in *.
  - split; [done|]. intros (_ & b & [= <-] & Hb). simpl in Hb. lia.
  - wp_step. split_and!; try done; simpl; lia.
Qed.

Lemma mem_budget_charged id m b :
  mem_budget id m = Some b -> run_charged_bytes b = mem_charged id m.
Proof.
  unfold mem_budget, mem_charged. destruct (mem_attempt_sources m !! id); [|done].
  destruct (mem_attempt_charged m !! id); [|done]. simpl. by intros [= <-].
Qed.

Lemma attempt_checkpoint_some id m a k : attempt_checkpoint id m = Some (a, k) ->
  mem_attempts m !! id = Some a /\
  checkpoint_by_id (ca_checkpoint_id a) (mem_checkpoints m) = Some k /\
  mc_checkpoint_id k = ca_checkpoint_id a.
Proof.
  unfold attempt_checkpoint. destruct (mem_attempts m !! id) as [a'|]; [|done]. simpl.
  destruct (checkpoint_by_id (ca_checkpoint_id a') (mem_checkpoints m)) as [k'|] eqn:E; [|done].
  simpl. intros [= -> ->]. split_and!; [done..|]. by eapply checkpoint_by_id_id.
Qed.

Lemma bump_count_lookup `{Countable K} (k : K) n (m : gmap K Z) :
  bump_count k n m !! k = Some (default 0 (m !! k) + n).
Proof. unfold bump_count. by rewrite lookup_insert_eq. Qed.

(** A reservation leaves a budget that still is one. *)
Lemma reserve_mem_budget source_id id sid n m b :
  mem_attempt_sources m !! id = Some source_id -> mem_budget id m = Some b ->
  budget_nonnegative b -> 0 <= n ->
  exists b', mem_budget id (reserve_mem source_id id sid n m) = Some b' /\ budget_nonnegative b'.
Proof.
  intros Hs Hb Hn Hpos. unfold mem_budget in *. simpl. rewrite Hs in *. simpl in *.
  destruct (mem_attempt_charged m !! id) as [charged|] eqn:Hc; [|done]. simpl in Hb. simplify_eq.
  unfold budget_nonnegative in *. simpl in Hn.
  rewrite !bump_count_lookup, Hc, lookup_insert_eq. simpl. eexists. split; [done|]. simpl. lia.
Qed.

Section memory.
Context {X : Type}.

#[export] Instance memory_collection : CollectionRepository (MemoryRepository * X) := {|
  begin_attempt scope := lift (mem_begin_attempt scope);
  advance_attempt id c o c' o' p := lift (mem_advance_attempt id c o c' o' p);
  finish_attempt id st tr co r code := lift (mem_finish_attempt id st co);
  observe_attempt id n := lift (mem_observe_attempt id n);
  is_terminal rf ao := lift (mem_is_terminal rf ao);
  note_terminal rf ao := lift (mem_note_terminal rf ao);
  charge_budget id := lift (mem_charge_budget id);
  reserve_transfer id sid rf n := lift (mem_reserve_transfer id sid rf n);
  settle_transfer id sid rf n := lift (mem_settle_transfer id sid rf n)
|}.

#[export] Instance memory_collection_store : CollectionStore (MemoryRepository * X) := {|
  boundary id w := mem_boundary id w.1;
  charged id w := mem_charged id w.1;
  durably_terminal rf ao w := terminal_in rf ao w.1 = true
|}.

Lemma memory_steady id m (x : X) : steady id (m, x) (m, x).
Proof. apply steady_refl. Qed.

Lemma terminal_kept_memory m m' (x x' : X) :
  mem_terminal m' = mem_terminal m -> terminal_kept (m, x) (m', x').
Proof. intros Ht rf ao. simpl. unfold terminal_in. by rewrite Ht. Qed.

#[export] Instance memory_ledger : CollectionLedger (MemoryRepository * X).
Proof.
  split.
  - intros id b c o c' o' p [m x] Hb. apply wp_lift. unfold mem_advance_attempt. do 2 wp_step. cbv beta.
    wp_step. wp_step; [by apply memory_steady|]. reflect_bools.
    destruct (attempt_checkpoint id m) as [[a k]|] eqn:Hak; [|wp_step; by apply memory_steady].
    wp_step. wp_step; [by apply memory_steady|]. reflect_bools. repeat wp_step.
    destruct (attempt_checkpoint_some _ _ _ _ Hak) as (Ha & Hk & Hid).
    simpl in Hb. unfold mem_boundary in Hb. rewrite bool_decide_eq_true_2, Hak in Hb by done. simpl in Hb.
    destruct (Z.eqb_spec (ca_attempt_id a) id) as [Heq|]; [|done].
    split_and!; [done|naive_solver| |done|by apply terminal_kept_memory].
    unfold boundary, memory_collection_store, mem_boundary. simpl. rewrite bool_decide_eq_true_2 by done.
    unfold attempt_checkpoint. simpl. rewrite lookup_insert_eq. simpl.
    rewrite Hid, alter_checkpoint_id, Hk by done. simpl. by rewrite Heq, Z.eqb_refl.
  - intros id st tr co r code [m x]. apply wp_lift. unfold mem_finish_attempt. do 4 wp_step. cbv beta.
    destruct (attempt_checkpoint id (set_mem_running _ m)) as [[a k]|] eqn:Hak.
    + wp_step. split; [done|]. by apply terminal_kept_memory.
    + wp_step. split_and!; [|done|by apply terminal_kept_memory]. simpl. unfold mem_boundary.
      change (attempt_checkpoint id m = None) in Hak.
      change (attempt_checkpoint id (set_mem_running (fun r0 => r0 ∖ {[id]}) m))
        with (attempt_checkpoint id m). rewrite Hak. by repeat case_bool_decide.
  - intros id n id' [m x]. apply wp_lift. unfold mem_observe_attempt. do 2 wp_step. cbv beta.
    wp_step; apply memory_steady.
  - intros id rf ao [m x]. apply wp_lift. unfold mem_is_terminal. wp_step.
    split; [apply memory_steady|done].
  - intros id rf ao [m x]. apply wp_lift. unfold mem_note_terminal. wp_step. split; [split_and!|].
    + done.
    + done.
    + intros rf' ao'. simpl. unfold terminal_in. simpl. rewrite !orb_true_iff, !andb_true_iff, !bool_decide_eq_true. set_solver.
    + simpl. unfold terminal_in. simpl. destruct ao; simpl; rewrite ?orb_true_iff, !bool_decide_eq_true; set_solver.
  - intros id [m x]. apply wp_lift. eapply wp_mono; [apply mem_charge_budget_spec|..]; cbv beta.
    + intros b m' (-> & _ & Hb & _). split; [apply memory_steady|]. by apply mem_budget_charged.
    + intros e m' [-> _]. apply memory_steady.
  - intros id sid rf n [m x]. apply wp_lift. unfold mem_reserve_transfer. wp_step.
    eapply wp_mono; [apply mem_charge_budget_spec|..]; cbv beta; [|intros e m' [-> _]; apply memory_steady].
    intros b m' (-> & Hrun & Hb & Hn). wp_step. wp_step; reflect_bools; [apply memory_steady|].
    do 2 wp_step. cbv beta. pose proof (mem_budget_charged _ _ _ Hb) as Hch.
    assert (Hs : exists source_id, mem_attempt_sources m !! id = Some source_id).
    { unfold mem_budget in Hb. destruct (mem_attempt_sources m !! id); [by eexists|done]. }
    destruct Hs as [source_id Hs]. rewrite Hs.
    destruct (mem_charged_transfers m !! (id, sid)).
    + wp_step. simpl. split_and!; [done|by apply terminal_kept_memory|lia|done].
    + do 2 wp_step. eapply wp_mono; [apply mem_charge_budget_spec|..]; cbv beta.
      * intros b' m' (-> & _ & Hb' & _). split_and!; [done|by apply terminal_kept_memory| |].
        -- simpl. unfold mem_charged. simpl. rewrite bump_count_lookup. simpl. lia.
        -- by apply mem_budget_charged.
      * intros e m' [-> Hno]. destruct Hno. split; [done|]. by eapply reserve_mem_budget.
  - intros id sid rf n [m x]. apply wp_lift. unfold mem_settle_transfer. wp_step.
    assert (Hsame : no_dearer id (m, x) (m, x)) by apply steady_no_dearer, memory_steady.
    eapply wp_mono; [apply mem_charge_budget_spec|..]; cbv beta; [|by intros e m' [-> _]].
    intros b m' (-> & Hrun & Hb & Hn). wp_step. wp_step; [done|]. do 2 wp_step. cbv beta.
    destruct (mem_charged_transfers m !! (id, sid)) as [[reserved [|]]|]; [|destruct (mem_attempt_sources m !! id) as [source_id|]|];
      try (by wp_step).
    + wp_step. split; [done|]. by apply mem_budget_charged.
    + cbv zeta. wp_step. wp_step; [done|]. reflect_bools. do 2 wp_step.
      match goal with |- wp _ _ _ ?m1 => set (m' := m1) end.
      assert (Hm' : no_dearer id (m, x) (m', x)).
      { split_and!; [done| |by apply terminal_kept_memory]. subst m'. simpl. unfold mem_charged. simpl.
        rewrite bump_count_lookup. simpl. lia. }
      eapply wp_mono; [apply mem_charge_budget_spec|..]; cbv beta.
      * intros b' m1 (-> & _ & Hb' & _). split; [done|]. by apply mem_budget_charged.
      * by intros e m1 [-> _].
Qed.
End memory.
