(* ===== verification/CollectionSpec.v ===== *)
(** The properties of the traversal and its durable store, and the runs that witness them. *)
From S2P Require Import Prelude Errors Effects Enums PyNumbers Models AppModels Ports Database SourceFiles Samples CollectionPorts CollectionService CollectionFacts CollectionContracts CollectionRuns CollectionStore CollectionStoreFacts CollectionLedger CollectionWindow CollectionMemory.

(** A concrete world for the traversal: the process-local repository next to a scripted
    listing, in the manner of [src/tests/unit/test_collection.py].  The witnesses of the
    traversal's theorems run in it. *)
(** [sl_pages] by cursor, the clock in nanoseconds, and what each transfer moves. *)
Record Listing := {
  sl_pages : list (option pystr * DiscoveryPage);
  sl_clock : Z;
  sl_transfer : Z
}.
Definition ListingWorld : Type := MemoryRepository * Listing.

Definition listing_page (c : option pystr) (l : Listing) : option DiscoveryPage :=
  snd <$> find (fun p => bool_decide (p.1 = c)) (sl_pages l).

#[export] Instance scripted_adapter : SourceAdapter ListingWorld := {|
  monotonic := w ← get_state; mret (sl_clock w.2);
  discover sid c n :=
    w ← lift get_state;
    on_locals (listing_run [(ListRequest 1, sl_clock w.2); (ListBytes 1000, sl_clock w.2)]);;
    match listing_page c w.2 with
    | Some page => mret (Some page)
    | None => raise invalid_page
    end
|}.

Definition file_number (rf : RemoteFile) : uuid := zsum (rf_remote_id rf).
Definition scripted_result (rf : RemoteFile) (n : Z) : IngestionResult := {|
  ir_source_file_id := file_number rf; ir_status := COMPLETED;
  ir_content_sha256 := Some sample_digest; ir_stage := None; ir_apply := None;
  ir_duplicate := false; ir_replayed := false; ir_transferred_bytes := n |}.

#[export] Instance scripted_ingestion : FileIngestion ListingWorld := {|
  fi_register rf := mret {| reg_source_file_id := file_number rf; reg_remote_file := rf;
    reg_status := DISCOVERED; reg_already_registered := false;
    reg_completed_content_sha256 := None; reg_archive_object_key := None;
    reg_content_sha256 := None; reg_archive_content_length := None |};
  fi_ingest rf n := w ← get_state; mret (scripted_result rf (sl_transfer w.2));
  fi_archive_only rf n := w ← get_state; mret (scripted_result rf (sl_transfer w.2));
  fi_replay sid := raise (MakoletExn NotFoundError 0);
  catalog_bootstrap := None
|}.

#[export] Instance scripted_leases : LeaseManager ListingWorld := {|
  lease_acquire r o t := mret true;
  lease_release r := mret tt
|}.

(** ** The world keeps every contract *)

Lemma untouched_keeps {A} (m : M ListingWorld A) : (forall w, (m w).2 = w) -> keeps m.
Proof.
  intros Hm id w. unfold wp. specialize (Hm w). destruct (m w) as [[a|e] w']; simpl in Hm; subst;
    apply steady_refl.
Qed.

#[export] Instance scripted_quiet : CollectionQuiet ListingWorld.
Proof.
  split; [by apply untouched_keeps| |intros; by apply untouched_keeps..|done]. intros id sid c n w b.
  unfold discover, scripted_adapter. wp_step. apply wp_lift. wp_step. cbv beta. wp_step.
  apply wp_on_locals. apply wp_any; [|intros; apply steady_refl]. intros _ b'.
  destruct (listing_page c w.2); wp_step; apply steady_refl.
Qed.

(** ** Runs *)

Definition sample_file (name : string) (type : DocumentType) : RemoteFile := {|
  rf_retailer_id := py "shufersal"; rf_portal_id := py "main"; rf_protocol := HTTPS;
  rf_remote_id := py name; rf_download_url := py "https://prices.example/1?sig=a";
  rf_original_filename := py name; rf_document_type := type; rf_compression := GZIP;
  rf_discovered_at := Aware 1000; rf_source_timestamp := Some (Aware 900);
  rf_content_length := None; rf_media_type := None; rf_etag := None;
  rf_last_modified := None; rf_response_metadata := []
|}.
Definition sample_pages : list (option pystr * DiscoveryPage) := [
  (None, {| pg_files := [sample_file "a" PRICE_FULL; sample_file "b" DOC_UNKNOWN];
            pg_next_cursor := Some (Some (py "2")); pg_complete := false |});
  (Some (py "2"), {| pg_files := [sample_file "c" STORES]; pg_next_cursor := None;
                     pg_complete := true |})].
Definition sample_listing : ListingWorld :=
  (empty_memory, {| sl_pages := sample_pages; sl_clock := 5; sl_transfer := 42 |}).

Definition sample_scope : CollectionScope := {|
  sc_source_id := py "shufersal"; sc_portal_ids := [py "main"]; sc_operation := ordinary;
  sc_since := None; sc_until := None; sc_archive_only := false |}.

Abbreviation sample_collect :=
  (collect (W := ListingWorld) default_collection_policy true (py "worker") [py "shufersal"]
    (fun _ => [py "main"]) (fun _ => true) (py "shufersal") None None false).

Example sample_collect_runs :
  let '(r, w) := sample_collect sample_listing in
  match r with
  | Returned (Some r) => Some (cr_status r, cr_file_count r, cr_discovered_count r,
      cr_skipped_unknown_count r, cr_listing_request_count r, cr_charged_bytes r)
  | _ => None
  end = Some (completed, 2, 3, 1, 2, 84).
Proof. vm_compute. reflexivity. Qed.

(** What a finished run reports, against its policy. *)
Record run_bounded (policy : CollectionPolicy) (r : CollectionResult) : Prop := {
  rb_files : 0 <= cr_file_count r <= maximum_files_per_source_run policy;
  rb_discovered : 0 <= cr_discovered_count r <= maximum_discovery_records_per_source_run policy;
  rb_split : cr_file_count r + cr_skipped_unknown_count r <= cr_discovered_count r;
  rb_duplicates : 0 <= cr_duplicate_count r <= cr_file_count r;
  rb_reported : py_len (cr_reported_files r) = Z.min (cr_file_count r) (maximum_reported_files policy);
  rb_report_truncated : cr_report_truncated r = (maximum_reported_files policy <? cr_file_count r)
}.

Lemma counts_bounded policy t : counts_ok policy t -> run_bounded policy (collection_result t).
Proof.
  intros []. split; simpl; try done; lia.
Qed.

(** More fuel changes nothing once the page loop has ended. *)
Lemma collect_pages_more {W} `{!SourceAdapter W} `{!FileIngestion W} `{!CollectionRepository W}
    policy strict scope n m : forall c o seen (p : W * traversal),
  n <= m -> fst (collect_pages policy strict (Z.to_nat n) scope c o seen p) <> Returned false ->
  collect_pages policy strict (Z.to_nat m) scope c o seen p =
  collect_pages policy strict (Z.to_nat n) scope c o seen p.
Proof.
  intros c o seen p Hle. assert (Hnat : (Z.to_nat n <= Z.to_nat m)%nat) by lia.
  revert Hnat c o seen p. generalize (Z.to_nat n) as k, (Z.to_nat m) as j. clear n m Hle.
  induction k as [|k IH]; intros j Hle c o seen p Hend; [done|].
  destruct j as [|j]; [lia|]. cbn [collect_pages] in *. unfold mbind, M_bind in *.
  destruct (until_budget _ p) as [[[page|]|e] p1]; [|done..].
  destruct (visit_page policy strict scope c o seen page p1) as [[[next|]|e] p2]; [|done..].
  apply IH; [lia|done].
Qed.

Section collection.
Context {W : Type}.
Context `{!SourceAdapter W} `{!FileIngestion W} `{!CollectionRepository W} `{!LeaseManager W}.

(** C11: the page loop ends.  Whatever the ports do, the loop never runs out of its fuel, and
    with more fuel it does exactly the same: the fuel is not a bound of the model. *)
Theorem page_loop_terminates policy strict scope attempt b (w : W) n :
  collection_policy_ok policy -> Z.of_nat (collection_fuel policy) <= n ->
  let run m := collect_pages policy strict (Z.to_nat m) scope (ca_cursor attempt)
                 (ca_page_offset attempt) [] (w, new_traversal attempt b) in
  fst (run n) <> Returned false /\ run n = run (Z.of_nat (collection_fuel policy)).
Proof.
  intros Hp Hn run.
  assert (Hend : fst (run (Z.of_nat (collection_fuel policy))) <> Returned false).
  { subst run. cbv beta. rewrite Nat2Z.id.
    assert (Hwp : wp (collect_pages policy strict (collection_fuel policy) scope (ca_cursor attempt)
        (ca_page_offset attempt) []) (fun finished p => finished = true /\ counts_ok policy p.2)
        (fun _ _ => True) (w, new_traversal attempt b)).
    { apply collect_pages_counts; [by apply new_traversal_counts|done|].
      unfold rounds, collection_fuel. simpl. pose proof (collection_policy_facts _ Hp) as [].
      case_match; lia. }
    unfold wp in Hwp. destruct (collect_pages _ _ _ _ _ _ _ _) as [[[]|?] ?]; [done|by destruct Hwp|done]. }
  assert (Heq : run n = run (Z.of_nat (collection_fuel policy))) by by apply collect_pages_more.
  by rewrite Heq.
Qed.

(** A run that returns reports counts within its policy, whatever the adapter lists and
    the ingestion answers. *)
Theorem collect_bounded policy strict worker source_ids portal_ids knows source_id since until
    archive_only (w : W) r w' :
  collection_policy_ok policy ->
  collect policy strict worker source_ids portal_ids knows source_id since until archive_only w =
    (Returned r, w') ->
  exists result, r = Some result /\ run_bounded policy result.
Proof.
  intros Hp Hrun.
  refine (wp_returned _ (fun r _ => exists result, r = Some result /\ run_bounded policy result)
    (fun _ _ => True) _ _ _ _ Hrun).
  apply (collect_result policy strict
    (fun r => exists result, r = Some result /\ run_bounded policy result)).
  intros scope attempt w1.
  eapply wp_mono; [apply (collect_with_context_result policy strict (counts_ok policy))|..]; cbv beta.
  - intros b w2 _ _ _ _. by apply traverse_counts.
  - intros r' w2 (t & Ht & ->). eexists. split; [done|]. by apply counts_bounded.
  - done.
Qed.

End collection.

Section boundary.
Context {W : Type}.
Context `{!SourceAdapter W} `{!FileIngestion W} `{CollectionRepository W} `{!CollectionStore W}
  `{!CollectionLedger W} `{!CollectionQuiet W}.

(** C9: the durable boundary never passes a file that is not accounted for.  However the
    visit of a page ends, by return or exception, the boundary has moved over a prefix of
    the files from the offset on (over all of them when it stands at the start of the next
    page), and each of those files is of an unknown format, outside the requested range, or
    durably terminal. *)
Theorem page_boundary_safe policy strict scope c o seen page (w : W) t out w' t' :
  0 <= o -> boundary (ca_attempt_id (t_attempt t)) w = Some (c, o) ->
  charged (ca_attempt_id (t_attempt t)) w <= maximum_charged_bytes_per_source_run policy ->
  visit_page policy strict scope c o seen page (w, t) = (out, (w', t')) ->
  let rest := drop (Z.to_nat o) (pg_files page) in
  exists passed, passed `prefix_of` rest /\ Forall (fun rf => accounted scope rf w') passed /\
    (boundary (ca_attempt_id (t_attempt t)) w' = Some (c, o + py_len passed) \/
     passed = rest /\ exists next, boundary (ca_attempt_id (t_attempt t)) w' = Some (next, 0)) /\
    (forall next, out = Returned (Some next) ->
       boundary (ca_attempt_id (t_attempt t)) w' = Some (Some next, 0) /\ passed = rest).
Proof.
  intros Ho Hb Hc Hrun rest. set (id := ca_attempt_id (t_attempt t)) in *.
  assert (Hat : at_boundary policy id w (c, o) (w, t)) by (split_and!; [done..|by intros rf ao]).
  pose proof (visit_page_at policy strict scope id w c o seen page _ Ho Hat) as Hwp.
  unfold wp in Hwp. rewrite Hrun in Hwp.
  assert (Hleft : (forall next, out <> Returned (Some next)) ->
    page_left policy scope id w c o rest (w', t') ->
    exists passed, passed `prefix_of` rest /\ Forall (fun rf => accounted scope rf w') passed /\
      (boundary id w' = Some (c, o + py_len passed) \/
       passed = rest /\ exists next, boundary id w' = Some (next, 0)) /\
      (forall next, out = Returned (Some next) -> boundary id w' = Some (Some next, 0) /\ passed = rest)).
  { intros Hout (passed & Hpre & (_ & Hb' & _) & Hf). exists passed. split_and!; [done..|by left|].
    intros next E. by destruct (Hout next). }
  destruct out as [[next|]|e]; [|destruct Hwp as [Hwp|[next Hwp]]; [by apply Hleft|]|by apply Hleft].
  all: destruct Hwp as [(_ & Hb' & _) Hf]; exists rest; split_and!; [reflexivity|done|right; by eauto|].
  - by intros n [= <-].
  - done.
Qed.

(** C10: an attempt never charges more than the run's byte limit, on any exit of its run, and
    no file it or anyone finished becomes unfinished. *)
Theorem run_charge_bounded policy strict scope attempt (w : W) out w' :
  0 <= ca_page_offset attempt ->
  boundary (ca_attempt_id attempt) w = Some (ca_cursor attempt, ca_page_offset attempt) ->
  charged (ca_attempt_id attempt) w <= maximum_charged_bytes_per_source_run policy ->
  collect_with_context policy strict scope attempt w = (out, w') ->
  charged (ca_attempt_id attempt) w' <= maximum_charged_bytes_per_source_run policy /\
  (forall rf archive_only, durably_terminal rf archive_only w -> durably_terminal rf archive_only w').
Proof.
  intros Ho Hb Hc Hrun.
  pose proof (collect_with_context_charge policy strict scope attempt w Ho Hb Hc) as Hwp.
  unfold wp in Hwp. rewrite Hrun in Hwp. by destruct out.
Qed.
End boundary.

(** ** The durable store *)

Section store.
Variable portal_generation : list pystr -> pystr.

(** C12: the charge ledger is exact.  In every database that requests can reach, an attempt is
    charged precisely the sum of its transfer and archive charge rows, those rows belong to
    attempts that exist and are not negative, and a checkpoint has at most one running
    attempt. *)
Theorem ledger_exact s :
  collection_reachable portal_generation s ->
  (forall id a, attempts_table (col s) !! id = Some a ->
     at_charged_bytes a = attempt_charge id (col s) /\ 0 <= at_charged_bytes a) /\
  (forall id sid t, transfers (col s) !! (id, sid) = Some t ->
     is_Some (attempts_table (col s) !! id) /\ 0 <= tc_content_length t) /\
  (forall i j a b, attempts_table (col s) !! i = Some a -> attempts_table (col s) !! j = Some b ->
     at_status a = running -> at_status b = running -> at_checkpoint a = at_checkpoint b -> i = j).
Proof.
  intros Hs. destruct (collection_reachable_wf _ _ Hs) as [_ Hwf]. split_and!; [|apply Hwf..].
  intros id a Ha. rewrite (lw_charged _ Hwf _ _ Ha). split; [done|]. by apply attempt_charge_nonneg.
Qed.

(** C13: the rolling budget is exact.  Although the buckets are only a cache that is pruned and
    adjusted as charges come and go, the day's charge a request is told is precisely the sum
    of the charge rows of its retailer whose bucket lies in the window, and the run's charge
    the sum of the attempt's own rows. *)
Theorem day_budget_exact s id b s' :
  collection_reachable portal_generation s -> db_charge_budget id s = (Returned b, s') ->
  exists a k, attempts_table (col s) !! id = Some a /\ checkpoints (col s) !! at_checkpoint a = Some k /\
    run_charged_bytes b = attempt_charge id (col s) /\
    day_charged_bytes b =
      charged_in (cp_retailer k) (Z.leb (window_start (clock (files s)))) (col s).
Proof.
  intros Hs Hrun.
  destruct (wp_returned _ _ _ _ _ _ (db_charge_budget_spec id s) Hrun)
    as ([Hf Hl] & a & k & Ha & _ & Hk & Hr & _ & Hd).
  assert (Hs' : collection_reachable portal_generation s').
  { apply (reachable_request portal_generation s (CBudget id)); [done|]. simpl.
    unfold mbind, M_bind. by rewrite Hrun. }
  destruct (collection_reachable_window _ _ Hs') as (_ & Hwf' & Hw').
  destruct (collection_reachable_window _ _ Hs) as (_ & Hwf & _).
  exists a, k. split_and!; [done|done| |].
  - rewrite Hr. by apply (lw_charged _ Hwf).
  - rewrite Hd. pose proof (window_exact _ (cp_retailer k) Hwf' Hw') as E. rewrite Hf in E. rewrite E.
    destruct Hl. unfold charged_in. congruence.
Qed.

(** [begin_attempt] resumes.  It raises and changes nothing, or opens one running attempt
    at the boundary of its scope's checkpoint: a new checkpoint, the committed boundary of
    the unfinished traversal, or the start of the next generation when the last one was
    complete.  Attempts a crash left running on that checkpoint are failed; no charge row
    moves. *)
Theorem begin_attempt_resumes s scope out s' :
  collection_reachable portal_generation s ->
  db_begin_attempt portal_generation scope s = (out, s') ->
  match out with
  | Returned r => exists cid k rolled, begun portal_generation scope r s s' cid k rolled
  | Raised _ => s' = s
  end.
Proof.
  intros Hs Hrun. destruct (collection_reachable_wf _ _ Hs) as [_ Hwf].
  pose proof (begin_attempt_spec portal_generation scope s (lw_checkpoint_fresh _ Hwf)) as Hwp.
  unfold wp in Hwp. rewrite Hrun in Hwp. by destruct out.
Qed.
End store.

(** Advancing is a compare-and-set.  A call that raises changes nothing; one that returns
    found the attempt running with its boundary at the expected place, moves exactly that
    boundary, charges nothing, and any later call that still expects the old place fails. *)
Theorem advance_compare_and_set id c o c' o' p s out s' :
  db_advance_attempt id c o c' o' p s = (out, s') ->
  match out with
  | Raised _ => s' = s
  | Returned r =>
      db_boundary id s = Some (c, o) /\ db_boundary id s' = Some (c', o') /\
      db_charged id s' = db_charged id s /\ files s' = files s /\
      transfers (col s') = transfers (col s) /\
      ((c', o') <> (c, o) -> forall c2 o2 p2, exists e,
         db_advance_attempt id c o c2 o2 p2 s' = (Raised e, s'))
  end.
Proof.
  intros Hrun. pose proof (db_advance_attempt_spec id c o c' o' p s) as Hwp.
  unfold wp in Hwp. rewrite Hrun in Hwp. destruct out as [r|e]; [|done].
  destruct Hwp as (a & k & Ha & Hr & Hk & <- & <- & Hc & Ho & _ & _ & _ & ->).
  assert (Hb' : db_boundary id (set_col (fun d => set_attempts <[ id := move_attempt c' o' p a ]>
              (set_checkpoints <[ at_checkpoint a := move_checkpoint c' o' p k ]> d)) s) = Some (c', o')).
  { unfold db_boundary. simpl. rewrite lookup_insert_eq. simpl.
    by rewrite bool_decide_eq_true_2, lookup_insert_eq. }
  split_and!; [|done| |done|done|].
  - by eapply advance_from.
  - unfold db_charged. simpl. by rewrite lookup_insert_eq, Ha.
  - intros Hne c2 o2 p2. apply stale_advance. rewrite Hb'. congruence.
Qed.

(** ** Witnesses *)

Lemma default_collection_policy_ok : collection_policy_ok default_collection_policy.
Proof. vm_compute. reflexivity. Qed.

Definition sample_attempt : CollectionAttempt := {|
  ca_attempt_id := 2; ca_checkpoint_id := 1; ca_generation := 1; ca_cursor := None;
  ca_page_offset := 0; ca_recognized_count := 0; ca_unknown_count := 0;
  ca_retry_boundary := false |}.
Definition sample_budget : DiscoveryRunBudget := {|
  maximum_requests := 256; maximum_bytes := 8388608; maximum_elapsed := 300 * one_second;
  request_count := 0; consumed_bytes := 0; started_at := 5 |}.

Lemma page_loop_terminates_witness :
  let run m := collect_pages default_collection_policy true (Z.to_nat m) sample_scope None 0 []
    (sample_listing, new_traversal sample_attempt sample_budget) in
  fst (run 100003) <> Returned false /\
  run 100003 = run (Z.of_nat (collection_fuel default_collection_policy)).
Proof.
  apply (page_loop_terminates default_collection_policy true sample_scope sample_attempt
    sample_budget sample_listing 100003).
  - apply default_collection_policy_ok.
  - unfold collection_fuel. change (maximum_discovery_records_per_source_run default_collection_policy)
      with 100000. lia.
Defined.

(** What [sample_collect] returns. *)
Definition sample_result : CollectionResult :=
  match (sample_collect sample_listing).1 with
  | Returned (Some r) => r
  | _ => collection_result (new_traversal sample_attempt sample_budget)
  end.
Lemma sample_collect_eq :
  sample_collect sample_listing = (Returned (Some sample_result), (sample_collect sample_listing).2).
Proof. apply (run_eq sample_collect sample_listing). vm_compute. reflexivity. Qed.

Lemma collect_bounded_witness :
  exists result, Some sample_result = Some result /\ run_bounded default_collection_policy result.
Proof.
  apply (collect_bounded default_collection_policy true (py "worker") [py "shufersal"]
    (fun _ => [py "main"]) (fun _ => true) (py "shufersal") None None false sample_listing
    (Some sample_result) (sample_collect sample_listing).2);
    [apply default_collection_policy_ok|apply sample_collect_eq].
Defined.

(** A world in which the sample attempt has begun. *)
Definition sample_begun : ListingWorld := (lift (mem_begin_attempt sample_scope) sample_listing).2.
Definition sample_page : DiscoveryPage :=
  {| pg_files := [sample_file "a" PRICE_FULL; sample_file "b" DOC_UNKNOWN];
     pg_next_cursor := Some (Some (py "2")); pg_complete := false |}.

Lemma page_boundary_safe_witness :
  let run := visit_page default_collection_policy true sample_scope None 0 [] sample_page
    (sample_begun, new_traversal sample_attempt sample_budget) in
  exists passed, passed `prefix_of` pg_files sample_page /\
    Forall (fun rf => accounted sample_scope rf run.2.1) passed /\
    (boundary 2 run.2.1 = Some (None, 0 + py_len passed) \/
     passed = pg_files sample_page /\ exists next, boundary 2 run.2.1 = Some (next, 0)) /\
    (forall next, run.1 = Returned (Some next) ->
       boundary 2 run.2.1 = Some (Some next, 0) /\ passed = pg_files sample_page).
Proof.
  intros run.
  apply (page_boundary_safe default_collection_policy true sample_scope None 0 [] sample_page
    sample_begun (new_traversal sample_attempt sample_budget) run.1 run.2.1 run.2.2).
  - done.
  - vm_compute. reflexivity.
  - apply Z.leb_le. vm_compute. reflexivity.
  - subst run. destruct (visit_page _ _ _ _ _ _ _ _) as [? [? ?]]. reflexivity.
Defined.

Lemma run_charge_bounded_witness :
  let w' := (collect_with_context default_collection_policy true sample_scope sample_attempt
    sample_begun).2 in
  charged 2 w' <= 8589934592 /\
  (forall rf archive_only, durably_terminal rf archive_only sample_begun ->
     durably_terminal rf archive_only w').
Proof.
  intros w'.
  apply (run_charge_bounded default_collection_policy true sample_scope sample_attempt sample_begun
    (collect_with_context default_collection_policy true sample_scope sample_attempt sample_begun).1 w').
  - done.
  - vm_compute. reflexivity.
  - apply Z.leb_le. vm_compute. reflexivity.
  - apply surjective_pairing.
Defined.

(** ... and over the tables: the sample file, archived, in an attempt that reserves, settles
    and moves on. *)
Definition sample_generation (portals : list pystr) : pystr := concat portals.
Definition ledger_start : CState :=
  {| files := db_archived; col := empty_collection {[ py "shufersal" ]} 1 |}.
Definition ledger_serve (q : collection_request) (s : CState) : CState :=
  (serve_collection sample_generation q s).2.
Definition ledger_begun : CState := ledger_serve (CBegin sample_scope) ledger_start.
Definition ledger_settled : CState :=
  ledger_serve (CSettle 2 1 sample_remote 50)
    (ledger_serve (CReserve 2 1 sample_remote 1000) ledger_begun).

Example ledger_runs :
  (at_charged_bytes <$> attempts_table (col ledger_settled) !! 2,
   tc_content_length <$> transfers (col ledger_settled) !! (2, 1),
   ac_content_length <$> archive_charges (col ledger_settled) !! 1) =
  (Some 50, Some 8, Some 42).
Proof. vm_compute. reflexivity. Qed.

Lemma ledger_start_archives : archives_ok ledger_start.
Proof.
  assert (H : map_Forall (fun _ arc => 0 <= arc_content_length arc) (archives db_archived)).
  { apply (bool_decide_unpack _). vm_compute. exact I. }
  exact H.
Qed.

Lemma ledger_begun_reachable : collection_reachable sample_generation ledger_begun.
Proof.
  apply (reachable_request sample_generation ledger_start (CBegin sample_scope)); [|done].
  exists {[ py "shufersal" ]}, 1, db_archived. split; [apply ledger_start_archives|constructor].
Qed.
Lemma ledger_settled_reachable : collection_reachable sample_generation ledger_settled.
Proof.
  apply (reachable_request sample_generation (ledger_serve (CReserve 2 1 sample_remote 1000) ledger_begun)
    (CSettle 2 1 sample_remote 50)); [|done].
  apply (reachable_request sample_generation ledger_begun (CReserve 2 1 sample_remote 1000)); [|done].
  apply ledger_begun_reachable.
Qed.

Lemma ledger_exact_witness :
  (forall id a, attempts_table (col ledger_settled) !! id = Some a ->
     at_charged_bytes a = attempt_charge id (col ledger_settled) /\ 0 <= at_charged_bytes a) /\
  (forall id sid t, transfers (col ledger_settled) !! (id, sid) = Some t ->
     is_Some (attempts_table (col ledger_settled) !! id) /\ 0 <= tc_content_length t) /\
  (forall i j a b, attempts_table (col ledger_settled) !! i = Some a ->
     attempts_table (col ledger_settled) !! j = Some b ->
     at_status a = running -> at_status b = running -> at_checkpoint a = at_checkpoint b -> i = j).
Proof. apply (ledger_exact sample_generation ledger_settled), ledger_settled_reachable. Defined.

Definition settled_budget : CollectionChargeBudget := {|
  run_charged_bytes := 50; day_charged_bytes := 50; day_source_identities := 1;
  day_transfer_attempts := 1; day_successes := 1 |}.
Lemma day_budget_exact_witness :
  exists a k, attempts_table (col ledger_settled) !! 2 = Some a /\
    checkpoints (col ledger_settled) !! at_checkpoint a = Some k /\
    50 = attempt_charge 2 (col ledger_settled) /\
    50 = charged_in (cp_retailer k) (Z.leb (window_start (clock (files ledger_settled))))
           (col ledger_settled).
Proof.
  apply (day_budget_exact sample_generation ledger_settled 2 settled_budget
    (db_charge_budget 2 ledger_settled).2); [apply ledger_settled_reachable|].
  apply (run_eq (db_charge_budget 2) ledger_settled). vm_compute. reflexivity.
Defined.

Lemma begin_attempt_resumes_witness :
  match (db_begin_attempt sample_generation sample_scope ledger_settled).1 with
  | Returned r => exists cid k rolled,
      begun sample_generation sample_scope r ledger_settled
        (db_begin_attempt sample_generation sample_scope ledger_settled).2 cid k rolled
  | Raised _ => (db_begin_attempt sample_generation sample_scope ledger_settled).2 = ledger_settled
  end.
Proof.
  apply (begin_attempt_resumes sample_generation ledger_settled sample_scope);
    [apply ledger_settled_reachable|apply surjective_pairing].
Defined.

Lemma advance_compare_and_set_witness :
  let s' := (db_advance_attempt 2 None 0 None 1 no_progress ledger_settled).2 in
  match (db_advance_attempt 2 None 0 None 1 no_progress ledger_settled).1 with
  | Raised _ => s' = ledger_settled
  | Returned r =>
      db_boundary 2 ledger_settled = Some (None, 0) /\ db_boundary 2 s' = Some (None, 1) /\
      db_charged 2 s' = db_charged 2 ledger_settled /\ files s' = files ledger_settled /\
      transfers (col s') = transfers (col ledger_settled) /\
      ((None, 1) <> (@None pystr, 0) -> forall c2 o2 p2, exists e,
         db_advance_attempt 2 None 0 c2 o2 p2 s' = (Raised e, s'))
  end.
Proof. intros s'. apply (advance_compare_and_set 2 None 0 None 1 no_progress ledger_settled), surjective_pairing. Defined.
