(* ===== verification/SourceValues.v ===== *)
(** Source values read by [src/src/makolet/domain/normalization.py]: GTINs, text,
    identifiers, decimals, integers, booleans and dates.

    The Unicode tables of [unicodedata], [str.casefold], [datetime.strptime] and the rules of
    [ZoneInfo] are the classes [Unicode] and [Calendar]; the grammars of [Decimal] and [int] are
    written out.  Wall clocks and instants count microseconds from 1970. *)
From S2P Require Import Prelude Errors Effects Enums PyNumbers Text Models.

(** ** GTINs *)

(** [int(character)] of a decimal digit. *)
Definition digit_value (c : Z) : Z := c - 48.

(** [for offset, character in enumerate(...): checksum_sum += ...]. *)
Fixpoint checksum_sum (offset : nat) (characters : pystr) : Z :=
  match characters with
  | [] => 0
  | c :: characters => digit_value c * (if Nat.even offset then 3 else 1)
                       + checksum_sum (S offset) characters
  end.

(** [is_valid_gtin]. *)
Definition is_valid_gtin (value : pystr) : bool :=
  if negb (bool_decide (length value ∈ [8; 12; 13; 14]%nat) && py_all is_digit value) then false
  else match reverse value with
       | [] => false
       | last :: rest => (10 - checksum_sum 0 rest mod 10) mod 10 =? digit_value last
       end.

(** ** Libraries *)

(** [unicodedata] and [str.casefold]; [decimal_digit] is [unicodedata.decimal]. *)
Class Unicode := {
  nfkc : pystr -> pystr;
  category : Z -> pystr;
  casefold : pystr -> pystr;
  decimal_digit : Z -> option Z
}.

(** [unicodedata.category(c).startswith("C")]. *)
Definition is_other `{Unicode} (c : Z) : bool := starts_with (py "C") (category c).

(** What the readings rely on: strings hold code points from 0, and the null character and the
    surrogates are of a category of their own. *)
Definition unstorable_char (c : Z) : bool := (c <=? 0) || ((0xD800 <=? c) && (c <=? 0xDFFF)).
Class UnicodeOk `{Unicode} := {
  unstorable_other : forall c, unstorable_char c = true -> is_other c = true
}.

(** [datetime.strptime(source, format)]: a naive wall clock, or one with an offset. *)
Inductive wall_clock := LocalTime (wall : Z) | OffsetTime (wall offset : Z).

(** [ISRAEL_TIMEZONE]: the offset of a wall clock with a fold, and of an instant. *)
Class Calendar := {
  strptime : pystr -> pystr -> option wall_clock;
  utcoffset : Z -> Z -> Z;
  offset_at : Z -> Z
}.

(** [replace]: every occurrence of a character, by a string. *)
Definition replace_char (c : Z) (by_ : pystr) (s : pystr) : pystr :=
  concat (map (fun d => if d =? c then by_ else [d]) s).
(** [source.count(character)]. *)
Definition count_char (c : Z) (s : pystr) : Z := py_len (List.filter (Z.eqb c) s).

(** The longest prefix of characters that satisfy [f], and the rest. *)
Fixpoint span (f : Z -> bool) (s : pystr) : pystr * pystr :=
  match s with
  | [] => ([], [])
  | c :: s' => if f c then let '(a, b) := span f s' in (c :: a, b) else ([], s)
  end.

Definition digits_value (s : pystr) : N :=
  foldl (fun n c => (10 * n + Z.to_N (digit_value c))%N) 0%N s.

(** [sign?] of a number. *)
Definition number_sign (s : pystr) : bool * pystr :=
  match s with
  | c :: s' => if c =? 45 then (true, s') else if c =? 43 then (false, s') else (false, s)
  | [] => (false, [])
  end.

Definition ascii_lower (s : pystr) : pystr := map (fun c => if is_upper c then c + 32 else c) s.

Section values.
Context `{Unicode}.
Context {W : Type}.

(** ** Text *)

(** [_WHITESPACE.sub(" ", text)]. *)
Fixpoint collapse_whitespace (after : bool) (s : pystr) : pystr :=
  match s with
  | [] => []
  | c :: s =>
      if is_space c then if after then collapse_whitespace true s else 32 :: collapse_whitespace true s
      else c :: collapse_whitespace false s
  end.

(** [character in "\t\n\r" or not unicodedata.category(character).startswith("C")]. *)
Definition is_kept (c : Z) : bool := bool_decide (c ∈ [9; 10; 13]) || negb (is_other c).

Definition clean_source_text (value : option pystr) (max_length : Z) : M W (option pystr) :=
  match value with
  | None => mret None
  | Some value =>
      let normalized := py_strip (nfkc value) in
      let normalized := List.filter is_kept normalized in
      let normalized := py_strip (collapse_whitespace false normalized) in
      if negb (str_truthy normalized) then mret None
      else
        raise_if (max_length <? py_len normalized) validation_error;;
        mret (Some normalized)
  end.

Definition starts_with_any (prefixes : list pystr) (s : pystr) : bool := py_any (fun p => starts_with p s) prefixes.

(** The characters a search text keeps of one character. *)
Definition search_character (c : Z) : pystr :=
  if starts_with_any [py "L"; py "N"] (category c) then [c]
  else if starts_with_any [py "P"; py "S"; py "Z"] (category c) || is_space c then [32]
  else [].
Definition normalize_search_text (value : pystr) : pystr :=
  py_strip (collapse_whitespace false (concat (map search_character (casefold (nfkc value))))).

Definition normalize_identifier (value : pystr) : M W pystr :=
  let normalized := py_strip (nfkc value) in
  let normalized := List.filter (fun c => negb (is_space c)) normalized in
  raise_if (negb (str_truthy normalized) || (128 <? py_len normalized)) validation_error;;
  raise_if (py_any is_other normalized) validation_error;;
  mret normalized.

Definition classify_identifier (value : pystr) : M W IdentifierKind :=
  normalized ← normalize_identifier value;
  mret (if is_valid_gtin normalized then GTIN else RETAILER_ITEM).

Definition digits_only (value : pystr) : pystr :=
  List.filter (fun c => bool_decide (is_Some (decimal_digit c))) (nfkc value).

(** ** Decimals *)

(** The characters of a number: underscores are skipped, any decimal digit is a digit. *)
Fixpoint number_characters (s : pystr) : option pystr :=
  match s with
  | [] => Some []
  | c :: s =>
      rest ← number_characters s;
      if c =? 95 then Some rest
      else if c <? 128 then Some (c :: rest)
      else match decimal_digit c with Some d => Some (48 + d :: rest) | None => None end
  end.

(** The exponent part, after the digits. *)
Definition number_exponent (s : pystr) : option Z :=
  match s with
  | [] => Some 0
  | c :: s =>
      if (c =? 101) || (c =? 69) then
        let '(neg, digits) := number_sign s in
        if str_truthy digits && py_all is_digit digits
        then let n := Z.of_N (digits_value digits) in Some (if neg then - n else n)
        else None
      else None
  end.

(** [decimal.MAX_EMAX] and the least exponent. *)
Definition MAX_EMAX : Z := 999999999999999999.
Definition MIN_ETINY : Z := -1999999999999999997.

(** [Decimal(source)]; [None] is [InvalidOperation]. *)
Definition decimal_literal (source : pystr) : option decimal :=
  s ← number_characters (py_strip source);
  let '(neg, s) := number_sign s in
  let '(whole, rest) := span is_digit s in
  let '(fraction, rest) := match rest with
                           | c :: r => if c =? 46 then span is_digit r else ([], rest)
                           | [] => ([], [])
                           end in
  if str_truthy (whole ++ fraction) then
    exponent ← number_exponent rest;
    let coeff := digits_value (whole ++ fraction) in
    let expo := exponent - py_len fraction in
    let d := Finite neg coeff expo in
    if (MIN_ETINY <=? expo) && (expo + dec_digits d - 1 <=? MAX_EMAX) then Some d else None
  else
    let name := ascii_lower s in
    if bool_decide (name ∈ [py "inf"; py "infinity"]) then Some (Infinite neg)
    else if py_any (fun p => starts_with p name && py_all is_digit (drop (length p) name)) [py "nan"; py "snan"]
    then Some NotANumber
    else None.

(** [abs(parsed)] in the default context: 28 digits, half to even; an exponent above
    999999 raises [decimal.Overflow].  (Values below 1E-999999 are rounded further.) *)
Definition CONTEXT_PRECISION : Z := 28.
Definition CONTEXT_EMAX : Z := 999999.
Definition rounded_half_even (coeff : N) (digits : Z) : N :=
  let p := Z.to_N (10 ^ digits) in
  let q := (coeff / p)%N in
  let r := (coeff mod p)%N in
  if (p <? 2 * r)%N || ((p =? 2 * r)%N && N.odd q) then (q + 1)%N else q.
Definition context_abs (d : decimal) : M W decimal :=
  match d with
  | Finite _ coeff expo =>
      let extra := Z.max 0 (dec_digits d - CONTEXT_PRECISION) in
      let r := Finite false (rounded_half_even coeff extra) (expo + extra) in
      raise_if (negb (N.eqb coeff 0) && (CONTEXT_EMAX <? expo + extra + dec_digits r - 1)) (PyExn OtherException);;
      mret r
  | Infinite _ => mret (Infinite false)
  | NotANumber => mret NotANumber
  end.

Definition MAX_MONEY : decimal := Finite false 99999999999999 (-4).

(** [parse_decimal] with its default [allow_negative] and [maximum], as every call has them. *)
Definition is_blank (value : option pystr) : bool :=
  match value with None => true | Some v => negb (str_truthy (py_strip v)) end.
Definition number_source (value : pystr) : pystr :=
  let source := replace_char 160 [] (py_strip value) in
  if (count_char 44 source =? 1) && (count_char 46 source =? 0) then replace_char 44 [46] source
  else replace_char 44 [] source.

Definition parse_decimal (value : option pystr) (required : bool) : M W (option decimal) :=
  match value with
  | Some v =>
      if negb (is_blank value) then
        match decimal_literal (number_source v) with
        | None => raise validation_error
        | Some parsed =>
            raise_if (negb (is_finite parsed)) validation_error;;
            raise_if (dec_ltb parsed dec_zero) validation_error;;
            magnitude ← context_abs parsed;
            raise_if (dec_ltb MAX_MONEY magnitude) validation_error;;
            mret (Some parsed)
        end
      else raise_if required validation_error;; mret None
  | None => raise_if required validation_error;; mret None
  end.

(** ** Integers and booleans *)

(** Digits with single underscores between them. *)
Fixpoint underscored_digits (s : pystr) : option pystr :=
  match s with
  | [] => None
  | c :: s =>
      d ← (if is_digit c then Some c else if c <? 128 then None else Z.add 48 <$> decimal_digit c);
      match s with
      | [] => Some [d]
      | c' :: s' => (cons d) <$> underscored_digits (if c' =? 95 then s' else s)
      end
  end.

(** [sys.get_int_max_str_digits()]. *)
Definition MAX_STR_DIGITS : Z := 4300.

(** [int(source)]; [None] is [ValueError]. *)
Definition int_literal (source : pystr) : option Z :=
  let '(neg, s) := number_sign (py_strip source) in
  digits ← underscored_digits s;
  if MAX_STR_DIGITS <? py_len digits then None
  else let n := Z.of_N (digits_value digits) in Some (if neg then - n else n).

Definition parse_int (value : option pystr) : M W (option Z) :=
  match value with
  | Some v =>
      if is_blank value then mret None
      else match int_literal (py_strip v) with
           | Some n => mret (Some n)
           | None => raise validation_error
           end
  | None => mret None
  end.

(** Yes and no, in Hebrew too. *)
Definition TRUE_WORDS : list pystr := [py "1"; py "true"; py "yes"; py "y"; [0x5DB; 0x5DF]].
Definition FALSE_WORDS : list pystr := [py "0"; py "false"; py "no"; py "n"; [0x5DC; 0x5D0]].

Definition parse_bool (value : option pystr) : M W (option bool) :=
  match value with
  | Some v =>
      if is_blank value then mret None
      else
        let normalized := casefold (py_strip v) in
        if bool_decide (normalized ∈ TRUE_WORDS) then mret (Some true)
        else if bool_decide (normalized ∈ FALSE_WORDS) then mret (Some false)
        else raise validation_error
  | None => mret None
  end.

(** ** Dates *)

Context `{Calendar}.

(** [_DATETIME_FORMATS]. *)
Definition DATETIME_FORMATS : list pystr := map py
  [ "%Y-%m-%dT%H:%M:%S.%f%z"; "%Y-%m-%dT%H:%M:%S%z"; "%Y-%m-%dT%H:%M:%S.%f"; "%Y-%m-%dT%H:%M:%S";
    "%Y-%m-%d %H:%M:%S.%f"; "%Y-%m-%d %H:%M:%S"; "%Y-%m-%d %H:%M"; "%Y/%m/%d %H:%M:%S";
    "%Y/%m/%d %H:%M"; "%d/%m/%Y %H:%M:%S"; "%d/%m/%Y %H:%M"; "%m/%d/%Y %I:%M:%S %p"; "%Y%m%d%H%M%S";
    "%Y%m%d%H%M"; "%Y%m%d"; "%Y-%m-%d"; "%Y/%m/%d" ]%string.

(** [datetime.min] and [datetime.max]. *)
Definition DATETIME_MIN : Z := -62135596800000000.
Definition DATETIME_MAX : Z := 253402300799999999.

(** A wall clock moved by an offset; out of range is [OverflowError]. *)
Definition moved (z : Z) : M W Z :=
  raise_if (negb ((DATETIME_MIN <=? z) && (z <=? DATETIME_MAX))) (PyExn OtherException);;
  mret z.

(** One turn of [for fold in (0, 1)]: the instant, when it comes back to the wall clock. *)
Definition fold_candidate (wall fold : Z) : M W (list Z) :=
  instant ← moved (wall - utcoffset wall fold);
  round_trip ← moved (instant + offset_at instant);
  mret (if round_trip =? wall then [instant] else []).

Definition unambiguous_israel_local_time (wall : Z) : M W Z :=
  first ← fold_candidate wall 0;
  second ← fold_candidate wall 1;
  match dict_fromkeys (first ++ second) with
  | [instant] => mret instant
  | _ => raise validation_error
  end.

(** [parsed.astimezone(UTC)], after a local time got its zone. *)
Definition utc_instant (parsed : wall_clock) : M W Z :=
  match parsed with
  | LocalTime wall => unambiguous_israel_local_time wall
  | OffsetTime wall offset => moved (wall - offset)
  end.

(** The first format that [source] has. *)
Fixpoint first_format (formats : list pystr) (source : pystr) : option wall_clock :=
  match formats with
  | [] => None
  | f :: formats => match strptime source f with Some p => Some p | None => first_format formats source end
  end.

(** [cleaned.replace("Z", "+00:00") if cleaned.endswith("Z")]. *)
Definition zulu (s : pystr) : pystr :=
  if bool_decide (last s = Some 90) then replace_char 90 (py "+00:00") s else s.

Definition parse_source_datetime (value : option pystr) : M W (option datetime) :=
  cleaned ← clean_source_text value 64;
  match cleaned with
  | None => mret None
  | Some cleaned =>
      match first_format DATETIME_FORMATS (zulu cleaned) with
      | None => raise validation_error
      | Some parsed => instant ← utc_instant parsed; mret (Some (Aware instant))
      end
  end.

Definition combine_source_date_time (date_value time_value : option pystr) : M W (option datetime) :=
  date_text ← clean_source_text date_value 32;
  time_text ← clean_source_text time_value 32;
  match date_text, time_text with
  | None, None => mret None
  | None, Some _ => raise validation_error
  | Some d, Some t => parse_source_datetime (Some (d ++ py " " ++ t))
  | Some d, None => parse_source_datetime (Some d)
  end.
End values.

(** What the readings of source values answer, and how they fail. *)
(** A source value is refused with a [DomainValidationError]; a decimal or a date out of range
    raises an [ArithmeticError] instead. *)
Definition value_error (e : exn) : Prop := e = validation_error \/ e = PyExn OtherException.

(** Text that PostgreSQL stores. *)
Definition storable (s : pystr) : Prop := Forall (fun c => unstorable_char c = false) s.
Definition clean (n : Z) (s : pystr) : Prop := s <> [] /\ py_len s <= n /\ storable s.

Lemma Forall_drop_while P f s : Forall P s -> Forall P (drop_while f s).
Proof.
  intros Hs. destruct (drop_while_suffix f s) as [t Ht]. rewrite Ht in Hs. by apply Forall_app in Hs as [].
Qed.
Lemma Forall_strip P s : Forall P s -> Forall P (py_strip s).
Proof.
  intros Hs. unfold py_strip, strip_with. apply Forall_reverse, Forall_drop_while, Forall_reverse, Forall_drop_while, Hs.
Qed.
Lemma Forall_list_filter {A} (P : A -> Prop) f l : Forall P l -> Forall P (List.filter f l).
Proof. induction 1; simpl; [constructor|]. case_match; [by constructor|done]. Qed.
Lemma list_filter_Forall {A} (f : A -> bool) l : Forall (fun a => f a = true) (List.filter f l).
Proof. induction l; simpl; [constructor|]. destruct (f a) eqn:E; [by constructor|done]. Qed.

Lemma Forall_take_Z (P : Z -> Prop) n (s : pystr) : Forall P s -> Forall P (take n s).
Proof. apply Forall_take. Qed.

Section values.
Context `{UnicodeOk} {W : Type}.
Implicit Types w : W.

Lemma kept_storable c : negb (is_other c) = true -> unstorable_char c = false.
Proof.
  intros Hc. destruct (unstorable_char c) eqn:E; [|done]. apply unstorable_other in E. by rewrite E in Hc.
Qed.

Lemma collapse_storable after s : Forall (fun c => is_kept c = true) s -> storable (collapse_whitespace after s).
Proof.
  intros Hs. revert after. induction Hs as [|c s Hc _ IH]; intros after; simpl; [constructor|].
  destruct (is_space c) eqn:Esp.
  - destruct after; [apply IH|]. constructor; [done|apply IH].
  - constructor; [|apply IH]. unfold is_kept in Hc. apply orb_true_iff in Hc as [Hc|Hc]; [|by apply kept_storable].
    apply bool_decide_eq_true in Hc. exfalso.
    repeat (apply elem_of_cons in Hc as [->|Hc]; [done|]). by apply elem_of_nil in Hc.
Qed.

Lemma wp_clean_source_text value n w :
  wp (clean_source_text value n) (fun r _ => forall s, r = Some s -> clean n s) (fun e _ => e = validation_error) w.
Proof.
  unfold clean_source_text. destruct value as [v|]; [|by wp_step]. cbv zeta.
  set (s := py_strip (collapse_whitespace false (List.filter is_kept (py_strip (nfkc v))))).
  destruct s as [|c s'] eqn:E; simpl; [by wp_step|]. repeat wp_step; [done|]. intros s0 [= <-].
  split_and!; [done|lia|]. unfold storable. rewrite <- E. apply Forall_strip, collapse_storable, list_filter_Forall.
Qed.

Lemma wp_normalize_identifier v w :
  wp (normalize_identifier v) (fun s _ => clean 128 s) (fun e _ => e = validation_error) w.
Proof.
  unfold normalize_identifier. set (s := List.filter _ (py_strip (nfkc v))). repeat wp_step; try done.
  apply orb_false_iff in H1 as [Ht Hl]. split_and!; [by destruct s|lia|].
  unfold storable. apply Forall_forall. intros c Hc. apply kept_storable. rewrite negb_true_iff.
  destruct (is_other c) eqn:E; [|done]. exfalso.
  assert (Hany : py_any is_other s = true) by (apply existsb_exists; exists c; split; [by apply list_elem_of_In|done]).
  congruence.
Qed.

Lemma wp_context_abs d w : wp (context_abs d) (fun _ _ => True) (fun e _ => e = PyExn OtherException) w.
Proof. unfold context_abs. destruct d; repeat wp_step; done. Qed.

Lemma wp_parse_decimal value required w :
  wp (parse_decimal value required)
    (fun r _ => (required = true -> r <> None) /\
       forall d, r = Some d -> is_finite d = true /\ dec_ltb d dec_zero = false)
    (fun e _ => value_error e) w.
Proof.
  assert (Hblank : wp (raise_if required validation_error;; mret None)
    (fun r _ => (required = true -> r <> None) /\ forall d, r = Some d -> is_finite d = true /\ dec_ltb d dec_zero = false)
    (fun e _ => value_error e) w).
  { repeat wp_step; [by left|]. split; [congruence|done]. }
  unfold parse_decimal. destruct value as [v|]; [|done]. destruct (negb (is_blank (Some v))); [|done].
  destruct (decimal_literal _) as [d|]; [|wp_step; by left].
  repeat wp_step; try by left. eapply wp_mono; [apply wp_context_abs|..]; cbv beta; [|by intros ? ? ->; right].
  intros m w' _. repeat wp_step; [by left|]. split; [done|]. intros d' [= <-].
  split; [by destruct (is_finite d)|done].
Qed.

Lemma wp_parse_int value w : wp (parse_int value) (fun _ _ => True) (fun e _ => e = validation_error) w.
Proof. unfold parse_int. repeat wp_step; done. Qed.
Lemma wp_parse_bool value w : wp (parse_bool value) (fun _ _ => True) (fun e _ => e = validation_error) w.
Proof. unfold parse_bool. repeat wp_step; done. Qed.

Context `{Calendar}.

Definition aware_opt (r : option datetime) : Prop := forall d, r = Some d -> is_aware d = true.

Lemma wp_moved z w : wp (moved z) (fun r _ => r = z) (fun e _ => e = PyExn OtherException) w.
Proof. unfold moved. by repeat wp_step. Qed.

Lemma wp_fold_candidate wall fold w :
  wp (fold_candidate wall fold)
    (fun l _ => l = [wall - utcoffset wall fold] /\
       wall - utcoffset wall fold + offset_at (wall - utcoffset wall fold) = wall \/
       l = [] /\ wall - utcoffset wall fold + offset_at (wall - utcoffset wall fold) <> wall)
    (fun e _ => e = PyExn OtherException) w.
Proof.
  unfold fold_candidate. wp_step. eapply wp_mono; [apply wp_moved|..]; cbv beta; [|done]. intros ? ? ->.
  wp_step. eapply wp_mono; [apply wp_moved|..]; cbv beta; [|done]. intros ? ? ->. wp_step.
  destruct (Z.eqb_spec (wall - utcoffset wall fold + offset_at (wall - utcoffset wall fold)) wall); auto.
Qed.

Lemma wp_utc_instant p w : wp (utc_instant p) (fun _ _ => True) (fun e _ => value_error e) w.
Proof.
  destruct p as [wall|wall offset]; simpl.
  - unfold unambiguous_israel_local_time. wp_step.
    eapply wp_mono; [apply wp_fold_candidate|..]; cbv beta; [|by intros ? ? ->; right]. intros ? ? _.
    wp_step. eapply wp_mono; [apply wp_fold_candidate|..]; cbv beta; [|by intros ? ? ->; right]. intros ? ? _.
    repeat wp_step; [by left|done|by left].
  - eapply wp_mono; [apply wp_moved|..]; cbv beta; [done|]. intros ? ? ->. by right.
Qed.

Lemma wp_parse_source_datetime v w : wp (parse_source_datetime v) (fun r _ => aware_opt r) (fun e _ => value_error e) w.
Proof.
  unfold parse_source_datetime. wp_step. eapply wp_mono; [apply wp_clean_source_text|..]; cbv beta;
    [|by intros ? ? ->; left]. intros cleaned w' _. destruct cleaned as [s|]; [|by wp_step].
  destruct (first_format _ _) as [p|]; [|wp_step; by left]. wp_step.
  eapply wp_mono; [apply wp_utc_instant|..]; cbv beta; [|done]. intros i w'' _. wp_step. by intros d [= <-].
Qed.

Lemma wp_combine_source_date_time d t w :
  wp (combine_source_date_time d t) (fun r _ => aware_opt r) (fun e _ => value_error e) w.
Proof.
  unfold combine_source_date_time.
  do 2 (wp_step; eapply wp_mono; [apply wp_clean_source_text|..]; cbv beta; [|by intros ? ? ->; left]; intros ? ? _).
  repeat wp_step; try apply wp_parse_source_datetime; [by left|done].
Qed.
End values.

(** ** Local times *)

Section local_time.
Context `{Calendar} {W : Type}.

(** The wall clock of an instant; every instant is one of the two folds of its wall clock. *)
Definition shows (instant wall : Z) : Prop := instant + offset_at instant = wall.
Definition folds_cover : Prop := forall instant, exists fold, (fold = 0 \/ fold = 1) /\
  utcoffset (instant + offset_at instant) fold = offset_at instant.

Definition in_range (z : Z) : Prop := DATETIME_MIN <= z <= DATETIME_MAX.

Lemma moved_out_of_range z (w : W) :
  wp (moved z) (fun r _ => r = z /\ in_range z) (fun e _ => e = PyExn OtherException /\ ~ in_range z) w.
Proof.
  unfold moved, in_range. repeat wp_step.
  - split; [done|]. apply negb_true_iff, andb_false_iff in H0 as [?|?]; lia.
  - split; [done|]. apply negb_false_iff, andb_true_iff in H0 as [??]; lia.
Qed.

Lemma fold_candidate_spec wall fold (w : W) : let i := wall - utcoffset wall fold in
  wp (fold_candidate wall fold) (fun l _ => forall j, j ∈ l <-> j = i /\ shows i wall)
    (fun e _ => e = PyExn OtherException /\ (~ in_range i \/ ~ in_range (i + offset_at i))) w.
Proof.
  intros i. unfold fold_candidate. wp_step. eapply wp_mono; [apply moved_out_of_range|..]; cbv beta; [|naive_solver].
  intros ? ? [-> _]. wp_step. eapply wp_mono; [apply moved_out_of_range|..]; cbv beta; [|naive_solver].
  intros ? ? [-> _]. wp_step. intros j. fold i. unfold shows.
  destruct (Z.eqb_spec (i + offset_at i) wall); set_solver.
Qed.

(** The answer is the one instant that shows the wall clock. *)
Lemma local_time_spec wall (w : W) : folds_cover ->
  wp (unambiguous_israel_local_time wall)
    (fun i _ => shows i wall /\ forall j, shows j wall -> j = i)
    (fun e _ => e = validation_error /\
         ((forall j, ~ shows j wall) \/ exists i j, i <> j /\ shows i wall /\ shows j wall) \/
       e = PyExn OtherException /\ exists i fold, (fold = 0 \/ fold = 1) /\ i = wall - utcoffset wall fold /\
         (~ in_range i \/ ~ in_range (i + offset_at i))) w.
Proof.
  intros Hcover. unfold unambiguous_israel_local_time. wp_step.
  eapply wp_mono; [apply fold_candidate_spec|..]; cbv beta; [|intros e w' [-> ?]; right; split; [done|]; eauto 6].
  intros first w1 H1. wp_step.
  eapply wp_mono; [apply fold_candidate_spec|..]; cbv beta; [|intros e w' [-> ?]; right; split; [done|]; eauto 6].
  intros second w2 H2.
  assert (Hin : forall j, j ∈ dict_fromkeys (first ++ second) <-> shows j wall).
  { intros j. rewrite elem_of_dict_fromkeys, elem_of_app, H1, H2. split; [intros [[-> ?]|[-> ?]]; done|].
    intros Hj. destruct (Hcover j) as (fold & [->| ->] & Hf); unfold shows in *; rewrite Hj in Hf; [left|right];
      (split; [lia|by replace (wall - utcoffset wall _) with j by lia]). }
  pose proof (NoDup_dict_fromkeys (first ++ second)) as Hnd.
  destruct (dict_fromkeys (first ++ second)) as [|i [|j l]].
  - wp_step. left. split; [done|]. left. intros j Hj. apply Hin in Hj. by apply elem_of_nil in Hj.
  - wp_step. split; [apply Hin; set_solver|]. intros j Hj. apply Hin in Hj. set_solver.
  - wp_step. left. split; [done|]. right. exists i, j. split_and!; [|apply Hin; set_solver..].
    apply NoDup_cons in Hnd as [Hnd _]. set_solver.
Qed.
End local_time.
