(* ===== verification/Decimals.v ===== *)
(** [decimal] arithmetic in the default context: 28 digits, half to even.

    Only finite operands are computed with; an operation answers [None] where the context traps
    (overflow, or a quantized coefficient that does not fit).  [dec_Q] is the number a decimal
    stands for. *)
From Stdlib Require Import QArith Qpower Qabs Lqa.
From S2P Require Import Prelude Errors Effects PyNumbers Text Models SourceValues.

(** ** Operations *)

(** The number of decimal digits of a coefficient; of 0, one. *)
Fixpoint ndigits_aux (fuel : nat) (c : N) : Z :=
  match fuel with
  | O => 1
  | S fuel => if (c <? 10)%N then 1 else 1 + ndigits_aux fuel (c / 10)
  end.
Definition ndigits (c : N) : Z := ndigits_aux (N.to_nat (N.size c)) c.

Definition CONTEXT_EMIN : Z := -999999.
Definition ETINY : Z := CONTEXT_EMIN - CONTEXT_PRECISION + 1.

(** [Decimal._fix]. *)
Definition ctx_fix (neg : bool) (coeff : N) (expo : Z) : option decimal :=
  if (coeff =? 0)%N then Some (Finite neg 0 (Z.max ETINY (Z.min expo CONTEXT_EMAX)))
  else
    let target := Z.max (expo + ndigits coeff - CONTEXT_PRECISION) ETINY in
    let '(c, e) := if expo <? target then (rounded_half_even coeff (target - expo), target) else (coeff, expo) in
    let '(c, e) := if CONTEXT_PRECISION <? ndigits c then ((c / 10)%N, e + 1) else (c, e) in
    if CONTEXT_EMAX <? e + ndigits c - 1 then None else Some (Finite neg c e).

Definition dec_neg (x : decimal) : decimal :=
  match x with
  | Finite neg c e => Finite (negb neg) c e
  | Infinite neg => Infinite (negb neg)
  | NotANumber => NotANumber
  end.
Definition dec_add (x y : decimal) : option decimal :=
  match x, y with
  | Finite n1 c1 e1, Finite n2 c2 e2 =>
      let e := Z.min e1 e2 in
      let s := scaled n1 c1 e1 e + scaled n2 c2 e2 e in
      ctx_fix (s <? 0) (Z.to_N (Z.abs s)) e
  | _, _ => None
  end.
Definition dec_sub (x y : decimal) : option decimal := dec_add x (dec_neg y).
Definition dec_mul (x y : decimal) : option decimal :=
  match x, y with
  | Finite n1 c1 e1, Finite n2 c2 e2 => ctx_fix (xorb n1 n2) (c1 * c2)%N (e1 + e2)
  | _, _ => None
  end.

(** The loop of [Decimal.__truediv__] that removes zeros down to the ideal exponent. *)
Fixpoint trim_zeros (fuel : nat) (c : N) (e ideal : Z) : N * Z :=
  match fuel with
  | O => (c, e)
  | S fuel => if (e <? ideal) && (c mod 10 =? 0)%N then trim_zeros fuel (c / 10)%N (e + 1) ideal else (c, e)
  end.
(** [Decimal(a) / Decimal(b)] of two integers, [b] positive. *)
Definition dec_ratio (a b : N) : option decimal :=
  if (a =? 0)%N then ctx_fix false 0 0
  else
    let shift := Z.max 0 (ndigits b - ndigits a + CONTEXT_PRECISION + 1) in
    let n := (a * Z.to_N (10 ^ shift))%N in
    let c := (n / b)%N in
    let '(c, e) := if negb (n mod b =? 0)%N then ((if (c mod 5 =? 0)%N then c + 1 else c)%N, - shift)
                   else trim_zeros (Z.to_nat shift) c (- shift) 0 in
    ctx_fix false c e.

(** [x.quantize(Decimal((0, (1,), e)))]. *)
Definition dec_quantize (x : decimal) (e : Z) : option decimal :=
  match x with
  | Finite neg c expo =>
      let r := if expo <? e then rounded_half_even c (e - expo) else (c * Z.to_N (10 ^ (expo - e)))%N in
      if (CONTEXT_PRECISION <? ndigits r) || (CONTEXT_EMAX <? e + ndigits r - 1) then None else Some (Finite neg r e)
  | _ => None
  end.

(** [max(x, y)] and [min(x, y)] of the language. *)
Definition dec_max (x y : decimal) : decimal := if dec_ltb x y then y else x.
Definition dec_min (x y : decimal) : decimal := if dec_ltb y x then y else x.
(** [==]. *)
Definition dec_eqb (x y : decimal) : bool := dec_leb x y && dec_leb y x.

Example dec_ratio_third : dec_ratio 1 3 = Some (Finite false 3333333333333333333333333333 (-28)).
Proof. reflexivity. Qed.
Example dec_ratio_half : dec_ratio 1 2 = Some (Finite false 5 (-1)).
Proof. reflexivity. Qed.
Example dec_ratio_two_thirds : dec_ratio 2 3 = Some (Finite false 6666666666666666666666666667 (-28)).
Proof. reflexivity. Qed.
Example dec_ratio_whole : dec_ratio 6 3 = Some (Finite false 2 0).
Proof. reflexivity. Qed.
Example dec_mul_third : (dec_ratio 1 3 ≫= fun x => dec_mul x (Finite false 40 (-2))) =
  Some (Finite false 1333333333333333333333333333 (-28)).
Proof. reflexivity. Qed.
Example dec_quantize_third : dec_quantize (Finite false 3335 (-4)) (-3) = Some (Finite false 334 (-3)).
Proof. reflexivity. Qed.

(** ** Values *)

Definition dec_Q (x : decimal) : Q :=
  match x with
  | Finite neg c e => inject_Z ((if neg then -1 else 1) * Z.of_N c) * 10 ^ e
  | _ => 0
  end%Q.

Lemma ten_neq : ~ (10 == 0)%Q.
Proof. by compute. Qed.
Lemma pow10_pos e : (0 < 10 ^ e)%Q.
Proof. apply Qpower_0_lt. by compute. Qed.
#[export] Hint Resolve ten_neq pow10_pos : core.

Lemma pow10_add a b : (10 ^ (a + b) == 10 ^ a * 10 ^ b)%Q.
Proof. by apply Qpower_plus. Qed.
Lemma pow10_Z n : 0 <= n -> (inject_Z (10 ^ n) == 10 ^ n)%Q.
Proof. intros Hn. by rewrite Zpower_Qpower. Qed.

Lemma pow10_le a b : a <= b -> (10 ^ a <= 10 ^ b)%Q.
Proof. intros H. apply Qpower_le_compat_l; [done|]. by compute. Qed.

Lemma scaled_Q neg c expo e : e <= expo ->
  (inject_Z (scaled neg c expo e) * 10 ^ e == dec_Q (Finite neg c expo))%Q.
Proof.
  intros He. unfold scaled. simpl dec_Q. replace expo with ((expo - e) + e) at 2 by lia.
  rewrite pow10_add, inject_Z_mult, (pow10_Z (expo - e)) by lia. ring.
Qed.

Lemma Qmult_lt_pos a b c : (0 < c)%Q -> (a < b)%Q <-> (a * c < b * c)%Q.
Proof. intros Hc. symmetry. by apply Qmult_lt_r. Qed.

(** Comparisons are those of the values. *)
Lemma dec_leb_Q x y : is_finite x = true -> is_finite y = true ->
  dec_leb x y = true <-> (dec_Q x <= dec_Q y)%Q.
Proof.
  destruct x as [n1 c1 e1| |], y as [n2 c2 e2| |]; try done; intros _ _. cbn [dec_leb].
  rewrite <- (scaled_Q n1 c1 e1 (Z.min e1 e2)), <- (scaled_Q n2 c2 e2 (Z.min e1 e2)) by lia.
  rewrite Qmult_le_r by done. by rewrite Z.leb_le, Zle_Qle.
Qed.
Lemma dec_ltb_Q x y : is_finite x = true -> is_finite y = true ->
  dec_ltb x y = true <-> (dec_Q x < dec_Q y)%Q.
Proof.
  intros Hx Hy. rewrite dec_leb_ltb, negb_true_iff by done. rewrite <- not_true_iff_false, dec_leb_Q by done.
  split; [apply Qnot_le_lt|apply Qlt_not_le].
Qed.

(** ** Rounding *)

Lemma ndigits_aux_bounds fuel c : (0 < c)%N -> (c < 2 ^ N.of_nat fuel)%N ->
  1 <= ndigits_aux fuel c /\ 10 ^ (ndigits_aux fuel c - 1) <= Z.of_N c < 10 ^ ndigits_aux fuel c.
Proof.
  revert c. induction fuel as [|fuel IH]; intros c H0 Hc; [simpl in Hc; lia|]. cbn [ndigits_aux].
  rewrite Nat2N.inj_succ, N.pow_succ_r' in Hc.
  destruct (N.ltb_spec c 10); [split; [done|]; cbn; lia|].
  destruct (IH (c / 10)%N) as (H1 & Hlo & Hhi).
  - apply N.div_str_pos. lia.
  - apply N.Div0.div_lt_upper_bound. lia.
  - rewrite N2Z.inj_div in *. change (Z.of_N 10) with 10 in *.
    set (n := ndigits_aux fuel (c / 10)) in *. split; [lia|].
    replace (1 + n - 1) with (Z.succ (n - 1)) by lia. rewrite (Z.add_comm 1 n), Z.add_1_r, !Z.pow_succ_r by lia.
    pose proof (Z.div_mod (Z.of_N c) 10 ltac:(lia)). pose proof (Z.mod_pos_bound (Z.of_N c) 10 ltac:(lia)). lia.
Qed.
Lemma ndigits_bounds c : (0 < c)%N -> 1 <= ndigits c /\ 10 ^ (ndigits c - 1) <= Z.of_N c < 10 ^ ndigits c.
Proof.
  intros Hc. apply ndigits_aux_bounds; [done|]. rewrite N2Nat.id. apply N.size_gt.
Qed.

(** Half to even is within half a unit. *)
Lemma half_even_bound c k : 0 <= k ->
  2 * Z.abs (Z.of_N (rounded_half_even c k) * 10 ^ k - Z.of_N c) <= 10 ^ k.
Proof.
  intros Hk. unfold rounded_half_even. cbv zeta. set (p := Z.to_N (10 ^ k)).
  assert (Hp : Z.of_N p = 10 ^ k) by (apply Z2N.id; apply Z.pow_nonneg; lia). rewrite <- Hp.
  assert (H0 : 0 < Z.of_N p) by (rewrite Hp; apply Z.pow_pos_nonneg; lia).
  pose proof (N.div_mod c p ltac:(lia)). pose proof (N.mod_lt c p ltac:(lia)).
  set (q := (c / p)%N) in *. set (r := (c mod p)%N) in *.
  assert (Hc : Z.of_N c = Z.of_N p * Z.of_N q + Z.of_N r) by lia. rewrite Hc.
  destruct (N.ltb_spec p (2 * r)); cbn [orb].
  - rewrite N2Z.inj_add. change (Z.of_N 1) with 1. lia.
  - destruct (N.eqb_spec p (2 * r)); cbn [andb]; [|lia].
    destruct (N.odd q); [rewrite N2Z.inj_add; change (Z.of_N 1) with 1|]; lia.
Qed.

Ltac Qreplace a b := let H := fresh in assert (H : (a == b)%Q) by ring; rewrite H; clear H.

Definition mag (c : N) (e : Z) : Q := (inject_Z (Z.of_N c) * 10 ^ e)%Q.
Lemma mag_nonneg c e : (0 <= mag c e)%Q.
Proof. unfold mag. apply Qmult_le_0_compat; [|by apply Qlt_le_weak]. change 0%Q with (inject_Z 0). rewrite <- Zle_Qle. lia. Qed.
Lemma dec_Q_mag neg c e : (dec_Q (Finite neg c e) == (if neg then - (1) else 1) * mag c e)%Q.
Proof. unfold mag. simpl. rewrite inject_Z_mult. destruct neg; simpl; ring. Qed.
Lemma Qabs_dec neg c e : (Qabs (dec_Q (Finite neg c e)) == mag c e)%Q.
Proof.
  rewrite dec_Q_mag. destruct neg.
  - Qreplace (- (1) * mag c e)%Q (- mag c e)%Q. rewrite Qabs_opp. apply Qabs_pos, mag_nonneg.
  - Qreplace (1 * mag c e)%Q (mag c e)%Q. apply Qabs_pos, mag_nonneg.
Qed.
Lemma Qabs_dec_diff neg c1 e1 c2 e2 :
  (Qabs (dec_Q (Finite neg c1 e1) - dec_Q (Finite neg c2 e2)) == Qabs (mag c1 e1 - mag c2 e2))%Q.
Proof.
  rewrite !dec_Q_mag. destruct neg.
  - Qreplace (- (1) * mag c1 e1 - - (1) * mag c2 e2)%Q (- (mag c1 e1 - mag c2 e2))%Q. apply Qabs_opp.
  - Qreplace (1 * mag c1 e1 - 1 * mag c2 e2)%Q (mag c1 e1 - mag c2 e2)%Q. done.
Qed.

(** A nonzero magnitude and its leading digit. *)
Lemma mag_adjusted c e : (0 < c)%N -> (10 ^ (e + ndigits c - 1) <= mag c e < 10 ^ (e + ndigits c))%Q.
Proof.
  intros Hc. destruct (ndigits_bounds c Hc) as (H1 & Hlo & Hhi). unfold mag.
  replace (e + ndigits c - 1) with ((ndigits c - 1) + e) by lia. rewrite (Z.add_comm e), !pow10_add, <- (pow10_Z (ndigits c - 1)), <- (pow10_Z (ndigits c)) by lia.
  split; [rewrite Qmult_le_r, <- Zle_Qle by done|rewrite Qmult_lt_r, <- Zlt_Qlt by done]; lia.
Qed.
Lemma pow10_lt_inv a b : (10 ^ a < 10 ^ b)%Q -> a < b.
Proof. intros H. apply Z.nle_gt. intros Hle%pow10_le. by apply (Qlt_not_le _ _ H). Qed.
Lemma mag_adjusted_lt c e k : (0 < c)%N -> (mag c e < 10 ^ k)%Q -> e + ndigits c - 1 < k.
Proof. intros Hc Hk. apply pow10_lt_inv. eapply Qle_lt_trans; [by apply mag_adjusted|done]. Qed.

Lemma mag_shift c e n : 0 <= n -> (mag c e == inject_Z (Z.of_N c) * 10 ^ (- n) * 10 ^ (e + n))%Q.
Proof. intros Hn. unfold mag. rewrite <- Qmult_assoc, <- pow10_add. by replace (- n + (e + n)) with e by lia. Qed.

(** Bringing a coefficient to a higher exponent. *)
Lemma rounded_close c e n : 0 <= n -> (Qabs (mag (rounded_half_even c n) (e + n) - mag c e) <= 10 ^ (e + n) * (1 # 2))%Q.
Proof.
  intros Hn. pose proof (half_even_bound c n Hn) as Hb. set (r := rounded_half_even c n) in *.
  assert (E : (mag r (e + n) - mag c e == inject_Z (Z.of_N r * 10 ^ n - Z.of_N c) * 10 ^ e)%Q).
  { unfold mag, Z.sub. rewrite inject_Z_plus, inject_Z_opp, inject_Z_mult, pow10_Z, (pow10_add e n) by done. ring. }
  rewrite E, Qabs_Qmult, (Qabs_pos (10 ^ e)) by (by apply Qlt_le_weak).
  rewrite pow10_add, <- (Qmult_assoc (10 ^ e)), (Qmult_comm (10 ^ e)).
  apply Qmult_le_r; [done|]. rewrite <- pow10_Z by done.
  change (Qabs (inject_Z (Z.of_N r * 10 ^ n - Z.of_N c))) with (inject_Z (Z.abs (Z.of_N r * 10 ^ n - Z.of_N c))).
  rewrite Zle_Qle, inject_Z_mult in Hb. change (inject_Z 2) with 2%Q in Hb. lra.
Qed.

(** [ctx_fix] is within a unit of the 28th digit, and answers when the exponent is in range. *)
Lemma rounded_upper c n m : 0 <= n -> 0 <= m -> Z.of_N c < 10 ^ (n + m) -> Z.of_N (rounded_half_even c n) <= 10 ^ m.
Proof.
  intros Hn Hm Hc. pose proof (half_even_bound c n Hn). rewrite Z.pow_add_r in Hc by done.
  assert (0 < 10 ^ n) by (apply Z.pow_pos_nonneg; lia). set (r := Z.of_N (rounded_half_even c n)) in *.
  set (p := 10 ^ n) in *. set (q := 10 ^ m) in *. nia.
Qed.

Lemma ndigits_le c m : 0 <= m -> Z.of_N c < 10 ^ m -> ndigits c <= Z.max 1 m.
Proof.
  intros Hm Hc. destruct (N.eq_0_gt_0_cases c) as [->|H0]; [change (ndigits 0) with 1; lia|]. destruct (ndigits_bounds c H0) as (H1 & Hlo & _).
  assert (10 ^ (ndigits c - 1) < 10 ^ m) as Hlt by lia. apply Z.pow_lt_mono_r_iff in Hlt; [lia|done|done].
Qed.

Lemma ctx_fix_close neg c e k : (Qabs (dec_Q (Finite neg c e)) < 10 ^ k)%Q ->
  ETINY + CONTEXT_PRECISION <= k <= CONTEXT_EMAX ->
  exists c' e', ctx_fix neg c e = Some (Finite neg c' e') /\
    (Qabs (dec_Q (Finite neg c' e') - dec_Q (Finite neg c e)) <= 10 ^ (k - CONTEXT_PRECISION) * (1 # 2))%Q.
Proof.
  rewrite Qabs_dec. intros Hk Hr. unfold ctx_fix.
  assert (Hpos : (0 <= 10 ^ (k - CONTEXT_PRECISION) * (1 # 2))%Q).
  { apply Qmult_le_0_compat; [by apply Qlt_le_weak|by compute]. }
  destruct (N.eqb_spec c 0) as [->|Hc].
  { eexists _, _. split; [reflexivity|]. rewrite Qabs_dec_diff. unfold mag. simpl.
    Qreplace (0 * 10 ^ Z.max ETINY (Z.min e CONTEXT_EMAX) - 0 * 10 ^ e)%Q 0%Q. done. }
  assert (H0 : (0 < c)%N) by lia. destruct (ndigits_bounds c H0) as (H1 & Hlo & Hhi).
  pose proof (mag_adjusted_lt c e k H0 Hk) as Hadj. cbv zeta.
  set (target := Z.max (e + ndigits c - CONTEXT_PRECISION) ETINY) in *.
  assert (Ht : target <= k - CONTEXT_PRECISION) by lia.
  destruct (Z.ltb_spec e target) as [Hlt|Hge].
  - set (r := rounded_half_even c (target - e)).
    assert (Hru : Z.of_N r <= 10 ^ CONTEXT_PRECISION).
    { apply rounded_upper; [lia|done|]. eapply Z.lt_le_trans; [exact Hhi|]. apply Z.pow_le_mono_r; [lia|].
      unfold CONTEXT_PRECISION in *. lia. }
    assert (Herr : (Qabs (mag r target - mag c e) <= 10 ^ (k - CONTEXT_PRECISION) * (1 # 2))%Q).
    { pose proof (rounded_close c e (target - e) ltac:(lia)) as Hrc. replace (e + (target - e)) with target in Hrc by lia.
      eapply Qle_trans; [exact Hrc|]. apply Qmult_le_compat_r; [by apply pow10_le|by compute]. }
    destruct (Z.ltb_spec CONTEXT_PRECISION (ndigits r)) as [Hbig|Hsmall].
    + assert (Hr28 : Z.of_N r = 10 ^ CONTEXT_PRECISION).
      { assert (H0r : (0 < r)%N) by (destruct (N.eq_0_gt_0_cases r) as [E|]; [rewrite E in Hbig; by vm_compute in Hbig|done]).
        destruct (ndigits_bounds r H0r) as (_ & Hl & _).
        assert (10 ^ CONTEXT_PRECISION <= 10 ^ (ndigits r - 1)) by (apply Z.pow_le_mono_r; lia). lia. }
      assert (Er : r = (10 ^ 28)%N) by (apply N2Z.inj; rewrite Hr28; vm_compute; reflexivity).
      rewrite Er. replace (ndigits (10 ^ 28 / 10)) with 28 by (vm_compute; reflexivity).
      destruct (Z.ltb_spec CONTEXT_EMAX (target + 1 + 28 - 1)) as [?|_]; [unfold CONTEXT_PRECISION, CONTEXT_EMAX in *; lia|].
      eexists _, _. split; [reflexivity|]. rewrite Qabs_dec_diff.
      assert (E : (mag (10 ^ 28 / 10) (target + 1) == mag r target)%Q).
      { rewrite Er. unfold mag. rewrite pow10_add. change (10 ^ 1)%Q with 10%Q.
        rewrite (Qmult_comm (10 ^ target) 10), Qmult_assoc.
        apply Qmult_comp; [vm_compute|]; reflexivity. }
      by rewrite E.
    + destruct (Z.ltb_spec CONTEXT_EMAX (target + ndigits r - 1)); [unfold CONTEXT_PRECISION in *; lia|].
      eexists _, _. split; [reflexivity|]. by rewrite Qabs_dec_diff.
  - destruct (Z.ltb_spec CONTEXT_PRECISION (ndigits c)); [lia|].
    destruct (Z.ltb_spec CONTEXT_EMAX (e + ndigits c - 1)); [lia|].
    eexists _, _. split; [reflexivity|]. rewrite Qabs_dec_diff.
    Qreplace (mag c e - mag c e)%Q 0%Q. done.
Qed.

(** ** The operations are those of the values, rounded *)

(** [r] stands for [v] up to half a unit of the digit 28 below [10 ^ k]. *)
Definition rounds_to (k : Z) (v : Q) (r : decimal) : Prop :=
  is_finite r = true /\ (Qabs (dec_Q r - v) <= 10 ^ (k - CONTEXT_PRECISION) * (1 # 2))%Q.

Definition context_range (k : Z) : Prop := ETINY + CONTEXT_PRECISION <= k <= CONTEXT_EMAX.

Lemma ctx_fix_rounds neg c e k v : (dec_Q (Finite neg c e) == v)%Q -> (Qabs v < 10 ^ k)%Q -> context_range k ->
  exists r, ctx_fix neg c e = Some r /\ rounds_to k v r.
Proof.
  intros Hv Hk Hr. rewrite <- Hv in Hk. destruct (ctx_fix_close neg c e k Hk Hr) as (c' & e' & -> & Hc).
  eexists. split; [reflexivity|]. split; [done|]. by rewrite <- Hv.
Qed.

Lemma signed_Q s e : (dec_Q (Finite (s <? 0) (Z.to_N (Z.abs s)) e) == inject_Z s * 10 ^ e)%Q.
Proof.
  cbn [dec_Q]. rewrite Z2N.id by lia.
  replace ((if s <? 0 then -1 else 1) * Z.abs s) with s; [done|]. destruct (Z.ltb_spec s 0); lia.
Qed.

Lemma dec_add_rounds x y k : is_finite x = true -> is_finite y = true ->
  (Qabs (dec_Q x + dec_Q y) < 10 ^ k)%Q -> context_range k ->
  exists r, dec_add x y = Some r /\ rounds_to k (dec_Q x + dec_Q y) r.
Proof.
  destruct x as [n1 c1 e1| |], y as [n2 c2 e2| |]; try done. intros _ _ Hk Hr. cbn [dec_add]. cbv zeta.
  apply ctx_fix_rounds; [|done|done].
  rewrite signed_Q, inject_Z_plus, Qmult_plus_distr_l, !scaled_Q by lia. done.
Qed.
Lemma dec_neg_Q x : (dec_Q (dec_neg x) == - dec_Q x)%Q.
Proof.
  destruct x as [n c e| |]; cbn [dec_neg dec_Q]; [|done|done]. rewrite !inject_Z_mult. destruct n; cbn [negb]; change (inject_Z (-1)) with (- (1))%Q; ring.
Qed.
Lemma dec_sub_rounds x y k : is_finite x = true -> is_finite y = true ->
  (Qabs (dec_Q x - dec_Q y) < 10 ^ k)%Q -> context_range k ->
  exists r, dec_sub x y = Some r /\ rounds_to k (dec_Q x - dec_Q y) r.
Proof.
  intros Hx Hy Hk Hr. unfold dec_sub. destruct (dec_add_rounds x (dec_neg y) k) as (r & Hrun & Hfin & Hclose).
  - done.
  - by destruct y.
  - by rewrite dec_neg_Q.
  - done.
  - exists r. split; [done|]. split; [done|]. by rewrite dec_neg_Q in Hclose.
Qed.
Lemma dec_mul_rounds x y k : is_finite x = true -> is_finite y = true ->
  (Qabs (dec_Q x * dec_Q y) < 10 ^ k)%Q -> context_range k ->
  exists r, dec_mul x y = Some r /\ rounds_to k (dec_Q x * dec_Q y) r.
Proof.
  destruct x as [n1 c1 e1| |], y as [n2 c2 e2| |]; try done. intros _ _ Hk Hr. cbn [dec_mul].
  apply ctx_fix_rounds; [|done|done]. cbn [dec_Q]. rewrite pow10_add, N2Z.inj_mul, !inject_Z_mult.
  destruct n1, n2; cbn [xorb]; change (inject_Z (-1)) with (- (1))%Q; change (inject_Z 1) with 1%Q; ring.
Qed.

(** Removing zeros keeps the value. *)
Lemma trim_zeros_mag fuel c e ideal : let '(c', e') := trim_zeros fuel c e ideal in (mag c' e' == mag c e)%Q.
Proof.
  revert c e. induction fuel as [|fuel IH]; intros c e; cbn [trim_zeros]; [done|].
  destruct (Z.ltb_spec e ideal); cbn [andb]; [|done]. destruct (N.eqb_spec (c mod 10) 0) as [Hz|]; [|done].
  specialize (IH (c / 10)%N (e + 1)). destruct (trim_zeros fuel _ _ _) as [c' e']. rewrite IH. unfold mag.
  pose proof (N.div_mod c 10 ltac:(lia)) as Hc. rewrite Hz, N.add_0_r in Hc. rewrite Hc at 2.
  rewrite pow10_add, N2Z.inj_mul, inject_Z_mult. change (inject_Z (Z.of_N 10)) with 10%Q. change (10 ^ 1)%Q with 10%Q. ring.
Qed.

Lemma ndigits_mono a b : (0 < a)%N -> (a <= b)%N -> ndigits a <= ndigits b.
Proof.
  intros Ha Hab. destruct (ndigits_bounds a Ha) as (_ & Hl & _), (ndigits_bounds b ltac:(lia)) as (H1 & _ & Hu).
  assert (10 ^ (ndigits a - 1) < 10 ^ ndigits b) as Hlt by lia. apply Z.pow_lt_mono_r_iff in Hlt; [lia|done|lia].
Qed.

(** The quotient of two counts, the first not above the second. *)
Definition ratio (a b : N) : Q := (inject_Z (Z.of_N a) / inject_Z (Z.of_N b))%Q.
Lemma inject_pos b : (0 < b)%N -> (0 < inject_Z (Z.of_N b))%Q.
Proof. intros Hb. change 0%Q with (inject_Z 0). rewrite <- Zlt_Qlt. lia. Qed.
Lemma ratio_range a b : (0 < b)%N -> (a <= b)%N -> (0 <= ratio a b <= 1)%Q.
Proof.
  intros Hb Hab. pose proof (inject_pos b Hb). unfold ratio. split.
  - apply Qle_shift_div_l; [done|]. rewrite Qmult_0_l. change 0%Q with (inject_Z 0). rewrite <- Zle_Qle. lia.
  - apply Qle_shift_div_r; [done|]. rewrite Qmult_1_l, <- Zle_Qle. lia.
Qed.

Lemma mag_scaled_ratio a b s : 0 <= s -> (0 < b)%N ->
  (ratio a b == inject_Z (Z.of_N (a * Z.to_N (10 ^ s))) / inject_Z (Z.of_N b) * 10 ^ (- s))%Q.
Proof.
  intros Hs Hb. pose proof (inject_pos b Hb). unfold ratio.
  rewrite N2Z.inj_mul, Z2N.id, inject_Z_mult, (pow10_Z s) by (try apply Z.pow_nonneg; lia).
  rewrite Qpower_opp. field. split; apply Qnot_eq_sym, Qlt_not_eq; first [apply pow10_pos|done].
Qed.

Lemma quotient_close n b c : (0 < b)%N -> (c = n / b \/ c = n / b + 1)%N ->
  (Qabs (inject_Z (Z.of_N c) - inject_Z (Z.of_N n) / inject_Z (Z.of_N b)) <= 1)%Q.
Proof.
  intros Hb Hc. pose proof (inject_pos b Hb) as HQ. pose proof (N.div_mod n b ltac:(lia)) as Hn.
  pose proof (N.mod_lt n b ltac:(lia)) as Hm. set (q := (n / b)%N) in *. set (m := (n mod b)%N) in *.
  assert (Hlo : (inject_Z (Z.of_N q) <= inject_Z (Z.of_N n) / inject_Z (Z.of_N b))%Q).
  { apply Qle_shift_div_l; [done|]. rewrite <- inject_Z_mult, <- Zle_Qle. nia. }
  assert (Hhi : (inject_Z (Z.of_N n) / inject_Z (Z.of_N b) <= inject_Z (Z.of_N q) + 1)%Q).
  { apply Qle_shift_div_r; [done|]. change 1%Q with (inject_Z 1). rewrite <- inject_Z_plus, <- inject_Z_mult, <- Zle_Qle. nia. }
  apply Qabs_Qle_condition. destruct Hc as [->| ->].
  - split; lra.
  - rewrite N2Z.inj_add, inject_Z_plus. change (inject_Z (Z.of_N 1)) with 1%Q. split; lra.
Qed.

Lemma pow10_1 : (10 ^ 1 == 10)%Q.
Proof. done. Qed.
Lemma pow10_unit : (10 ^ (1 - CONTEXT_PRECISION) == 10 ^ (-27))%Q.
Proof. done. Qed.
Lemma context_range_1 : context_range 1.
Proof. split; by vm_compute. Qed.

(** [Decimal(a) / Decimal(b)] is [a / b] up to a unit of the 27th digit. *)
Lemma dec_ratio_close a b : (0 < b)%N -> (a <= b)%N ->
  exists r, dec_ratio a b = Some r /\ is_finite r = true /\ (0 <= dec_Q r)%Q /\
    (Qabs (dec_Q r - ratio a b) <= 10 ^ (-27))%Q.
Proof.
  intros Hb Hab. pose proof (ratio_range a b Hb Hab) as [Hr0 Hr1].
  assert (Hfix : forall c e, (Qabs (mag c e - ratio a b) <= 10 ^ (-29))%Q ->
    exists r, ctx_fix false c e = Some r /\ is_finite r = true /\ (0 <= dec_Q r)%Q /\ (Qabs (dec_Q r - ratio a b) <= 10 ^ (-27))%Q).
  { intros c e Hc. apply Qabs_Qle_condition in Hc as [Hc1 Hc2].
    assert (H29 : (10 ^ (-29) < 1)%Q) by (vm_compute; reflexivity).
    assert (Hm : (dec_Q (Finite false c e) == mag c e)%Q) by (rewrite dec_Q_mag; ring).
    destruct (ctx_fix_close false c e 1) as (c' & e' & -> & Hclose).
    - rewrite Qabs_dec, pow10_1. lra.
    - apply context_range_1.
    - eexists. split; [reflexivity|]. split; [done|]. split.
      + rewrite dec_Q_mag. Qreplace (1 * mag c' e')%Q (mag c' e'). apply mag_nonneg.
      + rewrite Hm, pow10_unit in Hclose. apply Qabs_Qle_condition in Hclose as [Hd1 Hd2].
        assert (H27 : (10 ^ (-27) * (1 # 2) + 10 ^ (-29) <= 10 ^ (-27))%Q) by (vm_compute; discriminate).
        apply Qabs_Qle_condition. split; lra. }
  unfold dec_ratio. destruct (N.eqb_spec a 0) as [->|Ha].
  { apply Hfix. unfold mag, ratio. change (inject_Z (Z.of_N 0)) with 0%Q. unfold Qdiv. rewrite !Qmult_0_l. by vm_compute. }
  cbv zeta. set (s := Z.max 0 (ndigits b - ndigits a + CONTEXT_PRECISION + 1)).
  assert (Hs : 29 <= s) by (pose proof (ndigits_mono a b ltac:(lia) Hab); unfold CONTEXT_PRECISION in *; lia).
  set (n := (a * Z.to_N (10 ^ s))%N).
  assert (Hv : (ratio a b == inject_Z (Z.of_N n) / inject_Z (Z.of_N b) * 10 ^ (- s))%Q) by (apply mag_scaled_ratio; [lia|done]).
  destruct (N.eqb_spec (n mod b) 0) as [Hz|Hz]; cbn [negb].
  - pose proof (trim_zeros_mag (Z.to_nat s) (n / b) (- s) 0) as Htrim.
    destruct (trim_zeros _ _ _ _) as [c e]. apply Hfix.
    assert (E : (mag (n / b) (- s) == ratio a b)%Q).
    { rewrite Hv. unfold mag. f_equiv. pose proof (N.div_mod n b ltac:(lia)) as Hn. rewrite Hz, N.add_0_r in Hn.
      rewrite Hn at 2. rewrite N2Z.inj_mul, inject_Z_mult. pose proof (inject_pos b Hb). field. by apply Qnot_eq_sym, Qlt_not_eq. }
    rewrite Htrim, E. Qreplace (ratio a b - ratio a b)%Q 0%Q. by vm_compute.
  - apply Hfix. rewrite Hv. unfold mag.
    set (c := if (n / b mod 5 =? 0)%N then (n / b + 1)%N else (n / b)%N).
    assert (Hq := quotient_close n b c Hb ltac:(unfold c; destruct (_ =? 0)%N; auto)).
    set (x := (inject_Z (Z.of_N n) / inject_Z (Z.of_N b))%Q) in *.
    Qreplace (inject_Z (Z.of_N c) * 10 ^ (- s) - x * 10 ^ (- s))%Q ((inject_Z (Z.of_N c) - x) * 10 ^ (- s))%Q.
    rewrite Qabs_Qmult, (Qabs_pos (10 ^ (- s))) by (by apply Qlt_le_weak).
    eapply Qle_trans; [apply Qmult_le_compat_r; [exact Hq|by apply Qlt_le_weak]|].
    rewrite Qmult_1_l. apply pow10_le. lia.
Qed.

(** Quantizing to the exponent [e]. *)
Lemma dec_quantize_close x e k : is_finite x = true -> (Qabs (dec_Q x) < 10 ^ k)%Q -> 0 <= k - e < CONTEXT_PRECISION -> -1000 <= e <= 1000 ->
  exists neg c, dec_quantize x e = Some (Finite neg c e) /\
    (Qabs (dec_Q (Finite neg c e) - dec_Q x) <= 10 ^ e * (1 # 2))%Q.
Proof.
  destruct x as [neg c expo| |]; try done. intros _ Hk Hke He. rewrite Qabs_dec in Hk. cbn [dec_quantize].
  set (r := if expo <? e then rounded_half_even c (e - expo) else (c * Z.to_N (10 ^ (expo - e)))%N).
  assert (Hclose : (Qabs (mag r e - mag c expo) <= 10 ^ e * (1 # 2))%Q).
  { unfold r. destruct (Z.ltb_spec expo e).
    - pose proof (rounded_close c expo (e - expo) ltac:(lia)) as H1. by replace (expo + (e - expo)) with e in H1 by lia.
    - assert (E : (mag (c * Z.to_N (10 ^ (expo - e))) e == mag c expo)%Q).
      { unfold mag. rewrite N2Z.inj_mul, Z2N.id, inject_Z_mult, (pow10_Z (expo - e)) by (try apply Z.pow_nonneg; lia).
        rewrite <- Qmult_assoc, <- pow10_add. by replace (expo - e + e) with expo by lia. }
      rewrite E. Qreplace (mag c expo - mag c expo)%Q 0%Q. apply Qmult_le_0_compat; [by apply Qlt_le_weak|by compute]. }
  assert (Hr : Z.of_N r <= 10 ^ (k - e)).
  { apply Qabs_Qle_condition in Hclose as [_ Hhi].
    assert (Hup : (mag r e <= (inject_Z (10 ^ (k - e)) + (1 # 2)) * 10 ^ e)%Q).
    { rewrite Qmult_plus_distr_l, pow10_Z, <- pow10_add by lia. replace (k - e + e) with k by lia. lra. }
    unfold mag in Hup. apply Qmult_le_r in Hup; [|done]. apply Z.lt_succ_r. rewrite Zlt_Qlt, <- Z.add_1_r, inject_Z_plus.
    change (inject_Z 1) with 1%Q. lra. }
  assert (Hd : ndigits r <= CONTEXT_PRECISION).
  { assert (Z.of_N r < 10 ^ CONTEXT_PRECISION) by (eapply Z.le_lt_trans; [exact Hr|]; apply Z.pow_lt_mono_r; unfold CONTEXT_PRECISION in *; lia).
    pose proof (ndigits_le r CONTEXT_PRECISION ltac:(done) H). unfold CONTEXT_PRECISION in *. lia. }
  destruct (Z.ltb_spec CONTEXT_PRECISION (ndigits r)); [lia|].
  destruct (Z.ltb_spec CONTEXT_EMAX (e + ndigits r - 1)); [unfold CONTEXT_EMAX, CONTEXT_PRECISION in *; lia|].
  exists neg, r. split; [done|]. by rewrite Qabs_dec_diff.
Qed.

(** Quantities in free text: [parse_quantity_text] and [without_first_quantity_text] of
    [src/src/makolet/domain/normalization.py].

    The regular expression [_NUMBER_WITH_UNIT] is read from the left: no shorter match of a part
    of it can be continued, so that it needs no backtracking but for the choice of the unit. *)
(** [\w] of [re]. *)
Class WordCharacters := { is_word : Z -> bool }.

(** [NormalizedQuantity]. *)
Record NormalizedQuantity := { nq_amount : decimal; nq_unit : string }.

(** The alternatives of the group [unit], the optional parts first. *)
Definition KG_LETTERS : pystr := [0x5E7; 0x5D9; 0x5DC; 0x5D5; 0x5D2; 0x5E8].
Definition GRAM_LETTERS : pystr := [0x5D2; 0x5E8].
Definition ML_LETTERS : pystr := [0x5DE; 0x5D9; 0x5DC; 0x5D9; 0x5DC; 0x5D9; 0x5D8; 0x5E8].
Definition LITRE_LETTERS : pystr := [0x5DC; 0x5D9; 0x5D8; 0x5E8].
Definition UNIT_LETTERS : pystr := [0x5D9; 0x5D7; 0x5D9; 0x5D3].
Definition METRE_LETTERS : pystr := [0x5DE; 0x5D8; 0x5E8].
Definition HE_KG (quote : pystr) : pystr := [0x5E7] ++ quote ++ [0x5D2].
Definition HE_ML (quote : pystr) : pystr := [0x5DE] ++ quote ++ [0x5DC].
Definition HE_UNIT : pystr := [0x5D9; 0x5D7; 39].
Definition plural : pystr := [0x5D9; 0x5DD].
Definition UNITS : list pystr :=
  [HE_KG [34]; HE_KG [0x5F4]; HE_KG [39]; HE_KG [];
   KG_LETTERS ++ [0x5DD]; KG_LETTERS ++ [0x5DE; 0x5D9; 0x5DD]; py "kg";
   GRAM_LETTERS ++ [0x5DD]; GRAM_LETTERS ++ [0x5DE; 0x5D9; 0x5DD]; py "g";
   HE_ML [34]; HE_ML [0x5F4]; HE_ML [39]; HE_ML [];
   ML_LETTERS ++ plural; ML_LETTERS; py "ml";
   LITRE_LETTERS ++ plural; LITRE_LETTERS; py "l";
   UNIT_LETTERS ++ [0x5D4]; UNIT_LETTERS ++ [0x5D5; 0x5EA]; HE_UNIT; py "ea"; py "each";
   METRE_LETTERS ++ plural; METRE_LETTERS; py "m"].

(** A pattern character under [re.IGNORECASE]; the Kelvin sign lowers to [k]. *)
Definition same_letter (p c : Z) : bool :=
  (c =? p) || (is_lower p && (c =? p - 32)) || ((p =? 107) && (c =? 0x212A)).
Fixpoint starts_with_letters (p s : pystr) : bool :=
  match p, s with
  | [], _ => true
  | _ :: _, [] => false
  | a :: p, b :: s => same_letter a b && starts_with_letters p s
  end.

Section quantities.
Context `{Unicode} `{WordCharacters} {W : Type}.

Definition is_decimal_digit (c : Z) : bool := bool_decide (decimal_digit c <> None).

(** [\b] between the last character before it and what follows. *)
Definition boundary (last : Z) (s : pystr) : bool :=
  negb (eqb (is_word last) (match s with [] => false | c :: _ => is_word c end)).

(** The length of the group [unit] at the head of [s]. *)
Definition match_unit (s : pystr) : option nat :=
  length <$> find (fun u => starts_with_letters u s &&
    boundary (List.last (take (length u) s) 0) (drop (length u) s)) UNITS.

(** The groups [number] and [unit] of a match at the head of [s], and what follows. *)
Record quantity_match := { qm_number : pystr; qm_unit : pystr; qm_rest : pystr }.
Definition fraction (s : pystr) : pystr * pystr :=
  match s with
  | c :: s' =>
      if bool_decide (c ∈ [46; 44]) then
        match span is_decimal_digit s' with
        | ([], _) => ([], s)
        | (d, r) => (c :: d, r)
        end
      else ([], s)
  | [] => ([], [])
  end.
Definition match_here (s : pystr) : option quantity_match :=
  let '(digits, s) := span is_decimal_digit s in
  if negb (str_truthy digits) then None
  else
    let '(decimals, s) := fraction s in
    let s := drop_while is_space s in
    n ← match_unit s;
    Some {| qm_number := digits ++ decimals; qm_unit := take n s; qm_rest := drop n s |}.

(** [_NUMBER_WITH_UNIT.search]: what precedes the leftmost match, and the match. *)
Fixpoint search_quantity (s : pystr) : option (pystr * quantity_match) :=
  match match_here s, s with
  | Some m, _ => Some ([], m)
  | None, [] => None
  | None, c :: s' => (fun '(before, m) => (c :: before, m)) <$> search_quantity s'
  end.

(** [raw_unit]. *)
Definition raw_unit (u : pystr) : pystr := replace_char 39 [34] (replace_char 0x5F4 [34] (casefold u)).

Definition KILOGRAMS : list pystr := [HE_KG [34]; KG_LETTERS ++ [0x5DD]; KG_LETTERS ++ [0x5DE; 0x5D9; 0x5DD]; py "kg"].
Definition GRAMS : list pystr := [GRAM_LETTERS ++ [0x5DD]; GRAM_LETTERS ++ [0x5DE; 0x5D9; 0x5DD]; py "g"].
Definition MILLILITRES : list pystr := [HE_ML [34]; ML_LETTERS; ML_LETTERS ++ plural; py "ml"].
Definition LITRES : list pystr := [LITRE_LETTERS; LITRE_LETTERS ++ plural; py "l"].
Definition UNIT_WORDS : list pystr := [UNIT_LETTERS ++ [0x5D4]; UNIT_LETTERS ++ [0x5D5; 0x5EA]; HE_UNIT; py "ea"; py "each"].
Definition METRES : list pystr := [METRE_LETTERS; METRE_LETTERS ++ plural; py "m"].

(** The unit a spelling is normalized to, with its factor. *)
Definition unit_of (u : pystr) : option (Z * string) :=
  if bool_decide (u ∈ KILOGRAMS) then Some (1000, "g"%string)
  else if bool_decide (u ∈ GRAMS) then Some (1, "g"%string)
  else if bool_decide (u ∈ MILLILITRES) then Some (1, "ml"%string)
  else if bool_decide (u ∈ LITRES) then Some (1000, "ml"%string)
  else if bool_decide (u ∈ UNIT_WORDS) then Some (1, "each"%string)
  else if bool_decide (u ∈ METRES) then Some (1, "m"%string)
  else None.

(** [amount * 1000]; an amount that is not scaled is not rounded. *)
Definition scale_amount (factor : Z) (amount : decimal) : M W decimal :=
  if factor =? 1 then mret amount
  else match dec_mul amount (Finite false (Z.to_N factor) 0) with
       | Some d => mret d
       | None => raise (PyExn OtherException)
       end.

Definition parse_quantity_text (value : pystr) : M W (option NormalizedQuantity) :=
  match search_quantity (nfkc value) with
  | None => mret None
  | Some (_, m) =>
      amount ← parse_decimal (Some (qm_number m)) true;
      match amount with
      | None => raise validation_error
      | Some amount =>
          match unit_of (raw_unit (qm_unit m)) with
          | None => mret None
          | Some (factor, u) =>
              d ← scale_amount factor amount;
              mret (Some {| nq_amount := d; nq_unit := u |})
          end
      end
  end.

Definition without_first_quantity_text (value : pystr) : pystr :=
  match search_quantity (nfkc value) with
  | None => nfkc value
  | Some (before, m) => before ++ [32] ++ qm_rest m
  end.
End quantities.

(** ** Lemmas *)

Section facts.
Context `{Unicode} `{WordCharacters} {W : Type}.
Implicit Types w : W.

Lemma span_app f s : let '(a, b) := span f s in s = a ++ b.
Proof. induction s as [|c s IH]; simpl; [done|]. destruct (f c); [|done]. destruct (span f s). by rewrite IH. Qed.

(** A match is read at its place, and none before it. *)
Lemma search_quantity_spec s : match search_quantity s with
  | Some (before, m) => exists matched, s = before ++ matched ++ qm_rest m /\ match_here (matched ++ qm_rest m) = Some m /\
      forall a b, before = a ++ b -> b <> [] -> match_here (b ++ matched ++ qm_rest m) = None
  | None => forall a b, s = a ++ b -> match_here b = None
  end.
Proof.
  induction s as [|c s IH]; cbn [search_quantity].
  - cbn. intros a b E. symmetry in E. by apply app_eq_nil in E as [_ ->].
  - destruct (match_here (c :: s)) as [m|] eqn:Hm.
    + assert (Hrest : exists matched, c :: s = matched ++ qm_rest m).
      { unfold match_here in Hm. pose proof (span_app is_decimal_digit (c :: s)) as Hs.
        destruct (span _ (c :: s)) as [d r] eqn:Ed. destruct (str_truthy d); [|done]. cbn [negb] in Hm.
        assert (Hf : r = (fraction r).1 ++ (fraction r).2).
        { unfold fraction. destruct r as [|x r']; [done|]. case_bool_decide; [|done].
          pose proof (span_app is_decimal_digit r') as Hs'. destruct (span is_decimal_digit r') as [[|y d'] r'']; [done|]. by rewrite Hs'. }
        destruct (fraction r) as [f r']. cbn [fst snd] in Hf.
        destruct (drop_while_suffix is_space r') as [sp Hsp].
        destruct (match_unit (drop_while is_space r')) as [n|]; [|done]. injection Hm as <-. cbn [qm_rest].
        exists (d ++ f ++ sp ++ take n (drop_while is_space r')).
        by rewrite Hs, Hf, <- !app_assoc, take_drop, <- Hsp. }
      destruct Hrest as [matched Hs]. exists matched. split_and!; [by rewrite <- Hs|by rewrite <- Hs|].
      intros a b E Hb. symmetry in E. by apply app_eq_nil in E as [_ ->].
    + destruct (search_quantity s) as [[before m]|]; cbn.
      * destruct IH as (matched & -> & Hh & Hn). exists matched. split_and!; [done|done|].
        intros [|x a] b E Hb; cbn in E; [by subst b|]. injection E as -> ->. by eapply Hn.
      * intros [|x a] b E; cbn in E; [by subst b|]. injection E as -> ->. by eapply IH.
Qed.

(** The unit words with an apostrophe, and the abbreviations without a quote, have no unit. *)
Lemma short_units_unread u : casefold u = u -> u ∈ [HE_UNIT; HE_KG []; HE_ML []] -> unit_of (raw_unit u) = None.
Proof.
  intros Hc Hu. unfold raw_unit. rewrite Hc.
  repeat (apply elem_of_cons in Hu as [->|Hu]; [vm_compute; reflexivity|]). by apply elem_of_nil in Hu.
Qed.

(** What a quantity in a text is read as. *)
Definition read_quantity (value : pystr) (q : NormalizedQuantity) : Prop :=
  exists before m factor amount, search_quantity (nfkc value) = Some (before, m) /\
    decimal_literal (number_source (qm_number m)) = Some amount /\ is_finite amount = true /\ dec_ltb amount dec_zero = false /\
    unit_of (raw_unit (qm_unit m)) = Some (factor, nq_unit q) /\
    (factor = 1 /\ nq_amount q = amount \/ factor = 1000 /\ dec_mul amount (Finite false 1000 0) = Some (nq_amount q)).

Ltac refuse := solve [split; [done|by left] | split; [done|by right]].
Lemma wp_parse_decimal_text v w :
  wp (parse_decimal (Some v) true) (fun r w' => w' = w /\ exists d, r = Some d /\
      decimal_literal (number_source v) = Some d /\ is_finite d = true /\ dec_ltb d dec_zero = false)
    (fun e w' => w' = w /\ value_error e) w.
Proof.
  unfold parse_decimal. destruct (negb (is_blank (Some v))); [|wp_step; wp_step; [refuse|done]].
  destruct (decimal_literal _) as [d|] eqn:Ed; [|wp_step; refuse].
  wp_step. wp_step; [refuse|]. wp_step. wp_step; [refuse|]. wp_step.
  assert (Habs : wp (context_abs d) (fun _ w' => w' = w) (fun e w' => w' = w /\ value_error e) w).
  { unfold context_abs. destruct d as [n c e| |]; [|by wp_step..]. wp_step. wp_step; [refuse|]. by wp_step. }
  eapply wp_mono; [exact Habs|..]; cbv beta; [|done]. intros a w' ->. wp_step. wp_step; [refuse|]. wp_step.
  split; [done|]. exists d. split_and!; [done|done| |done]. by apply negb_false_iff.
Qed.

Lemma unit_of_factor u factor name : unit_of u = Some (factor, name) ->
  (factor = 1 \/ factor = 1000) /\ name ∈ ["g"; "ml"; "each"; "m"]%string.
Proof. unfold unit_of. repeat (case_bool_decide; [intros [= <- <-]; split; [auto|set_solver]|]). done. Qed.

Lemma parse_quantity_wp value w :
  wp (parse_quantity_text value)
    (fun r w' => w' = w /\ forall q, r = Some q -> read_quantity value q) (fun e w' => w' = w /\ value_error e) w.
Proof.
  unfold parse_quantity_text. destruct (search_quantity (nfkc value)) as [[before m]|] eqn:Es; [|by wp_step].
  wp_step. eapply wp_mono; [apply wp_parse_decimal_text|..]; cbv beta; [|done].
  intros r w' (-> & d & -> & Hd & Hfin & Hpos).
  destruct (unit_of (raw_unit (qm_unit m))) as [[factor u]|] eqn:Eu; [|by wp_step].
  assert (Hf : factor = 1 \/ factor = 1000) by by apply unit_of_factor in Eu as [? _].
  wp_step. unfold scale_amount. destruct Hf as [-> | ->]; cbn [Z.eqb Pos.eqb].
  - wp_step. wp_step. split; [done|]. intros q [= <-]. exists before, m, 1, d. split_and!; auto.
  - change (Z.to_N 1000) with 1000%N. destruct (dec_mul d (Finite false 1000 0)) as [x|] eqn:Ex; [|wp_step; refuse].
    wp_step. wp_step. split; [done|]. intros q [= <-]. exists before, m, 1000, d. split_and!; auto.
Qed.
End facts.
