(* ===== verification/Rebuild.v ===== *)
(** Normalized rebuilds: [src/src/makolet/adapters/persistence/maintenance.py].

    The statements on the derived tables read rows through [to_jsonb] and write their ids, so a
    row is here its JSON object: a map from column names to JSON values in which an id or a
    timestamp is a number.  [DerivedTables] is how the rows are read from and written to the
    state that holds them.  The lifecycle tables are those of [Database.v]; the tables of a
    rebuild's own are [RebuildTables]. *)
From stdpp Require Import sorting.
From S2P Require Import Prelude Errors Effects Enums PyNumbers Models AppModels Ports Database SourceFiles.

(** JSON values, as [json] reads and writes them and as [to_jsonb] shows the rows of a table. *)
Inductive json :=
  | JNull
  | JBool (b : bool)
  | JInt (n : Z)
  | JFloat (f : float64)
  | JString (s : pystr)
  | JArray (l : list json)
  | JObject (fields : list (pystr * json)).

#[export] Instance float64_eq_dec : EqDecision float64.
Proof. solve_decision. Defined.

Definition field_eq_dec (D : forall x y : json, {x = y} + {x <> y}) (a b : pystr * json) : {a = b} + {a <> b}.
Proof. destruct a as [k x], b as [l y]. destruct (decide (k = l)), (D x y); solve [left; congruence|right; congruence]. Defined.

Fixpoint json_dec (x y : json) {struct x} : {x = y} + {x <> y}.
Proof.
  destruct x as [|b|n|f|s|l|l], y as [|b'|n'|f'|s'|l'|l']; try (right; discriminate).
  - by left.
  - destruct (decide (b = b')); [left; congruence|right; congruence].
  - destruct (decide (n = n')); [left; congruence|right; congruence].
  - destruct (decide (f = f')); [left; congruence|right; congruence].
  - destruct (decide (s = s')); [left; congruence|right; congruence].
  - destruct (List.list_eq_dec json_dec l l'); [left; congruence|right; congruence].
  - destruct (List.list_eq_dec (field_eq_dec json_dec) l l'); [left; congruence|right; congruence].
Defined.
#[export] Instance json_eq_dec : EqDecision json := json_dec.

Example json_dec_runs :
  bool_decide (JObject [(py "a", JArray [JInt 1])] = JObject [(py "a", JArray [JInt 1])]) = true /\
  bool_decide (JObject [(py "a", JArray [JInt 1])] = JObject [(py "a", JArray [JInt 2])]) = false.
Proof. vm_compute. done. Qed.

(** ** Rows *)

Abbreviation row := (gmap string json).

Class DerivedTables (D : Type) := {
  table : string -> D -> list row;
  put_table : string -> list row -> D -> D
}.
Class DerivedTablesOk (D : Type) `{!DerivedTables D} : Prop := {
  table_put : forall n l d, table n (put_table n l d) = l;
  table_put_other : forall n m l d, n <> m -> table n (put_table m l d) = table n d
}.

(** A column that holds an id or a timestamp; anything else is [NULL]. *)
Definition number (c : string) (r : row) : option Z :=
  match r !! c with Some (JInt n) => Some n | _ => None end.
(** [row ->> 'id']. *)
Definition row_id (r : row) : option Z := number "id" r.
(** [payload - ARRAY[...]]. *)
Definition without (fields : list string) (r : row) : row := foldr delete r fields.

(** [normalized_rebuild_files]: [nf_pending] says that [status] is ['pending']. *)
Record RebuildFile := {
  nf_source : uuid;
  nf_archived_at : datetime;
  nf_original_applied : option Z;
  nf_original_version : option pystr;
  nf_effective : Z;
  nf_pending : bool
}.

(** [normalized_rebuild_snapshots], of the phase ['original'] and of the phase ['rebuilt']; the
    key is the run, the entity and the ids that make the [row_key]. *)
Inductive snapshot_outcome := Preserved | Superseded.
Record Snapshot := { sn_payload : row; sn_outcome : option snapshot_outcome }.
Abbreviation snapshots := (gmap (uuid * string * list (option Z)) Snapshot).

Record RebuildTables := {
  nf_rows : gmap (uuid * Z) RebuildFile;
  original_snapshots : snapshots;
  rebuilt_snapshots : snapshots
}.
Definition no_rebuilds : RebuildTables :=
  {| nf_rows := ∅; original_snapshots := ∅; rebuilt_snapshots := ∅ |}.

Definition invalid_state : exn := MakoletExn InvalidStateTransitionError 0.
(** A violated constraint: [sqlalchemy.exc.IntegrityError]. *)
Definition integrity_error : exn := PyExn OtherException.

(** [ORDER BY] of two columns that hold numbers. *)
Definition pair_key_leb (a b : Z * Z) : bool := (a.1 <? b.1) || ((a.1 =? b.1) && (a.2 <=? b.2)).
Definition key_le {A} (key : A -> Z * Z) (a b : A) : Prop := pair_key_leb (key a) (key b) = true.
#[export] Instance key_le_dec {A} (key : A -> Z * Z) : RelDecision (key_le key).
Proof. intros a b. unfold key_le. apply _. Defined.
Definition order_by {A} (key : A -> Z * Z) : list A -> list A := merge_sort (key_le key).

(** [COALESCE]. *)
Definition coalesce (l : list (option Z)) : option Z := head (omap id l).

Definition MAXIMUM_ARCHIVE_PAGE_SIZE : Z := 200.
Definition bounded_limit {W} (limit : Z) : M W nat :=
  raise_if ((limit <=? 0) || (MAXIMUM_ARCHIVE_PAGE_SIZE <? limit)) (MakoletExn QueryLimitError 0);;
  mret (Z.to_nat limit).

(** ** The tables of a rebuild *)

(** [_DERIVED_RESET_TABLES], [_SNAPSHOT_ENTITIES] with the columns of their row keys. *)
Definition DERIVED_RESET_TABLES : list string :=
  ["promotion_clubs"; "promotion_stores"; "promotion_items"; "promotions"; "price_history";
   "current_prices"; "availability_history"; "current_availability";
   "retailer_identifier_assertions"; "staged_promotion_clubs"; "staged_promotion_stores";
   "staged_promotion_items"; "staged_promotions"; "staged_prices"; "staged_stores";
   "staged_documents"; "applied_source_contents"; "source_scope_watermarks"]%string.
Definition SNAPSHOT_ENTITIES : list (string * list string) :=
  [("stores", ["id"]); ("store_aliases", ["id"]); ("retailer_items", ["id"]);
   ("canonical_products", ["id"]); ("product_identifiers", ["id"]);
   ("identifier_match_groups", ["id"]); ("retailer_identifier_assertions", ["id"]);
   ("product_match_candidates", ["id"]); ("confirmed_product_matches", ["id"]);
   ("current_prices", ["id"]); ("price_history", ["id"]); ("current_availability", ["id"]);
   ("availability_history", ["id"]); ("promotions", ["id"]);
   ("promotion_items", ["promotion_id"; "retailer_item_id"]);
   ("promotion_stores", ["promotion_id"; "store_id"]);
   ("promotion_clubs", ["promotion_id"; "club_id"]);
   ("applied_source_contents", ["id"]); ("source_scope_watermarks", ["id"])]%string.
Definition EXACT_ID_ENTITIES : list string :=
  ["product_identifiers"; "retailer_identifier_assertions"; "confirmed_product_matches";
   "applied_source_contents"]%string.
Definition OBSERVATION_ID_FIELDS : list (string * list string) :=
  [("current_prices", ["id"; "source_file_id"; "last_observed_at"]);
   ("price_history", ["id"; "valid_to"]);
   ("current_availability", ["id"; "source_file_id"; "last_observed_at"]);
   ("availability_history", ["id"; "valid_to"])]%string.
Definition PROMOTION_ID_FIELDS : list string := ["id"; "source_file_id"; "valid_to"; "last_observed_at"]%string.
Definition SYSTEM_EXACT_ACTORS : list pystr := map py ["system:exact-gtin"; "system:exact-gtin-evidence"]%string.
Definition DERIVED_IDENTIFIER_METHODS : list pystr :=
  map py ["retailer_assertion"; "independent_retailer_corroboration"]%string.

Section tables.
Context {D : Type} `{!DerivedTables D}.

(** [_TRUNCATE_DERIVED_STATE]. *)
Definition truncate_derived (d : D) : D := foldr (fun n => put_table n []) d DERIVED_RESET_TABLES.

(** [DELETE FROM n WHERE column = ANY(values)]. *)
Definition delete_where (n column : string) (values : list pystr) (d : D) : D :=
  put_table n (List.filter (fun r => match r !! column with
                                | Some (JString s) => negb (bool_decide (s ∈ values))
                                | _ => true
                                end) (table n d)) d.

(** [_capture_snapshots]. *)
Definition capture_entity (run : uuid) (entity : string) (columns : list string) (rows : list row)
    (s : snapshots) : snapshots :=
  foldl (fun s r => <[ (run, entity, map (fun c => number c r) columns) :=
                       {| sn_payload := r; sn_outcome := None |} ]> s) s rows.
Definition capture_snapshots (run : uuid) (d : D) (s : snapshots) : snapshots :=
  foldl (fun s '(entity, columns) => capture_entity run entity columns (table entity d) s) s SNAPSHOT_ENTITIES.

(** The snapshot rows of a run and entity, and of a run. *)
Definition snapshots_of (run : uuid) (entity : string) (s : snapshots) : list row :=
  omap (fun '(k, v) => if bool_decide (k.1 = (run, entity)) then Some (sn_payload v) else None) (map_to_list s).
Definition delete_snapshots (run : uuid) (s : snapshots) : snapshots := filter (fun p => p.1.1.1 <> run) s.

(** [SELECT value FROM l EXCEPT ALL SELECT value FROM k]. *)
Fixpoint remove_one (x : row) (l : list row) : list row :=
  match l with
  | [] => []
  | y :: l => if bool_decide (x = y) then l else y :: remove_one x l
  end.
Definition except_all (l k : list row) : list row := foldr remove_one l k.
(** The two differences, [UNION ALL]. *)
Definition differs (l k : list row) : bool :=
  negb (bool_decide (except_all l k ++ except_all k l = [])).

(** [jsonb #- '{evidence,assertion_id}']. *)
Definition without_assertion (r : row) : row :=
  alter (fun v => match v with
                  | JObject fields => JObject (List.filter (fun f => negb (bool_decide (f.1 = py "assertion_id"))) fields)
                  | _ => v
                  end) "evidence" r.
(** What [_assert_replayed_logical_equivalence] compares of a row. *)
Definition logical_row (entity : string) (r : row) : row :=
  if bool_decide (entity = "confirmed_product_matches"%string) then without_assertion (without ["id"%string] r)
  else if bool_decide (entity = "source_scope_watermarks"%string) then without ["id"; "updated_at"]%string r
  else without ["id"%string] r.
Definition SKIPPED_RELATIONS : list string := ["promotion_items"; "promotion_stores"; "promotion_clubs"]%string.
Definition logically_equivalent (run : uuid) (t : RebuildTables) : bool :=
  forallb (fun '(entity, _) =>
    bool_decide (entity ∈ SKIPPED_RELATIONS) ||
    negb (differs (map (logical_row entity) (snapshots_of run entity (original_snapshots t)))
                  (map (logical_row entity) (snapshots_of run entity (rebuilt_snapshots t))))) SNAPSHOT_ENTITIES.

(** [_assert_exact_snapshot_equivalence]. *)
Definition exactly_equivalent (run : uuid) (t : RebuildTables) (d : D) : bool :=
  forallb (fun '(entity, _) =>
    negb (differs (snapshots_of run entity (original_snapshots t)) (table entity d))) SNAPSHOT_ENTITIES.

(** [_record_snapshot_outcomes]. *)
Definition record_outcomes (run : uuid) (d : D) (s : snapshots) : snapshots :=
  map_imap (fun k v => Some (if bool_decide (k.1.1 = run)
    then {| sn_payload := sn_payload v;
            sn_outcome := Some (if bool_decide (sn_payload v ∈ table k.1.2 d) then Preserved else Superseded) |}
    else v)) s.

(** [_rebuild_materially_changes_state]. *)
Definition files_of (run : uuid) (t : RebuildTables) : list (Z * RebuildFile) :=
  omap (fun '(k, f) => if bool_decide (k.1 = run) then Some (k.2, f) else None) (map_to_list (nf_rows t)).
Definition materially_changes (run : uuid) (version : pystr) (t : RebuildTables) : bool * bool :=
  (existsb (fun '(_, f) => bool_decide (nf_original_applied f <> None)
                           && bool_decide (nf_original_version f <> Some version)) (files_of run t),
   existsb (fun '(_, f) => bool_decide (nf_original_applied f = None)) (files_of run t)).

(** ** Stable ids *)

(** The snapshots with the fields of [live], by [row_key]; the first is the candidate. *)
Definition id_key (r : row) : Z * Z := (default 0 (row_id r), 0).
Definition matching (ignored : list string) (originals : list row) (live : row) : list row :=
  order_by id_key (List.filter (fun s => bool_decide (without ignored s = without ignored live)) originals).

(** [UPDATE ... SET id]: the ids of a table are unique. *)
Definition ids_unique (l : list row) : bool := bool_decide (NoDup (map row_id l)).
Definition set_id (i : option Z) (r : row) : row :=
  match i with Some i => <[ "id"%string := JInt i ]> r | None => r end.
Definition occupied (i : option Z) (l : list row) : bool := existsb (fun r => bool_decide (row_id r = i)) l.

(** [_reuse_ids_by_payload], on the rows of one entity. *)
Definition reuse_id (ignored : list string) (originals live : list row) (r : row) : row :=
  match head (List.filter (fun s => negb (bool_decide (row_id r = row_id s))) (matching ignored originals r)) with
  | Some s => if occupied (row_id s) live then r else set_id (row_id s) r
  | None => r
  end.
Definition update_rows (n : string) (f : row -> row) : M D unit :=
  d ← get_state;
  let l := map f (table n d) in
  raise_if (negb (ids_unique l)) integrity_error;;
  put_state (put_table n l d).
Definition reuse_ids_by_payload (run : uuid) (entity : string) (ignored : list string) (s : snapshots) : M D unit :=
  d ← get_state;
  update_rows entity (reuse_id ignored (snapshots_of run entity s) (table entity d)).

(** [_normalize_confirmed_assertion_evidence]. *)
Definition set_assertion (i : Z) (r : row) : row :=
  alter (fun v => match v with
                  | JObject fields => JObject (map (fun f => if bool_decide (f.1 = py "assertion_id") then (f.1, JInt i) else f) fields)
                  | _ => v
                  end) "evidence" r.
Definition has_assertion (r : row) : bool :=
  match r !! "evidence"%string with
  | Some (JObject fields) => existsb (fun f => bool_decide (f.1 = py "assertion_id")) fields
  | _ => false
  end.
Definition string_in (column : string) (values : list pystr) (r : row) : bool :=
  match r !! column with Some (JString s) => bool_decide (s ∈ values) | _ => false end.
Definition is_null (column : string) (r : row) : bool :=
  match r !! column with None | Some JNull => true | _ => false end.
Definition normalize_evidence (assertions : list row) (r : row) : row :=
  if string_in "confirmed_by" SYSTEM_EXACT_ACTORS r && has_assertion r then
    match find (fun a => bool_decide (number "retailer_item_id" a = number "retailer_item_id" r)
                         && negb (is_null "retailer_item_id" a) && string_in "kind" [py "gtin"] a
                         && is_null "superseded_at" a) assertions with
    | Some a => match row_id a with Some i => set_assertion i r | None => r end
    | None => r
    end
  else r.
Definition normalize_confirmed_assertion_evidence : M D unit :=
  modify (fun d => put_table "confirmed_product_matches"
    (map (normalize_evidence (table "retailer_identifier_assertions" d)) (table "confirmed_product_matches" d)) d).

(** [_reuse_watermark_ids]. *)
Definition reuse_watermark (originals live : list row) (r : row) : row :=
  match head (matching ["id"; "updated_at"]%string originals r) with
  | Some s =>
      if bool_decide (row_id r = row_id s) || negb (occupied (row_id s) live)
      then set_id (row_id s) (match s !! "updated_at"%string with
                              | Some v => <[ "updated_at"%string := v ]> r
                              | None => r
                              end)
      else r
  | None => r
  end.
Definition reuse_watermark_ids (run : uuid) (s : snapshots) : M D unit :=
  d ← get_state;
  update_rows "source_scope_watermarks"
    (reuse_watermark (snapshots_of run "source_scope_watermarks" s) (table "source_scope_watermarks" d)).

(** [_reuse_promotion_ids_and_relations]: [desired] is [makolet_rebuild_promotion_id_map]. *)
Definition desired_id (originals : list row) (p : row) : option Z :=
  match head (matching PROMOTION_ID_FIELDS originals p) with Some s => row_id s | None => row_id p end.
Definition reuse_relation (promotions originals : list row) (r : row) : option row :=
  p ← find (fun p => bool_decide (row_id p = number "promotion_id" r)) promotions;
  Some (match desired_id originals p with Some i => <[ "promotion_id"%string := JInt i ]> r | None => r end).
Definition relation_keys (columns : list string) (l : list row) : bool :=
  bool_decide (NoDup (map (fun r => map (fun c => number c r) columns) l)).
Definition rewrite_relation (columns : list string) (n : string) (promotions originals : list row) : M D unit :=
  d ← get_state;
  let l := omap (reuse_relation promotions originals) (table n d) in
  raise_if (negb (relation_keys columns l)) integrity_error;;
  put_state (put_table n l d).
Definition reuse_promotion_ids_and_relations (run : uuid) (s : snapshots) : M D unit :=
  d ← get_state;
  let promotions := table "promotions" d in
  let originals := snapshots_of run "promotions" s in
  update_rows "promotions" (fun p => set_id (desired_id originals p) p);;
  rewrite_relation ["promotion_id"; "retailer_item_id"]%string "promotion_items" promotions originals;;
  rewrite_relation ["promotion_id"; "store_id"]%string "promotion_stores" promotions originals;;
  rewrite_relation ["promotion_id"; "club_id"]%string "promotion_clubs" promotions originals.

(** [_reconcile_stable_rebuild_ids]. *)
Fixpoint for_each {A W} (f : A -> M W unit) (l : list A) : M W unit :=
  match l with [] => mret tt | x :: l => f x;; for_each f l end.
Definition reconcile_stable_rebuild_ids (run : uuid) (s : snapshots) : M D unit :=
  reuse_ids_by_payload run "retailer_identifier_assertions" ["id"%string] s;;
  normalize_confirmed_assertion_evidence;;
  for_each (fun entity => if bool_decide (entity = "retailer_identifier_assertions"%string) then mret tt
                          else reuse_ids_by_payload run entity ["id"%string] s) EXACT_ID_ENTITIES;;
  for_each (fun '(entity, ignored) => reuse_ids_by_payload run entity ignored s) OBSERVATION_ID_FIELDS;;
  reuse_watermark_ids run s;;
  reuse_promotion_ids_and_relations run s.
End tables.

(** ** The repository *)

(** [ArchivedSourceFile] and [ArchivedSourceFilePage]. *)
Record ArchivedSourceFile := { as_source_file_id : uuid; as_archived_at : datetime }.
#[export] Instance ArchivedSourceFile_eq_dec : EqDecision ArchivedSourceFile.
Proof. solve_decision. Defined.
Record ArchivedSourceFilePage := { ap_files : list ArchivedSourceFile; ap_next_cursor : option pystr }.

(** [str(UUID)] and [UUID(text)] of 128-bit ids. *)
Class UuidText := { uuid_str : uuid -> pystr; uuid_of : pystr -> option uuid }.
Definition valid_uuid (u : uuid) : Prop := 0 <= u < 2 ^ 128.
Class UuidTextOk `{!UuidText} : Prop := {
  uuid_of_str : forall u, valid_uuid u -> uuid_of (uuid_str u) = Some u;
  uuid_str_length : forall u, valid_uuid u -> py_len (uuid_str u) = 36;
  uuid_str_chars : forall u, valid_uuid u -> Forall (fun c => 45 <= c <= 102) (uuid_str u)
}.

Definition set_control (active : option uuid) (d : Db) : Db := {| portals := portals d;
  sources := sources d; runs := runs d; events := events d; archives := archives d;
  replays := replays d; active_rebuild := active; rebuild_runs := rebuild_runs d;
  clock := clock d; next_id := next_id d |}.
Definition set_rebuild_runs f (d : Db) : Db := {| portals := portals d;
  sources := sources d; runs := runs d; events := events d; archives := archives d;
  replays := replays d; active_rebuild := active_rebuild d; rebuild_runs := f (rebuild_runs d);
  clock := clock d; next_id := next_id d |}.

(** The columns an [UPDATE normalized_rebuild_runs] writes. *)
Definition run_status_set (s : RebuildStatus) (finished : option Z) (code : option string) (r : RebuildRun) : RebuildRun :=
  {| nr_status := s; nr_requested_by := nr_requested_by r; nr_parser_version := nr_parser_version r;
     nr_archive_cutoff := nr_archive_cutoff r; nr_total := nr_total r; nr_completed := nr_completed r;
     nr_last_sequence := nr_last_sequence r; nr_last_source := nr_last_source r;
     nr_last_archived_at := nr_last_archived_at r; nr_finished_at := finished; nr_error_code := code |}.
Definition run_total_set (n : Z) (r : RebuildRun) : RebuildRun :=
  {| nr_status := nr_status r; nr_requested_by := nr_requested_by r; nr_parser_version := nr_parser_version r;
     nr_archive_cutoff := nr_archive_cutoff r; nr_total := n; nr_completed := nr_completed r;
     nr_last_sequence := nr_last_sequence r; nr_last_source := nr_last_source r;
     nr_last_archived_at := nr_last_archived_at r; nr_finished_at := nr_finished_at r;
     nr_error_code := nr_error_code r |}.
Definition run_checkpointed (sequence : Z) (f : ArchivedSourceFile) (r : RebuildRun) : RebuildRun :=
  {| nr_status := nr_status r; nr_requested_by := nr_requested_by r; nr_parser_version := nr_parser_version r;
     nr_archive_cutoff := nr_archive_cutoff r; nr_total := nr_total r; nr_completed := nr_completed r + 1;
     nr_last_sequence := Some sequence; nr_last_source := Some (as_source_file_id f);
     nr_last_archived_at := Some (as_archived_at f); nr_finished_at := nr_finished_at r;
     nr_error_code := nr_error_code r |}.
(** [source_file_counts_valid]. *)
Definition counts_valid (r : RebuildRun) : bool :=
  (0 <=? nr_total r) && (0 <=? nr_completed r) && (nr_completed r <=? nr_total r).

Definition file_done (f : RebuildFile) : RebuildFile :=
  {| nf_source := nf_source f; nf_archived_at := nf_archived_at f;
     nf_original_applied := nf_original_applied f; nf_original_version := nf_original_version f;
     nf_effective := nf_effective f; nf_pending := false |}.
Definition archived_file (f : RebuildFile) : ArchivedSourceFile :=
  {| as_source_file_id := nf_source f; as_archived_at := nf_archived_at f |}.
Definition set_files (m : gmap (uuid * Z) RebuildFile) (t : RebuildTables) : RebuildTables :=
  {| nf_rows := m; original_snapshots := original_snapshots t; rebuilt_snapshots := rebuilt_snapshots t |}.
Definition set_snapshots (o r : snapshots) (t : RebuildTables) : RebuildTables :=
  {| nf_rows := nf_rows t; original_snapshots := o; rebuilt_snapshots := r |}.

(** The pending files of a run, [ORDER BY sequence]. *)
Definition pending_files (run : uuid) (t : RebuildTables) : list (Z * ArchivedSourceFile) :=
  map (fun p => (p.1, archived_file p.2))
    (order_by (fun p => (p.1, 0)) (List.filter (fun p => nf_pending p.2) (files_of run t))).

Section repository.
Context {D X : Type} `{!DerivedTables D} `{!UuidText}.
Abbreviation T := (Db * (D * RebuildTables))%type.
Abbreviation World := (Session_state * (D * (RebuildTables * X)))%type.

(** [self._engine.begin()], and reading on [self._engine.connect()]. *)
Definition rebuild_transaction {A} (m : M T A) : M World A := fun '(s, (x, (t, y))) =>
  let '(r, (d, (x', t'))) := transaction m (db s, (x, t)) in (r, (with_db d s, (x', (t', y)))).

(** Reading and writing the parts of the state. *)
Definition on_rebuild_db (f : Db -> Db) : M T unit := modify (fun w => (f w.1, w.2)).
Definition on_rebuild_tables (f : RebuildTables -> RebuildTables) : M T unit :=
  modify (fun w => (w.1, (w.2.1, f w.2.2))).
Definition on_derived {A} (m : M D A) : M T A := fun '(d, (x, t)) =>
  let '(r, x') := m x in (r, (d, (x', t))).

(** [_lock_control], [_lock_rebuild_run]. *)
Definition lock_control : M T (option uuid) := gets (fun w => active_rebuild w.1).
Definition lock_rebuild_run (run : uuid) : M T RebuildRun :=
  w ← get_state;
  match rebuild_runs w.1 !! run with
  | Some r => mret r
  | None => raise (MakoletExn NotFoundError 0)
  end.

(** [metadata_times] and the join with [applied_source_contents]. *)
Definition source_updated_at (sid : uuid) (x : D) : option Z :=
  foldr (fun r m => match (if bool_decide (number "source_file_id" r = Some sid) then number "source_updated_at" r else None), m with
                    | Some n, Some k => Some (Z.max n k)
                    | Some n, None => Some n
                    | None, m => m
                    end) None (table "staged_documents" x).
Definition applied_at (sid : uuid) (x : D) : option Z :=
  r ← find (fun r => bool_decide (number "source_file_id" r = Some sid)) (table "applied_source_contents" x);
  number "applied_at" r.

(** [eligible]. *)
Definition eligible_file (d : Db) (x : D) (cutoff : Z) (sid : uuid) (r : SourceRow) : option RebuildFile :=
  _ ← joined_archive d r;
  e ← src_evidence r;
  let finished := instant_of (de_finished_at e) in
  if (finished <=? cutoff) && bool_decide (src_status r ∈ [COMPLETED; ARCHIVED]) then
    effective ← coalesce [source_updated_at sid x; instant_of <$> rf_source_timestamp (src_remote r);
                          Some finished; Some (instant_of (rf_discovered_at (src_remote r)))];
    Some {| nf_source := sid; nf_archived_at := de_finished_at e; nf_original_applied := applied_at sid x;
            nf_original_version := src_parser_version r; nf_effective := effective; nf_pending := true |}
  else None.
Definition replay_key (f : RebuildFile) : Z * Z :=
  (default (nf_effective f) (nf_original_applied f), nf_source f).
Definition eligible_files (d : Db) (x : D) (cutoff : Z) : list RebuildFile :=
  order_by replay_key (omap (fun '(sid, r) => eligible_file d x cutoff sid r) (map_to_list (sources d))).
(** The [INSERT], numbered by [row_number()]. *)
Definition insert_files (run : uuid) (l : list RebuildFile) (m : gmap (uuid * Z) RebuildFile) : gmap (uuid * Z) RebuildFile :=
  list_to_map (imap (fun i f => ((run, Z.of_nat i + 1), f)) l) ∪ m.

(** [normalized_rebuild_runs] accepts the row. *)
Definition run_admitted (requested_by version : pystr) : bool :=
  str_truthy requested_by && (py_len requested_by <=? 128) && str_truthy version && (py_len version <=? 128).
Definition new_rebuild_run (requested_by version : pystr) (cutoff : Z) : RebuildRun :=
  {| nr_status := REBUILD_RUNNING; nr_requested_by := requested_by; nr_parser_version := version;
     nr_archive_cutoff := cutoff; nr_total := 0; nr_completed := 0; nr_last_sequence := None;
     nr_last_source := None; nr_last_archived_at := None; nr_finished_at := None; nr_error_code := None |}.

(** The answer, [_rebuild_run]: the id and the row. *)
Abbreviation NormalizedRebuildRun := (uuid * RebuildRun)%type.

Definition begin_rebuild (requested_by version : pystr) : M World NormalizedRebuildRun :=
  rebuild_transaction (
    active ← lock_control;
    raise_if (bool_decide (active <> None)) invalid_state;;
    raise_if (negb (run_admitted requested_by version)) integrity_error;;
    w ← get_state;
    let run := next_id w.1 in
    let cutoff := clock w.1 in
    let files := eligible_files w.1 w.2.1 cutoff in
    let r := run_total_set (py_len files) (new_rebuild_run requested_by version cutoff) in
    on_rebuild_db (fun d => set_control (Some run) (set_rebuild_runs (insert run r) (bump_id d)));;
    on_rebuild_tables (fun t => set_files (insert_files run files (nf_rows t)) t);;
    on_rebuild_tables (fun t => set_snapshots (capture_snapshots run w.2.1 (original_snapshots t)) (rebuilt_snapshots t) t);;
    on_derived (modify truncate_derived);;
    on_derived (modify (delete_where "confirmed_product_matches" "confirmed_by" SYSTEM_EXACT_ACTORS));;
    on_derived (modify (delete_where "product_identifiers" "validation_method" DERIVED_IDENTIFIER_METHODS));;
    mret (run, r)).

Definition set_run (run : uuid) (r : RebuildRun) : M T unit :=
  on_rebuild_db (set_rebuild_runs (insert run r)).

Definition resume_rebuild (run : uuid) : M World NormalizedRebuildRun :=
  rebuild_transaction (
    active ← lock_control;
    raise_if (negb (bool_decide (active = Some run))) invalid_state;;
    current ← lock_rebuild_run run;
    raise_if (bool_decide (nr_status current = REBUILD_COMPLETED)) invalid_state;;
    let r := run_status_set REBUILD_RUNNING None None current in
    set_run run r;;
    mret (run, r)).

Definition get_rebuild (run : uuid) : M World NormalizedRebuildRun :=
  rebuild_transaction (r ← lock_rebuild_run run; mret (run, r)).

Definition next_rebuild_files (run : uuid) (limit : Z) : M World (list (Z * ArchivedSourceFile)) :=
  n ← bounded_limit limit;
  rebuild_transaction (w ← get_state; mret (take n (pending_files run w.2.2))).

Definition complete_rebuild_file (run : uuid) (sequence : Z) (f : ArchivedSourceFile) : M World unit :=
  rebuild_transaction (
    r ← lock_rebuild_run run;
    raise_if (negb (bool_decide (nr_status r = REBUILD_RUNNING))) invalid_state;;
    raise_if (negb (sequence =? default 0 (nr_last_sequence r) + 1)) invalid_state;;
    w ← get_state;
    match nf_rows w.2.2 !! (run, sequence) with
    | Some row =>
        raise_if (negb (bool_decide (archived_file row = f) && nf_pending row)) invalid_state;;
        on_rebuild_tables (fun t => set_files (<[ (run, sequence) := file_done row ]> (nf_rows t)) t);;
        let r' := run_checkpointed sequence f r in
        raise_if (negb (counts_valid r')) integrity_error;;
        set_run run r'
    | None => raise invalid_state
    end).

Definition fail_rebuild (run : uuid) (code : string) : M World unit :=
  rebuild_transaction (
    w ← get_state;
    match rebuild_runs w.1 !! run with
    | Some r =>
        raise_if (bool_decide (nr_status r = REBUILD_COMPLETED)) invalid_state;;
        set_run run (run_status_set REBUILD_FAILED (nr_finished_at r) (Some code) r)
    | None => raise invalid_state
    end).

Definition finish_rebuild (run : uuid) : M World NormalizedRebuildRun :=
  rebuild_transaction (
    active ← lock_control;
    raise_if (negb (bool_decide (active = Some run))) invalid_state;;
    r ← lock_rebuild_run run;
    w ← get_state;
    raise_if (negb (bool_decide (pending_files run w.2.2 = [])) || negb (nr_completed r =? nr_total r)) invalid_state;;
    on_rebuild_tables (fun t => set_snapshots (original_snapshots t) (capture_snapshots run w.2.1 (rebuilt_snapshots t)) t);;
    captured ← get_state;
    let '(correction, archive_only) := materially_changes run (nr_parser_version r) captured.2.2 in
    let exact_equivalence_required := negb correction && negb archive_only in
    raise_if (exact_equivalence_required && negb (logically_equivalent run captured.2.2)) invalid_state;;
    on_derived (reconcile_stable_rebuild_ids run (original_snapshots captured.2.2));;
    reconciled ← get_state;
    (if exact_equivalence_required then
       raise_if (negb (exactly_equivalent run reconciled.2.2 reconciled.2.1)) invalid_state;;
       on_rebuild_tables (fun t => set_snapshots (delete_snapshots run (original_snapshots t))
                                                 (delete_snapshots run (rebuilt_snapshots t)) t)
     else
       on_rebuild_tables (fun t => set_snapshots (record_outcomes run reconciled.2.1 (original_snapshots t))
                                                 (delete_snapshots run (rebuilt_snapshots t)) t));;
    let r' := run_status_set REBUILD_COMPLETED (Some (clock reconciled.1)) None r in
    set_run run r';;
    on_rebuild_db (set_control None);;
    mret (run, r')).

(** [maintenance_status]: the active run and its row. *)
Definition maintenance_status : M World (option NormalizedRebuildRun) :=
  rebuild_transaction (
    w ← get_state;
    mret (run ← active_rebuild w.1; r ← rebuild_runs w.1 !! run; Some (run, r))).

(** [lock_rebuild]: entering and leaving. *)
Definition NORMALIZED_REBUILD_LOCK_KEY : Z := 5570743760429981012.
Definition lock_rebuild : M World bool :=
  w ← get_state;
  if bool_decide (NORMALIZED_REBUILD_LOCK_KEY ∈ held w.1) then mret false
  else
    put_state ({| db := db w.1; lock_stack := lock_stack w.1;
                  held := {[ NORMALIZED_REBUILD_LOCK_KEY ]} ∪ held w.1 |}, w.2);;
    mret true.
Definition unlock_rebuild : M World unit :=
  modify (fun w => ({| db := db w.1; lock_stack := lock_stack w.1;
                       held := held w.1 ∖ {[ NORMALIZED_REBUILD_LOCK_KEY ]} |}, w.2)).

(** ** Archive pages *)

(** [_uuid_cursor]. *)
Definition uuid_cursor {W} (cursor : option pystr) : M W (option uuid) :=
  match cursor with
  | None => mret None
  | Some c =>
      raise_if ((128 <? py_len c) || py_any (fun x => x <? 32) c) (MakoletExn DomainValidationError 0);;
      match uuid_of c with
      | Some u => mret (Some u)
      | None => raise (MakoletExn DomainValidationError 0)
      end
  end.

(** The archived files, with [(download_finished_at, id)]. *)
Definition archived_position (sid : uuid) (r : SourceRow) : option (datetime * uuid) :=
  match src_archive r, src_evidence r with
  | Some _, Some e => Some (de_finished_at e, sid)
  | _, _ => None
  end.
Definition position_key (p : datetime * uuid) : Z * Z := (instant_of p.1, p.2).
(** [(a, b) > (c, d)]. *)
Definition after (a b : Z * Z) : bool := negb (pair_key_leb a b).

Definition archived_files (d : Db) (since until : Z) : list (datetime * uuid) :=
  order_by position_key (List.filter (fun p => (since <=? instant_of p.1) && (instant_of p.1 <? until))
    (omap (fun '(sid, r) => archived_position sid r) (map_to_list (sources d)))).

Definition list_archived_files (since until : Z) (limit : Z) (cursor : option pystr) : M World ArchivedSourceFilePage :=
  bounded ← bounded_limit limit;
  cursor_id ← uuid_cursor cursor;
  rebuild_transaction (
    w ← get_state;
    let position := cid ← cursor_id; r ← sources w.1 !! cid; archived_position cid r in
    let rows := take (bounded + 1) (List.filter (fun p => match cursor_id, position with
                                                  | None, _ => true
                                                  | Some _, Some q => after (position_key p) (position_key q)
                                                  | Some _, None => false
                                                  end) (archived_files w.1 since until)) in
    let files := map (fun p => {| as_source_file_id := p.2; as_archived_at := p.1 |}) (take bounded rows) in
    mret {| ap_files := files;
            ap_next_cursor := if (bounded <? length rows)%nat
                              then uuid_str <$> (as_source_file_id <$> last files) else None |}).
End repository.
