(* ===== verification/RebuildFacts.v ===== *)
(** The state machine of a normalized rebuild: what its operations keep and when they fail. *)
From stdpp Require Import sorting.
From S2P Require Import Prelude Errors Effects Enums PyNumbers Models AppModels Ports Database SourceFiles Rebuild.

(** ** Sorting *)

#[export] Instance key_le_trans {A} (key : A -> Z * Z) : Transitive (key_le key).
Proof.
  intros a b c. unfold key_le, pair_key_leb. destruct (key a), (key b), (key c); simpl.
  rewrite !orb_true_iff, !andb_true_iff, !Z.ltb_lt, !Z.eqb_eq, !Z.leb_le. lia.
Qed.
#[export] Instance key_le_total {A} (key : A -> Z * Z) : Total (key_le key).
Proof.
  intros a b. unfold key_le, pair_key_leb. destruct (key a), (key b); simpl.
  rewrite !orb_true_iff, !andb_true_iff, !Z.ltb_lt, !Z.eqb_eq, !Z.leb_le. lia.
Qed.
Lemma key_le_antisym {A} (key : A -> Z * Z) a b : key_le key a b -> key_le key b a -> key a = key b.
Proof.
  unfold key_le, pair_key_leb. destruct (key a), (key b); simpl.
  rewrite !orb_true_iff, !andb_true_iff, !Z.ltb_lt, !Z.eqb_eq, !Z.leb_le. intros. f_equal; lia.
Qed.

Lemma order_by_permutation {A} (key : A -> Z * Z) l : order_by key l ≡ₚ l.
Proof. apply merge_sort_Permutation. Qed.
Lemma order_by_sorted {A} (key : A -> Z * Z) l : StronglySorted (key_le key) (order_by key l).
Proof. apply StronglySorted_merge_sort; apply _. Qed.

(** A sorted list with the same elements is the ordered list, when keys tell them apart. *)
Lemma order_by_unique {A} (key : A -> Z * Z) l k :
  (forall a b, a ∈ l -> b ∈ l -> key a = key b -> a = b) ->
  StronglySorted (key_le key) k -> k ≡ₚ l -> order_by key l = k.
Proof.
  intros Hkey Hk Hp. apply (StronglySorted_unique_strong (key_le key)); [|apply order_by_sorted|done|].
  - intros a b Ha Hb Hab Hba. apply Hkey; [by rewrite <- (order_by_permutation key l)|by rewrite <- Hp|].
    by apply key_le_antisym.
  - by rewrite order_by_permutation, Hp.
Qed.

Lemma seqZ_sorted m n : StronglySorted (key_le (fun i => (i, 0))) (seqZ m n).
Proof.
  unfold seqZ. generalize (Z.to_nat n). intros k. apply (StronglySorted_fmap _ le).
  - intros x y Hxy. unfold key_le, pair_key_leb. simpl.
    rewrite orb_true_iff, andb_true_iff, Z.ltb_lt, Z.eqb_eq. destruct (decide (x = y)); [right; split; [lia|done]|left; lia].
  - generalize 0%nat. induction k as [|k IH]; intros j; simpl; constructor; [apply IH|].
    apply Forall_forall. intros x Hx%elem_of_seq. lia.
Qed.

Lemma NoDup_omap_map_to_list `{Countable K} {A B} (f : K * A -> option B) (m : gmap K A) :
  (forall p q b, p ∈ map_to_list m -> q ∈ map_to_list m -> f p = Some b -> f q = Some b -> p = q) ->
  NoDup (omap f (map_to_list m)).
Proof.
  pose proof (NoDup_map_to_list m) as Hn. revert Hn. generalize (map_to_list m). intros l.
  induction 1 as [|p l Hp Hn IH]; intros Hf; [constructor|]. simpl.
  assert (Hl : NoDup (omap f l)). { apply IH. intros q r b Hq Hr. apply Hf; by right. }
  destruct (f p) as [b|] eqn:E; [|done]. constructor; [|done].
  intros (q & Hq & Hb)%list_elem_of_omap. apply Hp.
  by rewrite (Hf p q b ltac:(left) ltac:(by right) E Hb).
Qed.

(** ** The pending files *)

Lemma elem_of_files_of run t i f : (i, f) ∈ files_of run t <-> nf_rows t !! (run, i) = Some f.
Proof.
  unfold files_of. rewrite list_elem_of_omap. split.
  - intros ([[r j] g] & Hin & Hg). apply elem_of_map_to_list in Hin. simpl in Hg.
    case_bool_decide; [|done]. by simplify_eq.
  - intros Hf. exists ((run, i), f). rewrite elem_of_map_to_list. split; [done|].
    by rewrite bool_decide_eq_true_2.
Qed.

Lemma NoDup_files_of run t : NoDup (files_of run t).
Proof.
  apply NoDup_omap_map_to_list. intros [[r i] f] [[r' j] g] [k h] _ _. simpl.
  repeat case_bool_decide; try done. intros. by simplify_eq.
Qed.

(** A rebuild whose [completed] first files of [total] are done: its rows, and [file i] is the
    archived file with sequence number [i]. *)
Record files_laid_out (run : uuid) (completed total : Z) (t : RebuildTables) (file : Z -> ArchivedSourceFile) : Prop := {
  fl_bounds : 0 <= completed <= total;
  fl_rows : forall i, 1 <= i <= total -> exists f, nf_rows t !! (run, i) = Some f /\
    archived_file f = file i /\ nf_pending f = (completed <? i);
  fl_only : forall i f, nf_rows t !! (run, i) = Some f -> 1 <= i <= total
}.
Arguments fl_bounds {run completed total t file} _.
Arguments fl_rows {run completed total t file} _ _ _.
Arguments fl_only {run completed total t file} _ _ _ _.

Definition files_from (completed total : Z) (file : Z -> ArchivedSourceFile) : list (Z * ArchivedSourceFile) :=
  map (fun i => (i, file i)) (seqZ (completed + 1) (total - completed)).

Lemma files_from_cons completed total file : completed < total ->
  files_from completed total file = (completed + 1, file (completed + 1)) :: files_from (completed + 1) total file.
Proof.
  intros. unfold files_from. rewrite seqZ_cons by lia. simpl.
  by replace (Z.pred (total - completed)) with (total - (completed + 1)) by lia.
Qed.
Lemma files_from_nil completed total file : completed = total -> files_from completed total file = [].
Proof. intros ->. unfold files_from. by rewrite Z.sub_diag. Qed.
Lemma files_from_length completed total file : completed <= total ->
  py_len (files_from completed total file) = total - completed.
Proof. intros. unfold files_from, py_len. rewrite length_map, length_seqZ. lia. Qed.

Lemma pending_files_laid_out run completed total t file :
  files_laid_out run completed total t file -> pending_files run t = files_from completed total file.
Proof.
  intros Hl. unfold pending_files.
  set (row i := default {| nf_source := 0; nf_archived_at := Naive 0; nf_original_applied := None;
    nf_original_version := None; nf_effective := 0; nf_pending := false |} (nf_rows t !! (run, i))).
  assert (Hrow : forall i, 1 <= i <= total -> nf_rows t !! (run, i) = Some (row i) /\ archived_file (row i) = file i
    /\ nf_pending (row i) = (completed <? i)).
  { intros i Hi. destruct (fl_rows Hl i Hi) as (f & Hf & ? & ?). unfold row. by rewrite Hf. }
  rewrite (order_by_unique _ _ (map (fun i => (i, row i)) (seqZ (completed + 1) (total - completed)))).
  - unfold files_from. rewrite map_map. apply map_ext_in. intros i Hi%list_elem_of_In%elem_of_seqZ. simpl.
    pose proof (fl_bounds Hl). by rewrite (proj1 (proj2 (Hrow i ltac:(lia)))).
  - intros [i f] [j g] Hi Hj [= ->]. apply list_elem_of_In, List.filter_In in Hi as [Hi _].
    apply list_elem_of_In, List.filter_In in Hj as [Hj _].
    apply list_elem_of_In, elem_of_files_of in Hi. apply list_elem_of_In, elem_of_files_of in Hj. congruence.
  - apply (StronglySorted_fmap _ (key_le (fun i => (i, 0)))); [done|apply seqZ_sorted].
  - apply NoDup_Permutation.
    + apply NoDup_fmap_2; [by intros ? ? [=]|apply NoDup_seqZ].
    + by apply NoDup_ListNoDup, List.NoDup_filter, NoDup_ListNoDup, NoDup_files_of.
    + intros [i f]. rewrite list_elem_of_fmap.
      rewrite list_elem_of_In, List.filter_In, <- list_elem_of_In, elem_of_files_of. simpl.
      pose proof (fl_bounds Hl). split.
      * intros (j & [= -> ->] & Hj%elem_of_seqZ). destruct (Hrow j ltac:(lia)) as (? & _ & ->).
        split; [done|]. apply Z.ltb_lt. lia.
      * intros [Hf Hp]. pose proof (fl_only Hl i f Hf) as Hi. destruct (Hrow i Hi) as (Hf' & _ & Hp').
        exists i. assert (f = row i) as -> by congruence. split; [done|]. apply elem_of_seqZ.
        rewrite Hp' in Hp. apply Z.ltb_lt in Hp. lia.
Qed.

(** Checkpointing the first pending file. *)
Lemma laid_out_next run completed total t file f :
  files_laid_out run completed total t file -> completed < total -> nf_rows t !! (run, completed + 1) = Some f ->
  files_laid_out run (completed + 1) total (set_files (<[ (run, completed + 1) := file_done f ]> (nf_rows t)) t) file.
Proof.
  intros Hl Hc Hf. pose proof (fl_bounds Hl). split; [lia|..]; cbn [set_files nf_rows].
  - intros i Hi. destruct (fl_rows Hl i Hi) as (g & Hg & Ha & Hp).
    destruct (decide (i = completed + 1)) as [->|Hne].
    + exists (file_done f). rewrite lookup_insert_eq. assert (g = f) as -> by congruence.
      split_and!; [done|done|]. symmetry. apply Z.ltb_ge. lia.
    + exists g. rewrite lookup_insert_ne by congruence. split_and!; [done|done|]. rewrite Hp.
      destruct (Z.ltb_spec completed i), (Z.ltb_spec (completed + 1) i); lia || done.
  - intros i g. destruct (decide (i = completed + 1)) as [->|Hne]; [lia|].
    rewrite lookup_insert_ne by congruence. apply (fl_only Hl).
Qed.

(** Other runs' rows do not matter. *)
Lemma laid_out_other run completed total t t' file :
  (forall i, nf_rows t' !! (run, i) = nf_rows t !! (run, i)) ->
  files_laid_out run completed total t file -> files_laid_out run completed total t' file.
Proof.
  intros Ht Hl. split; [apply (fl_bounds Hl)|..].
  - intros i. rewrite Ht. apply (fl_rows Hl).
  - intros i f. rewrite Ht. apply (fl_only Hl).
Qed.

(** ** The invariant *)

Definition checkpoint_matches (r : RebuildRun) : Prop :=
  nr_last_sequence r = if nr_completed r =? 0 then None else Some (nr_completed r).

Record rebuilds_ok (d : Db) (t : RebuildTables) : Prop := {
  ro_runs : forall run r, rebuild_runs d !! run = Some r ->
    run < next_id d /\ checkpoint_matches r /\ (nr_status r = REBUILD_COMPLETED -> nr_completed r = nr_total r) /\
    exists file, files_laid_out run (nr_completed r) (nr_total r) t file;
  ro_files : forall run i f, nf_rows t !! (run, i) = Some f -> is_Some (rebuild_runs d !! run);
  ro_active : forall run, active_rebuild d = Some run <->
    exists r, rebuild_runs d !! run = Some r /\ nr_status r <> REBUILD_COMPLETED;
  ro_snapshots : forall k, is_Some (original_snapshots t !! k) -> is_Some (rebuild_runs d !! k.1.1)
}.

(** Writing the row of one run, which stays laid out. *)
Lemma ok_set_run d t run r r' t' active :
  rebuilds_ok d t -> rebuild_runs d !! run = Some r ->
  (forall i k, k <> run -> nf_rows t' !! (k, i) = nf_rows t !! (k, i)) ->
  (forall k, is_Some (original_snapshots t' !! k) -> is_Some (original_snapshots t !! k)) ->
  checkpoint_matches r' -> (nr_status r' = REBUILD_COMPLETED -> nr_completed r' = nr_total r') ->
  (exists file, files_laid_out run (nr_completed r') (nr_total r') t' file) ->
  (forall k, active = Some k <-> (k = run /\ nr_status r' <> REBUILD_COMPLETED) \/
     k <> run /\ exists r, rebuild_runs d !! k = Some r /\ nr_status r <> REBUILD_COMPLETED) ->
  rebuilds_ok (set_control active (set_rebuild_runs (insert run r') d)) t'.
Proof.
  intros Hok Hr Ht Hsn Hm Hd Hl Ha. split; cbn [set_control set_rebuild_runs rebuild_runs next_id active_rebuild].
  - intros k q. destruct (decide (k = run)) as [->|Hne].
    + rewrite lookup_insert_eq. intros [= <-]. destruct (ro_runs _ _ Hok _ _ Hr) as [? _]. done.
    + rewrite lookup_insert_ne by done. intros Hq. destruct (ro_runs _ _ Hok _ _ Hq) as (? & ? & ? & file & Hf).
      split_and!; try done. exists file. apply (laid_out_other _ _ _ t); [|done]. intros i. by apply Ht.
  - intros k i f Hf. destruct (decide (k = run)) as [->|Hne]; [rewrite lookup_insert_eq; eauto|].
    rewrite lookup_insert_ne by done. rewrite Ht in Hf by done. by eapply (ro_files _ _ Hok).
  - intros k. rewrite Ha. destruct (decide (k = run)) as [->|Hne].
    + rewrite lookup_insert_eq. split; [intros [[_ ?]|[? _]]; [eauto|done]|]. intros (q & [= <-] & ?). by left.
    + rewrite lookup_insert_ne by done. split; [intros [[? _]|[_ ?]]; done|by right].
  - intros k Hk. apply Hsn, (ro_snapshots _ _ Hok) in Hk. destruct (decide (k.1.1 = run)) as [->|Hne];
      [rewrite lookup_insert_eq; eauto|]. by rewrite lookup_insert_ne.
Qed.

Section operations.
Context {D X : Type} `{!DerivedTables D} `{!UuidText}.
Abbreviation T := (Db * (D * RebuildTables))%type.
Abbreviation World := (Session_state * (D * (RebuildTables * X)))%type.
Implicit Types (w : World).

Definition control_ok (w : World) : Prop := rebuilds_ok (db w.1) w.2.2.1.

Lemma with_own_db s : with_db (db s) s = s.
Proof. by destruct s. Qed.

Lemma wp_rebuild_transaction {A} (m : M T A) (Q : A -> World -> Prop) E w :
  wp m (fun a v => Q a (with_db v.1 w.1, (v.2.1, (v.2.2, w.2.2.2)))) (fun e _ => E e w) (db w.1, (w.2.1, w.2.2.1)) ->
  wp (rebuild_transaction m) Q E w.
Proof.
  destruct w as [s [x [t y]]]. unfold rebuild_transaction, wp, transaction. cbn [fst snd].
  destruct (m (db s, (x, t))) as [[a|e] [d [x' t']]]; cbn [fst snd]; [done|]. by rewrite with_own_db.
Qed.

Lemma wp_on_derived {A} (m : M D A) (Q : A -> T -> Prop) E v :
  wp m (fun a x => Q a (v.1, (x, v.2.2))) (fun e x => E e (v.1, (x, v.2.2))) v.2.1 -> wp (on_derived m) Q E v.
Proof. destruct v as [d [x t]]. unfold wp, on_derived. cbn [fst snd]. by destruct (m x) as [[a|e] x']. Qed.

Lemma wp_lock_rebuild_run run (Q : RebuildRun -> T -> Prop) E v :
  (forall r, rebuild_runs v.1 !! run = Some r -> Q r v) ->
  (rebuild_runs v.1 !! run = None -> E (MakoletExn NotFoundError 0) v) -> wp (lock_rebuild_run run) Q E v.
Proof.
  intros HQ HE. unfold lock_rebuild_run. do 2 wp_step; wp_step; [by apply HQ|by apply HE].
Qed.
End operations.

Ltac rebuild_step := first
  [ progress cbn [fst snd] | apply wp_on_derived | apply wp_lock_rebuild_run; intros | wp_step
  | progress unfold set_run, on_rebuild_db, on_rebuild_tables, lock_control ].
Ltac rebuild_op m := unfold m; apply wp_rebuild_transaction; repeat rebuild_step.

(** The rows a begin inserts. *)
Lemma insert_files_laid_out run l t : Forall (fun f => nf_pending f = true) l ->
  (forall i, nf_rows t !! (run, i) = None) ->
  files_laid_out run 0 (py_len l) (set_files (insert_files run l (nf_rows t)) t)
    (fun i => default {| as_source_file_id := 0; as_archived_at := Naive 0 |} (archived_file <$> l !! Z.to_nat (i - 1))).
Proof.
  intros Hp Hfresh. unfold insert_files. cbn [set_files nf_rows].
  set (entries := imap _ l).
  assert (Hlook : forall i f, list_to_map (M := gmap (uuid * Z) RebuildFile) entries !! (run, i) = Some f <->
    1 <= i /\ l !! Z.to_nat (i - 1) = Some f).
  { intros i f. rewrite <- elem_of_list_to_map.
    - unfold entries. rewrite elem_of_lookup_imap. split.
      + intros (k & g & [= -> ->] & Hk). split; [lia|]. by replace (Z.to_nat (Z.of_nat k + 1 - 1)) with k by lia.
      + intros [Hi Hf]. exists (Z.to_nat (i - 1)), f. split; [|done]. f_equal. f_equal. lia.
    - apply NoDup_fmap_fst; [|]. 
      + intros [k i1] f1 f2. unfold entries. rewrite !elem_of_lookup_imap.
        intros (a & g & [= -> -> ->] & Ha) (b & h & [= Hab ->] & Hb). assert (a = b) as -> by lia. congruence.
      + apply NoDup_alt. intros a b e. unfold entries. rewrite !list_lookup_imap.
        destruct (l !! a), (l !! b); simpl; try done. intros [= <-] [= ? ?]. lia. }
  split.
  - pose proof (py_len_nonneg l). lia.
  - intros i Hi. destruct (lookup_lt_is_Some_2 l (Z.to_nat (i - 1))) as [f Hf]; [unfold py_len in Hi; lia|].
    exists f. rewrite Hf. split_and!; [|done|].
    + apply lookup_union_Some_l, Hlook. split; [lia|done].
    + rewrite (proj1 (Forall_lookup _ _) Hp _ _ Hf). symmetry. apply Z.ltb_lt. lia.
  - intros i f [Hf|[_ Hf]]%lookup_union_Some_raw; [|by rewrite Hfresh in Hf].
    apply Hlook in Hf as [Hi Hf]. apply lookup_lt_Some in Hf. unfold py_len. lia.
Qed.

Lemma insert_files_other run k l m i : k <> run -> insert_files run l m !! (k, i) = m !! (k, i).
Proof.
  intros Hne. unfold insert_files. apply lookup_union_r, not_elem_of_list_to_map.
  intros ([[k' j] f] & [= <- <-] & Hin)%list_elem_of_fmap. apply elem_of_lookup_imap in Hin as (a & g & [=] & _). done.
Qed.

Lemma insert_files_in run l m i f : (forall i, m !! (run, i) = None) -> insert_files run l m !! (run, i) = Some f -> f ∈ l.
Proof.
  intros Hm [Hf|[_ Hf]]%lookup_union_Some_raw; [|by rewrite Hm in Hf].
  apply elem_of_list_to_map_2, elem_of_lookup_imap in Hf as (k & g & [= _ ->] & Hk). by eapply list_elem_of_lookup_2.
Qed.

Section begin_run.
Context {D X : Type} `{!DerivedTables D} `{!UuidText}.
Implicit Types (w : Session_state * (D * (RebuildTables * X))).

Lemma eligible_pending d (x : D) cutoff : Forall (fun f => nf_pending f = true) (eligible_files d x cutoff).
Proof.
  unfold eligible_files. rewrite order_by_permutation. apply Forall_forall.
  intros f ([sid r] & _ & Hf)%list_elem_of_omap. unfold eligible_file in Hf.
  apply bind_Some in Hf as (? & _ & Hf). apply bind_Some in Hf as (e & _ & Hf).
  case_match; [|done]. by apply bind_Some in Hf as (? & _ & [= <-]).
Qed.

Lemma lookup_capture_other (run : uuid) (entity : string) (columns : list string) (rows : list row) (s : snapshots)
    (k : uuid * string * list (option Z)) : k.1.1 <> run \/ k.1.2 <> entity ->
  capture_entity run entity columns rows s !! k = s !! k.
Proof.
  intros Hk. unfold capture_entity. revert s. induction rows as [|r rows IH]; intros s; [done|]. cbn [foldl].
  rewrite IH. apply lookup_insert_ne. intros <-. by destruct Hk.
Qed.
Lemma lookup_capture_snapshots (run : uuid) (x : D) (s : snapshots) (k : uuid * string * list (option Z)) : k.1.1 <> run -> capture_snapshots run x s !! k = s !! k.
Proof.
  intros Hk. unfold capture_snapshots. revert s. generalize SNAPSHOT_ENTITIES. intros l.
  induction l as [|[e c] l IH]; intros s; [done|]. cbn [foldl]. rewrite IH. apply lookup_capture_other. by left.
Qed.

(** What a begin leaves. *)
Record begun (w w' : Session_state * (D * (RebuildTables * X))) (run : uuid) (r : RebuildRun) : Prop := {
  bg_idle : active_rebuild (db w.1) = None;
  bg_run : run = next_id (db w.1);
  bg_active : active_rebuild (db w'.1) = Some run;
  bg_row : rebuild_runs (db w'.1) = <[ run := r ]> (rebuild_runs (db w.1));
  bg_running : nr_status r = REBUILD_RUNNING /\ nr_completed r = 0 /\
    nr_total r = py_len (eligible_files (db w.1) w.2.1 (clock (db w.1)));
  bg_pending : map snd (pending_files run w'.2.2.1) =
    map archived_file (eligible_files (db w.1) w.2.1 (clock (db w.1)));
  bg_inputs : forall i f, nf_rows w'.2.2.1 !! (run, i) = Some f -> f ∈ eligible_files (db w.1) w.2.1 (clock (db w.1));
  bg_originals : original_snapshots w'.2.2.1 = capture_snapshots run w.2.1 (original_snapshots w.2.2.1);
  bg_fresh : forall e k, original_snapshots w.2.2.1 !! (run, e, k) = None;
  bg_derived : w'.2.1 = delete_where "product_identifiers" "validation_method" DERIVED_IDENTIFIER_METHODS
    (delete_where "confirmed_product_matches" "confirmed_by" SYSTEM_EXACT_ACTORS (truncate_derived w.2.1))
}.

Lemma map_snd_files_from total file : 0 <= total ->
  map snd (files_from 0 total file) = map file (seqZ 1 total).
Proof. intros. unfold files_from. rewrite map_map. simpl. by rewrite Z.sub_0_r. Qed.

Lemma files_from_list (l : list RebuildFile) dummy :
  map snd (files_from 0 (py_len l) (fun i => default dummy (archived_file <$> l !! Z.to_nat (i - 1)))) =
  map archived_file l.
Proof.
  rewrite map_snd_files_from by apply py_len_nonneg. apply list_eq. intros k. rewrite !list_lookup_fmap.
  unfold py_len. destruct (l !! k) as [f|] eqn:Hk; simpl.
  - rewrite lookup_seqZ_lt by (apply lookup_lt_Some in Hk; lia). simpl.
    replace (Z.to_nat (1 + Z.of_nat k - 1)) with k by lia. by rewrite Hk.
  - by rewrite lookup_seqZ_ge by (apply lookup_ge_None in Hk; lia).
Qed.

Lemma begin_spec requested_by version w : control_ok w ->
  wp (begin_rebuild requested_by version) (fun a w' => control_ok w' /\ begun w w' a.1 a.2 /\ nr_parser_version a.2 = version) (fun _ w' => w' = w) w.
Proof.
  intros Hok. rebuild_op @begin_rebuild; [done|done|]. destruct w as [s [x [t y]]]. cbn [fst snd] in *.
  set (files := eligible_files (db s) x (clock (db s))). set (run := next_id (db s)).
  set (r := run_total_set (py_len files) _). reflect_bools.
  assert (Hidle : active_rebuild (db s) = None) by (destruct (active_rebuild (db s)); [exfalso; naive_solver|done]).
  assert (Hnone : forall k q, rebuild_runs (db s) !! k = Some q -> nr_status q = REBUILD_COMPLETED).
  { intros k q Hq. destruct (decide (nr_status q = REBUILD_COMPLETED)) as [|Hne]; [done|].
    assert (active_rebuild (db s) = Some k) by (apply (ro_active _ _ Hok); eauto). congruence. }
  assert (Hfresh : rebuild_runs (db s) !! run = None).
  { destruct (rebuild_runs (db s) !! run) as [q|] eqn:Hq; [|done]. apply (ro_runs _ _ Hok) in Hq as [Hq _]. subst run. simpl in Hq. lia. }
  assert (Hrows : forall i, nf_rows t !! (run, i) = None).
  { intros i. destruct (nf_rows t !! (run, i)) eqn:Hi; [|done]. apply (ro_files _ _ Hok) in Hi as [? Hi]. simpl in Hi. congruence. }
  pose proof (insert_files_laid_out run files t (eligible_pending _ _ _) Hrows) as Hlaid. split.
  - unfold control_ok. cbn [fst snd db with_db set_control set_rebuild_runs bump_id].
    split; cbn [set_control set_rebuild_runs bump_id rebuild_runs next_id active_rebuild set_snapshots nf_rows].
    + intros k q. destruct (decide (k = run)) as [->|Hne].
      * rewrite lookup_insert_eq. intros [= <-]. split_and!; [lia|done|done|]. eexists. by eapply laid_out_other; [|exact Hlaid].
      * rewrite lookup_insert_ne by done. intros Hq. destruct (ro_runs _ _ Hok _ _ Hq) as (? & ? & ? & file & Hf).
        cbn [fst] in *; split_and!; [lia|done|done|]. exists file. apply (laid_out_other _ _ _ t); [|done]. intros i. by apply insert_files_other.
    + intros k i f Hf. destruct (decide (k = run)) as [->|Hne]; [rewrite lookup_insert_eq; eauto|].
      rewrite lookup_insert_ne by done. cbn [set_files nf_rows] in Hf. rewrite insert_files_other in Hf by done.
      by eapply (ro_files _ _ Hok).
    + intros k. split.
      * intros [= <-]. exists r. by rewrite lookup_insert_eq.
      * intros (q & Hq & Hs). destruct (decide (k = run)) as [->|Hne]; [done|].
        rewrite lookup_insert_ne in Hq by done. by apply Hnone in Hq.
    + intros k Hk. cbn [set_snapshots set_files original_snapshots fst snd] in Hk.
      destruct (decide (k.1.1 = run)) as [->|Hne]; [rewrite lookup_insert_eq; eauto|]. rewrite lookup_insert_ne by done.
      rewrite lookup_capture_snapshots in Hk by done. by apply (ro_snapshots _ _ Hok).
  - split; [|done]. split; cbn [fst snd db with_db]; try done.
    + erewrite pending_files_laid_out; [apply files_from_list|]. by eapply laid_out_other; [|exact Hlaid].
    + intros i f Hf. by apply (insert_files_in run _ (nf_rows t) i f) in Hf.
    + intros e k. destruct (original_snapshots t !! (run, e, k)) eqn:Hk; [|done].
      destruct (ro_snapshots _ _ Hok (run, e, k)) as [q Hq]; [by eexists|]. simpl in Hq. congruence.
Qed.
End begin_run.

Section run_steps.
Context {D X : Type} `{!DerivedTables D} `{!UuidText}.
Implicit Types (w : Session_state * (D * (RebuildTables * X))).

(** The active run is in status [s] with the files [l] pending. *)
Definition at_status (s : RebuildStatus) (run : uuid) (l : list (Z * ArchivedSourceFile)) w : Prop :=
  control_ok w /\ active_rebuild (db w.1) = Some run /\ l = pending_files run w.2.2.1 /\
  exists r, rebuild_runs (db w.1) !! run = Some r /\ nr_status r = s.
(** What a step of a run leaves alone: everything but its progress. *)
Definition file_columns (f : RebuildFile) := (nf_source f, nf_archived_at f, nf_original_applied f, nf_original_version f).
Record same_state w w' : Prop := {
  sa_session : lock_stack w'.1 = lock_stack w.1 /\ held w'.1 = held w.1;
  sa_db : sources (db w'.1) = sources (db w.1) /\ active_rebuild (db w'.1) = active_rebuild (db w.1) /\
    next_id (db w'.1) = next_id (db w.1);
  sa_version : forall k, nr_parser_version <$> rebuild_runs (db w'.1) !! k = nr_parser_version <$> rebuild_runs (db w.1) !! k;
  sa_derived : w'.2.1 = w.2.1 /\ w'.2.2.2 = w.2.2.2;
  sa_snapshots : original_snapshots w'.2.2.1 = original_snapshots w.2.2.1 /\ rebuilt_snapshots w'.2.2.1 = rebuilt_snapshots w.2.2.1;
  sa_files : forall k, file_columns <$> nf_rows w'.2.2.1 !! k = file_columns <$> nf_rows w.2.2.1 !! k
}.

Lemma same_written run r r' w m' : rebuild_runs (db w.1) !! run = Some r -> nr_parser_version r' = nr_parser_version r ->
  (forall k, file_columns <$> m' !! k = file_columns <$> nf_rows w.2.2.1 !! k) ->
  same_state w (with_db (set_rebuild_runs (insert run r') (db w.1)) w.1, (w.2.1, (set_files m' w.2.2.1, w.2.2.2))).
Proof.
  intros Hr Hv Hm. split; try done. intros k. cbn [fst db with_db set_rebuild_runs rebuild_runs].
  destruct (decide (k = run)) as [->|Hne]; [by rewrite lookup_insert_eq, Hr; simpl; rewrite Hv|by rewrite lookup_insert_ne].
Qed.
Lemma set_own_files t : set_files (nf_rows t) t = t.
Proof. by destruct t. Qed.
Lemma same_row_written run r r' w : rebuild_runs (db w.1) !! run = Some r -> nr_parser_version r' = nr_parser_version r ->
  same_state w (with_db (set_rebuild_runs (insert run r') (db w.1)) w.1, (w.2.1, (w.2.2.1, w.2.2.2))).
Proof.
  intros Hr Hv. pose proof (same_written run r r' w (nf_rows w.2.2.1) Hr Hv (fun _ => eq_refl)) as Hs.
  by rewrite set_own_files in Hs.
Qed.

(** The active run has a row that is not completed. *)
Lemma active_row w run : control_ok w -> active_rebuild (db w.1) = Some run ->
  exists r, rebuild_runs (db w.1) !! run = Some r /\ nr_status r <> REBUILD_COMPLETED.
Proof. intros Hok Ha. by apply (ro_active _ _ Hok). Qed.

(** Rewriting the row of the active run without closing it. *)
Lemma ok_keep_open w run r r' t' : control_ok w -> active_rebuild (db w.1) = Some run ->
  rebuild_runs (db w.1) !! run = Some r -> nr_status r' <> REBUILD_COMPLETED ->
  (forall i k, k <> run -> nf_rows t' !! (k, i) = nf_rows w.2.2.1 !! (k, i)) ->
  original_snapshots t' = original_snapshots w.2.2.1 ->
  checkpoint_matches r' -> (exists file, files_laid_out run (nr_completed r') (nr_total r') t' file) ->
  rebuilds_ok (set_rebuild_runs (insert run r') (db w.1)) t'.
Proof.
  intros Hok Ha Hr Hs Ht Hsn Hm Hl.
  pose proof (ok_set_run _ _ run r r' t' (Some run) Hok Hr Ht ltac:(intros ?; by rewrite Hsn) Hm ltac:(done) Hl) as H'.
  unfold set_control, set_rebuild_runs in *. rewrite Ha. apply H'. intros k. split; [intros [= <-]; by left|].
  intros [[-> _]|[Hne Hk]]; [done|]. apply (ro_active _ _ Hok) in Hk. congruence.
Qed.

Lemma resume_spec run w : control_ok w ->
  wp (resume_rebuild run)
    (fun a w' => a.1 = run /\ (exists s, at_status s run (pending_files run w.2.2.1) w) /\
       at_status REBUILD_RUNNING run (pending_files run w.2.2.1) w' /\ same_state w w')
    (fun _ w' => w' = w) w.
Proof.
  intros Hok. rebuild_op @resume_rebuild; [done|done| |done]. destruct w as [s [x [t y]]]. cbn [fst snd] in *.
  reflect_bools. rename r into current. match goal with Hc : rebuild_runs _ !! run = Some current |- _ => rename Hc into Hr end.
  destruct (ro_runs _ _ Hok _ _ Hr) as (_ & Hm & _ & Hl).
  split; [done|]. split; [exists (nr_status current); split_and!; try done; by exists current|].
  split; [|by apply (same_row_written run current _ (s, (x, (t, y))))]. split.
  - by eapply (ok_keep_open (s, (x, (t, y)))).
  - split_and!; [done|done|]. eexists. split; [apply lookup_insert_eq|done].
Qed.

Lemma fail_spec run code l w s : at_status s run l w ->
  exists w', fail_rebuild run code w = (Returned tt, w') /\ at_status REBUILD_FAILED run l w' /\ same_state w w'.
Proof.
  intros (Hok & Ha & Hl & r & Hr & _). destruct (active_row _ _ Hok Ha) as (r0 & Hr0 & Hopen).
  assert (r0 = r) as -> by congruence. destruct w as [st [x [t y]]]. cbn [fst snd] in *.
  eexists. split.
  { unfold fail_rebuild, rebuild_transaction, transaction, mbind, M_bind, get_state. cbn [fst snd]. rewrite Hr.
    rewrite bool_decide_eq_false_2 by done. reflexivity. }
  destruct (ro_runs _ _ Hok _ _ Hr) as (_ & Hm & _ & Hfiles).
  split; [|by apply (same_row_written run r _ (st, (x, (t, y))))]. split; [by eapply (ok_keep_open (st, (x, (t, y))))|].
  split_and!; [done|done|]. eexists. split; [apply lookup_insert_eq|done].
Qed.

Lemma fail_keeps run code w : control_ok w ->
  wp (fail_rebuild run code) (fun _ w' => control_ok w' /\ same_state w w') (fun _ w' => w' = w) w.
Proof.
  intros Hok. rebuild_op @fail_rebuild; [done| |done]. rename r into current.
  match goal with Hc : rebuild_runs _ !! run = Some current |- _ => rename Hc into Hr end. reflect_bools.
  destruct w as [s [x [t y]]]. cbn [fst snd] in *. destruct (ro_runs _ _ Hok _ _ Hr) as (_ & Hm & _ & Hl).
  split; [|by apply (same_row_written run current _ (s, (x, (t, y))))].
  eapply (ok_keep_open (s, (x, (t, y)))); try done. apply (ro_active _ _ Hok). by exists current.
Qed.

Lemma complete_returned run seq f w w' : control_ok w ->
  complete_rebuild_file run seq f w = (Returned tt, w') ->
  exists l, at_status REBUILD_RUNNING run ((seq, f) :: l) w /\ at_status REBUILD_RUNNING run l w' /\ same_state w w'.
Proof.
  intros Hok. revert w'. enough (Hwp : wp (complete_rebuild_file run seq f)
    (fun _ w' => exists l, at_status REBUILD_RUNNING run ((seq, f) :: l) w /\ at_status REBUILD_RUNNING run l w' /\ same_state w w')
    (fun _ _ => True) w) by (intros w' Hrun; by eapply (wp_returned _ _ _ _ _ _ Hwp)).
  rebuild_op @complete_rebuild_file; try done. destruct w as [s [x [t y]]]. cbn [fst snd] in *. reflect_bools.
  match goal with Hc : rebuild_runs _ !! run = Some ?c, Hf : nf_rows _ !! _ = Some ?g |- _ =>
    rename Hc into Hr, c into current, Hf into Hrow, g into file_row end. subst seq f.
  destruct (ro_runs _ _ Hok _ _ Hr) as (_ & Hm & _ & file & Hl). cbn [fst snd] in *.
  assert (Hlast : default 0 (nr_last_sequence current) = nr_completed current).
  { rewrite Hm. destruct (Z.eqb_spec (nr_completed current) 0); simpl; lia. }
  rewrite Hlast in *. pose proof (fl_bounds Hl) as Hb.
  assert (Hlt : nr_completed current < nr_total current).
  { pose proof (fl_only Hl _ _ Hrow). lia. }
  destruct (fl_rows Hl (nr_completed current + 1) ltac:(lia)) as (g & Hg & Hfile & _). cbn [fst snd] in Hg.
  assert (g = file_row) as -> by congruence.
  assert (Hactive : active_rebuild (db s) = Some run).
  { apply (ro_active _ _ Hok). exists current. split; [done|]. congruence. }
  pose proof (laid_out_next _ _ _ _ _ _ Hl Hlt Hrow) as Hl'.
  exists (files_from (nr_completed current + 1) (nr_total current) file). split; [|split].
  - split_and!; [done|done| |by exists current].
    cbn [fst snd]. rewrite (pending_files_laid_out _ _ _ _ _ Hl). rewrite (files_from_cons (nr_completed current)) by done. by rewrite Hfile.
  - split; [|split_and!; [done| |]].
    + eapply (ok_keep_open (s, (x, (t, y)))); cbn [fst snd]; try done.
      * cbn. congruence.
      * intros i k Hk. cbn [set_files nf_rows]. by rewrite lookup_insert_ne by congruence.
      * unfold checkpoint_matches. cbn. destruct (Z.eqb_spec (nr_completed current + 1) 0); [lia|done].
      * by exists file.
    + cbn [fst snd]. by rewrite (pending_files_laid_out _ _ _ _ _ Hl').
    + eexists. split; [apply lookup_insert_eq|]. done.
  - apply (same_written run current _ (s, (x, (t, y)))); [done|done|]. intros k. cbn [fst snd].
    destruct (decide (k = (run, nr_completed current + 1))) as [->|Hne]; [by rewrite lookup_insert_eq, Hg|by rewrite lookup_insert_ne].
Qed.

(** The layout behind the pending files of a run. *)
Lemma at_status_layout s run l w : at_status s run l w ->
  exists r file, rebuild_runs (db w.1) !! run = Some r /\ nr_status r = s /\
    default 0 (nr_last_sequence r) = nr_completed r /\
    files_laid_out run (nr_completed r) (nr_total r) w.2.2.1 file /\ l = files_from (nr_completed r) (nr_total r) file.
Proof.
  intros (Hok & Ha & -> & r & Hr & Hs). destruct (ro_runs _ _ Hok _ _ Hr) as (_ & Hm & _ & file & Hl).
  exists r, file. split_and!; try done; [|by apply pending_files_laid_out].
  rewrite Hm. destruct (Z.eqb_spec (nr_completed r) 0); simpl; lia.
Qed.

Lemma files_from_cons_inv completed total file seq f l : completed <= total ->
  files_from completed total file = (seq, f) :: l -> completed < total /\ seq = completed + 1 /\ f = file seq.
Proof.
  intros Hb Heq. destruct (decide (completed = total)) as [->|]; [by rewrite files_from_nil in Heq|].
  rewrite files_from_cons in Heq by lia. injection Heq as <- <- _. split_and!; [lia|done|done].
Qed.

Lemma complete_succeeds run seq f l w : at_status REBUILD_RUNNING run ((seq, f) :: l) w ->
  exists w', complete_rebuild_file run seq f w = (Returned tt, w') /\ at_status REBUILD_RUNNING run l w' /\ same_state w w'.
Proof.
  intros Hst. pose proof (proj1 Hst) as Hok.
  destruct (at_status_layout _ _ _ _ Hst) as (r & file & Hr & Hs & Hlast & Hl & Heq).
  symmetry in Heq. pose proof (fl_bounds Hl) as Hb. apply files_from_cons_inv in Heq as (Hlt & -> & ->); [|lia].
  destruct (fl_rows Hl (nr_completed r + 1) ltac:(lia)) as (g & Hg & Hfile & Hp).
  assert (Hrun : exists w', complete_rebuild_file run (nr_completed r + 1) (file (nr_completed r + 1)) w = (Returned tt, w')).
  { enough (Hwp : wp (complete_rebuild_file run (nr_completed r + 1) (file (nr_completed r + 1)))
      (fun _ _ => True) (fun _ _ => False) w).
    { unfold wp in Hwp. destruct (complete_rebuild_file _ _ _ w) as [[[]|] w']; [by exists w'|done]. }
    rebuild_op @complete_rebuild_file; destruct w as [st [x [t y]]]; cbn [fst snd] in *; reflect_bools; try done; try congruence.
    - simplify_map_eq. match goal with Hb : bool_decide _ && _ = false |- _ =>
        rewrite bool_decide_eq_true_2, Hp in Hb by done; cbn in Hb; apply Z.ltb_ge in Hb end. lia.
    - simplify_map_eq. match goal with Hb : counts_valid _ = false |- _ => unfold counts_valid in Hb; cbn in Hb;
        apply not_true_iff_false in Hb; apply Hb end. rewrite !andb_true_iff, !Z.leb_le. lia. }
  destruct Hrun as [w' Hrun]. exists w'. split; [done|].
  destruct (complete_returned _ _ _ _ _ Hok Hrun) as (k & Hk & Hk' & ?). split; [|done].
  destruct Hk as (_ & _ & Hk & _), Hst as (_ & _ & Hl' & _). congruence.
Qed.

(** A raise rolls the transaction back. *)
Lemma complete_keeps run seq f w : control_ok w ->
  wp (complete_rebuild_file run seq f) (fun _ w' => control_ok w' /\ same_state w w') (fun _ w' => w' = w) w.
Proof.
  intros Hok. apply wp_intro.
  - intros [] w' Hrun. by destruct (complete_returned _ _ _ _ _ Hok Hrun) as (l & _ & [? _] & ?).
  - intros e w'. unfold complete_rebuild_file, rebuild_transaction. destruct w as [st [x [t y]]].
    destruct (transaction _ _) as [[a|e'] [d [x' t']]] eqn:Hrun; [done|]. apply transaction_raised in Hrun.
    injection Hrun as -> -> ->. intros [= -> <-]. by rewrite with_own_db.
Qed.

Lemma next_returned run limit w : 1 <= limit <= 200 ->
  next_rebuild_files run limit w = (Returned (take (Z.to_nat limit) (pending_files run w.2.2.1)), w).
Proof.
  intros Hlimit. unfold next_rebuild_files, bounded_limit, MAXIMUM_ARCHIVE_PAGE_SIZE, raise_if, mbind, M_bind, mret, M_ret.
  destruct (Z.leb_spec limit 0), (Z.ltb_spec 200 limit); try lia. cbn.
  destruct w as [st [x [t y]]]. cbn. by rewrite with_own_db.
Qed.

(** ** Finishing *)

(** The run is over: its barrier is lifted and its row is completed. *)
Definition finished run w : Prop :=
  control_ok w /\ active_rebuild (db w.1) = None /\
  exists r, rebuild_runs (db w.1) !! run = Some r /\ nr_status r = REBUILD_COMPLETED /\ nr_completed r = nr_total r.

(** What a rebuild that changes neither parser nor inputs must leave: every table as it was. *)
Definition exact_tables (run : uuid) (o : snapshots) (x : D) : Prop :=
  forall entity columns, (entity, columns) ∈ SNAPSHOT_ENTITIES -> table entity x ≡ₚ snapshots_of run entity o.

Lemma remove_one_permutation x (l : list row) : x ∈ l -> x :: remove_one x l ≡ₚ l.
Proof.
  induction l as [|y l IH]; [by intros ?%elem_of_nil|]. intros Hx. simpl. case_bool_decide; [by subst|].
  apply elem_of_cons in Hx as [->|Hx]; [done|]. rewrite <- (IH Hx) at 2. apply Permutation_swap.
Qed.
Lemma remove_one_id x (l : list row) : x ∉ l -> remove_one x l = l.
Proof.
  induction l as [|y l IH]; [done|]. intros [Hy Hl]%not_elem_of_cons. simpl.
  rewrite bool_decide_eq_false_2 by done. by rewrite IH.
Qed.
Lemma remove_one_length x (l : list row) : (length l <= S (length (remove_one x l)))%nat.
Proof. induction l as [|y l IH]; simpl; [lia|]. case_bool_decide; simpl; lia. Qed.

Lemma remove_one_comm x y (l : list row) : remove_one x (remove_one y l) = remove_one y (remove_one x l).
Proof.
  induction l as [|z l IH]; [done|]. simpl.
  destruct (bool_decide_reflect (y = z)) as [->|Hy], (bool_decide_reflect (x = z)) as [->|Hx]; simpl;
    rewrite ?bool_decide_eq_true_2, ?bool_decide_eq_false_2 by done; [done..|]. by rewrite IH.
Qed.
Lemma except_all_swap x (l k : list row) : foldr remove_one (remove_one x l) k = remove_one x (foldr remove_one l k).
Proof. induction k as [|y k IH]; [done|]. simpl. by rewrite IH, remove_one_comm. Qed.

(** [EXCEPT ALL] in both directions is empty exactly for the same rows, counted. *)
Lemma except_all_nil l k : except_all l k = [] -> length l = length k -> l ≡ₚ k.
Proof.
  revert l. induction k as [|x k IH]; intros l; simpl.
  - intros -> _. done.
  - intros Hn Hlen. unfold except_all in *. simpl in Hn.
    destruct (decide (x ∈ l)) as [Hx|Hx].
    + pose proof (remove_one_permutation x l Hx) as Hp. rewrite <- Hp. constructor. apply IH; [by rewrite except_all_swap|].
      apply Permutation_length in Hp. simpl in Hp. lia.
    + exfalso. assert (Hlow : forall l, (length l <= length (foldr remove_one l k) + length k)%nat).
      { clear. intros l. induction k as [|y k IH]; simpl; [lia|].
        pose proof (remove_one_length y (foldr remove_one l k)). lia. }
      pose proof (Hlow (remove_one x l)) as Hlow'. rewrite except_all_swap, Hn in Hlow'. simpl in Hlow'.
      rewrite remove_one_id in Hlow' by done. simpl in *. lia.
Qed.
Lemma except_all_length l k : (length l <= length (except_all l k) + length k)%nat.
Proof.
  unfold except_all. induction k as [|y k IH]; simpl; [lia|].
  pose proof (remove_one_length y (foldr remove_one l k)). lia.
Qed.

Lemma differs_spec l k : differs l k = false <-> l ≡ₚ k.
Proof.
  unfold differs. rewrite negb_false_iff, bool_decide_eq_true. split.
  - intros [Hl Hk]%app_nil. apply except_all_nil; [done|].
    pose proof (except_all_length l k) as H1. pose proof (except_all_length k l) as H2. rewrite Hl, Hk in *. simpl in *. lia.
  - intros Hp. assert (Hself : forall a b, a ≡ₚ b -> except_all a b = []).
    { clear. intros a b. revert a. induction b as [|x b IH]; intros a Hp.
      - by apply Permutation_nil_r in Hp as ->.
      - unfold except_all. simpl. assert (Hx : x ∈ a) by (rewrite Hp; left).
        assert (Ha : remove_one x a ≡ₚ b) by (apply (Permutation_cons_inv (a := x)); by rewrite remove_one_permutation).
        specialize (IH _ Ha). unfold except_all in IH.
        by rewrite <- except_all_swap. }
    by rewrite (Hself l k Hp), (Hself k l).
Qed.

(** The inputs and the parser are the ones of the original state. *)
Definition unchanged_inputs (run : uuid) w : Prop :=
  exists r, rebuild_runs (db w.1) !! run = Some r /\
    materially_changes run (nr_parser_version r) w.2.2.1 = (false, false).

Lemma close_run run r finished_at w t' x' : control_ok w -> active_rebuild (db w.1) = Some run ->
  rebuild_runs (db w.1) !! run = Some r -> nr_completed r = nr_total r -> nf_rows t' = nf_rows w.2.2.1 ->
  (forall k, is_Some (original_snapshots t' !! k) -> is_Some (original_snapshots w.2.2.1 !! k)) ->
  finished run (with_db (set_control None (set_rebuild_runs
    <[ run := run_status_set REBUILD_COMPLETED finished_at None r ]> (db w.1))) w.1, (x', (t', w.2.2.2))).
Proof.
  intros Hok Ha Hr Hc Ht Hsn. destruct (ro_runs _ _ Hok _ _ Hr) as (_ & Hm & _ & file & Hl).
  split; [|split; [done|eexists; split; [apply lookup_insert_eq|done]]]. cbn [fst snd db with_db].
  apply (ok_set_run _ _ run r _ t' None Hok Hr); [by intros; rewrite Ht|done|done|done| |].
  - exists file. apply (laid_out_other _ _ _ w.2.2.1); [by intros; rewrite Ht|done].
  - intros k. split; [done|]. intros [[_ Hs]|[Hne Hk]]; [done|]. apply (ro_active _ _ Hok) in Hk. congruence.
Qed.

Lemma delete_snapshots_old (run : uuid) (s : snapshots) k : is_Some (delete_snapshots run s !! k) -> is_Some (s !! k).
Proof. unfold delete_snapshots. intros [v [? _]%map_lookup_filter_Some]. eauto. Qed.
Lemma record_outcomes_old (run : uuid) (x : D) (s : snapshots) k : is_Some (record_outcomes run x s !! k) -> is_Some (s !! k).
Proof. unfold record_outcomes. rewrite map_lookup_imap. destruct (s !! k); simpl; [eauto|done]. Qed.

Lemma exactly_equivalent_spec run t (x : D) : exactly_equivalent run t x = true ->
  exact_tables run (original_snapshots t) x.
Proof.
  unfold exactly_equivalent. intros Hall entity columns Hin. rewrite forallb_forall in Hall.
  apply list_elem_of_In, Hall in Hin. apply negb_true_iff, differs_spec in Hin. by symmetry.
Qed.

Lemma finish_spec run w : control_ok w ->
  wp (finish_rebuild run)
    (fun a w' => a.1 = run /\ active_rebuild (db w.1) = Some run /\ pending_files run w.2.2.1 = [] /\ finished run w' /\
       nf_rows w'.2.2.1 = nf_rows w.2.2.1 /\
       (unchanged_inputs run w -> exact_tables run (original_snapshots w.2.2.1) w'.2.1) /\
       next_id (db w'.1) = next_id (db w.1))
    (fun _ w' => w' = w) w.
Proof.
  intros Hok. rebuild_op @finish_rebuild; try done.
  eapply wp_mono; [apply wp_true|..]; cbv beta; [|done]. intros [] x' _. repeat rebuild_step; try done.
  all: reflect_bools; split_and!; try done; try (apply (close_run run r); try done; intros k;
    [apply delete_snapshots_old || apply record_outcomes_old]).
  - intros _. by apply exactly_equivalent_spec in H4.
  - intros (r' & Hr' & Hm). cbn [fst] in *. assert (r' = r) as -> by congruence.
    assert (Heq : (b, b0) = (false, false)) by (rewrite <- Heqp; exact Hm). by injection Heq as -> ->.
Qed.
End run_steps.
