(* ===== verification/Maintenance.v ===== *)
(** Archive replay and rebuilds: [src/src/makolet/application/maintenance.py] over the ports of
    [application/ports.py], what it relies on, and that [Rebuild.v] provides it.

    [rebuild_pages] takes the number of pages as fuel; a rebuild needs at most one page a pending
    file and one more. *)
From S2P Require Import Prelude Errors Effects Enums PyNumbers Text Models AppModels Ports Database SourceFiles SourceValues Rebuild RebuildFacts.

(** ** Ports *)

(** [NormalizedRebuildRepository] and [ArchiveReplayRepository]. *)
Class NormalizedRebuildRepository (W : Type) := {
  rebuild_lock : M W bool;
  rebuild_unlock : M W unit;
  rebuild_begin : pystr -> pystr -> M W (uuid * RebuildRun);
  rebuild_resume : uuid -> M W (uuid * RebuildRun);
  rebuild_next : uuid -> Z -> M W (list (Z * ArchivedSourceFile));
  rebuild_complete : uuid -> Z -> ArchivedSourceFile -> M W unit;
  rebuild_fail : uuid -> string -> M W unit;
  rebuild_finish : uuid -> M W (uuid * RebuildRun);
  archive_page : Z -> Z -> Z -> option pystr -> M W ArchivedSourceFilePage
}.

(** [ReplayableIngestion] and [CatalogBootstrap]. *)
Class ReplayableIngestion (W : Type) := {
  replay_parser_version : pystr;
  replay_source_file : uuid -> option uuid -> M W IngestionResult;
  catalog_bootstrap : option (uuid -> M W unit)
}.

(** [ArchiveMaintenanceLimits]. *)
Record ArchiveMaintenanceLimits := {
  default_page_size : Z;
  maximum_page_size : Z;
  rebuild_page_size : Z
}.
Definition ArchiveMaintenanceLimits_post_init {W} (l : ArchiveMaintenanceLimits) : M W unit :=
  raise_if (default_page_size l <=? 0) (PyExn ValueError);;
  raise_if (maximum_page_size l <? default_page_size l) (PyExn ValueError);;
  raise_if ((rebuild_page_size l <=? 0) || (maximum_page_size l <? rebuild_page_size l)) (PyExn ValueError).
Definition default_maintenance_limits : ArchiveMaintenanceLimits :=
  {| default_page_size := 50; maximum_page_size := 200; rebuild_page_size := 50 |}.

(** [ReplayRangeResult]. *)
Record ReplayRangeResult := {
  rr_since : datetime;
  rr_until : datetime;
  rr_files : list IngestionResult;
  rr_next_cursor : option pystr
}.

(** ** The service *)

Definition REBUILD_CONFIRMATION_TOKEN : pystr := py "REBUILD-NORMALIZED-STATE".

(** [_error_code]. *)
Definition rebuild_error_code (e : exn) : string :=
  match e with
  | MakoletExn c _ => error_class_code c
  | PyExn _ => "rebuild_replay_failed"
  end.

(** [_aware], [_cursor]. *)
Definition aware_utc {W} (value : datetime) : M W datetime :=
  raise_if (negb (is_aware value)) validation_error;; mret value.
Definition cleaned_cursor {W} (maximum : Z) (value : option pystr) : M W (option pystr) :=
  match value with
  | None => mret None
  | Some v =>
      let cleaned := py_strip v in
      raise_if (negb (str_truthy cleaned) || (maximum <? py_len cleaned) || py_any (fun c => c <? 32) cleaned)
        validation_error;;
      mret (Some cleaned)
  end.

Section service.
Context {W : Type} `{!NormalizedRebuildRepository W} `{!ReplayableIngestion W} `{!Unicode}.
Variable limits : ArchiveMaintenanceLimits.

(** [_bootstrap_catalog]. *)
Definition bootstrap_catalog (result : IngestionResult) : M W unit :=
  match catalog_bootstrap with
  | Some bootstrap => when (bool_decide (ir_status result = COMPLETED)) (bootstrap (ir_source_file_id result))
  | None => mret tt
  end.

(** [_limit]. *)
Definition page_limit (value : option Z) : M W Z :=
  let selected := default (default_page_size limits) value in
  raise_if ((selected <=? 0) || (maximum_page_size limits <? selected)) (MakoletExn QueryLimitError 0);;
  mret selected.

(** The loop of [replay_range]. *)
Fixpoint replay_files (files : list ArchivedSourceFile) : M W (list IngestionResult) :=
  match files with
  | [] => mret []
  | f :: files =>
      result ← replay_source_file (as_source_file_id f) None;
      bootstrap_catalog result;;
      results ← replay_files files;
      mret (result :: results)
  end.

Definition replay_range (since until : datetime) (limit : option Z) (cursor : option pystr) : M W ReplayRangeResult :=
  start ← aware_utc since;
  end_ ← aware_utc until;
  raise_if (instant_of end_ <=? instant_of start) validation_error;;
  selected_limit ← page_limit limit;
  selected_cursor ← cleaned_cursor 128 cursor;
  page ← archive_page (instant_of start) (instant_of end_) selected_limit selected_cursor;
  results ← replay_files (ap_files page);
  mret {| rr_since := start; rr_until := end_; rr_files := results; rr_next_cursor := ap_next_cursor page |}.

(** One turn of the inner loop of [resume_rebuild]. *)
Definition rebuild_file (run : uuid) (p : Z * ArchivedSourceFile) : M W unit :=
  result ← replay_source_file (as_source_file_id p.2) (Some run);
  bootstrap_catalog result;;
  rebuild_complete run p.1 p.2.

(** [while True]. *)
Fixpoint rebuild_pages (fuel : nat) (run : uuid) : M W (uuid * RebuildRun) :=
  match fuel with
  | O => raise (PyExn RuntimeError)
  | S fuel =>
      files ← rebuild_next run (rebuild_page_size limits);
      match files with
      | [] => rebuild_finish run
      | _ => for_each (rebuild_file run) files;; rebuild_pages fuel run
      end
  end.

(** [async with self._rebuild_repository.lock_rebuild(...)]. *)
Definition with_rebuild_lock {A} (body : bool -> M W A) : M W A :=
  acquired ← rebuild_lock;
  result ← try_with (body acquired) (fun e => when acquired rebuild_unlock;; raise e);
  when acquired rebuild_unlock;;
  mret result.

(** The [except BaseException] clause. *)
Definition rebuild_stopped {A} (run : uuid) (e : exn) : M W A :=
  rebuild_fail run (rebuild_error_code e);;
  raise (if bool_decide (e = PyExn CancelledError) then e else MakoletExn NormalizedRebuildInterruptedError 0).

Definition resume_rebuild_service (fuel : nat) (run : uuid) : M W (uuid * RebuildRun) :=
  with_rebuild_lock (fun acquired =>
    raise_if (negb acquired) (MakoletExn LeaseUnavailableError 0);;
    rebuild_resume run;;
    try_with (rebuild_pages fuel run) (rebuild_stopped run)).

Definition start_rebuild (fuel : nat) (confirmation requested_by : pystr) : M W (uuid * RebuildRun) :=
  raise_if (negb (bool_decide (confirmation = REBUILD_CONFIRMATION_TOKEN))) validation_error;;
  operator ← clean_source_text (Some requested_by) 128;
  match operator with
  | None => raise validation_error
  | Some operator =>
      run ← rebuild_begin operator replay_parser_version;
      resume_rebuild_service fuel run.1
  end.
End service.

(** ** What the service relies on *)

(** [progress s run l w]: the active rebuild is [run], in status [s], with the files [l] left in
    their order; [closed] says it is over, [settled] is the invariant of the rebuild tables. *)
Class RebuildView (W : Type) := {
  progress : RebuildStatus -> uuid -> list (Z * ArchivedSourceFile) -> W -> Prop;
  closed : uuid -> W -> Prop;
  settled : W -> Prop
}.
(** The rebuilds of two states are the same. *)
Record same_rebuilds `{!RebuildView W} (w w' : W) : Prop := {
  sr_settled : settled w';
  sr_progress : forall s run l, progress s run l w' <-> progress s run l w;
  sr_closed : forall run, closed run w -> closed run w'
}.
Class RebuildProgress (W : Type) `{!NormalizedRebuildRepository W} `{!RebuildView W} : Prop := {
  progress_settled : forall s run l w, progress s run l w -> settled w;
  progress_unique : forall s s' run l l' w, progress s run l w -> progress s' run l' w -> l = l';
  closed_settled : forall run w, closed run w -> settled w;
  lock_keeps : forall w, settled w -> wp rebuild_lock (fun _ w' => same_rebuilds w w') (fun _ _ => False) w;
  unlock_keeps : forall w, settled w -> wp rebuild_unlock (fun _ w' => same_rebuilds w w') (fun _ _ => False) w;
  resume_starts : forall run w, settled w ->
    wp (rebuild_resume run)
      (fun _ w' => exists s l, progress s run l w /\ progress REBUILD_RUNNING run l w') (fun _ w' => w' = w) w;
  next_takes : forall run l limit w, 1 <= limit <= 200 -> progress REBUILD_RUNNING run l w ->
    rebuild_next run limit w = (Returned (take (Z.to_nat limit) l), w);
  complete_advances : forall run sequence f l w, progress REBUILD_RUNNING run ((sequence, f) :: l) w ->
    wp (rebuild_complete run sequence f) (fun _ w' => progress REBUILD_RUNNING run l w') (fun _ _ => False) w;
  fail_stops : forall run code s l w, progress s run l w ->
    wp (rebuild_fail run code) (fun _ w' => progress REBUILD_FAILED run l w') (fun _ _ => False) w;
  finish_closes : forall run l w, progress REBUILD_RUNNING run l w ->
    wp (rebuild_finish run) (fun a w' => a.1 = run /\ l = [] /\ closed run w') (fun _ w' => w' = w) w
}.

(** Replaying a file and bootstrapping the catalog leave the rebuild alone. *)
Class ReplayKeepsProgress (W : Type) `{!RebuildView W} `{!ReplayableIngestion W} : Prop := {
  replay_keeps_progress : forall s run l sid r, preserves (progress s run l) (replay_source_file sid r);
  bootstrap_keeps_progress : forall s run l bootstrap sid, catalog_bootstrap = Some bootstrap ->
    preserves (progress s run l) (bootstrap sid)
}.

(** ** The loops *)

Section for_each.
Context {A W : Type} (f : A -> M W unit).

Lemma bind_assoc {B C E} (m : M W B) (g : B -> M W C) (h : C -> M W E) w :
  ((m ≫= g) ≫= h) w = (m ≫= (fun b => g b ≫= h)) w.
Proof. unfold mbind, M_bind. by destruct (m w) as [[?|?] ?]. Qed.

Lemma for_each_app l k w : for_each f (l ++ k) w = (for_each f l;; for_each f k) w.
Proof.
  revert w. induction l as [|x l IH]; intros w; [done|]. cbn [for_each app]. rewrite bind_assoc.
  unfold mbind, M_bind in *. destruct (f x w) as [[[]|e] w']; [|done]. apply IH.
Qed.
End for_each.

Section rebuild.
Context {W : Type} `{!NormalizedRebuildRepository W} `{!RebuildView W} `{!RebuildProgress W} `{!ReplayableIngestion W}
  `{!ReplayKeepsProgress W} `{!Unicode}.
Variable limits : ArchiveMaintenanceLimits.

(** What [resume_rebuild] does, without pages: the pending files in order, then the end. *)
Definition rebuild_all (run : uuid) (l : list (Z * ArchivedSourceFile)) : M W (uuid * RebuildRun) :=
  for_each (rebuild_file run) l;; rebuild_finish run.

Lemma bootstrap_file_keeps s run l result : preserves (progress s run l) (bootstrap_catalog result).
Proof.
  unfold bootstrap_catalog. destruct catalog_bootstrap as [b|] eqn:Hb; [|apply preserves_ret].
  apply preserves_when. by apply bootstrap_keeps_progress.
Qed.

(** One file: its checkpoint is the only thing that moves the rebuild, and it comes last. *)
Lemma rebuild_file_wp run p l w : progress REBUILD_RUNNING run (p :: l) w ->
  wp (rebuild_file run p) (fun _ w' => progress REBUILD_RUNNING run l w')
    (fun _ w' => progress REBUILD_RUNNING run (p :: l) w') w.
Proof.
  intros Hw. unfold rebuild_file. destruct p as [sequence f]. wp_step.
  eapply wp_mono; [by apply replay_keeps_progress|..]; cbv beta; [|done]. intros result w1 H1.
  wp_step. eapply wp_mono; [by apply bootstrap_file_keeps|..]; cbv beta; [|done]. intros [] w2 H2.
  eapply wp_mono; [by apply complete_advances|..]; cbv beta; [done|done].
Qed.

Lemma rebuild_files_wp run k l w : progress REBUILD_RUNNING run (k ++ l) w ->
  wp (for_each (rebuild_file run) k) (fun _ w' => progress REBUILD_RUNNING run l w')
    (fun _ w' => exists done left, k = done ++ left /\ left <> [] /\ progress REBUILD_RUNNING run (left ++ l) w') w.
Proof.
  revert w. induction k as [|p k IH]; intros w Hw; cbn [for_each app] in *; [by wp_step|].
  wp_step. eapply wp_mono; [by apply rebuild_file_wp|..]; cbv beta.
  - intros [] w' Hw'. eapply wp_mono; [by apply IH|..]; cbv beta; [done|].
    intros e w'' (d & r & -> & Hr & ?). by exists (p :: d), r.
  - intros e w' Hw'. by exists [], (p :: k).
Qed.

(** The pages are the pending files, whatever their size. *)
Lemma rebuild_pages_all fuel run l w : 1 <= rebuild_page_size limits <= 200 ->
  (length l < fuel)%nat -> progress REBUILD_RUNNING run l w ->
  rebuild_pages limits fuel run w = rebuild_all run l w.
Proof.
  intros Hsize. revert l w. induction fuel as [|fuel IH]; intros l w Hfuel Hw; [lia|]. cbn [rebuild_pages].
  unfold mbind at 1, M_bind at 1. rewrite (next_takes run l) by done.
  set (n := Z.to_nat (rebuild_page_size limits)). assert (Hn : (0 < n)%nat) by lia. clearbody n.
  destruct l as [|p l]; [by rewrite take_nil|].
  destruct (take n (p :: l)) as [|q k] eqn:Ht; [destruct n; [lia|done]|].
  rewrite <- Ht. unfold rebuild_all. rewrite <- (take_drop n (p :: l)) at 2.
  pose proof (rebuild_files_wp run (take n (p :: l)) (drop n (p :: l)) w) as Hwp. rewrite take_drop in Hwp.
  specialize (Hwp Hw). unfold mbind, M_bind in *. rewrite for_each_app. unfold mbind, M_bind, wp in *.
  destruct (for_each (rebuild_file run) (take n (p :: l)) w) as [[[]|e] w'] eqn:Hrun; [|done].
  rewrite (IH (drop n (p :: l))); [done| |done]. rewrite length_drop. simpl in *. lia.
Qed.

(** How a rebuild ends. *)
Lemma rebuild_all_wp run l w : progress REBUILD_RUNNING run l w ->
  wp (rebuild_all run l) (fun a w' => a.1 = run /\ closed run w')
    (fun _ w' => exists done left, l = done ++ left /\ progress REBUILD_RUNNING run left w') w.
Proof.
  intros Hw. unfold rebuild_all. wp_step. eapply wp_mono; [apply (rebuild_files_wp run l []); by rewrite app_nil_r|..]; cbv beta.
  - intros [] w' Hw'. eapply wp_mono; [by apply finish_closes|..]; cbv beta; [by intros a w'' (? & _ & ?)|].
    intros e w'' ->. exists l, []. by rewrite app_nil_r.
  - intros e w' (d & k & -> & _ & Hk). exists d, k. by rewrite app_nil_r in Hk.
Qed.

Definition limits_ok (l : ArchiveMaintenanceLimits) : Prop := 1 <= rebuild_page_size l <= 200.

Definition stopped_error (e : exn) : Prop :=
  e = PyExn CancelledError \/ e = MakoletExn NormalizedRebuildInterruptedError 0.

Lemma rebuild_stopped_wp {A} run l e w (Q : A -> W -> Prop) : progress REBUILD_RUNNING run l w ->
  wp (rebuild_stopped run e) Q (fun e' w' => stopped_error e' /\ progress REBUILD_FAILED run l w') w.
Proof.
  intros Hw. unfold rebuild_stopped. wp_step. eapply wp_mono; [by eapply fail_stops|..]; cbv beta; [|done].
  intros [] w' Hw'. wp_step. split; [|done]. unfold stopped_error. case_bool_decide; [by left|by right].
Qed.

(** The outcomes of [resume_rebuild]. *)
Definition completed_rebuild (run : uuid) (a : uuid * RebuildRun) (w' : W) : Prop := a.1 = run /\ closed run w'.
Definition interrupted_rebuild (run : uuid) (w : W) (e : exn) (w' : W) : Prop :=
  stopped_error e /\ exists s finished_files left,
    progress s run (finished_files ++ left) w /\ progress REBUILD_FAILED run left w'.
Definition rebuild_outcome (run : uuid) (w : W) (e : exn) (w' : W) : Prop :=
  same_rebuilds w w' \/ interrupted_rebuild run w e w'.

Lemma same_rebuilds_trans (w1 w2 w3 : W) : same_rebuilds w1 w2 -> same_rebuilds w2 w3 -> same_rebuilds w1 w3.
Proof.
  intros [_ Hp Hc] [Hs Hp' Hc']. split; [done| |auto]. intros s run l. by rewrite Hp'.
Qed.
Lemma outcome_before run (w w1 w2 : W) e : same_rebuilds w w1 -> rebuild_outcome run w1 e w2 -> rebuild_outcome run w e w2.
Proof.
  intros H1 [H2|(He & s & d & l & Hp & Hl)]; [left; by eapply same_rebuilds_trans|].
  right. split; [done|]. exists s, d, l. by rewrite <- (sr_progress _ _ H1).
Qed.
Lemma outcome_after run (w w1 w2 : W) e : rebuild_outcome run w e w1 -> same_rebuilds w1 w2 -> rebuild_outcome run w e w2.
Proof.
  intros [H1|(He & s & d & l & Hp & Hl)] H2; [left; by eapply same_rebuilds_trans|].
  right. split; [done|]. exists s, d, l. by rewrite (sr_progress _ _ H2).
Qed.
Lemma outcome_settled run (w w' : W) e : rebuild_outcome run w e w' -> settled w'.
Proof. intros [[]|(_ & s & d & l & _ & Hl)]; [done|by eapply progress_settled]. Qed.

Lemma with_rebuild_lock_wp {A} (body : bool -> M W A) run w (Q : A -> W -> Prop) : settled w ->
  (forall a w1 w2, Q a w1 -> same_rebuilds w1 w2 -> Q a w2) -> (forall a w1, Q a w1 -> settled w1) ->
  (forall b w1, same_rebuilds w w1 -> wp (body b) Q (rebuild_outcome run w1) w1) ->
  wp (with_rebuild_lock body) Q (rebuild_outcome run w) w.
Proof.
  intros Hw HQ Hs Hbody. unfold with_rebuild_lock. wp_step.
  eapply wp_mono; [by apply lock_keeps|..]; cbv beta; [|done]. intros acquired w1 H1. do 2 wp_step.
  eapply wp_mono; [by apply Hbody|..]; cbv beta.
  - intros a w2 H2. wp_step. wp_step; [|by wp_step].
    eapply wp_mono; [by eapply unlock_keeps, Hs|..]; cbv beta; [|done]. intros [] w3 H3. wp_step. by eapply HQ.
  - intros e w2 H2. apply (outcome_before _ _ _ _ _ H1) in H2. wp_step. wp_step; [|by wp_step].
    eapply wp_mono; [by eapply unlock_keeps, outcome_settled|..]; cbv beta; [|done]. intros [] w3 H3. wp_step.
    by eapply outcome_after.
Qed.

Lemma resume_service_wp fuel run w : limits_ok limits -> settled w ->
  (forall s l, progress s run l w -> (length l < fuel)%nat) ->
  wp (resume_rebuild_service limits fuel run) (completed_rebuild run) (rebuild_outcome run w) w.
Proof.
  intros Hlimits Hw Hfuel. unfold resume_rebuild_service. apply with_rebuild_lock_wp; [done|..].
  - intros a w1 w2 [? ?] H2. split; [done|]. by apply (sr_closed _ _ H2).
  - intros a w1 [_ ?]. by eapply closed_settled.
  - intros b w1 H1. assert (Hrefl : same_rebuilds w1 w1) by (split; [by apply H1|done|done]).
    wp_step. wp_step; [by left|]. wp_step.
    eapply wp_mono; [by apply resume_starts, H1|..]; cbv beta; [|by intros e w2 ->; left].
    intros _ w2 (s & l & Hl & H2). wp_step. unfold wp.
    rewrite (rebuild_pages_all fuel run l) by (done || by eapply Hfuel, (sr_progress _ _ H1)).
    pose proof (rebuild_all_wp run l w2 H2) as Hall. unfold wp in Hall.
    destruct (rebuild_all run l w2) as [[a|e] w3]; [done|]. destruct Hall as (d & k & -> & Hk).
    eapply wp_mono; [by apply (rebuild_stopped_wp run k)|..]; cbv beta; [done|].
    intros e' w4 [He Hw4]. right. split; [done|]. by exists s, d, k.
Qed.
End rebuild.
