(* ===== verification/MaintenanceFacts.v ===== *)
(** The PostgreSQL rebuilds as the repository the maintenance service relies on, the pages of
    the archive, and ids that outlive a rebuild. *)
From stdpp Require Import sorting.
From S2P Require Import Prelude Errors Effects Enums PyNumbers Models AppModels Ports Database SourceFiles Rebuild RebuildFacts Maintenance.

Section postgres.
Context {D X : Type} `{!DerivedTables D} `{!UuidText}.
Abbreviation World := (Session_state * (D * (RebuildTables * X)))%type.

#[export] Instance postgres_rebuilds : NormalizedRebuildRepository World := {|
  rebuild_lock := lock_rebuild;
  rebuild_unlock := unlock_rebuild;
  rebuild_begin := begin_rebuild;
  rebuild_resume := resume_rebuild;
  rebuild_next := next_rebuild_files;
  rebuild_complete := complete_rebuild_file;
  rebuild_fail := fail_rebuild;
  rebuild_finish := finish_rebuild;
  archive_page := list_archived_files
|}.
#[export] Instance postgres_view : RebuildView World :=
  {| progress := at_status; closed := finished; settled := control_ok |}.

Lemma same_rebuild_tables (w w' : World) : control_ok w -> db w'.1 = db w.1 -> w'.2.2.1 = w.2.2.1 -> same_rebuilds w w'.
Proof.
  unfold control_ok. intros Hok Hd Ht. split; simpl.
  - unfold control_ok. by rewrite Hd, Ht.
  - intros s run l. unfold at_status, control_ok. by rewrite Hd, Ht.
  - intros run. unfold finished, control_ok. by rewrite Hd, Ht.
Qed.

#[export] Instance postgres_progress : RebuildProgress World.
Proof.
  split; simpl.
  - by intros s run l w [? _].
  - intros s s' run l l' w (_ & _ & -> & _) (_ & _ & -> & _). done.
  - by intros run w [? _].
  - intros w Hw. unfold lock_rebuild. wp_step. wp_step. wp_step; [by wp_step; apply same_rebuild_tables|].
    do 3 wp_step. by apply same_rebuild_tables.
  - intros w Hw. unfold unlock_rebuild. wp_step. by apply same_rebuild_tables.
  - intros run w Hw. eapply wp_mono; [by apply resume_spec|..]; cbv beta; [|done].
    intros a w' (_ & [s Hs] & Hr & _). eauto.
  - intros run l limit w Hl (_ & _ & -> & _). by apply next_returned.
  - intros run seq f l w Hw. destruct (complete_succeeds _ _ _ _ _ Hw) as (w' & Hrun & Hw' & _). unfold wp. by rewrite Hrun.
  - intros run code s l w Hw. destruct (fail_spec _ code _ _ _ Hw) as (w' & Hrun & Hw' & _). unfold wp. by rewrite Hrun.
  - intros run l w (Hok & _ & -> & _). eapply wp_mono; [by apply finish_spec|..]; cbv beta; [|done].
    by intros a w' (? & _ & ? & ? & _).
Qed.

(** ** Pages of the archive *)

Lemma filter_after {A} (key : A -> Z * Z) (l k : list A) p :
  StronglySorted (key_le key) (l ++ p :: k) -> NoDup (map key (l ++ p :: k)) ->
  List.filter (fun q => after (key q) (key p)) (l ++ p :: k) = k.
Proof.
  intros Hs Hn. rewrite List.filter_app. cbn [List.filter].
  assert (Hself : after (key p) (key p) = false).
  { unfold after, pair_key_leb. by rewrite Z.eqb_refl, Z.leb_refl, orb_true_r. }
  rewrite Hself. assert (Hl : List.filter (fun q => after (key q) (key p)) l = []).
  { apply StronglySorted_app in Hs as (Hlp & _ & _). induction l as [|x l IH]; [done|]. cbn [List.filter].
    assert (Hx : key_le key x p) by (apply Hlp; set_solver).
    unfold after, key_le in *. rewrite Hx. simpl. apply IH.
    - intros y z Hy Hz. apply Hlp; [by right|done].
    - by apply NoDup_cons in Hn as [_ ?]. }
  rewrite Hl. simpl. apply StronglySorted_app in Hs as (_ & _ & Hpk). rewrite map_app in Hn.
  apply NoDup_app in Hn as (_ & _ & Hn). cbn [map] in Hn. clear Hl Hself.
  apply StronglySorted_inv in Hpk as [_ Hpk]. apply NoDup_cons in Hn as [Hp _].
  induction k as [|x k IH]; [done|]. cbn [List.filter map] in *.
  apply Forall_cons in Hpk as [Hx Hk]. apply not_elem_of_cons in Hp as [Hne Hp].
  assert (Hafter : after (key x) (key p) = true).
  { unfold after. apply negb_true_iff, not_true_iff_false. intros Hxp.
    apply Hne. symmetry. by apply (key_le_antisym key). }
  rewrite Hafter. by rewrite IH.
Qed.

Lemma elem_of_archived_files d since until p : p ∈ archived_files d since until ->
  exists r, sources d !! p.2 = Some r /\ archived_position p.2 r = Some p.
Proof.
  unfold archived_files. rewrite order_by_permutation, list_elem_of_In, List.filter_In, <- list_elem_of_In.
  intros [([sid r] & Hin & Hp)%list_elem_of_omap _]. apply elem_of_map_to_list in Hin.
  assert (p.2 = sid) as -> by (unfold archived_position in Hp; by repeat case_match; simplify_eq). eauto.
Qed.
Lemma NoDup_archived_files d since until : NoDup (map position_key (archived_files d since until)).
Proof.
  apply (NoDup_fmap_1 snd). change (map position_key ?l) with (position_key <$> l). rewrite <- list_fmap_compose.
  unfold archived_files. rewrite order_by_permutation. apply NoDup_ListNoDup.
  assert (Hn : NoDup (map snd (omap (fun '(sid, r) => archived_position sid r) (map_to_list (sources d))))).
  { pose proof (NoDup_fst_map_to_list (sources d)) as Hn. revert Hn. generalize (map_to_list (sources d)). intros l.
    induction l as [|[sid r] l IH]; [constructor|]. cbn [fmap list_fmap fst]. intros [Hs Hl]%NoDup_cons. simpl.
    destruct (archived_position sid r) as [p|] eqn:Hp; [|by apply IH]. cbn [map]. apply NoDup_cons. split; [|by apply IH].
    assert (p.2 = sid) as -> by (unfold archived_position in Hp; by repeat case_match; simplify_eq).
    intros ([t k] & Hk & ([sid' r'] & Hin & Hq)%list_elem_of_omap)%list_elem_of_fmap. simpl in Hk. subst k.
    assert (sid' = sid) as -> by (unfold archived_position in Hq; by repeat case_match; simplify_eq).
    apply Hs, list_elem_of_fmap. by exists (sid, r'). }
  revert Hn. generalize (omap (fun '(sid, r) => archived_position sid r) (map_to_list (sources d))). intros l.
  rewrite NoDup_ListNoDup. induction l as [|p l IH]; cbn [map List.filter]; [constructor|]. inversion 1; subst.
  case_match; [|by apply IH]. cbn. constructor; [|by apply IH]. intros Hin. match goal with Hx : ~ In _ _ |- _ => apply Hx end.
  apply in_map_iff in Hin as (q & Hq & Hin). apply List.filter_In in Hin as [Hin _]. apply in_map_iff. by exists q.
Qed.

Context `{!UuidTextOk}.
Definition listed (p : datetime * uuid) : ArchivedSourceFile := {| as_source_file_id := p.2; as_archived_at := p.1 |}.

Lemma uuid_cursor_str {W} u (w : W) : valid_uuid u -> uuid_cursor (Some (uuid_str u)) w = (Returned (Some u), w).
Proof.
  intros Hu. unfold uuid_cursor, raise_if, mbind, M_bind. rewrite uuid_str_length, uuid_of_str by done. cbn.
  assert (Hc : py_any (fun x => x <? 32) (uuid_str u) = false).
  { apply not_true_iff_false. intros (c & Hc & Hlt)%existsb_exists. apply list_elem_of_In in Hc.
    pose proof (uuid_str_chars u Hu) as Hall. rewrite Forall_forall in Hall. apply Hall in Hc. apply Z.ltb_lt in Hlt. lia. }
  by rewrite Hc.
Qed.

(** What follows a cursor: the files after the one it names. *)
Definition follows (all : list (datetime * uuid)) (cursor : option pystr) (rest : list (datetime * uuid)) : Prop :=
  (cursor = None /\ rest = all) \/ exists l p, all = l ++ p :: rest /\ cursor = Some (uuid_str p.2).

Definition valid_ids (l : list (datetime * uuid)) : Prop := Forall (fun p => valid_uuid p.2) l.

Lemma archive_page_run since until limit cursor rest (w : World) : 1 <= limit <= 200 ->
  valid_ids (archived_files (db w.1) since until) -> follows (archived_files (db w.1) since until) cursor rest ->
  let n := Z.to_nat limit in
  list_archived_files since until limit cursor w =
    (Returned {| ap_files := map listed (take n rest);
                 ap_next_cursor := if (n <? length rest)%nat then uuid_str <$> (snd <$> last (take n rest)) else None |}, w).
Proof.
  intros Hlimit Hids Hf n.
  set (all := archived_files (db w.1) since until) in *.
  assert (Hrest : exists cid, uuid_cursor cursor w = (Returned cid, w) /\
    List.filter (fun p => match cid, (c ← cid; r ← sources (db w.1) !! c; archived_position c r) with
                          | None, _ => true
                          | Some _, Some q => after (position_key p) (position_key q)
                          | Some _, None => false
                          end) all = rest).
  { destruct Hf as [[-> ->]|(l & p & Hall & ->)].
    - exists None. split; [done|]. clear. induction all as [|x all IH]; [done|]. cbn. by rewrite IH.
    - exists (Some p.2). split; [apply uuid_cursor_str|].
      { unfold valid_ids in Hids. rewrite Forall_forall in Hids. apply Hids. fold all. rewrite Hall. set_solver. }
      simpl.
      destruct (elem_of_archived_files (db w.1) since until p) as (r & Hr & Hp).
      { fold all. rewrite Hall. set_solver. }
      rewrite Hr. simpl. rewrite Hp, Hall. apply (filter_after position_key); rewrite <- Hall;
        [apply order_by_sorted|apply NoDup_archived_files]. }
  destruct Hrest as (cid & Hcid & Hfilter).
  match goal with |- _ = (Returned ?page, w) =>
    enough (Hwp : wp (list_archived_files since until limit cursor) (fun a w' => a = page /\ w' = w) (fun _ _ => False) w) end.
  { unfold wp in Hwp. destruct (list_archived_files _ _ _ _ w) as [[a|e] w']; [by destruct Hwp as [-> ->]|done]. }
  unfold list_archived_files, bounded_limit, MAXIMUM_ARCHIVE_PAGE_SIZE. do 3 wp_step; [|wp_step].
  { match goal with Hb : _ || _ = true |- _ => apply orb_true_iff in Hb; rewrite Z.leb_le, Z.ltb_lt in Hb end. lia. }
  wp_step. unfold wp at 1. rewrite Hcid. apply wp_rebuild_transaction. do 2 wp_step. wp_step. cbn [fst snd].
  fold all. fold n. rewrite Hfilter. destruct w as [st [x [t y]]]. cbn [fst snd]. rewrite with_own_db. split; [|done]. f_equal.
  - rewrite take_take. by replace (n `min` (n + 1))%nat with n by lia.
  - rewrite length_take, take_take. replace (n `min` (n + 1))%nat with n by lia.
    destruct (Nat.ltb_spec n (length rest)), (Nat.ltb_spec n ((n + 1) `min` length rest)); try lia; [|done].
    change (map ?f ?l) with (f <$> l). rewrite fmap_last. by destruct (last _).
Qed.

(** Following the cursors from the first page. *)
Fixpoint walk_archive (fuel : nat) (since until limit : Z) (cursor : option pystr) : M World (list (list ArchivedSourceFile)) :=
  page ← list_archived_files since until limit cursor;
  match ap_next_cursor page, fuel with
  | None, _ => mret [ap_files page]
  | Some c, S fuel =>
      pages ← walk_archive fuel since until limit (Some c);
      mret (ap_files page :: pages)
  | Some _, O => raise (PyExn RuntimeError)
  end.

Lemma walk_archive_rest fuel since until limit cursor rest (w : World) : 1 <= limit <= 200 ->
  valid_ids (archived_files (db w.1) since until) ->
  follows (archived_files (db w.1) since until) cursor rest -> (length rest <= fuel)%nat ->
  exists pages, walk_archive fuel since until limit cursor w = (Returned pages, w) /\
    concat pages = map listed rest /\ Forall (fun page => py_len page <= limit) pages.
Proof.
  intros Hlimit Hids. set (n := Z.to_nat limit). revert cursor rest.
  induction fuel as [|fuel IH]; intros cursor rest Hf Hlen; cbn [walk_archive];
    unfold mbind at 1, M_bind at 1; rewrite (archive_page_run _ _ _ _ _ _ Hlimit Hids Hf); cbn [ap_next_cursor ap_files]; fold n.
  - destruct rest; [|simpl in Hlen; lia]. rewrite take_nil. simpl.
    exists [[]]. split; [by destruct (n <? 0)%nat eqn:E; [apply Nat.ltb_lt in E; lia|]|]. split; [done|].
    constructor; [unfold py_len; simpl; lia|done].
  - assert (Hpage : py_len (map listed (take n rest)) <= limit).
    { unfold py_len. rewrite length_map, length_take. lia. }
    destruct (Nat.ltb_spec n (length rest)) as [Hlt|Hge].
    + destruct (take n rest) as [|q k] eqn:Ht; [apply (f_equal length) in Ht; rewrite length_take in Ht; simpl in Ht; lia|].
      destruct (last (q :: k)) as [p|] eqn:Hlast; [|by apply last_None in Hlast].
      apply last_Some in Hlast as [l Hl]. cbn [fmap option_fmap option_map].
      assert (Hsplit : rest = l ++ p :: drop n rest).
      { rewrite <- (take_drop n rest) at 1. rewrite Ht, Hl. by rewrite <- app_assoc. }
      destruct (IH (Some (uuid_str p.2)) (drop n rest)) as (pages & Hrun & Hcat & Hall).
      * right. destruct Hf as [[-> ->]|(l0 & p0 & -> & ->)]; [by exists l, p|].
        exists (l0 ++ p0 :: l), p. rewrite <- app_assoc. simpl. by rewrite <- Hsplit.
      * rewrite length_drop. lia.
      * exists (map listed (q :: k) :: pages). unfold mbind, M_bind. rewrite Hrun. split; [done|]. split.
        -- cbn [concat]. rewrite Hcat, <- map_app, <- Ht. by rewrite take_drop.
        -- by constructor.
    + exists [map listed (take n rest)]. split; [done|]. split; [|by constructor].
      cbn [concat]. rewrite app_nil_r, take_ge by lia. done.
Qed.
End postgres.

(** ** Ids that outlive a rebuild *)

Definition bare : row -> row := without ["id"%string].

Lemma row_id_some r : is_Some (row_id r) -> exists i, r !! "id"%string = Some (JInt i) /\ row_id r = Some i.
Proof. unfold row_id, number. intros [i Hi]. repeat case_match; simplify_eq. eauto. Qed.

Lemma bare_ext r s : bare r = bare s -> is_Some (row_id r) -> is_Some (row_id s) -> row_id r = row_id s -> r = s.
Proof.
  intros Hb (i & Hi & Hri)%row_id_some (j & Hj & Hsj)%row_id_some Hid. apply map_eq. intros k.
  destruct (decide (k = "id"%string)) as [->|Hne]; [congruence|].
  apply (f_equal (lookup k)) in Hb. unfold bare, without in Hb. simpl in Hb. by rewrite !lookup_delete_ne in Hb.
Qed.

Lemma set_id_bare r s : bare r = bare s -> is_Some (row_id s) -> set_id (row_id s) r = s.
Proof.
  intros Hb (j & Hj & Hsj)%row_id_some. rewrite Hsj. unfold set_id. apply map_eq. intros k.
  destruct (decide (k = "id"%string)) as [->|Hne]; [by rewrite lookup_insert_eq|]. rewrite lookup_insert_ne by done.
  apply (f_equal (lookup k)) in Hb. unfold bare, without in Hb. simpl in Hb. by rewrite !lookup_delete_ne in Hb.
Qed.

(** The rows of a table whose original differs in the ids only. *)
Record same_but_ids (originals live : list row) : Prop := {
  sb_ids : Forall (fun r => is_Some (row_id r)) (live ++ originals);
  sb_rows : map bare live ≡ₚ map bare originals;
  sb_distinct : NoDup (map bare originals);
  sb_fresh : forall l o, l ∈ live -> o ∈ originals -> row_id l = row_id o -> l = o
}.

Lemma NoDup_bare_inj l r s : NoDup (map bare l) -> r ∈ l -> s ∈ l -> bare r = bare s -> r = s.
Proof.
  intros Hn [i Hi]%list_elem_of_lookup [j Hj]%list_elem_of_lookup Hb. assert (i = j) as ->; [|congruence].
  eapply (NoDup_lookup _ i j (bare r) Hn); change (map ?f ?l) with (f <$> l); rewrite list_lookup_fmap; [by rewrite Hi|by rewrite Hj, Hb].
Qed.

Lemma matching_single originals live r : same_but_ids originals live -> r ∈ live ->
  exists o, o ∈ originals /\ bare r = bare o /\ matching ["id"%string] originals r = [o].
Proof.
  intros Hs Hr. assert (Hb : bare r ∈ map bare originals).
  { rewrite <- (sb_rows _ _ Hs). apply list_elem_of_fmap. by exists r. }
  apply list_elem_of_fmap in Hb as (o & Ho & Hin). exists o. split_and!; [done|done|].
  unfold matching. apply order_by_unique.
  - intros a b Ha Hb' _. apply list_elem_of_In, List.filter_In in Ha as [Ha Hae], Hb' as [Hb' Hbe].
    apply bool_decide_eq_true in Hae, Hbe. apply (NoDup_bare_inj originals); [by apply Hs|by apply list_elem_of_In..|].
    unfold bare. congruence.
  - repeat constructor.
  - apply NoDup_Permutation; [apply NoDup_singleton|apply NoDup_ListNoDup, List.NoDup_filter, NoDup_ListNoDup, (NoDup_fmap_1 bare), Hs|].
    intros x. rewrite list_elem_of_singleton, list_elem_of_In, List.filter_In, <- list_elem_of_In, bool_decide_eq_true. split.
    + intros ->. split; [done|]. by symmetry.
    + intros [Hx Hxe]. apply (NoDup_bare_inj originals); [by apply Hs|done|done|]. unfold bare in *. congruence.
Qed.

Lemma occupied_spec i l : occupied i l = true <-> exists r, r ∈ l /\ row_id r = i.
Proof.
  unfold occupied. rewrite existsb_exists. setoid_rewrite bool_decide_eq_true. setoid_rewrite <- list_elem_of_In. done.
Qed.

Lemma reuse_id_original originals live r : same_but_ids originals live -> r ∈ live ->
  exists o, o ∈ originals /\ bare r = bare o /\ reuse_id ["id"%string] originals live r = o.
Proof.
  intros Hs Hr. destruct (matching_single _ _ _ Hs Hr) as (o & Ho & Hb & Hm). exists o. split_and!; [done|done|].
  unfold reuse_id. rewrite Hm. cbn [List.filter].
  pose proof (sb_ids _ _ Hs) as Hids. rewrite Forall_forall in Hids.
  assert (is_Some (row_id r) /\ is_Some (row_id o)) as [Hro1 Hro2] by (split; apply Hids; set_solver).
  case_bool_decide as Hid; simpl; [by apply bare_ext|].
  destruct (occupied (row_id o) live) eqn:Hocc; [|by apply set_id_bare].
  apply occupied_spec in Hocc as (l & Hl & Hlo). exfalso. apply Hid.
  assert (l = o) as -> by by apply (sb_fresh _ _ Hs).
  assert (Hn : NoDup (map bare live)) by (rewrite (sb_rows _ _ Hs); apply Hs).
  f_equal. by apply (NoDup_bare_inj live).
Qed.

(** Reusing ids makes the rebuilt rows the original ones. *)
Lemma reuse_ids_restore originals live : same_but_ids originals live ->
  map (reuse_id ["id"%string] originals live) live ≡ₚ originals.
Proof.
  intros Hs. pose proof (reuse_id_original originals live) as Hreuse.
  assert (Hn : NoDup (map bare live)) by (rewrite (sb_rows _ _ Hs); apply Hs).
  apply NoDup_Permutation.
  - apply (NoDup_fmap_1 bare). change (map ?f ?l) with (f <$> l). rewrite <- list_fmap_compose.
    rewrite (Forall_fmap_ext_1 _ bare); [exact Hn|]. apply Forall_forall. intros r Hr.
    destruct (Hreuse r Hs Hr) as (o & _ & Hb & Ho). simpl. by rewrite Ho.
  - apply (NoDup_fmap_1 bare), Hs.
  - intros o. change (map ?f ?l) with (f <$> l). rewrite list_elem_of_fmap. split.
    + intros (r & -> & Hr). destruct (Hreuse r Hs Hr) as (o & Ho & _ & ->). done.
    + intros Ho. assert (Hb : bare o ∈ map bare live).
      { rewrite (sb_rows _ _ Hs). apply list_elem_of_fmap. by exists o. }
      apply list_elem_of_fmap in Hb as (r & Hb & Hr). exists r. split; [|done].
      destruct (Hreuse r Hs Hr) as (o' & Ho' & Hb' & ->). apply (NoDup_bare_inj originals); [by apply Hs|done|done|]. congruence.
Qed.

(** ** Snapshots *)

Section capture.
Context {D : Type} `{!DerivedTables D}.
Implicit Types (s : snapshots) (rows : list row).

Definition key_of (columns : list string) (r : row) : list (option Z) := map (fun c => number c r) columns.
Definition snapshot_entry (run : uuid) (entity : string) (columns : list string) (r : row) :
    uuid * string * list (option Z) * Snapshot :=
  ((run, entity, key_of columns r), {| sn_payload := r; sn_outcome := None |}).

Lemma capture_entity_list run entity columns rows s : NoDup (map (key_of columns) rows) ->
  (forall k, s !! (run, entity, k) = None) ->
  map_to_list (capture_entity run entity columns rows s) ≡ₚ map (snapshot_entry run entity columns) rows ++ map_to_list s.
Proof.
  intros Hn Hs. assert (Hfresh : forall r, r ∈ rows -> s !! (run, entity, key_of columns r) = None) by done. clear Hs.
  revert s Hfresh. induction rows as [|r rows IH]; intros s Hfresh; [done|]. cbn [map] in Hn. apply NoDup_cons in Hn as [Hr Hn].
  unfold capture_entity in *. cbn [foldl map app]. rewrite IH; [|done|].
  - rewrite map_to_list_insert by (apply Hfresh; left). by rewrite Permutation_middle.
  - intros q Hq. rewrite lookup_insert_ne; [apply Hfresh; by right|]. intros [= Heq]. apply Hr.
    apply list_elem_of_fmap. by exists q.
Qed.

Lemma snapshots_of_permutation run entity s l : map_to_list s ≡ₚ l ->
  snapshots_of run entity s ≡ₚ omap (fun '(k, v) => if bool_decide (k.1 = (run, entity)) then Some (sn_payload v) else None) l.
Proof. intros Hl. unfold snapshots_of. by rewrite Hl. Qed.

Lemma snapshots_of_captured run entity columns rows s : NoDup (map (key_of columns) rows) ->
  (forall k, s !! (run, entity, k) = None) ->
  snapshots_of run entity (capture_entity run entity columns rows s) ≡ₚ rows.
Proof.
  intros Hn Hs. rewrite (snapshots_of_permutation _ _ _ _ (capture_entity_list _ _ _ _ _ Hn Hs)), omap_app.
  assert (Hold : omap (fun '(k, v) => if bool_decide (k.1 = (run, entity)) then Some (sn_payload v) else None) (map_to_list s) = []).
  { apply elem_of_nil_inv. intros r ([[[run' e'] k] v] & Hin & Hr)%list_elem_of_omap. apply elem_of_map_to_list in Hin.
    simpl in Hr. case_bool_decide; simplify_eq. by rewrite Hs in Hin. }
  rewrite Hold, app_nil_r. clear. induction rows as [|r rows IH]; [done|]. cbn [map]. simpl.
  rewrite bool_decide_eq_true_2 by done. by rewrite IH.
Qed.

Lemma snapshots_of_same run entity s s' : (forall k, s' !! (run, entity, k) = s !! (run, entity, k)) ->
  snapshots_of run entity s' ≡ₚ snapshots_of run entity s.
Proof.
  intros Hk. set (pick := fun p : uuid * string * list (option Z) * Snapshot => p.1.1 = (run, entity)).
  assert (Hsub : forall s, snapshots_of run entity s ≡ₚ map (fun p => sn_payload p.2) (map_to_list (filter pick s))).
  { clear. intros s. induction s as [|k v s Hs IH] using map_ind; [done|].
    rewrite (snapshots_of_permutation _ _ _ _ (map_to_list_insert s k v Hs)). cbn [omap list_omap].
    fold (snapshots_of run entity s). unfold snapshots_of at 1 in IH. case_bool_decide as Hp.
    - rewrite map_filter_insert_True by exact Hp. rewrite map_to_list_insert; [cbn [map]; by rewrite IH|].
      apply map_lookup_filter_None_2. by left.
    - rewrite map_filter_insert_False by exact Hp. rewrite IH. by rewrite delete_id. }
  rewrite !Hsub. do 2 f_equiv. apply map_eq. intros [[run' e'] k]. apply option_eq. intros v.
  rewrite !map_lookup_filter_Some. unfold pick. simpl. split; intros [Hv [= -> ->]]; (split; [|done]); [by rewrite <- Hk|by rewrite Hk].
Qed.

(** Row keys are primary keys. *)
Definition row_keys_unique (d : D) : Prop :=
  forall entity columns, (entity, columns) ∈ SNAPSHOT_ENTITIES -> NoDup (map (key_of columns) (table entity d)).

Lemma capture_snapshots_exact run (d : D) s entity columns : row_keys_unique d ->
  (forall e k, s !! (run, e, k) = None) -> (entity, columns) ∈ SNAPSHOT_ENTITIES ->
  snapshots_of run entity (capture_snapshots run d s) ≡ₚ table entity d.
Proof.
  unfold row_keys_unique, capture_snapshots. intros Hkeys Hs Hin.
  assert (Hnames : NoDup (map fst SNAPSHOT_ENTITIES)) by (apply (bool_decide_unpack _); vm_compute; exact I).
  assert (Hs' : forall e k, e ∈ map fst SNAPSHOT_ENTITIES -> s !! (run, e, k) = None) by done. clear Hs.
  revert s Hs' Hkeys Hin Hnames. generalize SNAPSHOT_ENTITIES. intros l.
  assert (Hskip : forall l s e k, e ∉ map fst l ->
    foldl (fun s '(entity, columns) => capture_entity run entity columns (table entity d) s) s l !! (run, e, k) = s !! (run, e, k)).
  { clear. induction l as [|[e' c] l IH]; intros s e k; [done|]. cbn [map foldl].
    intros [Hne Hl]%not_elem_of_cons. rewrite IH by done. apply lookup_capture_other. by right. }
  induction l as [|[e c] l IH]; intros s Hs Hkeys Hin Hnames; [by apply elem_of_nil in Hin|]. cbn [foldl].
  cbn [map fst] in Hnames. apply NoDup_cons in Hnames as [He Hnames]. apply elem_of_cons in Hin as [[= -> ->]|Hin].
  - rewrite (snapshots_of_same _ _ (capture_entity run e c (table e d) s)) by (intros k; by apply Hskip).
    apply snapshots_of_captured; [apply Hkeys; left|]. intros k. apply Hs. left.
  - assert (Hne : entity <> e). { intros ->. apply He, list_elem_of_fmap. by exists (e, columns). }
    assert (Hkeys' : forall entity columns, (entity, columns) ∈ l -> NoDup (map (key_of columns) (table entity d)))
      by (intros; apply Hkeys; by right).
    apply IH; try done. intros e' k He'. rewrite lookup_capture_other by (right; simpl; intros ->; done). apply Hs. by right.
Qed.

(** The reset tables are empty and the others as they were. *)
Lemma truncate_other `{!DerivedTablesOk D} n d : n ∉ DERIVED_RESET_TABLES -> table n (truncate_derived d) = table n d.
Proof.
  unfold truncate_derived. generalize DERIVED_RESET_TABLES. intros l. induction l as [|m l IH]; [done|].
  intros [Hne Hl]%not_elem_of_cons. simpl. by rewrite table_put_other, IH.
Qed.
Lemma truncate_empty `{!DerivedTablesOk D} n d : n ∈ DERIVED_RESET_TABLES -> table n (truncate_derived d) = [].
Proof.
  unfold truncate_derived. generalize DERIVED_RESET_TABLES. intros l. induction l as [|m l IH]; [by intros ?%elem_of_nil|].
  intros Hn. simpl. destruct (decide (n = m)) as [->|Hne]; [by rewrite table_put|].
  rewrite table_put_other by done. apply IH. by apply elem_of_cons in Hn as [?|?].
Qed.
End capture.
