(* ===== verification/CatalogMatching.v ===== *)
(** Matching of products: [src/src/makolet/domain/catalog.py].

    The texts of an explanation are its constructors.  An operand that is not a number makes an
    ordering comparison raise, as [decimal] does. *)
From Stdlib Require Import QArith Qabs.
From stdpp Require Import sorting.
From S2P Require Import Prelude Errors Effects Enums PyNumbers Text Models SourceValues Decimals Rebuild.
Open Scope Z_scope.

(** ** Orders and sets *)

(** [a <= b] of strings. *)
Fixpoint str_leb (a b : pystr) : bool :=
  match a, b with
  | [], _ => true
  | _ :: _, [] => false
  | x :: a, y :: b => (x <? y) || ((x =? y) && str_leb a b)
  end.
(** [min(values, default=None)]. *)
Definition str_min (l : list pystr) : option pystr :=
  match l with
  | [] => None
  | x :: l => Some (foldl (fun m y => if str_leb m y then m else y) x l)
  end.
(** The intersection of two sets of strings. *)
Definition common (l k : list pystr) : list pystr := List.filter (fun x => bool_decide (x ∈ k)) l.

(** [text.split()]. *)
Fixpoint split_words (word : pystr) (s : pystr) : list pystr :=
  match s with
  | [] => if str_truthy word then [word] else []
  | c :: s =>
      if is_space c then (if str_truthy word then [word] else []) ++ split_words [] s
      else split_words (word ++ [c]) s
  end.
Definition py_words (s : pystr) : list pystr := split_words [] s.

(** ** Data *)

Inductive MatchRule := EXACT_GTIN | EXACT_NORMALIZED_IDENTIFIER | STRUCTURED_CANDIDATE.
Inductive MatchDisposition := AUTO_CONFIRM | REVIEW.
#[export] Instance MatchRule_eq_dec : EqDecision MatchRule.
Proof. solve_decision. Defined.
#[export] Instance MatchDisposition_eq_dec : EqDecision MatchDisposition.
Proof. solve_decision. Defined.

Record ProductIdentifier := {
  pi_kind : IdentifierKind;
  pi_value : pystr;
  pi_issuer : option uuid;
  pi_validated : bool;
  pi_method : option pystr
}.

(** The attributes that [ProductDescriptor] and [CanonicalProductDescriptor] share. *)
Record Described := {
  ds_name : pystr;
  ds_normalized_name : pystr;
  ds_identifiers : list ProductIdentifier;
  ds_brand : option pystr;
  ds_manufacturer : option pystr;
  ds_quantity : option decimal;
  ds_unit : option pystr;
  ds_packaging : option pystr
}.
Record ProductDescriptor := { pd_item : uuid; pd_retailer : uuid; pd_described : Described }.
Record CanonicalProductDescriptor := { cd_product : uuid; cd_described : Described }.

Inductive explanation :=
  | GloballyValidatedGtin (gtin : pystr)
  | RetailerScopedGtin (gtin : pystr)
  | IndependentAssertions (gtin : pystr)
  | SharedInsideRetailer (gtin : pystr)
  | SameIdentifier (kind : IdentifierKind)
  | NameSimilarity (contribution : decimal)
  | SameBrand
  | SameManufacturer
  | SameQuantity
  | SamePackaging
  | DifferentGtins.

(** [MatchCandidate] and [CanonicalMatchCandidate]; [mc_candidate] is an item or a product. *)
Record MatchCandidate := {
  mc_subject : uuid;
  mc_candidate : uuid;
  mc_rule : MatchRule;
  mc_disposition : MatchDisposition;
  mc_confidence : decimal;
  mc_explanations : list explanation
}.

Definition arithmetic_error : exn := PyExn OtherException.
Definition raised_none {A W} (r : option A) : M W A :=
  match r with Some a => mret a | None => raise arithmetic_error end.

(** [x <= y] of decimals. *)
Definition dec_le {W} (x y : decimal) : M W bool :=
  match x, y with
  | NotANumber, _ | _, NotANumber => raise arithmetic_error
  | Infinite true, _ | _, Infinite false => mret true
  | Infinite false, _ | _, Infinite true => mret false
  | Finite _ _ _, Finite _ _ _ => mret (dec_leb x y)
  end.
(** [x == y] of decimals. *)
Definition same_decimal (x y : decimal) : bool :=
  match x, y with
  | Finite _ _ _, Finite _ _ _ => dec_eqb x y
  | Infinite a, Infinite b => eqb a b
  | _, _ => false
  end.

Definition dec_1 : decimal := Finite false 1 0.
Definition hundredths (n : N) : decimal := Finite false n (-2).

(** [not Decimal(0) <= review_threshold <= Decimal(1)]. *)
Definition check_threshold {W} (threshold : decimal) : M W unit :=
  above ← dec_le dec_zero threshold;
  within ← match above with true => dec_le threshold dec_1 | false => mret false end;
  raise_if (negb within) validation_error.

(** ** Descriptors *)

Section descriptors.
Context `{Unicode} `{WordCharacters} {W : Type}.

Definition ProductIdentifier_post_init (i : ProductIdentifier) : M W ProductIdentifier :=
  normalized ← normalize_identifier (pi_value i);
  raise_if (bool_decide (pi_kind i = GTIN) && negb (is_valid_gtin normalized)) validation_error;;
  mret {| pi_kind := pi_kind i; pi_value := normalized; pi_issuer := pi_issuer i;
          pi_validated := pi_validated i; pi_method := pi_method i |}.

Definition optional_search_text (value : option pystr) : option pystr :=
  match value with
  | None => None
  | Some v => let normalized := normalize_search_text v in
              if str_truthy normalized then Some normalized else None
  end.

(** [quantity < 0]. *)
Definition reject_negative (quantity : option decimal) : M W unit :=
  match quantity with
  | None => mret tt
  | Some q => nonnegative ← dec_le dec_zero q; raise_if (negb nonnegative) validation_error
  end.

Definition product_descriptor (item retailer : uuid) (name : pystr) (identifiers : list ProductIdentifier)
    (brand manufacturer quantity_text : option pystr) (quantity : option decimal) (unit_ packaging : option pystr)
    : M W ProductDescriptor :=
  let normalized_name := normalize_search_text name in
  raise_if (negb (str_truthy normalized_name)) validation_error;;
  raise_if (bool_decide (quantity_text <> None) && bool_decide (quantity <> None \/ unit_ <> None)) validation_error;;
  reject_negative quantity;;
  normalized_quantity ← (match quantity_text with
                         | Some t => if str_truthy t then parse_quantity_text t else mret None
                         | None => mret None
                         end);
  mret {| pd_item := item; pd_retailer := retailer;
          pd_described := {|
            ds_name := name; ds_normalized_name := normalized_name; ds_identifiers := identifiers;
            ds_brand := optional_search_text brand; ds_manufacturer := optional_search_text manufacturer;
            ds_quantity := match normalized_quantity with Some q => Some (nq_amount q) | None => quantity end;
            ds_unit := match normalized_quantity with Some q => Some (py (nq_unit q)) | None => optional_search_text unit_ end;
            ds_packaging := optional_search_text packaging |} |}.

Definition canonical_product_descriptor (product : uuid) (name : pystr) (identifiers : list ProductIdentifier)
    (brand manufacturer : option pystr) (quantity : option decimal) (unit_ packaging : option pystr)
    : M W CanonicalProductDescriptor :=
  let normalized_name := normalize_search_text name in
  raise_if (negb (str_truthy normalized_name)) validation_error;;
  reject_negative quantity;;
  mret {| cd_product := product;
          cd_described := {|
            ds_name := name; ds_normalized_name := normalized_name; ds_identifiers := identifiers;
            ds_brand := optional_search_text brand; ds_manufacturer := optional_search_text manufacturer;
            ds_quantity := quantity; ds_unit := optional_search_text unit_;
            ds_packaging := optional_search_text packaging |} |}.
End descriptors.

(** ** Scores *)

Definition values_of (kind : IdentifierKind) (l : list ProductIdentifier) : list pystr :=
  map pi_value (List.filter (fun i => bool_decide (pi_kind i = kind)) l).
(** [_shared_identifier], [_shared_catalog_identifier]. *)
Definition shared_identifier (left right : Described) (kind : IdentifierKind) : option pystr :=
  str_min (common (values_of kind (ds_identifiers left)) (values_of kind (ds_identifiers right))).
(** [_shared_non_gtin_identifier], [_shared_catalog_non_gtin_identifier]. *)
Definition shared_non_gtin_identifier (left right : Described) : option ProductIdentifier :=
  let right_keys := map (fun i => (pi_kind i, pi_value i))
    (List.filter (fun i => bool_decide (pi_kind i ∉ [GTIN; ID_UNKNOWN])) (ds_identifiers right)) in
  find (fun i => bool_decide ((pi_kind i, pi_value i) ∈ right_keys)) (ds_identifiers left).

(** The tokens of both texts, and of either. *)
Definition shared_tokens (left right : pystr) : list pystr := common (remove_dups (py_words left)) (py_words right).
Definition all_tokens (left right : pystr) : list pystr := remove_dups (py_words left ++ py_words right).
Definition token_similarity (left right : pystr) : option decimal :=
  match all_tokens left right with
  | [] => Some dec_zero
  | union => dec_ratio (N.of_nat (length (shared_tokens left right))) (N.of_nat (length union))
  end.

Definition equal_present (left right : option pystr) : bool :=
  match left, right with Some a, Some b => bool_decide (a = b) | _, _ => false end.
Definition same_quantity (left right : Described) : bool :=
  match ds_quantity left, ds_quantity right, ds_unit left with
  | Some a, Some b, Some _ => same_decimal a b && bool_decide (ds_unit left = ds_unit right)
  | _, _, _ => false
  end.
Definition conflicting_gtins (left right : Described) : bool :=
  let l := values_of GTIN (ds_identifiers left) in
  let r := values_of GTIN (ds_identifiers right) in
  negb (bool_decide (l = [])) && negb (bool_decide (r = [])) && bool_decide (common l r = []).

Section scores.
Context {W : Type}.

(** [if matches: score += Decimal(...); explanations.append(...)]. *)
Definition add_when (matches : bool) (n : N) (e : explanation) (s : decimal * list explanation)
    : M W (decimal * list explanation) :=
  if matches then score ← raised_none (dec_add s.1 (hundredths n)); mret (score, s.2 ++ [e]) else mret s.

Definition structured_score (subject candidate : Described) : M W (decimal * list explanation) :=
  similarity ← raised_none (token_similarity (ds_normalized_name subject) (ds_normalized_name candidate));
  score ← raised_none (dec_mul similarity (hundredths 40));
  let s := (score, [NameSimilarity score]) in
  s ← add_when (equal_present (ds_brand subject) (ds_brand candidate)) 20 SameBrand s;
  s ← add_when (equal_present (ds_manufacturer subject) (ds_manufacturer candidate)) 15 SameManufacturer s;
  s ← add_when (same_quantity subject candidate) 20 SameQuantity s;
  s ← add_when (equal_present (ds_packaging subject) (ds_packaging candidate)) 5 SamePackaging s;
  if conflicting_gtins subject candidate then
    reduced ← raised_none (dec_sub s.1 (hundredths 25));
    mret (dec_max dec_zero reduced, s.2 ++ [DifferentGtins])
  else mret s.

(** The tail of [_compare] and of [score_catalog_candidate]. *)
Definition structured_candidate (subject candidate : uuid) (left right : Described) (threshold : decimal)
    : M W (option MatchCandidate) :=
  s ← structured_score left right;
  quantized ← raised_none (dec_quantize s.1 (-3));
  let confidence := dec_min (hundredths 99) quantized in
  enough ← dec_le threshold confidence;
  match enough with
  | true => mret (Some {| mc_subject := subject; mc_candidate := candidate; mc_rule := STRUCTURED_CANDIDATE;
                          mc_disposition := REVIEW; mc_confidence := confidence; mc_explanations := s.2 |})
  | false => mret None
  end.

Definition score_catalog_candidate (subject : ProductDescriptor) (candidate : CanonicalProductDescriptor)
    (threshold : decimal) : M W (option MatchCandidate) :=
  check_threshold threshold;;
  let left := pd_described subject in
  let right := cd_described candidate in
  let answer rule confidence explanation :=
    Some {| mc_subject := pd_item subject; mc_candidate := cd_product candidate; mc_rule := rule;
            mc_disposition := REVIEW; mc_confidence := confidence; mc_explanations := [explanation] |} in
  match shared_identifier left right GTIN with
  | Some gtin =>
      let validated := existsb (fun i => bool_decide (pi_kind i = GTIN /\ pi_value i = gtin /\ pi_issuer i = None)
                                         && pi_validated i) (ds_identifiers right) in
      mret (answer EXACT_GTIN (if validated then hundredths 100 else hundredths 98)
              (if validated then GloballyValidatedGtin gtin else RetailerScopedGtin gtin))
  | None =>
      match shared_non_gtin_identifier left right with
      | Some i => mret (answer EXACT_NORMALIZED_IDENTIFIER (hundredths 95) (SameIdentifier (pi_kind i)))
      | None => structured_candidate (pd_item subject) (cd_product candidate) left right threshold
      end
  end.

(** [_compare]. *)
Definition compare_products (subject candidate : ProductDescriptor) (threshold : decimal) : M W (option MatchCandidate) :=
  let left := pd_described subject in
  let right := pd_described candidate in
  let answer rule disposition confidence explanation :=
    Some {| mc_subject := pd_item subject; mc_candidate := pd_item candidate; mc_rule := rule;
            mc_disposition := disposition; mc_confidence := confidence; mc_explanations := [explanation] |} in
  match shared_identifier left right GTIN with
  | Some gtin =>
      let independently_corroborated := negb (bool_decide (pd_retailer subject = pd_retailer candidate)) in
      mret (answer EXACT_GTIN (if independently_corroborated then AUTO_CONFIRM else REVIEW)
              (if independently_corroborated then hundredths 100 else hundredths 98)
              (if independently_corroborated then IndependentAssertions gtin else SharedInsideRetailer gtin))
  | None =>
      match shared_non_gtin_identifier left right with
      | Some i => mret (answer EXACT_NORMALIZED_IDENTIFIER REVIEW (hundredths 95) (SameIdentifier (pi_kind i)))
      | None => structured_candidate (pd_item subject) (pd_item candidate) left right threshold
      end
  end.

(** The loop of [generate_match_candidates], and its order. *)
Fixpoint compare_all (subject : ProductDescriptor) (threshold : decimal) (l : list ProductDescriptor)
    : M W (list MatchCandidate) :=
  match l with
  | [] => mret []
  | c :: l =>
      if bool_decide (pd_item c = pd_item subject) then compare_all subject threshold l
      else
        m ← compare_products subject c threshold;
        rest ← compare_all subject threshold l;
        mret (option_list m ++ rest)
  end.
Context `{!UuidText}.
(** The key of [sorted]: the confidence, falling, and the text of the id; numbers compare by value. *)
Definition ranked_before (a b : MatchCandidate) : Prop :=
  negb (Qle_bool (dec_Q (mc_confidence a)) (dec_Q (mc_confidence b)))
  || (Qeq_bool (dec_Q (mc_confidence a)) (dec_Q (mc_confidence b))
      && str_leb (uuid_str (mc_candidate a)) (uuid_str (mc_candidate b))) = true.
#[export] Instance ranked_before_dec : RelDecision ranked_before.
Proof. intros a b. unfold ranked_before. apply _. Defined.

Definition generate_match_candidates (subject : ProductDescriptor) (blocked_candidates : list ProductDescriptor)
    (maximum_candidates : Z) (threshold : decimal) : M W (list MatchCandidate) :=
  raise_if (maximum_candidates <=? 0) (MakoletExn QueryLimitError 0);;
  raise_if (maximum_candidates <? py_len blocked_candidates) (MakoletExn QueryLimitError 0);;
  check_threshold threshold;;
  results ← compare_all subject threshold blocked_candidates;
  mret (merge_sort ranked_before results).
End scores.
