(* ===== verification/CatalogMatchingFacts.v ===== *)
(** What the scores of [CatalogMatching.v] are: the weighted sum of the shared features, rounded
    to thousandths; and the order of generated candidates. *)
From Stdlib Require Import QArith Qabs Lqa.
From stdpp Require Import sorting.
From S2P Require Import Prelude Errors Effects Enums PyNumbers Text Models SourceValues Decimals Rebuild CatalogMatching.
Open Scope Z_scope.

(** ** Sets of tokens *)

Lemma elem_of_common l k x : x ∈ common l k <-> x ∈ l /\ x ∈ k.
Proof. unfold common. rewrite list_elem_of_In, List.filter_In, <- list_elem_of_In, bool_decide_eq_true. done. Qed.
Lemma NoDup_common l k : NoDup l -> NoDup (common l k).
Proof. intros H%NoDup_ListNoDup. apply NoDup_ListNoDup. by apply List.NoDup_filter. Qed.

Lemma shared_tokens_all left right : (length (shared_tokens left right) <= length (all_tokens left right))%nat.
Proof.
  apply submseteq_length, NoDup_submseteq; [apply NoDup_common, NoDup_remove_dups|].
  intros x [Hx _]%elem_of_common. unfold all_tokens. rewrite elem_of_remove_dups in *. set_solver.
Qed.

(** The similarity of two names, exactly. *)
Definition name_similarity (left right : pystr) : Q :=
  match all_tokens left right with
  | [] => 0
  | union => ratio (N.of_nat (length (shared_tokens left right))) (N.of_nat (length union))
  end.

Lemma name_similarity_range left right : (0 <= name_similarity left right <= 1)%Q.
Proof.
  unfold name_similarity. pose proof (shared_tokens_all left right).
  destruct (all_tokens left right) as [|x l]; [split; by compute|]. apply ratio_range; simpl in *; lia.
Qed.

Lemma token_similarity_close left right : exists d, token_similarity left right = Some d /\ is_finite d = true /\
  (0 <= dec_Q d)%Q /\ (Qabs (dec_Q d - name_similarity left right) <= 10 ^ (-27))%Q.
Proof.
  unfold token_similarity, name_similarity. pose proof (shared_tokens_all left right).
  destruct (all_tokens left right) as [|x l].
  - exists dec_zero. split_and!; [done|done|by compute|by compute].
  - apply dec_ratio_close; simpl in *; lia.
Qed.

(** ** The structured score *)

Definition weight (matches : bool) (n : N) : Q := if matches then inject_Z (Z.of_N n) * (1 # 100) else 0.
Definition feature_score (l r : Described) : Q :=
  (name_similarity (ds_normalized_name l) (ds_normalized_name r) * (40 # 100)
   + weight (equal_present (ds_brand l) (ds_brand r)) 20
   + weight (equal_present (ds_manufacturer l) (ds_manufacturer r)) 15
   + weight (same_quantity l r) 20
   + weight (equal_present (ds_packaging l) (ds_packaging r)) 5)%Q.
Definition exact_score (l r : Described) : Q :=
  if conflicting_gtins l r then
    if Qle_bool (25 # 100) (feature_score l r) then feature_score l r - (25 # 100) else 0
  else feature_score l r.

Lemma weight_range b n : (n <= 20)%N -> (0 <= weight b n <= inject_Z (Z.of_N n) * (1 # 100))%Q.
Proof.
  intros Hn. unfold weight. assert (0 <= inject_Z (Z.of_N n))%Q by (change 0%Q with (inject_Z 0); rewrite <- Zle_Qle; lia).
  destruct b; split; lra.
Qed.
Lemma weights l r : (0 <= weight (equal_present (ds_brand l) (ds_brand r)) 20 <= 20 # 100)%Q /\
  (0 <= weight (equal_present (ds_manufacturer l) (ds_manufacturer r)) 15 <= 15 # 100)%Q /\
  (0 <= weight (same_quantity l r) 20 <= 20 # 100)%Q /\
  (0 <= weight (equal_present (ds_packaging l) (ds_packaging r)) 5 <= 5 # 100)%Q.
Proof. unfold weight. split_and!; case_match; by compute. Qed.

Lemma feature_score_range l r : (0 <= feature_score l r <= 1)%Q.
Proof.
  pose proof (name_similarity_range (ds_normalized_name l) (ds_normalized_name r)) as [? ?].
  pose proof (weights l r) as ([? ?] & [? ?] & [? ?] & [? ?]). unfold feature_score. split; lra.
Qed.
Lemma exact_score_range l r : (0 <= exact_score l r <= 1)%Q.
Proof.
  pose proof (feature_score_range l r) as [? ?]. unfold exact_score. destruct (conflicting_gtins l r); [|done].
  destruct (Qle_bool (25 # 100) (feature_score l r)) eqn:E; [apply Qle_bool_iff in E|]; split; lra.
Qed.

Lemma hundredths_Q n : (dec_Q (hundredths n) == inject_Z (Z.of_N n) * (1 # 100))%Q.
Proof. unfold hundredths. cbn [dec_Q]. rewrite inject_Z_mult. change (inject_Z 1) with 1%Q. change (10 ^ (-2))%Q with (1 # 100). ring. Qed.

(** [s] is [v] up to [n] roundings. *)
Definition near (n : Z) (s : decimal) (v : Q) : Prop :=
  is_finite s = true /\ (Qabs (dec_Q s - v) <= inject_Z n * 10 ^ (-27))%Q.
Lemma near_range n s v : near n s v -> 0 <= n <= 10 -> (0 <= v <= 1)%Q -> (- (1 # 10) < dec_Q s < 11 # 10)%Q.
Proof.
  intros [_ Hs] Hn Hv. apply Qabs_Qle_condition in Hs as [H1 H2].
  assert (Hu : (inject_Z n * 10 ^ (-27) <= 10 * 10 ^ (-27))%Q).
  { apply Qmult_le_compat_r; [|by compute]. change 10%Q with (inject_Z 10). rewrite <- Zle_Qle. lia. }
  assert (10 * 10 ^ (-27) < 1 # 10)%Q by (vm_compute; reflexivity). split; lra.
Qed.
Lemma rounds_near n s v r u : (Qabs (dec_Q s + u - (v + u)) <= inject_Z n * 10 ^ (-27))%Q -> rounds_to 1 (dec_Q s + u) r -> near (n + 1) r (v + u).
Proof.
  intros Hs [Hr Hc]. split; [done|]. rewrite pow10_unit in Hc. rewrite inject_Z_plus. change (inject_Z 1) with 1%Q.
  apply Qabs_Qle_condition in Hs as [? ?], Hc as [? ?]. assert (0 < 10 ^ (-27))%Q by done. apply Qabs_Qle_condition. split; lra.
Qed.
Lemma near_shift n s v u : near n s v -> (Qabs (dec_Q s + u - (v + u)) <= inject_Z n * 10 ^ (-27))%Q.
Proof. intros [_ Hs]. Qreplace (dec_Q s + u - (v + u))%Q (dec_Q s - v)%Q. done. Qed.

Section scores.
Context {W : Type}.
Implicit Types w : W.

Lemma near_weaken n m s v : near n s v -> n <= m -> near m s v.
Proof.
  intros [Hf Hs] Hn. split; [done|]. eapply Qle_trans; [exact Hs|]. apply Qmult_le_compat_r; [|by apply Qlt_le_weak].
  by rewrite <- Zle_Qle.
Qed.

Lemma add_when_near n s v b k e ex w : near n s v -> 0 <= n <= 8 -> (k <= 20)%N -> (0 <= v <= 1)%Q -> (v + weight b k <= 1)%Q ->
  exists s' ex', add_when b k e (s, ex) w = (Returned (s', ex'), w) /\ near (n + 1) s' (v + weight b k).
Proof.
  intros Hs Hn Hk Hv Hvb. unfold add_when. pose proof (weight_range b k Hk) as [Hw0 Hw1]. destruct b.
  - pose proof (near_range n s v Hs ltac:(lia) Hv) as [Hlo Hhi]. cbn [fst snd].
    assert (Hh : (dec_Q (hundredths k) == weight true k)%Q) by apply hundredths_Q.
    destruct (dec_add_rounds s (hundredths k) 1) as (r & -> & Hr); [apply Hs|done| |apply context_range_1|].
    + rewrite Hh, pow10_1. apply Qabs_case; intros _; lra.
    + eexists _, _. split; [reflexivity|]. destruct Hr as [Hfin Hr]. apply (rounds_near n s); [by apply near_shift|].
      split; [done|]. by rewrite Hh in Hr.
  - eexists _, _. split; [reflexivity|]. unfold weight. apply (near_weaken n); [|lia]. destruct Hs as [Hf Hs].
    split; [done|]. Qreplace (dec_Q s - (v + 0))%Q (dec_Q s - v)%Q. done.
Qed.

Lemma dec_max_near n s v : near n s v -> (0 <= v)%Q -> 0 <= n -> near n (dec_max dec_zero s) v.
Proof.
  intros [Hf Hs] Hv Hn. unfold dec_max. destruct (dec_ltb dec_zero s) eqn:E; [done|]. split; [done|].
  assert (Hle : (dec_Q s <= 0)%Q). { apply Qnot_lt_le. intros H. apply (dec_ltb_Q dec_zero s) in H; [congruence|done|done]. }
  change (dec_Q dec_zero) with (inject_Z 0 * 10 ^ 0)%Q. apply Qabs_Qle_condition in Hs as [H1 H2].
  apply Qabs_Qle_condition. change (inject_Z 0) with 0%Q. split; lra.
Qed.

(** Conflicting identifiers can only reduce the score, never below zero. *)
Lemma dec_max_below n s v : near n s v -> (v <= 0)%Q -> 0 <= n -> near n (dec_max dec_zero s) 0.
Proof.
  intros [Hf Hs] Hv Hn. unfold dec_max. apply Qabs_Qle_condition in Hs as [H1 H2].
  assert (0 <= inject_Z n * 10 ^ (-27))%Q.
  { apply Qmult_le_0_compat; [|by apply Qlt_le_weak]. change 0%Q with (inject_Z 0). by rewrite <- Zle_Qle. }
  destruct (dec_ltb dec_zero s) eqn:E; (split; [done|]).
  - apply (dec_ltb_Q dec_zero s) in E; [|done|done]. change (dec_Q dec_zero) with (inject_Z 0 * 10 ^ 0)%Q in E.
    change (inject_Z 0) with 0%Q in E. apply Qabs_Qle_condition. split; lra.
  - change (dec_Q dec_zero) with (inject_Z 0 * 10 ^ 0)%Q. change (inject_Z 0) with 0%Q. apply Qabs_Qle_condition. split; lra.
Qed.

Lemma structured_score_near l r w :
  exists s ex, structured_score l r w = (Returned (s, ex), w) /\ near 6 s (exact_score l r).
Proof.
  unfold structured_score. set (J := name_similarity (ds_normalized_name l) (ds_normalized_name r)).
  pose proof (name_similarity_range (ds_normalized_name l) (ds_normalized_name r)) as [HJ0 HJ1]. fold J in HJ0, HJ1.
  pose proof (feature_score_range l r) as [HF0 HF1].
  pose proof (weights l r) as ([? ?] & [? ?] & [? ?] & [? ?]).
  assert (H40 : (dec_Q (hundredths 40) == 40 # 100)%Q) by by compute.
  destruct (token_similarity_close (ds_normalized_name l) (ds_normalized_name r)) as (sim & -> & Hsf & Hs0 & Hsim). fold J in Hsim.
  apply Qabs_Qle_condition in Hsim as [Hl Hu].
  assert (H27 : (10 ^ (-27) < 1 # 100)%Q) by (vm_compute; reflexivity). assert (H27' : (0 < 10 ^ (-27))%Q) by done.
  destruct (dec_mul_rounds sim (hundredths 40) 1) as (s0 & Hmul & Hf0 & Hs0'); [done|done| |apply context_range_1|].
  { rewrite H40, pow10_1. apply Qabs_case; intros _; lra. }
  assert (N0 : near 1 s0 (J * (40 # 100))).
  { split; [done|]. rewrite H40, pow10_unit in Hs0'. change (inject_Z 1) with 1%Q.
    apply Qabs_Qle_condition in Hs0' as [? ?]. apply Qabs_Qle_condition. split; lra. }
  unfold mbind at 1, M_bind at 1. cbn [raised_none mret M_ret]. unfold mbind at 1, M_bind at 1. rewrite Hmul. cbn [raised_none mret M_ret].
  unfold feature_score in HF0, HF1. fold J in HF0, HF1.
  destruct (add_when_near 1 s0 (J * (40 # 100))%Q (equal_present (ds_brand l) (ds_brand r)) 20 SameBrand [NameSimilarity s0] w)
    as (s1 & e1 & R1 & N1); [done|lia|lia|split; lra|lra|].
  unfold mbind at 1, M_bind at 1. rewrite R1.
  destruct (add_when_near 2 s1 _ (equal_present (ds_manufacturer l) (ds_manufacturer r)) 15 SameManufacturer e1 w N1)
    as (s2 & e2 & R2 & N2); [lia|lia|split; lra|lra|].
  unfold mbind at 1, M_bind at 1. rewrite R2.
  destruct (add_when_near 3 s2 _ (same_quantity l r) 20 SameQuantity e2 w N2)
    as (s3 & e3 & R3 & N3); [lia|lia|split; lra|lra|].
  unfold mbind at 1, M_bind at 1. rewrite R3.
  destruct (add_when_near 4 s3 _ (equal_present (ds_packaging l) (ds_packaging r)) 5 SamePackaging e3 w N3)
    as (s4 & e4 & R4 & N4); [lia|lia|split; lra|lra|].
  unfold mbind at 1, M_bind at 1. rewrite R4.
  assert (N5 : near 5 s4 (feature_score l r)) by exact N4.
  unfold exact_score. pose proof (feature_score_range l r) as [HG0 HG1].
  destruct (conflicting_gtins l r); [|eexists _, _; split; [reflexivity|by apply (near_weaken 5)]].
  cbn [fst snd]. assert (H25 : (dec_Q (hundredths 25) == 25 # 100)%Q) by by compute.
  pose proof (near_range 5 s4 _ N5 ltac:(lia) (conj HG0 HG1)) as [Hlo Hhi].
  destruct (dec_sub_rounds s4 (hundredths 25) 1) as (s5 & -> & Hf5 & Hs5); [apply N5|done| |apply context_range_1|].
  { rewrite H25, pow10_1. apply Qabs_case; intros _; lra. }
  assert (N6 : near 6 s5 (feature_score l r - (25 # 100))).
  { split; [done|]. rewrite H25, pow10_unit in Hs5. destruct N5 as [_ N5]. change (inject_Z 5) with 5%Q in N5. change (inject_Z 6) with 6%Q.
    apply Qabs_Qle_condition in Hs5 as [? ?], N5 as [? ?]. apply Qabs_Qle_condition. split; lra. }
  eexists _, _. split; [reflexivity|]. destruct (Qle_bool (25 # 100) (feature_score l r)) eqn:E.
  - apply Qle_bool_iff in E. apply dec_max_near; [done|lra|lia].
  - apply dec_max_below with (v := (feature_score l r - (25 # 100))%Q); [done| |lia].
    assert (~ (25 # 100 <= feature_score l r)%Q) as Hn by (intros H'; apply Qle_bool_iff in H'; congruence).
    apply Qnot_le_lt in Hn. lra.
Qed.
(** ** Confidence *)

Definition exact_confidence (l r : Described) : Q :=
  if Qle_bool (99 # 100) (exact_score l r) then 99 # 100 else exact_score l r.

(** A confidence is a number of thousandths, within rounding of the exact one. *)
Definition confidence_of (l r : Described) (c : decimal) : Prop :=
  is_finite c = true /\ (0 <= dec_Q c <= 99 # 100)%Q /\ (Qabs (dec_Q c - exact_confidence l r) <= 51 # 100000)%Q.

Lemma Qle_bool_false a b : Qle_bool a b = false -> (b < a)%Q.
Proof. intros E. apply Qnot_le_lt. intros H%Qle_bool_iff. congruence. Qed.

Lemma thousandths_nonneg neg c : (- (1 # 1000) < dec_Q (Finite neg c (-3)))%Q -> (0 <= dec_Q (Finite neg c (-3)))%Q.
Proof.
  assert (H3 : (10 ^ (-3) == 1 # 1000)%Q) by done.
  rewrite dec_Q_mag. unfold mag. rewrite H3. destruct neg.
  - intros H. destruct (N.eq_0_gt_0_cases c) as [->|Hc]; [by compute|]. exfalso.
    assert (1 <= inject_Z (Z.of_N c))%Q by (change 1%Q with (inject_Z 1); rewrite <- Zle_Qle; lia). lra.
  - intros _. assert (0 <= inject_Z (Z.of_N c))%Q by (change 0%Q with (inject_Z 0); rewrite <- Zle_Qle; lia). lra.
Qed.

Lemma quantized_confidence l r s : near 6 s (exact_score l r) ->
  exists q, dec_quantize s (-3) = Some q /\ confidence_of l r (dec_min (hundredths 99) q).
Proof.
  intros Hs. pose proof (exact_score_range l r) as [H0 H1].
  pose proof (near_range 6 s _ Hs ltac:(lia) (conj H0 H1)) as [Hlo Hhi]. destruct Hs as [Hf Hs].
  destruct (dec_quantize_close s (-3) 1 Hf) as (neg & c & -> & Hq); [|by vm_compute|lia|].
  { rewrite pow10_1. apply Qabs_case; intros _; lra. }
  eexists. split; [reflexivity|]. set (q := Finite neg c (-3)) in *.
  change (10 ^ (-3) * (1 # 2))%Q with (1 # 2000)%Q in Hq.
  assert (H26 : (inject_Z 6 * 10 ^ (-27) < 1 # 100000)%Q) by (vm_compute; reflexivity).
  apply Qabs_Qle_condition in Hs as [Hs1 Hs2], Hq as [Hq1 Hq2].
  assert (Hq0 : (0 <= dec_Q q)%Q) by (apply thousandths_nonneg; unfold q in *; lra).
  assert (H99 : (dec_Q (hundredths 99) == 99 # 100)%Q) by by compute.
  unfold confidence_of, dec_min, exact_confidence. destruct (dec_ltb q (hundredths 99)) eqn:E.
  - apply dec_ltb_Q in E; [|done|done]. rewrite H99 in E. split; [done|]. split; [split; lra|].
    destruct (Qle_bool _ _) eqn:E2; [apply Qle_bool_iff in E2|]; apply Qabs_Qle_condition; split; lra.
  - assert (Hge : (99 # 100 <= dec_Q q)%Q).
    { rewrite <- H99. apply Qnot_lt_le. intros H. apply (dec_ltb_Q q (hundredths 99)) in H; [congruence|done|done]. }
    split; [done|]. rewrite H99. split; [split; lra|].
    destruct (Qle_bool _ _) eqn:E2; [apply Qle_bool_iff in E2|apply Qle_bool_false in E2]; apply Qabs_Qle_condition; split; lra.
Qed.

Lemma structured_candidate_spec l r t w : is_finite t = true ->
  exists c ex, confidence_of l r c /\ forall a b, structured_candidate a b l r t w =
    (Returned (if dec_leb t c then Some {| mc_subject := a; mc_candidate := b; mc_rule := STRUCTURED_CANDIDATE;
       mc_disposition := REVIEW; mc_confidence := c; mc_explanations := ex |} else None), w).
Proof.
  intros Ht. destruct (structured_score_near l r w) as (s & ex & Hrun & Hs).
  destruct (quantized_confidence l r s Hs) as (q & Hq & Hc). exists (dec_min (hundredths 99) q), ex. split; [done|]. intros a b.
  unfold structured_candidate. unfold mbind at 1, M_bind at 1. rewrite Hrun. unfold mbind at 1, M_bind at 1. cbn [fst snd]. rewrite Hq.
  cbn [raised_none mret M_ret]. destruct Hc as [Hfin _]. unfold mbind, M_bind, dec_le.
  destruct t; try done. destruct (dec_min (hundredths 99) q) as [n c e| |]; try done. cbn [mret M_ret].
  by destruct (dec_leb _ _).
Qed.
End scores.

(** ** The matches of a block *)

Lemma uniform_bind {A B W} (m : M W A) (m0 : M unit A) (f : A -> M W B) (f0 : A -> M unit B) (w : W) :
  m w = ((m0 tt).1, w) -> (forall a, f a w = ((f0 a tt).1, w)) -> (m ≫= f) w = (((m0 ≫= f0) tt).1, w).
Proof. intros Hm Hf. unfold mbind, M_bind. rewrite Hm. destruct (m0 tt) as [[a|e] []]; simpl; [apply Hf|done]. Qed.

Section matches.
Context {W : Type}.
Implicit Types w : W.

Lemma uniform_none {A} (r : option A) w : raised_none r w = ((raised_none (W := unit) r tt).1, w).
Proof. by destruct r. Qed.
Lemma uniform_le x y w : dec_le x y w = ((dec_le (W := unit) x y tt).1, w).
Proof. destruct x as [| [] |], y as [| [] |]; done. Qed.
Lemma uniform_add b n e s w : add_when b n e s w = ((add_when (W := unit) b n e s tt).1, w).
Proof. unfold add_when. destruct b; [|done]. apply uniform_bind; [apply uniform_none|done]. Qed.
Lemma uniform_score l r w : structured_score l r w = ((structured_score (W := unit) l r tt).1, w).
Proof.
  unfold structured_score. apply uniform_bind; [apply uniform_none|]. intros sim. apply uniform_bind; [apply uniform_none|]. intros s0.
  do 4 (apply uniform_bind; [apply uniform_add|]; intros ?). destruct (conflicting_gtins l r); [|done].
  apply uniform_bind; [apply uniform_none|done].
Qed.
Lemma uniform_candidate a b l r t w : structured_candidate a b l r t w = ((structured_candidate (W := unit) a b l r t tt).1, w).
Proof.
  unfold structured_candidate. apply uniform_bind; [apply uniform_score|]. intros s. apply uniform_bind; [apply uniform_none|]. intros q.
  apply uniform_bind; [apply uniform_le|]. by intros [].
Qed.
Lemma uniform_compare s c t w : compare_products s c t w = ((compare_products (W := unit) s c t tt).1, w).
Proof. unfold compare_products. destruct (shared_identifier _ _ _); [done|]. destruct (shared_non_gtin_identifier _ _); [done|]. apply uniform_candidate. Qed.

(** The match of a candidate, if any. *)
Definition match_of (s : ProductDescriptor) (t : decimal) (c : ProductDescriptor) : option MatchCandidate :=
  match (compare_products (W := unit) s c t tt).1 with Returned m => m | Raised _ => None end.

Lemma compare_products_match s c t w : is_finite t = true -> compare_products s c t w = (Returned (match_of s t c), w).
Proof.
  intros Ht. rewrite uniform_compare. unfold match_of. f_equal. unfold compare_products.
  destruct (shared_identifier _ _ _); [done|]. destruct (shared_non_gtin_identifier _ _); [done|].
  destruct (structured_candidate_spec (pd_described s) (pd_described c) t tt Ht) as (x & ex & _ & ->). done.
Qed.

Definition others (s : ProductDescriptor) (l : list ProductDescriptor) : list ProductDescriptor :=
  List.filter (fun c => negb (bool_decide (pd_item c = pd_item s))) l.
Lemma compare_all_matches s t l w : is_finite t = true -> compare_all s t l w = (Returned (omap (match_of s t) (others s l)), w).
Proof.
  intros Ht. induction l as [|c l IH]; [done|]. cbn [compare_all others List.filter]. case_bool_decide; cbn [negb]; [exact IH|].
  unfold mbind, M_bind. rewrite compare_products_match by done. rewrite IH. cbn [mret M_ret]. fold (others s l).
  cbn [omap list_omap]. by destruct (match_of s t c).
Qed.

Lemma check_threshold_spec t w : check_threshold t w =
  ((if is_finite t then if dec_leb dec_zero t && dec_leb t dec_1 then Returned tt else Raised validation_error
    else match t with Infinite _ => Raised validation_error | _ => Raised arithmetic_error end), w).
Proof.
  unfold check_threshold, mbind, M_bind. destruct t as [n c e| [] |]; try done. unfold dec_le, dec_1, dec_zero, mret, M_ret. cbn [is_finite].
  destruct (dec_leb (Finite false 0 0) (Finite n c e)); [|done]. by destruct (dec_leb (Finite n c e) (Finite false 1 0)).
Qed.

(** ** The rules *)

Lemma elem_of_values kind l v : v ∈ values_of kind l <-> exists i, i ∈ l /\ pi_kind i = kind /\ pi_value i = v.
Proof.
  unfold values_of. rewrite list_elem_of_fmap. setoid_rewrite list_elem_of_In. setoid_rewrite List.filter_In.
  setoid_rewrite bool_decide_eq_true. naive_solver.
Qed.
Lemma str_min_elem l m : str_min l = Some m -> m ∈ l.
Proof.
  destruct l as [|x l]; [done|]. cbn [str_min]. intros [= <-]. revert x.
  induction l as [|y l IH]; intros x; cbn [foldl]; [set_solver|]. destruct (str_leb x y); [|specialize (IH y); set_solver].
  specialize (IH x). set_solver.
Qed.
Lemma str_min_none l : str_min l = None <-> l = [].
Proof. by destruct l. Qed.

Definition carries (d : Described) (kind : IdentifierKind) (v : pystr) : Prop :=
  exists i, i ∈ ds_identifiers d /\ pi_kind i = kind /\ pi_value i = v.
Definition same_gtin (l r : Described) : Prop := exists v, carries l GTIN v /\ carries r GTIN v.

Lemma shared_gtin_some l r v : shared_identifier l r GTIN = Some v -> carries l GTIN v /\ carries r GTIN v.
Proof. intros [H1 H2]%str_min_elem%elem_of_common. split; by apply elem_of_values. Qed.
Lemma shared_gtin_none l r : shared_identifier l r GTIN = None <-> ~ same_gtin l r.
Proof.
  unfold shared_identifier. rewrite str_min_none. split.
  - intros E (v & H1 & H2). assert (v ∈ common (values_of GTIN (ds_identifiers l)) (values_of GTIN (ds_identifiers r)))
      by (apply elem_of_common; split; by apply elem_of_values). rewrite E in *. set_solver.
  - intros Hn. destruct (common _ _) as [|v k] eqn:E; [done|]. exfalso. apply Hn. exists v.
    assert (v ∈ common (values_of GTIN (ds_identifiers l)) (values_of GTIN (ds_identifiers r))) as [H1 H2]%elem_of_common
      by (rewrite E; set_solver). split; by apply elem_of_values.
Qed.

Lemma match_of_gtin s t c : same_gtin (pd_described s) (pd_described c) -> exists v,
  carries (pd_described s) GTIN v /\ carries (pd_described c) GTIN v /\
  match_of s t c = Some {| mc_subject := pd_item s; mc_candidate := pd_item c; mc_rule := EXACT_GTIN;
    mc_disposition := if bool_decide (pd_retailer s = pd_retailer c) then REVIEW else AUTO_CONFIRM;
    mc_confidence := if bool_decide (pd_retailer s = pd_retailer c) then hundredths 98 else hundredths 100;
    mc_explanations := [if bool_decide (pd_retailer s = pd_retailer c) then SharedInsideRetailer v else IndependentAssertions v] |}.
Proof.
  intros Hs. unfold match_of, compare_products. destruct (shared_identifier _ _ _) as [v|] eqn:E; [|by apply shared_gtin_none in E].
  destruct (shared_gtin_some _ _ _ E). exists v. split_and!; [done|done|]. by case_bool_decide.
Qed.

(** A candidate without a shared GTIN is only for review. *)
Lemma match_of_review s t c m : ~ same_gtin (pd_described s) (pd_described c) -> is_finite t = true ->
  match_of s t c = Some m ->
  mc_subject m = pd_item s /\ mc_candidate m = pd_item c /\ mc_disposition m = REVIEW /\
  ((exists i, i ∈ ds_identifiers (pd_described s) /\ carries (pd_described c) (pi_kind i) (pi_value i) /\
      mc_rule m = EXACT_NORMALIZED_IDENTIFIER /\ mc_confidence m = hundredths 95 /\ mc_explanations m = [SameIdentifier (pi_kind i)]) \/
   mc_rule m = STRUCTURED_CANDIDATE /\ confidence_of (pd_described s) (pd_described c) (mc_confidence m) /\
   dec_leb t (mc_confidence m) = true).
Proof.
  intros Hn%shared_gtin_none Ht. unfold match_of, compare_products. rewrite Hn.
  destruct (shared_non_gtin_identifier _ _) as [i|] eqn:E.
  - cbn. intros [= <-]. cbn. split_and!; [done..|]. left. exists i. unfold shared_non_gtin_identifier in E.
    pose proof (List.find_some _ _ E) as [Hin Hk]. apply list_elem_of_In in Hin. apply bool_decide_eq_true in Hk.
    apply list_elem_of_fmap in Hk as (j & Hj & Hin2). apply list_elem_of_In, List.filter_In in Hin2 as [Hin2 _].
    split_and!; try done. exists j. rewrite list_elem_of_In. split_and!; [done|congruence|congruence].
  - destruct (structured_candidate_spec (pd_described s) (pd_described c) t tt Ht) as (x & ex & Hx & ->).
    cbn. destruct (dec_leb t x) eqn:Hle; [|done]. intros [= <-]. cbn. split_and!; try done. right. done.
Qed.
End matches.

(** ** The order *)

Lemma str_leb_refl a : str_leb a a = true.
Proof. induction a as [|x a IH]; [done|]. simpl. by rewrite Z.eqb_refl, IH, orb_true_r. Qed.
Lemma str_leb_total a b : str_leb a b = true \/ str_leb b a = true.
Proof.
  revert b. induction a as [|x a IH]; intros [|y b]; [by left..|by right|]. simpl.
  destruct (Z.ltb_spec x y), (Z.ltb_spec y x), (Z.eqb_spec x y), (Z.eqb_spec y x); simpl; try lia; auto.
Qed.
Lemma str_leb_trans a b c : str_leb a b = true -> str_leb b c = true -> str_leb a c = true.
Proof.
  revert b c. induction a as [|x a IH]; intros [|y b] [|z c]; simpl; try done.
  intros H1%orb_true_iff H2%orb_true_iff. apply orb_true_iff. rewrite !andb_true_iff, !Z.ltb_lt, !Z.eqb_eq in *.
  destruct H1 as [H1|[-> H1]], H2 as [H2|[-> H2]]; [left; lia|left; lia|left; lia|right; eauto].
Qed.
Lemma str_leb_anti a b : str_leb a b = true -> str_leb b a = true -> a = b.
Proof.
  revert b. induction a as [|x a IH]; intros [|y b]; simpl; try done.
  intros H1%orb_true_iff H2%orb_true_iff. rewrite !andb_true_iff, !Z.ltb_lt, !Z.eqb_eq in *.
  destruct H1 as [H1|[-> H1]], H2 as [H2|[E2 H2]]; try lia. f_equal. auto.
Qed.

Section order.
Context `{!UuidText}.

Lemma ranked_before_spec a b : ranked_before a b <->
  (dec_Q (mc_confidence b) < dec_Q (mc_confidence a))%Q \/
  (dec_Q (mc_confidence a) == dec_Q (mc_confidence b))%Q /\ str_leb (uuid_str (mc_candidate a)) (uuid_str (mc_candidate b)) = true.
Proof.
  unfold ranked_before. rewrite orb_true_iff, andb_true_iff, negb_true_iff, Qeq_bool_iff. split; (intros [Hl|Hr]; [left|by right]).
  - by apply Qle_bool_false.
  - apply not_true_iff_false. rewrite Qle_bool_iff. by apply Qlt_not_le.
Qed.
#[export] Instance ranked_before_total : Total ranked_before.
Proof.
  intros a b. rewrite !ranked_before_spec. destruct (Q_dec (dec_Q (mc_confidence a)) (dec_Q (mc_confidence b))) as [[?|?]|He]; auto.
  destruct (str_leb_total (uuid_str (mc_candidate a)) (uuid_str (mc_candidate b))); [auto|]. right. right. by split; [symmetry|].
Qed.
#[export] Instance ranked_before_trans : Transitive ranked_before.
Proof.
  intros a b c. rewrite !ranked_before_spec. intros [H1|[H1 S1]] [H2|[H2 S2]].
  - left. by eapply Qlt_trans.
  - left. by rewrite <- H2.
  - left. by rewrite H1.
  - right. split; [by rewrite H1|]. by eapply str_leb_trans.
Qed.
Lemma ranked_before_anti `{!UuidTextOk} a b : valid_uuid (mc_candidate a) -> valid_uuid (mc_candidate b) ->
  ranked_before a b -> ranked_before b a -> mc_candidate a = mc_candidate b.
Proof.
  intros Ha Hb. rewrite !ranked_before_spec. intros [H1|[H1 S1]] [H2|[H2 S2]].
  - by apply Qlt_le_weak, Qle_not_lt in H2.
  - rewrite H2 in H1. by apply Qlt_irrefl in H1.
  - rewrite H1 in H2. by apply Qlt_irrefl in H2.
  - pose proof (str_leb_anti _ _ S1 S2) as E. apply (f_equal uuid_of) in E. rewrite !uuid_of_str in E by done. congruence.
Qed.

(** Sorting does not depend on the order of what is sorted, when the candidates differ. *)
Lemma ranked_unique `{!UuidTextOk} l k : l ≡ₚ k -> NoDup (map mc_candidate l) ->
  (forall m, m ∈ l -> valid_uuid (mc_candidate m)) -> merge_sort ranked_before l = merge_sort ranked_before k.
Proof.
  intros Hp Hn Hv. apply (StronglySorted_unique_strong ranked_before).
  - intros a b Ha Hb H1 H2. rewrite merge_sort_Permutation in Ha. rewrite merge_sort_Permutation, <- Hp in Hb.
    apply list_elem_of_lookup in Ha as [i Hi], Hb as [j Hj].
    assert (E : mc_candidate a = mc_candidate b) by (apply ranked_before_anti; [apply Hv, list_elem_of_lookup; eauto..|done|done]).
    assert (i = j) as <-; [|congruence]. eapply (NoDup_lookup (map mc_candidate l)); [done|..].
    + by rewrite list_lookup_fmap, Hi.
    + rewrite list_lookup_fmap, Hj. simpl. by rewrite E.
  - apply StronglySorted_merge_sort; apply _.
  - apply StronglySorted_merge_sort; apply _.
  - by rewrite !merge_sort_Permutation.
Qed.
End order.
