(* ===== verification/CatalogReview.v ===== *)
(** Review of catalog matches: [src/src/makolet/adapters/persistence/catalog_matching.py] and
    [src/src/makolet/application/catalog_matching.py].

    A statement is a function of the tables; the temporary table of subjects is the list a
    transaction selects.  The distance of two names is the trigram distance of PostgreSQL, and
    [collate] its order of texts.  A quantity column counts millionths. *)
From Stdlib Require Import QArith.
From stdpp Require Import sorting.
From S2P Require Import Prelude Errors Effects Enums PyNumbers Text Models SourceValues Decimals Rebuild Maintenance CatalogMatching.
Open Scope Z_scope.

(** ** Tables *)

(** [retailer_items], as far as matching reads it. *)
Record SubjectRow := {
  sj_retailer : uuid;
  sj_portal : uuid;
  sj_code : pystr;
  sj_gtin : option pystr;
  sj_name : pystr;
  sj_manufacturer : option pystr;
  sj_quantity : option Z;
  sj_unit : option pystr;
  sj_unit_quantity : option pystr;
  sj_package : option Z;
  sj_source_file : uuid
}.
Inductive product_status := PRODUCT_ACTIVE | PRODUCT_MERGED | PRODUCT_RETIRED.
#[export] Instance product_status_eq_dec : EqDecision product_status.
Proof. solve_decision. Defined.
(** [canonical_products]. *)
Record ProductRow := {
  pr_name : pystr;
  pr_brand : option pystr;
  pr_manufacturer : option pystr;
  pr_quantity : option Z;
  pr_unit : option pystr;
  pr_product_status : product_status
}.
(** [product_identifiers]. *)
Record IdentifierRow := {
  ir_product : uuid;
  ir_kind : IdentifierKind;
  ir_value : pystr;
  ir_normalized : pystr;
  ir_issuer : option uuid;
  ir_portal : option uuid;
  ir_validated : bool;
  ir_validation : option string
}.
(** A row of the candidate block. *)
Record BlockRow := {
  br_item : uuid;
  br_subject : SubjectRow;
  br_product : uuid;
  br_canonical : ProductRow;
  br_unit_quantity : option pystr;
  br_package : option Z;
  br_identifiers : list IdentifierRow
}.

Inductive CandidateStatus := PENDING | ACCEPTED | REJECTED | SUPERSEDED.
#[export] Instance CandidateStatus_eq_dec : EqDecision CandidateStatus.
Proof. solve_decision. Defined.

(** [product_match_candidates] with the [evidence] of [_proposal], and of the conflicts that
    [_match_exact_gtins] records; the column [method] is a name of the rule, or
    [exact_identifier_conflict]. *)
Record Evidence := {
  ev_rule : MatchRule;
  ev_disposition : MatchDisposition;
  ev_explanations : list explanation;
  ev_generated_at : Z;
  ev_row : BlockRow
}.
Inductive CandidateMethod := ByRule (r : MatchRule) | EXACT_IDENTIFIER_CONFLICT.
#[export] Instance CandidateMethod_eq_dec : EqDecision CandidateMethod.
Proof. solve_decision. Defined.
Inductive ConflictReason := MANUAL_MATCH_DISAGREES | RETAILER_SCOPE_DISAGREES | VALIDATED_GLOBAL_DISAGREES.
Inductive CandidateEvidence := Scored (e : Evidence) | Conflicting (gtin : pystr) (reason : ConflictReason) (source_file : uuid).
Record CandidateRow := {
  ca_item : uuid;
  ca_product : uuid;
  ca_method : CandidateMethod;
  ca_score : decimal;
  ca_status : CandidateStatus;
  ca_evidence : CandidateEvidence;
  ca_created_at : Z;
  ca_reviewed_at : option Z;
  ca_reviewed_by : option pystr
}.

(** [confirmed_product_matches], by item. *)
Inductive match_evidence :=
  | SingleItem (retailer portal : uuid) (code : pystr)
  | ExactGtin (assertion : uuid) (gtin : pystr) (retailer source_file : uuid) (validation : option string)
  | Reviewed (candidate : uuid) (method : CandidateMethod) (score : decimal) (evidence : CandidateEvidence) (superseded : uuid).
Record MatchRow := {
  ma_product : uuid;
  ma_method : string;
  ma_evidence : match_evidence;
  ma_confirmed_at : Z;
  ma_confirmed_by : pystr
}.

(** [retailer_identifier_assertions]. *)
Record AssertionRow := {
  as_item : uuid;
  as_kind : IdentifierKind;
  as_value : pystr;
  as_source_file : uuid;
  as_method : string;
  as_asserted_at : Z;
  as_superseded_at : option Z
}.

(** [mt_groups] is [identifier_match_groups]: the product of a GTIN, the only kind there is a group of;
    [mt_next_id] is the
    source of [uuidv7()]. *)
Record MatchTables := {
  mt_items : gmap uuid SubjectRow;
  mt_products : gmap uuid ProductRow;
  mt_matches : gmap uuid MatchRow;
  mt_candidates : gmap uuid CandidateRow;
  mt_identifiers : gmap uuid IdentifierRow;
  mt_assertions : gmap uuid AssertionRow;
  mt_groups : gmap pystr uuid;
  mt_next_id : uuid;
  mt_clock : Z
}.
Definition set_items f (t : MatchTables) : MatchTables := {|
  mt_items := f (mt_items t); mt_products := mt_products t; mt_matches := mt_matches t;
  mt_candidates := mt_candidates t; mt_identifiers := mt_identifiers t; mt_assertions := mt_assertions t;
  mt_groups := mt_groups t; mt_next_id := mt_next_id t; mt_clock := mt_clock t |}.
Definition set_products f (t : MatchTables) : MatchTables := {|
  mt_items := mt_items t; mt_products := f (mt_products t); mt_matches := mt_matches t;
  mt_candidates := mt_candidates t; mt_identifiers := mt_identifiers t; mt_assertions := mt_assertions t;
  mt_groups := mt_groups t; mt_next_id := mt_next_id t; mt_clock := mt_clock t |}.
Definition set_matches f (t : MatchTables) : MatchTables := {|
  mt_items := mt_items t; mt_products := mt_products t; mt_matches := f (mt_matches t);
  mt_candidates := mt_candidates t; mt_identifiers := mt_identifiers t; mt_assertions := mt_assertions t;
  mt_groups := mt_groups t; mt_next_id := mt_next_id t; mt_clock := mt_clock t |}.
Definition set_candidates f (t : MatchTables) : MatchTables := {|
  mt_items := mt_items t; mt_products := mt_products t; mt_matches := mt_matches t;
  mt_candidates := f (mt_candidates t); mt_identifiers := mt_identifiers t; mt_assertions := mt_assertions t;
  mt_groups := mt_groups t; mt_next_id := mt_next_id t; mt_clock := mt_clock t |}.
Definition set_identifiers f (t : MatchTables) : MatchTables := {|
  mt_items := mt_items t; mt_products := mt_products t; mt_matches := mt_matches t;
  mt_candidates := mt_candidates t; mt_identifiers := f (mt_identifiers t); mt_assertions := mt_assertions t;
  mt_groups := mt_groups t; mt_next_id := mt_next_id t; mt_clock := mt_clock t |}.
Definition set_assertions f (t : MatchTables) : MatchTables := {|
  mt_items := mt_items t; mt_products := mt_products t; mt_matches := mt_matches t;
  mt_candidates := mt_candidates t; mt_identifiers := mt_identifiers t; mt_assertions := f (mt_assertions t);
  mt_groups := mt_groups t; mt_next_id := mt_next_id t; mt_clock := mt_clock t |}.
Definition set_groups f (t : MatchTables) : MatchTables := {|
  mt_items := mt_items t; mt_products := mt_products t; mt_matches := mt_matches t;
  mt_candidates := mt_candidates t; mt_identifiers := mt_identifiers t; mt_assertions := mt_assertions t;
  mt_groups := f (mt_groups t); mt_next_id := mt_next_id t; mt_clock := mt_clock t |}.
Definition set_next n (t : MatchTables) : MatchTables := {|
  mt_items := mt_items t; mt_products := mt_products t; mt_matches := mt_matches t;
  mt_candidates := mt_candidates t; mt_identifiers := mt_identifiers t; mt_assertions := mt_assertions t;
  mt_groups := mt_groups t; mt_next_id := n; mt_clock := mt_clock t |}.
Definition next_uuid : M MatchTables uuid :=
  t ← get_state;
  put_state (set_next (mt_next_id t + 1) t);;
  mret (mt_next_id t).

(** [INSERT ... ON CONFLICT (key) DO UPDATE] of one row, where [update] says what becomes of the
    row that is there. *)
Definition insert_row {V K} `{EqDecision K} (key : V -> K) (update : V -> V)
    (set_rows : (gmap uuid V -> gmap uuid V) -> MatchTables -> MatchTables) (r : V) : M MatchTables unit :=
  i ← next_uuid;
  modify (set_rows (fun m =>
    match find (fun p => bool_decide (key p.2 = key r)) (map_to_list m) with
    | Some (j, q) => <[ j := update q ]> m
    | None => <[ i := r ]> m
    end)).

Definition ISOLATED_METHOD : string := "isolated_retailer_item".
Definition ISOLATED_ACTOR : pystr := py "system:isolated-catalog".
Definition BOOTSTRAP_BATCH_SIZE : nat := 500.

(** The order of the database, and the texts it prints. *)
Class Trigrams := { name_search : pystr -> pystr; trigram_distance : pystr -> pystr -> Q }.

(** [str(value)] of a column that counts millionths. *)
Fixpoint digits_of (fuel : nat) (n : N) (acc : pystr) : pystr :=
  match fuel with
  | O => acc
  | S fuel => digits_of fuel (n / 10) (48 + Z.of_N (n mod 10) :: acc)
  end.
Definition millionths_text (n : Z) : pystr :=
  let whole := Z.to_N (n / 1000000) in
  digits_of (Z.to_nat (ndigits whole)) whole [] ++ [46] ++ digits_of 6 (Z.to_N (n mod 1000000)) [].
Definition millionths (n : Z) : decimal := Finite (n <? 0) (Z.to_N (Z.abs n)) (-6).

(** [_packaging], [_optional_string]. *)
Definition packaging (unit_quantity : option pystr) (package : option Z) : option pystr :=
  let components :=
    match unit_quantity with Some u => if str_truthy (py_strip u) then [py_strip u] else [] | None => [] end
    ++ match package with Some n => [py "package " ++ millionths_text n] | None => [] end in
  match components with
  | [] => None
  | [a] => Some a
  | a :: b :: _ => Some (a ++ py " | " ++ b)
  end.
Definition optional_string (value : option pystr) : option pystr :=
  match value with
  | Some v => if str_truthy (py_strip v) then Some (py_strip v) else None
  | None => None
  end.
Example packaging_runs : packaging (Some (py " 6 ")) (Some 12500000) = Some (py "6 | package 12.500000").
Proof. reflexivity. Qed.

(** ** Subjects *)

(** A row of [makolet_catalog_subjects]; the table is ordered by its [sequence]. *)
Record Subject := {
  sb_item : uuid;
  sb_row : SubjectRow;
  sb_method : option string;
  sb_isolated : uuid
}.
Definition by_id {A} (l : list (uuid * A)) : list (uuid * A) := order_by (fun p => (p.1, 0)) l.
Definition beyond (cursor : option uuid) (i : uuid) : bool :=
  match cursor with Some c => c <? i | None => true end.

(** [COALESCE(confirmed.canonical_product_id, uuidv7())]. *)
Fixpoint subjects_of (matches : gmap uuid MatchRow) (l : list (uuid * SubjectRow)) : M MatchTables (list Subject) :=
  match l with
  | [] => mret []
  | (i, r) :: l =>
      isolated ← (match matches !! i with Some m => mret (ma_product m) | None => next_uuid end);
      rest ← subjects_of matches l;
      mret ({| sb_item := i; sb_row := r; sb_method := ma_method <$> matches !! i; sb_isolated := isolated |} :: rest)
  end.

(** [_select_subjects], [_select_source_subjects]. *)
Definition unreviewed (t : MatchTables) (i : uuid) : bool :=
  match mt_matches t !! i with
  | None => true
  | Some m => bool_decide (ma_method m = ISOLATED_METHOD)
  end.
Definition select_subjects (cursor : option uuid) (item_limit : nat) : M MatchTables (list Subject) :=
  t ← get_state;
  subjects_of (mt_matches t) (take (item_limit + 1)
    (by_id (List.filter (fun p => unreviewed t p.1 && beyond cursor p.1) (map_to_list (mt_items t))))).
Definition unmatched_of (source : uuid) (t : MatchTables) (p : uuid * SubjectRow) : bool :=
  bool_decide (sj_source_file p.2 = source) && bool_decide (mt_matches t !! p.1 = None).
Definition select_source_subjects (source : uuid) (cursor : option uuid) : M MatchTables (list Subject) :=
  t ← get_state;
  subjects_of (mt_matches t) (take (BOOTSTRAP_BATCH_SIZE + 1)
    (by_id (List.filter (fun p => unmatched_of source t p && beyond cursor p.1) (map_to_list (mt_items t))))).

(** ** Isolated products *)

(** The unique key of [product_identifiers]. *)
Definition identifier_key (r : IdentifierRow) : IdentifierKind * pystr * option uuid * option uuid :=
  (ir_kind r, ir_normalized r, ir_issuer r, ir_portal r).
Definition insert_identifier : IdentifierRow -> M MatchTables unit := insert_row identifier_key id set_identifiers.

Definition isolated_product (r : SubjectRow) : ProductRow := {| pr_name := sj_name r; pr_brand := None;
  pr_manufacturer := sj_manufacturer r; pr_quantity := sj_quantity r; pr_unit := sj_unit r;
  pr_product_status := PRODUCT_ACTIVE |}.
Definition isolated_match (s : Subject) (now : Z) : MatchRow := {| ma_product := sb_isolated s;
  ma_method := ISOLATED_METHOD;
  ma_evidence := SingleItem (sj_retailer (sb_row s)) (sj_portal (sb_row s)) (sj_code (sb_row s));
  ma_confirmed_at := now; ma_confirmed_by := ISOLATED_ACTOR |}.
Definition isolated_identifier (s : Subject) : IdentifierRow := {| ir_product := sb_isolated s;
  ir_kind := RETAILER_ITEM; ir_value := sj_code (sb_row s); ir_normalized := sj_code (sb_row s);
  ir_issuer := Some (sj_retailer (sb_row s)); ir_portal := Some (sj_portal (sb_row s));
  ir_validated := true; ir_validation := Some ISOLATED_METHOD |}.

(** Whether a product has a confirmed match. *)
Definition is_matched (p : uuid) (matches : gmap uuid MatchRow) : bool :=
  existsb (fun m => bool_decide (ma_product m.2 = p)) (map_to_list matches).
(** The match a subject was given is its isolated one. *)
Definition is_isolated (s : Subject) (matches : gmap uuid MatchRow) : bool :=
  match matches !! sb_item s with
  | Some m => bool_decide (ma_product m = sb_isolated s) && bool_decide (ma_method m = ISOLATED_METHOD)
  | None => false
  end.

(** [_bootstrap_isolated_products]. *)
Definition bootstrap_isolated_products (subjects : list Subject) (item_limit : nat) : M MatchTables Z :=
  let selected := take item_limit subjects in
  let fresh := List.filter (fun s => bool_decide (sb_method s = None)) selected in
  t ← get_state;
  modify (set_products (fun m => foldl (fun m s => <[ sb_isolated s := isolated_product (sb_row s) ]> m) m fresh));;
  let inserted := List.filter (fun s => bool_decide (mt_matches t !! sb_item s = None)) fresh in
  modify (set_matches (fun m => foldl (fun m s => <[ sb_item s := isolated_match s (mt_clock t) ]> m) m inserted));;
  u ← get_state;
  for_each (fun s => insert_identifier (isolated_identifier s))
    (List.filter (fun s => is_isolated s (mt_matches u)) selected);;
  modify (set_products (fun m => foldl (fun m s => if is_matched (sb_isolated s) (mt_matches u) then m else delete (sb_isolated s) m) m fresh));;
  mret (py_len inserted).

(** One transaction of [bootstrap_source_file]: the inserted items, the cursor of the next one,
    and whether there is more; [None] when nothing was selected. *)
Definition bootstrap_page (source : uuid) (cursor : option uuid) : M MatchTables (option (Z * option uuid * bool)) :=
  transaction (
    subjects ← select_source_subjects source cursor;
    match last (take BOOTSTRAP_BATCH_SIZE subjects) with
    | None => mret None
    | Some s =>
        inserted ← bootstrap_isolated_products subjects BOOTSTRAP_BATCH_SIZE;
        mret (Some (inserted, Some (sb_item s), (BOOTSTRAP_BATCH_SIZE <? length subjects)%nat))
    end).
Fixpoint bootstrap_pages (fuel : nat) (source : uuid) (cursor : option uuid) (bootstrapped : Z) : M MatchTables Z :=
  match fuel with
  | O => raise (PyExn RuntimeError)
  | S fuel =>
      page ← bootstrap_page source cursor;
      match page with
      | None => mret bootstrapped
      | Some (inserted, cursor, true) => bootstrap_pages fuel source cursor (bootstrapped + inserted)
      | Some (inserted, _, false) => mret (bootstrapped + inserted)
      end
  end.
Definition bootstrap_source_file (fuel : nat) (source : uuid) : M MatchTables Z := bootstrap_pages fuel source None 0.

(** ** Candidates *)

Section candidates.
Context `{Unicode} `{WordCharacters} `{UuidText} `{Trigrams}.
Variable collate : pystr -> pystr -> bool.

Definition kind_value (k : IdentifierKind) : pystr :=
  py (match k with GTIN => "gtin" | RETAILER_ITEM => "retailer_item" | MANUFACTURER => "manufacturer" | ID_UNKNOWN => "unknown" end).
Definition is_active (t : MatchTables) (p : uuid) : bool :=
  match mt_products t !! p with Some r => bool_decide (pr_product_status r = PRODUCT_ACTIVE) | None => false end.

(** [exact_candidates], [nearest_candidates]. *)
Definition identifies (s : Subject) (i : IdentifierRow) : bool :=
  (bool_decide (ir_kind i = RETAILER_ITEM) && bool_decide (ir_normalized i = sj_code (sb_row s)))
  || (bool_decide (ir_kind i = GTIN) && bool_decide (Some (ir_normalized i) = sj_gtin (sb_row s))).
Definition exact_candidates (t : MatchTables) (candidate_limit : nat) (s : Subject) : list uuid :=
  take candidate_limit (map fst (by_id (map (fun p => (p, tt)) (remove_dups
    (map (fun i => ir_product i.2) (List.filter (fun i => identifies s i.2 && is_active t (ir_product i.2)
                                       && negb (bool_decide (ir_product i.2 = sb_isolated s)))
                          (map_to_list (mt_identifiers t)))))))).
Definition nearer (name : pystr) (a b : uuid * ProductRow) : Prop :=
  let d p := trigram_distance (name_search (pr_name p.2)) name in
  negb (Qle_bool (d b) (d a)) || (Qeq_bool (d a) (d b) && (a.1 <=? b.1)) = true.
#[export] Instance nearer_dec name : RelDecision (nearer name).
Proof. intros a b. unfold nearer. apply _. Defined.
Definition nearest_candidates (t : MatchTables) (candidate_limit : nat) (s : Subject) : list uuid :=
  take candidate_limit (map fst (merge_sort (nearer (name_search (sj_name (sb_row s))))
    (List.filter (fun p => bool_decide (pr_product_status p.2 = PRODUCT_ACTIVE) && negb (bool_decide (p.1 = sb_isolated s)))
       (map_to_list (mt_products t))))).

(** [blocked] and [bounded]: the exact ones first, each by id. *)
Definition bounded_candidates (t : MatchTables) (candidate_limit : nat) (s : Subject) : list uuid :=
  let exact := exact_candidates t candidate_limit s in
  let nearest := List.filter (fun p => negb (bool_decide (p ∈ exact))) (nearest_candidates t candidate_limit s) in
  take candidate_limit (exact ++ map fst (by_id (map (fun p => (p, tt)) nearest))).

(** [representative] and [identifiers]. *)
Definition representative (t : MatchTables) (p : uuid) : option SubjectRow :=
  snd <$> head (by_id (omap (fun '(i, m) => if bool_decide (ma_product m = p) then (fun r => (i, r)) <$> mt_items t !! i else None)
                            (map_to_list (mt_matches t)))).
Definition identifier_before (a b : uuid * IdentifierRow) : Prop :=
  let strictly x y := collate x y && negb (collate y x) in
  let same x y := collate x y && collate y x in
  let ka := kind_value (ir_kind a.2) in let kb := kind_value (ir_kind b.2) in
  strictly ka kb || (same ka kb && (strictly (ir_normalized a.2) (ir_normalized b.2)
    || (same (ir_normalized a.2) (ir_normalized b.2) && (a.1 <=? b.1)))) = true.
#[export] Instance identifier_before_dec : RelDecision identifier_before.
Proof. intros a b. unfold identifier_before. apply _. Defined.
Definition identifiers_of (t : MatchTables) (p : uuid) : list IdentifierRow :=
  map snd (take 32 (merge_sort identifier_before
    (List.filter (fun i => bool_decide (ir_product i.2 = p)) (map_to_list (mt_identifiers t))))).

(** [_candidate_block_rows]. *)
Definition block_row (t : MatchTables) (s : Subject) (p : uuid) : option BlockRow :=
  r ← mt_products t !! p;
  if bool_decide (pr_product_status r = PRODUCT_ACTIVE)
  then Some {| br_item := sb_item s; br_subject := sb_row s; br_product := p; br_canonical := r;
               br_unit_quantity := representative t p ≫= sj_unit_quantity;
               br_package := representative t p ≫= sj_package;
               br_identifiers := identifiers_of t p |}
  else None.
Definition candidate_block_rows (t : MatchTables) (subjects : list Subject) (item_limit candidate_limit : nat) : list BlockRow :=
  concat (map (fun s => omap (block_row t s) (bounded_candidates t candidate_limit s))
    (List.filter (fun s => is_isolated s (mt_matches t)) (take item_limit subjects))).
End candidates.

(** ** Proposals *)

Record Proposal := { po_item : uuid; po_product : uuid; po_method : CandidateMethod; po_score : decimal; po_evidence : Evidence }.
(** [_proposal]. *)
Definition proposal (row : BlockRow) (generated_at : Z) (m : MatchCandidate) : Proposal := {|
  po_item := mc_subject m; po_product := mc_candidate m; po_method := ByRule (mc_rule m); po_score := mc_confidence m;
  po_evidence := {| ev_rule := mc_rule m; ev_disposition := mc_disposition m; ev_explanations := mc_explanations m;
                    ev_generated_at := generated_at; ev_row := row |} |}.

Section proposals.
Context `{Unicode} `{WordCharacters} {W : Type}.

(** [_identifiers]: an identifier that is refused is left out. *)
Fixpoint identifiers (l : list IdentifierRow) : M W (list ProductIdentifier) :=
  match l with
  | [] => mret []
  | r :: l =>
      i ← (if bool_decide (ir_kind r = GTIN) && negb (is_valid_gtin (ir_value r)) then mret None
           else try_with (i ← ProductIdentifier_post_init {| pi_kind := ir_kind r; pi_value := ir_value r;
                                pi_issuer := ir_issuer r; pi_validated := ir_validated r;
                                pi_method := optional_string (py <$> ir_validation r) |}; mret (Some i))
                  (fun e => if is_value_error e then mret None else raise e));
      rest ← identifiers l;
      mret (option_list i ++ rest)
  end.

Definition subject_descriptor (row : BlockRow) : M W ProductDescriptor :=
  let r := br_subject row in
  own ← ProductIdentifier_post_init {| pi_kind := RETAILER_ITEM; pi_value := sj_code r; pi_issuer := Some (sj_retailer r);
    pi_validated := true; pi_method := Some (py ISOLATED_METHOD) |};
  gtin ← (match sj_gtin r with
          | Some g => if str_truthy g && is_valid_gtin g
                      then i ← ProductIdentifier_post_init {| pi_kind := GTIN; pi_value := g; pi_issuer := None;
                                                              pi_validated := false; pi_method := None |}; mret [i]
                      else mret []
          | None => mret []
          end);
  product_descriptor (br_item row) (sj_retailer r) (sj_name r) (own :: gtin) None (optional_string (sj_manufacturer r)) None
    (millionths <$> sj_quantity r) (optional_string (sj_unit r)) (packaging (sj_unit_quantity r) (sj_package r)).
Definition candidate_descriptor (row : BlockRow) : M W CanonicalProductDescriptor :=
  let r := br_canonical row in
  ids ← identifiers (br_identifiers row);
  canonical_product_descriptor (br_product row) (pr_name r) ids (optional_string (pr_brand r)) (optional_string (pr_manufacturer r))
    (millionths <$> pr_quantity r) (optional_string (pr_unit r)) (packaging (br_unit_quantity row) (br_package row)).

(** [_score_rows]; [per_item] counts the proposals of the items seen. *)
Fixpoint score_rows (rows : list BlockRow) (threshold : decimal) (candidate_limit : nat) (now : Z) (per_item : gmap uuid nat)
    : M W (list Proposal) :=
  match rows with
  | [] => mret []
  | row :: rows =>
      let seen := default 0%nat (per_item !! br_item row) in
      if (candidate_limit <=? seen)%nat then score_rows rows threshold candidate_limit now per_item
      else
        subject ← subject_descriptor row;
        candidate ← candidate_descriptor row;
        scored ← score_catalog_candidate subject candidate threshold;
        match scored with
        | None => score_rows rows threshold candidate_limit now per_item
        | Some m =>
            rest ← score_rows rows threshold candidate_limit now (<[ br_item row := S seen ]> per_item);
            mret (proposal row now m :: rest)
        end
  end.
End proposals.

Definition candidate_key (r : CandidateRow) : uuid * uuid * CandidateMethod := (ca_item r, ca_product r, ca_method r).
Definition new_candidate (p : Proposal) (now : Z) : CandidateRow := {| ca_item := po_item p; ca_product := po_product p;
  ca_method := po_method p; ca_score := po_score p; ca_status := PENDING; ca_evidence := Scored (po_evidence p);
  ca_created_at := now; ca_reviewed_at := None; ca_reviewed_by := None |}.
Definition rescored (p : Proposal) (r : CandidateRow) : CandidateRow := {| ca_item := ca_item r; ca_product := ca_product r;
  ca_method := ca_method r; ca_score := po_score p; ca_status := ca_status r; ca_evidence := Scored (po_evidence p);
  ca_created_at := ca_created_at r; ca_reviewed_at := ca_reviewed_at r; ca_reviewed_by := ca_reviewed_by r |}.

(** One row of [_write_candidates]: whether it was inserted or updated. *)
Definition write_candidate (p : Proposal) : M MatchTables bool :=
  i ← next_uuid;
  t ← get_state;
  match find (fun r => bool_decide (candidate_key r.2 = (po_item p, po_product p, po_method p))) (map_to_list (mt_candidates t)) with
  | None => put_state (set_candidates (insert i (new_candidate p (mt_clock t))) t);; mret true
  | Some (j, r) =>
      if bool_decide (ca_status r = PENDING)
      then put_state (set_candidates (insert j (rescored p r)) t);; mret true
      else mret false
  end.
Fixpoint write_candidates (l : list Proposal) : M MatchTables Z :=
  match l with
  | [] => mret 0
  | p :: l => written ← write_candidate p; n ← write_candidates l; mret (Z.b2z written + n)
  end.

(** [CatalogCandidateGenerationResult]. *)
Record GenerationResult := {
  gr_processed_items : Z;
  gr_bootstrapped_items : Z;
  gr_candidates_written : Z;
  gr_next_cursor : option pystr
}.

Definition status_set (s : CandidateStatus) (by_ : pystr) (now : Z) (r : CandidateRow) : CandidateRow := {|
  ca_item := ca_item r; ca_product := ca_product r; ca_method := ca_method r; ca_score := ca_score r; ca_status := s;
  ca_evidence := ca_evidence r; ca_created_at := ca_created_at r; ca_reviewed_at := Some now; ca_reviewed_by := Some by_ |}.
Definition product_status_set (s : product_status) (r : ProductRow) : ProductRow := {| pr_name := pr_name r;
  pr_brand := pr_brand r; pr_manufacturer := pr_manufacturer r; pr_quantity := pr_quantity r; pr_unit := pr_unit r;
  pr_product_status := s |}.

Definition match_conflict : exn := MakoletExn CatalogMatchConflictError 0.

Section repository.
Context `{Unicode} `{WordCharacters} `{UuidText} `{Trigrams}.
Variable collate : pystr -> pystr -> bool.

(** [_uuid_cursor] of this module. *)
Definition match_cursor (value : option pystr) : M MatchTables (option uuid) :=
  match value with
  | None => mret None
  | Some v => match uuid_of v with Some u => mret (Some u) | None => raise (PyExn ValueError) end
  end.

Definition generate_candidates (cursor : option pystr) (item_limit candidate_limit : nat) (threshold : decimal)
    : M MatchTables GenerationResult :=
  cursor_id ← match_cursor cursor;
  transaction (
    subjects ← select_subjects cursor_id item_limit;
    match last (take item_limit subjects) with
    | None => mret {| gr_processed_items := 0; gr_bootstrapped_items := 0; gr_candidates_written := 0; gr_next_cursor := None |}
    | Some s =>
        bootstrapped ← bootstrap_isolated_products subjects item_limit;
        t ← get_state;
        proposals ← score_rows (candidate_block_rows collate t subjects item_limit candidate_limit) threshold candidate_limit
                      (mt_clock t) ∅;
        written ← write_candidates proposals;
        mret {| gr_processed_items := py_len (take item_limit subjects); gr_bootstrapped_items := bootstrapped;
                gr_candidates_written := written;
                gr_next_cursor := if (item_limit <? length subjects)%nat then Some (uuid_str (sb_item s)) else None |}
    end).

(** [list_candidates]: the score, falling, and the id. *)
Definition listed_before (a b : uuid * CandidateRow) : Prop :=
  negb (Qle_bool (dec_Q (ca_score a.2)) (dec_Q (ca_score b.2)))
  || (Qeq_bool (dec_Q (ca_score a.2)) (dec_Q (ca_score b.2)) && (a.1 <=? b.1)) = true.
#[export] Instance listed_before_dec : RelDecision listed_before.
Proof. intros a b. unfold listed_before. apply _. Defined.
Definition list_candidates (status : CandidateStatus) (retailer : option uuid) (limit : nat) (cursor : option pystr)
    : M MatchTables (list (uuid * CandidateRow) * option pystr) :=
  cursor_id ← match_cursor cursor;
  t ← get_state;
  let cursor_row := i ← cursor_id; r ← mt_candidates t !! i; Some (i, r) in
  let rows := take (limit + 1) (merge_sort listed_before (List.filter (fun p =>
      bool_decide (ca_status p.2 = status)
      && match retailer with Some r => bool_decide (sj_retailer <$> mt_items t !! ca_item p.2 = Some r) | None => true end
      && match cursor_id, cursor_row with
         | None, _ => true
         | Some _, Some q => negb (bool_decide (listed_before p q))
         | Some _, None => false
         end) (map_to_list (mt_candidates t)))) in
  let items := take limit rows in
  mret (items, if (limit <? length rows)%nat then uuid_str <$> (fst <$> last items) else None).

Definition inspect_candidate (candidate : uuid) : M MatchTables CandidateRow :=
  t ← get_state;
  match mt_candidates t !! candidate with
  | Some r => mret r
  | None => raise (MakoletExn NotFoundError 0)
  end.

(** [_locked_candidate], [_require_pending]. *)
Definition locked_candidate (candidate : uuid) : M MatchTables (CandidateRow * SubjectRow) :=
  t ← get_state;
  match r ← mt_candidates t !! candidate; s ← mt_items t !! ca_item r; Some (r, s) with
  | Some p => mret p
  | None => raise (MakoletExn NotFoundError 0)
  end.
Definition require_pending (r : CandidateRow) : M MatchTables unit :=
  raise_if (negb (bool_decide (ca_status r = PENDING))) match_conflict.

(** [_validate_identifier_move], [_move_retailer_identifier]. *)
Definition item_key (s : SubjectRow) : IdentifierKind * pystr * option uuid * option uuid :=
  (RETAILER_ITEM, sj_code s, Some (sj_retailer s), Some (sj_portal s)).
Definition item_identifier (s : SubjectRow) (t : MatchTables) : option (uuid * IdentifierRow) :=
  find (fun p => bool_decide (identifier_key p.2 = item_key s)) (map_to_list (mt_identifiers t)).
Definition validate_identifier_move (s : SubjectRow) (isolated target : uuid) : M MatchTables unit :=
  t ← get_state;
  match item_identifier s t with
  | Some (_, r) => raise_if (negb (bool_decide (ir_product r ∈ [isolated; target]))) match_conflict
  | None => mret tt
  end.
Definition reviewed_identifier (s : SubjectRow) (target : uuid) : IdentifierRow := {| ir_product := target;
  ir_kind := RETAILER_ITEM; ir_value := sj_code s; ir_normalized := sj_code s; ir_issuer := Some (sj_retailer s);
  ir_portal := Some (sj_portal s); ir_validated := true; ir_validation := Some "operator_review"%string |}.
Definition moved_identifier (target : uuid) (r : IdentifierRow) : IdentifierRow := {| ir_product := target;
  ir_kind := ir_kind r; ir_value := ir_value r; ir_normalized := ir_normalized r; ir_issuer := ir_issuer r;
  ir_portal := ir_portal r; ir_validated := true; ir_validation := Some "operator_review"%string |}.
Definition move_retailer_identifier (s : SubjectRow) (isolated target : uuid) : M MatchTables unit :=
  t ← get_state;
  match item_identifier s t with
  | Some (i, r) =>
      if bool_decide (ir_product r = isolated)
      then put_state (set_identifiers (insert i (moved_identifier target r)) t)
      else insert_identifier (reviewed_identifier s target)
  | None => insert_identifier (reviewed_identifier s target)
  end.

Definition accept_candidate (candidate : uuid) (reviewed_by : pystr) : M MatchTables CandidateRow :=
  transaction (
    locked ← locked_candidate candidate;
    let '(r, s) := locked in
    require_pending r;;
    t ← get_state;
    match mt_matches t !! ca_item r with
    | Some existing =>
        raise_if (negb (bool_decide (ma_method existing = ISOLATED_METHOD) && bool_decide (ma_confirmed_by existing = ISOLATED_ACTOR)))
          match_conflict;;
        let isolated := ma_product existing in
        let target := ca_product r in
        raise_if (bool_decide (isolated = target)) match_conflict;;
        raise_if (negb (is_active t target)) match_conflict;;
        validate_identifier_move s isolated target;;
        modify (set_matches (insert (ca_item r) {| ma_product := target; ma_method := "manual_review";
          ma_evidence := Reviewed candidate (ca_method r) (ca_score r) (ca_evidence r) isolated;
          ma_confirmed_at := mt_clock t; ma_confirmed_by := reviewed_by |}));;
        move_retailer_identifier s isolated target;;
        modify (set_candidates (map_imap (fun i c => Some (
          if bool_decide (ca_item c = ca_item r) && bool_decide (ca_status c = PENDING)
          then status_set (if bool_decide (i = candidate) then ACCEPTED else SUPERSEDED) reviewed_by (mt_clock t) c
          else c))));;
        u ← get_state;
        if is_active u isolated && negb (is_matched isolated (mt_matches u)) then
          modify (set_products (alter (product_status_set PRODUCT_RETIRED) isolated));;
          modify (set_candidates (fmap (fun c =>
            if bool_decide (ca_product c = isolated) && bool_decide (ca_status c = PENDING)
            then status_set SUPERSEDED reviewed_by (mt_clock t) c else c)))
        else mret tt
    | None => raise match_conflict
    end);;
  inspect_candidate candidate.

Definition reject_candidate (candidate : uuid) (reviewed_by : pystr) : M MatchTables CandidateRow :=
  transaction (
    locked ← locked_candidate candidate;
    require_pending locked.1;;
    t ← get_state;
    modify (set_candidates (alter (status_set REJECTED reviewed_by (mt_clock t)) candidate)));;
  inspect_candidate candidate.
End repository.

(** ** The service *)

(** [CatalogMatchingRepository]. *)
Class CatalogMatchingRepository (W : Type) := {
  repo_bootstrap : uuid -> M W Z;
  repo_generate : option pystr -> nat -> nat -> decimal -> M W GenerationResult;
  repo_list : CandidateStatus -> option uuid -> nat -> option pystr -> M W (list (uuid * CandidateRow) * option pystr);
  repo_inspect : uuid -> M W CandidateRow;
  repo_accept : uuid -> pystr -> M W CandidateRow;
  repo_reject : uuid -> pystr -> M W CandidateRow
}.

Record CatalogMatchingLimits := {
  default_item_batch : Z;
  maximum_item_batch : Z;
  default_candidate_block : Z;
  maximum_candidate_block : Z;
  default_review_page : Z;
  maximum_review_page : Z;
  maximum_reviewer_characters : Z
}.
Definition default_matching_limits : CatalogMatchingLimits := {| default_item_batch := 50; maximum_item_batch := 200;
  default_candidate_block := 50; maximum_candidate_block := 200; default_review_page := 50; maximum_review_page := 200;
  maximum_reviewer_characters := 200 |}.
Definition bounded_pair {W} (default maximum : Z) : M W unit :=
  raise_if (negb ((1 <=? default) && (default <=? maximum) && (maximum <=? 1000))) (PyExn ValueError).
Definition CatalogMatchingLimits_post_init {W} (l : CatalogMatchingLimits) : M W unit :=
  bounded_pair (default_item_batch l) (maximum_item_batch l);;
  bounded_pair (default_candidate_block l) (maximum_candidate_block l);;
  bounded_pair (default_review_page l) (maximum_review_page l);;
  raise_if (negb ((1 <=? maximum_reviewer_characters l) && (maximum_reviewer_characters l <=? 1000))) (PyExn ValueError).

(** [CandidateStatus(value)]. *)
Definition status_name (s : CandidateStatus) : pystr :=
  py (match s with PENDING => "pending" | ACCEPTED => "accepted" | REJECTED => "rejected" | SUPERSEDED => "superseded" end).
Definition candidate_status_of (text : pystr) : option CandidateStatus :=
  find (fun s => bool_decide (status_name s = text)) [PENDING; ACCEPTED; REJECTED; SUPERSEDED].

(** [Decimal | str]. *)
Inductive threshold_value := ThresholdDecimal (d : decimal) | ThresholdText (s : pystr).

Section service.
Context {W : Type} `{!CatalogMatchingRepository W} `{!UuidText} `{!Unicode}.
Variable limits : CatalogMatchingLimits.

(** [_bounded], [_catalog_cursor], [_threshold], [_reviewer]. *)
Definition bounded (value : option Z) (default_ maximum : Z) : M W nat :=
  let selected := default default_ value in
  raise_if (negb ((1 <=? selected) && (selected <=? maximum))) (MakoletExn QueryLimitError 0);;
  mret (Z.to_nat selected).
Definition catalog_cursor (value : option pystr) : M W (option pystr) :=
  selected ← cleaned_cursor 512 value;
  match selected with
  | None => mret None
  | Some s => match uuid_of s with Some u => mret (Some (uuid_str u)) | None => raise validation_error end
  end.
Definition threshold_of (value : threshold_value) : M W decimal :=
  match (match value with ThresholdDecimal d => Some d | ThresholdText s => decimal_literal s end) with
  | None => raise validation_error
  | Some d => check_threshold d;; mret d
  end.
Definition reviewer (value : pystr) : M W pystr :=
  let r := py_strip value in
  raise_if (negb (str_truthy r) || (maximum_reviewer_characters limits <? py_len r) || py_any (fun c => c <? 32) r) validation_error;;
  mret r.

Definition service_bootstrap (source : uuid) : M W Z := repo_bootstrap source.
Definition service_generate (cursor : option pystr) (item_limit candidate_limit : option Z) (threshold : threshold_value)
    : M W GenerationResult :=
  t ← threshold_of threshold;
  c ← catalog_cursor cursor;
  i ← bounded item_limit (default_item_batch limits) (maximum_item_batch limits);
  n ← bounded candidate_limit (default_candidate_block limits) (maximum_candidate_block limits);
  repo_generate c i n t.
Definition service_list (status : pystr) (retailer : option uuid) (limit : option Z) (cursor : option pystr)
    : M W (list (uuid * CandidateRow) * option pystr) :=
  match candidate_status_of status with
  | None => raise validation_error
  | Some s =>
      n ← bounded limit (default_review_page limits) (maximum_review_page limits);
      c ← catalog_cursor cursor;
      repo_list s retailer n c
  end.
Definition service_inspect (candidate : uuid) : M W CandidateRow := repo_inspect candidate.
Definition service_accept (candidate : uuid) (reviewed_by : pystr) : M W CandidateRow :=
  r ← reviewer reviewed_by; repo_accept candidate r.
Definition service_reject (candidate : uuid) (reviewed_by : pystr) : M W CandidateRow :=
  r ← reviewer reviewed_by; repo_reject candidate r.
End service.

(** [PostgresCatalogMatchingRepository]. *)
#[export] Instance postgres_matching `{Unicode} `{WordCharacters} `{UuidText} `{Trigrams}
    (collate : pystr -> pystr -> bool) (fuel : nat) : CatalogMatchingRepository MatchTables := {|
  repo_bootstrap := bootstrap_source_file fuel;
  repo_generate := generate_candidates collate;
  repo_list := list_candidates;
  repo_inspect := inspect_candidate;
  repo_accept := accept_candidate;
  repo_reject := reject_candidate
|}.
