(* ===== verification/CatalogReviewFacts.v ===== *)
(** What the transactions of [CatalogReview.v] do to the tables, and their invariant. *)
From Stdlib Require Import QArith Qabs.
From stdpp Require Import sorting.
From S2P Require Import Prelude Errors Effects Enums PyNumbers Text Models SourceValues Decimals Rebuild RebuildFacts CatalogMatching CatalogMatchingFacts CatalogReview.
Open Scope Z_scope.

(** ** Scores of catalog candidates *)

Section scores.
Context {W : Type}.
Implicit Types w : W.

Definition score_ok (d : decimal) : Prop := is_finite d = true /\ (0 <= dec_Q d <= 1)%Q.
Lemma hundredths_ok n : (n <= 100)%N -> score_ok (hundredths n).
Proof.
  intros Hn. split; [done|]. rewrite hundredths_Q.
  assert (0 <= inject_Z (Z.of_N n) <= 100)%Q as [? ?].
  { split; [change 0%Q with (inject_Z 0)|change 100%Q with (inject_Z 100)]; rewrite <- Zle_Qle; lia. }
  split; Lqa.lra.
Qed.
Lemma confidence_score_ok l r c : confidence_of l r c -> score_ok c.
Proof. intros (Hf & [H0 H1] & _). split; [done|]. split; Lqa.lra. Qed.

(** What a scored candidate of the catalog is: always for review. *)
Definition reviewable (s : ProductDescriptor) (c : CanonicalProductDescriptor) (m : MatchCandidate) : Prop :=
  mc_subject m = pd_item s /\ mc_candidate m = cd_product c /\ mc_disposition m = REVIEW /\ score_ok (mc_confidence m).

Lemma score_catalog_wp s c t w : wp (score_catalog_candidate s c t)
  (fun r w' => w' = w /\ forall m, r = Some m -> reviewable s c m) (fun _ w' => w' = w) w.
Proof.
  unfold score_catalog_candidate. wp_step. unfold wp at 1. rewrite check_threshold_spec.
  destruct (is_finite t) eqn:Ht; [|by destruct t].
  destruct (dec_leb dec_zero t && dec_leb t dec_1); [|done].
  destruct (shared_identifier _ _ _) as [g|]; [|destruct (shared_non_gtin_identifier _ _) as [i|]].
  - wp_step. split; [done|]. intros m [= <-]. split_and!; try done. cbn. destruct (existsb _ _); by apply hundredths_ok.
  - wp_step. split; [done|]. intros m [= <-]. split_and!; first [done|by apply hundredths_ok].
  - unfold wp. destruct (structured_candidate_spec (pd_described s) (cd_described c) t w Ht) as (x & ex & Hx & ->).
    split; [done|]. destruct (dec_leb t x); [|done]. intros m [= <-]. split_and!; try done. by eapply confidence_score_ok.
Qed.
End scores.

(** ** Insertions *)

Section inserts.
Context {A V : Type} (key : A -> uuid) (v : A -> V).
Definition insert_all_of (m : gmap uuid V) (l : list A) : gmap uuid V := foldl (fun m s => <[ key s := v s ]> m) m l.

Lemma insert_all_other m l i : i ∉ map key l -> insert_all_of m l !! i = m !! i.
Proof.
  unfold insert_all_of. revert m. induction l as [|s l IH]; intros m Hi; [done|]. cbn [foldl]. cbn in Hi.
  rewrite IH by set_solver. apply lookup_insert_ne. set_solver.
Qed.
Lemma insert_all_in m l s : NoDup (map key l) -> s ∈ l -> insert_all_of m l !! key s = Some (v s).
Proof.
  unfold insert_all_of. revert m. induction l as [|x l IH]; intros m Hn Hs; [by apply elem_of_nil in Hs|]. cbn [foldl]. cbn in Hn.
  apply NoDup_cons in Hn as [Hx Hn]. apply elem_of_cons in Hs as [->|Hs]; [|by apply IH].
  fold (insert_all_of (<[ key x := v x ]> m) l). rewrite insert_all_other by done. apply lookup_insert_eq.
Qed.
Lemma insert_all_inv m l i x : NoDup (map key l) -> insert_all_of m l !! i = Some x ->
  ((i ∉ map key l) /\ m !! i = Some x) \/ exists s, s ∈ l /\ key s = i /\ x = v s.
Proof.
  intros Hn Hx. destruct (decide (i ∈ map key l)) as [Hi|Hi].
  - right. apply list_elem_of_fmap in Hi as (s & -> & Hs). exists s. rewrite insert_all_in in Hx by done. naive_solver.
  - left. by rewrite insert_all_other in Hx.
Qed.
End inserts.

(** ** The invariant *)

(** A match that [_match_exact_gtins] leaves alone. *)
Definition settled_match (m : MatchRow) : Prop := ma_method m = ISOLATED_METHOD \/ ma_method m = "manual_review"%string.
(** A candidate that [generate_candidates] writes for an item that is alone in its product. *)
Definition comparable (t : MatchTables) (i p : uuid) : Prop :=
  exists m, mt_matches t !! i = Some m /\ ma_method m = ISOLATED_METHOD /\ ma_product m <> p.
(** An identifier of the product that an item is matched with. *)
Definition identifies_item (t : MatchTables) (r : IdentifierRow) : Prop := exists i s m, mt_items t !! i = Some s /\
  identifier_key r = item_key s /\ mt_matches t !! i = Some m /\ settled_match m /\ ma_product m = ir_product r.
(** The match that accepting a candidate made. *)
Definition accepted_match (j : uuid) (c : CandidateRow) (m : MatchRow) : Prop :=
  ma_method m = "manual_review"%string /\ ma_product m = ca_product c /\
  (exists old, ma_evidence m = Reviewed j (ca_method c) (ca_score c) (ca_evidence c) old) /\
  Some (ma_confirmed_by m) = ca_reviewed_by c.
Definition review_only (c : CandidateRow) : Prop :=
  score_ok (ca_score c) /\ forall e, ca_evidence c = Scored e -> ev_disposition e = REVIEW.

Record review_ok (t : MatchTables) : Prop := {
  rv_items : forall i j s r, mt_items t !! i = Some s -> mt_items t !! j = Some r -> item_key s = item_key r -> i = j;
  rv_matches : forall i m, mt_matches t !! i = Some m ->
    is_Some (mt_items t !! i) /\ is_active t (ma_product m) = true /\
    (ma_method m = ISOLATED_METHOD -> ma_confirmed_by m = ISOLATED_ACTOR);
  rv_groups : forall g p, mt_groups t !! g = Some p -> is_active t p = true /\
    forall i m, mt_matches t !! i = Some m -> ma_method m = ISOLATED_METHOD -> ma_product m <> p;
  rv_pending : forall j c, mt_candidates t !! j = Some c -> ca_status c = PENDING ->
    is_active t (ca_product c) = true /\ forall r, ca_method c = ByRule r -> comparable t (ca_item c) (ca_product c);
  rv_accepted : forall j c, mt_candidates t !! j = Some c -> ca_status c = ACCEPTED ->
    exists m, mt_matches t !! ca_item c = Some m /\ accepted_match j c m;
  rv_scores : forall j c, mt_candidates t !! j = Some c -> review_only c;
  rv_keys : forall j k c d, mt_candidates t !! j = Some c -> mt_candidates t !! k = Some d -> candidate_key c = candidate_key d -> j = k;
  rv_identifiers : forall j k r q, mt_identifiers t !! j = Some r -> mt_identifiers t !! k = Some q -> identifier_key r = identifier_key q -> j = k;
  rv_identified : forall j r, mt_identifiers t !! j = Some r -> ir_kind r = RETAILER_ITEM -> identifies_item t r;
  rv_ids : (forall p, is_Some (mt_products t !! p) -> p < mt_next_id t) /\
    (forall j, is_Some (mt_candidates t !! j) -> j < mt_next_id t) /\
    (forall j, is_Some (mt_identifiers t !! j) -> j < mt_next_id t) /\
    (forall j, is_Some (mt_assertions t !! j) -> j < mt_next_id t)
}.

(** What no operation undoes: a decision, a reviewed match, and the candidates there are. *)
Record lasting (t t' : MatchTables) : Prop := {
  ls_decided : forall j c, mt_candidates t !! j = Some c -> ca_status c <> PENDING -> mt_candidates t' !! j = Some c;
  ls_candidates : forall j c, mt_candidates t !! j = Some c ->
    exists c', mt_candidates t' !! j = Some c' /\ candidate_key c' = candidate_key c;
  ls_reviewed : forall i m, mt_matches t !! i = Some m -> ma_method m = "manual_review"%string -> mt_matches t' !! i = Some m;
  ls_settled : forall i m, mt_matches t !! i = Some m -> settled_match m -> exists m', mt_matches t' !! i = Some m' /\ settled_match m'
}.
#[export] Instance lasting_refl : Reflexive lasting.
Proof. intros t. split; eauto. Qed.
#[export] Instance lasting_trans : Transitive lasting.
Proof.
  intros t u v [A1 A2 A3 A4] [B1 B2 B3 B4]. split; eauto.
  - intros j c Hc. destruct (A2 j c Hc) as (c' & Hc' & E). destruct (B2 j c' Hc') as (c'' & ? & ?). exists c''. split; [done|congruence].
  - intros i m Hm Hs. destruct (A4 i m Hm Hs) as (m' & ? & ?). eauto.
Qed.
(** What the operations of a review leave alone. *)
Record apart (t t' : MatchTables) : Prop := {
  ap_items : mt_items t' = mt_items t;
  ap_assertions : mt_assertions t' = mt_assertions t;
  ap_groups : mt_groups t' = mt_groups t;
  ap_matches : forall i, is_Some (mt_matches t !! i) -> is_Some (mt_matches t' !! i);
  ap_exact : forall i m, ~ settled_match m -> mt_matches t' !! i = Some m <-> mt_matches t !! i = Some m;
  ap_identifiers : forall j r, ir_kind r = GTIN -> mt_identifiers t' !! j = Some r <-> mt_identifiers t !! j = Some r
}.
#[export] Instance apart_refl : Reflexive apart.
Proof. intros t. by split. Qed.
#[export] Instance apart_trans : Transitive apart.
Proof.
  intros t u v [A1 A2 A3 A4 A5 A6] [B1 B2 B3 B4 B5 B6]. split; [congruence..| | |].
  - eauto.
  - intros i m Hm. by rewrite B5, A5.
  - intros j r Hr. by rewrite B6, A6.
Qed.
Definition evolves (t t' : MatchTables) : Prop := review_ok t' /\ lasting t t' /\ apart t t'.
Lemma evolves_refl t : review_ok t -> evolves t t.
Proof. by split. Qed.
Lemma evolves_trans t u v : evolves t u -> evolves u v -> evolves t v.
Proof. intros (_ & H1 & H2) (Hv & H3 & H4). split; [done|]. split; by etrans. Qed.

(** The identifier of an item is of the product it is matched with. *)
Lemma identified t j r i s m : review_ok t -> mt_identifiers t !! j = Some r -> mt_items t !! i = Some s ->
  identifier_key r = item_key s -> mt_matches t !! i = Some m -> ir_product r = ma_product m.
Proof.
  intros Ht Hr Hs Hk Hm. destruct (rv_identified t Ht j r Hr) as (i' & s' & m' & Hs' & Hk' & Hm' & _ & Hp); [by injection Hk|].
  assert (i' = i) as -> by (eapply (rv_items t Ht); [done..|congruence]). congruence.
Qed.

(** ** Finding a row *)

Lemma find_row {A} (f : A -> bool) (m : gmap uuid A) :
  match find (fun p => f p.2) (map_to_list m) with
  | Some (i, x) => m !! i = Some x /\ f x = true
  | None => forall i x, m !! i = Some x -> f x = false
  end.
Proof.
  destruct (find _ _) as [[i x]|] eqn:E.
  - apply List.find_some in E as [Hi Hf]. apply list_elem_of_In, elem_of_map_to_list in Hi. done.
  - intros i x Hx. apply (List.find_none _ _ E (i, x)). by apply list_elem_of_In, elem_of_map_to_list.
Qed.
Lemma exists_row {A} (f : A -> bool) (m : gmap uuid A) :
  existsb (fun p => f p.2) (map_to_list m) = true <-> exists i x, m !! i = Some x /\ f x = true.
Proof.
  rewrite List.existsb_exists. setoid_rewrite <- list_elem_of_In. split.
  - intros ([i x] & Hi%elem_of_map_to_list & Hf). eauto.
  - intros (i & x & Hx & Hf). exists (i, x). by rewrite elem_of_map_to_list.
Qed.
Lemma is_matched_spec p matches : is_matched p matches = true <-> exists i m, matches !! i = Some m /\ ma_product m = p.
Proof.
  pose proof (exists_row (fun m => bool_decide (ma_product m = p)) matches) as E. etrans; [exact E|]. by setoid_rewrite bool_decide_eq_true.
Qed.


(** ** Insertions with a key *)

(** The rows of a table once some rows were inserted under their key: [n0] and [n] bound the new
    row ids. *)
Record inserted {V K} (key : V -> K) (rows : list V) (n0 n : uuid) (m m' : gmap uuid V) : Prop := {
  in_next : n0 <= n;
  in_old : forall j q, m !! j = Some q -> m' !! j = Some q;
  in_rows : forall j q, m' !! j = Some q ->
    m !! j = Some q \/ (q ∈ rows /\ n0 <= j < n /\ forall k x, m !! k = Some x -> key x <> key q);
  in_there : forall r, r ∈ rows -> exists j q, m' !! j = Some q /\ key q = key r
}.
Arguments in_next {_ _ _ _ _ _ _ _} _.
Arguments in_old {_ _ _ _ _ _ _ _} _ _ _ _.
Arguments in_rows {_ _ _ _ _ _ _ _} _ _ _ _.
Arguments in_there {_ _ _ _ _ _ _ _} _ _ _.
Definition unique_rows {V K} (key : V -> K) (m : gmap uuid V) : Prop :=
  forall j k r q, m !! j = Some r -> m !! k = Some q -> key r = key q -> j = k.
Definition ids_below {V} (n : uuid) (m : gmap uuid V) : Prop := forall j, is_Some (m !! j) -> j < n.

Section insertions.
Context {V K : Type} `{!EqDecision K} (key : V -> K).
Variables (get : MatchTables -> gmap uuid V) (set_rows : (gmap uuid V -> gmap uuid V) -> MatchTables -> MatchTables).
Hypothesis set_rows_as : forall f t, set_rows f t = set_rows (fun _ => f (get t)) t.
Hypothesis set_rows_next : forall f n t, set_rows f (set_next n t) = set_next n (set_rows f t).
Hypothesis set_rows_set : forall m m' t, set_rows (fun _ => m') (set_rows (fun _ => m) t) = set_rows (fun _ => m') t.
Hypothesis set_rows_get : forall m t, get (set_rows (fun _ => m) t) = m.
Hypothesis get_next : forall n t, get (set_next n t) = get t.
Hypothesis set_rows_id : forall t, set_rows (fun _ => get t) t = t.
Hypothesis next_set_rows : forall f t, mt_next_id (set_rows f t) = mt_next_id t.

Lemma insert_row_wp update r t : ids_below (mt_next_id t) (get t) ->
  (forall j q, get t !! j = Some q -> key q = key r -> update q = q) ->
  wp (insert_row key update set_rows r) (fun _ t' => exists n m, t' = set_next n (set_rows (fun _ => m) t) /\
    inserted key [r] (mt_next_id t) n (get t) m /\ ids_below n m /\ (unique_rows key (get t) -> unique_rows key m))
  (fun _ _ => False) t.
Proof.
  intros Hid Hup. unfold insert_row, next_uuid. repeat wp_step. rewrite set_rows_as, get_next, set_rows_next.
  pose proof (find_row (fun q => bool_decide (key q = key r)) (get t)) as Hf. cbv beta in Hf.
  exists (mt_next_id t + 1). eexists. split; [reflexivity|]. destruct (find _ _) as [[j q]|].
  - destruct Hf as [Hj Hk%bool_decide_eq_true]. rewrite (Hup j q Hj Hk), insert_id by done. split_and!; [|intros k Hk'; specialize (Hid k Hk'); lia|done].
    split; [lia|done|by left|]. intros x Hx. apply list_elem_of_singleton in Hx as ->. eauto.
  - assert (Hnone : forall k q, get t !! k = Some q -> key q <> key r) by (intros k q Hq; specialize (Hf k q Hq); by apply bool_decide_eq_false in Hf).
    assert (Hfresh : get t !! mt_next_id t = None).
    { destruct (get t !! mt_next_id t) eqn:E; [|done]. assert (mt_next_id t < mt_next_id t) by (apply Hid; eauto). lia. }
    split_and!.
    + split.
      * lia.
      * intros k q Hq. rewrite lookup_insert_ne; [done|]. intros <-. congruence.
      * intros k q Hq. apply lookup_insert_Some in Hq as [[<- <-]|[Hne Hq]]; [right|by left]. split_and!; [set_solver|lia|lia|done].
      * intros x Hx. apply list_elem_of_singleton in Hx as ->. exists (mt_next_id t), r. by rewrite lookup_insert_eq.
    + intros k [q Hq]. apply lookup_insert_Some in Hq as [[<- <-]|[Hne Hq]]; [lia|]. assert (k < mt_next_id t) by (apply Hid; eauto). lia.
    + intros Hu j k x q Hx Hq E. apply lookup_insert_Some in Hx as [[<- <-]|[Hne Hx]], Hq as [[<- <-]|[Hne' Hq]]; [done|..].
      * by apply Hnone in Hq.
      * by apply Hnone in Hx.
      * by eapply Hu.
Qed.

Lemma insert_rows_wp (update : V -> V -> V) rows t : ids_below (mt_next_id t) (get t) ->
  (forall r q, r ∈ rows -> q ∈ rows \/ (exists j, get t !! j = Some q) -> key q = key r -> update r q = q) ->
  wp (for_each (fun r => insert_row key (update r) set_rows r) rows)
    (fun _ t' => exists n m, t' = set_next n (set_rows (fun _ => m) t) /\
       inserted key rows (mt_next_id t) n (get t) m /\ ids_below n m /\ (unique_rows key (get t) -> unique_rows key m))
    (fun _ _ => False) t.
Proof.
  revert t. induction rows as [|r rows IH]; intros t Hid Hup; cbn [for_each]; wp_step.
  - exists (mt_next_id t), (get t). split_and!; [rewrite set_rows_id; by destruct t| |done|done]. split; [lia|done|by left|set_solver].
  - eapply wp_mono; [apply insert_row_wp; [done|]| |done].
    { intros j q Hq Hk. apply Hup; [set_solver| |done]. right. eauto. }
    intros _ u (n & m & -> & Hin & Hm & Hu). cbn.
    eapply wp_mono; [apply IH| |done].
    + rewrite get_next, set_rows_get. done.
    + rewrite get_next, set_rows_get. intros x q Hx Hq Hk. apply Hup; [set_solver| |done].
      destruct Hq as [Hq|[j Hq]]; [left; set_solver|]. apply (in_rows Hin) in Hq as [Hq|[Hq _]]; [right; eauto|left; set_solver].
    + rewrite get_next, set_rows_get. intros _ v (n' & m' & -> & Hin' & Hm' & Hu'). change (mt_next_id (set_next n _)) with n in Hin'.
      exists n', m'. split_and!; [by rewrite set_rows_next, set_rows_set; destruct t| |done|auto]. split.
      * pose proof (in_next Hin). pose proof (in_next Hin'). lia.
      * intros j q Hq. by apply (in_old Hin'), (in_old Hin).
      * intros j q Hq. apply (in_rows Hin') in Hq as [Hq|(Hq & Hj & Hk)].
        -- apply (in_rows Hin) in Hq as [Hq|(Hq & Hj & Hk)]; [by left|right]. pose proof (in_next Hin'). split_and!; [set_solver|lia|lia|done].
        -- right. pose proof (in_next Hin). split_and!; [set_solver|lia|lia|]. intros k x Hx. by apply (Hk k), (in_old Hin).
      * intros x Hx. apply elem_of_cons in Hx as [->|Hx]; [|by apply (in_there Hin')].
        destruct (in_there Hin r) as (j & q & Hq & Hk); [set_solver|]. exists j, q. split; [by apply (in_old Hin')|done].
Qed.
End insertions.

(** ** Identifiers *)

Lemma set_next_evolves n t : review_ok t -> mt_next_id t <= n -> evolves t (set_next n t).
Proof.
  intros Ht Hn. split; [|split; by split; eauto]. destruct Ht as [? ? ? ? ? ? ? ? ? (Hp & Hc & Hi & Ha)]. split; try done.
  split_and!; intros x Hx; simpl in *; [specialize (Hp x Hx)|specialize (Hc x Hx)|specialize (Hi x Hx)|specialize (Ha x Hx)]; lia.
Qed.

Definition same_catalog (t t' : MatchTables) : Prop := mt_items t' = mt_items t /\ mt_products t' = mt_products t /\
  mt_matches t' = mt_matches t /\ mt_candidates t' = mt_candidates t /\ mt_clock t' = mt_clock t.

(** The tables with other identifiers, all of them right. *)
Lemma identifiers_ok t n m : review_ok t -> mt_next_id t <= n -> unique_rows identifier_key m -> ids_below n m ->
  (forall j r, m !! j = Some r -> ir_kind r = RETAILER_ITEM -> identifies_item t r) ->
  review_ok (set_next n (set_identifiers (fun _ => m) t)).
Proof.
  intros Ht Hn Hu Hb Hm. destruct (set_next_evolves n t Ht Hn) as [[? ? ? ? ? ? ? ? ? (? & ? & _ & ?)] _]. by split.
Qed.
Lemma insert_identifiers_wp rows t : review_ok t -> (forall r, r ∈ rows -> identifies_item t r) ->
  wp (for_each insert_identifier rows) (fun _ t' => review_ok t' /\ lasting t t' /\ apart t t' /\ same_catalog t t') (fun _ _ => False) t.
Proof.
  intros Ht Hr. pose proof (rv_ids t Ht) as (_ & _ & Hid & _).
  eapply wp_mono; [apply (insert_rows_wp identifier_key mt_identifiers set_identifiers) with (update := fun _ => id); try done; by intros []| |done].
  intros _ u (n & m & -> & Hin & Hb & Hu). split_and!.
  - apply identifiers_ok; [done|apply (in_next Hin)|exact (Hu (rv_identifiers t Ht))|done|]. intros j r Hj Hk.
    apply (in_rows Hin) in Hj as [Hj|[Hj _]]; [by eapply (rv_identified t Ht)|by apply Hr].
  - by split; eauto.
  - split; try done. cbn. intros j r Hk. split; [|apply (in_old Hin)]. intros Hj. apply (in_rows Hin) in Hj as [Hj|[Hj _]]; [done|].
    destruct (Hr r Hj) as (i & s & m' & _ & E & _). injection E. congruence.
  - done.
Qed.

(** ** Subjects *)

Lemma subjects_of_wp matches l t : (forall i m, matches !! i = Some m -> ma_product m < mt_next_id t) ->
  wp (subjects_of matches l) (fun subjects t' => exists n, mt_next_id t <= n /\ t' = set_next n t /\
    Forall2 (fun p s => sb_item s = p.1 /\ sb_row s = p.2 /\ sb_method s = ma_method <$> matches !! p.1 /\
      match matches !! p.1 with Some m => sb_isolated s = ma_product m | None => mt_next_id t <= sb_isolated s < n end) l subjects /\
    NoDup (map sb_isolated (List.filter (fun s => bool_decide (sb_method s = None)) subjects)))
  (fun _ _ => False) t.
Proof.
  revert t. induction l as [|[i r] l IH]; intros t Hm; cbn [subjects_of].
  - wp_step. exists (mt_next_id t). split_and!; [lia|by destruct t|constructor|constructor].
  - destruct (matches !! i) as [m|] eqn:E; unfold next_uuid; repeat wp_step.
    + eapply wp_mono; [apply IH; exact Hm| |done]. intros rest t' (n & Hn & -> & Hf & Hd). wp_step. exists n. split_and!; try done.
      constructor; [|done]. cbn. by rewrite E.
    + change {| mt_items := _; mt_products := _; mt_matches := _; mt_candidates := _; mt_identifiers := _; mt_next_id := _; mt_clock := _ |}
        with (set_next (mt_next_id t + 1) t).
      eapply wp_mono; [apply IH| |done].
      { intros j m Hj. specialize (Hm j m Hj). simpl. lia. }
      intros rest t' (n & Hn & -> & Hf & Hd). simpl in *. wp_step. exists n. split_and!; [lia|done|..].
      * constructor; [cbn; rewrite E; split_and!; try done; lia|]. eapply Forall2_impl; [exact Hf|]. intros p s (? & ? & ? & Hs).
        split_and!; try done. destruct (matches !! p.1); [done|lia].
      * cbn. constructor; [|done]. rewrite list_elem_of_fmap. intros (s & Hs & Hin).
        apply list_elem_of_In, List.filter_In in Hin as [Hin Hnone]. apply bool_decide_eq_true in Hnone.
        apply list_elem_of_In in Hin. apply list_elem_of_lookup in Hin as [k Hk].
        destruct (Forall2_lookup_r _ _ _ _ _ Hf Hk) as (p & _ & _ & _ & Hmeth & Hiso).
        destruct (matches !! p.1); [by rewrite Hmeth in Hnone|lia].
Qed.

(** What was selected: items that are not reviewed, with the product that each is alone in. *)
Record subjects_ok (t : MatchTables) (l : list Subject) : Prop := {
  so_items : NoDup (map sb_item l);
  so_rows : forall s, s ∈ l -> mt_items t !! sb_item s = Some (sb_row s);
  so_methods : forall s, s ∈ l -> sb_method s = ma_method <$> mt_matches t !! sb_item s;
  so_isolated : forall s m, s ∈ l -> mt_matches t !! sb_item s = Some m -> sb_isolated s = ma_product m /\ ma_method m = ISOLATED_METHOD;
  so_fresh : forall s, s ∈ l -> mt_matches t !! sb_item s = None -> mt_products t !! sb_isolated s = None /\ sb_isolated s < mt_next_id t;
  so_distinct : NoDup (map sb_isolated (List.filter (fun s => bool_decide (sb_method s = None)) l))
}.

Lemma filter_sublist {A} (f : A -> bool) (l k : list A) : l `sublist_of` k -> List.filter f l `sublist_of` List.filter f k.
Proof. induction 1; cbn; [done|destruct (f x); [by apply sublist_skip|done]|destruct (f x); [by apply sublist_cons|done]]. Qed.
Lemma map_sublist {A B} (f : A -> B) (l k : list A) : l `sublist_of` k -> map f l `sublist_of` map f k.
Proof. induction 1; cbn; [done|by apply sublist_skip|by apply sublist_cons]. Qed.
Lemma filter_is_sublist {A} (f : A -> bool) (l : list A) : List.filter f l `sublist_of` l.
Proof. induction l as [|x l IH]; cbn; [done|]. destruct (f x); [by apply sublist_skip|by apply sublist_cons]. Qed.
Lemma NoDup_filtered {A} (f : uuid * A -> bool) (m : gmap uuid A) : NoDup (map fst (List.filter f (map_to_list m))).
Proof. eapply sublist_NoDup; [apply (NoDup_fst_map_to_list m)|]. apply map_sublist, filter_is_sublist. Qed.
Lemma subjects_ok_sublist t l k : k `sublist_of` l -> subjects_ok t l -> subjects_ok t k.
Proof.
  intros Hs [H1 H2 H3 H4 H5 H6]. assert (Hin : forall s, s ∈ k -> s ∈ l) by (intros s Hin; by eapply elem_of_submseteq, sublist_submseteq).
  split; eauto.
  - eapply sublist_NoDup; [exact H1|]. by apply map_sublist.
  - eapply sublist_NoDup; [exact H6|]. by apply map_sublist, filter_sublist.
Qed.

Lemma product_bound t p r : review_ok t -> mt_products t !! p = Some r -> p < mt_next_id t.
Proof. intros Ht Hr. destruct (rv_ids t Ht) as (H & _ & _). apply H. eauto. Qed.
Lemma products_known t p : review_ok t -> is_active t p = true -> p < mt_next_id t.
Proof. intros Ht. unfold is_active. destruct (mt_products t !! p) eqn:E; [|done]. intros _. by eapply product_bound. Qed.

Lemma selection_wp t f k : review_ok t ->
  (forall p m, f p = true -> mt_matches t !! p.1 = Some m -> ma_method m = ISOLATED_METHOD) ->
  wp (subjects_of (mt_matches t) (take k (by_id (List.filter f (map_to_list (mt_items t))))))
    (fun l t' => exists n, mt_next_id t <= n /\ t' = set_next n t /\ subjects_ok t' l /\
       map sb_item l = map fst (take k (by_id (List.filter f (map_to_list (mt_items t))))))
    (fun _ _ => False) t.
Proof.
  intros Ht Hf. set (rows := take k _).
  assert (Hsel : forall p, p ∈ rows -> mt_items t !! p.1 = Some p.2 /\ f p = true).
  { intros [i r] Hp. apply elem_of_take in Hp as (j & Hj & _). apply list_elem_of_lookup_2 in Hj. unfold by_id in Hj.
    rewrite order_by_permutation in Hj. apply list_elem_of_In, List.filter_In in Hj as [Hj Hfp].
    by apply list_elem_of_In, elem_of_map_to_list in Hj. }
  assert (Hnd : NoDup (map fst rows)).
  { eapply sublist_NoDup; [|apply map_sublist, sublist_take]. unfold by_id. rewrite order_by_permutation. apply NoDup_filtered. }
  eapply wp_mono; [apply subjects_of_wp| |done].
  { intros i m Hm. apply products_known; [done|]. by apply (rv_matches t Ht i m). }
  intros l t' (n & Hn & -> & Hl & Hd). exists n. split_and!; [done|done| |].
  - assert (Hrow : forall s, s ∈ l -> exists p, p ∈ rows /\ sb_item s = p.1 /\ sb_row s = p.2 /\ sb_method s = ma_method <$> mt_matches t !! p.1 /\
      match mt_matches t !! p.1 with Some m => sb_isolated s = ma_product m | None => mt_next_id t <= sb_isolated s < n end).
    { intros s [j Hj]%list_elem_of_lookup. destruct (Forall2_lookup_r _ _ _ _ _ Hl Hj) as (p & Hp & Hs). exists p.
      split; [by eapply list_elem_of_lookup_2|exact Hs]. }
    split; [|intros s|intros s|intros s m|intros s|exact Hd]; simpl.
    + replace (map sb_item l) with (map fst rows); [done|]. clear -Hl. induction Hl as [|x y ? ? (E & _)]; [done|]. cbn. by rewrite E, IHHl.
    + intros (p & Hp & -> & -> & _)%Hrow. by apply Hsel.
    + by intros (p & Hp & -> & _ & -> & _)%Hrow.
    + intros (p & Hp & -> & _ & _ & Hs)%Hrow Hm. rewrite Hm in Hs. split; [done|]. by eapply Hf; [apply Hsel|].
    + intros (p & Hp & -> & _ & _ & Hs)%Hrow Hm. rewrite Hm in Hs. split; [|lia].
      destruct (mt_products t !! sb_isolated s) eqn:E; [|done]. exfalso. apply product_bound in E; [lia|done].
  - clear -Hl. induction Hl as [|x y ? ? (E & _)]; [done|]. cbn. by rewrite E, IHHl.
Qed.

(** ** Isolated products *)

Lemma for_each_map {A B W} (f : B -> M W unit) (g : A -> B) l : for_each (fun x => f (g x)) l = for_each f (map g l).
Proof. induction l as [|x l IH]; cbn [for_each map]; [done|]. by rewrite IH. Qed.

Definition fresh_subjects (l : list Subject) : list Subject := List.filter (fun s => bool_decide (sb_method s = None)) l.
(** The tables once every fresh subject has a product of its own and is matched with it. *)
Definition with_isolated (l : list Subject) (t : MatchTables) : MatchTables :=
  set_matches (fun m => insert_all_of sb_item (fun s => isolated_match s (mt_clock t)) m l)
    (set_products (fun m => insert_all_of sb_isolated (fun s => isolated_product (sb_row s)) m l) t).

Lemma fresh_spec t l s : subjects_ok t l -> s ∈ fresh_subjects l <-> s ∈ l /\ mt_matches t !! sb_item s = None.
Proof.
  intros Hl. unfold fresh_subjects. rewrite !list_elem_of_In, List.filter_In, <- !list_elem_of_In, bool_decide_eq_true.
  split; intros [Hs Hm]; (split; [done|]); pose proof (so_methods t l Hl s Hs) as E; destruct (mt_matches t !! sb_item s); cbn in E; congruence.
Qed.
Lemma NoDup_fresh t l : subjects_ok t l -> NoDup (map sb_item (fresh_subjects l)).
Proof. intros Hl. eapply sublist_NoDup; [apply (so_items t l Hl)|]. apply map_sublist, filter_is_sublist. Qed.

Lemma isolated_match_kept t l i m : subjects_ok t l -> mt_matches t !! i = Some m ->
  mt_matches (with_isolated (fresh_subjects l) t) !! i = Some m.
Proof.
  intros Hl Hm. cbn. rewrite insert_all_other; [done|]. rewrite list_elem_of_fmap. intros (s & -> & Hs).
  apply (fresh_spec t l s Hl) in Hs as [_ Hs]. congruence.
Qed.
Lemma isolated_match_new t l s : subjects_ok t l -> s ∈ fresh_subjects l ->
  mt_matches (with_isolated (fresh_subjects l) t) !! sb_item s = Some (isolated_match s (mt_clock t)) /\
  is_active (with_isolated (fresh_subjects l) t) (sb_isolated s) = true.
Proof.
  intros Hl Hs. unfold is_active. cbn. rewrite !insert_all_in; [done|apply (so_distinct t l Hl)|done|by eapply NoDup_fresh|done].
Qed.
Lemma isolated_active t l p : subjects_ok t l -> is_active t p = true -> is_active (with_isolated (fresh_subjects l) t) p = true.
Proof.
  intros Hl. unfold is_active. cbn. intros Hp. rewrite insert_all_other; [done|]. rewrite list_elem_of_fmap. intros (s & -> & Hs).
  apply (fresh_spec t l s Hl) in Hs as [Hs Hm]. by rewrite (proj1 (so_fresh t l Hl s Hs Hm)) in Hp.
Qed.

Lemma with_isolated_ok t l : review_ok t -> subjects_ok t l -> review_ok (with_isolated (fresh_subjects l) t).
Proof.
  intros Ht Hl. pose proof (fun i m => isolated_match_kept t l i m Hl) as Hkept. pose proof (fun p => isolated_active t l p Hl) as Hact.
  destruct Ht as [H1 H2 Hg H3 H4 H5 H6 H7 H8 (Hp & Hc & Hi & Ha)]. split; try done.
  - intros i m Hm. cbn in Hm. apply insert_all_inv in Hm as [[_ Hm]|(s & Hs & <- & ->)]; [|..|by eapply NoDup_fresh].
    + destruct (H2 i m Hm) as (? & ? & ?). split_and!; [done|by apply Hact|done].
    + pose proof (isolated_match_new t l s Hl Hs) as [_ Hnew]. apply (fresh_spec t l s Hl) in Hs as [Hs _].
      split_and!; [exists (sb_row s); by apply (so_rows t l Hl)|done|done].
  - intros g p Hgp. destruct (Hg g p Hgp) as [Hpa Hpm]. split; [by apply Hact|]. intros i m Hm Hiso. cbn in Hm.
    apply insert_all_inv in Hm as [[_ Hm]|(s & Hs & <- & ->)]; [by eapply Hpm| |by eapply NoDup_fresh].
    cbn. intros <-. apply (fresh_spec t l s Hl) in Hs as [Hs Hm]. destruct (so_fresh t l Hl s Hs Hm) as [Hnone _].
    unfold is_active in Hpa. by rewrite Hnone in Hpa.
  - intros j c Hj Hpend. destruct (H3 j c Hj Hpend) as [? Hcmp]. split; [by apply Hact|]. intros r Hr.
    destruct (Hcmp r Hr) as (m & Hm & ?). exists m. split; [by apply Hkept|done].
  - intros j c Hj Hacc. destruct (H4 j c Hj Hacc) as (m & Hm & ?). exists m. split; [by apply Hkept|done].
  - intros j r Hj Hk. destruct (H8 j r Hj Hk) as (i & s & m & ? & ? & Hm & ? & ?). exists i, s, m. split_and!; [done|done|by apply Hkept|done|done].
  - split_and!; try done. intros p [r Hr]. cbn in Hr. apply insert_all_inv in Hr as [[_ Hr]|(s & Hs & <- & _)]; [|..|apply (so_distinct t l Hl)].
    + apply Hp. eauto.
    + apply (fresh_spec t l s Hl) in Hs as [Hs Hm]. by apply (so_fresh t l Hl s Hs Hm).
Qed.
Lemma with_isolated_evolves t l : review_ok t -> subjects_ok t l -> evolves t (with_isolated (fresh_subjects l) t).
Proof.
  intros Ht Hl. pose proof (fun i m => isolated_match_kept t l i m Hl) as Hkept. split; [by apply with_isolated_ok|]. split; split; try done.
  - eauto.
  - intros i m Hm _. by apply Hkept.
  - intros i m Hm Hs. exists m. split; [by apply Hkept|done].
  - intros i [m Hm]. exists m. by apply Hkept.
  - intros i m Hm. split; [|by apply Hkept]. intros Hi. cbn in Hi.
    apply insert_all_inv in Hi as [[_ Hi]|(s & _ & _ & ->)]; [done| |by eapply NoDup_fresh]. destruct Hm. by left.
Qed.

Lemma filter_kept {A} (f : A -> bool) l : (forall x, x ∈ l -> f x = true) -> List.filter f l = l.
Proof. induction l as [|x l IH]; intros Hf; [done|]. cbn. rewrite Hf, IH by set_solver. done. Qed.
Lemma foldl_same {A B} (f : A -> B -> A) a l : (forall x, x ∈ l -> f a x = a) -> foldl f a l = a.
Proof. induction l as [|x l IH]; intros Hf; [done|]. cbn. rewrite Hf by set_solver. apply IH. set_solver. Qed.

(** Every selected subject is matched in the end, the fresh ones with their own product. *)
Lemma bootstrap_wp k l t : review_ok t -> subjects_ok t l ->
  wp (bootstrap_isolated_products l k)
    (fun n t' => evolves t t' /\ same_catalog (with_isolated (fresh_subjects (take k l)) t) t' /\
                 n = py_len (fresh_subjects (take k l)))
    (fun _ _ => False) t.
Proof.
  intros Ht Hl0. assert (Hl : subjects_ok t (take k l)) by (eapply subjects_ok_sublist; [apply sublist_take|done]).
  clear Hl0. set (sel := take k l) in *. unfold bootstrap_isolated_products. fold sel. fold (fresh_subjects sel). repeat wp_step.
  assert (Hins : List.filter (fun s => bool_decide (mt_matches t !! sb_item s = None)) (fresh_subjects sel) = fresh_subjects sel).
  { apply filter_kept. intros s [_ Hs]%(fresh_spec t sel s Hl). by apply bool_decide_eq_true. }
  rewrite Hins. change (set_matches _ _) with (with_isolated (fresh_subjects sel) t).
  pose proof (with_isolated_evolves t sel Ht Hl) as Hev. pose proof Hev as (Hok & _ & [Hitems _ _ _ _ _]).
  rewrite for_each_map. eapply wp_mono; [apply insert_identifiers_wp; [exact Hok|]| |done].
  - intros r Hr. apply list_elem_of_fmap in Hr as (s & -> & Hs).
    apply list_elem_of_In, List.filter_In in Hs as [Hs Hiso]. apply list_elem_of_In in Hs. unfold is_isolated in Hiso.
    destruct (mt_matches (with_isolated (fresh_subjects sel) t) !! sb_item s) as [m|] eqn:Hm; [|done]. reflect_bools.
    exists (sb_item s), (sb_row s), m. rewrite Hitems. split_and!; [by apply (so_rows t sel Hl)|done|done|by left|by cbn].
  - intros _ u (Hu & Hlast & Hap & Hsame). do 2 wp_step. pose proof Hsame as (E1 & E2 & E3 & E4 & E5).
    assert (Hdel : foldl (fun m s => if is_matched (sb_isolated s) (mt_matches (with_isolated (fresh_subjects sel) t)) then m
                                     else delete (sb_isolated s) m) (mt_products u) (fresh_subjects sel) = mt_products u).
    { apply foldl_same. intros s Hs. destruct (is_matched _ _) eqn:E; [done|]. exfalso. apply not_true_iff_false in E. apply E.
      apply is_matched_spec. exists (sb_item s), (isolated_match s (mt_clock t)). split; [|done]. by apply isolated_match_new. }
    wp_step. assert (Eu : set_products (fun _ => mt_products u) u = u) by by destruct u.
    match goal with |- context [set_products ?f u] => change (set_products f u) with (set_products (fun _ => f (mt_products u)) u) end.
    cbv beta. rewrite Hdel, Eu. split_and!; [|done..]. eapply evolves_trans; [exact Hev|by split].
Qed.

(** ** Candidates *)

Section proposals.
Context `{Unicode} `{WordCharacters} `{UuidText} `{Trigrams}.
Variable collate : pystr -> pystr -> bool.

Lemma elem_of_by_id (l : list uuid) p : p ∈ map fst (by_id (map (fun p => (p, tt)) l)) <-> p ∈ l.
Proof.
  unfold by_id. rewrite list_elem_of_fmap. setoid_rewrite order_by_permutation. setoid_rewrite list_elem_of_fmap. split.
  - by intros (? & -> & ? & -> & ?).
  - intros Hp. exists (p, tt). split; [done|]. by exists p.
Qed.
Lemma elem_of_taken {A} n (l : list A) x : x ∈ take n l -> x ∈ l.
Proof. intros (i & Hi & _)%elem_of_take. by eapply list_elem_of_lookup_2. Qed.

(** A subject is never compared with the product that it is alone in. *)
Lemma bounded_not_isolated t n s p : p ∈ bounded_candidates t n s -> p <> sb_isolated s.
Proof.
  unfold bounded_candidates. intros Hp%elem_of_taken. apply elem_of_app in Hp as [Hp|Hp].
  - apply elem_of_taken, elem_of_by_id, elem_of_remove_dups, list_elem_of_fmap in Hp as (i & -> & Hi).
    apply list_elem_of_In, List.filter_In in Hi as [_ Hi]. by reflect_bools.
  - apply elem_of_by_id, list_elem_of_In, List.filter_In in Hp as [Hp _]. apply list_elem_of_In, elem_of_taken, list_elem_of_fmap in Hp as (i & -> & Hi).
    rewrite merge_sort_Permutation in Hi. apply list_elem_of_In, List.filter_In in Hi as [_ Hi]. by reflect_bools.
Qed.

(** A row of the block compares an isolated item with another active product. *)
Definition offered (t : MatchTables) (i p : uuid) : Prop := is_active t p = true /\ comparable t i p.
Lemma block_rows_offered t l k n r : r ∈ candidate_block_rows collate t l k n -> offered t (br_item r) (br_product r).
Proof.
  unfold candidate_block_rows. rewrite list_elem_of_In, in_concat. intros (rows & Hrows & Hr). apply in_map_iff in Hrows as (s & <- & Hs).
  apply List.filter_In in Hs as [_ Hs]. apply list_elem_of_In, list_elem_of_omap in Hr as (p & Hp & Hb).
  unfold block_row in Hb. destruct (mt_products t !! p) as [q|] eqn:Eq; [|done]. cbn in Hb. case_bool_decide; [|done]. injection Hb as <-. cbn.
  apply bounded_not_isolated in Hp. unfold is_isolated in Hs. destruct (mt_matches t !! sb_item s) as [m|] eqn:Em; [|done]. reflect_bools.
  split; [unfold is_active; rewrite Eq; by apply bool_decide_eq_true|]. exists m. split_and!; [done|done|congruence].
Qed.

Context {W : Type}.
Implicit Types w : W.

Lemma identifier_wp i w : wp (ProductIdentifier_post_init i) (fun _ w' => w' = w) (fun _ w' => w' = w) w.
Proof.
  unfold ProductIdentifier_post_init, normalize_identifier. repeat (wp_step; try done).
Qed.
Lemma reject_negative_wp q w : wp (reject_negative q) (fun _ w' => w' = w) (fun _ w' => w' = w) w.
Proof. unfold reject_negative. destruct q as [[]|]; unfold dec_le; repeat (wp_step; try done). Qed.
Lemma identifiers_read l w : wp (identifiers l) (fun _ w' => w' = w) (fun _ w' => w' = w) w.
Proof.
  induction l as [|r l IH]; cbn [identifiers]; [by wp_step|]. wp_step.
  assert (Hrest : forall i, wp (rest ← identifiers l; mret (option_list i ++ rest)) (fun _ w' => w' = w) (fun _ w' => w' = w) w).
  { intros i. wp_step. eapply wp_mono; [apply IH| |done]. by intros a w' ->. }
  destruct (_ && _); [wp_step; apply Hrest|]. wp_step. wp_step. eapply wp_mono; [apply identifier_wp|..].
  - intros i w' ->. wp_step. apply Hrest.
  - intros e w' ->. destruct (is_value_error e); wp_step; [apply Hrest|done].
Qed.

Lemma subject_descriptor_wp r w :
  wp (subject_descriptor r) (fun d w' => w' = w /\ pd_item d = br_item r) (fun _ w' => w' = w) w.
Proof.
  unfold subject_descriptor. wp_step. eapply wp_mono; [apply identifier_wp| |done]. intros own w' ->.
  assert (Hd : forall ids, wp (product_descriptor (W := W) (br_item r) (sj_retailer (br_subject r)) (sj_name (br_subject r)) ids None
      (optional_string (sj_manufacturer (br_subject r))) None (millionths <$> sj_quantity (br_subject r))
      (optional_string (sj_unit (br_subject r))) (packaging (sj_unit_quantity (br_subject r)) (sj_package (br_subject r))))
      (fun d w' => w' = w /\ pd_item d = br_item r) (fun _ w' => w' = w) w).
  { intros ids. unfold product_descriptor. do 4 (wp_step; try done). wp_step. eapply wp_mono; [apply reject_negative_wp| |done].
    intros _ w' ->. by repeat wp_step. }
  wp_step. destruct (sj_gtin _) as [g|]; [|wp_step; apply Hd]. destruct (_ && _); [|wp_step; apply Hd].
  wp_step. eapply wp_mono; [apply identifier_wp| |done]. intros i w' ->. wp_step. apply Hd.
Qed.
Lemma candidate_descriptor_wp r w :
  wp (candidate_descriptor r) (fun d w' => w' = w /\ cd_product d = br_product r) (fun _ w' => w' = w) w.
Proof.
  unfold candidate_descriptor. wp_step. eapply wp_mono; [apply identifiers_read| |done]. intros ids w' ->.
  unfold canonical_product_descriptor. do 2 (wp_step; try done). wp_step. eapply wp_mono; [apply reject_negative_wp| |done].
  intros _ w' ->. by wp_step.
Qed.

(** A proposal is for review, and of a row of the block. *)
Definition proposal_ok (rows : list BlockRow) (p : Proposal) : Prop :=
  score_ok (po_score p) /\ ev_disposition (po_evidence p) = REVIEW /\
  exists r, r ∈ rows /\ po_item p = br_item r /\ po_product p = br_product r.
Lemma proposal_ok_cons r rows p : proposal_ok rows p -> proposal_ok (r :: rows) p.
Proof. intros (? & ? & x & Hx & ?). split_and!; [done|done|]. exists x. set_solver. Qed.

Lemma score_rows_wp rows threshold limit now seen w :
  wp (score_rows rows threshold limit now seen) (fun l w' => w' = w /\ Forall (proposal_ok rows) l) (fun _ w' => w' = w) w.
Proof.
  revert seen. induction rows as [|r rows IH]; intros seen; cbn [score_rows]; [by wp_step|].
  assert (Hrest : forall seen, wp (score_rows rows threshold limit now seen)
    (fun l w' => w' = w /\ Forall (proposal_ok (r :: rows)) l) (fun _ w' => w' = w) w).
  { intros s. eapply wp_mono; [apply IH| |done]. intros l w' [-> Hl]. split; [done|]. eapply Forall_impl; [exact Hl|]. apply proposal_ok_cons. }
  destruct (_ <=? _)%nat; [apply Hrest|].
  wp_step. eapply wp_mono; [apply subject_descriptor_wp| |done]. intros s w' [-> Hs].
  wp_step. eapply wp_mono; [apply candidate_descriptor_wp| |done]. intros c w' [-> Hc].
  wp_step. eapply wp_mono; [apply score_catalog_wp| |done]. intros m w' [-> Hm].
  destruct m as [m|]; [|apply Hrest]. wp_step. eapply wp_mono; [apply Hrest| |done]. intros l w' [-> Hl]. wp_step.
  split; [done|]. constructor; [|done]. destruct (Hm m eq_refl) as (E1 & E2 & E3 & E4). split_and!; [done|done|].
  exists r. cbn. split_and!; [set_solver|congruence|congruence].
Qed.
End proposals.

(** ** Writing candidates *)

(** A candidate row in place of another of the same item and product, or of none. *)
Definition candidate_ok (t : MatchTables) (c : CandidateRow) : Prop :=
  (ca_status c = PENDING -> is_active t (ca_product c) = true /\ forall r, ca_method c = ByRule r -> comparable t (ca_item c) (ca_product c)) /\
  ca_status c <> ACCEPTED /\ review_only c.
Lemma candidate_insert t j c : review_ok t -> candidate_ok t c -> j < mt_next_id t ->
  (forall k d, mt_candidates t !! k = Some d -> candidate_key d = candidate_key c -> j = k) ->
  (forall d, mt_candidates t !! j = Some d -> ca_status d = PENDING /\ candidate_key d = candidate_key c) ->
  evolves t (set_candidates (insert j c) t).
Proof.
  intros Ht (Hpend & Hacc & Hsc) Hj Hkey Hold. split.
  - destruct Ht as [H1 H2 Hg H3 H4 H5 H6 H7 H8 (Hp & Hc & Hi & Ha)]. split; try done; cbn.
    + intros k d Hd. apply lookup_insert_Some in Hd as [[<- <-]|[Hne Hd]]; [exact Hpend|by eapply H3].
    + intros k d Hd. apply lookup_insert_Some in Hd as [[<- <-]|[Hne Hd]]; [done|by eapply H4].
    + intros k d Hd. apply lookup_insert_Some in Hd as [[<- <-]|[Hne Hd]]; [done|by eapply H5].
    + intros k l x y Hx Hy E. apply lookup_insert_Some in Hx as [[<- <-]|[Hne Hx]], Hy as [[<- <-]|[Hne' Hy]]; [done|..].
      * by eapply Hkey.
      * symmetry. by eapply Hkey.
      * by eapply H6.
    + split_and!; [done| |done|done]. intros k [d Hd]. apply lookup_insert_Some in Hd as [[<- <-]|[Hne Hd]]; [done|]. apply Hc. eauto.
  - split; [|by split]. split; cbn; eauto.
    + intros k d Hd Hs. rewrite lookup_insert_ne; [done|]. intros <-. by apply Hold in Hd as [? _].
    + intros k d Hd. destruct (decide (j = k)) as [<-|Hne].
      * exists c. rewrite lookup_insert_eq. split; [done|]. symmetry. by apply Hold.
      * exists d. by rewrite lookup_insert_ne.
Qed.

Definition same_products (t t' : MatchTables) : Prop := mt_products t' = mt_products t /\ mt_matches t' = mt_matches t.
Lemma offered_same t t' i p : same_products t t' -> offered t i p -> offered t' i p.
Proof. unfold offered, comparable, is_active. by intros [-> ->]. Qed.

Lemma write_candidate_wp p t : review_ok t -> offered t (po_item p) (po_product p) -> score_ok (po_score p) ->
  ev_disposition (po_evidence p) = REVIEW ->
  wp (write_candidate p) (fun _ t' => evolves t t' /\ same_products t t') (fun _ _ => False) t.
Proof.
  intros Ht [Hact Hcmp] Hsc Hdis. unfold write_candidate, next_uuid. do 8 wp_step.
  assert (Hn : evolves t (set_next (mt_next_id t + 1) t)) by (apply set_next_evolves; [done|lia]). set (u := set_next _ t) in *.
  assert (Hrev : forall e, Scored (po_evidence p) = Scored e -> ev_disposition e = REVIEW) by by intros e [= <-].
  pose proof (find_row (fun r => bool_decide (candidate_key r = (po_item p, po_product p, po_method p))) (mt_candidates u)) as Hf.
  cbv beta in Hf. destruct (find _ _) as [[j r]|] eqn:E.
  - destruct Hf as [Hj Hk%bool_decide_eq_true]. case_bool_decide as Hpend; [|by wp_step].
    do 3 wp_step. split; [|done]. eapply evolves_trans; [exact Hn|].
    assert (Er : candidate_key (rescored p r) = candidate_key r) by done. injection Hk as E1 E2 E3. destruct Hn as [Hu _].
    apply candidate_insert; [done|..].
    + split; [|split; [cbn; by rewrite Hpend|by split]]. cbn. intros _. by rewrite E1, E2.
    + destruct (rv_ids u Hu) as (_ & Hc & _). apply Hc. eauto.
    + intros k d Hd Hk. eapply (rv_keys u Hu); [done..|congruence].
    + intros d Hd. simplify_eq. done.
  - do 3 wp_step. split; [|done]. eapply evolves_trans; [exact Hn|]. destruct Hn as [Hu _].
    destruct (rv_ids t Ht) as (_ & Hc & _).
    assert (Hnew : mt_candidates u !! mt_next_id t = None).
    { destruct (mt_candidates u !! mt_next_id t) eqn:Ed; [|done]. exfalso.
      assert (mt_next_id t < mt_next_id t) by (apply Hc; eauto). lia. }
    apply candidate_insert; [done|..].
    + split; [done|]. split; [done|by split].
    + cbn. lia.
    + intros k d Hd Hk. specialize (Hf k d Hd). apply bool_decide_eq_false in Hf. by apply Hf in Hk.
    + intros d Hd. congruence.
Qed.

Lemma write_candidates_wp l t : review_ok t ->
  Forall (fun p => offered t (po_item p) (po_product p) /\ score_ok (po_score p) /\ ev_disposition (po_evidence p) = REVIEW) l ->
  wp (write_candidates l) (fun _ t' => evolves t t') (fun _ _ => False) t.
Proof.
  revert t. induction l as [|p l IH]; intros t Ht Hl; cbn [write_candidates]; wp_step; [by apply evolves_refl|].
  apply Forall_cons in Hl as [(H1 & H2 & H3) Hl]. eapply wp_mono; [by apply write_candidate_wp| |done].
  intros b u [Hu Hs]. wp_step. eapply wp_mono; [apply IH; [apply Hu|]| |done].
  - eapply Forall_impl; [exact Hl|]. intros q (? & ? & ?). split_and!; [by eapply offered_same|done|done].
  - intros n v Hv. wp_step. by eapply evolves_trans.
Qed.

(** ** Accepting a candidate *)

(** The identifiers once the one of an item is of its target. *)
Record moved (s : SubjectRow) (target next : uuid) (m m' : gmap uuid IdentifierRow) : Prop := {
  mv_rows : forall j r, m' !! j = Some r ->
    (m !! j = Some r /\ identifier_key r <> item_key s) \/ (identifier_key r = item_key s /\ ir_product r = target);
  mv_kept : forall j r, m !! j = Some r -> identifier_key r <> item_key s -> m' !! j = Some r;
  mv_unique : forall j k r q, m' !! j = Some r -> m' !! k = Some q -> identifier_key r = identifier_key q -> j = k;
  mv_ids : forall j, is_Some (m' !! j) -> j < next;
  mv_item : exists j r, m' !! j = Some r /\ identifier_key r = item_key s /\ ir_validation r = Some "operator_review"%string
}.
Arguments mv_rows {_ _ _ _ _} _.
Arguments mv_kept {_ _ _ _ _} _.
Arguments mv_unique {_ _ _ _ _} _.
Arguments mv_ids {_ _ _ _ _} _.
Lemma replaced_moved s target next m j r : (forall k q, m !! k = Some q -> identifier_key q = item_key s -> j = k) ->
  (forall j k r q, m !! j = Some r -> m !! k = Some q -> identifier_key r = identifier_key q -> j = k) ->
  (forall k, is_Some (m !! k) -> k < next) -> j < next ->
  (forall q, m !! j = Some q -> identifier_key q = item_key s) ->
  identifier_key r = item_key s -> ir_product r = target -> ir_validation r = Some "operator_review"%string ->
  moved s target next m (<[ j := r ]> m).
Proof.
  intros Hj Hu Hn Hjn Hold Hk Hp Hv. split.
  - intros k q Hq. apply lookup_insert_Some in Hq as [[<- <-]|[Hne Hq]]; [by right|]. left. split; [done|]. intros E. by apply (Hj k q) in Hq.
  - intros k q Hq Hne. rewrite lookup_insert_ne; [done|]. intros <-. by destruct Hne; apply Hold.
  - intros k l x y Hx Hy E. apply lookup_insert_Some in Hx as [[<- <-]|[Hne Hx]], Hy as [[<- <-]|[Hne' Hy]]; [done|..].
    + apply (Hj l y Hy). congruence.
    + symmetry. apply (Hj k x Hx). congruence.
    + by eapply Hu.
  - intros k [q Hq]. apply lookup_insert_Some in Hq as [[<- <-]|[Hne Hq]]; [done|]. apply Hn. eauto.
  - exists j, r. by rewrite lookup_insert_eq.
Qed.

Definition unique_identifiers (t : MatchTables) : Prop :=
  (forall j k r q, mt_identifiers t !! j = Some r -> mt_identifiers t !! k = Some q -> identifier_key r = identifier_key q -> j = k) /\
  (forall j, is_Some (mt_identifiers t !! j) -> j < mt_next_id t).
Lemma move_wp s isolated target t : unique_identifiers t ->
  (forall j r, mt_identifiers t !! j = Some r -> identifier_key r = item_key s -> ir_product r = isolated) ->
  wp (move_retailer_identifier s isolated target)
    (fun _ t' => exists n m, mt_next_id t <= n /\ t' = set_next n (set_identifiers (fun _ => m) t) /\
                             moved s target n (mt_identifiers t) m)
    (fun _ _ => False) t.
Proof.
  intros [Hu Hid] Hiso. unfold move_retailer_identifier, item_identifier. do 2 wp_step.
  pose proof (find_row (fun r => bool_decide (identifier_key r = item_key s)) (mt_identifiers t)) as Hf. cbv beta in Hf.
  destruct (find _ _) as [[j r]|].
  - destruct Hf as [Hj Hk%bool_decide_eq_true]. rewrite bool_decide_true by (by eapply Hiso). wp_step.
    eexists (mt_next_id t), _. split_and!; [lia|reflexivity|]. apply replaced_moved; try done.
    + intros k q Hq E. eapply Hu; [done..|congruence].
    + apply Hid. eauto.
    + intros q Hq. congruence.
  - assert (Hnone : forall j r, mt_identifiers t !! j = Some r -> identifier_key r <> item_key s).
    { intros j r Hr. specialize (Hf j r Hr). by apply bool_decide_eq_false in Hf. }
    eapply wp_mono; [apply (insert_row_wp identifier_key mt_identifiers set_identifiers) with (update := id); try done; by intros []| |done].
    intros _ u (n & m & -> & Hin & Hb & Hum). exists n, m. split_and!; [apply (in_next Hin)|done|].
    assert (Hnew : forall j r, m !! j = Some r -> identifier_key r = item_key s -> r = reviewed_identifier s target).
    { intros j r Hr Hk. apply (in_rows Hin) in Hr as [Hr|(Hr & _)]; [by apply Hnone in Hr|by apply list_elem_of_singleton in Hr]. }
    split.
    + intros j r Hr. apply (in_rows Hin) in Hr as [Hr|(Hr & _)]; [left; eauto|right]. apply list_elem_of_singleton in Hr as ->. done.
    + intros j r Hr _. by apply (in_old Hin).
    + exact (Hum Hu).
    + exact Hb.
    + destruct (in_there Hin (reviewed_identifier s target)) as (j & q & Hq & Hk); [set_solver|]. exists j, q.
      pose proof (Hnew j q Hq Hk) as ->. done.
Qed.

(** What the candidates become. *)
Definition settled (candidate item isolated : uuid) (retired : bool) (by_ : pystr) (now : Z) (j : uuid) (c : CandidateRow) : CandidateRow :=
  if bool_decide (ca_status c = PENDING) then
    if bool_decide (ca_item c = item) then status_set (if bool_decide (j = candidate) then ACCEPTED else SUPERSEDED) by_ now c
    else if retired && bool_decide (ca_product c = isolated) then status_set SUPERSEDED by_ now c else c
  else c.
Definition reviewed_match (candidate : uuid) (c : CandidateRow) (isolated : uuid) (by_ : pystr) (now : Z) : MatchRow := {|
  ma_product := ca_product c; ma_method := "manual_review";
  ma_evidence := Reviewed candidate (ca_method c) (ca_score c) (ca_evidence c) isolated;
  ma_confirmed_at := now; ma_confirmed_by := by_ |}.

(** The tables after [accept_candidate]. *)
Record accepted (candidate : uuid) (c : CandidateRow) (s : SubjectRow) (isolated : uuid) (by_ : pystr) (t t' : MatchTables) : Prop := {
  ac_items : mt_items t' = mt_items t;
  ac_matches : mt_matches t' = <[ ca_item c := reviewed_match candidate c isolated by_ (mt_clock t) ]> (mt_matches t);
  ac_products : mt_products t' = if is_matched isolated (mt_matches t') then mt_products t
                                 else alter (product_status_set PRODUCT_RETIRED) isolated (mt_products t);
  ac_candidates : forall j, mt_candidates t' !! j =
    settled candidate (ca_item c) isolated (negb (is_matched isolated (mt_matches t'))) by_ (mt_clock t) j <$> mt_candidates t !! j;
  ac_identifiers : moved s (ca_product c) (mt_next_id t') (mt_identifiers t) (mt_identifiers t');
  ac_next : mt_next_id t <= mt_next_id t';
  ac_assertions : mt_assertions t' = mt_assertions t;
  ac_groups : mt_groups t' = mt_groups t;
  ac_clock : mt_clock t' = mt_clock t
}.
Arguments ac_items {_ _ _ _ _ _ _} _.
Arguments ac_matches {_ _ _ _ _ _ _} _.
Arguments ac_products {_ _ _ _ _ _ _} _.
Arguments ac_candidates {_ _ _ _ _ _ _} _.
Arguments ac_identifiers {_ _ _ _ _ _ _} _.
Arguments ac_next {_ _ _ _ _ _ _} _.
Arguments ac_assertions {_ _ _ _ _ _ _} _.
Arguments ac_groups {_ _ _ _ _ _ _} _.

Lemma settled_key k item iso b w now j c : candidate_key (settled k item iso b w now j c) = candidate_key c /\
  ca_score (settled k item iso b w now j c) = ca_score c /\ ca_evidence (settled k item iso b w now j c) = ca_evidence c.
Proof. unfold settled. repeat case_match; done. Qed.
Lemma settled_pending k item iso b w now j c : ca_status (settled k item iso b w now j c) = PENDING ->
  settled k item iso b w now j c = c /\ ca_status c = PENDING /\ ca_item c <> item /\ (b = true -> ca_product c <> iso).
Proof.
  unfold settled. case_bool_decide; [|done]. case_bool_decide; [case_bool_decide; done|].
  destruct b; cbn; [case_bool_decide; done|done].
Qed.
Lemma settled_accepted k item iso b w now j c : ca_status (settled k item iso b w now j c) = ACCEPTED ->
  (ca_status c = ACCEPTED /\ settled k item iso b w now j c = c) \/ (j = k /\ settled k item iso b w now j c = status_set ACCEPTED w now c).
Proof.
  unfold settled. case_bool_decide; [|by left]. case_bool_decide.
  - case_bool_decide; [by right|done].
  - destruct b; cbn; [case_bool_decide|]; try done; by left.
Qed.
Lemma settled_decided k item iso b w now j c : ca_status c <> PENDING -> settled k item iso b w now j c = c.
Proof. intros Hc. unfold settled. by rewrite bool_decide_false. Qed.

Section accepted.
Variables (t t' : MatchTables) (k : uuid) (c : CandidateRow) (s : SubjectRow) (m : MatchRow) (by_ : pystr).
Hypothesis Ht : review_ok t.
Hypothesis Hc : mt_candidates t !! k = Some c.
Hypothesis Hpend : ca_status c = PENDING.
Hypothesis Hs : mt_items t !! ca_item c = Some s.
Hypothesis Hm : mt_matches t !! ca_item c = Some m.
Hypothesis Hiso : ma_method m = ISOLATED_METHOD.
Hypothesis Hne : ma_product m <> ca_product c.
Hypothesis Hacc : accepted k c s (ma_product m) by_ t t'.

Lemma accepted_active p : is_active t p = true -> (p = ma_product m -> is_matched (ma_product m) (mt_matches t') = true) ->
  is_active t' p = true.
Proof.
  intros Hp Hmat. unfold is_active in *. rewrite (ac_products Hacc).
  destruct (is_matched _ _); [done|]. rewrite lookup_alter_ne; [done|]. intros <-. by specialize (Hmat eq_refl).
Qed.
Lemma accepted_other i x : i <> ca_item c -> mt_matches t' !! i = Some x <-> mt_matches t !! i = Some x.
Proof. intros Hi. rewrite (ac_matches Hacc). by rewrite lookup_insert_ne. Qed.
Lemma accepted_inv i x : mt_matches t' !! i = Some x ->
  (i <> ca_item c /\ mt_matches t !! i = Some x) \/ (i = ca_item c /\ x = reviewed_match k c (ma_product m) by_ (mt_clock t)).
Proof. rewrite (ac_matches Hacc). intros [[<- <-]|[? ?]]%lookup_insert_Some; [by right|by left]. Qed.
Lemma accepted_row j d : mt_candidates t' !! j = Some d -> exists e, mt_candidates t !! j = Some e /\
  d = settled k (ca_item c) (ma_product m) (negb (is_matched (ma_product m) (mt_matches t'))) by_ (mt_clock t) j e.
Proof. rewrite (ac_candidates Hacc). intros (e & -> & ?)%fmap_Some. eauto. Qed.

Lemma accepted_match_ok i x : mt_matches t' !! i = Some x -> is_Some (mt_items t' !! i) /\ is_active t' (ma_product x) = true /\
  (ma_method x = ISOLATED_METHOD -> ma_confirmed_by x = ISOLATED_ACTOR).
Proof.
  intros Hx. rewrite (ac_items Hacc). pose proof Hx as Hx'. apply accepted_inv in Hx as [[Hi Hx]|[-> ->]].
  - destruct (rv_matches t Ht i x Hx) as (? & ? & ?). split_and!; try done.
    apply accepted_active; [done|]. intros <-. apply is_matched_spec. eauto.
  - split_and!; [eauto| |done]. apply accepted_active; [by apply (rv_pending t Ht k c)|]. intros E. by destruct Hne.
Qed.
Lemma accepted_groups_ok g p : mt_groups t' !! g = Some p -> is_active t' p = true /\
  forall i x, mt_matches t' !! i = Some x -> ma_method x = ISOLATED_METHOD -> ma_product x <> p.
Proof.
  rewrite (ac_groups Hacc). intros Hg. destruct (rv_groups t Ht g p Hg) as [Hact Hp]. split.
  - apply accepted_active; [done|]. intros ->. by destruct (Hp _ m Hm Hiso).
  - intros i x [[Hi Hx]|[-> ->]]%accepted_inv; [by eapply Hp|done].
Qed.
Lemma accepted_pending_ok j d : mt_candidates t' !! j = Some d -> ca_status d = PENDING ->
  is_active t' (ca_product d) = true /\ forall r, ca_method d = ByRule r -> comparable t' (ca_item d) (ca_product d).
Proof.
  intros (e & He & ->)%accepted_row Hp. apply settled_pending in Hp as (-> & Hp & Hi & Hprod).
  destruct (rv_pending t Ht j e He Hp) as (Hact & Hcmp). split.
  - apply accepted_active; [done|]. intros E. destruct (is_matched _ _); [done|]. by destruct Hprod.
  - intros r Hr. destruct (Hcmp r Hr) as (x & Hx & ?). exists x. split; [by apply accepted_other|done].
Qed.
Lemma accepted_identified j r : mt_identifiers t' !! j = Some r -> ir_kind r = RETAILER_ITEM -> identifies_item t' r.
Proof.
  intros Hr Hk. unfold identifies_item. rewrite (ac_items Hacc).
  destruct (mv_rows (ac_identifiers Hacc) j r Hr) as [[Hr' Hkn]|[Hkey Hp]].
  - destruct (rv_identified t Ht j r Hr' Hk) as (i & si & x & Hi & Hkey & Hx & Hset & Hp). exists i, si, x. split_and!; try done.
    apply accepted_other; [|done]. intros ->. congruence.
  - eexists (ca_item c), s, _. split_and!; [done|done|rewrite (ac_matches Hacc); apply lookup_insert_eq|by right|done].
Qed.
Lemma accepted_decided j d : mt_candidates t' !! j = Some d -> ca_status d = ACCEPTED ->
  exists x, mt_matches t' !! ca_item d = Some x /\ accepted_match j d x.
Proof.
  intros (e & He & ->)%accepted_row [[Hd ->]|[-> ->]]%settled_accepted.
  - destruct (rv_accepted t Ht j e He Hd) as (x & Hx & Hman). exists x. split; [|done].
    apply accepted_other; [|done]. intros E. rewrite E, Hm in Hx. simplify_eq. destruct Hman as [Hman _]. by rewrite Hiso in Hman.
  - simplify_eq. eexists. split; [cbn; rewrite (ac_matches Hacc); apply lookup_insert_eq|]. split_and!; try done. by eexists.
Qed.
Lemma accepted_ok : review_ok t'.
Proof.
  destruct Ht as [H1 H2 Hg H3 H4 H5 H6 H7 H8 (Hp & Hcand & Hi & Ha)]. split.
  - rewrite (ac_items Hacc). exact H1.
  - apply accepted_match_ok.
  - apply accepted_groups_ok.
  - apply accepted_pending_ok.
  - apply accepted_decided.
  - intros j d (e & He & ->)%accepted_row.
    destruct (settled_key k (ca_item c) (ma_product m) (negb (is_matched (ma_product m) (mt_matches t'))) by_ (mt_clock t) j e) as (_ & E1 & E2).
    unfold review_only. rewrite E1, E2. by eapply H5.
  - intros j l d e (d' & Hd & ->)%accepted_row (e' & He & ->)%accepted_row. rewrite !(proj1 (settled_key _ _ _ _ _ _ _ _)). by eapply H6.
  - exact (mv_unique (ac_identifiers Hacc)).
  - exact accepted_identified.
  - pose proof (ac_next Hacc). split_and!.
    + intros p Hx. enough (p < mt_next_id t) by lia. apply Hp. rewrite (ac_products Hacc) in Hx.
      destruct (is_matched _ _); [done|]. by apply lookup_alter_is_Some in Hx.
    + intros j [d (e & He & _)%accepted_row]. enough (j < mt_next_id t) by lia. eauto.
    + exact (mv_ids (ac_identifiers Hacc)).
    + rewrite (ac_assertions Hacc). intros j Hj. specialize (Ha j Hj). lia.
Qed.

Lemma accepted_evolves : evolves t t'.
Proof.
  split; [apply accepted_ok|]. split; split.
  - intros j d Hd Hdec. rewrite (ac_candidates Hacc), Hd. cbn. by rewrite settled_decided.
  - intros j d Hd. eexists. split; [rewrite (ac_candidates Hacc), Hd; reflexivity|]. apply settled_key.
  - intros i x Hx Hmeth. apply accepted_other; [|done]. intros ->. simplify_eq. by rewrite Hiso in Hmeth.
  - intros i x Hx Hset. destruct (decide (i = ca_item c)) as [->|Hni].
    + eexists. split; [rewrite (ac_matches Hacc); apply lookup_insert_eq|by right].
    + exists x. split; [by apply accepted_other|done].
  - apply (ac_items Hacc).
  - apply (ac_assertions Hacc).
  - apply (ac_groups Hacc).
  - intros i [x Hx]. destruct (decide (i = ca_item c)) as [->|Hni].
    + rewrite (ac_matches Hacc), lookup_insert_eq. eauto.
    + exists x. by apply accepted_other.
  - intros i x Hx. split.
    + intros [[_ ?]|[_ ->]]%accepted_inv; [done|]. destruct Hx. by right.
    + intros Hi. apply accepted_other; [|done]. intros ->. simplify_eq. destruct Hx. by left.
  - intros j r Hk. split.
    + intros Hr. destruct (mv_rows (ac_identifiers Hacc) j r Hr) as [[? _]|[E _]]; [done|]. injection E. congruence.
    + intros Hr. apply (mv_kept (ac_identifiers Hacc)); [done|]. intros E. injection E. congruence.
Qed.
End accepted.

Lemma wp_returns {W A} (m : M W A) Q E a (w w' : W) : m w = (Returned a, w') -> Q a w' -> wp m Q E w.
Proof. unfold wp. by intros ->. Qed.
Lemma locked_run t k c s : mt_candidates t !! k = Some c -> mt_items t !! ca_item c = Some s ->
  locked_candidate k t = (Returned (c, s), t).
Proof. intros Hc Hs. unfold locked_candidate, get_state, mbind, M_bind. cbn. rewrite Hc. cbn. by rewrite Hs. Qed.
Lemma validate_run t s isolated target :
  (forall j r, mt_identifiers t !! j = Some r -> identifier_key r = item_key s -> ir_product r = isolated) ->
  validate_identifier_move s isolated target t = (Returned tt, t).
Proof.
  intros Hiso. unfold validate_identifier_move, item_identifier, get_state. unfold mbind at 1, M_bind.
  pose proof (find_row (fun r => bool_decide (identifier_key r = item_key s)) (mt_identifiers t)) as Hf. cbv beta in Hf.
  destruct (find _ _) as [[j r]|]; [|done]. destruct Hf as [Hj Hk%bool_decide_eq_true].
  rewrite bool_decide_true; [done|]. rewrite (Hiso j r Hj Hk). set_solver.
Qed.

(** The two updates of the candidates are one, [settled]. *)
Lemma settle_item (m : gmap uuid CandidateRow) k item iso w now j :
  map_imap (fun i c => Some (if bool_decide (ca_item c = item) && bool_decide (ca_status c = PENDING)
    then status_set (if bool_decide (i = k) then ACCEPTED else SUPERSEDED) w now c else c)) m !! j =
  settled k item iso false w now j <$> m !! j.
Proof.
  rewrite map_lookup_imap. destruct (m !! j) as [c|]; [|done]. cbn. unfold settled.
  destruct (bool_decide (ca_item c = item)), (bool_decide (ca_status c = PENDING)); done.
Qed.
Lemma settle_retired k item iso w now j c :
  (fun c => if bool_decide (ca_product c = iso) && bool_decide (ca_status c = PENDING) then status_set SUPERSEDED w now c else c)
    (settled k item iso false w now j c) = settled k item iso true w now j c.
Proof.
  unfold settled. destruct (bool_decide (ca_status c = PENDING)) eqn:Ep; [|by rewrite Ep, andb_false_r].
  destruct (bool_decide (ca_item c = item)); cbn [andb].
  - destruct (bool_decide (j = k)); cbn; by rewrite andb_false_r.
  - by rewrite Ep, andb_true_r.
Qed.
Lemma inspect_accepted k c s iso w t t' : accepted k c s iso w t t' -> mt_candidates t !! k = Some c -> ca_status c = PENDING ->
  inspect_candidate k t' = (Returned (status_set ACCEPTED w (mt_clock t) c), t').
Proof.
  intros Hacc Hc Hp. unfold inspect_candidate, get_state, mbind, M_bind. rewrite (ac_candidates Hacc), Hc. cbn. unfold settled.
  by rewrite !bool_decide_true.
Qed.

(** A pending candidate of an item that is alone in another product can be accepted. *)
Lemma accept_wp t k c by_ : review_ok t -> mt_candidates t !! k = Some c -> ca_status c = PENDING ->
  comparable t (ca_item c) (ca_product c) ->
  wp (accept_candidate k by_)
    (fun d t' => d = status_set ACCEPTED by_ (mt_clock t) c /\
       exists s m, mt_items t !! ca_item c = Some s /\ mt_matches t !! ca_item c = Some m /\ ma_method m = ISOLATED_METHOD /\
                   ma_product m <> ca_product c /\ accepted k c s (ma_product m) by_ t t')
    (fun _ _ => False) t.
Proof.
  intros Ht Hc Hpend (m & Hm & Hiso & Hne). destruct (rv_pending t Ht k c Hc Hpend) as (Hact & _).
  destruct (rv_matches t Ht _ m Hm) as ([s Hs] & Hold & Hactor). specialize (Hactor Hiso).
  assert (Hids : forall j r, mt_identifiers t !! j = Some r -> identifier_key r = item_key s -> ir_product r = ma_product m).
  { intros j r Hr Hk. by eapply identified. }
  unfold accept_candidate. do 3 wp_step. eapply wp_returns; [by apply locked_run|]. unfold require_pending.
  rewrite Hpend, bool_decide_true by done. cbn [negb raise_if]. do 4 wp_step.
  rewrite Hm, (bool_decide_true (ma_method m = _)), (bool_decide_true (ma_confirmed_by m = _)),
    (bool_decide_false (ma_product m = _)), Hact by done.
  cbn [negb andb raise_if]. do 7 wp_step. eapply wp_returns; [by apply validate_run|]. do 3 wp_step.
  eapply wp_mono; [eapply move_wp; [|exact Hids]| |done].
  { split; [exact (rv_identifiers t Ht)|apply (rv_ids t Ht)]. }
  intros _ u (n & ids & Hn & -> & Hmoved). do 4 wp_step.
  change (is_active _ (ma_product m)) with (is_active t (ma_product m)). rewrite Hold. cbn [andb].
  assert (Hdone : forall t', accepted k c s (ma_product m) by_ t t' -> wp (inspect_candidate k)
    (fun d t' => d = status_set ACCEPTED by_ (mt_clock t) c /\ exists s0 m0, mt_items t !! ca_item c = Some s0 /\
       Some m = Some m0 /\ ma_method m0 = ISOLATED_METHOD /\ ma_product m0 <> ca_product c /\ accepted k c s0 (ma_product m0) by_ t t') (fun _ _ => False) t').
  { intros t' Hacc. eapply wp_returns; [by eapply inspect_accepted|]. split; [done|]. by exists s, m. }
  cbn [mt_matches set_candidates set_next set_identifiers set_matches].
  destruct (is_matched _ _) eqn:Hmat; cbn [negb]; repeat wp_step; apply Hdone; split; cbn; rewrite ?Hmat; try done.
  - intros j. apply settle_item.
  - intros j. rewrite lookup_fmap, (settle_item _ _ _ (ma_product m)). destruct (mt_candidates t !! j) as [d|]; [|done]. cbn. f_equal.
    apply settle_retired.
Qed.

(** A candidate that is decided, or whose item is not alone in another product, is refused. *)
Lemma accept_refused t k c by_ : review_ok t -> mt_candidates t !! k = Some c -> is_Some (mt_items t !! ca_item c) ->
  ca_status c <> PENDING \/ ~ comparable t (ca_item c) (ca_product c) ->
  accept_candidate k by_ t = (Raised match_conflict, t).
Proof.
  intros Ht Hc [s Hs] Hd. unfold accept_candidate, transaction. unfold mbind at 1, M_bind. unfold mbind at 1, M_bind.
  rewrite (locked_run t k c s Hc Hs). unfold require_pending. unfold mbind at 1, M_bind.
  destruct (decide (ca_status c = PENDING)) as [Hp|Hp]; [|by rewrite bool_decide_false].
  destruct Hd as [?|Hd]; [done|]. rewrite bool_decide_true by done. cbv [negb raise_if mret M_ret get_state mbind M_bind].
  destruct (mt_matches t !! ca_item c) as [m|] eqn:Hm; [|done].
  destruct (decide (ma_method m = ISOLATED_METHOD)) as [Hiso|Hiso]; [|by rewrite (bool_decide_false (ma_method m = _))].
  destruct (rv_matches t Ht _ m Hm) as (_ & _ & Hactor). specialize (Hactor Hiso).
  rewrite (bool_decide_true (ma_method m = _)), (bool_decide_true (ma_confirmed_by m = _)) by done. cbn [negb andb].
  destruct (decide (ma_product m = ca_product c)) as [Hp'|Hne]; [by rewrite (bool_decide_true (ma_product m = _))|].
  destruct Hd. exists m. done.
Qed.

(** ** Every operation *)

Lemma locked_missing t k : (c ← mt_candidates t !! k; mt_items t !! ca_item c) = None ->
  locked_candidate k t = (Raised (MakoletExn NotFoundError 0), t).
Proof.
  unfold locked_candidate, get_state, mbind, M_bind. cbn. destruct (mt_candidates t !! k) as [c|]; cbn; [|done].
  by intros ->.
Qed.

Lemma excluded t c : (ca_status c = PENDING /\ comparable t (ca_item c) (ca_product c)) \/
  (ca_status c <> PENDING \/ ~ comparable t (ca_item c) (ca_product c)).
Proof.
  destruct (decide (ca_status c = PENDING)) as [Hp|Hp]; [|by right; left].
  destruct (mt_matches t !! ca_item c) as [m|] eqn:Hm; [|right; right; intros (m & ? & _); congruence].
  destruct (decide (ma_method m = ISOLATED_METHOD)) as [Hi|Hi]; [|right; right; intros (m' & ? & ? & _); congruence].
  destruct (decide (ma_product m = ca_product c)) as [He|He]; [right; right; intros (m' & ? & _ & ?); congruence|]. left. split; [done|]. by exists m.
Qed.
Lemma accept_evolves t k by_ : review_ok t -> wp (accept_candidate k by_) (fun _ t' => evolves t t') (fun _ t' => evolves t t') t.
Proof.
  intros Ht. pose proof (evolves_refl t Ht) as Hid.
  destruct (c ← mt_candidates t !! k; mt_items t !! ca_item c) as [s|] eqn:Hl.
  - apply bind_Some in Hl as (c & Hc & Hs).
    destruct (excluded t c) as [[Hp Hcmp]|Hd].
    + eapply wp_mono; [by apply accept_wp| |done]. intros d t' (_ & s' & m & Hs' & Hm & Hiso & Hne & Hacc). by eapply accepted_evolves.
    + unfold wp. by rewrite (accept_refused t k c) by (done || eauto).
  - unfold accept_candidate, wp, transaction. unfold mbind at 1, M_bind. unfold mbind at 1, M_bind. by rewrite locked_missing.
Qed.

Lemma reject_run t k c s w : mt_candidates t !! k = Some c -> mt_items t !! ca_item c = Some s -> ca_status c = PENDING ->
  reject_candidate k w t = (Returned (status_set REJECTED w (mt_clock t) c),
                            set_candidates (insert k (status_set REJECTED w (mt_clock t) c)) t).
Proof.
  intros Hc Hs Hp. unfold reject_candidate, transaction. unfold mbind at 1, M_bind. unfold mbind at 1, M_bind.
  rewrite (locked_run t k c s Hc Hs). unfold require_pending. cbn [fst]. rewrite Hp, bool_decide_true by done.
  assert (E : set_candidates (alter (status_set REJECTED w (mt_clock t)) k) t =
              set_candidates (insert k (status_set REJECTED w (mt_clock t) c)) t).
  { unfold set_candidates. f_equal. apply map_eq. intros j. destruct (decide (k = j)) as [<-|Hne].
    - by rewrite lookup_alter_eq, lookup_insert_eq, Hc.
    - by rewrite lookup_alter_ne, lookup_insert_ne. }
  cbv [negb raise_if mbind M_bind mret M_ret get_state modify]. rewrite E.
  unfold inspect_candidate, get_state, mbind, M_bind. cbn. by rewrite lookup_insert_eq.
Qed.
Lemma reject_refused t k c w : mt_candidates t !! k = Some c -> ca_status c <> PENDING -> is_Some (mt_items t !! ca_item c) ->
  reject_candidate k w t = (Raised match_conflict, t).
Proof.
  intros Hc Hd [s Hs]. unfold reject_candidate, transaction. unfold mbind at 1, M_bind. unfold mbind at 1, M_bind.
  rewrite (locked_run t k c s Hc Hs). unfold require_pending. cbn [fst]. unfold mbind at 1, M_bind. by rewrite bool_decide_false.
Qed.
Lemma reject_evolves t k w : review_ok t -> wp (reject_candidate k w) (fun _ t' => evolves t t') (fun _ t' => evolves t t') t.
Proof.
  intros Ht. pose proof (evolves_refl t Ht) as Hid.
  destruct (c ← mt_candidates t !! k; mt_items t !! ca_item c) as [s|] eqn:Hl.
  - apply bind_Some in Hl as (c & Hc & Hs). unfold wp. destruct (decide (ca_status c = PENDING)) as [Hp|Hp].
    + rewrite (reject_run t k c s) by done. apply candidate_insert; [done|..].
      * split; [done|]. split; [done|]. exact (rv_scores t Ht k c Hc).
      * destruct (rv_ids t Ht) as (_ & Hcand & _). eauto.
      * intros j d Hd E. by eapply (rv_keys t Ht).
      * intros d Hd. simplify_eq. done.
    + by rewrite (reject_refused t k c) by (done || eauto).
  - unfold reject_candidate, wp, transaction. unfold mbind at 1, M_bind. unfold mbind at 1, M_bind. by rewrite locked_missing.
Qed.

Lemma after_next t n u : review_ok t -> mt_next_id t <= n -> evolves (set_next n t) u -> evolves t u.
Proof. intros Ht Hn Hu. eapply evolves_trans; [by apply set_next_evolves|done]. Qed.

Section generate.
Context `{Unicode} `{WordCharacters} `{UuidText} `{Trigrams}.
Variable collate : pystr -> pystr -> bool.

Lemma unreviewed_isolated t cursor (p : uuid * SubjectRow) m : unreviewed t p.1 && beyond cursor p.1 = true -> mt_matches t !! p.1 = Some m ->
  ma_method m = ISOLATED_METHOD.
Proof. intros [Hu _]%andb_true_iff Hm. unfold unreviewed in Hu. rewrite Hm in Hu. by apply bool_decide_eq_true in Hu. Qed.

Lemma generate_evolves t cursor k n threshold : review_ok t ->
  wp (generate_candidates collate cursor k n threshold) (fun _ t' => evolves t t') (fun _ t' => evolves t t') t.
Proof.
  intros Ht. pose proof (evolves_refl t Ht) as Hid. unfold generate_candidates. wp_step.
  assert (Hcur : wp (match_cursor cursor) (fun _ t' => t' = t) (fun _ t' => t' = t) t) by (unfold match_cursor; by repeat wp_step).
  eapply wp_mono; [exact Hcur| |by intros ? ? ->]. intros c ? ->. do 2 wp_step. unfold select_subjects. do 2 wp_step.
  eapply wp_mono; [apply selection_wp; [done|]| |done]; [intros p m; apply unreviewed_isolated|].
  intros l ? (next & Hn & -> & Hl & _). pose proof (set_next_evolves next t Ht Hn) as Hev0. pose proof Hev0 as [Ht1 _].
  destruct (last _) as [s|]; [|by wp_step]. wp_step.
  eapply wp_mono; [by apply bootstrap_wp| |done]. intros b u (Hu & _ & _). pose proof (after_next t next u Ht Hn Hu) as Hev. destruct Hu as [Hu _].
  do 3 wp_step. eapply wp_mono; [apply score_rows_wp| |by intros ? ? ->]. intros ps ? [-> Hps]. wp_step.
  eapply wp_mono; [apply write_candidates_wp; [done|]| |done].
  - eapply Forall_impl; [exact Hps|]. intros p (Hsc & Hd & r & Hr & -> & ->). split_and!; [|done..]. by eapply block_rows_offered.
  - intros w v Hv. wp_step. by eapply evolves_trans.
Qed.
End generate.

(** ** The items of a file *)

Definition unmatched (source : uuid) (t : MatchTables) (cursor : option uuid) : list (uuid * SubjectRow) :=
  by_id (List.filter (fun p => unmatched_of source t p && beyond cursor p.1) (map_to_list (mt_items t))).
Lemma elem_of_unmatched source t cursor i r : (i, r) ∈ unmatched source t cursor <->
  mt_items t !! i = Some r /\ sj_source_file r = source /\ mt_matches t !! i = None /\ beyond cursor i = true.
Proof.
  unfold unmatched, by_id. rewrite order_by_permutation, list_elem_of_In, List.filter_In, <- list_elem_of_In, elem_of_map_to_list.
  unfold unmatched_of. rewrite !andb_true_iff, !bool_decide_eq_true. naive_solver.
Qed.
Lemma NoDup_unmatched source t cursor : NoDup (map fst (unmatched source t cursor)).
Proof. unfold unmatched, by_id. rewrite order_by_permutation. apply NoDup_filtered. Qed.

(** What the selected subjects of a page are, as items. *)
Lemma page_items (l : list Subject) (all : list (uuid * SubjectRow)) : map sb_item l = map fst (take (BOOTSTRAP_BATCH_SIZE + 1) all) ->
  map sb_item (take BOOTSTRAP_BATCH_SIZE l) = map fst (take BOOTSTRAP_BATCH_SIZE all) /\
  (BOOTSTRAP_BATCH_SIZE <? length l)%nat = (BOOTSTRAP_BATCH_SIZE <? length all)%nat.
Proof.
  intros E. split.
  - change (map sb_item) with (fmap (M := list) sb_item) in *. change (map fst) with (fmap (M := list) (A := uuid * SubjectRow) fst) in *.
    rewrite fmap_take, E, <- fmap_take, take_take. by rewrite Nat.min_l by lia.
  - apply (f_equal length) in E. rewrite !length_map, length_take in E. rewrite E.
    apply eq_bool_prop_intro. rewrite !Is_true_true, !Nat.ltb_lt. lia.
Qed.
Lemma last_item (l : list Subject) (all : list (uuid * SubjectRow)) : map sb_item l = map fst all ->
  sb_item <$> last l = fst <$> last all.
Proof.
  intros E. rewrite <- !fmap_last. change (sb_item <$> l) with (map sb_item l). by rewrite E.
Qed.

(** One page of [bootstrap_source_file]: the first unmatched items are matched, and no others. *)
Record page_done (source : uuid) (cursor : option uuid) (t t' : MatchTables) : Prop := {
  pd_evolves : evolves t t';
  pd_matched : forall i, is_Some (mt_matches t' !! i) <->
    is_Some (mt_matches t !! i) \/ i ∈ map fst (take BOOTSTRAP_BATCH_SIZE (unmatched source t cursor))
}.
Arguments pd_evolves {_ _ _ _} _.
Arguments pd_matched {_ _ _ _} _.

Lemma with_isolated_matched t l i : subjects_ok t l ->
  is_Some (mt_matches (with_isolated (fresh_subjects l) t) !! i) <-> is_Some (mt_matches t !! i) \/ i ∈ map sb_item (fresh_subjects l).
Proof.
  intros Hl. split.
  - intros [m Hm]. cbn in Hm. apply insert_all_inv in Hm as [[_ Hm]|(s & Hs & <- & _)]; [left; eauto|right|by eapply NoDup_fresh].
    apply list_elem_of_fmap. eauto.
  - intros [[m Hm]|Hi]; [exists m; by apply isolated_match_kept|]. apply list_elem_of_fmap in Hi as (s & -> & Hs).
    eexists. by apply (isolated_match_new t l s Hl Hs).
Qed.

Lemma bootstrap_page_wp t source cursor : review_ok t ->
  wp (bootstrap_page source cursor) (fun r t' => page_done source cursor t t' /\
    match r with
    | None => unmatched source t cursor = []
    | Some (n, c, more) =>
        n = py_len (take BOOTSTRAP_BATCH_SIZE (unmatched source t cursor)) /\
        c = fst <$> last (take BOOTSTRAP_BATCH_SIZE (unmatched source t cursor)) /\
        more = (BOOTSTRAP_BATCH_SIZE <? length (unmatched source t cursor))%nat
    end) (fun _ _ => False) t.
Proof.
  intros Ht. unfold bootstrap_page. wp_step. unfold select_source_subjects. do 3 wp_step.
  eapply wp_mono; [apply selection_wp; [done|]| |done].
  { intros p m [Hp _]%andb_true_iff Hm. unfold unmatched_of in Hp. rewrite Hm in Hp. by rewrite andb_false_r in Hp. }
  intros l ? (n & Hn & -> & Hl & Hitems). fold (unmatched source t cursor) in Hitems.
  pose proof (set_next_evolves n t Ht Hn) as Hev0. pose proof Hev0 as [Ht1 _]. pose proof (page_items l _ Hitems) as [Hpage Hmore].
  pose proof (last_item _ _ Hpage) as Hlast. set (all := unmatched source t cursor) in *.
  assert (Hl500 : subjects_ok (set_next n t) (take BOOTSTRAP_BATCH_SIZE l)) by (eapply subjects_ok_sublist; [apply sublist_take|done]).
  assert (Hfresh : fresh_subjects (take BOOTSTRAP_BATCH_SIZE l) = take BOOTSTRAP_BATCH_SIZE l).
  { apply filter_kept. intros s Hs. apply bool_decide_eq_true. rewrite (so_methods _ _ Hl500 s Hs). cbn.
    assert (Hi : sb_item s ∈ map fst (take BOOTSTRAP_BATCH_SIZE all)) by (rewrite <- Hpage; apply list_elem_of_fmap; eauto).
    apply list_elem_of_fmap in Hi as ([i r] & Hi & Hr). apply elem_of_taken, elem_of_unmatched in Hr. cbn in Hi. rewrite Hi.
    destruct Hr as (_ & _ & -> & _). done. }
  destruct (last (take BOOTSTRAP_BATCH_SIZE l)) as [s|] eqn:Es.
  - wp_step. eapply wp_mono; [by apply bootstrap_wp| |done]. intros b u (Hu & Hs & ->). wp_step. rewrite Hfresh. split.
    + split; [exact (after_next t n u Ht Hn Hu)|]. intros i. pose proof Hs as (_ & _ & -> & _). rewrite with_isolated_matched, Hfresh, Hpage by done. done.
    + split_and!; [|by rewrite <- Hlast|done]. unfold py_len. f_equal.
      rewrite <- (length_map sb_item), Hpage. apply length_map.
  - wp_step. apply last_None in Es. rewrite Es in Hpage. assert (Hall : all = []) by (by destruct all). split; [|done].
    split; [done|]. intros i. fold all. rewrite Hall. cbn. set_solver.
Qed.
