(* ===== verification/ExactGtins.v ===== *)
(** Exact matching by GTIN, within an apply: [_materialize_price_maps] for the items of a file and
    [_match_exact_gtins] of [src/src/makolet/adapters/persistence/ingestion.py].

    Each statement is a function of the tables; a temporary table is the list its query answers.
    [ON CONFLICT] keys are those of [CatalogReview.v], with [assertion_key] for the assertions. *)
From stdpp Require Import sorting.
From S2P Require Import Prelude Errors Effects Enums PyNumbers Text Models SourceValues Decimals Rebuild CatalogMatching CatalogReview.
Open Scope Z_scope.

Definition EXACT_METHODS : list string := ["exact_gtin"; "exact_provisional_gtin"; "exact_validated_gtin"]%string.
Definition EXACT_ACTORS : list pystr := [py "system:exact-gtin"; py "system:exact-gtin-evidence"].
Definition EXACT_ACTOR : pystr := py "system:exact-gtin-evidence".
Definition CHECKSUM : string := "gtin_checksum".
Definition RETAILER_ASSERTION : string := "retailer_assertion".
Definition CORROBORATION : string := "independent_retailer_corroboration".

(** A row of [makolet_exact_gtin_items]. *)
Abbreviation gtin_item := (uuid * SubjectRow)%type.
Definition exact_gtin_items (retailer portal : uuid) (codes : list pystr) (t : MatchTables) : list gtin_item :=
  List.filter (fun p => bool_decide (sj_retailer p.2 = retailer) && bool_decide (sj_portal p.2 = portal)
                        && bool_decide (sj_code p.2 ∈ codes)) (map_to_list (mt_items t)).

Definition is_live (a : AssertionRow) : bool := bool_decide (as_kind a = GTIN) && bool_decide (as_superseded_at a = None).
Definition among (items : list gtin_item) (i : uuid) : bool := existsb (fun p => bool_decide (p.1 = i)) items.
Definition gtins_of (items : list gtin_item) : list pystr := remove_dups (omap (fun p => sj_gtin p.2) items).

(** [makolet_affected_gtins]. *)
Definition affected_gtins (items : list gtin_item) (t : MatchTables) : list pystr :=
  remove_dups (gtins_of items
    ++ map (fun a => as_value a.2) (List.filter (fun a => is_live a.2 && among items (as_item a.2)) (map_to_list (mt_assertions t)))).

(** ** Assertions *)

Definition superseding (items : list gtin_item) (source_file : uuid) (a : AssertionRow) : bool :=
  is_live a && among items (as_item a) && negb (bool_decide (as_source_file a = source_file)).
Definition superseded_row (applied_at : Z) (a : AssertionRow) : AssertionRow := {| as_item := as_item a; as_kind := as_kind a;
  as_value := as_value a; as_source_file := as_source_file a; as_method := as_method a; as_asserted_at := as_asserted_at a;
  as_superseded_at := Some applied_at |}.
(** The check is [superseded_after_assertion]. *)
Definition supersede_assertions (items : list gtin_item) (source_file : uuid) (applied_at : Z) : M MatchTables unit :=
  t ← get_state;
  raise_if (existsb (fun a => superseding items source_file a.2 && (applied_at <? as_asserted_at a.2)) (map_to_list (mt_assertions t)))
    integrity_error;;
  modify (set_assertions (fmap (fun a => if superseding items source_file a then superseded_row applied_at a else a))).

(** [uq_retailer_identifier_assertion_item_kind_source]. *)
Definition assertion_key (a : AssertionRow) : uuid * IdentifierKind * uuid := (as_item a, as_kind a, as_source_file a).
Definition asserted (source_file : uuid) (applied_at : Z) (p : gtin_item) : option AssertionRow :=
  (fun g => {| as_item := p.1; as_kind := GTIN; as_value := g; as_source_file := source_file; as_method := CHECKSUM;
               as_asserted_at := applied_at; as_superseded_at := None |}) <$> sj_gtin p.2.
Definition assert_gtins (items : list gtin_item) (source_file : uuid) (applied_at : Z) : M MatchTables unit :=
  for_each (fun a => insert_row assertion_key id set_assertions a) (omap (asserted source_file applied_at) items).
Definition update_assertions (items : list gtin_item) (source_file : uuid) (applied_at : Z) : M MatchTables unit :=
  supersede_assertions items source_file applied_at;; assert_gtins items source_file applied_at.

(** ** Match groups *)

(** A match this function made. *)
Definition is_exact (m : MatchRow) : bool := bool_decide (ma_method m ∈ EXACT_METHODS) && bool_decide (ma_confirmed_by m ∈ EXACT_ACTORS).
Definition withdraw_matches (items : list gtin_item) : M MatchTables unit :=
  modify (set_matches (map_imap (fun i m => if among items i && is_exact m then None else Some m))).

(** The identifier of a GTIN that no retailer issued and that is validated. *)
Definition is_global (g : pystr) (r : IdentifierRow) : bool :=
  bool_decide (ir_kind r = GTIN) && bool_decide (ir_normalized r = g) && bool_decide (ir_issuer r = None) && ir_validated r.
Definition global_identifier (t : MatchTables) (g : pystr) : option IdentifierRow :=
  snd <$> find (fun p => is_global g p.2) (map_to_list (mt_identifiers t)).

(** A row of [makolet_exact_gtin_group_candidates], with [creates_product] its second component. *)
Definition group_product (r : SubjectRow) : ProductRow := {| pr_name := sj_name r; pr_brand := sj_manufacturer r;
  pr_manufacturer := sj_manufacturer r; pr_quantity := sj_quantity r; pr_unit := sj_unit r; pr_product_status := PRODUCT_ACTIVE |}.
Section groups.
Variable collate : pystr -> pystr -> bool.
Definition by_code (a b : gtin_item) : Prop := collate (sj_code a.2) (sj_code b.2) = true.
#[export] Instance by_code_dec : RelDecision by_code.
Proof. intros a b. unfold by_code. apply _. Defined.
(** [SELECT DISTINCT ON (item.gtin) ... ORDER BY item.gtin, item.source_item_code]. *)
Definition first_item (items : list gtin_item) (g : pystr) : option gtin_item :=
  head (merge_sort by_code (List.filter (fun p => bool_decide (sj_gtin p.2 = Some g)) items)).
Fixpoint group_candidates (items : list gtin_item) (gtins : list pystr) : M MatchTables (list (pystr * bool * uuid * SubjectRow)) :=
  match gtins with
  | [] => mret []
  | g :: gtins =>
      t ← get_state;
      match first_item items g with
      | None => group_candidates items gtins
      | Some p =>
          product ← (match global_identifier t g with Some r => mret (ir_product r) | None => next_uuid end);
          rest ← group_candidates items gtins;
          mret ((g, bool_decide (global_identifier t g = None), product, p.2) :: rest)
      end
  end.

Definition created (candidates : list (pystr * bool * uuid * SubjectRow)) : list (pystr * bool * uuid * SubjectRow) :=
  List.filter (fun c => c.1.1.2) candidates.
Definition grouped (p : uuid) (groups : gmap pystr uuid) : bool := existsb (fun g => bool_decide (g.2 = p)) (map_to_list groups).
Definition form_groups (items : list gtin_item) : M MatchTables unit :=
  t ← get_state;
  candidates ← group_candidates items (List.filter (fun g => bool_decide (mt_groups t !! g = None)) (gtins_of items));
  modify (set_products (fun m => foldl (fun m c => <[ c.1.2 := group_product c.2 ]> m) m (created candidates)));;
  modify (set_groups (fun m => foldl (fun m c => match m !! c.1.1.1 with Some _ => m | None => <[ c.1.1.1 := c.1.2 ]> m end) m candidates));;
  u ← get_state;
  modify (set_products (fun m => foldl (fun m c => if grouped c.1.2 (mt_groups u) then m else delete c.1.2 m) m (created candidates))).
End groups.

(** ** Identifiers *)

Definition scoped_identifier (product : uuid) (g : pystr) (retailer portal : uuid) : IdentifierRow := {| ir_product := product;
  ir_kind := GTIN; ir_value := g; ir_normalized := g; ir_issuer := Some retailer; ir_portal := Some portal;
  ir_validated := false; ir_validation := Some RETAILER_ASSERTION |}.
(** [DO UPDATE SET value = excluded.value]; the evidence is not kept here. *)
Definition rescoped (r q : IdentifierRow) : IdentifierRow :=
  if bool_decide (ir_product q = ir_product r) && bool_decide (ir_validation q = Some RETAILER_ASSERTION)
  then {| ir_product := ir_product q; ir_kind := ir_kind q; ir_value := ir_value r; ir_normalized := ir_normalized q;
          ir_issuer := ir_issuer q; ir_portal := ir_portal q; ir_validated := ir_validated q; ir_validation := ir_validation q |}
  else q.
(** The groups of the [GROUP BY]. *)
Definition scopes (items : list gtin_item) (t : MatchTables) : list (uuid * pystr * uuid * uuid) :=
  remove_dups (omap (fun p => g ← sj_gtin p.2; product ← mt_groups t !! g; Some (product, g, sj_retailer p.2, sj_portal p.2)) items).
Definition scope_identifiers (items : list gtin_item) : M MatchTables unit :=
  t ← get_state;
  for_each (fun r => insert_row identifier_key (rescoped r) set_identifiers r)
    (map (fun '(product, g, retailer, portal) => scoped_identifier product g retailer portal) (scopes items t)).

(** [makolet_live_gtin_retailers]. *)
Definition live_retailers (affected : list pystr) (t : MatchTables) : list (pystr * uuid * uuid) :=
  remove_dups (omap (fun a => if is_live a.2 && bool_decide (as_value a.2 ∈ affected)
                              then (fun s => (as_value a.2, sj_retailer s, sj_portal s)) <$> mt_items t !! as_item a.2 else None)
                    (map_to_list (mt_assertions t))).
Definition stale_identifier (affected : list pystr) (live : list (pystr * uuid * uuid)) (r : IdentifierRow) : bool :=
  bool_decide (ir_kind r = GTIN) && bool_decide (ir_normalized r ∈ affected) && bool_decide (is_Some (ir_issuer r))
  && bool_decide (ir_validation r = Some RETAILER_ASSERTION)
  && negb (existsb (fun l => bool_decide (l.1.1 = ir_normalized r) && bool_decide (Some l.1.2 = ir_issuer r)
                             && bool_decide (Some l.2 = ir_portal r)) live).
Definition drop_stale_identifiers (affected : list pystr) (live : list (pystr * uuid * uuid)) : M MatchTables unit :=
  modify (set_identifiers (map_imap (fun _ r => if stale_identifier affected live r then None else Some r))).

(** [makolet_gtin_corroboration]: the GTIN, the product of its group and its retailers. *)
Definition retailers_of (live : list (pystr * uuid * uuid)) (g : pystr) : Z :=
  py_len (remove_dups (map (fun l => l.1.2) (List.filter (fun l => bool_decide (l.1.1 = g)) live))).
Definition corroboration (affected : list pystr) (live : list (pystr * uuid * uuid)) (t : MatchTables) : list (pystr * uuid * Z) :=
  omap (fun g => (fun product => (g, product, retailers_of live g)) <$> mt_groups t !! g) affected.
Definition uncorroborated (c : list (pystr * uuid * Z)) (r : IdentifierRow) : bool :=
  bool_decide (ir_kind r = GTIN) && bool_decide (ir_issuer r = None) && bool_decide (ir_validation r = Some CORROBORATION)
  && existsb (fun x => bool_decide (x.1.1 = ir_normalized r) && (x.2 <? 2)) c.
Definition validated_identifier (product : uuid) (g : pystr) : IdentifierRow := {| ir_product := product; ir_kind := GTIN;
  ir_value := g; ir_normalized := g; ir_issuer := None; ir_portal := None; ir_validated := true; ir_validation := Some CORROBORATION |}.
Definition revalidated (r q : IdentifierRow) : IdentifierRow :=
  if bool_decide (ir_product q = ir_product r) && bool_decide (ir_validation q = Some CORROBORATION)
  then {| ir_product := ir_product q; ir_kind := ir_kind q; ir_value := ir_value q; ir_normalized := ir_normalized q;
          ir_issuer := ir_issuer q; ir_portal := ir_portal q; ir_validated := true; ir_validation := ir_validation r |}
  else q.
Definition validate_identifiers (c : list (pystr * uuid * Z)) : M MatchTables unit :=
  modify (set_identifiers (map_imap (fun _ r => if uncorroborated c r then None else Some r)));;
  for_each (fun r => insert_row identifier_key (revalidated r) set_identifiers r)
    (map (fun x => validated_identifier x.1.2 x.1.1) (List.filter (fun x => 2 <=? x.2) c)).

Definition update_identifiers (items : list gtin_item) (affected : list pystr) : M MatchTables unit :=
  scope_identifiers items;;
  t ← get_state;
  let live := live_retailers affected t in
  drop_stale_identifiers affected live;;
  validate_identifiers (corroboration affected live t).

(** ** Conflicts *)

Definition scoped_to (g : pystr) (s : SubjectRow) (r : IdentifierRow) : bool :=
  bool_decide (ir_kind r = GTIN) && bool_decide (ir_normalized r = g) && bool_decide (ir_issuer r = Some (sj_retailer s))
  && bool_decide (ir_portal r = Some (sj_portal s)).
Definition identifier_rows (t : MatchTables) (f : IdentifierRow -> bool) : list IdentifierRow :=
  map snd (List.filter (fun p => f p.2) (map_to_list (mt_identifiers t))).
(** A row of [conflicts], as the candidate that is inserted for it. *)
Definition conflict_candidate (source_file : uuid) (applied_at : Z) (item product : uuid) (g : pystr) (reason : ConflictReason)
    : CandidateRow := {| ca_item := item; ca_product := product; ca_method := EXACT_IDENTIFIER_CONFLICT; ca_score := Finite false 10 (-1);
  ca_status := PENDING; ca_evidence := Conflicting g reason source_file; ca_created_at := applied_at; ca_reviewed_at := None;
  ca_reviewed_by := None |}.
Definition conflicts (items : list gtin_item) (source_file : uuid) (applied_at : Z) (t : MatchTables) : list CandidateRow :=
  let of_group {A} (f : gtin_item -> pystr -> uuid -> list A) : list A :=
    concat (map (fun p => match (g ← sj_gtin p.2; product ← mt_groups t !! g; Some (g, product)) with
                          | Some (g, product) => f p g product
                          | None => []
                          end) items) in
  of_group (fun p g product =>
    match mt_matches t !! p.1 with
    | Some m => if bool_decide (ma_product m = product) then []
                else [conflict_candidate source_file applied_at p.1 product g MANUAL_MATCH_DISAGREES]
    | None => []
    end)
  ++ of_group (fun p g product => map (fun _ => conflict_candidate source_file applied_at p.1 product g RETAILER_SCOPE_DISAGREES)
       (identifier_rows t (fun r => scoped_to g p.2 r && negb (bool_decide (ir_product r = product)))))
  ++ of_group (fun p g product => map (fun r => conflict_candidate source_file applied_at p.1 (ir_product r) g VALIDATED_GLOBAL_DISAGREES)
       (identifier_rows t (fun r => is_global g r && negb (bool_decide (ir_product r = product))))).
Definition record_conflicts (items : list gtin_item) (source_file : uuid) (applied_at : Z) : M MatchTables unit :=
  t ← get_state;
  for_each (fun c => insert_row candidate_key id set_candidates c) (conflicts items source_file applied_at t).

(** ** Matches *)

(** The live assertion of an item, with its id. *)
Definition live_assertion (t : MatchTables) (i : uuid) : option (uuid * AssertionRow) :=
  find (fun p => is_live p.2 && bool_decide (as_item p.2 = i)) (map_to_list (mt_assertions t)).
(** The columns of an exact match; [validated] is the identifier of the left join. *)
Definition exact_match (product : uuid) (assertion : uuid * AssertionRow) (retailer : uuid) (validated : option IdentifierRow)
    (applied_at : Z) : MatchRow := {| ma_product := product;
  ma_method := match validated with None => "exact_provisional_gtin" | Some _ => "exact_validated_gtin" end;
  ma_evidence := ExactGtin assertion.1 (as_value assertion.2) retailer (as_source_file assertion.2)
    (match validated with None => Some CHECKSUM | Some r => ir_validation r end);
  ma_confirmed_at := applied_at; ma_confirmed_by := EXACT_ACTOR |}.
Definition validated_for (t : MatchTables) (g : pystr) (product : uuid) : option IdentifierRow :=
  head (identifier_rows t (fun r => is_global g r && bool_decide (ir_product r = product))).
(** The match of an item that has none. *)
Definition new_match (t : MatchTables) (applied_at : Z) (p : gtin_item) : option MatchRow :=
  g ← sj_gtin p.2;
  a ← live_assertion t p.1;
  product ← mt_groups t !! g;
  if bool_decide (as_value a.2 = g) && bool_decide (mt_matches t !! p.1 = None)
     && negb (bool_decide (identifier_rows t (fun r => scoped_to g p.2 r && bool_decide (ir_product r = product)) = []))
     && bool_decide (identifier_rows t (fun r => is_global g r && negb (bool_decide (ir_product r = product))) = [])
  then Some (exact_match product a (sj_retailer p.2) (validated_for t g product) applied_at)
  else None.
Definition confirm_matches (items : list gtin_item) (applied_at : Z) : M MatchTables unit :=
  t ← get_state;
  modify (set_matches (fun m => foldl (fun m p =>
    match new_match t applied_at p, m !! p.1 with Some x, None => <[ p.1 := x ]> m | _, _ => m end) m items)).
(** The last [UPDATE], of every match whose GTIN is affected. *)
Definition refreshed_match (t : MatchTables) (affected : list pystr) (applied_at : Z) (i : uuid) (m : MatchRow) : MatchRow :=
  if is_exact m then
    match (a ← live_assertion t i; s ← mt_items t !! i; product ← mt_groups t !! as_value a.2; Some (a, s, product)) with
    | Some (a, s, product) =>
        if bool_decide (as_value a.2 ∈ affected) && bool_decide (ma_product m = product)
        then exact_match product a (sj_retailer s) (validated_for t (as_value a.2) product) applied_at
        else m
    | None => m
    end
  else m.
Definition refresh_matches (affected : list pystr) (applied_at : Z) : M MatchTables unit :=
  t ← get_state;
  modify (set_matches (map_imap (fun i m => Some (refreshed_match t affected applied_at i m)))).

Section match_exact.
Variable collate : pystr -> pystr -> bool.

Definition match_exact_gtins (source_file retailer portal : uuid) (codes : list pystr) (applied_at : Z) : M MatchTables unit :=
  t ← get_state;
  let items := exact_gtin_items retailer portal codes t in
  let affected := affected_gtins items t in
  update_assertions items source_file applied_at;;
  withdraw_matches items;;
  form_groups collate items;;
  update_identifiers items affected;;
  record_conflicts items source_file applied_at;;
  confirm_matches items applied_at;;
  refresh_matches affected applied_at.
End match_exact.
