(* ===== verification/ExactGtinsFacts.v ===== *)
(** What exact matching by GTIN keeps: an identifier for every retailer that asserts a GTIN, a
    validated one when two retailers do, and exact matches that rest on a live assertion. *)
From stdpp Require Import sorting.
From S2P Require Import Prelude Errors Effects Enums PyNumbers Text Models SourceValues Decimals Rebuild RebuildFacts CatalogMatching CatalogMatchingFacts CatalogReview CatalogReviewFacts ExactGtins.
Open Scope Z_scope.

(** ** The invariant *)

(** A retailer asserts a GTIN by an item of a portal. *)
Definition asserts (t : MatchTables) (g : pystr) (retailer portal : uuid) : Prop := exists j a s,
  mt_assertions t !! j = Some a /\ is_live a = true /\ as_value a = g /\
  mt_items t !! as_item a = Some s /\ sj_retailer s = retailer /\ sj_portal s = portal.
Definition corroborated (t : MatchTables) (g : pystr) : Prop :=
  exists r p r' p', r <> r' /\ asserts t g r p /\ asserts t g r' p'.
(** An exact match rests on the live assertion of its item. *)
Definition rests_on (t : MatchTables) (i : uuid) (m : MatchRow) (j : uuid) (a : AssertionRow) : Prop :=
  mt_assertions t !! j = Some a /\ is_live a = true /\ as_item a = i /\ is_Some (mt_items t !! i) /\
  mt_groups t !! as_value a = Some (ma_product m) /\ ma_confirmed_by m = EXACT_ACTOR.
Definition exact_method (t : MatchTables) (g : pystr) (m : MatchRow) : Prop :=
  (ma_method m = "exact_validated_gtin"%string /\ corroborated t g) \/
  (ma_method m = "exact_provisional_gtin"%string /\ ~ corroborated t g).

(** What an identifier of a GTIN is. *)
Definition gtin_row (G : gmap pystr uuid) (r : IdentifierRow) : Prop := exists product, G !! ir_normalized r = Some product /\
  ((exists retailer portal, r = scoped_identifier product (ir_normalized r) retailer portal) \/ r = validated_identifier product (ir_normalized r)).
Definition gtin_rows (G : gmap pystr uuid) (I : gmap uuid IdentifierRow) : Prop :=
  forall j r, I !! j = Some r -> ir_kind r = GTIN -> gtin_row G r.
(** A row is somewhere in a table. *)
Definition present {V} (m : gmap uuid V) (r : V) : Prop := exists j, m !! j = Some r.
Definition has_scoped (I : gmap uuid IdentifierRow) (g : pystr) (r p : uuid) : Prop :=
  exists product, present I (scoped_identifier product g r p).
Definition has_validated (I : gmap uuid IdentifierRow) (g : pystr) : Prop := exists product, present I (validated_identifier product g).

Record gtin_ok (t : MatchTables) : Prop := {
  gt_live : forall j k a b, mt_assertions t !! j = Some a -> mt_assertions t !! k = Some b -> is_live a = true -> is_live b = true ->
    as_item a = as_item b -> j = k;
  gt_items : forall j a, mt_assertions t !! j = Some a -> is_Some (mt_items t !! as_item a);
  gt_keys : unique_rows assertion_key (mt_assertions t);
  gt_kinds : forall j a, mt_assertions t !! j = Some a -> as_kind a = GTIN;
  gt_grouped : forall j a, mt_assertions t !! j = Some a -> is_live a = true -> is_Some (mt_groups t !! as_value a);
  gt_rows : gtin_rows (mt_groups t) (mt_identifiers t);
  gt_scoped : forall g retailer portal, has_scoped (mt_identifiers t) g retailer portal <-> asserts t g retailer portal;
  gt_validated : forall g, has_validated (mt_identifiers t) g <-> corroborated t g;
  gt_matches : forall i m, mt_matches t !! i = Some m -> ~ settled_match m ->
    exists j a, rests_on t i m j a /\ exact_method t (as_value a) m
}.

Lemma settled_dec m : settled_match m \/ ~ settled_match m.
Proof.
  unfold settled_match. destruct (decide (ma_method m = ISOLATED_METHOD)); [by left; left|].
  destruct (decide (ma_method m = "manual_review"%string)); [by left; right|]. right. naive_solver.
Qed.
Lemma settled_not_exact m : settled_match m -> is_exact m = false.
Proof. unfold is_exact. intros [-> | ->]; by rewrite bool_decide_false by (vm_compute; set_solver). Qed.
Lemma exact_of t g m : exact_method t g m -> ma_confirmed_by m = EXACT_ACTOR -> is_exact m = true /\ ~ settled_match m.
Proof.
  intros Hm Ha. unfold is_exact, settled_match. rewrite Ha.
  rewrite (bool_decide_true (EXACT_ACTOR ∈ EXACT_ACTORS)) by (unfold EXACT_ACTORS, EXACT_ACTOR; set_solver).
  unfold EXACT_METHODS. destruct Hm as [[-> _]|[-> _]]; (rewrite bool_decide_true by set_solver; split; [done|by intros [?|?]]).
Qed.

(** It does not see the operations of a review. *)
Lemma gtin_ok_apart t t' : gtin_ok t -> apart t t' -> gtin_ok t'.
Proof.
  intros [H1 H2 H3 H4 H5 H6 H7 H8 H9] [Hi Ha Hg _ Hm Hids].
  assert (Hasserts : forall g r p, asserts t' g r p <-> asserts t g r p) by (unfold asserts; by rewrite Hi, Ha).
  assert (Hcorr : forall g, corroborated t' g <-> corroborated t g) by (intros g; unfold corroborated; by setoid_rewrite Hasserts).
  split; rewrite ?Hi, ?Ha, ?Hg; try done.
  - intros j r Hj Hk. apply Hids in Hj; [|done]. by eapply H6.
  - intros g r p. rewrite Hasserts, <- H7. unfold has_scoped, present. by setoid_rewrite Hids.
  - intros g. rewrite Hcorr, <- H8. unfold has_validated, present. by setoid_rewrite Hids.
  - intros i m Him Hset. apply Hm in Him; [|done]. destruct (H9 i m Him Hset) as (j & a & Hr & He). exists j, a.
    unfold rests_on, exact_method. rewrite Hi, Ha, Hg, Hcorr. by split.
Qed.

(** Nor, as long as the retailer and the portal of an item stay, what is said of the items. *)
Definition same_sellers (t t' : MatchTables) : Prop := forall i s, mt_items t !! i = Some s ->
  exists s', mt_items t' !! i = Some s' /\ sj_retailer s' = sj_retailer s /\ sj_portal s' = sj_portal s.
Lemma gtin_ok_items t t' : gtin_ok t -> same_sellers t t' -> mt_assertions t' = mt_assertions t -> mt_groups t' = mt_groups t ->
  mt_matches t' = mt_matches t -> mt_identifiers t' = mt_identifiers t -> gtin_ok t'.
Proof.
  intros [H1 H2 H3 H4 H5 H6 H7 H8 H9] Hi Ha Hg Hm Hids.
  assert (Hasserts : forall g r p, asserts t' g r p <-> asserts t g r p).
  { intros g r p. unfold asserts. rewrite Ha. split; intros (j & a & s & Hj & Hl & Hv & Hs & Hr & Hp).
    - destruct (H2 j a Hj) as [s0 Hs0]. destruct (Hi _ s0 Hs0) as (s' & Hs' & E1 & E2). exists j, a, s0. split_and!; try done; congruence.
    - destruct (Hi _ s Hs) as (s' & Hs' & E1 & E2). exists j, a, s'. split_and!; try done; congruence. }
  assert (Hcorr : forall g, corroborated t' g <-> corroborated t g) by (intros g; unfold corroborated; by setoid_rewrite Hasserts).
  split; rewrite ?Ha, ?Hg, ?Hm, ?Hids; try done.
  - intros j a Hj. destruct (H2 j a Hj) as [s Hs]. destruct (Hi _ s Hs) as (s' & -> & _). done.
  - intros g r p. by rewrite Hasserts.
  - intros g. by rewrite Hcorr.
  - intros i m Him Hset. destruct (H9 i m Him Hset) as (j & a & (? & ? & ? & [s Hs] & ?) & He). exists j, a.
    unfold rests_on, exact_method. rewrite Ha, Hg, Hcorr. destruct (Hi _ s Hs) as (s' & -> & _). split; [|exact He]. split_and!; try done; naive_solver.
Qed.

(** ** The items of a file *)

Lemma among_spec items i : among items i = true <-> i ∈ map fst items.
Proof.
  unfold among. rewrite List.existsb_exists, list_elem_of_fmap. setoid_rewrite <- list_elem_of_In. split.
  - intros (p & Hp & Hi%bool_decide_eq_true). eauto.
  - intros (p & -> & Hp). exists p. split; [done|by apply bool_decide_eq_true].
Qed.
Lemma elem_of_gtins items g : g ∈ gtins_of items <-> exists i s, (i, s) ∈ items /\ sj_gtin s = Some g.
Proof.
  unfold gtins_of. rewrite elem_of_remove_dups, list_elem_of_omap. split.
  - intros ([i s] & ? & ?). eauto.
  - intros (i & s & ? & ?). by exists (i, s).
Qed.

Lemma NoDup_fst_unique {A} (l : list (uuid * A)) i x y : NoDup (map fst l) -> (i, x) ∈ l -> (i, y) ∈ l -> x = y.
Proof.
  induction l as [|[j z] l IH]; cbn; [intros _ []%elem_of_nil|]. intros [Hj Hn]%NoDup_cons [Hx|Hx]%elem_of_cons [Hy|Hy]%elem_of_cons.
  - congruence.
  - injection Hx as -> ->. destruct Hj. apply list_elem_of_fmap. by exists (j, y).
  - injection Hy as -> ->. destruct Hj. apply list_elem_of_fmap. by exists (j, x).
  - by apply IH.
Qed.
(** The items of the file are rows of one portal. *)
Record file_items (retailer portal : uuid) (t : MatchTables) (items : list gtin_item) : Prop := {
  fi_rows : forall i s, (i, s) ∈ items -> mt_items t !! i = Some s /\ sj_retailer s = retailer /\ sj_portal s = portal;
  fi_distinct : NoDup (map fst items)
}.
Lemma exact_gtin_items_ok retailer portal codes t : file_items retailer portal t (exact_gtin_items retailer portal codes t).
Proof.
  split.
  - intros i s Hi. apply list_elem_of_In, List.filter_In in Hi as [Hi Hf]. apply list_elem_of_In, elem_of_map_to_list in Hi.
    reflect_bools. naive_solver.
  - apply NoDup_filtered.
Qed.

(** ** Assertions *)

(** The assertions of the tables once those of a file have replaced what its items asserted. *)
Record asserted_by (source_file : uuid) (items : list gtin_item) (A A' : gmap uuid AssertionRow) : Prop := {
  ab_kinds : forall j a, A' !! j = Some a -> as_kind a = GTIN;
  ab_items : forall j a, A' !! j = Some a -> as_item a ∈ map fst items \/ exists b, A !! j = Some b /\ as_item a = as_item b;
  ab_other : forall j a, as_item a ∉ map fst items -> A' !! j = Some a <-> A !! j = Some a;
  ab_file : forall j a, A' !! j = Some a -> is_live a = true -> as_item a ∈ map fst items ->
    as_source_file a = source_file /\
    (A !! j = Some a \/ exists s, (as_item a, s) ∈ items /\ sj_gtin s = Some (as_value a));
  ab_there : (forall j a, A !! j = Some a -> as_source_file a <> source_file) -> forall i s g, (i, s) ∈ items -> sj_gtin s = Some g ->
    exists j a, A' !! j = Some a /\ is_live a = true /\ as_item a = i /\ as_value a = g
}.
(** An assertion that the file would have to supersede before it was made. *)
Definition asserted_later (source_file : uuid) (items : list gtin_item) (now : Z) (t : MatchTables) : Prop :=
  exists j a, mt_assertions t !! j = Some a /\ superseding items source_file a = true /\ now < as_asserted_at a.

Lemma live_kind a : as_kind a = GTIN -> is_live a = bool_decide (as_superseded_at a = None).
Proof. intros E. unfold is_live. by rewrite E, bool_decide_true. Qed.
Lemma superseded_cases items source now a :
  let b := if superseding items source a then superseded_row now a else a in
  as_item b = as_item a /\ as_kind b = as_kind a /\ assertion_key b = assertion_key a /\
  ((b = a /\ superseding items source a = false) \/ (is_live b = false /\ as_item a ∈ map fst items)).
Proof.
  cbv zeta. destruct (superseding items source a) eqn:E; [|split_and!; auto].
  unfold superseding in E. apply andb_true_iff in E as [[_ Ha%among_spec]%andb_true_iff _].
  split_and!; try done. right. unfold is_live. cbn. by rewrite andb_false_r.
Qed.

Lemma assertions_wp source now items t : review_ok t -> gtin_ok t -> NoDup (map fst items) ->
  wp (update_assertions items source now)
    (fun _ t' => exists n A, t' = set_next n (set_assertions (fun _ => A) t) /\ mt_next_id t <= n /\ ids_below n A /\
       unique_rows assertion_key A /\ asserted_by source items (mt_assertions t) A)
    (fun _ _ => asserted_later source items now t) t.
Proof.
  intros Ht Hg Hnd. pose proof (rv_ids t Ht) as (_ & _ & _ & Hid). unfold update_assertions, supersede_assertions. do 5 wp_step.
  { apply (exists_row (fun a => superseding items source a && (now <? as_asserted_at a))) in H as (j & a & Ha & [Hs Hl%Z.ltb_lt]%andb_true_iff).
    by exists j, a. }
  wp_step. set (A1 := (fun a => if superseding items source a then superseded_row now a else a) <$> mt_assertions t).
  assert (H1 : forall j b, A1 !! j = Some b -> exists a, mt_assertions t !! j = Some a /\ as_item b = as_item a /\ as_kind b = as_kind a /\
    assertion_key b = assertion_key a /\
    ((b = a /\ superseding items source a = false) \/ (is_live b = false /\ as_item a ∈ map fst items))).
  { intros j b. unfold A1. rewrite lookup_fmap. intros (a & -> & Ha)%fmap_Some. exists a. split; [done|]. subst b. exact (superseded_cases items source now a). }
  assert (Hu1 : unique_rows assertion_key A1).
  { intros j k a b (a' & Ha & _ & _ & E1 & _)%H1 (b' & Hb & _ & _ & E2 & _)%H1 E. eapply (gt_keys t Hg); [done..|congruence]. }
  eapply wp_mono; [apply (insert_rows_wp assertion_key mt_assertions set_assertions) with (update := fun _ => id); try done; try by intros []| |done].
  { cbn. intros j [b (a & Ha & _)%H1]. apply Hid. eauto. }
  intros _ u (n & A & -> & Hin & Hb & Hu). cbn in Hin, Hb. fold A1 in Hin. exists n, A. split_and!; [done|apply (in_next Hin)|done|exact (Hu Hu1)|].
  assert (Hnew : forall a, a ∈ omap (asserted source now) items -> as_kind a = GTIN /\ as_source_file a = source /\
    exists s, (as_item a, s) ∈ items /\ sj_gtin s = Some (as_value a)).
  { intros a ([i s] & Hi & Ha)%list_elem_of_omap. unfold asserted in Ha. cbn in Ha. apply fmap_Some in Ha as (g & Hgt & ->). cbn. eauto. }
  assert (Hfile : forall a, a ∈ omap (asserted source now) items -> as_item a ∈ map fst items).
  { intros a (_ & _ & s & Hs & _)%Hnew. apply list_elem_of_fmap. by exists (as_item a, s). }
  split.
  - intros j a [Ha|[Ha _]]%(in_rows Hin); [|by apply Hnew]. apply H1 in Ha as (b & Hb' & _ & E & _). rewrite E. by eapply (gt_kinds t Hg).
  - intros j a [Ha|[Ha _]]%(in_rows Hin); [right|left; by apply Hfile]. apply H1 in Ha as (b & Hb' & E & _). eauto.
  - intros j a Hna. split.
    + intros [Ha|[Ha _]]%(in_rows Hin); [|by apply Hfile in Ha]. apply H1 in Ha as (b & Hb' & E & _ & _ & [[-> _]|[_ Hi]]); [done|].
      by rewrite <- E in Hi.
    + intros Ha. apply (in_old Hin). unfold A1. rewrite lookup_fmap, Ha. cbn. f_equal. unfold superseding.
      destruct (among items (as_item a)) eqn:E; [by apply among_spec in E|]. by rewrite andb_false_r.
  - intros j a Ha Hl Hi. apply (in_rows Hin) in Ha as [Ha|[Ha _]]; [|destruct (Hnew a Ha) as (_ & ? & ?); auto].
    apply H1 in Ha as (b & Hb' & _ & _ & _ & [[-> Hs]|[Hd _]]); [|congruence]. split; [|by left].
    unfold superseding in Hs. apply among_spec in Hi. rewrite Hl, Hi in Hs. cbn in Hs. apply negb_false_iff, bool_decide_eq_true in Hs. done.
  - intros Hs i s g Hi Hgt. set (a := {| as_item := i; as_kind := GTIN; as_value := g; as_source_file := source; as_method := CHECKSUM;
      as_asserted_at := now; as_superseded_at := None |}).
    assert (Ha : a ∈ omap (asserted source now) items) by (apply list_elem_of_omap; exists (i, s); split; [done|]; unfold asserted; cbn; by rewrite Hgt).
    destruct (in_there Hin a Ha) as (j & q & Hq & E). pose proof Hq as Hq'. injection E as E1 _ E3. apply (in_rows Hin) in Hq' as [Hq'|[Hq' _]].
    + apply H1 in Hq' as (b & Hb' & _ & _ & E & _). injection E as _ _ E. destruct (Hs j b Hb'). congruence.
    + exists j, q. split; [done|]. apply list_elem_of_omap in Hq' as ([i' s'] & Hi' & Hq'). unfold asserted in Hq'. cbn in Hq'.
      apply fmap_Some in Hq' as (g' & Hg' & ->). cbn in *. subst i'.
      assert (s' = s) as -> by (eapply NoDup_fst_unique; [exact Hnd|done..]). simplify_eq. done.
Qed.

(** ** Groups *)

Lemma global_none t g : gtin_rows (mt_groups t) (mt_identifiers t) -> mt_groups t !! g = None -> global_identifier t g = None.
Proof.
  intros Ht Hg. unfold global_identifier. pose proof (find_row (is_global g) (mt_identifiers t)) as Hf. cbv beta in Hf.
  destruct (find _ _) as [[j r]|]; [|done]. destruct Hf as [Hj Hr]. exfalso. unfold is_global in Hr. rewrite !andb_true_iff, !bool_decide_eq_true in Hr.
  destruct Hr as [[[Hk Hn] _] _]. destruct (Ht j r Hj Hk) as (p & Hp & _). congruence.
Qed.

Section groups.
Variable collate : pystr -> pystr -> bool.

Lemma first_item_some items g : g ∈ gtins_of items -> exists p, first_item collate items g = Some p /\ p ∈ items.
Proof.
  intros (i & s & Hi & Hg)%elem_of_gtins. unfold first_item.
  assert (Hin : forall p, p ∈ merge_sort (by_code collate) (List.filter (fun p => bool_decide (sj_gtin p.2 = Some g)) items) <->
    p ∈ items /\ sj_gtin p.2 = Some g).
  { intros p. rewrite merge_sort_Permutation, list_elem_of_In, List.filter_In, <- list_elem_of_In, bool_decide_eq_true. done. }
  destruct (merge_sort _ _) as [|p l].
  - exfalso. destruct (Hin (i, s)) as [_ H]. specialize (H (conj Hi Hg)). by apply elem_of_nil in H.
  - exists p. split; [done|]. apply (Hin p). set_solver.
Qed.

Abbreviation candidate := (pystr * bool * uuid * SubjectRow)%type.
Lemma group_candidates_wp items gtins t : (forall g, g ∈ gtins -> g ∈ gtins_of items) ->
  (forall g, g ∈ gtins -> global_identifier t g = None) ->
  wp (group_candidates collate items gtins) (fun (l : list candidate) t' => exists n, mt_next_id t <= n /\ t' = set_next n t /\
    map (fun c => c.1.1.1) l = gtins /\ (forall c, c ∈ l -> c.1.1.2 = true /\ mt_next_id t <= c.1.2 < n) /\ NoDup (map (fun c => c.1.2) l))
  (fun _ _ => False) t.
Proof.
  revert t. induction gtins as [|g gtins IH]; intros t Hin Hnone; cbn [group_candidates].
  - wp_step. exists (mt_next_id t). split_and!; [lia|by destruct t|done|by intros c ?%elem_of_nil|constructor].
  - destruct (first_item_some items g) as (p & Hp & _); [apply Hin; by left|].
    do 2 wp_step. rewrite Hp, (Hnone g) by by left. wp_step. unfold next_uuid. do 5 wp_step. wp_step.
    eapply wp_mono; [apply IH; [intros g' ?; apply Hin; by right|]| |done].
    { intros g' Hg'. apply (Hnone g'). by right. }
    intros l u (n & Hn & -> & Hl & Hc & Hd). cbn in Hn, Hc. wp_step. exists n. split_and!; [lia|done| | |].
    + cbn. by rewrite Hl.
    + intros c [->|H]%elem_of_cons; [cbn; split; [done|lia]|]. destruct (Hc c H). split; [done|lia].
    + cbn. constructor; [|done]. intros (c & E & H)%list_elem_of_fmap. destruct (Hc c H). lia.
Qed.

(** The groups and products once every GTIN of the items has a group. *)
Record groups_formed (items : list gtin_item) (n0 n : uuid) (G G' : gmap pystr uuid) (P P' : gmap uuid ProductRow) : Prop := {
  gf_old : forall g p, G !! g = Some p -> G' !! g = Some p;
  gf_new : forall g p, G' !! g = Some p -> G !! g = Some p \/
    (n0 <= p < n /\ exists r, P' !! p = Some r /\ pr_product_status r = PRODUCT_ACTIVE);
  gf_all : forall g, g ∈ gtins_of items -> is_Some (G' !! g);
  gf_products : forall p, p < n0 -> P' !! p = P !! p;
  gf_ids : forall p, is_Some (P' !! p) -> p < n
}.

Lemma fold_groups (l : list candidate) (G : gmap pystr uuid) : NoDup (map (fun c => c.1.1.1) l) -> (forall c, c ∈ l -> G !! c.1.1.1 = None) ->
  let G' := foldl (fun m c => match m !! c.1.1.1 with Some _ => m | None => <[ c.1.1.1 := c.1.2 ]> m end) G l in
  (forall g p, G !! g = Some p -> G' !! g = Some p) /\ (forall c, c ∈ l -> G' !! c.1.1.1 = Some c.1.2) /\
  (forall g p, G' !! g = Some p -> G !! g = Some p \/ exists c, c ∈ l /\ c.1.1.1 = g /\ c.1.2 = p).
Proof.
  cbv zeta. revert G. induction l as [|c l IH]; intros G Hd Hn; [cbn; split_and!; [done|by intros c ?%elem_of_nil|auto]|].
  cbn in Hd. apply NoDup_cons in Hd as [Hc Hd]. cbn [foldl]. rewrite (Hn c) by by left.
  destruct (IH (<[ c.1.1.1 := c.1.2 ]> G) Hd) as (H1 & H2 & H3).
  { intros d Hin. rewrite lookup_insert_ne; [apply Hn; by right|]. intros E. apply Hc. rewrite E. by apply (list_elem_of_fmap_2 (fun c => c.1.1.1)). }
  split_and!.
  - intros g p Hg. apply H1. rewrite lookup_insert_ne; [done|]. intros <-. rewrite (Hn c) in Hg by by left. done.
  - intros d [->|Hin]%elem_of_cons; [apply H1, lookup_insert_eq|by apply H2].
  - intros g p [Hg|(d & Hin & ? & ?)]%H3; [|right; exists d; split_and!; [by right|done|done]].
    apply lookup_insert_Some in Hg as [[<- <-]|[_ Hg]]; [right; exists c; split_and!; [by left|done|done]|by left].
Qed.

Lemma form_groups_wp items t : review_ok t -> gtin_rows (mt_groups t) (mt_identifiers t) ->
  wp (form_groups collate items) (fun _ t' => exists n G P, t' = set_next n (set_groups (fun _ => G) (set_products (fun _ => P) t)) /\
      mt_next_id t <= n /\ groups_formed items (mt_next_id t) n (mt_groups t) G (mt_products t) P)
    (fun _ _ => False) t.
Proof.
  intros Ht Hg. unfold form_groups. do 3 wp_step. set (gtins := List.filter _ _).
  assert (Hgt : forall g, g ∈ gtins <-> g ∈ gtins_of items /\ mt_groups t !! g = None).
  { intros g. unfold gtins. rewrite list_elem_of_In, List.filter_In, <- list_elem_of_In, bool_decide_eq_true. done. }
  assert (Hnd : NoDup gtins) by (apply NoDup_ListNoDup, List.NoDup_filter, NoDup_ListNoDup, NoDup_remove_dups).
  eapply wp_mono; [apply group_candidates_wp; [by intros g [? _]%Hgt|by intros g [_ ?]%Hgt; apply global_none]| |done].
  intros l u (n & Hn & -> & Hl & Hc & Hd).
  assert (Hcr : created l = l) by (apply filter_kept; intros c Hin; by apply Hc). rewrite Hcr. do 6 wp_step.
  assert (Hnd' : NoDup (map (fun c : candidate => c.1.1.1) l)) by by rewrite Hl.
  destruct (fold_groups l (mt_groups t) Hnd') as (F1 & F2 & F3).
  { intros c Hin. apply (Hgt c.1.1.1). rewrite <- Hl. by apply (list_elem_of_fmap_2 (fun c : candidate => c.1.1.1)). }
  set (G := foldl _ _ l) in *. wp_step.
  set (P := foldl (fun m c => <[ c.1.2 := group_product c.2 ]> m) (mt_products t) l).
  exists n, G, P. split_and!; [|done|].
  - unfold set_products at 1. cbn. fold P.
    rewrite (foldl_same _ P l); [done|]. intros c Hin.
    fold G. assert (Hgr : grouped c.1.2 G = true); [|by rewrite Hgr]. unfold grouped. apply List.existsb_exists. exists (c.1.1.1, c.1.2).
    split; [apply list_elem_of_In, elem_of_map_to_list, F2, Hin|by apply bool_decide_eq_true].
  - assert (HP : forall p r, P !! p = Some r -> ((p ∉ map (fun c : candidate => c.1.2) l) /\ mt_products t !! p = Some r) \/
        exists c, c ∈ l /\ c.1.2 = p /\ r = group_product c.2) by (intros p r; apply (insert_all_inv (fun c : candidate => c.1.2) (fun c => group_product c.2)); exact Hd).
    split; [exact F1| | |intros p Hp|].
    + intros g p [?|(c & Hin & <- & <-)]%F3; [by left|right]. split; [by apply Hc|]. exists (group_product c.2). split; [|done].
      by apply (insert_all_in (fun c : candidate => c.1.2) (fun c => group_product c.2)).
    + intros g Hin. destruct (mt_groups t !! g) as [p|] eqn:E; [exists p; by apply F1|].
      assert (Hgl : g ∈ map (fun c : candidate => c.1.1.1) l) by (rewrite Hl; by apply Hgt).
      apply list_elem_of_fmap in Hgl as (c & -> & Hcl). exists c.1.2. by apply F2.
    + apply (insert_all_other (fun c : candidate => c.1.2) (fun c => group_product c.2)). intros (c & -> & Hin)%list_elem_of_fmap.
      destruct (Hc c Hin). lia.
    + intros p [r [[_ Hr]|(c & Hin & <- & _)]%HP]; [apply product_bound in Hr; [lia|done]|by apply Hc].
Qed.
End groups.

(** ** Identifiers *)

Lemma live_spec affected t g r p : (g, r, p) ∈ live_retailers affected t <-> g ∈ affected /\ asserts t g r p.
Proof.
  unfold live_retailers, asserts. rewrite elem_of_remove_dups, list_elem_of_omap. split.
  - intros ([j a] & Ha%elem_of_map_to_list & E). cbn in E. destruct (is_live a) eqn:El; [|done].
    case_bool_decide as Hg; [|done]. cbn in E. apply fmap_Some in E as (s & Hs & [= -> -> ->]). split; [done|]. by exists j, a, s.
  - intros [Hg (j & a & s & Hj & Hl & <- & Hs & <- & <-)]. exists (j, a). split; [by apply elem_of_map_to_list|]. cbn.
    by rewrite Hl, bool_decide_true, Hs.
Qed.

Lemma two_distinct (l : list uuid) : (2 <=? py_len (remove_dups l)) = true <-> exists x y, x <> y /\ x ∈ l /\ y ∈ l.
Proof.
  unfold py_len. rewrite Z.leb_le. setoid_rewrite <- (elem_of_remove_dups l). pose proof (NoDup_remove_dups l) as Hd.
  destruct (remove_dups l) as [|x [|y k]]; cbn.
  - split; [lia|]. by intros (x & y & _ & ?%elem_of_nil & _).
  - split; [lia|]. intros (a & b & Hne & ->%list_elem_of_singleton & ->%list_elem_of_singleton). done.
  - split; [|lia]. intros _. exists x, y. apply NoDup_cons in Hd as [Hx _]. split_and!; [intros ->; apply Hx; by left|by left|by right; left].
Qed.
Lemma retailers_two affected t g : g ∈ affected -> (2 <=? retailers_of (live_retailers affected t) g) = true <-> corroborated t g.
Proof.
  intros Hg. unfold retailers_of, corroborated. rewrite two_distinct.
  assert (Hr : forall r, r ∈ map (fun l : pystr * uuid * uuid => l.1.2)
      (List.filter (fun l => bool_decide (l.1.1 = g)) (live_retailers affected t)) <-> exists p, asserts t g r p).
  { intros r. rewrite list_elem_of_fmap. setoid_rewrite list_elem_of_In. setoid_rewrite List.filter_In.
    setoid_rewrite <- list_elem_of_In. setoid_rewrite bool_decide_eq_true. split.
    - intros ([[g' r'] p] & -> & Hl & E). cbn in E. subst g'. exists p. apply live_spec in Hl. apply Hl.
    - intros [p Hp]. exists (g, r, p). split; [done|]. split; [|done]. by apply live_spec. }
  setoid_rewrite Hr. split.
  - intros (x & y & Hne & [p Hp] & [q Hq]). by exists x, p, y, q.
  - intros (x & p & y & q & Hne & Hp & Hq). exists x, y. eauto.
Qed.

Lemma gtin_row_unique G r q : gtin_row G r -> gtin_row G q -> identifier_key r = identifier_key q -> r = q.
Proof.
  intros (p & Hp & Hr) (p' & Hp' & Hq) E. injection E as E1 E2 E3 E4. rewrite E2 in Hp. simplify_eq.
  destruct Hr as [(x & y & Hr)|Hr], Hq as [(x' & y' & Hq)|Hq]; rewrite Hr, Hq in *; cbn in *; congruence.
Qed.
Lemma scoped_row G g p x y : G !! g = Some p -> gtin_row G (scoped_identifier p g x y).
Proof. intros Hg. exists p. split; [done|]. left. by exists x, y. Qed.
Lemma validated_row G g p : G !! g = Some p -> gtin_row G (validated_identifier p g).
Proof. intros Hg. exists p. split; [done|]. by right. Qed.

Lemma lookup_kept {V} (f : V -> bool) (m : gmap uuid V) j r :
  map_imap (fun _ r => if f r then None else Some r) m !! j = Some r <-> m !! j = Some r /\ f r = false.
Proof.
  rewrite map_lookup_imap. destruct (m !! j) as [q|]; cbn; [|by split; [|intros [? _]]].
  destruct (f q) eqn:E; (split; [|intros [[= <-] ?]]); intros; simplify_eq; auto; congruence.
Qed.

Lemma present_inserted {V K} (key : V -> K) rows n0 n (m m' : gmap uuid V) r : inserted key rows n0 n m m' ->
  (forall r q, r ∈ rows -> q ∈ rows \/ present m q -> key q = key r -> q = r) -> present m' r <-> present m r \/ r ∈ rows.
Proof.
  intros Hin Hu. split.
  - intros [j [Hj|[Hj _]]%(in_rows Hin)]; [left; by exists j|by right].
  - intros [[j Hj]|Hr]; [exists j; by apply (in_old Hin)|]. destruct (in_there Hin r Hr) as (j & q & Hq & E). exists j.
    rewrite <- (Hu r q); [done|done| |done]. apply (in_rows Hin) in Hq as [Hq|[Hq _]]; [right; by exists j|by left].
Qed.
Lemma inserted_other {V K} (key : V -> K) rows n0 n (m m' : gmap uuid V) j r : inserted key rows n0 n m m' -> r ∉ rows ->
  m' !! j = Some r <-> m !! j = Some r.
Proof. intros Hin Hr. split; [|apply (in_old Hin)]. by intros [?|[? _]]%(in_rows Hin). Qed.
Lemma present_kept {V} (f : V -> bool) (m : gmap uuid V) r :
  present (map_imap (fun _ r => if f r then None else Some r) m) r <-> present m r /\ f r = false.
Proof. unfold present. setoid_rewrite lookup_kept. split; [by intros (j & ? & ?); eauto|by intros [[j ?] ?]; eauto]. Qed.

(** The identifiers once those of the affected GTINs follow the assertions of [t]. *)
Record identifiers_follow (affected : list pystr) (t : MatchTables) (I I' : gmap uuid IdentifierRow) : Prop := {
  if_rows : gtin_rows (mt_groups t) I';
  if_unique : unique_rows identifier_key I';
  if_other : forall j r, ir_kind r <> GTIN -> I' !! j = Some r <-> I !! j = Some r;
  if_scoped : forall g r p, has_scoped I' g r p <-> if bool_decide (g ∈ affected) then asserts t g r p else has_scoped I g r p;
  if_validated : forall g, has_validated I' g <-> if bool_decide (g ∈ affected) then corroborated t g else has_validated I g
}.

Section identifiers.
Variables (items : list gtin_item) (affected : list pystr) (t : MatchTables).
Hypothesis Hunique : unique_rows identifier_key (mt_identifiers t).
Hypothesis Hids : ids_below (mt_next_id t) (mt_identifiers t).
Hypothesis Hrows : gtin_rows (mt_groups t) (mt_identifiers t).
Hypothesis Hitems : forall g, g ∈ gtins_of items -> g ∈ affected.
Hypothesis Hgroups : forall g, g ∈ affected -> is_Some (mt_groups t !! g).
Hypothesis Hasserts : forall g r p, g ∈ affected -> asserts t g r p ->
  has_scoped (mt_identifiers t) g r p \/ exists i s, (i, s) ∈ items /\ sj_gtin s = Some g /\ sj_retailer s = r /\ sj_portal s = p.

Let rows := map (fun '(product, g, retailer, portal) => scoped_identifier product g retailer portal) (scopes items t).
Lemma elem_of_scopes q : q ∈ rows <-> exists i s g p, (i, s) ∈ items /\ sj_gtin s = Some g /\ mt_groups t !! g = Some p /\
  q = scoped_identifier p g (sj_retailer s) (sj_portal s).
Proof.
  unfold rows, scopes. rewrite list_elem_of_fmap. setoid_rewrite elem_of_remove_dups. setoid_rewrite list_elem_of_omap. split.
  - intros ([[[p g] r] l] & -> & [i s] & Hi & E). cbn in E. apply bind_Some in E as (g' & Hg & E). apply bind_Some in E as (p' & Hp & [= -> -> <- <-]).
    by exists i, s, g, p.
  - intros (i & s & g & p & Hi & Hg & Hp & ->). exists (p, g, sj_retailer s, sj_portal s). split; [done|]. exists (i, s). split; [done|]. cbn.
    by rewrite Hg; cbn; rewrite Hp.
Qed.
Lemma scopes_rows q : q ∈ rows -> ir_kind q = GTIN /\ gtin_row (mt_groups t) q.
Proof. intros (i & s & g & p & _ & _ & Hp & ->)%elem_of_scopes. split; [done|]. by apply scoped_row. Qed.

Lemma rescoped_same r q : r ∈ rows -> gtin_row (mt_groups t) q -> identifier_key q = identifier_key r -> rescoped r q = q.
Proof.
  intros Hr Hq E. assert (q = r) as -> by (eapply gtin_row_unique; [exact Hq|by apply scopes_rows|done]).
  apply elem_of_scopes in Hr as (i & s & g & p & _ & _ & _ & ->). unfold rescoped. cbn. by case_match.
Qed.
Lemma revalidated_same p g q : mt_groups t !! g = Some p -> gtin_row (mt_groups t) q ->
  identifier_key q = identifier_key (validated_identifier p g) -> revalidated (validated_identifier p g) q = q.
Proof.
  intros Hp Hq E. assert (q = validated_identifier p g) as -> by (eapply gtin_row_unique; [exact Hq|by apply validated_row|done]).
  unfold revalidated. cbn. by case_match.
Qed.
Let live := live_retailers affected t.
Lemma stale_scoped p g x y : stale_identifier affected live (scoped_identifier p g x y) = false <-> (g ∈ affected -> asserts t g x y).
Proof.
  unfold stale_identifier. rewrite (bool_decide_true (is_Some _)) by done. cbn.
  rewrite (bool_decide_true (GTIN = GTIN)), (bool_decide_true (Some _ = _)) by done.
  destruct (decide (g ∈ affected)) as [Hg|Hg]; [rewrite (bool_decide_true (g ∈ _)) by done|by rewrite bool_decide_false].
  cbn. rewrite negb_false_iff, List.existsb_exists. setoid_rewrite <- list_elem_of_In. split.
  - intros ([[g' r] l] & Hl & Hb) _. cbn in Hb. rewrite !andb_true_iff, !bool_decide_eq_true in Hb. destruct Hb as [[-> [= ->]] [= ->]].
    by apply live_spec in Hl as [_ ?].
  - intros Ha. exists (g, x, y). split; [apply live_spec; auto|]. cbn. by rewrite !bool_decide_true.
Qed.
Lemma stale_validated p g : stale_identifier affected live (validated_identifier p g) = false.
Proof. unfold stale_identifier. rewrite (bool_decide_false (is_Some _)) by (by intros []). by rewrite !andb_false_r. Qed.
Lemma stale_other r : ir_kind r <> GTIN -> stale_identifier affected live r = false.
Proof. intros Hk. unfold stale_identifier. by rewrite bool_decide_false. Qed.

Let corr := corroboration affected live t.
Lemma elem_of_corr g p n : (g, p, n) ∈ corr <-> g ∈ affected /\ mt_groups t !! g = Some p /\ n = retailers_of live g.
Proof.
  unfold corr, corroboration. rewrite list_elem_of_omap. split.
  - intros (g' & Hg & (p' & Hp & [= -> -> ->])%fmap_Some). done.
  - intros (Hg & Hp & ->). exists g. by rewrite Hp.
Qed.
Lemma uncorroborated_scoped p g x y : uncorroborated corr (scoped_identifier p g x y) = false.
Proof. unfold uncorroborated. rewrite (bool_decide_false (ir_issuer _ = None)) by done. by rewrite andb_false_r. Qed.
Lemma uncorroborated_validated p g : uncorroborated corr (validated_identifier p g) = false <-> (g ∈ affected -> corroborated t g).
Proof.
  unfold uncorroborated. rewrite (bool_decide_true (ir_kind _ = _)), (bool_decide_true (ir_issuer _ = _)), (bool_decide_true (ir_validation _ = _)) by done.
  cbn. rewrite <- not_true_iff_false, List.existsb_exists. setoid_rewrite <- list_elem_of_In. split.
  - intros Hn Hg. apply (retailers_two affected t g Hg). destruct (2 <=? retailers_of _ g) eqn:E; [done|]. destruct Hn.
    destruct (Hgroups g Hg) as [p' Hp]. exists (g, p', retailers_of live g). split; [by apply elem_of_corr|]. cbn.
    rewrite bool_decide_true by done. unfold live. apply Z.leb_gt in E. by apply Z.ltb_lt.
  - intros Hc ([[g' p'] n] & (Hg & Hp & ->)%elem_of_corr & Hb). cbn in Hb. apply andb_true_iff in Hb as [->%bool_decide_eq_true Hn].
    apply Z.ltb_lt in Hn. assert (2 <= retailers_of live g); [|lia]. by apply Z.leb_le, retailers_two, Hc.
Qed.
Lemma uncorroborated_other r : ir_kind r <> GTIN -> uncorroborated corr r = false.
Proof. intros Hk. unfold uncorroborated. by rewrite bool_decide_false. Qed.

Let valid := map (fun x : pystr * uuid * Z => validated_identifier x.1.2 x.1.1) (List.filter (fun x => 2 <=? x.2) corr).
Lemma elem_of_valid q : q ∈ valid <-> exists g p, g ∈ affected /\ mt_groups t !! g = Some p /\ corroborated t g /\ q = validated_identifier p g.
Proof.
  unfold valid. rewrite list_elem_of_fmap. setoid_rewrite list_elem_of_In. setoid_rewrite List.filter_In. setoid_rewrite <- list_elem_of_In. split.
  - intros ([[g p] n] & -> & (Hg & Hp & ->)%elem_of_corr & Hn). apply (retailers_two affected t g Hg) in Hn. by exists g, p.
  - intros (g & p & Hg & Hp & Hc & ->). exists (g, p, retailers_of live g). split; [done|]. split; [by apply elem_of_corr|].
    by apply (retailers_two affected t g Hg).
Qed.

(** The identifiers there are at the end. *)
Lemma followed I : (forall r, present I r <->
    ((present (mt_identifiers t) r \/ r ∈ rows) /\ stale_identifier affected live r = false /\ uncorroborated corr r = false) \/ r ∈ valid) ->
  gtin_rows (mt_groups t) I /\
  (forall g r p, has_scoped I g r p <-> if bool_decide (g ∈ affected) then asserts t g r p else has_scoped (mt_identifiers t) g r p) /\
  (forall g, has_validated I g <-> if bool_decide (g ∈ affected) then corroborated t g else has_validated (mt_identifiers t) g).
Proof.
  intros HI. split_and!.
  - intros j r Hj Hk. assert (Hr : present I r) by (by exists j). apply HI in Hr as [([[k Hr]|Hr] & _)|Hr].
    + by eapply Hrows.
    + by apply scopes_rows.
    + apply elem_of_valid in Hr as (g & p & _ & Hp & _ & ->). by apply validated_row.
  - intros g x y. unfold has_scoped. setoid_rewrite HI. setoid_rewrite stale_scoped. case_bool_decide as Hg.
    + split.
      * intros (p & [(_ & Ha & _)|(g' & p' & _ & _ & _ & E)%elem_of_valid]); [auto|discriminate].
      * intros Ha. destruct (Hasserts g x y Hg Ha) as [[p Hp]|(i & s & Hi & Hgs & <- & <-)].
        -- exists p. left. split; [by left|]. split; [done|apply uncorroborated_scoped].
        -- destruct (Hgroups g Hg) as [p Hp]. exists p. left. split; [right; apply elem_of_scopes; by exists i, s, g, p|].
           split; [done|apply uncorroborated_scoped].
    + split.
      * intros (p & [([Hp|(i & s & g' & p' & Hi & Hgs & _ & E)%elem_of_scopes] & _)|(g' & p' & _ & _ & _ & E)%elem_of_valid]); [by exists p| |discriminate].
        simplify_eq. destruct Hg. apply Hitems, elem_of_gtins. eauto.
      * intros [p Hp]. exists p. left. split; [by left|]. split; [done|apply uncorroborated_scoped].
  - intros g. unfold has_validated. setoid_rewrite HI. setoid_rewrite stale_validated. setoid_rewrite uncorroborated_validated.
    setoid_rewrite elem_of_scopes. setoid_rewrite elem_of_valid. case_bool_decide as Hg.
    + split.
      * intros (p & [(_ & _ & Hc)|(g' & p' & _ & _ & Hc & [= -> ->])]); auto.
      * intros Hc. destruct (Hgroups g Hg) as [p Hp]. exists p. right. by exists g, p.
    + split.
      * intros (p & [([Hp|(i & s & g' & p' & _ & _ & _ & E)] & _)|(g' & p' & Hg' & _ & _ & [= -> ->])]); [by exists p|discriminate|done].
      * intros [p Hp]. exists p. left. split; [by left|]. done.
Qed.

Lemma update_identifiers_wp : wp (update_identifiers items affected)
  (fun _ t' => exists n I, t' = set_next n (set_identifiers (fun _ => I) t) /\ mt_next_id t <= n /\ ids_below n I /\
     identifiers_follow affected t (mt_identifiers t) I) (fun _ _ => False) t.
Proof.
  unfold update_identifiers, scope_identifiers. do 3 wp_step. fold rows.
  eapply wp_mono; [apply (insert_rows_wp identifier_key mt_identifiers set_identifiers); try done; try by intros []| |done].
  { intros r q Hr Hq E. apply rescoped_same; [done| |done]. pose proof (scopes_rows r Hr) as [Hk _]. injection E as Ek _.
    destruct Hq as [Hq|[j Hq]]; [by apply scopes_rows|eapply Hrows; [exact Hq|congruence]]. }
  intros _ ? (n1 & I1 & -> & In1 & B1 & U1). specialize (U1 Hunique).
  assert (P1 : forall r, present I1 r <-> present (mt_identifiers t) r \/ r ∈ rows).
  { intros r. eapply present_inserted; [exact In1|]. intros x q Hx Hq E. pose proof (scopes_rows x Hx) as [Hk Hx'].
    eapply gtin_row_unique; [|exact Hx'|exact E]. destruct Hq as [Hq|[j Hq]]; [by apply scopes_rows|]. eapply Hrows; [exact Hq|]. injection E. congruence. }
  do 3 wp_step. unfold drop_stale_identifiers, validate_identifiers. do 3 wp_step.
  set (I3 := map_imap (fun _ r => if uncorroborated corr r then None else Some r)
    (map_imap (fun _ r => if stale_identifier affected live r then None else Some r) I1)).
  match goal with |- wp _ ?Q ?E _ => change (wp (for_each (fun r => insert_row identifier_key (revalidated r) set_identifiers r) valid) Q E
    (set_next n1 (set_identifiers (fun _ => I3) t))) end.
  assert (P3 : forall j r, I3 !! j = Some r <-> I1 !! j = Some r /\ stale_identifier affected live r = false /\ uncorroborated corr r = false).
  { intros j r. unfold I3. rewrite !lookup_kept. simpl. tauto. }
  assert (V3 : forall q, present I3 q -> ir_kind q = GTIN -> gtin_row (mt_groups t) q).
  { intros q [j (Hq & _)%P3] Hk. assert (Hp : present I1 q) by (by exists j).
    apply P1 in Hp as [[k Hp]|Hp]; [by eapply Hrows|by apply scopes_rows]. }
  assert (Vrow : forall r q, r ∈ valid -> q ∈ valid \/ present I3 q -> identifier_key q = identifier_key r -> q = r /\ exists p g, r = validated_identifier p g /\ mt_groups t !! g = Some p).
  { intros r q Hr Hq E. pose proof Hr as (g & p & _ & Hp & _ & ->)%elem_of_valid. split; [|eauto].
    eapply gtin_row_unique; [|by apply validated_row|exact E].
    destruct Hq as [(g' & p' & _ & Hp' & _ & ->)%elem_of_valid|Hq]; [by apply validated_row|]. apply V3; [done|]. by injection E. }
  assert (B3 : ids_below n1 I3) by (intros j [r (Hr & _)%P3]; apply B1; eauto).
  assert (U3 : unique_rows identifier_key I3) by (intros j k r q (Hr & _)%P3 (Hq & _)%P3; by apply U1).
  eapply wp_mono; [apply (insert_rows_wp identifier_key mt_identifiers set_identifiers); try done; try by intros []| |done].
  { intros r q Hr Hq E. destruct (Vrow r q Hr Hq E) as (-> & p & g & -> & Hp). apply revalidated_same; [done|by apply validated_row|done]. }
  intros _ ? (n2 & I4 & -> & In2 & B4 & U4). exists n2, I4. split_and!; [done| |done|].
  { pose proof (in_next In1). pose proof (in_next In2). etrans; eassumption. }
  change (inserted identifier_key valid n1 n2 I3 I4) in In2.
  assert (P4 : forall r, present I4 r <-> present I3 r \/ r ∈ valid).
  { intros r. eapply present_inserted; [exact In2|]. intros x q Hx Hq E. by destruct (Vrow x q Hx Hq E). }
  destruct (followed I4) as (F1 & F2 & F3).
  { intros r. rewrite P4, <- P1. unfold present. setoid_rewrite P3. naive_solver. }
  split; [exact F1|exact (U4 U3)| |exact F2|exact F3].
  intros j r Hk.
  rewrite (inserted_other _ _ _ _ _ _ j r In2) by (intros (g & p & _ & _ & _ & ->)%elem_of_valid; done).
  rewrite P3, stale_other, uncorroborated_other by done.
  rewrite (inserted_other _ _ _ _ _ _ j r In1) by (intros [? _]%scopes_rows; done). tauto.
Qed.
End identifiers.

(** ** What a review relies on *)

(** The steps of the function, as a review sees them. *)
Definition proceeds (t t' : MatchTables) : Prop := review_ok t' /\ lasting t t'.
Lemma proceeds_trans t u v : proceeds t u -> proceeds u v -> proceeds t v.
Proof. intros (_ & L1) (H & L2). split; [done|by etrans]. Qed.

Lemma assertions_proceed t n A : review_ok t -> mt_next_id t <= n -> ids_below n A -> proceeds t (set_next n (set_assertions (fun _ => A) t)).
Proof.
  intros Ht Hn HA. destruct (set_next_evolves n t Ht Hn) as [[? ? ? ? ? ? ? ? ? (? & ? & ? & _)] _]. split; [by split|by split; eauto].
Qed.
Lemma identifiers_proceed t n I : review_ok t -> mt_next_id t <= n -> ids_below n I -> unique_rows identifier_key I ->
  (forall j r, ir_kind r <> GTIN -> I !! j = Some r <-> mt_identifiers t !! j = Some r) -> proceeds t (set_next n (set_identifiers (fun _ => I) t)).
Proof.
  intros Ht Hn HI Hu Ho. split; [|by split; eauto]. apply identifiers_ok; [done..|]. intros j r Hj Hk. apply Ho in Hj; [|by rewrite Hk].
  by eapply (rv_identified t Ht).
Qed.
Lemma matches_proceed t M : review_ok t -> (forall i m, settled_match m -> M !! i = Some m <-> mt_matches t !! i = Some m) ->
  (forall i m, M !! i = Some m -> ~ settled_match m -> is_Some (mt_items t !! i) /\ is_active t (ma_product m) = true) ->
  proceeds t (set_matches (fun _ => M) t).
Proof.
  intros Ht Hs Hm. split.
  - destruct Ht as [H1 H2 H3 H4 H5 H6 H7 H8 H9 H10]. split; try done; cbn.
    + intros i m Hi. destruct (settled_dec m) as [Hset|Hset]; [apply Hs in Hi; by eauto|].
      destruct (Hm i m Hi Hset) as [? ?]. split_and!; [done..|]. intros E. destruct Hset. by left.
    + intros g p Hg. destruct (H3 g p Hg) as [Ha Hi]. split; [done|]. intros i m Hi' E. apply Hs in Hi'; [by eapply Hi|by left].
    + intros j c Hc Hp. destruct (H4 j c Hc Hp) as [Ha Hr]. split; [done|]. intros r E. destruct (Hr r E) as (m & Hm' & E' & Hne).
      exists m. split; [|done]. apply Hs; [by left|done].
    + intros j c Hc Ha. destruct (H5 j c Hc Ha) as (m & Hm' & Hacc). exists m. split; [|done]. apply Hs; [right; apply Hacc|done].
    + intros j r Hr Hk. destruct (H9 j r Hr Hk) as (i & s & m & Hi & E & Hm' & Hset & Hp). exists i, s, m. split_and!; try done. by apply Hs.
  - split; eauto; cbn; intros i m Hi; intros.
    + apply Hs; [by right|done].
    + exists m. split; [by apply Hs|done].
Qed.
Lemma candidates_proceed t n C rows : review_ok t -> inserted candidate_key rows (mt_next_id t) n (mt_candidates t) C -> ids_below n C ->
  unique_rows candidate_key C ->
  (forall c, c ∈ rows -> ca_status c = PENDING /\ ca_method c = EXACT_IDENTIFIER_CONFLICT /\ is_active t (ca_product c) = true /\ review_only c) ->
  proceeds t (set_next n (set_candidates (fun _ => C) t)).
Proof.
  intros Ht Hin Hb Hu Hc. destruct (set_next_evolves n t Ht (in_next Hin)) as [[? ? ? H1 H2 H3 _ ? ? (? & _ & ? & ?)] _].
  split; [split; try done; cbn|split; cbn; eauto].
  - intros j c [Hj|[Hr _]]%(in_rows Hin) Hp; [by eapply H1|]. destruct (Hc c Hr) as (_ & E & Ha & _). split; [done|]. congruence.
  - intros j c [Hj|[Hr _]]%(in_rows Hin) Hp; [by eapply H2|]. destruct (Hc c Hr) as (E & _). congruence.
  - intros j c [Hj|[Hr _]]%(in_rows Hin); [by eapply H3|by apply Hc].
  - intros j c Hj _. by apply (in_old Hin).
  - intros j c Hj. exists c. split; [by apply (in_old Hin)|done].
Qed.
Lemma groups_proceed t items n G P : review_ok t -> mt_next_id t <= n -> groups_formed items (mt_next_id t) n (mt_groups t) G (mt_products t) P ->
  proceeds t (set_next n (set_groups (fun _ => G) (set_products (fun _ => P) t))).
Proof.
  intros Ht Hn Hf.
  assert (Hact : forall p, is_active t p = true -> is_active (set_next n (set_groups (fun _ => G) (set_products (fun _ => P) t))) p = true).
  { intros p Hp. pose proof (products_known t p Ht Hp). unfold is_active in *. cbn. by rewrite (gf_products _ _ _ _ _ _ _ Hf) by done. }
  pose proof (products_known t) as Hknown. destruct (set_next_evolves n t Ht Hn) as [[? H2 H3 H4 ? ? ? ? ? (_ & ? & ? & ?)] _].
  split; [split; try done; cbn|split; eauto].
  - intros i m Hm. destruct (H2 i m Hm) as (? & ? & ?). auto.
  - intros g p Hg. apply (gf_new _ _ _ _ _ _ _ Hf) in Hg as [Hg|(Hp & r & Hr & E)].
    + destruct (H3 g p Hg). auto.
    + split; [unfold is_active; cbn; rewrite Hr; by apply bool_decide_eq_true|]. intros i m Hm _ E'. destruct (H2 i m Hm) as (_ & Ha & _).
      apply Hknown in Ha; [lia|done].
  - intros j c Hc Hp. destruct (H4 j c Hc Hp) as [? ?]. auto.
  - split_and!; try done. intros p Hp. by apply (gf_ids _ _ _ _ _ _ _ Hf).
Qed.

(** ** Conflicts *)

Lemma elem_of_identifier_rows t f r : r ∈ identifier_rows t f <-> present (mt_identifiers t) r /\ f r = true.
Proof.
  unfold identifier_rows, present. rewrite list_elem_of_fmap. setoid_rewrite list_elem_of_In. setoid_rewrite List.filter_In.
  setoid_rewrite <- list_elem_of_In. split.
  - intros ([j q] & -> & Hq%elem_of_map_to_list & Hf). eauto.
  - intros [[j Hj] Hf]. exists (j, r). split; [done|]. by rewrite elem_of_map_to_list.
Qed.
(** The validated identifier of a GTIN that no retailer issued is of the product of its group. *)
Lemma global_rows t g r : gtin_rows (mt_groups t) (mt_identifiers t) -> present (mt_identifiers t) r -> is_global g r = true ->
  exists p, mt_groups t !! g = Some p /\ r = validated_identifier p g.
Proof.
  intros Hrows [j Hj] Hg. unfold is_global in Hg. rewrite !andb_true_iff, !bool_decide_eq_true in Hg. destruct Hg as [[[Hk Hn] Hi] _].
  destruct (Hrows j r Hj Hk) as (p & Hp & Hr). rewrite Hn in Hp. exists p. split; [done|]. rewrite Hn in Hr.
  destruct Hr as [(x & y & ->)| ->]; [discriminate|done].
Qed.
Lemma elem_of_grouped {A} (f : gtin_item -> pystr -> uuid -> list A) (groups : gmap pystr uuid) items x :
  x ∈ concat (map (fun p => match (g ← sj_gtin p.2; product ← groups !! g; Some (g, product)) with
                            | Some (g, product) => f p g product | None => [] end) items) ->
  exists p g product, p ∈ items /\ groups !! g = Some product /\ x ∈ f p g product.
Proof.
  rewrite list_elem_of_In, List.in_concat. intros (l & Hl & Hx%list_elem_of_In). apply List.in_map_iff in Hl as (p & <- & Hp%list_elem_of_In).
  destruct (sj_gtin p.2) as [g|]; cbn in Hx; [|by apply elem_of_nil in Hx].
  destruct (groups !! g) as [product|] eqn:E; cbn in Hx; [|by apply elem_of_nil in Hx]. by exists p, g, product.
Qed.
Lemma conflicts_spec items source now t c : gtin_rows (mt_groups t) (mt_identifiers t) -> c ∈ conflicts items source now t ->
  exists i g product reason, mt_groups t !! g = Some product /\ c = conflict_candidate source now i product g reason.
Proof.
  intros Hrows. unfold conflicts. rewrite !elem_of_app. intros [(p & g & product & Hp & Hg & Hc)%elem_of_grouped|
    [(p & g & product & Hp & Hg & Hc)%elem_of_grouped|(p & g & product & Hp & Hg & Hc)%elem_of_grouped]].
  - destruct (mt_matches t !! p.1) as [m|]; [|by apply elem_of_nil in Hc]. case_bool_decide; [by apply elem_of_nil in Hc|].
    apply list_elem_of_singleton in Hc as ->. eauto 6.
  - apply list_elem_of_fmap in Hc as (r & -> & _). eauto 6.
  - apply list_elem_of_fmap in Hc as (r & -> & [Hr Hf]%elem_of_identifier_rows). apply andb_true_iff in Hf as [Hf Hne].
    destruct (global_rows t g r Hrows Hr Hf) as (p' & Hp' & ->). cbn in *. eauto 6.
Qed.
Lemma record_conflicts_wp items source now t : review_ok t -> gtin_rows (mt_groups t) (mt_identifiers t) ->
  wp (record_conflicts items source now) (fun _ t' => exists n C, t' = set_next n (set_candidates (fun _ => C) t) /\ proceeds t t')
    (fun _ _ => False) t.
Proof.
  intros Ht Hrows. unfold record_conflicts. do 2 wp_step. pose proof (rv_ids t Ht) as (_ & Hid & _).
  eapply wp_mono; [apply (insert_rows_wp candidate_key mt_candidates set_candidates) with (update := fun _ => id); try done; by intros []| |done].
  intros _ ? (n & C & -> & Hin & Hb & Hu). exists n, C. split; [done|].
  eapply candidates_proceed; [done|exact Hin|done|exact (Hu (rv_keys t Ht))|].
  intros c (i & g & product & reason & Hg & ->)%conflicts_spec; [|done]. split; [done|]. split; [done|]. split; [by eapply (rv_groups t Ht)|].
  split; [|done]. split; [done|]. by split.
Qed.

(** ** Matches *)

Lemma exact_match_exact product a retailer v now : let m := exact_match product a retailer v now in
  is_exact m = true /\ ~ settled_match m /\ ma_product m = product /\ ma_confirmed_by m = EXACT_ACTOR.
Proof. destruct v; (split; [by vm_compute|split; [|done]]); by intros []. Qed.

Lemma withdrawn items (M : gmap uuid MatchRow) i m :
  map_imap (fun i m => if among items i && is_exact m then None else Some m) M !! i = Some m <->
  M !! i = Some m /\ (i ∉ map fst items \/ is_exact m = false).
Proof.
  rewrite map_lookup_imap. destruct (M !! i) as [q|]; cbn; [|by split; [|intros []]].
  destruct (among items i) eqn:Ha; [apply among_spec in Ha|assert (i ∉ map fst items) by (rewrite <- among_spec, Ha; done)];
    destruct (is_exact q) eqn:E; cbn; (split; [intros [= <-]; auto|intros [[= <-] Hq]; auto]).
  exfalso. destruct Hq; [done|congruence].
Qed.

Section matches.
Variables (items : list gtin_item) (affected : list pystr) (now : Z) (retailer portal : uuid) (t : MatchTables).
Hypothesis Hfile : file_items retailer portal t items.
Hypothesis Hrows : gtin_rows (mt_groups t) (mt_identifiers t).
Hypothesis Hlive : forall j k a b, mt_assertions t !! j = Some a -> mt_assertions t !! k = Some b -> is_live a = true -> is_live b = true ->
  as_item a = as_item b -> j = k.
Hypothesis Hitems : forall g, g ∈ gtins_of items -> g ∈ affected.
Hypothesis Hvalid : forall g, g ∈ affected -> has_validated (mt_identifiers t) g <-> corroborated t g.
Hypothesis Hmatches : forall i m, mt_matches t !! i = Some m -> ~ settled_match m ->
  is_exact m = true /\ exists j a, rests_on t i m j a /\ ((as_value a ∉ affected) -> exact_method t (as_value a) m).

Lemma live_assertion_spec i p : live_assertion t i = Some p <-> mt_assertions t !! p.1 = Some p.2 /\ is_live p.2 = true /\ as_item p.2 = i.
Proof.
  unfold live_assertion. pose proof (find_row (fun a => is_live a && bool_decide (as_item a = i)) (mt_assertions t)) as Hf. cbv beta in Hf.
  destruct (find _ _) as [[j a]|].
  - destruct Hf as [Ha [Hl Hi%bool_decide_eq_true]%andb_true_iff]. split; [by intros [= <-]|].
    destruct p as [k b]. cbn. intros (Hb & Hlb & Hib). assert (j = k) as -> by (eapply Hlive; [exact Ha|exact Hb|done..|congruence]). congruence.
  - split; [done|]. intros (Hp & Hl & Hi). specialize (Hf _ _ Hp). by rewrite Hl, bool_decide_true in Hf.
Qed.
Lemma validated_for_spec g p : mt_groups t !! g = Some p ->
  match validated_for t g p with Some _ => has_validated (mt_identifiers t) g | None => ~ has_validated (mt_identifiers t) g end.
Proof.
  intros Hp. unfold validated_for. destruct (head _) as [r|] eqn:E.
  - apply head_Some_elem_of, elem_of_identifier_rows in E as [Hr [Hg _]%andb_true_iff].
    destruct (global_rows t g r Hrows Hr Hg) as (p' & _ & ->). by exists p'.
  - apply head_None in E. intros [p' Hp']. assert (Hin : validated_identifier p' g ∈ identifier_rows t (fun r => is_global g r && bool_decide (ir_product r = p))).
    { apply elem_of_identifier_rows. split; [done|]. assert (Hg : is_global g (validated_identifier p' g) = true) by (unfold is_global; by rewrite !bool_decide_true).
      destruct (global_rows t g _ Hrows Hp' Hg) as (q & Hq & [= ->]). rewrite Hg, bool_decide_true; [done|]. cbn. congruence. }
    rewrite E in Hin. by apply elem_of_nil in Hin.
Qed.
Lemma exact_match_ok i s j a p : mt_items t !! i = Some s -> mt_assertions t !! j = Some a -> is_live a = true -> as_item a = i ->
  as_value a ∈ affected -> mt_groups t !! as_value a = Some p ->
  let m := exact_match p (j, a) (sj_retailer s) (validated_for t (as_value a) p) now in rests_on t i m j a /\ exact_method t (as_value a) m.
Proof.
  intros Hs Ha Hl Hi Haff Hp. pose proof (validated_for_spec (as_value a) p Hp) as Hv. specialize (Hvalid _ Haff). split.
  - unfold rests_on. split_and!; eauto.
  - unfold exact_method. destruct (validated_for t (as_value a) p); [left|right]; (split; [done|]); by rewrite <- Hvalid.
Qed.

Lemma new_match_ok p m : p ∈ items -> new_match t now p = Some m ->
  exists j a, as_value a ∈ affected /\ rests_on t p.1 m j a /\ is_exact m = true /\ ~ settled_match m.
Proof.
  intros Hp Hm. destruct p as [i s]. destruct (fi_rows _ _ _ _ Hfile i s Hp) as (Hs & _). unfold new_match in Hm. cbn in Hm.
  apply bind_Some in Hm as (g & Hg & Hm). apply bind_Some in Hm as ([j a] & (Ha & Hl & Hi)%live_assertion_spec & Hm).
  apply bind_Some in Hm as (product & Hgr & Hm). cbn in *. case_bool_decide as Hv; [|done]. destruct (_ && _ && _) in Hm; [|done].
  injection Hm as <-. destruct (exact_match_exact product (j, a) (sj_retailer s) (validated_for t g product) now) as (H1 & H2 & H3 & H4).
  exists j, a. assert (Hin : g ∈ gtins_of items) by (apply elem_of_gtins; eauto). split; [rewrite Hv; auto|]. split; [|done].
  unfold rests_on. rewrite Hv. split_and!; eauto.
Qed.

Lemma fold_confirm (M : gmap uuid MatchRow) l : let M' := foldl (fun m p =>
    match new_match t now p, m !! p.1 with Some x, None => <[ p.1 := x ]> m | _, _ => m end) M l in
  (forall i m, M !! i = Some m -> M' !! i = Some m) /\
  (forall i m, M' !! i = Some m -> M !! i = Some m \/ exists p, p ∈ l /\ p.1 = i /\ new_match t now p = Some m) /\
  (forall p x, p ∈ l -> new_match t now p = Some x -> is_Some (M' !! p.1)).
Proof.
  cbv zeta. revert M. induction l as [|p l IH]; intros M; cbn [foldl]; [split_and!; [done|auto|by intros p x ?%elem_of_nil]|].
  set (M1 := match new_match t now p with Some x => _ | None => _ end).
  assert (H1 : forall i m, M !! i = Some m -> M1 !! i = Some m).
  { intros i m Hm. unfold M1. destruct (new_match t now p), (M !! p.1) eqn:E; try done. rewrite lookup_insert_ne; [done|]. intros <-. congruence. }
  assert (H2 : forall i m, M1 !! i = Some m -> M !! i = Some m \/ (p.1 = i /\ new_match t now p = Some m)).
  { intros i m. unfold M1. destruct (new_match t now p), (M !! p.1) eqn:E; auto. intros [[<- <-]|[_ ?]]%lookup_insert_Some; auto. }
  assert (H3 : forall x, new_match t now p = Some x -> is_Some (M1 !! p.1)).
  { intros x Hx. unfold M1. rewrite Hx. destruct (M !! p.1) eqn:E; [rewrite E; eauto|]. rewrite lookup_insert_eq. eauto. }
  destruct (IH M1) as (J1 & J2 & J3). split_and!.
  - eauto.
  - intros i m [[?|[? ?]]%H2|(q & ? & ? & ?)]%J2; [by left|right; exists p; split; [by left|done]|right; exists q; split; [by right|done]].
  - intros q x [->|Hq]%elem_of_cons Hx; [|eauto]. destruct (H3 x Hx) as [y Hy]. eauto.
Qed.

(** What is refreshed: the method of a match says whether its GTIN is corroborated. *)
Lemma refreshed_settled i m : settled_match m -> refreshed_match t affected now i m = m.
Proof. intros Hm. unfold refreshed_match. by rewrite (settled_not_exact m Hm). Qed.
Lemma refreshed_ok i m j a : is_exact m = true -> ~ settled_match m -> rests_on t i m j a ->
  ((as_value a ∉ affected) -> exact_method t (as_value a) m) ->
  let m' := refreshed_match t affected now i m in ~ settled_match m' /\ rests_on t i m' j a /\ exact_method t (as_value a) m'.
Proof.
  intros Hx Hs Hr Hmeth. pose proof Hr as (Ha & Hl & Hi & [s Hit] & Hg & _). unfold refreshed_match.
  assert (E : live_assertion t i = Some (j, a)) by (by apply live_assertion_spec). rewrite Hx, E. cbn. rewrite Hit. cbn. rewrite Hg. cbn.
  rewrite (bool_decide_true (ma_product m = _)) by done. case_bool_decide as Haff; cbn; [|auto]. split; [apply exact_match_exact|].
  by apply exact_match_ok.
Qed.

Lemma matches_wp : wp (confirm_matches items now;; refresh_matches affected now)
  (fun _ t' => exists M, t' = set_matches (fun _ => M) t /\
     (forall i m, settled_match m -> M !! i = Some m <-> mt_matches t !! i = Some m) /\
     (forall i m, M !! i = Some m -> ~ settled_match m -> exists j a, rests_on t i m j a /\ exact_method t (as_value a) m) /\
     (forall i, is_Some (mt_matches t !! i) -> is_Some (M !! i)) /\
     (forall p x, p ∈ items -> new_match t now p = Some x -> is_Some (M !! p.1)))
  (fun _ _ => False) t.
Proof.
  unfold confirm_matches, refresh_matches. do 6 wp_step. destruct (fold_confirm (mt_matches t) items) as (F1 & F2 & F3).
  set (M1 := foldl _ _ _) in *. set (M2 := map_imap (fun i m => Some (refreshed_match t affected now i m)) M1). exists M2.
  assert (E : forall i, M2 !! i = refreshed_match t affected now i <$> M1 !! i).
  { intros i. unfold M2. rewrite map_lookup_imap. by destruct (M1 !! i). }
  assert (Hnew : forall i m, M1 !! i = Some m -> ~ settled_match m -> is_exact m = true /\ exists j a, rests_on t i m j a /\
    ((as_value a ∉ affected) -> exact_method t (as_value a) m)).
  { intros i m [Hm|(p & Hp & <- & Hm)]%F2 Hs; [by apply Hmatches|].
    destruct (new_match_ok p m Hp Hm) as (j & a & Haff & Hr & Hx & _). split; [done|]. exists j, a. by split. }
  assert (Hback : forall i m, M1 !! i = Some m -> settled_match (refreshed_match t affected now i m) -> settled_match m).
  { intros i m Hm Hset. destruct (settled_dec m) as [?|Hs]; [done|]. destruct (Hnew i m Hm Hs) as (Hx & j & a & Hr & Hmeth).
    by destruct (refreshed_ok i m j a Hx Hs Hr Hmeth). }
  split; [done|]. split_and!.
  - intros i m Hs. rewrite E. split.
    + intros (m' & Hm' & ->)%fmap_Some. pose proof (Hback i m' Hm' Hs) as Hs'. rewrite refreshed_settled by done.
      apply F2 in Hm' as [?|(p & Hp & <- & Hm')]; [done|]. by destruct (new_match_ok p m' Hp Hm') as (? & ? & _ & _ & _ & ?).
    + intros Hm. by rewrite (F1 _ _ Hm); cbn; rewrite refreshed_settled.
  - intros i m Hm Hs. rewrite E in Hm. apply fmap_Some in Hm as (m' & Hm' & ->).
    assert (Hs' : ~ settled_match m') by (intros H; apply Hs; by rewrite refreshed_settled).
    destruct (Hnew i m' Hm' Hs') as (Hx & j & a & Hr & Hmeth). exists j, a. by apply refreshed_ok.
  - intros i [m Hm]. rewrite E, (F1 i m Hm). done.
  - intros p x Hp Hx. rewrite E. apply fmap_is_Some. by eapply F3.
Qed.
Lemma new_match_there i s j a p : (i, s) ∈ items -> sj_gtin s = Some (as_value a) -> mt_assertions t !! j = Some a -> is_live a = true ->
  as_item a = i -> mt_groups t !! as_value a = Some p -> mt_matches t !! i = None ->
  has_scoped (mt_identifiers t) (as_value a) (sj_retailer s) (sj_portal s) -> is_Some (new_match t now (i, s)).
Proof.
  intros His Hg Ha Hl Hi Hp Hm [q Hq]. unfold new_match. cbn. rewrite Hg. cbn.
  assert (E : live_assertion t i = Some (j, a)) by (by apply live_assertion_spec). rewrite E. cbn. rewrite Hp. cbn.
  rewrite (bool_decide_true (as_value a = _)), (bool_decide_true (mt_matches t !! i = None)) by done.
  assert (q = p) as ->.
  { destruct Hq as [k Hq]. destruct (Hrows k _ Hq eq_refl) as (p' & Hp' & [(x & y & [= ->])|E']); [cbn in Hp'; congruence|discriminate]. }
  rewrite bool_decide_false, bool_decide_true; [eauto| |].
  - destruct (identifier_rows _ _) as [|r l] eqn:El; [done|]. exfalso.
    assert (Hr : r ∈ identifier_rows t (fun r => is_global (as_value a) r && negb (bool_decide (ir_product r = p)))) by (rewrite El; by left).
    apply elem_of_identifier_rows in Hr as [Hr [Hgl Hne]%andb_true_iff]. destruct (global_rows t _ r Hrows Hr Hgl) as (p' & Hp' & ->).
    rewrite Hp in Hp'. injection Hp' as <-. cbn in Hne. by rewrite bool_decide_true in Hne.
  - intros El. eapply not_elem_of_nil. rewrite <- El. apply elem_of_identifier_rows. split; [exact Hq|].
    unfold scoped_to. cbn. by rewrite !bool_decide_true.
Qed.
End matches.

(** ** The whole function *)

Lemma elem_of_affected items t g : g ∈ affected_gtins items t <-> g ∈ gtins_of items \/
  exists j a, mt_assertions t !! j = Some a /\ is_live a = true /\ as_item a ∈ map fst items /\ as_value a = g.
Proof.
  unfold affected_gtins. rewrite elem_of_remove_dups, elem_of_app, list_elem_of_fmap. setoid_rewrite list_elem_of_In.
  setoid_rewrite List.filter_In. setoid_rewrite <- list_elem_of_In. split; (intros [?|H]; [by left|right]).
  - destruct H as ([j a] & -> & Ha%elem_of_map_to_list & [Hl Hi%among_spec]%andb_true_iff). by exists j, a.
  - destruct H as (j & a & Ha & Hl & Hi & <-). exists (j, a). cbn. rewrite elem_of_map_to_list, Hl. split; [done|]. split; [done|]. by apply among_spec.
Qed.

Section after.
Variables (source : uuid) (items : list gtin_item) (retailer portal : uuid) (t t' : MatchTables).
Hypothesis Hok : gtin_ok t.
Hypothesis Hfile : file_items retailer portal t items.
Hypothesis Hsame : mt_items t' = mt_items t.
Hypothesis Hby : asserted_by source items (mt_assertions t) (mt_assertions t').
Hypothesis Hkeys : unique_rows assertion_key (mt_assertions t').
Hypothesis Hgroups : forall g p, mt_groups t !! g = Some p -> mt_groups t' !! g = Some p.
Hypothesis Hall : forall g, g ∈ gtins_of items -> is_Some (mt_groups t' !! g).
Let affected := affected_gtins items t.

(** What asserts a GTIN now did before, or is an item of the file. *)
Lemma live_origin j a : mt_assertions t' !! j = Some a -> is_live a = true -> (mt_assertions t !! j = Some a) \/
  (as_source_file a = source /\ exists s, (as_item a, s) ∈ items /\ sj_gtin s = Some (as_value a)).
Proof.
  intros Ha Hl. destruct (decide (as_item a ∈ map fst items)) as [Hi|Hi].
  - destruct (ab_file _ _ _ _ Hby j a Ha Hl Hi) as [Hs [?|?]]; auto.
  - left. by apply (ab_other _ _ _ _ Hby).
Qed.
Lemma live_unique j k a b : mt_assertions t' !! j = Some a -> mt_assertions t' !! k = Some b -> is_live a = true -> is_live b = true ->
  as_item a = as_item b -> j = k.
Proof.
  intros Ha Hb Hla Hlb E. destruct (decide (as_item a ∈ map fst items)) as [Hi|Hi].
  - destruct (ab_file _ _ _ _ Hby j a Ha Hla Hi) as [Hs _]. rewrite E in Hi. destruct (ab_file _ _ _ _ Hby k b Hb Hlb Hi) as [Hs' _].
    eapply Hkeys; [exact Ha|exact Hb|]. unfold assertion_key.
    by rewrite E, Hs, Hs', (ab_kinds _ _ _ _ Hby _ _ Ha), (ab_kinds _ _ _ _ Hby _ _ Hb).
  - eapply (gt_live t Hok); [apply (ab_other _ _ _ _ Hby); [|exact Ha]|apply (ab_other _ _ _ _ Hby); [|exact Hb]|done..]; [done|by rewrite <- E].
Qed.
Lemma live_grouped j a : mt_assertions t' !! j = Some a -> is_live a = true -> is_Some (mt_groups t' !! as_value a).
Proof.
  intros Ha Hl. destruct (live_origin j a Ha Hl) as [Hj|(_ & s & Hs & Hg)].
  - destruct (gt_grouped t Hok j a Hj Hl) as [p Hp]. eauto.
  - apply Hall, elem_of_gtins. eauto.
Qed.
Lemma affected_grouped g : g ∈ affected -> is_Some (mt_groups t' !! g).
Proof.
  intros [Hg|(j & a & Ha & Hl & _ & <-)]%elem_of_affected; [by apply Hall|].
  destruct (gt_grouped t Hok j a Ha Hl) as [p Hp]. eauto.
Qed.
Lemma file_row i s : (i, s) ∈ items -> mt_items t' !! i = Some s.
Proof. intros Hi. rewrite Hsame. by apply (fi_rows _ _ _ _ Hfile). Qed.
Lemma asserts_origin g r p : asserts t' g r p -> asserts t g r p \/
  exists i s, (i, s) ∈ items /\ sj_gtin s = Some g /\ sj_retailer s = r /\ sj_portal s = p.
Proof.
  intros (j & a & s & Ha & Hl & <- & Hs & <- & <-). destruct (live_origin j a Ha Hl) as [Hj|(_ & s' & Hs' & Hg)].
  - left. exists j, a, s. by rewrite <- Hsame.
  - right. exists (as_item a), s'. split_and!; [done|done|..]; apply file_row in Hs'; congruence.
Qed.
Lemma unaffected g r p : g ∉ affected -> asserts t' g r p <-> asserts t g r p.
Proof.
  intros Hg. split.
  - intros [?|(i & s & Hi & Hgs & _)]%asserts_origin; [done|]. destruct Hg. apply elem_of_affected. left. apply elem_of_gtins. eauto.
  - intros (j & a & s & Ha & Hl & <- & Hs & <- & <-). exists j, a, s. rewrite Hsame. split_and!; try done. apply (ab_other _ _ _ _ Hby); [|done].
    intros Hi. apply Hg, elem_of_affected. right. by exists j, a.
Qed.
Lemma unaffected_corroborated g : g ∉ affected -> corroborated t' g <-> corroborated t g.
Proof. intros Hg. unfold corroborated. by setoid_rewrite (fun r p => unaffected g r p Hg). Qed.

(** An exact match that was not withdrawn rests on the same assertion. *)
Lemma rests_still i m : mt_matches t !! i = Some m -> ~ settled_match m -> i ∉ map fst items \/ is_exact m = false ->
  is_exact m = true /\ exists j a, rests_on t' i m j a /\ ((as_value a ∉ affected) -> exact_method t' (as_value a) m).
Proof.
  intros Hm Hs Hi. destruct (gt_matches t Hok i m Hm Hs) as (j & a & (Ha & Hl & Hia & Hit & Hg & Hact) & He).
  destruct (exact_of _ _ _ He Hact) as [Hx _]. destruct Hi as [Hi|Hi]; [|congruence]. split; [done|]. exists j, a. split.
  - split_and!; try done; [by apply (ab_other _ _ _ _ Hby); [by rewrite Hia|]|by rewrite Hsame|by apply Hgroups].
  - intros Hv. unfold exact_method. by rewrite unaffected_corroborated.
Qed.

Lemma rows_grouped : gtin_rows (mt_groups t') (mt_identifiers t).
Proof. intros j r Hr Hk. destruct (gt_rows t Hok j r Hr Hk) as (p & Hp & H). exists p. split; [by apply Hgroups|done]. Qed.

Lemma gtin_ok_after : identifiers_follow affected t' (mt_identifiers t) (mt_identifiers t') ->
  (forall i m, mt_matches t' !! i = Some m -> ~ settled_match m -> exists j a, rests_on t' i m j a /\ exact_method t' (as_value a) m) ->
  gtin_ok t'.
Proof.
  intros Hf Hm. split.
  - exact live_unique.
  - intros j a Ha. rewrite Hsame. destruct (ab_items _ _ _ _ Hby j a Ha) as [Hi|(b & Hb & ->)]; [|by eapply (gt_items t Hok)].
    apply list_elem_of_fmap in Hi as ([i s] & E & Hi). cbn in E. rewrite E. apply (fi_rows _ _ _ _ Hfile) in Hi as [-> _]. done.
  - exact Hkeys.
  - apply (ab_kinds _ _ _ _ Hby).
  - exact live_grouped.
  - apply (if_rows _ _ _ _ Hf).
  - intros g r p. rewrite (if_scoped _ _ _ _ Hf). case_bool_decide; [done|]. by rewrite (gt_scoped t Hok), unaffected.
  - intros g. rewrite (if_validated _ _ _ _ Hf). case_bool_decide; [done|]. by rewrite (gt_validated t Hok), unaffected_corroborated.
  - exact Hm.
Qed.
End after.

Section match_exact.
Variable collate : pystr -> pystr -> bool.

(** What one run does: both invariants hold again, what a review made stays, and an item of the
    file whose own GTIN is what it asserts has a match. *)
Record matched_exactly (source : uuid) (items : list gtin_item) (t t' : MatchTables) : Prop := {
  me_proceeds : proceeds t t';
  me_gtins : gtin_ok t';
  me_items : mt_items t' = mt_items t;
  me_assertions : asserted_by source items (mt_assertions t) (mt_assertions t');
  me_settled : forall i m, settled_match m -> mt_matches t' !! i = Some m <-> mt_matches t !! i = Some m;
  me_there : forall i s j a, (i, s) ∈ items -> mt_assertions t' !! j = Some a -> is_live a = true -> as_item a = i ->
    sj_gtin s = Some (as_value a) -> is_Some (mt_matches t' !! i)
}.

(** The tables before the identifiers follow. *)
Record prepared (source : uuid) (items : list gtin_item) (t t' : MatchTables) : Prop := {
  pp_proceeds : proceeds t t';
  pp_items : mt_items t' = mt_items t;
  pp_identifiers : mt_identifiers t' = mt_identifiers t;
  pp_assertions : asserted_by source items (mt_assertions t) (mt_assertions t');
  pp_keys : unique_rows assertion_key (mt_assertions t');
  pp_groups : forall g p, mt_groups t !! g = Some p -> mt_groups t' !! g = Some p;
  pp_grouped : forall g, g ∈ gtins_of items -> is_Some (mt_groups t' !! g);
  pp_matches : forall i m, mt_matches t' !! i = Some m <-> mt_matches t !! i = Some m /\ (i ∉ map fst items \/ is_exact m = false)
}.
Lemma prepared_wp source items now (k : M MatchTables unit) Q t : review_ok t -> gtin_ok t ->
  NoDup (map fst items) -> (forall t', prepared source items t t' -> wp k Q (fun _ _ => asserted_later source items now t) t') ->
  wp (update_assertions items source now;; withdraw_matches items;; form_groups collate items;; k) Q
    (fun _ _ => asserted_later source items now t) t.
Proof.
  intros Ht Hg Hnd Hk. wp_step. eapply wp_mono; [by apply assertions_wp| |done]. intros _ t1 (n1 & A & E1 & Hn1 & HA & Hkeys & Hby).
  pose proof (assertions_proceed t n1 A Ht Hn1 HA) as P1. rewrite <- E1 in P1. unfold withdraw_matches. do 2 wp_step.
  match goal with |- wp _ _ _ ?x => set (t2 := x) end.
  assert (P2 : proceeds t1 t2).
  { apply matches_proceed; [apply P1|..].
    - intros i m Hs. rewrite withdrawn. rewrite (settled_not_exact m Hs). tauto.
    - intros i m [Hm _]%withdrawn Hs. destruct P1 as [P1 _]. destruct (rv_matches t1 P1 i m Hm) as (? & ? & _). done. }
  wp_step. eapply wp_mono; [apply form_groups_wp; [apply P2|]| |done].
  { subst t2 t1. exact (gt_rows t Hg). }
  intros _ t3 (n3 & G & P & -> & Hn3 & Hform). apply Hk. split; try (by subst t2 t1).
  - eapply proceeds_trans; [exact P1|]. eapply proceeds_trans; [exact P2|]. by eapply groups_proceed; [apply P2| |].
  - subst t2 t1. apply (gf_old _ _ _ _ _ _ _ Hform).
  - apply (gf_all _ _ _ _ _ _ _ Hform).
  - intros i m. subst t2 t1. apply withdrawn.
Qed.

(** The tables before the matches are made. *)
Record identified_gtins (source : uuid) (items : list gtin_item) (t t' : MatchTables) : Prop := {
  ig_prepared : exists t0, prepared source items t t0 /\ proceeds t0 t' /\ mt_items t' = mt_items t0 /\
    mt_assertions t' = mt_assertions t0 /\ mt_groups t' = mt_groups t0 /\ mt_matches t' = mt_matches t0;
  ig_follow : identifiers_follow (affected_gtins items t) t' (mt_identifiers t) (mt_identifiers t')
}.
Lemma identified_wp source items retailer portal now (k : M MatchTables unit) Q E t t3 : gtin_ok t -> file_items retailer portal t items ->
  prepared source items t t3 -> (forall t', identified_gtins source items t t' -> wp k Q E t') ->
  wp (update_identifiers items (affected_gtins items t);; record_conflicts items source now;; k) Q E t3.
Proof.
  intros Hg Hfile Hp Hk. pose proof Hp as [[Ht3 L3] Hitems Hids Hby Hkeys Hgr Hall _].
  assert (Hrows : gtin_rows (mt_groups t3) (mt_identifiers t3)) by (rewrite Hids; by eapply rows_grouped).
  wp_step. eapply wp_mono; [apply update_identifiers_wp| |done].
  { exact (rv_identifiers t3 Ht3). }
  { exact (proj1 (proj2 (proj2 (rv_ids t3 Ht3)))). }
  { exact Hrows. }
  { intros g Hgi. apply elem_of_affected. by left. }
  { intros g Hga. by eapply affected_grouped. }
  { intros g r p _ Ha. destruct (asserts_origin source items retailer portal t t3 Hfile Hitems Hby g r p Ha) as [Ha'|Ha']; [left|by right].
    rewrite Hids. by apply (gt_scoped t Hg). }
  intros _ t4 (n4 & I & E4 & Hn4 & HI & Hfollow). rewrite Hids in Hfollow.
  assert (P4 : proceeds t3 t4).
  { rewrite E4. apply identifiers_proceed; [done..|apply (if_unique _ _ _ _ Hfollow)|]. rewrite Hids. apply (if_other _ _ _ _ Hfollow). }
  wp_step. eapply wp_mono; [apply record_conflicts_wp; [apply P4|subst t4; exact (if_rows _ _ _ _ Hfollow)]| |done].
  intros _ t5 (n5 & C & E5 & P5). apply Hk. split.
  - exists t3. split; [done|]. split; [by eapply proceeds_trans|]. by subst t5 t4.
  - subst t5 t4. destruct Hfollow. by split.
Qed.

Lemma match_exact_wp source retailer portal codes now t : review_ok t -> gtin_ok t ->
  wp (match_exact_gtins collate source retailer portal codes now)
    (fun _ => matched_exactly source (exact_gtin_items retailer portal codes t) t)
    (fun _ _ => asserted_later source (exact_gtin_items retailer portal codes t) now t) t.
Proof.
  intros Ht Hg. unfold match_exact_gtins. do 2 wp_step. pose proof (exact_gtin_items_ok retailer portal codes t) as Hfile.
  set (items := exact_gtin_items retailer portal codes t) in *. apply prepared_wp; [done..|apply Hfile|]. intros t3 Hp3.
  eapply identified_wp; [done..|]. clear t3 Hp3. intros t5 [(t3 & [P3 Hi3 _ Hby Hkeys Hgr Hall Hm3] & P5 & Hi5 & Ha5 & Hg5 & Hm5) Hfollow].
  rewrite <- Hi5 in Hi3. rewrite <- Ha5 in Hby, Hkeys. setoid_rewrite <- Hg5 in Hgr. setoid_rewrite <- Hg5 in Hall. setoid_rewrite <- Hm5 in Hm3.
  pose proof (live_unique source items t t5 Hg Hby Hkeys) as Hlive. pose proof (if_rows _ _ _ _ Hfollow) as Hrows.
  assert (Hfile5 : file_items retailer portal t5 items) by (destruct Hfile; split; [by rewrite Hi3|done]).
  eapply wp_mono; [eapply (matches_wp items (affected_gtins items t) now retailer portal t5); try done| |done].
  { intros g Hgi. apply elem_of_affected. by left. }
  { intros g Hga. rewrite (if_validated _ _ _ _ Hfollow). by rewrite bool_decide_true. }
  { intros i m [Hi Hx]%Hm3 Hs. by eapply rests_still. }
  intros _ t6 (M & -> & Hset & Hex & Hkept & Hnew). split.
  - eapply proceeds_trans; [exact P3|]. eapply proceeds_trans; [exact P5|]. apply matches_proceed; [apply P5|exact Hset|].
    intros i m Hm Hs. destruct (Hex i m Hm Hs) as (j & a & (_ & _ & _ & ? & Hgp & _) & _). split; [done|]. destruct P5 as [P5 _].
    by apply (rv_groups t5 P5 _ _ Hgp).
  - eapply (gtin_ok_after source items retailer portal t); try done. destruct Hfollow. by split.
  - exact Hi3.
  - exact Hby.
  - intros i m Hs. cbn. rewrite (Hset i m Hs), Hm3, (settled_not_exact m Hs). tauto.
  - intros i s j a His Ha Hl Hi Hgs. cbn in Ha |- *. destruct (mt_matches t5 !! i) eqn:Em; [apply Hkept; by rewrite Em|].
    destruct (Hall (as_value a)) as [p Hp]; [apply elem_of_gtins; eauto|].
    assert (Hx : is_Some (new_match t5 now (i, s))).
    { eapply (new_match_there items now t5); [exact Hrows|exact Hlive|try done..].
      apply (if_scoped _ _ _ _ Hfollow). rewrite bool_decide_true.
      - exists j, a, s. split_and!; try done. rewrite Hi. by apply (fi_rows _ _ _ _ Hfile5).
      - apply elem_of_affected. left. apply elem_of_gtins. eauto. }
    destruct Hx as [x Hx]. exact (Hnew (i, s) x His Hx).
Qed.
End match_exact.
