(* ===== verification/ArchiveKeys.v ===== *)
(** Content-addressed object keys: [src/src/makolet/adapters/archive/keys.py].

    A key is canonical when it is [key_for_digest] of a digest; [object_key_match] is the
    [fullmatch] of [OBJECT_KEY_PATTERN], with its three named groups. *)
From S2P Require Import Prelude Errors Effects Text.

(** ** Keys *)

(** [len(digest) != 64 or any(character not in "0123456789abcdef" ...)], negated. *)
Definition is_digest (digest : pystr) : bool := (py_len digest =? 64) && py_all is_hex digest.

Definition slash : Z := 47.

(** The key of a digest, whatever the digest is. *)
Definition key_text (digest : pystr) : pystr :=
  py "sha256/" ++ take 2 digest ++ [slash] ++ take 2 (drop 2 digest) ++ [slash] ++ digest.

Definition key_for_digest {W} (digest : pystr) : M W pystr :=
  raise_if (negb (is_digest digest)) (PyExn ValueError);;
  mret (key_text digest).

(** [OBJECT_KEY_PATTERN.fullmatch]: the groups [first], [second] and [digest]. *)
Definition object_key_match (object_key : pystr) : option (pystr * pystr * pystr) :=
  match drop 7 object_key with
  | a :: b :: s1 :: c :: d :: s2 :: digest =>
      if starts_with (py "sha256/") object_key && py_all is_hex [a; b; c; d]
         && (s1 =? slash) && (s2 =? slash) && is_digest digest
      then Some ([a; b], [c; d], digest) else None
  | _ => None
  end.

Definition digest_for_key {W} (object_key : pystr) (expected_sha256 : option pystr) : M W pystr :=
  match object_key_match object_key with
  | None => raise (MakoletExn ArchiveIntegrityError 0)
  | Some (first, second, digest) =>
      raise_if (negb (bool_decide (first = take 2 digest))
                || negb (bool_decide (second = take 2 (drop 2 digest))))
        (MakoletExn ArchiveIntegrityError 0);;
      raise_if (match expected_sha256 with
                | Some e => negb (bool_decide (digest = e)) | None => false end)
        (MakoletExn ArchiveIntegrityError 0);;
      mret digest
  end.

(** ** Service keys *)

Definition normalize_key_prefix {W} (key_prefix : pystr) : M W pystr :=
  let normalized := strip_with (Z.eqb slash) key_prefix in
  raise_if (str_truthy normalized
            && py_any (fun part => bool_decide (part ∈ [py ""; py "."; py ".."]))
                 (split_on slash normalized)) (PyExn ValueError);;
  mret normalized.

(** The text a normalized prefix puts before an object key. *)
Definition marker (normalized_prefix : pystr) : pystr :=
  if str_truthy normalized_prefix then normalized_prefix ++ [slash] else [].

Definition service_key_for_object {W} (object_key key_prefix : pystr) : M W pystr :=
  digest_for_key object_key None;;
  normalized_prefix ← normalize_key_prefix key_prefix;
  mret (marker normalized_prefix ++ object_key).

Definition object_key_from_service_key {W} (service_key key_prefix : pystr)
    (expected_sha256 : option pystr) : M W pystr :=
  normalized_prefix ← normalize_key_prefix key_prefix;
  raise_if (negb (starts_with (marker normalized_prefix) service_key))
    (MakoletExn ArchiveIntegrityError 0);;
  let object_key := drop (length (marker normalized_prefix)) service_key in
  digest_for_key object_key expected_sha256;;
  mret object_key.

(** ** Lemmas *)

Lemma is_digest_spec d : is_digest d = true <-> length d = 64%nat /\ py_all is_hex d = true.
Proof. unfold is_digest, py_len. rewrite andb_true_iff, Z.eqb_eq. split; intros []; split; auto; lia. Qed.

(** A match is a canonical text, up to its two directory groups. *)
Lemma object_key_match_spec k first second digest :
  object_key_match k = Some (first, second, digest) <->
  k = py "sha256/" ++ first ++ [slash] ++ second ++ [slash] ++ digest /\
  length first = 2%nat /\ length second = 2%nat /\ py_all is_hex (first ++ second) = true /\
  is_digest digest = true.
Proof.
  unfold object_key_match. split.
  - destruct (drop 7 k) as [|a [|b [|s1 [|c [|d [|s2 dg]]]]]] eqn:E; try done.
    destruct (starts_with _ _) eqn:Hs; [|done]. apply starts_with_spec in Hs as [r ->].
    cbv [drop app py map String.list_ascii_of_string] in E. simpl in E. subst r.
    intros H. case_match; [|done]. simplify_eq. reflect_bools. subst. done.
  - intros (-> & H1 & H2 & Hh & Hd).
    destruct first as [|a [|b [|]]]; try done. destruct second as [|c [|d [|]]]; try done.
    rewrite starts_with_app. simpl in Hh |- *. by rewrite Hh, Hd.
Qed.

(** [digest_for_key] accepts exactly the canonical keys. *)
Lemma digest_for_key_returned {W} k e (w w' : W) d :
  digest_for_key k e w = (Returned d, w') <->
  is_digest d = true /\ k = key_text d /\ w' = w /\ (forall x, e = Some x -> x = d).
Proof.
  unfold digest_for_key. destruct (object_key_match k) as [[[f s] g]|] eqn:E.
  - apply object_key_match_spec in E as (-> & Hf & Hs & _ & Hg).
    unfold key_text. split.
    + intros H. unfold mbind, M_bind, raise_if in H. repeat case_match; simplify_eq/=.
      all: unfold raise, mret, M_ret in *; simplify_eq; reflect_bools; subst; split_and!; try done.
      by intros x [= ->].
    + intros (Hd & Hk & -> & He).
      apply (app_inv_head (py "sha256/")) in Hk.
      assert (length (take 2 d) = 2%nat /\ length (take 2 (drop 2 d)) = 2%nat) as [Ha Hb].
      { apply is_digest_spec in Hd as [Hd _]. rewrite !length_take, length_drop. lia. }
      apply app_inj_1 in Hk as [-> Hk]; [|lia]. injection Hk as Hk.
      apply app_inj_1 in Hk as [-> Hk]; [|lia]. injection Hk as ->.
      rewrite !bool_decide_eq_true_2 by done. simpl.
      destruct e as [x|]; [|done]. rewrite (He x) by done. by rewrite bool_decide_eq_true_2.
  - split; [done|]. intros (Hd & -> & _). pose proof Hd as [Hl Hh]%is_digest_spec.
    enough (H : object_key_match (key_text d) = Some (take 2 d, take 2 (drop 2 d), d))
      by congruence.
    apply object_key_match_spec. split_and!; [done|rewrite length_take; lia| | |done].
    + rewrite length_take, length_drop. lia.
    + rewrite take_take_drop. by apply py_all_take.
Qed.

Lemma key_for_digest_returned {W} d (w w' : W) k :
  key_for_digest d w = (Returned k, w') <-> is_digest d = true /\ k = key_text d /\ w' = w.
Proof.
  unfold key_for_digest. destruct (is_digest d); cbv [mbind M_bind raise_if raise mret M_ret negb].
  - split; [by intros [= <- <-]|by intros (_ & -> & ->)].
  - split; [done|by intros []].
Qed.

(** A prefix is canonical when it has no slash at its ends and no empty or dotted part. *)
Definition canonical_prefix (n : pystr) : bool :=
  negb (str_truthy n) || negb (py_any (fun part => bool_decide (part ∈ [py ""; py "."; py ".."]))
                                 (split_on slash n)).

Lemma normalize_key_prefix_returned {W} p (w w' : W) n :
  normalize_key_prefix p w = (Returned n, w') <->
  n = strip_with (Z.eqb slash) p /\ canonical_prefix n = true /\ w' = w.
Proof.
  unfold normalize_key_prefix, canonical_prefix. set (t := strip_with _ p).
  rewrite <- negb_andb. destruct (str_truthy t && _) eqn:E; cbv [mbind M_bind raise_if raise mret M_ret].
  - split; [done|]. intros (-> & H & _). by rewrite E in H.
  - split; [intros [= <- <-]; by rewrite E|by intros (-> & _ & ->)].
Qed.

Lemma service_key_for_object_returned {W} k p (w w' : W) s :
  service_key_for_object k p w = (Returned s, w') <->
  exists d n, is_digest d = true /\ k = key_text d /\ n = strip_with (Z.eqb slash) p /\
    canonical_prefix n = true /\ s = marker n ++ k /\ w' = w.
Proof.
  unfold service_key_for_object. rewrite bind_returned. setoid_rewrite bind_returned.
  setoid_rewrite digest_for_key_returned. setoid_rewrite normalize_key_prefix_returned.
  split.
  - intros (d & w0 & (Hd & -> & -> & _) & n & w1 & (-> & Hn & ->) & [= <- <-]). eauto 10.
  - intros (d & n & Hd & -> & -> & Hn & -> & ->). exists d, w. split_and!; try done.
    eexists _, w. by split_and!.
Qed.

Lemma object_key_from_service_key_returned {W} s p e (w w' : W) k :
  object_key_from_service_key s p e w = (Returned k, w') <->
  exists d n, is_digest d = true /\ k = key_text d /\ n = strip_with (Z.eqb slash) p /\
    canonical_prefix n = true /\ s = marker n ++ k /\ w' = w /\ (forall x, e = Some x -> x = d).
Proof.
  unfold object_key_from_service_key. rewrite bind_returned.
  setoid_rewrite normalize_key_prefix_returned. setoid_rewrite bind_returned.
  setoid_rewrite bind_returned. setoid_rewrite digest_for_key_returned. split.
  - intros (n & w0 & (-> & Hn & ->) & [] & w1 & Hs & d & w2 & (Hd & Hk & -> & He) & [= <- <-]).
    unfold raise_if in Hs. destruct (starts_with _ s) eqn:Es; [|done].
    apply starts_with_spec in Es as [r ->]. rewrite drop_app_length in *.
    injection Hs as <-. subst r. eauto 12.
  - intros (d & n & Hd & -> & -> & Hn & -> & -> & He).
    eexists _, w. split; [done|]. exists tt, w. rewrite starts_with_app, drop_app_length.
    split; [done|]. by exists d, w.
Qed.

(** ** Parts of a key *)

Definition plain_part (part : pystr) : Prop := part <> py "" /\ part <> py "." /\ part <> py "..".

Lemma canonical_prefix_parts n :
  canonical_prefix n = true -> n <> [] -> Forall plain_part (split_on slash n).
Proof.
  unfold canonical_prefix. destruct n as [|c n]; [done|]. intros H _.
  apply Forall_forall. intros part Hpart. apply negb_true_iff in H.
  unfold py_any in H. rewrite <- not_true_iff_false, existsb_exists in H.
  assert (part ∉ [py ""; py "."; py ".."]) as Hn.
  { intros Hin. apply H. exists part. rewrite <- list_elem_of_In. by rewrite bool_decide_eq_true. }
  rewrite !not_elem_of_cons in Hn. by destruct Hn as (? & ? & ? & _).
Qed.

Lemma hex_plain s : py_all is_hex s = true -> s <> [] -> plain_part s.
Proof. destruct s as [|c s]; [done|]. intros H _. split_and!; [done| |]; by intros [= -> ->]. Qed.

Lemma hex_no_slash s : py_all is_hex s = true -> slash ∉ s.
Proof.
  intros H Hin. unfold py_all in H. rewrite forallb_forall in H.
  apply list_elem_of_In in Hin. by apply H in Hin.
Qed.

Lemma key_text_parts d : is_digest d = true -> Forall plain_part (split_on slash (key_text d)).
Proof.
  intros [Hl Hd]%is_digest_spec. unfold key_text.
  change (py "sha256/") with (py "sha256" ++ [slash]). rewrite <- !app_assoc. cbn [app].
  assert (Ha : py_all is_hex (take 2 d) = true) by by apply py_all_take.
  assert (Hb : py_all is_hex (take 2 (drop 2 d)) = true) by by apply py_all_take, py_all_drop.
  rewrite !split_on_app, !split_on_none by (try (by apply hex_no_slash); vm_compute; set_solver).
  repeat constructor; try done; apply hex_plain; try done; intros E; apply (f_equal length) in E;
    revert E; rewrite ?length_take, ?length_drop, Hl; done.
Qed.

Lemma marker_parts n k :
  canonical_prefix n = true -> Forall plain_part (split_on slash k) ->
  Forall plain_part (split_on slash (marker n ++ k)).
Proof.
  intros Hn Hk. unfold marker. destruct n as [|c n]; [done|]. simpl str_truthy. cbv iota.
  rewrite <- app_assoc. cbn [app]. change (c :: n ++ slash :: k) with ((c :: n) ++ slash :: k).
  rewrite split_on_app. apply Forall_app. split; [|done]. by apply canonical_prefix_parts.
Qed.

(** ** Properties *)

(** C17: the archive's object keys and service keys round-trip.  [key_for_digest] and
    [digest_for_key] are inverse to each other, on exactly the SHA-256 hex digests;
    qualifying a key with the service prefix and removing the prefix are inverse to each
    other, on exactly the canonical keys and prefixes, whatever digest the caller expects
    besides the key's own; and no part of a service key is empty or climbs. *)
Theorem archive_keys_round_trip {W} (w : W) :
  (forall d k w', key_for_digest d w = (Returned k, w') <-> digest_for_key k None w = (Returned d, w')) /\
  (forall p k s w', service_key_for_object k p w = (Returned s, w') <->
     object_key_from_service_key s p None w = (Returned k, w')) /\
  (forall p k s w' e, object_key_from_service_key s p (Some e) w = (Returned k, w') <->
     key_for_digest e w = (Returned k, w') /\ service_key_for_object k p w = (Returned s, w')) /\
  (forall p k s w', service_key_for_object k p w = (Returned s, w') ->
     Forall plain_part (split_on slash s)).
Proof.
  split_and!.
  - intros. rewrite key_for_digest_returned, digest_for_key_returned. naive_solver.
  - intros. rewrite service_key_for_object_returned, object_key_from_service_key_returned. naive_solver.
  - intros. rewrite service_key_for_object_returned, object_key_from_service_key_returned,
      key_for_digest_returned. split.
    + intros (d & n & Hd & -> & -> & Hn & -> & -> & He). rewrite (He e) by done. naive_solver.
    + intros ((He & -> & ->) & d & n & Hd & Hk & -> & Hn & -> & _).
      exists e, (strip_with (Z.eqb slash) p). split_and!; try done. by intros x [= ->].
  - intros p k s w' (d & n & Hd & -> & _ & Hn & -> & _)%service_key_for_object_returned.
    apply marker_parts; [done|]. by apply key_text_parts.
Qed.

Abbreviation sample_digest :=
  (py "0123456789abcdef0123456789abcdef0123456789abcdef0123456789abcdef").
Abbreviation sample_service_key := (py "raw/prices/" ++ key_text sample_digest).
Lemma archive_keys_round_trip_witness :
  service_key_for_object (key_text sample_digest) (py "/raw/prices/") tt
    = (Returned sample_service_key, tt) /\
  object_key_from_service_key sample_service_key (py "/raw/prices/") None tt
    = (Returned (key_text sample_digest), tt) /\
  Forall plain_part (split_on slash sample_service_key).
Proof.
  destruct (archive_keys_round_trip tt) as (_ & Hp & _ & Hs).
  assert (E : service_key_for_object (key_text sample_digest) (py "/raw/prices/") tt
    = (Returned sample_service_key, tt)) by (vm_compute; reflexivity).
  split; [exact E|]. split; [by apply Hp|]. by apply (Hs _ _ _ _ E).
Defined.
