(* ===== verification/ZipDirectory.v ===== *)
(** The central directory of a ZIP archive, as [_preflight_zip] of
    [src/src/makolet/adapters/parsers/streams.py] checks it before [zipfile] reads it: the
    code's scan, the grammar it accepts, and that they are the same. *)
From S2P Require Import Prelude Errors Effects Text.

(** ** Limits *)

Record CompressionLimits := {
  maximum_compressed_bytes : Z;
  maximum_decompressed_bytes : Z;
  maximum_expansion_ratio : Z;
  maximum_zip_entries : Z;
  maximum_zip_directory_bytes : Z;
  maximum_chunk_bytes : Z;
  spool_memory_bytes : Z;
  maximum_zstandard_window_log : Z
}.
Definition default_compression_limits : CompressionLimits := {|
  maximum_compressed_bytes := 2 * 1024 * 1024 * 1024;
  maximum_decompressed_bytes := 8 * 1024 * 1024 * 1024;
  maximum_expansion_ratio := 250;
  maximum_zip_entries := 16;
  maximum_zip_directory_bytes := 4 * 1024 * 1024;
  maximum_chunk_bytes := 64 * 1024;
  spool_memory_bytes := 8 * 1024 * 1024;
  maximum_zstandard_window_log := 27
|}.

(** [__post_init__]; the bounds are those of the Zstandard library. *)
Definition CompressionLimits_post_init {W} (window_log_bounds : Z * Z) (l : CompressionLimits)
    : M W unit :=
  raise_if (py_any (fun value => value <=? 0)
    [maximum_compressed_bytes l; maximum_decompressed_bytes l; maximum_expansion_ratio l;
     maximum_zip_entries l; maximum_zip_directory_bytes l; maximum_chunk_bytes l;
     spool_memory_bytes l]) (PyExn ValueError);;
  raise_if (negb ((window_log_bounds.1 <=? maximum_zstandard_window_log l)
                  && (maximum_zstandard_window_log l <=? window_log_bounds.2))) (PyExn ValueError).

(** ** Layouts *)

Abbreviation unsafe := (MakoletExn UnsafeArchiveError 0).

Definition ZIP_END_SIGNATURE : bytes := [80; 75; 5; 6].
Definition ZIP64_LOCATOR_SIGNATURE : bytes := [80; 75; 6; 7].
Definition ZIP_CENTRAL_SIGNATURE : bytes := [80; 75; 1; 2].
(** The fields after the four signature bytes of ["<4s4H2LH"] and ["<4s6H3L5H2L"]. *)
Definition ZIP_END_FIELDS : list nat := [2; 2; 2; 2; 4; 4; 2]%nat.
Definition ZIP_CENTRAL_FIELDS : list nat := [2; 2; 2; 2; 2; 2; 4; 4; 4; 2; 2; 2; 2; 2; 4; 4]%nat.
Definition ZIP_END_RECORD_size : nat := 22.
Definition ZIP_CENTRAL_HEADER_size : nat := 46.
Definition ZIP_MAXIMUM_COMMENT_BYTES : nat := Z.to_nat (2 ^ 16 - 1).
Definition ZIP64_EXTRA_FIELD : Z := 1.

(** [struct.unpack_from(data, offset)[i]], for the fields after the signature. *)
Definition unpack_from (widths : list nat) (data : bytes) (offset : nat) : bytes * list Z :=
  (slice offset (offset + 4) data, unpack_fields widths (drop (offset + 4) data)).
Definition header_field (header : bytes * list Z) (i : nat) : Z := nth (i - 1) (snd header) 0.

(** ** The end-of-directory record *)

Record ZipEndRecord := {
  entries : Z;
  directory_size : Z;
  directory_offset : Z;
  record_offset : Z
}.

(** [data.rfind(signature, 0, search_end)] for a four-byte signature. *)
Fixpoint rfind (signature data : bytes) (search_end : nat) : option nat :=
  match search_end with
  | S ((S (S (S offset))) as rest) =>
      if bool_decide (slice offset (offset + 4) data = signature) then Some offset
      else rfind signature data rest
  | _ => None
  end.

(** The [while] loop of [_read_zip_end_record]; each round moves [search_end] down, so
    [len(tail) + 1] rounds are enough. *)
Fixpoint search_end_record {W} (fuel : nat) (tail : bytes) (file_size tail_size search_end : nat)
    : M W ZipEndRecord :=
  match fuel with
  | O => raise (PyExn AssertionError)
  | S fuel =>
      match rfind ZIP_END_SIGNATURE tail search_end with
      | None => raise unsafe
      | Some relative_offset =>
          let record_end := (relative_offset + ZIP_END_RECORD_size)%nat in
          if (length tail <? record_end)%nat
          then search_end_record fuel tail file_size tail_size relative_offset
          else
          let unpacked := unpack_from ZIP_END_FIELDS tail relative_offset in
          let comment_size := header_field unpacked 7 in
          if negb (Z.of_nat record_end + comment_size =? py_len tail)
          then search_end_record fuel tail file_size tail_size relative_offset
          else
          raise_if ((20 <=? relative_offset)%nat
                    && bool_decide (slice (relative_offset - 20) (relative_offset - 16) tail
                                    = ZIP64_LOCATOR_SIGNATURE)) unsafe;;
          raise_if (negb (header_field unpacked 1 =? 0) || negb (header_field unpacked 2 =? 0)
                    || negb (header_field unpacked 3 =? header_field unpacked 4)) unsafe;;
          raise_if ((header_field unpacked 4 =? 0xFFFF) || (header_field unpacked 5 =? 0xFFFFFFFF)
                    || (header_field unpacked 6 =? 0xFFFFFFFF)) unsafe;;
          mret {| entries := header_field unpacked 4; directory_size := header_field unpacked 5;
                  directory_offset := header_field unpacked 6;
                  record_offset := Z.of_nat (file_size - tail_size + relative_offset) |}
      end
  end.

(** The spool is its bytes; a read past its end is short. *)
Definition read_zip_end_record {W} (spool : bytes) (file_size : nat) : M W ZipEndRecord :=
  raise_if (file_size <? ZIP_END_RECORD_size)%nat unsafe;;
  let tail_size := Nat.min file_size (ZIP_END_RECORD_size + ZIP_MAXIMUM_COMMENT_BYTES) in
  let tail := take tail_size (drop (file_size - tail_size) spool) in
  raise_if (negb (length tail =? tail_size)%nat) unsafe;;
  search_end_record (S (length tail)) tail file_size tail_size (length tail).

(** ** The entries *)

(** [_reject_zip64_extra]; each round moves the cursor on, so [len(extra) + 1] rounds are
    enough. *)
Fixpoint reject_zip64_extra_from {W} (fuel : nat) (extra : bytes) (cursor : nat) : M W unit :=
  match fuel with
  | O => raise (PyExn AssertionError)
  | S fuel =>
      if (cursor <? length extra)%nat then
        raise_if (length extra <? cursor + 4)%nat unsafe;;
        let field_type := le_combine (slice cursor (cursor + 2) extra) in
        let field_size := le_combine (slice (cursor + 2) (cursor + 4) extra) in
        let field_end := (cursor + 4 + Z.to_nat field_size)%nat in
        raise_if (length extra <? field_end)%nat unsafe;;
        raise_if (field_type =? ZIP64_EXTRA_FIELD) unsafe;;
        reject_zip64_extra_from fuel extra field_end
      else mret tt
  end.
Definition reject_zip64_extra {W} (extra : bytes) : M W unit :=
  reject_zip64_extra_from (S (length extra)) extra 0.

(** One round of [_validate_central_directory]: the cursor after the entry. *)
Definition validate_central_entry {W} (directory : bytes) (end_record : ZipEndRecord)
    (cursor : nat) : M W nat :=
  let header_end := (cursor + ZIP_CENTRAL_HEADER_size)%nat in
  raise_if (length directory <? header_end)%nat unsafe;;
  let header := unpack_from ZIP_CENTRAL_FIELDS directory cursor in
  raise_if (negb (bool_decide (fst header = ZIP_CENTRAL_SIGNATURE))) unsafe;;
  let compressed_size := header_field header 8 in
  let file_size := header_field header 9 in
  let name_size := Z.to_nat (header_field header 10) in
  let extra_size := Z.to_nat (header_field header 11) in
  let comment_size := Z.to_nat (header_field header 12) in
  let disk_number := header_field header 13 in
  let local_header_offset := header_field header 16 in
  let entry_end := (header_end + name_size + extra_size + comment_size)%nat in
  raise_if (length directory <? entry_end)%nat unsafe;;
  raise_if (negb (disk_number =? 0)) unsafe;;
  raise_if (bool_decide (0xFFFFFFFF ∈ [compressed_size; file_size; local_header_offset])) unsafe;;
  raise_if (directory_offset end_record <=? local_header_offset) unsafe;;
  let name_end := (header_end + name_size)%nat in
  raise_if (bool_decide (0 ∈ slice header_end name_end directory)) unsafe;;
  let extra_end := (name_end + extra_size)%nat in
  reject_zip64_extra (slice name_end extra_end directory);;
  mret entry_end.

Fixpoint validate_central_entries {W} (count : nat) (directory : bytes) (end_record : ZipEndRecord)
    (cursor : nat) : M W nat :=
  match count with
  | O => mret cursor
  | S count =>
      cursor ← validate_central_entry directory end_record cursor;
      validate_central_entries count directory end_record cursor
  end.

Definition validate_central_directory {W} (directory : bytes) (end_record : ZipEndRecord)
    : M W unit :=
  cursor ← validate_central_entries (Z.to_nat (entries end_record)) directory end_record 0;
  raise_if (negb (cursor =? length directory)%nat) unsafe.

Definition preflight_zip {W} (spool : bytes) (file_size : nat) (limits : CompressionLimits)
    : M W unit :=
  end_record ← read_zip_end_record spool file_size;
  raise_if (maximum_zip_entries limits <? entries end_record) unsafe;;
  raise_if (maximum_zip_directory_bytes limits <? directory_size end_record) unsafe;;
  let directory_end := directory_offset end_record + directory_size end_record in
  raise_if (negb (directory_end =? record_offset end_record)) unsafe;;
  let directory := take (Z.to_nat (directory_size end_record))
                        (drop (Z.to_nat (directory_offset end_record)) spool) in
  raise_if (negb (py_len directory =? directory_size end_record)) unsafe;;
  validate_central_directory directory end_record.
