(* ===== verification/ZipDirectoryFacts.v ===== *)
(** The grammar of the ZIP archives that [_preflight_zip] lets through: what the scan of
    [ZipDirectory.v] accepts is exactly what these encoders write. *)
From S2P Require Import Prelude Errors Effects Text ZipDirectory.

(** ** The grammar *)

Definition encode_extra_field (f : Z * bytes) : bytes :=
  le_split 2 f.1 ++ le_split 2 (py_len f.2) ++ f.2.
Definition encode_extra (fs : list (Z * bytes)) : bytes := concat (map encode_extra_field fs).
Definition extra_ok (f : Z * bytes) : Prop :=
  fits 2 f.1 /\ fits 2 (py_len f.2) /\ f.1 <> ZIP64_EXTRA_FIELD.

Record central_entry := {
  ce_versions : Z * Z;
  ce_flags : Z;
  ce_method : Z;
  ce_time_date : Z * Z;
  ce_crc : Z;
  ce_compressed_size : Z;
  ce_file_size : Z;
  ce_name : bytes;
  ce_extra : list (Z * bytes);
  ce_comment : bytes;
  ce_attributes : Z * Z;
  ce_offset : Z
}.
Definition central_values (e : central_entry) : list Z :=
  [(ce_versions e).1; (ce_versions e).2; ce_flags e; ce_method e; (ce_time_date e).1;
   (ce_time_date e).2; ce_crc e; ce_compressed_size e; ce_file_size e; py_len (ce_name e);
   py_len (encode_extra (ce_extra e)); py_len (ce_comment e); 0; (ce_attributes e).1;
   (ce_attributes e).2; ce_offset e].
Definition encode_entry (e : central_entry) : bytes :=
  ZIP_CENTRAL_SIGNATURE ++ pack_fields ZIP_CENTRAL_FIELDS (central_values e)
  ++ ce_name e ++ encode_extra (ce_extra e) ++ ce_comment e.

(** An entry of one disk, without ZIP64 sizes or fields, for a member before the
    directory, whose name holds no NUL. *)
Definition entry_ok (offset : Z) (e : central_entry) : Prop :=
  all_fit ZIP_CENTRAL_FIELDS (central_values e) /\
  (0xFFFFFFFF ∉ [ce_compressed_size e; ce_file_size e; ce_offset e]) /\
  ce_offset e < offset /\ (0 ∉ ce_name e) /\ Forall extra_ok (ce_extra e).

Definition encode_directory (es : list central_entry) : bytes := concat (map encode_entry es).

(** A check: it leaves the state alone and its only exception is [UnsafeArchiveError]. *)
Definition checks {W A} (m : M W A) : Prop :=
  forall w, wp m (fun _ w' => w' = w) (fun e w' => e = unsafe /\ w' = w) w.

Lemma guard_false {W A} e (m : M W A) w : (raise_if false e ;; m) w = m w.
Proof. done. Qed.
Lemma checks_ret {W A} (a : A) : checks (W := W) (mret a).
Proof. intros w. by wp_step. Qed.
Lemma checks_raise {W A} : checks (raise unsafe : M W A).
Proof. intros w. by wp_step. Qed.
Lemma checks_bind {W A B} (m : M W A) (f : A -> M W B) :
  checks m -> (forall a w w', m w = (Returned a, w') -> checks (f a)) -> checks (m ≫= f).
Proof.
  intros Hm Hf w. wp_step. specialize (Hm w). apply wp_intro.
  - intros a w' E. pose proof (wp_returned _ _ _ _ _ _ Hm E) as ->. by eapply Hf.
  - intros e w' E. exact (wp_raised _ _ _ _ _ _ Hm E).
Qed.
Lemma checks_raise_if {W} b : checks (raise_if b unsafe : M W unit).
Proof. destruct b; [apply checks_raise|apply checks_ret]. Qed.
Lemma checks_guard {W A} b (m : M W A) :
  (b = false -> checks m) -> checks (raise_if b unsafe ;; m).
Proof. intros Hm w. wp_step. wp_step; [done|]. by apply Hm. Qed.

(** ** Slices *)

Lemma slice_drop (a lo hi : nat) (l : bytes) : slice (a + lo) (a + hi) l = slice lo hi (drop a l).
Proof. unfold slice. rewrite drop_drop. f_equal. lia. Qed.
Lemma slice_all (n : nat) (l : bytes) : slice 0 n l = take n l.
Proof. unfold slice. by rewrite Nat.sub_0_r, drop_0. Qed.
Lemma slice_length (lo hi : nat) (l : bytes) : (lo <= hi <= length l)%nat ->
  length (slice lo hi l) = (hi - lo)%nat.
Proof. intros. unfold slice. rewrite length_take, length_drop. lia. Qed.
Lemma slice_lookup (lo hi i : nat) (l : bytes) : (i < hi - lo)%nat ->
  slice lo hi l !! i = l !! (lo + i)%nat.
Proof. intros. unfold slice. rewrite lookup_take_lt by lia. apply lookup_drop. Qed.
Lemma slice_app (a b c : nat) (l : bytes) : (a <= b <= c)%nat ->
  slice a c l = slice a b l ++ slice b c l.
Proof.
  intros. unfold slice. replace (drop b l) with (drop (b - a) (drop a l)).
  - rewrite take_take_drop. f_equal. lia.
  - rewrite drop_drop. f_equal. lia.
Qed.
Lemma slice_bytes (lo hi : nat) (l : bytes) : Forall is_byte l -> Forall is_byte (slice lo hi l).
Proof. intros. by apply Forall_take, Forall_drop. Qed.

(** ** Extra fields *)

Lemma encode_extra_field_length f :
  length (encode_extra_field f) = (4 + length f.2)%nat.
Proof. unfold encode_extra_field. rewrite !length_app, !le_split_length. lia. Qed.

Lemma extra_field_slices (f : Z * bytes) rest : extra_ok f ->
  le_combine (slice 0 2 (encode_extra_field f ++ rest)) = f.1 /\
  le_combine (slice 2 4 (encode_extra_field f ++ rest)) = py_len f.2.
Proof.
  intros (Ht & Hs & _). unfold encode_extra_field, slice. rewrite <- !app_assoc. split.
  - rewrite drop_0, take_app_length' by by rewrite le_split_length.
    by apply le_combine_split.
  - rewrite drop_app_length' by by rewrite le_split_length.
    rewrite take_app_length' by by rewrite le_split_length.
    by apply le_combine_split.
Qed.

Lemma reject_extra_complete {W} fuel extra fs cursor (w : W) :
  drop cursor extra = encode_extra fs -> (cursor <= length extra)%nat -> Forall extra_ok fs ->
  (length extra - cursor < fuel)%nat ->
  reject_zip64_extra_from fuel extra cursor w = (Returned tt, w).
Proof.
  revert fuel cursor. induction fs as [|f fs IH]; intros [|fuel] cursor Hd Hc Hok Hf; try lia.
  - apply (f_equal length) in Hd. rewrite length_drop in Hd. cbn in Hd. cbn [reject_zip64_extra_from].
    replace (cursor <? length extra)%nat with false; [done|]. symmetry. apply Nat.ltb_ge. lia.
  - apply Forall_cons in Hok as [Hok Hoks]. cbn [reject_zip64_extra_from].
    change (encode_extra (f :: fs)) with (encode_extra_field f ++ encode_extra fs) in Hd.
    destruct (extra_field_slices f (encode_extra fs) Hok) as [Et Es]. rewrite <- Hd in Et, Es.
    rewrite <- !slice_drop, Nat.add_0_r in Et. rewrite <- slice_drop in Es.
    pose proof (f_equal length Hd) as Hl.
    rewrite length_drop, length_app, encode_extra_field_length in Hl.
    rewrite (proj2 (Nat.ltb_lt cursor (length extra))) by lia.
    rewrite Et, Es. unfold py_len. rewrite Nat2Z.id.
    rewrite (proj2 (Nat.ltb_ge (length extra) (cursor + 4))) by lia.
    rewrite (proj2 (Nat.ltb_ge (length extra) (cursor + 4 + length f.2))) by lia.
    destruct Hok as (_ & _ & Hne). rewrite (proj2 (Z.eqb_neq _ _) Hne).
    apply IH; try done; [|lia|lia].
    replace (cursor + 4 + length f.2)%nat with (cursor + length (encode_extra_field f))%nat
      by (rewrite encode_extra_field_length; lia).
    by rewrite <- drop_drop, Hd, drop_app_length.
Qed.

Lemma reject_extra_sound {W} fuel extra cursor (w w' : W) :
  Forall is_byte extra ->
  reject_zip64_extra_from fuel extra cursor w = (Returned tt, w') ->
  w' = w /\ exists fs, drop cursor extra = encode_extra fs /\ Forall extra_ok fs.
Proof.
  intros Hb. revert cursor w. induction fuel as [|fuel IH]; intros cursor w; [done|].
  cbn [reject_zip64_extra_from]. destruct (Nat.ltb_spec cursor (length extra)) as [Hc|Hc].
  - set (t := le_combine (slice cursor (cursor + 2) extra)).
    set (z := le_combine (slice (cursor + 2) (cursor + 4) extra)).
    intros [H4 [Hz [Ht H]%guard_returned]%guard_returned]%guard_returned.
    apply Nat.ltb_ge in H4, Hz. apply Z.eqb_neq in Ht.
    apply IH in H as (-> & fs & Hfs & Hok). split; [done|].
    set (d := drop cursor extra) in *.
    assert (Hd : Forall is_byte d) by by apply Forall_drop.
    assert (Hlt : length (slice cursor (cursor + 2) extra) = 2%nat) by (rewrite slice_length; lia).
    assert (Hlz : length (slice (cursor + 2) (cursor + 4) extra) = 2%nat) by (rewrite slice_length; lia).
    pose proof (le_combine_fits _ (slice_bytes cursor (cursor + 2) extra Hb)) as Hft.
    pose proof (le_combine_fits _ (slice_bytes (cursor + 2) (cursor + 4) extra Hb)) as Hfz.
    pose proof (le_split_combine _ (slice_bytes cursor (cursor + 2) extra Hb)) as Et.
    pose proof (le_split_combine _ (slice_bytes (cursor + 2) (cursor + 4) extra Hb)) as Ez.
    rewrite Hlt in Hft, Et. rewrite Hlz in Hfz, Ez. fold t in Hft, Et. fold z in Hfz, Ez.
    set (data := slice (cursor + 4) (cursor + 4 + Z.to_nat z) extra).
    assert (Hdata : py_len data = z).
    { unfold py_len, data. rewrite slice_length by lia. unfold fits in Hfz. lia. }
    exists ((t, data) :: fs). split.
    + change (encode_extra ((t, data) :: fs)) with (encode_extra_field (t, data) ++ encode_extra fs).
      unfold encode_extra_field, fst, snd. rewrite Hdata, Et, Ez.
      rewrite <- Hfs. unfold data, d.
      rewrite <- (take_drop (4 + Z.to_nat z) (drop cursor extra)) at 1.
      rewrite drop_drop, Nat.add_assoc. f_equal.
      rewrite <- slice_app by lia. rewrite <- slice_app by lia. unfold slice. f_equal. lia.
    + constructor; [|done]. split; [done|split; [|done]]. cbn [snd]. by rewrite Hdata.
  - intros [= <-]. split; [done|]. exists []. split; [|constructor]. by apply drop_ge.
Qed.

Lemma reject_extra_checks {W} fuel extra cursor :
  Forall is_byte extra -> (length extra - cursor < fuel)%nat ->
  checks (@reject_zip64_extra_from W fuel extra cursor).
Proof.
  revert cursor. induction fuel as [|fuel IH]; intros cursor Hb Hf w; [lia|].
  cbn [reject_zip64_extra_from]. destruct (Nat.ltb_spec cursor (length extra)); [|by wp_step].
  revert w. apply checks_guard. intros _. apply checks_guard. intros _. apply checks_guard.
  intros _. apply IH; [done|lia].
Qed.

(** ** Entries *)

Lemma central_fixed_length e :
  length (pack_fields ZIP_CENTRAL_FIELDS (central_values e)) = 42%nat.
Proof. by rewrite pack_fields_length. Qed.

Lemma encode_entry_length e : length (encode_entry e) =
  (46 + length (ce_name e) + length (encode_extra (ce_extra e)) + length (ce_comment e))%nat.
Proof.
  unfold encode_entry. rewrite !length_app, central_fixed_length.
  change (length ZIP_CENTRAL_SIGNATURE) with 4%nat. lia.
Qed.

(** Where the parts of an encoded entry lie. *)
Lemma entry_parts directory cursor e rest :
  drop cursor directory = encode_entry e ++ rest -> all_fit ZIP_CENTRAL_FIELDS (central_values e) ->
  let h := (cursor + 46)%nat in
  let n := length (ce_name e) in let x := length (encode_extra (ce_extra e)) in
  unpack_from ZIP_CENTRAL_FIELDS directory cursor = (ZIP_CENTRAL_SIGNATURE, central_values e) /\
  slice h (h + n) directory = ce_name e /\
  slice (h + n) (h + n + x) directory = encode_extra (ce_extra e).
Proof.
  intros Hd Hv h n x. set (fixed := pack_fields ZIP_CENTRAL_FIELDS (central_values e)) in *.
  assert (H4 : drop (cursor + 4) directory =
    fixed ++ ce_name e ++ encode_extra (ce_extra e) ++ ce_comment e ++ rest).
  { rewrite <- drop_drop, Hd. unfold encode_entry. by rewrite <- !app_assoc. }
  assert (H46 : drop h directory = ce_name e ++ encode_extra (ce_extra e) ++ ce_comment e ++ rest).
  { unfold h. replace (cursor + 46)%nat with (cursor + 4 + 42)%nat by lia.
    rewrite <- drop_drop, H4. apply drop_app_length'. symmetry. apply central_fixed_length. }
  split; [|split].
  - unfold unpack_from. rewrite H4. f_equal; [|by apply unpack_pack].
    rewrite <- (Nat.add_0_r cursor) at 1. rewrite slice_drop, Hd. reflexivity.
  - rewrite <- (Nat.add_0_r h) at 1. rewrite slice_drop, slice_all, H46. apply take_app_length.
  - rewrite <- Nat.add_assoc, slice_drop, H46. unfold slice, n.
    rewrite drop_app_length.
    replace (length (ce_name e) + x - length (ce_name e))%nat with x by lia.
    apply take_app_length.
Qed.

Lemma validate_entry_complete {W} directory er cursor e rest (w : W) :
  drop cursor directory = encode_entry e ++ rest -> (cursor <= length directory)%nat ->
  entry_ok (directory_offset er) e ->
  validate_central_entry directory er cursor w
    = (Returned (cursor + length (encode_entry e))%nat, w).
Proof.
  intros Hd Hc (Hv & H32 & Ho & Hn & Hx).
  pose proof (f_equal length Hd) as Hl. rewrite length_drop, length_app in Hl.
  pose proof (encode_entry_length e) as He.
  destruct (entry_parts _ _ _ _ Hd Hv) as (Hh & Hname & Hextra).
  unfold validate_central_entry. rewrite Hh. unfold ZIP_CENTRAL_HEADER_size.
  unfold header_field, fst, snd. cbn [central_values nth Nat.sub]. unfold py_len.
  rewrite !Nat2Z.id. apply guard_returned. split; [apply Nat.ltb_ge; lia|].
  apply guard_returned. split; [done|]. apply guard_returned. split; [apply Nat.ltb_ge; lia|].
  apply guard_returned. split; [done|].
  apply guard_returned. split; [by apply bool_decide_eq_false_2|].
  apply guard_returned. split; [apply Z.leb_gt; lia|]. rewrite Hname, Hextra.
  apply guard_returned. split; [by apply bool_decide_eq_false_2|].
  apply bind_returned. exists tt, w. split; [|cbv [mret M_ret]; do 2 f_equal; lia].
  apply (reject_extra_complete _ _ (ce_extra e)); [done|lia|done|lia].
Qed.

Lemma central_fields data : exists v1 v2 v3 v4 v5 v6 v7 v8 v9 v10 v11 v12 v13 v14 v15 v16,
  unpack_fields ZIP_CENTRAL_FIELDS data
    = [v1; v2; v3; v4; v5; v6; v7; v8; v9; v10; v11; v12; v13; v14; v15; v16].
Proof. cbn [unpack_fields ZIP_CENTRAL_FIELDS]. by do 16 eexists. Qed.

Lemma all_fit_nonneg widths values : all_fit widths values -> Forall (fun v => 0 <= v) values.
Proof. induction 1 as [|n v ws vs [Hv _] _ IH]; by constructor. Qed.

(** Cutting a directory at a header and its three variable parts. *)
Lemma entry_split directory cursor (n x k : nat) :
  let h := (cursor + 46)%nat in
  Forall is_byte directory -> (h + n + x + k <= length directory)%nat ->
  drop cursor directory = slice cursor (cursor + 4) directory
    ++ pack_fields ZIP_CENTRAL_FIELDS (unpack_fields ZIP_CENTRAL_FIELDS (drop (cursor + 4) directory))
    ++ slice h (h + n) directory ++ slice (h + n) (h + n + x) directory
    ++ slice (h + n + x) (h + n + x + k) directory ++ drop (h + n + x + k) directory.
Proof.
  intros h Hb Hl. rewrite (app_assoc (slice h _ _)), <- slice_app by lia.
  rewrite (app_assoc (slice h _ _)), <- slice_app by lia.
  assert (Hlast : slice h (h + n + x + k) directory ++ drop (h + n + x + k) directory = drop h directory).
  { unfold slice. replace (h + n + x + k)%nat with (h + (n + x + k))%nat by lia.
    rewrite <- drop_drop. replace (h + (n + x + k) - h)%nat with (n + x + k)%nat by lia. apply take_drop. }
  rewrite Hlast. replace h with (cursor + 4 + 42)%nat by lia. rewrite <- (drop_drop _ 42).
  rewrite <- (pack_unpack ZIP_CENTRAL_FIELDS) by
    (by apply Forall_drop || (rewrite length_drop; change (layout_size _) with 42%nat; lia)).
  unfold slice. rewrite <- drop_drop. replace (cursor + 4 - cursor)%nat with 4%nat by lia.
  by rewrite take_drop.
Qed.

Lemma validate_entry_sound {W} directory er cursor c' (w w' : W) :
  Forall is_byte directory ->
  validate_central_entry directory er cursor w = (Returned c', w') ->
  w' = w /\ (c' <= length directory)%nat /\ exists e,
    drop cursor directory = encode_entry e ++ drop c' directory /\
    entry_ok (directory_offset er) e.
Proof.
  intros Hb. unfold validate_central_entry, ZIP_CENTRAL_HEADER_size, unpack_from, header_field.
  cbn [fst snd].
  destruct (central_fields (drop (cursor + 4) directory)) as
    (v1&v2&v3&v4&v5&v6&v7&v8&v9&v10&v11&v12&v13&v14&v15&v16&Ev).
  rewrite Ev. cbn [nth Nat.sub].
  intros [H46 [Hsig [Hend [Hdisk [H32 [Hoff [Hnul H]%guard_returned]%guard_returned]%guard_returned
    ]%guard_returned]%guard_returned]%guard_returned]%guard_returned.
  apply Nat.ltb_ge in H46, Hend. reflect_bools. apply bind_returned in H as ([] & w1 & Hx & [= <- <-]).
  set (n := Z.to_nat v10) in *. set (x := Z.to_nat v11) in *. set (k := Z.to_nat v12) in *.
  set (h := (cursor + 46)%nat) in *.
  apply reject_extra_sound in Hx as (-> & fs & Hfs & Hok); [|by apply slice_bytes].
  rewrite drop_0 in Hfs.
  pose proof (unpack_all_fit ZIP_CENTRAL_FIELDS (drop (cursor + 4) directory)) as Hfit.
  pose proof (entry_split directory cursor n x k Hb Hend) as Hcut.
  change (layout_size ZIP_CENTRAL_FIELDS) with 42%nat in *. rewrite Ev, length_drop in *.
  specialize (Hfit (Forall_drop _ _ _ Hb) ltac:(lia)).
  assert (0 <= v10 /\ 0 <= v11 /\ 0 <= v12) as (? & ? & ?).
  { pose proof (all_fit_nonneg _ _ Hfit) as H0. rewrite Forall_forall in H0.
    split_and!; apply H0; set_solver. }
  assert (Lx : length (encode_extra fs) = x) by (rewrite <- Hfs, slice_length; lia).
  assert (Ln : length (slice h (h + n) directory) = n) by (rewrite slice_length; lia).
  assert (Lk : length (slice (h + n + x) (h + n + x + k) directory) = k) by (rewrite slice_length; lia).
  set (e := {| ce_versions := (v1, v2); ce_flags := v3; ce_method := v4; ce_time_date := (v5, v6);
    ce_crc := v7; ce_compressed_size := v8; ce_file_size := v9; ce_name := slice h (h + n) directory;
    ce_extra := fs; ce_comment := slice (h + n + x) (h + n + x + k) directory;
    ce_attributes := (v14, v15); ce_offset := v16 |}).
  assert (Hv : central_values e
    = [v1; v2; v3; v4; v5; v6; v7; v8; v9; v10; v11; v12; v13; v14; v15; v16]).
  { unfold central_values, e, py_len. cbn [ce_versions ce_flags ce_method ce_time_date ce_crc
      ce_compressed_size ce_file_size ce_name ce_extra ce_comment ce_attributes ce_offset fst snd].
    rewrite Lx, Ln, Lk. unfold n, x, k. rewrite !Z2Nat.id by done. by rewrite Hdisk. }
  split; [done|]. split; [lia|]. exists e. split.
  - unfold encode_entry. rewrite Hv, Hcut, <- Hsig, <- !app_assoc. cbn [ce_name ce_extra ce_comment e].
    by rewrite <- Hfs.
  - unfold entry_ok. rewrite Hv. by split_and!.
Qed.

(** ** The directory *)

Lemma validate_entries_complete {W} directory er es cursor rest (w : W) :
  drop cursor directory = encode_directory es ++ rest -> (cursor <= length directory)%nat ->
  Forall (entry_ok (directory_offset er)) es ->
  validate_central_entries (length es) directory er cursor w
    = (Returned (cursor + length (encode_directory es))%nat, w).
Proof.
  revert cursor. induction es as [|e es IH]; intros cursor Hd Hc Hok.
  - cbn. by rewrite Nat.add_0_r.
  - apply Forall_cons in Hok as [He Hok]. cbn [length validate_central_entries].
    change (encode_directory (e :: es)) with (encode_entry e ++ encode_directory es) in *.
    rewrite <- app_assoc in Hd. apply bind_returned. eexists _, w.
    split; [by eapply validate_entry_complete|].
    rewrite length_app, Nat.add_assoc. apply IH; [|clear IH|done].
    + by rewrite <- drop_drop, Hd, drop_app_length.
    + apply (f_equal length) in Hd. rewrite length_drop, !length_app in Hd.
      pose proof (encode_entry_length e). lia.
Qed.

Lemma validate_entries_sound {W} directory er count cursor c' (w w' : W) :
  Forall is_byte directory -> (cursor <= length directory)%nat ->
  validate_central_entries count directory er cursor w = (Returned c', w') ->
  w' = w /\ (c' <= length directory)%nat /\ exists es, length es = count /\
    drop cursor directory = encode_directory es ++ drop c' directory /\
    Forall (entry_ok (directory_offset er)) es.
Proof.
  intros Hb. revert cursor w. induction count as [|count IH]; intros cursor w Hc.
  - intros [= <- <-]. split_and!; [done|done|]. by exists [].
  - intros (c1 & w1 & (-> & Hc1 & e & Hd & He)%validate_entry_sound & H)%bind_returned; [|done].
    apply IH in H as (-> & Hl & es & Hes & Hds & Hok); [|done]. split_and!; [done|done|].
    exists (e :: es). split_and!; [by cbn; rewrite Hes| |by constructor].
    rewrite Hd, Hds. change (encode_directory (e :: es)) with (encode_entry e ++ encode_directory es).
    by rewrite <- app_assoc.
Qed.

Lemma validate_directory_iff {W} directory er (w w' : W) :
  Forall is_byte directory -> 0 <= entries er ->
  validate_central_directory directory er w = (Returned tt, w') <->
  w' = w /\ exists es, py_len es = entries er /\ directory = encode_directory es /\
    Forall (entry_ok (directory_offset er)) es.
Proof.
  intros Hb H0. unfold validate_central_directory. split.
  - intros (c & w1 & H & Hc)%bind_returned. apply validate_entries_sound in H as (-> & _ & es & Hn & Hd & Hok);
      [|done|lia]. unfold raise_if in Hc. destruct (Nat.eqb_spec c (length directory)) as [->|]; [|done].
    injection Hc as <-. split; [done|]. exists es. rewrite drop_0, drop_all, app_nil_r in Hd.
    split_and!; [unfold py_len; lia|done|done].
  - intros (-> & es & Hn & Hd & Hok). apply bind_returned.
    exists (0 + length (encode_directory es))%nat, w. unfold py_len in Hn. split.
    + rewrite <- Hn, Nat2Z.id. apply (validate_entries_complete _ _ _ _ []); [|lia|done].
      by rewrite app_nil_r.
    + by rewrite Hd, Nat.eqb_refl.
Qed.

Lemma validate_entry_checks {W} directory er cursor :
  Forall is_byte directory -> checks (@validate_central_entry W directory er cursor).
Proof.
  intros Hb. unfold validate_central_entry. do 7 (apply checks_guard; intros _).
  apply checks_bind; [|intros; apply checks_ret].
  apply reject_extra_checks; [by apply slice_bytes|]. lia.
Qed.

Lemma validate_directory_checks {W} directory er :
  Forall is_byte directory -> checks (@validate_central_directory W directory er).
Proof.
  intros Hb. unfold validate_central_directory. apply checks_bind.
  - generalize 0%nat. induction (Z.to_nat (entries er)) as [|count IH]; intros cursor;
      cbn [validate_central_entries]; [apply checks_ret|].
    apply checks_bind; [by apply validate_entry_checks|]. intros. apply IH.
  - intros. apply checks_raise_if.
Qed.

(** ** The end record *)

Definition comment_size (data : bytes) (i : nat) : Z :=
  header_field (unpack_from ZIP_END_FIELDS data i) 7.

(** An end record of [data] at [i]: the signature, and a comment that ends the data. *)
Definition end_record_at (data : bytes) (i : nat) : Prop :=
  slice i (i + 4) data = ZIP_END_SIGNATURE /\ (i + 22 <= length data)%nat /\
  Z.of_nat (i + 22) + comment_size data i = py_len data.
#[export] Instance end_record_at_dec data i : Decision (end_record_at data i) := _.

(** What the loop does with the record it stops at. *)
Definition checked_record {W} (tail : bytes) (base i : nat) : M W ZipEndRecord :=
  let unpacked := unpack_from ZIP_END_FIELDS tail i in
  raise_if ((20 <=? i)%nat
            && bool_decide (slice (i - 20) (i - 16) tail = ZIP64_LOCATOR_SIGNATURE)) unsafe;;
  raise_if (negb (header_field unpacked 1 =? 0) || negb (header_field unpacked 2 =? 0)
            || negb (header_field unpacked 3 =? header_field unpacked 4)) unsafe;;
  raise_if ((header_field unpacked 4 =? 0xFFFF) || (header_field unpacked 5 =? 0xFFFFFFFF)
            || (header_field unpacked 6 =? 0xFFFFFFFF)) unsafe;;
  mret {| entries := header_field unpacked 4; directory_size := header_field unpacked 5;
          directory_offset := header_field unpacked 6; record_offset := Z.of_nat (base + i) |}.

Lemma rfind_spec signature data e :
  match rfind signature data e with
  | Some i => (i + 4 <= e)%nat /\ slice i (i + 4) data = signature /\
      forall j, (i < j)%nat -> (j + 4 <= e)%nat -> slice j (j + 4) data <> signature
  | None => forall j, (j + 4 <= e)%nat -> slice j (j + 4) data <> signature
  end.
Proof.
  induction e as [|e IH]; [intros j ?; lia|].
  destruct e as [|[|[|i]]]; [intros j ?; lia..|].
  cbn [rfind]. case_bool_decide as Hi.
  - split_and!; [lia|done|]. intros j ? ?. lia.
  - cbn [rfind] in IH. destruct (match i with O => None | S _ => _ end) as [k|] eqn:Hk;
      [destruct IH as (? & ? & IH); split_and!; [lia|done|]; intros j ? Hj; destruct (decide (j = i)) as [->|]; [done|apply IH; lia]
      |intros j Hj; destruct (decide (j = i)) as [->|]; [done|apply IH; lia]].
Qed.

(** Two signatures do not overlap. *)
Lemma end_signature_apart data i j :
  slice i (i + 4) data = ZIP_END_SIGNATURE -> slice j (j + 4) data = ZIP_END_SIGNATURE ->
  (i < j)%nat -> (i + 4 <= j)%nat.
Proof.
  intros Hi Hj Hij. destruct (decide (i + 4 <= j)%nat) as [|Hn]; [done|exfalso].
  assert (E : forall k, (k < 4)%nat -> data !! (i + k)%nat = ZIP_END_SIGNATURE !! k /\
                                data !! (j + k)%nat = ZIP_END_SIGNATURE !! k).
  { intros k Hk. rewrite <- (slice_lookup i (i + 4)), <- (slice_lookup j (j + 4)) by lia.
    by rewrite Hi, Hj. }
  destruct (E 0%nat ltac:(lia)) as [_ H0]. destruct (E (j - i)%nat ltac:(lia)) as [H1 _].
  replace (i + (j - i))%nat with (j + 0)%nat in H1 by lia. rewrite H0 in H1.
  assert (j - i = 1 \/ j - i = 2 \/ j - i = 3)%nat as [H|[H|H]] by lia; by rewrite H in H1.
Qed.

Definition last_end_record (data : bytes) (i : nat) : Prop :=
  end_record_at data i /\ forall j, end_record_at data j -> (j <= i)%nat.

Lemma search_round {W} fuel tail file_size tail_size e (w : W) :
  search_end_record (S fuel) tail file_size tail_size e w =
  match rfind ZIP_END_SIGNATURE tail e with
  | None => raise unsafe w
  | Some i => if decide (end_record_at tail i) then checked_record tail (file_size - tail_size) i w
              else search_end_record fuel tail file_size tail_size i w
  end.
Proof.
  cbn [search_end_record]. pose proof (rfind_spec ZIP_END_SIGNATURE tail e) as Hr.
  destruct (rfind _ _ _) as [i|]; [|done]. destruct Hr as (_ & Hi & _).
  unfold end_record_at, comment_size, ZIP_END_RECORD_size.
  destruct (Nat.ltb_spec (length tail) (i + 22)); [by rewrite decide_False by (intros (_ & ? & _); lia)|].
  destruct (Z.eqb_spec (Z.of_nat (i + 22) + header_field (unpack_from ZIP_END_FIELDS tail i) 7) (py_len tail)).
  - by rewrite decide_True.
  - by rewrite decide_False by (intros (_ & _ & ?); lia).
Qed.

(** The loop stops at the last end record. *)
Lemma search_spec {W} fuel tail file_size tail_size e (w : W) :
  (forall j, end_record_at tail j -> (j + 4 <= e)%nat) -> (e < fuel)%nat ->
  (exists i, last_end_record tail i /\
     search_end_record fuel tail file_size tail_size e w
       = checked_record tail (file_size - tail_size) i w) \/
  ((forall j, ~ end_record_at tail j) /\
     search_end_record fuel tail file_size tail_size e w = raise unsafe w).
Proof.
  revert e. induction fuel as [|fuel IH]; intros e He Hf; [lia|]. rewrite search_round.
  pose proof (rfind_spec ZIP_END_SIGNATURE tail e) as Hr.
  destruct (rfind _ _ _) as [i|].
  - destruct Hr as (Hie & Hi & Hlast).
    assert (Hle : forall j, end_record_at tail j -> (j <= i)%nat).
    { intros j Hj. destruct (decide (j <= i)%nat) as [|Hn]; [done|].
      destruct (Hlast j); [lia|by apply He|by destruct Hj]. }
    case_decide as Hc; [left; by exists i|]. apply IH; [|lia].
    intros j Hj. apply (end_signature_apart tail); [by destruct Hj|done|].
    pose proof (Hle j Hj). destruct (decide (j = i)) as [->|]; [done|lia].
  - right. split; [|done]. intros j Hj. apply (Hr j); [by apply He|by destruct Hj].
Qed.

(** Records of a suffix of the data. *)
Lemma end_record_at_drop data base i : (base <= length data)%nat ->
  end_record_at (drop base data) i <-> end_record_at data (base + i).
Proof.
  intros Hb. unfold end_record_at, comment_size, unpack_from, py_len.
  rewrite !length_drop, !drop_drop, <- !Nat.add_assoc, <- slice_drop.
  split; intros (? & ? & ?); split_and!; try done; lia.
Qed.

Lemma end_fields data : exists v1 v2 v3 v4 v5 v6 v7,
  unpack_fields ZIP_END_FIELDS data = [v1; v2; v3; v4; v5; v6; v7].
Proof. cbn [unpack_fields ZIP_END_FIELDS]. by do 7 eexists. Qed.

Lemma comment_size_bounds data i : Forall is_byte data -> end_record_at data i ->
  0 <= comment_size data i <= 65535.
Proof.
  intros Hb (_ & Hl & _). unfold comment_size, header_field, unpack_from. cbn [snd].
  pose proof (unpack_all_fit ZIP_END_FIELDS (drop (i + 4) data)) as Hfit.
  destruct (end_fields (drop (i + 4) data)) as (v1&v2&v3&v4&v5&v6&v7&Ev).
  rewrite Ev in *. change (layout_size ZIP_END_FIELDS) with 18%nat in Hfit. rewrite length_drop in Hfit.
  specialize (Hfit (Forall_drop _ _ _ Hb) ltac:(lia)). cbn [nth Nat.sub].
  pose proof (Forall2_lookup_lr _ _ _ 6%nat 2%nat v7 Hfit eq_refl eq_refl) as H7. clear Hfit.
  unfold fits in H7. change (256 ^ Z.of_nat 2) with 65536 in H7. lia.
Qed.

(** What [_read_zip_end_record] searches: all but the bytes before the last 65557. *)
Definition tail_base (data : bytes) : nat := (length data - (22 + ZIP_MAXIMUM_COMMENT_BYTES))%nat.

Lemma ZIP_MAXIMUM_COMMENT_BYTES_eq : Z.of_nat ZIP_MAXIMUM_COMMENT_BYTES = 65535.
Proof. unfold ZIP_MAXIMUM_COMMENT_BYTES. by rewrite Z2Nat.id. Qed.
#[local] Opaque ZIP_MAXIMUM_COMMENT_BYTES.

Lemma end_record_in_tail data i : Forall is_byte data -> end_record_at data i ->
  (tail_base data <= i)%nat.
Proof.
  intros Hb Hi. pose proof (comment_size_bounds _ _ Hb Hi). destruct Hi as (_ & Hl & Hc).
  pose proof ZIP_MAXIMUM_COMMENT_BYTES_eq. unfold tail_base, py_len in *. lia.
Qed.

Lemma read_end_record_spec {W} data (w : W) : Forall is_byte data ->
  (exists i, last_end_record data i /\ (tail_base data <= i)%nat /\
     read_zip_end_record data (length data) w
       = checked_record (drop (tail_base data) data) (tail_base data) (i - tail_base data) w) \/
  ((forall i, ~ end_record_at data i) /\ read_zip_end_record data (length data) w = raise unsafe w).
Proof.
  intros Hb. unfold read_zip_end_record, ZIP_END_RECORD_size.
  set (size := Nat.min (length data) (22 + ZIP_MAXIMUM_COMMENT_BYTES)).
  assert (Hbase : (length data - size)%nat = tail_base data) by (unfold tail_base; lia).
  destruct (Nat.ltb_spec (length data) 22) as [|H22].
  { right. split; [|done]. intros i (_ & ? & _). lia. }
  rewrite Hbase. set (base := tail_base data) in *. rewrite take_ge by (rewrite length_drop; lia).
  replace (length (drop base data) =? size)%nat with true
    by (symmetry; apply Nat.eqb_eq; rewrite length_drop; lia).
  cbn [negb]. rewrite !guard_false.
  destruct (search_spec (S (length (drop base data))) (drop base data) (length data) size
    (length (drop base data)) w) as [(k & [Hk Hlast] & E)|[Hno E]];
    [intros j (_ & ? & _); lia|lia| |].
  - left. exists (base + k)%nat. split; [|split; [lia|]].
    + split; [by apply end_record_at_drop; [lia|]|]. intros j Hj.
      pose proof (end_record_in_tail _ _ Hb Hj) as Hbj. fold base in Hbj.
      assert (j - base <= k)%nat; [|lia]. apply Hlast. apply end_record_at_drop; [lia|].
      by replace (base + (j - base))%nat with j by lia.
    + rewrite Hbase in E. replace (base + k - base)%nat with k by lia. exact E.
  - right. split; [|exact E]. intros j Hj. pose proof (end_record_in_tail _ _ Hb Hj) as Hbj.
    fold base in Hbj. apply (Hno (j - base)%nat). apply end_record_at_drop; [lia|].
    by replace (base + (j - base))%nat with j by lia.
Qed.

(** The locator is looked for only where 20 bytes of the searched tail precede the record. *)
Definition no_locator (data : bytes) (i : nat) : Prop :=
  (tail_base data + 20 <= i)%nat -> slice (i - 20) (i - 16) data <> ZIP64_LOCATOR_SIGNATURE.

Lemma checked_record_returned {W} data i (w w' : W) r : (tail_base data <= i)%nat ->
  checked_record (drop (tail_base data) data) (tail_base data) (i - tail_base data) w
    = (Returned r, w') <->
  w' = w /\ no_locator data i /\ exists n size offset,
    unpack_fields ZIP_END_FIELDS (drop (i + 4) data) = [0; 0; n; n; size; offset; comment_size data i] /\
    n <> 0xFFFF /\ size <> 0xFFFFFFFF /\ offset <> 0xFFFFFFFF /\
    r = {| entries := n; directory_size := size; directory_offset := offset;
           record_offset := Z.of_nat i |}.
Proof.
  set (b := tail_base data). intros Hb. unfold checked_record, unpack_from, no_locator, comment_size, header_field.
  fold b. cbn [snd fst unpack_from].
  rewrite drop_drop. replace (b + (i - b + 4))%nat with (i + 4)%nat by lia.
  replace (b + (i - b))%nat with i by lia.
  destruct (end_fields (drop (i + 4) data)) as (v1&v2&v3&v4&v5&v6&v7&->). cbn [nth Nat.sub].
  rewrite !guard_returned.
  assert (Hloc : ((20 <=? i - b)%nat && bool_decide
      (slice (i - b - 20) (i - b - 16) (drop b data) = ZIP64_LOCATOR_SIGNATURE)) = false <->
      ((b + 20 <= i)%nat -> slice (i - 20) (i - 16) data <> ZIP64_LOCATOR_SIGNATURE)).
  { destruct (Nat.leb_spec 20 (i - b)); cbn [andb]; [|split; [lia|done]].
    rewrite bool_decide_eq_false, <- slice_drop.
    replace (b + (i - b - 20))%nat with (i - 20)%nat by lia.
    replace (b + (i - b - 16))%nat with (i - 16)%nat by lia. split; [done|]. intros H'. apply H'. lia. }
  rewrite Hloc. rewrite !orb_false_iff, !negb_false_iff, !Z.eqb_eq, !Z.eqb_neq. split.
  - intros (Hn & ((-> & ->) & ->) & ((H1 & H2) & H3) & [= <- <-]). split_and!; [done|done|].
    by exists v4, v5, v6.
  - intros (-> & Hn & n & size & offset & [= -> -> -> <- -> ->] & H1 & H2 & H3 & ->). by split_and!.
Qed.

(** ** Accepted archives *)

Definition encode_end_record (es : list central_entry) (payload comment : bytes) : bytes :=
  ZIP_END_SIGNATURE ++ pack_fields ZIP_END_FIELDS
    [0; 0; py_len es; py_len es; py_len (encode_directory es); py_len payload; py_len comment].

(** An archive within the limits: the members, a directory that describes them, and the last
    end record, which describes the directory. *)
Record archive_layout (limits : CompressionLimits) (data payload : bytes)
    (es : list central_entry) (comment : bytes) : Prop := {
  al_data : data = payload ++ encode_directory es ++ encode_end_record es payload comment ++ comment;
  al_entries : Forall (entry_ok (py_len payload)) es;
  al_count : py_len es < 0xFFFF /\ py_len es <= maximum_zip_entries limits;
  al_directory : py_len (encode_directory es) < 0xFFFFFFFF /\
    py_len (encode_directory es) <= maximum_zip_directory_bytes limits;
  al_payload : py_len payload < 0xFFFFFFFF;
  al_comment : py_len comment <= 0xFFFF;
  al_last : last_end_record data (length payload + length (encode_directory es));
  al_locator : no_locator data (length payload + length (encode_directory es))
}.

Lemma encode_end_record_length es payload comment :
  length (encode_end_record es payload comment) = 22%nat.
Proof.
  unfold encode_end_record. rewrite length_app, pack_fields_length by done. done.
Qed.

(** The bytes of an end record, from its fields. *)
Lemma end_record_bytes data i vs : Forall is_byte data -> end_record_at data i ->
  unpack_fields ZIP_END_FIELDS (drop (i + 4) data) = vs ->
  all_fit ZIP_END_FIELDS vs /\
  drop i data = ZIP_END_SIGNATURE ++ pack_fields ZIP_END_FIELDS vs ++ drop (i + 22) data.
Proof.
  intros Hb (Hs & Hl & _) <-. split.
  - apply unpack_all_fit; [by apply Forall_drop|]. rewrite length_drop.
    change (layout_size ZIP_END_FIELDS) with 18%nat. lia.
  - replace (i + 22)%nat with (i + 4 + layout_size ZIP_END_FIELDS)%nat
      by (change (layout_size ZIP_END_FIELDS) with 18%nat; lia).
    rewrite <- (drop_drop _ (layout_size _)), <- pack_unpack;
      [|by apply Forall_drop|rewrite length_drop; change (layout_size ZIP_END_FIELDS) with 18%nat; lia].
    rewrite <- Hs. unfold slice. replace (i + 4 - i)%nat with 4%nat by lia.
    by rewrite <- drop_drop, take_drop.
Qed.

Lemma end_fields_fit n size offset c :
  all_fit ZIP_END_FIELDS [0; 0; n; n; size; offset; c] <->
  0 <= n < 2 ^ 16 /\ 0 <= size < 2 ^ 32 /\ 0 <= offset < 2 ^ 32 /\ 0 <= c < 2 ^ 16.
Proof.
  unfold all_fit, ZIP_END_FIELDS. rewrite !Forall2_cons, Forall2_nil. unfold fits. simpl. lia.
Qed.

Lemma preflight_sound {W} data limits (w w' : W) : Forall is_byte data ->
  preflight_zip data (length data) limits w = (Returned tt, w') ->
  w' = w /\ exists payload es comment, archive_layout limits data payload es comment.
Proof.
  intros Hb. unfold preflight_zip. intros (r & w1 & Hr & H)%bind_returned.
  destruct (read_end_record_spec data w Hb) as [(i & Hlast & Hbase & E)|[_ E]];
    rewrite E in Hr; [|done].
  apply checked_record_returned in Hr as (-> & Hloc & n & size & offset & Hv & Hn & Hsz & Ho & ->); [|done].
  cbn [entries directory_size directory_offset record_offset] in H.
  rewrite !guard_returned in H. destruct H as (Hmax & Hdir & Hend & Hread & H). reflect_bools.
  pose proof Hlast as [Hi _]. destruct (end_record_bytes _ _ _ Hb Hi Hv) as [Hfit Hdrop].
  apply end_fields_fit in Hfit as (Fn & Fs & Fo & Fc).
  apply validate_directory_iff in H as (-> & es & Hes & Hd & Hok);
    [|by apply Forall_take, Forall_drop|cbn; lia]. cbn [entries directory_offset] in Hes, Hok.
  split; [done|]. set (payload := take (Z.to_nat offset) data).
  destruct Hi as (_ & Hl & Hc). unfold py_len in Hread, Hc.
  assert (Hpl : length payload = Z.to_nat offset) by (unfold payload; rewrite length_take; lia).
  exists payload, es, (drop (i + 22) data).
  assert (Hsum : (length payload + length (encode_directory es))%nat = i) by (rewrite <- Hd; lia).
  assert (Hcl : py_len (drop (i + 22) data) = comment_size data i)
    by (unfold py_len; rewrite length_drop; lia).
  constructor; rewrite ?Hsum; try done.
  - unfold encode_end_record, py_len at 3 4. rewrite Hes, Hcl, Hpl, <- Hd, Hread, Z2Nat.id, <- app_assoc, <- Hdrop by lia.
    rewrite Hd at 1. unfold payload. replace i with (Z.to_nat offset + Z.to_nat size)%nat by lia.
    rewrite <- Hd, <- drop_drop, !take_drop. done.
  - unfold py_len. rewrite Hpl, Z2Nat.id by lia. done.
  - rewrite Hes. lia.
  - unfold py_len. rewrite <- Hd. lia.
  - unfold py_len. lia.
  - rewrite Hcl. lia.
Qed.

Lemma preflight_complete {W} data limits payload es comment (w : W) : Forall is_byte data ->
  archive_layout limits data payload es comment ->
  preflight_zip data (length data) limits w = (Returned tt, w).
Proof.
  intros Hb [Hdata Hok [Hn1 Hn2] [Hd1 Hd2] Hp Hc Hlast Hloc].
  set (dir := encode_directory es) in *. set (i := (length payload + length dir)%nat) in *.
  set (fields := [0; 0; py_len es; py_len es; py_len dir; py_len payload; py_len comment]).
  assert (Hfit : all_fit ZIP_END_FIELDS fields).
  { apply end_fields_fit. pose proof (py_len_nonneg es). pose proof (py_len_nonneg dir).
    pose proof (py_len_nonneg payload). pose proof (py_len_nonneg comment). lia. }
  assert (Hi4 : drop (i + 4) data = pack_fields ZIP_END_FIELDS fields ++ comment).
  { rewrite Hdata, app_assoc. replace (i + 4)%nat with (length (payload ++ dir) + 4)%nat
      by (rewrite length_app; done). rewrite drop_app_add. reflexivity. }
  assert (Hv : unpack_fields ZIP_END_FIELDS (drop (i + 4) data) = fields)
    by (rewrite Hi4; by apply unpack_pack).
  assert (Hcs : comment_size data i = py_len comment).
  { unfold comment_size, header_field, unpack_from. cbn [snd]. by rewrite Hv. }
  unfold preflight_zip. apply bind_returned.
  exists {| entries := py_len es; directory_size := py_len dir; directory_offset := py_len payload;
            record_offset := Z.of_nat i |}, w. split.
  - destruct (read_end_record_spec data w Hb) as [(k & Hk & Hbase & ->)|[Hno _]];
      [|destruct Hlast as [Hl _]; by apply Hno in Hl].
    assert (k = i) as ->.
    { destruct Hk as [Hk1 Hk2], Hlast as [Hl1 Hl2]. specialize (Hk2 _ Hl1). specialize (Hl2 _ Hk1). lia. }
    apply checked_record_returned; [done|]. split_and!; [done|done|].
    exists (py_len es), (py_len dir), (py_len payload). rewrite Hv, Hcs. split_and!; [done|lia|lia|lia|done].
  - cbn [entries directory_size directory_offset record_offset].
    assert (Hread : take (Z.to_nat (py_len dir)) (drop (Z.to_nat (py_len payload)) data) = dir).
    { unfold py_len. by rewrite !Nat2Z.id, Hdata, drop_app_length, take_app_length. }
    rewrite Hread. apply guard_returned. split; [apply Z.ltb_ge; lia|].
    apply guard_returned. split; [apply Z.ltb_ge; lia|].
    apply guard_returned. split; [apply negb_false_iff, Z.eqb_eq; unfold py_len; lia|].
    apply guard_returned. split; [apply negb_false_iff, Z.eqb_eq; done|].
    apply validate_directory_iff; [|apply py_len_nonneg|split; [done|by exists es]].
    rewrite Hdata in Hb. by apply Forall_app in Hb as [_ [Hb _]%Forall_app].
Qed.

Lemma preflight_checks {W} data limits : Forall is_byte data ->
  checks (@preflight_zip W data (length data) limits).
Proof.
  intros Hb. unfold preflight_zip. apply checks_bind.
  - intros w. destruct (read_end_record_spec data w Hb) as [(i & _ & _ & E)|[_ E]];
      unfold wp; rewrite E; [|done]. generalize w. clear.
    change (checks (checked_record (W := W) (drop (tail_base data) data) (tail_base data) (i - tail_base data))).
    unfold checked_record. do 3 (apply checks_guard; intros _). apply checks_ret.
  - intros r w w' _. do 4 (apply checks_guard; intros _).
    apply validate_directory_checks. by apply Forall_take, Forall_drop.
Qed.

(** A comment of more than 65515 bytes hides the ZIP64 locator from the check: the record
    then starts in the first twenty bytes of the searched tail. *)
Definition hidden_locator_payload : bytes := ZIP64_LOCATOR_SIGNATURE ++ replicate 16 0.
Definition hidden_locator_archive (comment : bytes) : bytes :=
  hidden_locator_payload ++ encode_end_record [] hidden_locator_payload comment ++ comment.

Section hidden_locator.
Context (comment : bytes) (Hlen : py_len comment = 65535) (Hzero : Forall (eq 0) comment).

Lemma hidden_locator_eq : hidden_locator_archive comment = hidden_locator_payload ++
  ZIP_END_SIGNATURE ++ [0;0; 0;0; 0;0; 0;0; 0;0;0;0; 20;0;0;0; 255;255] ++ comment.
Proof. unfold hidden_locator_archive, encode_end_record. rewrite Hlen. done. Qed.

Lemma hidden_locator_last : last_end_record (hidden_locator_archive comment) 20.
Proof.
  rewrite hidden_locator_eq. split.
  - split; [done|].
    assert (E : forall rest, comment_size (hidden_locator_payload ++ ZIP_END_SIGNATURE
      ++ [0;0; 0;0; 0;0; 0;0; 0;0;0;0; 20;0;0;0; 255;255] ++ rest) 20 = 65535) by done. rewrite E.
    unfold py_len in *. rewrite !length_app. change (length hidden_locator_payload) with 20%nat.
    change (length ZIP_END_SIGNATURE) with 4%nat. cbn [length]. lia.
  - intros j [Hj _]. destruct (decide (j <= 20)%nat) as [|Hn]; [done|exfalso].
    assert (24 <= j)%nat by (eapply (end_signature_apart _ 20); [|exact Hj|lia]; done).
    pose proof (slice_lookup j (j + 4) 0 (hidden_locator_payload ++ ZIP_END_SIGNATURE
      ++ [0;0; 0;0; 0;0; 0;0; 0;0;0;0; 20;0;0;0; 255;255] ++ comment) ltac:(lia)) as E.
    rewrite Hj in E. replace (j + 0)%nat with (24 + (j - 24))%nat in E by lia.
    rewrite <- lookup_drop in E. change (drop 24 _) with
      ([0;0; 0;0; 0;0; 0;0; 0;0;0;0; 20;0;0;0; 255;255] ++ comment) in E.
    symmetry in E. apply list_elem_of_lookup_2 in E. apply elem_of_app in E as [E|E].
    + clear -E. repeat (apply elem_of_cons in E as [E|E]; [done|]). by apply elem_of_nil in E.
    + rewrite Forall_forall in Hzero. by apply Hzero in E.
Qed.

Lemma hidden_locator_layout : archive_layout default_compression_limits
  (hidden_locator_archive comment) hidden_locator_payload [] comment.
Proof.
  constructor; cbn [encode_directory map concat length app]; rewrite ?Hlen;
    [reflexivity|constructor|done|done|done|done|apply hidden_locator_last|].
  intros Hl. exfalso. revert Hl. change (length hidden_locator_payload + 0)%nat with 20%nat.
  rewrite hidden_locator_eq. unfold tail_base. rewrite !length_app. cbn [length].
  change (length hidden_locator_payload) with 20%nat.
  change (length ZIP_END_SIGNATURE) with 4%nat. unfold py_len in Hlen.
  pose proof ZIP_MAXIMUM_COMMENT_BYTES_eq. lia.
Qed.

Lemma zip64_locator_unseen {W} (w : W) :
  slice 0 4 (hidden_locator_archive comment) = ZIP64_LOCATOR_SIGNATURE /\
  preflight_zip (hidden_locator_archive comment) (length (hidden_locator_archive comment))
    default_compression_limits w = (Returned tt, w).
Proof.
  split; [reflexivity|].
  apply (preflight_complete _ _ _ _ _ _) with (2 := hidden_locator_layout).
  rewrite hidden_locator_eq, !Forall_app. split_and!; [by repeat constructor..|].
  eapply Forall_impl; [exact Hzero|]. by intros ? <-.
Qed.
End hidden_locator.
