(* ===== verification/Streams.v ===== *)
(** Bounded decompression: [src/src/makolet/adapters/parsers/streams.py].

    An async generator run to its end is a handler on the list of what it has yielded.  The
    codecs, [zipfile] and the capacity guard are parameters: a decompressor is a state with
    the attributes the loops read. *)
From S2P Require Import Prelude Errors Effects Enums Text ZipDirectory.

(** What a generator runs on: its yields so far, and the reservations it has made. *)
Record stream_state := { yielded : list bytes; reserved : list Z }.
Definition yield (output : bytes) : M stream_state unit :=
  modify (fun s => {| yielded := yielded s ++ [output]; reserved := reserved s |}).

(** An iterator of byte chunks: its items, and the exception it may end with. *)
Record chunk_source := { items : list bytes; failure : option exn }.
Definition end_of (source : chunk_source) : M stream_state unit :=
  match failure source with Some e => raise e | None => mret tt end.

(** What a loop of the model raises when it has used up its rounds; the code has no such end. *)
Definition out_of_fuel : exn := PyExn AssertionError.

(** ** Limits *)

Definition check_compressed (total : Z) (limits : CompressionLimits) : M stream_state unit :=
  raise_if (maximum_compressed_bytes limits <? total) unsafe.
Definition check_decompressed (total : Z) (limits : CompressionLimits) : M stream_state unit :=
  raise_if (maximum_decompressed_bytes limits <? total) unsafe.
Definition check_ratio (compressed decompressed : Z) (limits : CompressionLimits)
    : M stream_state unit :=
  raise_if ((compressed =? 0) && negb (decompressed =? 0)) unsafe;;
  raise_if (negb (compressed =? 0)
            && (compressed * maximum_expansion_ratio limits <? decompressed)) unsafe.

(** ** Without compression *)

(** [for offset in range(0, len(chunk), size): yield chunk[offset : offset + size]], each
    round on the rest of the chunk. *)
Fixpoint yield_slices (fuel : nat) (size : Z) (chunk : bytes) : M stream_state unit :=
  match fuel, chunk with
  | _, [] => mret tt
  | O, _ => raise out_of_fuel
  | S fuel, _ =>
      yield (take (Z.to_nat size) chunk);;
      yield_slices fuel size (drop (Z.to_nat size) chunk)
  end.

Fixpoint uncompressed_chunks (limits : CompressionLimits) (chunks : list bytes) (total : Z)
    : M stream_state unit :=
  match chunks with
  | [] => mret tt
  | chunk :: chunks =>
      let total := total + py_len chunk in
      check_decompressed total limits;;
      yield_slices (length chunk) (maximum_chunk_bytes limits) chunk;;
      uncompressed_chunks limits chunks total
  end.
Definition uncompressed (chunks : chunk_source) (limits : CompressionLimits) : M stream_state unit :=
  uncompressed_chunks limits (items chunks) 0;; end_of chunks.

(** ** Gzip and Zstandard *)

(** The result of [decompress(data, max_length)]: the output and the next state, the codec's
    own error ([zlib.error], [ZstdError]), or another exception. *)
Inductive decoded (D : Type) :=
  | Decoded (output : bytes) (decompressor : D)
  | CodecError
  | OtherError (e : exn).
Arguments Decoded {D} _ _.
Arguments CodecError {D}.
Arguments OtherError {D} _.

Class Decompressor (D : Type) := {
  decompress : D -> bytes -> Z -> decoded D;
  at_eof : D -> bool;
  unused_data : D -> bytes;
  unconsumed_tail : D -> bytes;
  needs_input : D -> bool
}.

Section codecs.
Context `{Decompressor D} (limits : CompressionLimits).

(** The [if output:] block of both loops. *)
Definition emit (output : bytes) (compressed decompressed : Z) : M stream_state Z :=
  if str_truthy output then
    let decompressed := decompressed + py_len output in
    check_decompressed decompressed limits;;
    check_ratio compressed decompressed limits;;
    yield output;;
    mret decompressed
  else mret decompressed.

(** [while pending:] of [_gzip]; [fuel] bounds its rounds. *)
Fixpoint gzip_pending (fuel : nat) (compressed : Z) (pending : bytes) (d : D) (decompressed : Z)
    : M stream_state (D * Z) :=
  if str_truthy pending then
    match fuel with
    | O => raise out_of_fuel
    | S fuel =>
        match decompress d pending (maximum_chunk_bytes limits) with
        | CodecError => raise unsafe
        | OtherError e => raise e
        | Decoded output d =>
            let pending := unconsumed_tail d in
            decompressed ← emit output compressed decompressed;
            if at_eof d then
              raise_if (str_truthy (unused_data d) || str_truthy pending) unsafe;;
              mret (d, decompressed)
            else if negb (str_truthy output) && negb (str_truthy pending)
            then mret (d, decompressed)
            else gzip_pending fuel compressed pending d decompressed
        end
    end
  else mret (d, decompressed).

(** [while True:] of [_zstandard]. *)
Fixpoint zstandard_pending (fuel : nat) (compressed : Z) (pending : bytes) (d : D)
    (decompressed : Z) : M stream_state (D * Z) :=
  match fuel with
  | O => raise out_of_fuel
  | S fuel =>
      match decompress d pending (maximum_chunk_bytes limits) with
      | CodecError => raise unsafe
      | OtherError e => raise e
      | Decoded output d =>
          decompressed ← emit output compressed decompressed;
          if at_eof d then
            raise_if (str_truthy (unused_data d)) unsafe;;
            mret (d, decompressed)
          else if needs_input d then mret (d, decompressed)
          else zstandard_pending fuel compressed [] d decompressed
      end
  end.

(** [async for chunk in chunks:] of both, over the loop of a chunk: the decompressor and the
    totals at the end. *)
Fixpoint codec_chunks (pending_loop : Z -> bytes -> D -> Z -> M stream_state (D * Z))
    (chunks : list bytes) (d : D) (compressed decompressed : Z) : M stream_state (D * Z * Z) :=
  match chunks with
  | [] => mret (d, compressed, decompressed)
  | chunk :: chunks =>
      let compressed := compressed + py_len chunk in
      check_compressed compressed limits;;
      '(d, decompressed) ← pending_loop compressed chunk d decompressed;
      codec_chunks pending_loop chunks d compressed decompressed
  end.
Definition codec_stream (pending_loop : Z -> bytes -> D -> Z -> M stream_state (D * Z))
    (chunks : chunk_source) (decompressor : D) : M stream_state unit :=
  '(d, compressed, decompressed) ← codec_chunks pending_loop (items chunks) decompressor 0 0;
  end_of chunks;;
  raise_if (negb (at_eof d)) unsafe;;
  check_ratio compressed decompressed limits.

Definition gzip (fuel : nat) := codec_stream (gzip_pending fuel).
Definition zstandard (fuel : nat) := codec_stream (zstandard_pending fuel).
End codecs.

(** ** ZIP *)

(** The attributes of a [zipfile.ZipInfo] the code reads. *)
Record ZipInfo := {
  filename : pystr;
  external_attr : Z;
  flag_bits : Z;
  compress_type : Z;
  zi_compress_size : Z;
  zi_file_size : Z
}.
(** [entry.is_dir()]. *)
Definition is_dir (entry : ZipInfo) : bool :=
  match last (filename entry) with Some c => c =? 47 | None => false end.

Definition SUPPORTED_ZIP_COMPRESSION_METHODS : list Z := [0; 8].
(** [stat.S_ISLNK]. *)
Definition S_ISLNK (mode : Z) : bool := Z.land mode 0xF000 =? 0xA000.

(** [PurePosixPath(name)] is absolute when the name starts with a slash, and its parts are
    the name's, less the empty ones and the single dots. *)
Definition validate_zip_entry {W} (entry : ZipInfo) (limits : CompressionLimits) : M W unit :=
  let normalized_name := map (fun c => if c =? 92 then 47 else c) (filename entry) in
  raise_if (starts_with (py "/") normalized_name
            || bool_decide (py ".." ∈ split_on 47 normalized_name)
            || bool_decide (0 ∈ normalized_name)) unsafe;;
  let unix_mode := Z.shiftr (external_attr entry) 16 in
  raise_if (negb (unix_mode =? 0) && S_ISLNK unix_mode) unsafe;;
  raise_if (negb (Z.land (flag_bits entry) 1 =? 0)) unsafe;;
  raise_if (negb (bool_decide (compress_type entry ∈ SUPPORTED_ZIP_COMPRESSION_METHODS))) unsafe;;
  raise_if (maximum_decompressed_bytes limits <? zi_file_size entry) unsafe;;
  raise_if ((zi_compress_size entry =? 0) && negb (zi_file_size entry =? 0)) unsafe;;
  raise_if (negb (zi_compress_size entry =? 0)
            && (zi_compress_size entry * maximum_expansion_ratio limits <? zi_file_size entry)) unsafe.

(** How the reads of a member end: with an empty read, with one of the exceptions the code
    turns into [UnsafeArchiveError], or with another one. *)
Inductive member_end := EndOfMember | ReadError | OtherReadError (e : exn).

(** [zipfile] and the capacity guard: the entries of an archive ([None] is [BadZipFile]), the
    outputs of [member.read(n)] in turn, and whether bytes can be reserved after what was
    reserved before. *)
Class ZipLibrary := {
  open_zip : bytes -> option (list ZipInfo);
  member_reads : bytes -> ZipInfo -> Z -> list bytes * member_end;
  available : list Z -> Z -> bool
}.

Section zip.
Context `{ZipLibrary} (limits : CompressionLimits).

(** [async with capacity.reserve_async(required_bytes)]. *)
Definition reserve (required_bytes : Z) : M stream_state unit := fun s =>
  if available (reserved s) required_bytes
  then (Returned tt, {| yielded := yielded s; reserved := reserved s ++ [required_bytes] |})
  else (Raised (MakoletExn ArchiveCapacityError 0), s).

(** [_spool_compressed]: the total, and the bytes of the spool. *)
Fixpoint spool_chunks (chunks : list bytes) (total : Z) (spool : bytes)
    : M stream_state (Z * bytes) :=
  match chunks with
  | [] => mret (total, spool)
  | chunk :: chunks =>
      let total := total + py_len chunk in
      check_compressed total limits;;
      when (spool_memory_bytes limits <? total)
        (reserve (if total - py_len chunk <=? spool_memory_bytes limits
                  then total else py_len chunk));;
      spool_chunks chunks total (spool ++ chunk)
  end.
Definition spool_compressed (chunks : chunk_source) : M stream_state (Z * bytes) :=
  r ← spool_chunks (items chunks) 0 [];
  end_of chunks;;
  mret r.

(** [while output := member.read(...)]. *)
Fixpoint member_outputs (entry : ZipInfo) (reads : list bytes) (stop : member_end)
    (decompressed : Z) : M stream_state Z :=
  match reads with
  | [] =>
      match stop with
      | EndOfMember => mret decompressed
      | ReadError => raise unsafe
      | OtherReadError e => raise e
      end
  | output :: reads =>
      if str_truthy output then
        let decompressed := decompressed + py_len output in
        check_decompressed decompressed limits;;
        check_ratio (zi_compress_size entry) decompressed limits;;
        yield output;;
        member_outputs entry reads stop decompressed
      else mret decompressed
  end.

Definition zip_document (compressed : Z) (spool : bytes) : M stream_state unit :=
  match open_zip spool with
  | None => raise unsafe
  | Some entries =>
      raise_if (maximum_zip_entries limits <? py_len entries) unsafe;;
      match List.filter (fun entry => negb (is_dir entry)) entries with
      | [entry] =>
          validate_zip_entry entry limits;;
          let '(reads, stop) := member_reads spool entry (maximum_chunk_bytes limits) in
          decompressed ← member_outputs entry reads stop 0;
          raise_if (negb (decompressed =? zi_file_size entry)) unsafe;;
          check_ratio compressed decompressed limits
      | _ => raise unsafe
      end
  end.

Definition zip (chunks : chunk_source) : M stream_state unit :=
  '(compressed, spool) ← spool_compressed chunks;
  when (spool_memory_bytes limits <? compressed) (reserve 0);;
  preflight_zip spool (Z.to_nat compressed) limits;;
  zip_document compressed spool.
End zip.

(** ** [decompress_chunks] *)

Definition decompress_chunks `{Decompressor G, Decompressor Zs, ZipLibrary} (fuel : nat)
    (new_gzip : G) (new_zstandard : Zs) (chunks : chunk_source) (compression : CompressionFormat)
    (limits : CompressionLimits) (minimum_free_bytes : Z) : M stream_state unit :=
  raise_if (minimum_free_bytes <? 0) (PyExn ValueError);;
  match compression with
  | COMP_NONE => uncompressed chunks limits
  | GZIP => gzip limits fuel chunks new_gzip
  | ZSTANDARD => zstandard limits fuel chunks new_zstandard
  | ZIP => zip limits chunks
  | COMP_UNKNOWN => raise unsafe
  end.
