(* ===== verification/StreamsFacts.v ===== *)
(** What the generators of [Streams.v] never exceed, whatever the codec, [zipfile] and the
    chunks do. *)
From S2P Require Import Prelude Errors Effects Enums Text ZipDirectory ZipDirectoryFacts Streams.

(** What the loops rely on: the output limit is kept, a decoder with input left over or that
    asks for none has made output, unless the frame has ended. *)
Class DecompressorLaws D `{Decompressor D} := {
  output_limit d data n output d' : 0 < n -> decompress d data n = Decoded output d' ->
    py_len output <= n;
  tail_progress d data n output d' : 0 < n -> decompress d data n = Decoded output d' ->
    at_eof d' = false -> unconsumed_tail d' <> [] -> output <> [];
  input_progress d data n output d' : 0 < n -> decompress d data n = Decoded output d' ->
    at_eof d' = false -> needs_input d' = false -> output <> []
}.

Definition total (s : stream_state) : Z := zsum (map py_len (yielded s)).

(** Every yield is a non-empty chunk within the limit, and the document is within its limit
    and, for [cap] compressed bytes, within the expansion ratio. *)
Definition small_yields (limits : CompressionLimits) (s : stream_state) : Prop :=
  Forall (fun y => 0 < py_len y <= maximum_chunk_bytes limits) (yielded s) /\
  total s <= maximum_decompressed_bytes limits.
Definition bounded (limits : CompressionLimits) (cap : Z) (s : stream_state) : Prop :=
  small_yields limits s /\ total s <= cap * maximum_expansion_ratio limits.

Lemma py_len_pos {A} (l : list A) : l <> [] -> 0 < py_len l.
Proof. destruct l; [done|]. intros _. rewrite py_len_cons. pose proof (py_len_nonneg l). lia. Qed.
Lemma str_truthy_spec s : str_truthy s = true <-> s <> [].
Proof. by destruct s. Qed.

Lemma total_yield s y r :
  total {| yielded := yielded s ++ [y]; reserved := r |} = total s + py_len y.
Proof. unfold total. cbn [yielded]. rewrite map_app, zsum_app. cbn. lia. Qed.

Lemma total_nonneg s : 0 <= total s.
Proof.
  unfold total. apply zsum_nonneg, Forall_map, Forall_forall. intros y _. apply py_len_nonneg.
Qed.

Section limits.
Context (limits : CompressionLimits).
Hypothesis chunk_pos : 0 < maximum_chunk_bytes limits.
Hypothesis decompressed_nonneg : 0 <= maximum_decompressed_bytes limits.
Hypothesis ratio_pos : 0 < maximum_expansion_ratio limits.

Lemma bounded_mono cap cap' s : cap <= cap' -> bounded limits cap s -> bounded limits cap' s.
Proof. intros Hc [Hs Ht]. split; [done|]. nia. Qed.

Lemma small_yield s y r : small_yields limits s -> 0 < py_len y <= maximum_chunk_bytes limits ->
  total s + py_len y <= maximum_decompressed_bytes limits ->
  small_yields limits {| yielded := yielded s ++ [y]; reserved := r |}.
Proof.
  intros [Hf _] Hy Ht. split; [|by rewrite total_yield]. apply Forall_app. by split; [|constructor].
Qed.

(** ** Without compression *)

Lemma yield_slices_spec fuel chunk s : (length chunk <= fuel)%nat -> small_yields limits s ->
  total s + py_len chunk <= maximum_decompressed_bytes limits ->
  wp (yield_slices fuel (maximum_chunk_bytes limits) chunk)
    (fun _ s' => small_yields limits s' /\ total s' = total s + py_len chunk /\
       concat (yielded s') = concat (yielded s) ++ chunk /\ reserved s' = reserved s)
    (fun _ _ => False) s.
Proof.
  revert chunk s. induction fuel as [|fuel IH]; intros [|c chunk] s Hf Hs Ht;
    try (cbn [length] in Hf; lia).
  1, 2: apply wp_ret; rewrite app_nil_r, py_len_nil; split; [done|split; [lia|done]].
  cbn [yield_slices]. set (data := c :: chunk) in *. set (k := Z.to_nat (maximum_chunk_bytes limits)).
  wp_step. unfold yield at 1. wp_step. set (y := take k data). set (s1 := {| yielded := _; reserved := _ |}).
  assert (Hy : py_len data = py_len y + py_len (drop k data)).
  { unfold y. by rewrite <- py_len_app, take_drop. }
  assert (Hy1 : 0 < py_len y <= maximum_chunk_bytes limits).
  { split; [apply py_len_pos; unfold y, k, data; destruct (Z.to_nat _) eqn:E; [lia|done]|].
    unfold py_len, y. rewrite length_take. unfold k. lia. }
  pose proof (py_len_nonneg (drop k data)).
  eapply wp_mono; [apply (IH (drop k data) s1)| |done].
  - rewrite length_drop. unfold k. lia.
  - apply small_yield; [done|done|lia].
  - unfold s1. rewrite total_yield. lia.
  - cbv beta. intros _ s' (? & Ht' & Hc & Hr). split_and!; [done| | |by rewrite Hr].
    + rewrite Ht'. unfold s1. rewrite total_yield. lia.
    + rewrite Hc. unfold s1. cbn [yielded]. rewrite concat_app. cbn. rewrite app_nil_r.
      unfold y. by rewrite <- app_assoc, take_drop.
Qed.

Lemma uncompressed_spec chunks s : small_yields limits s ->
  wp (uncompressed_chunks limits chunks (total s))
    (fun _ s' => small_yields limits s' /\
       concat (yielded s') = concat (yielded s) ++ concat chunks /\ reserved s' = reserved s)
    (fun e s' => e = unsafe /\ small_yields limits s' /\ reserved s' = reserved s) s.
Proof.
  revert s. induction chunks as [|chunk chunks IH]; intros s Hs.
  - apply wp_ret. cbn. by rewrite app_nil_r.
  - cbn [uncompressed_chunks]. unfold check_decompressed. wp_step. wp_step; [done|]. reflect_bools.
    wp_step. eapply wp_mono; [by apply (yield_slices_spec (length chunk) chunk s)| |done].
    cbv beta. intros _ s1 (Hs1 & Ht1 & Hc1 & Hr1). rewrite <- Ht1.
    eapply wp_mono; [by apply IH| |]; cbv beta.
    + intros _ s2 (? & Hc2 & Hr2). split_and!; [done| |congruence].
      rewrite Hc2, Hc1. cbn. by rewrite app_assoc.
    + intros e s2 (? & ? & Hr2). split_and!; [done|done|congruence].
Qed.

(** ** Gzip and Zstandard *)

Definition same_reserved (s s' : stream_state) : Prop := reserved s' = reserved s.

Lemma check_ratio_spec cap n s (Q : unit -> stream_state -> Prop) (E : exn -> stream_state -> Prop) :
  E unsafe s -> (n <= cap * maximum_expansion_ratio limits \/ (cap = 0 /\ n = 0) -> Q tt s) ->
  wp (check_ratio cap n limits) Q E s.
Proof.
  intros HE HQ. unfold check_ratio. wp_step. wp_step; [done|]. wp_step; [done|]. apply HQ.
  destruct (Z.eqb_spec cap 0), (Z.eqb_spec n 0); cbn [andb negb] in *; try discriminate;
    reflect_bools; auto.
Qed.

Lemma emit_spec output cap s : bounded limits cap s ->
  py_len output <= maximum_chunk_bytes limits ->
  wp (emit limits output cap (total s))
    (fun dec s' => bounded limits cap s' /\ dec = total s' /\ same_reserved s s' /\
       total s <= total s' /\ (output <> [] -> total s < total s'))
    (fun e s' => e = unsafe /\ s' = s) s.
Proof.
  intros Hs Hl. unfold emit. destruct (str_truthy output) eqn:Ho.
  - apply str_truthy_spec in Ho as Hne. pose proof (py_len_pos _ Hne).
    unfold check_decompressed. wp_step. wp_step; [done|]. reflect_bools. wp_step.
    apply check_ratio_spec; [done|]. intros Hr. wp_step. unfold yield. wp_step. wp_step.
    assert (Hb : bounded limits cap {| yielded := yielded s ++ [output]; reserved := reserved s |}).
    { destruct Hs as [Hs Ht]. split; [by apply small_yield|]. rewrite total_yield.
      pose proof (total_nonneg s). lia. }
    rewrite total_yield. split; [done|]. split; [done|]. split; [done|]. split; [lia|]. intros _. lia.
  - wp_step. split; [done|]. split; [done|]. split; [done|]. split; [lia|]. intros Hne.
    apply str_truthy_spec in Hne. congruence.
Qed.

Section codecs.
Context `{DecompressorLaws D}.

(** What a loop over the pending input of one chunk keeps. *)
Definition loop_ok (loop : Z -> bytes -> D -> Z -> M stream_state (D * Z)) : Prop :=
  forall cap pending d s, bounded limits cap s ->
  wp (loop cap pending d (total s))
    (fun r s' => bounded limits cap s' /\ r.2 = total s' /\ same_reserved s s')
    (fun e s' => bounded limits cap s' /\ same_reserved s s') s.

Lemma gzip_loop_ok fuel : loop_ok (gzip_pending limits fuel).
Proof.
  induction fuel as [|fuel IH]; intros cap pending d s Hs; cbn [gzip_pending];
    destruct (str_truthy pending); try (by wp_step).
  destruct (decompress _ _ _) as [output d'| |e] eqn:E; [|by wp_step..].
  wp_step. apply output_limit in E; [|done].
  eapply wp_mono; [by apply emit_spec| |by intros e s' [_ ->]].
  cbv beta. intros dec s1 (Hs1 & -> & Hr & _). destruct (at_eof d').
  - wp_step. wp_step; [done|]. by wp_step.
  - destruct (negb _ && _); [by wp_step|]. unfold same_reserved in *.
    eapply wp_mono; [by apply IH| |]; cbv beta; unfold same_reserved; rewrite Hr; auto.
Qed.

Lemma zstandard_loop_ok fuel : loop_ok (zstandard_pending limits fuel).
Proof.
  induction fuel as [|fuel IH]; intros cap pending d s Hs; cbn [zstandard_pending]; [by wp_step|].
  destruct (decompress _ _ _) as [output d'| |e] eqn:E; [|by wp_step..].
  wp_step. apply output_limit in E; [|done].
  eapply wp_mono; [by apply emit_spec| |by intros e s' [_ ->]].
  cbv beta. intros dec s1 (Hs1 & -> & Hr & _). destruct (at_eof d').
  - wp_step. wp_step; [done|]. by wp_step.
  - destruct (needs_input d'); [by wp_step|]. unfold same_reserved in *.
    eapply wp_mono; [by apply IH| |]; cbv beta; unfold same_reserved; rewrite Hr; auto.
Qed.

(** Rounds beyond what the document limit allows change nothing. *)
Definition enough (fuel : nat) (dec : Z) : Prop :=
  dec <= maximum_decompressed_bytes limits /\ maximum_decompressed_bytes limits - dec < Z.of_nat fuel.

Lemma emit_progress output cap dec s : 0 <= dec <= maximum_decompressed_bytes limits ->
  match emit limits output cap dec s with
  | (Returned dec', s') => dec <= dec' <= maximum_decompressed_bytes limits /\
      (output <> [] -> dec < dec')
  | (Raised _, _) => True
  end.
Proof.
  intros Hd. pose proof (py_len_nonneg output).
  change (wp (emit limits output cap dec)
    (fun dec' _ => dec <= dec' <= maximum_decompressed_bytes limits /\ (output <> [] -> dec < dec'))
    (fun _ _ => True) s).
  unfold emit. destruct (str_truthy output) eqn:Ho.
  - apply str_truthy_spec in Ho. pose proof (py_len_pos _ Ho).
    unfold check_decompressed. wp_step. wp_step; [done|]. reflect_bools. wp_step.
    apply check_ratio_spec; [done|]. intros _. wp_step. unfold yield. wp_step. wp_step.
    split; [lia|]. intros _. lia.
  - wp_step. split; [lia|]. intros Hne%str_truthy_spec. congruence.
Qed.

Lemma gzip_fuel fuel fuel' cap pending d dec s : 0 <= dec -> enough fuel dec -> enough fuel' dec ->
  gzip_pending limits fuel cap pending d dec s = gzip_pending limits fuel' cap pending d dec s.
Proof.
  revert fuel' pending d dec s. induction fuel as [|fuel IH]; intros [|fuel'] pending d dec s Hdec [? ?] [? ?];
    try lia. cbn [gzip_pending]. destruct (str_truthy pending); [|done].
  destruct (decompress _ _ _) as [output d'| |e] eqn:E; [|done..].
  unfold mbind, M_bind. pose proof (emit_progress output cap dec s ltac:(lia)) as Hp.
  destruct (emit _ _ _ _ s) as [[dec'|?] s']; [|done]. destruct Hp as [Hd' Hne].
  destruct (at_eof d') eqn:Heof; [done|]. destruct (negb _ && _) eqn:Hstop; [done|].
  destruct (str_truthy (unconsumed_tail d')) eqn:Htail.
  - apply str_truthy_spec in Htail. pose proof (Hne (tail_progress _ _ _ _ _ chunk_pos E Heof Htail)).
    apply IH; [lia|split; lia..].
  - destruct fuel, fuel'; cbn [gzip_pending]; by rewrite Htail.
Qed.

Lemma zstandard_fuel fuel fuel' cap pending d dec s : 0 <= dec -> enough fuel dec -> enough fuel' dec ->
  zstandard_pending limits fuel cap pending d dec s = zstandard_pending limits fuel' cap pending d dec s.
Proof.
  revert fuel' pending d dec s. induction fuel as [|fuel IH]; intros [|fuel'] pending d dec s Hdec [? ?] [? ?];
    try lia. cbn [zstandard_pending].
  destruct (decompress _ _ _) as [output d'| |e] eqn:E; [|done..].
  unfold mbind, M_bind. pose proof (emit_progress output cap dec s ltac:(lia)) as Hp.
  destruct (emit _ _ _ _ s) as [[dec'|?] s']; [|done]. destruct Hp as [Hd' Hne].
  destruct (at_eof d') eqn:Heof; [done|]. destruct (needs_input d') eqn:Hn; [done|].
  pose proof (Hne (input_progress _ _ _ _ _ chunk_pos E Heof Hn)). apply IH; [lia|split; lia..].
Qed.

(** With that many rounds the loops end: they do not run out of fuel. *)
Hypothesis no_assertion : forall (d : D) data n e, decompress d data n = OtherError e -> e <> out_of_fuel.

Lemma emit_raises output cap dec s : 0 <= dec <= maximum_decompressed_bytes limits ->
  wp (emit limits output cap dec)
    (fun dec' _ => dec <= dec' <= maximum_decompressed_bytes limits /\ (output <> [] -> dec < dec')) (fun e _ => e <> out_of_fuel) s.
Proof.
  intros Hd. pose proof (emit_progress output cap dec s Hd) as Hp. unfold wp. destruct (emit limits output cap dec s) as [[dec'|e] s'] eqn:E; [done|].
  assert (Hwp : wp (emit limits output cap dec) (fun _ _ => True) (fun e _ => e = unsafe) s).
  { unfold emit, check_decompressed, check_ratio, yield. by repeat (wp_step; try done). }
  unfold wp in Hwp. by rewrite E in Hwp; subst.
Qed.
Lemma gzip_ends fuel cap pending d dec s : 0 <= dec -> enough fuel dec ->
  wp (gzip_pending limits fuel cap pending d dec) (fun _ _ => True) (fun e _ => e <> out_of_fuel) s.
Proof.
  revert pending d dec s. induction fuel as [|fuel IH]; intros pending d dec s Hdec [? ?]; [lia|]. cbn [gzip_pending].
  destruct (str_truthy pending); [|by wp_step]. destruct (decompress _ _ _) as [output d'| |e] eqn:E; [|by wp_step|wp_step; by eapply no_assertion].
  wp_step. eapply wp_mono; [apply emit_raises; lia| |done]. cbv beta. intros dec' s' [Hd' Hne].
  destruct (at_eof d') eqn:Heof; [by repeat (wp_step; try done)|]. destruct (negb _ && _) eqn:Hstop; [by wp_step|].
  destruct (str_truthy (unconsumed_tail d')) eqn:Htail; [|destruct fuel; cbn [gzip_pending]; rewrite Htail; by wp_step].
  apply str_truthy_spec in Htail. pose proof (Hne (tail_progress _ _ _ _ _ chunk_pos E Heof Htail)). apply IH; [lia|split; lia].
Qed.
Lemma zstandard_ends fuel cap pending d dec s : 0 <= dec -> enough fuel dec ->
  wp (zstandard_pending limits fuel cap pending d dec) (fun _ _ => True) (fun e _ => e <> out_of_fuel) s.
Proof.
  revert pending d dec s. induction fuel as [|fuel IH]; intros pending d dec s Hdec [? ?]; [lia|]. cbn [zstandard_pending].
  destruct (decompress _ _ _) as [output d'| |e] eqn:E; [|by wp_step|wp_step; by eapply no_assertion].
  wp_step. eapply wp_mono; [apply emit_raises; lia| |done]. cbv beta. intros dec' s' [Hd' Hne].
  destruct (at_eof d') eqn:Heof; [by repeat (wp_step; try done)|]. destruct (needs_input d') eqn:Hn; [by wp_step|].
  pose proof (Hne (input_progress _ _ _ _ _ chunk_pos E Heof Hn)). apply IH; [lia|split; lia].
Qed.
Lemma codec_stream_ends (loop : Z -> bytes -> D -> Z -> M stream_state (D * Z)) chunks d s :
  failure chunks <> Some out_of_fuel ->
  (forall cap pending d dec s, 0 <= dec <= maximum_decompressed_bytes limits ->
     wp (loop cap pending d dec) (fun r _ => 0 <= r.2 <= maximum_decompressed_bytes limits) (fun e _ => e <> out_of_fuel) s) ->
  wp (codec_stream limits loop chunks d) (fun _ _ => True) (fun e _ => e <> out_of_fuel) s.
Proof.
  intros Hf Hloop. unfold codec_stream. wp_step.
  assert (Hchunks : forall l d c dec s, 0 <= dec <= maximum_decompressed_bytes limits ->
    wp (codec_chunks limits loop l d c dec) (fun _ _ => True) (fun e _ => e <> out_of_fuel) s).
  { intros l. induction l as [|chunk l IH]; intros d1 c dec s1 Hd; cbn [codec_chunks]; [by wp_step|]. unfold check_compressed.
    wp_step. wp_step; [done|]. wp_step. eapply wp_mono; [by apply Hloop| |done]. cbv beta. intros [d2 dec2] s2 H2. by apply IH. }
  eapply wp_mono; [apply Hchunks; lia| |done]. cbv beta. intros [[d1 c1] dec1] s1 _. wp_step. unfold end_of, check_ratio.
  destruct (failure chunks) as [e|]; [wp_step; congruence|]. by repeat (wp_step; try done).
Qed.

(** The compressed bytes that can count for the expansion ratio. *)
Definition input_cap (chunks : list bytes) (c : Z) : Z :=
  Z.min (maximum_compressed_bytes limits) (c + zsum (map py_len chunks)).

Lemma input_cap_cons chunk chunks c : input_cap (chunk :: chunks) c
  = Z.min (maximum_compressed_bytes limits) (c + py_len chunk + zsum (map py_len chunks)).
Proof. unfold input_cap. cbn [map zsum foldr]. f_equal. apply Z.add_assoc. Qed.

Lemma codec_chunks_spec loop chunks d c s : loop_ok loop -> bounded limits c s ->
  0 <= c <= maximum_compressed_bytes limits ->
  wp (codec_chunks limits loop chunks d c (total s))
    (fun r s' => bounded limits (input_cap chunks c) s' /\ r.2 = total s' /\ same_reserved s s' /\
       r.1.2 = input_cap chunks c)
    (fun e s' => bounded limits (input_cap chunks c) s' /\ same_reserved s s') s.
Proof.
  intros Hloop. revert d c s. induction chunks as [|chunk chunks IH]; intros d c s Hs Hc.
  - assert (Hcap : input_cap [] c = c) by (unfold input_cap; cbn; lia). rewrite Hcap.
    cbn [codec_chunks]. by wp_step.
  - cbn [codec_chunks]. pose proof (py_len_nonneg chunk).
    assert (0 <= zsum (map py_len chunks)).
    { apply zsum_nonneg, Forall_map, Forall_forall. intros. apply py_len_nonneg. }
    assert (Hle : c <= input_cap (chunk :: chunks) c) by (rewrite input_cap_cons; lia).
    unfold check_compressed. wp_step.
    wp_step; [split; [by eapply bounded_mono|done]|]. reflect_bools. wp_step.
    assert (Hcap : input_cap (chunk :: chunks) c = input_cap chunks (c + py_len chunk))
      by (rewrite input_cap_cons; done).
    assert (Hle' : c + py_len chunk <= input_cap (chunk :: chunks) c) by (rewrite input_cap_cons; lia).
    eapply wp_mono; [apply Hloop; eapply bounded_mono; [|exact Hs]; lia| |].
    + cbv beta. intros [d1 dec1] s1 (Hs1 & Hd1 & Hr1). cbn [fst snd] in *. subst dec1.
      rewrite Hcap. eapply wp_mono; [apply IH; [done|lia]| |]; cbv beta; unfold same_reserved in *;
        rewrite Hr1; auto.
    + cbv beta. intros e s1 [Hs1 Hr1]. split; [by eapply bounded_mono|done].
Qed.

Lemma codec_stream_spec loop chunks d s : loop_ok loop -> bounded limits 0 s -> total s = 0 ->
  0 <= maximum_compressed_bytes limits ->
  wp (codec_stream limits loop chunks d)
    (fun _ s' => bounded limits (input_cap (items chunks) 0) s' /\ same_reserved s s')
    (fun e s' => bounded limits (input_cap (items chunks) 0) s' /\ same_reserved s s') s.
Proof.
  intros Hloop Hs Hz Hmax. unfold codec_stream. wp_step.
  pose proof (codec_chunks_spec loop (items chunks) d 0 s Hloop Hs ltac:(lia)) as Hspec.
  rewrite Hz in Hspec. eapply wp_mono; [exact Hspec| |auto]. cbv beta.
  intros [[d1 c1] dec1] s1 (Hs1 & _ & Hr & _). wp_step. unfold end_of.
  destruct (failure chunks); [by wp_step|]. wp_step. wp_step. wp_step; [done|].
  apply check_ratio_spec; auto.
Qed.

(** Two loops that agree while the document is within its limit give the same stream. *)
Lemma codec_chunks_agree (loop loop' : Z -> bytes -> D -> Z -> M stream_state (D * Z)) chunks d c dec s :
  (forall cap pending d dec s, 0 <= dec <= maximum_decompressed_bytes limits ->
     loop cap pending d dec s = loop' cap pending d dec s) ->
  (forall cap pending d dec s, 0 <= dec <= maximum_decompressed_bytes limits ->
     match loop cap pending d dec s with
     | (Returned r, _) => 0 <= r.2 <= maximum_decompressed_bytes limits
     | (Raised _, _) => True
     end) ->
  0 <= dec <= maximum_decompressed_bytes limits ->
  codec_chunks limits loop chunks d c dec s = codec_chunks limits loop' chunks d c dec s.
Proof.
  intros Heq Hkeep. revert d c dec s. induction chunks as [|chunk chunks IH]; intros d c dec s Hd; [done|].
  cbn [codec_chunks]. unfold mbind, M_bind. destruct (check_compressed _ _ s) as [[[]|?] s1]; [|done].
  rewrite <- Heq by done. pose proof (Hkeep (c + py_len chunk) chunk d dec s1 Hd) as Hk.
  destruct (loop _ _ _ _ s1) as [[[d1 dec1]|?] s2]; [|done]. by apply IH.
Qed.

Lemma codec_stream_agree (loop loop' : Z -> bytes -> D -> Z -> M stream_state (D * Z)) chunks d s :
  (forall cap pending d dec s, 0 <= dec <= maximum_decompressed_bytes limits ->
     loop cap pending d dec s = loop' cap pending d dec s) ->
  (forall cap pending d dec s, 0 <= dec <= maximum_decompressed_bytes limits ->
     match loop cap pending d dec s with
     | (Returned r, _) => 0 <= r.2 <= maximum_decompressed_bytes limits
     | (Raised _, _) => True
     end) ->
  codec_stream limits loop chunks d s = codec_stream limits loop' chunks d s.
Proof.
  intros Heq Hkeep. unfold codec_stream. unfold mbind at 1 3, M_bind at 1 3.
  rewrite (codec_chunks_agree _ _ (items chunks) d 0 0 s Heq Hkeep); [done|lia].
Qed.

Lemma gzip_keeps fuel cap pending d dec s : 0 <= dec <= maximum_decompressed_bytes limits ->
  match gzip_pending limits fuel cap pending d dec s with
  | (Returned r, _) => 0 <= r.2 <= maximum_decompressed_bytes limits
  | (Raised _, _) => True
  end.
Proof.
  revert pending d dec s. induction fuel as [|fuel IH]; intros pending d dec s Hd; cbn [gzip_pending];
    destruct (str_truthy pending); try done.
  destruct (decompress _ _ _) as [output d'| |e]; [|done..].
  unfold mbind, M_bind. pose proof (emit_progress output cap dec s Hd) as Hp.
  destruct (emit _ _ _ _ s) as [[dec'|?] s']; [|done]. destruct Hp as [Hd' _].
  destruct (at_eof d'); [|destruct (negb _ && _); [cbn; lia|apply IH; lia]].
  destruct (_ || _); cbn; lia || done.
Qed.

Lemma zstandard_keeps fuel cap pending d dec s : 0 <= dec <= maximum_decompressed_bytes limits ->
  match zstandard_pending limits fuel cap pending d dec s with
  | (Returned r, _) => 0 <= r.2 <= maximum_decompressed_bytes limits
  | (Raised _, _) => True
  end.
Proof.
  revert pending d dec s. induction fuel as [|fuel IH]; intros pending d dec s Hd; cbn [zstandard_pending]; [done|].
  destruct (decompress _ _ _) as [output d'| |e]; [|done..].
  unfold mbind, M_bind. pose proof (emit_progress output cap dec s Hd) as Hp.
  destruct (emit _ _ _ _ s) as [[dec'|?] s']; [|done]. destruct Hp as [Hd' _].
  destruct (at_eof d'); [|destruct (needs_input d'); [cbn; lia|apply IH; lia]].
  destruct (str_truthy _); cbn; lia || done.
Qed.
End codecs.

(** ** ZIP *)

Section zip.
Context `{ZipLibrary}.
Hypothesis reads_limit : forall spool entry n, 0 < n ->
  Forall (fun output => py_len output <= n) (member_reads spool entry n).1.

(** Spooling keeps the bytes in order, and reserves what the spool has on disk. *)
Lemma spool_chunks_spec chunks spool s :
  zsum (reserved s) = (if spool_memory_bytes limits <? py_len spool then py_len spool else 0) ->
  py_len spool <= maximum_compressed_bytes limits ->
  wp (spool_chunks limits chunks (py_len spool) spool)
    (fun r s' => r = (py_len spool + zsum (map py_len chunks), spool ++ concat chunks) /\
       r.1 <= maximum_compressed_bytes limits /\ yielded s' = yielded s /\
       zsum (reserved s') = (if spool_memory_bytes limits <? r.1 then r.1 else 0))
    (fun _ s' => yielded s' = yielded s) s.
Proof.
  revert spool s. induction chunks as [|chunk chunks IH]; intros spool s Hr Hm; cbn [spool_chunks].
  - wp_step. cbn [map concat zsum foldr fst]. rewrite Z.add_0_r, app_nil_r. auto.
  - pose proof (py_len_nonneg chunk). unfold check_compressed. wp_step. wp_step; [done|]. wp_step.
    reflect_bools. rewrite <- (py_len_app spool chunk) in *.
    assert (Hnext : forall s1, yielded s1 = yielded s ->
      zsum (reserved s1) = (if spool_memory_bytes limits <? py_len (spool ++ chunk)
                            then py_len (spool ++ chunk) else 0) ->
      wp (spool_chunks limits chunks (py_len (spool ++ chunk)) (spool ++ chunk))
        (fun r s' => r = (py_len spool + zsum (map py_len (chunk :: chunks)), spool ++ concat (chunk :: chunks)) /\
           r.1 <= maximum_compressed_bytes limits /\ yielded s' = yielded s /\
           zsum (reserved s') = (if spool_memory_bytes limits <? r.1 then r.1 else 0))
        (fun _ s' => yielded s' = yielded s) s1).
    { intros s1 Hy1 Hr1. eapply wp_mono; [by apply IH| |]; cbv beta; rewrite Hy1; [|auto].
      intros r s2 (-> & Hm2 & Hy2 & Hr2). split_and!; [|done|done|done].
      cbn [map concat zsum foldr]. rewrite py_len_app, <- app_assoc. f_equal. symmetry. apply Z.add_assoc. }
    wp_step; [|apply Hnext; [done|]; rewrite Hr; reflect_bools;
      destruct (Z.ltb_spec (spool_memory_bytes limits) (py_len spool)),
        (Z.ltb_spec (spool_memory_bytes limits) (py_len (spool ++ chunk))); rewrite py_len_app in *; lia].
    unfold wp, reserve. destruct (available _ _); [|done]. apply Hnext; [done|]. cbn [reserved].
    rewrite zsum_app, Hr, py_len_app in *. reflect_bools. cbn [zsum foldr].
    destruct (Z.leb_spec (py_len spool + py_len chunk - py_len chunk) (spool_memory_bytes limits)),
      (Z.ltb_spec (spool_memory_bytes limits) (py_len spool)),
      (Z.ltb_spec (spool_memory_bytes limits) (py_len spool + py_len chunk)); lia.
Qed.

Lemma member_outputs_spec entry reads stop s :
  small_yields limits s -> Forall (fun output => py_len output <= maximum_chunk_bytes limits) reads ->
  wp (member_outputs limits entry reads stop (total s))
    (fun dec s' => small_yields limits s' /\ dec = total s')
    (fun _ s' => small_yields limits s') s.
Proof.
  intros Hs Hreads. revert s Hs. induction Hreads as [|output reads Ho _ IH]; intros s Hs;
    cbn [member_outputs]; [destruct stop; by wp_step|].
  destruct (str_truthy output) eqn:Ht; [|by wp_step].
  apply str_truthy_spec in Ht. pose proof (py_len_pos _ Ht).
  unfold check_decompressed. wp_step. wp_step; [done|]. reflect_bools. wp_step.
  apply check_ratio_spec; [done|]. intros _. wp_step. unfold yield. wp_step.
  rewrite <- (total_yield s output (reserved s)). apply IH. by apply small_yield.
Qed.

Lemma validate_zip_entry_checks entry :
  checks (validate_zip_entry (W := stream_state) entry limits).
Proof. unfold validate_zip_entry. do 6 (apply checks_guard; intros _). apply checks_raise_if. Qed.

Lemma zip_document_spec compressed spool s : small_yields limits s -> total s = 0 ->
  0 <= compressed ->
  wp (zip_document limits compressed spool)
    (fun _ s' => bounded limits compressed s') (fun _ s' => small_yields limits s') s.
Proof.
  intros Hs Hz Hc. unfold zip_document. destruct (open_zip spool) as [es|]; [|by wp_step].
  wp_step. wp_step; [done|]. destruct (List.filter _ es) as [|entry [|]]; [by wp_step| |by wp_step].
  wp_step. eapply wp_mono; [apply validate_zip_entry_checks| |by intros e s' [_ ->]].
  cbv beta. intros [] s1 ->.
  pose proof (reads_limit spool entry (maximum_chunk_bytes limits) chunk_pos) as Hreads.
  destruct (member_reads _ _ _) as [reads stop]. cbn [fst] in Hreads. wp_step. rewrite <- Hz.
  eapply wp_mono; [by apply member_outputs_spec| |auto]. cbv beta. intros dec s2 [Hs2 ->].
  wp_step. wp_step; [done|]. apply check_ratio_spec; [done|]. intros Hr. split; [done|].
  destruct Hr as [Hr|[-> Hr]]; lia.
Qed.

(** No loop of the ZIP path runs on fuel but those of the preflight, which end. *)
Lemma zip_ends chunks s : Forall (Forall is_byte) (items chunks) -> failure chunks <> Some out_of_fuel ->
  (forall spool entry n, (member_reads spool entry n).2 <> OtherReadError out_of_fuel) ->
  wp (zip limits chunks) (fun _ _ => True) (fun e _ => e <> out_of_fuel) s.
Proof.
  intros Hb Hf Hm. unfold zip, spool_compressed. do 2 wp_step.
  assert (Hspool : forall l n spool s1, wp (spool_chunks limits l n spool)
    (fun r _ => r = (n + zsum (map py_len l), spool ++ concat l)) (fun e _ => e <> out_of_fuel) s1).
  { intros l. induction l as [|chunk l IH]; intros n spool s1; cbn [spool_chunks].
    - wp_step. cbn [map concat zsum foldr]. by rewrite Z.add_0_r, app_nil_r.
    - unfold check_compressed. wp_step. wp_step; [done|]. wp_step.
      assert (Hnext : forall s2, wp (spool_chunks limits l (n + py_len chunk) (spool ++ chunk))
        (fun r _ => r = (n + zsum (map py_len (chunk :: l)), spool ++ concat (chunk :: l))) (fun e _ => e <> out_of_fuel) s2).
      { intros s2. eapply wp_mono; [apply IH| |done]. cbv beta. intros r _ ->. cbn [map concat zsum foldr]. rewrite <- app_assoc. f_equal. symmetry. apply Z.add_assoc. }
      wp_step; [|apply Hnext]. unfold wp at 1, reserve. destruct (available _ _); [apply Hnext|done]. }
  eapply wp_mono; [apply Hspool| |done]. cbv beta. intros r s1 ->. rewrite Z.add_0_l. cbn [app]. wp_step. unfold end_of.
  destruct (failure chunks) as [e|]; [wp_step; congruence|]. do 3 wp_step.
  assert (Hdoc : forall c spool s2, wp (zip_document limits c spool) (fun _ _ => True) (fun e _ => e <> out_of_fuel) s2).
  { intros c spool s2. unfold zip_document. destruct (open_zip spool) as [es|]; [|by wp_step]. wp_step. wp_step; [done|].
    destruct (List.filter _ es) as [|entry [|]]; [by wp_step| |by wp_step]. wp_step.
    eapply wp_mono; [apply validate_zip_entry_checks| |by intros e s' [-> _]]. cbv beta. intros [] s3 _.
    specialize (Hm spool entry (maximum_chunk_bytes limits)). destruct (member_reads _ _ _) as [reads stop]. cbn [snd] in Hm. wp_step.
    assert (Houts : forall l n s4, wp (member_outputs limits entry l stop n) (fun _ _ => True) (fun e _ => e <> out_of_fuel) s4).
    { intros l. induction l as [|output l IH]; intros n s4; cbn [member_outputs]; [destruct stop; [by wp_step|by wp_step|wp_step; congruence]|].
      destruct (str_truthy output); [|by wp_step]. unfold check_decompressed, check_ratio, yield.
      repeat (wp_step; try done). }
    eapply wp_mono; [apply Houts| |done]. cbv beta. intros dec s4 _. unfold check_ratio. by repeat (wp_step; try done). }
  assert (Hrest : forall s2, wp (preflight_zip (concat (items chunks)) (Z.to_nat (zsum (map py_len (items chunks)))) limits;;
      zip_document limits (zsum (map py_len (items chunks))) (concat (items chunks))) (fun _ _ => True) (fun e _ => e <> out_of_fuel) s2).
  { intros s2. wp_step. replace (Z.to_nat (zsum (map py_len (items chunks)))) with (length (concat (items chunks))).
    - eapply wp_mono; [apply preflight_checks; by apply Forall_concat|intros; apply Hdoc|by intros e s' [-> _]].
    - enough (py_len (concat (items chunks)) = zsum (map py_len (items chunks))) by (unfold py_len in *; lia).
      clear. induction (items chunks) as [|y ys IH]; [done|]. cbn [concat map zsum foldr]. by rewrite py_len_app, IH. }
  wp_step; [|apply Hrest]. unfold wp at 1, reserve. destruct (available _ _); [apply Hrest|done].
Qed.

Lemma small_yields_same s s' : yielded s' = yielded s -> small_yields limits s -> small_yields limits s'.
Proof. unfold small_yields, total. by intros ->. Qed.

Lemma zip_spec chunks s : yielded s = [] -> reserved s = [] ->
  0 <= maximum_compressed_bytes limits -> 0 < spool_memory_bytes limits ->
  Forall (Forall is_byte) (items chunks) ->
  wp (zip limits chunks)
    (fun _ s' => bounded limits (input_cap (items chunks) 0) s')
    (fun _ s' => small_yields limits s') s.
Proof.
  intros Hy Hr Hmax Hmem Hb.
  assert (Hsmall : forall s', yielded s' = yielded s -> small_yields limits s').
  { intros s' E. unfold small_yields, total. rewrite E, Hy. by split; [constructor|]. }
  assert (Htotal : forall s', yielded s' = yielded s -> total s' = 0).
  { intros s' E. unfold total. by rewrite E, Hy. }
  unfold zip, spool_compressed. wp_step. wp_step.
  eapply wp_mono; [apply (spool_chunks_spec (items chunks) []); rewrite ?Hr; [|done]| |auto].
  { change (py_len []) with 0. rewrite (proj2 (Z.ltb_ge _ _)) by lia. done. }
  cbv beta. intros r s1 (-> & Hm & Hy1 & _). cbn [fst] in Hm. change (py_len []) with 0 in *.
  rewrite Z.add_0_l in *.
  set (n := zsum (map py_len (items chunks))) in *. cbn [app].
  assert (Hn : 0 <= n) by (apply zsum_nonneg, Forall_map, Forall_forall; intros; apply py_len_nonneg).
  assert (Hcap : input_cap (items chunks) 0 = n) by (unfold input_cap; fold n; lia). rewrite Hcap.
  wp_step. unfold end_of. destruct (failure chunks); [wp_step; auto|]. wp_step. wp_step. wp_step.
  assert (Hrest : forall s2, yielded s2 = yielded s ->
    wp (preflight_zip (concat (items chunks)) (Z.to_nat n) limits;; zip_document limits n (concat (items chunks)))
      (fun _ s' => bounded limits n s') (fun _ s' => small_yields limits s') s2).
  { intros s2 Hy2. wp_step. replace (Z.to_nat n) with (length (concat (items chunks))).
    - eapply wp_mono; [apply preflight_checks; by apply Forall_concat| |intros e s' [_ ->]; auto].
      cbv beta. intros _ s' ->. apply zip_document_spec; auto.
    - enough (py_len (concat (items chunks)) = n) by (unfold py_len in *; lia).
      unfold n. clear. induction (items chunks) as [|y ys IH]; [done|].
      cbn [concat map zsum foldr]. by rewrite py_len_app, IH. }
  wp_step; [|by apply Hrest]. unfold wp at 1, reserve. destruct (available _ _); [|auto].
  by apply Hrest.
Qed.
End zip.
End limits.

(** The properties of the bounded decompression, and the runs that witness them. *)
(** C18: the preflight accepts exactly the archives of its grammar.  It returns if and only if
    the bytes are members, a directory of at most the allowed entries and bytes, each entry
    well formed, on one disk and without ZIP64 sizes, and an end record that describes that
    directory and is the last one of the file; anything else is an [UnsafeArchiveError]. *)
Theorem zip_preflight_exact {W} data limits (w : W) : Forall is_byte data ->
  (forall w', preflight_zip data (length data) limits w = (Returned tt, w') <->
     w' = w /\ exists payload es comment, archive_layout limits data payload es comment) /\
  (forall e w', preflight_zip data (length data) limits w = (Raised e, w') ->
     e = unsafe /\ w' = w).
Proof.
  intros Hb. split; [intros w'; split|].
  - by apply preflight_sound.
  - intros (-> & payload & es & comment & Hl). by eapply preflight_complete.
  - intros e w' E. exact (wp_raised _ _ _ _ _ _ (preflight_checks data limits Hb w) E).
Qed.

Definition empty_stream : stream_state := {| yielded := []; reserved := [] |}.

(** The limits [CompressionLimits.__post_init__] accepts. *)
Definition limits_ok (l : CompressionLimits) : Prop :=
  0 < maximum_compressed_bytes l /\ 0 < maximum_decompressed_bytes l /\
  0 < maximum_expansion_ratio l /\ 0 < maximum_chunk_bytes l /\ 0 < spool_memory_bytes l.

Section decompression.
Context `{DecompressorLaws G, DecompressorLaws Zs, ZipLibrary}.
Hypothesis reads_limit : forall spool entry n, 0 < n ->
  Forall (fun output => py_len output <= n) (member_reads spool entry n).1.

(** C19: decompression is bounded, whatever the archive, its codec and its chunks do, as long as
    a decompressor and a read of a ZIP member return no more than they are asked for and a
    decompressor that has input left makes output ([DecompressorLaws], [reads_limit]).  Every
    chunk yielded is non-empty and within the chunk limit, and their sum within the document
    limit, on every exit.  A Gzip or Zstandard stream on every exit, and a ZIP archive that is
    accepted, yields at most the expansion ratio times the compressed bytes read, which are
    within their own limit; a ZIP archive that is refused midway has only the document limit
    to keep, since its declared sizes are its own.  An uncompressed document that is accepted is
    yielded as it is.  The loops end: with more rounds than the document limit they never run
    out of them, unless a library raises what stands for that, and further rounds change
    nothing. *)
Theorem decompression_bounded fuel (new_gzip : G) (new_zstandard : Zs) chunks compression limits
    minimum_free_bytes :
  limits_ok limits -> Forall (Forall is_byte) (items chunks) ->
  maximum_decompressed_bytes limits < Z.of_nat fuel ->
  wp (decompress_chunks fuel new_gzip new_zstandard chunks compression limits minimum_free_bytes)
    (fun _ s => small_yields limits s /\
       (compression <> COMP_NONE -> bounded limits (input_cap limits (items chunks) 0) s) /\
       (compression = COMP_NONE -> concat (yielded s) = concat (items chunks)))
    (fun _ s => small_yields limits s /\
       (compression = GZIP \/ compression = ZSTANDARD ->
        bounded limits (input_cap limits (items chunks) 0) s)) empty_stream /\
  (forall fuel', maximum_decompressed_bytes limits < Z.of_nat fuel' ->
   decompress_chunks fuel' new_gzip new_zstandard chunks compression limits minimum_free_bytes empty_stream
   = decompress_chunks fuel new_gzip new_zstandard chunks compression limits minimum_free_bytes empty_stream) /\
  ((forall (d : G) data n e, decompress d data n = OtherError e -> e <> out_of_fuel) ->
   (forall (d : Zs) data n e, decompress d data n = OtherError e -> e <> out_of_fuel) ->
   (forall spool entry n, (member_reads spool entry n).2 <> OtherReadError out_of_fuel) -> failure chunks <> Some out_of_fuel ->
   (decompress_chunks fuel new_gzip new_zstandard chunks compression limits minimum_free_bytes empty_stream).1 <> Raised out_of_fuel).
Proof.
  intros (Hc & Hd & Hr & Hk & Hm) Hb Hf.
  assert (Hs : small_yields limits empty_stream) by (split; [constructor|cbn; lia]).
  assert (Hs0 : bounded limits 0 empty_stream) by (split; [done|cbn; lia]).
  split; [|split].
  - unfold decompress_chunks. wp_step. wp_step.
    + split; [done|]. intros _. eapply bounded_mono; [done| |exact Hs0].
      unfold input_cap. apply Z.min_glb; [lia|]. rewrite Z.add_0_l. apply zsum_nonneg, Forall_map, Forall_forall.
      intros. apply py_len_nonneg.
    + destruct compression.
      * unfold uncompressed. wp_step. eapply wp_mono; [apply (uncompressed_spec limits Hk) with (s := empty_stream); done| |].
        -- cbv beta. intros _ s1 (Hs1 & Hy & _). unfold end_of.
           destruct (failure chunks); wp_step; split; try done. intros [|]; done.
        -- cbv beta. intros e s1 (_ & Hs1 & _). split; [done|]. intros [|]; done.
      * eapply wp_mono; [apply codec_stream_spec; try done; try lia; by apply gzip_loop_ok| |]; cbv beta.
        -- intros _ s1 [Hs1 _]. split; [apply Hs1|done].
        -- intros e s1 [Hs1 _]. split; [apply Hs1|done].
      * eapply wp_mono; [apply zip_spec; try done; lia| |]; cbv beta.
        -- intros _ s1 Hs1. split; [apply Hs1|done].
        -- intros e s1 Hs1. split; [done|]. intros [|]; done.
      * eapply wp_mono; [apply codec_stream_spec; try done; try lia; by apply zstandard_loop_ok| |]; cbv beta.
        -- intros _ s1 [Hs1 _]. split; [apply Hs1|done].
        -- intros e s1 [Hs1 _]. split; [apply Hs1|done].
      * wp_step. split; [done|]. intros [|]; done.
  - intros fuel' Hf'. unfold decompress_chunks, mbind, M_bind.
    destruct (raise_if _ _ _) as [[[]|] s]; [|done]. destruct compression; try done.
    + apply codec_stream_agree; [lia|intros|intros; by apply gzip_keeps].
      apply gzip_fuel; try done; try lia; split; lia.
    + apply codec_stream_agree; [lia|intros|intros; by apply zstandard_keeps].
      apply zstandard_fuel; try done; try lia; split; lia.
  - intros Hg Hz Hreads Hfail.
    assert (Hwp : wp (decompress_chunks fuel new_gzip new_zstandard chunks compression limits minimum_free_bytes)
      (fun _ _ => True) (fun e _ => e <> out_of_fuel) empty_stream).
    { unfold decompress_chunks. wp_step. wp_step; [done|]. destruct compression.
      - unfold uncompressed. wp_step. eapply wp_mono; [apply (uncompressed_spec limits Hk) with (s := empty_stream); done| |]; cbv beta.
        + intros _ s1 _. unfold end_of. destruct (failure chunks); [wp_step; congruence|by wp_step].
        + intros e s1 (-> & _). done.
      - apply codec_stream_ends; [lia|done|]. intros cap pending d dec s Hdec.
        assert (H1' := gzip_keeps limits fuel cap pending d dec s Hdec).
        assert (H2' : wp (gzip_pending limits fuel cap pending d dec) (fun _ _ => True) (fun e _ => e <> out_of_fuel) s)
          by (apply gzip_ends; try done; try lia; split; lia).
        unfold wp in *.
        by destruct (gzip_pending _ _ _ _ _ _ s) as [[?|?] ?].
      - by apply zip_ends.
      - apply codec_stream_ends; [lia|done|]. intros cap pending d dec s Hdec.
        assert (H1' := zstandard_keeps limits fuel cap pending d dec s Hdec).
        assert (H2' : wp (zstandard_pending limits fuel cap pending d dec) (fun _ _ => True) (fun e _ => e <> out_of_fuel) s)
          by (apply zstandard_ends; try done; try lia; split; lia).
        unfold wp in *.
        by destruct (zstandard_pending _ _ _ _ _ _ s) as [[?|?] ?].
      - by wp_step. }
    unfold wp in Hwp. destruct (decompress_chunks _ _ _ _ _ _ _ _) as [[?|?] ?]; [done|]. cbn. congruence.
Qed.
End decompression.

(** ** Witnesses *)

(** One member, "a.xml", stored at offset 0, and a comment of one byte. *)
Definition sample_entry : central_entry := {|
  ce_versions := (20, 20); ce_flags := 0; ce_method := 0; ce_time_date := (0, 0); ce_crc := 7;
  ce_compressed_size := 3; ce_file_size := 3; ce_name := py "a.xml"; ce_extra := [(2, [1; 2])];
  ce_comment := []; ce_attributes := (0, 0); ce_offset := 0 |}.
Definition sample_archive : bytes :=
  py "payload" ++ encode_directory [sample_entry]
  ++ encode_end_record [sample_entry] (py "payload") (py "x") ++ py "x".

Lemma zip_preflight_exact_witness :
  preflight_zip sample_archive (length sample_archive) default_compression_limits tt
    = (Returned tt, tt) /\
  exists payload es comment,
    archive_layout default_compression_limits sample_archive payload es comment.
Proof.
  assert (Hb : Forall is_byte sample_archive).
  { apply Forall_forall. intros b Hin. unfold is_byte.
    assert (Ht : py_all (fun b => (0 <=? b) && (b <? 256)) sample_archive = true)
      by (vm_compute; reflexivity).
    unfold py_all in Ht. rewrite forallb_forall in Ht. apply list_elem_of_In in Hin.
    apply Ht in Hin. apply andb_true_iff in Hin as [H1 H2].
    apply Z.leb_le in H1. apply Z.ltb_lt in H2. split; [exact H1|exact H2]. }
  destruct (zip_preflight_exact sample_archive default_compression_limits tt Hb) as [H _].
  assert (E : preflight_zip sample_archive (length sample_archive) default_compression_limits tt
    = (Returned tt, tt)) by (vm_compute; reflexivity).
  split; [exact E|]. apply (H tt), E.
Defined.

(** A codec that copies its input up to the byte 255, which ends the frame. *)
Record copy_codec := { copy_eof : bool; copy_unused : bytes; copy_tail : bytes }.
Fixpoint copy_input (n : nat) (data : bytes) : bytes * copy_codec :=
  match n, data with
  | _, [] => ([], {| copy_eof := false; copy_unused := []; copy_tail := [] |})
  | O, _ => ([], {| copy_eof := false; copy_unused := []; copy_tail := data |})
  | S n, b :: data =>
      if b =? 255 then ([], {| copy_eof := true; copy_unused := data; copy_tail := [] |})
      else let '(output, c) := copy_input n data in (b :: output, c)
  end.
#[export] Instance copy_decompressor : Decompressor copy_codec := {
  decompress c data n := let '(output, c') := copy_input (Z.to_nat n) data in Decoded output c';
  at_eof := copy_eof; unused_data := copy_unused; unconsumed_tail := copy_tail;
  needs_input _ := true
}.
Lemma copy_input_length n data : (length (copy_input n data).1 <= n)%nat.
Proof.
  revert data. induction n as [|n IH]; intros [|b data]; cbn; try lia.
  destruct (b =? 255); cbn; [lia|]. specialize (IH data). destruct (copy_input n data). cbn in *. lia.
Qed.
Lemma copy_input_tail n data : (0 < n)%nat -> copy_tail (copy_input n data).2 <> [] ->
  (copy_input n data).1 <> [].
Proof.
  destruct n, data as [|b data]; cbn; try done; [lia|]. intros _. destruct (b =? 255); [done|].
  by destruct (copy_input n data).
Qed.
#[export] Instance copy_laws : DecompressorLaws copy_codec.
Proof.
  split; intros d data n output d' Hn; cbn; pose proof (copy_input_length (Z.to_nat n) data) as Hl;
    pose proof (copy_input_tail (Z.to_nat n) data ltac:(lia)) as Ht;
    destruct (copy_input _ _) as [o c]; intros [= <- <-]; cbn in *; [unfold py_len; lia|auto|done].
Qed.
(** An archive of one member, read byte by byte. *)
#[export] Instance one_member : ZipLibrary := {
  open_zip _ := Some [{| filename := py "a.xml"; external_attr := 0; flag_bits := 0; compress_type := 0;
                         zi_compress_size := 3; zi_file_size := 3 |}];
  member_reads _ _ _ := ([[1]; [2]; [3]], EndOfMember);
  available _ _ := true }.

Definition sample_limits : CompressionLimits := {|
  maximum_compressed_bytes := 200; maximum_decompressed_bytes := 50; maximum_expansion_ratio := 2;
  maximum_zip_entries := 4; maximum_zip_directory_bytes := 100; maximum_chunk_bytes := 2;
  spool_memory_bytes := 10; maximum_zstandard_window_log := 27 |}.
Definition sample_chunks : chunk_source :=
  {| items := [[10; 20; 30]; [40; 255]]; failure := None |}.
Definition fresh_codec : copy_codec := {| copy_eof := false; copy_unused := []; copy_tail := [] |}.
Abbreviation sample_stream := (decompress_chunks 60 fresh_codec fresh_codec sample_chunks GZIP sample_limits 0).

Abbreviation sample_zip := (decompress_chunks 60 fresh_codec fresh_codec {| items := [sample_archive]; failure := None |} ZIP sample_limits 0).

Lemma decompression_bounded_witness :
  sample_stream empty_stream = (Returned tt, (sample_stream empty_stream).2) /\
  yielded (sample_stream empty_stream).2 = [[10; 20]; [30]; [40]] /\
  bounded sample_limits 5 (sample_stream empty_stream).2 /\
  sample_zip empty_stream = (Returned tt, (sample_zip empty_stream).2) /\
  yielded (sample_zip empty_stream).2 = [[1]; [2]; [3]] /\ small_yields sample_limits (sample_zip empty_stream).2.
Proof.
  assert (Hb : Forall (Forall is_byte) (items sample_chunks)).
  { repeat constructor; discriminate. }
  assert (Hb' : Forall (Forall is_byte) [sample_archive]).
  { constructor; [|constructor]. apply Forall_forall. intros b Hin.
    assert (Ht : forallb (fun b => (0 <=? b) && (b <? 256)) sample_archive = true) by (vm_compute; reflexivity).
    rewrite List.forallb_forall in Ht. apply list_elem_of_In, Ht in Hin. unfold is_byte. lia. }
  assert (Hz : forall spool entry n, 0 < n ->
    Forall (fun output => py_len output <= n) (member_reads spool entry n).1) 
    by (intros; cbn; repeat first [apply Forall_nil_2|apply Forall_cons_2; [unfold py_len; cbn; lia|]]).
  destruct (decompression_bounded (G := copy_codec) (Zs := copy_codec) Hz 60 fresh_codec fresh_codec sample_chunks GZIP sample_limits 0)
    as [H _]; [repeat split; lia|exact Hb|cbn; lia|].
  destruct (decompression_bounded (G := copy_codec) (Zs := copy_codec) Hz 60 fresh_codec fresh_codec
    {| items := [sample_archive]; failure := None |} ZIP sample_limits 0) as [H' _]; [repeat split; lia|exact Hb'|cbn; lia|].
  split; [vm_compute; reflexivity|]. split; [vm_compute; reflexivity|]. split.
  - unfold wp in H. revert H. destruct (sample_stream empty_stream) as [o s] eqn:E. cbn [snd].
    destruct o as [[]|e]; intros H; apply H; [discriminate|by left].
  - split; [vm_compute; reflexivity|]. split; [vm_compute; reflexivity|].
    unfold wp in H'. revert H'. destruct (sample_zip empty_stream) as [o s] eqn:E. cbn [snd].
    destruct o as [[]|e]; intros [? _]; done.
Defined.
