(* ===== verification/XmlTokens.v ===== *)
(** The token guard of [src/src/makolet/adapters/parsers/xml.py]: [_XmlTokenGuard], the state
    machine that bounds lexical tokens before Expat retains them.

    A scan consumes a prefix of the rest of the text and returns what is left of it; each
    position of the source is a suffix here. *)
From S2P Require Import Prelude Errors Effects Text SourceValues.

Inductive token_mode :=
  | TOKEN_TEXT | TOKEN_OPEN | TOKEN_ELEMENT | TOKEN_DECLARATION | TOKEN_COMMENT | TOKEN_CDATA
  | TOKEN_PROCESSING_INSTRUCTION.
#[export] Instance token_mode_eq_dec : EqDecision token_mode.
Proof. solve_decision. Defined.

(** The attributes of [_XmlTokenGuard]. *)
Record guard := {
  mode : token_mode;
  token_characters : Z;
  text_characters : Z;
  quote : option Z;
  quoted_characters : Z;
  declaration_prefix : pystr
}.
#[export] Instance guard_eq_dec : EqDecision guard.
Proof. solve_decision. Defined.

Definition new_guard : guard := {| mode := TOKEN_TEXT; token_characters := 0; text_characters := 0;
  quote := None; quoted_characters := 0; declaration_prefix := [] |}.

Definition malformed : exn := MakoletExn MalformedDocumentError 0.

Definition set_mode (m : token_mode) (g : guard) : guard := {| mode := m;
  token_characters := token_characters g; text_characters := text_characters g; quote := quote g;
  quoted_characters := quoted_characters g; declaration_prefix := declaration_prefix g |}.
Definition set_prefix (p : pystr) (g : guard) : guard := {| mode := mode g;
  token_characters := token_characters g; text_characters := text_characters g; quote := quote g;
  quoted_characters := quoted_characters g; declaration_prefix := p |}.
Definition set_quote (q : option Z) (g : guard) : guard := {| mode := mode g;
  token_characters := token_characters g; text_characters := text_characters g; quote := q;
  quoted_characters := 0; declaration_prefix := declaration_prefix g |}.
Definition reset_text (g : guard) : guard := {| mode := mode g;
  token_characters := token_characters g; text_characters := 0; quote := quote g;
  quoted_characters := quoted_characters g; declaration_prefix := declaration_prefix g |}.

(** What comes before the first character that satisfies [f], and the rest from it on. *)
Fixpoint before (f : Z -> bool) (s : pystr) : pystr * pystr :=
  match s with
  | [] => ([], [])
  | c :: s' => if f c then ([], s) else let '(a, b) := before f s' in (c :: a, b)
  end.
(** What comes before the first occurrence of [d], and what comes after it. *)
Fixpoint before_string (d s : pystr) : option (pystr * pystr) :=
  if starts_with d s then Some ([], drop (length d) s)
  else match s with
       | [] => None
       | c :: s => '(a, b) ← before_string d s; Some (c :: a, b)
       end.

(** The beginnings of comments and of CDATA sections. *)
Definition COMMENT_START : pystr := py "<!--".
Definition CDATA_START : pystr := py "<![CDATA[".

Section guard.
Variables maximum_field_characters maximum_token_characters : Z.

Definition add_text (n : Z) : M guard unit :=
  modify (fun g => {| mode := mode g; token_characters := token_characters g;
    text_characters := text_characters g + n; quote := quote g;
    quoted_characters := quoted_characters g; declaration_prefix := declaration_prefix g |});;
  g ← get_state; raise_if (maximum_field_characters <? text_characters g) malformed.
Definition add_quoted (n : Z) : M guard unit :=
  modify (fun g => {| mode := mode g; token_characters := token_characters g;
    text_characters := text_characters g; quote := quote g;
    quoted_characters := quoted_characters g + n; declaration_prefix := declaration_prefix g |});;
  g ← get_state; raise_if (maximum_field_characters <? quoted_characters g) malformed.
Definition add_token (n : Z) : M guard unit :=
  modify (fun g => {| mode := mode g; token_characters := token_characters g + n;
    text_characters := text_characters g; quote := quote g;
    quoted_characters := quoted_characters g; declaration_prefix := declaration_prefix g |});;
  g ← get_state; raise_if (maximum_token_characters <? token_characters g) malformed.
Definition finish_markup : M guard unit := put_state new_guard.

Definition scan_text (text : pystr) : M guard pystr :=
  let '(content, rest) := before (Z.eqb 60) text in
  add_text (py_len content);;
  match rest with
  | [] => mret []
  | _ :: rest =>
      modify (fun g => {| mode := TOKEN_OPEN; token_characters := 1; text_characters := 0;
        quote := quote g; quoted_characters := quoted_characters g; declaration_prefix := [60] |});;
      mret rest
  end.

(** An empty text is not scanned; the answers for one are not reached. *)
Definition scan_open (text : pystr) : M guard pystr :=
  match text with
  | [] => mret []
  | c :: rest =>
      if c =? 63 then
        add_token 1;; modify (set_mode TOKEN_PROCESSING_INSTRUCTION);; mret rest
      else if c =? 33 then
        add_token 1;; modify (fun g => set_prefix (py "<!") (set_mode TOKEN_DECLARATION g));; mret rest
      else modify (set_mode TOKEN_ELEMENT);; mret text
  end.

Definition markup_special (c : Z) : bool := (c =? 39) || (c =? 34) || (c =? 62).
Definition scan_element (text : pystr) : M guard pystr :=
  g ← get_state;
  match quote g with
  | Some q =>
      let '(content, rest) := before (Z.eqb q) text in
      add_token (py_len content);;
      add_quoted (py_len content);;
      match rest with
      | [] => mret []
      | _ :: rest => add_token 1;; modify (set_quote None);; mret rest
      end
  | None =>
      let '(content, rest) := before markup_special text in
      match rest with
      | [] => add_token (py_len content);; mret []
      | c :: rest =>
          add_token (py_len content + 1);;
          (if c =? 62 then finish_markup else modify (set_quote (Some c)));;
          mret rest
      end
  end.

Definition scan_declaration (text : pystr) : M guard pystr :=
  match text with
  | [] => mret []
  | c :: rest =>
      add_token 1;;
      g ← get_state;
      let prefix := declaration_prefix g ++ [c] in
      modify (set_prefix prefix);;
      (if bool_decide (prefix = COMMENT_START) then modify (set_mode TOKEN_COMMENT)
       else if bool_decide (prefix = CDATA_START) then modify (fun g => reset_text (set_mode TOKEN_CDATA g))
       else when (negb (py_any (starts_with prefix) [COMMENT_START; CDATA_START])) (modify (set_mode TOKEN_ELEMENT)));;
      mret rest
  end.

Definition scan_delimited (delimiter text : pystr) : M guard pystr :=
  match before_string delimiter text with
  | None => add_token (py_len text);; mret []
  | Some (content, rest) =>
      add_token (py_len content + py_len delimiter);;
      finish_markup;;
      mret rest
  end.

Definition scan_cdata (text : pystr) : M guard pystr :=
  match before_string (py "]]>") text with
  | None => add_text (py_len text);; add_token (py_len text);; mret []
  | Some (content, rest) =>
      add_text (py_len content);;
      add_token (py_len content);;
      add_token 3;;
      finish_markup;;
      mret rest
  end.

(** One turn of [while position < len(text)]. *)
Definition scan (text : pystr) : M guard pystr :=
  g ← get_state;
  match mode g with
  | TOKEN_TEXT => scan_text text
  | TOKEN_OPEN => scan_open text
  | TOKEN_ELEMENT => scan_element text
  | TOKEN_DECLARATION => scan_declaration text
  | TOKEN_COMMENT => scan_delimited (py "-->") text
  | TOKEN_CDATA => scan_cdata text
  | TOKEN_PROCESSING_INSTRUCTION => scan_delimited (py "?>") text
  end.

Fixpoint guard_loop (fuel : nat) (text : pystr) : M guard unit :=
  if str_truthy text then
    match fuel with
    | O => raise (PyExn AssertionError)
    | S fuel => rest ← scan text; guard_loop fuel rest
    end
  else mret tt.

(** Every second turn consumes a character. *)
Definition guard_feed (text : pystr) : M guard unit := guard_loop (2 * length text) text.

Definition guard_close : M guard unit :=
  g ← get_state; raise_if (negb (bool_decide (mode g = TOKEN_TEXT))) malformed.

(** The chunks of a document, and its end. *)
Fixpoint guard_chunks (chunks : list pystr) : M guard unit :=
  match chunks with
  | [] => mret tt
  | chunk :: chunks => guard_feed chunk;; guard_chunks chunks
  end.
Definition guard_document (chunks : list pystr) : M guard unit := guard_chunks chunks;; guard_close.
End guard.

(** The bytes of an XML document: [src/src/makolet/adapters/parsers/encoding.py], and the checks
    of [adapters/parsers/xml.py] on raw bytes, [_check_security_markers] and
    [_reject_html_prefix].

    Incremental decoders are the class [Codecs]; the regular expressions are written out. *)
Inductive codec := UTF_8_SIG | CP1255 | UTF_16 | UTF_16_LE | UTF_16_BE.
#[export] Instance codec_eq_dec : EqDecision codec.
Proof. solve_decision. Defined.

(** [codecs.getincrementaldecoder(codec)(errors="strict")]; [None] is a [UnicodeError]. *)
Class Codecs := {
  decoder : Type;
  new_decoder : codec -> decoder;
  decode : decoder -> bytes -> bool -> option (pystr * decoder)
}.

(** ** Byte strings *)

Definition ascii_upper (s : bytes) : bytes := map (fun c => if is_lower c then c - 32 else c) s.
Definition without_nulls (s : bytes) : bytes := List.filter (fun c => negb (c =? 0)) s.
(** [\s] of a byte pattern, and what [bytes.lstrip()] strips. *)
Definition byte_space (c : Z) : bool := ((9 <=? c) && (c <=? 13)) || (c =? 32).
(** [\w] of a byte pattern. *)
Definition byte_word (c : Z) : bool := is_digit c || is_upper c || is_lower c || (c =? 95).

(** [prefix.startswith(word)] without regard to case, and what follows. *)
Definition strip_word (word s : bytes) : option bytes :=
  if starts_with word (ascii_lower (take (length word) s)) then Some (drop (length word) s) else None.

(** ** Security markers *)

Definition SECURITY_MARKERS : list bytes := [py "<!DOCTYPE"; py "<!ENTITY"].
Definition HTML_PREFIXES : list bytes := [py "<HTML"; py "<!DOCTYPEHTML"].

(** [data[-32:]]. *)
Definition last_32 (s : bytes) : bytes := drop (length s - 32) s.

Definition has_marker (s : bytes) : bool :=
  py_any (fun marker => contains marker (ascii_upper (without_nulls s))) SECURITY_MARKERS.
Definition check_security_markers {W} (tail chunk : bytes) : M W bytes :=
  raise_if (has_marker (tail ++ chunk)) malformed;;
  mret (last_32 (tail ++ chunk)).

(** [_reject_html_prefix]. *)
Definition BOM_AND_SPACE : bytes := [0xEF; 0xBB; 0xBF; 0xFF; 0xFE; 32; 9; 13; 10].
Definition reject_html_prefix {W} (prefix : bytes) : M W unit :=
  let normalized := ascii_upper (drop_while (fun c => bool_decide (c ∈ BOM_AND_SPACE)) (without_nulls prefix)) in
  let rejects (normalized : bytes) :=
    let compact := List.filter (fun c => negb (byte_space c)) (take 128 normalized) in
    py_any (fun marker => starts_with marker compact) HTML_PREFIXES in
  if starts_with (py "<?XML") normalized then
    match before_string (py "?>") normalized with
    | None => mret tt
    | Some (_, rest) => raise_if (rejects (drop_while byte_space rest)) malformed
    end
  else raise_if (rejects normalized) malformed.

(** ** The declared encoding *)

(** [[a-z0-9._:-]] without regard to case. *)
Definition encoding_character (c : Z) : bool :=
  is_digit c || is_upper c || is_lower c || bool_decide (c ∈ [46; 95; 58; 45]).

(** The pattern of an encoding attribute, with either quote, at the start of [s]. *)
Definition encoding_here (s : bytes) : option bytes :=
  rest ← strip_word (py "encoding") s;
  match drop_while byte_space rest with
  | c :: rest =>
      if c =? 61 then
        match drop_while byte_space rest with
        | q :: rest =>
            if (q =? 34) || (q =? 39) then
              let '(name, rest) := span encoding_character rest in
              match name, rest with
              | _ :: _, q' :: _ => if q' =? q then Some name else None
              | _, _ => None
              end
            else None
        | [] => None
        end
      else None
  | [] => None
  end.
(** [_ENCODING_ATTRIBUTE.search]: the first match after a word boundary. *)
Fixpoint encoding_attribute (after_word : bool) (s : bytes) : option bytes :=
  match (if after_word then None else encoding_here s) with
  | Some name => Some name
  | None => match s with [] => None | c :: s => encoding_attribute (byte_word c) s end
  end.

Definition UTF8_BOM : bytes := [0xEF; 0xBB; 0xBF].
(** [_declared_encoding]. *)
Definition declared_encoding (prefix : bytes) : option bytes :=
  let s := default prefix (if starts_with UTF8_BOM prefix then Some (drop 3 prefix) else None) in
  rest ← strip_word (py "<?xml") (drop_while (fun c => bool_decide (c ∈ [32; 9; 13; 10])) s);
  if match rest with c :: _ => byte_word c | [] => false end then None
  else
    '(attributes, _) ← before_string (py "?>") rest;
    name ← encoding_attribute false attributes;
    Some (ascii_lower name).

(** [_utf16_without_bom]: pairs of white space, then the pair of a [<]. *)
Fixpoint pairs_until (spaces : list bytes) (stop s : bytes) : bool :=
  match s with
  | a :: b :: s =>
      if bool_decide ([a; b] ∈ spaces) then pairs_until spaces stop s
      else bool_decide ([a; b] = stop)
  | _ => false
  end.
Definition utf16_without_bom (prefix : bytes) : option codec :=
  let s := take 128 prefix in
  if pairs_until [[32; 0]; [9; 0]; [10; 0]; [13; 0]] [60; 0] s then Some UTF_16_LE
  else if pairs_until [[0; 32]; [0; 9]; [0; 10]; [0; 13]] [0; 60] s then Some UTF_16_BE
  else None.

(** ** The probe *)

Definition PROBE_BYTES : Z := 4096.
Definition UTF32_SIGNATURES : list bytes := [[0; 0; 0xFE; 0xFF]; [0xFF; 0xFE; 0; 0]; [0; 0; 0; 60]; [60; 0; 0; 0]].
Definition UTF8_NAMES : list bytes := map py ["utf8"; "utf-8"]%string.
Definition WINDOWS_1255_NAMES : list bytes := map py ["cp1255"; "windows1255"; "windows-1255"; "x-cp1255"]%string.

Section probe.
Context `{Codecs}.

(** A [_StrictEncodingValidator]: its decoder while it is valid. *)
Definition validator_feed (v : option decoder) (chunk : bytes) (final : bool) : option decoder :=
  d ← v; snd <$> decode d chunk final.

(** [XmlEncodingProbe]. *)
Record probe := { probe_prefix : bytes; utf8 : option decoder; windows_1255 : option decoder }.
Definition new_probe : probe := {| probe_prefix := []; utf8 := Some (new_decoder UTF_8_SIG);
  windows_1255 := Some (new_decoder CP1255) |}.
Definition probe_feed (p : probe) (chunk : bytes) : probe := {|
  probe_prefix := probe_prefix p ++ take (Z.to_nat PROBE_BYTES - length (probe_prefix p)) chunk;
  utf8 := validator_feed (utf8 p) chunk false;
  windows_1255 := validator_feed (windows_1255 p) chunk false |}.

(** [resolve], once. *)
Definition resolve {W} (p : probe) : M W codec :=
  let utf8_valid := bool_decide (is_Some (validator_feed (utf8 p) [] true)) in
  let windows_1255_valid := bool_decide (is_Some (validator_feed (windows_1255 p) [] true)) in
  let prefix := probe_prefix p in
  raise_if (py_any (fun signature => starts_with signature prefix) UTF32_SIGNATURES) malformed;;
  if py_any (fun bom => starts_with bom prefix) [[0xFF; 0xFE]; [0xFE; 0xFF]] then mret UTF_16
  else match utf16_without_bom prefix with
       | Some c => mret c
       | None =>
           if starts_with UTF8_BOM prefix then raise_if (negb utf8_valid) malformed;; mret UTF_8_SIG
           else
             let declared := default [] (declared_encoding prefix) in
             if bool_decide (declared ∈ WINDOWS_1255_NAMES) && windows_1255_valid then mret CP1255
             else if bool_decide (declared ∈ UTF8_NAMES) && utf8_valid then mret UTF_8_SIG
             else if utf8_valid && negb windows_1255_valid then mret UTF_8_SIG
             else if windows_1255_valid && negb utf8_valid then mret CP1255
             else if utf8_valid && windows_1255_valid then mret UTF_8_SIG
             else raise malformed
       end.
End probe.
