(* ===== verification/XmlTokensFacts.v ===== *)
(** The token guard: its loop ends, what its counters count, and when it reads chunks as it
    reads their concatenation. *)
From S2P Require Import Prelude Errors Effects Text XmlTokens.

(** ** Searching *)

Lemma before_split f s : s = (before f s).1 ++ (before f s).2 /\
  Forall (fun c => f c = false) (before f s).1 /\
  match (before f s).2 with [] => True | c :: _ => f c = true end.
Proof.
  induction s as [|c s (IH & Hall & Hhd)]; [done|]. simpl. destruct (f c) eqn:E; [done|].
  destruct (before f s) as [a b]. simpl in *. subst s. split_and!; [done|by constructor|done].
Qed.

Lemma before_app f s t a b : before f s = (a, b) ->
  before f (s ++ t) = match b with [] => let '(a', b') := before f t in (a ++ a', b') | _ => (a, b ++ t) end.
Proof.
  revert a b. induction s as [|c s IH]; intros a b; simpl.
  - intros [= <- <-]. by destruct (before f t).
  - destruct (f c); [by intros [= <- <-]|]. destruct (before f s) as [a1 b1]. intros [= <- <-].
    rewrite (IH a1 b1 eq_refl). destruct b1; [|done]. by destruct (before f t).
Qed.

Lemma starts_with_app_l d s t : starts_with d s = true -> starts_with d (s ++ t) = true.
Proof. rewrite !starts_with_spec. intros [r ->]. exists (r ++ t). by rewrite app_assoc. Qed.

Lemma starts_with_drop d s : starts_with d s = true -> s = d ++ drop (length d) s.
Proof. rewrite starts_with_spec. intros [r ->]. by rewrite drop_app_length. Qed.

Lemma before_string_split d s a b : before_string d s = Some (a, b) -> s = a ++ d ++ b.
Proof.
  revert a b. induction s as [|c s IH]; intros a b; simpl; destruct (starts_with d _) eqn:E.
  - intros [= <- <-]. by apply starts_with_drop.
  - done.
  - intros [= <- <-]. by apply starts_with_drop.
  - destruct (before_string d s) as [[a1 b1]|]; [|done]. intros [= <- <-]. simpl. by rewrite (IH a1 b1 eq_refl) at 1.
Qed.

Lemma before_string_app d s t a b : before_string d s = Some (a, b) -> before_string d (s ++ t) = Some (a, b ++ t).
Proof.
  revert a b. induction s as [|c s IH]; intros a b Hs.
  - simpl in Hs. destruct (starts_with d []) eqn:E; [|done]. destruct d; [|done]. injection Hs as <- <-.
    by destruct t.
  - cbn [before_string app] in *. destruct (starts_with d (c :: s)) eqn:E.
    + rewrite (starts_with_app_l d (c :: s) t E : starts_with d (c :: s ++ t) = true). injection Hs as <- <-.
      do 2 f_equal. apply starts_with_spec in E as [r Hr]. change (c :: s ++ t) with ((c :: s) ++ t).
      by rewrite Hr, <- app_assoc, !drop_app_length.
    + destruct (before_string d s) as [[a1 b1]|] eqn:Es; [|done]. injection Hs as <- <-.
      destruct (starts_with d (c :: s ++ t)) eqn:E2; [|by rewrite (IH a1 b1 eq_refl)].
      exfalso. apply before_string_split in Es. apply not_true_iff_false in E. apply E.
      apply starts_with_spec in E2 as [r Hr]. apply starts_with_spec.
      change (c :: s ++ t) with ((c :: s) ++ t) in Hr.
      assert (Hlen : (length d <= length (c :: s))%nat) by (rewrite Es; simpl; rewrite !length_app; lia).
      exists (drop (length d) (c :: s)). rewrite <- (take_drop (length d) (c :: s)) at 1. f_equal.
      apply (f_equal (take (length d))) in Hr. by rewrite take_app_le, take_app_length in Hr by done.
Qed.

(** No occurrence of [d] starts in [s] and ends in [t]. *)
Definition splits (d s t : pystr) : Prop :=
  exists d1 d2, d1 <> [] /\ d2 <> [] /\ d = d1 ++ d2 /\ d1 `suffix_of` s /\ d2 `prefix_of` t.

Lemma before_string_none_app d s t : d <> [] -> ~ splits d s t -> before_string d s = None ->
  before_string d (s ++ t) = '(a, b) ← before_string d t; Some (s ++ a, b).
Proof.
  intros Hd. induction s as [|c s IH]; intros Hsp Hs.
  - simpl. by destruct (before_string d t) as [[a b]|].
  - cbn [before_string app] in *. destruct (starts_with d (c :: s)) eqn:E; [done|].
    destruct (before_string d s) as [[? ?]|] eqn:Es; [done|].
    destruct (starts_with d (c :: s ++ t)) eqn:E2.
    + exfalso. apply starts_with_spec in E2 as [r Hr]. change (c :: s ++ t) with ((c :: s) ++ t) in Hr.
      destruct (decide (length d <= length (c :: s))%nat) as [Hle|Hgt].
      * apply not_true_iff_false in E. apply E, starts_with_spec.
        exists (drop (length d) (c :: s)). rewrite <- (take_drop (length d) (c :: s)) at 1. f_equal.
        apply (f_equal (take (length d))) in Hr. by rewrite take_app_le, take_app_length in Hr by done.
      * apply Hsp. exists (c :: s), (drop (length (c :: s)) d). split_and!; [done| | |done|].
        -- intros Hn. apply (f_equal length) in Hn. rewrite length_drop in Hn. simpl in Hn, Hgt. lia.
        -- rewrite <- (take_drop (length (c :: s)) d) at 1. f_equal.
           apply (f_equal (take (length (c :: s)))) in Hr. rewrite take_app_length, take_app_le in Hr by lia. done.
        -- exists r. apply (f_equal (drop (length (c :: s)))) in Hr.
           rewrite drop_app_length, drop_app_le in Hr by lia. done.
    + rewrite IH; [|intros (d1 & d2 & ? & ? & ? & ? & ?); apply Hsp; exists d1, d2; split_and!; try done;
        by apply suffix_cons_r|done].
      by destruct (before_string d t) as [[a b]|].
Qed.

(** ** The loop *)

Section facts.
Variables F T : Z.
Abbreviation scan := (scan F T).
Abbreviation guard_loop := (guard_loop F T).
Abbreviation guard_feed := (guard_feed F T).
Implicit Types (g : guard) (text : pystr).

Lemma wp_add_text n Q E g :
  (F < text_characters g + n -> forall g', E malformed g') ->
  (text_characters g + n <= F -> Q tt {| mode := mode g; token_characters := token_characters g;
    text_characters := text_characters g + n; quote := quote g;
    quoted_characters := quoted_characters g; declaration_prefix := declaration_prefix g |}) ->
  wp (add_text F n) Q E g.
Proof. intros HE HQ. unfold add_text. repeat wp_step; simpl in *; [apply HE; lia|apply HQ; lia]. Qed.
Lemma wp_add_quoted n Q E g :
  (F < quoted_characters g + n -> forall g', E malformed g') ->
  (quoted_characters g + n <= F -> Q tt {| mode := mode g; token_characters := token_characters g;
    text_characters := text_characters g; quote := quote g;
    quoted_characters := quoted_characters g + n; declaration_prefix := declaration_prefix g |}) ->
  wp (add_quoted F n) Q E g.
Proof. intros HE HQ. unfold add_quoted. repeat wp_step; simpl in *; [apply HE; lia|apply HQ; lia]. Qed.
Lemma wp_add_token n Q E g :
  (T < token_characters g + n -> forall g', E malformed g') ->
  (token_characters g + n <= T -> Q tt {| mode := mode g; token_characters := token_characters g + n;
    text_characters := text_characters g; quote := quote g;
    quoted_characters := quoted_characters g; declaration_prefix := declaration_prefix g |}) ->
  wp (add_token T n) Q E g.
Proof. intros HE HQ. unfold add_token. repeat wp_step; simpl in *; [apply HE; lia|apply HQ; lia]. Qed.

(** What the counters count in the text [h] that was consumed. *)
Definition open_value (counter maximum : Z) (ok : Z -> Prop) (token : pystr) : Prop :=
  exists v, v `suffix_of` token /\ Forall ok v /\ py_len v = counter /\ counter <= maximum.
Definition token_inv (h : pystr) g : Prop :=
  exists finished token, h = finished ++ token /\
    (quote g = None \/ mode g = TOKEN_ELEMENT) /\
    if bool_decide (mode g = TOKEN_TEXT) then
      (finished = [] \/ last finished = Some 62) /\ Forall (fun c => c <> 60) token /\
      token_characters g = 0 /\ text_characters g = py_len token /\ text_characters g <= F
    else
      head token = Some 60 /\ token_characters g = py_len token /\ token_characters g <= T /\
      (forall q, quote g = Some q -> open_value (quoted_characters g) F (fun c => c <> q) token) /\
      (mode g = TOKEN_CDATA -> open_value (text_characters g) F (fun _ => True) token).

(** How many turns the loop may still take. *)
Definition need g text : nat :=
  match text with [] => 0 | _ => 2 * length text - if bool_decide (mode g = TOKEN_OPEN) then 0 else 1 end.

(** One scan eats a prefix. *)
Definition eats (h text : pystr) g (rest : pystr) g' : Prop :=
  exists eaten, text = eaten ++ rest /\ token_inv (h ++ eaten) g' /\ (need g' rest < need g text)%nat.

Lemma need_less g g' text eaten rest : text = eaten ++ rest -> eaten <> [] ->
  (mode g = TOKEN_TEXT \/ mode g' <> TOKEN_OPEN) -> mode g <> TOKEN_OPEN \/ mode g' <> TOKEN_OPEN ->
  (need g' rest < need g text)%nat.
Proof.
  intros -> Hne H1 H2. destruct eaten as [|c eaten]; [done|]. unfold need. cbn [app length].
  rewrite length_app. destruct rest as [|d rest]; cbn [length]; repeat case_bool_decide; try lia; naive_solver.
Qed.

Lemma token_inv_finish h : last h = Some 62 -> 0 <= F -> token_inv h new_guard.
Proof.
  intros Hl HF. exists h, []. rewrite app_nil_r. split_and!; [done|by left|]. simpl. split_and!; try done; by right.
Qed.

Lemma open_value_grow counter maximum ok token more :
  open_value counter maximum ok token -> Forall ok more -> counter + py_len more <= maximum ->
  open_value (counter + py_len more) maximum ok (token ++ more).
Proof.
  intros (v & [w ->] & Hok & <- & Hle) Hmore Hsum. exists (v ++ more). split_and!.
  - exists w. by rewrite app_assoc.
  - by apply Forall_app.
  - by rewrite py_len_app.
  - done.
Qed.

Lemma open_value_empty maximum ok token : 0 <= maximum -> open_value 0 maximum ok token.
Proof. intros. exists []. split_and!; [apply suffix_nil|constructor|done|done]. Qed.

Hypothesis HF : 0 <= F.
Hypothesis HT : 1 <= T.

(** A scan that stays inside the token [h = finished ++ token] and eats [eaten]. *)
Lemma token_inv_inside h g eaten g' : token_inv h g ->
  mode g <> TOKEN_TEXT -> mode g' <> TOKEN_TEXT ->
  token_characters g' = token_characters g + py_len eaten -> token_characters g' <= T ->
  (quote g' = None \/ mode g' = TOKEN_ELEMENT) ->
  (forall token q, (forall p, quote g = Some p -> open_value (quoted_characters g) F (fun c => c <> p) token) ->
     quote g' = Some q -> open_value (quoted_characters g') F (fun c => c <> q) (token ++ eaten)) ->
  (forall token, (mode g = TOKEN_CDATA -> open_value (text_characters g) F (fun _ => True) token) ->
     mode g' = TOKEN_CDATA -> open_value (text_characters g') F (fun _ => True) (token ++ eaten)) ->
  token_inv (h ++ eaten) g'.
Proof.
  intros (finished & token & -> & _ & Hinv) Hm Hm' Hc Hle Hq Hquoted Hcdata.
  rewrite bool_decide_eq_false_2 in Hinv by done. destruct Hinv as (Hhd & Htok & _ & Hv & Hd).
  exists finished, (token ++ eaten). rewrite app_assoc. split_and!; [done|done|].
  rewrite bool_decide_eq_false_2 by done. split_and!; [|rewrite py_len_app; lia|done|naive_solver|naive_solver].
  by destruct token.
Qed.

Lemma scan_text_spec h g text : token_inv h g -> mode g = TOKEN_TEXT -> text <> [] ->
  wp (scan_text F text) (fun rest g' => eats h text g rest g') (fun e _ => e = malformed) g.
Proof.
  intros (finished & token & -> & Hq & Hinv) Hm Hne. rewrite Hm in Hinv. simpl in Hinv.
  destruct Hinv as (Hfin & Hno & Htok & Htext & HleF). destruct Hq as [Hq|]; [|congruence].
  unfold scan_text. destruct (before_split (Z.eqb 60) text) as (Hsplit & Hnone & Hhd).
  destruct (before (Z.eqb 60) text) as [content rest]. cbn [fst snd] in *.
  assert (Hnone' : Forall (fun c => c <> 60) content).
  { eapply Forall_impl; [exact Hnone|]. intros c Hc%Z.eqb_neq. lia. }
  wp_step. apply wp_add_text; [done|]. intros Hle. destruct rest as [|c rest].
  - wp_step. exists content. split_and!; [done| |].
    + exists finished, (token ++ content). rewrite app_assoc. split_and!; [done|by left|]. cbn [mode]. rewrite Hm. simpl.
      split_and!; [done|by apply Forall_app|done| |done]. rewrite py_len_app. lia.
    + apply (need_less _ _ _ content); [done| |simpl; by left|simpl; left; congruence]. rewrite app_nil_r in Hsplit. by subst.
  - repeat wp_step. apply Z.eqb_eq in Hhd as <-. exists (content ++ [60]). split_and!.
    + by rewrite <- app_assoc.
    + exists (finished ++ token ++ content), [60]. rewrite <- !app_assoc. split_and!; [done|simpl; by left|]. simpl.
      split_and!; try done. intros q Hq'. simpl in Hq'. congruence.
    + apply (need_less _ _ _ (content ++ [60])); [by rewrite <- app_assoc|by destruct content|by left|left; congruence].
Qed.

Lemma scan_open_spec h g text : token_inv h g -> mode g = TOKEN_OPEN -> text <> [] ->
  wp (scan_open T text) (fun rest g' => eats h text g rest g') (fun e _ => e = malformed) g.
Proof.
  intros Hinv Hm Hne. assert (Hq : quote g = None) by (destruct Hinv as (? & ? & _ & [] & _); congruence).
  destruct text as [|c text]; [done|]. cbn [scan_open].
  destruct (c =? 63); [|destruct (c =? 33)].
  1,2: wp_step; apply wp_add_token; [done|]; intros Hle; repeat wp_step; exists [c]; split_and!; [done| |
    by apply (need_less _ _ _ [c]); [..|right|right]];
    apply (token_inv_inside h g); try done; simpl; intros; try congruence; by left.
  repeat wp_step. exists []. split_and!; [done| |].
  - apply (token_inv_inside h g); simpl; try done; try congruence.
    + rewrite py_len_nil. lia.
    + destruct Hinv as (? & ? & _ & _ & Hi). rewrite Hm in Hi. simpl in Hi. naive_solver.
    + by right.
  - unfold need. rewrite Hm. simpl. lia.
Qed.

Lemma scan_element_spec h g text : token_inv h g -> mode g = TOKEN_ELEMENT -> text <> [] ->
  wp (scan_element F T text) (fun rest g' => eats h text g rest g') (fun e _ => e = malformed) g.
Proof.
  intros Hinv Hm Hne. assert (HmT : mode g <> TOKEN_TEXT) by congruence. assert (HmO : mode g <> TOKEN_OPEN) by congruence.
  unfold scan_element, finish_markup. wp_step. wp_step. destruct (quote g) as [q|] eqn:Eq.
  - destruct (before_split (Z.eqb q) text) as (Hsplit & Hnone & Hhd).
    destruct (before (Z.eqb q) text) as [content rest]. cbn [fst snd] in *.
    assert (Hno : Forall (fun c => c <> q) content) by (eapply Forall_impl; [exact Hnone|]; intros c Hc%Z.eqb_neq; lia).
    wp_step. apply wp_add_token; [done|]. intros Hle. wp_step. apply wp_add_quoted; [done|]. cbn [quoted_characters]. intros HleF.
    destruct rest as [|c rest].
    + wp_step. exists content. split_and!; [done| |].
      * apply (token_inv_inside h g); cbn; try done; try congruence; [by right|].
        intros token q' Hold Hq'. assert (q' = q) as -> by congruence. apply open_value_grow; auto.
      * apply (need_less _ _ _ content); cbn; auto. rewrite app_nil_r in Hsplit. by subst.
    + wp_step. apply wp_add_token; [done|]. cbn [token_characters]. intros Hle'. repeat wp_step.
      exists (content ++ [c]). split_and!; [by rewrite <- app_assoc| |].
      * apply (token_inv_inside h g); cbn; try done; try congruence; [|by left].
        rewrite py_len_app. change (py_len [c]) with 1. lia.
      * apply (need_less _ _ _ (content ++ [c])); cbn; auto; [by rewrite <- app_assoc|by destruct content].
  - destruct (before_split markup_special text) as (Hsplit & _ & Hhd).
    destruct (before markup_special text) as [content rest]. cbn [fst snd] in *. destruct rest as [|c rest].
    + wp_step. apply wp_add_token; [done|]. intros Hle. wp_step. exists content. split_and!; [done| |].
      * apply (token_inv_inside h g); cbn; try done; try congruence. by right.
      * apply (need_less _ _ _ content); cbn; auto. rewrite app_nil_r in Hsplit. by subst.
    + wp_step. apply wp_add_token; [done|]. intros Hle. wp_step.
      assert (Heats : text = (content ++ [c]) ++ rest) by (by rewrite <- app_assoc).
      destruct (Z.eqb_spec c 62) as [->|Hc].
      * wp_step. wp_step. exists (content ++ [62]). split_and!; [done| |].
        -- apply token_inv_finish; [|done]. by rewrite app_assoc, last_snoc.
        -- apply (need_less _ _ _ (content ++ [62])); cbn; auto; by destruct content.
      * repeat wp_step. exists (content ++ [c]). split_and!; [done| |].
        -- apply (token_inv_inside h g); cbn; try done; try congruence; [|by right|].
           ++ rewrite py_len_app. change (py_len [c]) with 1. lia.
           ++ intros token q _ _. by apply open_value_empty.
        -- apply (need_less _ _ _ (content ++ [c])); cbn; auto; by destruct content.
Qed.

Lemma scan_declaration_spec h g text : token_inv h g -> mode g = TOKEN_DECLARATION -> text <> [] ->
  wp (scan_declaration T text) (fun rest g' => eats h text g rest g') (fun e _ => e = malformed) g.
Proof.
  intros Hinv Hm Hne. destruct text as [|c text]; [done|]. assert (Hq : quote g = None) by (destruct Hinv as (? & ? & _ & [] & _); congruence).
  assert (HmO : mode g <> TOKEN_OPEN) by congruence.
  cbn [scan_declaration]. wp_step. apply wp_add_token; [done|]. intros Hle. wp_step. wp_step. wp_step. wp_step. wp_step.
  assert (Hdone : forall g', mode g' <> TOKEN_TEXT -> mode g' <> TOKEN_OPEN -> token_characters g' = token_characters g + 1 ->
    quote g' = None -> (mode g' = TOKEN_CDATA -> text_characters g' = 0) -> eats h (c :: text) g text g').
  { intros g' Hm1 Hm2 Ht Hq' Hd. exists [c]. split_and!; [done| |].
    - apply (token_inv_inside h g); try done; try congruence; try (rewrite Ht; done); [by left|].
      intros token _ Hcd. rewrite (Hd Hcd). by apply open_value_empty.
    - apply (need_less _ _ _ [c]); auto. }
  case_bool_decide; [|case_bool_decide]; [..|wp_step; [wp_step|]]; repeat wp_step; apply Hdone; cbn; congruence.
Qed.

Lemma scan_delimited_spec h g d text : token_inv h g -> mode g <> TOKEN_TEXT -> mode g <> TOKEN_CDATA ->
  mode g <> TOKEN_OPEN -> quote g = None -> last d = Some 62 -> text <> [] ->
  wp (scan_delimited T d text) (fun rest g' => eats h text g rest g') (fun e _ => e = malformed) g.
Proof.
  intros Hinv Hm Hm2 Hm3 Hq Hd Hne. unfold scan_delimited, finish_markup. destruct (before_string d text) as [[content rest]|] eqn:E.
  - apply before_string_split in E. wp_step. apply wp_add_token; [done|]. intros Hle. repeat wp_step.
    exists (content ++ d). split_and!; [by rewrite <- app_assoc| |].
    + apply token_inv_finish; [|done]. by rewrite !last_app, Hd.
    + apply (need_less _ _ _ (content ++ d)); cbn; auto; [by rewrite <- app_assoc|]. intros [_ ->]%app_eq_nil. done.
  - wp_step. apply wp_add_token; [done|]. intros Hle. wp_step. exists text. split_and!; [by rewrite app_nil_r| |].
    + apply (token_inv_inside h g); cbn; try done; try congruence. by left.
    + apply (need_less _ _ _ text); cbn; auto. by rewrite app_nil_r.
Qed.

Lemma scan_cdata_spec h g text : token_inv h g -> mode g = TOKEN_CDATA -> text <> [] ->
  wp (scan_cdata F T text) (fun rest g' => eats h text g rest g') (fun e _ => e = malformed) g.
Proof.
  intros Hinv Hm Hne. assert (Hq : quote g = None) by (destruct Hinv as (? & ? & _ & [] & _); congruence).
  assert (HmO : mode g <> TOKEN_OPEN) by congruence.
  unfold scan_cdata, finish_markup. destruct (before_string (py "]]>") text) as [[content rest]|] eqn:E.
  - apply before_string_split in E. wp_step. apply wp_add_text; [done|]. intros HleF. wp_step. apply wp_add_token; [done|].
    intros Hle. wp_step. apply wp_add_token; [done|]. intros Hle'. repeat wp_step.
    exists (content ++ py "]]>"). split_and!; [by rewrite <- app_assoc| |].
    + apply token_inv_finish; [|done]. by rewrite !last_app.
    + apply (need_less _ _ _ (content ++ py "]]>")); cbn; auto; [by rewrite <- app_assoc|]. by intros [_ ?]%app_eq_nil.
  - wp_step. apply wp_add_text; [done|]. intros HleF. wp_step. apply wp_add_token; [done|]. cbn [token_characters]. intros Hle. wp_step.
    exists text. split_and!; [by rewrite app_nil_r| |].
    + apply (token_inv_inside h g); cbn; try done; try congruence; [by left|].
      intros token Hold _. apply open_value_grow; [auto|by apply Forall_true|done].
    + apply (need_less _ _ _ text); cbn; auto. by rewrite app_nil_r.
Qed.

Lemma scan_spec h g text : token_inv h g -> text <> [] ->
  wp (scan text) (fun rest g' => eats h text g rest g') (fun e _ => e = malformed) g.
Proof.
  intros Hinv Hne. unfold XmlTokens.scan. wp_step. wp_step.
  assert (Hq : mode g = TOKEN_ELEMENT \/ quote g = None) by (destruct Hinv as (? & ? & _ & [] & _); auto).
  destruct (mode g) eqn:Hm.
  - by apply scan_text_spec.
  - by apply scan_open_spec.
  - by apply scan_element_spec.
  - by apply scan_declaration_spec.
  - apply scan_delimited_spec; try done; try congruence. by destruct Hq.
  - by apply scan_cdata_spec.
  - apply scan_delimited_spec; try done; try congruence. by destruct Hq.
Qed.

(** The loop ends, and its counters count what it has read. *)
Lemma guard_loop_spec fuel h g text : token_inv h g -> (need g text <= fuel)%nat ->
  wp (guard_loop fuel text) (fun _ g' => token_inv (h ++ text) g') (fun e _ => e = malformed) g.
Proof.
  revert h g text. induction fuel as [|fuel IH]; intros h g text Hinv Hfuel.
  - destruct text as [|c text]; [by rewrite app_nil_r|]. unfold need in Hfuel. cbn [length] in Hfuel. case_bool_decide; lia.
  - destruct text as [|c text]; [by rewrite app_nil_r|]. set (s := c :: text) in *. cbn [XmlTokens.guard_loop].
    rewrite (eq_refl : str_truthy s = true). wp_step. eapply wp_mono; [by apply scan_spec|..]; cbv beta; [|done].
    intros rest g' (eaten & Hs & Hinv' & Hless). rewrite Hs, app_assoc. apply IH; [done|lia].
Qed.

Lemma need_le g text : (need g text <= 2 * length text)%nat.
Proof. unfold need. destruct text; [done|]. cbn [length]. case_bool_decide; lia. Qed.

(** More fuel changes nothing. *)
Lemma guard_loop_fuel n m h g text : token_inv h g -> (need g text <= n)%nat -> (need g text <= m)%nat ->
  guard_loop n text g = guard_loop m text g.
Proof.
  revert m h g text. induction n as [|n IH]; intros m h g text Hinv Hn Hm.
  - destruct text as [|c text]; [by destruct m|]. unfold need in Hn. cbn [length] in Hn. case_bool_decide; lia.
  - destruct text as [|c text]; [by destruct m|].
    destruct m as [|m]; [unfold need in Hm; cbn [length] in Hm; case_bool_decide; lia|].
    set (s := c :: text) in *. cbn [XmlTokens.guard_loop]. rewrite (eq_refl : str_truthy s = true).
    unfold mbind, M_bind. pose proof (scan_spec h g s Hinv ltac:(done)) as Hwp. unfold wp in Hwp.
    destruct (scan s g) as [[rest|e] g']; [|done]. destruct Hwp as (eaten & _ & Hinv' & Hless).
    apply (IH _ (h ++ eaten)); [done|lia..].
Qed.

(** ** Chunks *)

(** The same result; after an exception the guard is not used again. *)
Definition same_run {A} (x y : outcome A * guard) : Prop :=
  match x, y with
  | (Returned a, g), (Returned b, g') => a = b /\ g = g'
  | (Raised e, _), (Raised e', _) => e = e'
  | _, _ => False
  end.
#[export] Instance same_run_equiv {A} : Equivalence (@same_run A).
Proof.
  split.
  - by intros [[a|e] g].
  - intros [[a|e] g] [[b|e'] g']; simpl; [by intros []|done|done|done].
  - intros [[a|e] g] [[b|e'] g'] [[c|e''] g'']; simpl; naive_solver.
Qed.
Lemma same_run_bind {A B} (m m' : M guard A) (f : A -> M guard B) g g' :
  same_run (m g) (m' g') -> same_run ((m ≫= f) g) ((m' ≫= f) g').
Proof.
  unfold mbind, M_bind. destruct (m g) as [[a|e] h], (m' g') as [[b|e'] h']; simpl; try done.
  by intros [-> ->].
Qed.

(** A scan of [a] as the beginning of [a ++ b]: it either leaves the same rest, or has eaten
    [a] and goes on in [b]. *)
Definition scans_on (a b : pystr) (x y : outcome pystr * guard) : Prop :=
  match x with
  | (Raised e, _) => exists g', y = (Raised e, g')
  | (Returned rest, g') => y = (Returned (rest ++ b), g') \/
      rest = [] /\ (b <> [] -> same_run y (scan b g'))
  end.

(** Counting [n + m] characters is counting [n], then [m]. *)
Definition adds (add : Z -> M guard unit) : Prop := forall n m g, 0 <= m ->
  match add n g with
  | (Raised e, _) => exists g', add (n + m) g = (Raised e, g')
  | (Returned _, g1) => same_run (add (n + m) g) (add m g1) /\ mode g1 = mode g /\ quote g1 = quote g
  end.

Ltac count :=
  unfold add_text, add_quoted, add_token, mbind, M_bind, modify, get_state, raise_if, raise, mret, M_ret;
  cbn [fst snd mode token_characters text_characters quote quoted_characters declaration_prefix];
  repeat (match goal with |- context [Z.ltb ?a ?b] => destruct (Z.ltb_spec a b) end;
          cbn [fst snd mode token_characters text_characters quote quoted_characters declaration_prefix]; try lia).
Ltac counted := intros n m g Hm; count; simpl; rewrite ?Z.add_assoc; split_and?; by eauto || congruence.

Lemma add_text_adds : adds (add_text F).
Proof. counted. Qed.
Lemma add_token_adds : adds (add_token T).
Proof. counted. Qed.
Lemma add_both_adds : adds (fun n => add_text F n;; add_token T n).
Proof. counted. Qed.
Lemma add_quoted_adds : adds (fun n => add_token T n;; add_quoted F n).
Proof. counted. Qed.

Lemma stuck add n m K a b g : adds add -> 0 <= m ->
  (forall g1, mode g1 = mode g -> quote g1 = quote g -> b <> [] -> scan b g1 = (add m;; K) g1) ->
  scans_on a b ((add n;; mret []) g) ((add (n + m);; K) g).
Proof.
  intros Hadd Hm Hb. specialize (Hadd n m g Hm). unfold mbind, M_bind in *.
  destruct (add n g) as [[[]|e] g1].
  - destruct Hadd as (Hsame & Hmode & Hquote). right. split; [done|]. intros Hne. rewrite (Hb g1) by done.
    by apply (same_run_bind (add (n + m)) (add m) (fun _ => K)).
  - destruct Hadd as [g' ->]. by eexists.
Qed.

(** A scan that has found its end. *)
Lemma ended_ret rest a b g : scans_on a b ((mret rest : M guard pystr) g) ((mret (rest ++ b) : M guard pystr) g).
Proof. by left. Qed.
Lemma ended_bind {B} (m : M guard B) f f' a b g :
  (forall v g', scans_on a b (f v g') (f' v g')) -> scans_on a b ((m ≫= f) g) ((m ≫= f') g).
Proof. intros Hf. unfold mbind, M_bind. destruct (m g) as [[v|e] g1]; [apply Hf|by eexists]. Qed.
Ltac ended := repeat (apply ended_bind; intros); apply ended_ret.

Lemma before_stuck f a b content : before f a = (content, []) ->
  content = a /\ before f (a ++ b) = (a ++ (before f b).1, (before f b).2).
Proof.
  intros E. pose proof (before_split f a) as (Hs & _). rewrite E in Hs. simpl in Hs. rewrite app_nil_r in Hs. subst content.
  split; [done|]. rewrite (before_app _ _ b _ _ E). by destruct (before f b).
Qed.

Lemma scan_text_on a b g : mode g = TOKEN_TEXT -> scans_on a b (scan_text F a g) (scan_text F (a ++ b) g).
Proof.
  intros Hm. unfold scan_text. destruct (before (Z.eqb 60) a) as [content rest] eqn:E. destruct rest as [|c rest].
  - destruct (before_stuck _ _ b _ E) as (-> & ->). rewrite py_len_app.
    apply (stuck (add_text F)); [apply add_text_adds|apply py_len_nonneg|]. intros g1 Hm1 _ _.
    unfold XmlTokens.scan. unfold mbind at 1, M_bind at 1. cbn [get_state]. rewrite Hm1, Hm. unfold scan_text.
    by destruct (before (Z.eqb 60) b).
  - rewrite (before_app _ _ b _ _ E). cbn [app]. ended.
Qed.

Lemma scan_open_on a b g : a <> [] -> scans_on a b (scan_open T a g) (scan_open T (a ++ b) g).
Proof.
  intros Hne. destruct a as [|c a]; [done|]. cbn [scan_open app]. destruct (c =? 63); [ended|].
  destruct (c =? 33); [ended|]. change (c :: a ++ b) with ((c :: a) ++ b). ended.
Qed.

Lemma scan_declaration_on a b g : a <> [] -> scans_on a b (scan_declaration T a g) (scan_declaration T (a ++ b) g).
Proof. intros Hne. destruct a as [|c a]; [done|]. cbn [scan_declaration app]. ended. Qed.

Lemma scan_in_mode text g : scan text g = match mode g with
  | TOKEN_TEXT => scan_text F text
  | TOKEN_OPEN => scan_open T text
  | TOKEN_ELEMENT => scan_element F T text
  | TOKEN_DECLARATION => scan_declaration T text
  | TOKEN_COMMENT => scan_delimited T (py "-->") text
  | TOKEN_CDATA => scan_cdata F T text
  | TOKEN_PROCESSING_INSTRUCTION => scan_delimited T (py "?>") text
  end g.
Proof. done. Qed.

Lemma get_state_bind {A} (f : guard -> M guard A) g : (get_state ≫= f) g = f g g.
Proof. done. Qed.

Lemma seq_assoc {A} (m n : M guard unit) (k : M guard A) g : (m;; n;; k) g = ((m;; n);; k) g.
Proof. unfold mbind, M_bind. by destruct (m g) as [[[]|e] g1]. Qed.

Lemma scan_element_on a b g : mode g = TOKEN_ELEMENT -> scans_on a b (scan_element F T a g) (scan_element F T (a ++ b) g).
Proof.
  intros Hm. unfold scan_element. rewrite !get_state_bind. destruct (quote g) as [q|] eqn:Eq.
  - destruct (before (Z.eqb q) a) as [content rest] eqn:E. destruct rest as [|c rest].
    + destruct (before_stuck _ _ b _ E) as (-> & ->). rewrite py_len_app, !(seq_assoc (add_token T _) (add_quoted F _)).
      apply (stuck (fun n => add_token T n;; add_quoted F n)); [apply add_quoted_adds|apply py_len_nonneg|].
      intros g1 Hm1 Hq1 _. rewrite scan_in_mode, Hm1, Hm. unfold scan_element. rewrite get_state_bind, Hq1, Eq.
      destruct (before (Z.eqb q) b). apply seq_assoc.
    + rewrite (before_app _ _ b _ _ E). cbn [app]. ended.
  - destruct (before markup_special a) as [content rest] eqn:E. destruct rest as [|c rest].
    + destruct (before_stuck _ _ b _ E) as (-> & ->). rewrite py_len_app.
      assert (Hb : forall g1, mode g1 = mode g -> quote g1 = quote g ->
        scan b g1 = (let '(content, rest) := before markup_special b in
          match rest with
          | [] => add_token T (py_len content);; mret []
          | c :: rest => add_token T (py_len content + 1);;
              (if c =? 62 then finish_markup else modify (set_quote (Some c)));; mret rest
          end) g1).
      { intros g1 Hm1 Hq1. rewrite scan_in_mode, Hm1, Hm. unfold scan_element. by rewrite get_state_bind, Hq1, Eq. }
      destruct (before markup_special b) as [content' [|c' rest']]; cbn [fst snd];
        [|rewrite <- Z.add_assoc]; (apply (stuck (add_token T)); [apply add_token_adds| |intros; by apply Hb]);
        pose proof (py_len_nonneg content'); lia.
    + rewrite (before_app _ _ b _ _ E). cbn [app]. ended.
Qed.

Lemma scan_delimited_on a b d g : d <> [] -> ~ splits d a b ->
  (forall g1, mode g1 = mode g -> scan b g1 = scan_delimited T d b g1) ->
  scans_on a b (scan_delimited T d a g) (scan_delimited T d (a ++ b) g).
Proof.
  intros Hd Hsp Hb. unfold scan_delimited. destruct (before_string d a) as [[content rest]|] eqn:E.
  - rewrite (before_string_app _ _ b _ _ E). ended.
  - rewrite (before_string_none_app _ _ _ Hd Hsp E). unfold scan_delimited in Hb.
    destruct (before_string d b) as [[content rest]|]; cbn [mbind option_bind]; rewrite py_len_app, <- ?Z.add_assoc;
      (apply (stuck (add_token T)); [apply add_token_adds| |intros; by apply Hb]).
    + pose proof (py_len_nonneg content). pose proof (py_len_nonneg d). lia.
    + apply py_len_nonneg.
Qed.

Lemma scan_cdata_on a b g : mode g = TOKEN_CDATA -> ~ splits (py "]]>") a b ->
  scans_on a b (scan_cdata F T a g) (scan_cdata F T (a ++ b) g).
Proof.
  intros Hm Hsp. unfold scan_cdata. destruct (before_string (py "]]>") a) as [[content rest]|] eqn:E.
  - rewrite (before_string_app _ _ b _ _ E). ended.
  - rewrite (before_string_none_app (py "]]>") a b (ltac:(discriminate)) Hsp E).
    assert (Hb : forall g1, mode g1 = mode g -> scan b g1 = scan_cdata F T b g1).
    { intros g1 Hm1. by rewrite scan_in_mode, Hm1, Hm. }
    unfold scan_cdata in Hb.
    destruct (before_string (py "]]>") b) as [[content rest]|]; cbn [mbind option_bind]; rewrite py_len_app;
      rewrite !(seq_assoc (add_text F _) (add_token T _));
      (apply (stuck (fun n => add_text F n;; add_token T n)); [apply add_both_adds|apply py_len_nonneg|
        intros; rewrite Hb by done; apply seq_assoc]).
Qed.

(** No boundary of chunks is inside the end of a comment, a CDATA section or a processing
    instruction. *)
Definition DELIMITERS : list pystr := [py "-->"; py "]]>"; py "?>"].
Definition unsplit_at (a b : pystr) : Prop := forall d, d ∈ DELIMITERS -> ~ splits d a b.

Lemma scan_on a b g : a <> [] -> unsplit_at a b -> scans_on a b (scan a g) (scan (a ++ b) g).
Proof.
  intros Hne Hun. rewrite !scan_in_mode. destruct (mode g) eqn:Hm.
  - by apply scan_text_on.
  - by apply scan_open_on.
  - by apply scan_element_on.
  - by apply scan_declaration_on.
  - apply scan_delimited_on; [done|apply Hun; set_solver|]. intros g1 Hm1. by rewrite scan_in_mode, Hm1, Hm.
  - apply scan_cdata_on; [done|apply Hun; set_solver].
  - apply scan_delimited_on; [done|apply Hun; set_solver|]. intros g1 Hm1. by rewrite scan_in_mode, Hm1, Hm.
Qed.

Lemma unsplit_rest e r b : unsplit_at (e ++ r) b -> unsplit_at r b.
Proof.
  intros Hun d Hd (d1 & d2 & ? & ? & ? & Hs & ?). apply (Hun d Hd). exists d1, d2. split_and!; try done.
  by apply suffix_app_r.
Qed.

Lemma guard_loop_app n N h a b g : token_inv h g -> (need g a <= n)%nat -> (need g (a ++ b) <= N)%nat ->
  unsplit_at a b -> same_run (guard_loop N (a ++ b) g) ((guard_loop n a;; guard_feed b) g).
Proof.
  intros Hinv Hn HN Hun. destruct (decide (b = [])) as [->|Hb].
  { rewrite app_nil_r in *. rewrite (guard_loop_fuel N n h) by done. unfold mbind, M_bind.
    destruct (guard_loop n a g) as [[[]|e] g1]; reflexivity. }
  revert N h a g Hinv Hn HN Hun. induction n as [|n IH]; intros N h a g Hinv Hn HN Hun; (destruct a as [|c a];
    [unfold mbind, M_bind, XmlTokens.guard_feed; cbn [app] in *; cbn [XmlTokens.guard_loop str_truthy mret M_ret];
     rewrite (guard_loop_fuel N (2 * length b) h) by (done || apply need_le); reflexivity|]).
  - unfold need in Hn. cbn [length] in Hn. case_bool_decide; lia.
  - set (s := c :: a) in *. assert (Hs : s <> []) by done. assert (Hsb : s ++ b <> []) by done.
    pose proof (scan_spec h g s Hinv Hs) as Ha. pose proof (scan_spec h g (s ++ b) Hinv Hsb) as Hab.
    pose proof (scan_on s b g Hs Hun) as Hon. unfold wp in Ha, Hab.
    destruct N as [|N]; [subst s; unfold need in HN; cbn [app length] in HN; case_bool_decide; lia|].
    cbn [XmlTokens.guard_loop]. rewrite (eq_refl : str_truthy s = true), (eq_refl : str_truthy (s ++ b) = true).
    unfold mbind, M_bind. destruct (scan s g) as [[rest|e] g1]; [|by destruct Hon as [g' ->]].
    destruct Ha as (eaten & Hsplit & Hinv1 & Hless). destruct Hon as [Hy|[-> Hy]].
    + rewrite Hy in Hab |- *. destruct Hab as (_ & _ & _ & Hless'). rewrite Hsplit in Hun.
      apply (IH N (h ++ eaten)); [done|lia|lia|by apply unsplit_rest in Hun].
    + assert (Hnil : guard_loop n [] g1 = (Returned tt, g1)) by (by destruct n). rewrite Hnil.
      specialize (Hy Hb). pose proof (scan_spec _ g1 b Hinv1 Hb) as Hb1. unfold wp in Hb1.
      unfold XmlTokens.guard_feed. pose proof (need_le g1 b) as Hle. destruct (2 * length b)%nat as [|m];
        [destruct b; [done|unfold need in *; cbn [length] in *; case_bool_decide; lia]|].
      cbn [XmlTokens.guard_loop]. destruct b as [|d b']; [done|]. set (b := d :: b') in *.
      rewrite (eq_refl : str_truthy b = true). unfold mbind, M_bind.
      destruct (scan (s ++ b) g) as [[r|e] g2], (scan b g1) as [[r'|e'] g2']; try done.
      destruct Hy as [-> ->]. destruct Hab as (eaten2 & _ & Hinv2 & Hless2), Hb1 as (_ & _ & _ & Hless3).
      rewrite (guard_loop_fuel N m _ g2' r' Hinv2) by lia. reflexivity.
Qed.

(** ** Documents *)

Fixpoint unsplit (chunks : list pystr) : Prop :=
  match chunks with
  | [] => True
  | chunk :: chunks => unsplit_at chunk (concat chunks) /\ unsplit chunks
  end.

Lemma guard_feed_spec h g text : token_inv h g ->
  wp (guard_feed text) (fun _ g' => token_inv (h ++ text) g') (fun e _ => e = malformed) g.
Proof. intros Hinv. apply guard_loop_spec; [done|apply need_le]. Qed.

Lemma guard_chunks_spec h g chunks : token_inv h g ->
  wp (guard_chunks F T chunks) (fun _ g' => token_inv (h ++ concat chunks) g') (fun e _ => e = malformed) g.
Proof.
  revert h g. induction chunks as [|chunk chunks IH]; intros h g Hinv; [by rewrite app_nil_r|].
  cbn [guard_chunks concat]. wp_step. eapply wp_mono; [by apply guard_feed_spec|..]; cbv beta; [|done].
  intros _ g' Hinv'. rewrite app_assoc. by apply IH.
Qed.

Lemma guard_chunks_concat h g chunks : token_inv h g -> unsplit chunks ->
  same_run (guard_chunks F T chunks g) (guard_feed (concat chunks) g).
Proof.
  revert h g. induction chunks as [|chunk chunks IH]; intros h g Hinv Hun; [reflexivity|].
  destruct Hun as [Hat Hun]. cbn [guard_chunks concat].
  rewrite (guard_loop_app (2 * length chunk) (2 * length (chunk ++ concat chunks)) h chunk (concat chunks) g Hinv)
    by (done || apply need_le).
  pose proof (guard_feed_spec h g chunk Hinv) as Hwp. unfold wp in Hwp. unfold mbind, M_bind.
  change (XmlTokens.guard_loop F T (2 * length chunk) chunk g) with (guard_feed chunk g).
  destruct (guard_feed chunk g) as [[[]|e] g1]; [|done]. by apply (IH (h ++ chunk)).
Qed.

Lemma token_inv_new : token_inv [] new_guard.
Proof. exists [], []. split_and!; [done|by left|]. simpl. split_and!; try done; by left. Qed.
End facts.
