(* ===== verification/XmlRecords.v ===== *)
(** The records of [src/src/makolet/adapters/parsers/xml.py]: element trees, schema findings,
    the names of fields, and [_parse_record] with all it calls.

    An element is what [ElementTree] has built of it when its end is handled, without the
    character data that follows it. *)
From Stdlib Require Import DecimalString.
From S2P Require Import Prelude Errors Effects Enums PyNumbers Text Models SourceValues XmlTokens.

Inductive element := Element (tag : pystr) (attrib : list (pystr * pystr)) (text : option pystr) (children : list element).
Definition el_tag (e : element) : pystr := let 'Element t _ _ _ := e in t.
Definition el_attrib (e : element) : list (pystr * pystr) := let 'Element _ a _ _ := e in a.
Definition el_text (e : element) : option pystr := let 'Element _ _ t _ := e in t.
Definition el_children (e : element) : list element := let 'Element _ _ _ c := e in c.

(** Field names and their values. *)
Abbreviation fields := (gmap pystr pystr).
Abbreviation path := (list pystr).

(** [str(n)] of a count. *)
Definition str_of_N (n : N) : pystr := py (NilZero.string_of_uint (N.to_uint n)).

(** [separator.join(parts)]. *)
Fixpoint join (separator : pystr) (parts : list pystr) : pystr :=
  match parts with
  | [] => []
  | [p] => p
  | p :: parts => p ++ separator ++ join separator parts
  end.

(** ** Schema findings *)

Definition MAXIMUM_SCHEMA_FIELD_NAMES : Z := 32.
Definition MAXIMUM_SCHEMA_FIELD_NAME_CHARACTERS : Z := 256.
Definition MAXIMUM_SCHEMA_WARNING_EVIDENCE_CHARACTERS : Z := 2000.

(** [_SchemaFindings]. *)
Record SchemaFindings := {
  maximum_evidence_characters : Z;
  sf_count : N;
  field_names : list pystr;
  evidence : pystr;
  has_discount_amount : bool;
  has_conditional_field : bool
}.
Definition new_findings (maximum : Z) : SchemaFindings := {| maximum_evidence_characters := maximum;
  sf_count := 0; field_names := []; evidence := []; has_discount_amount := false; has_conditional_field := false |}.

(** [text[:n]]. *)
Definition clip (n : Z) (s : pystr) : pystr := take (Z.to_nat n) s.

Definition add_finding (p : path) (value : option pystr) (semantic_tag : pystr) (f : SchemaFindings) : SchemaFindings :=
  let tag := if str_truthy semantic_tag then semantic_tag else default [] (last p) in
  let name := clip MAXIMUM_SCHEMA_FIELD_NAME_CHARACTERS (join (py ".") p) in
  {| maximum_evidence_characters := maximum_evidence_characters f;
     sf_count := sf_count f + 1;
     field_names :=
       if str_truthy name && (py_len (field_names f) <? MAXIMUM_SCHEMA_FIELD_NAMES)
          && negb (bool_decide (name ∈ field_names f))
       then field_names f ++ [name] else field_names f;
     evidence :=
       if maximum_evidence_characters f <=? py_len (evidence f) then evidence f
       else let piece := match value with None => name | Some v => name ++ py "=" ++ v end in
            let separator := if str_truthy (evidence f) then py "; " else [] in
            evidence f ++ clip (maximum_evidence_characters f - py_len (evidence f)) (separator ++ piece);
     has_discount_amount := has_discount_amount f || bool_decide (tag = py "discountamount");
     has_conditional_field := has_conditional_field f
       || bool_decide (tag ∈ [py "condition"; py "conditiondescription"; py "eligibility"]) |}.

(** [value or None]. *)
Definition nonempty (s : pystr) : option pystr := if str_truthy s then Some s else None.
Definition findings_field_name (f : SchemaFindings) : option pystr :=
  nonempty (clip MAXIMUM_SCHEMA_FIELD_NAME_CHARACTERS (join (py ",") (field_names f))).
Definition warning_evidence (f : SchemaFindings) : option pystr :=
  nonempty (clip MAXIMUM_SCHEMA_WARNING_EVIDENCE_CHARACTERS (evidence f)).

(** ** The fields of a record *)

Definition CONTEXT_TAGS : list pystr := map py ["chainid"; "subchainid"; "storeid"; "bikoretno";
  "auditnumber"; "lastupdatedate"; "lastupdatetime"; "updatedate"; "updatetime"; "priceupdatedate";
  "priceupdatetime"]%string.
Definition STORE_LEAF_TAGS : list pystr := CONTEXT_TAGS ++ map py ["storetype"; "chainname";
  "subchainname"; "storename"; "address"; "storeaddress"; "city"; "zipcode"; "postalcode"]%string.
Definition PRICE_LEAF_TAGS : list pystr := CONTEXT_TAGS ++ map py ["itemcode"; "barcode"; "itemtype";
  "itemname"; "itemnm"; "manufacturername"; "manufacturercountry"; "manufacturecountry";
  "manufactureritemdescription"; "unitqty"; "unitquantity"; "quantity"; "unitofmeasure";
  "unitmeasure"; "isweighted"; "bisweighted"; "qtyinpackage"; "quantityinpackage"; "itemprice";
  "price"; "unitofmeasureprice"; "unitprice"; "allowdiscount"; "itemstatus"; "status";
  "priceupdatedate"; "priceupdatetime"; "updatedate"; "updatetime"; "lastsaledate"; "lastsaletime";
  "lastsaledatetime"]%string.
Definition PROMOTION_LEAF_TAGS : list pystr := CONTEXT_TAGS ++ map py ["promotionid"; "promotioncode";
  "promotiondescription"; "description"; "discountedprice"; "promotionprice"; "discountrate";
  "discountpercent"; "minqty"; "minimumquantity"; "promotionstartdate"; "startdate";
  "promotionstarttime"; "starttime"; "promotionenddate"; "enddate"; "promotionendtime"; "endtime";
  "itemcode"; "barcode"; "itemtype"; "isgift"; "clubid"; "rewardtype"; "allowmultiplediscounts";
  "maxqty"; "maximumquantity"; "minpurchaseamount"; "minimumpurchase"; "discountedpricepermida";
  "discountedunitprice"; "minnoofitemofered"; "minimumitemsoffered"; "additionalrestrictions";
  "remarks"; "isactive"]%string.
Definition PROMOTION_RELATION_CONTAINERS : list pystr := map py ["promotionitems"; "promotionstores"; "clubs"]%string.
Definition PROMOTION_ITEM_RELATIONS : list pystr := map py ["item"; "promotionitem"]%string.
Definition PROMOTION_ITEM_LEAVES : list pystr := map py ["itemcode"; "barcode"; "itemtype"; "isgift"]%string.
Definition PROMOTION_STORE_RELATIONS : list pystr := map py ["store"; "promotionstore"]%string.
Definition PROMOTION_CLUB_RELATIONS : list pystr := map py ["club"; "promotionclub"]%string.
Definition ITEM_CODE_TAGS : list pystr := map py ["itemcode"; "barcode"]%string.

Section records.
Context `{Unicode} `{Calendar}.
Context {W : Type}.
Variable maximum_field_characters : Z.

(** [_normalize_name]: letters and digits of the case-folded name. *)
Definition normalize_name (value : pystr) : pystr :=
  List.filter (fun c => is_lower c || is_digit c) (casefold value).
(** [_tag_name]: the name after the last brace of a namespace. *)
Definition tag_name (tag : pystr) : pystr := normalize_name (default [] (last (split_on 125 tag))).

Definition clean_element_text (e : element) : M W (option pystr) :=
  clean_source_text (el_text e) maximum_field_characters.

Definition is_leaf (e : element) : bool := match el_children e with [] => true | _ => false end.

(** [values.setdefault(name, text)]. *)
Definition set_default (name text : pystr) (values : fields) : fields :=
  match values !! name with Some _ => values | None => <[ name := text ]> values end.

(** [_element_values]. *)
Fixpoint leaf_values (children : list element) (values : fields) : M W fields :=
  match children with
  | [] => mret values
  | child :: children =>
      if negb (is_leaf child) then leaf_values children values
      else
        text ← clean_element_text child;
        leaf_values children (match text with
                              | Some t => set_default (tag_name (el_tag child)) t values
                              | None => values
                              end)
  end.
Definition element_values (e : element) : M W fields := leaf_values (el_children e) ∅.

(** [_value]. *)
Fixpoint value_of (values context : fields) (names : list pystr) : option pystr :=
  match names with
  | [] => None
  | name :: names =>
      match values !! normalize_name name with
      | Some v => Some v
      | None => match context !! normalize_name name with
                | Some v => Some v
                | None => value_of values context names
                end
      end
  end.

Definition required (values context : fields) (names : list pystr) : M W pystr :=
  match value_of values context names with
  | Some v => mret v
  | None => raise validation_error
  end.

(** ["T" in value or " " in value]. *)
Definition has_time (value : pystr) : bool := bool_decide (84 ∈ value) || bool_decide (32 ∈ value).

(** [_date_time]. *)
Definition date_time (values context : fields) (date_names time_names : list pystr) : M W (option datetime) :=
  let date_value := value_of values context date_names in
  let time_value := value_of values context time_names in
  match date_value, time_value with
  | Some d, _ => if has_time d then parse_source_datetime (Some d)
                 else combine_source_date_time date_value time_value
  | None, Some t => if has_time t then parse_source_datetime (Some t)
                    else combine_source_date_time None time_value
  | None, None => combine_source_date_time None None
  end.

(** ** What the schema does not know *)

Inductive node_kind := Structure | Leaf | UnknownNode.
#[export] Instance node_kind_eq_dec : EqDecision node_kind.
Proof. solve_decision. Defined.

(** The relations of a promotion: [relations] of elements with the leaves [leaves]. *)
Definition relation_kind (relations leaves : list pystr) (p : path) (leaf : bool) : option node_kind :=
  match p with
  | [_; relation] => if bool_decide (relation ∈ relations) then Some Structure else None
  | [_; relation; name] =>
      if bool_decide (relation ∈ relations) && bool_decide (name ∈ leaves) && leaf then Some Leaf else None
  | _ => None
  end.

Definition record_node_kind (p : path) (leaf : bool) (d : DocumentType) : node_kind :=
  let allowed_leaves := if bool_decide (d = STORES) then STORE_LEAF_TAGS
                        else if is_price d then PRICE_LEAF_TAGS else PROMOTION_LEAF_TAGS in
  match p with
  | [] => Structure
  | [name] =>
      if bool_decide (name ∈ allowed_leaves) && leaf then Leaf
      else if is_promotion d && bool_decide (name ∈ PROMOTION_RELATION_CONTAINERS) then Structure
      else UnknownNode
  | container :: _ =>
      if negb (is_promotion d) then UnknownNode
      else
        let kind :=
          if bool_decide (container = py "promotionitems") then
            match p with
            | [_; name] =>
                if bool_decide (name ∈ PROMOTION_ITEM_RELATIONS) then Some Structure
                else if bool_decide (name ∈ ITEM_CODE_TAGS) && leaf then Some Leaf else None
            | _ => relation_kind PROMOTION_ITEM_RELATIONS PROMOTION_ITEM_LEAVES p leaf
            end
          else if bool_decide (container = py "promotionstores") then
            relation_kind PROMOTION_STORE_RELATIONS [py "storeid"] p leaf
          else if bool_decide (container = py "clubs") then
            relation_kind PROMOTION_CLUB_RELATIONS [py "clubid"] p leaf
          else None in
        default UnknownNode kind
  end.

(** [for attribute_name, raw_value in node.attrib.items()]. *)
Fixpoint attribute_findings (p : path) (attrib : list (pystr * pystr)) (f : SchemaFindings) : M W SchemaFindings :=
  match attrib with
  | [] => mret f
  | (attribute_name, raw_value) :: attrib =>
      let name := default (py "attribute") (nonempty (tag_name attribute_name)) in
      value ← clean_source_text (Some raw_value) maximum_field_characters;
      attribute_findings p attrib (add_finding (p ++ [py "@" ++ name]) value name f)
  end.

(** The findings of one node. *)
Definition node_findings (record_tag : pystr) (d : DocumentType) (node : element) (relative_path : path)
    (f : SchemaFindings) : M W SchemaFindings :=
  let full_path := record_tag :: relative_path in
  text ← clean_element_text node;
  let f := match record_node_kind relative_path (is_leaf node) d, text with
           | UnknownNode, _ => add_finding full_path text (tag_name (el_tag node)) f
           | Structure, Some _ => add_finding (full_path ++ [py "#text"]) text (py "#text") f
           | _, _ => f
           end in
  attribute_findings full_path (el_attrib node) f.

(** The elements of a tree. *)
Fixpoint tree_size (e : element) : nat :=
  let 'Element _ _ _ children := e in S (list_sum (map tree_size children)).

(** [while pending]: the stack of nodes, the next one first; [fuel] bounds its turns. *)
Fixpoint pending_findings (fuel : nat) (record_tag : pystr) (d : DocumentType)
    (pending : list (element * path)) (f : SchemaFindings) : M W SchemaFindings :=
  match pending, fuel with
  | [], _ => mret f
  | _, O => raise (PyExn AssertionError)
  | (node, relative_path) :: pending, S fuel =>
      f ← node_findings record_tag d node relative_path f;
      pending_findings fuel record_tag d
        (map (fun child => (child, relative_path ++ [tag_name (el_tag child)])) (el_children node) ++ pending) f
  end.

(** [_record_schema_findings]. *)
Definition record_schema_findings (e : element) (d : DocumentType) : M W SchemaFindings :=
  pending_findings (tree_size e) (tag_name (el_tag e)) d [(e, [])]
    (new_findings (Z.max maximum_field_characters MAXIMUM_SCHEMA_WARNING_EVIDENCE_CHARACTERS)).

(** ** Stores and prices *)

(** The names of a field, the first one the preferred. *)
Abbreviation names l := (map py l%string).

Definition parse_store (values context : fields) (sid : uuid) (record_index : Z) : M W StoreRecord :=
  chain_id ← required values context (names ["chainid"]);
  subchain_id ← required values context (names ["subchainid"]);
  store_id ← required values context (names ["storeid"]);
  store_name ← required values context (names ["storename"]);
  let r := {|
    sr_source_file_id := sid; sr_record_index := record_index; sr_chain_id := chain_id;
    sr_subchain_id := subchain_id; sr_store_id := store_id;
    sr_audit_number := value_of values context (names ["bikoretno"; "auditnumber"]);
    sr_store_type := value_of values context (names ["storetype"]);
    sr_chain_name := value_of values context (names ["chainname"]);
    sr_subchain_name := value_of values context (names ["subchainname"]);
    sr_store_name := store_name;
    sr_address := value_of values context (names ["address"; "storeaddress"]);
    sr_city := value_of values context (names ["city"]);
    sr_postal_code := value_of values context (names ["zipcode"; "postalcode"]) |} in
  StoreRecord_post_init r;;
  mret r.

Definition parse_price (values context : fields) (sid : uuid) (record_index : Z) : M W PriceRecord :=
  price ← parse_decimal (value_of values context (names ["itemprice"; "price"])) true;
  price ← (match price with Some p => mret p | None => raise validation_error end);
  chain_id ← required values context (names ["chainid"]);
  subchain_id ← required values context (names ["subchainid"]);
  store_id ← required values context (names ["storeid"]);
  code ← required values context (names ["itemcode"; "barcode"]);
  item_code ← normalize_identifier code;
  item_type ← parse_int (value_of values context (names ["itemtype"]));
  item_name ← required values context (names ["itemname"; "itemnm"]);
  quantity ← parse_decimal (value_of values context (names ["quantity"])) false;
  is_weighted ← parse_bool (value_of values context (names ["isweighted"; "bisweighted"]));
  quantity_in_package ← parse_decimal (value_of values context (names ["qtyinpackage"; "quantityinpackage"])) false;
  unit_price ← parse_decimal (value_of values context (names ["unitofmeasureprice"; "unitprice"])) false;
  allow_discount ← parse_bool (value_of values context (names ["allowdiscount"]));
  item_status ← parse_int (value_of values context (names ["itemstatus"; "status"]));
  price_updated_at ← date_time values context (names ["priceupdatedate"; "updatedate"])
    (names ["priceupdatetime"; "updatetime"]);
  last_sale_at ← date_time values context (names ["lastsaledate"]) (names ["lastsaletime"; "lastsaledatetime"]);
  let r := {|
    pr_source_file_id := sid; pr_record_index := record_index; pr_chain_id := chain_id;
    pr_subchain_id := subchain_id; pr_store_id := store_id; pr_item_code := item_code;
    pr_item_type := item_type; pr_item_name := item_name;
    pr_manufacturer_name := value_of values context (names ["manufacturername"]);
    pr_manufacturer_country := value_of values context (names ["manufacturercountry"; "manufacturecountry"]);
    pr_manufacturer_description := value_of values context (names ["manufactureritemdescription"]);
    pr_unit_quantity := value_of values context (names ["unitqty"; "unitquantity"]);
    pr_quantity := quantity;
    pr_unit_of_measure := value_of values context (names ["unitofmeasure"; "unitmeasure"]);
    pr_is_weighted := is_weighted; pr_quantity_in_package := quantity_in_package;
    pr_item_price := price; pr_unit_of_measure_price := unit_price; pr_allow_discount := allow_discount;
    pr_item_status := item_status; pr_price_updated_at := price_updated_at;
    pr_last_sale_at := last_sale_at;
    pr_audit_number := value_of values context (names ["bikoretno"; "auditnumber"]) |} in
  PriceRecord_post_init r;;
  mret r.

(** ** Promotions *)

(** [_append_direct_promotion_item_codes]; [result] is in order, [seen] its codes. *)
Fixpoint direct_item_codes (children : list element) (result : list PromotionItem) (seen : list pystr)
    : M W (list PromotionItem * list pystr) :=
  match children with
  | [] => mret (result, seen)
  | child :: children =>
      if negb (is_leaf child) || negb (bool_decide (tag_name (el_tag child) ∈ ITEM_CODE_TAGS))
      then direct_item_codes children result seen
      else
        code ← clean_element_text child;
        match code with
        | None => direct_item_codes children result seen
        | Some code =>
            normalized ← normalize_identifier code;
            if bool_decide (normalized ∈ seen) then direct_item_codes children result seen
            else
              let item := {| pi_item_code := normalized; pi_item_type := None; pi_is_gift := false |} in
              PromotionItem_post_init item;;
              direct_item_codes children (result ++ [item]) (seen ++ [normalized])
        end
  end.

(** [for relation in relations]. *)
Fixpoint relation_items (relations : list element) (result : list PromotionItem) (seen : list pystr)
    : M W (list PromotionItem * list pystr) :=
  match relations with
  | [] => mret (result, seen)
  | relation :: relations =>
      values ← element_values relation;
      match value_of values ∅ ITEM_CODE_TAGS with
      | None => raise validation_error
      | Some code =>
          normalized ← normalize_identifier code;
          if bool_decide (normalized ∈ seen) then relation_items relations result seen
          else
            item_type ← parse_int (value_of values ∅ (names ["itemtype"]));
            is_gift ← parse_bool (value_of values ∅ (names ["isgift"]));
            let item := {| pi_item_code := normalized; pi_item_type := item_type;
                           pi_is_gift := default false is_gift |} in
            PromotionItem_post_init item;;
            relation_items relations (result ++ [item]) (seen ++ [normalized])
      end
  end.

(** [[child for child in element if _tag_name(child.tag) in tags]]. *)
Definition children_named (tags : list pystr) (children : list element) : list element :=
  List.filter (fun child => bool_decide (tag_name (el_tag child) ∈ tags)) children.

Fixpoint container_items (containers : list element) (result : list PromotionItem) (seen : list pystr)
    : M W (list PromotionItem * list pystr) :=
  match containers with
  | [] => mret (result, seen)
  | container :: containers =>
      let relations := children_named PROMOTION_ITEM_RELATIONS (el_children container) in
      '(result, seen) ← relation_items relations result seen;
      '(result, seen) ← (match relations with
                         | [] => direct_item_codes (el_children container) result seen
                         | _ => mret (result, seen)
                         end);
      container_items containers result seen
  end.

(** [_promotion_items]. *)
Definition promotion_items (e : element) : M W (list PromotionItem) :=
  '(result, seen) ← container_items (children_named [py "promotionitems"] (el_children e)) [] [];
  match result with
  | [] => '(result, _) ← direct_item_codes (el_children e) result seen; mret result
  | _ => mret result
  end.

(** [_nested_identifiers]. *)
Fixpoint relation_identifiers (identifier_tag : pystr) (relationships : list element) (values : list pystr)
    : M W (list pystr) :=
  match relationships with
  | [] => mret values
  | relationship :: relationships =>
      fields ← element_values relationship;
      match value_of fields ∅ [identifier_tag] with
      | None => raise validation_error
      | Some identifier =>
          normalized ← normalize_identifier identifier;
          relation_identifiers identifier_tag relationships
            (if bool_decide (normalized ∈ values) then values else values ++ [normalized])
      end
  end.
Fixpoint container_identifiers (relationship_tags : list pystr) (identifier_tag : pystr)
    (containers : list element) (values : list pystr) : M W (list pystr) :=
  match containers with
  | [] => mret values
  | container :: containers =>
      values ← relation_identifiers identifier_tag
        (children_named relationship_tags (el_children container)) values;
      container_identifiers relationship_tags identifier_tag containers values
  end.
Definition nested_identifiers (e : element) (container_tags relationship_tags : list pystr)
    (identifier_tag : pystr) : M W (list pystr) :=
  container_identifiers relationship_tags identifier_tag (children_named container_tags (el_children e)) [].

(** [_discount_kind]; the second word is Hebrew. *)
Definition SECOND_WORDS : list pystr := [py "second"; [0x5E9; 0x5E0; 0x5D9]].
Definition discount_kind (description : option pystr)
    (discounted_price discount_rate minimum_quantity minimum_purchase : option decimal)
    (items : list PromotionItem) (f : SchemaFindings) : DiscountKind :=
  let normalized_description := casefold (default [] description) in
  if py_any (fun w => contains w normalized_description) SECOND_WORDS then SECOND_ITEM
  else if has_discount_amount f then AMOUNT
  else if bool_decide (discount_rate <> None) then PERCENTAGE
  else if bool_decide (minimum_purchase <> None) || has_conditional_field f then CONDITIONAL
  else if bool_decide (minimum_quantity <> None) && (1 <? py_len items) then MIX_AND_MATCH
  else if bool_decide (minimum_quantity <> None) then QUANTITY
  else if bool_decide (discounted_price <> None) then FIXED_PRICE
  else DISCOUNT_UNKNOWN.

(** [_promotion_restrictions]. *)
Definition CONDITIONS_MARKER : pystr := py "[unparsed XML conditions] ".
Definition promotion_restrictions (existing : option pystr) (f : SchemaFindings) : option pystr :=
  if (sf_count f =? 0)%N then existing
  else
    let prefix := match existing with Some s => if str_truthy s then s ++ [10] else [] | None => [] end in
    let remaining := maximum_field_characters - py_len prefix - py_len CONDITIONS_MARKER in
    if remaining <=? 0 then Some (clip maximum_field_characters (default [] existing))
    else Some (clip maximum_field_characters (prefix ++ CONDITIONS_MARKER ++ clip remaining (evidence f))).

Definition parse_promotion (e : element) (values context : fields) (sid : uuid) (record_index : Z)
    (f : SchemaFindings) : M W PromotionRecord :=
  let description := value_of values context (names ["promotiondescription"; "description"]) in
  items ← promotion_items e;
  raise_if (match items with [] => true | _ => false end) validation_error;;
  discounted_price ← parse_decimal (value_of values context (names ["discountedprice"; "promotionprice"])) false;
  discount_rate ← parse_decimal (value_of values context (names ["discountrate"; "discountpercent"])) false;
  minimum_quantity ← parse_decimal (value_of values context (names ["minqty"; "minimumquantity"])) false;
  minimum_purchase ← parse_decimal (value_of values context (names ["minpurchaseamount"; "minimumpurchase"])) false;
  chain_id ← required values context (names ["chainid"]);
  subchain_id ← required values context (names ["subchainid"]);
  code ← required values context (names ["promotionid"; "promotioncode"]);
  promotion_id ← normalize_identifier code;
  starts_at ← date_time values context (names ["promotionstartdate"; "startdate"])
    (names ["promotionstarttime"; "starttime"]);
  ends_at ← date_time values context (names ["promotionenddate"; "enddate"]) (names ["promotionendtime"; "endtime"]);
  store_ids ← nested_identifiers e [py "promotionstores"] PROMOTION_STORE_RELATIONS (py "storeid");
  club_ids ← nested_identifiers e [py "clubs"] PROMOTION_CLUB_RELATIONS (py "clubid");
  reward_type ← parse_int (value_of values context (names ["rewardtype"]));
  allows_multiple_discounts ← parse_bool (value_of values context (names ["allowmultiplediscounts"]));
  maximum_quantity ← parse_decimal (value_of values context (names ["maxqty"; "maximumquantity"])) false;
  discounted_unit_price ← parse_decimal
    (value_of values context (names ["discountedpricepermida"; "discountedunitprice"])) false;
  minimum_items_offered ← parse_int (value_of values context (names ["minnoofitemofered"; "minimumitemsoffered"]));
  is_active ← parse_bool (value_of values context (names ["isactive"]));
  let r := {|
    pm_source_file_id := sid; pm_record_index := record_index; pm_chain_id := chain_id;
    pm_subchain_id := subchain_id; pm_source_store_id := value_of context ∅ (names ["storeid"]);
    pm_promotion_id := promotion_id; pm_description := description;
    pm_discount_kind := discount_kind description discounted_price discount_rate minimum_quantity
      minimum_purchase items f;
    pm_starts_at := starts_at; pm_ends_at := ends_at; pm_items := items; pm_store_ids := store_ids;
    pm_club_ids := club_ids; pm_reward_type := reward_type;
    pm_allows_multiple_discounts := allows_multiple_discounts; pm_minimum_quantity := minimum_quantity;
    pm_maximum_quantity := maximum_quantity; pm_discount_rate := discount_rate;
    pm_minimum_purchase := minimum_purchase; pm_discounted_price := discounted_price;
    pm_discounted_unit_price := discounted_unit_price; pm_minimum_items_offered := minimum_items_offered;
    pm_additional_restrictions :=
      promotion_restrictions (value_of values context (names ["additionalrestrictions"])) f;
    pm_remarks := value_of values context (names ["remarks"]); pm_is_active := is_active |} in
  PromotionRecord_post_init r;;
  mret r.

(** ** Records *)

(** The warning about the findings of a record ([Some index]) or of the document. *)
Definition findings_issue (sid : uuid) (record_index : option Z) (f : SchemaFindings) : ValidationIssue := {|
  vi_source_file_id := sid; vi_severity := WARNING; vi_code := py "unexpected_xml_field";
  vi_message := py (match record_index with Some _ => "XML record contains " | None => "XML document contains " end)
                ++ str_of_N (sf_count f) ++ py " unrecognized schema field(s)";
  vi_record_index := record_index; vi_field_name := findings_field_name f;
  vi_rejected_value := warning_evidence f |}.

(** [_parse_record]. *)
Definition parse_record (e : element) (context : fields) (sid : uuid) (d : DocumentType) (record_index : Z)
    : M W (list ParsedEvent) :=
  values ← element_values e;
  f ← record_schema_findings e d;
  record ← (if bool_decide (d = STORES) then EvStore <$> parse_store values context sid record_index
            else if is_price d then EvPrice <$> parse_price values context sid record_index
            else if is_promotion d then EvPromotion <$> parse_promotion e values context sid record_index f
            else raise validation_error);
  mret (if (sf_count f =? 0)%N then [record] else [record; EvIssue (findings_issue sid (Some record_index) f)]).
End records.
