(* ===== verification/XmlRecordsFacts.v ===== *)
(** What the records of a document hold: the invariant of the fields and findings they are
    read from, and the lengths and ranges that [__post_init__] leaves. *)
From Stdlib Require Import DecimalString.
From S2P Require Import Prelude Errors Effects Enums PyNumbers Text Models SourceValues XmlTokens XmlRecords.

(** ** Text *)

Lemma storable_app s t : storable (s ++ t) <-> storable s /\ storable t.
Proof. apply Forall_app. Qed.
Lemma storable_take n s : storable s -> storable (take n s).
Proof. apply Forall_take. Qed.
Lemma storable_join sep parts : storable sep -> Forall storable parts -> storable (join sep parts).
Proof.
  intros Hsep Hparts. induction Hparts as [|p parts Hp Hparts IH]; [constructor|]. cbn [join].
  destruct parts; [done|]. by rewrite !storable_app.
Qed.
Lemma py_len_clip n s : py_len (clip n s) <= Z.max 0 n.
Proof. unfold clip, py_len. rewrite length_take. lia. Qed.

Lemma storable_check s : forallb (fun c => negb (unstorable_char c)) s = true -> storable s.
Proof.
  intros Hs. apply Forall_forall. intros c Hc. rewrite forallb_forall in Hs.
  apply negb_true_iff, Hs. by apply list_elem_of_In.
Qed.
Ltac storable_literal := apply storable_check; vm_compute; reflexivity.

Lemma storable_str_of_N n : storable (str_of_N n).
Proof.
  assert (Hu : forall u, Forall (fun a => unstorable_char (Z.of_nat (Ascii.nat_of_ascii a)) = false)
                           (String.list_ascii_of_string (NilEmpty.string_of_uint u))).
  { induction u; simpl; constructor; done. }
  unfold str_of_N, py, NilZero.string_of_uint. apply Forall_map.
  destruct (N.to_uint n); [by repeat constructor|apply (Hu _)..].
Qed.

Section records.
Context `{UnicodeOk} `{Calendar} {W : Type}.
Variable maximum : Z.
Implicit Types (w : W) (values context : fields).

Lemma tag_name_storable tag : storable (tag_name tag).
Proof.
  unfold tag_name, normalize_name. apply Forall_forall. intros c Hc.
  apply list_elem_of_In, filter_In in Hc as [_ Hc]. unfold is_lower, is_digit in Hc.
  unfold unstorable_char. apply orb_true_iff in Hc as [Hc|Hc]; apply andb_true_iff in Hc as [??];
    apply orb_false_iff; split; [lia| |lia|]; apply andb_false_iff; left; lia.
Qed.

(** ** Fields *)

Definition clean_fields (m : fields) : Prop := map_Forall (fun _ v => clean maximum v) m.

Lemma clean_fields_empty : clean_fields ∅.
Proof. apply map_Forall_empty. Qed.
Lemma clean_fields_insert name v m : clean maximum v -> clean_fields m -> clean_fields (<[ name := v ]> m).
Proof. intros. by apply map_Forall_insert_2. Qed.

Lemma wp_leaf_values children values w : clean_fields values ->
  wp (leaf_values maximum children values) (fun m _ => clean_fields m) (fun e _ => e = validation_error) w.
Proof.
  revert values w. induction children as [|child children IH]; intros values w Hv; cbn [leaf_values]; [by wp_step|].
  destruct (negb (is_leaf child)); [by apply IH|]. unfold clean_element_text. wp_step.
  eapply wp_mono; [apply wp_clean_source_text|..]; cbv beta; [|done]. intros text w' Hclean. apply IH.
  destruct text as [t|]; [|done]. unfold set_default. case_match; [done|]. apply clean_fields_insert; auto.
Qed.
Lemma wp_element_values e w :
  wp (element_values maximum e) (fun m _ => clean_fields m) (fun e _ => e = validation_error) w.
Proof. apply wp_leaf_values, clean_fields_empty. Qed.

Lemma value_of_clean values context l v :
  clean_fields values -> clean_fields context -> value_of values context l = Some v -> clean maximum v.
Proof.
  intros Hv Hc. induction l as [|name l IH]; cbn [value_of]; [done|].
  destruct (values !! normalize_name name) eqn:E1; [intros [= <-]; by apply (Hv _ _ E1)|].
  destruct (context !! normalize_name name) eqn:E2; [intros [= <-]; by apply (Hc _ _ E2)|done].
Qed.

Lemma wp_required values context l w : clean_fields values -> clean_fields context ->
  wp (required values context l) (fun v _ => clean maximum v) (fun e _ => e = validation_error) w.
Proof.
  intros Hv Hc. unfold required. destruct (value_of values context l) eqn:E; wp_step; [|done].
  by apply (value_of_clean values context l).
Qed.

Lemma wp_date_time values context dates times w :
  wp (date_time values context dates times) (fun r _ => aware_opt r) (fun e _ => value_error e) w.
Proof.
  unfold date_time. destruct (value_of values context dates) as [d|], (value_of values context times) as [t|];
    repeat case_match; first [apply wp_parse_source_datetime|apply wp_combine_source_date_time].
Qed.

(** ** Findings *)

Definition findings_ok (f : SchemaFindings) : Prop := storable (evidence f) /\ Forall storable (field_names f).

Lemma add_finding_ok p value tag f : Forall storable p -> (forall v, value = Some v -> storable v) ->
  findings_ok f -> findings_ok (add_finding p value tag f).
Proof.
  intros Hp Hv [He Hn]. unfold add_finding.
  assert (Hname : storable (clip MAXIMUM_SCHEMA_FIELD_NAME_CHARACTERS (join (py ".") p))).
  { apply storable_take, storable_join; [storable_literal|done]. }
  split; cbn [evidence field_names].
  - case_match; [done|]. apply storable_app; split; [done|]. apply storable_take, storable_app. split.
    + destruct (str_truthy (evidence f)); [storable_literal|constructor].
    + destruct value as [v|]; [|done]. do 2 (apply storable_app; split; [done || storable_literal|]). by apply Hv.
  - case_match; [|done]. by apply Forall_app; split; [|constructor].
Qed.

Lemma wp_attribute_findings p attrib f w : Forall storable p -> findings_ok f ->
  wp (attribute_findings maximum p attrib f) (fun f' _ => findings_ok f') (fun e _ => e = validation_error) w.
Proof.
  intros Hp. revert f w. induction attrib as [|[name raw] attrib IH]; intros f w Hf; cbn [attribute_findings]; [by wp_step|].
  wp_step. eapply wp_mono; [apply wp_clean_source_text|..]; cbv beta; [|done]. intros value w' Hclean.
  apply IH, add_finding_ok; [|by intros v Hv; apply Hclean|done]. apply Forall_app. split; [done|].
  constructor; [|constructor]. apply storable_app. split; [storable_literal|].
  unfold nonempty. case_match; [apply tag_name_storable|storable_literal].
Qed.

Lemma wp_node_findings record_tag d node p f w : storable record_tag -> Forall storable p -> findings_ok f ->
  wp (node_findings maximum record_tag d node p f) (fun f' _ => findings_ok f') (fun e _ => e = validation_error) w.
Proof.
  intros Ht Hp Hf. unfold node_findings, clean_element_text. wp_step.
  eapply wp_mono; [apply wp_clean_source_text|..]; cbv beta; [|done]. intros text w' Hclean.
  apply wp_attribute_findings; [by constructor|]. destruct (record_node_kind _ _ _), text as [t|]; try done;
    apply add_finding_ok; try done; try (by intros v Hv; apply Hclean); try by constructor.
  apply Forall_app. split; [by constructor|]. constructor; [storable_literal|constructor].
Qed.

Definition pending_size (pending : list (element * path)) : nat := list_sum (map (fun p => tree_size p.1) pending).

Lemma tree_size_children e : tree_size e = S (list_sum (map tree_size (el_children e))).
Proof. by destruct e. Qed.

Lemma pending_size_cons e p pending : pending_size ((e, p) :: pending) = (tree_size e + pending_size pending)%nat.
Proof. done. Qed.
Lemma pending_size_push (q : element -> path) l pending :
  pending_size (map (fun child => (child, q child)) l ++ pending) = (list_sum (map tree_size l) + pending_size pending)%nat.
Proof. unfold pending_size. rewrite map_app, list_sum_app. f_equal. by rewrite map_map. Qed.

(** The stack of nodes runs empty within as many turns as there are nodes. *)
Lemma wp_pending_findings fuel record_tag d pending f w :
  storable record_tag -> Forall (fun p => Forall storable p.2) pending -> findings_ok f ->
  (pending_size pending <= fuel)%nat ->
  wp (pending_findings maximum fuel record_tag d pending f) (fun f' _ => findings_ok f') (fun e _ => e = validation_error) w.
Proof.
  intros Ht. revert pending f w. induction fuel as [|fuel IH]; intros pending f w Hp Hf Hfuel.
  - destruct pending as [|[e p] pending]; cbn [pending_findings]; [by wp_step|]. 
    rewrite pending_size_cons, tree_size_children in Hfuel. lia.
  - destruct pending as [|[e p] pending]; cbn [pending_findings]; [by wp_step|]. apply Forall_cons in Hp as [Hpath Hp].
    wp_step. eapply wp_mono; [by apply wp_node_findings|..]; cbv beta; [|done]. intros f' w' Hf'. apply IH; [|done|].
    + apply Forall_app. split; [|done]. apply Forall_map, Forall_forall. intros child _. simpl.
      apply Forall_app. split; [done|]. by constructor; [apply tag_name_storable|].
    + rewrite pending_size_push. rewrite pending_size_cons, tree_size_children in Hfuel. lia.
Qed.

Lemma wp_record_schema_findings e d w :
  wp (record_schema_findings maximum e d) (fun f _ => findings_ok f) (fun e _ => e = validation_error) w.
Proof.
  apply wp_pending_findings; [apply tag_name_storable| |split; constructor|].
  - constructor; constructor.
  - unfold pending_size. simpl. lia.
Qed.

(** ** Lengths and ranges *)

Definition opt_all {A} (P : A -> Prop) (o : option A) : Prop := match o with Some a => P a | None => True end.
Definition bounded (n : Z) (s : pystr) : Prop := storable s /\ py_len s <= n.
Definition in_decimal_range (m d : decimal) : Prop :=
  is_finite d = true /\ dec_ltb d dec_zero = false /\ dec_ltb m d = false.

Lemma wp_ensure_text_length v n required w :
  wp (ensure_text_length v n required) (fun _ _ => opt_all (fun s => py_len s <= n) v) (fun e _ => e = validation_error) w.
Proof. unfold ensure_text_length. repeat wp_step; try done. simpl. lia. Qed.
Lemma wp_ensure_decimal_range v m w :
  wp (ensure_decimal_range v m) (fun _ _ => opt_all (in_decimal_range m) v) (fun e _ => e = validation_error) w.
Proof.
  unfold ensure_decimal_range. destruct v as [d|]; [|by wp_step]. wp_step; [done|].
  apply orb_false_iff in H2 as [[Hf Hz]%orb_false_iff Hm]. by apply negb_false_iff in Hf.
Qed.
Lemma wp_ensure_aware_opt v w :
  wp (ensure_aware_opt v) (fun _ _ => opt_all (fun d => is_aware d = true) v) (fun e _ => e = validation_error) w.
Proof. unfold ensure_aware_opt, ensure_aware. destruct v; repeat wp_step; try done. simpl. by apply negb_false_iff. Qed.
Lemma wp_for_each {A} (f : A -> M W unit) (P : A -> Prop) l w :
  (forall a w', wp (f a) (fun _ _ => P a) (fun e _ => e = validation_error) w') ->
  wp (for_each f l) (fun _ _ => Forall P l) (fun e _ => e = validation_error) w.
Proof.
  intros Hf. revert w. induction l as [|a l IH]; intros w; cbn [for_each]; [by wp_step|]. wp_step.
  eapply wp_mono; [apply Hf|..]; cbv beta; [|done]. intros _ w' Ha. eapply wp_mono; [apply IH|..]; cbv beta; [|done].
  intros _ _ Hl. by constructor.
Qed.

Lemma clean_bounded m n s : clean m s -> py_len s <= n -> bounded n s.
Proof. by intros (_ & _ & ?). Qed.
Lemma opt_bounded n values context l : clean_fields values -> clean_fields context ->
  opt_all (fun s => py_len s <= n) (value_of values context l) -> opt_all (bounded n) (value_of values context l).
Proof.
  intros Hv Hc. destruct (value_of values context l) as [s|] eqn:E; [|done]. simpl.
  apply clean_bounded with maximum. by apply (value_of_clean values context l).
Qed.
Lemma opt_storable values context l : clean_fields values -> clean_fields context ->
  opt_all storable (value_of values context l).
Proof.
  intros Hv Hc. destruct (value_of values context l) as [s|] eqn:E; [|done]. simpl.
  by apply (value_of_clean values context l).
Qed.

(** One validated step of a record. *)
Tactic Notation "field" uconstr(lem) := wp_step; eapply wp_mono; [apply lem; done|..]; cbv beta; [|by (intros ? ? ->; left) || done].

#[local] Arguments value_of : simpl never.
Ltac valid := simpl in *; split_and?; try done; try (by eapply clean_bounded); try (by apply opt_bounded);
  try (by apply opt_storable); try match goal with H : clean _ ?s |- storable ?s => apply H end.

(** ** Stores *)

Definition store_valid (r : StoreRecord) : Prop :=
  bounded 128 (sr_chain_id r) /\ bounded 128 (sr_subchain_id r) /\ bounded 128 (sr_store_id r) /\
  opt_all (bounded 128) (sr_audit_number r) /\ opt_all (bounded 128) (sr_store_type r) /\
  opt_all storable (sr_chain_name r) /\ opt_all storable (sr_subchain_name r) /\
  storable (sr_store_name r) /\ opt_all storable (sr_address r) /\ opt_all storable (sr_city r) /\
  opt_all (bounded 32) (sr_postal_code r).

Lemma wp_parse_store values context sid n w : clean_fields values -> clean_fields context ->
  wp (parse_store values context sid n)
    (fun r _ => store_valid r /\ sr_source_file_id r = sid /\ sr_record_index r = n) (fun e _ => value_error e) w.
Proof.
  intros Hv Hc. unfold parse_store, StoreRecord_post_init.
  do 4 (field wp_required; intros ? ? ?). wp_step.
  do 6 (field wp_ensure_text_length; intros _ ? ?).
  eapply wp_mono; [apply wp_ensure_text_length|..]; cbv beta; [|by intros ? ? ->; left]. intros _ ? ?.
  wp_step. unfold store_valid. valid.
Qed.

(** ** Prices *)

Definition price_valid (r : PriceRecord) : Prop :=
  bounded 128 (pr_chain_id r) /\ bounded 128 (pr_subchain_id r) /\ bounded 128 (pr_store_id r) /\
  bounded 128 (pr_item_code r) /\ storable (pr_item_name r) /\
  opt_all storable (pr_manufacturer_name r) /\ opt_all storable (pr_manufacturer_country r) /\
  opt_all storable (pr_manufacturer_description r) /\ opt_all storable (pr_unit_quantity r) /\
  opt_all (bounded 64) (pr_unit_of_measure r) /\ opt_all (bounded 128) (pr_audit_number r) /\
  opt_all (in_decimal_range MAXIMUM_PLAUSIBLE_QUANTITY) (pr_quantity r) /\
  opt_all (in_decimal_range MAXIMUM_PLAUSIBLE_QUANTITY) (pr_quantity_in_package r) /\
  in_decimal_range MAXIMUM_STORED_MONEY (pr_item_price r) /\
  opt_all (in_decimal_range MAXIMUM_STORED_MONEY) (pr_unit_of_measure_price r).

Lemma wp_parse_price values context sid n w : clean_fields values -> clean_fields context ->
  wp (parse_price values context sid n)
    (fun r _ => price_valid r /\ pr_source_file_id r = sid /\ pr_record_index r = n) (fun e _ => value_error e) w.
Proof.
  intros Hv Hc. unfold parse_price, PriceRecord_post_init.
  field wp_parse_decimal. intros price ? _. wp_step. destruct price as [price|]; [wp_step|wp_step; by left].
  do 4 (field wp_required; intros ? ? ?). field wp_normalize_identifier. intros ? ? ?.
  field wp_parse_int. intros ? ? _. field wp_required. intros ? ? ?. field wp_parse_decimal. intros ? ? _.
  field wp_parse_bool. intros ? ? _. do 2 (field wp_parse_decimal; intros ? ? _). field wp_parse_bool. intros ? ? _.
  field wp_parse_int. intros ? ? _. do 2 (field wp_date_time; intros ? ? _). wp_step.
  do 7 (field wp_ensure_text_length; intros _ ? ?). do 4 (field wp_ensure_decimal_range; intros _ ? ?).
  field wp_ensure_aware_opt. intros _ ? ?.
  eapply wp_mono; [apply wp_ensure_aware_opt|..]; cbv beta; [|by intros ? ? ->; left]. intros _ ? ?.
  wp_step. unfold price_valid. valid.
Qed.

(** ** Promotions *)

(** Collected items: valid codes, each one once. *)
Definition items_valid (r : list PromotionItem * list pystr) : Prop :=
  Forall (fun i => bounded 128 (pi_item_code i)) r.1 /\ map pi_item_code r.1 = r.2 /\ NoDup r.2.

Lemma items_valid_snoc result seen item : items_valid (result, seen) -> bounded 128 (pi_item_code item) ->
  (pi_item_code item ∉ seen) -> items_valid (result ++ [item], seen ++ [pi_item_code item]).
Proof.
  intros (Hall & Hmap & Hnd) Hb Hnew. split_and!; simpl in *.
  - apply Forall_app. split; [done|]. by constructor.
  - rewrite map_app. simpl. by rewrite Hmap.
  - apply NoDup_app. split_and!; [done|set_solver|apply NoDup_singleton].
Qed.

(** At most [n] more items. *)
Definition collected (n : nat) (result : list PromotionItem) (r : list PromotionItem * list pystr) : Prop :=
  items_valid r /\ (length r.1 <= length result + n)%nat.

Lemma collected_trans n m result r1 r2 : collected n result r1 -> collected m r1.1 r2 -> collected (n + m) result r2.
Proof. intros [_ H1'] [Hv H2']. split; [done|lia]. Qed.
Lemma collected_le n m result r : collected n result r -> (n <= m)%nat -> collected m result r.
Proof. intros [Hv Hle] Hnm. split; [done|lia]. Qed.

Lemma wp_PromotionItem_post_init i w :
  wp (PromotionItem_post_init i) (fun _ _ => py_len (pi_item_code i) <= 128) (fun e _ => e = validation_error) w.
Proof. apply (wp_ensure_text_length (Some (pi_item_code i))). Qed.

(** A new item. *)
Lemma collect_item (k : list PromotionItem -> list pystr -> M W (list PromotionItem * list pystr)) item result seen n w :
  items_valid (result, seen) -> clean 128 (pi_item_code item) -> (pi_item_code item ∉ seen) ->
  (forall result' seen' w', items_valid (result', seen') ->
     wp (k result' seen') (fun r _ => collected n result' r) (fun e _ => value_error e) w') ->
  wp (PromotionItem_post_init item;; k (result ++ [item]) (seen ++ [pi_item_code item]))
    (fun r _ => collected (S n) result r) (fun e _ => value_error e) w.
Proof.
  intros Hv Hclean Hnew Hk. field wp_PromotionItem_post_init. intros _ w' Hlen.
  eapply wp_mono; [apply Hk|..]; cbv beta; [|intros r w'' [Hr Hl]; split; [done|]|done].
  - apply items_valid_snoc; [done|by eapply clean_bounded|done].
  - rewrite length_app in Hl. simpl in Hl. lia.
Qed.

Lemma wp_direct_item_codes children result seen w : items_valid (result, seen) ->
  wp (direct_item_codes maximum children result seen) (fun r _ => collected (length children) result r)
    (fun e _ => value_error e) w.
Proof.
  revert result seen w. induction children as [|child children IH]; intros result seen w Hv; cbn [direct_item_codes].
  - wp_step. split; [done|simpl; lia].
  - assert (Hskip : forall w', wp (direct_item_codes maximum children result seen)
      (fun r _ => collected (length (child :: children)) result r) (fun e _ => value_error e) w').
    { intros w'. eapply wp_mono; [by apply IH|..]; cbv beta; [|done]. intros r w'' Hr.
      apply (collected_le _ _ _ _ Hr). simpl. lia. }
    destruct (negb (is_leaf child) || _); [apply Hskip|]. unfold clean_element_text. field wp_clean_source_text.
    intros code w1 _. destruct code as [code|]; [|apply Hskip]. field wp_normalize_identifier. intros normalized w2 Hn.
    case_bool_decide; [apply Hskip|]. apply (collect_item (direct_item_codes maximum children)
      {| pi_item_code := normalized; pi_item_type := None; pi_is_gift := false |}); auto.
Qed.

Lemma wp_relation_items relations result seen w : items_valid (result, seen) ->
  wp (relation_items maximum relations result seen) (fun r _ => collected (length relations) result r)
    (fun e _ => value_error e) w.
Proof.
  revert result seen w. induction relations as [|relation relations IH]; intros result seen w Hv; cbn [relation_items].
  - wp_step. split; [done|simpl; lia].
  - field wp_element_values. intros values w1 _. destruct (value_of values ∅ ITEM_CODE_TAGS) as [code|]; [|wp_step; by left].
    field wp_normalize_identifier. intros normalized w2 Hn. case_bool_decide.
    + eapply wp_mono; [by apply IH|..]; cbv beta; [|done]. intros r w' Hr. apply (collected_le _ _ _ _ Hr). simpl. lia.
    + field wp_parse_int. intros item_type w3 _. field wp_parse_bool. intros gift w4 _.
      apply (collect_item (relation_items maximum relations)
        {| pi_item_code := normalized; pi_item_type := item_type; pi_is_gift := default false gift |}); auto.
Qed.

Lemma length_children_named tags children : (length (children_named tags children) <= length children)%nat.
Proof. unfold children_named. induction children; simpl; [done|]. case_match; simpl; lia. Qed.

Lemma wp_container_items containers result seen w : items_valid (result, seen) ->
  wp (container_items maximum containers result seen)
    (fun r _ => collected (list_sum (map (fun c => length (el_children c)) containers)) result r)
    (fun e _ => value_error e) w.
Proof.
  revert result seen w. induction containers as [|c containers IH]; intros result seen w Hv; cbn [container_items].
  - wp_step. split; [done|simpl; lia].
  - set (relations := children_named PROMOTION_ITEM_RELATIONS (el_children c)).
    pose proof (length_children_named PROMOTION_ITEM_RELATIONS (el_children c)) as Hlen. fold relations in Hlen.
    wp_step. eapply wp_mono; [by apply wp_relation_items|..]; cbv beta; [|done]. intros [result1 seen1] w1 Hr1.
    wp_step. eapply (wp_mono _ (fun r _ => collected (length (el_children c)) result r) _ (fun e _ => value_error e)).
    { destruct relations as [|rel rels].
      - eapply wp_mono; [apply wp_direct_item_codes, Hr1|..]; cbv beta; [|done]. intros r w2 Hr2.
        apply (collected_trans 0 _ _ _ _ Hr1 Hr2).
      - wp_step. by apply (collected_le _ _ _ _ Hr1). }
    + cbv beta. intros [result2 seen2] w2 Hr2. eapply wp_mono; [apply IH, Hr2|..]; cbv beta; [|done].
      intros r w3 Hr3. apply (collected_trans _ _ _ _ _ Hr2 Hr3).
    + done.
Qed.

Lemma tree_size_leaf_sum e : (list_sum (map (fun c => length (el_children c)) (el_children e)) + length (el_children e) < tree_size e)%nat.
Proof.
  assert (Hge : forall c, (S (length (el_children c)) <= tree_size c)%nat).
  { intros c. rewrite tree_size_children. apply le_n_S. induction (el_children c) as [|d l IH]; [done|].
    cbn [map length list_sum]. change (list_sum (tree_size d :: map tree_size l)) with (tree_size d + list_sum (map tree_size l))%nat.
    rewrite (tree_size_children d). lia. }
  rewrite tree_size_children. induction (el_children e) as [|c l IH]; [simpl; lia|]. specialize (Hge c).
  change (list_sum (map tree_size (c :: l))) with (tree_size c + list_sum (map tree_size l))%nat.
  change (list_sum (map (fun c => length (el_children c)) (c :: l)))
    with (length (el_children c) + list_sum (map (fun c => length (el_children c)) l))%nat. simpl length. lia.
Qed.

Lemma list_sum_named tags children :
  (list_sum (map (fun c => length (el_children c)) (children_named tags children))
   <= list_sum (map (fun c => length (el_children c)) children))%nat.
Proof.
  unfold children_named. induction children as [|c l IH]; [done|]. simpl.
  case_match; unfold list_sum in *; simpl; lia.
Qed.

Definition promotion_items_valid (e : element) (items : list PromotionItem) : Prop :=
  Forall (fun i => bounded 128 (pi_item_code i)) items /\ NoDup (map pi_item_code items) /\
  (length items < tree_size e)%nat.

Lemma wp_promotion_items e w :
  wp (promotion_items maximum e) (fun items _ => promotion_items_valid e items) (fun e _ => value_error e) w.
Proof.
  unfold promotion_items. pose proof (tree_size_leaf_sum e) as Hsize.
  pose proof (list_sum_named [py "promotionitems"] (el_children e)) as Hnamed.
  assert (Hdone : forall n r, collected n [] r -> (n < tree_size e)%nat -> promotion_items_valid e r.1).
  { intros n r ((Hall & Hmap & Hnd) & Hlen) Hn. split_and!; [done|by rewrite Hmap|]. simpl in Hlen. lia. }
  wp_step. eapply wp_mono; [apply wp_container_items; split_and!; [constructor|done|constructor]|..]; cbv beta; [|done].
  intros [result seen] w1 Hr. destruct result as [|item result].
  - wp_step. eapply wp_mono; [apply wp_direct_item_codes, Hr|..]; cbv beta; [|done]. intros [items seen'] w2 Hr2.
    wp_step. apply (Hdone (length (el_children e)) (items, seen')); [apply Hr2|lia].
  - wp_step. apply (Hdone _ _ Hr). lia.
Qed.

(** Collected identifiers: valid and each one once. *)
Definition identifiers_valid (l : list pystr) : Prop := Forall (bounded 128) l /\ NoDup l.

Lemma wp_relation_identifiers tag relationships l w : identifiers_valid l ->
  wp (relation_identifiers maximum tag relationships l)
    (fun l' _ => identifiers_valid l' /\ (length l' <= length l + length relationships)%nat)
    (fun e _ => value_error e) w.
Proof.
  revert l w. induction relationships as [|r rs IH]; intros l w Hl; cbn [relation_identifiers].
  - wp_step. split; [done|simpl; lia].
  - field wp_element_values. intros fields w1 _. destruct (value_of fields ∅ [tag]) as [v|]; [|wp_step; by left].
    field wp_normalize_identifier. intros normalized w2 Hn. case_bool_decide.
    + eapply wp_mono; [by apply IH|..]; cbv beta; [|done]. intros l' _ [Hl' Hlen]. split; [done|simpl; lia].
    + eapply wp_mono; [apply IH|..]; cbv beta; [|intros l' _ [Hl' Hlen]; rewrite length_app in Hlen; split; [done|simpl in *; lia]|done].
      destruct Hl as [Hall Hnd]. split; [apply Forall_app; split; [done|constructor; [by eapply clean_bounded; [|apply Hn]|done]]|].
      apply NoDup_app. split_and!; [done|set_solver|apply NoDup_singleton].
Qed.

Lemma wp_container_identifiers tags tag containers l w : identifiers_valid l ->
  wp (container_identifiers maximum tags tag containers l)
    (fun l' _ => identifiers_valid l' /\
       (length l' <= length l + list_sum (map (fun c => length (el_children c)) containers))%nat)
    (fun e _ => value_error e) w.
Proof.
  revert l w. induction containers as [|c cs IH]; intros l w Hl; cbn [container_identifiers].
  - wp_step. split; [done|simpl; lia].
  - wp_step. eapply wp_mono; [by apply wp_relation_identifiers|..]; cbv beta; [|done]. intros l1 w1 [Hl1 Hlen1].
    pose proof (length_children_named tags (el_children c)).
    eapply wp_mono; [by apply IH|..]; cbv beta; [|done]. intros l' _ [Hl' Hlen]. split; [done|].
    change (list_sum (map (fun c => length (el_children c)) (c :: cs)))
      with (length (el_children c) + list_sum (map (fun c => length (el_children c)) cs))%nat. lia.
Qed.

Lemma wp_nested_identifiers e tags relations tag w :
  wp (nested_identifiers maximum e tags relations tag)
    (fun l _ => identifiers_valid l /\ (length l < tree_size e)%nat) (fun e _ => value_error e) w.
Proof.
  eapply wp_mono; [apply wp_container_identifiers; split; constructor|..]; cbv beta; [|done].
  intros l _ [Hl Hlen]. split; [done|]. pose proof (tree_size_leaf_sum e).
  pose proof (list_sum_named tags (el_children e)). simpl in Hlen. lia.
Qed.

Lemma storable_restrictions existing f : opt_all storable existing -> findings_ok f ->
  opt_all storable (promotion_restrictions maximum existing f).
Proof.
  intros He [Hev _]. unfold promotion_restrictions. destruct (sf_count f =? 0)%N; [done|]. case_match; cbn [opt_all].
  - apply storable_take. destruct existing; [done|constructor].
  - apply storable_take. apply storable_app. split.
    + destruct existing as [s|]; [|constructor]. destruct (str_truthy s); [|constructor]. apply storable_app.
      split; [done|storable_literal].
    + apply storable_app. split; [storable_literal|]. by apply storable_take.
Qed.

Definition promotion_valid (e : element) (r : PromotionRecord) : Prop :=
  bounded 128 (pm_chain_id r) /\ bounded 128 (pm_subchain_id r) /\ opt_all (bounded 128) (pm_source_store_id r) /\
  bounded 256 (pm_promotion_id r) /\ opt_all storable (pm_description r) /\
  promotion_items_valid e (pm_items r) /\
  (identifiers_valid (pm_store_ids r) /\ (length (pm_store_ids r) < tree_size e)%nat) /\
  (identifiers_valid (pm_club_ids r) /\ (length (pm_club_ids r) < tree_size e)%nat) /\
  opt_all (in_decimal_range MAXIMUM_PLAUSIBLE_QUANTITY) (pm_minimum_quantity r) /\
  opt_all (in_decimal_range MAXIMUM_PLAUSIBLE_QUANTITY) (pm_maximum_quantity r) /\
  opt_all (in_decimal_range (dec_of_N 100)) (pm_discount_rate r) /\
  opt_all (in_decimal_range MAXIMUM_STORED_MONEY) (pm_minimum_purchase r) /\
  opt_all (in_decimal_range MAXIMUM_STORED_MONEY) (pm_discounted_price r) /\
  opt_all (in_decimal_range MAXIMUM_STORED_MONEY) (pm_discounted_unit_price r) /\
  opt_all (fun n => 0 <= n <= 1000000) (pm_minimum_items_offered r) /\
  opt_all storable (pm_additional_restrictions r) /\ opt_all storable (pm_remarks r).

Lemma wp_parse_promotion e values context sid n f w : clean_fields values -> clean_fields context -> findings_ok f ->
  wp (parse_promotion maximum e values context sid n f)
    (fun r _ => promotion_valid e r /\ pm_source_file_id r = sid /\ pm_record_index r = n) (fun e _ => value_error e) w.
Proof.
  intros Hv Hc Hf. pose proof (storable_restrictions _ f (opt_storable values context (map py ["additionalrestrictions"%string]) Hv Hc) Hf) as Hrestr.
  pose proof clean_fields_empty as Hempty.
  unfold parse_promotion, PromotionRecord_post_init. field wp_promotion_items. intros items w1 Hitems.
  wp_step. wp_step; [by left|].
  do 4 (field wp_parse_decimal; intros ? ? _). do 3 (field wp_required; intros ? ? ?).
  field wp_normalize_identifier. intros ? ? ?. do 2 (field wp_date_time; intros ? ? _).
  do 2 (field wp_nested_identifiers; intros ? ? ?). field wp_parse_int. intros ? ? _. field wp_parse_bool. intros ? ? _.
  do 2 (field wp_parse_decimal; intros ? ? _). field wp_parse_int. intros ? ? _. field wp_parse_bool. intros ? ? _. wp_step.
  do 4 (field wp_ensure_text_length; intros _ ? ?).
  do 2 (wp_step; eapply wp_mono; [apply (wp_for_each _ (fun s => py_len s <= 128)); intros; apply (wp_ensure_text_length (Some _))|..];
    cbv beta; [|by intros ? ? ->; left]; intros _ ? _).
  do 2 (field wp_ensure_aware_opt; intros _ ? _). wp_step. wp_step; [by left|].
  do 2 (field wp_ensure_decimal_range; intros _ ? ?). wp_step. wp_step; [by left|]. field wp_ensure_decimal_range. intros _ ? ?.
  wp_step. eapply wp_mono; [apply (wp_for_each _ (opt_all (in_decimal_range MAXIMUM_STORED_MONEY))); intros;
    apply wp_ensure_decimal_range|..]; cbv beta; [|by intros ? ? ->; left]. intros _ ? Hmoney.
  repeat rewrite Forall_cons in Hmoney. destruct Hmoney as (? & ? & ? & _).
  wp_step; [by left|]. wp_step. unfold promotion_valid. valid; try tauto.
  match goal with H : match ?o with Some _ => _ | None => _ end = false |- opt_all _ ?o =>
    destruct o as [z|]; [simpl; apply negb_false_iff, andb_true_iff in H; lia|done] end.
Qed.

(** ** Records *)

Definition issue_valid (i : ValidationIssue) : Prop :=
  storable (vi_code i) /\ vi_code i <> [] /\ py_len (vi_code i) <= 128 /\ storable (vi_message i) /\
  opt_all (bounded 256) (vi_field_name i) /\ opt_all storable (vi_rejected_value i).

Lemma opt_all_nonempty (P : pystr -> Prop) s : P s -> opt_all P (nonempty s).
Proof. intros Hs. unfold nonempty. by case_match. Qed.

Lemma findings_issue_valid sid n f : findings_ok f -> issue_valid (findings_issue sid n f).
Proof.
  intros [Hev Hn]. unfold issue_valid, findings_issue. cbn [vi_code vi_message vi_field_name vi_rejected_value].
  split_and!; [storable_literal|done|vm_compute; discriminate| | |].
  - apply storable_app. split; [destruct n; storable_literal|]. apply storable_app.
    split; [apply storable_str_of_N|storable_literal].
  - apply opt_all_nonempty. split; [apply storable_take, storable_join; [storable_literal|done]|].
    pose proof (py_len_clip MAXIMUM_SCHEMA_FIELD_NAME_CHARACTERS (join (py ",") (field_names f))) as Hlen.
    unfold MAXIMUM_SCHEMA_FIELD_NAME_CHARACTERS in Hlen at 2. lia.
  - by apply opt_all_nonempty, storable_take.
Qed.

(** An event of the record [e]. *)
Definition event_valid (e : element) (sid : uuid) (n : Z) (ev : ParsedEvent) : Prop :=
  match ev with
  | EvStore r => store_valid r /\ sr_source_file_id r = sid /\ sr_record_index r = n
  | EvPrice r => price_valid r /\ pr_source_file_id r = sid /\ pr_record_index r = n
  | EvPromotion r => promotion_valid e r /\ pm_source_file_id r = sid /\ pm_record_index r = n
  | EvIssue i => issue_valid i /\ vi_source_file_id i = sid /\ vi_record_index i = Some n
  | EvMetadata _ => False
  end.
Definition is_record (ev : ParsedEvent) : bool :=
  match ev with EvIssue _ | EvMetadata _ => false | _ => true end.

(** What a record yields: itself, and at most one warning after it. *)
Definition record_yield (e : element) (sid : uuid) (n : Z) (l : list ParsedEvent) : Prop :=
  Forall (event_valid e sid n) l /\
  exists record, is_record record = true /\
    (l = [record] \/ exists i, l = [record; EvIssue i] /\ vi_severity i = WARNING).

Lemma wp_parse_record e context sid d n w : clean_fields context ->
  wp (parse_record maximum e context sid d n) (fun l _ => record_yield e sid n l) (fun e _ => value_error e) w.
Proof.
  intros Hc. unfold parse_record. field wp_element_values. intros values w1 Hv.
  field wp_record_schema_findings. intros f w2 Hf.
  assert (Hyield : forall record, is_record record = true -> event_valid e sid n record ->
    record_yield e sid n (if (sf_count f =? 0)%N then [record] else [record; EvIssue (findings_issue sid (Some n) f)])).
  { intros record Hr Hev. split.
    - case_match; constructor; [done|constructor|done|]. constructor; [|constructor].
      split; [by apply findings_issue_valid|done].
    - exists record. split; [done|]. case_match; [by left|right]. eauto. }
  wp_step. eapply (wp_mono _ (fun r _ => is_record r = true /\ event_valid e sid n r) _ (fun e _ => value_error e)).
  - case_bool_decide; [|destruct (is_price d); [|destruct (is_promotion d); [|wp_step; by left]]]; wp_step;
      (eapply wp_mono; [first [by apply wp_parse_store|by apply wp_parse_price|by apply wp_parse_promotion]|..]; cbv beta; [|done]);
      intros r _ Hr; done.
  - cbv beta. intros record w3 [Hr Hev]. wp_step. by apply Hyield.
  - done.
Qed.
End records.
