(* ===== verification/XmlDocument.v ===== *)
(** Documents in [src/src/makolet/adapters/parsers/xml.py]: [_drain], the state machine over
    the start and end events of elements; [_BoundedTreeTarget]; [_parse_spooled]; and [_parse],
    from compressed chunks to the events it yields.

    Expat is the class [Expat].  The size of a serialized record and the text of the error that
    rejects a record are given by functions of the record number: the first depends on white
    space the trees here leave out, the second on messages the model leaves out. *)
From S2P Require Import Prelude Errors Effects Enums PyNumbers Text Models Ports SourceValues ZipDirectory Streams XmlTokens XmlRecords.

(** [XmlParserLimits]. *)
Record XmlParserLimits := {
  compression : CompressionLimits;
  maximum_depth : Z;
  maximum_elements : Z;
  maximum_records : Z;
  maximum_record_bytes : Z;
  maximum_field_characters : Z;
  maximum_token_characters : Z;
  xml_minimum_free_bytes : Z
}.
Definition XmlParserLimits_post_init {W : Type} (l : XmlParserLimits) : M W unit :=
  raise_if (py_any (fun value => value <=? 0) [maximum_depth l; maximum_elements l; maximum_records l;
    maximum_record_bytes l; maximum_field_characters l; maximum_token_characters l]) (PyExn ValueError);;
  raise_if (xml_minimum_free_bytes l <? 0) (PyExn ValueError).

(** ** Paths *)

Definition STORE_CONTEXT_TAGS : list pystr := CONTEXT_TAGS ++ [py "chainname"; py "subchainname"].
Definition RECORD_CONTAINERS : list pystr := [py "items"; py "promotions"; py "stores"].
Definition NESTED_STORE_CONTAINER_PATH : path :=
  [py "root"; py "chain"; py "subchains"; py "subchain"; py "stores"].
Definition STORE_DOCUMENT_WRAPPER_PATHS : list path :=
  [[py "root"; py "chain"]; [py "root"; py "chain"; py "subchains"];
   [py "root"; py "chain"; py "subchains"; py "subchain"]].

(** [_record_tag] and [_record_container]. *)
Definition record_tag_of {W : Type} (d : DocumentType) : M W pystr :=
  if bool_decide (d = STORES) then mret (py "store")
  else if is_price d then mret (py "item")
  else if is_promotion d then mret (py "promotion")
  else raise malformed.
Definition record_container {W : Type} (d : DocumentType) : M W pystr :=
  if bool_decide (d = STORES) then mret (py "stores")
  else if is_price d then mret (py "items")
  else if is_promotion d then mret (py "promotions")
  else raise malformed.

Definition is_expected_container_path (expected : pystr) (p : path) (d : DocumentType) : bool :=
  bool_decide (p = [py "root"; expected])
  || (bool_decide (d = STORES) && bool_decide (p = NESTED_STORE_CONTAINER_PATH)).

Definition is_context_path (p : path) (d : DocumentType) : bool :=
  let stores := bool_decide (d = STORES) in
  match p with
  | [root; tag] =>
      bool_decide (root = py "root")
      && bool_decide (tag ∈ if stores then STORE_CONTEXT_TAGS else CONTEXT_TAGS)
  | [root; chain; tag] =>
      stores && bool_decide ([root; chain] = [py "root"; py "chain"])
      && bool_decide (tag ∈ STORE_CONTEXT_TAGS)
      && negb (bool_decide (tag ∈ [py "subchainid"; py "subchainname"; py "storeid"]))
  | [root; chain; subchains; subchain; tag] =>
      stores
      && bool_decide ([root; chain; subchains; subchain]
                      = [py "root"; py "chain"; py "subchains"; py "subchain"])
      && bool_decide (tag ∈ STORE_CONTEXT_TAGS)
      && negb (bool_decide (tag ∈ [py "chainid"; py "chainname"; py "storeid"]))
  | _ => false
  end.

Definition is_document_structure_path (expected : pystr) (p : path) (d : DocumentType) : bool :=
  bool_decide (p = [py "root"]) || is_expected_container_path expected p d
  || (bool_decide (d = STORES) && bool_decide (p ∈ STORE_DOCUMENT_WRAPPER_PATHS)).

(** ** The state of a parse *)

(** An element whose end is still to be handled: its object, its tag, and the children it has
    kept. *)
Record Frame := { fr_id : Z; fr_tag : pystr; fr_children : list element }.

(** A record that is open: [active_record_depth], [active_record_start] and
    [active_record_earliest_start], which are read while it is. *)
Record ActiveRecord := { ar_depth : Z; ar_start : Z; ar_earliest_start : Z }.

(** What a depth restores when its element ends: the earlier values of the names it set. *)
Abbreviation Saved := (gmap pystr (option pystr)).

(** [_ParseState] and [context]; the innermost element is the head of the stack. *)
Record ParseState := {
  depth : Z;
  elements : Z;
  records : Z;
  decompressed_bytes : Z;
  current_feed_start : Z;
  active : option ActiveRecord;
  root_seen : bool;
  containers : Z;
  container_depth : option Z;
  element_stack : list Frame;
  context_previous_by_depth : gmap Z Saved;
  document_findings : SchemaFindings;
  context : fields
}.
Definition new_parse_state : ParseState := {| depth := 0; elements := 0; records := 0; decompressed_bytes := 0;
  current_feed_start := 0; active := None; root_seen := false; containers := 0; container_depth := None;
  element_stack := []; context_previous_by_depth := ∅;
  document_findings := new_findings MAXIMUM_SCHEMA_WARNING_EVIDENCE_CHARACTERS; context := ∅ |}.

(** [("start", element)] and [("end", element)]: the element's object, and what is known of
    it then. *)
Inductive tree_event :=
  | StartEvent (id : Z) (tag : pystr)
  | EndEvent (id : Z) (attrib : list (pystr * pystr)) (text : option pystr).

(** A call that neither reads nor writes the state. *)
Definition stateless {W A : Type} (m : M unit A) : M W A := zoom (fun _ => tt) (fun _ w => w) m.

Section document.
Context `{Unicode} `{Calendar}.
Variable limits : XmlParserLimits.
Variable encoded_record_size : Z -> codec -> option Z.
Variable rejection_message : Z -> pystr.

(** The tags of the open elements, the outermost first. *)
Definition stack_path (stack : list Frame) : path := reverse (map (fun f => tag_name (fr_tag f)) stack).

(** ** Start events *)

Definition check_container (expected tag : pystr) (d : DocumentType) (stack : list Frame) (s : ParseState)
    : M ParseState unit :=
  let container_path := stack_path stack in
  raise_if (negb (bool_decide (tag = expected))) malformed;;
  raise_if (negb (is_expected_container_path expected container_path d)) malformed;;
  raise_if (bool_decide (container_path = NESTED_STORE_CONTAINER_PATH)
            && negb (bool_decide (is_Some (default ∅ (context_previous_by_depth s !! depth s) !! py "subchainid"))))
    malformed;;
  raise_if (bool_decide (container_depth s <> None)) malformed.

Definition on_start (record_tag expected : pystr) (d : DocumentType) (id : Z) (raw_tag : pystr) : M ParseState unit :=
  s ← get_state;
  let tag := tag_name raw_tag in
  raise_if ((depth s =? 0) && (root_seen s || negb (bool_decide (tag = py "root")))) malformed;;
  let new_depth := depth s + 1 in
  let new_elements := elements s + 1 in
  let stack := {| fr_id := id; fr_tag := raw_tag; fr_children := [] |} :: element_stack s in
  raise_if (maximum_depth limits <? new_depth) malformed;;
  raise_if (maximum_elements limits <? new_elements) malformed;;
  let opens := bool_decide (tag ∈ RECORD_CONTAINERS) in
  when opens (check_container expected tag d stack s);;
  let new_container_depth := if opens then Some new_depth else container_depth s in
  let starts := bool_decide (tag = record_tag) in
  when starts
    (raise_if (bool_decide (active s <> None)) malformed;;
     raise_if (match new_container_depth with Some c => negb (new_depth =? c + 1) | None => true end) malformed);;
  put_state {| depth := new_depth; elements := new_elements; records := records s;
    decompressed_bytes := decompressed_bytes s; current_feed_start := current_feed_start s;
    active := if starts then Some {| ar_depth := new_depth; ar_start := decompressed_bytes s;
                                     ar_earliest_start := current_feed_start s |}
              else active s;
    root_seen := root_seen s || (depth s =? 0);
    containers := containers s + (if opens then 1 else 0);
    container_depth := new_container_depth; element_stack := stack;
    context_previous_by_depth := context_previous_by_depth s;
    document_findings := document_findings s; context := context s |}.

(** ** End events *)

(** [_inspect_document_element]. *)
Definition inspect_document_element {W : Type} (expected : pystr) (e : element) (p : path) (d : DocumentType) (f : SchemaFindings)
    : M W (option pystr * SchemaFindings) :=
  text ← clean_element_text (maximum_field_characters limits) e;
  let is_context := is_context_path p d in
  let is_structure := is_document_structure_path expected p d in
  let '(accepted_text, f) :=
    if (is_context && negb (is_leaf e)) || (negb is_context && negb is_structure)
    then (None, add_finding p text (default [] (last p)) f)
    else if is_structure then
      (None, match text with
             | Some _ => add_finding (p ++ [py "#text"]) text (py "#text") f
             | None => f
             end)
    else (text, f) in
  f ← attribute_findings (maximum_field_characters limits) p (el_attrib e) f;
  mret (accepted_text, f).

(** The record that ends, or the issue that rejects it. *)
Definition record_events {W : Type} (e : element) (ctx : fields) (sid : uuid) (d : DocumentType) (record_index : Z)
    : M W (list ParsedEvent) :=
  try_with (parse_record (maximum_field_characters limits) e ctx sid d record_index) (fun error =>
    match error with
    | MakoletExn DomainValidationError _ =>
        mret [EvIssue {| vi_source_file_id := sid; vi_severity := RECORD_REJECTION;
          vi_code := py (error_class_code DomainValidationError);
          vi_message := rejection_message record_index; vi_record_index := Some record_index;
          vi_field_name := None; vi_rejected_value := None |}]
    | _ => raise error
    end).

(** [context[tag] = text], with the value it replaces saved at the depth of the parent. *)
Definition save_context (scope_depth : Z) (tag : pystr) (ctx : fields) (saved : gmap Z Saved) : gmap Z Saved :=
  if 1 <? scope_depth then
    let previous := default ∅ (saved !! scope_depth) in
    <[ scope_depth := match previous !! tag with Some _ => previous | None => <[ tag := ctx !! tag ]> previous end ]> saved
  else saved.

(** [for context_tag, previous_value in previous_context.items()]. *)
Definition restore_context (previous : Saved) (ctx : fields) : fields :=
  map_fold (fun tag value ctx => match value with
                                 | Some v => <[ tag := v ]> ctx
                                 | None => delete tag ctx
                                 end) ctx previous.

(** What the end of an element leaves to its ancestors: the events, the record counter, the
    open record, the findings, the context and its saved values. *)
Record Handled := {
  h_events : list ParsedEvent;
  h_records : Z;
  h_active : option ActiveRecord;
  h_findings : SchemaFindings;
  h_context : fields;
  h_saved : gmap Z Saved
}.

(** The branches of the end of [e], the innermost element. *)
Definition end_element {W : Type} (record_tag expected : pystr) (record_codec : codec) (sid : uuid) (d : DocumentType) (e : element) (s : ParseState)
    : M W Handled :=
  let tag := tag_name (el_tag e) in
  match active s with
  | Some ar =>
      if (ar_depth ar =? depth s) && bool_decide (tag = record_tag) then
        let n := records s + 1 in
        raise_if (maximum_records limits <? n) malformed;;
        (if maximum_record_bytes limits <? decompressed_bytes s - ar_earliest_start ar then
           match encoded_record_size n record_codec with
           | Some size => raise_if (maximum_record_bytes limits <? size) malformed
           | None => raise malformed
           end
         else mret tt);;
        events ← record_events e (context s) sid d n;
        mret {| h_events := events; h_records := n; h_active := None; h_findings := document_findings s;
                h_context := context s; h_saved := context_previous_by_depth s |}
      else mret {| h_events := []; h_records := records s; h_active := Some ar;
             h_findings := document_findings s; h_context := context s; h_saved := context_previous_by_depth s |}
  | None =>
      let p := stack_path (element_stack s) in
      '(text, f) ← inspect_document_element expected e p d (document_findings s);
      let '(ctx, saved) :=
        match text with
        | Some t => if is_context_path p d
                    then (<[ tag := t ]> (context s),
                          save_context (depth s - 1) tag (context s) (context_previous_by_depth s))
                    else (context s, context_previous_by_depth s)
        | None => (context s, context_previous_by_depth s)
        end in
      mret {| h_events := []; h_records := records s; h_active := None; h_findings := f; h_context := ctx;
              h_saved := saved |}
  end.

(** The rest of the turn: the element leaves its parent unless a record is open, its container
    and its context end with it. *)
Definition leave_element (expected : pystr) (e : element) (h : Handled) (rest : list Frame) (s : ParseState) : ParseState :=
  let previous := default ∅ (h_saved h !! depth s) in
  {| depth := depth s - 1; elements := elements s; records := h_records h;
     decompressed_bytes := decompressed_bytes s; current_feed_start := current_feed_start s;
     active := h_active h; root_seen := root_seen s; containers := containers s;
     container_depth := if bool_decide (tag_name (el_tag e) = expected) && bool_decide (container_depth s = Some (depth s))
                        then None else container_depth s;
     element_stack := match h_active h, rest with
                      | Some _, parent :: rest =>
                          {| fr_id := fr_id parent; fr_tag := fr_tag parent;
                             fr_children := fr_children parent ++ [e] |} :: rest
                      | _, _ => rest
                      end;
     context_previous_by_depth := delete (depth s) (h_saved h);
     document_findings := h_findings h;
     context := restore_context previous (h_context h) |}.

Definition on_end (record_tag expected : pystr) (record_codec : codec) (sid : uuid) (d : DocumentType) (id : Z)
    (attrib : list (pystr * pystr)) (text : option pystr) : M ParseState (list ParsedEvent) :=
  s ← get_state;
  match element_stack s with
  | frame :: rest =>
      raise_if (negb (fr_id frame =? id)) malformed;;
      let e := Element (fr_tag frame) attrib text (fr_children frame) in
      h ← stateless (end_element record_tag expected record_codec sid d e s);
      put_state (leave_element expected e h rest s);;
      mret (h_events h)
  | [] => raise malformed
  end.

Definition on_event (record_tag expected : pystr) (record_codec : codec) (sid : uuid) (d : DocumentType) (ev : tree_event)
    : M ParseState (list ParsedEvent) :=
  match ev with
  | StartEvent id tag => on_start record_tag expected d id tag;; mret []
  | EndEvent id attrib text => on_end record_tag expected record_codec sid d id attrib text
  end.

(** [_drain]: the events it yields, up to the exception that ends it. *)
Abbreviation Parsing := (ParseState * list ParsedEvent)%type (only parsing).
Definition yield_events (l : list ParsedEvent) : M Parsing unit := modify (fun '(s, out) => (s, out ++ l)).

Fixpoint drain_events (record_tag expected : pystr) (record_codec : codec) (sid : uuid) (d : DocumentType)
    (evs : list tree_event) : M Parsing unit :=
  match evs with
  | [] => mret tt
  | ev :: evs =>
      l ← zoom fst (fun s w => (s, snd w)) (on_event record_tag expected record_codec sid d ev);
      yield_events l;;
      drain_events record_tag expected record_codec sid d evs
  end.
Definition drain (record_tag : pystr) (record_codec : codec) (sid : uuid) (d : DocumentType) (evs : list tree_event)
    : M Parsing unit :=
  expected ← record_container d;
  drain_events record_tag expected record_codec sid d evs.

(** ** The tree target *)

(** What Expat calls; comments and processing instructions leave no trace. *)
Inductive sax_event :=
  | SaxStart (tag : pystr) (attributes : list (pystr * pystr))
  | SaxEnd (tag : pystr)
  | SaxData (data : pystr).

(** An element that [TreeBuilder] is building; character data is its text until it has a
    child. *)
Record Building := { bu_id : Z; bu_attrib : list (pystr * pystr); bu_text : option pystr; bu_has_child : bool }.

(** [_BoundedTreeTarget]: the builder, the queue of events, and the counter of data. *)
Record Target := { next_id : Z; building : list Building; queue : list tree_event; data_characters : Z }.
Definition new_target : Target := {| next_id := 0; building := []; queue := []; data_characters := 0 |}.

Definition target_start (tag : pystr) (attributes : list (pystr * pystr)) : M Target unit :=
  raise_if (py_any (fun a => maximum_field_characters limits <? py_len (snd a)) attributes) malformed;;
  raise_if (maximum_token_characters limits
            <? py_len tag + zsum (map (fun a => py_len (fst a) + py_len (snd a)) attributes)) malformed;;
  modify (fun t => {|
    next_id := next_id t + 1;
    building := {| bu_id := next_id t; bu_attrib := attributes; bu_text := None; bu_has_child := false |}
                :: match building t with
                   | b :: bs => {| bu_id := bu_id b; bu_attrib := bu_attrib b; bu_text := bu_text b; bu_has_child := true |} :: bs
                   | [] => []
                   end;
    queue := queue t ++ [StartEvent (next_id t) tag];
    data_characters := 0 |}).

(** [TreeBuilder.end] of an element that is not open is not called. *)
Definition target_end : M Target unit :=
  t ← get_state;
  match building t with
  | b :: bs => put_state {| next_id := next_id t; building := bs;
                 queue := queue t ++ [EndEvent (bu_id b) (bu_attrib b) (bu_text b)]; data_characters := 0 |}
  | [] => raise (PyExn AssertionError)
  end.

Definition target_data (data : pystr) : M Target unit :=
  t ← get_state;
  let n := data_characters t + py_len data in
  raise_if (maximum_field_characters limits <? n) malformed;;
  put_state {| next_id := next_id t; queue := queue t; data_characters := n;
    building := match building t with
                | b :: bs => if bu_has_child b then b :: bs
                             else {| bu_id := bu_id b; bu_attrib := bu_attrib b;
                                     bu_text := Some (default [] (bu_text b) ++ data); bu_has_child := false |} :: bs
                | [] => []
                end |}.

Definition target_event (e : sax_event) : M Target unit :=
  match e with
  | SaxStart tag attributes => target_start tag attributes
  | SaxEnd _ => target_end
  | SaxData data => target_data data
  end.
(** [read_events]. *)
Definition read_events : M Target (list tree_event) :=
  t ← get_state;
  put_state {| next_id := next_id t; building := building t; queue := []; data_characters := data_characters t |};;
  mret (queue t).

(** ** The spooled document *)

(** Expat: the calls a text causes, and whether it is a [ParseError] after them. *)
Class Expat := {
  expat : Type;
  new_expat : expat;
  expat_feed : expat -> pystr -> list sax_event * option expat;
  expat_close : expat -> list sax_event * bool
}.
Context `{Codecs} `{Expat}.

(** The objects of [_parse_spooled]. *)
Record Spooled := { sp_decoder : decoder; sp_guard : guard; sp_expat : expat; sp_target : Target; sp_parsing : Parsing }.
Definition on_guard {A} (m : M guard A) : M Spooled A :=
  zoom sp_guard (fun g w => {| sp_decoder := sp_decoder w; sp_guard := g; sp_expat := sp_expat w;
    sp_target := sp_target w; sp_parsing := sp_parsing w |}) m.
Definition on_target {A} (m : M Target A) : M Spooled A :=
  zoom sp_target (fun t w => {| sp_decoder := sp_decoder w; sp_guard := sp_guard w; sp_expat := sp_expat w;
    sp_target := t; sp_parsing := sp_parsing w |}) m.
Definition on_parsing {A} (m : M Parsing A) : M Spooled A :=
  zoom sp_parsing (fun p w => {| sp_decoder := sp_decoder w; sp_guard := sp_guard w; sp_expat := sp_expat w;
    sp_target := sp_target w; sp_parsing := p |}) m.
Definition on_state (f : ParseState -> ParseState) : M Spooled unit :=
  on_parsing (modify (fun '(s, out) => (f s, out))).

(** [decoder.decode(chunk, final=...)]. *)
Definition decode_chunk (chunk : bytes) (final : bool) : M Spooled pystr :=
  w ← get_state;
  match decode (sp_decoder w) chunk final with
  | None => raise malformed
  | Some (text, dec) =>
      put_state {| sp_decoder := dec; sp_guard := sp_guard w; sp_expat := sp_expat w;
        sp_target := sp_target w; sp_parsing := sp_parsing w |};;
      mret text
  end.

(** [parser.feed(text)] and [parser.close()]. *)
Definition parser_feed (text : pystr) : M Spooled unit :=
  w ← get_state;
  let '(calls, next) := expat_feed (sp_expat w) text in
  for_each (fun e => on_target (target_event e)) calls;;
  match next with
  | None => raise malformed
  | Some x => modify (fun w => {| sp_decoder := sp_decoder w; sp_guard := sp_guard w; sp_expat := x;
      sp_target := sp_target w; sp_parsing := sp_parsing w |})
  end.
Definition parser_close : M Spooled unit :=
  w ← get_state;
  let '(calls, ok) := expat_close (sp_expat w) in
  for_each (fun e => on_target (target_event e)) calls;;
  raise_if (negb ok) malformed.

(** [token_guard.feed(text); parser.feed(text)]. *)
Definition feed_text (text : pystr) : M Spooled unit :=
  on_guard (guard_feed (maximum_field_characters limits) (maximum_token_characters limits) text);;
  parser_feed text.

Definition drain_target (record_tag : pystr) (record_codec : codec) (sid : uuid) (d : DocumentType) : M Spooled unit :=
  evs ← on_target read_events;
  on_parsing (drain record_tag record_codec sid d evs).

(** [state.current_feed_start] and [state.decompressed_bytes]. *)
Definition read_bytes (n : Z) (s : ParseState) : ParseState := {| depth := depth s; elements := elements s;
  records := records s; decompressed_bytes := decompressed_bytes s + n; current_feed_start := decompressed_bytes s;
  active := active s; root_seen := root_seen s; containers := containers s; container_depth := container_depth s;
  element_stack := element_stack s; context_previous_by_depth := context_previous_by_depth s;
  document_findings := document_findings s; context := context s |}.

(** One turn of [while chunk := spool.read(...)]. *)
Definition parse_chunk (record_tag : pystr) (record_codec : codec) (sid : uuid) (d : DocumentType) (chunk : bytes) : M Spooled unit :=
  on_state (read_bytes (py_len chunk));;
  decoded ← decode_chunk chunk false;
  when (str_truthy decoded)
    (feed_text decoded;;
     drain_target record_tag record_codec sid d);;
  w ← get_state;
  let s := fst (sp_parsing w) in
  raise_if (match active s with
            | Some ar => maximum_record_bytes limits <? decompressed_bytes s - ar_start ar
            | None => false
            end) malformed.

(** The reads of a spool in pieces of [size] bytes. *)
Fixpoint pieces (fuel : nat) (size : nat) (data : bytes) : list bytes :=
  match fuel, data with
  | O, _ | _, [] => []
  | S fuel, _ => take size data :: pieces fuel size (drop size data)
  end.

Fixpoint parse_chunks (record_tag : pystr) (record_codec : codec) (sid : uuid) (d : DocumentType) (chunks : list bytes) : M Spooled unit :=
  match chunks with
  | [] => mret tt
  | chunk :: chunks =>
      parse_chunk record_tag record_codec sid d chunk;;
      parse_chunks record_tag record_codec sid d chunks
  end.

(** The checks after the last event. *)
Definition check_finished (s : ParseState) : M Spooled unit :=
  raise_if (negb (root_seen s) || negb (depth s =? 0)) malformed;;
  raise_if (bool_decide (active s <> None)) malformed;;
  raise_if (bool_decide (container_depth s <> None)) malformed;;
  raise_if (containers s =? 0) malformed.

(** The last two events: the findings of the document and its metadata. *)
Definition document_metadata {W : Type} (ctx : fields) (sid : uuid) (d : DocumentType) : M W DocumentMetadata :=
  updated ← date_time ctx ∅ (map py ["lastupdatedate"; "updatedate"; "priceupdatedate"]%string)
    (map py ["lastupdatetime"; "updatetime"; "priceupdatetime"]%string);
  let r := {| dm_source_file_id := sid; dm_document_type := d;
    dm_chain_id := value_of ctx ∅ [py "chainid"]; dm_subchain_id := value_of ctx ∅ [py "subchainid"];
    dm_store_id := value_of ctx ∅ [py "storeid"];
    dm_audit_number := value_of ctx ∅ [py "bikoretno"; py "auditnumber"];
    dm_source_updated_at := updated |} in
  DocumentMetadata_post_init r;;
  mret r.
Definition finish_document (sid : uuid) (d : DocumentType) : M Spooled unit :=
  w ← get_state;
  let s := fst (sp_parsing w) in
  check_finished s;;
  when (negb (sf_count (document_findings s) =? 0)%N)
    (on_parsing (yield_events [EvIssue (findings_issue sid None (document_findings s))]));;
  metadata ← stateless (document_metadata (context s) sid d);
  on_parsing (yield_events [EvMetadata metadata]).

(** [_parse_spooled]. *)
Definition parse_spooled (spool : bytes) (record_codec : codec) (sid : uuid) (d : DocumentType) (record_tag : pystr)
    : M Spooled unit :=
  parse_chunks record_tag record_codec sid d
    (pieces (length spool) (Z.to_nat (maximum_chunk_bytes (compression limits))) spool);;
  final_text ← decode_chunk [] true;
  when (str_truthy final_text) (feed_text final_text);;
  on_guard guard_close;;
  parser_close;;
  drain_target record_tag record_codec sid d;;
  finish_document sid d.

Definition new_spooled (c : codec) : Spooled := {| sp_decoder := new_decoder c; sp_guard := new_guard;
  sp_expat := new_expat; sp_target := new_target; sp_parsing := (new_parse_state, []) |}.

(** ** [_parse] *)

(** What the loop over the decompressed chunks keeps. *)
Record Spooling := { security_tail : bytes; html_prefix : bytes; encoding_probe : probe; spooled : bytes; spool_reserved : list Z }.

(** Whether the capacity guard of the spool has so many bytes free, after its reservations. *)
Variable spool_available : list Z -> Z -> bool.

Definition spool_reserve (required_bytes : Z) : M Spooling unit :=
  w ← get_state;
  raise_if (negb (spool_available (spool_reserved w) required_bytes)) (MakoletExn ArchiveCapacityError 0);;
  put_state {| security_tail := security_tail w; html_prefix := html_prefix w; encoding_probe := encoding_probe w;
    spooled := spooled w; spool_reserved := spool_reserved w ++ [required_bytes] |}.

Definition spool_chunk (chunk : bytes) : M Spooling unit :=
  w ← get_state;
  tail ← check_security_markers (security_tail w) chunk;
  let grows := py_len (html_prefix w) <? 1024 in
  let prefix := if grows then html_prefix w ++ take (1024 - length (html_prefix w)) chunk else html_prefix w in
  when grows (reject_html_prefix prefix);;
  let spool_memory := spool_memory_bytes (compression limits) in
  let spooled_bytes := py_len (spooled w) in
  let next_spooled_bytes := spooled_bytes + py_len chunk in
  put_state {| security_tail := tail; html_prefix := prefix; encoding_probe := probe_feed (encoding_probe w) chunk;
    spooled := spooled w; spool_reserved := spool_reserved w |};;
  when (spool_memory <? next_spooled_bytes)
    (spool_reserve (if spooled_bytes <=? spool_memory then next_spooled_bytes else py_len chunk));;
  modify (fun w => {| security_tail := security_tail w; html_prefix := html_prefix w;
    encoding_probe := encoding_probe w; spooled := spooled w ++ chunk; spool_reserved := spool_reserved w |}).

Fixpoint spool_all (chunks : list bytes) : M Spooling unit :=
  match chunks with
  | [] => mret tt
  | chunk :: chunks => spool_chunk chunk;; spool_all chunks
  end.

(** The bytes of the document and their encoding, from the outputs of the decompression and
    the exception it may end with. *)
Definition spool_document (outputs : list bytes) (stop : outcome unit) : M Spooling (bytes * codec) :=
  spool_all outputs;;
  match stop with Raised e => raise e | Returned _ => mret tt end;;
  w ← get_state;
  when (spool_memory_bytes (compression limits) <? py_len (spooled w)) (spool_reserve 0);;
  c ← resolve (encoding_probe w);
  mret (spooled w, c).

Definition new_spooling : Spooling := {| security_tail := []; html_prefix := []; encoding_probe := new_probe;
  spooled := []; spool_reserved := [] |}.

(** [parse]: the events it yields and the exception it ends with. *)
Definition xml_parse `{Decompressor G, Decompressor Zs, ZipLibrary} (fuel : nat) (new_gzip : G) (new_zstandard : Zs)
    (chunks : chunk_source) (sid : uuid) (d : DocumentType) (kind : CompressionFormat)
    : list ParsedEvent * option exn :=
  match (record_tag_of d : M unit pystr) tt with
  | (Raised e, _) => ([], Some e)
  | (Returned record_tag, _) =>
      let '(stop, outputs) := decompress_chunks fuel new_gzip new_zstandard chunks kind (compression limits)
        (xml_minimum_free_bytes limits) {| yielded := []; reserved := [] |} in
      match (spool_document (yielded outputs) stop new_spooling).1 with
      | Raised e => ([], Some e)
      | Returned (spool, record_codec) =>
          let '(r, w) := parse_spooled spool record_codec sid d record_tag (new_spooled record_codec) in
          (snd (sp_parsing w), match r with Raised e => Some e | Returned _ => None end)
      end
  end.
End document.
