(* ===== verification/XmlDocumentFacts.v ===== *)
(** What [_drain] keeps, whatever events it is given: records are numbered, context and
    findings are storable, and the retained elements are within the element limit; what every
    parse yields; and the security scan of the spooled bytes, over chunks of any size. *)
From S2P Require Import Prelude Errors Effects Enums PyNumbers Text Models Ports SourceValues ZipDirectory Streams XmlTokens XmlRecords XmlRecordsFacts XmlDocument.

Lemma Forall_reverse_iff {A} (P : A -> Prop) l : Forall P (reverse l) <-> Forall P l.
Proof. split; [intros Hl; rewrite <- (reverse_involutive l)|]; by apply Forall_reverse. Qed.

Section facts.
Context `{UnicodeOk} `{Calendar}.
Variable limits : XmlParserLimits.
Variable encoded_record_size : Z -> codec -> option Z.
Variable rejection_message : Z -> pystr.
Hypothesis messages_storable : forall n, storable (rejection_message n).
Abbreviation F := (maximum_field_characters limits).

(** ** What is yielded *)

(** The issue that rejects a record. *)
Definition rejection (sid : uuid) (n : Z) : ValidationIssue := {|
  vi_source_file_id := sid; vi_severity := RECORD_REJECTION;
  vi_code := py (error_class_code DomainValidationError);
  vi_message := rejection_message n; vi_record_index := Some n;
  vi_field_name := None; vi_rejected_value := None |}.

(** The [n]-th record: a record of bounded size with its warning, or its rejection. *)
Definition one_record (sid : uuid) (n : Z) (l : list ParsedEvent) : Prop :=
  (exists e, Z.of_nat (tree_size e) <= maximum_elements limits /\ record_yield e sid n l) \/
  l = [EvIssue (rejection sid n)].

(** The records [1 .. n] in order. *)
Inductive numbered (sid : uuid) : Z -> list ParsedEvent -> Prop :=
  | numbered_nil : numbered sid 0 []
  | numbered_app n out l : numbered sid n out -> one_record sid (n + 1) l -> numbered sid (n + 1) (out ++ l).

Lemma rejection_valid sid n : issue_valid (rejection sid n).
Proof.
  unfold issue_valid, rejection. cbn [vi_code vi_message vi_field_name vi_rejected_value].
  split_and!; [storable_literal|done|vm_compute; discriminate|done|done|done].
Qed.

Lemma wp_record_events {W} e ctx sid d n (w : W) : clean_fields F ctx -> Z.of_nat (tree_size e) <= maximum_elements limits ->
  wp (record_events limits rejection_message e ctx sid d n) (fun l _ => one_record sid n l)
    (fun error _ => error = PyExn OtherException) w.
Proof.
  intros Hc Hsize. unfold record_events. wp_step. eapply wp_mono; [by apply wp_parse_record|..]; cbv beta.
  - intros l w' Hl. left. eauto.
  - intros error w' [-> | ->]; simpl; [wp_step; by right|by wp_step].
Qed.

(** ** The invariant of a parse *)

(** The elements the stack retains. *)
Definition retained (stack : list Frame) : nat :=
  list_sum (map (fun f => S (list_sum (map tree_size (fr_children f)))) stack).

#[local] Arguments retained : simpl never.
Lemma retained_cons f stack :
  retained (f :: stack) = (S (list_sum (map tree_size (fr_children f))) + retained stack)%nat.
Proof. done. Qed.

Record parse_inv (sid : uuid) (s : ParseState) (out : list ParsedEvent) : Prop := {
  inv_depth : depth s = py_len (element_stack s);
  inv_depth_max : depth s <= Z.max 0 (maximum_depth limits);
  inv_retained : Z.of_nat (retained (element_stack s)) <= elements s;
  inv_elements : elements s <= Z.max 0 (maximum_elements limits);
  inv_records : 0 <= records s <= Z.max 0 (maximum_records limits);
  inv_context : clean_fields F (context s);
  inv_saved : forall k saved tag v, context_previous_by_depth s !! k = Some saved ->
    saved !! tag = Some (Some v) -> clean F v;
  inv_findings : findings_ok (document_findings s);
  inv_numbered : numbered sid (records s) out
}.

Lemma parse_inv_new sid : parse_inv sid new_parse_state [].
Proof.
  split; simpl; try lia; try done.
  - by split; constructor.
  - constructor.
Qed.

Lemma stack_path_storable stack : Forall storable (stack_path stack).
Proof.
  unfold stack_path. apply Forall_reverse_iff, Forall_map, Forall_forall. intros f _. apply tag_name_storable.
Qed.

Lemma check_container_wp expected tag d stack s0 s :
  wp (check_container expected tag d stack s0) (fun _ s' => s' = s) (fun e _ => e = malformed) s.
Proof. unfold check_container. by repeat wp_step. Qed.

Lemma on_start_inv record_tag expected d id tag sid s out : parse_inv sid s out ->
  wp (on_start limits record_tag expected d id tag) (fun _ s' => parse_inv sid s' out) (fun e _ => e = malformed) s.
Proof.
  intros Hinv. unfold on_start. repeat (wp_step; try done).
  all: try (eapply wp_mono; [apply check_container_wp|..]; cbv beta; [|done]; intros _ s' ->).
  all: repeat (wp_step; try done).
  all: destruct Hinv; split; cbn; try done; try lia.
  all: try (rewrite py_len_cons; lia).
  all: rewrite retained_cons; simpl list_sum; lia.
Qed.

(** ** End events *)

Lemma add_document_finding_ok p text tag f (clean_text : forall s, text = Some s -> clean F s) :
  Forall storable p -> findings_ok f -> findings_ok (add_finding p text tag f).
Proof. intros Hp. apply add_finding_ok; [done|]. intros s Hs. by apply clean_text. Qed.

Lemma inspect_wp {W} expected e p d f (w : W) : Forall storable p -> findings_ok f ->
  wp (inspect_document_element limits expected e p d f)
    (fun r _ => (forall s, r.1 = Some s -> clean F s) /\ findings_ok r.2) (fun error _ => error = validation_error) w.
Proof.
  intros Hp Hf. unfold inspect_document_element, clean_element_text. wp_step.
  eapply wp_mono; [apply wp_clean_source_text|..]; cbv beta; [|done]. intros text w1 Htext.
  assert (Hhash : Forall storable (p ++ [py "#text"])).
  { apply Forall_app. split; [done|]. constructor; [storable_literal|constructor]. }
  assert (Hok : forall accepted f', (forall s, accepted = Some s -> clean F s) -> findings_ok f' ->
    wp (f'' ← attribute_findings F p (el_attrib e) f'; mret (accepted, f''))
      (fun r _ => (forall s, r.1 = Some s -> clean F s) /\ findings_ok r.2) (fun error _ => error = validation_error) w1).
  { intros accepted f' Ha Hf'. wp_step. eapply wp_mono; [by apply wp_attribute_findings|..]; cbv beta; [|done].
    intros f'' w2 Hf''. by wp_step. }
  destruct ((is_context_path p d && negb (is_leaf e)) || _).
  - apply Hok; [done|by apply add_document_finding_ok].
  - destruct (is_document_structure_path expected p d).
    + apply Hok; [done|]. destruct text; [by apply add_document_finding_ok|done].
    + by apply Hok.
Qed.

(** What the branches leave, for an element of bounded size. *)
Definition handled_ok (sid : uuid) (out : list ParsedEvent) (h : Handled) : Prop :=
  clean_fields F (h_context h) /\ findings_ok (h_findings h) /\
  (forall k saved tag v, h_saved h !! k = Some saved -> saved !! tag = Some (Some v) -> clean F v) /\
  0 <= h_records h <= Z.max 0 (maximum_records limits) /\
  numbered sid (h_records h) (out ++ h_events h).

Local Ltac handled := unfold handled_ok; simpl; rewrite ?app_nil_r; split_and!; try done; try lia.

Lemma save_context_clean (depth : Z) (tag : pystr) (ctx : fields) (saved : gmap Z Saved) : clean_fields F ctx ->
  (forall k m t v, saved !! k = Some m -> m !! t = Some (Some v) -> clean F v) ->
  forall k m t v, save_context depth tag ctx saved !! k = Some m -> m !! t = Some (Some v) -> clean F v.
Proof.
  intros Hc Hs k m t v. unfold save_context. case_match; [|apply Hs].
  destruct (decide (k = depth)) as [->|Hk]; [rewrite lookup_insert_eq|rewrite lookup_insert_ne by done; apply Hs].
  assert (Hprev : forall t v, default ∅ (saved !! depth) !! t = Some (Some v) -> clean F v).
  { intros t' v' Ht. destruct (saved !! depth) as [m'|] eqn:E; simpl in Ht; [by apply (Hs _ _ _ _ E Ht)|].
    by rewrite lookup_empty in Ht. }
  intros [= <-]. destruct (default ∅ (saved !! depth) !! tag) eqn:Et; [apply Hprev|].
  destruct (decide (t = tag)) as [->|Ht]; [rewrite lookup_insert_eq|rewrite lookup_insert_ne by done; apply Hprev].
  intros [= Hv]. by apply (Hc _ _ Hv).
Qed.

Lemma restore_context_clean (previous : Saved) (ctx : fields) : clean_fields F ctx ->
  (forall tag v, previous !! tag = Some (Some v) -> clean F v) -> clean_fields F (restore_context previous ctx).
Proof.
  intros Hc. unfold restore_context. induction previous as [|t o previous Hnone IH] using map_ind; intros Hp.
  - by rewrite map_fold_empty.
  - assert (Hrest : forall tag v, previous !! tag = Some (Some v) -> clean F v).
    { intros tag v Htag. apply (Hp tag v). rewrite lookup_insert_ne; [done|]. intros ->. congruence. }
    specialize (IH Hrest).
    rewrite map_fold_insert_L; [|intros t1 t2 v1 v2 ctx' Hne _ _|done].
    + destruct o as [v|]; [|by apply map_Forall_delete]. apply clean_fields_insert; [|done]. apply (Hp t v), lookup_insert_eq.
    + destruct v1, v2; [by apply insert_insert_ne|by rewrite delete_insert_ne|by rewrite delete_insert_ne|apply delete_delete].
Qed.

Lemma end_element_inv {W} record_tag expected c sid d e s out (w : W) : parse_inv sid s out ->
  Z.of_nat (tree_size e) <= maximum_elements limits ->
  wp (end_element limits encoded_record_size rejection_message record_tag expected c sid d e s)
    (fun h _ => handled_ok sid out h) (fun error _ => value_error error \/ error = malformed) w.
Proof.
  intros [] Hsize. unfold end_element. destruct (active s) as [ar|].
  - destruct ((ar_depth ar =? depth s) && _); [|by wp_step; handled].
    wp_step. wp_step; [by right|]. wp_step.
    eapply (wp_mono _ (fun _ _ => True) _ (fun error _ => error = malformed)); [|cbv beta; intros _ w1 _|by right].
    { by repeat (wp_step; try done). }
    wp_step. eapply wp_mono; [by apply wp_record_events|..]; cbv beta; [|intros ? ? ->; left; by right].
    intros events w2 Hev. wp_step. handled. by constructor.
  - wp_step. eapply wp_mono; [apply inspect_wp; [apply stack_path_storable|done]|..]; cbv beta; [|intros ? ? ->; left; by left].
    intros [text f] w1 [Ht Hf]. cbn [fst snd] in *. destruct text as [t|]; [|by wp_step; handled].
    destruct (is_context_path _ d); wp_step; handled.
    + apply clean_fields_insert; [by apply Ht|done].
    + by apply save_context_clean.
Qed.

Lemma leave_element_inv sid expected e h frame rest s out : parse_inv sid s out -> element_stack s = frame :: rest ->
  tree_size e = S (list_sum (map tree_size (fr_children frame))) -> handled_ok sid out h ->
  parse_inv sid (leave_element expected e h rest s) (out ++ h_events h).
Proof.
  intros [] Hstack Hsize (Hc & Hf & Hs & Hr & Hn). rewrite Hstack in *. rewrite retained_cons in inv_retained0.
  rewrite py_len_cons in inv_depth0.
  assert (Hrest : element_stack (leave_element expected e h rest s) = rest \/
    exists p rest', rest = p :: rest' /\ element_stack (leave_element expected e h rest s) =
      {| fr_id := fr_id p; fr_tag := fr_tag p; fr_children := fr_children p ++ [e] |} :: rest').
  { unfold leave_element. cbn [element_stack]. destruct (h_active h), rest as [|p rest']; eauto. }
  split; try done.
  - cbn [depth leave_element]. destruct Hrest as [-> |(p & rest' & -> & ->)]; rewrite ?py_len_cons in *; lia.
  - simpl. lia.
  - cbn [elements leave_element]. destruct Hrest as [-> |(p & rest' & -> & ->)]; [lia|].
    rewrite retained_cons in *. cbn [fr_children]. rewrite map_app, list_sum_app. simpl list_sum. lia.
  - cbn [context leave_element]. apply restore_context_clean; [done|]. intros tag v Hv.
    destruct (h_saved h !! depth s) as [m|] eqn:E; simpl in Hv; [by apply (Hs _ _ _ _ E Hv)|by rewrite lookup_empty in Hv].
  - cbn [context_previous_by_depth leave_element]. intros k m t v Hk. apply lookup_delete_Some in Hk as [_ Hk]. by apply (Hs k m).
Qed.

(** ** [_drain] *)

(** What has been yielded when an exception ends a parse. *)
Definition yielded_ok (sid : uuid) (out : list ParsedEvent) : Prop :=
  exists n, 0 <= n <= Z.max 0 (maximum_records limits) /\ numbered sid n out.

Lemma parse_inv_yielded sid s out : parse_inv sid s out -> yielded_ok sid out.
Proof. intros []. by exists (records s). Qed.

Lemma on_end_inv record_tag expected c sid d id attrib text s out : parse_inv sid s out ->
  wp (on_end limits encoded_record_size rejection_message record_tag expected c sid d id attrib text)
    (fun l s' => parse_inv sid s' (out ++ l)) (fun _ _ => True) s.
Proof.
  intros Hinv. unfold on_end. do 3 wp_step; [by wp_step|]. do 2 wp_step; [done|]. wp_step. apply wp_zoom.
  rename f into frame, l into rest. set (e := Element _ _ _ _).
  assert (Hsize : tree_size e = S (list_sum (map tree_size (fr_children frame)))) by done.
  eapply wp_mono; [apply end_element_inv; [done|]|..]; cbv beta; [|intros h w Hh; by repeat wp_step; eapply leave_element_inv|done].
  destruct Hinv. rewrite Heql, retained_cons in inv_retained0. lia.
Qed.

Lemma on_event_inv record_tag expected c sid d ev s out : parse_inv sid s out ->
  wp (on_event limits encoded_record_size rejection_message record_tag expected c sid d ev)
    (fun l s' => parse_inv sid s' (out ++ l)) (fun _ _ => True) s.
Proof.
  intros Hinv. destruct ev as [id tag|id attrib text]; simpl; [|by apply on_end_inv].
  wp_step. eapply wp_mono; [by apply on_start_inv|..]; cbv beta; [|done]. intros _ s' Hs'. wp_step. by rewrite app_nil_r.
Qed.

Lemma drain_inv record_tag c sid d evs w : parse_inv sid w.1 w.2 ->
  wp (drain limits encoded_record_size rejection_message record_tag c sid d evs)
    (fun _ w' => parse_inv sid w'.1 w'.2) (fun _ w' => yielded_ok sid w'.2) w.
Proof.
  intros Hinv. unfold drain. wp_step.
  eapply (wp_mono _ (fun _ w' => w' = w) _ (fun _ w' => w' = w)).
  { unfold record_container. by repeat wp_step. }
  2:{ intros e w' ->. by eapply parse_inv_yielded. }
  intros expected w' ->. revert w Hinv. induction evs as [|ev evs IH]; intros [s out] Hinv; simpl in *; [by wp_step|].
  wp_step. apply wp_zoom. eapply wp_mono; [by apply on_event_inv|..]; cbv beta; simpl.
  - intros l s' Hs'. wp_step. apply wp_modify. by apply (IH (s', out ++ l)).
  - intros _ s' _. by eapply parse_inv_yielded.
Qed.

(** ** [_parse_spooled] *)

Context `{Codecs} `{Expat}.
Implicit Types w : Spooled.

Definition spooled_inv (sid : uuid) (w : Spooled) : Prop := parse_inv sid (sp_parsing w).1 (sp_parsing w).2.
Definition spooled_yield (sid : uuid) (w : Spooled) : Prop := yielded_ok sid (sp_parsing w).2.

(** What every step of the parse does to the invariant. *)
Definition keeps {A} (sid : uuid) (m : M Spooled A) : Prop :=
  forall w, spooled_inv sid w -> wp m (fun _ w' => spooled_inv sid w') (fun _ w' => spooled_yield sid w') w.

Lemma keeps_bind {A B} sid (m : M Spooled A) (f : A -> M Spooled B) : keeps sid m -> (forall a, keeps sid (f a)) -> keeps sid (m ≫= f).
Proof. intros Hm Hf w Hw. wp_step. eapply wp_mono; [by apply Hm|..]; cbv beta; [|done]. intros a w' Hw'. by apply Hf. Qed.
Lemma keeps_quiet {A} sid (m : M Spooled A) :
  (forall w, wp m (fun _ w' => sp_parsing w' = sp_parsing w) (fun _ w' => sp_parsing w' = sp_parsing w) w) -> keeps sid m.
Proof.
  intros Hm w Hw. eapply wp_mono; [apply Hm|..]; cbv beta; unfold spooled_inv, spooled_yield.
  - by intros a w' ->.
  - intros e w' ->. by eapply parse_inv_yielded.
Qed.
Lemma keeps_raise_if sid b e : keeps sid (raise_if b e).
Proof. apply keeps_quiet. intros w. by repeat wp_step. Qed.
Lemma keeps_when sid (b : bool) m : keeps sid m -> keeps sid (when b m).
Proof. intros Hm w Hw. wp_step; [by apply Hm|done]. Qed.
Lemma keeps_get {A} sid (f : Spooled -> M Spooled A) : (forall w, keeps sid (f w)) -> keeps sid (get_state ≫= f).
Proof. intros Hf w Hw. do 2 wp_step. by apply Hf. Qed.
Lemma keeps_for_each {A} sid (f : A -> M Spooled unit) l : (forall a, keeps sid (f a)) -> keeps sid (for_each f l).
Proof. intros Hf. induction l as [|a l IH]; simpl; [by intros w Hw; wp_step|by apply keeps_bind]. Qed.
Lemma keeps_on_guard {A} sid (m : M guard A) : keeps sid (on_guard m).
Proof. apply keeps_quiet. intros w. apply wp_zoom. eapply wp_mono; [apply wp_true|..]; done. Qed.
Lemma keeps_on_target {A} sid (m : M Target A) : keeps sid (on_target m).
Proof. apply keeps_quiet. intros w. apply wp_zoom. eapply wp_mono; [apply wp_true|..]; done. Qed.

Lemma keeps_decode sid chunk final : keeps sid (decode_chunk chunk final).
Proof. apply keeps_quiet. intros w. unfold decode_chunk. by repeat wp_step. Qed.
Lemma keeps_parser_feed sid text : keeps sid (parser_feed limits text).
Proof.
  apply keeps_get. intros w0. destruct (expat_feed _ _) as [calls next].
  apply keeps_bind; [apply keeps_for_each; intros; apply keeps_on_target|]. intros _.
  apply keeps_quiet. intros w. by repeat wp_step.
Qed.
Lemma keeps_parser_close sid : keeps sid (parser_close limits).
Proof.
  apply keeps_get. intros w0. destruct (expat_close _) as [calls ok].
  apply keeps_bind; [apply keeps_for_each; intros; apply keeps_on_target|]. intros _. apply keeps_raise_if.
Qed.
Lemma keeps_feed_text sid text : keeps sid (feed_text limits text).
Proof. apply keeps_bind; [apply keeps_on_guard|]. intros _. apply keeps_parser_feed. Qed.
Lemma keeps_drain_target sid record_tag c d :
  keeps sid (drain_target limits encoded_record_size rejection_message record_tag c sid d).
Proof.
  apply keeps_bind; [apply keeps_on_target|]. intros evs w Hw. unfold on_parsing. apply wp_zoom.
  eapply wp_mono; [by apply drain_inv|..]; done.
Qed.
Lemma keeps_parse_chunk sid record_tag c d chunk :
  keeps sid (parse_chunk limits encoded_record_size rejection_message record_tag c sid d chunk).
Proof.
  unfold parse_chunk. apply keeps_bind.
  { intros w Hw. unfold on_state, on_parsing. apply wp_zoom, wp_modify. destruct (sp_parsing w) as [s out] eqn:E.
    unfold spooled_inv in *. rewrite E in Hw. simpl in *. by destruct Hw. }
  intros _. apply keeps_bind; [apply keeps_decode|]. intros decoded. apply keeps_bind.
  { apply keeps_when, keeps_bind; [apply keeps_feed_text|]. intros _. apply keeps_drain_target. }
  intros _. apply keeps_get. intros w0. apply keeps_raise_if.
Qed.
Lemma keeps_parse_chunks sid record_tag c d chunks :
  keeps sid (parse_chunks limits encoded_record_size rejection_message record_tag c sid d chunks).
Proof.
  induction chunks as [|chunk chunks IH]; simpl; [by intros w Hw; wp_step|].
  apply keeps_bind; [apply keeps_parse_chunk|]. by intros _.
Qed.

(** ** What a document yields *)

Definition metadata_valid (sid : uuid) (d : DocumentType) (m : DocumentMetadata) : Prop :=
  dm_source_file_id m = sid /\ dm_document_type m = d /\
  opt_all (bounded 128) (dm_chain_id m) /\ opt_all (bounded 128) (dm_subchain_id m) /\
  opt_all (bounded 128) (dm_store_id m) /\ opt_all (bounded 128) (dm_audit_number m) /\
  aware_opt (dm_source_updated_at m).

(** The records, at most one warning of the document, and its metadata, the last event, at the
    end of a parse that succeeds. *)
Definition document_yield (sid : uuid) (d : DocumentType) (complete : bool) (out : list ParsedEvent) : Prop :=
  exists n records warning metadata, out = records ++ warning ++ metadata /\
    0 <= n <= Z.max 0 (maximum_records limits) /\ numbered sid n records /\
    (warning = [] \/ exists i, warning = [EvIssue i] /\ issue_valid i /\ vi_source_file_id i = sid /\
                               vi_record_index i = None /\ vi_severity i = WARNING) /\
    (if complete then exists m, metadata = [EvMetadata m] /\ metadata_valid sid d m else metadata = []).

Lemma document_yield_stopped sid d out : yielded_ok sid out -> document_yield sid d false out.
Proof. intros (n & Hn & Hout). exists n, out, [], []. rewrite !app_nil_r. split_and!; auto; lia. Qed.

Lemma wp_document_metadata {W} ctx sid d (w : W) : clean_fields F ctx ->
  wp (document_metadata ctx sid d) (fun m _ => metadata_valid sid d m) (fun _ _ => True) w.
Proof.
  intros Hc. unfold document_metadata.
  wp_step. eapply wp_mono; [apply wp_date_time|..]; cbv beta; [|done]. intros updated w1 Hu. wp_step.
  unfold DocumentMetadata_post_init. cbn [dm_chain_id dm_subchain_id dm_store_id dm_audit_number dm_source_updated_at].
  assert (Hb : forall l, opt_all (fun s => py_len s <= 128) (value_of ctx ∅ l) -> opt_all (bounded 128) (value_of ctx ∅ l)).
  { intros l. destruct (value_of ctx ∅ l) as [v|] eqn:E; simpl; [|done]. intros Hl. split; [|done].
    by apply (value_of_clean F ctx ∅ l v Hc (clean_fields_empty F) E). }
  do 4 (wp_step; eapply wp_mono; [apply wp_ensure_text_length|..]; cbv beta; [|done]; intros _ ? ?).
  eapply wp_mono; [apply wp_ensure_aware_opt|..]; cbv beta; [|done]. intros _ ? ?. wp_step.
  unfold metadata_valid. cbn [dm_source_file_id dm_document_type dm_chain_id dm_subchain_id dm_store_id dm_audit_number dm_source_updated_at]. split_and!; first [done|by apply Hb].
Qed.

Lemma wp_finish_document sid d w : spooled_inv sid w ->
  wp (finish_document sid d) (fun _ w' => document_yield sid d true (sp_parsing w').2)
    (fun _ w' => document_yield sid d false (sp_parsing w').2) w.
Proof.
  intros Hw. unfold finish_document. do 2 wp_step. wp_step.
  eapply (wp_mono _ (fun _ w' => w' = w) _ (fun _ w' => w' = w)).
  { unfold check_finished. by repeat wp_step. }
  2:{ intros e w' ->. eapply document_yield_stopped, parse_inv_yielded, Hw. }
  intros _ w' ->. destruct (sp_parsing w) as [s out] eqn:E. unfold spooled_inv in Hw. rewrite E in Hw. cbn [fst snd] in *.
  destruct Hw. set (f := document_findings s) in *.
  assert (Hvalid : issue_valid (findings_issue sid None f)) by (by apply findings_issue_valid).
  wp_step. eapply (wp_mono _ (fun _ w' => exists warning, (sp_parsing w').2 = out ++ warning /\
      (warning = [] \/ warning = [EvIssue (findings_issue sid None f)])) _ (fun _ _ => False)); [|cbv beta|done].
  { wp_step; [|rewrite E; exists []; rewrite app_nil_r; auto].
    unfold on_parsing. apply wp_zoom, wp_modify. rewrite E. simpl. eauto. }
  intros _ w1 (warning & E1 & Hwarning).
  assert (Hdoc : forall metadata (complete : bool),
    (if complete then exists m, metadata = [EvMetadata m] /\ metadata_valid sid d m else metadata = []) ->
    document_yield sid d complete (out ++ warning ++ metadata)).
  { intros metadata complete Hm. exists (records s), out, warning, metadata. split_and!; try done; try lia.
    destruct Hwarning as [-> | ->]; [by left|right]. eauto 10. }
  wp_step. unfold stateless. apply wp_zoom. eapply wp_mono; [by apply wp_document_metadata|..]; cbv beta.
  - intros m _ Hm. unfold on_parsing. apply wp_zoom, wp_modify. destruct (sp_parsing w1) as [s1 out1]. simpl in *.
    rewrite E1, <- app_assoc. apply (Hdoc [EvMetadata m] true). eauto.
  - intros e _ _. rewrite E1. rewrite <- (app_nil_r warning). by apply (Hdoc [] false).
Qed.

Lemma wp_parse_spooled spool c sid d record_tag w : spooled_inv sid w ->
  wp (parse_spooled limits encoded_record_size rejection_message spool c sid d record_tag)
    (fun _ w' => document_yield sid d true (sp_parsing w').2)
    (fun _ w' => document_yield sid d false (sp_parsing w').2) w.
Proof.
  intros Hw. unfold parse_spooled.
  assert (Hstep : forall A (m : M Spooled A) (f : A -> M Spooled unit) w0, keeps sid m -> spooled_inv sid w0 ->
    (forall a w1, spooled_inv sid w1 -> wp (f a) (fun _ w' => document_yield sid d true (sp_parsing w').2)
      (fun _ w' => document_yield sid d false (sp_parsing w').2) w1) ->
    wp (m ≫= f) (fun _ w' => document_yield sid d true (sp_parsing w').2)
      (fun _ w' => document_yield sid d false (sp_parsing w').2) w0).
  { intros A m f w0 Hm Hw0 Hf. wp_step. eapply wp_mono; [by apply Hm|..]; cbv beta; [by auto|].
    intros e w1. apply document_yield_stopped. }
  apply Hstep; [apply keeps_parse_chunks|done|intros _ w1 Hw1].
  apply Hstep; [apply keeps_decode|done|intros final_text w2 Hw2].
  apply Hstep; [apply keeps_when, keeps_feed_text|done|intros _ w3 Hw3].
  apply Hstep; [apply keeps_on_guard|done|intros _ w4 Hw4].
  apply Hstep; [apply keeps_parser_close|done|intros _ w5 Hw5].
  apply Hstep; [apply keeps_drain_target|done|intros _ w6 Hw6].
  by apply wp_finish_document.
Qed.

(** What [parse] yields, whether it ends with an exception or not. *)
Lemma xml_parse_yields `{Decompressor G, Decompressor Zs, ZipLibrary} spool_available fuel (new_gzip : G) (new_zstandard : Zs)
    chunks sid d kind events error :
  xml_parse limits encoded_record_size rejection_message spool_available fuel new_gzip new_zstandard chunks sid d kind
    = (events, error) ->
  document_yield sid d (bool_decide (error = None)) events.
Proof.
  assert (Hnothing : forall e : exn, document_yield sid d (bool_decide (Some e = None)) []).
  { intros e. rewrite bool_decide_eq_false_2 by done. apply document_yield_stopped. exists 0.
    split; [lia|constructor]. }
  unfold xml_parse. destruct (record_tag_of d tt) as [[record_tag|e] ?]; [|intros [= <- <-]; apply Hnothing].
  destruct (decompress_chunks _ _ _ _ _ _ _ _) as [stop outputs].
  destruct (spool_document limits _ _ _ _).1 as [[spool c]|e]; [|intros [= <- <-]; apply Hnothing].
  pose proof (wp_parse_spooled spool c sid d record_tag (new_spooled c) (parse_inv_new sid)) as Hwp.
  unfold wp in Hwp. destruct (parse_spooled _ _ _ _ _ _ _ _ _) as [[[]|e] w]; intros [= <- <-]; done.
Qed.
End facts.

(** ** The window of the security scan *)

Lemma has_marker_inside a w b : has_marker w = true -> has_marker (a ++ w ++ b) = true.
Proof.
  unfold has_marker, py_any. rewrite !existsb_exists. intros (marker & Hm & Hc). exists marker. split; [done|].
  apply contains_spec in Hc as (p & q & Hpq). apply contains_spec.
  exists (ascii_upper (without_nulls a) ++ p), (q ++ ascii_upper (without_nulls b)).
  unfold ascii_upper, without_nulls in *. rewrite !List.filter_app, !map_app, Hpq. by rewrite <- !app_assoc.
Qed.

Lemma last_32_suffix s : exists a, s = a ++ last_32 s.
Proof. exists (take (length s - 32) s). unfold last_32. by rewrite take_drop. Qed.

Lemma last_32_long p q : (32 <= length q)%nat -> last_32 (p ++ q) = last_32 q.
Proof.
  intros Hq. unfold last_32. rewrite length_app, drop_app_ge by lia. f_equal. lia.
Qed.

(** The tail of a tail is the tail of the whole. *)
Lemma last_32_app a b : last_32 (last_32 a ++ b) = last_32 (a ++ b).
Proof.
  destruct (Nat.le_ge_cases (length a) 32) as [Hl|Hl].
  - unfold last_32 at 2. by replace (length a - 32)%nat with 0%nat by lia.
  - destruct (last_32_suffix a) as [p Hp]. rewrite Hp at 2. rewrite <- app_assoc, (last_32_long p); [done|].
    unfold last_32. rewrite length_app, length_drop. lia.
Qed.

(** What the scan has seen: its tail, and that no window of 33 bytes has a marker. *)
Definition scanned (data tail : bytes) : Prop :=
  tail = last_32 data /\ forall a w b, data = a ++ w ++ b -> (length w <= 33)%nat -> has_marker w = false.

Lemma scanned_nil : scanned [] [].
Proof. split; [done|]. intros a w b Hd _. destruct a, w; done. Qed.

Lemma scanned_chunk {W} data tail chunk (w : W) : scanned data tail ->
  wp (check_security_markers tail chunk) (fun tail' _ => scanned (data ++ chunk) tail') (fun e _ => e = malformed) w.
Proof.
  intros [-> Hno]. unfold check_security_markers. wp_step. wp_step; [done|]. wp_step.
  match goal with Hx : has_marker _ = false |- _ => rename Hx into Hmark end.
  split; [apply last_32_app|]. intros a window b Hd Hlen.
  destruct (Nat.le_gt_cases (length (a ++ window)) (length data)) as [Hin|Hout].
  - assert (Hpre : exists b', data = a ++ window ++ b').
    { assert (Ht : take (length (a ++ window)) data = a ++ window).
      { rewrite <- (take_app_le data chunk) by done. by rewrite Hd, app_assoc, take_app_length. }
      exists (drop (length (a ++ window)) data). by rewrite app_assoc, <- Ht, length_take, Nat.min_l, take_drop by done. }
    destruct Hpre as [b' Hpre]. by apply (Hno a window b').
  - destruct (has_marker window) eqn:E; [|done]. exfalso.
    assert (Hsuf : exists c, last_32 data ++ chunk = c ++ window ++ b).
    { destruct (last_32_suffix data) as [p Hp]. rewrite Hp, <- app_assoc in Hd.
      assert (Hle : (length p <= length a)%nat).
      { rewrite length_app in Hout. apply (f_equal length) in Hp. rewrite length_app in Hp.
        unfold last_32 in Hp. rewrite length_drop in Hp. lia. }
      exists (drop (length p) a). apply (f_equal (drop (length p))) in Hd.
      rewrite drop_app_length in Hd. rewrite Hd. by rewrite drop_app_le. }
    destruct Hsuf as [c Hc]. rewrite Hc in Hmark. by rewrite has_marker_inside in Hmark.
Qed.

(** ** The loop over the chunks *)

Section spool.
Context `{Codecs}.
Variable limits : XmlParserLimits.
Variable spool_available : list Z -> Z -> bool.

Definition spool_inv (data : bytes) (w : Spooling) : Prop :=
  spooled w = data /\ scanned data (security_tail w).

Lemma spool_chunk_inv data chunk w : spool_inv data w ->
  wp (spool_chunk limits spool_available chunk) (fun _ w' => spool_inv (data ++ chunk) w') (fun _ _ => True) w.
Proof.
  intros [Hdata Hscan]. unfold spool_chunk. do 3 wp_step.
  eapply wp_mono; [by apply scanned_chunk|..]; cbv beta; [|done]. intros tail w1 Htail.
  wp_step. eapply wp_mono; [apply wp_true|..]; cbv beta; [|done]. intros [] w2 _. do 3 wp_step.
  eapply (wp_mono _ (fun _ w' => spooled w' = spooled w /\ security_tail w' = tail) _ (fun _ _ => True)); [|cbv beta|done].
  { wp_step; [|done]. unfold spool_reserve. by repeat wp_step. }
  intros [] w3 [Hs Ht]. wp_step. split; cbn [spooled security_tail]; [by rewrite Hs, Hdata|by rewrite Ht].
Qed.

Lemma spool_all_inv data chunks w : spool_inv data w ->
  wp (spool_all limits spool_available chunks) (fun _ w' => spool_inv (data ++ concat chunks) w') (fun _ _ => True) w.
Proof.
  revert data w. induction chunks as [|chunk chunks IH]; intros data w Hw; cbn [spool_all concat].
  - wp_step. by rewrite app_nil_r.
  - wp_step. eapply wp_mono; [by apply spool_chunk_inv|..]; cbv beta; [|done]. intros [] w1 Hw1.
    rewrite app_assoc. by apply IH.
Qed.

Lemma spool_document_inv outputs stop :
  wp (spool_document limits spool_available outputs stop) (fun r _ =>
      r.1 = concat outputs /\ stop = Returned tt /\
      forall a window b, concat outputs = a ++ window ++ b -> (length window <= 33)%nat -> has_marker window = false)
    (fun _ _ => True) new_spooling.
Proof.
  unfold spool_document. wp_step.
  eapply wp_mono; [apply (spool_all_inv []); split; [done|apply scanned_nil]|..]; cbv beta; [|done].
  intros [] w1 [Hdata Hscan]. cbn [app] in *. wp_step. destruct stop as [[]|e]; [|by wp_step]. wp_step. do 2 wp_step. wp_step.
  eapply (wp_mono _ (fun _ _ => True) _ (fun _ _ => True)); [apply wp_true| |done]. intros [] w2 _. wp_step.
  eapply (wp_mono _ (fun _ _ => True) _ (fun _ _ => True)); [apply wp_true| |done]. intros c w3 _. wp_step.
  cbn [fst]. split_and!; [done|done|]. by destruct Hscan.
Qed.
End spool.
