(* ===== verification/XmlScopes.v ===== *)
(** The context of a record is lexical.  [_drain] keeps one dictionary and undoes its changes as
    elements end; the reference here walks the tree and passes the context down. *)
From S2P Require Import Prelude Errors Effects Enums PyNumbers Text Models Ports SourceValues ZipDirectory Streams XmlTokens XmlRecords XmlDocument.

Lemma element_children_ind (P : element -> Prop) :
  (forall tag attrib text children, Forall P children -> P (Element tag attrib text children)) -> forall e, P e.
Proof. intros Hstep. fix IH 1. intros [tag attrib text children]. apply Hstep. induction children; constructor; [apply IH|done]. Qed.

(** The events of a tree, with its elements numbered in document order from [k]. *)
Definition siblings (f : Z -> element -> list tree_event) : Z -> list element -> list tree_event :=
  fix go (k : Z) (l : list element) : list tree_event :=
    match l with
    | [] => []
    | e :: l => f k e ++ go (k + Z.of_nat (tree_size e)) l
    end.
Fixpoint traversal (k : Z) (e : element) : list tree_event :=
  let 'Element tag attrib text children := e in
  StartEvent k tag :: siblings traversal (k + 1) children ++ [EndEvent k attrib text].

Section scopes.
Context `{Unicode} `{Calendar}.
Variable limits : XmlParserLimits.
Variable encoded_record_size : Z -> codec -> option Z.
Variable rejection_message : Z -> pystr.
Variables (record_tag expected : pystr) (record_codec : codec) (sid : uuid) (d : DocumentType).

(** ** The reference *)

(** The context after the elements of a list, the number of records and their events. *)
Definition scoped_all (f : element -> fields -> Z -> M unit (fields * Z * list ParsedEvent))
    : list element -> fields -> Z -> M unit (fields * Z * list ParsedEvent) :=
  fix go (l : list element) (ctx : fields) (n : Z) : M unit (fields * Z * list ParsedEvent) :=
    match l with
    | [] => mret (ctx, n, [])
    | e :: l =>
        '(ctx, n, out) ← f e ctx n;
        '(ctx, n, out') ← go l ctx n;
        mret (ctx, n, out ++ out')
    end.

(** An element below [p]: a record is read in the context of its scope; any other element
    hands its own context to its children and forgets it, except for the root, whose context is
    the document's; a context element defines its name in the scope of its parent. *)
Fixpoint scoped (p : path) (e : element) (ctx : fields) (n : Z) : M unit (fields * Z * list ParsedEvent) :=
  let 'Element tag attrib text children := e in
  let name := tag_name tag in
  let p := p ++ [name] in
  if bool_decide (name = record_tag) then
    events ← record_events limits rejection_message e ctx sid d (n + 1);
    mret (ctx, n + 1, events)
  else
    '(inner, n, out) ← scoped_all (scoped p) children ctx n;
    value ← clean_element_text (maximum_field_characters limits) (Element tag attrib text []);
    let outer := if bool_decide (length p = 1%nat) then inner else ctx in
    mret (match value with
          | Some t => if is_context_path p d then <[ name := t ]> outer else outer
          | None => outer
          end, n, out).

(** ** Saved values *)

Lemma lookup_restore (previous : Saved) (ctx : fields) (name : pystr) :
  restore_context previous ctx !! name = match previous !! name with Some v => v | None => ctx !! name end.
Proof.
  unfold restore_context. induction previous as [|t o previous Hnone IH] using map_ind.
  - by rewrite map_fold_empty, lookup_empty.
  - rewrite map_fold_insert_L; [|intros t1 t2 v1 v2 ctx' Hne _ _|done].
    + destruct (decide (t = name)) as [->|Hne].
      * rewrite lookup_insert_eq. destruct o; [apply lookup_insert_eq|apply lookup_delete_eq].
      * rewrite (lookup_insert_ne previous) by done. rewrite <- IH.
        destruct o; [by rewrite lookup_insert_ne|by rewrite lookup_delete_ne].
    + destruct v1, v2; [by apply insert_insert_ne|by rewrite delete_insert_ne|by rewrite delete_insert_ne|apply delete_delete].
Qed.

Lemma restore_empty ctx : restore_context ∅ ctx = ctx.
Proof. apply map_eq. intros name. by rewrite lookup_restore, lookup_empty. Qed.

(** Setting a name after saving it is undone by restoring. *)
Lemma restore_saved (depth : Z) (tag t : pystr) (ctx : fields) (saved : gmap Z Saved) : 1 < depth ->
  restore_context (default ∅ (save_context depth tag ctx saved !! depth)) (<[ tag := t ]> ctx)
    = restore_context (default ∅ (saved !! depth)) ctx.
Proof.
  intros Hd. unfold save_context. apply Z.ltb_lt in Hd as ->. rewrite lookup_insert_eq. simpl.
  apply map_eq. intros name. rewrite !lookup_restore.
  destruct (default ∅ (saved !! depth) !! tag) eqn:Etag, (decide (name = tag)) as [->|Hne].
  - by rewrite Etag.
  - case_match; [done|]. by rewrite lookup_insert_ne.
  - by rewrite lookup_insert_eq, Etag.
  - rewrite !lookup_insert_ne by done. case_match; [done|]. done.
Qed.

Lemma saved_elsewhere (depth k : Z) (tag : pystr) (ctx : fields) (saved : gmap Z Saved) : k <> depth ->
  save_context depth tag ctx saved !! k = saved !! k.
Proof. intros Hk. unfold save_context. case_match; [by rewrite lookup_insert_ne|done]. Qed.
Lemma saved_outside (depth : Z) (tag : pystr) (ctx : fields) (saved : gmap Z Saved) : depth <= 1 ->
  save_context depth tag ctx saved = saved.
Proof. intros Hd. unfold save_context. by destruct (Z.ltb_spec 1 depth); [lia|]. Qed.
Lemma saved_names (depth : Z) (tag name : pystr) (ctx : fields) (saved : gmap Z Saved) :
  is_Some (default ∅ (save_context depth tag ctx saved !! depth) !! name) ->
  is_Some (default ∅ (saved !! depth) !! name) \/ name = tag.
Proof.
  unfold save_context. case_match; [|by left]. rewrite lookup_insert_eq. simpl.
  destruct (default ∅ (saved !! depth) !! tag) eqn:E; [by left|].
  destruct (decide (name = tag)) as [->|Hne]; [by right|]. rewrite lookup_insert_ne by done. by left.
Qed.

(** ** Runs over a traversal *)

Abbreviation Parsing := (ParseState * list ParsedEvent)%type (only parsing).
Abbreviation drains := (drain_events limits encoded_record_size rejection_message record_tag expected record_codec sid d).

Lemma wp_drain_app a b Q (E : exn -> Parsing -> Prop) (w : Parsing) :
  wp (drains a) (fun _ w' => wp (drains b) Q E w') E w -> wp (drains (a ++ b)) Q E w.
Proof.
  revert w. induction a as [|ev a IH]; intros w Hw; [done|].
  cbn [app]. unfold wp in *. simpl in *. unfold mbind, M_bind in *.
  destruct (zoom _ _ _ w) as [[l|e] w1]; [|done]. simpl in *. by apply IH.
Qed.

(** What an element leaves unchanged. *)
Record same_place (s s' : ParseState) : Prop := {
  same_depth : depth s' = depth s;
  same_saved : forall k, k <> depth s -> context_previous_by_depth s' !! k = context_previous_by_depth s !! k
}.

(** Between two elements: the depth is that of the stack and nothing is saved below it. *)
Record at_rest (s : ParseState) : Prop := {
  rest_depth : depth s = py_len (element_stack s);
  rest_saved : forall k, depth s < k -> context_previous_by_depth s !! k = None
}.

(** One start event. *)
Lemma wp_on_start id tag s : at_rest s ->
  wp (on_start limits record_tag expected d id tag) (fun _ s' =>
      at_rest s' /\ depth s' = depth s + 1 /\ records s' = records s /\ context s' = context s /\
      context_previous_by_depth s' = context_previous_by_depth s /\
      element_stack s' = {| fr_id := id; fr_tag := tag; fr_children := [] |} :: element_stack s /\
      match active s with
      | Some ar => active s' = Some ar
      | None => if bool_decide (tag_name tag = record_tag) then exists ar, active s' = Some ar /\ ar_depth ar = depth s'
                else active s' = None
      end) (fun _ _ => True) s.
Proof.
  intros [Hdepth Hsaved]. unfold on_start. do 4 wp_step; [done|]. do 2 wp_step; [done|]. do 2 wp_step; [done|].
  wp_step. eapply (wp_mono _ (fun _ s' => s' = s) _ (fun _ _ => True)); [|cbv beta; intros _ s' ->|done].
  { wp_step; [|done]. unfold check_container. by repeat wp_step. }
  wp_step. eapply (wp_mono _ (fun _ s' => s' = s /\
      (bool_decide (tag_name tag = record_tag) = true -> active s = None)) _ (fun _ _ => True)); [|cbv beta; intros _ s' [-> Hact]|done].
  { wp_step; [|split; [done|congruence]]. wp_step. wp_step; [done|]. wp_step; [done|]. split; [done|]. intros _.
    match goal with Ha : bool_decide _ = false |- _ => apply bool_decide_eq_false in Ha end. by apply dec_stable. }
  wp_step. cbn. split_and!; try done.
  - split; cbn; [rewrite py_len_cons; lia|]. intros k Hk. apply Hsaved. lia.
  - destruct (active s) as [ar|]; case_bool_decide; try done; [by specialize (Hact eq_refl)|]. by eexists.
Qed.

(** ** Inside a record *)

(** The elements [l] have joined the innermost element of [s], and nothing else has changed. *)
Definition joined (s : ParseState) (out : list ParsedEvent) (l : list element) (w : Parsing) : Prop :=
  at_rest w.1 /\ depth w.1 = depth s /\ active w.1 = active s /\ records w.1 = records s /\ context w.1 = context s /\
  context_previous_by_depth w.1 = context_previous_by_depth s /\ w.2 = out /\
  match element_stack s with
  | f :: rest => element_stack w.1 = {| fr_id := fr_id f; fr_tag := fr_tag f; fr_children := fr_children f ++ l |} :: rest
  | [] => False
  end.

Definition in_record (s : ParseState) : Prop :=
  at_rest s /\ element_stack s <> [] /\ exists ar, active s = Some ar /\ ar_depth ar <= depth s.

Lemma joined_nil s out : in_record s -> joined s out [] (s, out).
Proof.
  intros (Hrest & Hne & _). split_and!; try done. cbn [fst].
  destruct (element_stack s) as [|[] ?]; [done|]. cbn. by rewrite app_nil_r.
Qed.

Lemma joined_in_record s out l w : in_record s -> joined s out l w -> in_record w.1.
Proof.
  intros (_ & Hne & ar & Ha & Har) (Hrest & Hd & Hact & _ & _ & _ & _ & Hst). split_and!; [done|..].
  - destruct (element_stack s); [done|]. by rewrite Hst.
  - exists ar. by rewrite Hact, Hd.
Qed.

Lemma joined_app s out l l' w w' : joined s out l w -> joined w.1 w.2 l' w' -> joined s out (l ++ l') w'.
Proof.
  intros (_ & Hd & Ha & Hr & Hc & Hp & Ho & Hst) (Hrest' & Hd' & Ha' & Hr' & Hc' & Hp' & Ho' & Hst').
  destruct (element_stack s) as [|f rest] eqn:E; [done|]. rewrite Hst in Hst'. cbn in Hst'.
  unfold joined. rewrite E. split_and!; try congruence. by rewrite app_assoc.
Qed.

Lemma joined_siblings l : Forall (fun e => forall k s out, in_record s ->
    wp (drains (traversal k e)) (fun _ w => joined s out [e] w) (fun _ _ => True) (s, out)) l ->
  forall k s out, in_record s ->
    wp (drains (siblings traversal k l)) (fun _ w => joined s out l w) (fun _ _ => True) (s, out).
Proof.
  intros Hall. induction Hall as [|e l He Hl IH]; intros k s out Hin; [by apply joined_nil|].
  cbn [siblings]. apply wp_drain_app. eapply wp_mono; [by apply He|..]; cbv beta; [|done].
  intros _ [s1 out1] H1. eapply wp_mono; [apply IH, (joined_in_record s out [e] (s1, out1)); done|..]; cbv beta; [|done].
  intros _ w2 H2. change (e :: l) with ([e] ++ l). by eapply joined_app.
Qed.

Lemma wp_drains_one ev Q (E : exn -> Parsing -> Prop) s out :
  wp (on_event limits encoded_record_size rejection_message record_tag expected record_codec sid d ev)
    (fun l s' => Q tt (s', out ++ l)) (fun e s' => E e (s', out)) s ->
  wp (drains [ev]) Q E (s, out).
Proof.
  intros Hev. simpl. wp_step. apply wp_zoom. eapply wp_mono; [exact Hev|..]; cbv beta; [|done].
  intros l s' Hs'. wp_step. apply wp_modify. by wp_step.
Qed.

Lemma joined_element e : forall k s out, in_record s ->
  wp (drains (traversal k e)) (fun _ w => joined s out [e] w) (fun _ _ => True) (s, out).
Proof.
  induction e as [tag attrib text children IH] using element_children_ind. intros k s out (Hrest & Hne & ar & Ha & Har).
  cbn [traversal]. change (StartEvent k tag :: ?t) with ([StartEvent k tag] ++ t). apply wp_drain_app, wp_drains_one.
  simpl on_event. wp_step. eapply wp_mono; [by apply wp_on_start|..]; cbv beta; [|done].
  intros _ s1 (Hrest1 & Hd1 & Hr1 & Hc1 & Hp1 & Hst1 & Ha1). rewrite Ha in Ha1. wp_step. rewrite app_nil_r.
  assert (Hin1 : in_record s1) by (split_and!; [done|by rewrite Hst1|exists ar; split; [done|lia]]).
  apply wp_drain_app. eapply wp_mono; [by apply joined_siblings|..]; cbv beta; [|done].
  intros _ [s2 out2] (Hrest2 & Hd2 & Ha2 & Hr2 & Hc2 & Hp2 & Ho2 & Hst2). cbn [fst snd] in *. rewrite Hst1 in Hst2. cbn in Hst2.
  apply wp_drains_one. simpl on_event. unfold on_end. do 3 wp_step; [by wp_step|]. simplify_eq.
  do 2 wp_step; [done|]. wp_step. apply wp_zoom. unfold end_element. rewrite Ha2, Ha1.
  replace (ar_depth ar =? depth s2) with false by lia. cbn [andb]. wp_step. cbn [fr_tag fr_children]. do 3 wp_step.
  cbn [h_events]. rewrite app_nil_r.
  assert (Hnone : context_previous_by_depth s2 !! depth s2 = None) by (rewrite Hp2, Hp1; apply Hrest; lia).
  unfold joined, leave_element. cbn. rewrite Hnone. cbn. rewrite restore_empty.
  destruct (element_stack s) as [|f rest] eqn:Es; [done|]. destruct Hrest as [Hdepth Hsaved].
  split_and!; try congruence; try lia; [|by rewrite delete_id, Hp2, Hp1 by done].
  split; cbn; [rewrite Es in Hdepth; rewrite !py_len_cons in *; lia|]. intros i Hi. rewrite delete_id, Hp2, Hp1 by done. apply Hsaved. lia.
Qed.

(** ** Outside records *)

Hypothesis expected_container : expected ∈ RECORD_CONTAINERS.

Definition STRUCTURE_TAGS : list pystr :=
  py "root" :: RECORD_CONTAINERS ++ map py ["chain"; "subchains"; "subchain"]%string.

Lemma tags_apart tag : tag ∈ STORE_CONTEXT_TAGS -> tag ∈ STRUCTURE_TAGS -> False.
Proof.
  assert (Hall : forallb (fun tag => negb (bool_decide (tag ∈ STRUCTURE_TAGS))) STORE_CONTEXT_TAGS = true) by (vm_compute; reflexivity).
  intros Htag Hin. rewrite forallb_forall in Hall. apply list_elem_of_In, Hall, negb_true_iff, bool_decide_eq_false in Htag. done.
Qed.

Ltac split_bools H :=
  repeat (apply andb_true_iff in H as [H ?]);
  repeat match goal with Hb : bool_decide _ = true |- _ => apply bool_decide_eq_true in Hb end.

Lemma context_last p : is_context_path p d = true -> exists tag, last p = Some tag /\ tag ∈ STORE_CONTEXT_TAGS.
Proof.
  intros Hctx. unfold is_context_path in Hctx. repeat case_match; try done; simplify_eq; eexists; (split; [done|]);
    split_bools Hctx; try done; by apply elem_of_app; left.
Qed.

Lemma structure_last p : is_document_structure_path expected p d = true -> exists tag, last p = Some tag /\ tag ∈ STRUCTURE_TAGS.
Proof.
  assert (Hin : forall tag, tag ∈ RECORD_CONTAINERS -> tag ∈ STRUCTURE_TAGS).
  { intros tag Htag. apply elem_of_cons. right. apply elem_of_app. by left. }
  assert (Hwrap : Forall (fun q => exists tag, last q = Some tag /\ tag ∈ STRUCTURE_TAGS)
    (NESTED_STORE_CONTAINER_PATH :: STORE_DOCUMENT_WRAPPER_PATHS)).
  { repeat constructor; eexists; (split; [reflexivity|]); apply (bool_decide_unpack _); vm_compute; exact I. }
  apply Forall_cons in Hwrap as [Hnested Hwrap]. rewrite Forall_forall in Hwrap.
  unfold is_document_structure_path, is_expected_container_path. rewrite !orb_true_iff, !andb_true_iff, !bool_decide_eq_true.
  intros [[-> |[-> |[_ ->]]]|[_ Hp]]; [|by eexists; split; [|apply Hin]|done|by apply Hwrap].
  eexists. split; [reflexivity|]. by left.
Qed.

Lemma context_not_structure p : is_context_path p d = true -> is_document_structure_path expected p d = false.
Proof.
  intros (tag & Hl & Hc)%context_last. destruct (is_document_structure_path expected p d) eqn:E; [|done].
  apply structure_last in E as (tag' & Hl' & Hs). exfalso. apply (tags_apart tag); [done|]. congruence.
Qed.

(** A context element has no context elements below it. *)
Lemma context_children p tag : is_context_path p d = true -> is_context_path (p ++ [tag]) d = false.
Proof.
  intros Hctx. destruct (is_context_path (p ++ [tag]) d) eqn:E; [exfalso|done].
  destruct (context_last p Hctx) as (t & Hl & Ht). apply (tags_apart t); [done|].
  destruct p as [|a [|b [|c [|e [|f [|g p]]]]]]; try done; cbn in E, Hl; split_bools E; simplify_eq.
Qed.

Lemma evaluated {A} (m : M unit A) (E : exn -> unit -> Prop) :
  (forall e, m tt = (Raised e, tt) -> E e tt) -> wp m (fun a _ => m tt = (Returned a, tt)) E tt.
Proof. intros HE. apply wp_intro; intros ? [] Hm; [done|by apply HE]. Qed.

(** What the innermost scope of [s] is after elements of it. *)
Record scope_kept (s s' : ParseState) : Prop := {
  kept_rest : at_rest s';
  kept_depth : depth s' = depth s;
  kept_stack : element_stack s' = element_stack s;
  kept_active : active s' = None;
  kept_elsewhere : forall k, k <> depth s \/ depth s <= 1 ->
    context_previous_by_depth s' !! k = context_previous_by_depth s !! k;
  kept_undo : 1 < depth s ->
    restore_context (default ∅ (context_previous_by_depth s' !! depth s)) (context s')
      = restore_context (default ∅ (context_previous_by_depth s !! depth s)) (context s);
  kept_names : forall name, is_Some (default ∅ (context_previous_by_depth s' !! depth s) !! name) ->
    is_Some (default ∅ (context_previous_by_depth s !! depth s) !! name) \/
    is_context_path (stack_path (element_stack s) ++ [name]) d = true
}.

Lemma scope_kept_refl s : at_rest s -> active s = None -> scope_kept s s.
Proof. intros. split; auto. Qed.
Lemma scope_kept_trans s s1 s2 : scope_kept s s1 -> scope_kept s1 s2 -> scope_kept s s2.
Proof.
  intros [] []. rewrite kept_depth0, kept_stack0 in *. split; try done.
  - intros k Hk. rewrite kept_elsewhere1 by (by destruct Hk; [left|right]). by apply kept_elsewhere0.
  - intros Hd. by rewrite kept_undo1, kept_undo0.
  - intros name Hname. destruct (kept_names1 name Hname) as [?|?]; [by apply kept_names0|by right].
Qed.

(** The elements of a list do what the reference does. *)
Definition walked (reference : fields -> Z -> M unit (fields * Z * list ParsedEvent)) (evs : list tree_event)
    (s : ParseState) (out : list ParsedEvent) : Prop :=
  wp (drains evs) (fun _ w => exists l,
      reference (context s) (records s) tt = (Returned (context w.1, records w.1, l), tt) /\
      w.2 = out ++ l /\ scope_kept s w.1) (fun _ _ => True) (s, out).

Lemma walked_siblings p l : Forall (fun e => forall k s out, at_rest s -> active s = None ->
    walked (scoped (stack_path (element_stack s)) e) (traversal k e) s out) l ->
  forall k s out, at_rest s -> active s = None -> p = stack_path (element_stack s) ->
    walked (scoped_all (scoped p) l) (siblings traversal k l) s out.
Proof.
  intros Hall. induction Hall as [|e l He Hl IH]; intros k s out Hrest Hact ->.
  { unfold walked. cbn. exists []. rewrite app_nil_r. split_and!; [done|done|by apply scope_kept_refl]. }
  unfold walked. cbn [siblings scoped_all]. apply wp_drain_app. eapply wp_mono; [by apply He|..]; cbv beta; [|done].
  intros _ [s1 out1] (l1 & E1 & Ho1 & K1). cbn [fst snd] in *. subst out1.
  eapply wp_mono; [apply IH; [by destruct K1|by destruct K1|by rewrite (kept_stack _ _ K1)]|..]; cbv beta; [|done].
  intros _ [s2 out2] (l2 & E2 & Ho2 & K2). cbn [fst snd] in *. subst out2. exists (l1 ++ l2). rewrite app_assoc. split_and!; [|done|].
  - unfold mbind, M_bind. rewrite E1. cbn. unfold mbind, M_bind. fold (scoped_all (scoped (stack_path (element_stack s)))).
    by rewrite E2.
  - by eapply scope_kept_trans.
Qed.

(** The text a document element is accepted with. *)
Lemma wp_inspected e p f : is_leaf e = true ->
  wp (inspect_document_element limits expected e p d f) (fun r _ => exists value,
      clean_element_text (maximum_field_characters limits) e tt = (Returned value, tt) /\
      r.1 = if is_context_path p d then value else None) (fun _ _ => True) tt.
Proof.
  intros Hleaf. unfold inspect_document_element. wp_step. eapply wp_mono; [by apply (evaluated _ (fun _ _ => True))|..]; cbv beta; [|done].
  intros text [] Htext. rewrite Hleaf. cbn [negb andb orb]. rewrite andb_false_r. cbn [orb].
  assert (Hrest : forall accepted f', accepted = (if is_context_path p d then text else None) ->
    wp (f'' ← attribute_findings (maximum_field_characters limits) p (el_attrib e) f'; mret (accepted, f''))
      (fun r _ => exists value, clean_element_text (maximum_field_characters limits) e tt = (Returned value, tt) /\
        r.1 = if is_context_path p d then value else None) (fun _ _ => True) tt).
  { intros accepted f' ->. wp_step. eapply wp_mono; [apply wp_true|..]; cbv beta; [|done]. intros f'' [] _. wp_step. eauto. }
  destruct (is_context_path p d) eqn:Hctx; cbn [negb andb].
  - rewrite context_not_structure by done. by apply Hrest.
  - destruct (is_document_structure_path expected p d); cbn [negb]; by apply Hrest.
Qed.

Lemma stack_path_cons f stack : stack_path (f :: stack) = stack_path stack ++ [tag_name (fr_tag f)].
Proof. unfold stack_path. cbn [map]. by rewrite reverse_cons. Qed.
Lemma stack_path_length stack : length (stack_path stack) = length stack.
Proof. unfold stack_path. by rewrite length_reverse, length_map. Qed.

Lemma at_rest_empty s k : at_rest s -> depth s < k -> default ∅ (context_previous_by_depth s !! k) = ∅.
Proof. intros [_ Hs] Hk. by rewrite Hs. Qed.

(** The end of an element that is no record: its own scope is undone, and its name is defined
    in that of its parent. *)
Lemma left_scope s s1 s2 frame e h (value : option pystr) :
  at_rest s -> active s = None -> depth s1 = depth s + 1 -> context s1 = context s ->
  context_previous_by_depth s1 = context_previous_by_depth s -> element_stack s1 = frame :: element_stack s ->
  scope_kept s1 s2 -> tag_name (el_tag e) = tag_name (fr_tag frame) ->
  h_active h = None ->
  (h_context h, h_saved h) =
    match (if is_context_path (stack_path (frame :: element_stack s)) d then value else None) with
    | Some t => (<[ tag_name (fr_tag frame) := t ]> (context s2),
                 save_context (depth s2 - 1) (tag_name (fr_tag frame)) (context s2) (context_previous_by_depth s2))
    | None => (context s2, context_previous_by_depth s2)
    end ->
  let s3 := leave_element expected e h (element_stack s) s2 in
  let outer := if bool_decide (depth s1 = 1) then context s2 else context s in
  scope_kept s s3 /\
  context s3 = match (if is_context_path (stack_path (frame :: element_stack s)) d then value else None) with
               | Some t => <[ tag_name (fr_tag frame) := t ]> outer
               | None => outer
               end.
Proof.
  intros Hrest Hact Hd1 Hc1 Hp1 Hst1 K Htag Hha Hh s3 outer. pose proof Hrest as [Hdepth Hsaved].
  destruct K as [[Hdepth2 Hsaved2] Kd Kst Kact Kelse Kundo Knames]. rewrite Hd1, Hc1, Hp1, Hst1 in *.
  pose proof (py_len_nonneg (element_stack s)).
  rewrite (at_rest_empty s (depth s + 1)) in Kundo, Knames by (done || lia). rewrite restore_empty in Kundo.
  assert (Hclosed : 1 < depth s + 1 -> context s =
    restore_context (default ∅ (context_previous_by_depth s2 !! (depth s + 1))) (context s2)) by (intros; by rewrite Kundo).
  assert (Hroot : depth s = 0 -> context_previous_by_depth s2 !! 1 = None).
  { intros H0'. rewrite Kelse by lia. apply Hsaved. lia. }
  assert (Houter : restore_context (default ∅ (context_previous_by_depth s2 !! (depth s + 1))) (context s2) = outer).
  { subst outer. case_bool_decide as Hone; [|symmetry; apply Hclosed; lia].
    replace (depth s + 1) with 1 by lia. rewrite Hroot by lia. apply restore_empty. }
  assert (Hbelow : forall k, k <> depth s + 1 -> context_previous_by_depth s2 !! k = context_previous_by_depth s !! k).
  { intros k Hk. apply Kelse. by left. }
  assert (Hctx : context s3 = restore_context (default ∅ (h_saved h !! (depth s + 1))) (h_context h)).
  { subst s3. unfold leave_element. cbn [context]. by rewrite Kd. }
  assert (Hsv : context_previous_by_depth s3 = delete (depth s + 1) (h_saved h)).
  { subst s3. unfold leave_element. cbn [context_previous_by_depth]. by rewrite Kd. }
  assert (Hplace : depth s3 = depth s /\ element_stack s3 = element_stack s /\ active s3 = None).
  { subst s3. unfold leave_element. cbn [depth element_stack active]. rewrite Hha, Kd. split_and!; [lia|done|done]. }
  clearbody s3. destruct Hplace as (Hd3 & Hst3 & Ha3).
  assert (Hkept : (forall k, k <> depth s \/ depth s <= 1 -> h_saved h !! k = context_previous_by_depth s2 !! k) ->
    (1 < depth s -> restore_context (default ∅ (h_saved h !! depth s)) (context s3)
      = restore_context (default ∅ (context_previous_by_depth s !! depth s)) (context s)) ->
    (forall name, is_Some (default ∅ (h_saved h !! depth s) !! name) ->
      is_Some (default ∅ (context_previous_by_depth s !! depth s) !! name) \/
      is_context_path (stack_path (element_stack s) ++ [name]) d = true) -> scope_kept s s3).
  { intros HA HB HC. assert (Hlater : forall k, depth s < k -> context_previous_by_depth s3 !! k = None).
    { intros k Hk. rewrite Hsv. destruct (decide (k = depth s + 1)) as [->|Hne]; [apply lookup_delete_eq|].
      rewrite lookup_delete_ne, HA by lia. apply Hsaved2. lia. }
    split; try done.
    - split; [by rewrite Hd3, Hst3|by rewrite Hd3].
    - intros k Hk. destruct (Z.lt_ge_cases (depth s) k); [by rewrite Hlater, Hsaved|].
      rewrite Hsv, lookup_delete_ne, HA, Hbelow by (done || lia). done.
    - rewrite Hsv, lookup_delete_ne by lia. done.
    - rewrite Hsv, lookup_delete_ne by lia. done. }
  destruct (is_context_path (stack_path (frame :: element_stack s)) d) eqn:Hcp; [destruct value as [t|]|]; injection Hh as Hhc Hhs.
  2,3: rewrite Hhc, Hhs, Houter in Hctx; split; [|done]; apply Hkept;
    [by rewrite Hhs
    |intros Hin; rewrite Hhs, Hbelow, Hctx by lia; subst outer; by rewrite bool_decide_eq_false_2 by lia
    |intros name; rewrite Hhs, Hbelow by lia; by left].
  assert (Hnone : default ∅ (context_previous_by_depth s2 !! (depth s + 1)) = ∅).
  { apply map_empty. intros name. apply eq_None_not_Some. intros Hname. destruct (Knames name Hname) as [[? Hx]|Hx].
    - by rewrite lookup_empty in Hx.
    - by rewrite context_children in Hx. }
  rewrite Hnone, restore_empty in Houter. replace (depth s2 - 1) with (depth s) in Hhs by lia.
  rewrite Hhs, saved_elsewhere, Hnone, restore_empty, Hhc, Houter in Hctx by lia.
  split; [|done]. apply Hkept.
  - intros k Hk. rewrite Hhs. destruct (decide (k = depth s)) as [->|Hne]; [|by apply saved_elsewhere].
    by rewrite saved_outside by lia.
  - intros Hin. rewrite Hhs, Hctx, <- Houter, restore_saved, Houter, Hbelow by lia. subst outer. by rewrite bool_decide_eq_false_2 by lia.
  - intros name Hname. rewrite Hhs in Hname. apply saved_names in Hname as [Hname| ->]; [rewrite Hbelow in Hname by lia; by left|right].
    by rewrite <- stack_path_cons.
Qed.

(** A record is read in the context of its scope, and leaves it as it was. *)
Lemma walked_record tag attrib text children k s out : tag_name tag = record_tag -> at_rest s -> active s = None ->
  walked (scoped (stack_path (element_stack s)) (Element tag attrib text children)) (traversal k (Element tag attrib text children)) s out.
Proof.
  intros Htag Hrest Hact. pose proof Hrest as [Hdepth Hsaved]. unfold walked. cbn [traversal scoped].
  rewrite (bool_decide_eq_true_2 (tag_name tag = record_tag)) by done.
  change (StartEvent k tag :: ?t) with ([StartEvent k tag] ++ t). apply wp_drain_app, wp_drains_one.
  simpl on_event. wp_step. eapply wp_mono; [by apply wp_on_start|..]; cbv beta; [|done].
  intros _ s1 (Hrest1 & Hd1 & Hr1 & Hc1 & Hp1 & Hst1 & Ha1). rewrite Hact, bool_decide_eq_true_2 in Ha1 by done.
  destruct Ha1 as (ar & Ha1 & Har). wp_step. rewrite app_nil_r. apply wp_drain_app.
  assert (Hin1 : in_record s1) by (split_and!; [done|by rewrite Hst1|exists ar; split; [done|lia]]).
  eapply wp_mono; [apply joined_siblings; [apply Forall_forall; intros e _; apply joined_element|done]|..]; cbv beta; [|done].
  intros _ [s2 out2] (Hrest2 & Hd2 & Ha2 & Hr2 & Hc2 & Hp2 & Ho2 & Hst2). cbn [fst snd] in *. rewrite Hst1 in Hst2. cbn in Hst2.
  apply wp_drains_one. simpl on_event. unfold on_end. do 3 wp_step; [by wp_step|]. simplify_eq.
  do 2 wp_step; [done|]. wp_step. apply wp_zoom. unfold end_element. rewrite Ha2, Ha1.
  replace (ar_depth ar =? depth s2) with true by lia. cbn [el_tag fr_tag fr_children app]. rewrite bool_decide_eq_true_2 by done.
  cbn [andb]. do 2 wp_step; [done|]. wp_step. eapply wp_mono; [apply wp_true|..]; cbv beta; [|done]. intros [] [] _.
  wp_step. eapply wp_mono; [by apply (evaluated _ (fun _ _ => True))|..]; cbv beta; [|done]. intros events [] Hev.
  do 4 wp_step. cbn [h_events]. exists events. cbn [fst snd].
  rewrite Hc2, Hc1, Hr2, Hr1 in Hev. unfold mbind at 1, M_bind at 1. rewrite Hev.
  assert (Hnone : context_previous_by_depth s2 !! depth s2 = None) by (rewrite Hp2, Hp1; apply Hsaved; lia).
  unfold leave_element. cbn. rewrite Hnone. cbn. rewrite restore_empty, Hc2, Hc1, Hr2, Hr1.
  split_and!; [done|done|]. split; cbn; try done; try (by rewrite ?delete_id, ?Hp2, ?Hp1 by done); [|lia|intros name Hname; left; by rewrite delete_id, Hp2, Hp1 in Hname by done].
  split; cbn; [lia|]. intros i Hi. rewrite delete_id, Hp2, Hp1 by done. apply Hsaved. lia.
Qed.

Lemma walked_element e : forall k s out, at_rest s -> active s = None ->
  walked (scoped (stack_path (element_stack s)) e) (traversal k e) s out.
Proof.
  induction e as [tag attrib text children IH] using element_children_ind. intros k s out Hrest Hact.
  destruct (decide (tag_name tag = record_tag)) as [Htag|Htag]; [by apply walked_record|].
  unfold walked. cbn [traversal scoped]. rewrite (bool_decide_eq_false_2 (tag_name tag = record_tag)) by done.
  change (StartEvent k tag :: ?t) with ([StartEvent k tag] ++ t). apply wp_drain_app, wp_drains_one.
  simpl on_event. wp_step. eapply wp_mono; [by apply wp_on_start|..]; cbv beta; [|done].
  intros _ s1 (Hrest1 & Hd1 & Hr1 & Hc1 & Hp1 & Hst1 & Ha1). rewrite Hact, bool_decide_eq_false_2 in Ha1 by done.
  wp_step. rewrite app_nil_r. apply wp_drain_app.
  eapply wp_mono; [exact (walked_siblings (stack_path (element_stack s1)) children IH (k + 1) s1 out Hrest1 Ha1 eq_refl)|..];
    cbv beta; [|done].
  intros _ [s2 out2] (l & El & Ho2 & K). cbn [fst snd] in *. subst out2. pose proof K as [Hrest2 Hd2 Hst2 Ha2 _ _ _].
  apply wp_drains_one. simpl on_event. unfold on_end. rewrite Hst1 in Hst2. do 3 wp_step; [by wp_step|]. simplify_eq.
  do 2 wp_step; [done|]. wp_step. apply wp_zoom. unfold end_element. rewrite Ha2. cbn [fr_tag fr_children].
  wp_step. eapply wp_mono; [by apply wp_inspected|..]; cbv beta; [|done]. intros [accepted f] [] (value & Hvalue & Hacc).
  cbn [fst snd] in Hacc. cbn [el_tag]. rewrite Heql0 in Hacc |- *. subst accepted.
  destruct (match (if is_context_path _ d then value else None) with Some t => _ | None => _ end) as [ctx saved] eqn:Ecs.
  do 3 wp_step. wp_step. set (h := {| h_events := []; h_context := ctx |}).
  destruct (left_scope s s1 s2 {| fr_id := k; fr_tag := tag; fr_children := [] |} (Element tag attrib text []) h value)
    as [Kept Hctx]; try done.
  { cbn [h_context h_saved h fr_tag]. rewrite <- Ecs. repeat case_match; done. }
  exists l. cbn [fst snd h_events h]. rewrite app_nil_r. split_and!; [|done|done].
  rewrite Hst1, stack_path_cons, Hr1, Hc1 in El. cbn [fr_tag] in El. unfold mbind at 1, M_bind at 1. rewrite El.
  unfold mbind at 1, M_bind at 1. rewrite Hvalue. rewrite Hctx, stack_path_cons. cbn [fr_tag].
  rewrite length_app, stack_path_length. cbn [length].
  replace (bool_decide ((length (element_stack s) + 1)%nat = 1%nat)) with (bool_decide (depth s1 = 1)).
  2:{ apply bool_decide_ext. rewrite Hd1. destruct Hrest as [-> _]. unfold py_len. lia. }
  cbn [records leave_element h_records h]. destruct value, (is_context_path (stack_path (element_stack s) ++ [tag_name tag]) d); reflexivity.
Qed.

(** The whole document. *)
Lemma walked_document e s out : drains (traversal 0 e) (new_parse_state, []) = (Returned tt, (s, out)) ->
  scoped [] e ∅ 0 tt = (Returned (context s, records s, out), tt).
Proof.
  intros Hrun. assert (Hrest : at_rest new_parse_state) by (split; [done|intros k _; apply lookup_empty]).
  pose proof (walked_element e 0 new_parse_state [] Hrest eq_refl) as Hwp. unfold walked, wp in Hwp. rewrite Hrun in Hwp.
  destruct Hwp as (l & El & Ho & _). cbn in Ho. by subst l.
Qed.
End scopes.
