(* ===== verification/Temporal.v ===== *)
(** Validity-period tables: [price_history], [availability_history] and [promotions] of
    [src/src/makolet/adapters/persistence/schema.py] keep, for every key, rows with the
    half-open period in which their value held.  What the statements that close and open
    rows do to such a table, for any row type. *)
From S2P Require Import Prelude Errors Effects.

(** The violation of a constraint of the schema: SQLAlchemy's [IntegrityError]. *)
Definition integrity_error : exn := PyExn OtherException.

(** A row of such a table: its key, value and period, and the row as closed at a time. *)
Class TemporalRow (A K V : Type) := {
  row_key : A -> K;
  row_value : A -> V;
  row_from : A -> Z;
  row_to : A -> option Z;
  close_at : Z -> A -> A
}.
Class TemporalRowLaws A K V `{TemporalRow A K V} : Prop := {
  close_key t a : row_key (close_at t a) = row_key a;
  close_value t a : row_value (close_at t a) = row_value a;
  close_from t a : row_from (close_at t a) = row_from a;
  close_to t a : row_to (close_at t a) = Some t
}.
#[export] Hint Mode TemporalRow ! - - : typeclass_instances.

Section temporal.
Context `{TemporalRow A K V, EqDecision K}.

(** [valid_to IS NULL]. *)
Definition is_open (a : A) : bool := bool_decide (row_to a = None).

(** The [UPDATE] that closes the open rows of the keys in [keys]; the check constraint
    wants [valid_to > valid_from]. *)
Definition close_rows (keys : K -> bool) (applied_at : Z) (rows : list A) : option (list A) :=
  if existsb (fun a => is_open a && keys (row_key a) && (applied_at <=? row_from a)) rows then None
  else Some (map (fun a => if is_open a && keys (row_key a) then close_at applied_at a else a) rows).

(** The [INSERT] of open rows; the partial unique index allows one open row per key. *)
Definition open_rows (new rows : list A) : option (list A) :=
  if bool_decide (NoDup (map row_key new))
     && negb (existsb (fun a => is_open a && bool_decide (row_key a ∈ map row_key new)) rows)
  then Some (rows ++ new) else None.

(** ** The table as a function of time *)

(** The period of a row holds a time, or ends by it. *)
Definition in_force (t : Z) (a : A) : bool :=
  (row_from a <=? t) && match row_to a with Some e => t <? e | None => true end.
Definition ends_by (t : Z) (a : A) : Prop := exists e, row_to a = Some e /\ e <= t.

(** The value of a key at a time, and its open value. *)
Definition as_of (rows : list A) (k : K) (t : Z) : option V :=
  row_value <$> List.find (fun a => bool_decide (row_key a = k) && in_force t a) rows.
Definition open_value (rows : list A) (k : K) : option V :=
  row_value <$> List.find (fun a => bool_decide (row_key a = k) && is_open a) rows.

(** A well-formed table: periods are not empty, and the periods of a key do not overlap. *)
Record timeline (rows : list A) : Prop := {
  tl_valid : forall a e, a ∈ rows -> row_to a = Some e -> row_from a < e;
  tl_apart : forall i j a b, rows !! i = Some a -> rows !! j = Some b -> i <> j ->
    row_key a = row_key b -> ends_by (row_from b) a \/ ends_by (row_from a) b
}.
End temporal.

(** ** Lemmas *)

Section facts.
Context `{TemporalRowLaws A K V, EqDecision K}.
Implicit Types (rows : list A).

Lemma is_open_spec (a : A) : is_open a = true <-> row_to a = None.
Proof. apply bool_decide_eq_true. Qed.

Lemma in_force_spec t (a : A) : in_force t a = true <->
  row_from a <= t /\ (forall e, row_to a = Some e -> t < e).
Proof.
  unfold in_force. rewrite andb_true_iff, Z.leb_le. destruct (row_to a) as [e|]; [rewrite Z.ltb_lt|];
    split; intros [? H']; split; auto; [by intros ? [= <-]|done].
Qed.

(** Two rows in force for one key are one row. *)
Lemma in_force_unique rows i j a b t : timeline rows ->
  rows !! i = Some a -> rows !! j = Some b -> row_key a = row_key b ->
  in_force t a = true -> in_force t b = true -> i = j.
Proof.
  intros [_ Hap] Hi Hj Hk [Ha Hae]%in_force_spec [Hb Hbe]%in_force_spec.
  destruct (decide (i = j)) as [|Hij]; [done|].
  destruct (Hap i j a b Hi Hj Hij Hk) as [(e & He & ?)|(e & He & ?)];
    [specialize (Hae _ He)|specialize (Hbe _ He)]; lia.
Qed.

Lemma open_unique rows i j a b : timeline rows ->
  rows !! i = Some a -> rows !! j = Some b -> row_key a = row_key b ->
  row_to a = None -> row_to b = None -> i = j.
Proof.
  intros [_ Hap] Hi Hj Hk Ha Hb. destruct (decide (i = j)) as [|Hij]; [done|].
  destruct (Hap i j a b Hi Hj Hij Hk) as [(e & He & ?)|(e & He & ?)]; congruence.
Qed.

Lemma find_spec (f : A -> bool) rows a :
  (forall i j b c, rows !! i = Some b -> rows !! j = Some c -> f b = true -> f c = true -> i = j) ->
  List.find f rows = Some a <-> a ∈ rows /\ f a = true.
Proof.
  intros Hf. split.
  - intros Ha%List.find_some. by rewrite list_elem_of_In.
  - intros [Hin Hfa]. destruct (List.find f rows) as [b|] eqn:E.
    + apply List.find_some in E as [Hb Hfb]. apply list_elem_of_In in Hb.
      apply list_elem_of_lookup in Hin as [i Hi], Hb as [j Hj].
      specialize (Hf _ _ _ _ Hi Hj Hfa Hfb) as ->. congruence.
    + apply list_elem_of_In in Hin. pose proof (List.find_none _ _ E a Hin). congruence.
Qed.

Lemma as_of_spec rows k t v : timeline rows ->
  as_of rows k t = Some v <->
  exists a, a ∈ rows /\ row_key a = k /\ in_force t a = true /\ row_value a = v.
Proof.
  intros Ht. unfold as_of. rewrite fmap_Some. setoid_rewrite find_spec.
  - split.
    + intros (a & [Hin [Hk%bool_decide_eq_true Hf]%andb_true_iff] & ->). eauto.
    + intros (a & Hin & Hk & Hf & <-). exists a. rewrite Hf, bool_decide_eq_true_2 by done. done.
  - intros i j b c Hi Hj [Hb%bool_decide_eq_true ?]%andb_true_iff [Hc%bool_decide_eq_true ?]%andb_true_iff.
    eapply in_force_unique; eauto. congruence.
Qed.

Lemma open_value_spec rows k v : timeline rows ->
  open_value rows k = Some v <->
  exists a, a ∈ rows /\ row_key a = k /\ row_to a = None /\ row_value a = v.
Proof.
  intros Ht. unfold open_value. rewrite fmap_Some. setoid_rewrite find_spec.
  - split.
    + intros (a & [Hin [Hk%bool_decide_eq_true Hf%is_open_spec]%andb_true_iff] & ->). eauto.
    + intros (a & Hin & Hk & Hf%is_open_spec & <-). exists a. rewrite Hf, bool_decide_eq_true_2 by done. done.
  - intros i j b c Hi Hj [Hb%bool_decide_eq_true Ho%is_open_spec]%andb_true_iff
      [Hc%bool_decide_eq_true Ho'%is_open_spec]%andb_true_iff.
    eapply open_unique; eauto. congruence.
Qed.

Lemma find_app (f : A -> bool) rows new :
  List.find f (rows ++ new) = match List.find f rows with Some a => Some a | None => List.find f new end.
Proof. induction rows as [|a rows IH]; [done|]. cbn. by destruct (f a). Qed.

Lemma find_map (f g : A -> bool) (h : A -> A) rows : (forall a, a ∈ rows -> g (h a) = f a) ->
  List.find g (map h rows) = h <$> List.find f rows.
Proof.
  induction rows as [|a rows IH]; intros Hh; [done|]. cbn. rewrite Hh by constructor.
  destruct (f a); [done|]. apply IH. intros b Hb. apply Hh. by constructor.
Qed.

Lemma find_ext (f g : A -> bool) rows : (forall a, a ∈ rows -> f a = g a) ->
  List.find f rows = List.find g rows.
Proof.
  induction rows as [|a rows IH]; intros Hfg; [done|]. cbn. rewrite Hfg by constructor.
  destruct (g a); [done|]. apply IH. intros b Hb. apply Hfg. by constructor.
Qed.

Lemma find_none_intro (f : A -> bool) rows : (forall a, a ∈ rows -> f a = false) -> List.find f rows = None.
Proof.
  intros Hf. destruct (List.find f rows) as [a|] eqn:E; [|done].
  apply List.find_some in E as [Hin Ha]. apply list_elem_of_In in Hin. specialize (Hf a Hin). congruence.
Qed.

(** ** Closing *)

(** What closing does to one row. *)
Definition closed_row (keys : K -> bool) (applied_at : Z) (a : A) : A :=
  if is_open a && keys (row_key a) then close_at applied_at a else a.

Lemma close_rows_some keys T rows rows' : close_rows keys T rows = Some rows' ->
  rows' = map (closed_row keys T) rows /\
  forall a, a ∈ rows -> row_to a = None -> keys (row_key a) = true -> row_from a < T.
Proof.
  unfold close_rows. destruct (existsb _ rows) eqn:E; [done|]. intros [= <-]. split; [done|].
  intros a Hin Ho Hk. rewrite <- not_true_iff_false, existsb_exists in E.
  destruct (Z.ltb_spec (row_from a) T) as [|Hle]; [done|exfalso]. apply E. exists a.
  rewrite <- list_elem_of_In, Hk. split; [done|]. rewrite (proj2 (is_open_spec a)) by done.
  by apply Z.leb_le.
Qed.

Lemma closed_row_key keys T a : row_key (closed_row keys T a) = row_key a.
Proof. unfold closed_row. destruct (_ && _); [apply close_key|done]. Qed.
Lemma closed_row_value keys T a : row_value (closed_row keys T a) = row_value a.
Proof. unfold closed_row. destruct (_ && _); [apply close_value|done]. Qed.
Lemma closed_row_from keys T a : row_from (closed_row keys T a) = row_from a.
Proof. unfold closed_row. destruct (_ && _); [apply close_from|done]. Qed.
Lemma closed_row_to keys T a : row_to (closed_row keys T a) =
  match row_to a with Some e => Some e | None => if keys (row_key a) then Some T else None end.
Proof.
  unfold closed_row, is_open. destruct (row_to a) as [e|] eqn:E; cbn.
  - done.
  - destruct (keys _); [apply close_to|done].
Qed.

Lemma closed_row_ends keys T t a : ends_by t a -> ends_by t (closed_row keys T a).
Proof. intros (e & He & ?). exists e. by rewrite closed_row_to, He. Qed.

Lemma close_rows_timeline keys T rows rows' :
  timeline rows -> close_rows keys T rows = Some rows' -> timeline rows'.
Proof.
  intros [Hv Hap] [-> Hlt]%close_rows_some. split.
  - intros a e (b & -> & Hb)%list_elem_of_fmap. rewrite closed_row_to, closed_row_from.
    destruct (row_to b) as [e'|] eqn:Eb; [intros [= <-]; by apply Hv|].
    destruct (keys (row_key b)) eqn:Ek; [intros [= <-]; by apply Hlt|done].
  - intros i j a b (a' & -> & Ha)%list_lookup_fmap_Some (b' & -> & Hb)%list_lookup_fmap_Some Hij.
    rewrite !closed_row_key, !closed_row_from. intros Hk.
    destruct (Hap i j a' b' Ha Hb Hij Hk) as [He|He]; [left|right]; by apply closed_row_ends.
Qed.

(** An open row of a key comes after all its closed rows. *)
Lemma closed_before_open rows a b : timeline rows -> a ∈ rows -> b ∈ rows -> row_key a = row_key b ->
  row_to b = None -> (exists e, row_to a = Some e) -> ends_by (row_from b) a.
Proof.
  intros [_ Hap] [i Hi]%list_elem_of_lookup [j Hj]%list_elem_of_lookup Hk Hb [e He].
  destruct (decide (i = j)) as [->|Hij]; [congruence|].
  destruct (Hap i j a b Hi Hj Hij Hk) as [|(e' & He' & _)]; [done|congruence].
Qed.

Lemma close_rows_as_of keys T rows rows' k t : timeline rows -> close_rows keys T rows = Some rows' ->
  as_of rows' k t = if keys k && (T <=? t) && bool_decide (is_Some (open_value rows k)) then None
                    else as_of rows k t.
Proof.
  intros Ht Hc. pose proof (close_rows_some _ _ _ _ Hc) as [-> Hlt]. unfold as_of.
  destruct (keys k && (T <=? t) && bool_decide (is_Some (open_value rows k))) eqn:E.
  - rewrite !andb_true_iff, bool_decide_eq_true, Z.leb_le in E. destruct E as [[Hk Htt] [v Hv]].
    apply open_value_spec in Hv as (b & Hb & Hbk & Hbo & _); [|done].
    rewrite find_none_intro; [done|]. intros a (a' & -> & Ha)%list_elem_of_fmap.
    rewrite closed_row_key. apply not_true_iff_false. rewrite andb_true_iff, bool_decide_eq_true, in_force_spec.
    intros (Hak & _ & Hend). rewrite closed_row_to in Hend.
    destruct (row_to a') as [e|] eqn:Ea.
    + destruct (closed_before_open rows a' b Ht Ha Hb) as (e' & He' & ?); [congruence|done|eauto|].
      specialize (Hend e eq_refl). rewrite <- Hbk in Hk. pose proof (Hlt b Hb Hbo Hk). simplify_eq. lia.
    + rewrite Hak, Hk in Hend. specialize (Hend T eq_refl). lia.
  - rewrite (find_map (fun a => bool_decide (row_key a = k) && in_force t a)).
    + destruct (List.find _ rows); [|done]. cbn. by rewrite closed_row_value.
    + intros a Ha. rewrite closed_row_key. destruct (bool_decide_reflect (row_key a = k)) as [Hk|]; [|done].
      cbn. unfold in_force. rewrite closed_row_from, closed_row_to. destruct (row_to a) as [e|] eqn:Ea; [done|].
      destruct (keys (row_key a)) eqn:Hka; [|done]. pose proof (Hlt a Ha Ea Hka).
      rewrite Hk in Hka. rewrite Hka in E. cbn in E. rewrite (bool_decide_eq_true_2 (is_Some _)) in E.
      * rewrite andb_true_r in E. apply Z.leb_gt in E. rewrite (proj2 (Z.ltb_lt t T)) by done. by rewrite andb_true_r.
      * exists (row_value a). apply open_value_spec; eauto.
Qed.

Lemma close_rows_open keys T rows rows' k : close_rows keys T rows = Some rows' ->
  open_value rows' k = if keys k then None else open_value rows k.
Proof.
  intros [-> _]%close_rows_some. unfold open_value. destruct (keys k) eqn:Hk.
  - rewrite find_none_intro; [done|]. intros a (b & -> & Hb)%list_elem_of_fmap.
    rewrite closed_row_key. destruct (bool_decide_reflect (row_key b = k)) as [Hbk|]; [|done].
    apply not_true_iff_false. cbn. rewrite is_open_spec, closed_row_to, Hbk, Hk. by destruct (row_to b).
  - rewrite (find_map (fun a => bool_decide (row_key a = k) && is_open a)).
    + destruct (List.find _ rows); [|done]. cbn. by rewrite closed_row_value.
    + intros a Ha. rewrite closed_row_key. destruct (bool_decide_reflect (row_key a = k)) as [Hak|]; [|done].
      cbn. unfold is_open. rewrite closed_row_to, Hak, Hk. by destruct (row_to a).
Qed.

(** ** Opening *)

(** Rows that start at a time and are open. *)
Definition fresh_rows (T : Z) (new : list A) : Prop :=
  Forall (fun a => row_from a = T /\ row_to a = None) new.

Lemma open_rows_some new rows rows' : open_rows new rows = Some rows' ->
  rows' = rows ++ new /\ NoDup (map row_key new) /\
  forall a b, a ∈ rows -> b ∈ new -> row_key a = row_key b -> exists e, row_to a = Some e.
Proof.
  unfold open_rows. destruct (_ && _) eqn:E; [|done]. intros [= <-].
  apply andb_true_iff in E as [Hnd%bool_decide_eq_true Hop%negb_true_iff].
  split_and!; [done|done|]. intros a b Ha Hb Hk. destruct (row_to a) as [e|] eqn:Ea; [eauto|exfalso].
  rewrite <- not_true_iff_false, existsb_exists in Hop. apply Hop. exists a.
  rewrite <- list_elem_of_In, (proj2 (is_open_spec a)) by done. split; [done|].
  apply bool_decide_eq_true_2, list_elem_of_fmap. eauto.
Qed.

Lemma fresh_open_value T new k a : fresh_rows T new -> a ∈ new -> row_key a = k ->
  is_Some (open_value new k).
Proof.
  intros Hf Ha Hk. unfold open_value. destruct (List.find _ new) as [b|] eqn:E; [by eexists|].
  apply list_elem_of_In in Ha as Ha'. pose proof (List.find_none _ _ E a Ha') as Hn. cbv beta in Hn.
  unfold fresh_rows in Hf. rewrite Forall_forall in Hf. destruct (Hf a Ha) as [_ Ho].
  rewrite (bool_decide_eq_true_2 (row_key a = k)) in Hn by done. cbn in Hn.
  rewrite (proj2 (is_open_spec a)) in Hn by done. done.
Qed.

Lemma fresh_find T new k t : fresh_rows T new ->
  row_value <$> List.find (fun a => bool_decide (row_key a = k) && in_force t a) new =
  if T <=? t then open_value new k else None.
Proof.
  intros Hf. unfold fresh_rows in Hf. rewrite Forall_forall in Hf. destruct (Z.leb_spec T t).
  - unfold open_value. f_equal. apply find_ext. intros a [Hfrom Hto]%Hf. unfold in_force, is_open.
    rewrite Hfrom, Hto. rewrite (proj2 (Z.leb_le T t)) by done. done.
  - rewrite find_none_intro; [done|]. intros a [Hfrom Hto]%Hf. unfold in_force. rewrite Hfrom.
    rewrite (proj2 (Z.leb_gt T t)) by done. by rewrite andb_false_r.
Qed.

Lemma open_value_In rows k : is_Some (open_value rows k) ->
  exists a, a ∈ rows /\ row_key a = k /\ row_to a = None.
Proof.
  unfold open_value. destruct (List.find _ rows) as [a|] eqn:E; [|by intros []]. intros _.
  apply List.find_some in E as [Hin [Hk%bool_decide_eq_true Ho%is_open_spec]%andb_true_iff].
  exists a. by rewrite list_elem_of_In.
Qed.

Lemma open_rows_timeline T new rows rows' : timeline rows -> fresh_rows T new ->
  (forall a b, a ∈ rows -> b ∈ new -> row_key a = row_key b -> ends_by T a) ->
  open_rows new rows = Some rows' -> timeline rows'.
Proof.
  intros [Hv Hap] Hf Hend (-> & Hnd & _)%open_rows_some.
  unfold fresh_rows in Hf. rewrite Forall_forall in Hf. split.
  - intros a e [Ha|Ha]%elem_of_app He; [by apply Hv|]. destruct (Hf a Ha). congruence.
  - intros i j a b. rewrite !lookup_app.
    destruct (rows !! i) as [a'|] eqn:Ei, (rows !! j) as [b'|] eqn:Ej.
    + intros [= <-] [= <-]. by eapply Hap.
    + intros [= <-] Hb Hij Hk. apply list_elem_of_lookup_2 in Ei, Hb. left.
      destruct (Hf b Hb) as [-> _]. by eapply Hend.
    + intros Ha [= <-] Hij Hk. apply list_elem_of_lookup_2 in Ej, Ha. right.
      destruct (Hf a Ha) as [-> _]. by eapply Hend.
    + intros Ha Hb Hij Hk. exfalso. apply Hij. apply lookup_ge_None_1 in Ei, Ej.
      assert (i - length rows = j - length rows)%nat; [|lia].
      eapply NoDup_lookup; [exact Hnd| |]; rewrite list_lookup_fmap.
      * by rewrite Ha.
      * rewrite Hb. cbn. by rewrite Hk.
Qed.

Lemma open_rows_as_of T new rows rows' k t : fresh_rows T new ->
  (forall a b, a ∈ rows -> b ∈ new -> row_key a = row_key b -> ends_by T a) ->
  open_rows new rows = Some rows' ->
  as_of rows' k t = if T <=? t then match open_value new k with
                                    | Some v => Some v | None => as_of rows k t end
                    else as_of rows k t.
Proof.
  intros Hf Hend (-> & _)%open_rows_some. unfold as_of. rewrite find_app.
  pose proof (fresh_find T new k t Hf) as Hn. destruct (Z.leb_spec T t).
  - destruct (open_value new k) as [v|] eqn:Ev.
    + destruct (open_value_In new k) as (b & Hb & Hbk & _); [by eexists|].
      rewrite find_none_intro; [done|]. intros a Ha.
      destruct (bool_decide_reflect (row_key a = k)) as [Hak|]; [|done].
      destruct (Hend a b Ha Hb) as (e & He & ?); [congruence|].
      unfold in_force. rewrite He. rewrite (proj2 (Z.ltb_ge t e)) by lia. by rewrite !andb_false_r.
    + by destruct (List.find _ rows).
  - by destruct (List.find _ rows).
Qed.

Lemma open_rows_open new rows rows' k : open_rows new rows = Some rows' ->
  open_value rows' k = match open_value new k with Some v => Some v | None => open_value rows k end.
Proof.
  intros (-> & _ & Hc)%open_rows_some. unfold open_value at 1. rewrite find_app.
  destruct (List.find _ rows) as [a|] eqn:E.
  - assert (Eo : open_value rows k = Some (row_value a)) by (unfold open_value; by rewrite E).
    apply List.find_some in E as [Hin [Hk%bool_decide_eq_true Ho%is_open_spec]%andb_true_iff].
    apply list_elem_of_In in Hin. rewrite Eo. destruct (open_value new k) as [v|] eqn:Ev; [|done].
    destruct (open_value_In new k) as (b & Hb & Hbk & _); [by eexists|].
    destruct (Hc a b Hin Hb) as [e He]; congruence.
  - assert (Eo : open_value rows k = None) by (unfold open_value; by rewrite E).
    rewrite Eo. fold (open_value new k). by destruct (open_value new k).
Qed.

(** ** Closing and opening *)

(** No closed row of a key in [P] ends after [T]. *)
Definition settled_by (T : Z) (P : K -> Prop) rows : Prop :=
  forall a e, a ∈ rows -> P (row_key a) -> row_to a = Some e -> e <= T.

(** The two statements together: before [T] the table says what it said; from [T] on it says
    what was opened, and otherwise what it said, provided that what is closed is reopened. *)
Lemma replace_rows keys T new rows r1 r2 : timeline rows -> fresh_rows T new ->
  settled_by T (fun k => is_Some (open_value new k)) rows ->
  (forall k, keys k = true -> is_Some (open_value rows k) -> is_Some (open_value new k)) ->
  close_rows keys T rows = Some r1 -> open_rows new r1 = Some r2 ->
  timeline r2 /\
  (forall k t, as_of r2 k t = if T <=? t then match open_value new k with
                                              | Some v => Some v | None => as_of rows k t end
                              else as_of rows k t) /\
  (forall k, open_value r2 k = match open_value new k with
                               | Some v => Some v | None => open_value rows k end).
Proof.
  intros Ht Hf Hs Hre Hc Ho. pose proof (close_rows_some _ _ _ _ Hc) as [Er1 Hlt].
  pose proof (open_rows_some _ _ _ Ho) as (_ & _ & Hclosed).
  assert (Hend : forall a b, a ∈ r1 -> b ∈ new -> row_key a = row_key b -> ends_by T a).
  { intros a b Ha Hb Hk. destruct (Hclosed a b Ha Hb Hk) as [e He]. exists e. split; [done|].
    rewrite Er1 in Ha. apply list_elem_of_fmap in Ha as (c & -> & Hcin).
    rewrite closed_row_to in He. rewrite closed_row_key in Hk.
    destruct (row_to c) as [e'|] eqn:Ec.
    - injection He as ->. apply (Hs c e Hcin); [|done]. rewrite Hk. by eapply fresh_open_value.
    - destruct (keys _); [|done]. injection He as ->. lia. }
  split_and!.
  - eapply open_rows_timeline; [by eapply close_rows_timeline| | |exact Ho]; [exact Hf|exact Hend].
  - intros k t. rewrite (open_rows_as_of _ _ _ _ k t Hf Hend Ho).
    rewrite (close_rows_as_of _ _ _ _ k t Ht Hc). destruct (Z.leb_spec T t); [|by rewrite andb_false_r].
    destruct (open_value new k) as [v|] eqn:Ev; [done|]. destruct (keys k) eqn:Hk; [|done].
    cbn. rewrite bool_decide_eq_false_2; [done|]. intros Hsome. apply (Hre k Hk) in Hsome.
    rewrite Ev in Hsome. by destruct Hsome.
  - intros k. rewrite (open_rows_open _ _ _ k Ho), (close_rows_open _ _ _ _ k Hc).
    destruct (open_value new k) as [v|] eqn:Ev; [done|]. destruct (keys k) eqn:Hk; [|done].
    destruct (open_value rows k) as [v|] eqn:Eo; [|done].
    destruct (Hre k Hk) as [? ?]; [by eexists|congruence].
Qed.

(** After its last row has ended a key has no value. *)
Lemma ended_as_of T rows k t : settled_by T (fun k' => k' = k) rows -> open_value rows k = None ->
  T <= t -> as_of rows k t = None.
Proof.
  intros Hs Ho Ht. unfold as_of. rewrite find_none_intro; [done|]. intros a Ha.
  apply not_true_iff_false. rewrite andb_true_iff, bool_decide_eq_true, in_force_spec. intros (Hk & _ & He).
  destruct (row_to a) as [e|] eqn:Ee.
  - pose proof (Hs a e Ha Hk Ee). specialize (He e eq_refl). lia.
  - unfold open_value in Ho. apply fmap_None in Ho. apply list_elem_of_In in Ha.
    pose proof (List.find_none _ _ Ho a Ha) as Hn. cbv beta in Hn.
    rewrite bool_decide_eq_true_2, (proj2 (is_open_spec a)) in Hn by done. done.
Qed.

(** A table whose keys all have an open row is settled wherever closing succeeds. *)
Definition alive rows : Prop := forall a, a ∈ rows -> is_Some (open_value rows (row_key a)).

Lemma alive_settled keys T rows r1 P : timeline rows -> alive rows ->
  close_rows keys T rows = Some r1 ->
  (forall k, P k -> is_Some (open_value rows k) -> keys k = true) -> settled_by T P rows.
Proof.
  intros Ht Hal [_ Hlt]%close_rows_some HP a e Ha Hk He.
  pose proof (Hal a Ha) as Ho. destruct (open_value_In _ _ Ho) as (b & Hb & Hbk & Hbo).
  destruct (closed_before_open rows a b) as (e' & He' & ?); eauto.
  pose proof (Hlt b Hb Hbo) as Hl. rewrite Hbk in Hl. specialize (Hl (HP _ Hk Ho)). simplify_eq. lia.
Qed.

Lemma replace_alive T new rows r1 r2 keys : alive rows -> fresh_rows T new ->
  close_rows keys T rows = Some r1 -> open_rows new r1 = Some r2 ->
  (forall k, open_value r2 k = match open_value new k with
                               | Some v => Some v | None => open_value rows k end) -> alive r2.
Proof.
  intros Hal Hf [-> _]%close_rows_some (-> & _)%open_rows_some Hopen a Ha. rewrite Hopen.
  apply elem_of_app in Ha as [(b & -> & Hb)%list_elem_of_fmap|Ha].
  - rewrite closed_row_key. destruct (open_value new _); [by eexists|by apply Hal].
  - destruct (fresh_open_value T new (row_key a) a Hf Ha) as [v ->]; [done|by eexists].
Qed.

End facts.

(** ** Tables that say the same

    Two tables whose rows have the same keys, values and periods, in order: they differ in
    what is kept beside them. *)
Section same_periods.
Context `{TemporalRow A K V, EqDecision K}.

Definition same_row (a b : A) : Prop :=
  row_key a = row_key b /\ row_value a = row_value b /\ row_from a = row_from b /\ row_to a = row_to b.
Definition same_periods : list A -> list A -> Prop := Forall2 same_row.

#[export] Instance same_row_equivalence : Equivalence same_row.
Proof. split; unfold same_row; [by intros ?|intros ? ? ?; naive_solver|intros ? ? ?; naive_solver congruence]. Qed.
#[export] Instance same_periods_equivalence : Equivalence same_periods.
Proof. unfold same_periods. split; apply _. Qed.

Lemma same_periods_map (g : A -> A) rows : (forall a, same_row a (g a)) -> same_periods rows (map g rows).
Proof. intros Hg. induction rows; constructor; auto. Qed.

Lemma same_periods_find (f : A -> bool) r1 r2 : (forall a b, same_row a b -> f a = f b) ->
  same_periods r1 r2 -> option_Forall2 same_row (List.find f r1) (List.find f r2).
Proof.
  intros Hf. induction 1 as [|a b r1 r2 Hab _ IH]; [constructor|]. cbn. rewrite (Hf a b Hab).
  destruct (f b); [by constructor|done].
Qed.

Lemma same_row_open a b : same_row a b -> is_open a = is_open b.
Proof. intros (_ & _ & _ & Ht). unfold is_open. by rewrite Ht. Qed.

#[export] Instance open_value_proper : Proper (same_periods ==> eq ==> eq) open_value.
Proof.
  intros r1 r2 Hr k _ <-. unfold open_value.
  assert (Hf : option_Forall2 same_row (List.find (fun a => bool_decide (row_key a = k) && is_open a) r1)
    (List.find (fun a => bool_decide (row_key a = k) && is_open a) r2)).
  { apply same_periods_find; [|done]. intros a b Hab. rewrite (same_row_open a b Hab).
    by destruct Hab as (-> & _). }
  inversion Hf as [a b (_ & Hv & _)|]; [cbn; by rewrite Hv|done].
Qed.

#[export] Instance as_of_proper : Proper (same_periods ==> eq ==> eq ==> eq) as_of.
Proof.
  intros r1 r2 Hr k _ <- t _ <-. unfold as_of.
  assert (Hf : option_Forall2 same_row (List.find (fun a => bool_decide (row_key a = k) && in_force t a) r1)
    (List.find (fun a => bool_decide (row_key a = k) && in_force t a) r2)).
  { apply same_periods_find; [|done]. intros a b (Hk & _ & Hf & Ht). unfold in_force. by rewrite Hk, Hf, Ht. }
  inversion Hf as [a b (_ & Hv & _)|]; [cbn; by rewrite Hv|done].
Qed.

#[export] Instance timeline_proper : Proper (same_periods ==> iff) timeline.
Proof.
  assert (Hone : forall r1 r2, same_periods r1 r2 -> timeline r1 -> timeline r2).
  { intros r1 r2 Hr [Hv Hap]. split.
    - intros b e Hb He. apply list_elem_of_lookup in Hb as [j Hj].
      destruct (Forall2_lookup_r _ _ _ _ _ Hr Hj) as (a & Ha & (_ & _ & Hf & Ht)).
      rewrite <- Hf. apply Hv; [by eapply list_elem_of_lookup_2|congruence].
    - intros i j a b Hi Hj Hij Hk.
      destruct (Forall2_lookup_r _ _ _ _ _ Hr Hi) as (a' & Ha & (Hka & _ & Hfa & Hta)).
      destruct (Forall2_lookup_r _ _ _ _ _ Hr Hj) as (b' & Hb & (Hkb & _ & Hfb & Htb)).
      unfold ends_by. rewrite <- Hta, <- Htb, <- Hfa, <- Hfb. eapply Hap; eauto. congruence. }
  intros r1 r2 Hr. split; apply Hone; [done|by symmetry].
Qed.

(** Inserting looks only at keys and periods. *)
Lemma open_rows_same new r1 r2 r3 : same_periods r1 r2 -> open_rows new r2 = Some r3 ->
  open_rows new r1 = Some (r1 ++ new) /\ same_periods (r1 ++ new) r3.
Proof.
  intros Hr. unfold open_rows.
  assert (E : existsb (fun a => is_open a && bool_decide (row_key a ∈ map row_key new)) r1
    = existsb (fun a => is_open a && bool_decide (row_key a ∈ map row_key new)) r2).
  { induction Hr as [|a b r1 r2 Hab _ IH]; [done|]. cbn. rewrite IH, (same_row_open a b Hab).
    by destruct Hab as (-> & _). }
  rewrite E. destruct (_ && _); [|done]. intros [= <-]. split; [done|].
  apply Forall2_app; [done|]. apply Forall2_same_length_lookup. split; [done|].
  intros i a b Ha Hb. simplify_eq. reflexivity.
Qed.
End same_periods.

(** Rows made from a map, one per key. *)
Section of_map.
Context `{TemporalRowLaws A K V, Countable K} {B : Type}.
Context (f : K * B -> A) (Hkey : forall k b, row_key (f (k, b)) = k) (Hto : forall x, row_to (f x) = None).

Lemma of_map_keys (m : gmap K B) : map row_key (map f (map_to_list m)) = (map_to_list m).*1.
Proof. rewrite map_map. apply list_fmap_ext. intros i [k b] _. apply Hkey. Qed.

Lemma of_map_nodup (m : gmap K B) : NoDup (map row_key (map f (map_to_list m))).
Proof. rewrite of_map_keys. apply NoDup_fst_map_to_list. Qed.

Lemma of_map_open (m : gmap K B) k :
  open_value (map f (map_to_list m)) k = (fun b => row_value (f (k, b))) <$> m !! k.
Proof.
  unfold open_value. destruct (m !! k) as [b|] eqn:Hk.
  - destruct (List.find _ _) as [a|] eqn:E.
    + apply List.find_some in E as [Hin [Ha%bool_decide_eq_true _]%andb_true_iff].
      apply list_elem_of_In, list_elem_of_fmap in Hin as ([k' b'] & -> & Hin).
      rewrite Hkey in Ha. subst k'. apply elem_of_map_to_list in Hin. simplify_eq. done.
    + apply elem_of_map_to_list in Hk. exfalso.
      assert (Hin : In (f (k, b)) (map f (map_to_list m))) by (by apply list_elem_of_In, list_elem_of_fmap_2).
      pose proof (List.find_none _ _ E _ Hin) as Hn. cbv beta in Hn. rewrite Hkey in Hn.
      unfold is_open in Hn. by rewrite !bool_decide_eq_true_2 in Hn.
  - rewrite find_none_intro; [done|]. intros a ([k' b'] & -> & Hin)%list_elem_of_fmap.
    apply elem_of_map_to_list in Hin. rewrite Hkey. rewrite bool_decide_eq_false_2; [done|].
    intros ->. congruence.
Qed.
End of_map.

(** Closing rows and opening those of a map, on a table whose keys all have an open row:
    what the two statements make of the table. *)
Section replace_from_map.
Context `{TemporalRowLaws A K V, Countable K} {B : Type}.
Context (f : K * B -> A) (value : B -> V) (applied_at : Z).
Hypothesis Hkey : forall k b, row_key (f (k, b)) = k.
Hypothesis Hvalue : forall k b, row_value (f (k, b)) = value b.
Hypothesis Hfrom : forall x, row_from (f x) = applied_at.
Hypothesis Hto : forall x, row_to (f x) = None.

Lemma replace_from_map keys (P : gmap K B) rows r1 r2 : timeline rows -> alive rows ->
  (forall k, is_Some (open_value rows k) -> keys k = true <-> is_Some (P !! k)) ->
  close_rows keys applied_at rows = Some r1 ->
  open_rows (map f (map_to_list P)) r1 = Some r2 ->
  timeline r2 /\ alive r2 /\
  (forall k t, as_of r2 k t = if applied_at <=? t
     then match P !! k with Some b => Some (value b) | None => as_of rows k t end
     else as_of rows k t) /\
  (forall k, open_value r2 k
     = match P !! k with Some b => Some (value b) | None => open_value rows k end).
Proof.
  intros Ht Hal HP Hc Ho.
  assert (Hnew : forall k, open_value (map f (map_to_list P)) k = value <$> P !! k).
  { intros k. rewrite (of_map_open f Hkey Hto). by destruct (P !! k); cbn; rewrite ?Hvalue. }
  assert (Hf : fresh_rows applied_at (map f (map_to_list P))).
  { apply Forall_forall. intros a (x & -> & _)%list_elem_of_fmap. auto. }
  destruct (replace_rows keys applied_at _ rows r1 r2 Ht Hf) as (Ht2 & Has & Hop); [| |done|done|].
  - eapply alive_settled; [done|done|exact Hc|]. intros k HPk Hopen. apply HP; [done|].
    rewrite Hnew, fmap_is_Some in HPk. done.
  - intros k Hk Hopen. rewrite Hnew, fmap_is_Some. by apply HP.
  - assert (Hop' : forall k, open_value r2 k
      = match P !! k with Some b => Some (value b) | None => open_value rows k end).
    { intros k. rewrite Hop, Hnew. by destruct (P !! k). }
    split; [done|]. split; [by eapply replace_alive|]. split; [|done].
    intros k t. rewrite Has, Hnew. by destruct (P !! k).
Qed.
End replace_from_map.
