(* ===== verification/Catalog.v ===== *)
(** The catalog tables of [src/src/makolet/adapters/persistence/schema.py] that an apply
    reads and writes: the staged rows of a file, stores and retailer items, and the current
    and historical prices and availability.

    As in [Database.v], a surrogate id whose row has a unique natural key is represented by
    that key.  Amounts of the [MONEY] columns are integers of their smallest unit, times are
    instants in microseconds.  The columns the catalog matching fills
    ([canonical_product_id], [query_retailer_id]) are not here. *)
From S2P Require Import Prelude Errors Effects Enums PyNumbers Models AppModels Temporal.

(** ** Keys *)

Abbreviation portal_key := (pystr * pystr)%type.
(** Subchain and store code, within a portal. *)
Abbreviation store_key := (portal_key * (pystr * pystr))%type.
Abbreviation item_key := (portal_key * pystr)%type.
Abbreviation price_key := (item_key * store_key)%type.

(** ** Stores and items *)

Record StoreDetails := {
  sd_chain_code : pystr;
  sd_audit_number : option pystr;
  sd_store_type : option pystr;
  sd_chain_name : option pystr;
  sd_subchain_name : option pystr;
  sd_name : pystr;
  sd_address : option pystr;
  sd_city : option pystr;
  sd_postal_code : option pystr
}.
#[export] Instance StoreDetails_eq_dec : EqDecision StoreDetails.
Proof. solve_decision. Defined.

Record StoreRow := {
  st_details : StoreDetails;
  st_is_active : bool;
  st_first_seen_at : Z;
  st_last_seen_at : Z;
  st_source_file : uuid
}.

Record ItemDetails := {
  id_gtin : option pystr;
  id_item_type : option Z;
  id_name : pystr;
  id_manufacturer : option pystr * option pystr * option pystr;
  id_unit_quantity : option pystr;
  id_quantity : option Z;
  id_unit_of_measure : option pystr;
  id_is_weighted : option bool;
  id_quantity_in_package : option Z
}.

Record ItemRow := {
  it_details : ItemDetails;
  it_first_seen_at : Z;
  it_last_seen_at : Z;
  it_source_file : uuid
}.

(** ** Prices and availability *)

(** The columns a price change is recognized by. *)
Record PriceValue := {
  pv_item_price : Z;
  pv_unit_of_measure_price : option Z;
  pv_allow_discount : option bool
}.
#[export] Instance PriceValue_eq_dec : EqDecision PriceValue.
Proof. solve_decision. Defined.

Record PriceEvidence := {
  pe_source_updated_at : option Z;
  pe_last_sale_at : option Z;
  pe_audit_number : option pystr
}.

Record CurrentPrice := {
  cp_value : PriceValue;
  cp_evidence : PriceEvidence;
  cp_source_file : uuid;
  cp_first_observed_at : Z;
  cp_last_observed_at : Z
}.
Record PriceHistory := {
  ph_key : price_key;
  ph_value : PriceValue;
  ph_evidence : PriceEvidence;
  ph_source_file : uuid;
  ph_valid_from : Z;
  ph_valid_to : option Z
}.

Record AvailabilityValue := { av_is_available : bool; av_item_status : option Z }.
#[export] Instance AvailabilityValue_eq_dec : EqDecision AvailabilityValue.
Proof. solve_decision. Defined.

Record CurrentAvailability := {
  ca_value : AvailabilityValue;
  ca_source_file : uuid;
  ca_first_observed_at : Z;
  ca_last_observed_at : Z
}.
Record AvailabilityHistory := {
  ah_key : price_key;
  ah_value : AvailabilityValue;
  ah_source_file : uuid;
  ah_valid_from : Z;
  ah_valid_to : option Z
}.

#[export] Instance price_history_row : TemporalRow PriceHistory price_key PriceValue := {|
  row_key := ph_key; row_value := ph_value; row_from := ph_valid_from; row_to := ph_valid_to;
  close_at t a := {| ph_key := ph_key a; ph_value := ph_value a; ph_evidence := ph_evidence a;
    ph_source_file := ph_source_file a; ph_valid_from := ph_valid_from a; ph_valid_to := Some t |} |}.
#[export] Instance price_history_laws : TemporalRowLaws PriceHistory price_key PriceValue.
Proof. by split. Qed.
#[export] Instance availability_history_row :
    TemporalRow AvailabilityHistory price_key AvailabilityValue := {|
  row_key := ah_key; row_value := ah_value; row_from := ah_valid_from; row_to := ah_valid_to;
  close_at t a := {| ah_key := ah_key a; ah_value := ah_value a; ah_source_file := ah_source_file a;
    ah_valid_from := ah_valid_from a; ah_valid_to := Some t |} |}.
#[export] Instance availability_history_laws :
    TemporalRowLaws AvailabilityHistory price_key AvailabilityValue.
Proof. by split. Qed.

(** ** Staged rows *)

Record StagedDocument := {
  sdoc_metadata_index : Z;
  sdoc_document_type : DocumentType;
  sdoc_chain_id : option pystr;
  sdoc_subchain_id : option pystr;
  sdoc_store_id : option pystr;
  sdoc_audit_number : option pystr;
  sdoc_source_updated_at : option Z
}.
Record StagedStore := {
  ss_record_index : Z;
  ss_subchain_id : pystr;
  ss_source_store_id : pystr;
  ss_details : StoreDetails
}.
Record StagedPrice := {
  sp_record_index : Z;
  sp_chain_id : pystr;
  sp_subchain_id : pystr;
  sp_source_store_id : pystr;
  sp_source_item_code : pystr;
  sp_details : ItemDetails;
  sp_value : PriceValue;
  sp_item_status : option Z;
  sp_evidence : PriceEvidence
}.

(** ** The tables *)

Record Catalog := {
  staged_documents : gmap uuid (list StagedDocument);
  staged_stores : gmap uuid (list StagedStore);
  staged_prices : gmap uuid (list StagedPrice);
  stores : gmap store_key StoreRow;
  store_aliases : gmap (portal_key * pystr) store_key;
  retailer_items : gmap item_key ItemRow;
  current_prices : gmap price_key CurrentPrice;
  price_history : list PriceHistory;
  current_availability : gmap price_key CurrentAvailability;
  availability_history : list AvailabilityHistory
}.

Definition set_stores f (c : Catalog) : Catalog := {|
  staged_documents := staged_documents c; staged_stores := staged_stores c; staged_prices :=
  staged_prices c; stores := f (stores c); store_aliases := store_aliases c; retailer_items
  := retailer_items c; current_prices := current_prices c; price_history := price_history c;
  current_availability := current_availability c; availability_history :=
  availability_history c |}.
Definition set_store_aliases f (c : Catalog) : Catalog := {|
  staged_documents := staged_documents c; staged_stores := staged_stores c; staged_prices :=
  staged_prices c; stores := stores c; store_aliases := f (store_aliases c); retailer_items
  := retailer_items c; current_prices := current_prices c; price_history := price_history c;
  current_availability := current_availability c; availability_history :=
  availability_history c |}.
Definition set_retailer_items f (c : Catalog) : Catalog := {|
  staged_documents := staged_documents c; staged_stores := staged_stores c; staged_prices :=
  staged_prices c; stores := stores c; store_aliases := store_aliases c; retailer_items := f
  (retailer_items c); current_prices := current_prices c; price_history := price_history c;
  current_availability := current_availability c; availability_history :=
  availability_history c |}.
Definition set_current_prices f (c : Catalog) : Catalog := {|
  staged_documents := staged_documents c; staged_stores := staged_stores c; staged_prices :=
  staged_prices c; stores := stores c; store_aliases := store_aliases c; retailer_items :=
  retailer_items c; current_prices := f (current_prices c); price_history := price_history
  c; current_availability := current_availability c; availability_history :=
  availability_history c |}.
Definition set_price_history f (c : Catalog) : Catalog := {|
  staged_documents := staged_documents c; staged_stores := staged_stores c; staged_prices :=
  staged_prices c; stores := stores c; store_aliases := store_aliases c; retailer_items :=
  retailer_items c; current_prices := current_prices c; price_history := f (price_history
  c); current_availability := current_availability c; availability_history :=
  availability_history c |}.
Definition set_current_availability f (c : Catalog) : Catalog := {|
  staged_documents := staged_documents c; staged_stores := staged_stores c; staged_prices :=
  staged_prices c; stores := stores c; store_aliases := store_aliases c; retailer_items :=
  retailer_items c; current_prices := current_prices c; price_history := price_history c;
  current_availability := f (current_availability c); availability_history :=
  availability_history c |}.
Definition set_availability_history f (c : Catalog) : Catalog := {|
  staged_documents := staged_documents c; staged_stores := staged_stores c; staged_prices :=
  staged_prices c; stores := stores c; store_aliases := store_aliases c; retailer_items :=
  retailer_items c; current_prices := current_prices c; price_history := price_history c;
  current_availability := current_availability c; availability_history := f
  (availability_history c) |}.

(** The staged rows of a file. *)
Definition staged {A} (table : gmap uuid (list A)) (source_file : uuid) : list A :=
  default [] (table !! source_file).

(** ** Statements *)

(** [SELECT DISTINCT ON (key) ... ORDER BY key, record_index DESC]: the last row of a key. *)
Definition latest `{Countable K} {A} (key : A -> K) (index : A -> Z) (rows : list A) : gmap K A :=
  foldl (fun m r => match m !! key r with
                    | Some r' => if index r' <? index r then <[ key r := r ]> m else m
                    | None => <[ key r := r ]> m
                    end) ∅ rows.

(** [INSERT ... ON CONFLICT (key) DO UPDATE], one source row per key. *)
Definition upserted `{Countable K} {A B} (insert : B -> A) (update : B -> A -> A)
    (incoming : gmap K B) (table : gmap K A) : gmap K A :=
  merge (fun ob oa => match ob, oa with
                      | None, _ => oa
                      | Some b, None => Some (insert b)
                      | Some b, Some a => Some (update b a)
                      end) incoming table.

(** A statement whose constraints fail raises [IntegrityError]. *)
Definition write {W T} (get : W -> T) (set : (T -> T) -> W -> W) (statement : T -> option T)
    : M W unit :=
  t ← gets get;
  match statement t with
  | Some t' => modify (set (fun _ => t'))
  | None => raise integrity_error
  end.

(** The check that an observation or a sighting is not older than the first one. *)
Definition checked_upsert `{Countable K} {A B} (first_at : A -> Z) (applied_at : Z)
    (insert : B -> A) (update : B -> A -> A) (incoming : gmap K B) (table : gmap K A)
    : option (gmap K A) :=
  if bool_decide (map_Forall (fun k a => incoming !! k = None \/ first_at a <= applied_at) table)
  then Some (upserted insert update incoming table) else None.

(** [count( * )] of a table. *)
Definition count `{Countable K} {A} (P : K -> A -> bool) (m : gmap K A) : Z :=
  Z.of_nat (size (filter (fun '(k, a) => P k a = true) m)).
