(* ===== verification/Prices.v ===== *)
(** Applying a price file: [_apply_prices] and the statements it runs, of
    [src/src/makolet/adapters/persistence/ingestion.py].

    [collate] is the order of the database's text collation.  Where a [DISTINCT ON] leaves
    the choice of a row to the server, the model takes one of them. *)
From S2P Require Import Prelude Errors Effects Enums PyNumbers Models AppModels Temporal Catalog.

(** [_validate_drop]. *)
Definition validate_drop {W} (incoming_count prior_count : Z) (maximum_drop_fraction : float64)
    : M W unit :=
  if (prior_count <=? 0) || (prior_count <=? incoming_count) then mret tt
  else raise_if (float_ltb maximum_drop_fraction
                   (py_truediv (prior_count - incoming_count) prior_count))
         (PyExn SnapshotValidationError).

(** [_validate_full_snapshot]. *)
Definition validate_full_snapshot {W} (incoming_count prior_count minimum_full_records : Z)
    (maximum_drop_fraction : float64) : M W unit :=
  raise_if (incoming_count <? minimum_full_records) (PyExn SnapshotValidationError);;
  validate_drop incoming_count prior_count maximum_drop_fraction.

Section prices.
Variable collate : pystr -> pystr -> bool.
Variable portal : portal_key.
Variable source_file : uuid.
Variable applied_at : Z.

Definition store_of (subchain code : pystr) : store_key := (portal, (subchain, code)).
Definition price_key_of (r : StagedPrice) : price_key :=
  ((portal, sp_source_item_code r), store_of (sp_subchain_id r) (sp_source_store_id r)).

(** [_PRICE_INCOMING]. *)
Definition price_incoming (c : Catalog) : gmap price_key StagedPrice :=
  latest price_key_of sp_record_index (staged (staged_prices c) source_file).

(** ** Validation *)

(** The [scopes] of a full snapshot, with the rows that came in for each: the stores of the
    rows, and the stores of the documents without rows. *)
Definition document_stores (c : Catalog) : gset store_key :=
  list_to_set (omap (fun d => match sdoc_store_id d with
                              | Some code => Some (store_of (default [] (sdoc_subchain_id d)) code)
                              | None => None
                              end) (staged (staged_documents c) source_file)).
Definition incoming_stores (incoming : gmap price_key StagedPrice) : gset store_key :=
  set_map snd (dom incoming).
Definition snapshot_scopes (c : Catalog) (incoming : gmap price_key StagedPrice)
    : list (store_key * Z) :=
  map (fun s => (s, count (fun k _ => bool_decide (k.2 = s)) incoming))
    (elements (incoming_stores incoming ∪ document_stores c)).

Definition prior_available (c : Catalog) (s : store_key) : Z :=
  count (fun k a => bool_decide (k.2 = s) && bool_decide (is_Some (stores c !! s))
                    && av_is_available (ca_value a)) (current_availability c).

Definition validate_full_price_snapshot (minimum_full_records : Z)
    (maximum_drop_fraction : float64) : M Catalog unit :=
  c ← get_state;
  let rows := snapshot_scopes c (price_incoming c) in
  raise_if (zsum (map snd rows) <? minimum_full_records) (PyExn SnapshotValidationError);;
  for_each (fun '(s, incoming_count) =>
    raise_if ((prior_available c s =? 0) && (incoming_count <? minimum_full_records))
      (PyExn SnapshotValidationError);;
    validate_drop incoming_count (prior_available c s) maximum_drop_fraction) rows.

(** ** Stores and items *)

(** [distinct_stores]: one row of each store. *)
Definition distinct_stores (incoming : gmap price_key StagedPrice) : gmap store_key StagedPrice :=
  map_fold (fun k r m => <[ k.2 := r ]> m) ∅ incoming.

(** ['Store ' || source_store_id]. *)
Definition default_store_name (code : pystr) : pystr := py "Store " ++ code.

Definition default_details (chain code : pystr) : StoreDetails := {|
  sd_chain_code := chain; sd_audit_number := None; sd_store_type := None; sd_chain_name := None;
  sd_subchain_name := None; sd_name := default_store_name code; sd_address := None;
  sd_city := None; sd_postal_code := None |}.
Definition with_chain (chain : pystr) (d : StoreDetails) : StoreDetails := {|
  sd_chain_code := chain; sd_audit_number := sd_audit_number d; sd_store_type := sd_store_type d;
  sd_chain_name := sd_chain_name d; sd_subchain_name := sd_subchain_name d; sd_name := sd_name d;
  sd_address := sd_address d; sd_city := sd_city d; sd_postal_code := sd_postal_code d |}.

Definition upsert_price_stores : M Catalog unit :=
  c ← get_state;
  write stores set_stores (checked_upsert st_first_seen_at applied_at
    (fun r => {| st_details := default_details (sp_chain_id r) (sp_source_store_id r);
                 st_is_active := true; st_first_seen_at := applied_at;
                 st_last_seen_at := applied_at; st_source_file := source_file |})
    (fun r old => {| st_details := with_chain (sp_chain_id r) (st_details old);
                     st_is_active := true; st_first_seen_at := st_first_seen_at old;
                     st_last_seen_at := applied_at; st_source_file := source_file |})
    (distinct_stores (price_incoming c))).

(** [distinct_items]: the row of each item's first store. *)
Definition distinct_items (incoming : gmap price_key StagedPrice) : gmap item_key StagedPrice :=
  map_fold (fun k r m =>
    match m !! k.1 with
    | Some r' => if collate (sp_source_store_id r') (sp_source_store_id r) then m
                 else <[ k.1 := r ]> m
    | None => <[ k.1 := r ]> m
    end) ∅ incoming.

Definition upsert_retailer_items : M Catalog unit :=
  c ← get_state;
  write retailer_items set_retailer_items (checked_upsert it_first_seen_at applied_at
    (fun r => {| it_details := sp_details r; it_first_seen_at := applied_at;
                 it_last_seen_at := applied_at; it_source_file := source_file |})
    (fun r old => {| it_details := sp_details r; it_first_seen_at := it_first_seen_at old;
                     it_last_seen_at := applied_at; it_source_file := source_file |})
    (distinct_items (price_incoming c))).

(** [_MAPPED_PRICE_INCOMING]: the rows whose item and store exist. *)
Definition mapped_price_incoming (c : Catalog) : gmap price_key StagedPrice :=
  filter (fun '(k, _) => is_Some (retailer_items c !! k.1) /\ is_Some (stores c !! k.2))
    (price_incoming c).

(** ** Prices *)

Section mapped.
Variable mapped : gmap price_key StagedPrice.

Definition price_changed (current : gmap price_key CurrentPrice) (k : price_key) : bool :=
  match mapped !! k, current !! k with
  | Some r, Some c => negb (bool_decide (cp_value c = sp_value r))
  | _, _ => false
  end.

(** The rows without a current price, or with another one. *)
Definition new_prices (current : gmap price_key CurrentPrice) : list PriceHistory :=
  map (fun '(k, r) => {| ph_key := k; ph_value := sp_value r; ph_evidence := sp_evidence r;
                         ph_source_file := source_file; ph_valid_from := applied_at;
                         ph_valid_to := None |})
    (map_to_list (filter (fun '(k, _) => current !! k = None \/ price_changed current k = true) mapped)).

Definition upsert_current_prices : M Catalog unit :=
  write current_prices set_current_prices (checked_upsert cp_first_observed_at applied_at
    (fun r => {| cp_value := sp_value r; cp_evidence := sp_evidence r;
                 cp_source_file := source_file; cp_first_observed_at := applied_at;
                 cp_last_observed_at := applied_at |})
    (fun r old => {| cp_value := sp_value r; cp_evidence := sp_evidence r;
                     cp_source_file := source_file;
                     cp_first_observed_at := cp_first_observed_at old;
                     cp_last_observed_at := applied_at |})
    mapped).

(** The price statements of [_apply_prices]; the number of history rows they insert. *)
Definition write_current_prices : M Catalog Z :=
  current ← gets current_prices;
  write price_history set_price_history (close_rows (price_changed current) applied_at);;
  write price_history set_price_history (open_rows (new_prices current));;
  upsert_current_prices;;
  mret (py_len (new_prices current)).

(** ** Availability *)

(** [COALESCE(incoming.item_status <> 0, true)], with the status. *)
Definition incoming_availability (r : StagedPrice) : AvailabilityValue := {|
  av_is_available := match sp_item_status r with Some s => negb (s =? 0) | None => true end;
  av_item_status := sp_item_status r |}.

Definition availability_changed (current : gmap price_key CurrentAvailability) (k : price_key)
    : bool :=
  match mapped !! k, current !! k with
  | Some r, Some c => negb (bool_decide (ca_value c = incoming_availability r))
  | _, _ => false
  end.

Definition availability_row (k : price_key) (v : AvailabilityValue) : AvailabilityHistory := {|
  ah_key := k; ah_value := v; ah_source_file := source_file; ah_valid_from := applied_at;
  ah_valid_to := None |}.

Definition new_availability (current : gmap price_key CurrentAvailability)
    : list AvailabilityHistory :=
  map (fun '(k, r) => availability_row k (incoming_availability r))
    (map_to_list (filter (fun '(k, _) =>
       current !! k = None \/ availability_changed current k = true) mapped)).

(** The rows that are not available, and were or have no row. *)
Definition newly_unavailable (current : gmap price_key CurrentAvailability) : Z :=
  count (fun k r => negb (av_is_available (incoming_availability r))
                    && match current !! k with
                       | Some c => av_is_available (ca_value c) | None => true end) mapped.

Definition apply_incoming_availability : M Catalog (Z * Z) :=
  current ← gets current_availability;
  let history_events := py_len (new_availability current) in
  let unavailable := newly_unavailable current in
  write availability_history set_availability_history
    (close_rows (availability_changed current) applied_at);;
  write availability_history set_availability_history (open_rows (new_availability current));;
  write current_availability set_current_availability (checked_upsert ca_first_observed_at applied_at
    (fun r => {| ca_value := incoming_availability r; ca_source_file := source_file;
                 ca_first_observed_at := applied_at; ca_last_observed_at := applied_at |})
    (fun r old => {| ca_value := incoming_availability r; ca_source_file := source_file;
                     ca_first_observed_at := ca_first_observed_at old;
                     ca_last_observed_at := applied_at |})
    mapped);;
  mret (history_events, unavailable).

(** ** Absent prices *)

Definition absent_value : AvailabilityValue := {| av_is_available := false; av_item_status := None |}.

(** [_MISSING_PRICE_KEYS_SELECT]: the available keys of the stores the file speaks for that
    are not in it. *)
Definition missing_price_keys (c : Catalog) : gmap price_key CurrentAvailability :=
  filter (fun '(k, a) =>
      (k.2 ∈ incoming_stores mapped \/ (k.2 ∈ document_stores c /\ is_Some (stores c !! k.2)))
      /\ av_is_available (ca_value a) = true /\ mapped !! k = None)
    (current_availability c).

Definition reconcile_absent_prices : M Catalog Z :=
  c ← get_state;
  let missing := missing_price_keys c in
  let new := map (fun '(k, _) => availability_row k absent_value) (map_to_list missing) in
  write availability_history set_availability_history
    (close_rows (fun k => bool_decide (is_Some (missing !! k))) applied_at);;
  write availability_history set_availability_history (open_rows new);;
  write current_availability set_current_availability (checked_upsert ca_first_observed_at applied_at
    (fun a => a)
    (fun _ old => {| ca_value := absent_value; ca_source_file := source_file;
                     ca_first_observed_at := ca_first_observed_at old;
                     ca_last_observed_at := applied_at |})
    missing);;
  mret (py_len new).

(** From the counts of [_apply_prices] on. *)
Definition write_prices (is_full : bool) : M Catalog ApplySummary :=
  current ← gets current_prices;
  let inserted := count (fun k _ => bool_decide (current !! k = None)) mapped in
  let updated := count (fun k _ => price_changed current k) mapped in
  let unchanged := count (fun k _ => bool_decide (is_Some (current !! k))
                                     && negb (price_changed current k)) mapped in
  price_history_created ← write_current_prices;
  availability ← apply_incoming_availability;
  absent ← if is_full then reconcile_absent_prices else mret 0;
  mret {| inserted := inserted; updated := updated; unchanged := unchanged;
          unavailable := availability.2 + absent;
          history_events := price_history_created + availability.1 + absent |}.
End mapped.

(** [_apply_prices].  The exact GTIN matching works on the catalog-matching tables [X]. *)
Definition prepare_prices (is_full : bool) (minimum_full_records : Z)
    (maximum_drop_fraction : float64) : M Catalog (gmap price_key StagedPrice) :=
  when is_full (validate_full_price_snapshot minimum_full_records maximum_drop_fraction);;
  upsert_price_stores;;
  upsert_retailer_items;;
  gets mapped_price_incoming.

Definition apply_prices {X} (match_exact_gtins : Catalog -> M X unit) (is_full : bool)
    (minimum_full_records : Z) (maximum_drop_fraction : float64) : M (Catalog * X) ApplySummary :=
  mapped ← lift (prepare_prices is_full minimum_full_records maximum_drop_fraction);
  c ← gets fst;
  on_locals (match_exact_gtins c);;
  lift (write_prices mapped is_full).
End prices.
