(* ===== verification/PricesFacts.v ===== *)
(** What applying a price file does to the price and availability timelines. *)
From S2P Require Import Prelude Errors Effects Enums PyNumbers Models AppModels Temporal Catalog Prices.

(** ** The consistency of current and historical rows *)

(** The current rows are the open rows of a well-formed history. *)
Record histories_ok (c : Catalog) : Prop := {
  ho_prices : timeline (price_history c);
  ho_prices_alive : alive (price_history c);
  ho_current_prices : forall k, cp_value <$> current_prices c !! k = open_value (price_history c) k;
  ho_availability : timeline (availability_history c);
  ho_availability_alive : alive (availability_history c);
  ho_current_availability : forall k,
    ca_value <$> current_availability c !! k = open_value (availability_history c) k
}.

(** ** Statements *)

Lemma wp_write {W T} (get : W -> T) set statement (Q : unit -> W -> Prop) E w :
  (statement (get w) = None -> E integrity_error w) ->
  (forall t, statement (get w) = Some t -> Q tt (set (fun _ => t) w)) ->
  wp (write get set statement) Q E w.
Proof.
  intros HE HQ. unfold write. wp_step. wp_step. destruct (statement (get w)) as [t|] eqn:Es.
  - wp_step. auto.
  - wp_step. auto.
Qed.

Section upsert.
Context `{Countable K} {A B : Type}.

Lemma upserted_lookup (ins : B -> A) upd (incoming : gmap K B) (table : gmap K A) k :
  upserted ins upd incoming table !! k = match incoming !! k, table !! k with
    | None, o => o | Some b, None => Some (ins b) | Some b, Some a => Some (upd b a) end.
Proof. unfold upserted. rewrite lookup_merge. by destruct (incoming !! k), (table !! k). Qed.

Lemma checked_upsert_some (first_at : A -> Z) T (ins : B -> A) upd (incoming : gmap K B)
    (table t' : gmap K A) :
  checked_upsert first_at T ins upd incoming table = Some t' ->
  t' = upserted ins upd incoming table.
Proof. unfold checked_upsert. case_bool_decide; [by intros [= <-]|done]. Qed.

(** [latest] is the last row of each key that has one. *)
Definition is_latest (key : B -> K) (index : B -> Z) (rows : list B) (m : gmap K B) : Prop :=
  forall k, match m !! k with
            | Some r => r ∈ rows /\ key r = k /\
                        forall r', r' ∈ rows -> key r' = k -> index r' <= index r
            | None => forall r', r' ∈ rows -> key r' <> k
            end.

Lemma latest_step (key : B -> K) (index : B -> Z) rows m x : is_latest key index rows m ->
  is_latest key index (rows ++ [x]) match m !! key x with
    | Some r' => if index r' <? index x then <[ key x := x ]> m else m
    | None => <[ key x := x ]> m
    end.
Proof.
  intros Hm k. assert (Hin : forall r', r' ∈ rows ++ [x] <-> r' ∈ rows \/ r' = x) by (intros; set_solver).
  pose proof (Hm k) as Hk. destruct (decide (key x = k)) as [<-|Hne].
  - destruct (m !! key x) as [y|] eqn:Hy; [destruct Hk as (Hyr & Hyk & Hmax);
      destruct (Z.ltb_spec (index y) (index x))|]; rewrite ?lookup_insert_eq.
    + split_and!; [rewrite Hin; auto|done|]. intros r' [Hr'| ->]%Hin Hk'; [|done]. specialize (Hmax r' Hr' Hk'). lia.
    + rewrite Hy. split_and!; [rewrite Hin; auto|done|]. intros r' [Hr'| ->]%Hin Hk'; auto.
    + split_and!; [rewrite Hin; auto|done|]. intros r' [Hr'| ->]%Hin Hk'; [by apply Hk in Hr'|done].
  - assert (E : match m !! key x with
      | Some r' => if index r' <? index x then <[ key x := x ]> m else m
      | None => <[ key x := x ]> m end !! k = m !! k).
    { destruct (m !! key x) as [y|]; [destruct (index y <? index x)|];
        rewrite ?lookup_insert_ne by done; reflexivity. }
    rewrite E. destruct (m !! k) as [r|].
    + destruct Hk as (Hr & Hrk & Hmax). split_and!; [rewrite Hin; auto|done|].
      intros r' [Hr'| ->]%Hin Hk'; [auto|congruence].
    + intros r' [Hr'| ->]%Hin; [auto|congruence].
Qed.

Lemma latest_spec (key : B -> K) (index : B -> Z) rows : is_latest key index rows (latest key index rows).
Proof.
  unfold latest. induction rows as [|x rows IH] using rev_ind.
  - intros k. cbn [foldl]. rewrite lookup_empty. intros r' Hr'. by apply elem_of_nil in Hr'.
  - rewrite foldl_snoc. by apply latest_step.
Qed.
End upsert.

(** The value of a key over time once [incoming] holds from [applied_at] on; a value that
    already holds is left alone. *)
Definition updated_at `{EqDecision V} (applied_at : Z) (incoming open : option V)
    (old : Z -> option V) (t : Z) : option V :=
  if applied_at <=? t then
    match incoming with
    | Some v => if bool_decide (open = Some v) then old t else Some v
    | None => old t
    end
  else old t.

(** The tables of current and historical rows, and the staged rows, are as before. *)
Definition same_observations (c c' : Catalog) : Prop :=
  price_history c' = price_history c /\ current_prices c' = current_prices c /\
  availability_history c' = availability_history c /\
  current_availability c' = current_availability c /\
  staged_prices c' = staged_prices c /\ staged_documents c' = staged_documents c.

Lemma count_msum `{Countable K} {A} (P : K -> A -> bool) (m : gmap K A) :
  count P m = msum (fun k a => if P k a then 1 else 0) m.
Proof.
  unfold count. induction m as [|k a m Hk IH] using map_ind; [by rewrite map_filter_empty, msum_empty|].
  rewrite msum_fresh by done. destruct (P k a) eqn:HP.
  - rewrite map_filter_insert_True by done. rewrite map_size_insert_None; [lia|].
    rewrite map_lookup_filter_None. by left.
  - rewrite map_filter_insert_False by congruence. rewrite delete_id by done. lia.
Qed.

Lemma size_msum `{Countable K} {A} (m : gmap K A) : py_len (map_to_list m) = msum (fun _ _ => 1) m.
Proof.
  unfold py_len. rewrite length_map_to_list.
  induction m as [|k a m Hk IH] using map_ind; [by rewrite map_size_empty, msum_empty|].
  rewrite msum_fresh, map_size_insert_None by done. lia.
Qed.

(** The statements that bring a history and its current rows up to date with incoming rows:
    close what changed, open what is new or changed, upsert the current rows. *)
Section incoming.
Context `{TemporalRowLaws A K V, Countable K, EqDecision V} {B C : Type}.
Context (f : K * B -> A) (val : C -> V) (value : B -> V) (applied_at : Z).
Context (mapped : gmap K B) (current current' : gmap K C) (rows r1 r2 : list A).

Definition changed_key (k : K) : bool :=
  match mapped !! k, current !! k with
  | Some r, Some c => negb (bool_decide (val c = value r))
  | _, _ => false
  end.
Definition new_or_changed : gmap K B :=
  filter (fun '(k, _) => current !! k = None \/ changed_key k = true) mapped.

Lemma new_or_changed_lookup k : (forall k, val <$> current !! k = open_value rows k) ->
  new_or_changed !! k = match mapped !! k with
    | Some r => if bool_decide (open_value rows k = Some (value r)) then None else Some r
    | None => None
    end.
Proof.
  intros Hcur. apply option_eq. intros r. unfold new_or_changed. rewrite map_lookup_filter_Some.
  rewrite <- Hcur. unfold changed_key. destruct (mapped !! k) as [r0|]; [|naive_solver].
  destruct (current !! k) as [cp|]; cbn.
  - destruct (bool_decide_reflect (val cp = value r0)), (bool_decide_reflect (Some (val cp) = Some (value r0)));
      cbn; naive_solver congruence.
  - rewrite bool_decide_eq_false_2 by done. naive_solver.
Qed.

Lemma incoming_rows : timeline rows -> alive rows ->
  (forall k, val <$> current !! k = open_value rows k) ->
  (forall k b, row_key (f (k, b)) = k) -> (forall k b, row_value (f (k, b)) = value b) ->
  (forall x, row_from (f x) = applied_at) -> (forall x, row_to (f x) = None) ->
  (forall k, val <$> current' !! k = match mapped !! k with
     | Some r => Some (value r) | None => val <$> current !! k end) ->
  close_rows changed_key applied_at rows = Some r1 ->
  open_rows (map f (map_to_list new_or_changed)) r1 = Some r2 ->
  timeline r2 /\ alive r2 /\ (forall k, val <$> current' !! k = open_value r2 k) /\
  (forall k t, as_of r2 k t
     = updated_at applied_at (value <$> mapped !! k) (open_value rows k) (as_of rows k) t) /\
  (forall k, open_value r2 k
     = match mapped !! k with Some r => Some (value r) | None => open_value rows k end).
Proof.
  intros Ht Hal Hcur Hk Hv Hf Hto Hcur' Hclose Hopen.
  pose proof (fun k => new_or_changed_lookup k Hcur) as HP.
  destruct (replace_from_map f value applied_at Hk Hv Hf Hto changed_key new_or_changed rows r1 r2)
    as (Ht2 & Hal2 & Has & Hop); try done.
  - intros k [v Ho]. rewrite HP. unfold changed_key. rewrite <- Hcur in Ho |- *.
    destruct (current !! k) as [cp|]; [|done]. destruct (mapped !! k) as [r|]; [|split; [done|by intros []]].
    cbn. case_bool_decide as E1; case_bool_decide as E2; cbn; split; try done; try congruence; by eexists.
  - assert (Hopen2 : forall k, open_value r2 k
      = match mapped !! k with Some r => Some (value r) | None => open_value rows k end).
    { intros k. rewrite Hop, HP. destruct (mapped !! k) as [r|]; [|done]. case_bool_decide; done. }
    split_and!; try done.
    + intros k. rewrite Hopen2, Hcur', Hcur. done.
    + intros k t. rewrite Has, HP. unfold updated_at. destruct (applied_at <=? t); [|done].
      destruct (mapped !! k) as [r|]; [|done]. cbn. by case_bool_decide.
Qed.
End incoming.

Section prices.
Context (collate : pystr -> pystr -> bool) (portal : portal_key) (source_file : uuid) (applied_at : Z).

Lemma distinct_stores_some incoming k (r : StagedPrice) : incoming !! k = Some r ->
  is_Some (distinct_stores incoming !! k.2).
Proof.
  unfold distinct_stores. revert k r. apply (map_fold_weak_ind (fun m incoming => forall k r,
    incoming !! k = Some r -> is_Some (m !! k.2))); [done|].
  intros k r m1 m2 _ IH k' r' Hk'. destruct (decide (k.2 = k'.2)) as [->|Hne].
  - rewrite lookup_insert_eq. by eexists.
  - rewrite lookup_insert_ne by done. apply lookup_insert_Some in Hk' as [[<- _]|[_ Hk']]; [done|by eapply IH].
Qed.

Lemma distinct_items_some incoming k (r : StagedPrice) : incoming !! k = Some r ->
  is_Some (distinct_items collate incoming !! k.1).
Proof.
  unfold distinct_items. revert k r. apply (map_fold_weak_ind (fun m incoming => forall k r,
    incoming !! k = Some r -> is_Some (m !! k.1))); [done|].
  intros k r m1 m2 _ IH k' r' Hk'. destruct (decide (k.1 = k'.1)) as [E|Hne].
  - rewrite E. destruct (m2 !! k'.1) eqn:Em; [case_match|]; rewrite ?lookup_insert_eq; by eexists.
  - assert (Hk : is_Some (m2 !! k'.1)).
    { apply lookup_insert_Some in Hk' as [[<- _]|[_ Hk']]; [done|by eapply IH]. }
    destruct (m2 !! k.1); [case_match|]; rewrite ?lookup_insert_ne by done; done.
Qed.

Lemma distinct_stores_inv incoming s : is_Some (distinct_stores incoming !! s) -> s ∈ incoming_stores incoming.
Proof.
  unfold distinct_stores, incoming_stores. revert s. apply (map_fold_weak_ind (fun m incoming => forall s,
    is_Some (m !! s) -> s ∈ (set_map snd (dom incoming) : gset store_key))); [by intros s []|].
  intros k r m1 m2 _ IH s Hs. rewrite dom_insert_L, set_map_union_L, set_map_singleton_L, elem_of_union, elem_of_singleton.
  destruct (decide (k.2 = s)) as [<-|Hne]; [by left|]. rewrite lookup_insert_ne in Hs by done. auto.
Qed.

(** Validation only reads. *)
Lemma validation_reads is_full minimum drop c :
  wp (when is_full (validate_full_price_snapshot portal source_file minimum drop))
    (fun _ c' => c' = c) (fun _ _ => True) c.
Proof.
  destruct is_full; [|done]. cbn [when]. unfold validate_full_price_snapshot. wp_step. wp_step. wp_step.
  wp_step; [done|]. assert (Hloop : forall l, wp (for_each (fun '(s, incoming_count) =>
    raise_if ((prior_available c s =? 0) && (incoming_count <? minimum)) (PyExn SnapshotValidationError);;
    validate_drop incoming_count (prior_available c s) drop) l) (fun _ c' => c' = c) (fun _ _ => True) c).
  { induction l as [|[s n] l IH]; cbn [for_each]; [by wp_step|]. wp_step. wp_step. wp_step; [done|].
    unfold validate_drop. destruct (_ || _); [by wp_step|]. by wp_step. }
  apply Hloop.
Qed.

(** Every row of the file finds its item and its store. *)
Lemma prepare_spec is_full minimum drop c :
  wp (prepare_prices collate portal source_file applied_at is_full minimum drop)
    (fun mapped c' => mapped = price_incoming portal source_file c /\ same_observations c c' /\
       (forall s, is_Some (stores c !! s) -> is_Some (stores c' !! s)) /\
       (forall s, is_Some (stores c' !! s) ->
          is_Some (stores c !! s) \/ s ∈ incoming_stores (price_incoming portal source_file c)))
    (fun _ _ => True) c.
Proof.
  unfold prepare_prices. wp_step. apply (wp_mono _ (fun _ c' => c' = c) _ (fun _ _ => True));
    [by apply validation_reads|cbv beta|done].
  intros _ c' ->. unfold upsert_price_stores, upsert_retailer_items.
  wp_step. wp_step. wp_step. apply wp_write; [done|]. intros stores' Hs%checked_upsert_some.
  wp_step. wp_step. wp_step. apply wp_write; [done|]. intros items' Hi%checked_upsert_some. wp_step.
  split; [|split; [done|split]]; cbn [stores set_retailer_items set_stores].
  2: { intros s [old Hold]. rewrite Hs, upserted_lookup, Hold. by destruct (distinct_stores _ !! s). }
  2: { intros s. rewrite Hs, upserted_lookup. destruct (distinct_stores _ !! s) eqn:E; [|by left].
       intros _. right. apply distinct_stores_inv. by rewrite E. }
  unfold mapped_price_incoming. apply map_filter_id. intros k r Hk.
  assert (Hk0 : price_incoming portal source_file c !! k = Some r) by done. cbn [retailer_items stores set_retailer_items set_stores].
  split.
  - rewrite Hi, upserted_lookup. destruct (distinct_items_some _ _ _ Hk0) as [x Hx].
    change (price_incoming portal source_file (set_stores _ c)) with (price_incoming portal source_file c).
    rewrite Hx. by destruct (retailer_items _ !! _).
  - rewrite Hs, upserted_lookup. destruct (distinct_stores_some _ _ _ Hk0) as [x Hx].
    rewrite Hx. by destruct (stores c !! _).
Qed.

Section mapped.
Context (mapped : gmap price_key StagedPrice).

(** Everything but the price tables, and everything but the availability tables. *)
Definition same_but_prices (c c' : Catalog) : Prop :=
  availability_history c' = availability_history c /\ current_availability c' = current_availability c /\
  stores c' = stores c /\ staged_documents c' = staged_documents c.
Definition same_but_availability (c c' : Catalog) : Prop :=
  price_history c' = price_history c /\ current_prices c' = current_prices c /\
  stores c' = stores c /\ staged_documents c' = staged_documents c.

Lemma write_current_prices_spec c : histories_ok c ->
  wp (write_current_prices source_file applied_at mapped)
    (fun n c' => timeline (price_history c') /\ alive (price_history c') /\
       (forall k, cp_value <$> current_prices c' !! k = open_value (price_history c') k) /\
       (forall k t, as_of (price_history c') k t = updated_at applied_at (sp_value <$> mapped !! k)
          (open_value (price_history c) k) (as_of (price_history c) k) t) /\
       (forall k, open_value (price_history c') k = match mapped !! k with
          | Some r => Some (sp_value r) | None => open_value (price_history c) k end) /\
       py_len (price_history c') = py_len (price_history c) + n /\ same_but_prices c c')
    (fun _ _ => True) c.
Proof.
  intros [Ht Hal Hcur _ _ _]. unfold write_current_prices. wp_step. wp_step.
  wp_step. apply wp_write; [done|]. intros r1 Hclose. wp_step. apply wp_write; [done|]. intros r2 Hopen.
  unfold upsert_current_prices. wp_step. apply wp_write; [done|]. intros cur' Hup%checked_upsert_some. wp_step.
  cbn [price_history set_price_history set_current_prices current_prices] in Hclose, Hopen, Hup |- *.
  assert (Hlen : py_len r2 = py_len (price_history c) + py_len (new_prices source_file applied_at mapped (current_prices c))).
  { apply open_rows_some in Hopen as [-> _]. apply close_rows_some in Hclose as [-> _].
    rewrite py_len_app. unfold py_len. by rewrite length_map. }
  destruct (incoming_rows (fun '(k, r) => {| ph_key := k; ph_value := sp_value r; ph_evidence := sp_evidence r;
      ph_source_file := source_file; ph_valid_from := applied_at; ph_valid_to := None |})
    cp_value sp_value applied_at mapped (current_prices c) cur' (price_history c) r1 r2)
    as (H1 & H2 & H3 & H4 & H5); try done; try (by intros [? ?]); try (by intros ? ?).
  intros k. rewrite Hup, upserted_lookup. by destruct (mapped !! k), (current_prices c !! k).
Qed.

Lemma apply_incoming_availability_spec c : histories_ok c ->
  wp (apply_incoming_availability source_file applied_at mapped)
    (fun n c' => timeline (availability_history c') /\ alive (availability_history c') /\
       (forall k, ca_value <$> current_availability c' !! k = open_value (availability_history c') k) /\
       (forall k t, as_of (availability_history c') k t
          = updated_at applied_at (incoming_availability <$> mapped !! k)
              (open_value (availability_history c) k) (as_of (availability_history c) k) t) /\
       (forall k, open_value (availability_history c') k = match mapped !! k with
          | Some r => Some (incoming_availability r) | None => open_value (availability_history c) k end) /\
       py_len (availability_history c') = py_len (availability_history c) + n.1 /\ same_but_availability c c')
    (fun _ _ => True) c.
Proof.
  intros [_ _ _ Ht Hal Hcur]. unfold apply_incoming_availability. wp_step. wp_step.
  wp_step. apply wp_write; [done|]. intros r1 Hclose. wp_step. apply wp_write; [done|]. intros r2 Hopen.
  wp_step. apply wp_write; [done|]. intros cur' Hup%checked_upsert_some. wp_step.
  cbn [availability_history set_availability_history set_current_availability current_availability] in Hclose, Hopen, Hup |- *.
  assert (Hlen : py_len r2 = py_len (availability_history c)
    + py_len (new_availability source_file applied_at mapped (current_availability c))).
  { apply open_rows_some in Hopen as [-> _]. apply close_rows_some in Hclose as [-> _].
    rewrite py_len_app. unfold py_len. by rewrite length_map. }
  destruct (incoming_rows (fun '(k, r) => availability_row source_file applied_at k (incoming_availability r))
    ca_value incoming_availability applied_at mapped (current_availability c) cur' (availability_history c) r1 r2)
    as (H1 & H2 & H3 & H4 & H5); try done; try (by intros [? ?]); try (by intros ? ?).
  intros k. rewrite Hup, upserted_lookup. by destruct (mapped !! k), (current_availability c !! k).
Qed.

Lemma reconcile_absent_prices_spec c : histories_ok c ->
  let missing := missing_price_keys portal source_file mapped c in
  wp (reconcile_absent_prices portal source_file applied_at mapped)
    (fun n c' => timeline (availability_history c') /\ alive (availability_history c') /\
       (forall k, ca_value <$> current_availability c' !! k = open_value (availability_history c') k) /\
       (forall k t, as_of (availability_history c') k t = if applied_at <=? t
          then match missing !! k with Some _ => Some absent_value | None => as_of (availability_history c) k t end
          else as_of (availability_history c) k t) /\
       (forall k, open_value (availability_history c') k = match missing !! k with
          | Some r => Some absent_value | None => open_value (availability_history c) k end) /\
       py_len (availability_history c') = py_len (availability_history c) + n /\ same_but_availability c c')
    (fun _ _ => True) c.
Proof.
  intros [_ _ _ Ht Hal Hcur] missing. unfold reconcile_absent_prices. wp_step. wp_step. fold missing.
  wp_step. apply wp_write; [done|]. intros r1 Hclose. wp_step. apply wp_write; [done|]. intros r2 Hopen.
  wp_step. apply wp_write; [done|]. intros cur' Hup%checked_upsert_some. wp_step.
  cbn [availability_history set_availability_history set_current_availability current_availability] in Hclose, Hopen, Hup |- *.
  assert (Hlen : py_len r2 = py_len (availability_history c) + py_len (map (fun '(k, _) =>
    availability_row source_file applied_at k absent_value) (map_to_list missing))).
  { apply open_rows_some in Hopen as [-> _]. apply close_rows_some in Hclose as [-> _].
    rewrite py_len_app. unfold py_len. by rewrite length_map. }
  destruct (replace_from_map (fun '(k, _) => availability_row source_file applied_at k absent_value)
    (fun _ : CurrentAvailability => absent_value) applied_at ltac:(done) ltac:(done) ltac:(by intros [? ?])
    ltac:(by intros [? ?]) (fun k => bool_decide (is_Some (missing !! k))) missing
    (availability_history c) r1 r2) as (H1 & H2 & H3 & H4); try done.
  - intros k _. apply bool_decide_eq_true.
  - split; [done|]. split; [done|]. split; [|done]. intros k. rewrite Hup, upserted_lookup, H4, <- Hcur.
    unfold missing, missing_price_keys. destruct (filter _ _ !! k) as [a|] eqn:E; [|done].
    apply map_lookup_filter_Some in E as [E _]. by rewrite E.
Qed.

(** The stores a full file speaks for. *)
Definition in_scope (c : Catalog) (s : store_key) : Prop :=
  s ∈ incoming_stores mapped \/ (s ∈ document_stores portal source_file c /\ is_Some (stores c !! s)).

Lemma missing_spec c k :
  (forall k, ca_value <$> current_availability c !! k = open_value (availability_history c) k) ->
  is_Some (missing_price_keys portal source_file mapped c !! k) <->
  in_scope c k.2 /\ mapped !! k = None /\
  exists v, open_value (availability_history c) k = Some v /\ av_is_available v = true.
Proof.
  intros Hcur. unfold missing_price_keys, in_scope. rewrite <- Hcur. split.
  - intros [a (Ha & Hs & Hav & Hm)%map_lookup_filter_Some]. rewrite Ha. cbn. eauto.
  - intros (Hs & Hm & v & Hv & Hav). destruct (current_availability c !! k) as [a|] eqn:Ha; [|done].
    injection Hv as <-. exists a. apply map_lookup_filter_Some. auto.
Qed.

(** Reconciling after the incoming rows is one update with both. *)
Lemma absent_update (m m2 : gmap price_key CurrentAvailability) k (open : option AvailabilityValue)
    (old : Z -> option AvailabilityValue) (t : Z) (s : Prop) :
  (is_Some (m2 !! k) <-> is_Some (m !! k)) ->
  (is_Some (m !! k) <-> s /\ mapped !! k = None /\
     exists v, open = Some v /\ av_is_available v = true) ->
  (if applied_at <=? t
   then match m2 !! k with
        | Some _ => Some absent_value
        | None => updated_at applied_at (incoming_availability <$> mapped !! k) open old t end
   else updated_at applied_at (incoming_availability <$> mapped !! k) open old t)
  = updated_at applied_at match mapped !! k with
                          | Some r => Some (incoming_availability r)
                          | None => (fun _ => absent_value) <$> m !! k end open old t.
Proof.
  intros H2 Hm. unfold updated_at. destruct (applied_at <=? t); [|done].
  destruct (mapped !! k) as [r|]; cbn.
  - destruct (m2 !! k) as [a|]; [|done]. destruct (proj1 H2) as [b Hb]; [by eexists|].
    destruct (proj1 Hm) as (_ & ? & _); [by eexists|done].
  - destruct (m2 !! k) as [a|], (m !! k) as [b|]; cbn; try done.
    + destruct (proj1 Hm) as (_ & _ & v & -> & Hv); [by eexists|].
      rewrite bool_decide_eq_false_2; [done|]. intros [= ->]. done.
    + destruct (proj1 H2) as [b Hb]; [by eexists|done].
    + destruct (proj2 H2) as [b' Hb]; [by eexists|done].
Qed.

Lemma absent_open (m m2 : gmap price_key CurrentAvailability) k (open : option AvailabilityValue) (s : Prop) :
  (is_Some (m2 !! k) <-> is_Some (m !! k)) ->
  (is_Some (m !! k) <-> s /\ mapped !! k = None /\
     exists v, open = Some v /\ av_is_available v = true) ->
  match m2 !! k with
  | Some _ => Some absent_value
  | None => match mapped !! k with Some r => Some (incoming_availability r) | None => open end
  end
  = match match mapped !! k with
          | Some r => Some (incoming_availability r)
          | None => (fun _ => absent_value) <$> m !! k end with Some v => Some v | None => open end.
Proof.
  intros H2 Hm. destruct (m2 !! k) as [a|], (m !! k) as [b|]; cbn.
  - destruct (proj1 Hm) as (_ & -> & _); [by eexists|done].
  - destruct (proj1 H2) as [? ?]; [by eexists|done].
  - destruct (proj2 H2) as [? ?]; [by eexists|done].
  - by destruct (mapped !! k).
Qed.

Lemma write_prices_spec (is_full : bool) c : histories_ok c ->
  let absent := if is_full then missing_price_keys portal source_file mapped c
                else (∅ : gmap price_key CurrentAvailability) in
  wp (write_prices portal source_file applied_at mapped is_full)
    (fun s c' => histories_ok c' /\ stores c' = stores c /\
       (forall k t, as_of (price_history c') k t = updated_at applied_at (sp_value <$> mapped !! k)
          (open_value (price_history c) k) (as_of (price_history c) k) t) /\
       (forall k, open_value (price_history c') k = match mapped !! k with
          | Some r => Some (sp_value r) | None => open_value (price_history c) k end) /\
       (forall k t, as_of (availability_history c') k t
          = updated_at applied_at match mapped !! k with
                                  | Some r => Some (incoming_availability r)
                                  | None => (fun _ => absent_value) <$> absent !! k end
              (open_value (availability_history c) k) (as_of (availability_history c) k) t) /\
       (forall k, open_value (availability_history c') k
          = match match mapped !! k with
                  | Some r => Some (incoming_availability r)
                  | None => (fun _ => absent_value) <$> absent !! k end with
            | Some v => Some v | None => open_value (availability_history c) k end) /\
       inserted s + updated s + unchanged s = py_len (map_to_list mapped) /\
       history_events s = py_len (price_history c') - py_len (price_history c)
         + (py_len (availability_history c') - py_len (availability_history c)))
    (fun _ _ => True) c.
Proof.
  intros Hok absent. unfold write_prices. wp_step. wp_step. set (current := current_prices c).
  assert (Hcount : count (fun k _ => bool_decide (current !! k = None)) mapped
    + count (fun k _ => price_changed mapped current k) mapped
    + count (fun k _ => bool_decide (is_Some (current !! k)) && negb (price_changed mapped current k)) mapped
    = py_len (map_to_list mapped)).
  { rewrite !count_msum, <- !msum_plus, size_msum. apply msum_ext. intros k r Hr.
    unfold price_changed. rewrite Hr. destruct (current !! k) as [cp|]; cbn; [|done].
    by case_bool_decide. }
  wp_step. eapply wp_mono; [by apply write_current_prices_spec| |done].
  cbv beta. intros n1 c1 (Ht1 & Hal1 & Hcur1 & Has1 & Hop1 & Hlen1 & Ha1 & Hca1 & Hst1 & Hdoc1).
  destruct Hok as [_ _ _ Hta Hala Hcura].
  assert (Hok1 : histories_ok c1) by (split; rewrite ?Ha1, ?Hca1; done).
  wp_step. eapply wp_mono; [by apply apply_incoming_availability_spec| |done].
  cbv beta. intros n2 c2 (Ht2 & Hal2 & Hcur2 & Has2 & Hop2 & Hlen2 & Hp2 & Hcp2 & Hst2 & Hdoc2).
  assert (Hok2 : histories_ok c2) by (split; rewrite ?Hp2, ?Hcp2; done).
  rewrite Ha1 in Has2, Hop2, Hlen2. rewrite <- Hp2 in Has1, Hop1, Hlen1. wp_step.
  assert (Hmiss : forall k, is_Some (missing_price_keys portal source_file mapped c2 !! k)
    <-> is_Some (missing_price_keys portal source_file mapped c !! k)).
  { intros k. rewrite !missing_spec by done. unfold in_scope, document_stores.
    rewrite Hst2, Hst1, Hdoc2, Hdoc1, Hop2. destruct (mapped !! k) as [r|]; naive_solver. }
  destruct is_full.
  - eapply wp_mono; [by apply reconcile_absent_prices_spec| |done].
    cbv beta. intros n3 c3 (Ht3 & Hal3 & Hcur3 & Has3 & Hop3 & Hlen3 & Hp3 & Hcp3 & Hst3 & Hdoc3).
    wp_step. cbn [inserted updated unchanged history_events snd].
    split; [destruct Hok2; by split; rewrite ?Hp3, ?Hcp3|]. split; [congruence|]. rewrite Hp3. split; [done|].
    split; [done|]. split; [|split; [|split; [done|lia]]].
    + intros k t. rewrite Has3, Has2. unfold absent.
      apply (absent_update _ _ _ _ _ _ (in_scope c k.2)); [apply Hmiss|by apply missing_spec].
    + intros k. rewrite Hop3, Hop2. unfold absent.
      apply (absent_open _ _ _ _ (in_scope c k.2)); [apply Hmiss|by apply missing_spec].
  - wp_step. wp_step. cbn [inserted updated unchanged history_events snd].
    split; [done|]. split; [congruence|]. split; [done|]. split; [done|].
    unfold absent. split; [|split; [|split; [done|lia]]]; intros k; rewrite lookup_empty;
      [intros t; rewrite Has2|rewrite Hop2]; by destruct (mapped !! k).
Qed.
End mapped.

(** ** The whole file *)

(** The keys a file makes unavailable: those of its scopes that were available and are not
    in it, when it is a full snapshot. *)
Definition absent_keys (is_full : bool) (c : Catalog) : gmap price_key CurrentAvailability :=
  if is_full then missing_price_keys portal source_file (price_incoming portal source_file c) c else ∅.

(** The availability the file claims for a key. *)
Definition claimed_availability (is_full : bool) (c : Catalog) (k : price_key) : option AvailabilityValue :=
  match price_incoming portal source_file c !! k with
  | Some r => Some (incoming_availability r)
  | None => (fun _ => absent_value) <$> absent_keys is_full c !! k
  end.

Lemma histories_ok_same c c' : same_observations c c' -> histories_ok c -> histories_ok c'.
Proof. intros (Hp & Hcp & Ha & Hca & _) [? ? ? ? ? ?]. by split; rewrite ?Hp, ?Hcp, ?Ha, ?Hca. Qed.

Lemma absent_keys_same (is_full : bool) c c' : same_observations c c' ->
  (forall s, is_Some (stores c !! s) -> is_Some (stores c' !! s)) ->
  (forall s, is_Some (stores c' !! s) ->
     is_Some (stores c !! s) \/ s ∈ incoming_stores (price_incoming portal source_file c)) ->
  (if is_full then missing_price_keys portal source_file (price_incoming portal source_file c) c'
   else (∅ : gmap price_key CurrentAvailability)) = absent_keys is_full c.
Proof.
  intros (_ & _ & _ & Hca & _ & Hdoc) H1 H2. unfold absent_keys. destruct is_full; [|done].
  unfold missing_price_keys, document_stores. rewrite Hca, Hdoc. apply map_filter_ext.
  intros k a _. naive_solver.
Qed.

Lemma apply_prices_spec {X} (match_exact : Catalog -> M X unit) is_full minimum drop c x : histories_ok c ->
  wp (apply_prices collate portal source_file applied_at match_exact is_full minimum drop)
    (fun s p => histories_ok p.1 /\
       (forall k t, as_of (price_history p.1) k t
          = updated_at applied_at (sp_value <$> price_incoming portal source_file c !! k)
              (open_value (price_history c) k) (as_of (price_history c) k) t) /\
       (forall k, open_value (price_history p.1) k = match price_incoming portal source_file c !! k with
          | Some r => Some (sp_value r) | None => open_value (price_history c) k end) /\
       (forall k t, as_of (availability_history p.1) k t
          = updated_at applied_at (claimed_availability is_full c k)
              (open_value (availability_history c) k) (as_of (availability_history c) k) t) /\
       (forall k, open_value (availability_history p.1) k = match claimed_availability is_full c k with
          | Some v => Some v | None => open_value (availability_history c) k end) /\
       inserted s + updated s + unchanged s
         = py_len (map_to_list (price_incoming portal source_file c)) /\
       history_events s = py_len (price_history p.1) - py_len (price_history c)
         + (py_len (availability_history p.1) - py_len (availability_history c)))
    (fun _ _ => True) (c, x).
Proof.
  intros Hok. unfold apply_prices. wp_step. apply wp_lift.
  eapply wp_mono; [apply prepare_spec| |done]. intros mapped c1 (-> & Hsame & Hs1 & Hs2).
  wp_step. wp_step. wp_step. apply wp_on_locals. apply (wp_mono _ (fun _ _ => True) _ (fun _ _ => True)); [apply wp_true| |done].
  intros [] x1 _. apply wp_lift. pose proof (histories_ok_same _ _ Hsame Hok) as Hok1.
  eapply wp_mono; [by apply write_prices_spec| |done]. cbv beta.
  intros s c2 (H1 & _ & H2 & H3 & H4 & H5 & H6 & H7).
  rewrite (absent_keys_same _ _ _ Hsame) in H4, H5 by done.
  destruct Hsame as (Hp & _ & Ha & _). rewrite Hp in H2, H3, H7. rewrite Ha in H4, H5, H7.
  split_and!; done.
Qed.
End prices.
