(* ===== verification/PricesReplay.v ===== *)
(** Applying a price file again, and applying a changed one at the time of the first apply. *)
From S2P Require Import Prelude Errors Effects Enums PyNumbers Models AppModels Temporal Catalog Prices PricesFacts.

(** ** Statements that change nothing *)

Section temporal.
Context `{TemporalRowLaws A K V, EqDecision K}.

Lemma close_rows_nothing keys T (rows : list A) : (forall k, keys k = false) -> close_rows keys T rows = Some rows.
Proof.
  intros Hk. unfold close_rows. replace (existsb _ rows) with false.
  - f_equal. rewrite <- (map_id rows) at 2. apply map_ext. intros a. by rewrite Hk, andb_false_r.
  - symmetry. apply not_true_iff_false. rewrite existsb_exists. intros (a & _ & Ha).
    by rewrite Hk, andb_false_r in Ha.
Qed.

Lemma open_rows_nothing (rows : list A) : open_rows [] rows = Some rows.
Proof.
  unfold open_rows. rewrite (bool_decide_eq_true_2 (NoDup _)) by constructor. replace (existsb _ rows) with false.
  - cbn [negb andb]. by rewrite app_nil_r.
  - symmetry. apply not_true_iff_false. rewrite existsb_exists. intros (a & _ & Ha).
    rewrite bool_decide_eq_false_2 in Ha by (intros Hin; by apply elem_of_nil in Hin). by rewrite andb_false_r in Ha.
Qed.

(** An open row that started at the time it is to be closed cannot be closed. *)
Lemma close_rows_conflict keys T (rows : list A) a :
  a ∈ rows -> row_to a = None -> keys (row_key a) = true -> T <= row_from a -> close_rows keys T rows = None.
Proof.
  intros Hin Ho Hk Hle. unfold close_rows. replace (existsb _ rows) with true; [done|].
  symmetry. apply existsb_exists. exists a. rewrite <- list_elem_of_In, Hk. split; [done|].
  rewrite (proj2 (is_open_spec a)) by done. by apply Z.leb_le.
Qed.
End temporal.

Section upsert.
Context `{Countable K} {A B : Type} (first_at : A -> Z).

(** The rows of the incoming keys were first seen by a time. *)
Definition first_by (T : Z) (incoming : gmap K B) (table : gmap K A) : Prop :=
  forall k a, is_Some (incoming !! k) -> table !! k = Some a -> first_at a <= T.

Lemma first_by_mono T T' incoming table : T <= T' -> first_by T incoming table -> first_by T' incoming table.
Proof. intros ? Hf k a Hk Ha. specialize (Hf k a Hk Ha). lia. Qed.

Lemma checked_upsert_first T ins upd incoming table :
  first_by T incoming table ->
  checked_upsert first_at T ins upd incoming table = Some (upserted ins upd incoming table).
Proof.
  intros Hf. unfold checked_upsert. rewrite bool_decide_eq_true_2; [done|].
  intros k a Ha. destruct (incoming !! k) eqn:E; [|by left]. right. by eapply Hf; [rewrite E|].
Qed.

Lemma checked_upsert_seen T ins upd incoming table t' :
  (forall b, first_at (ins b) <= T) -> (forall b a, first_at (upd b a) = first_at a) ->
  checked_upsert first_at T ins upd incoming table = Some t' -> first_by T incoming t'.
Proof.
  intros Hi Hu. unfold checked_upsert. case_bool_decide as Hall; [|done]. intros [= <-] k a [b Hb].
  rewrite upserted_lookup, Hb. destruct (table !! k) as [a0|] eqn:Ha0; intros [= <-]; [|done].
  rewrite Hu. destruct (Hall k a0 Ha0); [congruence|done].
Qed.
End upsert.

(** Up to the next statement, and past it. *)
Ltac to_write :=
  lazymatch goal with
  | |- wp (write _ _ _) _ _ _ => idtac
  | |- _ => wp_step; to_write
  end.
Ltac to_statement := to_write; apply wp_write; [done|].

Section replay.
Context (collate : pystr -> pystr -> bool) (portal : portal_key) (source_file : uuid).
Implicit Types (c : Catalog).

Abbreviation incoming c := (price_incoming portal source_file c).

(** What an earlier apply of the file by [T] leaves. *)
Record seen_by (T : Z) (incoming : gmap price_key StagedPrice) c : Prop := {
  sb_stores : first_by st_first_seen_at T (distinct_stores incoming) (stores c);
  sb_items : first_by it_first_seen_at T (distinct_items collate incoming) (retailer_items c);
  sb_prices : first_by cp_first_observed_at T incoming (current_prices c);
  sb_availability : first_by ca_first_observed_at T incoming (current_availability c)
}.

Lemma prepare_seen T is_full minimum drop c :
  wp (prepare_prices collate portal source_file T is_full minimum drop)
    (fun _ c' => first_by st_first_seen_at T (distinct_stores (incoming c)) (stores c') /\
       first_by it_first_seen_at T (distinct_items collate (incoming c)) (retailer_items c'))
    (fun _ _ => True) c.
Proof.
  unfold prepare_prices. wp_step. apply (wp_mono _ (fun _ c' => c' = c) _ (fun _ _ => True));
    [by apply validation_reads|cbv beta|done].
  intros _ c' ->. unfold upsert_price_stores, upsert_retailer_items. wp_step. wp_step. wp_step.
  apply wp_write; [done|]. intros st' Hs. wp_step. wp_step. wp_step. apply wp_write; [done|].
  intros it' Hi. wp_step. cbn [stores retailer_items set_stores set_retailer_items]. split.
  - eapply checked_upsert_seen; [| |exact Hs]; cbn; intros; lia.
  - eapply checked_upsert_seen; [| |exact Hi]; cbn; intros; lia.
Qed.

Lemma write_prices_seen T mapped is_full c :
  wp (write_prices portal source_file T mapped is_full)
    (fun _ c' => stores c' = stores c /\ retailer_items c' = retailer_items c /\
       staged_prices c' = staged_prices c /\ staged_documents c' = staged_documents c /\
       first_by cp_first_observed_at T mapped (current_prices c') /\
       first_by ca_first_observed_at T mapped (current_availability c'))
    (fun _ _ => True) c.
Proof.
  unfold write_prices, write_current_prices, apply_incoming_availability, upsert_current_prices.
  to_statement. intros r1 _. to_statement. intros r2 _.
  to_statement. intros cur Hcur%checked_upsert_seen; [|cbn; intros; lia..].
  to_statement. intros r3 _. to_statement. intros r4 _.
  to_statement. intros ca Hca%checked_upsert_seen; [|cbn; intros; lia..].
  wp_step. wp_step. destruct is_full; [|wp_step; wp_step; done].
  unfold reconcile_absent_prices. to_statement. intros r5 _. to_statement. intros r6 _.
  to_statement. intros ca' ->%checked_upsert_some. wp_step. wp_step.
  split_and!; try done. intros k a [r Hr]. cbn [current_availability set_current_availability].
  rewrite upserted_lookup. replace (missing_price_keys _ _ _ _ !! k) with (@None CurrentAvailability).
  { apply Hca. by eexists. }
  symmetry. apply map_lookup_filter_None. right. intros b _ (_ & _ & Hn). congruence.
Qed.

Lemma apply_prices_seen {X} T (match_exact : Catalog -> M X unit) is_full minimum drop c x :
  wp (apply_prices collate portal source_file T match_exact is_full minimum drop)
    (fun _ p => incoming p.1 = incoming c /\ seen_by T (incoming c) p.1 /\
       staged_documents p.1 = staged_documents c /\
       (forall s, is_Some (stores p.1 !! s) ->
          is_Some (stores c !! s) \/ s ∈ incoming_stores (incoming c)))
    (fun _ _ => True) (c, x).
Proof.
  unfold apply_prices. wp_step. apply wp_lift. eapply wp_mono;
    [apply wp_and; [apply prepare_spec|apply prepare_seen]| |done].
  intros mapped c1 [(-> & Hsame & _ & Hs2) [Hs Hi]]. wp_step. wp_step. wp_step. apply wp_on_locals.
  apply (wp_mono _ (fun _ _ => True) _ (fun _ _ => True)); [apply wp_true| |done].
  intros [] x1 _. apply wp_lift. eapply wp_mono; [apply write_prices_seen| |done].
  cbv beta. intros s c2 (Hst & Hit & Hsp & Hsd & Hcp & Hca). destruct Hsame as (_ & _ & _ & _ & Hp & Hd).
  cbn [fst]. split; [unfold price_incoming; by rewrite Hsp, Hp|]. rewrite Hst.
  split; [|split; [congruence|done]]. by split; rewrite ?Hst, ?Hit.
Qed.

(** ** The second apply *)

Lemma wp_write_some {W T} (get : W -> T) set statement (Q : unit -> W -> Prop) E w t :
  statement (get w) = Some t -> Q tt (set (fun _ => t) w) -> wp (write get set statement) Q E w.
Proof. intros Hs HQ. apply wp_write; [congruence|]. intros t' Ht'. by simplify_eq. Qed.

Lemma count_zero `{Countable K} {A} (P : K -> A -> bool) (m : gmap K A) :
  (forall k a, m !! k = Some a -> P k a = false) -> count P m = 0.
Proof. intros HP. rewrite count_msum. apply msum_zero. intros k a Hk. by rewrite (HP k a Hk). Qed.

Lemma filter_nothing `{Countable K} {B} (P : K * B -> Prop) `{forall x, Decision (P x)} (m : gmap K B) :
  (forall k b, m !! k = Some b -> ~ P (k, b)) -> filter P m = ∅.
Proof.
  intros HP. apply map_eq. intros k. rewrite lookup_empty. apply map_lookup_filter_None. right. apply HP.
Qed.

Section again.
Context (T0 T : Z) (mapped : gmap price_key StagedPrice) (is_full : bool) (c : Catalog).
Hypothesis Hok : histories_ok c.
Hypothesis HT : T0 <= T.
Hypothesis Hprices : first_by cp_first_observed_at T0 mapped (current_prices c).
Hypothesis Havail : first_by ca_first_observed_at T0 mapped (current_availability c).
Hypothesis Hopen : forall k r, mapped !! k = Some r ->
  open_value (price_history c) k = Some (sp_value r) /\
  open_value (availability_history c) k = Some (incoming_availability r).
Hypothesis Hmissing : is_full = true -> forall k, missing_price_keys portal source_file mapped c !! k = None.

Lemma price_unchanged k : price_changed mapped (current_prices c) k = false.
Proof.
  unfold price_changed. destruct (mapped !! k) as [r|] eqn:Hr; [|done]. destruct (Hopen k r Hr) as [Hp _].
  rewrite <- (ho_current_prices c Hok) in Hp. destruct (current_prices c !! k) as [cp|]; [|done].
  injection Hp as ->. by rewrite bool_decide_eq_true_2.
Qed.

Lemma availability_unchanged k : availability_changed mapped (current_availability c) k = false.
Proof.
  unfold availability_changed. destruct (mapped !! k) as [r|] eqn:Hr; [|done]. destruct (Hopen k r Hr) as [_ Hp].
  rewrite <- (ho_current_availability c Hok) in Hp. destruct (current_availability c !! k) as [cp|]; [|done].
  injection Hp as ->. by rewrite bool_decide_eq_true_2.
Qed.

Lemma current_known k r : mapped !! k = Some r ->
  is_Some (current_prices c !! k) /\ is_Some (current_availability c !! k).
Proof.
  intros [Hp Ha]%Hopen. rewrite <- (ho_current_prices c Hok) in Hp.
  rewrite <- (ho_current_availability c Hok) in Ha.
  destruct (current_prices c !! k), (current_availability c !! k); done.
Qed.

Lemma no_new_prices : new_prices source_file T mapped (current_prices c) = [].
Proof.
  unfold new_prices. rewrite filter_nothing; [done|]. intros k r Hr [Hn|Hc]; [|by rewrite price_unchanged in Hc].
  destruct (proj1 (current_known k r Hr)). congruence.
Qed.

Lemma no_new_availability : new_availability source_file T mapped (current_availability c) = [].
Proof.
  unfold new_availability. rewrite filter_nothing; [done|]. intros k r Hr [Hn|Hc]; [|by rewrite availability_unchanged in Hc].
  destruct (proj2 (current_known k r Hr)). congruence.
Qed.

Lemma write_prices_again :
  wp (write_prices portal source_file T mapped is_full)
    (fun s c' => inserted s = 0 /\ updated s = 0 /\ history_events s = 0 /\
       price_history c' = price_history c /\ availability_history c' = availability_history c)
    (fun _ _ => False) c.
Proof.
  unfold write_prices, write_current_prices, upsert_current_prices. wp_step. wp_step. wp_step.
  assert (Hi : count (fun k _ => bool_decide (current_prices c !! k = None)) mapped = 0).
  { apply count_zero. intros k r Hr. apply bool_decide_eq_false_2.
    destruct (proj1 (current_known k r Hr)) as [? ->]. done. }
  assert (Hu : count (fun k _ => price_changed mapped (current_prices c) k) mapped = 0).
  { apply count_zero. intros. apply price_unchanged. }
  wp_step. wp_step. rewrite no_new_prices. to_write. apply (wp_write_some _ _ _ _ _ _ (price_history c)); [apply close_rows_nothing, price_unchanged|].
  to_write. apply (wp_write_some _ _ _ _ _ _ (price_history c)); [apply open_rows_nothing|].
  to_write. eapply wp_write_some; [by apply checked_upsert_first, (first_by_mono _ T0)|]. wp_step.
  unfold apply_incoming_availability. wp_step. wp_step. wp_step.
  cbn [current_availability set_current_prices set_price_history]. rewrite no_new_availability.
  to_write. apply (wp_write_some _ _ _ _ _ _ (availability_history c)); [apply close_rows_nothing, availability_unchanged|].
  to_write. apply (wp_write_some _ _ _ _ _ _ (availability_history c)); [apply open_rows_nothing|].
  to_write. eapply wp_write_some; [by apply checked_upsert_first, (first_by_mono _ T0)|]. wp_step. wp_step.
  set (c2 := set_current_availability _ _).
  assert (Hcur2 : forall k, ca_value <$> current_availability c2 !! k = open_value (availability_history c2) k).
  { intros k. change (availability_history c2) with (availability_history c).
    rewrite <- (ho_current_availability c Hok). unfold c2.
    cbn [current_availability set_current_availability set_current_prices set_price_history set_availability_history].
    rewrite upserted_lookup.
    destruct (mapped !! k) as [r|] eqn:Hr; [|done]. destruct (Hopen k r Hr) as [_ Ha].
    rewrite <- (ho_current_availability c Hok) in Ha. by destruct (current_availability c !! k). }
  assert (Hm2 : is_full = true -> missing_price_keys portal source_file mapped c2 = ∅).
  { intros Hfull. apply map_eq. intros k. rewrite lookup_empty. apply eq_None_not_Some.
    rewrite missing_spec by done. intros (Hs & Hm).
    assert (is_Some (missing_price_keys portal source_file mapped c !! k)) as [? Hk].
    { rewrite missing_spec by apply Hok. done. }
    by rewrite Hmissing in Hk. }
  destruct is_full; [|by wp_step; wp_step].
  unfold reconcile_absent_prices. wp_step. wp_step. fold c2. rewrite (Hm2 eq_refl). to_write.
  apply (wp_write_some _ _ _ _ _ _ (availability_history c)); [by apply close_rows_nothing|].
  to_write. apply (wp_write_some _ _ _ _ _ _ (availability_history c)); [apply open_rows_nothing|].
  to_write. eapply wp_write_some; [apply checked_upsert_first; intros k a [b Hb]; by rewrite lookup_empty in Hb|].
  by wp_step; wp_step.
Qed.
End again.

Lemma prepare_again T0 T minimum drop c : T0 <= T -> seen_by T0 (incoming c) c ->
  wp (prepare_prices collate portal source_file T false minimum drop)
    (fun _ c' => first_by cp_first_observed_at T0 (incoming c) (current_prices c') /\
       first_by ca_first_observed_at T0 (incoming c) (current_availability c'))
    (fun _ _ => False) c.
Proof.
  intros HT [Hs Hi Hp Ha]. unfold prepare_prices, upsert_price_stores, upsert_retailer_items. cbn [when].
  to_write. eapply wp_write_some; [by apply checked_upsert_first, (first_by_mono _ T0)|].
  to_write. eapply wp_write_some; [by apply checked_upsert_first, (first_by_mono _ T0)|].
  by wp_step.
Qed.

(** A file that is applied again finds its own values and nothing to make absent. *)
Lemma applied_absent {X} T (match_exact : Catalog -> M X unit) (is_full : bool) minimum drop c x s c1 x1 :
  histories_ok c ->
  apply_prices collate portal source_file T match_exact is_full minimum drop (c, x) = (Returned s, (c1, x1)) ->
  histories_ok c1 /\ incoming c1 = incoming c /\ seen_by T (incoming c1) c1 /\
  (forall k r, incoming c1 !! k = Some r -> open_value (price_history c1) k = Some (sp_value r) /\
     open_value (availability_history c1) k = Some (incoming_availability r)) /\
  absent_keys portal source_file is_full c1 = ∅.
Proof.
  intros Hok Hrun.
  destruct (wp_returned _ _ _ _ _ _ (apply_prices_spec collate portal source_file T match_exact is_full
    minimum drop c x Hok) Hrun) as (Hok1 & _ & Hp & _ & Ha & _ & _).
  destruct (wp_returned _ _ _ _ _ _ (apply_prices_seen T match_exact is_full minimum drop c x) Hrun)
    as (Hin & Hseen & Hdoc & Hst). cbn [fst] in *. rewrite Hin. split_and!; try done.
  - intros k r Hr. rewrite Hp, Ha. unfold claimed_availability. by rewrite Hr.
  - unfold absent_keys. destruct is_full eqn:Hfull; [|done]. apply map_eq. intros k.
    rewrite lookup_empty. apply eq_None_not_Some. rewrite missing_spec by apply Hok1.
    intros (Hs & Hm & v & Hv & Hav). rewrite Ha in Hv. unfold claimed_availability in Hv.
    rewrite Hin in *. rewrite Hm in Hv. unfold absent_keys in Hv.
    destruct (missing_price_keys portal source_file (incoming c) c !! k) as [a|] eqn:E; cbn in Hv.
    { by injection Hv as <-. }
    apply eq_None_not_Some in E. apply E. apply missing_spec; [apply Hok|]. split; [|eauto].
    destruct Hs as [Hs|[Hs Hs']]; [by left|]. destruct (Hst _ Hs') as [|]; [right|by left].
    unfold document_stores in Hs |- *. by rewrite Hdoc in Hs.
Qed.

Lemma apply_prices_again {X} T0 T (match_exact : Catalog -> M X unit) is_full minimum drop c x :
  T0 <= T -> histories_ok c -> seen_by T0 (incoming c) c ->
  (forall k r, incoming c !! k = Some r -> open_value (price_history c) k = Some (sp_value r) /\
     open_value (availability_history c) k = Some (incoming_availability r)) ->
  absent_keys portal source_file is_full c = ∅ ->
  wp (apply_prices collate portal source_file T match_exact is_full minimum drop)
    (fun s p => inserted s = 0 /\ updated s = 0 /\ history_events s = 0 /\
       price_history p.1 = price_history c /\ availability_history p.1 = availability_history c)
    (fun e p => is_full = true \/ exists c', (match_exact c' x).1 = Raised e) (c, x).
Proof.
  intros HT Hok Hseen Hopen Habs. unfold apply_prices. wp_step. apply wp_lift.
  eapply wp_mono.
  { eapply (wp_and _ _ _ (fun _ c' => first_by cp_first_observed_at T0 (incoming c) (current_prices c') /\
       first_by ca_first_observed_at T0 (incoming c) (current_availability c')) (fun _ _ => is_full = true));
      [apply prepare_spec|].
    destruct is_full; [|eapply wp_mono; [by eapply prepare_again|done|done]].
    eapply wp_mono; [apply prepare_spec| |done].
    intros _ c' (_ & (_ & Hcp & _ & Hca & _) & _). rewrite Hcp, Hca. by destruct Hseen. }
  2: { intros e c' [_ ?]. by left. }
  intros mapped c1 [(-> & Hsame & Hs1 & Hs2) [Hcp Hca]]. wp_step. wp_step. wp_step. apply wp_on_locals.
  cbn [fst]. apply (wp_mono _ (fun _ _ => True) _ (fun e _ => (match_exact c1 x).1 = Raised e)).
  { unfold wp. by destruct (match_exact c1 x) as [[]]. }
  2: { intros e x1 He. right. eauto. }
  intros [] x1 _. apply wp_lift. pose proof (histories_ok_same _ _ Hsame Hok) as Hok1.
  pose proof (absent_keys_same portal source_file is_full _ _ Hsame Hs1 Hs2) as Hab. rewrite Habs in Hab.
  destruct Hsame as (Hph & _ & Hah & _). rewrite <- Hph, <- Hah in Hopen |- *.
  eapply wp_mono; [eapply (write_prices_again T0 T); try done|done|done].
  intros -> k. rewrite Hab. apply lookup_empty.
Qed.

(** A changed price whose open row started at the apply time or later cannot be written. *)
Lemma corrected_conflict {X} T (match_exact : Catalog -> M X unit) is_full minimum drop c x k r a :
  histories_ok c -> incoming c !! k = Some r -> a ∈ price_history c -> ph_key a = k ->
  ph_valid_to a = None -> ph_value a <> sp_value r -> T <= ph_valid_from a ->
  wp (apply_prices collate portal source_file T match_exact is_full minimum drop)
    (fun _ _ => False) (fun _ _ => True) (c, x).
Proof.
  intros Hok Hr Ha Hk Ho Hv Hle. unfold apply_prices. wp_step. apply wp_lift.
  eapply wp_mono; [apply prepare_spec| |done]. intros mapped c1 (-> & (Hp & Hcp & _) & _).
  wp_step. wp_step. wp_step. apply wp_on_locals.
  apply (wp_mono _ (fun _ _ => True) _ (fun _ _ => True)); [apply wp_true| |done].
  intros [] x1 _. apply wp_lift. cbn [fst]. unfold write_prices, write_current_prices. wp_step. wp_step. to_write.
  apply wp_write; [done|]. rewrite Hp, Hcp. intros r1 Hclose. exfalso.
  rewrite (close_rows_conflict _ _ _ a) in Hclose; try done. cbn [row_key price_history_row].
  assert (Hopen : open_value (price_history c) k = Some (ph_value a)).
  { apply open_value_spec; [apply Hok|]. by exists a. }
  rewrite <- (ho_current_prices c Hok) in Hopen. unfold price_changed. rewrite Hk, Hr.
  destruct (current_prices c !! k) as [cp|]; [|done]. injection Hopen as ->.
  by rewrite bool_decide_eq_false_2.
Qed.
End replay.
