(* ===== verification/Roster.v ===== *)
(** Applying a store file: [_apply_stores] of
    [src/src/makolet/adapters/persistence/ingestion.py]. *)
From S2P Require Import Prelude Errors Effects Enums PyNumbers Models AppModels Temporal Catalog Prices PricesFacts.

Section roster.
Variable portal : portal_key.
Variable source_file : uuid.
Variable applied_at : Z.

(** [_STORE_INCOMING]. *)
Definition store_incoming (c : Catalog) : gmap store_key StagedStore :=
  latest (fun r => store_of portal (ss_subchain_id r) (ss_source_store_id r)) ss_record_index
    (staged (staged_stores c) source_file).

(** The roster of the portal that is active. *)
Definition active_roster (c : Catalog) : Z :=
  count (fun s st => bool_decide (s.1 = portal) && st_is_active st) (stores c).

(** The columns compared, with [is_active]. *)
Definition store_differs (r : StagedStore) (st : StoreRow) : bool :=
  negb (bool_decide (st_details st = ss_details r)) || negb (st_is_active st).

(** [INSERT INTO store_aliases ... ON CONFLICT DO NOTHING]. *)
Definition add_aliases (incoming : gmap store_key StagedStore)
    (aliases : gmap (portal_key * pystr) store_key) : gmap (portal_key * pystr) store_key :=
  map_fold (fun s r m => match m !! (portal, ss_source_store_id r) with
                         | Some _ => m
                         | None => <[ (portal, ss_source_store_id r) := s ]> m
                         end) aliases incoming.

(** The last statement: the active stores of the portal that the file does not list. *)
Definition deactivated_store (incoming : gmap store_key StagedStore) (s : store_key) (st : StoreRow)
    : bool :=
  bool_decide (s.1 = portal) && st_is_active st && bool_decide (incoming !! s = None).
Definition deactivate (st : StoreRow) : StoreRow := {|
  st_details := st_details st; st_is_active := false; st_first_seen_at := st_first_seen_at st;
  st_last_seen_at := st_last_seen_at st; st_source_file := source_file |}.

Definition apply_stores (minimum_full_records : Z) (maximum_drop_fraction : float64)
    : M Catalog ApplySummary :=
  c ← get_state;
  let incoming := store_incoming c in
  validate_full_snapshot (py_len (map_to_list incoming)) (active_roster c) minimum_full_records
    maximum_drop_fraction;;
  let existing s := stores c !! s in
  let inserted := count (fun s _ => bool_decide (existing s = None)) incoming in
  let updated := count (fun s r => match existing s with Some st => store_differs r st | None => false end)
                   incoming in
  let unchanged := count (fun s r => match existing s with
                                     | Some st => negb (store_differs r st) | None => false end) incoming in
  write stores set_stores (checked_upsert st_first_seen_at applied_at
    (fun r => {| st_details := ss_details r; st_is_active := true; st_first_seen_at := applied_at;
                 st_last_seen_at := applied_at; st_source_file := source_file |})
    (fun r old => {| st_details := ss_details r; st_is_active := true;
                     st_first_seen_at := st_first_seen_at old; st_last_seen_at := applied_at;
                     st_source_file := source_file |})
    incoming);;
  modify (set_store_aliases (add_aliases incoming));;
  s ← gets stores;
  let deactivated := count (deactivated_store incoming) s in
  modify (set_stores (map_imap (fun k st => Some (if deactivated_store incoming k st
                                                  then deactivate st else st))));;
  mret {| inserted := inserted; updated := updated; unchanged := unchanged;
          unavailable := deactivated; history_events := 0 |}.

(** ** The roster after the file *)

(** The portal's active stores are those of the file, with its details; the stores of other
    portals are as they were, and no store is forgotten. *)
Lemma apply_stores_roster minimum drop c :
  wp (apply_stores minimum drop)
    (fun s c' =>
       (forall k st, k.1 = portal -> stores c' !! k = Some st -> st_is_active st = true <->
          exists r, store_incoming c !! k = Some r /\ st_details st = ss_details r) /\
       (forall k r, store_incoming c !! k = Some r -> is_Some (stores c' !! k)) /\
       (forall k, k.1 <> portal -> stores c' !! k = stores c !! k) /\
       (forall k, is_Some (stores c !! k) -> is_Some (stores c' !! k)) /\
       inserted s + updated s + unchanged s = py_len (map_to_list (store_incoming c)) /\
       price_history c' = price_history c /\ availability_history c' = availability_history c /\
       current_prices c' = current_prices c /\ current_availability c' = current_availability c)
    (fun _ _ => True) c.
Proof.
  assert (Hportal : forall k r, store_incoming c !! k = Some r -> k.1 = portal).
  { intros k r Hk. pose proof (latest_spec (fun r => store_of portal (ss_subchain_id r) (ss_source_store_id r))
      ss_record_index (staged (staged_stores c) source_file) k) as Hl.
    unfold store_incoming in Hk. rewrite Hk in Hl. by destruct Hl as (_ & <- & _). }
  unfold apply_stores. wp_step. wp_step. set (incoming := store_incoming c) in *.
  assert (Hcount : count (fun s _ => bool_decide (stores c !! s = None)) incoming
    + count (fun s r => match stores c !! s with Some st => store_differs r st | None => false end) incoming
    + count (fun s r => match stores c !! s with Some st => negb (store_differs r st) | None => false end) incoming
    = py_len (map_to_list incoming)).
  { rewrite !count_msum, <- !msum_plus, size_msum. apply msum_ext. intros k r _.
    destruct (stores c !! k) as [st|]; cbn; [|done]. by destruct (store_differs r st). }
  wp_step. apply (wp_mono _ (fun _ c' => c' = c) _ (fun _ _ => True)); [|cbv beta|done].
  { unfold validate_full_snapshot, validate_drop. wp_step. wp_step; [done|].
    destruct (_ || _); [by wp_step|]. by wp_step. }
  intros _ c' ->. wp_step. apply wp_write; [done|]. intros st' Hst%checked_upsert_some.
  wp_step. wp_step. wp_step. wp_step. wp_step. wp_step. wp_step.
  cbn [inserted updated unchanged stores set_stores set_store_aliases price_history
    availability_history current_prices current_availability].
  assert (Hlook : forall k, map_imap (fun k st => Some (if deactivated_store incoming k st
      then deactivate st else st)) st' !! k
    = (fun st => if deactivated_store incoming k st then deactivate st else st) <$> st' !! k).
  { intros k. rewrite map_lookup_imap. by destruct (st' !! k). }
  split_and!; try done.
  - intros k st Hk. rewrite Hlook, Hst, upserted_lookup. unfold deactivated_store.
    rewrite (bool_decide_eq_true_2 _ Hk).
    destruct (incoming !! k) as [r|], (stores c !! k) as [old|]; cbn; try done.
    all: rewrite ?(bool_decide_eq_false_2 (Some r = None)) by done; cbn; intros [= <-]; cbn.
    1, 2: split; [intros _; by exists r|done].
    destruct (st_is_active old) eqn:Ho; cbn; rewrite ?Ho; split; try done; by intros (? & ? & _).
  - intros k r Hk. rewrite Hlook, Hst, upserted_lookup, Hk. destruct (stores c !! k); by eexists.
  - intros k Hk. rewrite Hlook, Hst, upserted_lookup. unfold deactivated_store.
    rewrite (bool_decide_eq_false_2 _ Hk). destruct (incoming !! k) as [r|] eqn:E; [by apply Hportal in E|].
    by destruct (stores c !! k).
  - intros k [old Hold]. rewrite Hlook, Hst, upserted_lookup, Hold. destruct (incoming !! k); by eexists.
Qed.
End roster.
