(* ===== verification/CatalogSpec.v ===== *)
(** The properties of applying store and price files, and the runs that witness them. *)
From S2P Require Import Prelude Errors Effects Enums PyNumbers Models AppModels Temporal Catalog Prices PricesFacts PricesReplay Roster.

Section properties.
Context (collate : pystr -> pystr -> bool) (portal : portal_key) (source_file : uuid).

(** C20: applying a price file updates the price timelines by the file and nothing else.  From
    the apply time on, every key of the file has the file's price and availability, a full
    snapshot makes the available keys of its stores that it does not list unavailable, and
    at every other key and every earlier time both histories answer as before; periods of a
    key never overlap, the current rows stay the open rows of the histories, and the summary
    counts every key of the file once and every history row added. *)
Theorem price_file_applied {X} (match_exact : Catalog -> M X unit) (is_full : bool) minimum drop
    applied_at c x s c' x' :
  histories_ok c ->
  apply_prices collate portal source_file applied_at match_exact is_full minimum drop (c, x)
    = (Returned s, (c', x')) ->
  let incoming := price_incoming portal source_file c in
  histories_ok c' /\
  (forall k t, as_of (price_history c') k t
     = updated_at applied_at (sp_value <$> incoming !! k) (cp_value <$> current_prices c !! k)
         (as_of (price_history c) k) t) /\
  (forall k t, as_of (availability_history c') k t
     = updated_at applied_at (claimed_availability portal source_file is_full c k)
         (ca_value <$> current_availability c !! k) (as_of (availability_history c) k) t) /\
  (forall k, cp_value <$> current_prices c' !! k
     = match incoming !! k with Some r => Some (sp_value r) | None => cp_value <$> current_prices c !! k end) /\
  inserted s + updated s + unchanged s = py_len (map_to_list incoming) /\
  history_events s = py_len (price_history c') - py_len (price_history c)
    + (py_len (availability_history c') - py_len (availability_history c)).
Proof.
  intros Hok Hrun incoming.
  destruct (wp_returned _ _ _ _ _ _ (apply_prices_spec collate portal source_file applied_at match_exact
    is_full minimum drop c x Hok) Hrun) as (Hok' & Hp & Hop & Ha & _ & Hn & He).
  cbn [fst] in *. split_and!; try done; intros k.
  - intros t. by rewrite Hp, (ho_current_prices c Hok).
  - intros t. by rewrite Ha, (ho_current_availability c Hok).
  - by rewrite (ho_current_prices c' Hok'), Hop, (ho_current_prices c Hok).
Qed.

(** Applying a price file again changes nothing.  Whatever later time the file is applied
    at, the second apply leaves both histories as they are and counts no insertion, update or
    history event; and a delta file fails only if the product matching does. *)
Theorem price_file_reapplied {X} (match_exact : Catalog -> M X unit) (is_full : bool) minimum drop
    applied_at later c x s c1 x1 :
  histories_ok c -> applied_at <= later ->
  apply_prices collate portal source_file applied_at match_exact is_full minimum drop (c, x)
    = (Returned s, (c1, x1)) ->
  match apply_prices collate portal source_file later match_exact is_full minimum drop (c1, x1) with
  | (Returned s2, (c2, _)) =>
      inserted s2 = 0 /\ updated s2 = 0 /\ history_events s2 = 0 /\
      price_history c2 = price_history c1 /\ availability_history c2 = availability_history c1
  | (Raised e, _) => is_full = true \/ exists c2, (match_exact c2 x1).1 = Raised e
  end.
Proof.
  intros Hok Hle Hrun. destruct (applied_absent _ _ _ _ _ _ _ _ _ _ _ _ _ Hok Hrun)
    as (Hok1 & _ & Hseen & Hopen & Habs).
  pose proof (apply_prices_again collate portal source_file applied_at later match_exact is_full
    minimum drop c1 x1 Hle Hok1 Hseen Hopen Habs) as Hwp.
  revert Hwp. unfold wp. by destruct (apply_prices collate portal source_file later match_exact is_full minimum drop (c1, x1)) as [[s2|e] [c2 x2]].
Qed.

(** A file cannot correct what it wrote.  When the row open for a key of the file started
    at the apply time or later, and the file now gives another price, the apply raises: the
    row cannot be closed with an empty period.  A replay applies at the time of the first
    apply, so replaying a file whose rows are now read differently always fails. *)
Theorem corrected_replay_conflicts {X} (match_exact : Catalog -> M X unit) (is_full : bool) minimum drop
    applied_at c x k r a :
  histories_ok c ->
  price_incoming portal source_file c !! k = Some r ->
  a ∈ price_history c -> ph_key a = k -> ph_valid_to a = None ->
  ph_value a <> sp_value r -> applied_at <= ph_valid_from a ->
  exists e w', apply_prices collate portal source_file applied_at match_exact is_full minimum drop (c, x)
    = (Raised e, w').
Proof.
  intros Hok Hr Ha Hk Ho Hv Hle.
  pose proof (corrected_conflict collate portal source_file applied_at match_exact is_full minimum drop
    c x k r a Hok Hr Ha Hk Ho Hv Hle) as Hwp.
  revert Hwp. unfold wp. destruct (apply_prices collate portal source_file applied_at match_exact is_full minimum drop (c, x)) as [[s|e] w']; [done|by exists e, w'].
Qed.

(** A store file replaces the roster of its portal.  After it the active stores of the
    portal are exactly those of the file, with the file's details; stores of other portals
    keep their rows, no store row is dropped, and the file's stores are counted once each. *)
Theorem store_file_applied minimum drop applied_at c s c' :
  apply_stores portal source_file applied_at minimum drop c = (Returned s, c') ->
  let incoming := store_incoming portal source_file c in
  (forall k st, k.1 = portal -> stores c' !! k = Some st -> st_is_active st = true <->
     exists r, incoming !! k = Some r /\ st_details st = ss_details r) /\
  (forall k r, incoming !! k = Some r -> is_Some (stores c' !! k)) /\
  (forall k, k.1 <> portal -> stores c' !! k = stores c !! k) /\
  (forall k, is_Some (stores c !! k) -> is_Some (stores c' !! k)) /\
  inserted s + updated s + unchanged s = py_len (map_to_list incoming).
Proof.
  intros Hrun.
  destruct (wp_returned _ _ _ _ _ _ (apply_stores_roster portal source_file applied_at minimum drop c) Hrun)
    as (H1 & H2 & H3 & H4 & H5 & _). done.
Qed.
End properties.

(** ** Sample files *)

Definition sample_portal : portal_key := (py "shufersal", py "main").
Definition sample_item (code name : pystr) (price : Z) (index : Z) : StagedPrice := {|
  sp_record_index := index; sp_chain_id := py "7290"; sp_subchain_id := py "1";
  sp_source_store_id := py "001"; sp_source_item_code := code;
  sp_details := {| id_gtin := None; id_item_type := Some 1; id_name := name;
    id_manufacturer := (None, None, None); id_unit_quantity := None; id_quantity := None;
    id_unit_of_measure := None; id_is_weighted := None; id_quantity_in_package := None |};
  sp_value := {| pv_item_price := price; pv_unit_of_measure_price := None; pv_allow_discount := None |};
  sp_item_status := Some 1;
  sp_evidence := {| pe_source_updated_at := None; pe_last_sale_at := None; pe_audit_number := None |}
|}.
Definition sample_listing (code : pystr) (index : Z) : StagedStore := {|
  ss_record_index := index; ss_subchain_id := py "1"; ss_source_store_id := code;
  ss_details := default_details (py "7290") code |}.

(** File 1 lists milk and eggs, file 2 milk at another price and bread; file 3 is a roster. *)
Definition sample_catalog : Catalog := {|
  staged_documents := ∅;
  staged_stores := {[ 3 := [sample_listing (py "002") 1; sample_listing (py "003") 2] ]};
  staged_prices := {[ 1 := [sample_item (py "milk") (py "Milk") 450 1; sample_item (py "eggs") (py "Eggs") 900 2];
                      2 := [sample_item (py "milk") (py "Milk") 500 1; sample_item (py "bread") (py "Bread") 700 2] ]};
  stores := ∅; store_aliases := ∅; retailer_items := ∅; current_prices := ∅; price_history := [];
  current_availability := ∅; availability_history := [] |}.

Definition no_matching (c : Catalog) : M unit unit := mret tt.
Definition any_order (s t : pystr) : bool := true.
Abbreviation sample_apply file applied_at is_full :=
  (apply_prices any_order sample_portal file applied_at no_matching is_full 1 float_0_50).
Definition sample_first : Catalog * unit := (sample_apply 1 100 false (sample_catalog, tt)).2.
Definition sample_second : Catalog * unit := (sample_apply 2 200 true sample_first).2.

(** The milk row of file 1 as file 1 would be read by another parser. *)
Definition restaged (rows : list StagedPrice) (file : Z) (c : Catalog) : Catalog := {|
  staged_documents := staged_documents c; staged_stores := staged_stores c;
  staged_prices := <[ file := rows ]> (staged_prices c); stores := stores c;
  store_aliases := store_aliases c; retailer_items := retailer_items c;
  current_prices := current_prices c; price_history := price_history c;
  current_availability := current_availability c; availability_history := availability_history c |}.
Definition sample_reread : Catalog :=
  restaged [sample_item (py "milk") (py "Milk") 455 1] 1 sample_first.1.

Definition sample_key (code : pystr) : price_key := ((sample_portal, code), (sample_portal, (py "1", py "001"))).
Definition sample_outcome {A W} (r : outcome A * W) : option A :=
  match r.1 with Returned a => Some a | Raised _ => None end.

(** The two files on the timelines: milk changes price, bread appears, eggs disappear. *)
Example sample_timelines :
  (fun t => (pv_item_price <$> as_of (price_history sample_second.1) (sample_key (py "milk")) t,
             av_is_available <$> as_of (availability_history sample_second.1) (sample_key (py "eggs")) t))
    <$> [99; 100; 199; 200] =
  [(None, None); (Some 450, Some true); (Some 450, Some true); (Some 500, Some false)] /\
  sample_outcome (sample_apply 2 200 true sample_first)
  = Some {| inserted := 1; updated := 1; unchanged := 0; unavailable := 1; history_events := 4 |}.
Proof. split; vm_compute; reflexivity. Qed.

Lemma empty_histories_ok c : current_prices c = ∅ -> price_history c = [] ->
  current_availability c = ∅ -> availability_history c = [] -> histories_ok c.
Proof.
  intros Hp Hh Ha Hah. split; rewrite ?Hp, ?Hh, ?Ha, ?Hah; try done; try (by intros k; rewrite lookup_empty).
  1, 3: split; [intros a e Hin; by apply elem_of_nil in Hin|intros i j a b Hi; by rewrite lookup_nil in Hi].
  all: intros a Hin; by apply elem_of_nil in Hin.
Qed.

Lemma sample_catalog_ok : histories_ok sample_catalog.
Proof. by apply empty_histories_ok. Qed.

Lemma sample_first_run : sample_apply 1 100 false (sample_catalog, tt)
  = (Returned {| inserted := 2; updated := 0; unchanged := 0; unavailable := 0; history_events := 4 |}, sample_first).
Proof. unfold sample_first. apply (run_eq (sample_apply 1 100 false)). vm_compute. reflexivity. Qed.

Lemma sample_first_ok : histories_ok sample_first.1.
Proof.
  exact (proj1 (wp_returned _ _ _ _ _ _ (apply_prices_spec _ sample_portal 1 100 _ false 1 float_0_50
    sample_catalog tt sample_catalog_ok) sample_first_run)).
Qed.

Lemma sample_second_run : sample_apply 2 200 true (sample_first.1, sample_first.2)
  = (Returned {| inserted := 1; updated := 1; unchanged := 0; unavailable := 1; history_events := 4 |},
     (sample_second.1, sample_second.2)).
Proof.
  rewrite <- !surjective_pairing. unfold sample_second. apply (run_eq (sample_apply 2 200 true)).
  vm_compute. reflexivity.
Qed.

(** ** Witnesses *)

Lemma price_file_applied_witness :
  histories_ok sample_second.1 /\
  as_of (price_history sample_second.1) (sample_key (py "bread")) 199 = None /\
  as_of (price_history sample_second.1) (sample_key (py "bread")) 200
    = Some {| pv_item_price := 700; pv_unit_of_measure_price := None; pv_allow_discount := None |}.
Proof.
  pose proof sample_second_run as Hrun.
  destruct (price_file_applied _ _ _ _ _ _ _ _ _ _ _ _ _ sample_first_ok Hrun)
    as (Hok & Hp & _). split; [exact Hok|]. rewrite !Hp. split; vm_compute; reflexivity.
Defined.

Lemma price_file_reapplied_witness :
  histories_ok sample_first.1 /\ 200 <= 300 /\
  exists s2 c2, sample_apply 2 300 true (sample_second.1, sample_second.2) = (Returned s2, c2) /\
    history_events s2 = 0 /\ price_history c2.1 = price_history sample_second.1.
Proof.
  pose proof sample_second_run as Hrun. assert (Hle : 200 <= 300) by lia.
  pose proof (price_file_reapplied _ _ _ _ _ _ _ _ 300 _ _ _ _ _ sample_first_ok Hle Hrun) as Hre.
  split; [exact sample_first_ok|]. split; [exact Hle|].
  assert (Hret : sample_outcome (sample_apply 2 300 true (sample_second.1, sample_second.2)) <> None)
    by (vm_compute; discriminate).
  destruct (sample_apply 2 300 true (sample_second.1, sample_second.2)) as [[s2|e] [c2 x2]]; [|by elim Hret].
  destruct Hre as (_ & _ & He & Hp & _). exists s2, (c2, x2).
  exact (conj eq_refl (conj He Hp)).
Defined.

Lemma restaged_ok rows file c : histories_ok c -> histories_ok (restaged rows file c).
Proof. intros [? ? ? ? ? ?]. by split. Qed.

Lemma corrected_replay_conflicts_witness :
  (exists a, a ∈ price_history sample_reread /\ ph_key a = sample_key (py "milk") /\
     ph_valid_to a = None /\ ph_valid_from a = 100) /\
  exists e w', sample_apply 1 100 false (sample_reread, tt) = (Raised e, w').
Proof.
  assert (Ha : exists a, a ∈ price_history sample_reread /\ ph_key a = sample_key (py "milk") /\
    ph_valid_to a = None /\ ph_valid_from a = 100 /\
    ph_value a = {| pv_item_price := 450; pv_unit_of_measure_price := None; pv_allow_discount := None |}).
  { pose (o := List.find (fun a => bool_decide (ph_key a = sample_key (py "milk"))) (price_history sample_reread)).
    destruct o as [a|] eqn:E; [|vm_compute in E; discriminate].
    exists a. split; [apply list_elem_of_In; by apply List.find_some in E as [? _]|].
    vm_compute in E. injection E as <-. split_and!; vm_compute; reflexivity. }
  destruct Ha as (a & Hin & Hk & Ho & Hf & Hv).
  split; [exact (ex_intro _ a (conj Hin (conj Hk (conj Ho Hf))))|].
  eapply (corrected_replay_conflicts any_order sample_portal 1 no_matching false 1 float_0_50 100
    sample_reread tt (sample_key (py "milk")) (sample_item (py "milk") (py "Milk") 455 1) a).
  - exact (restaged_ok _ _ _ sample_first_ok).
  - vm_compute. reflexivity.
  - exact Hin.
  - exact Hk.
  - exact Ho.
  - rewrite Hv. vm_compute. discriminate.
  - rewrite Hf. lia.
Defined.

Lemma store_file_applied_witness :
  exists s c', apply_stores sample_portal 3 300 1 float_0_50 sample_second.1 = (Returned s, c') /\
    is_Some (stores c' !! (sample_portal, (py "1", py "003"))).
Proof.
  destruct (apply_stores sample_portal 3 300 1 float_0_50 sample_second.1) as [o c'] eqn:E.
  assert (Ho : (apply_stores sample_portal 3 300 1 float_0_50 sample_second.1).1
    = Returned {| inserted := 2; updated := 0; unchanged := 0; unavailable := 1; history_events := 0 |})
    by (vm_compute; reflexivity).
  rewrite E in Ho. cbn [fst] in Ho. subst o. eexists _, c'. split; [reflexivity|].
  destruct (store_file_applied sample_portal 3 1 float_0_50 300 sample_second.1 _ c' E) as (_ & H2 & _).
  eapply H2. vm_compute. reflexivity.
Defined.
