(* ===== verification/Promotions.v ===== *)
(** Applying a promotion file: [_apply_promotions] and the statements it runs, of
    [src/src/makolet/adapters/persistence/ingestion.py], on the promotion tables of
    [adapters/persistence/schema.py].

    [uuidv7] gives the id of the row a file inserts for a promotion.  Where the server is
    free in the order of conflicting rows of one statement, the model takes the staged order. *)
From S2P Require Import Prelude Errors Effects Enums PyNumbers Models AppModels Temporal Catalog Prices.

(** ** Tables *)

(** Subchain, promotion code and store scope, within a portal. *)
Abbreviation promotion_key := (portal_key * (pystr * pystr * pystr))%type.

(** The columns of a promotion, with the fingerprint they are compared by. *)
Record PromotionValue := {
  pmv_description : option pystr;
  pmv_discount_kind : DiscountKind;
  pmv_starts_at : option Z;
  pmv_ends_at : option Z;
  pmv_reward_type : option Z;
  pmv_allows_multiple_discounts : option bool;
  pmv_minimum_quantity : option Z;
  pmv_maximum_quantity : option Z;
  pmv_discount_rate : option Z;
  pmv_minimum_purchase : option Z;
  pmv_discounted_price : option Z;
  pmv_discounted_unit_price : option Z;
  pmv_minimum_items_offered : option Z;
  pmv_additional_restrictions : option pystr;
  pmv_remarks : option pystr;
  pmv_is_active : option bool;
  pmv_fingerprint : pystr
}.

Record PromotionRow := {
  prm_id : uuid;
  prm_key : promotion_key;
  prm_value : PromotionValue;
  prm_source_file : uuid;
  prm_valid_from : Z;
  prm_valid_to : option Z;
  prm_last_observed_at : Z
}.
#[export] Instance promotion_row : TemporalRow PromotionRow promotion_key PromotionValue := {|
  row_key := prm_key; row_value := prm_value; row_from := prm_valid_from; row_to := prm_valid_to;
  close_at t a := {| prm_id := prm_id a; prm_key := prm_key a; prm_value := prm_value a;
    prm_source_file := prm_source_file a; prm_valid_from := prm_valid_from a;
    prm_valid_to := Some t; prm_last_observed_at := prm_last_observed_at a |} |}.
#[export] Instance promotion_row_laws : TemporalRowLaws PromotionRow promotion_key PromotionValue.
Proof. by split. Qed.

Record StagedPromotion := {
  spm_record_index : Z;
  spm_chain_id : pystr;
  spm_subchain_id : pystr;
  spm_source_scope_store_code : pystr;
  spm_source_promotion_id : pystr;
  spm_value : PromotionValue
}.
Record StagedPromotionItem := {
  spi_record_index : Z;
  spi_item_index : Z;
  spi_source_item_code : pystr;
  spi_item_type : option Z;
  spi_is_gift : bool
}.
Record StagedPromotionStore := { sps_record_index : Z; sps_store_index : Z; sps_source_store_code : pystr }.
Record StagedPromotionClub := { spc_record_index : Z; spc_club_index : Z; spc_club_id : pystr }.

Record Promotions := {
  staged_promotions : gmap uuid (list StagedPromotion);
  staged_promotion_items : gmap uuid (list StagedPromotionItem);
  staged_promotion_stores : gmap uuid (list StagedPromotionStore);
  staged_promotion_clubs : gmap uuid (list StagedPromotionClub);
  promotions : list PromotionRow;
  promotion_items : gmap (uuid * item_key) (option Z * bool);
  promotion_stores : gmap (uuid * store_key) unit;
  promotion_clubs : gmap (uuid * pystr) unit
}.

Definition set_promotions f (p : Promotions) : Promotions := {|
  staged_promotions := staged_promotions p; staged_promotion_items := staged_promotion_items p;
  staged_promotion_stores := staged_promotion_stores p; staged_promotion_clubs :=
  staged_promotion_clubs p; promotions := f (promotions p); promotion_items := promotion_items p;
  promotion_stores := promotion_stores p; promotion_clubs := promotion_clubs p |}.
Definition set_relations items stores clubs (p : Promotions) : Promotions := {|
  staged_promotions := staged_promotions p; staged_promotion_items := staged_promotion_items p;
  staged_promotion_stores := staged_promotion_stores p; staged_promotion_clubs :=
  staged_promotion_clubs p; promotions := promotions p; promotion_items := items (promotion_items p);
  promotion_stores := stores (promotion_stores p); promotion_clubs := clubs (promotion_clubs p) |}.

(** The check constraints of [promotions] that relate or bound its columns. *)
Definition nonnegative (o : option Z) : bool := match o with Some z => 0 <=? z | None => true end.
Definition in_order (lo hi : option Z) : bool :=
  match lo, hi with Some a, Some b => a <=? b | _, _ => true end.
Definition promotion_checks (v : PromotionValue) : bool :=
  in_order (pmv_starts_at v) (pmv_ends_at v)
  && nonnegative (pmv_minimum_quantity v) && nonnegative (pmv_maximum_quantity v)
  && in_order (pmv_minimum_quantity v) (pmv_maximum_quantity v)
  && nonnegative (pmv_discount_rate v) && nonnegative (pmv_minimum_purchase v)
  && nonnegative (pmv_discounted_price v) && nonnegative (pmv_discounted_unit_price v)
  && nonnegative (pmv_minimum_items_offered v).

(** The open row of a promotion: at most one by the partial unique index. *)
Definition open_promotion (rows : list PromotionRow) (k : promotion_key) : option PromotionRow :=
  List.find (fun a => bool_decide (prm_key a = k) && is_open a) rows.

(** ** The file *)

Section promotions.
Variable portal : portal_key.
Variable source_file : uuid.
Variable applied_at : Z.
Variable uuidv7 : promotion_key -> uuid.

Definition promotion_key_of (r : StagedPromotion) : promotion_key :=
  (portal, (spm_subchain_id r, spm_source_promotion_id r, spm_source_scope_store_code r)).

(** [_PROMOTION_INCOMING]. *)
Definition promotion_incoming (p : Promotions) : gmap promotion_key StagedPromotion :=
  latest promotion_key_of spm_record_index (staged (staged_promotions p) source_file).

(** Subchain and store scope. *)
Definition scope_of (k : promotion_key) : pystr * pystr := (k.2.1.1, k.2.2).

(** The scopes of the staged documents. *)
Definition document_scopes (c : Catalog) : gset (pystr * pystr) :=
  list_to_set (map (fun d => (default [] (sdoc_subchain_id d), default [] (sdoc_store_id d)))
    (staged (staged_documents c) source_file)).
Definition incoming_scopes (incoming : gmap promotion_key StagedPromotion) : gset (pystr * pystr) :=
  set_map scope_of (dom incoming).

(** ** Validation *)

Definition prior_promotions (p : Promotions) (s : pystr * pystr) : Z :=
  py_len (List.filter (fun a => is_open a && bool_decide ((prm_key a).1 = portal)
                                && bool_decide (scope_of (prm_key a) = s)) (promotions p)).

Definition validate_full_promotion_snapshot (minimum_full_records : Z)
    (maximum_drop_fraction : float64) : M (Catalog * Promotions) unit :=
  '(c, p) ← get_state;
  let incoming := promotion_incoming p in
  let rows := map (fun s => (s, count (fun k _ => bool_decide (scope_of k = s)) incoming))
                (elements (incoming_scopes incoming ∪ document_scopes c)) in
  raise_if (zsum (map snd rows) <? minimum_full_records) (PyExn SnapshotValidationError);;
  for_each (fun '(s, incoming_count) =>
    validate_drop incoming_count (prior_promotions p s) maximum_drop_fraction) rows.

(** ** Items and stores *)

Definition blank_item (code : pystr) : ItemDetails := {|
  id_gtin := None; id_item_type := None; id_name := code; id_manufacturer := (None, None, None);
  id_unit_quantity := None; id_quantity := None; id_unit_of_measure := None;
  id_is_weighted := None; id_quantity_in_package := None |}.

(** The item codes of the children. *)
Definition child_items (p : Promotions) : gmap item_key unit :=
  list_to_map (map (fun i => ((portal, spi_source_item_code i), tt))
    (staged (staged_promotion_items p) source_file)).

(** [GROUP BY chain_id, subchain_id, source_store_code]. *)
Definition child_stores (p : Promotions) : list (store_key * pystr) :=
  remove_dups (s ← staged (staged_promotion_stores p) source_file;
               r ← staged (staged_promotions p) source_file;
               if spm_record_index r =? sps_record_index s
               then [(store_of portal (spm_subchain_id r) (sps_source_store_code s), spm_chain_id r)]
               else []).

(** One statement may not upsert a row twice. *)
Definition cardinality_violation : exn := PyExn OtherException.

Definition ensure_promotion_items_and_stores : M (Catalog * Promotions) unit :=
  p ← gets snd;
  lift (write retailer_items set_retailer_items (checked_upsert it_first_seen_at applied_at
    (fun '(k, _) => {| it_details := blank_item k.2; it_first_seen_at := applied_at;
                       it_last_seen_at := applied_at; it_source_file := source_file |})
    (fun _ old => {| it_details := it_details old; it_first_seen_at := it_first_seen_at old;
                     it_last_seen_at := applied_at; it_source_file := source_file |})
    (map_imap (fun (k : item_key) _ => Some (k, tt)) (child_items p))));;
  raise_if (negb (bool_decide (NoDup (map fst (child_stores p))))) cardinality_violation;;
  lift (write stores set_stores (checked_upsert st_first_seen_at applied_at
    (fun '(s, chain) => {| st_details := default_details chain s.2.2; st_is_active := true;
                           st_first_seen_at := applied_at; st_last_seen_at := applied_at;
                           st_source_file := source_file |})
    (fun _ old => {| st_details := st_details old; st_is_active := true;
                     st_first_seen_at := st_first_seen_at old; st_last_seen_at := applied_at;
                     st_source_file := source_file |})
    (map_imap (fun (s : store_key) chain => Some (s, chain)) (list_to_map (child_stores p))))).

(** ** The promotion rows *)

Section incoming.
Variable incoming : gmap promotion_key StagedPromotion.

Definition promotion_changed (rows : list PromotionRow) (k : promotion_key) : bool :=
  match incoming !! k, open_promotion rows k with
  | Some r, Some a => negb (bool_decide (pmv_fingerprint (prm_value a) = pmv_fingerprint (spm_value r)))
  | _, _ => false
  end.
Definition promotion_unchanged (rows : list PromotionRow) (k : promotion_key) : bool :=
  match incoming !! k, open_promotion rows k with
  | Some r, Some a => bool_decide (pmv_fingerprint (prm_value a) = pmv_fingerprint (spm_value r))
  | _, _ => false
  end.

(** [SET last_observed_at = :applied_at, source_file_id = :source_file_id]. *)
Definition observe (a : PromotionRow) : PromotionRow := {|
  prm_id := prm_id a; prm_key := prm_key a; prm_value := prm_value a;
  prm_source_file := source_file; prm_valid_from := prm_valid_from a;
  prm_valid_to := prm_valid_to a; prm_last_observed_at := applied_at |}.
Definition observe_open (keys : promotion_key -> bool) (rows : list PromotionRow) : list PromotionRow :=
  map (fun a => if is_open a && keys (prm_key a) then observe a else a) rows.

Definition inserted_promotion (kr : promotion_key * StagedPromotion) : PromotionRow := {|
  prm_id := uuidv7 kr.1; prm_key := kr.1; prm_value := spm_value kr.2;
  prm_source_file := source_file; prm_valid_from := applied_at; prm_valid_to := None;
  prm_last_observed_at := applied_at |}.

(** The incoming promotions without an open row. *)
Definition missing_promotions (rows : list PromotionRow) : gmap promotion_key StagedPromotion :=
  filter (fun '(k, _) => open_promotion rows k = None) incoming.

Definition insert_promotions (rows : list PromotionRow) : option (list PromotionRow) :=
  if forallb (fun '(_, r) => promotion_checks (spm_value r)) (map_to_list (missing_promotions rows))
  then open_rows (map inserted_promotion (map_to_list (missing_promotions rows))) rows else None.

(** ** Relations *)

(** [JOIN parent ... JOIN promotions]: the children whose parent is in the file, with the
    open promotion of the parent. *)
Definition attached {C} (index : C -> Z) (children : list C) (rows : list PromotionRow)
    : list (PromotionRow * StagedPromotion * C) :=
  ch ← children;
  '(k, r) ← map_to_list incoming;
  a ← List.filter (fun a => bool_decide (prm_key a = k) && is_open a) rows;
  if spm_record_index r =? index ch then [(a, r, ch)] else [].

(** [INSERT ... ON CONFLICT DO NOTHING]. *)
Definition insert_new `{Countable K} {A} (new : list (K * A)) (table : gmap K A) : gmap K A :=
  foldl (fun m '(k, a) => match m !! k with Some _ => m | None => <[ k := a ]> m end) table new.

Definition attach_promotion_relations : M (Catalog * Promotions) unit :=
  '(c, p) ← get_state;
  let items := attached spi_record_index (staged (staged_promotion_items p) source_file) (promotions p) in
  let stores_ := attached sps_record_index (staged (staged_promotion_stores p) source_file) (promotions p) in
  let clubs := attached spc_record_index (staged (staged_promotion_clubs p) source_file) (promotions p) in
  on_locals (modify (set_relations
    (insert_new (omap (fun '(a, _, i) =>
       let k := (portal, spi_source_item_code i) in
       if bool_decide (is_Some (retailer_items c !! k))
       then Some ((prm_id a, k), (spi_item_type i, spi_is_gift i)) else None) items))
    (insert_new (omap (fun '(a, r, s) =>
       let k := store_of portal (spm_subchain_id r) (sps_source_store_code s) in
       if bool_decide (is_Some (stores c !! k)) then Some ((prm_id a, k), tt) else None) stores_))
    (insert_new (map (fun '(a, _, cl) => ((prm_id a, spc_club_id cl), tt)) clubs)))).

(** ** Absent promotions *)

(** The open promotions of the file's scopes that it does not list. *)
Definition absent_promotion (scopes : gset (pystr * pystr)) (k : promotion_key) : bool :=
  bool_decide (k.1 = portal) && bool_decide (scope_of k ∈ scopes) && bool_decide (incoming !! k = None).

Definition close_absent : M (Catalog * Promotions) Z :=
  '(c, p) ← get_state;
  let scopes := incoming_scopes incoming ∪ document_scopes c in
  let absent := List.filter (fun a => is_open a && absent_promotion scopes (prm_key a)) (promotions p) in
  on_locals (write promotions set_promotions (fun rows =>
    close_rows (absent_promotion scopes) applied_at (observe_open (absent_promotion scopes) rows)));;
  mret (py_len absent).
End incoming.

(** ** [_apply_promotions] *)

Definition write_promotions (is_full : bool) : M (Catalog * Promotions) ApplySummary :=
  p ← gets snd;
  let incoming := promotion_incoming p in
  let rows := promotions p in
  let inserted := count (fun k _ => bool_decide (open_promotion rows k = None)) incoming in
  let updated := count (fun k _ => promotion_changed incoming rows k) incoming in
  let unchanged := count (fun k _ => promotion_unchanged incoming rows k) incoming in
  on_locals (write promotions set_promotions (fun rows =>
    close_rows (promotion_changed incoming rows) applied_at rows));;
  on_locals (modify (set_promotions (fun rows => observe_open (promotion_unchanged incoming rows) rows)));;
  on_locals (write promotions set_promotions (insert_promotions incoming));;
  attach_promotion_relations incoming;;
  absent ← if is_full then close_absent incoming else mret 0;
  mret {| inserted := inserted; updated := updated; unchanged := unchanged; unavailable := absent;
          history_events := inserted + updated + absent |}.

Definition apply_promotions (is_full : bool) (minimum_full_records : Z)
    (maximum_drop_fraction : float64) : M (Catalog * Promotions) ApplySummary :=
  when is_full (validate_full_promotion_snapshot minimum_full_records maximum_drop_fraction);;
  ensure_promotion_items_and_stores;;
  write_promotions is_full.
End promotions.
