(* ===== verification/PromotionsFacts.v ===== *)
(** What applying a promotion file does to the promotion timelines and relations. *)
From S2P Require Import Prelude Errors Effects Enums PyNumbers Models AppModels Temporal Catalog Prices PricesFacts PricesReplay Promotions.

Implicit Types (rows : list PromotionRow).

Lemma open_promotion_value rows k : open_value rows k = prm_value <$> open_promotion rows k.
Proof. done. Qed.

Lemma observe_open_same source_file applied_at keys rows :
  same_periods rows (observe_open source_file applied_at keys rows).
Proof. apply same_periods_map. intros a. by destruct (_ && _). Qed.

(** ** Relations *)

Section insert_new.
Context `{Countable K} {A : Type}.

Lemma insert_new_lookup (new : list (K * A)) table k :
  is_Some (insert_new new table !! k) <-> is_Some (table !! k) \/ k ∈ map fst new.
Proof.
  unfold insert_new. revert table. induction new as [|[k' a] new IH]; intros table; cbn [foldl map fst].
  - split; [by left|]. by intros [|Hin%elem_of_nil].
  - rewrite IH, elem_of_cons. destruct (table !! k') as [a'|] eqn:E.
    + split; [intuition|]. intros [|[->|]]; [by left|left; by rewrite E|by right].
    + destruct (decide (k' = k)) as [->|Hne].
      * rewrite lookup_insert_eq. intuition eauto.
      * rewrite lookup_insert_ne by done. intuition congruence.
Qed.
End insert_new.

Lemma elem_of_attached incoming {C} (index : C -> Z) children rows (x : PromotionRow * StagedPromotion * C) :
  x ∈ attached incoming index children rows <->
  x.2 ∈ children /\ x.1.1 ∈ rows /\ prm_valid_to x.1.1 = None /\
  incoming !! prm_key x.1.1 = Some x.1.2 /\ spm_record_index x.1.2 = index x.2.
Proof.
  unfold attached. rewrite list_elem_of_bind. destruct x as [[a r] ch]. cbn. split.
  - intros (ch' & Hx & Hch). apply list_elem_of_bind in Hx as ([k r'] & Hx & Hin).
    apply list_elem_of_bind in Hx as (a' & Hx & Ha). apply elem_of_map_to_list in Hin.
    apply list_elem_of_In, filter_In in Ha as [Ha [Hk%bool_decide_eq_true Ho%is_open_spec]%andb_true_iff].
    destruct (Z.eqb_spec (spm_record_index r') (index ch')); [|by apply elem_of_nil in Hx].
    apply list_elem_of_singleton in Hx. simplify_eq. apply list_elem_of_In in Ha. done.
  - intros (Hch & Ha & Ho & Hr & Hi). exists ch. split; [|done]. apply list_elem_of_bind.
    exists (prm_key a, r). split; [|by apply elem_of_map_to_list]. apply list_elem_of_bind.
    exists a. split.
    + rewrite (proj2 (Z.eqb_eq _ _) Hi). by apply list_elem_of_singleton.
    + apply list_elem_of_In, filter_In. rewrite <- list_elem_of_In. split; [done|].
      apply andb_true_iff. split; [by apply bool_decide_eq_true|by apply is_open_spec].
Qed.

Section promotions.
Context (portal : portal_key) (source_file : uuid) (applied_at : Z) (uuidv7 : promotion_key -> uuid).

(** ** Items and stores *)

(** Rewrite the lookup the goal matches on. *)
Ltac found u Hu :=
  match goal with |- is_Some (match ?g ≫= _ with _ => _ end) =>
    let E := fresh in assert (E : g = Some u) by exact Hu; rewrite E; clear E
  end.

Definition same_but_seen (w w' : Catalog * Promotions) : Prop :=
  w'.2 = w.2 /\ staged_documents w'.1 = staged_documents w.1 /\
  same_observations w.1 w'.1.

Lemma ensure_spec c p :
  wp (ensure_promotion_items_and_stores portal source_file applied_at)
    (fun _ w' => same_but_seen (c, p) w' /\
       (forall i, i ∈ staged (staged_promotion_items p) source_file ->
          is_Some (retailer_items w'.1 !! (portal, spi_source_item_code i))) /\
       (forall s r, s ∈ staged (staged_promotion_stores p) source_file ->
          r ∈ staged (staged_promotions p) source_file -> spm_record_index r = sps_record_index s ->
          is_Some (stores w'.1 !! store_of portal (spm_subchain_id r) (sps_source_store_code s))))
    (fun _ _ => True) (c, p).
Proof.
  unfold ensure_promotion_items_and_stores. wp_step. wp_step. cbn [fst snd]. wp_step. apply wp_lift. apply wp_write; [done|].
  intros it Hit%checked_upsert_some. wp_step. wp_step; [done|]. apply wp_lift. apply wp_write; [done|].
  intros st Hst%checked_upsert_some. cbn [fst snd]. split; [done|]. split.
  - intros i Hi. cbn [retailer_items set_stores set_retailer_items]. rewrite Hit, upserted_lookup, map_lookup_imap.
    assert (Hc : is_Some (child_items portal source_file p !! (portal, spi_source_item_code i))).
    { unfold child_items. apply elem_of_dom. rewrite dom_list_to_map_L. apply elem_of_list_to_set.
      rewrite map_map. apply list_elem_of_fmap. by exists i. }
    destruct Hc as [u Hu]. found u Hu. cbn. by destruct (retailer_items c !! _).
  - intros s r Hs Hr Hi. cbn [stores set_stores]. rewrite Hst, upserted_lookup, map_lookup_imap.
    assert (Hc : is_Some ((list_to_map (child_stores portal source_file p) : gmap store_key pystr)
      !! store_of portal (spm_subchain_id r) (sps_source_store_code s))).
    { apply elem_of_dom. rewrite dom_list_to_map_L. apply elem_of_list_to_set, list_elem_of_fmap.
      exists (store_of portal (spm_subchain_id r) (sps_source_store_code s), spm_chain_id r).
      split; [done|]. unfold child_stores. apply elem_of_remove_dups, list_elem_of_bind. exists s.
      split; [|done]. apply list_elem_of_bind. exists r. split; [|done].
      rewrite (proj2 (Z.eqb_eq _ _) Hi). by apply list_elem_of_singleton. }
    destruct Hc as [u Hu]. found u Hu. cbn. by destruct (stores _ !! _).
Qed.

(** ** Promotions *)

(** Every row that has ended has ended by [T]. *)
Definition recorded_by (T : Z) rows : Prop := forall a e, a ∈ rows -> prm_valid_to a = Some e -> e <= T.

(** The open value of a promotion has the fingerprint of the incoming one. *)
Definition holds_already (open : option PromotionValue) (r : StagedPromotion) : bool :=
  match open with
  | Some v => bool_decide (pmv_fingerprint v = pmv_fingerprint (spm_value r))
  | None => false
  end.

Section incoming.
Context (incoming : gmap promotion_key StagedPromotion).

(** What the file brings that is new or changed. *)
Definition brought rows (k : promotion_key) : option StagedPromotion :=
  match incoming !! k with
  | Some r => if holds_already (open_value rows k) r then None else Some r
  | None => None
  end.

Lemma changed_spec rows k : promotion_changed incoming rows k
  = match incoming !! k with
    | Some r => bool_decide (is_Some (open_value rows k)) && negb (holds_already (open_value rows k) r)
    | None => false
    end.
Proof.
  unfold promotion_changed. rewrite open_promotion_value.
  destruct (incoming !! k) as [r|]; [|done]. by destruct (open_promotion rows k) as [a|].
Qed.

Lemma missing_lookup rows r1 r2 k : close_rows (promotion_changed incoming rows) applied_at rows = Some r1 ->
  same_periods r1 r2 -> missing_promotions incoming r2 !! k = brought rows k.
Proof.
  intros Hc Hr. assert (Ho : open_promotion r2 k = None <-> open_value r2 k = None).
  { rewrite open_promotion_value. by rewrite fmap_None. }
  assert (Hv : open_value r2 k = open_value r1 k) by (by rewrite Hr).
  rewrite Hv, (close_rows_open _ _ _ _ k Hc), changed_spec in Ho.
  apply option_eq. intros r. unfold missing_promotions, brought. rewrite map_lookup_filter_Some, Ho.
  destruct (incoming !! k) as [r0|]; [|naive_solver]. destruct (open_value rows k) as [v|]; cbn in Ho |- *.
  - destruct (bool_decide _); cbn in Ho; naive_solver.
  - naive_solver.
Qed.

(** After the rows are closed, observed and inserted. *)
Lemma insert_spec rows r1 r3 : timeline rows -> recorded_by applied_at rows ->
  close_rows (promotion_changed incoming rows) applied_at rows = Some r1 ->
  insert_promotions source_file applied_at uuidv7 incoming
    (observe_open source_file applied_at (promotion_unchanged incoming r1) r1) = Some r3 ->
  timeline r3 /\
  (forall k t, as_of r3 k t = if applied_at <=? t
     then match brought rows k with Some r => Some (spm_value r) | None => as_of rows k t end
     else as_of rows k t) /\
  (forall k, open_value r3 k
     = match brought rows k with Some r => Some (spm_value r) | None => open_value rows k end).
Proof.
  intros Ht Hrec Hc. pose proof (observe_open_same source_file applied_at (promotion_unchanged incoming r1) r1) as Hr.
  set (r2 := observe_open _ _ _ _) in *. unfold insert_promotions.
  destruct (forallb _ _); [|done]. set (new := map _ _). intros Hi.
  destruct (open_rows_same new r1 r2 r3 Hr Hi) as [Hopen Hsame].
  pose proof (fun k => missing_lookup rows r1 r2 k Hc Hr) as Hmiss.
  assert (Hnew : forall k, open_value new k = spm_value <$> brought rows k).
  { intros k. unfold new. rewrite (of_map_open (inserted_promotion source_file applied_at uuidv7)) by done.
    rewrite Hmiss. by destruct (brought rows k). }
  destruct (replace_rows (promotion_changed incoming rows) applied_at new rows r1 (r1 ++ new))
    as (Ht3 & Has & Ho); try done.
  - apply Forall_forall. intros a (x & -> & _)%list_elem_of_fmap. done.
  - intros a e Ha _ He. by eapply Hrec.
  - intros k Hk Hs. rewrite Hnew, fmap_is_Some. rewrite changed_spec in Hk. unfold brought.
    destruct (incoming !! k) as [r|]; [|done]. apply andb_true_iff in Hk as [_ Hk%negb_true_iff].
    rewrite Hk. by eexists.
  - rewrite Hsame in Ht3. split; [done|]. split.
    + intros k t. rewrite <- Hsame, Has, Hnew. by destruct (brought rows k).
    + intros k. rewrite <- Hsame, Ho, Hnew. by destruct (brought rows k).
Qed.

(** What the file makes of the promotions, when it makes [absent] keys absent. *)
Definition promotion_after (absent : promotion_key -> bool) rows (k : promotion_key) (t : Z)
    : option PromotionValue :=
  if applied_at <=? t then
    match brought rows k with
    | Some r => Some (spm_value r)
    | None => if absent k then None else as_of rows k t
    end
  else as_of rows k t.

Lemma absent_spec rows r3 r4 absent : recorded_by applied_at rows -> timeline r3 ->
  (forall k, absent k = true -> incoming !! k = None) ->
  (forall k t, as_of r3 k t = if applied_at <=? t
     then match brought rows k with Some r => Some (spm_value r) | None => as_of rows k t end
     else as_of rows k t) ->
  (forall k, open_value r3 k
     = match brought rows k with Some r => Some (spm_value r) | None => open_value rows k end) ->
  close_rows absent applied_at (observe_open source_file applied_at absent r3) = Some r4 ->
  timeline r4 /\
  (forall k t, as_of r4 k t = promotion_after absent rows k t) /\
  (forall k, open_value r4 k = if absent k then None else match brought rows k with
     | Some r => Some (spm_value r) | None => open_value rows k end).
Proof.
  intros Hrec Ht Habs Has Ho Hc.
  pose proof (observe_open_same source_file applied_at absent r3) as Hr.
  assert (Ht3 : timeline (observe_open source_file applied_at absent r3)) by (by rewrite <- Hr).
  assert (Hov : forall k, open_value (observe_open source_file applied_at absent r3) k = open_value r3 k)
    by (intros k; by rewrite <- Hr).
  assert (Hat : forall k t, as_of (observe_open source_file applied_at absent r3) k t = as_of r3 k t)
    by (intros k t; by rewrite <- Hr).
  split; [by eapply close_rows_timeline|]. split.
  - intros k t. rewrite (close_rows_as_of _ _ _ _ k t Ht3 Hc), Hov, Hat, Has, Ho. unfold promotion_after.
    destruct (Z.leb_spec applied_at t) as [Hle|]; [|by rewrite andb_false_r].
    destruct (absent k) eqn:Ek; cbn; [|by destruct (brought rows k)].
    unfold brought. rewrite (Habs k Ek). case_bool_decide as E; [done|].
    apply eq_None_not_Some in E. apply (ended_as_of applied_at); [|done|done].
    intros a e Ha _ He. by eapply Hrec.
  - intros k. by rewrite (close_rows_open _ _ _ _ k Hc), Hov, Ho.
Qed.
End incoming.

(** ** The relations of a file *)

(** [id] is the open promotion of an incoming record. *)
Definition parent (incoming : gmap promotion_key StagedPromotion) rows (id : uuid) (r : StagedPromotion) : Prop :=
  exists a, a ∈ rows /\ prm_id a = id /\ prm_valid_to a = None /\ incoming !! prm_key a = Some r.

Lemma attach_spec incoming c p :
  (forall i, i ∈ staged (staged_promotion_items p) source_file ->
     is_Some (retailer_items c !! (portal, spi_source_item_code i))) ->
  wp (attach_promotion_relations portal source_file incoming)
    (fun _ w' => w'.1 = c /\ promotions w'.2 = promotions p /\
       (forall id x, is_Some (promotion_items w'.2 !! (id, x)) <-> is_Some (promotion_items p !! (id, x)) \/
          exists r i, parent incoming (promotions p) id r /\
            i ∈ staged (staged_promotion_items p) source_file /\
            spi_record_index i = spm_record_index r /\ x = (portal, spi_source_item_code i)) /\
       (forall id x, is_Some (promotion_stores w'.2 !! (id, x)) <-> is_Some (promotion_stores p !! (id, x)) \/
          exists r s, parent incoming (promotions p) id r /\
            s ∈ staged (staged_promotion_stores p) source_file /\
            sps_record_index s = spm_record_index r /\
            x = store_of portal (spm_subchain_id r) (sps_source_store_code s) /\ is_Some (stores c !! x)) /\
       (forall id x, is_Some (promotion_clubs w'.2 !! (id, x)) <-> is_Some (promotion_clubs p !! (id, x)) \/
          exists r cl, parent incoming (promotions p) id r /\
            cl ∈ staged (staged_promotion_clubs p) source_file /\
            spc_record_index cl = spm_record_index r /\ x = spc_club_id cl))
    (fun _ _ => True) (c, p).
Proof.
  intros Hitems. unfold attach_promotion_relations. wp_step. wp_step. apply wp_on_locals. wp_step.
  cbn [fst snd promotions promotion_items promotion_stores promotion_clubs set_relations].
  split; [done|]. split; [done|]. split_and!; intros id x; rewrite insert_new_lookup; apply or_iff_compat_l;
    rewrite list_elem_of_fmap; split.
  - intros ([k v] & Hk & Hin). cbn in Hk. subst k. apply list_elem_of_omap in Hin as ([[a r] i] & Hin & Hx).
    apply elem_of_attached in Hin as (Hi & Ha & Ho & Hr & Hidx). cbn in *.
    case_bool_decide; [|done]. simplify_eq. exists r, i. split_and!; try done. by exists a.
  - intros (r & i & (a & Ha & <- & Ho & Hr) & Hi & Hidx & ->).
    exists ((prm_id a, (portal, spi_source_item_code i)), (spi_item_type i, spi_is_gift i)). split; [done|].
    apply list_elem_of_omap. exists (a, r, i). split; [by apply elem_of_attached|].
    by rewrite bool_decide_eq_true_2 by auto.
  - intros ([k v] & Hk & Hin). cbn in Hk. subst k. apply list_elem_of_omap in Hin as ([[a r] i] & Hin & Hx).
    apply elem_of_attached in Hin as (Hi & Ha & Ho & Hr & Hidx). cbn in *.
    case_bool_decide; [|done]. simplify_eq. exists r, i. split_and!; try done. by exists a.
  - intros (r & i & (a & Ha & <- & Ho & Hr) & Hi & Hidx & -> & Hs).
    exists ((prm_id a, store_of portal (spm_subchain_id r) (sps_source_store_code i)), tt). split; [done|].
    apply list_elem_of_omap. exists (a, r, i). split; [by apply elem_of_attached|].
    by rewrite bool_decide_eq_true_2 by auto.
  - intros ([k v] & Hk & Hin). cbn in Hk. subst k. apply list_elem_of_fmap in Hin as ([[a r] i] & Hx & Hin).
    apply elem_of_attached in Hin as (Hi & Ha & Ho & Hr & Hidx). cbn in *.
    simplify_eq. exists r, i. split_and!; try done. by exists a.
  - intros (r & i & (a & Ha & <- & Ho & Hr) & Hi & Hidx & ->).
    exists ((prm_id a, spc_club_id i), tt). split; [done|].
    apply list_elem_of_fmap. exists (a, r, i). split; [done|by apply elem_of_attached].
Qed.

(** The ids of the rows to insert are new. *)
Record fresh_ids (p : Promotions) : Prop := {
  fi_rows : forall a k, a ∈ promotions p -> prm_id a <> uuidv7 k;
  fi_injective : forall k k', uuidv7 k = uuidv7 k' -> k = k';
  fi_items : forall k x, promotion_items p !! (uuidv7 k, x) = None;
  fi_stores : forall k x, promotion_stores p !! (uuidv7 k, x) = None;
  fi_clubs : forall k x, promotion_clubs p !! (uuidv7 k, x) = None
}.

(** The parent of an inserted row is its own record. *)
Lemma inserted_parent incoming rows r1 r3 k r r' :
  (forall a k, a ∈ rows -> prm_id a <> uuidv7 k) -> (forall k k', uuidv7 k = uuidv7 k' -> k = k') ->
  close_rows (promotion_changed incoming rows) applied_at rows = Some r1 ->
  insert_promotions source_file applied_at uuidv7 incoming
    (observe_open source_file applied_at (promotion_unchanged incoming r1) r1) = Some r3 ->
  brought incoming rows k = Some r ->
  parent incoming r3 (uuidv7 k) r' <-> r' = r.
Proof.
  intros Hrows Hinj Hc Hi Hb.
  pose proof (observe_open_same source_file applied_at (promotion_unchanged incoming r1) r1) as Hr.
  set (r2 := observe_open _ _ _ _) in *. pose proof (fun k => missing_lookup incoming rows r1 r2 k Hc Hr) as Hmiss.
  unfold insert_promotions in Hi. destruct (forallb _ _); [|done]. apply open_rows_some in Hi as (-> & _ & _).
  assert (Hold : forall a, a ∈ r2 -> exists b, b ∈ rows /\ prm_id a = prm_id b).
  { intros a (b & -> & Hb')%list_elem_of_fmap. apply close_rows_some in Hc as [-> _].
    apply list_elem_of_fmap in Hb' as (b0 & -> & Hb0). exists b0. split; [done|].
    unfold closed_row. by repeat case_match. }
  assert (Hin : incoming !! k = Some r).
  { unfold brought in Hb. destruct (incoming !! k) as [r0|]; [|done]. by destruct (holds_already _ _); simplify_eq. }
  split.
  - intros (a & [Ha|Ha]%elem_of_app & Hid & _ & Hr').
    + destruct (Hold a Ha) as (b & Hb' & Hab). exfalso. apply (Hrows b k Hb'). congruence.
    + apply list_elem_of_fmap in Ha as ([k' r0] & -> & Ha%elem_of_map_to_list). cbn in *.
      apply Hinj in Hid as ->. congruence.
  - intros ->. exists (inserted_promotion source_file applied_at uuidv7 (k, r)). split; [|done].
    apply elem_of_app. right. apply list_elem_of_fmap. exists (k, r). split; [done|].
    apply elem_of_map_to_list. by rewrite Hmiss.
Qed.

(** ** The whole file *)

(** The keys a file makes absent. *)
Definition absent_promotions (is_full : bool) (c : Catalog) (p : Promotions) (k : promotion_key) : bool :=
  let incoming := promotion_incoming portal source_file p in
  is_full && absent_promotion portal incoming (incoming_scopes incoming ∪ document_scopes source_file c) k.

Lemma absent_not_incoming is_full c p k : absent_promotions is_full c p k = true ->
  promotion_incoming portal source_file p !! k = None.
Proof. unfold absent_promotions, absent_promotion. rewrite !andb_true_iff, !bool_decide_eq_true. tauto. Qed.

(** The number of incoming promotions that are new or changed. *)
Lemma count_brought incoming rows r1 r2 :
  close_rows (promotion_changed incoming rows) applied_at rows = Some r1 -> same_periods r1 r2 ->
  py_len (map_to_list (missing_promotions incoming r2))
  = count (fun k _ => bool_decide (open_promotion rows k = None)) incoming
    + count (fun k _ => promotion_changed incoming rows k) incoming.
Proof.
  intros Hc Hr. rewrite size_msum, !count_msum, <- msum_plus.
  transitivity (count (fun k r => match brought incoming rows k with Some _ => true | None => false end) incoming).
  - rewrite <- size_msum. unfold count, py_len. rewrite length_map_to_list. do 2 f_equal. apply map_eq. intros k.
    rewrite (missing_lookup incoming rows r1 r2 k Hc Hr). symmetry. apply option_eq. intros r.
    rewrite map_lookup_filter_Some. unfold brought. destruct (incoming !! k) as [r0|]; [|naive_solver].
    destruct (holds_already _ _); naive_solver.
  - rewrite count_msum. apply msum_ext. intros k r Hk. unfold brought. rewrite changed_spec, Hk.
    rewrite open_promotion_value. destruct (open_promotion rows k) as [a|]; cbn; [|done].
    by destruct (bool_decide _).
Qed.

Lemma count_promotions incoming rows :
  count (fun k _ => bool_decide (open_promotion rows k = None)) incoming
  + count (fun k _ => promotion_changed incoming rows k) incoming
  + count (fun k _ => promotion_unchanged incoming rows k) incoming = py_len (map_to_list incoming).
Proof.
  rewrite !count_msum, <- !msum_plus, size_msum. apply msum_ext. intros k r Hk.
  unfold promotion_changed, promotion_unchanged. rewrite Hk.
  destruct (open_promotion rows k); cbn; [|done]. by destruct (bool_decide _).
Qed.

Lemma write_promotions_spec (is_full : bool) c p :
  let incoming := promotion_incoming portal source_file p in
  timeline (promotions p) -> recorded_by applied_at (promotions p) -> fresh_ids p ->
  (forall i, i ∈ staged (staged_promotion_items p) source_file ->
     is_Some (retailer_items c !! (portal, spi_source_item_code i))) ->
  wp (write_promotions portal source_file applied_at uuidv7 is_full)
    (fun s w' => w'.1 = c /\ timeline (promotions w'.2) /\
       (forall k t, as_of (promotions w'.2) k t
          = promotion_after incoming (absent_promotions is_full c p) (promotions p) k t) /\
       inserted s + updated s + unchanged s = py_len (map_to_list incoming) /\
       history_events s = inserted s + updated s + unavailable s /\
       py_len (promotions w'.2) = py_len (promotions p) + inserted s + updated s /\
       (forall k r, brought incoming (promotions p) k = Some r ->
          (forall x, is_Some (promotion_items w'.2 !! (uuidv7 k, x)) <->
             exists i, i ∈ staged (staged_promotion_items p) source_file /\
               spi_record_index i = spm_record_index r /\ x = (portal, spi_source_item_code i)) /\
          (forall x, is_Some (promotion_stores w'.2 !! (uuidv7 k, x)) <->
             exists s, s ∈ staged (staged_promotion_stores p) source_file /\
               sps_record_index s = spm_record_index r /\
               x = store_of portal (spm_subchain_id r) (sps_source_store_code s) /\ is_Some (stores c !! x)) /\
          (forall x, is_Some (promotion_clubs w'.2 !! (uuidv7 k, x)) <->
             exists cl, cl ∈ staged (staged_promotion_clubs p) source_file /\
               spc_record_index cl = spm_record_index r /\ x = spc_club_id cl)))
    (fun _ _ => True) (c, p).
Proof.
  intros incoming Ht Hrec [Hrows Hinj Hfi Hfs Hfc] Hitems. unfold write_promotions. wp_step. wp_step. cbn [snd]. fold incoming.
  wp_step. apply wp_on_locals. apply wp_write; [done|]. intros r1 Hclose. wp_step. apply wp_on_locals. wp_step.
  wp_step. apply wp_on_locals. apply wp_write; [done|]. cbn [promotions set_promotions].
  intros r3 Hins.
  destruct (insert_spec incoming (promotions p) r1 r3 Ht Hrec Hclose Hins) as (Ht3 & Has3 & Ho3).
  assert (Hlen : py_len r3 = py_len (promotions p)
    + count (fun k _ => bool_decide (open_promotion (promotions p) k = None)) incoming
    + count (fun k _ => promotion_changed incoming (promotions p) k) incoming).
  { rewrite <- Z.add_assoc, <- (count_brought incoming (promotions p) r1 _ Hclose
      (observe_open_same source_file applied_at (promotion_unchanged incoming r1) r1)).
    unfold insert_promotions in Hins. destruct (forallb _ _); [|done].
    apply open_rows_some in Hins as [-> _]. apply close_rows_some in Hclose as [-> _].
    rewrite py_len_app. unfold py_len, observe_open. by rewrite !length_map. }
  wp_step. set (p3 := set_promotions _ _).
  eapply wp_mono; [by apply (attach_spec incoming c p3)| |done].
  intros _ [c4 p4] (Hc & Hp4 & Hi4 & Hs4 & Hc4). cbn [fst snd] in *. subst c4.
  assert (Hrel : forall k r, brought incoming (promotions p) k = Some r -> forall r',
    parent incoming (promotions p3) (uuidv7 k) r' <-> r' = r).
  { intros k r Hb r'. by eapply inserted_parent. }
  assert (Hrelations : forall p', promotion_items p' = promotion_items p4 ->
    promotion_stores p' = promotion_stores p4 -> promotion_clubs p' = promotion_clubs p4 ->
    forall k r, brought incoming (promotions p) k = Some r ->
      (forall x, is_Some (promotion_items p' !! (uuidv7 k, x)) <->
         exists i, i ∈ staged (staged_promotion_items p) source_file /\
           spi_record_index i = spm_record_index r /\ x = (portal, spi_source_item_code i)) /\
      (forall x, is_Some (promotion_stores p' !! (uuidv7 k, x)) <->
         exists s, s ∈ staged (staged_promotion_stores p) source_file /\
           sps_record_index s = spm_record_index r /\
           x = store_of portal (spm_subchain_id r) (sps_source_store_code s) /\ is_Some (stores c !! x)) /\
      (forall x, is_Some (promotion_clubs p' !! (uuidv7 k, x)) <->
         exists cl, cl ∈ staged (staged_promotion_clubs p) source_file /\
           spc_record_index cl = spm_record_index r /\ x = spc_club_id cl)).
  { intros p' Ei Es Ec k r Hb. rewrite Ei, Es, Ec.
    assert (E3 : promotion_items p3 = promotion_items p /\ promotion_stores p3 = promotion_stores p /\
      promotion_clubs p3 = promotion_clubs p) by done. destruct E3 as (Ei3 & Es3 & Ec3).
    split_and!; intros x; [rewrite Hi4, Ei3, Hfi|rewrite Hs4, Es3, Hfs|rewrite Hc4, Ec3, Hfc];
      setoid_rewrite (Hrel k r Hb); (split; [intros [[? ?]|(? & ? & -> & ?)]; [done|by eauto]|]);
      intros (? & ?); right; eauto. }
  wp_step. destruct is_full.
  - unfold close_absent. wp_step. wp_step. wp_step. apply wp_on_locals. apply wp_write; [done|].
    rewrite Hp4. intros r5 Hc5. wp_step. wp_step.
    cbn [inserted updated unchanged unavailable history_events fst snd promotions set_promotions].
    destruct (absent_spec incoming (promotions p) r3 r5 (absent_promotions true c p) Hrec Ht3
      (absent_not_incoming true c p) Has3 Ho3 Hc5) as (Ht5 & Has5 & _).
    split_and!; try done; [apply count_promotions| |by apply Hrelations].
    rewrite <- Hlen. apply close_rows_some in Hc5 as [-> _]. unfold py_len, observe_open. by rewrite !length_map.
  - wp_step. wp_step. cbn [inserted updated unchanged unavailable history_events fst snd]. rewrite Hp4.
    split_and!; try done; [apply count_promotions|by apply Hrelations].
Qed.

Lemma promotion_validation_reads is_full minimum drop w :
  wp (when is_full (validate_full_promotion_snapshot portal source_file minimum drop))
    (fun _ w' => w' = w) (fun _ _ => True) w.
Proof.
  destruct is_full; [|done]. destruct w as [c p]. cbn [when]. unfold validate_full_promotion_snapshot.
  wp_step. wp_step. wp_step. wp_step; [done|].
  assert (Hloop : forall l, wp (for_each (fun '(s, incoming_count) =>
    validate_drop incoming_count (prior_promotions portal p s) drop) l)
    (fun _ w' => w' = (c, p)) (fun _ _ => True) (c, p)).
  { induction l as [|[s n] l IH]; cbn [for_each]; [by wp_step|]. wp_step.
    unfold validate_drop. destruct (_ || _); [by wp_step|]. by wp_step. }
  apply Hloop.
Qed.

(** The relations of the record [r], as a file stages them. *)
Definition staged_relations (p p' : Promotions) (id : uuid) (r : StagedPromotion) : Prop :=
  (forall x, is_Some (promotion_items p' !! (id, x)) <->
     exists i, i ∈ staged (staged_promotion_items p) source_file /\
       spi_record_index i = spm_record_index r /\ x = (portal, spi_source_item_code i)) /\
  (forall x, is_Some (promotion_stores p' !! (id, x)) <->
     exists s, s ∈ staged (staged_promotion_stores p) source_file /\
       sps_record_index s = spm_record_index r /\
       x = store_of portal (spm_subchain_id r) (sps_source_store_code s)) /\
  (forall x, is_Some (promotion_clubs p' !! (id, x)) <->
     exists cl, cl ∈ staged (staged_promotion_clubs p) source_file /\
       spc_record_index cl = spm_record_index r /\ x = spc_club_id cl).

Lemma apply_promotions_spec (is_full : bool) minimum drop c p :
  let incoming := promotion_incoming portal source_file p in
  timeline (promotions p) -> recorded_by applied_at (promotions p) -> fresh_ids p ->
  wp (apply_promotions portal source_file applied_at uuidv7 is_full minimum drop)
    (fun s w' => same_observations c w'.1 /\ timeline (promotions w'.2) /\
       (forall k t, as_of (promotions w'.2) k t
          = promotion_after incoming (absent_promotions is_full c p) (promotions p) k t) /\
       inserted s + updated s + unchanged s = py_len (map_to_list incoming) /\
       history_events s = inserted s + updated s + unavailable s /\
       py_len (promotions w'.2) = py_len (promotions p) + inserted s + updated s /\
       (forall k r, brought incoming (promotions p) k = Some r -> staged_relations p w'.2 (uuidv7 k) r))
    (fun _ _ => True) (c, p).
Proof.
  intros incoming Ht Hrec Hfresh. unfold apply_promotions. wp_step.
  eapply wp_mono; [apply promotion_validation_reads| |done]. intros _ w ->. wp_step.
  eapply wp_mono; [apply ensure_spec| |done].
  intros _ [c1 p1] ((Hp & Hdoc & Hsame) & Hitems & Hstores). cbn [fst snd] in *. subst p1.
  eapply wp_mono; [by apply write_promotions_spec| |done]. cbv beta.
  intros s [c2 p2] (Hc & Ht2 & Has & Hn & He & Hlen & Hrel). cbn [fst snd] in *. subst c2.
  split_and!; try done.
  - intros k t. rewrite Has. unfold promotion_after, absent_promotions, document_scopes. by rewrite Hdoc.
  - intros k r Hb. destruct (Hrel k r Hb) as (Hi & Hs & Hc). split; [done|]. split; [|done].
    intros x. rewrite Hs. split; [naive_solver|]. intros (st & Hin & Hidx & ->). exists st. split_and!; try done.
    apply Hstores; [done| |done]. unfold brought in Hb.
    pose proof (latest_spec (promotion_key_of portal) spm_record_index (staged (staged_promotions p) source_file) k) as Hl.
    unfold incoming, promotion_incoming in Hb. destruct (latest _ _ _ !! k) as [r0|]; [|done].
    destruct (holds_already _ _); [done|]. simplify_eq. tauto.
Qed.

(** Whatever state the promotions are in, the prices are left alone. *)
Lemma apply_promotions_keeps (is_full : bool) minimum drop c p :
  wp (apply_promotions portal source_file applied_at uuidv7 is_full minimum drop)
    (fun _ w' => same_observations c w'.1) (fun _ _ => True) (c, p).
Proof.
  unfold apply_promotions. wp_step. eapply wp_mono; [apply promotion_validation_reads| |done]. intros _ w ->.
  wp_step. eapply wp_mono; [apply ensure_spec| |done]. intros _ [c1 p1] ((_ & _ & Hsame) & _). cbn [fst] in Hsame.
  unfold write_promotions. wp_step. wp_step. wp_step. apply wp_on_locals. apply wp_write; [done|]. intros r1 _.
  wp_step. apply wp_on_locals. wp_step. wp_step. apply wp_on_locals. apply wp_write; [done|]. intros r2 _.
  wp_step. unfold attach_promotion_relations. wp_step. wp_step. apply wp_on_locals. wp_step. wp_step.
  destruct is_full; [|by do 2 wp_step].
  unfold close_absent. wp_step. wp_step. wp_step. apply wp_on_locals. apply wp_write; [done|]. intros r3 _.
  by do 2 wp_step.
Qed.
End promotions.
