(* ===== verification/Apply.v ===== *)
(** [PostgresIngestionRepository.apply] of
    [src/src/makolet/adapters/persistence/ingestion.py]: one transaction that orders a file
    against what is applied already, applies it and moves the watermarks, or quarantines it.

    The advisory locks make an apply exclusive for its file and for the family of its
    portal, so an apply is one step on the tables.  The catalog matching keeps its tables in
    [Y]; [uuidv7] supplies the ids of new promotion rows. *)
From Stdlib Require Import SpecFloat.
From S2P Require Import Prelude Errors Effects Enums PyNumbers Models AppModels Ports Database SourceFiles Staging Temporal Catalog Prices Roster Promotions.

(** The order in which files may be applied: [_prepare_source_scopes],
    [_validate_source_ordering], [_record_generated_issue], [_claim_content] and
    [_advance_source_watermarks] of [src/src/makolet/adapters/persistence/ingestion.py], on
    the tables an apply works on. *)
(** ** Tables *)

(** [source_scope_watermarks]: keyed by portal, family, subchain and scope. *)
Abbreviation watermark_key := (portal_key * pystr * (pystr * pystr))%type.
Record Watermark := { wm_effective : Z; wm_sha256 : pystr; wm_source_file : uuid }.

(** [applied_source_contents], keyed by source file. *)
Record AppliedContent := {
  ac_portal : portal_key;
  ac_document_type : DocumentType;
  ac_content_sha256 : pystr;
  ac_applied_at : Z
}.

(** An attempt: an ingestion run, or a replay run. *)
Abbreviation attempt := (bool * uuid)%type.
Definition run_attempt_of (id : uuid) : attempt := (false, id).
Definition replay_attempt_of (id : uuid) : attempt := (true, id).

Record ApplyTables := {
  at_catalog : Catalog;
  at_promotions : Promotions;
  at_watermarks : gmap watermark_key Watermark;
  at_contents : gmap uuid AppliedContent;
  at_issues : list (attempt * ValidationIssue);
  at_stages : gmap attempt StageSummary;
  at_summaries : gmap attempt ApplySummary;
  at_rebuild_files : gmap (uuid * uuid) (option Z * option Z)
}.

Definition set_tables c p (t : ApplyTables) : ApplyTables := {|
  at_catalog := c; at_promotions := p; at_watermarks := at_watermarks t;
  at_contents := at_contents t; at_issues := at_issues t; at_stages := at_stages t;
  at_summaries := at_summaries t; at_rebuild_files := at_rebuild_files t |}.
Definition set_watermarks f (t : ApplyTables) : ApplyTables := {|
  at_catalog := at_catalog t; at_promotions := at_promotions t; at_watermarks := f (at_watermarks t);
  at_contents := at_contents t; at_issues := at_issues t; at_stages := at_stages t;
  at_summaries := at_summaries t; at_rebuild_files := at_rebuild_files t |}.
Definition set_contents f (t : ApplyTables) : ApplyTables := {|
  at_catalog := at_catalog t; at_promotions := at_promotions t; at_watermarks := at_watermarks t;
  at_contents := f (at_contents t); at_issues := at_issues t; at_stages := at_stages t;
  at_summaries := at_summaries t; at_rebuild_files := at_rebuild_files t |}.
Definition set_issues f g (t : ApplyTables) : ApplyTables := {|
  at_catalog := at_catalog t; at_promotions := at_promotions t; at_watermarks := at_watermarks t;
  at_contents := at_contents t; at_issues := f (at_issues t); at_stages := g (at_stages t);
  at_summaries := at_summaries t; at_rebuild_files := at_rebuild_files t |}.
Definition set_summaries f (t : ApplyTables) : ApplyTables := {|
  at_catalog := at_catalog t; at_promotions := at_promotions t; at_watermarks := at_watermarks t;
  at_contents := at_contents t; at_issues := at_issues t; at_stages := at_stages t;
  at_summaries := f (at_summaries t); at_rebuild_files := at_rebuild_files t |}.

(** ** Generated issues *)

Record IssueLimits := { maximum_issues : Z; maximum_issue_bytes : Z; maximum_evidence : Z }.

(** One occurrence of a severity, as a summary. *)
Definition issue_stage (severity : IssueSeverity) (bytes : Z) (sampled : bool) : StageSummary := {|
  metadata_records := 0; store_records := 0; price_records := 0; promotion_records := 0;
  warnings := if bool_decide (severity = WARNING) then 1 else 0;
  rejected_records := if bool_decide (severity = RECORD_REJECTION) then 1 else 0;
  file_quarantines := if bool_decide (severity = FILE_QUARANTINE) then 1 else 0;
  validation_issue_bytes := bytes;
  sampled_validation_issues := if sampled then 1 else 0 |}.

(** The counter columns of an attempt: those of its run, or the [stage] object of a replay. *)
Definition attempt_stage (a : attempt) (t : ApplyTables) : StageSummary :=
  default empty_stage (at_stages t !! a).

(** [_attempt_issue_summary]. *)
Definition attempt_issue_summary (a : attempt) (t : ApplyTables) : StageSummary :=
  let s := attempt_stage a t in {|
  metadata_records := 0; store_records := 0; price_records := 0; promotion_records := 0;
  warnings := warnings s; rejected_records := rejected_records s;
  file_quarantines := file_quarantines s; validation_issue_bytes := validation_issue_bytes s;
  sampled_validation_issues := sampled_validation_issues s |}.

(** [_record_generated_issue]. *)
Definition record_generated_issue (limits : IssueLimits) (source_file : uuid) (a : attempt)
    (severity : IssueSeverity) (code message : pystr) : M ApplyTables unit :=
  current ← gets (attempt_issue_summary a);
  let issue := {| vi_source_file_id := source_file; vi_severity := severity; vi_code := code;
                  vi_message := message; vi_record_index := None; vi_field_name := None;
                  vi_rejected_value := None |} in
  let issue_bytes := validation_issue_charge issue in
  let issue_count := warnings current + rejected_records current + file_quarantines current in
  raise_if ((maximum_issues limits <? issue_count + 1)
            || (maximum_issue_bytes limits <? validation_issue_bytes current + issue_bytes))
    (MakoletExn QuarantinedFileError 0);;
  let sampled := sampled_validation_issues current <? maximum_evidence limits in
  modify (set_issues (fun l => if sampled then l ++ [(a, issue)] else l)
            (fun m => <[ a := combine_stage (default empty_stage (m !! a)) (issue_stage severity issue_bytes sampled) ]> m)).

(** ** Scopes *)

Definition family_of (d : DocumentType) : pystr :=
  if is_price d then py "prices" else if is_promotion d then py "promotions" else py "stores".

(** The scopes the staged records name. *)
Definition record_scopes (source_file : uuid) (d : DocumentType) (t : ApplyTables)
    : option (list (pystr * pystr)) :=
  if bool_decide (d = STORES)
  then Some (map (fun r => (ss_subchain_id r, [])) (staged (staged_stores (at_catalog t)) source_file))
  else if is_price d
  then Some (map (fun r => (sp_subchain_id r, sp_source_store_id r))
               (staged (staged_prices (at_catalog t)) source_file))
  else if is_promotion d
  then Some (map (fun r => (spm_subchain_id r, spm_source_scope_store_code r))
               (staged (staged_promotions (at_promotions t)) source_file))
  else None.

(** [_prepare_source_scopes]: the records' scopes, or else those of the documents, or else
    the scope of nothing. *)
Definition prepare_source_scopes (source_file : uuid) (d : DocumentType)
    : M ApplyTables (gset (pystr * pystr)) :=
  t ← get_state;
  match record_scopes source_file d t with
  | None => raise (PyExn SnapshotValidationError)
  | Some [] =>
      match staged (staged_documents (at_catalog t)) source_file with
      | [] => mret {[ ([], []) ]}
      | documents => mret (list_to_set (map (fun doc =>
          (default [] (sdoc_subchain_id doc),
           if bool_decide (d = STORES) then [] else default [] (sdoc_store_id doc))) documents))
      end
  | Some scopes => mret (list_to_set scopes)
  end.

(** ** Ordering *)

Definition hours (n : Z) : Z := n * 3600 * 1000000.
Definition MAXIMUM_FUTURE_SOURCE_SKEW : Z := hours 24.
Definition SOURCE_STALENESS_WARNING_AGE : Z := hours (30 * 24).

(** The columns [_lock_source_for_apply] selects. *)
Record SourceForApply := {
  sa_portal : portal_key;
  sa_source_timestamp : option Z;
  sa_observed_at : Z;
  sa_content_sha256 : pystr
}.

Definition optional_max (a b : option Z) : option Z :=
  match a, b with Some x, Some y => Some (Z.max x y) | Some x, None => Some x | None, b => b end.
Definition list_maximum (l : list Z) : option Z := foldr (fun x m => optional_max (Some x) m) None l.

(** [max(declared_timestamps)], or the time of the archive. *)
Definition effective_timestamp (row : SourceForApply) (declared : list Z) : Z :=
  default (sa_observed_at row) (optional_max (list_maximum declared) (sa_source_timestamp row)).

(** The conflict of a file with the watermarks of its scopes, the first that is found. *)
Fixpoint watermark_conflict (effective : Z) (sha : pystr) (existing : list Watermark)
    : option (pystr * pystr) :=
  match existing with
  | [] => None
  | w :: existing =>
      if effective <? wm_effective w
      then Some (py "source_timestamp_regression",
                 py "Source timestamp precedes current normalized state; archive it with --archive-only and run a normalized rebuild")
      else if (effective =? wm_effective w) && negb (bool_decide (wm_sha256 w = sha))
      then Some (py "source_timestamp_conflict",
                 py "Different source content claims the same scope timestamp")
      else watermark_conflict effective sha existing
  end.

Definition declared_timestamps (source_file : uuid) (t : ApplyTables) : list Z :=
  omap sdoc_source_updated_at (staged (staged_documents (at_catalog t)) source_file).

(** The quarantine of a file, from its own timestamps and then from the watermarks. *)
Definition ordering_quarantine (row : SourceForApply) (declared : list Z) (existing : list Watermark)
    : option (pystr * pystr) :=
  let effective := effective_timestamp row declared in
  if 1 <? py_len (remove_dups declared)
  then Some (py "source_timestamp_conflict",
             py "One source file declares conflicting effective timestamps")
  else if sa_observed_at row + MAXIMUM_FUTURE_SOURCE_SKEW <? effective
  then Some (py "source_timestamp_future", py "Source timestamp is implausibly far in the future")
  else watermark_conflict effective (sa_content_sha256 row) existing.

Definition scope_watermarks (portal : portal_key) (d : DocumentType) (scopes : gset (pystr * pystr))
    (t : ApplyTables) : list Watermark :=
  omap (fun s => at_watermarks t !! (portal, family_of d, s)) (elements scopes).

(** [_validate_source_ordering]. *)
Definition validate_source_ordering (limits : IssueLimits) (source_file : uuid) (row : SourceForApply)
    (d : DocumentType) (a : attempt)
    : M ApplyTables (gset (pystr * pystr) * Z * option (pystr * pystr)) :=
  scopes ← prepare_source_scopes source_file d;
  declared ← gets (declared_timestamps source_file);
  when (bool_decide (list_maximum declared = None) && bool_decide (sa_source_timestamp row = None))
    (record_generated_issue limits source_file a WARNING (py "source_timestamp_missing")
       (py "Source has no declared timestamp; archive attachment time is used for ordering"));;
  let effective := effective_timestamp row declared in
  existing ← gets (scope_watermarks (sa_portal row) d scopes);
  let quarantine := ordering_quarantine row declared existing in
  when (effective <? sa_observed_at row - SOURCE_STALENESS_WARNING_AGE)
    (record_generated_issue limits source_file a WARNING (py "source_timestamp_stale")
       (py "Source timestamp is older than the configured freshness warning age"));;
  match quarantine with
  | Some (code, message) =>
      record_generated_issue limits source_file a FILE_QUARANTINE code message
  | None => mret tt
  end;;
  mret (scopes, effective, quarantine).

(** ** Claims and watermarks *)

(** [_claim_content]. *)
Definition claim_content (source_file : uuid) (row : SourceForApply) (d : DocumentType)
    (default_applied_at archive_applied_at : Z) (replay rebuild : option uuid) : M ApplyTables Z :=
  t ← get_state;
  match at_contents t !! source_file with
  | Some existing => mret (ac_applied_at existing)
  | None =>
      let rebuild_applied_at :=
        r ← rebuild; '(original, effective) ← at_rebuild_files t !! (r, source_file);
        match original with Some o => Some o | None => effective end in
      let applied_at := match rebuild_applied_at with
                        | Some x => x
                        | None => match replay with
                                  | Some _ => archive_applied_at
                                  | None => default_applied_at
                                  end
                        end in
      modify (set_contents (insert source_file
        {| ac_portal := sa_portal row; ac_document_type := d;
           ac_content_sha256 := sa_content_sha256 row; ac_applied_at := applied_at |}));;
      mret applied_at
  end.

(** [_advance_source_watermarks]. *)
Definition advance_source_watermarks (source_file : uuid) (portal : portal_key) (family : pystr)
    (effective : Z) (sha : pystr) (scopes : gset (pystr * pystr)) : M ApplyTables unit :=
  modify (set_watermarks (fun m => set_fold (fun s =>
    insert (portal, family, s)
      {| wm_effective := effective; wm_sha256 := sha; wm_source_file := source_file |}) m scopes)).

(** ** The source row *)

(** A source row joined to its archive object. *)
Definition archived_row (sid : uuid) (d : Db) : option (SourceRow * pystr) :=
  row ← sources d !! sid; '(sha, _) ← joined_archive d row; Some (row, sha).

(** [_lock_source_for_apply]. *)
Definition lock_source_for_apply (sid : uuid) (document_type : DocumentType) : M Db SourceForApply :=
  d ← get_state;
  match archived_row sid d with
  | None => raise not_found
  | Some (row, sha) =>
      let remote := src_remote row in
      raise_if (negb (bool_decide (rf_document_type remote = document_type))) conflict;;
      let replay_active := existsb (fun r => (rp_source r =? sid) && bool_decide (rp_finished_at r = None))
                             (replays d) in
      raise_if (negb (bool_decide (src_status row ∈ [APPLYING; COMPLETED])) && negb replay_active) conflict;;
      mret {| sa_portal := (rf_retailer_id remote, rf_portal_id remote);
              sa_source_timestamp := instant_of <$> rf_source_timestamp remote;
              sa_observed_at := instant_of match src_evidence row with
                                           | Some e => de_finished_at e
                                           | None => rf_discovered_at remote
                                           end;
              sa_content_sha256 := sha |}
  end.

(** [_current_attempt_ids]: the open replay, or else the current run. *)
Definition current_attempt_ids (sid : uuid) : M Db (option uuid * option uuid) :=
  d ← get_state;
  match find (fun r => (rp_source r =? sid) && bool_decide (rp_finished_at r = None)) (replays d) with
  | Some r => mret (None, Some (rp_id r))
  | None => run ← current_run_id sid; mret (Some run, None)
  end.

(** [_replay_rebuild_run_id]. *)
Definition replay_rebuild_run_id (replay : option uuid) : M Db (option uuid) :=
  d ← get_state;
  mret (id ← replay; r ← find (fun r => rp_id r =? id) (replays d); rp_rebuild r).

(** ** The transaction *)

Definition joint_transaction {T A} (m : M (Db * T) A) : M (Session_state * T) A :=
  fun '(s, t) => let '(r, (d, t')) := transaction m (db s, t) in (r, (with_db d s, t')).

(** [self._transaction(source_file_id)] around statements on all tables. *)
Definition in_joint_transaction {T A} (sid : option uuid) (m : M (Db * T) A) : M (Session_state * T) A :=
  lock ← gets (fun w => current_ingestion_lock w.1);
  raise_if (match lock, sid with
            | Some r, Some i => negb (bool_decide (r = source_file_resource i))
            | _, _ => false
            end) conflict;;
  joint_transaction m.

Section apply.
Context {Y : Type}.
Variable collate : pystr -> pystr -> bool.
Variable uuidv7 : Promotions -> promotion_key -> uuid.
Variable match_exact_gtins : portal_key -> uuid -> Z -> Catalog -> M Y unit.
Variable limits : IssueLimits.

Definition on_db {A} (m : M Db A) : M (Db * (ApplyTables * Y)) A :=
  zoom fst (fun d w => (d, w.2)) m.
Definition on_tables {A} (m : M ApplyTables A) : M (Db * (ApplyTables * Y)) A :=
  zoom (fun w => w.2.1) (fun t w => (w.1, (t, w.2.2))) m.

(** The dispatch on the document type. *)
Definition apply_document (sid : uuid) (portal : portal_key) (applied_at : Z) (d : DocumentType)
    (minimum_full_records : Z) (maximum_drop_fraction : float64) : M (ApplyTables * Y) ApplySummary :=
  if bool_decide (d = STORES) then
    zoom (fun w => at_catalog w.1) (fun c w => (set_tables c (at_promotions w.1) w.1, w.2))
      (apply_stores portal sid applied_at minimum_full_records maximum_drop_fraction)
  else if is_price d then
    zoom (fun w => (at_catalog w.1, w.2)) (fun '(c, y) w => (set_tables c (at_promotions w.1) w.1, y))
      (apply_prices collate portal sid applied_at (match_exact_gtins portal sid applied_at)
         (is_full_snapshot d) minimum_full_records maximum_drop_fraction)
  else if is_promotion d then
    p ← gets (fun w => at_promotions w.1);
    zoom (fun w => (at_catalog w.1, at_promotions w.1)) (fun '(c, p) w => (set_tables c p w.1, w.2))
      (apply_promotions portal sid applied_at (uuidv7 p) (is_full_snapshot d) minimum_full_records
         maximum_drop_fraction)
  else raise (PyExn SnapshotValidationError).

Definition attempt_of (run replay : option uuid) : attempt :=
  match replay, run with
  | Some r, _ => replay_attempt_of r
  | None, Some r => run_attempt_of r
  | None, None => run_attempt_of 0
  end.

(** The body of the [async with]: the summary, or the quarantine. *)
Definition apply_body (sid : uuid) (d : DocumentType) (minimum_full_records : Z)
    (maximum_drop_fraction : float64)
    : M (Db * (ApplyTables * Y)) (ApplySummary + (pystr * pystr)) :=
  row ← on_db (lock_source_for_apply sid d);
  '(run, replay) ← on_db (current_attempt_ids sid);
  rebuild ← on_db (replay_rebuild_run_id replay);
  on_db (assert_db_ingestion_allowed rebuild);;
  wall_clock_at ← on_db (gets clock);
  let a := attempt_of run replay in
  '(scopes, effective, quarantine) ← on_tables (validate_source_ordering limits sid row d a);
  match quarantine with
  | Some q => mret (inr q)
  | None =>
      applied_at ← on_tables (claim_content sid row d wall_clock_at effective replay rebuild);
      summary ← zoom snd (fun t w => (w.1, t))
        (apply_document sid (sa_portal row) applied_at d minimum_full_records maximum_drop_fraction);
      on_tables (advance_source_watermarks sid (sa_portal row) (family_of d) effective
        (sa_content_sha256 row) scopes);;
      on_tables (modify (set_summaries (insert a summary)));;
      mret (inl summary)
  end.

(** [apply]. *)
Definition apply (sid : uuid) (d : DocumentType) (minimum_full_records : Z)
    (maximum_drop_fraction : float64) : M (Session_state * (ApplyTables * Y)) ApplySummary :=
  raise_if (minimum_full_records <? 0) (PyExn ValueError);;
  raise_if (negb (float_leb (S754_zero false) maximum_drop_fraction
                  && float_leb maximum_drop_fraction (S754_finite false 1 0))) (PyExn ValueError);;
  r ← in_joint_transaction (Some sid) (apply_body sid d minimum_full_records maximum_drop_fraction);
  match r with
  | inl summary => mret summary
  | inr _ => raise (MakoletExn QuarantinedFileError 0)
  end.
End apply.
