(* ===== verification/ApplyFacts.v ===== *)
(** What an apply leaves: the order of the watermarks, and nothing when it raises. *)
From S2P Require Import Prelude Errors Effects Enums PyNumbers Models AppModels Ports Database SourceFiles Staging Temporal Catalog Prices PricesFacts Roster Promotions PromotionsFacts Apply.

(** ** Watermarks *)

(** A later watermark: a later time, or the same time and content. *)
Definition watermark_le (w w' : Watermark) : Prop :=
  wm_effective w < wm_effective w' \/
  (wm_effective w = wm_effective w' /\ wm_sha256 w = wm_sha256 w').
#[export] Instance watermark_le_preorder : PreOrder watermark_le.
Proof.
  split; [by right|]. unfold watermark_le.
  intros u v w [|[? ?]] [|[? ?]]; try (left; lia). right. split; congruence.
Qed.

(** No watermark is lost or set back. *)
Definition watermarks_advance (m m' : gmap watermark_key Watermark) : Prop :=
  forall k w, m !! k = Some w -> exists w', m' !! k = Some w' /\ watermark_le w w'.
#[export] Instance watermarks_advance_preorder : PreOrder watermarks_advance.
Proof.
  split.
  - intros m k w Hk. by exists w.
  - intros m1 m2 m3 H12 H23 k w Hk. destruct (H12 k w Hk) as (w2 & H2 & ?).
    destruct (H23 k w2 H2) as (w3 & H3 & ?). exists w3. split; [done|]. by etransitivity.
Qed.

Lemma watermark_conflict_none effective sha existing :
  watermark_conflict effective sha existing = None ->
  Forall (fun w => wm_effective w < effective \/ (wm_effective w = effective /\ wm_sha256 w = sha)) existing.
Proof.
  induction existing as [|w existing IH]; [constructor|]. cbn.
  destruct (Z.ltb_spec effective (wm_effective w)); [done|].
  destruct (Z.eqb_spec effective (wm_effective w)); cbn.
  - destruct (bool_decide_reflect (wm_sha256 w = sha)); cbn; [|done]. intros ?%IH. constructor; [by right|done].
  - intros ?%IH. constructor; [left; lia|done].
Qed.

(** The watermarks with one entry per scope replaced. *)
Lemma advanced_lookup (portal : portal_key) (family : pystr) (w : Watermark) (scopes : gset (pystr * pystr))
    (m : gmap watermark_key Watermark) :
  let m' := set_fold (fun s => insert (portal, family, s) w) m scopes in
  (forall s, s ∈ scopes -> m' !! (portal, family, s) = Some w) /\
  (forall k, (forall s, s ∈ scopes -> k <> (portal, family, s)) -> m' !! k = m !! k).
Proof.
  cbv zeta. revert scopes. apply (set_fold_ind_L (fun (m' : gmap watermark_key Watermark) scopes =>
    (forall s, s ∈ scopes -> m' !! (portal, family, s) = Some w) /\
    (forall k, (forall s, s ∈ scopes -> k <> (portal, family, s)) -> m' !! k = m !! k))).
  - split; [intros s Hs; set_solver|done].
  - intros x scopes m' Hx [IH1 IH2]. split.
    + intros s [->%elem_of_singleton|Hs]%elem_of_union; [apply lookup_insert_eq|].
      destruct (decide (s = x)) as [->|Hne]; [apply lookup_insert_eq|].
      rewrite lookup_insert_ne by congruence. auto.
    + intros k Hk. rewrite lookup_insert_ne; [|intros <-; by apply (Hk x); [set_solver|]].
      apply IH2. intros s Hs. apply Hk. set_solver.
Qed.

(** ** Steps that only read *)

Section body.
Context {Y : Type}.
Context (collate : pystr -> pystr -> bool) (uuidv7 : Promotions -> promotion_key -> uuid).
Context (match_exact : portal_key -> uuid -> Z -> Catalog -> M Y unit) (limits : IssueLimits).

Lemma wp_on_db {A} (m : M Db A) (Q : A -> Db * (ApplyTables * Y) -> Prop) E w :
  read_only m -> (forall a, m w.1 = (Returned a, w.1) -> Q a w) -> (forall e, E e w) -> wp (on_db m) Q E w.
Proof.
  intros Hm HQ HE. apply wp_zoom. unfold wp. pose proof (Hm w.1) as Hw.
  destruct (m w.1) as [[a|e] d] eqn:Em; cbn in Hw; subst d; rewrite <- surjective_pairing; auto.
Qed.

Lemma lock_reads sid d : read_only (lock_source_for_apply sid d).
Proof.
  intros w. unfold lock_source_for_apply, mbind, M_bind, get_state, raise_if.
  destruct (archived_row sid w) as [[row sha]|]; [|done].
  by destruct (negb (bool_decide (rf_document_type (src_remote row) = d))), (_ && _).
Qed.

Lemma attempt_reads sid : read_only (current_attempt_ids sid).
Proof.
  intros w. unfold current_attempt_ids, current_run_id, mbind, M_bind, get_state.
  destruct (find _ _); [done|]. by destruct (current_run sid w).
Qed.

Lemma rebuild_reads r : read_only (replay_rebuild_run_id r).
Proof. by intros w. Qed.

Lemma barrier_reads r : read_only (assert_db_ingestion_allowed r).
Proof.
  intros w. unfold assert_db_ingestion_allowed, mbind, M_bind, get_state, raise_if.
  destruct (active_rebuild w) as [a|]; [|by destruct r].
  by destruct (negb (bool_decide (r = Some a))), (negb (bool_decide (nr_status <$> rebuild_runs w !! a = Some REBUILD_RUNNING))).
Qed.

(** ** Steps on the tables *)

(** Only issues and their counts differ. *)
Definition only_issues (t t' : ApplyTables) : Prop :=
  at_catalog t' = at_catalog t /\ at_promotions t' = at_promotions t /\
  at_watermarks t' = at_watermarks t /\ at_contents t' = at_contents t.

Lemma only_issues_trans t1 t2 t3 : only_issues t1 t2 -> only_issues t2 t3 -> only_issues t1 t3.
Proof. unfold only_issues. intuition congruence. Qed.

Lemma generated_spec sid a severity code message t :
  wp (record_generated_issue limits sid a severity code message) (fun _ t' => only_issues t t')
    (fun e t' => t' = t) t.
Proof. unfold record_generated_issue. wp_step. wp_step. wp_step. wp_step; [done|]. by wp_step. Qed.

Lemma scopes_reads sid d t :
  wp (prepare_source_scopes sid d)
    (fun scopes t' => t' = t /\ prepare_source_scopes sid d t = (Returned scopes, t)) (fun _ t' => t' = t) t.
Proof.
  assert (Hr : read_only (prepare_source_scopes sid d)).
  { intros t0. unfold prepare_source_scopes, mbind, M_bind, get_state.
    destruct (record_scopes sid d t0) as [[|s l]|]; try done. by destruct (staged _ _). }
  unfold wp. pose proof (Hr t) as Ht. destruct (prepare_source_scopes sid d t) as [[a|e] t'] eqn:E; cbn in Ht; by subst t'.
Qed.

(** Ordering passes only files that advance the watermarks of their scopes. *)
Lemma ordering_spec sid row d a t :
  wp (validate_source_ordering limits sid row d a)
    (fun r t' => let '(scopes, effective, q) := r in only_issues t t' /\
       prepare_source_scopes sid d t = (Returned scopes, t) /\
       effective = effective_timestamp row (declared_timestamps sid t) /\
       (q = None -> forall s w, s ∈ scopes -> at_watermarks t !! (sa_portal row, family_of d, s) = Some w ->
          wm_effective w < effective \/ (wm_effective w = effective /\ wm_sha256 w = sa_content_sha256 row)))
    (fun _ _ => True) t.
Proof.
  unfold validate_source_ordering. wp_step. eapply wp_mono; [apply scopes_reads| |done].
  intros scopes ? [-> Hscopes]. wp_step. wp_step. set (declared := declared_timestamps sid t). wp_step.
  apply (wp_mono _ (fun _ t' => only_issues t t') _ (fun _ _ => True)); [|cbv beta|done].
  { destruct (_ && _); [|done]. cbn [when]. eapply wp_mono; [apply generated_spec|done|done]. }
  intros _ t1 H1. wp_step. wp_step. wp_step.
  apply (wp_mono _ (fun _ t' => only_issues t t') _ (fun _ _ => True)); [|cbv beta|done].
  { destruct (_ <? _); [|done]. cbn [when]. eapply wp_mono; [apply generated_spec| |done].
    intros ? t2. by apply only_issues_trans. }
  intros _ t2 H2. wp_step. set (q := ordering_quarantine _ _ _).
  apply (wp_mono _ (fun _ t' => only_issues t t') _ (fun _ _ => True)); [|cbv beta|done].
  { destruct q as [[code message]|]; [|done]. eapply wp_mono; [apply generated_spec| |done].
    intros ? t3. by apply only_issues_trans. }
  intros _ t3 H3. wp_step. do 3 (split; [done|]). intros Hq s w Hs Hw.
  unfold q, ordering_quarantine in Hq. destruct (1 <? _); [done|]. destruct (_ <? _); [done|].
  apply watermark_conflict_none in Hq. rewrite Forall_forall in Hq. apply (Hq w).
  unfold scope_watermarks. apply list_elem_of_omap. exists s. split; [by apply elem_of_elements|].
  destruct H1 as (_ & _ & -> & _). done.
Qed.

Lemma claim_spec sid row d default_at archive_at replay rebuild t :
  wp (claim_content sid row d default_at archive_at replay rebuild)
    (fun at_ t' => at_catalog t' = at_catalog t /\ at_promotions t' = at_promotions t /\
       at_watermarks t' = at_watermarks t /\
       (exists c, at_contents t' !! sid = Some c /\ ac_applied_at c = at_) /\
       (forall k c, at_contents t !! k = Some c -> at_contents t' !! k = Some c))
    (fun _ _ => True) t.
Proof.
  unfold claim_content. wp_step. wp_step. destruct (at_contents t !! sid) as [c|] eqn:Hc; wp_step.
  - split_and!; try done. by exists c.
  - wp_step. wp_step. cbn [at_catalog at_promotions at_watermarks at_contents set_contents].
    split_and!; try done; [eexists; split; [apply lookup_insert_eq|done]|].
    intros k c Hk. rewrite lookup_insert_ne; [done|congruence].
Qed.

(** Applying the document leaves the other tables alone. *)
Definition only_catalog (t t' : ApplyTables) : Prop :=
  at_watermarks t' = at_watermarks t /\ at_contents t' = at_contents t.

Lemma wp_zoom_post {W V A} (get : W -> V) put (m : M V A) (P : W -> Prop) E w :
  (forall v, P (put v w)) -> (forall e w', E e w') -> wp (zoom get put m) (fun _ w' => P w') E w.
Proof. intros HP HE. unfold wp, zoom. destruct (m (get w)) as [[a|e] v]; auto. Qed.

Lemma document_spec sid portal at_ d minimum drop t y :
  wp (apply_document collate uuidv7 match_exact sid portal at_ d minimum drop)
    (fun _ w' => only_catalog t w'.1) (fun _ _ => True) (t, y).
Proof.
  unfold apply_document. case_bool_decide; [|destruct (is_price d); [|destruct (is_promotion d)]].
  - by apply wp_zoom_post.
  - apply wp_zoom_post; [by intros [c y']|done].
  - wp_step. wp_step. apply wp_zoom_post; [by intros [c p']|done].
  - by wp_step.
Qed.

(** ** The body of the transaction *)

(** What an apply that is not quarantined does to the watermarks and the contents. *)
Definition applied (sid : uuid) (d : DocumentType) (dbv : Db) (t t' : ApplyTables) : Prop :=
  watermarks_advance (at_watermarks t) (at_watermarks t') /\
  (forall k c, at_contents t !! k = Some c -> at_contents t' !! k = Some c) /\
  is_Some (at_contents t' !! sid) /\
  exists row scopes, lock_source_for_apply sid d dbv = (Returned row, dbv) /\
    prepare_source_scopes sid d t = (Returned scopes, t) /\
    (forall s, s ∈ scopes -> at_watermarks t' !! (sa_portal row, family_of d, s) =
       Some {| wm_effective := effective_timestamp row (declared_timestamps sid t);
               wm_sha256 := sa_content_sha256 row; wm_source_file := sid |}) /\
    (forall k, (forall s, s ∈ scopes -> k <> (sa_portal row, family_of d, s)) ->
       at_watermarks t' !! k = at_watermarks t !! k).

Lemma body_spec sid d minimum drop dbv t y :
  wp (apply_body collate uuidv7 match_exact limits sid d minimum drop)
    (fun r w' => w'.1 = dbv /\ match r with
       | inr _ => only_issues t w'.2.1 /\ w'.2.2 = y
       | inl _ => applied sid d dbv t w'.2.1
       end)
    (fun _ _ => True) (dbv, (t, y)).
Proof.
  unfold apply_body. wp_step. apply wp_on_db; [apply lock_reads| |done]. intros row Hlock.
  wp_step. apply wp_on_db; [apply attempt_reads| |done]. intros [run replay] _.
  wp_step. apply wp_on_db; [apply rebuild_reads| |done]. intros rebuild _.
  wp_step. apply wp_on_db; [apply barrier_reads| |done]. intros _ _.
  wp_step. apply wp_on_db; [done| |done]. intros now _.
  wp_step. apply wp_zoom. eapply wp_mono; [apply ordering_spec| |done].
  intros [[scopes effective] q] t1 (H1 & Hscopes & -> & Hq). cbn [fst snd] in *.
  destruct q as [q|]; [wp_step; cbn; done|]. specialize (Hq eq_refl).
  wp_step. apply wp_zoom. eapply wp_mono; [apply claim_spec| |done].
  intros at_ t2 (_ & _ & Hw2 & (content & Hcontent & _) & Hold). cbn [fst snd] in *.
  wp_step. apply wp_zoom. eapply wp_mono; [apply document_spec| |done].
  intros s [t3 y3] [Hw3 Hc3]. cbn [fst snd] in *. wp_step. apply wp_zoom.
  unfold advance_source_watermarks. wp_step. cbn [fst snd]. wp_step. apply wp_zoom. wp_step. wp_step.
  cbn [fst snd]. split; [done|]. destruct H1 as (_ & _ & Hw1 & Hc1).
  destruct (advanced_lookup (sa_portal row) (family_of d) {| wm_effective :=
    effective_timestamp row (declared_timestamps sid t); wm_sha256 := sa_content_sha256 row;
    wm_source_file := sid |} scopes (at_watermarks t3)) as [Hin Hout].
  rewrite Hw3, Hw2, Hw1 in Hin, Hout. unfold applied.
  cbn [at_watermarks at_contents set_summaries set_watermarks]. rewrite Hw3, Hw2, Hw1, Hc3.
  split; [|split; [intros k c Hk; apply Hold; by rewrite Hc1|split; [by eexists|]]].
  - intros k w Hk. destruct (decide (exists s, s ∈ scopes /\ k = (sa_portal row, family_of d, s))) as [(sc & Hs & ->)|Hn].
    + eexists. split; [by apply Hin|]. destruct (Hq sc w Hs Hk) as [|[? ?]]; [by left|by right].
    + exists w. split; [|done]. rewrite Hout; [done|]. intros sc Hs ->. apply Hn. by exists sc.
  - exists row, scopes. split_and!; try done.
Qed.

(** ** The histories *)

Lemma document_histories sid portal at_ d minimum drop t y : histories_ok (at_catalog t) ->
  wp (apply_document collate uuidv7 match_exact sid portal at_ d minimum drop)
    (fun _ w' => histories_ok (at_catalog w'.1)) (fun _ _ => True) (t, y).
Proof.
  intros Hok. unfold apply_document. case_bool_decide; [|destruct (is_price d); [|destruct (is_promotion d)]].
  - apply wp_zoom. cbn [fst snd]. eapply wp_mono; [apply apply_stores_roster| |done]. cbv beta.
    intros s c (_ & _ & _ & _ & _ & Hp & Ha & Hcp & Hca). cbn [at_catalog set_tables].
    destruct Hok. by split; rewrite ?Hp, ?Ha, ?Hcp, ?Hca.
  - apply wp_zoom. cbn [fst snd]. eapply wp_mono; [by apply apply_prices_spec| |done]. cbv beta.
    intros s [c y'] (Hok' & _). done.
  - wp_step. wp_step. apply wp_zoom. cbn [fst snd]. eapply wp_mono; [apply apply_promotions_keeps| |done].
    cbv beta. intros s [c p] Hsame. by apply (histories_ok_same _ _ Hsame).
  - by wp_step.
Qed.

Lemma body_histories sid d minimum drop dbv t y : histories_ok (at_catalog t) ->
  wp (apply_body collate uuidv7 match_exact limits sid d minimum drop)
    (fun _ w' => histories_ok (at_catalog w'.2.1)) (fun _ _ => True) (dbv, (t, y)).
Proof.
  intros Hok. unfold apply_body. wp_step. apply wp_on_db; [apply lock_reads| |done]. intros row _.
  wp_step. apply wp_on_db; [apply attempt_reads| |done]. intros [run replay] _.
  wp_step. apply wp_on_db; [apply rebuild_reads| |done]. intros rebuild _.
  wp_step. apply wp_on_db; [apply barrier_reads| |done]. intros _ _.
  wp_step. apply wp_on_db; [done| |done]. intros now _.
  wp_step. apply wp_zoom. eapply wp_mono; [apply ordering_spec| |done].
  intros [[scopes effective] q] t1 ((Hc1 & _) & _). cbn [fst snd] in *.
  destruct q as [q|]; [wp_step; cbn; by rewrite Hc1|].
  wp_step. apply wp_zoom. eapply wp_mono; [apply claim_spec| |done].
  intros at_ t2 (Hc2 & _). cbn [fst snd] in *.
  wp_step. apply wp_zoom. eapply wp_mono; [apply document_histories; cbn; congruence| |done].
  intros s [t3 y3] Hok3. cbn [fst snd] in *. wp_step. apply wp_zoom.
  unfold advance_source_watermarks. wp_step. cbn [fst snd]. wp_step. apply wp_zoom. by wp_step; wp_step.
Qed.
End body.
