(* ===== verification/ApplySpec.v ===== *)
(** The properties of the apply transaction and of applying promotion files, and the runs
    that witness them. *)
From Stdlib Require Import SpecFloat.
From stdpp Require Import relations.
From S2P Require Import Prelude Errors Effects Enums PyNumbers Models AppModels Ports Database SourceFiles Samples Staging Temporal Catalog Prices PricesFacts Roster CatalogSpec Promotions PromotionsFacts Apply ApplyFacts.

Section properties.
Context {Y : Type}.
Context (collate : pystr -> pystr -> bool) (uuidv7 : Promotions -> promotion_key -> uuid).
Context (match_exact : portal_key -> uuid -> Z -> Catalog -> M Y unit) (limits : IssueLimits).

Abbreviation apply := (apply collate uuidv7 match_exact limits).

Lemma apply_wp sid d minimum drop s t y :
  wp (apply sid d minimum drop)
    (fun _ w' => db w'.1 = db s /\ lock_stack w'.1 = lock_stack s /\ applied sid d (db s) t w'.2.1)
    (fun _ w' => db w'.1 = db s /\ lock_stack w'.1 = lock_stack s /\ only_issues t w'.2.1 /\ w'.2.2 = y)
    (s, (t, y)).
Proof.
  assert (Hsame : only_issues t t) by done.
  unfold Apply.apply. wp_step. wp_step; [done|]. wp_step. wp_step; [done|]. wp_step.
  unfold in_joint_transaction. wp_step. wp_step. wp_step. wp_step; [done|].
  pose proof (body_spec collate uuidv7 match_exact limits sid d minimum drop (db s) t y) as Hbody.
  unfold wp, joint_transaction, transaction in Hbody |- *.
  destruct (apply_body _ _ _ _ _ _ _ _ _) as [[r|e] [dbv [t' y']]]; [|done].
  destruct Hbody as [Hdb Hr]. cbn [fst snd] in *. subst dbv. destruct r as [summary|q]; cbn; [done|].
  destruct Hr as [Hi ->]. done.
Qed.

Lemma apply_histories sid d minimum drop s t y : histories_ok (at_catalog t) ->
  wp (apply sid d minimum drop) (fun _ w' => histories_ok (at_catalog w'.2.1))
    (fun _ w' => histories_ok (at_catalog w'.2.1)) (s, (t, y)).
Proof.
  intros Hok. unfold Apply.apply. wp_step. wp_step; [done|]. wp_step. wp_step; [done|]. wp_step.
  unfold in_joint_transaction. wp_step. wp_step. wp_step. wp_step; [done|].
  pose proof (body_histories collate uuidv7 match_exact limits sid d minimum drop (db s) t y Hok) as Hbody.
  unfold wp, joint_transaction, transaction in Hbody |- *.
  destruct (apply_body _ _ _ _ _ _ _ _ _) as [[r|e] [dbv [t' y']]]; [|done].
  by destruct r as [summary|q].
Qed.

(** C21: files are applied in order.  An apply that returns has set the watermark of every
    scope of the file to the file's time and content, has moved no watermark back or to other
    content of the same time, and left the watermarks of other scopes alone; an apply that
    raises, in quarantine or otherwise, leaves the catalog, the promotions, the watermarks and
    the contents as they were; and neither touches the lifecycle tables or the lock. *)
Theorem apply_in_order sid d minimum drop s t y o s' t' y' :
  apply sid d minimum drop (s, (t, y)) = (o, (s', (t', y'))) ->
  db s' = db s /\ lock_stack s' = lock_stack s /\
  watermarks_advance (at_watermarks t) (at_watermarks t') /\
  match o with
  | Returned _ =>
      (forall k c, at_contents t !! k = Some c -> at_contents t' !! k = Some c) /\
      exists row scopes, lock_source_for_apply sid d (db s) = (Returned row, db s) /\
        prepare_source_scopes sid d t = (Returned scopes, t) /\
        (forall sc, sc ∈ scopes -> at_watermarks t' !! (sa_portal row, family_of d, sc) =
           Some {| wm_effective := effective_timestamp row (declared_timestamps sid t);
                   wm_sha256 := sa_content_sha256 row; wm_source_file := sid |}) /\
        (forall k, (forall sc, sc ∈ scopes -> k <> (sa_portal row, family_of d, sc)) ->
           at_watermarks t' !! k = at_watermarks t !! k)
  | Raised _ => only_issues t t' /\ y' = y
  end.
Proof.
  intros Hrun. pose proof (apply_wp sid d minimum drop s t y) as Hwp. unfold wp in Hwp. rewrite Hrun in Hwp.
  destruct o as [summary|e]; destruct Hwp as (Hdb & Hl & H); cbn [fst snd] in *.
  - destruct H as (Hadv & Hold & _ & H). done.
  - destruct H as [Hi Hy]. split_and!; try done. destruct Hi as (_ & _ & -> & _). done.
Qed.

(** Applies of any files, and what else happens in between: staging, lifecycle changes, and
    whatever leaves prices, availability and watermarks alone. *)
Inductive apply_step : Session_state * (ApplyTables * Y) -> Session_state * (ApplyTables * Y) -> Prop :=
  | step_apply sid d minimum drop w o w' :
      apply sid d minimum drop w = (o, w') -> apply_step w w'
  | step_other s t y s' t' y' :
      price_history (at_catalog t') = price_history (at_catalog t) ->
      current_prices (at_catalog t') = current_prices (at_catalog t) ->
      availability_history (at_catalog t') = availability_history (at_catalog t) ->
      current_availability (at_catalog t') = current_availability (at_catalog t) ->
      at_watermarks t' = at_watermarks t ->
      apply_step (s, (t, y)) (s', (t', y')).

(** C22: however applies interleave with staging and with each other, raise or return, the
    price and availability histories stay well formed - periods of a key never empty and never
    overlapping, and the current rows exactly the open rows - and no watermark goes back. *)
Theorem catalog_invariant w w' :
  rtc apply_step w w' -> histories_ok (at_catalog w.2.1) ->
  histories_ok (at_catalog w'.2.1) /\ watermarks_advance (at_watermarks w.2.1) (at_watermarks w'.2.1).
Proof.
  induction 1 as [w|w1 w2 w3 Hstep _ IH]; intros Hok; [done|].
  assert (Hone : histories_ok (at_catalog w2.2.1) /\
    watermarks_advance (at_watermarks w1.2.1) (at_watermarks w2.2.1)).
  { destruct Hstep as [sid d minimum drop [s [t y]] o [s' [t' y']] Hrun|s t y s' t' y' Hp Hcp Ha Hca Hw].
    - pose proof (apply_wp sid d minimum drop s t y) as H1.
      pose proof (apply_histories sid d minimum drop s t y Hok) as H2.
      unfold wp in H1, H2. rewrite Hrun in H1, H2. destruct o; [by destruct H1 as (_ & _ & ? & _)|].
      destruct H1 as (_ & _ & (_ & _ & Hw & _) & _). cbn [fst snd] in *. by rewrite Hw.
    - cbn [fst snd] in *. rewrite Hw. split; [|done]. destruct Hok. by split; rewrite ?Hp, ?Hcp, ?Ha, ?Hca. }
  destruct Hone as [Hok2 Hw2]. destruct (IH Hok2) as [Hok3 Hw3]. split; [done|]. by etransitivity.
Qed.
End properties.


(** ** Sample runs *)

Definition no_promotions : Promotions := {|
  staged_promotions := ∅; staged_promotion_items := ∅; staged_promotion_stores := ∅;
  staged_promotion_clubs := ∅; promotions := []; promotion_items := ∅; promotion_stores := ∅;
  promotion_clubs := ∅ |}.
Definition sample_tables : ApplyTables := {|
  at_catalog := sample_catalog; at_promotions := no_promotions; at_watermarks := ∅; at_contents := ∅;
  at_issues := []; at_stages := ∅; at_summaries := ∅; at_rebuild_files := ∅ |}.
(** A newer file of the same store was applied before. *)
Definition sample_newer : ApplyTables := {|
  at_catalog := sample_catalog; at_promotions := no_promotions;
  at_watermarks := {[ (sample_portal, py "prices", (py "1", py "001")) :=
    {| wm_effective := 901; wm_sha256 := sample_digest; wm_source_file := 2 |} ]};
  at_contents := ∅; at_issues := []; at_stages := ∅; at_summaries := ∅; at_rebuild_files := ∅ |}.
Definition sample_limits : IssueLimits :=
  {| maximum_issues := 100; maximum_issue_bytes := 100000; maximum_evidence := 10 |}.
Definition sample_ids (p : Promotions) (k : promotion_key) : uuid := Zpos (encode k).
Definition sample_matching (p : portal_key) (f : uuid) (t : Z) (c : Catalog) : M unit unit := mret tt.

Abbreviation sample_run := (apply any_order sample_ids sample_matching sample_limits 1 PRICE_DELTA 1 float_0_50).

(** The file is applied when it is in order and quarantined when it is not. *)
Example sample_runs :
  (sample_run (no_lock db_applying, (sample_tables, tt))).1
    = Returned {| inserted := 2; updated := 0; unchanged := 0; unavailable := 0; history_events := 4 |} /\
  (sample_run (no_lock db_applying, (sample_newer, tt))).1 = Raised (MakoletExn QuarantinedFileError 0).
Proof. split; vm_compute; reflexivity. Qed.

Lemma sample_run_eq : exists s' t' y',
  sample_run (no_lock db_applying, (sample_tables, tt))
  = (Returned {| inserted := 2; updated := 0; unchanged := 0; unavailable := 0; history_events := 4 |}, (s', (t', y'))).
Proof.
  destruct (sample_run (no_lock db_applying, (sample_tables, tt))) as [o [s' [t' y']]] eqn:E.
  exists s', t', y'. destruct sample_runs as [Hr _]. rewrite E in Hr. cbn [fst] in Hr. by subst o.
Qed.

(** ** Witnesses *)

Lemma apply_in_order_witness : exists s' t' y',
  sample_run (no_lock db_applying, (sample_tables, tt))
    = (Returned {| inserted := 2; updated := 0; unchanged := 0; unavailable := 0; history_events := 4 |}, (s', (t', y'))) /\
  db s' = db (no_lock db_applying) /\ watermarks_advance (at_watermarks sample_tables) (at_watermarks t').
Proof.
  destruct sample_run_eq as (s' & t' & y' & Hrun). exists s', t', y'. split; [exact Hrun|].
  destruct (apply_in_order any_order sample_ids sample_matching sample_limits _ _ _ _ _ _ _ _ _ _ _ Hrun)
    as (Hdb & _ & Hw & _).
  split; [exact Hdb|exact Hw].
Defined.

Lemma catalog_invariant_witness : exists w',
  rtc (apply_step any_order sample_ids sample_matching sample_limits) (no_lock db_applying, (sample_tables, tt)) w' /\
  w' <> (no_lock db_applying, (sample_tables, tt)) /\ histories_ok (at_catalog w'.2.1).
Proof.
  destruct sample_run_eq as (s' & t' & y' & Hrun). exists (s', (t', y')).
  assert (Hrtc : rtc (apply_step any_order sample_ids sample_matching sample_limits)
    (no_lock db_applying, (sample_tables, tt)) (s', (t', y'))).
  { apply rtc_once. exact (step_apply _ _ _ _ _ _ _ _ _ _ _ Hrun). }
  split; [exact Hrtc|]. split.
  - intros He. assert (Hl : price_history (at_catalog (sample_run (no_lock db_applying, (sample_tables, tt))).2.2.1) <> [])
      by (vm_compute; discriminate).
    apply Hl. rewrite Hrun. cbn [fst snd]. injection He as _ -> _. reflexivity.
  - exact (proj1 (catalog_invariant any_order sample_ids sample_matching sample_limits _ _ Hrtc sample_catalog_ok)).
Defined.



