(* ===== verification/StagedRows.v ===== *)
(** The rows that staging writes for parsed events: the column types of the staging tables in
    [src/src/makolet/adapters/persistence/schema.py], and [_event_rows],
    [_promotion_child_rows] and [_promotion_fingerprint] of
    [adapters/persistence/ingestion.py].

    A row is [None] when a column refuses a value; writing it fails.  [json_sha256] is the
    hexadecimal SHA-256 of the canonical JSON text of a fingerprint payload.  Limits of the
    database driver on the digits of a decimal are not modelled. *)
From stdpp Require Import sorting.
From S2P Require Import Prelude Errors Effects Enums PyNumbers Text Models AppModels SourceValues Temporal Catalog Promotions.

(** ** Column types *)

(** [Text]: PostgreSQL stores neither a null character nor a surrogate. *)
Definition text_char (c : Z) : bool := (0 <? c) && negb ((0xD800 <=? c) && (c <=? 0xDFFF)).
Definition text_column (s : pystr) : option pystr := if py_all text_char s then Some s else None.

(** [String(n)]: only spaces may exceed the length, and are cut off. *)
Definition varchar (n : Z) (s : pystr) : option pystr :=
  if py_len s <=? n then text_column s
  else if py_all (fun c => c =? 32) (drop (Z.to_nat n) s) then text_column (take (Z.to_nat n) s)
  else None.

(** [Integer] and [BigInteger]. *)
Definition int_column (bits : Z) (z : Z) : option Z :=
  if (- 2 ^ (bits - 1) <=? z) && (z <? 2 ^ (bits - 1)) then Some z else None.

(** A decimal brought to [scale] fractional digits, half away from zero. *)
Definition round_to_scale (scale : Z) (neg : bool) (coeff : N) (expo : Z) : Z :=
  let k := expo + scale in
  let magnitude := if 0 <=? k then Z.of_N coeff * 10 ^ k
                   else (2 * Z.of_N coeff + 10 ^ (- k)) / (2 * 10 ^ (- k)) in
  if neg then - magnitude else magnitude.

(** [Numeric(precision, scale)], in units of the last digit.  (A NaN would be stored, but no
    record holds one.) *)
Definition numeric_column (precision scale : Z) (d : decimal) : option Z :=
  match d with
  | Finite neg coeff expo =>
      let z := round_to_scale scale neg coeff expo in
      if Z.abs z <? 10 ^ precision then Some z else None
  | _ => None
  end.
Definition money_column : decimal -> option Z := numeric_column 14 4.
Definition quantity_column : decimal -> option Z := numeric_column 18 6.

Definition nullable {A B} (column : A -> option B) (o : option A) : option (option B) :=
  match o with None => Some None | Some a => Some <$> column a end.

(** [CheckConstraint("... >= 0")]. *)
Definition nonnegative_column (column : decimal -> option Z) (d : decimal) : option Z :=
  z ← column d; if 0 <=? z then Some z else None.

(** ** Fingerprints *)

(** [a <= b] of two strings. *)
Fixpoint str_leb (a b : pystr) : bool :=
  match a, b with
  | [], _ => true
  | _ :: _, [] => false
  | x :: a, y :: b => (x <? y) || ((x =? y) && str_leb a b)
  end.
(** [<=] of the tuples [(item_code, item_type, is_gift)] whose comparison does not raise. *)
Definition type_ltb (a b : option Z) : bool :=
  match a, b with Some x, Some y => x <? y | None, Some _ => true | _, None => false end.
Definition item_leb (a b : PromotionItem) : bool :=
  if bool_decide (pi_item_code a = pi_item_code b)
  then type_ltb (pi_item_type a) (pi_item_type b)
       || (bool_decide (pi_item_type a = pi_item_type b) && (negb (pi_is_gift a) || pi_is_gift b))
  else str_leb (pi_item_code a) (pi_item_code b).

(** [sorted] compares [None] with an [int], which raises, exactly when two items have the same
    code and only one has a type. *)
Definition items_comparable (items : list PromotionItem) : bool :=
  forallb (fun a => forallb (fun b =>
    negb (bool_decide (pi_item_code a = pi_item_code b))
    || eqb (bool_decide (pi_item_type a = None)) (bool_decide (pi_item_type b = None))) items) items.

#[export] Instance str_leb_dec : RelDecision (fun a b => str_leb a b = true).
Proof. intros a b. apply _. Defined.
#[export] Instance item_leb_dec : RelDecision (fun a b => item_leb a b = true).
Proof. intros a b. apply _. Defined.
Definition sorted_strings : list pystr -> list pystr := merge_sort (fun a b => str_leb a b = true).
Definition sorted_items : list PromotionItem -> list PromotionItem :=
  merge_sort (fun a b => item_leb a b = true).

(** The dictionary [_promotion_fingerprint] encodes. *)
Record FingerprintPayload := {
  fp_description : option pystr;
  fp_discount_kind : DiscountKind;
  fp_starts_at : option Z;
  fp_ends_at : option Z;
  fp_items : list PromotionItem;
  fp_stores : list pystr;
  fp_clubs : list pystr;
  fp_reward_type : option Z;
  fp_allows_multiple_discounts : option bool;
  fp_minimum_quantity : option decimal;
  fp_maximum_quantity : option decimal;
  fp_discount_rate : option decimal;
  fp_minimum_purchase : option decimal;
  fp_discounted_price : option decimal;
  fp_discounted_unit_price : option decimal;
  fp_minimum_items_offered : option Z;
  fp_additional_restrictions : option pystr;
  fp_remarks : option pystr;
  fp_is_active : option bool
}.

Definition fingerprint_payload (r : PromotionRecord) : FingerprintPayload := {|
  fp_description := pm_description r;
  fp_discount_kind := pm_discount_kind r;
  fp_starts_at := instant_of <$> pm_starts_at r;
  fp_ends_at := instant_of <$> pm_ends_at r;
  fp_items := sorted_items (pm_items r);
  fp_stores := sorted_strings (pm_store_ids r);
  fp_clubs := sorted_strings (pm_club_ids r);
  fp_reward_type := pm_reward_type r;
  fp_allows_multiple_discounts := pm_allows_multiple_discounts r;
  fp_minimum_quantity := pm_minimum_quantity r;
  fp_maximum_quantity := pm_maximum_quantity r;
  fp_discount_rate := pm_discount_rate r;
  fp_minimum_purchase := pm_minimum_purchase r;
  fp_discounted_price := pm_discounted_price r;
  fp_discounted_unit_price := pm_discounted_unit_price r;
  fp_minimum_items_offered := pm_minimum_items_offered r;
  fp_additional_restrictions := pm_additional_restrictions r;
  fp_remarks := pm_remarks r;
  fp_is_active := pm_is_active r |}.

(** ** The rows of one kind of event *)

Definition document_row (index : Z) (r : DocumentMetadata) : option StagedDocument :=
  index ← int_column 32 index;
  chain ← nullable (varchar 128) (dm_chain_id r);
  subchain ← nullable (varchar 128) (dm_subchain_id r);
  store ← nullable (varchar 128) (dm_store_id r);
  audit ← nullable (varchar 128) (dm_audit_number r);
  Some {| sdoc_metadata_index := index; sdoc_document_type := dm_document_type r;
          sdoc_chain_id := chain; sdoc_subchain_id := subchain; sdoc_store_id := store;
          sdoc_audit_number := audit; sdoc_source_updated_at := instant_of <$> dm_source_updated_at r |}.

Definition store_row (r : StoreRecord) : option StagedStore :=
  index ← int_column 64 (sr_record_index r);
  chain ← varchar 128 (sr_chain_id r);
  subchain ← varchar 128 (sr_subchain_id r);
  store ← varchar 128 (sr_store_id r);
  audit ← nullable (varchar 128) (sr_audit_number r);
  type ← nullable (varchar 128) (sr_store_type r);
  chain_name ← nullable text_column (sr_chain_name r);
  subchain_name ← nullable text_column (sr_subchain_name r);
  name ← text_column (sr_store_name r);
  address ← nullable text_column (sr_address r);
  city ← nullable text_column (sr_city r);
  postal_code ← nullable (varchar 32) (sr_postal_code r);
  Some {| ss_record_index := index; ss_subchain_id := subchain; ss_source_store_id := store;
          ss_details := {| sd_chain_code := chain; sd_audit_number := audit; sd_store_type := type;
            sd_chain_name := chain_name; sd_subchain_name := subchain_name; sd_name := name;
            sd_address := address; sd_city := city; sd_postal_code := postal_code |} |}.

(** The columns [item_details] of a staged price. *)
Definition item_columns (r : PriceRecord) : option ItemDetails :=
  gtin ← nullable (varchar 14) (if is_valid_gtin (pr_item_code r) then Some (pr_item_code r) else None);
  type ← nullable (int_column 32) (pr_item_type r);
  name ← text_column (pr_item_name r);
  manufacturer ← nullable text_column (pr_manufacturer_name r);
  country ← nullable text_column (pr_manufacturer_country r);
  description ← nullable text_column (pr_manufacturer_description r);
  unit_quantity ← nullable text_column (pr_unit_quantity r);
  quantity ← nullable (nonnegative_column quantity_column) (pr_quantity r);
  unit_of_measure ← nullable (varchar 64) (pr_unit_of_measure r);
  package ← nullable (nonnegative_column quantity_column) (pr_quantity_in_package r);
  Some {| id_gtin := gtin; id_item_type := type; id_name := name;
          id_manufacturer := (manufacturer, country, description);
          id_unit_quantity := unit_quantity; id_quantity := quantity;
          id_unit_of_measure := unit_of_measure; id_is_weighted := pr_is_weighted r;
          id_quantity_in_package := package |}.

Definition price_row (r : PriceRecord) : option StagedPrice :=
  index ← int_column 64 (pr_record_index r);
  chain ← varchar 128 (pr_chain_id r);
  subchain ← varchar 128 (pr_subchain_id r);
  store ← varchar 128 (pr_store_id r);
  code ← varchar 128 (pr_item_code r);
  details ← item_columns r;
  price ← nonnegative_column money_column (pr_item_price r);
  unit_price ← nullable (nonnegative_column money_column) (pr_unit_of_measure_price r);
  status ← nullable (int_column 32) (pr_item_status r);
  audit ← nullable (varchar 128) (pr_audit_number r);
  Some {| sp_record_index := index; sp_chain_id := chain; sp_subchain_id := subchain;
          sp_source_store_id := store; sp_source_item_code := code; sp_details := details;
          sp_value := {| pv_item_price := price; pv_unit_of_measure_price := unit_price;
                         pv_allow_discount := pr_allow_discount r |};
          sp_item_status := status;
          sp_evidence := {| pe_source_updated_at := instant_of <$> pr_price_updated_at r;
                            pe_last_sale_at := instant_of <$> pr_last_sale_at r;
                            pe_audit_number := audit |} |}.

(** [_promotion_fingerprint]; [None] is the [TypeError] of [sorted]. *)
Definition promotion_fingerprint (json_sha256 : FingerprintPayload -> pystr) (r : PromotionRecord) : option pystr :=
  if items_comparable (pm_items r) then Some (json_sha256 (fingerprint_payload r)) else None.

Definition promotion_value_columns (fingerprint : pystr) (r : PromotionRecord) : option PromotionValue :=
  description ← nullable text_column (pm_description r);
  reward ← nullable (int_column 32) (pm_reward_type r);
  minimum_quantity ← nullable quantity_column (pm_minimum_quantity r);
  maximum_quantity ← nullable quantity_column (pm_maximum_quantity r);
  rate ← nullable (numeric_column 10 6) (pm_discount_rate r);
  purchase ← nullable money_column (pm_minimum_purchase r);
  price ← nullable money_column (pm_discounted_price r);
  unit_price ← nullable money_column (pm_discounted_unit_price r);
  items_offered ← nullable (int_column 32) (pm_minimum_items_offered r);
  restrictions ← nullable text_column (pm_additional_restrictions r);
  remarks ← nullable text_column (pm_remarks r);
  fingerprint ← varchar 64 fingerprint;
  Some {| pmv_description := description; pmv_discount_kind := pm_discount_kind r;
          pmv_starts_at := instant_of <$> pm_starts_at r; pmv_ends_at := instant_of <$> pm_ends_at r;
          pmv_reward_type := reward; pmv_allows_multiple_discounts := pm_allows_multiple_discounts r;
          pmv_minimum_quantity := minimum_quantity; pmv_maximum_quantity := maximum_quantity;
          pmv_discount_rate := rate; pmv_minimum_purchase := purchase; pmv_discounted_price := price;
          pmv_discounted_unit_price := unit_price; pmv_minimum_items_offered := items_offered;
          pmv_additional_restrictions := restrictions; pmv_remarks := remarks;
          pmv_is_active := pm_is_active r; pmv_fingerprint := fingerprint |}.

Definition promotion_row_of (fingerprint : pystr) (r : PromotionRecord) : option StagedPromotion :=
  index ← int_column 64 (pm_record_index r);
  chain ← varchar 128 (pm_chain_id r);
  subchain ← varchar 128 (pm_subchain_id r);
  scope ← varchar 128 (default [] (pm_source_store_id r));
  code ← varchar 256 (pm_promotion_id r);
  value ← promotion_value_columns fingerprint r;
  Some {| spm_record_index := index; spm_chain_id := chain; spm_subchain_id := subchain;
          spm_source_scope_store_code := scope; spm_source_promotion_id := code;
          spm_value := value |}.

(** [_promotion_child_rows]: [enumerate] numbers the rows of a record. *)
Definition item_row (record_index : Z) (index : nat) (item : PromotionItem) : option StagedPromotionItem :=
  record_index ← int_column 64 record_index;
  index ← int_column 32 (Z.of_nat index);
  code ← varchar 128 (pi_item_code item);
  type ← nullable (int_column 32) (pi_item_type item);
  Some {| spi_record_index := record_index; spi_item_index := index; spi_source_item_code := code;
          spi_item_type := type; spi_is_gift := pi_is_gift item |}.
Definition promotion_store_row (record_index : Z) (index : nat) (code : pystr) : option StagedPromotionStore :=
  record_index ← int_column 64 record_index;
  index ← int_column 32 (Z.of_nat index);
  code ← varchar 128 code;
  Some {| sps_record_index := record_index; sps_store_index := index; sps_source_store_code := code |}.
Definition promotion_club_row (record_index : Z) (index : nat) (club : pystr) : option StagedPromotionClub :=
  record_index ← int_column 64 record_index;
  index ← int_column 32 (Z.of_nat index);
  club ← varchar 128 club;
  Some {| spc_record_index := record_index; spc_club_index := index; spc_club_id := club |}.

(** A row of [validation_issues]: the code is neither empty nor too long. *)
Definition issue_row (i : ValidationIssue) : option ValidationIssue :=
  code ← varchar 128 (vi_code i);
  _ ← (if str_truthy code then Some tt else None);
  message ← text_column (vi_message i);
  index ← nullable (int_column 64) (vi_record_index i);
  field ← nullable (varchar 256) (vi_field_name i);
  value ← nullable text_column (vi_rejected_value i);
  Some {| vi_source_file_id := vi_source_file_id i; vi_severity := vi_severity i; vi_code := code;
          vi_message := message; vi_record_index := index; vi_field_name := field;
          vi_rejected_value := value |}.

(** ** The rows of an event, table by table *)

Record StagingRows (F : Type -> Type) := {
  r_documents : F StagedDocument;
  r_stores : F StagedStore;
  r_prices : F StagedPrice;
  r_promotions : F StagedPromotion;
  r_items : F StagedPromotionItem;
  r_promotion_stores : F StagedPromotionStore;
  r_clubs : F StagedPromotionClub;
  r_issues : F ValidationIssue
}.
#[global] Arguments r_documents {F}. #[global] Arguments r_stores {F}.
#[global] Arguments r_prices {F}. #[global] Arguments r_promotions {F}.
#[global] Arguments r_items {F}. #[global] Arguments r_promotion_stores {F}.
#[global] Arguments r_clubs {F}. #[global] Arguments r_issues {F}.

(** Buffered rows, not yet read by the server. *)
Definition incoming (A : Type) : Type := list (option A).
Abbreviation Buffers := (StagingRows incoming).
Definition no_rows : Buffers := {| r_documents := []; r_stores := []; r_prices := []; r_promotions := [];
  r_items := []; r_promotion_stores := []; r_clubs := []; r_issues := [] |}.

Definition rows_app (a b : Buffers) : Buffers := {|
  r_documents := r_documents a ++ r_documents b; r_stores := r_stores a ++ r_stores b;
  r_prices := r_prices a ++ r_prices b; r_promotions := r_promotions a ++ r_promotions b;
  r_items := r_items a ++ r_items b;
  r_promotion_stores := r_promotion_stores a ++ r_promotion_stores b;
  r_clubs := r_clubs a ++ r_clubs b; r_issues := r_issues a ++ r_issues b |}.

(** [_event_rows] and [_promotion_child_rows]; [sampled] is false for an issue over the
    evidence limit. *)
Definition event_rows (json_sha256 : FingerprintPayload -> pystr) (metadata_index : Z) (sampled : bool) (event : ParsedEvent) : option Buffers :=
  match event with
  | EvMetadata r => Some {| r_documents := [document_row metadata_index r]; r_stores := []; r_prices := [];
      r_promotions := []; r_items := []; r_promotion_stores := []; r_clubs := []; r_issues := [] |}
  | EvStore r => Some {| r_documents := []; r_stores := [store_row r]; r_prices := []; r_promotions := [];
      r_items := []; r_promotion_stores := []; r_clubs := []; r_issues := [] |}
  | EvPrice r => Some {| r_documents := []; r_stores := []; r_prices := [price_row r]; r_promotions := [];
      r_items := []; r_promotion_stores := []; r_clubs := []; r_issues := [] |}
  | EvPromotion r =>
      fingerprint ← promotion_fingerprint json_sha256 r;
      Some {| r_documents := []; r_stores := []; r_prices := [];
        r_promotions := [promotion_row_of fingerprint r];
        r_items := imap (item_row (pm_record_index r)) (pm_items r);
        r_promotion_stores := imap (promotion_store_row (pm_record_index r)) (effective_promotion_store_ids r);
        r_clubs := imap (promotion_club_row (pm_record_index r)) (pm_club_ids r);
        r_issues := [] |}
  | EvIssue i => Some {| r_documents := []; r_stores := []; r_prices := []; r_promotions := [];
      r_items := []; r_promotion_stores := []; r_clubs := []; r_issues := if sampled then [issue_row i] else [] |}
  end.
