(* ===== verification/StagingStore.v ===== *)
(** Staging in PostgreSQL: [stage], [finalize_staging], [has_file_quarantine_issue],
    [clear_staging] and [reuse_validated_staging] of
    [src/src/makolet/adapters/persistence/ingestion.py], and the instance of [StagingOps]
    they make with [apply].

    An attempt's counters, validation issues and staged rows are the tables of
    [Apply.v]; advisory locks make an operation exclusive for its file. *)
From stdpp Require Import sorting.
From S2P Require Import Prelude Errors Effects Enums PyNumbers Models AppModels Ports Database SourceFiles Staging Temporal Catalog Prices Roster Promotions Apply StagedRows.

(** ** The staged rows of a file *)

Definition rows_of (A : Type) : Type := list A.
Abbreviation Staged := (StagingRows rows_of).

Definition set_staged (sid : uuid) (r : Staged) (t : ApplyTables) : ApplyTables :=
  let c := at_catalog t in
  let p := at_promotions t in
  set_tables
    {| staged_documents := <[ sid := r_documents r ]> (staged_documents c);
       staged_stores := <[ sid := r_stores r ]> (staged_stores c);
       staged_prices := <[ sid := r_prices r ]> (staged_prices c);
       stores := stores c; store_aliases := store_aliases c; retailer_items := retailer_items c;
       current_prices := current_prices c; price_history := price_history c;
       current_availability := current_availability c;
       availability_history := availability_history c |}
    {| staged_promotions := <[ sid := r_promotions r ]> (staged_promotions p);
       staged_promotion_items := <[ sid := r_items r ]> (staged_promotion_items p);
       staged_promotion_stores := <[ sid := r_promotion_stores r ]> (staged_promotion_stores p);
       staged_promotion_clubs := <[ sid := r_clubs r ]> (staged_promotion_clubs p);
       promotions := promotions p; promotion_items := promotion_items p;
       promotion_stores := promotion_stores p; promotion_clubs := promotion_clubs p |} t.

Definition issues_of (a : attempt) (t : ApplyTables) : list ValidationIssue :=
  map snd (List.filter (fun p => bool_decide (p.1 = a)) (at_issues t)).

(** The rows of a file and the issues of its attempt. *)
Definition staged_of (sid : uuid) (a : attempt) (t : ApplyTables) : Staged := {|
  r_documents := staged (staged_documents (at_catalog t)) sid;
  r_stores := staged (staged_stores (at_catalog t)) sid;
  r_prices := staged (staged_prices (at_catalog t)) sid;
  r_promotions := staged (staged_promotions (at_promotions t)) sid;
  r_items := staged (staged_promotion_items (at_promotions t)) sid;
  r_promotion_stores := staged (staged_promotion_stores (at_promotions t)) sid;
  r_clubs := staged (staged_promotion_clubs (at_promotions t)) sid;
  r_issues := issues_of a t |}.

Definition set_attempt_issues (a : attempt) (l : list ValidationIssue) (t : ApplyTables) : ApplyTables :=
  set_issues (fun old => List.filter (fun p => negb (bool_decide (p.1 = a))) old ++ map (pair a) l)
    (fun m => m) t.

Definition put_staged (sid : uuid) (a : attempt) (r : Staged) (t : ApplyTables) : ApplyTables :=
  set_attempt_issues a (r_issues r) (set_staged sid r t).

(** ** Copying rows *)

Definition COPY_BATCH_SIZE : Z := 5000.

(** A staging table: where its rows are, and its primary key, if staging chooses it. *)
Record Table (A : Type) := {
  tb_rows : forall F, StagingRows F -> F A;
  tb_put : forall F, F A -> StagingRows F -> StagingRows F;
  tb_admits : list A -> list A -> bool
}.
Arguments tb_rows {A} _ {F}. Arguments tb_put {A} _ {F}. Arguments tb_admits {A}.

(** New rows whose primary keys are new. *)
Definition new_keys {A} (key : A -> Z * Z) (new old : list A) : bool :=
  bool_decide (NoDup (map key new)) && forallb (fun a => negb (bool_decide (key a ∈ map key old))) new.

Definition documents_table : Table StagedDocument := {|
  tb_rows F := r_documents;
  tb_put F l r := {| r_documents := l; r_stores := r_stores r; r_prices := r_prices r;
    r_promotions := r_promotions r; r_items := r_items r; r_promotion_stores := r_promotion_stores r;
    r_clubs := r_clubs r; r_issues := r_issues r |};
  tb_admits := new_keys (fun d => (sdoc_metadata_index d, 0)) |}.
Definition stores_table : Table StagedStore := {|
  tb_rows F := r_stores;
  tb_put F l r := {| r_documents := r_documents r; r_stores := l; r_prices := r_prices r;
    r_promotions := r_promotions r; r_items := r_items r; r_promotion_stores := r_promotion_stores r;
    r_clubs := r_clubs r; r_issues := r_issues r |};
  tb_admits := new_keys (fun s => (ss_record_index s, 0)) |}.
Definition prices_table : Table StagedPrice := {|
  tb_rows F := r_prices;
  tb_put F l r := {| r_documents := r_documents r; r_stores := r_stores r; r_prices := l;
    r_promotions := r_promotions r; r_items := r_items r; r_promotion_stores := r_promotion_stores r;
    r_clubs := r_clubs r; r_issues := r_issues r |};
  tb_admits := new_keys (fun p => (sp_record_index p, 0)) |}.
Definition promotions_table : Table StagedPromotion := {|
  tb_rows F := r_promotions;
  tb_put F l r := {| r_documents := r_documents r; r_stores := r_stores r; r_prices := r_prices r;
    r_promotions := l; r_items := r_items r; r_promotion_stores := r_promotion_stores r;
    r_clubs := r_clubs r; r_issues := r_issues r |};
  tb_admits := new_keys (fun p => (spm_record_index p, 0)) |}.
Definition items_table : Table StagedPromotionItem := {|
  tb_rows F := r_items;
  tb_put F l r := {| r_documents := r_documents r; r_stores := r_stores r; r_prices := r_prices r;
    r_promotions := r_promotions r; r_items := l; r_promotion_stores := r_promotion_stores r;
    r_clubs := r_clubs r; r_issues := r_issues r |};
  tb_admits := new_keys (fun i => (spi_record_index i, spi_item_index i)) |}.
Definition promotion_stores_table : Table StagedPromotionStore := {|
  tb_rows F := r_promotion_stores;
  tb_put F l r := {| r_documents := r_documents r; r_stores := r_stores r; r_prices := r_prices r;
    r_promotions := r_promotions r; r_items := r_items r; r_promotion_stores := l;
    r_clubs := r_clubs r; r_issues := r_issues r |};
  tb_admits := new_keys (fun s => (sps_record_index s, sps_store_index s)) |}.
Definition clubs_table : Table StagedPromotionClub := {|
  tb_rows F := r_clubs;
  tb_put F l r := {| r_documents := r_documents r; r_stores := r_stores r; r_prices := r_prices r;
    r_promotions := r_promotions r; r_items := r_items r; r_promotion_stores := r_promotion_stores r;
    r_clubs := l; r_issues := r_issues r |};
  tb_admits := new_keys (fun c => (spc_record_index c, spc_club_index c)) |}.
Definition issues_table : Table ValidationIssue := {|
  tb_rows F := r_issues;
  tb_put F l r := {| r_documents := r_documents r; r_stores := r_stores r; r_prices := r_prices r;
    r_promotions := r_promotions r; r_items := r_items r; r_promotion_stores := r_promotion_stores r;
    r_clubs := r_clubs r; r_issues := l |};
  tb_admits _ _ := true |}.

(** Writing rows: every column accepts its value and the primary keys are new. *)
Definition insert_rows {A} (admits : list A -> list A -> bool) (records : list (option A)) (old : list A)
    : option (list A) :=
  new ← mapM id records; if admits new old then Some (old ++ new) else None.

(** [_copy_records]. *)
Definition copy_records {A} (tb : Table A) (records : list (option A)) : M Staged unit :=
  r ← get_state;
  match insert_rows (tb_admits tb) records (tb_rows tb r) with
  | Some rows => put_state (tb_put tb (F := rows_of) rows r)
  | None => raise integrity_error
  end.

(** One turn of [for buffered_table, buffered_rows in buffers.items()]. *)
Definition flush_table {A} (tb : Table A) (threshold : Z) (b : Buffers) : M Staged Buffers :=
  let rows : list (option A) := tb_rows tb b in
  if threshold <=? py_len rows then copy_records tb rows;; mret (tb_put tb (F := incoming) [] b)
  else mret b.

(** The loop over the buffers: those that hold [threshold] rows are copied and cleared. *)
Definition flush_buffers (threshold : Z) (b : Buffers) : M Staged Buffers :=
  b ← flush_table documents_table threshold b;
  b ← flush_table stores_table threshold b;
  b ← flush_table prices_table threshold b;
  b ← flush_table promotions_table threshold b;
  b ← flush_table items_table threshold b;
  b ← flush_table promotion_stores_table threshold b;
  b ← flush_table clubs_table threshold b;
  flush_table issues_table threshold b.

Definition event_source (event : ParsedEvent) : uuid :=
  match event with
  | EvMetadata r => dm_source_file_id r
  | EvStore r => sr_source_file_id r
  | EvPrice r => pr_source_file_id r
  | EvPromotion r => pm_source_file_id r
  | EvIssue i => vi_source_file_id i
  end.

(** [counts["sampled_issues"] += 1]. *)
Definition count_sample (s : StageSummary) : StageSummary := {|
  metadata_records := metadata_records s; store_records := store_records s;
  price_records := price_records s; promotion_records := promotion_records s;
  warnings := warnings s; rejected_records := rejected_records s;
  file_quarantines := file_quarantines s; validation_issue_bytes := validation_issue_bytes s;
  sampled_validation_issues := sampled_validation_issues s + 1 |}.

Section staging.
Variable json_sha256 : FingerprintPayload -> pystr.

(** The rows of an event after those of [counts], and the new counts. *)
Definition next_rows (metadata_index evidence_limit : Z) (counts : StageSummary) (event : ParsedEvent)
    : option (Buffers * StageSummary) :=
  let sampled := match event with
                 | EvIssue _ => sampled_validation_issues counts <? evidence_limit
                 | _ => false
                 end in
  rows ← event_rows json_sha256 (metadata_index + metadata_records counts) sampled event;
  let counts := count_event counts event in
  Some (rows, if sampled then count_sample counts else counts).

Section copy.
Variable sid : uuid.
Variables metadata_index evidence_limit : Z.

(** One turn of [for event in events]. *)
Definition copy_event (s : Buffers * StageSummary) (event : ParsedEvent) : M Staged (Buffers * StageSummary) :=
  raise_if (negb (event_source event =? sid)) conflict;;
  match next_rows metadata_index evidence_limit s.2 event with
  | None => raise (PyExn OtherException)
  | Some (rows, counts) =>
      buffers ← flush_buffers COPY_BATCH_SIZE (rows_app s.1 rows);
      mret (buffers, counts)
  end.

Fixpoint copy_each (s : Buffers * StageSummary) (events : list ParsedEvent)
    : M Staged (Buffers * StageSummary) :=
  match events with
  | [] => mret s
  | event :: events => s ← copy_event s event; copy_each s events
  end.

(** [_copy_events]. *)
Definition copy_events (events : list ParsedEvent) : M Staged StageSummary :=
  s ← copy_each (no_rows, empty_stage) events;
  flush_buffers 1 s.1;;
  mret s.2.
End copy.

(** ** Operations on the tables *)

Variable limits : IssueLimits.

Definition set_stage (a : attempt) (s : StageSummary) : ApplyTables -> ApplyTables :=
  set_issues (fun l => l) (insert a s).

(** [metadata_index]: one more than the greatest staged index. *)
Definition next_metadata_index (l : list StagedDocument) : Z :=
  foldr (fun d m => Z.max (sdoc_metadata_index d) m) (-1) l + 1.

Definition stage_tables (sid : uuid) (a : attempt) (events : list ParsedEvent) : M ApplyTables StageSummary :=
  current ← gets (attempt_issue_summary a);
  index ← gets (fun t => next_metadata_index (staged (staged_documents (at_catalog t)) sid));
  summary ← zoom (staged_of sid a) (put_staged sid a)
    (copy_events sid index (Z.max 0 (maximum_evidence limits - sampled_validation_issues current)) events);
  let issue_count := warnings current + rejected_records current + file_quarantines current
                     + warnings summary + rejected_records summary + file_quarantines summary in
  let issue_bytes := validation_issue_bytes current + validation_issue_bytes summary in
  raise_if ((maximum_issues limits <? issue_count) || (maximum_issue_bytes limits <? issue_bytes))
    (MakoletExn QuarantinedFileError 0);;
  modify (fun t => set_stage a (combine_stage (attempt_stage a t) summary) t);;
  mret summary.

(** [_staging_summary_for_attempt]. *)
Definition staging_summary (sid : uuid) (a : attempt) (t : ApplyTables) : StageSummary :=
  let r := staged_of sid a t in
  let issues := attempt_issue_summary a t in {|
  metadata_records := py_len (r_documents r : list _); store_records := py_len (r_stores r : list _);
  price_records := py_len (r_prices r : list _); promotion_records := py_len (r_promotions r : list _);
  warnings := warnings issues; rejected_records := rejected_records issues;
  file_quarantines := file_quarantines issues;
  validation_issue_bytes := validation_issue_bytes issues;
  sampled_validation_issues := sampled_validation_issues issues |}.

(** Overwriting the result summary of a replay with its counters drops what [apply] wrote. *)
Definition write_stage (a : attempt) (s : StageSummary) (t : ApplyTables) : ApplyTables :=
  set_summaries (fun m => if a.1 then delete a m else m) (set_stage a s t).

(** ** Duplicates *)

Definition DUPLICATE_ISSUE_CODE : pystr := py "duplicate_logical_record".
Definition DUPLICATE_ISSUE_MESSAGE : pystr :=
  py "A later record in this file supersedes the same logical key".
Definition DUPLICATE_ISSUE_FIELD : pystr := py "logical_identity".
Definition DUPLICATE_ISSUE_FIXED_BYTES : Z :=
  64 + zsum (map utf8_len [DUPLICATE_ISSUE_CODE; DUPLICATE_ISSUE_MESSAGE; DUPLICATE_ISSUE_FIELD]).

(** [concat_ws('/', ...)]. *)
Fixpoint concat_ws (parts : list pystr) : pystr :=
  match parts with
  | [] => []
  | [p] => p
  | p :: parts => p ++ py "/" ++ concat_ws parts
  end.

Section duplicates.
Context {A K : Type} `{EqDecision K}.
Variable partition : A -> K.
Variable logical_key : A -> pystr.
Variable record_index : A -> Z.

(** [row_number() OVER (PARTITION BY ... ORDER BY record_index DESC) > 1]. *)
Definition superseded (rows : list A) (r : A) : bool :=
  existsb (fun r' => bool_decide (partition r' = partition r) && (record_index r <? record_index r')) rows.
Definition duplicates (rows : list A) : list A := List.filter (superseded rows) rows.
Definition survivors (rows : list A) : list A := List.filter (fun r => negb (superseded rows r)) rows.

Definition duplicate_issue (sid : uuid) (r : A) : ValidationIssue := {|
  vi_source_file_id := sid; vi_severity := RECORD_REJECTION; vi_code := DUPLICATE_ISSUE_CODE;
  vi_message := DUPLICATE_ISSUE_MESSAGE; vi_record_index := Some (record_index r);
  vi_field_name := Some DUPLICATE_ISSUE_FIELD; vi_rejected_value := Some (take 512 (logical_key r)) |}.
Definition duplicate_bytes (r : A) : Z :=
  DUPLICATE_ISSUE_FIXED_BYTES + utf8_len (take 512 (logical_key r)).

#[local] Instance record_index_dec : RelDecision (fun a b : A => record_index a <= record_index b).
Proof. intros a b. apply _. Defined.

(** The statements of [finalize_staging] on one table: count the duplicates, record a sample
    of them as issues, count them as rejections and delete them. *)
Definition reject_duplicates (sid : uuid) (a : attempt) (get : ApplyTables -> list A)
    (keep : (A -> bool) -> ApplyTables -> ApplyTables) : M ApplyTables unit :=
  current ← gets (attempt_issue_summary a);
  dups ← gets (fun t => duplicates (get t));
  let count := py_len dups in
  let bytes := zsum (map duplicate_bytes dups) in
  let existing := warnings current + rejected_records current + file_quarantines current in
  raise_if ((maximum_issues limits <? existing + count)
            || (maximum_issue_bytes limits <? validation_issue_bytes current + bytes))
    (MakoletExn QuarantinedFileError 0);;
  let evidence := Z.min count (maximum_evidence limits - sampled_validation_issues current) in
  raise_if (evidence <? 0) integrity_error;;
  let sample := take (Z.to_nat evidence)
    (merge_sort (fun a b => record_index a <= record_index b) dups) in
  modify (set_issues (fun l => l ++ map (fun r => (a, duplicate_issue sid r)) sample) (fun m => m));;
  modify (fun t => set_stage a (combine_stage (attempt_stage a t)
    {| metadata_records := 0; store_records := 0; price_records := 0; promotion_records := 0;
       warnings := 0; rejected_records := count; file_quarantines := 0;
       validation_issue_bytes := bytes; sampled_validation_issues := evidence |}) t);;
  modify (fun t => keep (fun r => negb (superseded (get t) r)) t).
End duplicates.

(** [DELETE ... USING ranked], by source file and record index. *)
Definition keep_stores (sid : uuid) (a : attempt) (f : StagedStore -> bool) (t : ApplyTables) : ApplyTables :=
  let r := staged_of sid a t in
  set_staged sid (tb_put stores_table (F := rows_of) (List.filter f (r_stores r)) r) t.
Definition keep_prices (sid : uuid) (a : attempt) (f : StagedPrice -> bool) (t : ApplyTables) : ApplyTables :=
  let r := staged_of sid a t in
  set_staged sid (tb_put prices_table (F := rows_of) (List.filter f (r_prices r)) r) t.

(** Deleting a promotion deletes its child rows. *)
Definition kept_promotions (f : StagedPromotion -> bool) (r : Staged) : Staged :=
  let kept := List.filter f (r_promotions r) in
  let has_parent i := existsb (fun p => spm_record_index p =? i) kept in {|
  r_documents := r_documents r; r_stores := r_stores r; r_prices := r_prices r; r_promotions := kept;
  r_items := List.filter (fun i => has_parent (spi_record_index i)) (r_items r);
  r_promotion_stores :=
    List.filter (fun s => has_parent (sps_record_index s)) (r_promotion_stores r);
  r_clubs := List.filter (fun c => has_parent (spc_record_index c)) (r_clubs r);
  r_issues := r_issues r |}.
Definition keep_promotions (sid : uuid) (a : attempt) (f : StagedPromotion -> bool) (t : ApplyTables) : ApplyTables :=
  set_staged sid (kept_promotions f (staged_of sid a t)) t.

Definition store_identity (s : StagedStore) : list pystr := [ss_subchain_id s; ss_source_store_id s].
Definition price_identity (p : StagedPrice) : list pystr :=
  [sp_subchain_id p; sp_source_store_id p; sp_source_item_code p].
Definition promotion_identity (p : StagedPromotion) : list pystr :=
  [spm_subchain_id p; spm_source_scope_store_code p; spm_source_promotion_id p].

Definition finalize_tables (sid : uuid) (a : attempt) (d : DocumentType) : M ApplyTables StageSummary :=
  (if bool_decide (d = STORES) then
     reject_duplicates store_identity (fun s => concat_ws (store_identity s)) ss_record_index sid a
       (fun t => staged (staged_stores (at_catalog t)) sid) (keep_stores sid a)
   else if is_price d then
     reject_duplicates price_identity (fun p => concat_ws (price_identity p)) sp_record_index sid a
       (fun t => staged (staged_prices (at_catalog t)) sid) (keep_prices sid a)
   else if is_promotion d then
     reject_duplicates promotion_identity (fun p => concat_ws (promotion_identity p)) spm_record_index
       sid a (fun t => staged (staged_promotions (at_promotions t)) sid) (keep_promotions sid a)
   else mret tt);;
  summary ← gets (staging_summary sid a);
  modify (write_stage a summary);;
  mret summary.

(** [_clear_staging] on the tables. *)
Definition no_staged : Staged := {| r_documents := []; r_stores := []; r_prices := []; r_promotions := [];
  r_items := []; r_promotion_stores := []; r_clubs := []; r_issues := [] |}.
Definition clear_tables (sid : uuid) (a : attempt) (t : ApplyTables) : ApplyTables :=
  write_stage a empty_stage (put_staged sid a no_staged t).

(** ** The candidates of a reuse *)

(** A completed file whose staged rows may be cloned: its id, its completed run and when its
    content was applied. *)
Record Candidate := { cd_source : uuid; cd_run : uuid; cd_applied_at : Z }.

(** [WHERE run.status = 'completed' ORDER BY run.attempt DESC LIMIT 1]. *)
Definition completed_run (sid : uuid) (d : Db) : option RunRow :=
  let l := List.filter (fun r => bool_decide (run_status r = COMPLETED)) (runs_of sid d) in
  k ← max_attempt l; List.find (fun r => run_attempt r =? k) l.

Definition candidate_of (sid : uuid) (target : SourceRow) (sha version : pystr) (d : Db)
    (contents : gmap uuid AppliedContent) (cid : uuid) (row : SourceRow) : option Candidate :=
  '(csha, _) ← joined_archive d row;
  content ← contents !! cid;
  run ← completed_run cid d;
  if negb (cid =? sid)
     && bool_decide (rf_retailer_id (src_remote row) = rf_retailer_id (src_remote target))
     && bool_decide (rf_portal_id (src_remote row) = rf_portal_id (src_remote target))
     && bool_decide (rf_document_type (src_remote row) = rf_document_type (src_remote target))
     && bool_decide (rf_compression (src_remote row) = rf_compression (src_remote target))
     && bool_decide (src_parser_version row = Some version)
     && bool_decide (src_status row = COMPLETED)
     && bool_decide (csha = sha)
     && negb (existsb (fun r => rp_source r =? cid) (replays d))
  then Some {| cd_source := cid; cd_run := run_id run; cd_applied_at := ac_applied_at content |}
  else None.

(** [ORDER BY applied.applied_at DESC, candidate.id LIMIT 1]. *)
Definition preferred (a b : Candidate) : bool :=
  (cd_applied_at b <? cd_applied_at a)
  || ((cd_applied_at a =? cd_applied_at b) && (cd_source a <=? cd_source b)).
Definition first_candidate (l : list Candidate) : option Candidate :=
  foldr (fun c best => match best with
                       | Some b => if preferred c b then Some c else Some b
                       | None => Some c
                       end) None l.
Definition find_candidate (sid : uuid) (target : SourceRow) (sha version : pystr) (d : Db)
    (contents : gmap uuid AppliedContent) : option Candidate :=
  first_candidate (omap (fun '(cid, row) => candidate_of sid target sha version d contents cid row)
    (map_to_list (sources d))).

(** The issues a clone takes over: those of records, below the file level. *)
Definition cloned_issue (i : ValidationIssue) : bool :=
  bool_decide (vi_record_index i <> None) && bool_decide (vi_severity i ∈ [WARNING; RECORD_REJECTION]).

(** [_clone_staging_table], for each of the tables, and the [INSERT ... SELECT] of the issues. *)
Definition cloned (sid : uuid) (r : Staged) : Staged := {|
  r_documents := r_documents r; r_stores := r_stores r; r_prices := r_prices r;
  r_promotions := r_promotions r; r_items := r_items r; r_promotion_stores := r_promotion_stores r;
  r_clubs := r_clubs r;
  r_issues := map (fun i => {| vi_source_file_id := sid; vi_severity := vi_severity i; vi_code := vi_code i;
                               vi_message := vi_message i; vi_record_index := vi_record_index i;
                               vi_field_name := vi_field_name i; vi_rejected_value := vi_rejected_value i |})
                (List.filter cloned_issue (r_issues r)) |}.

(** The counters a clone is given: a run keeps its record counters, those of a replay are
    replaced. *)
Definition write_cloned_stage (a : attempt) (s : StageSummary) (t : ApplyTables) : ApplyTables :=
  if a.1 then write_stage a s t
  else let old := attempt_stage a t in set_stage a {|
    metadata_records := metadata_records old; store_records := store_records old;
    price_records := price_records old; promotion_records := promotion_records old;
    warnings := warnings s; rejected_records := rejected_records s;
    file_quarantines := file_quarantines s; validation_issue_bytes := validation_issue_bytes s;
    sampled_validation_issues := sampled_validation_issues s |} t.

(** From the choice of the candidate to the end: the summary of the clone, or nothing. *)
Definition clone_candidate (sid : uuid) (a : attempt) (c : Candidate) : M ApplyTables (option StageSummary) :=
  let ca := run_attempt_of (cd_run c) in
  actual ← gets (staging_summary (cd_source c) ca);
  expected ← gets (attempt_stage ca);
  if negb (bool_decide (actual = expected)) then mret None
  else if negb (file_quarantines expected =? 0) then mret None
  else
    modify (fun t => put_staged sid a (cloned sid (staged_of (cd_source c) ca t)) t);;
    modify (write_cloned_stage a actual);;
    mret (Some actual).

(** ** The transactions *)

Section operations.
Context {Y : Type}.

Definition current_attempt (sid : uuid) : M (Db * (ApplyTables * Y)) attempt :=
  '(run, replay) ← on_db (current_attempt_ids sid); mret (attempt_of run replay).

Definition db_stage (sid : uuid) (events : list ParsedEvent) : M (Session_state * (ApplyTables * Y)) StageSummary :=
  in_joint_transaction (Some sid)
    (a ← current_attempt sid; on_tables (stage_tables sid a events)).

Definition db_finalize_staging (sid : uuid) (d : DocumentType) : M (Session_state * (ApplyTables * Y)) StageSummary :=
  in_joint_transaction (Some sid)
    (a ← current_attempt sid; on_tables (finalize_tables sid a d)).

Definition db_has_file_quarantine_issue (sid : uuid) : M (Session_state * (ApplyTables * Y)) bool :=
  in_joint_transaction (Some sid)
    (a ← current_attempt sid; on_tables (gets (fun t => 0 <? file_quarantines (attempt_stage a t)))).

Definition clear_staging_body (sid : uuid) : M (Db * (ApplyTables * Y)) unit :=
  a ← current_attempt sid; on_tables (modify (clear_tables sid a)).

Definition db_clear_staging (sid : uuid) : M (Session_state * (ApplyTables * Y)) unit :=
  in_joint_transaction (Some sid) (clear_staging_body sid).

(** The locked row of the file and its content, while it is being parsed or replayed. *)
Definition lock_reuse_target (sid : uuid) (d : DocumentType) (compression : CompressionFormat)
    : M Db (SourceRow * pystr) :=
  db ← get_state;
  match archived_row sid db with
  | None => raise not_found
  | Some (row, sha) =>
      raise_if (negb (bool_decide (rf_document_type (src_remote row) = d))) conflict;;
      raise_if (negb (bool_decide (rf_compression (src_remote row) = compression))) conflict;;
      raise_if (negb (bool_decide (src_status row = PARSING))
                && negb (existsb (fun r => (rp_source r =? sid) && bool_decide (rp_finished_at r = None))
                           (replays db))) conflict;;
      mret (row, sha)
  end.

Definition db_reuse_validated_staging (sid : uuid) (version : pystr) (d : DocumentType)
    (compression : CompressionFormat) : M (Session_state * (ApplyTables * Y)) (option StageSummary) :=
  raise_if (negb (str_truthy version) || (128 <? py_len version)) (PyExn ValueError);;
  in_joint_transaction (Some sid)
    ('(row, sha) ← on_db (lock_reuse_target sid d compression);
     clear_staging_body sid;;
     db ← on_db get_state;
     t ← on_tables get_state;
     match find_candidate sid row sha version db (at_contents t) with
     | None => mret None
     | Some c => a ← current_attempt sid; on_tables (clone_candidate sid a c)
     end).
End operations.
End staging.
