(* ===== verification/StagingStoreFacts.v ===== *)
(** What the staging statements do: copying through buffers is one insertion, staged rows are
    those of the events, and duplicates are exactly the superseded rows. *)
From S2P Require Import Prelude Errors Effects Enums PyNumbers Models AppModels Ports Database SourceFiles Staging StagingFacts Temporal Catalog Prices Roster Promotions Apply StagedRows StagingStore.

(** ** One insertion of many rows *)

(** Whether rows can be inserted does not depend on how they are cut into statements. *)
Definition cuttable {A} (admits : list A -> list A -> bool) : Prop :=
  (forall old, admits [] old = true) /\
  forall l k old, admits (l ++ k) old = admits l old && admits k (old ++ l).

Lemma new_keys_cuttable {A} (key : A -> Z * Z) : cuttable (new_keys key).
Proof.
  split; [done|]. intros l k old. unfold new_keys. apply eq_true_iff_eq.
  rewrite !andb_true_iff, !bool_decide_eq_true, !forallb_forall, map_app, NoDup_app.
  setoid_rewrite negb_true_iff. setoid_rewrite bool_decide_eq_false.
  setoid_rewrite <- list_elem_of_In. setoid_rewrite map_app.
  setoid_rewrite elem_of_app. split.
  - intros ((Hl & Hd & Hk) & Hold). split_and!; try done; intros a Ha; [by auto|].
    intros [Hin|Hin]; [by eapply Hold; eauto|]. eapply Hd; [done|]. by apply list_elem_of_fmap_2.
  - intros ([Hl Hlo] & Hk & Hko). split_and!; try done.
    + intros x (a & -> & Ha)%list_elem_of_fmap (b & Hab & Hb)%list_elem_of_fmap.
      apply (Hko b Hb). right. rewrite <- Hab. by apply list_elem_of_fmap_2.
    + intros a [Ha|Ha] Hin; [by eapply Hlo|]. apply (Hko a Ha). by left.
Qed.

Lemma mapM_id_app {A} (l k : list (option A)) :
  mapM id (l ++ k) = (x ← mapM id l; y ← mapM id k; Some (x ++ y)).
Proof.
  induction l as [|o l IH]; simpl; [by destruct (mapM id k)|].
  destruct o; simpl; [|done]. rewrite IH. destruct (mapM id l); simpl; [|done].
  by destruct (mapM id k).
Qed.

Section insert.
Context {A : Type} (admits : list A -> list A -> bool) (Hcut : cuttable admits).

Lemma insert_rows_nil old : insert_rows admits [] old = Some old.
Proof. unfold insert_rows. simpl. by rewrite (proj1 Hcut), app_nil_r. Qed.

Lemma insert_rows_app l k old :
  insert_rows admits (l ++ k) old = (mid ← insert_rows admits l old; insert_rows admits k mid).
Proof.
  unfold insert_rows. rewrite mapM_id_app.
  destruct (mapM id l) as [nl|]; [|done]. destruct (mapM id k) as [nk|]; simpl.
  - rewrite (proj2 Hcut). destruct (admits nl old); simpl; [|done].
    destruct (admits nk (old ++ nl)); [|done]. by rewrite app_assoc.
  - by destruct (admits nl old).
Qed.

Lemma insert_rows_some l old rows :
  insert_rows admits l old = Some rows <->
  exists new, mapM id l = Some new /\ admits new old = true /\ rows = old ++ new.
Proof.
  unfold insert_rows. destruct (mapM id l) as [new|]; simpl; [|naive_solver].
  destruct (admits new old) eqn:E; split; [intros [= <-]; eauto|intros (? & [= <-] & ? & ->)|done|intros (? & [= <-] & ? & ->)]; congruence.
Qed.
End insert.

(** Inserting what the buffers hold into every table. *)
Definition insert_all (b : Buffers) (r : Staged) : option Staged :=
  documents ← insert_rows (tb_admits documents_table) (r_documents b) (r_documents r);
  stores ← insert_rows (tb_admits stores_table) (r_stores b) (r_stores r);
  prices ← insert_rows (tb_admits prices_table) (r_prices b) (r_prices r);
  promotions ← insert_rows (tb_admits promotions_table) (r_promotions b) (r_promotions r);
  items ← insert_rows (tb_admits items_table) (r_items b) (r_items r);
  promotion_stores ← insert_rows (tb_admits promotion_stores_table) (r_promotion_stores b) (r_promotion_stores r);
  clubs ← insert_rows (tb_admits clubs_table) (r_clubs b) (r_clubs r);
  issues ← insert_rows (tb_admits issues_table) (r_issues b) (r_issues r);
  Some {| r_documents := documents; r_stores := stores; r_prices := prices; r_promotions := promotions;
          r_items := items; r_promotion_stores := promotion_stores; r_clubs := clubs; r_issues := issues |}.

Lemma issues_cuttable : cuttable (tb_admits issues_table).
Proof. done. Qed.
#[local] Hint Resolve new_keys_cuttable issues_cuttable : core.

(** Table by table. *)
Lemma insert_all_some b r r' : insert_all b r = Some r' <->
  insert_rows (tb_admits documents_table) (r_documents b) (r_documents r) = Some (r_documents r') /\
  insert_rows (tb_admits stores_table) (r_stores b) (r_stores r) = Some (r_stores r') /\
  insert_rows (tb_admits prices_table) (r_prices b) (r_prices r) = Some (r_prices r') /\
  insert_rows (tb_admits promotions_table) (r_promotions b) (r_promotions r) = Some (r_promotions r') /\
  insert_rows (tb_admits items_table) (r_items b) (r_items r) = Some (r_items r') /\
  insert_rows (tb_admits promotion_stores_table) (r_promotion_stores b) (r_promotion_stores r)
    = Some (r_promotion_stores r') /\
  insert_rows (tb_admits clubs_table) (r_clubs b) (r_clubs r) = Some (r_clubs r') /\
  insert_rows (tb_admits issues_table) (r_issues b) (r_issues r) = Some (r_issues r').
Proof.
  unfold insert_all. split.
  - intros H. repeat match type of H with
    | mbind _ ?o = _ => destruct o eqn:?; cbn [mbind option_bind] in H; [|discriminate]
    end.
    injection H as <-. by split_and!.
  - intros H. destruct_and?. repeat match goal with
    | E : ?x = Some _ |- context [mbind _ ?x] => rewrite E; cbn [mbind option_bind]
    end.
    by destruct r'.
Qed.

Lemma insert_all_app b c r :
  insert_all (rows_app b c) r = (mid ← insert_all b r; insert_all c mid).
Proof.
  apply option_eq. intros r''. rewrite bind_Some, insert_all_some. unfold rows_app.
  cbn [r_documents r_stores r_prices r_promotions r_items r_promotion_stores r_clubs r_issues].
  rewrite !insert_rows_app, !bind_Some by (simpl; auto). split.
  - intros ([d [? ?]] & [s [? ?]] & [p [? ?]] & [pm [? ?]] & [i [? ?]] & [ps [? ?]] & [c' [? ?]] & [v [? ?]]).
    exists {| r_documents := d; r_stores := s; r_prices := p; r_promotions := pm; r_items := i;
              r_promotion_stores := ps; r_clubs := c'; r_issues := v |}.
    by rewrite !insert_all_some.
  - intros (mid & Hb & Hc). rewrite insert_all_some in Hb, Hc. split_and!; eexists; split_and!; intuition eauto.
Qed.

Lemma insert_all_nil r : insert_all no_rows r = Some r.
Proof.
  apply insert_all_some. unfold no_rows. cbn [r_documents r_stores r_prices r_promotions r_items
    r_promotion_stores r_clubs r_issues]. by rewrite !insert_rows_nil by (simpl; auto).
Qed.

(** A table that is one of the eight: flushing it moves rows from the buffers to the table. *)
Definition movable {A} (tb : Table A) : Prop := forall (b : Buffers) (r : Staged),
  match insert_rows (tb_admits tb) (tb_rows tb b) (tb_rows tb r) with
  | Some rows => insert_all (tb_put tb (F := incoming) [] b) (tb_put tb (F := rows_of) rows r) = insert_all b r
  | None => insert_all b r = None
  end /\ (tb_rows tb b = [] -> tb_put tb (F := incoming) [] b = b).

Lemma insert_all_none b r :
  (forall r', insert_all b r <> Some r') -> insert_all b r = None.
Proof. intros H. destruct (insert_all b r) as [r'|]; [by destruct (H r')|done]. Qed.

Ltac prove_movable tb :=
  intros b r; split; [|by destruct b; cbn; intros ->];
  destruct (insert_rows (tb_admits tb) (tb_rows tb b) (tb_rows tb r)) eqn:E; cbn [tb_rows tb] in E;
  [apply option_eq; intros r'; rewrite !insert_all_some;
   cbn [tb tb_put r_documents r_stores r_prices r_promotions r_items r_promotion_stores r_clubs r_issues];
   rewrite insert_rows_nil by (simpl; auto); rewrite E; reflexivity
  |apply insert_all_none; intros r'; rewrite insert_all_some; intros H; destruct_and!; congruence].
Lemma documents_movable : movable documents_table. Proof. prove_movable documents_table. Qed.
Lemma stores_movable : movable stores_table. Proof. prove_movable stores_table. Qed.
Lemma prices_movable : movable prices_table. Proof. prove_movable prices_table. Qed.
Lemma promotions_movable : movable promotions_table. Proof. prove_movable promotions_table. Qed.
Lemma items_movable : movable items_table. Proof. prove_movable items_table. Qed.
Lemma promotion_stores_movable : movable promotion_stores_table. Proof. prove_movable promotion_stores_table. Qed.
Lemma clubs_movable : movable clubs_table. Proof. prove_movable clubs_table. Qed.
Lemma issues_movable : movable issues_table. Proof. prove_movable issues_table. Qed.
#[local] Hint Resolve documents_movable stores_movable prices_movable promotions_movable items_movable
  promotion_stores_movable clubs_movable issues_movable : core.

(** ** Buffered copying *)

Lemma flush_table_spec {A} (tb : Table A) n b r : movable tb -> 1 <= n ->
  wp (flush_table tb n b)
    (fun b' r' => insert_all b' r' = insert_all b r /\ (n = 1 -> b' = tb_put tb (F := incoming) [] b))
    (fun _ _ => insert_all b r = None) r.
Proof.
  intros Hm Hn. destruct (Hm b r) as [Hrows Hempty]. unfold flush_table, copy_records.
  destruct (Z.leb_spec n (py_len (tb_rows tb b : list (option A)))) as [Hl|Hl].
  - wp_step. wp_step. wp_step.
    destruct (insert_rows (tb_admits tb) (tb_rows tb b) (tb_rows tb r)); [|by wp_step].
    wp_step. by wp_step.
  - wp_step. split; [done|]. intros ->. symmetry. apply Hempty, py_len_0_nil.
    pose proof (py_len_nonneg (tb_rows tb b : list (option A))). lia.
Qed.

Lemma flush_buffers_spec n b r : 1 <= n ->
  wp (flush_buffers n b)
    (fun b' r' => insert_all b' r' = insert_all b r /\ (n = 1 -> b' = no_rows))
    (fun _ _ => insert_all b r = None) r.
Proof.
  intros Hn. unfold flush_buffers.
  assert (Hstep : forall A (tb : Table A) b1 r1 (f : Buffers -> M Staged Buffers) Q E,
    movable tb ->
    (forall b2 r2, insert_all b2 r2 = insert_all b1 r1 ->
       (n = 1 -> b2 = tb_put tb (F := incoming) [] b1) -> wp (f b2) Q E r2) ->
    (insert_all b1 r1 = None -> forall e r2, E e r2) ->
    wp (flush_table tb n b1 ≫= f) Q E r1).
  { intros A tb b1 r1 f Q E Hm Hf He. wp_step.
    eapply wp_mono; [by apply flush_table_spec|..]; cbv beta; [intros b2 r2 [? ?]|]; auto. }
  do 7 (apply Hstep; [auto|intros ? ? ? ?|intros; congruence]).
  eapply wp_mono; [by apply flush_table_spec|..]; cbv beta; [|intros; congruence].
  intros b' r' [? Hlast]. split; [congruence|]. intros ->.
  rewrite Hlast by done. repeat match goal with H : 1 = 1 -> ?x = _ |- _ => rewrite (H eq_refl); clear H end.
  reflexivity.
Qed.

Section copy.
Variable json_sha256 : FingerprintPayload -> pystr.
Variable sid : uuid.
Variables metadata_index evidence_limit : Z.

(** All rows of a sequence of events, after those already collected; [None] when an event is
    of another file or has no fingerprint. *)
Fixpoint collect (s : Buffers * StageSummary) (events : list ParsedEvent) : option (Buffers * StageSummary) :=
  match events with
  | [] => Some s
  | event :: events =>
      if event_source event =? sid then
        '(rows, counts) ← next_rows json_sha256 metadata_index evidence_limit s.2 event;
        collect (rows_app s.1 rows, counts) events
      else None
  end.

(** Inserting everything at once. *)
Definition copy_at_once (events : list ParsedEvent) (r : Staged) : option (StageSummary * Staged) :=
  '(rows, counts) ← collect (no_rows, empty_stage) events;
  r' ← insert_all rows r; Some (counts, r').

Lemma rows_app_assoc a b c : rows_app a (rows_app b c) = rows_app (rows_app a b) c.
Proof. unfold rows_app. simpl. by rewrite !app_assoc. Qed.

(** What is collected first only comes before what follows. *)
Lemma collect_app b counts events :
  collect (b, counts) events =
    ('(rows, counts) ← collect (no_rows, counts) events; Some (rows_app b rows, counts)).
Proof.
  enough (H : forall c, collect (rows_app b c, counts) events =
    ('(rows, counts) ← collect (c, counts) events; Some (rows_app b rows, counts))).
  { rewrite <- H. f_equal. f_equal. destruct b. unfold rows_app, no_rows. simpl. by rewrite !app_nil_r. }
  revert counts. induction events as [|event events IH]; intros counts c; simpl; [done|].
  destruct (event_source event =? sid); [|done].
  destruct (next_rows json_sha256 metadata_index evidence_limit counts event) as [[rows counts']|];
    simpl; [|done]. by rewrite <- rows_app_assoc, IH.
Qed.

Lemma copy_each_spec events b counts r :
  wp (copy_each json_sha256 sid metadata_index evidence_limit (b, counts) events)
    (fun s r' => exists rows, collect (b, counts) events = Some (rows, s.2) /\
       insert_all s.1 r' = insert_all rows r)
    (fun _ _ => match collect (b, counts) events with
                | Some (rows, _) => insert_all rows r = None
                | None => True
                end) r.
Proof.
  revert b counts r. induction events as [|event events IH]; intros b counts r; simpl.
  { wp_step. by exists b. }
  unfold copy_event. do 2 wp_step. apply wp_raise_if; intros He; simpl.
  { apply negb_true_iff in He. by rewrite He. }
  apply negb_false_iff in He. rewrite He. cbn [snd fst].
  destruct (next_rows json_sha256 metadata_index evidence_limit counts event) as [[rows counts']|];
    cbn [mbind option_bind]; [|by wp_step].
  wp_step.
  eapply wp_mono; [by apply flush_buffers_spec|..]; cbv beta.
  - intros b' r' [Hb _]. wp_step.
    assert (Hall : forall x, insert_all (rows_app b' x) r' = insert_all (rows_app (rows_app b rows) x) r).
    { intros x. by rewrite !(insert_all_app _ x), Hb. }
    eapply wp_mono; [apply IH|..]; cbv beta; rewrite (collect_app b'), (collect_app (rows_app b rows));
      destruct (collect (no_rows, counts') events) as [[x n]|]; cbn [mbind option_bind].
    + intros s r2 (y & [= <- <-] & Hins). eexists; split; [done|]. by rewrite Hins, Hall.
    + by intros s r2 (y & ? & _).
    + intros e r2 Hins. by rewrite <- Hall.
    + done.
  - intros e r' Hnone. rewrite collect_app. destruct (collect (no_rows, counts') events) as [[x n]|];
      cbn [mbind option_bind]; [|done]. by rewrite insert_all_app, Hnone.
Qed.

(** Copying through the buffers does what one insertion of all rows does. *)
Lemma copy_events_spec events r :
  wp (copy_events json_sha256 sid metadata_index evidence_limit events)
    (fun counts r' => copy_at_once events r = Some (counts, r'))
    (fun _ _ => copy_at_once events r = None) r.
Proof.
  unfold copy_events, copy_at_once. wp_step.
  eapply wp_mono; [apply copy_each_spec|..]; cbv beta.
  - intros [b counts] r1 (rows & -> & Hins). cbn [mbind option_bind fst snd] in *. rewrite <- Hins. wp_step.
    eapply wp_mono; [by apply flush_buffers_spec|..]; cbv beta.
    + intros b' r' [Hb Hlast]. wp_step. rewrite <- Hb, Hlast by done. by rewrite insert_all_nil.
    + by intros _ _ ->.
  - intros _ _. destruct (collect (no_rows, empty_stage) events) as [[rows counts]|]; cbn [mbind option_bind];
      [|done]. by intros ->.
Qed.
End copy.

(** ** The rows of a sequence of events, table by table *)

Definition documents_in : list ParsedEvent -> list DocumentMetadata :=
  omap (fun e => match e with EvMetadata r => Some r | _ => None end).
Definition stores_in : list ParsedEvent -> list StoreRecord :=
  omap (fun e => match e with EvStore r => Some r | _ => None end).
Definition prices_in : list ParsedEvent -> list PriceRecord :=
  omap (fun e => match e with EvPrice r => Some r | _ => None end).
Definition promotions_in : list ParsedEvent -> list PromotionRecord :=
  omap (fun e => match e with EvPromotion r => Some r | _ => None end).
Definition issues_in : list ParsedEvent -> list ValidationIssue :=
  omap (fun e => match e with EvIssue i => Some i | _ => None end).

Section rows_of_events.
Variable json_sha256 : FingerprintPayload -> pystr.

Definition promotion_staged (r : PromotionRecord) : option StagedPromotion :=
  fingerprint ← promotion_fingerprint json_sha256 r; promotion_row_of fingerprint r.

(** The rows of the events, the first [limit] issues among them, with the documents numbered
    from [index]. *)
Definition rows_of_events (index limit : Z) (events : list ParsedEvent) : Buffers := {|
  r_documents := imap (fun k r => document_row (index + Z.of_nat k) r) (documents_in events);
  r_stores := map store_row (stores_in events);
  r_prices := map price_row (prices_in events);
  r_promotions := map promotion_staged (promotions_in events);
  r_items := flat_map (fun r => imap (item_row (pm_record_index r)) (pm_items r)) (promotions_in events);
  r_promotion_stores := flat_map (fun r => imap (promotion_store_row (pm_record_index r))
    (effective_promotion_store_ids r)) (promotions_in events);
  r_clubs := flat_map (fun r => imap (promotion_club_row (pm_record_index r)) (pm_club_ids r))
    (promotions_in events);
  r_issues := map issue_row (take (Z.to_nat limit) (issues_in events)) |}.

Lemma same_counts_sample a b : same_counts a b -> same_counts (count_sample a) b.
Proof. unfold same_counts. simpl. tauto. Qed.

Lemma count_event_sampled c e : sampled_validation_issues (count_event c e) = sampled_validation_issues c.
Proof. by destruct e as [| | | |i]; [..|simpl; destruct (vi_severity i)]. Qed.
Lemma count_event_metadata c e : metadata_records (count_event c e) =
  metadata_records c + match e with EvMetadata _ => 1 | _ => 0 end.
Proof. destruct e as [| | | |i]; [..|simpl; destruct (vi_severity i)]; simpl; lia. Qed.

Lemma collect_rows sid index limit events counts b s :
  collect json_sha256 sid index limit (no_rows, counts) events = Some (b, s) ->
  b = rows_of_events (index + metadata_records counts) (limit - sampled_validation_issues counts) events /\
  same_counts s (foldl count_event counts events) /\
  sampled_validation_issues s = sampled_validation_issues counts
    + py_len (take (Z.to_nat (limit - sampled_validation_issues counts)) (issues_in events)).
Proof.
  revert counts b s. induction events as [|event events IH]; intros counts b s.
  { simpl. intros [= <- <-]. unfold rows_of_events, no_rows. simpl. rewrite take_nil.
    split_and!; [done|reflexivity|rewrite py_len_nil; lia]. }
  simpl. destruct (event_source event =? sid); [|done].
  unfold next_rows at 1. destruct (event_rows _ _ _ event) as [rows|] eqn:Hrows; simpl; [|done].
  set (sampled := match event with EvIssue _ => _ | _ => false end) in *.
  set (counts' := if sampled then count_sample (count_event counts event) else count_event counts event).
  rewrite collect_app. destruct (collect _ _ _ _ (no_rows, counts') events) as [[c n]|] eqn:Hc; [|done].
  intros [= <- <-]. apply IH in Hc as (-> & Hn & Hs).
  assert (Hcount : same_counts (foldl count_event counts' events)
    (foldl count_event (count_event counts event) events)).
  { apply foldl_count_proper. unfold counts'. destruct sampled; [|reflexivity].
    by apply same_counts_sample. }
  rewrite Hcount in Hn.
  assert (Hm : metadata_records counts' = metadata_records counts +
    match event with EvMetadata _ => 1 | _ => 0 end).
  { rewrite <- count_event_metadata. unfold counts'. by destruct sampled. }
  assert (Hsam : sampled_validation_issues counts' =
    sampled_validation_issues counts + if sampled then 1 else 0).
  { unfold counts'. destruct sampled; simpl; rewrite count_event_sampled; lia. }
  rewrite Hm, Hsam in *. clearbody counts'. clear Hm Hsam Hcount.
  destruct event as [r|r|r|r|i]; simpl in Hrows;
    [| | |destruct (promotion_fingerprint json_sha256 r) as [f|] eqn:Hf; [|done]|];
    injection Hrows as <-; subst sampled; cbn match; rewrite ?Z.add_0_r in *;
    (split_and!; [|done|try done]); unfold rows_of_events, rows_app; simpl.
  - f_equal. f_equal; [f_equal; lia|]. apply imap_ext. intros k x _. simpl. f_equal. lia.
  - done.
  - done.
  - unfold promotion_staged at 2. by rewrite Hf.
  - destruct (Z.ltb_spec (sampled_validation_issues counts) limit) as [Hl|Hl].
    + replace (limit - (sampled_validation_issues counts + 1))
        with (limit - sampled_validation_issues counts - 1) by lia.
      replace (Z.to_nat (limit - sampled_validation_issues counts))
        with (S (Z.to_nat (limit - sampled_validation_issues counts - 1))) by lia. done.
    + rewrite Z.add_0_r. replace (Z.to_nat (limit - sampled_validation_issues counts)) with 0%nat by lia.
      done.
  - rewrite Hs. destruct (Z.ltb_spec (sampled_validation_issues counts) limit) as [Hl|Hl].
    + replace (limit - (sampled_validation_issues counts + 1))
        with (limit - sampled_validation_issues counts - 1) by lia.
      replace (Z.to_nat (limit - sampled_validation_issues counts))
        with (S (Z.to_nat (limit - sampled_validation_issues counts - 1))) by lia.
      simpl. rewrite py_len_cons. fold issues_in. lia.
    + rewrite !Z.add_0_r. by replace (Z.to_nat (limit - sampled_validation_issues counts)) with 0%nat by lia.
Qed.
End rows_of_events.

(** ** Staged rows as a part of the tables *)

(** The tables staging does not touch. *)
Abbreviation applied_tables :=
  ((gmap store_key StoreRow * gmap (portal_key * pystr) store_key * gmap item_key ItemRow *
    gmap price_key CurrentPrice * list PriceHistory * gmap price_key CurrentAvailability *
    list AvailabilityHistory) *
   (list PromotionRow * gmap (uuid * item_key) (option Z * bool) * gmap (uuid * store_key) unit *
    gmap (uuid * pystr) unit) *
   (gmap watermark_key Watermark * gmap uuid AppliedContent * gmap (uuid * uuid) (option Z * option Z)))%type.
Definition applied_part (t : ApplyTables) : applied_tables :=
  let c := at_catalog t in
  let p := at_promotions t in
  ((stores c, store_aliases c, retailer_items c, current_prices c, price_history c,
    current_availability c, availability_history c),
   (promotions p, promotion_items p, promotion_stores p, promotion_clubs p),
   (at_watermarks t, at_contents t, at_rebuild_files t)).

Lemma staged_insert_eq {A} (sid : uuid) (l : list A) m : staged (<[ sid := l ]> m) sid = l.
Proof. unfold staged. by rewrite lookup_insert_eq. Qed.
Lemma staged_insert_ne {A} (sid k : uuid) (l : list A) m : k <> sid ->
  staged (<[ sid := l ]> m) k = staged m k.
Proof. intros. unfold staged. by rewrite lookup_insert_ne. Qed.

Lemma filter_all {A} (f : A -> bool) l : (forall x, x ∈ l -> f x = true) -> List.filter f l = l.
Proof.
  induction l as [|x l IH]; intros H; simpl; [done|]. rewrite H by set_solver. f_equal. apply IH. set_solver.
Qed.
Lemma filter_none {A} (f : A -> bool) l : (forall x, x ∈ l -> f x = false) -> List.filter f l = [].
Proof.
  induction l as [|x l IH]; intros H; simpl; [done|]. rewrite H by set_solver. apply IH. set_solver.
Qed.
Lemma filter_filter_and {A} (f g : A -> bool) l :
  List.filter f (List.filter g l) = List.filter (fun x => g x && f x) l.
Proof.
  induction l as [|x l IH]; simpl; [done|]. destruct (g x); simpl; [destruct (f x); by rewrite IH|done].
Qed.

Lemma issues_of_put a l t : issues_of a (set_attempt_issues a l t) = l.
Proof.
  unfold issues_of, set_attempt_issues, set_issues. simpl.
  rewrite List.filter_app, filter_filter_and, (filter_none _ (at_issues t)), (filter_all _ (map (pair a) l)).
  - simpl. rewrite map_map. apply map_id.
  - intros x (i & -> & _)%list_elem_of_fmap. simpl. by rewrite bool_decide_eq_true_2.
  - intros x _. by destruct (bool_decide (x.1 = a)).
Qed.
Lemma issues_of_put_ne a a' l t : a' <> a -> issues_of a' (set_attempt_issues a l t) = issues_of a' t.
Proof.
  intros Hne. unfold issues_of, set_attempt_issues, set_issues. simpl.
  rewrite List.filter_app, filter_filter_and, (filter_none _ (map (pair a) l)), app_nil_r.
  - f_equal. apply List.filter_ext. intros x. destruct (bool_decide (x.1 = a')) eqn:E; [|by rewrite andb_false_r].
    apply bool_decide_eq_true in E. rewrite bool_decide_eq_false_2 by congruence. done.
  - intros x (i & -> & _)%list_elem_of_fmap. simpl. by rewrite bool_decide_eq_false_2.
Qed.

Lemma staged_of_put sid a r t : staged_of sid a (put_staged sid a r t) = r.
Proof.
  destruct r. unfold staged_of, put_staged. rewrite issues_of_put. simpl. by rewrite !staged_insert_eq.
Qed.
Lemma staged_of_put_ne sid a sid' a' r t : sid' <> sid -> a' <> a ->
  staged_of sid' a' (put_staged sid a r t) = staged_of sid' a' t.
Proof.
  intros Hs Ha. unfold staged_of, put_staged. rewrite issues_of_put_ne by done. simpl.
  by rewrite !staged_insert_ne.
Qed.
Lemma applied_part_put sid a r t : applied_part (put_staged sid a r t) = applied_part t.
Proof. done. Qed.
Lemma attempt_stage_put sid a r t a' : attempt_stage a' (put_staged sid a r t) = attempt_stage a' t.
Proof. done. Qed.
Lemma attempt_stage_set a s t : attempt_stage a (set_stage a s t) = s.
Proof. unfold attempt_stage, set_stage. simpl. by rewrite lookup_insert_eq. Qed.
Lemma attempt_stage_set_ne a a' s t : a' <> a -> attempt_stage a' (set_stage a s t) = attempt_stage a' t.
Proof. intros. unfold attempt_stage, set_stage. simpl. by rewrite lookup_insert_ne. Qed.

(** ** Staging a batch *)

(** The counted issues are within the limits. *)
Definition within_limits (limits : IssueLimits) (s : StageSummary) : Prop :=
  warnings s + rejected_records s + file_quarantines s <= maximum_issues limits /\
  validation_issue_bytes s <= maximum_issue_bytes limits.

Section stage.
Variable json_sha256 : FingerprintPayload -> pystr.
Variable limits : IssueLimits.
Abbreviation batch_rows := (rows_of_events json_sha256).

(** What is stored of [events] when nothing was before: their rows, the first issues, and
    their counts. *)
Definition stored (sid : uuid) (a : attempt) (events : list ParsedEvent) (t : ApplyTables) : Prop :=
  insert_all (batch_rows 0 (maximum_evidence limits) events) no_staged = Some (staged_of sid a t) /\
  same_counts (attempt_stage a t) (stage_events events) /\
  sampled_validation_issues (attempt_stage a t)
    = py_len (take (Z.to_nat (maximum_evidence limits)) (issues_in events)).

Lemma stored_nothing sid a t :
  staged_of sid a t = no_staged -> attempt_stage a t = empty_stage -> stored sid a [] t.
Proof.
  intros Hr Hs. unfold stored. rewrite Hr, Hs. split_and!; [|reflexivity|].
  - unfold rows_of_events. simpl. rewrite take_nil. apply (insert_all_nil no_staged).
  - simpl. by rewrite take_nil.
Qed.

Lemma rows_of_events_app index limit l k :
  batch_rows index limit (l ++ k) =
    rows_app (batch_rows index limit l)
      (batch_rows (index + py_len (documents_in l))
         (Z.max 0 (limit - py_len (take (Z.to_nat limit) (issues_in l)))) k).
Proof.
  unfold rows_of_events, rows_app, documents_in, stores_in, prices_in, promotions_in, issues_in. simpl.
  rewrite !omap_app, !map_app, !List.flat_map_app. f_equal.
  - rewrite imap_app. f_equal. apply imap_ext. intros j x _. simpl. unfold py_len. f_equal. lia.
  - rewrite take_app, map_app. f_equal. f_equal. f_equal. unfold py_len. rewrite length_take. lia.
Qed.

Lemma document_row_index i r d : document_row i r = Some d -> sdoc_metadata_index d = i.
Proof.
  unfold document_row, int_column. intros H.
  destruct (_ && _); [|done]. cbn [mbind option_bind] in H.
  repeat (apply bind_Some in H as (? & ? & H)). by injection H as <-.
Qed.

(** The documents of a file are numbered from 0. *)
Lemma documents_numbered index l rows :
  mapM id (imap (fun k r => document_row (index + Z.of_nat k) r) l) = Some rows -> 0 <= index ->
  length rows = length l /\ (rows <> [] -> next_metadata_index rows = index + py_len l).
Proof.
  revert index rows. induction l as [|x l IH]; intros index rows; simpl.
  { by intros [= <-]. }
  destruct (document_row (index + Z.of_nat 0) x) as [d|] eqn:Hd; simpl; [|done].
  apply document_row_index in Hd. destruct (mapM id (imap _ l)) as [rest|] eqn:Hr; simpl; [|done].
  intros [= <-] Hpos.
  assert (Hr' : mapM id (imap (fun k r => document_row ((index + 1) + Z.of_nat k) r) l) = Some rest).
  { rewrite <- Hr. f_equal. apply imap_ext. intros j y _. simpl. f_equal. lia. }
  apply IH in Hr' as [Hlen Hmax]; [|lia]. split; [simpl; lia|]. intros _.
  unfold next_metadata_index. simpl. rewrite py_len_cons. destruct rest as [|d' rest].
  - destruct l; [|done]. rewrite py_len_nil. simpl. lia.
  - specialize (Hmax ltac:(done)). unfold next_metadata_index in Hmax.
    pose proof (py_len_nonneg l). lia.
Qed.

Lemma stored_documents sid a events t : stored sid a events t ->
  next_metadata_index (staged (staged_documents (at_catalog t)) sid) = py_len (documents_in events).
Proof.
  intros (Hins & _). apply insert_all_some in Hins as (Hd & _).
  apply insert_rows_some in Hd as (new & Hnew & _ & Hrows). simpl in *. rewrite Hrows.
  destruct (documents_numbered 0 _ _ Hnew) as [Hlen Hmax]; [lia|].
  destruct new; [by destruct (documents_in events)|]. rewrite Hmax; [lia|done].
Qed.

Lemma stage_tables_spec sid a events batch t : stored sid a events t ->
  wp (stage_tables json_sha256 limits sid a batch)
    (fun s t' => stored sid a (events ++ batch) t' /\ same_counts s (stage_events batch) /\
       applied_part t' = applied_part t /\ within_limits limits (attempt_stage a t'))
    (fun _ _ => True) t.
Proof.
  intros Hst. pose proof (stored_documents _ _ _ _ Hst) as Hindex. destruct Hst as (Hins & Hcounts & Hsam).
  unfold stage_tables. do 5 wp_step. rewrite Hindex.
  set (limit := Z.max 0 _). apply wp_zoom.
  eapply wp_mono; [apply copy_events_spec| |by intros]; cbv beta.
  unfold copy_at_once. intros s r Hcopy. apply bind_Some in Hcopy as ([b s'] & Hc & Hcopy).
  apply bind_Some in Hcopy as (r' & Hb & Hcopy). injection Hcopy as -> ->.
  apply collect_rows in Hc as (-> & Hn & Hs). simpl in Hs. rewrite Z.add_0_r, Z.sub_0_r, ?Z.add_0_l in *.
  do 2 wp_step; [done|]. wp_step. do 2 wp_step. apply orb_false_iff in H as [? ?].
  split_and!; [|by rewrite stage_events_fold|done|]; reflect_bools.
  2: { unfold within_limits. rewrite attempt_stage_set, attempt_stage_put. simpl in *. lia. }
  unfold stored. rewrite attempt_stage_set, attempt_stage_put.
  assert (Hlimit : limit = Z.max 0 (maximum_evidence limits
    - py_len (take (Z.to_nat (maximum_evidence limits)) (issues_in events)))) by (rewrite <- Hsam; done).
  split_and!.
  - rewrite rows_of_events_app, insert_all_app, Hins. simpl. rewrite Z.add_0_l, <- Hlimit, Hb.
    change (staged_of sid a (set_stage a _ ?x)) with (staged_of sid a x). by rewrite staged_of_put.
  - rewrite <- combine_stage_app, Hcounts, Hn. by rewrite stage_events_fold.
  - simpl. rewrite Hsam, Hs, Hlimit. unfold issues_in. rewrite omap_app, take_app.
    rewrite py_len_app. do 2 f_equal. unfold py_len. rewrite length_take. do 2 f_equal. lia.
Qed.

(** Whatever was staged before, the summary counts the batch. *)
Lemma stage_tables_counts sid a batch t :
  wp (stage_tables json_sha256 limits sid a batch)
    (fun s t' => same_counts s (stage_events batch) /\ applied_part t' = applied_part t) (fun _ _ => True) t.
Proof.
  unfold stage_tables. do 5 wp_step. apply wp_zoom.
  eapply wp_mono; [apply copy_events_spec| |by intros]; cbv beta.
  unfold copy_at_once. intros s r Hcopy. apply bind_Some in Hcopy as ([b s'] & Hc & Hcopy).
  apply bind_Some in Hcopy as (r' & _ & Hcopy). injection Hcopy as -> ->.
  apply collect_rows in Hc as (_ & Hn & _). do 2 wp_step; [done|]. wp_step. do 2 wp_step.
  by rewrite stage_events_fold.
Qed.
End stage.

(** ** Duplicates *)

Section duplicates.
Context {A K : Type} `{EqDecision K}.
Variable partition : A -> K.
Variable record_index : A -> Z.
Implicit Types (rows : list A) (r : A).

Lemma superseded_spec rows r : superseded partition record_index rows r = true <->
  exists r', r' ∈ rows /\ partition r' = partition r /\ record_index r < record_index r'.
Proof.
  unfold superseded. rewrite existsb_exists. setoid_rewrite andb_true_iff.
  setoid_rewrite bool_decide_eq_true. setoid_rewrite Z.ltb_lt. by setoid_rewrite list_elem_of_In.
Qed.

Lemma elem_of_survivors rows r : r ∈ survivors partition record_index rows <->
  r ∈ rows /\ forall r', r' ∈ rows -> partition r' = partition r -> record_index r' <= record_index r.
Proof.
  unfold survivors. rewrite !list_elem_of_In, List.filter_In, negb_true_iff, <- not_true_iff_false, superseded_spec.
  setoid_rewrite list_elem_of_In. split.
  - intros [Hr Hn]. split; [done|]. intros r' Hr' Hp. destruct (Z.le_gt_cases (record_index r') (record_index r)); [done|].
    destruct Hn. by exists r'.
  - intros [Hr Hmax]. split; [done|]. intros (r' & Hr' & Hp & Hlt). specialize (Hmax r' Hr' Hp). lia.
Qed.

(** Of the rows with one key, the last one is kept. *)
Lemma survivors_last rows r : r ∈ rows ->
  exists r', r' ∈ survivors partition record_index rows /\ partition r' = partition r /\ record_index r <= record_index r'.
Proof.
  intros Hr. set (same := List.filter (fun r' => bool_decide (partition r' = partition r)) rows).
  assert (Hmax : forall l : list A, l <> [] -> exists m, m ∈ l /\ forall x, x ∈ l -> record_index x <= record_index m).
  { induction l as [|x l IH]; [done|]. intros _. destruct l as [|y l].
    - exists x. split; [set_solver|]. intros z ->%list_elem_of_singleton. lia.
    - destruct (IH ltac:(done)) as (m & Hm & Hle). destruct (Z.le_gt_cases (record_index x) (record_index m)).
      + exists m. split; [set_solver|]. intros z [->|Hz]%elem_of_cons; auto.
      + exists x. split; [set_solver|]. intros z [->|Hz]%elem_of_cons; [lia|]. specialize (Hle z Hz). lia. }
  assert (Hin : forall x, x ∈ same <-> x ∈ rows /\ partition x = partition r).
  { intros x. unfold same. by rewrite !list_elem_of_In, List.filter_In, bool_decide_eq_true. }
  assert (Hrs : r ∈ same) by (by apply Hin).
  destruct (Hmax same) as (m & Hm & Hle); [intros He; rewrite He in Hrs; set_solver|].
  exists m. rewrite elem_of_survivors. apply Hin in Hm as [Hm Hp]. split_and!; [done| |done|by apply Hle].
  intros r' Hr' Hp'. apply Hle, Hin. split; congruence.
Qed.

Lemma survivors_unique rows :
  NoDup (map record_index rows) -> NoDup (map partition (survivors partition record_index rows)).
Proof.
  intros Hnd. apply (NoDup_fmap_1 record_index) in Hnd as Hrows.
  assert (Hs : NoDup (survivors partition record_index rows)).
  { unfold survivors. rewrite NoDup_ListNoDup in *. by apply List.NoDup_filter. }
  apply NoDup_fmap_2_strong; [|done].
  intros x y Hx Hy Hp. apply elem_of_survivors in Hx as [Hx Hxm], Hy as [Hy Hym].
  assert (Heq : record_index x = record_index y).
  { specialize (Hxm y Hy (eq_sym Hp)). specialize (Hym x Hx Hp). lia. }
  apply list_elem_of_lookup in Hx as [i Hi], Hy as [j Hj].
  assert (i = j) as ->; [|congruence].
  eapply (NoDup_lookup _ _ _ (record_index x) Hnd); rewrite list_lookup_fmap; [by rewrite Hi|by rewrite Hj, Heq].
Qed.

Lemma survivors_count rows :
  py_len rows = py_len (survivors partition record_index rows) + py_len (duplicates partition record_index rows).
Proof.
  unfold survivors, duplicates, py_len. generalize (superseded partition record_index rows) as f. intros f.
  induction rows as [|x rows IH]; [done|]. simpl. destruct (f x); simpl; lia.
Qed.

Variable logical_key : A -> pystr.

(** The bytes charged for a duplicate are the charge of its issue. *)
Lemma duplicate_charge sid r :
  duplicate_bytes logical_key r = validation_issue_charge (duplicate_issue logical_key record_index sid r).
Proof. unfold duplicate_bytes, validation_issue_charge. simpl. unfold DUPLICATE_ISSUE_FIXED_BYTES. simpl. lia. Qed.
End duplicates.

(** ** Finalizing *)

(** The staged rows without the superseded ones of the document's kind. *)
Definition deduplicated (d : DocumentType) (r : Staged) : Staged :=
  if bool_decide (d = STORES)
  then tb_put stores_table (F := rows_of) (survivors store_identity ss_record_index (r_stores r)) r
  else if is_price d
  then tb_put prices_table (F := rows_of) (survivors price_identity sp_record_index (r_prices r)) r
  else if is_promotion d
  then kept_promotions (fun p => negb (superseded promotion_identity spm_record_index (r_promotions r) p)) r
  else r.

Definition with_issues (l : list ValidationIssue) (r : Staged) : Staged :=
  tb_put issues_table (F := rows_of) (r_issues r ++ l) r.

(** How many records of a document are staged. *)
Definition record_count (r : Staged) : Z :=
  py_len (r_stores r : list _) + py_len (r_prices r : list _) + py_len (r_promotions r : list _).

Section finalize.
Variable limits : IssueLimits.

Lemma issues_of_append a (l : list ValidationIssue) t :
  issues_of a (set_issues (fun old => old ++ map (pair a) l) (fun m => m) t) = issues_of a t ++ l.
Proof.
  unfold issues_of, set_issues. simpl. rewrite List.filter_app, map_app, (filter_all _ (map (pair a) l)).
  - by rewrite map_map, map_id.
  - intros x (i & -> & _)%list_elem_of_fmap. simpl. by rewrite bool_decide_eq_true_2.
Qed.

Section reject.
Context {A K : Type} `{EqDecision K}.
Variable partition : A -> K.
Variable logical_key : A -> pystr.
Variable record_index : A -> Z.
Variables (sid : uuid) (a : attempt).
Variable get : ApplyTables -> list A.
Variable keep : (A -> bool) -> ApplyTables -> ApplyTables.
Hypothesis get_issues : forall f g t, get (set_issues f g t) = get t.

(** The tables after the issues are recorded and counted: [sample] are the recorded ones. *)
Definition rejections_recorded (sample : list ValidationIssue) (count bytes evidence : Z) (t : ApplyTables)
    : ApplyTables :=
  set_stage a (combine_stage (attempt_stage a t)
    {| metadata_records := 0; store_records := 0; price_records := 0; promotion_records := 0;
       warnings := 0; rejected_records := count; file_quarantines := 0;
       validation_issue_bytes := bytes; sampled_validation_issues := evidence |})
    (set_issues (fun l => l ++ map (pair a) sample) (fun m => m) t).

Lemma reject_duplicates_spec t :
  wp (reject_duplicates limits partition logical_key record_index sid a get keep)
    (fun _ t' => exists sample bytes,
       let count := py_len (duplicates partition record_index (get t)) in
       py_len sample <= count /\
       within_limits limits (attempt_stage a
         (rejections_recorded sample count bytes (py_len sample) t)) /\
       t' = keep (fun r => negb (superseded partition record_index (get t) r))
              (rejections_recorded sample count bytes (py_len sample) t))
    (fun _ _ => True) t.
Proof.
  unfold reject_duplicates. do 6 wp_step; [done|]. do 2 wp_step; [done|]. reflect_bools.
  do 2 wp_step. set (count := py_len (duplicates partition record_index (get t))) in *.
  set (evidence := Z.min count _) in *. set (sample := take _ _).
  assert (Hlen : py_len sample = evidence).
  { subst sample. unfold py_len. rewrite length_take.
    rewrite (Permutation_length (merge_sort_Permutation _ _)). unfold count, py_len in *. lia. }
  do 3 wp_step. exists (map (duplicate_issue logical_key record_index sid) sample), (zsum (map (duplicate_bytes logical_key) (duplicates partition record_index (get t)))).
  assert (Hlen' : py_len (map (duplicate_issue logical_key record_index sid) sample) = evidence)
    by (unfold py_len in *; by rewrite length_map).
  rewrite Hlen'. split; [lia|]. split.
  { unfold within_limits, rejections_recorded. rewrite attempt_stage_set. simpl in *. lia. }
  assert (Hget : forall x y, get (set_stage x y (set_issues (fun l => l ++ map (fun r => (a, duplicate_issue logical_key record_index sid r)) sample)
    (fun m => m) t)) = get t) by (intros; unfold set_stage; by rewrite !get_issues).
  rewrite Hget. unfold rejections_recorded. by rewrite map_map.
Qed.
End reject.

(** What [finalize_staging] leaves: [r] was staged with the counters [s]. *)
Record finalized (d : DocumentType) (r : Staged) (s : StageSummary) (r' : Staged) (s' : StageSummary) : Prop := {
  fin_rows : exists sample, r' = with_issues sample (deduplicated d r) /\
    py_len sample <= record_count r - record_count r';
  fin_records : metadata_records s' = py_len (r_documents r' : list _) /\
    store_records s' = py_len (r_stores r' : list _) /\ price_records s' = py_len (r_prices r' : list _) /\
    promotion_records s' = py_len (r_promotions r' : list _);
  fin_issues : warnings s' = warnings s /\ file_quarantines s' = file_quarantines s /\
    rejected_records s' = rejected_records s + (record_count r - record_count r')
}.

Lemma write_stage_effect sid a s t :
  staged_of sid a (write_stage a s t) = staged_of sid a t /\ attempt_stage a (write_stage a s t) = s /\
  applied_part (write_stage a s t) = applied_part t.
Proof.
  split_and!; [done| |done]. unfold write_stage, attempt_stage. simpl. by rewrite lookup_insert_eq.
Qed.

Lemma record_count_with sample r : record_count (with_issues sample r) = record_count r.
Proof. done. Qed.

Lemma staged_of_set sid a r t : r_issues r = issues_of a t -> staged_of sid a (set_staged sid r t) = r.
Proof.
  intros Hi. destruct r. unfold staged_of. simpl in *. rewrite !staged_insert_eq.
  change (issues_of a (set_staged _ _ t)) with (issues_of a t). by rewrite <- Hi.
Qed.

(** From the rows without duplicates to the summary that is stored and returned. *)
Lemma summarized sid a d t sample count bytes t1 :
  staged_of sid a t1 = with_issues sample (deduplicated d (staged_of sid a t)) ->
  attempt_stage a t1 = attempt_stage a (rejections_recorded a sample count bytes (py_len sample) t) ->
  applied_part t1 = applied_part t ->
  py_len sample <= count ->
  count = record_count (staged_of sid a t) - record_count (deduplicated d (staged_of sid a t)) ->
  let s := staging_summary sid a t1 in
  let t2 := write_stage a s t1 in
  finalized d (staged_of sid a t) (attempt_stage a t) (staged_of sid a t2) s /\
  attempt_stage a t2 = s /\ applied_part t2 = applied_part t /\
  (within_limits limits (attempt_stage a t1) -> within_limits limits s).
Proof.
  intros Hrows Hstage Happ Hlen Hcount s t2. rewrite <- (record_count_with sample (deduplicated d _)), <- Hrows in Hcount.
  destruct (write_stage_effect sid a s t1) as (E1 & E2 & E3).
  subst t2. rewrite E1, E2, E3. split_and!; [|done..]. unfold rejections_recorded in Hstage.
  rewrite attempt_stage_set in Hstage. split.
  - exists sample. split; [done|]. by rewrite <- Hcount.
  - by split_and!.
  - unfold s, staging_summary, attempt_issue_summary. rewrite Hstage, <- Hcount. simpl. split_and!; lia.
Qed.

Lemma finalize_tables_spec sid a d t :
  wp (finalize_tables limits sid a d)
    (fun s t' => finalized d (staged_of sid a t) (attempt_stage a t) (staged_of sid a t') s /\
       attempt_stage a t' = s /\ applied_part t' = applied_part t /\
       (within_limits limits (attempt_stage a t) -> within_limits limits s))
    (fun _ _ => True) t.
Proof.
  assert (Hrec : forall sample n b, staged_of sid a (rejections_recorded a sample n b (py_len sample) t)
    = with_issues sample (staged_of sid a t)).
  { intros sample n b. unfold staged_of, rejections_recorded, with_issues. simpl. f_equal.
    apply (issues_of_append a sample t). }
  unfold finalize_tables. wp_step.
  destruct (bool_decide (d = STORES)) eqn:Hs; [|destruct (is_price d) eqn:Hp; [|destruct (is_promotion d) eqn:Hpm]].
  1-3: eapply wp_mono; [by apply reject_duplicates_spec| |by intros]; cbv beta zeta;
    intros _ t' (sample & bytes & Hlen & Hlim & ->); do 4 wp_step;
    match goal with Hr : forall _ _ _, staged_of ?s ?x _ = _ |- wp (mret (staging_summary _ _ ?t1)) _ _ _ =>
      match type of Hlen with _ <= ?n =>
        destruct (summarized s x d t sample n bytes t1) as (? & ? & ? & ?) end end;
    [| | | | |wp_step; by auto]; try done.
  1,3,5: unfold keep_stores, keep_prices, keep_promotions; rewrite staged_of_set by done; rewrite Hrec;
    unfold deduplicated; rewrite Hs, ?Hp, ?Hpm; reflexivity.
  1-3: unfold deduplicated; rewrite Hs, ?Hp, ?Hpm; unfold record_count; simpl.
  - pose proof (survivors_count store_identity ss_record_index (staged (staged_stores (at_catalog t)) sid)). lia.
  - pose proof (survivors_count price_identity sp_record_index (staged (staged_prices (at_catalog t)) sid)). lia.
  - pose proof (survivors_count promotion_identity spm_record_index (staged (staged_promotions (at_promotions t)) sid)) as Hn.
    unfold survivors in Hn. lia.
  - do 5 wp_step.
    destruct (summarized sid a d t [] 0 0 t) as (? & ? & ? & ?); [..|done|by rewrite py_len_nil| |by auto].
    + unfold deduplicated. rewrite Hs, Hp, Hpm. unfold with_issues, staged_of. simpl. by rewrite app_nil_r.
    + unfold rejections_recorded. rewrite attempt_stage_set. unfold combine_stage. simpl.
      rewrite !Z.add_0_r. by destruct (attempt_stage a t).
    + unfold deduplicated. rewrite Hs, Hp, Hpm. lia.
Qed.
End finalize.
