(* ===== verification/XmlStaging.v ===== *)
(** The rows of what [parse] yields: the keys of staged rows are the numbers of the records, so
    they are new, and every column accepts its value but for the integers no record bounds. *)
From S2P Require Import Prelude Errors Effects Enums PyNumbers Text Models AppModels SourceValues ZipDirectory Streams XmlTokens XmlRecords XmlRecordsFacts XmlDocument XmlDocumentFacts Temporal Catalog Promotions StagedRows StagingStore StagingStoreFacts.

(** ** Columns *)

Lemma storable_text s : storable s -> py_all text_char s = true.
Proof.
  intros Hs. apply forallb_forall. intros c Hc%list_elem_of_In. pose proof (proj1 (Forall_forall _ _) Hs c Hc) as Hu. simpl in Hu. clear Hs. rename Hu into Hs.
  unfold unstorable_char in Hs. unfold text_char. apply orb_false_iff in Hs as [? ->]. simpl. rewrite andb_true_r. lia.
Qed.
Lemma text_column_ok s : storable s -> text_column s = Some s.
Proof. intros Hs. unfold text_column. by rewrite storable_text. Qed.
Lemma varchar_ok n s : bounded n s -> varchar n s = Some s.
Proof. intros [Hs Hl]. unfold varchar. rewrite (proj2 (Z.leb_le _ _)) by done. by apply text_column_ok. Qed.

Lemma nullable_ok {A B} (column : A -> option B) (P : A -> Prop) o :
  (forall a, P a -> is_Some (column a)) -> opt_all P o -> is_Some (nullable column o).
Proof. intros Hc Ho. destruct o as [a|]; [|by eexists]. simpl. by apply fmap_is_Some, Hc. Qed.

Definition fits_int (z : Z) : Prop := - 2 ^ 31 <= z < 2 ^ 31.
Lemma int_column_fits z : is_Some (int_column 32 z) <-> fits_int z.
Proof.
  unfold int_column, fits_int. change (32 - 1) with 31. case_match eqn:E; [split; [|by eexists]; lia|].
  split; [by intros []|]. intros Hz. exfalso. apply andb_false_iff in E as [E|E]; lia.
Qed.
Lemma nullable_int o : is_Some (nullable (int_column 32) o) <-> opt_all fits_int o.
Proof. destruct o as [z|]; simpl; [|by split; [|eexists]]. by rewrite fmap_is_Some, int_column_fits. Qed.
Lemma big_column_ok z : 0 <= z < 2 ^ 63 -> int_column 64 z = Some z.
Proof. intros Hz. unfold int_column. change (64 - 1) with 63. by rewrite (proj2 (andb_true_iff _ _)) by lia. Qed.
Lemma small_column_ok z : 0 <= z < 2 ^ 31 -> int_column 32 z = Some z.
Proof. intros Hz. unfold int_column. change (32 - 1) with 31. by rewrite (proj2 (andb_true_iff _ _)) by lia. Qed.

(** Rounding to a scale keeps a decimal within a bound that has no more digits. *)
Lemma round_to_scale_bound scale m k neg coeff expo : 0 <= k + scale ->
  in_decimal_range (Finite false m k) (Finite neg coeff expo) ->
  0 <= round_to_scale scale neg coeff expo <= Z.of_N m * 10 ^ (k + scale).
Proof.
  intros Hk (_ & Hz & Hm). unfold round_to_scale.
  assert (Hmag : 0 <= (if 0 <=? expo + scale then Z.of_N coeff * 10 ^ (expo + scale)
      else (2 * Z.of_N coeff + 10 ^ (- (expo + scale))) / (2 * 10 ^ (- (expo + scale))))).
  { case_match; [apply Z.mul_nonneg_nonneg; [lia|apply Z.pow_nonneg; lia]|].
    apply Z.div_pos; [|pose proof (Z.pow_pos_nonneg 10 (- (expo + scale))); lia].
    pose proof (Z.pow_nonneg 10 (- (expo + scale))). lia. }
  assert (Hneg : neg = true -> coeff = 0%N).
  { intros ->. unfold dec_ltb, dec_zero, scaled in Hz. apply Z.ltb_ge in Hz.
    pose proof (Z.pow_pos_nonneg 10 (expo - Z.min expo 0)). nia. }
  destruct (decide (coeff = 0%N)) as [->|Hc].
  { assert (Hmz : (if 0 <=? expo + scale then Z.of_N 0 * 10 ^ (expo + scale)
      else (2 * Z.of_N 0 + 10 ^ (- (expo + scale))) / (2 * 10 ^ (- (expo + scale)))) = 0).
    { case_match eqn:E; [lia|]. apply Z.leb_gt in E.
      pose proof (Z.pow_pos_nonneg 10 (- (expo + scale)) ltac:(lia) ltac:(lia)). apply Z.div_small. lia. }
    rewrite Hmz. pose proof (Z.pow_nonneg 10 (k + scale)). destruct neg; nia. }
  destruct neg; [by rewrite (Hneg eq_refl) in Hc|]. clear Hneg. split; [done|].
  unfold dec_ltb, scaled in Hm. apply Z.ltb_ge in Hm. rewrite !Z.mul_1_l in Hm.
  case_match eqn:E; [apply Z.leb_le in E|apply Z.leb_gt in E].
  - apply (Z.mul_le_mono_nonneg_r _ _ (10 ^ (Z.min k expo + scale))) in Hm; [|apply Z.pow_nonneg; lia].
    rewrite <- !Z.mul_assoc, <- !Z.pow_add_r in Hm by lia.
    by replace (expo - Z.min k expo + (Z.min k expo + scale)) with (expo + scale) in Hm by lia;
      replace (k - Z.min k expo + (Z.min k expo + scale)) with (k + scale) in Hm by lia.
  - rewrite Z.min_r in Hm by lia. rewrite Z.sub_diag, Z.pow_0_r, Z.mul_1_r in Hm.
    pose proof (Z.pow_pos_nonneg 10 (- (expo + scale)) ltac:(lia) ltac:(lia)) as Hp.
    replace (k - expo) with (k + scale + - (expo + scale)) in Hm by lia. rewrite Z.pow_add_r in Hm by lia.
    apply Z.lt_succ_r, Z.div_lt_upper_bound; nia.
Qed.

Lemma numeric_column_ok precision scale m k d : 0 <= k + scale ->
  Z.of_N m * 10 ^ (k + scale) < 10 ^ precision -> in_decimal_range (Finite false m k) d ->
  exists z, numeric_column precision scale d = Some z /\ 0 <= z.
Proof.
  intros Hk Hp Hd. destruct d as [neg coeff expo| |]; [|by destruct Hd..]. simpl.
  pose proof (round_to_scale_bound scale m k neg coeff expo Hk Hd) as Hr.
  rewrite (proj2 (Z.ltb_lt _ _)) by lia. eexists. split; [done|lia].
Qed.

Lemma money_ok d : in_decimal_range MAXIMUM_STORED_MONEY d -> exists z, money_column d = Some z /\ 0 <= z.
Proof. by apply numeric_column_ok. Qed.
Lemma quantity_ok d : in_decimal_range MAXIMUM_PLAUSIBLE_QUANTITY d -> exists z, quantity_column d = Some z /\ 0 <= z.
Proof. by apply numeric_column_ok. Qed.
Lemma rate_ok d : in_decimal_range (dec_of_N 100) d -> is_Some (numeric_column 10 6 d).
Proof. intros Hd. destruct (numeric_column_ok 10 6 100 0 d ltac:(lia) ltac:(done) Hd) as (z & -> & _). by eexists. Qed.

Lemma nonnegative_ok column d : (exists z, column d = Some z /\ 0 <= z) -> is_Some (nonnegative_column column d).
Proof. intros (z & Hz & Hpos). unfold nonnegative_column. rewrite Hz. simpl. rewrite (proj2 (Z.leb_le _ _)) by done. by eexists. Qed.
Lemma is_Some_first {A} (o : option A) (P : A -> Prop) : (exists a, o = Some a /\ P a) -> is_Some o.
Proof. intros (a & -> & _). by eexists. Qed.

(** ** Rows *)

(** A column accepts its value. *)
Ltac accept lem :=
  match goal with |- is_Some (?o ≫= _) =>
    let x := fresh in assert (is_Some o) as [x ->] by (apply lem; done); cbn [mbind option_bind] end.
Lemma varchar_nullable n o : opt_all (bounded n) o -> is_Some (nullable (varchar n) o).
Proof. apply nullable_ok. intros s Hs. rewrite varchar_ok by done. by eexists. Qed.
Lemma text_nullable o : opt_all storable o -> is_Some (nullable text_column o).
Proof. apply nullable_ok. intros s Hs. rewrite text_column_ok by done. by eexists. Qed.
Lemma quantity_nullable o : opt_all (in_decimal_range MAXIMUM_PLAUSIBLE_QUANTITY) o ->
  is_Some (nullable (nonnegative_column quantity_column) o) /\ is_Some (nullable quantity_column o).
Proof.
  intros Ho. split; (eapply nullable_ok; [|exact Ho]); intros d Hd.
  - by apply nonnegative_ok, quantity_ok.
  - by eapply is_Some_first, quantity_ok.
Qed.
Lemma money_nullable o : opt_all (in_decimal_range MAXIMUM_STORED_MONEY) o ->
  is_Some (nullable (nonnegative_column money_column) o) /\ is_Some (nullable money_column o).
Proof.
  intros Ho. split; (eapply nullable_ok; [|exact Ho]); intros d Hd.
  - by apply nonnegative_ok, money_ok.
  - by eapply is_Some_first, money_ok.
Qed.
Lemma rate_nullable o : opt_all (in_decimal_range (dec_of_N 100)) o -> is_Some (nullable (numeric_column 10 6) o).
Proof. intros Ho. eapply nullable_ok; [|exact Ho]. apply rate_ok. Qed.

(** The columns of a row, one after the other. *)
Ltac columns := repeat first
  [ match goal with
    | |- is_Some (varchar _ _ ≫= _) => rewrite varchar_ok by done
    | |- is_Some (text_column _ ≫= _) => rewrite text_column_ok by done
    | |- is_Some (int_column 64 _ ≫= _) => rewrite big_column_ok by done
    | |- is_Some (int_column 32 _ ≫= _) => rewrite small_column_ok by done
    end; cbn [mbind option_bind]
  | accept varchar_nullable | accept text_nullable | accept quantity_nullable | accept money_nullable
  | accept rate_nullable | accept nullable_int
  | match goal with |- is_Some (Some _) => by eexists end ].

Lemma store_row_ok r : store_valid r -> 0 <= sr_record_index r < 2 ^ 63 -> is_Some (store_row r).
Proof. intros (?&?&?&?&?&?&?&?&?&?&?) ?. unfold store_row. columns. Qed.

(** [item_type], [item_status] and [reward_type] are the integers without a bound. *)
Lemma item_columns_ok r : price_valid r -> opt_all fits_int (pr_item_type r) -> is_Some (item_columns r).
Proof.
  intros (?&?&?&[Hcs Hcl]&?&?&?&?&?&?&?&?&?&?&?) Ht. unfold item_columns.
  assert (Hgtin : is_Some (nullable (varchar 14) (if is_valid_gtin (pr_item_code r) then Some (pr_item_code r) else None))).
  { destruct (is_valid_gtin (pr_item_code r)) eqn:E; [|by eexists]. simpl. rewrite varchar_ok; [by eexists|].
    split; [done|]. unfold is_valid_gtin in E. destruct (negb _) eqn:En; [done|]. apply negb_false_iff, andb_true_iff in En as [En _].
    apply bool_decide_eq_true in En. unfold py_len.
    repeat (apply elem_of_cons in En as [-> |En]; [lia|]). by apply elem_of_nil in En. }
  destruct Hgtin as [g ->]. cbn [mbind option_bind]. columns.
Qed.
Lemma price_row_ok r : price_valid r -> 0 <= pr_record_index r < 2 ^ 63 ->
  is_Some (price_row r) <-> opt_all fits_int (pr_item_type r) /\ opt_all fits_int (pr_item_status r).
Proof.
  intros Hr Hn. split.
  - intros [row Hrow]. unfold price_row in Hrow.
    repeat (apply bind_Some in Hrow as (? & ? & Hrow)). split; apply nullable_int.
    + match goal with H : item_columns r = Some _ |- _ => unfold item_columns in H; rename H into Hi end.
      apply bind_Some in Hi as (? & _ & Hi). apply bind_Some in Hi as (? & -> & _). by eexists.
    + match goal with H : nullable (int_column 32) (pr_item_status r) = _ |- _ => rewrite H end. by eexists.
  - intros [Ht Hs]. pose proof (item_columns_ok r Hr Ht) as [d Hd].
    destruct Hr as (?&?&?&?&?&?&?&?&?&?&?&?&?&?&?).
    pose proof (nonnegative_ok money_column (pr_item_price r) (money_ok _ ltac:(done))) as [price Hprice].
    unfold price_row. columns. rewrite Hd. cbn [mbind option_bind]. rewrite Hprice. cbn [mbind option_bind]. columns.
Qed.

Lemma promotion_value_ok e r fingerprint : promotion_valid e r -> bounded 64 fingerprint ->
  is_Some (promotion_value_columns fingerprint r) <-> opt_all fits_int (pm_reward_type r).
Proof.
  intros Hr Hf. split.
  - intros [v Hv]. unfold promotion_value_columns in Hv. apply bind_Some in Hv as (? & _ & Hv).
    apply bind_Some in Hv as (? & Ht & _). apply nullable_int. by rewrite Ht.
  - intros Ht. destruct Hr as (?&?&?&?&?&?&?&?&?&?&?&?&?&?&Hoffered&?&?).
    assert (opt_all fits_int (pm_minimum_items_offered r)).
    { destruct (pm_minimum_items_offered r); [|done]. simpl in *. unfold fits_int. lia. }
    unfold promotion_value_columns. columns.
Qed.

Lemma promotion_row_ok e r fingerprint : promotion_valid e r -> bounded 64 fingerprint ->
  0 <= pm_record_index r < 2 ^ 63 ->
  is_Some (promotion_row_of fingerprint r) <-> opt_all fits_int (pm_reward_type r).
Proof.
  intros Hr Hf Hn. pose proof (promotion_value_ok e r fingerprint Hr Hf) as Hv. rewrite <- Hv.
  destruct Hr as (?&?&Hscope&?&_). assert (bounded 128 (default [] (pm_source_store_id r))).
  { destruct (pm_source_store_id r); [done|]. split; [constructor|done]. }
  unfold promotion_row_of. split.
  - intros [row Hrow]. repeat (apply bind_Some in Hrow as (? & ? & Hrow)). by eexists.
  - intros [v Hval]. columns. rewrite Hval. by eexists.
Qed.

Lemma item_row_ok n index i : 0 <= n < 2 ^ 63 -> Z.of_nat index < 2 ^ 31 -> bounded 128 (pi_item_code i) ->
  is_Some (item_row n index i) <-> opt_all fits_int (pi_item_type i).
Proof.
  intros Hn Hi Hc. assert (0 <= Z.of_nat index < 2 ^ 31) by lia. unfold item_row. split.
  - intros [row Hrow]. repeat (apply bind_Some in Hrow as (? & ? & Hrow)). apply nullable_int.
    match goal with H : nullable _ _ = _ |- _ => rewrite H end. by eexists.
  - intros Ht. columns.
Qed.
Lemma promotion_store_row_ok n index s : 0 <= n < 2 ^ 63 -> Z.of_nat index < 2 ^ 31 -> bounded 128 s ->
  is_Some (promotion_store_row n index s).
Proof. intros. assert (0 <= Z.of_nat index < 2 ^ 31) by lia. unfold promotion_store_row. columns. Qed.
Lemma promotion_club_row_ok n index s : 0 <= n < 2 ^ 63 -> Z.of_nat index < 2 ^ 31 -> bounded 128 s ->
  is_Some (promotion_club_row n index s).
Proof. intros. assert (0 <= Z.of_nat index < 2 ^ 31) by lia. unfold promotion_club_row. columns. Qed.

Lemma issue_row_ok i : issue_valid i -> opt_all (fun n => 0 <= n < 2 ^ 63) (vi_record_index i) -> is_Some (issue_row i).
Proof.
  intros (Hc & Hne & Hl & ?&?&?) Hn. unfold issue_row. rewrite (varchar_ok 128 (vi_code i)) by done. cbn [mbind option_bind].
  assert (Ht : str_truthy (vi_code i) = true) by (by destruct (vi_code i)). rewrite Ht. cbn [mbind option_bind].
  assert (is_Some (nullable (int_column 64) (vi_record_index i))) as [x Hx].
  { eapply nullable_ok; [|exact Hn]. intros n Hn'. rewrite big_column_ok by done. by eexists. }
  columns. rewrite Hx. cbn [mbind option_bind]. columns.
Qed.

(** ** The rows of an event *)

(** The integers of an event that no [__post_init__] bounds fit their columns. *)
Definition integers_fit (ev : ParsedEvent) : Prop :=
  match ev with
  | EvPrice r => opt_all fits_int (pr_item_type r) /\ opt_all fits_int (pr_item_status r)
  | EvPromotion r => opt_all fits_int (pm_reward_type r) /\ Forall (fun i => opt_all fits_int (pi_item_type i)) (pm_items r)
  | _ => True
  end.

(** Every column of every row accepts its value. *)
Definition rows_accepted (b : Buffers) : Prop :=
  Forall is_Some (r_documents b : list _) /\ Forall is_Some (r_stores b : list _) /\
  Forall is_Some (r_prices b : list _) /\ Forall is_Some (r_promotions b : list _) /\
  Forall is_Some (r_items b : list _) /\ Forall is_Some (r_promotion_stores b : list _) /\
  Forall is_Some (r_clubs b : list _) /\ Forall is_Some (r_issues b : list _).

Lemma Forall_imap {A B} (f : nat -> A -> B) (P : B -> Prop) l :
  Forall P (imap f l) <-> forall i a, l !! i = Some a -> P (f i a).
Proof.
  rewrite Forall_lookup. setoid_rewrite list_lookup_imap. split.
  - intros HP i a Hi. apply (HP i). by rewrite Hi.
  - intros HP i b Hi. apply fmap_Some in Hi as (a & Hi & ->). by apply HP.
Qed.

(** The items of one promotion have codes of their own, so they can be sorted. *)
Lemma items_comparable_nodup items : NoDup (map pi_item_code items) -> items_comparable items = true.
Proof.
  intros Hnd. unfold items_comparable. apply forallb_forall. intros a Ha. apply forallb_forall. intros b Hb.
  case_bool_decide as Hab; [|done]. simpl. apply eqb_true_iff. do 2 f_equal.
  apply list_elem_of_In in Ha, Hb. apply list_elem_of_lookup in Ha as [i Hi]. apply list_elem_of_lookup in Hb as [j Hj].
  assert (i = j) as ->; [|by simplify_eq].
  apply (NoDup_lookup _ i j (pi_item_code a) Hnd); rewrite list_lookup_fmap; [by rewrite Hi|by rewrite Hj, Hab].
Qed.

Lemma effective_stores_valid e r : promotion_valid e r ->
  Forall (bounded 128) (effective_promotion_store_ids r) /\
  (length (effective_promotion_store_ids r) <= tree_size e)%nat.
Proof.
  intros (_&_&Hscope&_&_&_&([Hall _]&Hlen)&_). unfold effective_promotion_store_ids.
  set (scoped := match pm_source_store_id r with Some s => if str_truthy s then [s] else [] | None => [] end).
  assert (Hs : Forall (bounded 128) scoped /\ (length scoped <= 1)%nat).
  { subst scoped. destruct (pm_source_store_id r) as [s|]; [|by split; [constructor|simpl; lia]].
    destruct (str_truthy s); split; try (simpl; lia); by repeat constructor; try apply Hscope. }
  destruct Hs as [Hs Hs1]. split.
  - apply Forall_forall. intros s. rewrite elem_of_dict_fromkeys, elem_of_app. rewrite Forall_forall in Hall, Hs.
    naive_solver.
  - unfold dict_fromkeys. etrans; [apply length_dict_fromkeys_aux|]. rewrite length_app. lia.
Qed.

Lemma event_rows_accepted json_sha256 e sid n ev index sampled :
  (forall p, bounded 64 (json_sha256 p)) -> event_valid e sid n ev -> 0 <= n < 2 ^ 63 ->
  Z.of_nat (tree_size e) <= 2 ^ 31 ->
  exists b, event_rows json_sha256 index sampled ev = Some b /\ (rows_accepted b <-> integers_fit ev).
Proof.
  intros Hjson Hev Hn Hsize. unfold rows_accepted. destruct ev as [r|r|r|r|i]; simpl in Hev |- *; [done|..].
  - destruct Hev as (Hr & _ & Hi). eexists. split; [done|]. simpl. rewrite Forall_singleton. split; [done|].
    intros _. split_and!; try constructor. apply store_row_ok; [done|by rewrite Hi].
  - destruct Hev as (Hr & _ & Hi). eexists. split; [done|]. simpl. rewrite Forall_singleton.
    rewrite price_row_ok by (done || by rewrite Hi). split; [tauto|]. intros ?. split_and!; first [apply Forall_nil; exact I|tauto].
  - destruct Hev as (Hr & _ & Hi). unfold promotion_fingerprint.
    rewrite items_comparable_nodup by apply Hr. cbn [mbind option_bind]. eexists. split; [done|]. simpl.
    rewrite Forall_singleton, (promotion_row_ok e) by (done || by rewrite Hi). rewrite !Forall_imap.
    pose proof (effective_stores_valid e r Hr) as [Hstores Hslen].
    pose proof Hr as (_&_&_&_&_&(Hitems&_&Hilen)&_&([Hclubs _]&Hclen)&_). rewrite Hi.
    assert (Hit : (forall i a, pm_items r !! i = Some a -> is_Some (item_row n i a)) <->
                  Forall (fun i => opt_all fits_int (pi_item_type i)) (pm_items r)).
    { rewrite Forall_lookup. split; intros Hall k a Hk; pose proof (lookup_lt_Some _ _ _ Hk);
        apply (item_row_ok n k a Hn ltac:(lia) (Forall_lookup_1 _ _ _ _ Hitems Hk)); eauto. }
    rewrite Hit. split; [tauto|]. intros [Ht Hall]. split_and!; try (apply Forall_nil; exact I); try done.
    + intros k a Hk. pose proof (lookup_lt_Some _ _ _ Hk).
      apply promotion_store_row_ok; [done|lia|by apply (Forall_lookup_1 _ _ _ _ Hstores Hk)].
    + intros k a Hk. pose proof (lookup_lt_Some _ _ _ Hk).
      apply promotion_club_row_ok; [done|lia|by apply (Forall_lookup_1 _ _ _ _ Hclubs Hk)].
  - destruct Hev as (Hv & _ & Hi). eexists. split; [done|]. simpl. split; [done|]. intros _. split_and!; try constructor.
    destruct sampled; [|constructor]. constructor; [|constructor]. apply issue_row_ok; [done|by rewrite Hi].
Qed.

(** ** Keys *)

(** [keys] are those of the rows that are accepted. *)
Definition keyed {A} (key : A -> Z * Z) : list (option A) -> list (Z * Z) -> Prop :=
  Forall2 (fun o k => forall a, o = Some a -> key a = k).

Lemma keyed_map {A B} key (row : B -> option A) (number : B -> Z * Z) l :
  (forall b a, row b = Some a -> key a = number b) -> keyed key (map row l) (map number l).
Proof. intros Hrow. induction l as [|b l IH]; constructor; [apply Hrow|done]. Qed.
Lemma keyed_imap {A B} key (row : nat -> B -> option A) (number : nat -> B -> Z * Z) l :
  (forall i b a, row i b = Some a -> key a = number i b) -> keyed key (imap row l) (imap number l).
Proof.
  revert row number. induction l as [|b l IH]; intros row number Hrow; [constructor|].
  rewrite !imap_cons. constructor; [by apply Hrow|]. apply IH. intros i. apply (Hrow (S i)).
Qed.
Lemma keyed_flat_map {A B} key (rows : B -> list (option A)) (numbers : B -> list (Z * Z)) l :
  (forall b, keyed key (rows b) (numbers b)) -> keyed key (flat_map rows l) (flat_map numbers l).
Proof. intros Hrow. unfold keyed. induction l as [|b l IH]; simpl; [apply Forall2_nil_2|apply Forall2_app; [apply Hrow|done]]. Qed.

Lemma mapM_id_accepted {A} (l : list (option A)) : Forall is_Some l <-> is_Some (mapM id l).
Proof.
  induction l as [|o l IH]; simpl; [split; [by eexists|constructor]|].
  rewrite Forall_cons, IH. destruct o as [a|]; cbn; [|by split; [intros [[] _]|intros []]].
  destruct (mapM id l); cbn; split; try (by intros []); try (by intros [_ []]); intros _; by repeat eexists.
Qed.

Lemma insert_fresh {A} key (rows : list (option A)) keys : keyed key rows keys -> NoDup keys ->
  is_Some (insert_rows (new_keys key) rows []) <-> Forall is_Some rows.
Proof.
  intros Hkeys Hnd. rewrite mapM_id_accepted. unfold insert_rows.
  destruct (mapM id rows) as [new|] eqn:E; cbn [mbind option_bind]; [|by split; intros []].
  split; [by eexists|intros _]. assert (Hmap : map key new = keys).
  { revert new E. induction Hkeys as [|o k rows keys Ho Hkeys IH]; intros new E; cbn in E; [by injection E as <-|].
    apply NoDup_cons in Hnd as [_ Hnd]. destruct o as [a|]; cbn in E; [|done].
    apply bind_Some in E as (new' & E' & [= <-]). cbn. f_equal; [by apply Ho|by apply IH]. }
  replace (new_keys key new []) with true; [by eexists|]. symmetry. unfold new_keys.
  rewrite Hmap, bool_decide_eq_true_2 by done. apply forallb_forall. intros a _. apply negb_true_iff, bool_decide_eq_false_2, not_elem_of_nil.
Qed.

Lemma NoDup_children {B C} (number : B -> Z) (children : B -> list C) l : NoDup (map number l) ->
  NoDup (flat_map (fun b => imap (fun i _ => (number b, Z.of_nat i)) (children b)) l).
Proof.
  assert (Hin : forall b k, k ∈ imap (fun i (_ : C) => (number b, Z.of_nat i)) (children b) -> k.1 = number b).
  { intros b k Hk. apply elem_of_lookup_imap_1 in Hk as (i & x & -> & _). done. }
  induction l as [|b l IH]; intros Hnd; simpl in *; [constructor|]. apply NoDup_cons in Hnd as [Hb Hnd].
  apply NoDup_app. split_and!; [|..|by apply IH].
  - apply NoDup_alt. intros i j k Hi Hj. rewrite list_lookup_imap in Hi, Hj.
    apply fmap_Some in Hi as (? & _ & ->). apply fmap_Some in Hj as (? & _ & ?). simplify_eq. lia.
  - intros k Hk Hk'. apply Hin in Hk. apply list_elem_of_In, in_flat_map in Hk' as (b' & Hb' & Hk').
    apply list_elem_of_In, Hin in Hk'. apply Hb. rewrite <- Hk, Hk'. apply list_elem_of_fmap_2. by apply list_elem_of_In.
Qed.

(** ** The events of a document *)

(** The number of the record an event holds. *)
Definition record_number (ev : ParsedEvent) : option Z :=
  match ev with
  | EvStore r => Some (sr_record_index r)
  | EvPrice r => Some (pr_record_index r)
  | EvPromotion r => Some (pm_record_index r)
  | _ => None
  end.

Lemma numbers_of_kinds events :
  map sr_record_index (stores_in events) `sublist_of` omap record_number events /\
  map pr_record_index (prices_in events) `sublist_of` omap record_number events /\
  map pm_record_index (promotions_in events) `sublist_of` omap record_number events.
Proof.
  induction events as [|ev events (IHs & IHp & IHm)]; [done|].
  destruct ev; simpl; split_and!; try done; by constructor.
Qed.

(** An event whose rows are accepted but for its unbounded integers. *)
Definition event_ok (sid : uuid) (d : DocumentType) (ev : ParsedEvent) : Prop :=
  match ev with
  | EvMetadata m => metadata_valid sid d m
  | EvIssue i => vi_source_file_id i = sid /\ issue_valid i /\ opt_all (fun n => 0 <= n < 2 ^ 63) (vi_record_index i)
  | _ => exists e n, event_valid e sid n ev /\ 0 <= n < 2 ^ 63 /\ Z.of_nat (tree_size e) <= 2 ^ 31
  end.

Section rows.
Variable json_sha256 : FingerprintPayload -> pystr.
Hypothesis json_bounded : forall p, bounded 64 (json_sha256 p).
Variables (sid : uuid) (d : DocumentType) (limit : Z).

Lemma document_row_ok index m : 0 <= index < 2 ^ 31 -> metadata_valid sid d m -> is_Some (document_row index m).
Proof. intros Hi (_ & _ & ? & ? & ? & ? & _). unfold document_row. columns. Qed.

Lemma event_rows_ok ev index sampled : event_ok sid d ev ->
  (forall m, ev = EvMetadata m -> 0 <= index < 2 ^ 31) ->
  event_source ev = sid /\
  exists b, event_rows json_sha256 index sampled ev = Some b /\ (rows_accepted b <-> integers_fit ev).
Proof.
  intros Hev Hi. destruct ev as [m|r|r|r|i].
  - split; [apply Hev|]. eexists. split; [done|]. unfold rows_accepted. simpl. split; [done|]. intros _.
    split_and!; try constructor; [|constructor]. apply document_row_ok; [by eapply Hi|done].
  - destruct Hev as (e & n & Hev & Hn & Hsize). split; [apply Hev|]. by eapply event_rows_accepted.
  - destruct Hev as (e & n & Hev & Hn & Hsize). split; [apply Hev|]. by eapply event_rows_accepted.
  - destruct Hev as (e & n & Hev & Hn & Hsize). split; [apply Hev|]. by eapply event_rows_accepted.
  - destruct Hev as (Hs & Hv & Hn). split; [done|]. eexists. split; [done|]. unfold rows_accepted. simpl. split; [done|].
    intros _. split_and!; try constructor. destruct sampled; constructor; [|constructor]. by apply issue_row_ok.
Qed.

Lemma rows_accepted_app a b : rows_accepted (rows_app a b) <-> rows_accepted a /\ rows_accepted b.
Proof. unfold rows_accepted, rows_app. simpl. rewrite !Forall_app. tauto. Qed.

Lemma collect_ok events counts b : Forall (event_ok sid d) events ->
  0 <= metadata_records counts -> metadata_records counts + py_len (documents_in events) <= 2 ^ 31 ->
  exists b' s, collect json_sha256 sid 0 limit (b, counts) events = Some (b', s) /\
    (rows_accepted b' <-> rows_accepted b /\ Forall integers_fit events).
Proof.
  intros Hall. revert counts b. induction Hall as [|ev events Hev Hall IH]; intros counts b H0 Hmax.
  { exists b, counts. split; [done|]. rewrite Forall_nil. tauto. }
  simpl. unfold next_rows. set (sampled := match ev with EvIssue _ => _ | _ => false end).
  destruct (event_rows_ok ev (0 + metadata_records counts) sampled Hev) as (Hsid & rows & Hrows & Hfit).
  { intros m ->. simpl in Hmax. rewrite py_len_cons in Hmax. pose proof (py_len_nonneg (documents_in events)). lia. }
  rewrite Hsid, Z.eqb_refl, Hrows. cbn [mbind option_bind].
  set (counts' := if sampled then _ else _).
  assert (Hcounts : metadata_records counts' = metadata_records counts + match ev with EvMetadata _ => 1 | _ => 0 end).
  { rewrite <- count_event_metadata. unfold counts'. by destruct sampled. }
  destruct (IH counts' (rows_app b rows)) as (b' & s & Hc & Hacc).
  - rewrite Hcounts. destruct ev; lia.
  - rewrite Hcounts. destruct ev; simpl in Hmax; rewrite ?py_len_cons in Hmax; lia.
  - exists b', s. split; [done|]. rewrite Hacc, rows_accepted_app, Hfit, Forall_cons. tauto.
Qed.

Lemma rows_of_events_accepted events : Forall (event_ok sid d) events -> py_len (documents_in events) <= 2 ^ 31 ->
  rows_accepted (rows_of_events json_sha256 0 limit events) <-> Forall integers_fit events.
Proof.
  intros Hall Hmax. destruct (collect_ok events empty_stage no_rows Hall) as (b & s & Hc & Hacc); [done|done|].
  apply collect_rows in Hc as (-> & _). simpl in Hacc. rewrite Z.sub_0_r in Hacc. rewrite Hacc.
  split; [tauto|]. intros Hfit. split; [|done]. unfold rows_accepted, no_rows. simpl. by split_and!.
Qed.
End rows.

(** ** Inserting the rows *)

Lemma int_column_some bits z n : int_column bits z = Some n -> n = z.
Proof. unfold int_column. case_match; congruence. Qed.

Lemma row_keys json_sha256 limit events :
  keyed (fun s => (ss_record_index s, 0)) (r_stores (rows_of_events json_sha256 0 limit events) : list _)
    (map (fun r => (sr_record_index r, 0)) (stores_in events)) /\
  keyed (fun p => (sp_record_index p, 0)) (r_prices (rows_of_events json_sha256 0 limit events) : list _)
    (map (fun r => (pr_record_index r, 0)) (prices_in events)) /\
  keyed (fun p => (spm_record_index p, 0)) (r_promotions (rows_of_events json_sha256 0 limit events) : list _)
    (map (fun r => (pm_record_index r, 0)) (promotions_in events)).
Proof.
  split_and!; apply keyed_map; intros r row Hrow;
    [unfold store_row in Hrow|unfold price_row in Hrow
    |unfold promotion_staged, promotion_row_of in Hrow; apply bind_Some in Hrow as (? & _ & Hrow)];
    apply bind_Some in Hrow as (n & ->%int_column_some & Hrow);
    repeat (apply bind_Some in Hrow as (? & _ & Hrow)); by injection Hrow as <-.
Qed.

Lemma child_keys json_sha256 limit events :
  keyed (fun i => (spi_record_index i, spi_item_index i)) (r_items (rows_of_events json_sha256 0 limit events) : list _)
    (flat_map (fun r => imap (fun i _ => (pm_record_index r, Z.of_nat i)) (pm_items r)) (promotions_in events)) /\
  keyed (fun s => (sps_record_index s, sps_store_index s))
    (r_promotion_stores (rows_of_events json_sha256 0 limit events) : list _)
    (flat_map (fun r => imap (fun i _ => (pm_record_index r, Z.of_nat i)) (effective_promotion_store_ids r)) (promotions_in events)) /\
  keyed (fun c => (spc_record_index c, spc_club_index c)) (r_clubs (rows_of_events json_sha256 0 limit events) : list _)
    (flat_map (fun r => imap (fun i _ => (pm_record_index r, Z.of_nat i)) (pm_club_ids r)) (promotions_in events)).
Proof.
  split_and!; apply keyed_flat_map; intros r; apply keyed_imap; intros i c row Hrow;
    [unfold item_row in Hrow|unfold promotion_store_row in Hrow|unfold promotion_club_row in Hrow];
    apply bind_Some in Hrow as (n & ->%int_column_some & Hrow); apply bind_Some in Hrow as (k & ->%int_column_some & Hrow);
    repeat (apply bind_Some in Hrow as (? & _ & Hrow)); by injection Hrow as <-.
Qed.

Lemma NoDup_numbers {A} (number : A -> Z) l : NoDup (map number l) -> NoDup (map (fun r => (number r, 0)) l).
Proof.
  intros Hl. replace (map (fun r => (number r, 0)) l) with (map (fun k => (k, 0)) (map number l)) by (by rewrite map_map).
  apply NoDup_fmap_2; [|done]. by intros ? ? [=].
Qed.

(** The rows of records with numbers of their own are inserted when they are accepted. *)
Lemma insert_accepted json_sha256 limit events : NoDup (omap record_number events) ->
  (length (documents_in events) <= 1)%nat ->
  is_Some (insert_all (rows_of_events json_sha256 0 limit events) no_staged) <->
  rows_accepted (rows_of_events json_sha256 0 limit events).
Proof.
  intros Hnd Hdocs. destruct (numbers_of_kinds events) as (Hs & Hp & Hm).
  apply sublist_NoDup in Hs, Hp, Hm; [|done..].
  destruct (row_keys json_sha256 limit events) as (Ks & Kp & Km).
  destruct (child_keys json_sha256 limit events) as (Ki & Kps & Kc).
  set (b := rows_of_events json_sha256 0 limit events) in *.
  assert (Kd : exists keys, keyed (fun m => (sdoc_metadata_index m, 0)) (r_documents b : list _) keys /\ NoDup keys).
  { subst b. cbn [r_documents rows_of_events]. destruct (documents_in events) as [|m [|? ?]]; simpl in *; [| |lia].
    - exists []. split; constructor.
    - exists [(0, 0)]. split; [|apply NoDup_singleton]. constructor; [|constructor].
      intros a Ha. unfold document_row in Ha. apply bind_Some in Ha as (? & ->%int_column_some & Ha).
      repeat (apply bind_Some in Ha as (? & _ & Ha)). by injection Ha as <-. }
  destruct Kd as (kd & Kd & Hd).
  pose proof (insert_fresh _ _ _ Kd Hd) as Id. pose proof (insert_fresh _ _ _ Ks (NoDup_numbers _ _ Hs)) as Is.
  pose proof (insert_fresh _ _ _ Kp (NoDup_numbers _ _ Hp)) as Ip. pose proof (insert_fresh _ _ _ Km (NoDup_numbers _ _ Hm)) as Im.
  pose proof (insert_fresh _ _ _ Ki (NoDup_children _ _ _ Hm)) as Ii.
  pose proof (insert_fresh _ _ _ Kps (NoDup_children _ _ _ Hm)) as Ips.
  pose proof (insert_fresh _ _ _ Kc (NoDup_children _ _ _ Hm)) as Ic.
  assert (Iv : is_Some (insert_rows (tb_admits issues_table) (r_issues b) []) <-> Forall is_Some (r_issues b : list _)).
  { rewrite mapM_id_accepted. unfold insert_rows. destruct (mapM id (r_issues b)); simpl; [|done]. split; eauto. }
  unfold rows_accepted. rewrite <- Id, <- Is, <- Ip, <- Im, <- Ii, <- Ips, <- Ic, <- Iv. split.
  - intros [r' Hr']. apply insert_all_some in Hr' as (?&?&?&?&?&?&?&?). split_and!; by eexists.
  - intros ([x1 E1] & [x2 E2] & [x3 E3] & [x4 E4] & [x5 E5] & [x6 E6] & [x7 E7] & [x8 E8]).
    exists {| r_documents := x1; r_stores := x2; r_prices := x3; r_promotions := x4; r_items := x5;
              r_promotion_stores := x6; r_clubs := x7; r_issues := x8 |}. by apply insert_all_some.
Qed.

(** ** The rows of a document *)

Section document.
Variable limits : XmlParserLimits.
Variable rejection_message : Z -> pystr.
Hypothesis messages_storable : forall n, storable (rejection_message n).
Hypothesis records_bounded : maximum_records limits < 2 ^ 63.
Hypothesis elements_bounded : maximum_elements limits <= 2 ^ 31.
Context `{UnicodeOk} `{Calendar}.

(** What the events of a record are, with its number. *)
Lemma one_record_events sid d n l : 0 <= n < 2 ^ 63 -> one_record limits rejection_message sid n l ->
  Forall (event_ok sid d) l /\ documents_in l = [] /\
  (omap record_number l = [n] \/ omap record_number l = []).
Proof.
  intros Hn [(e & Hsize & Hall & record & Hrecord & Hl)| ->].
  - assert (Hok : Forall (event_ok sid d) l).
    { eapply Forall_impl; [exact Hall|]. intros ev Hev. pose proof Hev as Hev'. destruct ev; simpl in Hev |- *; [done|..].
      1-3: exists e, n; split; [exact Hev'|lia].
      destruct Hev as (Hv & Hs & Hi). split_and!; [done|done|]. rewrite Hi. done. }
    assert (Hin : event_valid e sid n record).
    { destruct Hl as [-> |(i & -> & _)]; by inversion Hall. }
    split; [done|]. destruct record; try done; simpl in Hin; destruct Hin as (_ & _ & Hin);
      destruct Hl as [-> |(i & -> & _)]; simpl; rewrite Hin; auto.
  - split_and!; [|done|by right]. constructor; [|constructor]. simpl. split_and!; [done|by apply rejection_valid|lia|lia].
Qed.

Lemma numbered_events sid d n out : n < 2 ^ 63 -> numbered limits rejection_message sid n out ->
  0 <= n /\ Forall (event_ok sid d) out /\ documents_in out = [] /\ NoDup (omap record_number out) /\
  Forall (fun k => k <= n) (omap record_number out).
Proof.
  intros Hn Hnum. induction Hnum as [|n out l Hnum IH Hone]; [split_and!; try done; constructor|].
  destruct (IH ltac:(lia)) as (Hpos & Hok & Hdocs & Hnd & Hle).
  destruct (one_record_events sid d (n + 1) l ltac:(lia) Hone) as (Hokl & Hdocsl & Hl).
  assert (Hle' : Forall (fun k => k <= n + 1) (omap record_number out)) by (eapply Forall_impl; [exact Hle|]; simpl; lia).
  unfold documents_in in *. rewrite !omap_app, Hdocs, Hdocsl. split_and!; [lia|by apply Forall_app|done|..].
  - apply NoDup_app. split_and!; [done|..]; destruct Hl as [-> | ->]; try by constructor.
    + intros k Hk ->%list_elem_of_singleton. rewrite Forall_forall in Hle. specialize (Hle _ Hk). lia.
    + intros k _. apply not_elem_of_nil.
    + apply NoDup_singleton.
  - apply Forall_app. split; [done|]. destruct Hl as [-> | ->]; constructor; [lia|constructor].
Qed.

Lemma document_yield_events sid d complete out : document_yield limits rejection_message sid d complete out ->
  Forall (event_ok sid d) out /\ (length (documents_in out) <= 1)%nat /\ NoDup (omap record_number out).
Proof.
  intros (n & records & warning & metadata & -> & Hn & Hnum & Hw & Hm).
  destruct (numbered_events sid d n records ltac:(lia) Hnum) as (_ & Hok & Hdocs & Hnd & _).
  assert (Hwok : Forall (event_ok sid d) warning /\ documents_in warning = [] /\ omap record_number warning = []).
  { destruct Hw as [-> |(i & -> & Hv & Hs & Hi & _)]; split_and!; try done; constructor; [|constructor].
    simpl. by rewrite Hi. }
  assert (Hmok : Forall (event_ok sid d) metadata /\ (length (documents_in metadata) <= 1)%nat /\ omap record_number metadata = []).
  { destruct complete; [destruct Hm as (m & -> & Hm)|subst metadata]; (split; [|split; [simpl; lia|done]]); [by apply Forall_singleton|by constructor]. }
  destruct Hwok as (? & Hdw & Hnw), Hmok as (? & ? & Hnm). unfold documents_in in *.
  rewrite !omap_app, Hdocs, Hdw, Hnw, Hnm, !app_nil_r. rewrite !Forall_app. by split_and!.
Qed.

(** The rows of a document are inserted exactly when the integers nothing bounds fit. *)
Lemma document_rows_inserted json_sha256 sid d complete limit out : (forall p, bounded 64 (json_sha256 p)) ->
  document_yield limits rejection_message sid d complete out ->
  is_Some (insert_all (rows_of_events json_sha256 0 limit out) no_staged) <-> Forall integers_fit out.
Proof.
  intros Hjson Hout. destruct (document_yield_events sid d complete out Hout) as (Hok & Hdocs & Hnd).
  rewrite insert_accepted by done. apply (rows_of_events_accepted json_sha256 Hjson sid d); [done|]. unfold py_len. lia.
Qed.
End document.
