(* ===== verification/XmlSpec.v ===== *)
(** The properties of reading a document, from its decompressed bytes to the rows of its
    events, and the runs that witness them. *)
From S2P Require Import Prelude Errors Effects Enums PyNumbers Text Models AppModels Ports SourceValues ZipDirectory Streams StreamsFacts XmlTokens XmlTokensFacts XmlRecords XmlRecordsFacts XmlDocument XmlDocumentFacts XmlScopes Temporal Catalog Promotions StagedRows StagingStore StagingStoreFacts XmlStaging.

(** ** Tokens *)

(** The token guard reads a document the same way however it is cut into chunks, as long as
    no cut falls inside a terminator: the same exception, or the same state at the end of the
    text, and so the same answer at its close.  A cut inside a terminator matters: the guard
    accepts a comment that arrives in one chunk and rejects the same comment cut before its last
    character. *)
Theorem guard_reads_chunks F T chunks : 0 <= F -> 1 <= T -> unsplit chunks ->
  same_run (guard_document F T chunks new_guard) (guard_document F T [concat chunks] new_guard) /\
  (guard_document 100 100 [py "<!-- note -->"] new_guard).1 = Returned tt /\
  (guard_document 100 100 [py "<!-- note --"; py ">"] new_guard).1 = Raised malformed.
Proof.
  intros HF HT Hun. split; [|by split; vm_compute].
  assert (Hone : same_run (guard_chunks F T chunks new_guard) (guard_chunks F T [concat chunks] new_guard)).
  { rewrite (guard_chunks_concat F T HF HT [] new_guard chunks) by (done || by apply token_inv_new).
    cbn [guard_chunks]. unfold mbind, M_bind. destruct (guard_feed F T (concat chunks) new_guard) as [[[]|e] g]; done. }
  unfold guard_document. by apply same_run_bind.
Qed.

(** What the guard lets through it has bounded.  After any chunks it has let through, the
    text ends in a token that is not finished: in text, it holds no tag and is within the field
    limit; in markup, it starts with a less-than sign and is within the token limit, and so is
    an open attribute value with the field limit.  It raises nothing but MalformedDocumentError,
    so its loop always ends. *)
Theorem guard_bounds_tokens F T chunks : 0 <= F -> 1 <= T ->
  match guard_chunks F T chunks new_guard with
  | (Raised e, _) => e = malformed
  | (Returned _, g) => exists finished token, concat chunks = finished ++ token /\
      (mode g = TOKEN_TEXT -> (60 ∉ token) /\ py_len token <= F) /\
      (mode g <> TOKEN_TEXT -> head token = Some 60 /\ py_len token <= T /\
         forall q, quote g = Some q -> exists value, value `suffix_of` token /\ (q ∉ value) /\ py_len value <= F)
  end.
Proof.
  intros HF HT. pose proof (guard_chunks_spec F T HF HT [] new_guard chunks (token_inv_new F T HF)) as Hwp.
  unfold wp in Hwp. destruct (guard_chunks F T chunks new_guard) as [[[]|e] g]; [|done].
  destruct Hwp as (finished & token & Hs & _ & Hinv). exists finished, token. split; [done|].
  case_bool_decide as Hm.
  - destruct Hinv as (_ & Hno & _ & Hlen & Hmax). split; [intros _|done]. rewrite Hlen in Hmax. split; [|done].
    intros Hin. rewrite Forall_forall in Hno. by apply (Hno 60).
  - destruct Hinv as (Hhd & Hlen & Hmax & Hquote & _). split; [done|]. intros _. rewrite Hlen in Hmax. split_and!; [done|done|].
    intros q Hq. destruct (Hquote q Hq) as (value & Hsuf & Hno & Hv & Hle). exists value. split_and!; [done| |lia].
    intros Hin. rewrite Forall_forall in Hno. by apply (Hno q).
Qed.

(** ** Spooling *)

(** C30: a document that is spooled is the decompressed stream, whole and unchanged, and no 33
    consecutive bytes of it hold the beginning of a document type or entity declaration, in any
    case and with any null bytes between the characters, wherever the chunks are cut.  (In UTF-8
    the markers take at most 9 bytes, in UTF-16 at most 18.) *)
Theorem spooled_without_markers `{Codecs} limits spool_available outputs stop data c w :
  spool_document limits spool_available outputs stop new_spooling = (Returned (data, c), w) ->
  data = concat outputs /\ stop = Returned tt /\
  forall a window b, data = a ++ window ++ b -> (length window <= 33)%nat ->
    forall marker, marker ∈ SECURITY_MARKERS ->
    ~ exists p q, ascii_upper (without_nulls window) = p ++ marker ++ q.
Proof.
  intros Hrun. destruct (wp_returned _ _ _ _ _ _ (spool_document_inv limits spool_available outputs stop) Hrun) as (Hd & Hs & Hno).
  cbn [fst] in Hd. subst data. split_and!; [done|done|]. intros a window b Ha Hlen marker Hm Hin.
  apply contains_spec in Hin. specialize (Hno a window b Ha Hlen). unfold has_marker, py_any in Hno.
  assert (E : existsb (fun marker => contains marker (ascii_upper (without_nulls window))) SECURITY_MARKERS = true).
  { apply existsb_exists. exists marker. split; [by apply list_elem_of_In|done]. }
  congruence.
Qed.

(** ** Local times *)

(** A local time is read as the one instant that shows it.  When the zone says of every
    instant the offset it has under one of the folds, the answer is an instant that shows the
    wall clock and the only one; the time is refused exactly when no instant or several show it;
    and the only other exception is for a time so close to the limits of the calendar that its
    instant leaves them. *)
Theorem local_time_exact `{Calendar} wall : folds_cover ->
  match unambiguous_israel_local_time wall tt with
  | (Returned i, _) => shows i wall /\ forall j, shows j wall -> j = i
  | (Raised e, _) =>
      (e = validation_error /\ ((forall j, ~ shows j wall) \/ exists i j, i <> j /\ shows i wall /\ shows j wall)) \/
      (e = PyExn OtherException /\ exists i fold, (fold = 0 \/ fold = 1) /\ i = wall - utcoffset wall fold /\
         (~ in_range i \/ ~ in_range (i + offset_at i)))
  end.
Proof.
  intros Hcover. pose proof (local_time_spec wall tt Hcover) as Hwp. unfold wp in Hwp.
  by destruct (unambiguous_israel_local_time wall tt) as [[i|e] ?].
Qed.

(** ** Documents *)

Section document.
Context `{UnicodeOk} `{Calendar} `{Codecs} `{Expat}.
Variable limits : XmlParserLimits.
Variable encoded_record_size : Z -> codec -> option Z.
Variable rejection_message : Z -> pystr.

(** C29: the context a record is read in is lexical.  When the events of a tree are handled
    without an exception, the records, their numbers and their events are those of a walk that
    hands every element's context to its children and forgets it at its end, so that a name set
    inside a SubChain never reaches the next one, and the context of the document is that of
    its root. *)
Theorem lexical_scoping record_tag c sid d expected e s out :
  (record_container d : M unit pystr) tt = (Returned expected, tt) ->
  drain limits encoded_record_size rejection_message record_tag c sid d (traversal 0 e) (new_parse_state, [])
    = (Returned tt, (s, out)) ->
  scoped limits rejection_message record_tag sid d [] e ∅ 0 tt = (Returned (context s, records s, out), tt).
Proof.
  intros Hexp Hrun.
  assert (E : record_container d (new_parse_state, @nil ParsedEvent) = (Returned expected, (new_parse_state, []))).
  { revert Hexp. unfold record_container. repeat case_match; intros Hexp; try done; by injection Hexp as <-. }
  unfold drain, mbind, M_bind in Hrun. rewrite E in Hrun.
  apply (walked_document limits encoded_record_size rejection_message record_tag expected c sid d); [|done].
  revert Hexp. unfold record_container. repeat case_match; intros [= <-]; apply (bool_decide_unpack _); vm_compute; exact I.
Qed.

Hypothesis messages_storable : forall n, storable (rejection_message n).

(** C28: whatever the chunks, the codecs and Expat answer, parsing yields records and nothing
    between them: the records are numbered 1, 2, 3 and so on, each is one valid record of the
    file with at most one warning, or its rejection, and at most the configured number of them;
    then at most one warning of the document; and last, exactly when the parse ends without an
    exception, its metadata. *)
Theorem parse_yields `{Decompressor G, Decompressor Zs, ZipLibrary} spool_available fuel (new_gzip : G) (new_zstandard : Zs)
    chunks sid d kind events error :
  xml_parse limits encoded_record_size rejection_message spool_available fuel new_gzip new_zstandard chunks sid d kind
    = (events, error) ->
  exists n records warning metadata, events = records ++ warning ++ metadata /\
    0 <= n <= Z.max 0 (maximum_records limits) /\ numbered limits rejection_message sid n records /\
    (warning = [] \/ exists i, warning = [EvIssue i] /\ issue_valid i /\ vi_source_file_id i = sid /\
                               vi_record_index i = None /\ vi_severity i = WARNING) /\
    match error with
    | None => exists m, metadata = [EvMetadata m] /\ metadata_valid sid d m
    | Some _ => metadata = []
    end.
Proof.
  intros Hrun. apply xml_parse_yields in Hrun as (n & records & warning & metadata & ? & ? & ? & ? & Hm).
  exists n, records, warning, metadata. split_and!; try done; try lia. by destruct error.
Qed.

(** C27: the rows of what parsing yields are well typed.  Every column of every staging table
    accepts the value it is given, and every primary key is new, exactly when the integers that
    no record bounds, the item types, item statuses and reward types, fit 32 bits; nothing else
    a file may hold makes staging fail.  (Message texts are taken to be storable, and the digests
    of fingerprints to have their 64 characters.) *)
Theorem parsed_rows_typed `{Decompressor G, Decompressor Zs, ZipLibrary} spool_available fuel (new_gzip : G) (new_zstandard : Zs)
    chunks sid d kind events error json_sha256 evidence_limit :
  maximum_records limits < 2 ^ 63 -> maximum_elements limits <= 2 ^ 31 ->
  (forall payload, bounded 64 (json_sha256 payload)) ->
  xml_parse limits encoded_record_size rejection_message spool_available fuel new_gzip new_zstandard chunks sid d kind
    = (events, error) ->
  is_Some (insert_all (rows_of_events json_sha256 0 evidence_limit events) no_staged) <-> Forall integers_fit events.
Proof.
  intros Hrecords Helements Hjson Hrun. apply xml_parse_yields in Hrun.
  by eapply (document_rows_inserted limits rejection_message messages_storable Hrecords Helements).
Qed.
End document.

(** ** Concrete runs *)

(** A library of characters in normal form, a zone with one hour that is shown twice, codecs
    that take bytes for characters, and Expat with its answers for one document. *)
#[export] Instance plain_unicode : Unicode := {|
  nfkc s := s; category c := if unstorable_char c then py "Cc" else py "Lo";
  casefold := ascii_lower; decimal_digit c := if is_digit c then Some (c - 48) else None |}.
#[export] Instance plain_unicode_ok : UnicodeOk.
Proof. split. intros c Hc. unfold is_other. cbn [category plain_unicode]. by rewrite Hc. Qed.

#[export] Instance winter_zone : Calendar := {|
  strptime _ _ := None;
  utcoffset wall fold := if wall <? 1002 then 3 else if wall <? 1003 then (if fold =? 0 then 3 else 2) else 2;
  offset_at instant := if instant <? 1000 then 3 else 2 |}.

Lemma winter_folds : folds_cover.
Proof.
  intros i. cbn [utcoffset offset_at winter_zone]. destruct (Z.ltb_spec i 1000).
  - exists 0. split; [by left|]. destruct (Z.ltb_spec (i + 3) 1002); [done|]. destruct (Z.ltb_spec (i + 3) 1003); [done|lia].
  - exists 1. split; [by right|]. destruct (Z.ltb_spec (i + 2) 1002); [lia|]. by destruct (Z.ltb_spec (i + 2) 1003).
Qed.

#[export] Instance byte_codecs : Codecs := {| decoder := unit; new_decoder _ := tt; decode _ b _ := Some (b, tt) |}.

Definition leaf (tag text : string) : element := Element (py tag) [] (Some (py text)) [].
Definition sample_item (price status : string) : element :=
  Element (py "Item") [] None [leaf "ItemCode" "7290000000008"; leaf "ItemName" "Milk"; leaf "ItemPrice" price; leaf "ItemStatus" status].
(** Two records of one store: a price, and one whose price is not a number. *)
Definition sample_document (status : string) : element :=
  Element (py "Root") [] None
    [leaf "ChainId" "7290027600007"; leaf "SubChainId" "1"; leaf "StoreId" "12";
     Element (py "Items") [] None [sample_item "5.90" status; sample_item "five" "0"]].

Fixpoint sax_of (e : element) : list sax_event :=
  let 'Element tag attrib text children := e in
  SaxStart tag attrib :: match text with Some t => [SaxData t] | None => [] end ++ concat (map sax_of children) ++ [SaxEnd tag].
Definition canned_expat (e : element) : Expat := {|
  expat := bool; new_expat := false;
  expat_feed fed _ := (if fed : bool then [] else sax_of e, Some true); expat_close _ := ([], true) |}.

Definition sample_xml : bytes := py "<Root><ChainId>7290027600007</ChainId><!-- prices --></Root>".
Definition sample_xml_limits : XmlParserLimits := {|
  compression := {| maximum_compressed_bytes := 1000; maximum_decompressed_bytes := 1000; maximum_expansion_ratio := 10;
    maximum_zip_entries := 4; maximum_zip_directory_bytes := 100; maximum_chunk_bytes := 25;
    spool_memory_bytes := 500; maximum_zstandard_window_log := 27 |};
  maximum_depth := 10; maximum_elements := 100; maximum_records := 10; maximum_record_bytes := 1000;
  maximum_field_characters := 100; maximum_token_characters := 100; xml_minimum_free_bytes := 0 |}.
Definition sample_source : chunk_source := {| items := [take 30 sample_xml; drop 30 sample_xml]; failure := None |}.
Definition sample_message (n : Z) : pystr := py "Invalid decimal value".
Definition sample_json (p : FingerprintPayload) : pystr := repeat 97 64.

Abbreviation sample_parse status := (xml_parse (H2 := canned_expat (sample_document status)) sample_xml_limits (fun _ _ => None)
  sample_message (fun _ _ => true) 100 fresh_codec fresh_codec sample_source 1 PRICE_DELTA COMP_NONE).

Example sample_parse_yields : (fun ev => match ev with EvPrice r => Some (pr_record_index r) | EvIssue i => vi_record_index i | _ => None end)
  <$> (sample_parse "1").1 = [Some 1; Some 2; None].
Proof. vm_compute. reflexivity. Qed.

Lemma sample_message_storable n : storable (sample_message n).
Proof. unfold sample_message. storable_literal. Qed.
Lemma sample_json_bounded p : bounded 64 (sample_json p).
Proof. split; [unfold sample_json; storable_literal|vm_compute; discriminate]. Qed.

Definition integers_checked (ev : ParsedEvent) : bool :=
  match ev with
  | EvPrice r => bool_decide (pr_item_type r = None) && bool_decide (pr_item_status r = Some 1)
  | EvPromotion _ => false
  | _ => true
  end.
Lemma checked_integers events : forallb integers_checked events = true -> Forall integers_fit events.
Proof.
  rewrite forallb_forall. intros Hall. apply Forall_forall. intros ev Hev. apply list_elem_of_In, Hall in Hev.
  destruct ev; try done. cbn in Hev. apply andb_true_iff in Hev as [Ht Hs]. apply bool_decide_eq_true in Ht, Hs.
  cbn [integers_fit]. rewrite Ht, Hs. by repeat split.
Qed.

Lemma parsed_rows_typed_witness :
  is_Some (insert_all (rows_of_events sample_json 0 100 (sample_parse "1").1) no_staged) /\
  ~ is_Some (insert_all (rows_of_events sample_json 0 100 (sample_parse "3000000000").1) no_staged).
Proof.
  split.
  - apply (parsed_rows_typed (H3 := canned_expat (sample_document "1")) sample_xml_limits (fun _ _ => None) sample_message
      sample_message_storable (fun _ _ => true) 100 fresh_codec fresh_codec sample_source 1 PRICE_DELTA COMP_NONE
      (sample_parse "1").1 None sample_json 100);
      [reflexivity|discriminate|apply sample_json_bounded|vm_compute; reflexivity|].
    apply checked_integers. vm_compute. reflexivity.
  - intros Hins.
    apply (parsed_rows_typed (H3 := canned_expat (sample_document "3000000000")) sample_xml_limits (fun _ _ => None) sample_message
      sample_message_storable (fun _ _ => true) 100 fresh_codec fresh_codec sample_source 1 PRICE_DELTA COMP_NONE
      (sample_parse "3000000000").1 None sample_json 100) in Hins;
      [|reflexivity|discriminate|apply sample_json_bounded|vm_compute; reflexivity].
    assert (Hbig : exists r l, (sample_parse "3000000000").1 = EvPrice r :: l /\ pr_item_status r = Some 3000000000).
    { do 2 eexists. split; [vm_compute; reflexivity|reflexivity]. }
    destruct Hbig as (r & l & E & Hs). rewrite E in Hins. apply Forall_cons in Hins as [[_ Hfit] _]. rewrite Hs in Hfit. cbn in Hfit.
    unfold fits_int in Hfit. lia.
Defined.

Lemma parse_yields_witness : (sample_parse "1").2 = None /\
  exists n records warning metadata, (sample_parse "1").1 = records ++ warning ++ metadata /\
    numbered sample_xml_limits sample_message 1 n records /\ exists m, metadata = [EvMetadata m].
Proof.
  split; [vm_compute; reflexivity|].
  destruct (parse_yields (H3 := canned_expat (sample_document "1")) sample_xml_limits (fun _ _ => None) sample_message
    (fun _ _ => true) 100 fresh_codec fresh_codec sample_source 1 PRICE_DELTA COMP_NONE
    (sample_parse "1").1 None) as (n & records & warning & metadata & E & _ & Hn & _ & m & Hm & _); [vm_compute; reflexivity|].
  exists n, records, warning, metadata. split_and!; [exact E|exact Hn|by exists m].
Defined.

Abbreviation sample_drain := (drain sample_xml_limits (fun _ _ => None) sample_message (py "item") UTF_8_SIG 1 PRICE_DELTA
  (traversal 0 (sample_document "1")) (new_parse_state, [])).
Lemma lexical_scoping_witness :
  sample_drain.1 = Returned tt /\
  scoped sample_xml_limits sample_message (py "item") 1 PRICE_DELTA [] (sample_document "1") ∅ 0 tt
    = (Returned (context sample_drain.2.1, records sample_drain.2.1, sample_drain.2.2), tt) /\
  records sample_drain.2.1 = 2.
Proof.
  assert (E1 : sample_drain.1 = Returned tt) by (vm_compute; reflexivity).
  assert (E2 : records sample_drain.2.1 = 2) by (vm_compute; reflexivity).
  split; [exact E1|]. split; [|exact E2]. apply (lexical_scoping sample_xml_limits (fun _ _ => None) sample_message
    (py "item") UTF_8_SIG 1 PRICE_DELTA (py "items")); [vm_compute; reflexivity|].
  clear E2. destruct sample_drain as [o [s out]] eqn:E. cbn [fst snd] in *. by rewrite E1.
Defined.

Abbreviation sample_spool := (spool_document sample_xml_limits (fun _ _ => true) (items sample_source) (Returned tt) new_spooling).
Lemma spooled_without_markers_witness :
  sample_spool.1 = Returned (sample_xml, UTF_8_SIG) /\ sample_xml = concat (items sample_source) /\
  (spool_document sample_xml_limits (fun _ _ => true) [py "<!DOC"; py "TYPE Root>"] (Returned tt) new_spooling).1 = Raised malformed.
Proof.
  assert (E : sample_spool.1 = Returned (sample_xml, UTF_8_SIG)) by (vm_compute; reflexivity).
  split; [exact E|]. split; [|vm_compute; reflexivity]. destruct sample_spool as [o w] eqn:Erun. cbn [fst] in E. subst o.
  apply (spooled_without_markers sample_xml_limits (fun _ _ => true) (items sample_source) (Returned tt) sample_xml UTF_8_SIG w Erun).
Defined.

Lemma local_time_exact_witness :
  (unambiguous_israel_local_time (W := unit) 900 tt).1 = Returned 897 /\ (forall j, shows j 900 -> j = 897) /\
  (unambiguous_israel_local_time (W := unit) 1002 tt).1 = Raised validation_error.
Proof.
  split; [vm_compute; reflexivity|]. split; [|vm_compute; reflexivity].
  pose proof (local_time_exact 900 winter_folds) as H.
  assert (E : unambiguous_israel_local_time 900 tt = (Returned 897, tt)) by (vm_compute; reflexivity).
  rewrite E in H. exact (proj2 H).
Defined.

(** A cut after any other character is outside of the terminators. *)
Lemma unsplit_last a b c : last a = Some c -> c ∉ [45; 93; 63] -> unsplit_at a b.
Proof.
  intros Hl Hc d Hd (d1 & d2 & H1 & H2 & -> & [p ->] & _). apply Hc. clear Hc.
  assert (Hd1 : last d1 = Some c).
  { destruct d1 as [|x d1 _] using rev_ind; [done|]. by rewrite app_assoc, !last_snoc in *. }
  change DELIMITERS with [[45; 45; 62]; [93; 93; 62]; [63; 62]] in Hd. repeat (apply elem_of_cons in Hd as [Hd|Hd]); try by apply not_elem_of_nil in Hd.
  all: destruct d1 as [|x1 [|x2 [|x3 d1]]], d2 as [|y1 d2]; try done; cbn in Hd, Hd1; simplify_eq;
    try (apply (bool_decide_unpack _); vm_compute; exact I); by destruct d1.
Qed.

Definition sample_cut : list pystr := [py "<Root><Chain"; py "Id a='1'>x</ChainId>"; py "<!-- note --></Root>"].
Lemma guard_reads_chunks_witness : unsplit sample_cut /\
  same_run (guard_document 20 20 sample_cut new_guard) (guard_document 20 20 [concat sample_cut] new_guard) /\
  (guard_document 20 20 sample_cut new_guard).1 = Returned tt.
Proof.
  assert (Hun : unsplit sample_cut).
  { split; [|split; [|split; [|exact I]]]; (eapply unsplit_last; [vm_compute; reflexivity|]);
      apply (bool_decide_unpack _); vm_compute; exact I. }
  split; [exact Hun|]. split; [|vm_compute; reflexivity].
  apply (guard_reads_chunks 20 20 sample_cut); [lia|lia|exact Hun].
Defined.

Lemma guard_bounds_tokens_witness :
  (guard_chunks 20 20 [py "<Root>te"; py "xt"] new_guard).1 = Returned tt /\
  exists finished token, concat [py "<Root>te"; py "xt"] = finished ++ token /\ py_len token <= 20.
Proof.
  split; [vm_compute; reflexivity|].
  pose proof (guard_bounds_tokens 20 20 [py "<Root>te"; py "xt"] ltac:(lia) ltac:(lia)) as H.
  assert (E : (guard_chunks 20 20 [py "<Root>te"; py "xt"] new_guard).1 = Returned tt) by (vm_compute; reflexivity).
  destruct (guard_chunks 20 20 [py "<Root>te"; py "xt"] new_guard) as [o g]. cbn [fst] in E. subst o.
  destruct H as (finished & token & Hs & Ht & Hm). exists finished, token. split; [exact Hs|].
  destruct (decide (mode g = TOKEN_TEXT)) as [Hg|Hg]; [apply (Ht Hg)|apply (Hm Hg)].
Defined.
