(* ===== verification/StagingRepository.v ===== *)
(** The staging operations and [apply] as the [StagingOps] of [PostgresRepository.v]: with
    them every port operation of the ingestion repository is the one of
    [src/src/makolet/adapters/persistence/ingestion.py].

    [Y] is the state of the catalog matching, [X] that of the other ports. *)
From S2P Require Import Prelude Errors Effects Enums PyNumbers Models AppModels Ports Database SourceFiles SourceFilesFacts Staging StagingFacts IngestionFacts PostgresRepository Temporal Catalog Prices Roster CatalogSpec Promotions Apply ApplyFacts ApplySpec StagedRows StagingStore StagingStoreFacts.

(** ** Transactions on the tables *)

(** The attempt staging works for: the open replay of the file, or its current run. *)
Definition attempt_in (sid : uuid) (d : Db) : option attempt :=
  match current_attempt_ids sid d with
  | (Returned (run, replay), _) => Some (attempt_of run replay)
  | (Raised _, _) => None
  end.

Section transactions.
Context {Y : Type}.
Implicit Types (s : Session_state) (t : ApplyTables) (y : Y).

Lemma wp_joint {A} sid (m : M (Db * (ApplyTables * Y)) A) Q E s t y :
  E conflict (s, (t, y)) ->
  wp m (fun a w => Q a (with_db w.1 s, w.2)) (fun e _ => E e (s, (t, y))) (db s, (t, y)) ->
  wp (in_joint_transaction sid m) Q E (s, (t, y)).
Proof.
  intros HE Hm. unfold in_joint_transaction. do 4 wp_step; [done|].
  unfold joint_transaction, transaction, wp in *.
  destruct (m (db s, (t, y))) as [[a|e] [d' t']]; [done|]. by rewrite with_db_same.
Qed.

Lemma wp_current_attempt sid Q E d t y :
  (forall a, attempt_in sid d = Some a -> Q a (d, (t, y))) -> (forall e, E e (d, (t, y))) ->
  wp (current_attempt sid) Q E (d, (t, y)).
Proof.
  intros HQ HE. unfold current_attempt. wp_step.
  apply wp_on_db; [apply attempt_reads| |done].
  intros [run replay] Ha. wp_step. apply HQ. unfold attempt_in. cbn [fst] in Ha. by rewrite Ha.
Qed.

Lemma wp_on_tables {A} (m : M ApplyTables A) (Q : A -> Db * (ApplyTables * Y) -> Prop) E d t y :
  wp m (fun a t' => Q a (d, (t', y))) (fun e t' => E e (d, (t', y))) t -> wp (on_tables m) Q E (d, (t, y)).
Proof. intros Hm. by apply wp_zoom. Qed.

(** An operation on the tables of the current attempt. *)
Lemma attempt_operation {A} sid (f : attempt -> M ApplyTables A) (P : attempt -> A -> ApplyTables -> Prop) s t y :
  (forall a, attempt_in sid (db s) = Some a -> wp (f a) (P a) (fun _ _ => True) t) ->
  wp (in_joint_transaction (Some sid) (a ← current_attempt sid; on_tables (f a)))
    (fun r w' => exists a t', attempt_in sid (db s) = Some a /\ w' = (s, (t', y)) /\ P a r t')
    (fun _ w' => w' = (s, (t, y))) (s, (t, y)).
Proof.
  intros Hf. apply wp_joint; [done|]. wp_step. apply wp_current_attempt; [|done].
  intros a Ha. apply wp_on_tables. eapply wp_mono; [by apply Hf|..]; cbv beta; [|done].
  intros r t' HP. exists a, t'. cbn [fst snd]. by rewrite with_db_same.
Qed.
End transactions.

(** ** Reuse *)

Lemma first_candidate_in l c : first_candidate l = Some c -> c ∈ l.
Proof.
  revert c. induction l as [|x l IH]; intros c; simpl; [done|].
  destruct (first_candidate l) as [b|]; [|by intros [= ->]; left].
  destruct (preferred x b); intros [= <-]; [left|right; by apply IH].
Qed.

(** The candidate of a reuse: another completed file of the portal whose archived bytes are the
    same and were parsed by the same parser version as the same kind of document. *)
Record reusable (sid : uuid) (d : DocumentType) (k : CompressionFormat) (version sha : pystr) (dbv : Db)
    (t : ApplyTables) (c : Candidate) : Prop := {
  re_other : cd_source c <> sid;
  re_row : exists row, sources dbv !! cd_source c = Some row /\ src_status row = COMPLETED /\
    src_parser_version row = Some version /\ rf_document_type (src_remote row) = d /\
    rf_compression (src_remote row) = k /\ exists a, joined_archive dbv row = Some (sha, a);
  re_run : exists run, run ∈ runs dbv /\ run_source run = cd_source c /\ run_id run = cd_run c /\
    run_status run = COMPLETED;
  re_applied : is_Some (at_contents t !! cd_source c)
}.

Lemma completed_run_spec sid d run : completed_run sid d = Some run ->
  run ∈ runs d /\ run_source run = sid /\ run_status run = COMPLETED.
Proof.
  unfold completed_run. intros (k & _ & Hf)%bind_Some. apply List.find_some in Hf as [Hin _].
  apply List.filter_In in Hin as [Hin Hst]. apply bool_decide_eq_true in Hst.
  unfold runs_of in Hin. apply list_elem_of_In, list_elem_of_filter in Hin as [Hs Hin]. done.
Qed.

Lemma find_candidate_spec sid row sha version d t c :
  find_candidate sid row sha version d (at_contents t) = Some c ->
  reusable sid (rf_document_type (src_remote row)) (rf_compression (src_remote row)) version sha d t c.
Proof.
  intros Hc%first_candidate_in. apply list_elem_of_omap in Hc as ([cid crow] & Hin & Hc).
  apply elem_of_map_to_list in Hin. unfold candidate_of in Hc.
  apply bind_Some in Hc as ([csha a] & Ha & Hc). apply bind_Some in Hc as (content & Hcontent & Hc).
  apply bind_Some in Hc as (run & Hrun & Hc). case_match eqn:Hif; [|done]. injection Hc as <-.
  reflect_bools. subst. apply completed_run_spec in Hrun as (Hr1 & Hr2 & Hr3). split; simpl.
  - done.
  - exists crow. split_and!; try done. by exists a.
  - by exists run.
  - by rewrite Hcontent.
Qed.

Lemma attempt_in_run sid d a : db_wf d -> attempt_in sid d = Some a -> forall id,
  a = run_attempt_of id -> exists r, r ∈ runs d /\ run_source r = sid /\ run_id r = id.
Proof.
  intros Hwf. unfold attempt_in, current_attempt_ids, current_run_id, mbind, M_bind, get_state.
  destruct (find _ (replays d)) as [rp|]; [by intros [= <-] id [=]|].
  unfold current_run. destruct (max_attempt (runs_of sid d)) as [k|]; [|done].
  destruct (find (fun r => run_attempt r =? k) (runs_of sid d)) as [r|] eqn:Hf; [|done].
  intros [= <-] id [= <-]. apply List.find_some in Hf as [Hin _].
  apply list_elem_of_In in Hin. unfold runs_of in Hin. apply list_elem_of_filter in Hin as [? ?]. by exists r.
Qed.

(** The attempt of the file is not the completed run of another one. *)
Lemma attempt_apart sid d k version sha dbv t a c : db_wf dbv -> attempt_in sid dbv = Some a ->
  reusable sid d k version sha dbv t c -> run_attempt_of (cd_run c) <> a.
Proof.
  intros Hwf Ha Hre Heq. destruct (re_run _ _ _ _ _ _ _ _ Hre) as (run & Hin & Hsrc & Hid & _).
  destruct (attempt_in_run sid dbv a Hwf Ha (cd_run c) (eq_sym Heq)) as (r & Hin' & Hsrc' & Hid').
  assert (run = r) as ->.
  { apply list_elem_of_lookup in Hin as [i Hi], Hin' as [j Hj].
    assert (i = j) as ->; [|congruence].
    eapply (NoDup_lookup _ _ _ (cd_run c) (wf_run_ids _ Hwf)); rewrite list_lookup_fmap.
    - by rewrite Hi, <- Hid.
    - by rewrite Hj, <- Hid'. }
  apply (re_other _ _ _ _ _ _ _ _ Hre). congruence.
Qed.

(** What a reuse leaves when it answers [r] for the attempt [a]. *)
Definition reused_from (sid : uuid) (a : attempt) (d : DocumentType) (k : CompressionFormat)
    (version : pystr) (dbv : Db) (t : ApplyTables) (r : option StageSummary) (t' : ApplyTables) : Prop :=
  match r with
  | None => staged_of sid a t' = no_staged /\ attempt_stage a t' = empty_stage
  | Some summary => exists row sha c,
      archived_row sid dbv = Some (row, sha) /\ reusable sid d k version sha dbv t c /\
      let ca := run_attempt_of (cd_run c) in
      staged_of sid a t' = cloned sid (staged_of (cd_source c) ca t) /\
      summary = attempt_stage ca t /\ summary = staging_summary (cd_source c) ca t /\
      file_quarantines summary = 0 /\ attempt_issue_summary a t' = attempt_issue_summary ca t
  end.

Lemma clear_tables_effect sid a t :
  staged_of sid a (clear_tables sid a t) = no_staged /\ attempt_stage a (clear_tables sid a t) = empty_stage /\
  applied_part (clear_tables sid a t) = applied_part t.
Proof.
  unfold clear_tables.
  destruct (write_stage_effect sid a empty_stage (put_staged sid a no_staged t)) as (E1 & E2 & E3).
  by rewrite E1, E2, E3, staged_of_put.
Qed.

Lemma clear_tables_other sid a sid' a' t : sid' <> sid -> a' <> a ->
  staged_of sid' a' (clear_tables sid a t) = staged_of sid' a' t /\
  attempt_stage a' (clear_tables sid a t) = attempt_stage a' t.
Proof.
  intros Hs Ha. split; [by apply (staged_of_put_ne sid a sid' a' no_staged t)|].
  unfold clear_tables, write_stage, attempt_stage. simpl. by rewrite lookup_insert_ne.
Qed.

(** Cloning after clearing. *)
Lemma clone_spec sid a c t :
  let ca := run_attempt_of (cd_run c) in
  cd_source c <> sid -> ca <> a ->
  wp (clone_candidate sid a c)
    (fun r t' => applied_part t' = applied_part t /\
       match r with
       | None => staged_of sid a t' = no_staged /\ attempt_stage a t' = empty_stage
       | Some summary =>
           staged_of sid a t' = cloned sid (staged_of (cd_source c) ca t) /\
           summary = attempt_stage ca t /\ summary = staging_summary (cd_source c) ca t /\
           file_quarantines summary = 0 /\ attempt_issue_summary a t' = attempt_issue_summary ca t
       end)
    (fun _ _ => True) (clear_tables sid a t).
Proof.
  intros ca Hother Hap.
  destruct (clear_tables_effect sid a t) as (Hc1 & Hc2 & Hc3).
  destruct (clear_tables_other sid a (cd_source c) ca t Hother Hap) as [Ho1 Ho2].
  assert (Hsum : staging_summary (cd_source c) ca (clear_tables sid a t) = staging_summary (cd_source c) ca t).
  { unfold staging_summary, attempt_issue_summary. by rewrite Ho1, Ho2. }
  unfold clone_candidate. do 4 wp_step. fold ca. rewrite Hsum, Ho2.
  destruct (bool_decide_reflect (staging_summary (cd_source c) ca t = attempt_stage ca t)) as [Heq|];
    cbn [negb]; [|by wp_step].
  destruct (file_quarantines (attempt_stage ca t) =? 0) eqn:Hq; cbn [negb]; [|by wp_step].
  do 4 wp_step. wp_step. rewrite Ho1, Heq. reflect_bools.
  assert (Hput : staged_of sid a (put_staged sid a (cloned sid (staged_of (cd_source c) ca t)) (clear_tables sid a t))
    = cloned sid (staged_of (cd_source c) ca t)) by apply staged_of_put.
  unfold write_cloned_stage. destruct a as [[] id]; simpl fst; cbv iota.
  - match goal with |- context [write_stage ?x ?s ?t0] => destruct (write_stage_effect sid x s t0) as (E1 & E2 & E3) end.
    rewrite E1, E3. unfold attempt_issue_summary at 1. rewrite E2. by split_and!.
  - split_and!; try done. unfold attempt_issue_summary. by rewrite attempt_stage_set.
Qed.

Lemma lock_reuse_reads sid d k : read_only (lock_reuse_target sid d k).
Proof.
  intros w. unfold lock_reuse_target, mbind, M_bind, get_state, raise_if.
  destruct (archived_row sid w) as [[row sha]|]; [|done].
  by destruct (negb (bool_decide (rf_document_type _ = _))), (negb (bool_decide (rf_compression _ = _))), (_ && _).
Qed.

Section reuse.
Context {Y : Type}.

Lemma reuse_spec sid version d k s t (y : Y) : db_wf (db s) ->
  wp (db_reuse_validated_staging sid version d k)
    (fun r w' => exists a t', attempt_in sid (db s) = Some a /\ w' = (s, (t', y)) /\
       applied_part t' = applied_part t /\ reused_from sid a d k version (db s) t r t')
    (fun _ w' => w' = (s, (t, y))) (s, (t, y)).
Proof.
  intros Hwf. unfold db_reuse_validated_staging. wp_step. wp_step; [done|].
  apply wp_joint; [done|]. wp_step. apply wp_on_db; [|intros [row sha] Hlock|done].
  { apply lock_reuse_reads. }
  assert (Htarget : archived_row sid (db s) = Some (row, sha) /\ rf_document_type (src_remote row) = d /\
    rf_compression (src_remote row) = k).
  { cbn [fst] in Hlock. unfold lock_reuse_target, mbind, M_bind, get_state, raise_if in Hlock.
    destruct (archived_row sid (db s)) as [[row' sha']|]; [|done].
    destruct (bool_decide (rf_document_type _ = _)) eqn:E1; [|done].
    destruct (bool_decide (rf_compression _ = _)) eqn:E2; [|done].
    cbn [negb] in Hlock. destruct (_ && _) in Hlock; [done|]. injection Hlock as -> ->.
    apply bool_decide_eq_true in E1, E2. done. }
  destruct Htarget as (Hrow & Hd & Hk). wp_step. unfold clear_staging_body. wp_step.
  apply wp_current_attempt; [intros a Ha|done]. apply wp_on_tables. wp_step.
  destruct (clear_tables_effect sid a t) as (Hc1 & Hc2 & Hc3).
  wp_step. apply wp_on_db; [done|intros d0 [= <-]|done]. wp_step. apply wp_on_tables. wp_step.
  destruct (find_candidate sid row sha version _ _) as [c|] eqn:Hc; cycle 1.
  { wp_step. exists a, (clear_tables sid a t). cbn [fst snd]. by rewrite with_db_same. }
  apply find_candidate_spec in Hc. rewrite Hd, Hk in Hc. cbn [fst] in Hc.
  change (at_contents (clear_tables sid a t)) with (at_contents t) in Hc.
  assert (Hre : reusable sid d k version sha (db s) t c) by (by destruct Hc).
  pose proof (attempt_apart sid d k version sha (db s) t a c Hwf Ha Hre) as Hap.
  destruct (clear_tables_other sid a (cd_source c) (run_attempt_of (cd_run c)) t
    (re_other _ _ _ _ _ _ _ _ Hre) Hap) as [Ho1 Ho2].
  wp_step. apply wp_current_attempt; [|done]. intros a' Ha'. assert (a' = a) as -> by congruence.
  apply wp_on_tables. eapply wp_mono; [apply (clone_spec sid a c t); [apply Hre|done]|..]; cbv beta; [|done].
  intros r t' [Happ Hr]. exists a, t'. cbn [fst snd]. rewrite with_db_same, Happ. split_and!; try done.
  destruct r as [summary|]; [|done]. exists row, sha, c. by destruct Hr as (? & ? & ? & ? & ?).
Qed.
End reuse.

(** ** The operations of the repository *)

Section repository.
Context {Y X : Type}.
Variable collate : pystr -> pystr -> bool.
Variable uuidv7 : Promotions -> promotion_key -> uuid.
Variable match_exact_gtins : portal_key -> uuid -> Z -> Catalog -> M Y unit.
Variable json_sha256 : FingerprintPayload -> pystr.
Variable limits : IssueLimits.

(** A call of the repository in the world of all ports. *)
Definition in_tables {A} (m : M (Session_state * (ApplyTables * Y)) A)
    : M (Session_state * ((ApplyTables * Y) * X)) A :=
  zoom (fun w => (w.1, w.2.1)) (fun v w => (v.1, (v.2, w.2.2))) m.

Definition postgres_staging : StagingOps (Session_state * ((ApplyTables * Y) * X)) := {|
  op_reuse sid v d k := in_tables (db_reuse_validated_staging sid v d k);
  op_stage sid events := in_tables (db_stage json_sha256 limits sid events);
  op_finalize sid d := in_tables (db_finalize_staging limits sid d);
  op_has_quarantine sid := in_tables (db_has_file_quarantine_issue sid);
  op_apply sid d minimum drop :=
    in_tables (apply collate uuidv7 match_exact_gtins limits sid d minimum drop)
|}.

Lemma wp_in_tables {A} (m : M (Session_state * (ApplyTables * Y)) A)
    (Q : A -> Session_state * ((ApplyTables * Y) * X) -> Prop) E s t (y : Y) x :
  wp m (fun a w => Q a (w.1, (w.2, x))) (fun e w => E e (w.1, (w.2, x))) (s, (t, y)) ->
  wp (in_tables m) Q E (s, ((t, y), x)).
Proof. intros Hm. by apply wp_zoom. Qed.

Lemma in_tables_run {A} (m : M (Session_state * (ApplyTables * Y)) A) s t (y : Y) x o w :
  in_tables m (s, ((t, y), x)) = (o, w) ->
  exists s' t' y', m (s, (t, y)) = (o, (s', (t', y'))) /\ w = (s', ((t', y'), x)).
Proof.
  unfold in_tables, zoom. cbn [fst snd]. destruct (m (s, (t, y))) as [r [s' [t' y']]]. intros [= <- <-].
  by exists s', t', y'.
Qed.

(** A statement of the repository, as [I] sees the tables and the other ports' state. *)
Definition quiet_tables {A} (m : M (Session_state * (ApplyTables * Y)) A) : Prop :=
  forall s t y, wp m (fun _ w' => db w'.1 = db s /\ lock_stack w'.1 = lock_stack s)
    (fun _ w' => db w'.1 = db s /\ lock_stack w'.1 = lock_stack s) (s, (t, y)).

(** Statements that only read the lifecycle tables. *)
Lemma on_db_keeps {A} (d : Db) (m : M Db A) :
  read_only m -> preserves (fun w : Db * (ApplyTables * Y) => w.1 = d) (on_db m).
Proof. intros Hm w Hw. by apply wp_on_db. Qed.
Lemma on_tables_keeps {A} (d : Db) (m : M ApplyTables A) :
  preserves (fun w : Db * (ApplyTables * Y) => w.1 = d) (on_tables m).
Proof.
  intros [d' [t y]] Hw. apply wp_on_tables. apply (wp_mono _ (fun _ _ => True) _ (fun _ _ => True));
    [apply wp_true|done|done].
Qed.
Lemma current_attempt_keeps (d : Db) sid :
  preserves (fun w : Db * (ApplyTables * Y) => w.1 = d) (current_attempt sid).
Proof.
  unfold current_attempt. apply preserves_bind; [apply on_db_keeps, attempt_reads|].
  intros [? ?]. apply preserves_ret.
Qed.

Lemma joint_quiet {A} sid (m : M (Db * (ApplyTables * Y)) A) :
  (forall d, preserves (fun w => w.1 = d) m) -> quiet_tables (in_joint_transaction sid m).
Proof.
  intros Hm s t y. apply wp_joint; [done|]. eapply wp_mono; [by apply (Hm (db s))|..]; by cbv beta.
Qed.

Lemma attempt_operation_quiet {A} sid (f : attempt -> M ApplyTables A) :
  quiet_tables (in_joint_transaction (Some sid) (a ← current_attempt sid; on_tables (f a))).
Proof.
  apply joint_quiet. intros d. apply preserves_bind; [apply current_attempt_keeps|].
  intros a. apply on_tables_keeps.
Qed.

Lemma reuse_quiet sid v d k : quiet_tables (db_reuse_validated_staging (Y := Y) sid v d k).
Proof.
  intros s t y. unfold db_reuse_validated_staging. wp_step. wp_step; [done|].
  revert s t y. apply joint_quiet. intros dv.
  apply preserves_bind; [apply on_db_keeps, lock_reuse_reads|]. intros [row sha].
  apply preserves_bind; [apply preserves_bind; [apply current_attempt_keeps|intros; apply on_tables_keeps]|].
  intros _. apply preserves_bind; [by apply on_db_keeps|]. intros d0.
  apply preserves_bind; [apply on_tables_keeps|]. intros t.
  destruct (find_candidate _ _ _ _ _ _); [|apply preserves_ret].
  apply preserves_bind; [apply current_attempt_keeps|intros; apply on_tables_keeps].
Qed.

Lemma in_tables_keeps {A} (m : M (Session_state * (ApplyTables * Y)) A) :
  quiet_tables m -> keeps_sources (in_tables m).
Proof.
  intros Hm [s [[t y] x]]. apply wp_in_tables. eapply wp_mono; [apply Hm|..]; by cbv beta.
Qed.

Lemma postgres_staging_separate : staging_separate postgres_staging.
Proof.
  split; intros; apply in_tables_keeps.
  - apply reuse_quiet.
  - apply attempt_operation_quiet.
  - apply attempt_operation_quiet.
  - apply attempt_operation_quiet.
  - intros s t y. eapply wp_mono; [apply apply_wp|..]; cbv beta; intros ? w' (-> & -> & _); done.
Qed.

(** ** Staging with this repository

    Ports of other components leave the database alone. *)
Definition apart {A} (m : M (Session_state * ((ApplyTables * Y) * X)) A) : Prop :=
  forall v, preserves (fun w => (w.1, w.2.1) = v) m.

Variable split_url : pystr -> SplitUrl.
Variable casefold : pystr -> pystr.
#[local] Instance full_repository : IngestionRepository (Session_state * ((ApplyTables * Y) * X)) :=
  postgres_repository split_url casefold postgres_staging.

(** The attempt of the file has staged exactly these events, and the lifecycle tables and
    what is applied are still those at the start. *)
Definition staged_since (d0 : Db) (p0 : applied_tables) (sid : uuid) (l : list (list ParsedEvent))
    (w : Session_state * ((ApplyTables * Y) * X)) : Prop :=
  db w.1 = d0 /\ applied_part w.2.1.1 = p0 /\
  exists a, attempt_in sid d0 = Some a /\ stored json_sha256 limits sid a (concat l) w.2.1.1.

Definition postgres_staging_log (d0 : Db) (p0 : applied_tables) :
  StagingLog (Session_state * ((ApplyTables * Y) * X)).
Proof.
  refine {| staged_batches := staged_since d0 p0 |}.
  intros sid l batch [s [[t y] x]] (Hd & Hp & a & Ha & Hst). cbn [fst snd] in Hd, Hp, Ha, Hst. apply wp_in_tables.
  eapply wp_mono; [apply (attempt_operation sid (fun a => stage_tables json_sha256 limits sid a batch)
    (fun a' _ t' => stored json_sha256 limits sid a' (concat l ++ batch) t' /\ applied_part t' = applied_part t))|..];
    cbv beta.
  - intros a' Ha'. assert (a' = a) as -> by congruence.
    eapply wp_mono; [by apply stage_tables_spec|..]; cbv beta; [|done]. by intros ? t' (? & _ & ? & _).
  - intros r w' (a' & t' & Ha' & -> & Hst' & Hp'). unfold staged_since. cbn [fst snd].
    split; [done|]. split; [congruence|]. exists a'. split; [congruence|].
    rewrite concat_app. simpl. by rewrite app_nil_r.
  - intros e w' ->. split; [done|]. split; [done|]. by exists a.
Defined.

#[export] Instance postgres_staging_counts : StagingCounts (Session_state * ((ApplyTables * Y) * X)).
Proof.
  split. intros sid batch [s [[t y] x]]. apply wp_in_tables.
  eapply wp_mono; [apply (attempt_operation sid (fun a => stage_tables json_sha256 limits sid a batch)
    (fun _ r _ => same_counts r (stage_events batch)))|..]; cbv beta; [|by intros r w' (? & ? & _ & _ & ?)|done].
  intros a _. eapply wp_mono; [apply stage_tables_counts|..]; cbv beta; [|done]. by intros ? ? [? _].
Qed.
End repository.

(** The other ports leave the database alone. *)
Class SeparatePorts (Y X Session Chunks : Type)
    `{!RawArchive (Session_state * ((ApplyTables * Y) * X)) Session Chunks}
    `{!Downloader (Session_state * ((ApplyTables * Y) * X)) Session}
    `{!DocumentParser (Session_state * ((ApplyTables * Y) * X)) Chunks} : Prop := {
  apart_put : forall (s : Session) n, apart (archive_put s n);
  apart_open_archive : forall k, apart (open_archive k);
  apart_close_archive : forall c : Chunks, apart (close_archive c);
  apart_verify : forall k d, apart (archive_verify k d);
  apart_open_download : forall rf m, apart (open_download rf m);
  apart_transferred : forall s : Session, apart (session_transferred s);
  apart_finish : forall (s : Session) n, apart (session_finish s n);
  apart_close_session : forall s : Session, apart (close_session s);
  apart_parse : forall (c : Chunks) sid d k n, apart (parse c sid d k n)
}.
