(* ===== verification/StagingSpec.v ===== *)
(** The properties of staging in PostgreSQL, alone and with the ingestion service, and the
    runs that witness them. *)
From Stdlib Require Import SpecFloat.
From S2P Require Import Prelude Errors Effects Enums PyNumbers Models AppModels Ports Database SourceFiles SourceFilesFacts Samples Staging StagingFacts IngestionService IngestionFacts PostgresRepository Temporal Catalog Prices PricesFacts Roster CatalogSpec Promotions Apply ApplyFacts ApplySpec StagedRows StagingStore StagingStoreFacts StagingRepository.

(** Copying rows through buffers that are flushed at [COPY_BATCH_SIZE] rows does exactly
    what one insertion of all rows of all events would do: it succeeds on the same batches, with
    the same counts, and leaves the same rows; what the reference inserts is, table by table,
    the rows of the events of that kind in order, with the first issues up to the evidence
    limit. *)
Theorem buffered_copy_exact json_sha256 sid index limit events r :
  match copy_events json_sha256 sid index limit events r with
  | (Returned counts, r') => copy_at_once json_sha256 sid index limit events r = Some (counts, r') /\
      insert_all (rows_of_events json_sha256 index limit events) r = Some r' /\
      same_counts counts (stage_events events) /\
      sampled_validation_issues counts = py_len (take (Z.to_nat limit) (issues_in events))
  | (Raised _, _) => copy_at_once json_sha256 sid index limit events r = None
  end.
Proof.
  pose proof (copy_events_spec json_sha256 sid index limit events r) as H. unfold wp in H.
  destruct (copy_events _ _ _ _ _ r) as [[counts|e] r']; [|done]. split; [done|].
  unfold copy_at_once in H. apply bind_Some in H as ([b s] & Hc & H).
  apply bind_Some in H as (r1 & Hins & H). injection H as -> ->.
  apply collect_rows in Hc as (-> & Hn & Hs). simpl in Hs. rewrite Z.add_0_r, Z.sub_0_r in *.
  rewrite Z.add_0_l in Hs. split_and!; [done| |done]. by rewrite stage_events_fold.
Qed.

(** C25: finalizing staging rejects the superseded records and nothing else.  Of the staged
    records with one logical key exactly the last one stays, so that keys are unique; the
    rejections grow by the number of dropped records, of which at most that many are recorded
    as issues; the stored and returned counts are those of the rows that are left; the issues
    stay within the configured limits; and nothing that is applied changes. *)
Theorem duplicates_resolved {Y} limits sid d s t (y : Y) summary s' t' y' :
  db_finalize_staging limits sid d (s, (t, y)) = (Returned summary, (s', (t', y'))) ->
  exists a, attempt_in sid (db s) = Some a /\ s' = s /\ y' = y /\
    finalized d (staged_of sid a t) (attempt_stage a t) (staged_of sid a t') summary /\
    attempt_stage a t' = summary /\ applied_part t' = applied_part t /\
    (within_limits limits (attempt_stage a t) -> within_limits limits summary) /\
    (is_price d = true -> let rows := staged (staged_prices (at_catalog t)) sid in
       let rows' := staged (staged_prices (at_catalog t')) sid in
       (forall r, r ∈ rows' <-> r ∈ rows /\
          forall r', r' ∈ rows -> price_identity r' = price_identity r -> sp_record_index r' <= sp_record_index r) /\
       (forall r, r ∈ rows -> exists r', r' ∈ rows' /\ price_identity r' = price_identity r) /\
       (NoDup (map sp_record_index rows) -> NoDup (map price_identity rows'))).
Proof.
  intros Hrun.
  pose proof (attempt_operation sid (fun a => finalize_tables limits sid a d)
    (fun a r t' => finalized d (staged_of sid a t) (attempt_stage a t) (staged_of sid a t') r /\
       attempt_stage a t' = r /\ applied_part t' = applied_part t /\
       (within_limits limits (attempt_stage a t) -> within_limits limits r)) s t y
    (fun a _ => finalize_tables_spec limits sid a d t)) as Hwp.
  apply (wp_returned _ _ _ _ _ _ Hwp) in Hrun as (a & t1 & Ha & [= -> -> ->] & Hfin & Hst & Hp & Hlim).
  exists a. split_and!; try done. intros Hd rows rows'.
  assert (Hrows : rows' = survivors price_identity sp_record_index rows).
  { destruct (fin_rows _ _ _ _ _ Hfin) as (sample & Hr & _).
    apply (f_equal r_prices) in Hr. simpl in Hr. subst rows rows'. rewrite Hr. unfold deduplicated.
    destruct (bool_decide_reflect (d = STORES)) as [->|]; [done|]. by rewrite Hd. }
  rewrite Hrows. split_and!.
  - intros r. apply elem_of_survivors.
  - intros r Hr. destruct (survivors_last price_identity sp_record_index rows r Hr) as (r' & ? & ? & _). eauto.
  - apply survivors_unique.
Qed.

(** Reusing a validated staging is exact.  When it answers a summary, the staged rows of the
    file are those of another completed file of its portal with the same archived bytes, kind,
    compression and parser version, the record issues are copied, and the counters are the ones
    that file completed with, which were checked to agree with its rows and to count no file
    quarantine; when it answers nothing, the staging of the file is empty; and neither that file,
    the lifecycle tables nor anything applied changes. *)
Theorem reuse_exact {Y} sid version d k s t (y : Y) r s' t' y' : db_wf (db s) ->
  db_reuse_validated_staging sid version d k (s, (t, y)) = (Returned r, (s', (t', y'))) ->
  exists a, attempt_in sid (db s) = Some a /\ s' = s /\ y' = y /\ applied_part t' = applied_part t /\
    reused_from sid a d k version (db s) t r t'.
Proof.
  intros Hwf Hrun. pose proof (reuse_spec sid version d k s t y Hwf) as Hwp.
  apply (wp_returned _ _ _ _ _ _ Hwp) in Hrun as (a & t1 & Ha & [= -> -> ->] & Hp & Hr). by exists a.
Qed.

(** ** With the service *)

Section service.
Context {Y X Session Chunks : Type}.
Variable collate : pystr -> pystr -> bool.
Variable uuidv7 : Promotions -> promotion_key -> uuid.
Variable match_exact_gtins : portal_key -> uuid -> Z -> Catalog -> M Y unit.
Variable json_sha256 : FingerprintPayload -> pystr.
Variable limits : IssueLimits.
Variable split_url : pystr -> SplitUrl.
Variable casefold : pystr -> pystr.
Variable hash_resource : pystr -> Z.
Abbreviation W := (Session_state * ((ApplyTables * Y) * X))%type.
Context `{!RawArchive W Session Chunks} `{!Downloader W Session} `{!DocumentParser W Chunks}
  `{!Retrying} `{!RetryingOk} `{!SeparatePorts Y X Session Chunks}.
Let ops : StagingOps W := postgres_staging collate uuidv7 match_exact_gtins json_sha256 limits.
Let repository : IngestionRepository W := postgres_repository split_url casefold ops.
Let leases : LeaseManager W := postgres_leases hash_resource.
#[local] Existing Instances repository leases.

Lemma apart_reads d0 p0 {A} (m : M W A) sid l :
  apart m -> preserves (staged_since json_sha256 limits (Y := Y) (X := X) d0 p0 sid l) m.
Proof.
  intros Hm w Hw. eapply wp_mono; [by apply (Hm (w.1, w.2.1))|..]; cbv beta;
    intros ? w' [= H1 H2]; unfold staged_since; by rewrite H1, H2.
Qed.

Lemma log_reads d0 p0 : ReadsOnly W Session Chunks
  (H0 := postgres_staging_log collate uuidv7 match_exact_gtins json_sha256 limits split_url casefold d0 p0).
Proof. split; intros; apply apart_reads; apply SeparatePorts0. Qed.

(** C24: a document that is parsed, staged and finalized is in the tables.  After a reuse that
    found nothing, the staged rows of the file are the rows of exactly the parsed events,
    without the superseded ones, whatever the batches; the returned counts are those of the
    rows, with the rejections of the parser and of the duplicates; the run's counters are the
    returned ones; and the lifecycle tables and all that is applied are untouched. *)
Theorem document_in_tables policy sid rf key s t y x w1 w2 w3 staged_summary summary :
  policy_ok policy -> db_wf (db s) ->
  reuse_validated_staging sid parser_version (rf_document_type rf) (rf_compression rf) (s, ((t, y), x))
    = (Returned None, w1) ->
  parse_and_stage (Session := Session) (Chunks := Chunks) policy sid rf key w1 = (Returned staged_summary, w2) ->
  finalize_staging sid (rf_document_type rf) w2 = (Returned summary, w3) ->
  exists a parsed r counts,
    attempt_in sid (db s) = Some a /\
    parsed_as (Session := Session) (Chunks := Chunks) sid rf key parsed /\ parsed.2 = None /\
    insert_all (rows_of_events json_sha256 0 (maximum_evidence limits) parsed.1) no_staged = Some r /\
    same_counts counts (stage_events parsed.1) /\
    finalized (rf_document_type rf) r counts (staged_of sid a w3.2.1.1) summary /\
    attempt_stage a w3.2.1.1 = summary /\
    db w3.1 = db s /\ applied_part w3.2.1.1 = applied_part t.
Proof.
  intros Hpolicy Hwf Hreuse Hstage Hfinal.
  set (log := postgres_staging_log (Y := Y) (X := X) collate uuidv7 match_exact_gtins json_sha256 limits
    split_url casefold (db s) (applied_part t)).
  assert (Hw1 : staged_since json_sha256 limits (db s) (applied_part t) sid [] w1).
  { apply in_tables_run in Hreuse as (s1 & t1 & y1 & Hrun & ->).
    pose proof (wp_returned _ _ _ _ _ _ (reuse_spec sid parser_version (rf_document_type rf) (rf_compression rf)
      s t y Hwf) Hrun) as (a & t2 & Ha & [= -> -> ->] & Hp & Hr & Hst).
    split_and!; [done|done|]. exists a. split; [done|]. cbn [snd fst concat]. by apply stored_nothing. }
  destruct (wp_returned _ _ _ _ _ _ (parse_and_stage_spec (H0 := log) (ReadsOnly0 := log_reads _ _) (Session := Session)
    (Chunks := Chunks) policy sid Hpolicy rf key [] w1 Hw1) Hstage)
    as (parsed & batches & Hparsed & Hend & (Hd2 & Hp2 & a & Ha & Hstored) & _ & Hconcat & _).
  destruct w2 as [s2 [[t2 y2] x2]]. cbn [fst snd] in *. rewrite app_nil_l, Hconcat in Hstored.
  destruct Hstored as (Hins & Hcounts & Hsam).
  apply in_tables_run in Hfinal as (s3 & t3 & y3 & Hrun & ->).
  pose proof (wp_returned _ _ _ _ _ _ (attempt_operation sid (fun a => finalize_tables limits sid a (rf_document_type rf))
    (fun a r t' => finalized (rf_document_type rf) (staged_of sid a t2) (attempt_stage a t2) (staged_of sid a t') r /\
       attempt_stage a t' = r /\ applied_part t' = applied_part t2 /\
       (within_limits limits (attempt_stage a t2) -> within_limits limits r)) s2 t2 y2
    (fun a _ => finalize_tables_spec limits sid a _ t2)) Hrun)
    as (a' & t4 & Ha' & [= -> -> ->] & Hfin & Hst & Hp4 & _).
  assert (a' = a) as -> by congruence.
  exists a, parsed, (staged_of sid a t2), (attempt_stage a t2). cbn [fst snd]. split_and!; try done; congruence.
Qed.








(** ** The complete repository *)

Let store : FileStore W := postgres_store.
#[local] Existing Instance store.




End service.

(** ** Sample runs *)

Definition sample_fingerprint (p : FingerprintPayload) : pystr := sample_digest.
Definition counted_prices (n : Z) : StageSummary := {|
  metadata_records := 0; store_records := 0; price_records := n; promotion_records := 0; warnings := 0;
  rejected_records := 0; file_quarantines := 0; validation_issue_bytes := 0; sampled_validation_issues := 0 |}.

(** The rows of a file with the counters of its run. *)
Definition with_prices (file run : uuid) (rows : list StagedPrice) (t : ApplyTables) : ApplyTables :=
  set_issues id (insert (run_attempt_of run) (counted_prices (py_len rows)))
    (set_tables (restaged rows file (at_catalog t)) (at_promotions t) t).

(** Milk is listed twice. *)
Definition milk_twice : ApplyTables :=
  with_prices 1 2 [sample_item (py "milk") (py "Milk") 450 1; sample_item (py "eggs") (py "Eggs") 900 2;
                   sample_item (py "milk") (py "Milk") 500 3] sample_tables.
Abbreviation sample_finalize :=
  (db_finalize_staging (Y := unit) sample_limits 1 PRICE_DELTA (no_lock db_applying, (milk_twice, tt))).
Definition milk_once : StageSummary := {|
  metadata_records := 0; store_records := 0; price_records := 2; promotion_records := 0; warnings := 0;
  rejected_records := 1; file_quarantines := 0; validation_issue_bytes := 173; sampled_validation_issues := 1 |}.

Example sample_finalize_run : sample_finalize.1 = Returned milk_once /\
  map sp_record_index (staged (staged_prices (at_catalog sample_finalize.2.2.1)) 1) = [2; 3].
Proof. split; vm_compute; reflexivity. Qed.

Lemma duplicates_resolved_witness : exists s' t' y', sample_finalize = (Returned milk_once, (s', (t', y'))) /\
  exists a, attempt_in 1 (db (no_lock db_applying)) = Some a /\ attempt_stage a t' = milk_once /\
    applied_part t' = applied_part milk_twice.
Proof.
  destruct sample_finalize as [o [s' [t' y']]] eqn:E. exists s', t', y'.
  assert (Ho : o = Returned milk_once) by (transitivity sample_finalize.1; [by rewrite E|exact (proj1 sample_finalize_run)]).
  subst o. split; [exact eq_refl|].
  destruct (duplicates_resolved _ _ _ _ _ _ _ _ _ _ E) as (a & Ha & _ & _ & _ & Hst & Hp & _).
  exists a. split; [exact Ha|]. split; [exact Hst|exact Hp].
Defined.

(** A second file with the bytes of the first one. *)
Definition sample_copy : RemoteFile := {|
  rf_retailer_id := py "shufersal"; rf_portal_id := py "main"; rf_protocol := HTTPS;
  rf_remote_id := py "Price-2"; rf_download_url := py "https://prices.example/2?sig=a";
  rf_original_filename := py "Price7290027600007-001-202601010300.gz";
  rf_document_type := PRICE_DELTA; rf_compression := GZIP;
  rf_discovered_at := Aware 1000; rf_source_timestamp := Some (Aware 900);
  rf_content_length := None; rf_media_type := None; rf_etag := None;
  rf_last_modified := None; rf_response_metadata := [] |}.
Definition copy_discovered : Db :=
  serve_db (db_register_discovery sample_split sample_fold sample_copy false) db_completed.
Definition copy_downloading : Db :=
  serve_db (db_transition 3 [DISCOVERED; FAILED_RETRYABLE] DOWNLOADING None) copy_discovered.
Definition copy_archived : Db := serve_db (db_record_archive 3 sample_archived (py "v1")) copy_downloading.
Definition copy_parsing : Db := serve_db (db_transition 3 [ARCHIVED] PARSING None) copy_archived.

Lemma reachable_copy : reachable sample_split sample_fold copy_parsing.
Proof.
  apply (reachable_serve (ReqTransition 3 [ARCHIVED] PARSING None) copy_archived); [|reflexivity].
  apply (reachable_serve (ReqRecordArchive 3 sample_archived (py "v1")) copy_downloading);
    [|exact (f_equal db (run_drop _ _))].
  apply (reachable_serve (ReqTransition 3 [DISCOVERED; FAILED_RETRYABLE] DOWNLOADING None) copy_discovered);
    [|reflexivity].
  apply (reachable_serve (ReqRegister sample_copy false) db_completed); [apply reachable_completed|].
  exact (f_equal db (run_drop _ _)).
Qed.

(** The first file was applied with two prices. *)
Definition first_applied : ApplyTables :=
  set_contents (insert 1 {| ac_portal := sample_portal; ac_document_type := PRICE_DELTA;
                            ac_content_sha256 := sample_digest; ac_applied_at := 100 |})
    (with_prices 1 2 [sample_item (py "milk") (py "Milk") 450 1; sample_item (py "eggs") (py "Eggs") 900 2]
       sample_tables).
Abbreviation sample_reuse := (db_reuse_validated_staging (Y := unit) 3 (py "v1") PRICE_DELTA GZIP
  (no_lock copy_parsing, (first_applied, tt))).

Example sample_reuse_run : sample_reuse.1 = Returned (Some (counted_prices 2)) /\
  map sp_record_index (staged (staged_prices (at_catalog sample_reuse.2.2.1)) 3) = [1; 2].
Proof. split; vm_compute; reflexivity. Qed.

Lemma reuse_exact_witness : exists s' t' y', sample_reuse = (Returned (Some (counted_prices 2)), (s', (t', y'))) /\
  exists a, attempt_in 3 (db (no_lock copy_parsing)) = Some a /\
    reused_from 3 a PRICE_DELTA GZIP (py "v1") (db (no_lock copy_parsing)) first_applied (Some (counted_prices 2)) t'.
Proof.
  destruct sample_reuse as [o [s' [t' y']]] eqn:E. exists s', t', y'.
  assert (Ho : o = Returned (Some (counted_prices 2)))
    by (transitivity sample_reuse.1; [by rewrite E|exact (proj1 sample_reuse_run)]).
  subst o. split; [exact eq_refl|].
  assert (Hwf : db_wf (db (no_lock copy_parsing))) by exact (reachable_wf _ _ _ reachable_copy).
  destruct (reuse_exact 3 (py "v1") PRICE_DELTA GZIP (no_lock copy_parsing) first_applied tt _ s' t' y' Hwf E)
    as (a & Ha & _ & _ & _ & Hr).
  exists a. split; [exact Ha|exact Hr].
Defined.

(** ** A world for the complete repository

    The other ports are an archive, a transport and a parser of a fixed document. *)
Definition sample_price (code : pystr) (price index : Z) : PriceRecord := {|
  pr_source_file_id := 1; pr_record_index := index; pr_chain_id := py "7290"; pr_subchain_id := py "1";
  pr_store_id := py "001"; pr_item_code := code; pr_item_type := Some 1; pr_item_name := code;
  pr_manufacturer_name := None; pr_manufacturer_country := None; pr_manufacturer_description := None;
  pr_unit_quantity := None; pr_quantity := None; pr_unit_of_measure := None; pr_is_weighted := None;
  pr_quantity_in_package := None; pr_item_price := dec_of_N (Z.to_N price);
  pr_unit_of_measure_price := None; pr_allow_discount := None; pr_item_status := Some 1;
  pr_price_updated_at := None; pr_last_sale_at := None; pr_audit_number := None |}.
Definition full_document : list ParsedEvent :=
  [EvPrice (sample_price (py "milk") 4 1); EvPrice (sample_price (py "eggs") 9 2);
   EvPrice (sample_price (py "milk") 5 3)].
(** What an uncompressed file holds. *)
Definition plain_document : list ParsedEvent :=
  [EvPrice (sample_price (py "milk") 4 1); EvPrice (sample_price (py "eggs") 9 2)].
Abbreviation FullWorld := (Session_state * ((ApplyTables * unit) * unit))%type.

#[export] Instance full_archive : RawArchive FullWorld unit unit := {|
  archive_put s n := mret (py "sha256/aa/" ++ sample_digest, 42, true);
  open_archive k := mret tt; close_archive c := mret tt; archive_verify k d := mret 42 |}.
#[export] Instance full_downloader : Downloader FullWorld unit := {|
  open_download rf m := mret tt; session_transferred s := mret 42;
  session_finish s n := mret sample_evidence; close_session s := mret tt |}.
#[export] Instance full_parser : DocumentParser FullWorld unit := {|
  parser_version := py "v1"; parse c sid d k n :=
    mret (if bool_decide (k = GZIP) then full_document else plain_document, None) |}.
#[export] Instance full_separate : SeparatePorts unit unit unit unit.
Proof. split; intros; intros v w Hw; exact Hw. Qed.
#[local] Instance full_retrying : Retrying :=
  {| retrying W A limit p body := attempts (Z.to_nat limit - 1) 1 p body |}.
#[local] Instance full_retrying_ok : RetryingOk.
Proof. done. Qed.

Abbreviation full_ops :=
  (postgres_staging (Y := unit) (X := unit) any_order sample_ids sample_matching
     sample_fingerprint sample_limits).
#[local] Instance full_postgres : IngestionRepository FullWorld :=
  postgres_repository sample_split sample_fold full_ops.

Definition db_parsing : Db := serve_db (db_transition 1 [ARCHIVED] PARSING None) db_archived.
Lemma reachable_parsing : reachable sample_split sample_fold db_parsing.
Proof.
  apply (reachable_serve (ReqTransition 1 [ARCHIVED] PARSING None) db_archived);
    [apply reachable_archived|reflexivity].
Qed.
Abbreviation full_world d := (no_lock d, ((sample_tables, tt), tt)).

Abbreviation full_reuse := (reuse_validated_staging (W := FullWorld) 1 (py "v1") PRICE_DELTA GZIP (full_world db_parsing)).
Abbreviation full_stage := (parse_and_stage (W := FullWorld) (Session := unit) (Chunks := unit) default_policy 1
  sample_remote (py "key")).
Abbreviation full_finalize := (finalize_staging (W := FullWorld) 1 PRICE_DELTA).

Example full_runs : full_reuse.1 = Returned None /\
  (full_stage full_reuse.2).1 = Returned (counted_prices 3) /\
  (full_finalize (full_stage full_reuse.2).2).1 = Returned milk_once /\
  map (fun p => pv_item_price (sp_value p))
    (staged (staged_prices (at_catalog (full_finalize (full_stage full_reuse.2).2).2.2.1.1)) 1) = [90000; 50000].
Proof. split_and!; vm_compute; reflexivity. Qed.

Lemma document_in_tables_witness : exists w1 w2 w3,
  full_reuse = (Returned None, w1) /\ full_stage w1 = (Returned (counted_prices 3), w2) /\
  full_finalize w2 = (Returned milk_once, w3) /\
  exists a r counts, attempt_in 1 (db (no_lock db_parsing)) = Some a /\
    insert_all (rows_of_events sample_fingerprint 0 (maximum_evidence sample_limits) full_document) no_staged = Some r /\
    same_counts counts (stage_events full_document) /\
    finalized PRICE_DELTA r counts (staged_of 1 a w3.2.1.1) milk_once.
Proof.
  destruct full_reuse as [o1 w1] eqn:E1. destruct (full_stage w1) as [o2 w2] eqn:E2.
  destruct (full_finalize w2) as [o3 w3] eqn:E3. exists w1, w2, w3.
  destruct full_runs as (R1 & R2 & R3 & _).
  assert (Hw1 : w1 = full_reuse.2) by (rewrite E1; exact eq_refl).
  assert (Hw2 : w2 = (full_stage full_reuse.2).2) by (rewrite <- Hw1, E2; exact eq_refl).
  assert (H1 : o1 = Returned None) by (transitivity full_reuse.1; [rewrite E1; exact eq_refl|exact R1]).
  assert (H2 : o2 = Returned (counted_prices 3)).
  { transitivity (full_stage full_reuse.2).1; [rewrite <- Hw1, E2; exact eq_refl|exact R2]. }
  assert (H3 : o3 = Returned milk_once).
  { transitivity (full_finalize (full_stage full_reuse.2).2).1; [rewrite <- Hw2, E3; exact eq_refl|exact R3]. }
  subst o1 o2 o3. do 3 (split; [first [exact eq_refl|exact E1|exact E2|exact E3]|]).
  assert (Hwf : db_wf (db (no_lock db_parsing))) by exact (reachable_wf _ _ _ reachable_parsing).
  assert (Hpolicy : policy_ok default_policy) by (vm_compute; exact eq_refl).
  assert (E1' : reuse_validated_staging 1 parser_version (rf_document_type sample_remote)
    (rf_compression sample_remote) (full_world db_parsing) = (Returned None, w1)) by exact E1.
  assert (E3' : finalize_staging 1 (rf_document_type sample_remote) w2 = (Returned milk_once, w3)) by exact E3.
  pose proof (document_in_tables any_order sample_ids sample_matching sample_fingerprint sample_limits sample_split
    sample_fold (Session := unit) (Chunks := unit) default_policy 1 sample_remote (py "key") (no_lock db_parsing)
    sample_tables tt tt w1 w2 w3 (counted_prices 3) milk_once Hpolicy Hwf E1' E2 E3') as Hd.
  destruct Hd
    as (a & parsed & r & counts & Ha & (chunks & v0 & v1 & v2 & Hopen & Hparse) & _ & Hins & Hcounts & Hfin & _).
  assert (Hp : parsed = (full_document, None)) by (injection Hparse as Hp _; exact (eq_sym Hp)).
  subst parsed. exists a, r, counts.
  split; [exact Ha|]. split; [exact Hins|]. split; [exact Hcounts|exact Hfin].
Defined.

