(* ===== verification/MaintenanceSpec.v ===== *)
(** The properties of archive replay and rebuilds, alone and with the ingestion service they
    replay with, and the runs that witness them. *)
From S2P Require Import Prelude Errors Effects Enums PyNumbers Text Models AppModels Ports Database SourceFiles SourceFilesFacts Samples Staging StagingFacts IngestionService IngestionFacts PostgresRepository SourceValues Rebuild RebuildFacts Maintenance MaintenanceFacts Temporal Catalog Prices Roster CatalogSpec Promotions Apply ApplyFacts ApplySpec StagedRows StagingStore StagingStoreFacts StagingRepository.

(** ** Ingestion leaves rebuilds alone *)

Definition spares (d0 d : Db) : Prop :=
  active_rebuild d = active_rebuild d0 /\ rebuild_runs d = rebuild_runs d0 /\ next_id d0 <= next_id d.
Lemma spares_refl d : spares d d.
Proof. split_and!; [done..|lia]. Qed.

Lemma spares_ok d d' t : spares d d' -> rebuilds_ok d t -> rebuilds_ok d' t.
Proof.
  intros (Ha & Hr & Hn) [Hruns Hfiles Hactive]. split; rewrite ?Ha, ?Hr; [|done|done|done].
  intros run r Hrow. destruct (Hruns run r Hrow) as (? & ?). split; [lia|done].
Qed.

Section lifecycle.
Variable d0 : Db.
Abbreviation I := (spares d0).

Lemma modify_spares (f : Db -> Db) :
  (forall d, active_rebuild (f d) = active_rebuild d /\ rebuild_runs (f d) = rebuild_runs d /\ next_id d <= next_id (f d)) ->
  preserves I (modify f).
Proof. intros Hf. apply preserves_modify. intros d (? & ? & ?). destruct (Hf d) as (? & ? & ?). split_and!; [congruence|congruence|lia]. Qed.
Lemma get_spares : preserves I get_state.
Proof. by intros d Hd. Qed.
Hint Resolve get_spares : preserves.
Hint Extern 1 (preserves I (modify _)) => apply modify_spares; intros ?; split_and!; [reflexivity|reflexivity|cbn; lia] : preserves.

Lemma fresh_id_spares : preserves I fresh_id.
Proof. unfold fresh_id. preserve. Qed.
Hint Resolve fresh_id_spares : preserves.
Lemma barrier_spares r : preserves I (assert_db_ingestion_allowed r).
Proof. unfold assert_db_ingestion_allowed. preserve. Qed.
Lemma source_row_spares sid : preserves I (source_row sid).
Proof. unfold source_row. preserve. Qed.
Lemma current_run_id_spares sid : preserves I (current_run_id sid).
Proof. unfold current_run_id. preserve. Qed.
Hint Resolve barrier_spares source_row_spares current_run_id_spares : preserves.

Lemma transition_spares sid expected target code : preserves I (transition_body sid expected target code).
Proof. unfold transition_body, ensure_ingestion_transition. preserve. Qed.
Lemma record_archive_spares sid a v : preserves I (record_archive_body sid a v).
Proof. unfold record_archive_body, attach_archive, ensure_ingestion_transition. preserve. Qed.
Lemma begin_replay_spares sid v r : preserves I (begin_replay_body sid v r).
Proof. unfold begin_replay_body. preserve. Qed.
Lemma finish_replay_spares lock rid s c : preserves I (finish_replay_body lock rid s c).
Proof. unfold finish_replay_body. preserve. Qed.
Lemma register_spares split_url casefold lock rf o : preserves I (register_body split_url casefold lock rf o).
Proof. unfold register_body, refresh_source, insert_source, rediscovery_updates, evidence_update. preserve. Qed.
End lifecycle.

(** ** Rebuilding with the ingestion service *)

(** The transports, the archive and the parser do not write the tables of a rebuild either. *)
Class RebuildPorts (Y X Session Chunks : Type)
    `{!RawArchive (Session_state * ((ApplyTables * Y) * (RebuildTables * X))) Session Chunks}
    `{!Downloader (Session_state * ((ApplyTables * Y) * (RebuildTables * X))) Session}
    `{!DocumentParser (Session_state * ((ApplyTables * Y) * (RebuildTables * X))) Chunks} : Prop := {
  spare_put : forall (s : Session) n t, preserves (fun w => w.2.2.1 = t) (archive_put s n);
  spare_open_archive : forall k t, preserves (fun w => w.2.2.1 = t) (open_archive k);
  spare_close_archive : forall (c : Chunks) t, preserves (fun w => w.2.2.1 = t) (close_archive c);
  spare_verify : forall k d t, preserves (fun w => w.2.2.1 = t) (archive_verify k d);
  spare_open_download : forall rf m t, preserves (fun w => w.2.2.1 = t) (open_download rf m);
  spare_transferred : forall (s : Session) t, preserves (fun w => w.2.2.1 = t) (session_transferred s);
  spare_finish : forall (s : Session) n t, preserves (fun w => w.2.2.1 = t) (session_finish s n);
  spare_close_session : forall (s : Session) t, preserves (fun w => w.2.2.1 = t) (close_session s);
  spare_parse : forall (c : Chunks) sid d k n t, preserves (fun w => w.2.2.1 = t) (parse c sid d k n)
}.

Section complete.
Context {Y X Session Chunks : Type}.
Variable collate : pystr -> pystr -> bool.
Variable uuidv7 : Promotions -> promotion_key -> uuid.
Variable match_exact_gtins : portal_key -> uuid -> Z -> Catalog -> M Y unit.
Variable json_sha256 : FingerprintPayload -> pystr.
Variable limits : IssueLimits.
Variable split_url : pystr -> SplitUrl.
Variable casefold : pystr -> pystr.
Variable hash_resource : pystr -> Z.
Abbreviation W := (Session_state * ((ApplyTables * Y) * (RebuildTables * X)))%type.
Context `{!RawArchive W Session Chunks} `{!Downloader W Session} `{!DocumentParser W Chunks}
  `{!Retrying} `{!RetryingOk} `{!SeparatePorts Y (RebuildTables * X) Session Chunks} `{!RebuildPorts Y X Session Chunks}.
Context `{!DerivedTables (ApplyTables * Y)} `{!UuidText}.
Let ops : StagingOps W := postgres_staging collate uuidv7 match_exact_gtins json_sha256 limits.
Let repository : IngestionRepository W := postgres_repository split_url casefold ops.
Let leases : LeaseManager W := postgres_leases hash_resource.
#[local] Existing Instances repository leases.

(** The rebuild tables are those of the start. *)
Definition rebuild_spared (d0 : Db) (t : RebuildTables) (w : W) : Prop := spares d0 (db w.1) /\ w.2.2.1 = t.

Lemma session_spares d0 t {A} (m : M Session_state A) :
  preserves (fun s => spares d0 (db s)) m -> preserves (rebuild_spared d0 t) (in_session m).
Proof.
  intros Hm [s v] [Hd Ht]. apply wp_in_session. eapply wp_mono; [by apply Hm|..]; cbv beta; by intros ? s' Hd'.
Qed.
Lemma transaction_spares d0 sid o {A} (m : M Db A) :
  preserves (spares d0) m -> preserves (fun s => spares d0 (db s)) (in_transaction sid o m).
Proof.
  intros Hm s Hs. apply wp_in_transaction; [done|]. intros _.
  eapply wp_mono; [by apply Hm|..]; cbv beta; [by intros a d Hd|done].
Qed.
Lemma tables_spare d0 t {A} (m : M (Session_state * (ApplyTables * Y)) A) :
  quiet_tables m -> preserves (rebuild_spared d0 t) (in_tables m).
Proof.
  intros Hm [s [[a y] x]] [Hd Ht]. apply wp_in_tables. eapply wp_mono; [apply Hm|..]; cbv beta;
    intros ? s' [Hdb _]; (split; [cbn [fst]; by rewrite Hdb|done]).
Qed.
Lemma port_spares d0 t {A} (m : M W A) :
  apart m -> (forall t, preserves (fun w => w.2.2.1 = t) m) -> preserves (rebuild_spared d0 t) m.
Proof.
  intros Ha Hm w [Hd Ht]. eapply wp_mono; [apply wp_and; [by apply (Ha (w.1, w.2.1))|by apply (Hm t)]|..]; cbv beta;
    intros ? w' [[= Hs _] ?]; (split; [by rewrite Hs|done]).
Qed.

Lemma db_start_spares d0 {A} (m : M Db A) (s : Session_state) :
  preserves (spares d0) m -> spares d0 (db s) ->
  wp (begin m) (fun _ s' => spares d0 (db s')) (fun _ s' => spares d0 (db s')) s.
Proof.
  intros Hm Hs. unfold begin, wp, transaction. specialize (Hm _ Hs). unfold wp in Hm.
  destruct (m (db s)) as [[a|e] d]; [done|done].
Qed.

Lemma ingestion_spares d0 t : ports_keep (Session := Session) (Chunks := Chunks) (rebuild_spared d0 t).
Proof.
  split; intros.
  - apply session_spares. intros s Hs. apply db_start_spares; [apply barrier_spares|done].
  - apply session_spares. unfold db_register_discovery. preserve. apply transaction_spares, register_spares.
  - apply session_spares. unfold db_get. apply transaction_spares. preserve; [apply source_row_spares|apply get_spares].
  - apply session_spares. unfold db_transition. preserve. apply transaction_spares, transition_spares.
  - apply session_spares. unfold db_record_archive. preserve. apply transaction_spares, record_archive_spares.
  - apply tables_spare, reuse_quiet.
  - apply tables_spare, attempt_operation_quiet.
  - apply tables_spare, attempt_operation_quiet.
  - apply tables_spare, attempt_operation_quiet.
  - apply tables_spare. intros s a y. eapply wp_mono; [apply apply_wp|..]; cbv beta; intros ? w' (-> & -> & _); done.
  - apply session_spares. unfold db_archive_sha256. apply transaction_spares. preserve. apply get_spares.
  - apply session_spares. unfold db_begin_replay. preserve. apply transaction_spares, begin_replay_spares.
  - apply session_spares. unfold db_finish_replay. preserve. apply transaction_spares, finish_replay_spares.
  - apply port_spares; [apply SeparatePorts0|intros; apply RebuildPorts0].
  - apply port_spares; [apply SeparatePorts0|intros; apply RebuildPorts0].
  - apply port_spares; [apply SeparatePorts0|intros; apply RebuildPorts0].
  - apply port_spares; [apply SeparatePorts0|intros; apply RebuildPorts0].
  - apply port_spares; [apply SeparatePorts0|intros; apply RebuildPorts0].
  - apply port_spares; [apply SeparatePorts0|intros; apply RebuildPorts0].
  - apply port_spares; [apply SeparatePorts0|intros; apply RebuildPorts0].
  - apply port_spares; [apply SeparatePorts0|intros; apply RebuildPorts0].
  - apply port_spares; [apply SeparatePorts0|intros; apply RebuildPorts0].
  - apply session_spares. unfold acquire. intros s Hs. by repeat wp_step.
  - apply session_spares. unfold release. intros s Hs. by wp_step.
Qed.

(** The maintenance service with this ingestion service and a catalog bootstrap. *)
Variable policy : IngestionPolicy.
Variable worker_id : pystr.
Variable bootstrap : option (uuid -> M W unit).
#[local] Instance ingestion_replays : ReplayableIngestion W := {|
  replay_parser_version := parser_version (W := W) (Chunks := Chunks);
  replay_source_file sid rebuild := replay (Session := Session) (Chunks := Chunks) policy worker_id sid rebuild;
  catalog_bootstrap := bootstrap
|}.
Hypothesis bootstrap_spares : forall b sid d0 t, bootstrap = Some b -> preserves (rebuild_spared d0 t) (b sid).

Lemma spared_progress s run l (w w' : W) :
  progress s run l w -> rebuild_spared (db w.1) w.2.2.1 w' -> progress s run l w'.
Proof.
  intros (Hok & Ha & Hl & r & Hr & Hs) [(Ha' & Hr' & Hn) Ht]. split.
  - unfold control_ok in *. rewrite Ht. apply (spares_ok (db w.1)); [by split|done].
  - rewrite Ht, Ha', Hr'. eauto.
Qed.

Lemma spares_progress s run l {A} (m : M W A) :
  (forall d0 t, preserves (rebuild_spared d0 t) m) -> preserves (progress s run l) m.
Proof.
  intros Hm w Hw. eapply wp_mono; [apply (Hm (db w.1) w.2.2.1); split; [apply spares_refl|done]|..]; cbv beta;
    intros ? w' Hw'; by eapply spared_progress.
Qed.

#[local] Instance replays_keep_progress : ReplayKeepsProgress W.
Proof.
  split.
  - intros s run l sid r. apply spares_progress. intros d0 t. apply replay_keeps_all, ingestion_spares.
  - intros s run l b sid Hb. apply spares_progress. intros d0 t. by apply bootstrap_spares.
Qed.

(** The paged loop of a rebuild is the loop over all its pending files: whatever the page
    size within the limits, it replays every pending file once, in the order of the sequence
    numbers, with its bootstrap and its checkpoint, and then finishes; the outcome and the state
    are the same, and the loop has ended. *)
Theorem rebuild_in_order maintenance_limits fuel run r (w : W) :
  limits_ok maintenance_limits -> control_ok w -> active_rebuild (db w.1) = Some run ->
  rebuild_runs (db w.1) !! run = Some r -> nr_status r = REBUILD_RUNNING ->
  (length (pending_files run w.2.2.1) < fuel)%nat ->
  rebuild_pages maintenance_limits fuel run w =
  (for_each (fun p =>
     result ← replay (Session := Session) (Chunks := Chunks) policy worker_id (as_source_file_id p.2) (Some run);
     bootstrap_catalog result;;
     complete_rebuild_file run p.1 p.2) (pending_files run w.2.2.1);;
   finish_rebuild run) w.
Proof.
  intros Hlimits Hok Ha Hr Hs Hfuel.
  rewrite (rebuild_pages_all maintenance_limits fuel run (pending_files run w.2.2.1)); [reflexivity|done|done|].
  split_and!; [done|done|done|]. by exists r.
Qed.

End complete.

(** ** Rebuilds among everything else *)

Section rebuilds.
Context {D X : Type} `{!DerivedTables D} `{!UuidText}.
Abbreviation World := (Session_state * (D * (RebuildTables * X)))%type.

(** Any operation on rebuilds, however it ends, and anything that leaves their tables alone, as
    [ingestion_spares] shows of the ingestion service. *)
Inductive maintenance_step : World -> World -> Prop :=
  | step_begin by_ version w : maintenance_step w (begin_rebuild by_ version w).2
  | step_resume run w : maintenance_step w (resume_rebuild run w).2
  | step_complete run sequence f w : maintenance_step w (complete_rebuild_file run sequence f w).2
  | step_fail run code w : maintenance_step w (fail_rebuild run code w).2
  | step_finish run w : maintenance_step w (finish_rebuild run w).2
  | step_else w w' : spares (db w.1) (db w'.1) -> w'.2.2.1 = w.2.2.1 -> maintenance_step w w'.

Lemma preserved_state {A} (P : World -> Prop) (m : M World A) w : preserves P m -> P w -> P (m w).2.
Proof. intros Hm Hw. specialize (Hm w Hw). unfold wp in Hm. by destruct (m w) as [[a|e] w']. Qed.

Lemma operation_ok {A} (m : M World A) (Q : World -> A -> World -> Prop) :
  (forall w, control_ok w -> wp m (Q w) (fun _ w' => w' = w) w) ->
  (forall w a w', Q w a w' -> control_ok w') -> preserves control_ok m.
Proof. intros Hm HQ w Hw. eapply wp_mono; [by apply Hm|apply HQ|by intros e w' ->]. Qed.

Lemma maintenance_step_ok w w' : control_ok w -> maintenance_step w w' -> control_ok w'.
Proof.
  intros Hok Hstep. destruct Hstep as [by_ version w|run w|run sequence f w|run code w|run w|w w' Hd Ht].
  - revert Hok. apply preserved_state. eapply operation_ok; [intros v Hv; by apply begin_spec|]. by intros v a v' [? _].
  - revert Hok. apply preserved_state. eapply operation_ok; [intros v Hv; by apply resume_spec|].
    by intros v a v' (_ & _ & [? _] & _).
  - revert Hok. apply preserved_state. eapply operation_ok; [intros v Hv; by apply complete_keeps|]. by intros v a v' [? _].
  - revert Hok. apply preserved_state. eapply operation_ok; [intros v Hv; by apply fail_keeps|]. by intros v a v' [? _].
  - revert Hok. apply preserved_state. eapply operation_ok; [intros v Hv; by apply finish_spec|].
    by intros v a v' (_ & _ & _ & [? _] & _).
  - unfold control_ok. rewrite Ht. by eapply spares_ok.
Qed.

Lemma maintenance_steps_ok w w' : control_ok w -> rtc maintenance_step w w' -> control_ok w'.
Proof. intros Hok. induction 1; [done|]. eauto using maintenance_step_ok. Qed.

Definition no_rebuild_yet (w : World) : Prop :=
  active_rebuild (db w.1) = None /\ rebuild_runs (db w.1) = ∅ /\ w.2.2.1 = no_rebuilds.
Lemma no_rebuild_yet_ok w : no_rebuild_yet w -> control_ok w.
Proof.
  intros (Ha & Hr & Ht). unfold control_ok. rewrite Ht. split; rewrite ?Ha, ?Hr.
  - intros run r. by rewrite lookup_empty.
  - intros run i f. simpl. by rewrite lookup_empty.
  - intros run. split; [done|]. intros (r & Hrow & _). by rewrite lookup_empty in Hrow.
  - intros k. simpl. rewrite lookup_empty. by intros [? ?].
Qed.

(** C31: the state machine of rebuilds, in every state that its operations reach from a database
    without one, whatever they are called with, however they end and whatever else happens in
    between.  A run has exactly the files it was begun with, its checkpoints are the first ones
    in sequence, and its counters say how many; at most one run is not completed, and exactly
    that one is active; and an ingestion or replay passes the barrier only when no rebuild is
    active, or for the active one while it is running. *)
Theorem rebuild_invariant w0 w : no_rebuild_yet w0 -> rtc maintenance_step w0 w ->
  (forall run r, rebuild_runs (db w.1) !! run = Some r ->
     0 <= nr_completed r <= nr_total r /\
     nr_last_sequence r = (if nr_completed r =? 0 then None else Some (nr_completed r)) /\
     (forall i, is_Some (nf_rows w.2.2.1 !! (run, i)) <-> 1 <= i <= nr_total r) /\
     (forall i f, nf_rows w.2.2.1 !! (run, i) = Some f -> nf_pending f = (nr_completed r <? i)) /\
     (nr_status r = REBUILD_COMPLETED -> nr_completed r = nr_total r) /\
     (active_rebuild (db w.1) = Some run <-> nr_status r <> REBUILD_COMPLETED)) /\
  (forall rebuild, (assert_db_ingestion_allowed rebuild (db w.1)).1 = Returned tt <->
     match active_rebuild (db w.1) with
     | None => rebuild = None
     | Some run => rebuild = Some run /\ nr_status <$> rebuild_runs (db w.1) !! run = Some REBUILD_RUNNING
     end).
Proof.
  intros H0 Hsteps. assert (Hok : control_ok w) by eauto using maintenance_steps_ok, no_rebuild_yet_ok. split.
  - intros run r Hr. destruct (ro_runs _ _ Hok _ _ Hr) as (_ & Hm & Hd & file & Hl). split_and!; try done; try apply Hl.
    + intros i. split; [intros [f Hf]; by eapply (fl_only Hl)|]. intros Hi. destruct (fl_rows Hl i Hi) as (f & Hf & _). by exists f.
    + intros i f Hf. destruct (fl_rows Hl i (fl_only Hl _ _ Hf)) as (g & Hg & _ & Hp). congruence.
    + rewrite (ro_active _ _ Hok). split; [intros (r' & Hr' & ?); congruence|by exists r].
  - intros rebuild. unfold assert_db_ingestion_allowed, mbind, M_bind, get_state, raise_if.
    destruct (active_rebuild (db w.1)) as [run|]; [|by destruct rebuild].
    destruct (bool_decide_reflect (rebuild = Some run)), (bool_decide_reflect (nr_status <$> rebuild_runs (db w.1) !! run = Some REBUILD_RUNNING));
      simpl; naive_solver.
Qed.

(** ** From the begin of a rebuild to its end *)

(** While the run is active, its originals, its parser version and the inputs of its files are
    those it was begun with. *)
Definition open_since (run : uuid) (w1 w : World) : Prop :=
  control_ok w /\ run < next_id (db w.1) /\
  (active_rebuild (db w.1) = Some run ->
     (forall e k, original_snapshots w.2.2.1 !! (run, e, k) = original_snapshots w1.2.2.1 !! (run, e, k)) /\
     nr_parser_version <$> rebuild_runs (db w.1) !! run = nr_parser_version <$> rebuild_runs (db w1.1) !! run /\
     forall i, file_columns <$> nf_rows w.2.2.1 !! (run, i) = file_columns <$> nf_rows w1.2.2.1 !! (run, i)).

Lemma open_since_same run w1 w w' : control_ok w' -> same_state w w' -> open_since run w1 w -> open_since run w1 w'.
Proof.
  intros Hok' [_ (_ & Ha & Hn) Hv _ [Ho _] Hf] (_ & Hlt & Hopen). split; [done|]. split; [by rewrite Hn|].
  rewrite Ha. intros Hact. destruct (Hopen Hact) as (H1 & H2 & H3). split_and!.
  - intros e k. by rewrite Ho.
  - by rewrite Hv.
  - intros i. by rewrite Hf.
Qed.

Lemma operation_open {A} (m : M World A) run w1 w : (forall v, control_ok v ->
    wp m (fun _ v' => control_ok v' /\ (open_since run w1 v -> open_since run w1 v')) (fun _ v' => v' = v) v) ->
  open_since run w1 w -> open_since run w1 (m w).2.
Proof.
  intros Hm Hw. specialize (Hm w (proj1 Hw)). unfold wp in Hm. destruct (m w) as [[a|e] w']; simpl; [naive_solver|by subst].
Qed.

Lemma maintenance_step_open run w1 w w' : open_since run w1 w -> maintenance_step w w' -> open_since run w1 w'.
Proof.
  intros Hw Hstep. destruct Hstep as [by_ version w|run' w|run' sequence f w|run' code w|run' w|w w' Hd Ht];
    try (revert Hw; apply operation_open; intros v Hv).
  - eapply wp_mono; [by apply begin_spec|..]; cbv beta; [|done]. intros [k r] v' (Hok' & Hb & _).
    split; [done|]. intros (_ & Hlt & _). split; [done|]. destruct Hb as [_ Hrun Ha Hrow _ _ _ _ _ _]. simpl in *. split.
    + destruct (ro_runs _ _ Hok' k r) as [? _]; [by rewrite Hrow, lookup_insert_eq|]. lia.
    + rewrite Ha. intros [= ->]. lia.
  - eapply wp_mono; [by apply resume_spec|..]; cbv beta; [|done].
    intros a v' (_ & _ & [Hok' _] & Hs). split; [done|]. by apply open_since_same.
  - eapply wp_mono; [by apply complete_keeps|..]; cbv beta; [|done]. intros a v' [Hok' Hs]. split; [done|]. by apply open_since_same.
  - eapply wp_mono; [by apply fail_keeps|..]; cbv beta; [|done]. intros a v' [Hok' Hs]. split; [done|]. by apply open_since_same.
  - eapply wp_mono; [by apply finish_spec|..]; cbv beta; [|done].
    intros a v' (_ & Ha & _ & (Hok' & Hnone & _) & _ & _ & Hn). split; [done|]. intros (_ & Hlt & _).
    split; [done|]. rewrite Hn. split; [done|]. by rewrite Hnone.
  - destruct Hw as (Hok & Hlt & Hopen). destruct Hd as (Ha & Hr & Hn). split; [|split; [lia|]].
    + unfold control_ok. rewrite Ht. by apply (spares_ok (db w.1)).
    + rewrite Ha, Hr, Ht. done.
Qed.

Lemma maintenance_steps_open run w1 w w' : open_since run w1 w -> rtc maintenance_step w w' -> open_since run w1 w'.
Proof. intros Hw. induction 1; [done|]. eauto using maintenance_step_open. Qed.

(** Nothing a rebuild of these files with this parser would change. *)
Definition unchanged_files (version : pystr) (l : list RebuildFile) : Prop :=
  forall f, f ∈ l -> nf_original_applied f <> None /\ nf_original_version f = Some version.

Lemma unchanged_since run version w1 w r : open_since run w1 w -> active_rebuild (db w.1) = Some run ->
  rebuild_runs (db w1.1) !! run = Some r -> nr_parser_version r = version ->
  (forall i f, nf_rows w1.2.2.1 !! (run, i) = Some f -> nf_original_applied f <> None /\ nf_original_version f = Some version) ->
  unchanged_inputs run w.
Proof.
  intros (Hok & _ & Hopen) Ha Hr Hv Hf. destruct (Hopen Ha) as (_ & Hv' & Hcol). rewrite Hr in Hv'. simpl in Hv'.
  apply fmap_Some in Hv' as (r' & Hr' & Hv'). exists r'. split; [done|].
  assert (Hall : forall p, p ∈ files_of run w.2.2.1 -> nf_original_applied p.2 <> None /\ nf_original_version p.2 = Some version).
  { intros [i f] Hin%elem_of_files_of. specialize (Hcol i). rewrite Hin in Hcol. symmetry in Hcol.
    apply fmap_Some in Hcol as (g & Hg & Hc). unfold file_columns in Hc. simplify_eq. destruct (Hf i g Hg). simpl. split; congruence. }
  unfold materially_changes. f_equal; apply not_true_iff_false; intros ([i f] & Hin & Hp)%existsb_exists;
    apply list_elem_of_In in Hin; destruct (Hall _ Hin) as [H1 H2]; simpl in *; reflect_bools; congruence.
Qed.

(** C33: a rebuild that could change nothing restores the derived tables, or says so.  From the
    begin of a run to its end, whatever happens in between: when the run can be finished, all its
    files are checkpointed and the barrier is lifted; and if every replayed file had been applied
    by the requested parser version, then each of the nineteen tables holds exactly the rows it
    held before the rebuild, with their ids; otherwise finishing raises and changes nothing, and
    the barrier stays. *)
Theorem rebuild_restores by_ version w0 run r w1 w2 : control_ok w0 -> row_keys_unique w0.2.1 ->
  begin_rebuild by_ version w0 = (Returned (run, r), w1) -> rtc maintenance_step w1 w2 ->
  match finish_rebuild run w2 with
  | (Returned _, w3) =>
      pending_files run w2.2.2.1 = [] /\ active_rebuild (db w2.1) = Some run /\ active_rebuild (db w3.1) = None /\
      (unchanged_files version (eligible_files (db w0.1) w0.2.1 (clock (db w0.1))) ->
       forall entity columns, (entity, columns) ∈ SNAPSHOT_ENTITIES -> table entity w3.2.1 ≡ₚ table entity w0.2.1)
  | (Raised _, w3) => w3 = w2
  end.
Proof.
  intros Hok Hkeys Hbegin Hsteps.
  pose proof (wp_returned _ _ _ _ _ _ (begin_spec by_ version w0 Hok) Hbegin) as (Hok1 & Hb & Hversion).
  destruct Hb as [_ Hrun Ha Hrow _ _ Hinputs Horig Hfresh _]. cbn [fst snd] in *.
  assert (Hr : rebuild_runs (db w1.1) !! run = Some r) by by rewrite Hrow, lookup_insert_eq.
  assert (Hopen : open_since run w1 w2).
  { eapply maintenance_steps_open; [|done]. split; [done|]. split; [by apply (ro_runs _ _ Hok1 _ _ Hr)|done]. }
  pose proof (finish_spec run w2 (proj1 Hopen)) as Hwp. unfold wp in Hwp.
  destruct (finish_rebuild run w2) as [[a|e] w3]; [|done].
  destruct Hwp as (_ & Hact & Hpending & (_ & Hnone & _) & _ & Hexact & _). split_and!; try done.
  intros Hunchanged entity columns Hin.
  rewrite (Hexact (unchanged_since run version w1 w2 r Hopen Hact Hr Hversion
    (fun i f Hf => Hunchanged f (Hinputs i f Hf))) entity columns Hin).
  destruct Hopen as (_ & _ & Hopen). destruct (Hopen Hact) as (Hsn & _).
  rewrite (snapshots_of_same _ _ (original_snapshots w1.2.2.1)) by apply Hsn.
  rewrite Horig. by apply (capture_snapshots_exact run w0.2.1 _ entity columns).
Qed.

(** Ids outlive a rebuild.  When the rows of a table are the original ones up to their ids,
    all different, and no new row took the id of another original, then reusing the ids succeeds
    and makes the table exactly the original rows; no other table changes. *)
Theorem stable_ids_restored `{!DerivedTablesOk D} (run : uuid) (entity : string) (s : snapshots) (x : D) :
  same_but_ids (snapshots_of run entity s) (table entity x) -> NoDup (map row_id (snapshots_of run entity s)) ->
  exists x', reuse_ids_by_payload run entity ["id"%string] s x = (Returned tt, x') /\
    table entity x' ≡ₚ snapshots_of run entity s /\ forall n, n <> entity -> table n x' = table n x.
Proof.
  intros Hs Hn. pose proof (reuse_ids_restore _ _ Hs) as Hp.
  eexists. unfold reuse_ids_by_payload, update_rows, mbind, M_bind, get_state, raise_if, ids_unique.
  rewrite bool_decide_eq_true_2 by (by rewrite Hp). cbn [negb mret M_ret]. split; [reflexivity|].
  rewrite table_put. split; [exact Hp|]. intros n Hne. by apply table_put_other.
Qed.

(** The archive is listed completely.  Following the cursors from the first page answers
    every archived file of the range once, in the order of download time and id, in pages of at
    most the limit, and ends; nothing changes. *)
Theorem archive_pages_complete `{!UuidTextOk} since until limit (w : World) : 1 <= limit <= 200 ->
  (forall p, p ∈ archived_files (db w.1) since until -> valid_uuid p.2) ->
  exists pages, walk_archive (length (archived_files (db w.1) since until)) since until limit None w = (Returned pages, w) /\
    concat pages = map listed (archived_files (db w.1) since until) /\
    Forall (fun page => py_len page <= limit) pages /\
    StronglySorted (key_le position_key) (archived_files (db w.1) since until) /\
    forall p, p ∈ archived_files (db w.1) since until <->
      since <= instant_of p.1 < until /\ exists r, sources (db w.1) !! p.2 = Some r /\ archived_position p.2 r = Some p.
Proof.
  intros Hlimit Hids.
  destruct (walk_archive_rest (length (archived_files (db w.1) since until)) since until limit None
    (archived_files (db w.1) since until) w Hlimit) as (pages & Hrun & Hcat & Hall); [by apply Forall_forall|by left|done|].
  exists pages. split_and!; try done; [apply order_by_sorted|]. intros p. split.
  - intros Hp. split; [|by eapply elem_of_archived_files]. unfold archived_files in Hp.
    rewrite order_by_permutation, list_elem_of_In, List.filter_In in Hp. destruct Hp as [_ Hp]. reflect_bools. lia.
  - intros [Hrange (r & Hr & Hp)]. unfold archived_files. rewrite order_by_permutation, list_elem_of_In, List.filter_In, <- list_elem_of_In.
    split; [|by rewrite andb_true_iff, Z.leb_le, Z.ltb_lt]. apply list_elem_of_omap. exists (p.2, r). by rewrite elem_of_map_to_list.
Qed.
End rebuilds.

(** ** Sample runs

    The derived tables are kept as rows, apart from the tables of staging and applying; ids are
    written in hexadecimal. *)
Abbreviation row_tables := (gmap string (list row)).
#[local] Instance sample_derived : DerivedTables (ApplyTables * row_tables) := {|
  table n d := default [] (d.2 !! n);
  put_table n l d := (d.1, <[ n := l ]> d.2)
|}.
#[local] Instance sample_derived_ok : DerivedTablesOk (ApplyTables * row_tables).
Proof.
  split; [intros n l d; simpl; by rewrite lookup_insert_eq|].
  intros n m l d Hn. simpl. by rewrite lookup_insert_ne by congruence.
Qed.

Definition hex_char (d : Z) : Z := if d <? 10 then 48 + d else 87 + d.
Definition hex_digit (c : Z) : Z := if c <? 58 then c - 48 else c - 87.
Fixpoint hex_text (n : nat) (u : Z) : pystr :=
  match n with O => [] | S n => hex_text n (u / 16) ++ [hex_char (u mod 16)] end.
Definition hex_value (l : pystr) : Z := foldl (fun a c => a * 16 + hex_digit c) 0 l.

Lemma hex_char_ok d : 0 <= d < 16 -> hex_digit (hex_char d) = d /\ 45 <= hex_char d <= 102.
Proof.
  intros Hd. unfold hex_digit, hex_char. destruct (Z.ltb_spec d 10).
  - rewrite (proj2 (Z.ltb_lt _ _)) by lia. lia.
  - rewrite (proj2 (Z.ltb_ge _ _)) by lia. lia.
Qed.
Lemma hex_text_ok n u : 0 <= u < 16 ^ Z.of_nat n ->
  hex_value (hex_text n u) = u /\ length (hex_text n u) = n /\ Forall (fun c => 45 <= c <= 102) (hex_text n u).
Proof.
  revert u. induction n as [|n IH]; intros u Hu.
  { change (16 ^ Z.of_nat 0) with 1 in Hu. split_and!; [cbn; lia|done|constructor]. }
  rewrite Nat2Z.inj_succ, Z.pow_succ_r in Hu by lia.
  destruct (IH (u / 16)) as (Hv & Hl & Hc); [split; [by apply Z.div_pos; lia|by apply Z.div_lt_upper_bound; lia]|].
  destruct (hex_char_ok (u mod 16)) as [Hd Hr]; [by apply Z.mod_pos_bound; lia|]. cbn [hex_text]. split_and!.
  - unfold hex_value in *. rewrite foldl_app. cbn [foldl]. rewrite Hv, Hd. pose proof (Z.div_mod u 16 ltac:(lia)). lia.
  - rewrite length_app, Hl. simpl. lia.
  - apply Forall_app. split; [done|]. by apply Forall_singleton.
Qed.

#[local] Instance sample_uuid_text : UuidText := {|
  uuid_str := hex_text 36;
  uuid_of c := if bool_decide (length c = 36%nat) then Some (hex_value c) else None
|}.
Lemma valid_hex u : valid_uuid u -> 0 <= u < 16 ^ Z.of_nat 36.
Proof. unfold valid_uuid. intros Hu. assert (2 ^ 128 < 16 ^ Z.of_nat 36) by (vm_compute; done). lia. Qed.
#[local] Instance sample_uuid_text_ok : UuidTextOk.
Proof.
  split; intros u Hu%valid_hex; destruct (hex_text_ok 36 u Hu) as (Hv & Hl & Hc).
  - unfold uuid_of, uuid_str, sample_uuid_text. rewrite bool_decide_eq_true_2 by done. by rewrite Hv.
  - unfold uuid_str, sample_uuid_text, py_len. by rewrite Hl.
  - done.
Qed.

(** The transports, archive and parser of [StagingSpec.v], over a world with rebuild tables. *)
Abbreviation SampleWorld := (Session_state * ((ApplyTables * row_tables) * (RebuildTables * unit)))%type.
#[local] Instance sample_archive : RawArchive SampleWorld unit unit := {|
  archive_put s n := mret (py "sha256/aa/" ++ sample_digest, 42, true);
  open_archive k := mret tt; close_archive c := mret tt; archive_verify k d := mret 42 |}.
#[local] Instance sample_downloader : Downloader SampleWorld unit := {|
  open_download rf m := mret tt; session_transferred s := mret 42;
  session_finish s n := mret sample_evidence; close_session s := mret tt |}.
#[local] Instance sample_parser : DocumentParser SampleWorld unit := {|
  parser_version := py "v1"; parse c sid d k n := mret ([], None) |}.
#[local] Instance sample_separate : SeparatePorts row_tables (RebuildTables * unit) unit unit.
Proof. split; intros; intros v w Hw; exact Hw. Qed.
#[local] Instance sample_rebuild_ports : RebuildPorts row_tables unit unit unit.
Proof. split; intros; intros w Hw; exact Hw. Qed.
#[local] Instance sample_retrying : Retrying :=
  {| retrying W A limit p body := attempts (Z.to_nat limit - 1) 1 p body |}.
#[local] Instance sample_retrying_ok : RetryingOk.
Proof. done. Qed.

(** One file was applied; its content and a price are in the tables. *)
Definition sample_row (id : Z) (value : string) : row :=
  <[ "id"%string := JInt id ]> (<[ "source_file_id"%string := JInt 1 ]>
    (<[ "applied_at"%string := JInt 100 ]> (<[ "value"%string := JString (py value) ]> ∅))).
Definition sample_rows (content price : Z) : row_tables :=
  <[ "applied_source_contents"%string := [sample_row content "content"] ]>
    (<[ "current_prices"%string := [sample_row price "price"] ]> ∅).
Definition clocked (d : Db) : Db := {| portals := portals d;
  sources := sources d; runs := runs d; events := events d; archives := archives d;
  replays := replays d; active_rebuild := active_rebuild d; rebuild_runs := rebuild_runs d;
  clock := 5000; next_id := next_id d |}.
Definition before_rebuild : SampleWorld :=
  (no_lock (clocked db_completed), ((sample_tables, sample_rows 70 80), (no_rebuilds, tt))).
Abbreviation sample_begin := (begin_rebuild (py "operator") (py "v1") before_rebuild).
Definition begun_run : uuid := 3.
Definition begun_row : RebuildRun := run_total_set 1 (new_rebuild_run (py "operator") (py "v1") 5000).
Definition begun_world : SampleWorld := sample_begin.2.

Example sample_begin_run : sample_begin.1 = Returned (begun_run, begun_row) /\
  active_rebuild (db begun_world.1) = Some begun_run /\ table "current_prices" begun_world.2.1 = [] /\
  pending_files begun_run begun_world.2.2.1 =
    [(1, {| as_source_file_id := 1; as_archived_at := Aware 1200 |})].
Proof. split_and!; vm_compute; reflexivity. Qed.
Lemma sample_begin_split : sample_begin = (Returned (begun_run, begun_row), begun_world).
Proof. unfold begun_world. rewrite <- (proj1 sample_begin_run). apply surjective_pairing. Qed.

Lemma before_rebuild_empty : no_rebuild_yet before_rebuild.
Proof. split_and!; reflexivity. Qed.
Lemma begun_world_ok : control_ok begun_world.
Proof.
  exact (proj1 (wp_returned _ _ _ _ _ _ (begin_spec (py "operator") (py "v1") before_rebuild
    (no_rebuild_yet_ok _ before_rebuild_empty)) sample_begin_split)).
Qed.
Lemma before_rebuild_keys : row_keys_unique before_rebuild.2.1.
Proof.
  intros entity columns Hin. unfold SNAPSHOT_ENTITIES in Hin.
  repeat (apply elem_of_cons in Hin as [[= -> ->]|Hin]; [apply (bool_decide_unpack _); vm_compute; exact I|]).
  by apply elem_of_nil in Hin.
Qed.

Abbreviation sample_staging :=
  (postgres_staging (Y := row_tables) (X := RebuildTables * unit) any_order sample_ids (fun _ _ _ _ => mret tt)
     (fun _ => sample_digest) sample_limits).
#[local] Instance sample_repository : IngestionRepository SampleWorld := postgres_repository sample_split sample_fold sample_staging.
#[local] Instance sample_leases : LeaseManager SampleWorld := postgres_leases zsum.
#[local] Instance sample_replays : ReplayableIngestion SampleWorld :=
  ingestion_replays (Session := unit) any_order sample_ids (fun _ _ _ _ => mret tt)
    (fun _ => sample_digest) sample_limits sample_split sample_fold zsum default_policy (py "worker") None.
Abbreviation sample_resume := (resume_rebuild_service default_maintenance_limits 5 begun_run).

Lemma no_bootstrap (b : uuid -> M SampleWorld unit) sid d0 t : None = Some b -> preserves (rebuild_spared d0 t) (b sid).
Proof. done. Qed.

Lemma sample_limits_ok : limits_ok default_maintenance_limits.
Proof. split; vm_compute; intros [=]. Qed.

Lemma rebuild_in_order_witness : limits_ok default_maintenance_limits /\
  rebuild_pages default_maintenance_limits 2 begun_run begun_world =
  (for_each (fun p =>
     result ← replay (Session := unit) (Chunks := unit) default_policy (py "worker") (as_source_file_id p.2) (Some begun_run);
     bootstrap_catalog result;;
     complete_rebuild_file begun_run p.1 p.2) (pending_files begun_run begun_world.2.2.1);;
   finish_rebuild begun_run) begun_world.
Proof.
  assert (Ha : active_rebuild (db begun_world.1) = Some begun_run) by (vm_compute; exact eq_refl).
  assert (Hr : rebuild_runs (db begun_world.1) !! begun_run = Some begun_row) by (vm_compute; exact eq_refl).
  assert (Hf : (length (pending_files begun_run begun_world.2.2.1) < 2)%nat) by (vm_compute; constructor).
  pose proof (rebuild_in_order (Session := unit) (Chunks := unit) any_order sample_ids (fun _ _ _ _ => mret tt)
    (fun _ => sample_digest) sample_limits sample_split sample_fold zsum default_policy (py "worker") None no_bootstrap
    default_maintenance_limits 2 begun_run begun_row begun_world sample_limits_ok begun_world_ok Ha Hr eq_refl Hf) as H.
  split; [exact sample_limits_ok|exact H].
Defined.



(** Applying the file again restores its rows with other ids. *)
Definition applied_again : SampleWorld :=
  (begun_world.1, ((sample_tables, sample_rows 170 180), begun_world.2.2)).
Definition checkpointed_world : SampleWorld :=
  (complete_rebuild_file begun_run 1 {| as_source_file_id := 1; as_archived_at := Aware 1200 |} applied_again).2.
Lemma checkpointed_steps : rtc maintenance_step begun_world checkpointed_world.
Proof.
  eapply rtc_l; [exact (step_else begun_world applied_again (spares_refl _) eq_refl)|].
  apply rtc_once. exact (step_complete begun_run 1 {| as_source_file_id := 1; as_archived_at := Aware 1200 |} applied_again).
Qed.
Example checkpointed_finish : exists a, (finish_rebuild begun_run checkpointed_world).1 = Returned a.
Proof. eexists. vm_compute. reflexivity. Qed.

Lemma rebuild_invariant_witness :
  exists r, rebuild_runs (db checkpointed_world.1) !! begun_run = Some r /\ 0 <= nr_completed r <= nr_total r /\
    (active_rebuild (db checkpointed_world.1) = Some begun_run <-> nr_status r <> REBUILD_COMPLETED).
Proof.
  assert (Hs : rtc maintenance_step before_rebuild checkpointed_world).
  { eapply rtc_l; [|exact checkpointed_steps]. exact (step_begin (py "operator") (py "v1") before_rebuild). }
  assert (Hr : exists r, rebuild_runs (db checkpointed_world.1) !! begun_run = Some r)
    by (eexists; vm_compute; exact eq_refl).
  destruct Hr as [r Hr].
  destruct (proj1 (rebuild_invariant before_rebuild checkpointed_world before_rebuild_empty Hs) begun_run r Hr)
    as (Hc & _ & _ & _ & _ & Ha).
  exists r. split; [exact Hr|]. split; [exact Hc|exact Ha].
Defined.

Lemma applied_before : unchanged_files (py "v1")
  (eligible_files (db before_rebuild.1) before_rebuild.2.1 (clock (db before_rebuild.1))).
Proof.
  assert (Hl : exists f, eligible_files (db before_rebuild.1) before_rebuild.2.1 (clock (db before_rebuild.1)) = [f] /\
    nf_original_applied f = Some 100 /\ nf_original_version f = Some (py "v1"))
    by (eexists; split_and!; vm_compute; reflexivity).
  destruct Hl as (f & -> & Ha & Hv). intros g ->%list_elem_of_singleton. rewrite Ha. done.
Qed.

Lemma rebuild_restores_witness : exists a w3, finish_rebuild begun_run checkpointed_world = (Returned a, w3) /\
  active_rebuild (db w3.1) = None /\
  table "current_prices" w3.2.1 ≡ₚ [sample_row 80 "price"].
Proof.
  pose proof (rebuild_restores (py "operator") (py "v1") before_rebuild begun_run begun_row begun_world checkpointed_world
    (no_rebuild_yet_ok _ before_rebuild_empty) before_rebuild_keys sample_begin_split checkpointed_steps) as H.
  destruct checkpointed_finish as [a Ha].
  destruct (finish_rebuild begun_run checkpointed_world) as [o w3] eqn:E. simpl in Ha. subst o.
  exists a, w3. split; [exact eq_refl|]. destruct H as (_ & _ & Hactive & Hrows). split; [exact Hactive|].
  assert (Hin : ("current_prices"%string, ["id"%string]) ∈ SNAPSHOT_ENTITIES) by (apply (bool_decide_unpack _); vm_compute; exact I).
  exact (Hrows applied_before "current_prices"%string ["id"%string] Hin).
Defined.

Definition rebuilt_rows : ApplyTables * row_tables := (sample_tables, sample_rows 170 180).
Lemma stable_ids_restored_witness : exists x',
  reuse_ids_by_payload begun_run "current_prices" ["id"%string] (original_snapshots begun_world.2.2.1) rebuilt_rows
    = (Returned tt, x') /\
  table "current_prices" x' ≡ₚ [sample_row 80 "price"].
Proof.
  assert (Ho : snapshots_of begun_run "current_prices" (original_snapshots begun_world.2.2.1) = [sample_row 80 "price"])
    by (vm_compute; exact eq_refl).
  assert (Hs : same_but_ids (snapshots_of begun_run "current_prices" (original_snapshots begun_world.2.2.1))
    (table "current_prices" rebuilt_rows)).
  { rewrite Ho. change (table "current_prices" rebuilt_rows) with [sample_row 180 "price"]. split.
    - repeat constructor; eexists; vm_compute; reflexivity.
    - assert (E : map bare [sample_row 180 "price"] = map bare [sample_row 80 "price"]) by (vm_compute; exact eq_refl).
      rewrite E. exact (Permutation_refl _).
    - apply NoDup_singleton.
    - intros l o ->%list_elem_of_singleton ->%list_elem_of_singleton Hid. exfalso.
      vm_compute in Hid. discriminate Hid. }
  assert (Hn : NoDup (map row_id (snapshots_of begun_run "current_prices" (original_snapshots begun_world.2.2.1))))
    by (rewrite Ho; apply NoDup_singleton).
  destruct (stable_ids_restored begun_run "current_prices" _ rebuilt_rows Hs Hn) as (x' & Hrun & Hp & _).
  exists x'. split; [exact Hrun|]. rewrite Ho in Hp. exact Hp.
Defined.

Lemma archive_pages_complete_witness : exists pages,
  walk_archive 1 0 10000 1 None before_rebuild = (Returned pages, before_rebuild) /\
  concat pages = [{| as_source_file_id := 1; as_archived_at := Aware 1200 |}].
Proof.
  assert (Hl : archived_files (db before_rebuild.1) 0 10000 = [(Aware 1200, 1)]) by (vm_compute; exact eq_refl).
  assert (Hv : forall p, p ∈ archived_files (db before_rebuild.1) 0 10000 -> valid_uuid p.2).
  { rewrite Hl. intros p ->%list_elem_of_singleton. split; vm_compute; [intros [=]|exact eq_refl]. }
  assert (H1 : 1 <= 1 <= 200) by (split; vm_compute; intros [=]).
  destruct (archive_pages_complete 0 10000 1 before_rebuild H1 Hv) as (pages & Hrun & Hcat & _).
  rewrite Hl in Hrun, Hcat. exists pages. split; [exact Hrun|exact Hcat].
Defined.
