(* ===== verification/CatalogReviewSpec.v ===== *)
(** The properties of catalog matching: how candidates are scored, and what a review and exact
    matching by GTIN can do to the tables, with the runs that witness them. *)
From Stdlib Require Import QArith Qabs.
From stdpp Require Import sorting.
From S2P Require Import Prelude Errors Effects Enums PyNumbers Text Models SourceValues Decimals Rebuild RebuildFacts Maintenance CatalogMatching CatalogMatchingFacts CatalogReview CatalogReviewFacts ExactGtins ExactGtinsFacts XmlSpec MaintenanceSpec.
Open Scope Z_scope.

(** ** The pages of a file *)

Lemma split_keys {A} (U : list (uuid * A)) k i r : NoDup (map fst U) ->
  (i, r) ∈ drop k U <-> (i, r) ∈ U /\ i ∉ map fst (take k U).
Proof.
  intros Hnd. rewrite <- (take_drop k U) in Hnd. rewrite map_app in Hnd. apply NoDup_app in Hnd as (_ & Hdis & _). split.
  - intros Hi. split; [rewrite <- (take_drop k U); set_solver|]. intros Hk. apply (Hdis i Hk). apply list_elem_of_fmap. by exists (i, r).
  - intros [Hi Hk]. rewrite <- (take_drop k U) in Hi. apply elem_of_app in Hi as [Hi|Hi]; [|done]. exfalso. apply Hk.
    apply list_elem_of_fmap. by exists (i, r).
Qed.

Lemma unmatched_ext source t c d :
  (forall i r, mt_items t !! i = Some r -> sj_source_file r = source -> mt_matches t !! i = None -> beyond c i = beyond d i) ->
  unmatched source t c = unmatched source t d.
Proof.
  intros Hcd. unfold unmatched. f_equal. apply filter_ext_in. intros [i r] Hi. apply list_elem_of_In, elem_of_map_to_list in Hi.
  cbn. unfold unmatched_of. cbn. destruct (bool_decide (sj_source_file r = source)) eqn:E1; [|done].
  destruct (bool_decide (mt_matches t !! i = None)) eqn:E2; [|done]. cbn. apply bool_decide_eq_true in E1, E2. by apply (Hcd i r).
Qed.

(** What is left of a file after a page. *)
Lemma page_rest source t t' : page_done source None t t' ->
  unmatched source t' None ≡ₚ drop BOOTSTRAP_BATCH_SIZE (unmatched source t None).
Proof.
  intros [(_ & _ & Happ) Hm]. pose proof (ap_items _ _ Happ) as Hitems. apply NoDup_Permutation.
  - eapply NoDup_fmap_1, NoDup_unmatched.
  - eapply sublist_NoDup; [eapply NoDup_fmap_1, NoDup_unmatched|apply sublist_drop].
  - intros [i r]. rewrite split_keys by apply NoDup_unmatched. rewrite !elem_of_unmatched, Hitems. specialize (Hm i).
    rewrite <- !not_eq_None_Some in Hm. destruct (mt_matches t' !! i); destruct (mt_matches t !! i); naive_solver.
Qed.
Lemma rest_beyond source t k p i r : last (take k (unmatched source t None)) = Some p -> (i, r) ∈ drop k (unmatched source t None) ->
  beyond (Some p.1) i = true.
Proof.
  intros Hp Hi. set (U := unmatched source t None) in *. cbn. apply Z.ltb_lt.
  pose proof (order_by_sorted (fun p : uuid * SubjectRow => (p.1, 0))
    (List.filter (fun p => unmatched_of source t p && beyond None p.1) (map_to_list (mt_items t)))) as Hsort.
  change (StronglySorted (key_le (fun p : uuid * SubjectRow => (p.1, 0))) U) in Hsort.
  assert (Hpt : p ∈ take k U) by (apply last_Some in Hp as [l ->]; set_solver).
  assert (Hne : p.1 <> i).
  { intros E. apply (split_keys U k i r (NoDup_unmatched source t None)) in Hi as [_ Hi]. apply Hi. apply list_elem_of_fmap. exists p. done. }
  rewrite <- (take_drop k U) in Hsort. apply StronglySorted_app_1_elem_of with (x1 := p) (x2 := (i, r)) in Hsort; [|done..].
  unfold key_le, pair_key_leb in Hsort. cbn in Hsort. rewrite orb_true_iff, andb_true_iff, Z.ltb_lt, Z.eqb_eq in Hsort. lia.
Qed.

Definition file_matched (source : uuid) (t t' : MatchTables) : Prop :=
  evolves t t' /\ forall i, is_Some (mt_matches t' !! i) <->
    is_Some (mt_matches t !! i) \/ exists r, mt_items t !! i = Some r /\ sj_source_file r = source.

Lemma pages_wp fuel source cursor b t : review_ok t ->
  (forall i r, mt_items t !! i = Some r -> sj_source_file r = source -> mt_matches t !! i = None -> beyond cursor i = true) ->
  (length (unmatched source t None) < BOOTSTRAP_BATCH_SIZE * fuel)%nat ->
  wp (bootstrap_pages fuel source cursor b) (fun n t' => file_matched source t t' /\ n = b + py_len (unmatched source t None))
    (fun _ _ => False) t.
Proof.
  revert cursor b t. induction fuel as [|fuel IH]; intros cursor b t Ht Hcur Hf; [lia|]. cbn [bootstrap_pages]. wp_step.
  eapply wp_mono; [by apply bootstrap_page_wp| |done]. rewrite (unmatched_ext source t cursor None) by (intros; by erewrite Hcur).
  set (U := unmatched source t None) in *.
  assert (Hmatch : forall t', page_done source cursor t t' -> page_done source None t t').
  { intros t' [He Hm]. split; [done|]. rewrite (unmatched_ext source t cursor None) in Hm by (intros; by erewrite Hcur). done. }
  assert (Hlast : forall t', page_done source None t t' -> drop BOOTSTRAP_BATCH_SIZE U = [] -> file_matched source t t').
  { intros t' Hd Hdrop. split; [apply Hd|]. intros i. rewrite (pd_matched Hd). fold U.
    rewrite (take_ge U) by (apply (f_equal length) in Hdrop; rewrite length_drop in Hdrop; cbn in Hdrop; lia).
    split; (intros [?|Hi]; [by left|]).
    - apply list_elem_of_fmap in Hi as ([j r] & -> & (? & ? & _)%elem_of_unmatched). right. eauto.
    - destruct Hi as (r & Hi & Hr). destruct (mt_matches t !! i) eqn:E; [left; eauto|right]. apply list_elem_of_fmap. exists (i, r).
      split; [done|]. by apply elem_of_unmatched. }
  intros [[[n c] more]|] t' [Hd%Hmatch Hr].
  - destruct Hr as (-> & -> & ->). destruct (_ <? _)%nat eqn:Hmore.
    + apply Nat.ltb_lt in Hmore. pose proof (page_rest _ _ _ Hd) as Hrest. fold U in Hrest.
      eapply wp_mono; [apply IH| |done].
      * apply Hd.
      * intros i r Hi Hr Hn. assert (Hin : (i, r) ∈ unmatched source t' None) by (by apply elem_of_unmatched).
        rewrite Hrest in Hin. destruct (last (take _ U)) as [p|] eqn:Ep; [by eapply rest_beyond|done].
      * rewrite Hrest, length_drop. lia.
      * intros n t'' [[He Hall] ->]. split.
        -- split; [eapply evolves_trans; [apply Hd|done]|]. intros i. rewrite Hall, (pd_matched Hd), (ap_items _ _ (proj2 (proj2 (pd_evolves Hd)))).
           fold U. split; [|naive_solver]. intros [[?|Hi]|?]; [by left| |by right]. right.
           apply list_elem_of_fmap in Hi as ([j r] & -> & Hi%elem_of_taken). apply elem_of_unmatched in Hi as (? & ? & _). eauto.
        -- unfold py_len. rewrite Hrest, length_drop, length_take. lia.
    + apply Nat.ltb_ge in Hmore. wp_step. split; [apply Hlast; [done|by apply drop_ge]|]. unfold py_len. rewrite length_take. lia.
  - wp_step. split; [apply Hlast; [done|by rewrite Hr]|]. rewrite Hr. unfold py_len. cbn. lia.
Qed.

(** ** Generated candidates *)

Section generated.
Context {W : Type} `{!UuidText}.
Implicit Types w : W.

Lemma generate_run s l n t w : generate_match_candidates s l n t w =
  ((if (n <=? 0) || (n <? py_len l) then Raised (MakoletExn QueryLimitError 0)
    else if negb (is_finite t) then Raised (match t with NotANumber => arithmetic_error | _ => validation_error end)
    else if dec_leb dec_zero t && dec_leb t dec_1 then Returned (merge_sort ranked_before (omap (match_of s t) (others s l)))
    else Raised validation_error), w).
Proof.
  unfold generate_match_candidates. cbv [mbind M_bind raise_if raise mret M_ret]. destruct (n <=? 0); [done|].
  destruct (n <? py_len l); [done|]. rewrite check_threshold_spec.
  destruct (is_finite t) eqn:Ht; [|by destruct t]. cbn [orb negb]. destruct (_ && _); [|done]. by rewrite compare_all_matches.
Qed.
Lemma generate_returned s l n t w r w' : generate_match_candidates s l n t w = (Returned r, w') ->
  is_finite t = true /\ w' = w /\ r = merge_sort ranked_before (omap (match_of s t) (others s l)) /\ py_len l <= n.
Proof.
  rewrite generate_run. destruct (n <=? 0) eqn:E1; [done|]. destruct (n <? py_len l) eqn:E2; [done|]. cbn.
  destruct (is_finite t) eqn:Ht; [|done]. cbn. destruct (_ && _); [|done]. intros [= <- <-]. split_and!; try done. lia.
Qed.
Lemma elem_of_others s l c : c ∈ others s l <-> c ∈ l /\ pd_item c <> pd_item s.
Proof. unfold others. rewrite !list_elem_of_In, List.filter_In, negb_true_iff, bool_decide_eq_false. done. Qed.
Lemma same_gtin_dec l r : {same_gtin l r} + {~ same_gtin l r}.
Proof. destruct (shared_identifier l r GTIN) as [v|] eqn:E; [left; exists v; by apply shared_gtin_some|right; by apply shared_gtin_none]. Qed.

Lemma match_of_candidate s t c m : is_finite t = true -> match_of s t c = Some m -> mc_candidate m = pd_item c /\ mc_subject m = pd_item s.
Proof.
  intros Ht Hm. destruct (same_gtin_dec (pd_described s) (pd_described c)) as [Hg|Hg].
  - apply (match_of_gtin s t c) in Hg as (v & _ & _ & E). rewrite E in Hm. by injection Hm as <-.
  - by destruct (match_of_review s t c m Hg Ht Hm) as (? & ? & _).
Qed.

(** C39: An item is proposed for automatic confirmation exactly when an item of another retailer
    carries the same GTIN, with confidence one: [generate_match_candidates] confirms nothing on
    a name, on an identifier of another kind or inside one retailer, and misses no such item of
    the block. *)
Theorem auto_confirm_sound s l n t w r w' : generate_match_candidates s l n t w = (Returned r, w') ->
  (forall m, m ∈ r -> mc_disposition m = AUTO_CONFIRM -> exists c v, c ∈ l /\ pd_item c = mc_candidate m /\
     pd_item c <> pd_item s /\ pd_retailer c <> pd_retailer s /\ mc_rule m = EXACT_GTIN /\
     carries (pd_described s) GTIN v /\ carries (pd_described c) GTIN v /\ (dec_Q (mc_confidence m) == 1)%Q) /\
  (forall c, c ∈ l -> pd_item c <> pd_item s -> pd_retailer c <> pd_retailer s -> same_gtin (pd_described s) (pd_described c) ->
     exists m, m ∈ r /\ mc_candidate m = pd_item c /\ mc_disposition m = AUTO_CONFIRM).
Proof.
  intros (Ht & _ & -> & _)%generate_returned. setoid_rewrite merge_sort_Permutation. setoid_rewrite list_elem_of_omap. split.
  - intros m (c & [Hc Hne]%elem_of_others & Hm) Hauto. destruct (same_gtin_dec (pd_described s) (pd_described c)) as [Hg|Hg].
    + apply (match_of_gtin s t c) in Hg as (v & H1 & H2 & E). rewrite E in Hm. injection Hm as <-. cbn in *.
      destruct (decide (pd_retailer s = pd_retailer c)) as [?|Hr]; [by rewrite bool_decide_true in Hauto|].
      exists c, v. rewrite bool_decide_false by done. split_and!; try done; congruence.
    + destruct (match_of_review s t c m Hg Ht Hm) as (_ & _ & E & _). congruence.
  - intros c Hc Hne Hr Hg. destruct (match_of_gtin s t c Hg) as (v & _ & _ & E). rewrite bool_decide_false in E by congruence.
    eexists. split; [exists c; split; [by apply elem_of_others|exact E]|done].
Qed.

(** The candidates of an item are ranked the same whatever order the block was read in, are at
    most the limit, each a different item, in falling confidence with ties by the text of the id;
    a block over the limit or a threshold outside zero to one is refused. *)
Theorem candidates_ranked `{!UuidTextOk} s l k n t w : l ≡ₚ k -> NoDup (map pd_item l) ->
  (forall c, c ∈ l -> valid_uuid (pd_item c)) ->
  generate_match_candidates s k n t w = generate_match_candidates s l n t w /\
  match generate_match_candidates s l n t w with
  | (Returned r, w') => w' = w /\ py_len r <= n /\ NoDup (map mc_candidate r) /\ StronglySorted ranked_before r /\
      (forall m, m ∈ r -> mc_subject m = pd_item s /\ mc_candidate m ∈ map pd_item l /\ mc_candidate m <> pd_item s)
  | (Raised e, w') => w' = w /\ (n <= 0 \/ n < py_len l \/ dec_leb dec_zero t && dec_leb t dec_1 = false \/ is_finite t = false)
  end.
Proof.
  intros Hp Hnd Hv.
  assert (Hothers : others s l ≡ₚ others s k).
  { unfold others. clear -Hp. induction Hp as [|x l k _ IH|x y l|l k j _ IH1 _ IH2]; cbn; [done|..].
    - destruct (negb _); [by apply Permutation_skip|done].
    - destruct (negb (bool_decide (pd_item x = _))), (negb (bool_decide (pd_item y = _))); try done. apply Permutation_swap.
    - by etrans. }
  assert (Hsub : is_finite t = true -> map mc_candidate (omap (match_of s t) (others s l)) `sublist_of` map pd_item l).
  { intros Ht. unfold others. clear Hp Hothers Hnd Hv. induction l as [|c l IH]; cbn; [done|].
    destruct (bool_decide (pd_item c = pd_item s)); cbn; [by apply sublist_cons|].
    destruct (match_of s t c) as [m|] eqn:Em; cbn; [|by apply sublist_cons].
    apply (match_of_candidate s t c m Ht) in Em as [-> _]. by apply sublist_skip. }
  assert (Hel : is_finite t = true -> forall m, m ∈ omap (match_of s t) (others s l) ->
     mc_subject m = pd_item s /\ mc_candidate m ∈ map pd_item l /\ mc_candidate m <> pd_item s).
  { intros Ht m (c & [Hc Hne]%elem_of_others & Em)%list_elem_of_omap. apply (match_of_candidate s t c m Ht) in Em as [-> ->].
    split_and!; [done| |done]. apply list_elem_of_fmap. eauto. }
  rewrite !generate_run. assert (Hlen : py_len k = py_len l) by (unfold py_len; by rewrite Hp). rewrite Hlen. split.
  - destruct (_ || _); [done|]. destruct (is_finite t) eqn:Ht; [|done]. cbn. destruct (_ && _); [|done].
    do 2 f_equal. symmetry. apply ranked_unique.
    + by rewrite Hothers.
    + eapply sublist_NoDup; [exact Hnd|by apply Hsub].
    + intros m Hm. destruct (Hel eq_refl m Hm) as (_ & Hin & _). apply list_elem_of_fmap in Hin as (c & -> & Hc). by apply Hv.
  - destruct ((n <=? 0) || (n <? py_len l)) eqn:En.
    { split; [done|]. apply orb_true_iff in En as [?%Z.leb_le|?%Z.ltb_lt]; auto. }
    destruct (is_finite t) eqn:Ht; cbn [negb]; [|by auto]. destruct (dec_leb dec_zero t && dec_leb t dec_1); [|by auto].
    apply orb_false_iff in En as [_ En%Z.ltb_ge]. split_and!; [done|..].
    + unfold py_len in *. rewrite merge_sort_Permutation. pose proof (sublist_length _ _ (Hsub eq_refl)) as Hle. rewrite !length_map in Hle. lia.
    + rewrite merge_sort_Permutation. eapply sublist_NoDup; [exact Hnd|by apply Hsub].
    + apply StronglySorted_merge_sort; apply _.
    + intros m Hm. rewrite merge_sort_Permutation in Hm. by apply Hel.
Qed.

(** C40: Between two descriptors that share no identifier, the confidence of a structured candidate
    is a finite number from 0 to 0.99 within 0.00051 of the exact weighted score (40 for the
    names, 20 brand, 15 manufacturer, 20 quantity, 5 packaging, less 25 for conflicting GTINs,
    capped at 99 hundredths) in spite of every rounding, and it is proposed for review exactly
    when it reaches the threshold; neither comparison raises. *)
Theorem confidence_exact s c p t w : is_finite t = true ->
  shared_identifier (pd_described s) (pd_described c) GTIN = None ->
  shared_non_gtin_identifier (pd_described s) (pd_described c) = None ->
  exists x e, (0 <= dec_Q x <= 99 # 100)%Q /\
    (Qabs (dec_Q x - exact_confidence (pd_described s) (pd_described c)) <= 51 # 100000)%Q /\
    let answer i := if dec_leb t x then Some {| mc_subject := pd_item s; mc_candidate := i; mc_rule := STRUCTURED_CANDIDATE;
      mc_disposition := REVIEW; mc_confidence := x; mc_explanations := e |} else None in
    compare_products s c t w = (Returned (answer (pd_item c)), w) /\
    (dec_leb dec_zero t && dec_leb t dec_1 = true ->
     score_catalog_candidate s {| cd_product := p; cd_described := pd_described c |} t w = (Returned (answer p), w)).
Proof.
  intros Ht Hg Hi. destruct (structured_candidate_spec (pd_described s) (pd_described c) t w Ht) as (x & e & (Hf & Hx & Hc) & E).
  exists x, e. split; [exact Hx|]. split; [exact Hc|]. intros answer. split.
  - unfold compare_products. rewrite Hg, Hi. apply E.
  - intros Hr. unfold score_catalog_candidate. cbv [mbind M_bind]. cbn [cd_described cd_product]. rewrite check_threshold_spec, Ht, Hr, Hg, Hi. apply E.
Qed.
End generated.

(** ** Reviews *)

Definition set_clock now (t : MatchTables) : MatchTables := {| mt_items := mt_items t; mt_products := mt_products t;
  mt_matches := mt_matches t; mt_candidates := mt_candidates t; mt_identifiers := mt_identifiers t;
  mt_assertions := mt_assertions t; mt_groups := mt_groups t; mt_next_id := mt_next_id t; mt_clock := now |}.
Definition empty_catalog : MatchTables := {| mt_items := ∅; mt_products := ∅; mt_matches := ∅; mt_candidates := ∅;
  mt_identifiers := ∅; mt_assertions := ∅; mt_groups := ∅; mt_next_id := 0; mt_clock := 0 |}.

Section review.
Context `{Unicode} `{WordCharacters} `{UuidText} `{Trigrams}.
Variable collate : pystr -> pystr -> bool.
Variable limits : CatalogMatchingLimits.
Variable fuel : nat.
#[local] Instance review_repository : CatalogMatchingRepository MatchTables := postgres_matching collate fuel.

(** What happens to the tables: ingestion adds items, changes what they say and matches those of a
    file by GTIN, the clock moves, and the operations of [CatalogMatchingService] run, to whatever
    end. *)
Inductive review_step : MatchTables -> MatchTables -> Prop :=
  | ItemAdded i s t : mt_items t !! i = None -> (forall j r, mt_items t !! j = Some r -> item_key r <> item_key s) ->
      review_step t (set_items (insert i s) t)
  | ItemChanged i s s' t : mt_items t !! i = Some s -> item_key s' = item_key s -> review_step t (set_items (insert i s') t)
  | GtinsMatched source retailer portal codes at_ t :
      review_step t (transaction (match_exact_gtins collate source retailer portal codes at_) t).2
  | ClockMoved now t : review_step t (set_clock now t)
  | Bootstrapped source t : review_step t (service_bootstrap source t).2
  | Generated cursor item_limit candidate_limit threshold t :
      review_step t (service_generate limits cursor item_limit candidate_limit threshold t).2
  | CandidateAccepted candidate reviewed_by t : review_step t (service_accept limits candidate reviewed_by t).2
  | CandidateRejected candidate reviewed_by t : review_step t (service_reject limits candidate reviewed_by t).2.

Definition catalog_ok (t : MatchTables) : Prop := review_ok t /\ gtin_ok t.
Definition goes_on (t t' : MatchTables) : Prop := catalog_ok t' /\ lasting t t'.
Lemma goes_on_trans t u v : goes_on t u -> goes_on u v -> goes_on t v.
Proof. intros [_ H3] [Hv H4]. split; [done|by etrans]. Qed.
Lemma evolves_goes_on t t' : catalog_ok t -> evolves t t' -> goes_on t t'.
Proof. intros [_ Hg] (Ht & Hl & Ha). split; [|done]. split; [done|by eapply gtin_ok_apart]. Qed.

(** An operation that refuses its arguments, or runs to its end. *)
Lemma wp_goes_on {A} (m : M MatchTables A) t : catalog_ok t ->
  wp m (fun _ t' => evolves t t') (fun _ t' => evolves t t') t -> goes_on t (m t).2.
Proof. intros Ht Hm. apply evolves_goes_on; [done|]. unfold wp in Hm. by destruct (m t) as [[a|e] t']. Qed.
Lemma wp_checked {A B} (m : M MatchTables A) (f : A -> M MatchTables B) t : review_ok t -> read_only m ->
  (forall a, wp (f a) (fun _ t' => evolves t t') (fun _ t' => evolves t t') t) ->
  wp (m ≫= f) (fun _ t' => evolves t t') (fun _ t' => evolves t t') t.
Proof.
  intros Ht Hm Hf. specialize (Hm t). wp_step. unfold wp. destruct (m t) as [[a|e] t']; cbn in Hm; subst; [apply Hf|by split].
Qed.

Lemma read_only_wp {W A} (m : M W A) : (forall w, wp m (fun _ w' => w' = w) (fun _ w' => w' = w) w) -> read_only m.
Proof. intros Hm w. specialize (Hm w). unfold wp in Hm. by destruct (m w) as [[a|e] w']. Qed.
Lemma threshold_reads (v : threshold_value) : read_only (threshold_of (W := MatchTables) v).
Proof.
  apply read_only_wp. intros w. unfold threshold_of. destruct (match v with ThresholdDecimal d => _ | ThresholdText s => _ end) as [d|]; [|by wp_step].
  wp_step. unfold wp. rewrite check_threshold_spec. destruct (is_finite d); [destruct (_ && _)|destruct d]; done.
Qed.
Lemma cursor_reads (c : option pystr) : read_only (catalog_cursor (W := MatchTables) c).
Proof.
  apply read_only_wp. intros w. unfold catalog_cursor, cleaned_cursor. repeat (wp_step; try done).
Qed.
Lemma bounded_reads (v : option Z) d m : read_only (bounded (W := MatchTables) v d m).
Proof. apply read_only_wp. intros w. unfold bounded. by repeat (wp_step; try done). Qed.
Lemma reviewer_reads v : read_only (reviewer (W := MatchTables) limits v).
Proof. apply read_only_wp. intros w. unfold reviewer. by repeat (wp_step; try done). Qed.

Lemma pages_evolve k source cursor b t : review_ok t ->
  wp (bootstrap_pages k source cursor b) (fun _ t' => evolves t t') (fun _ t' => evolves t t') t.
Proof.
  revert cursor b t. induction k as [|k IH]; intros cursor b t Ht; cbn [bootstrap_pages]; wp_step; [by split|].
  eapply wp_mono; [by apply bootstrap_page_wp| |done]. intros r t' [Hd _].
  destruct r as [[[n c] []]|]; [|wp_step; apply Hd..]. eapply wp_mono; [apply IH, Hd|..]; intros ? v Hv; (eapply evolves_trans; [apply Hd|done]).
Qed.

Lemma items_ok i s t : review_ok t -> (mt_items t !! i = None \/ exists r, mt_items t !! i = Some r /\ item_key s = item_key r) ->
  (forall j r, j <> i -> mt_items t !! j = Some r -> item_key r <> item_key s) -> review_ok (set_items (insert i s) t).
Proof.
  intros [H1' H2' H3' H4' H5' H6' H7' H8' H9' H10'] Hi Hs. split; try done; cbn.
  - intros j k r q Hr Hq E. apply lookup_insert_Some in Hr as [[<- <-]|[Hne Hr]], Hq as [[<- <-]|[Hne' Hq]]; [done|..].
    + by destruct (Hs k q).
    + by destruct (Hs j r).
    + by eapply H1'.
  - intros j m Hm. destruct (H2' j m Hm) as (? & ? & ?). split_and!; [|done|done].
    destruct (decide (i = j)) as [<-|Hne]; [rewrite lookup_insert_eq; eauto|by rewrite lookup_insert_ne].
  - intros j r Hr Hk. destruct (H9' j r Hr Hk) as (k & q & m & Hq & E & ?). destruct (decide (i = k)) as [<-|Hne].
    + destruct Hi as [?|(q' & Hq' & Eq)]; [congruence|]. exists i, s, m. cbn. rewrite lookup_insert_eq. split; [done|]. split; [congruence|done].
    + exists k, q, m. cbn. by rewrite lookup_insert_ne.
Qed.
Lemma sellers_kept i s t : (mt_items t !! i = None \/ exists r, mt_items t !! i = Some r /\ item_key s = item_key r) ->
  same_sellers t (set_items (insert i s) t).
Proof.
  intros Hi j r Hr. cbn. destruct (decide (i = j)) as [<-|Hne]; [|rewrite lookup_insert_ne by done; eauto].
  rewrite lookup_insert_eq. destruct Hi as [?|(q & Hq & E)]; [congruence|]. exists s. injection E as E1 E2 E3. split; [done|]. by simplify_eq.
Qed.
Lemma changed_items i s t : catalog_ok t -> (mt_items t !! i = None \/ exists r, mt_items t !! i = Some r /\ item_key s = item_key r) ->
  (forall j r, j <> i -> mt_items t !! j = Some r -> item_key r <> item_key s) -> goes_on t (set_items (insert i s) t).
Proof.
  intros [Ht Hg] Hi Hs. split; [split; [by apply items_ok|]|by split; eauto].
  by apply (gtin_ok_items t); [done|apply sellers_kept|..].
Qed.

Lemma step_goes_on t t' : catalog_ok t -> review_step t t' -> goes_on t t'.
Proof.
  intros Hcat Hstep. pose proof Hcat as [Ht Hg]. revert Hcat Ht Hg.
  destruct Hstep as [i s u Hi Hs|i s s' u Hi Hs|source r p codes at_ u|now u|source u|cursor k n th u|k w u|k w u]; intros Hcat Ht Hg.
  - apply changed_items; [done|by left|]. intros j r _ Hr. by apply (Hs j).
  - apply changed_items; [done|right; eauto|]. intros j r Hne Hr E. apply Hne. eapply (rv_items u Ht); [done..|congruence].
  - pose proof (match_exact_wp collate source r p codes at_ u Ht Hg) as Hwp. unfold wp, transaction in *.
    destruct (match_exact_gtins _ _ _ _ _ _ u) as [[[]|e] v]; [|by split]. by destruct Hwp as [[? ?] ? _ _ _ _].
  - split; [split; [by destruct Ht; split|by apply (gtin_ok_items u); try done; intros i s Hi; eauto]|by split; eauto].
  - apply wp_goes_on; [done|]. by apply pages_evolve.
  - apply wp_goes_on; [done|]. unfold service_generate. apply wp_checked; [done|apply threshold_reads|]. intros d.
    apply wp_checked; [done|apply cursor_reads|]. intros c. apply wp_checked; [done|apply bounded_reads|]. intros a.
    apply wp_checked; [done|apply bounded_reads|]. intros b. by apply generate_evolves.
  - apply wp_goes_on; [done|]. apply wp_checked; [done|apply reviewer_reads|]. intros r. by apply accept_evolves.
  - apply wp_goes_on; [done|]. apply wp_checked; [done|apply reviewer_reads|]. intros r. by apply reject_evolves.
Qed.
Lemma steps_go_on t t' : catalog_ok t -> rtc review_step t t' -> goes_on t t'.
Proof.
  intros Ht Hs. induction Hs as [|t u v H1' _ IH]; [by split|]. apply step_goes_on in H1'; [|done].
  eapply goes_on_trans; [exact H1'|]. apply IH, H1'.
Qed.
Lemma empty_ok : catalog_ok empty_catalog.
Proof.
  split; split; try done.
  - split_and!; intros p [? Hp]; done.
  - intros g r p. split; [by intros (q & j & Hj)|by intros (j & a & s & Hj & _)].
  - intros g. split; [by intros (q & j & Hj)|by intros (x & y & x' & y' & _ & (j & a & s & Hj & _) & _)].
Qed.
Definition reachable_catalog (t : MatchTables) : Prop := rtc review_step empty_catalog t.
Lemma reachable_ok t : reachable_catalog t -> catalog_ok t.
Proof. intros Ht. apply (steps_go_on empty_catalog t empty_ok Ht). Qed.

(** C34: In every reachable catalog each matched item is an item with an active product, a pending
    candidate offers an active product, and one that scoring proposed another product than the one
    its item is alone in; an item has at most one accepted candidate and is matched by its review,
    scores are from zero to one and only ever for review, no candidate is kept twice, and the
    identifier of an item is of the product it is matched with. *)
Theorem review_invariant t : reachable_catalog t ->
  (forall i m, mt_matches t !! i = Some m -> is_Some (mt_items t !! i) /\ is_active t (ma_product m) = true) /\
  (forall j c, mt_candidates t !! j = Some c -> ca_status c = PENDING -> is_active t (ca_product c) = true /\
     forall r, ca_method c = ByRule r -> exists m, mt_matches t !! ca_item c = Some m /\ ma_method m = ISOLATED_METHOD /\ ma_product m <> ca_product c) /\
  (forall j c, mt_candidates t !! j = Some c -> ca_status c = ACCEPTED ->
     (exists m, mt_matches t !! ca_item c = Some m /\ ma_method m = "manual_review"%string /\ ma_product m = ca_product c /\
                Some (ma_confirmed_by m) = ca_reviewed_by c) /\
     forall k d, mt_candidates t !! k = Some d -> ca_status d = ACCEPTED -> ca_item d = ca_item c -> k = j) /\
  (forall j c, mt_candidates t !! j = Some c -> (0 <= dec_Q (ca_score c) <= 1)%Q /\
     (forall e, ca_evidence c = Scored e -> ev_disposition e = REVIEW) /\
     forall k d, mt_candidates t !! k = Some d -> candidate_key d = candidate_key c -> k = j) /\
  (forall j r i s m, mt_identifiers t !! j = Some r -> mt_items t !! i = Some s -> identifier_key r = item_key s ->
     mt_matches t !! i = Some m -> ir_product r = ma_product m).
Proof.
  intros [Ht _]%reachable_ok. split_and!.
  - intros i m Hm. by destruct (rv_matches t Ht i m Hm) as (? & ? & _).
  - exact (rv_pending t Ht).
  - intros j c Hc Ha. destruct (rv_accepted t Ht j c Hc Ha) as (m & Hm & Hman & Hp & [old He] & Hr). split; [eauto|].
    intros k d Hd Had Hi. destruct (rv_accepted t Ht k d Hd Had) as (m' & Hm' & _ & _ & [old' He'] & _). rewrite Hi, Hm in Hm'. injection Hm' as <-.
    rewrite He in He'. by injection He'.
  - intros j c Hc. destruct (rv_scores t Ht j c Hc) as [[_ Hs] Hd]. split_and!; [apply Hs|apply Hs|done|].
    intros k d Hkd E. by eapply (rv_keys t Ht).
  - intros j r i s m. by apply identified.
Qed.

(** C36: A decision is final: whatever happens later, exact matching included, an accepted, rejected
    or superseded candidate stays as it is, a reviewed match is never replaced or withdrawn, an item
    that is matched with a product of its own or by a review stays matched so, and no candidate is
    lost or changes its item, product or rule. *)
Theorem decisions_final t t' : reachable_catalog t -> rtc review_step t t' ->
  (forall j c, mt_candidates t !! j = Some c -> ca_status c <> PENDING -> mt_candidates t' !! j = Some c) /\
  (forall i m, mt_matches t !! i = Some m -> ma_method m = "manual_review"%string -> mt_matches t' !! i = Some m) /\
  (forall i m, mt_matches t !! i = Some m -> settled_match m -> exists m', mt_matches t' !! i = Some m' /\ settled_match m') /\
  (forall j c, mt_candidates t !! j = Some c -> exists c', mt_candidates t' !! j = Some c' /\ candidate_key c' = candidate_key c).
Proof. intros Ht%reachable_ok Hs. destruct (steps_go_on t t' Ht Hs) as [_ [L1 L2 L3 L4]]. eauto. Qed.

(** C35: A pending candidate that scoring proposed can always be accepted by a named reviewer: its
    item is matched with its product by that review, the candidate is accepted and every other
    pending one of the item superseded, the product the item was alone in is retired, with the
    candidates that offered it, unless another item is matched with it, the identifier of the item
    moves to the new product, and nothing else changes.  A candidate that is decided, or whose item
    is not alone in another product, is refused and nothing changes. *)
Theorem accept_exact t k c w r : reachable_catalog t -> mt_candidates t !! k = Some c -> (reviewer limits w t).1 = Returned r ->
  (ca_status c = PENDING -> (exists rule, ca_method c = ByRule rule) \/ comparable t (ca_item c) (ca_product c) ->
   exists t' s m, service_accept limits k w t = (Returned (status_set ACCEPTED r (mt_clock t) c), t') /\
     mt_items t !! ca_item c = Some s /\ mt_matches t !! ca_item c = Some m /\
     accepted k c s (ma_product m) r t t') /\
  (is_Some (mt_items t !! ca_item c) -> ca_status c <> PENDING \/ ~ comparable t (ca_item c) (ca_product c) ->
   service_accept limits k w t = (Raised match_conflict, t)).
Proof.
  intros [Ht _]%reachable_ok Hc Hr. unfold service_accept. pose proof (reviewer_reads w t) as Hs.
  destruct (reviewer limits w t) as [o ?] eqn:E. cbn in Hr, Hs. subst. unfold mbind, M_bind. rewrite E.
  change (repo_accept k r) with (accept_candidate k r). split; [intros Hp Hd|intros Hi Hd; by eapply accept_refused].
  assert (Hcmp : comparable t (ca_item c) (ca_product c)).
  { destruct Hd as [[rule Hd]|Hd]; [|done]. destruct (rv_pending t Ht k c Hc Hp) as [_ Hr']. by eapply Hr'. }
  pose proof (accept_wp t k c r Ht Hc Hp Hcmp) as Hwp. unfold wp in Hwp.
  destruct (accept_candidate k r t) as [[d|e] t']; [|done]. destruct Hwp as (-> & s & m & ? & ? & _ & _ & ?). by exists t', s, m.
Qed.

(** Bootstrapping a file ends: with a turn for every 500 of its unmatched items it answers their
    number and leaves each item of the file with a match, the exact matches and what they rest on
    as they were, and the items that are matched. *)
Theorem bootstrap_complete t k source : reachable_catalog t ->
  (length (unmatched source t None) < BOOTSTRAP_BATCH_SIZE * k)%nat ->
  exists t', bootstrap_source_file k source t = (Returned (py_len (unmatched source t None)), t') /\ review_ok t' /\
    apart t t' /\ lasting t t' /\
    forall i, is_Some (mt_matches t' !! i) <->
      is_Some (mt_matches t !! i) \/ exists r, mt_items t !! i = Some r /\ sj_source_file r = source.
Proof.
  intros [Ht _]%reachable_ok Hk. pose proof (pages_wp k source None 0 t Ht) as Hwp. unfold wp in Hwp. unfold bootstrap_source_file.
  destruct (bootstrap_pages k source None 0 t) as [[n|e] t']; [|exfalso; by apply Hwp].
  destruct Hwp as [[(Hok & Hl & Ha) Hm] ->]; [done|done|]. exists t'. by split_and!.
Qed.

(** C37: In every reachable catalog a GTIN has an identifier of a retailer and portal exactly when an
    item of that portal asserts it, and one validated for all exactly when items of two different
    retailers do; both are of the product of its group, which is active, and every match that is
    neither isolated nor reviewed rests on the one live assertion of its item, says it is validated
    exactly when its GTIN is so corroborated, and is with the product of the group. *)
Theorem gtin_corroboration_exact t : reachable_catalog t ->
  (forall g r p, has_scoped (mt_identifiers t) g r p <-> asserts t g r p) /\
  (forall g, has_validated (mt_identifiers t) g <-> corroborated t g) /\
  (forall j r, mt_identifiers t !! j = Some r -> ir_kind r = GTIN ->
     mt_groups t !! ir_normalized r = Some (ir_product r) /\ is_active t (ir_product r) = true) /\
  (forall j k a b, mt_assertions t !! j = Some a -> mt_assertions t !! k = Some b -> is_live a = true -> is_live b = true ->
     as_item a = as_item b -> j = k) /\
  (forall i m, mt_matches t !! i = Some m -> ~ settled_match m -> exists j a, rests_on t i m j a /\ exact_method t (as_value a) m).
Proof.
  intros [Ht Hg]%reachable_ok. split_and!.
  - exact (gt_scoped t Hg).
  - exact (gt_validated t Hg).
  - intros j r Hj Hk. destruct (gt_rows t Hg j r Hj Hk) as (p & Hp & Hr).
    assert (E : ir_product r = p) by (destruct Hr as [(x & y & ->)| ->]; done). rewrite E. split; [done|]. by apply (rv_groups t Ht _ _ Hp).
  - exact (gt_live t Hg).
  - exact (gt_matches t Hg).
Qed.

End review.

(** ** Concrete runs *)

(** Names are as near as they are equal, and texts are ordered by their characters. *)
#[local] Instance plain_trigrams : Trigrams := {| name_search s := s; trigram_distance a b := if bool_decide (a = b) then 0%Q else 1%Q |}.
#[local] Instance ascii_words : WordCharacters := {| is_word c := is_digit c || ((97 <=? c) && (c <=? 122)) |}.
#[local] Existing Instance MaintenanceSpec.sample_uuid_text.
#[local] Existing Instance MaintenanceSpec.sample_uuid_text_ok.

Definition sample_item_row (retailer : uuid) (code : string) : SubjectRow := {| sj_retailer := retailer; sj_portal := 7;
  sj_code := py code; sj_gtin := Some (py "7290000000008"); sj_name := py "milk 1 liter"; sj_manufacturer := Some (py "dairy");
  sj_quantity := Some 1000000; sj_unit := Some (py "l"); sj_unit_quantity := None; sj_package := None; sj_source_file := 5 |}.

Abbreviation sample_step := (review_step str_leb default_matching_limits 2).
Abbreviation sample_repository := (review_repository str_leb 2).
Definition half : threshold_value := ThresholdText (py "0.50").
Definition tables_0 : MatchTables := set_items (insert 101 (sample_item_row 1 "a1")) empty_catalog.
Definition tables_1 : MatchTables := set_items (insert 102 (sample_item_row 2 "b2")) tables_0.
Definition tables_2 : MatchTables := Eval vm_compute in
  (service_generate (CatalogMatchingRepository0 := sample_repository) default_matching_limits None None None half tables_1).2.
Lemma sample_generates :
  tables_2 = (service_generate (CatalogMatchingRepository0 := sample_repository) default_matching_limits None None None half tables_1).2.
Proof. vm_compute. reflexivity. Qed.
Definition candidate_4 : CandidateRow := Eval vm_compute in default
  {| ca_item := 0; ca_product := 0; ca_method := EXACT_IDENTIFIER_CONFLICT; ca_score := dec_zero; ca_status := REJECTED;
     ca_evidence := Conflicting [] MANUAL_MATCH_DISAGREES 0; ca_created_at := 0; ca_reviewed_at := None; ca_reviewed_by := None |}
  (mt_candidates tables_2 !! 4).
Definition tables_3 : MatchTables := Eval vm_compute in
  (service_accept (CatalogMatchingRepository0 := sample_repository) default_matching_limits 4 (py "dana") tables_2).2.

Lemma tables_1_reachable : reachable_catalog str_leb default_matching_limits 2 tables_1.
Proof.
  eapply rtc_l; [apply (ItemAdded _ _ _ 101 (sample_item_row 1 "a1")); [done|intros j r Hj; by vm_compute in Hj]|].
  apply rtc_once. apply (ItemAdded _ _ _ 102 (sample_item_row 2 "b2")); [by vm_compute|].
  intros j r Hj. change (mt_items (set_items _ _)) with (<[ 101 := sample_item_row 1 "a1" ]> (∅ : gmap uuid SubjectRow)) in Hj.
  apply lookup_insert_Some in Hj as [[_ <-]|[_ Hj]]; [|by rewrite lookup_empty in Hj]. by vm_compute.
Qed.
Lemma generated_step : sample_step tables_1 tables_2.
Proof. rewrite sample_generates. apply Generated. Qed.
Lemma tables_2_reachable : reachable_catalog str_leb default_matching_limits 2 tables_2.
Proof. eapply rtc_r; [apply tables_1_reachable|apply generated_step]. Qed.
Lemma accepted_step : sample_step tables_2 tables_3.
Proof.
  replace tables_3 with (service_accept (CatalogMatchingRepository0 := sample_repository) default_matching_limits 4 (py "dana") tables_2).2
    by (vm_compute; reflexivity). apply CandidateAccepted.
Qed.

Definition sample_gtin : ProductIdentifier :=
  {| pi_kind := GTIN; pi_value := py "7290000000008"; pi_issuer := None; pi_validated := false; pi_method := None |}.
Definition sample_product (item retailer : uuid) (ids : list ProductIdentifier) (brand : option pystr) : ProductDescriptor := {|
  pd_item := item; pd_retailer := retailer; pd_described := {| ds_name := py "milk"; ds_normalized_name := py "milk 1"; ds_identifiers := ids;
    ds_brand := brand; ds_manufacturer := None; ds_quantity := None; ds_unit := None; ds_packaging := None |} |}.
Definition sample_subject : ProductDescriptor := sample_product 101 1 [sample_gtin] (Some (py "dairy")).
Definition sample_block : list ProductDescriptor :=
  [sample_product 103 1 [sample_gtin] None; sample_product 102 2 [sample_gtin] None; sample_product 104 2 [] (Some (py "dairy"))].
Definition sample_ranking : list MatchCandidate := Eval vm_compute in
  match (generate_match_candidates sample_subject sample_block 3 (hundredths 50) tt).1 with Returned r => r | Raised _ => [] end.
Lemma sample_ranked : generate_match_candidates sample_subject sample_block 3 (hundredths 50) tt = (Returned sample_ranking, tt).
Proof. vm_compute. reflexivity. Qed.

Lemma auto_confirm_sound_witness : length sample_ranking = 3%nat /\ exists m, m ∈ sample_ranking /\ mc_candidate m = 102 /\ mc_disposition m = AUTO_CONFIRM.
Proof.
  split; [reflexivity|]. pose proof (auto_confirm_sound _ _ _ _ _ _ _ sample_ranked) as [_ Hall].
  apply (Hall (sample_product 102 2 [sample_gtin] None)).
  - unfold sample_block. set_solver.
  - done.
  - done.
  - exists (py "7290000000008"). split; exists sample_gtin; (split; [set_solver|done]).
Defined.
Lemma candidates_ranked_witness :
  generate_match_candidates sample_subject (rev sample_block) 3 (hundredths 50) tt = (Returned sample_ranking, tt) /\
  StronglySorted ranked_before sample_ranking.
Proof.
  destruct (candidates_ranked sample_subject sample_block (rev sample_block) 3 (hundredths 50) tt) as [E Hr].
  - symmetry. apply Permutation_rev.
  - by apply (bool_decide_unpack _); vm_compute.
  - intros c Hc. unfold valid_uuid. unfold sample_block in Hc. repeat (apply elem_of_cons in Hc as [->|Hc]; [done|]). by apply elem_of_nil in Hc.
  - rewrite E, sample_ranked in *. split; [done|]. by destruct Hr as (_ & _ & _ & ? & _).
Defined.
Lemma confidence_exact_witness : exists x e, (Qabs (dec_Q x - (60 # 100)) <= 51 # 100000)%Q /\
  compare_products sample_subject (sample_product 104 2 [] (Some (py "dairy"))) (hundredths 50) tt =
    (Returned (Some {| mc_subject := 101; mc_candidate := 104; mc_rule := STRUCTURED_CANDIDATE; mc_disposition := REVIEW;
                       mc_confidence := x; mc_explanations := e |}), tt).
Proof.
  destruct (confidence_exact sample_subject (sample_product 104 2 [] (Some (py "dairy"))) 9 (hundredths 50) tt) as (x & e & Hx & Hd & Hc & _);
    [reflexivity|reflexivity|reflexivity|].
  exists x, e.
  assert (Heq : (exact_confidence (pd_described sample_subject) (pd_described (sample_product 104 2 [] (Some (py "dairy")))) == 60 # 100)%Q)
    by (vm_compute; reflexivity).
  rewrite Heq in Hd. split; [exact Hd|]. revert Hc. cbv zeta. destruct (dec_leb (hundredths 50) x) eqn:E; intros Hc; [exact Hc|].
  exfalso. vm_compute in Hc. discriminate.
Defined.

Lemma review_invariant_witness : exists m, mt_matches tables_2 !! 101 = Some m /\ ma_product m <> 1.
Proof.
  destruct (review_invariant str_leb default_matching_limits 2 tables_2 tables_2_reachable) as (_ & Hp & _).
  destruct (Hp 4 candidate_4) as (_ & Hr); [vm_compute; reflexivity|reflexivity|].
  destruct (Hr STRUCTURED_CANDIDATE) as (m & Hm & _ & Hne); [vm_compute; reflexivity|]. exists m. split; [exact Hm|exact Hne].
Defined.
Lemma decisions_final_witness : exists m, mt_matches tables_3 !! 102 = Some m /\ settled_match m.
Proof.
  destruct (decisions_final str_leb default_matching_limits 2 tables_2 tables_3 tables_2_reachable) as (_ & _ & Hm & _);
    [apply rtc_once, accepted_step|].
  destruct (mt_matches tables_2 !! 102) as [m|] eqn:E; [|vm_compute in E; discriminate].
  apply (Hm 102 m E). left. vm_compute in E. by injection E as <-.
Defined.
Lemma accept_exact_witness : exists t' s m,
  service_accept (CatalogMatchingRepository0 := sample_repository) default_matching_limits 4 (py " dana ") tables_2 =
    (Returned (status_set ACCEPTED (py "dana") 0 candidate_4), t') /\
  accepted 4 candidate_4 s (ma_product m) (py "dana") tables_2 t' /\ is_active tables_3 0 = false.
Proof.
  destruct (accept_exact str_leb default_matching_limits 2 tables_2 4 candidate_4 (py " dana ") (py "dana") tables_2_reachable)
    as [Hacc _]; [vm_compute; reflexivity|reflexivity|].
  destruct Hacc as (t' & s & m & Hrun & _ & _ & Hacc); [reflexivity|left; by exists STRUCTURED_CANDIDATE|].
  exists t', s, m. split; [exact Hrun|]. split; [exact Hacc|vm_compute; reflexivity].
Defined.
Lemma bootstrap_complete_witness : exists t', bootstrap_source_file 1 5 tables_1 = (Returned 2, t') /\ is_Some (mt_matches t' !! 102).
Proof.
  destruct (bootstrap_complete str_leb default_matching_limits 2 tables_1 1 5 tables_1_reachable) as (t' & Hrun & _ & _ & Hm).
  - assert (E : length (unmatched 5 tables_1 None) = 2%nat) by (vm_compute; reflexivity). rewrite E. unfold BOOTSTRAP_BATCH_SIZE. lia.
  - exists t'. split; [exact Hrun|]. apply Hm. right. exists (sample_item_row 2 "b2"). split; [vm_compute|]; reflexivity.
Defined.

(** Two retailers that assert one GTIN, by the items of two files. *)
Definition tables_5 : MatchTables := Eval vm_compute in
  (transaction (match_exact_gtins str_leb 8 1 7 [py "a1"] 10) tables_1).2.
Definition tables_6 : MatchTables := Eval vm_compute in
  (transaction (match_exact_gtins str_leb 9 2 7 [py "b2"] 20) tables_5).2.
Lemma tables_5_reachable : reachable_catalog str_leb default_matching_limits 2 tables_5.
Proof.
  eapply rtc_r; [apply tables_1_reachable|].
  replace tables_5 with (transaction (match_exact_gtins str_leb 8 1 7 [py "a1"] 10) tables_1).2 by (vm_compute; reflexivity).
  apply GtinsMatched.
Qed.
Lemma tables_6_reachable : reachable_catalog str_leb default_matching_limits 2 tables_6.
Proof.
  eapply rtc_r; [apply tables_5_reachable|].
  replace tables_6 with (transaction (match_exact_gtins str_leb 9 2 7 [py "b2"] 20) tables_5).2 by (vm_compute; reflexivity).
  apply GtinsMatched.
Qed.
Definition gtin_milk : pystr := py "7290000000008".
Example match_methods :
  (ma_method <$> mt_matches tables_5 !! 101, ma_method <$> mt_matches tables_6 !! 101, ma_method <$> mt_matches tables_6 !! 102) =
  (Some "exact_provisional_gtin", Some "exact_validated_gtin", Some "exact_validated_gtin")%string.
Proof. vm_compute. reflexivity. Qed.

Lemma gtin_corroboration_exact_witness : corroborated tables_6 gtin_milk /\ asserts tables_6 gtin_milk 1 7 /\ asserts tables_6 gtin_milk 2 7.
Proof.
  destruct (gtin_corroboration_exact str_leb default_matching_limits 2 tables_6 tables_6_reachable) as (Hs & Hv & _). split; [|split].
  - apply Hv. exists 1, 5. vm_compute. reflexivity.
  - apply Hs. exists 1, 2. vm_compute. reflexivity.
  - apply Hs. exists 1, 4. vm_compute. reflexivity.
Defined.
