(* ===== verification/Worker.v ===== *)
(** [src/src/makolet/application/worker.py]: the scheduler's queue, the consumers that run
    sources, and their health records.

    The coroutines of one event loop interleave at their awaits only, so a run of
    [_run_source] is a program counter ([source_phase]) with one step per await, and the
    scheduler and the consumers are the steps of one machine.  Durations and clock readings
    are integers (nanoseconds); the jitter callable is a number drawn for each delay.
    Lifecycle events and the heartbeat's report have no state here. *)
From S2P Require Import Prelude Errors Effects Text.

(** ** Schedules and policy *)

(** [_SOURCE_ID.fullmatch]. *)
Definition source_id_char (c : Z) : bool :=
  is_digit c || is_upper c || is_lower c || (c =? 46) || (c =? 95) || (c =? 58) || (c =? 45).
Definition source_id_ok (s : pystr) : bool :=
  match s with
  | [] => false
  | c :: rest => (is_digit c || is_upper c || is_lower c) && (py_len rest <=? 199)
                 && py_all source_id_char rest
  end.

(** [SourceSchedule]; [sch_maximum_jitter] is [interval * jitter_ratio]. *)
Record SourceSchedule := {
  sch_source_id : pystr;
  sch_interval : Z;
  sch_maximum_jitter : Z;
  sch_run_immediately : bool
}.
Definition SourceSchedule_post_init {W} (s : SourceSchedule) : M W unit :=
  raise_if (negb (source_id_ok (sch_source_id s))) (PyExn ValueError);;
  raise_if (sch_interval s <=? 0) (PyExn ValueError);;
  raise_if (negb ((0 <=? sch_maximum_jitter s) && (sch_maximum_jitter s <=? sch_interval s)))
    (PyExn ValueError).

Record WorkerPolicy := {
  concurrency : Z;
  queue_capacity : Z;
  maximum_sources : Z;
  heartbeat_interval : Z;
  scheduler_resolution : Z;
  stale_after : Z;
  stale_recovery_interval : Z;
  shutdown_grace : Z
}.
Definition WorkerPolicy_post_init {W} (p : WorkerPolicy) : M W unit :=
  raise_if ((concurrency p <=? 0) || (queue_capacity p <=? 0) || (maximum_sources p <=? 0))
    (PyExn ValueError);;
  raise_if (py_any (fun d => d <=? 0)
    [heartbeat_interval p; scheduler_resolution p; stale_after p; stale_recovery_interval p;
     shutdown_grace p]) (PyExn ValueError).

(** [_source_ids]: stripped, checked, de-duplicated in order. *)
Fixpoint source_ids {W} (maximum : Z) (selected values : list pystr) : M W (list pystr) :=
  match values with
  | [] => mret selected
  | value :: values =>
      let source_id := py_strip value in
      raise_if (negb (source_id_ok source_id)) (PyExn ValueError);;
      let selected := if bool_decide (source_id ∈ selected) then selected
                      else selected ++ [source_id] in
      raise_if (maximum <? py_len selected) (PyExn ValueError);;
      source_ids maximum selected values
  end.

(** [_schedules]. *)
Fixpoint distinct_schedules {W} (selected values : list SourceSchedule)
    : M W (list SourceSchedule) :=
  match values with
  | [] => mret selected
  | s :: values =>
      raise_if (bool_decide (sch_source_id s ∈ map sch_source_id selected)) (PyExn ValueError);;
      distinct_schedules (selected ++ [s]) values
  end.
Definition schedules {W} (maximum : Z) (values : list SourceSchedule)
    : M W (list SourceSchedule) :=
  raise_if (maximum <? py_len values) (PyExn ValueError);;
  distinct_schedules [] values.

(** ** One run of a source *)

Record SourceHealth := {
  sh_in_flight : bool;
  sh_successful_runs : Z;
  sh_failed_runs : Z;
  sh_consecutive_failures : Z;
  sh_last_started_at : option Z;
  sh_last_succeeded_at : option Z;
  sh_last_failed_at : option Z;
  sh_last_error_code : option string
}.
Definition new_health : SourceHealth := {|
  sh_in_flight := false; sh_successful_runs := 0; sh_failed_runs := 0;
  sh_consecutive_failures := 0; sh_last_started_at := None; sh_last_succeeded_at := None;
  sh_last_failed_at := None; sh_last_error_code := None |}.

Definition health_started (now : Z) (h : SourceHealth) : SourceHealth := {|
  sh_in_flight := true; sh_successful_runs := sh_successful_runs h;
  sh_failed_runs := sh_failed_runs h; sh_consecutive_failures := sh_consecutive_failures h;
  sh_last_started_at := Some now; sh_last_succeeded_at := sh_last_succeeded_at h;
  sh_last_failed_at := sh_last_failed_at h; sh_last_error_code := sh_last_error_code h |}.
Definition health_stopped (h : SourceHealth) : SourceHealth := {|
  sh_in_flight := false; sh_successful_runs := sh_successful_runs h;
  sh_failed_runs := sh_failed_runs h; sh_consecutive_failures := sh_consecutive_failures h;
  sh_last_started_at := sh_last_started_at h; sh_last_succeeded_at := sh_last_succeeded_at h;
  sh_last_failed_at := sh_last_failed_at h; sh_last_error_code := Some "worker_shutdown"%string |}.
Definition health_failed (now : Z) (code : string) (h : SourceHealth) : SourceHealth := {|
  sh_in_flight := false; sh_successful_runs := sh_successful_runs h;
  sh_failed_runs := sh_failed_runs h + 1;
  sh_consecutive_failures := sh_consecutive_failures h + 1;
  sh_last_started_at := sh_last_started_at h; sh_last_succeeded_at := sh_last_succeeded_at h;
  sh_last_failed_at := Some now; sh_last_error_code := Some code |}.
Definition health_succeeded (now : Z) (h : SourceHealth) : SourceHealth := {|
  sh_in_flight := false; sh_successful_runs := sh_successful_runs h + 1;
  sh_failed_runs := sh_failed_runs h; sh_consecutive_failures := 0;
  sh_last_started_at := sh_last_started_at h; sh_last_succeeded_at := Some now;
  sh_last_failed_at := sh_last_failed_at h; sh_last_error_code := None |}.

(** [_worker_error_code]. *)
Definition worker_error_code (e : exn) : string :=
  match e with
  | PyExn CancelledError => "worker_shutdown"
  | MakoletExn c _ => error_class_code c
  | PyExn _ => "unexpected_error"
  end.

Record SourceRunOutcome := {
  so_succeeded : bool;
  so_started_at : option Z;
  so_finished_at : Z;
  so_error_code : option string
}.

(** Where a run of [_run_source] awaits: its first health report, the ingestion, the report
    of its outcome, or the shielded report of a cancellation. *)
Inductive source_phase :=
  | Starting (s : pystr) (started : SourceHealth)
  | Ingesting (s : pystr) (started : SourceHealth)
  | Recording (s : pystr) (o : SourceRunOutcome)
  | Stopping (s : pystr).

Definition phase_source (p : source_phase) : pystr :=
  match p with Starting s _ | Ingesting s _ | Recording s _ | Stopping s => s end.

(** What an await brings: the awaited call returns, or raises, at a clock reading; a
    cancellation is [Raises (PyExn CancelledError)]. *)
Inductive wakeup := Returns (now : Z) | Raises (e : exn) (now : Z).

(** How the run goes on. *)
Inductive progress := Continue (p : source_phase) | Finished (o : SourceRunOutcome) | Escaped (e : exn).

Definition run_source (s : pystr) (now : Z) (health : gmap pystr SourceHealth)
    : source_phase * gmap pystr SourceHealth :=
  let started := health_started now (default new_health (health !! s)) in
  (Starting s started, <[ s := started ]> health).

Definition resume_source (p : source_phase) (w : wakeup) (health : gmap pystr SourceHealth)
    : progress * gmap pystr SourceHealth :=
  match p, w with
  | Starting s started, Returns _ => (Continue (Ingesting s started), health)
  | Starting s started, Raises e _ => (Escaped e, health)
  | Ingesting s started, Returns now =>
      (Continue (Recording s {| so_succeeded := true; so_started_at := sh_last_started_at started;
                                so_finished_at := now; so_error_code := None |}),
       <[ s := health_succeeded now started ]> health)
  | Ingesting s started, Raises e now =>
      if is_exception e
      then (Continue (Recording s {| so_succeeded := false;
                so_started_at := sh_last_started_at started; so_finished_at := now;
                so_error_code := Some (worker_error_code e) |}),
            <[ s := health_failed now (worker_error_code e) started ]> health)
      else (Continue (Stopping s), <[ s := health_stopped started ]> health)
  | Recording s o, Returns _ => (Finished o, health)
  | Recording s o, Raises e _ => (Escaped e, health)
  | Stopping s, Returns _ => (Escaped (PyExn CancelledError), health)
  | Stopping s, Raises e _ => (Escaped (if is_exception e then e else PyExn CancelledError), health)
  end.

(** ** The continuous scheduler *)

Inductive consumer := Idle | Running (p : source_phase) | Ended.

Record worker_state := {
  queue : list pystr;
  unfinished : Z;
  pending : gset pystr;
  next_due : gmap pystr Z;
  consumers : list consumer;
  health : gmap pystr SourceHealth
}.

Definition running_sources (cs : list consumer) : list pystr :=
  omap (fun c => match c with Running p => Some (phase_source p) | _ => None end) cs.

Section scheduler.
Variable policy : WorkerPolicy.

(** [_delay], with the number the jitter callable returned. *)
Definition delay (s : SourceSchedule) (jitter : Z) : Z := sch_interval s + jitter.

(** The state [run_forever] starts its loop in. *)
Definition initial_state (selected : list SourceSchedule) (now : Z) (jitter : pystr -> Z)
    : worker_state := {|
  queue := []; unfinished := 0; pending := ∅;
  next_due := list_to_map (map (fun s => (sch_source_id s,
    now + (if sch_run_immediately s then 0 else delay s (jitter (sch_source_id s))))) selected);
  consumers := replicate (Z.to_nat (concurrency policy)) Idle;
  health := ∅
|}.

(** The scheduling pass: due sources that are not pending, until the queue is full. *)
Fixpoint schedule_pass (selected : list SourceSchedule) (now : Z) (jitter : pystr -> Z)
    (st : worker_state) : worker_state :=
  match selected with
  | [] => st
  | s :: selected =>
      let source_id := sch_source_id s in
      if (now <? default now (next_due st !! source_id)) || bool_decide (source_id ∈ pending st)
      then schedule_pass selected now jitter st
      else if queue_capacity policy <=? py_len (queue st) then st
      else schedule_pass selected now jitter
             {| queue := queue st ++ [source_id]; unfinished := unfinished st + 1;
                pending := {[ source_id ]} ∪ pending st;
                next_due := <[ source_id := now + delay s (jitter source_id) ]> (next_due st);
                consumers := consumers st; health := health st |}
  end.

(** A consumer's [queue.get()] returns. *)
Definition take (i : nat) (now : Z) (st : worker_state) : option worker_state :=
  match consumers st !! i, queue st with
  | Some Idle, s :: q =>
      let '(p, h) := run_source s now (health st) in
      Some {| queue := q; unfinished := unfinished st; pending := pending st;
              next_due := next_due st; consumers := <[ i := Running p ]> (consumers st);
              health := h |}
  | _, _ => None
  end.

(** An await of a running consumer wakes up; leaving [_run_source], by return or exception,
    runs the [finally] block. *)
Definition wake (i : nat) (w : wakeup) (st : worker_state) : option worker_state :=
  match consumers st !! i with
  | Some (Running p) =>
      let '(r, h) := resume_source p w (health st) in
      Some match r with
           | Continue p' =>
               {| queue := queue st; unfinished := unfinished st; pending := pending st;
                  next_due := next_due st; consumers := <[ i := Running p' ]> (consumers st);
                  health := h |}
           | Finished _ | Escaped _ =>
               {| queue := queue st; unfinished := unfinished st - 1;
                  pending := pending st ∖ {[ phase_source p ]}; next_due := next_due st;
                  consumers := <[ i := match r with Escaped _ => Ended | _ => Idle end ]> (consumers st);
                  health := h |}
           end
  | _ => None
  end.

(** The cancellation of a consumer that awaits the queue. *)
Definition cancel_idle (i : nat) (st : worker_state) : option worker_state :=
  match consumers st !! i with
  | Some Idle => Some {| queue := queue st; unfinished := unfinished st; pending := pending st;
                         next_due := next_due st; consumers := <[ i := Ended ]> (consumers st);
                         health := health st |}
  | _ => None
  end.

(** [_next_sleep]. *)
Definition next_sleep (now : Z) (due : gmap pystr Z) (next_heartbeat next_recovery : Z) : Z :=
  let next_action := foldr Z.min (Z.min next_heartbeat next_recovery) (map snd (map_to_list due)) in
  Z.max 1000000 (Z.min (scheduler_resolution policy) (next_action - now)).

(** Every interleaving. *)
Inductive worker_step (selected : list SourceSchedule) : worker_state -> worker_state -> Prop :=
  | step_schedule now jitter st :
      (forall s, s ∈ selected -> 0 <= jitter (sch_source_id s) <= sch_maximum_jitter s) ->
      worker_step selected st (schedule_pass selected now jitter st)
  | step_take i now st st' : take i now st = Some st' -> worker_step selected st st'
  | step_wake i w st st' : wake i w st = Some st' -> worker_step selected st st'
  | step_cancel i st st' : cancel_idle i st = Some st' -> worker_step selected st st'.
End scheduler.

(** ** [run_once] *)

(** A consumer of [run_once] leaves its loop at the [None] sentinel. *)
Record once_state := {
  todo : list (option pystr);
  on_queue : list (option pystr);
  on_unfinished : Z;
  on_consumers : list consumer;
  outcomes : gmap pystr SourceRunOutcome;
  on_health : gmap pystr SourceHealth
}.

Section once.
Variable policy : WorkerPolicy.

Definition initial_once (selected : list pystr) (h : gmap pystr SourceHealth) : once_state :=
  let count := Z.to_nat (Z.min (concurrency policy) (py_len selected)) in
  {| todo := map Some selected ++ replicate count None; on_queue := []; on_unfinished := 0;
     on_consumers := replicate count Idle; outcomes := ∅; on_health := h |}.

(** [await queue.put(...)] of the main task returns. *)
Definition once_put (st : once_state) : option once_state :=
  match todo st with
  | x :: rest =>
      if py_len (on_queue st) <? queue_capacity policy
      then Some {| todo := rest; on_queue := on_queue st ++ [x];
                   on_unfinished := on_unfinished st + 1; on_consumers := on_consumers st;
                   outcomes := outcomes st; on_health := on_health st |}
      else None
  | [] => None
  end.

Definition once_take (i : nat) (now : Z) (st : once_state) : option once_state :=
  match on_consumers st !! i, on_queue st with
  | Some Idle, Some s :: q =>
      let '(p, h) := run_source s now (on_health st) in
      Some {| todo := todo st; on_queue := q; on_unfinished := on_unfinished st;
              on_consumers := <[ i := Running p ]> (on_consumers st); outcomes := outcomes st;
              on_health := h |}
  | Some Idle, None :: q =>
      Some {| todo := todo st; on_queue := q; on_unfinished := on_unfinished st - 1;
              on_consumers := <[ i := Ended ]> (on_consumers st); outcomes := outcomes st;
              on_health := on_health st |}
  | _, _ => None
  end.

Definition once_wake (i : nat) (w : wakeup) (st : once_state) : option once_state :=
  match on_consumers st !! i with
  | Some (Running p) =>
      let '(r, h) := resume_source p w (on_health st) in
      Some match r with
           | Continue p' =>
               {| todo := todo st; on_queue := on_queue st; on_unfinished := on_unfinished st;
                  on_consumers := <[ i := Running p' ]> (on_consumers st);
                  outcomes := outcomes st; on_health := h |}
           | Finished o =>
               {| todo := todo st; on_queue := on_queue st;
                  on_unfinished := on_unfinished st - 1;
                  on_consumers := <[ i := Idle ]> (on_consumers st);
                  outcomes := <[ phase_source p := o ]> (outcomes st); on_health := h |}
           | Escaped _ =>
               {| todo := todo st; on_queue := on_queue st;
                  on_unfinished := on_unfinished st - 1;
                  on_consumers := <[ i := Ended ]> (on_consumers st);
                  outcomes := outcomes st; on_health := h |}
           end
  | _ => None
  end.

(** [await queue.join()] returns. *)
Definition joined (st : once_state) : bool :=
  bool_decide (todo st = []) && (on_unfinished st =? 0).
(** So does [await asyncio.gather] of the consumers: each has left its loop, and the main task
    goes on to its summary. *)
Definition has_ended (c : consumer) : bool := match c with Ended => true | _ => false end.
Definition gathered (st : once_state) : bool := joined st && forallb has_ended (on_consumers st).
(** [tuple(outcomes[source_id] for source_id in selected)]; [None] is a [KeyError]. *)
Definition summary_outcomes (selected : list pystr) (st : once_state) : option (list SourceRunOutcome) :=
  mapM (fun s => outcomes st !! s) selected.

Inductive once_step : once_state -> once_state -> Prop :=
  | once_step_put st st' : once_put st = Some st' -> once_step st st'
  | once_step_take i now st st' : once_take i now st = Some st' -> once_step st st'
  | once_step_wake i w st st' : once_wake i w st = Some st' -> once_step st st'.
End once.
