(* ===== verification/WorkerFacts.v ===== *)
(** The invariants of the scheduler and of [run_once], over every interleaving. *)
From S2P Require Import Prelude Errors Effects Text Worker.

(** ** The sources being run *)

Definition not_running (c : consumer) : Prop := match c with Running _ => False | _ => True end.

Lemma running_start cs i c p : cs !! i = Some c -> not_running c ->
  running_sources (<[ i := Running p ]> cs) ≡ₚ phase_source p :: running_sources cs.
Proof.
  revert i. induction cs as [|d cs IH]; intros [|i] Hi Hc; simplify_eq/=.
  - by destruct c.
  - unfold running_sources in *. simpl. destruct d; rewrite (IH _ Hi Hc); try done.
    apply Permutation_swap.
Qed.

Lemma running_stop cs i c p : cs !! i = Some (Running p) -> not_running c ->
  running_sources cs ≡ₚ phase_source p :: running_sources (<[ i := c ]> cs).
Proof.
  revert i. induction cs as [|d cs IH]; intros [|i] Hi Hc; simplify_eq/=.
  - by destruct c.
  - unfold running_sources in *. simpl. destruct d; rewrite (IH _ Hi Hc); try done.
    apply Permutation_swap.
Qed.

Lemma running_continue cs i p p' : cs !! i = Some (Running p) -> phase_source p' = phase_source p ->
  running_sources (<[ i := Running p' ]> cs) = running_sources cs.
Proof.
  revert i. induction cs as [|d cs IH]; intros [|i] Hi Hp; simplify_eq/=.
  - unfold running_sources. simpl. by rewrite Hp.
  - unfold running_sources in *. simpl. by rewrite (IH _ Hi Hp).
Qed.

Lemma running_same cs i c d : cs !! i = Some c -> not_running c -> not_running d ->
  running_sources (<[ i := d ]> cs) = running_sources cs.
Proof.
  revert i. induction cs as [|e cs IH]; intros [|i] Hi Hc Hd; simplify_eq/=.
  - unfold running_sources. simpl. by destruct c, d.
  - unfold running_sources in *. simpl. by rewrite (IH _ Hi Hc Hd).
Qed.

Lemma running_replicate n : running_sources (replicate n Idle) = [].
Proof. unfold running_sources. by induction n. Qed.

Lemma running_lookup cs i p : cs !! i = Some (Running p) -> phase_source p ∈ running_sources cs.
Proof.
  intros Hi. apply list_elem_of_omap. exists (Running p). split; [|done].
  by eapply list_elem_of_lookup_2.
Qed.

Lemma perm_len {A} (l k : list A) : l ≡ₚ k -> py_len l = py_len k.
Proof. intros H. unfold py_len. by rewrite H. Qed.

(** A wakeup keeps the source of a run that goes on. *)
Lemma resume_source_continue p w h p' h' :
  resume_source p w h = (Continue p', h') -> phase_source p' = phase_source p.
Proof. destruct p, w; simpl; repeat case_match; by intros [= <- <-]. Qed.

(** ** The continuous scheduler *)

Section scheduler.
Variable policy : WorkerPolicy.
Variable selected : list SourceSchedule.

(** A source is queued or run at most once, and [pending] is exactly those sources; the
    queue is bounded, and its counter of unfinished tasks is right. *)
Record worker_ok (st : worker_state) : Prop := {
  wo_nodup : NoDup (queue st ++ running_sources (consumers st));
  wo_pending : forall s, s ∈ pending st <-> s ∈ queue st ++ running_sources (consumers st);
  wo_unfinished : unfinished st = py_len (queue st ++ running_sources (consumers st));
  wo_capacity : py_len (queue st) <= Z.max 0 (queue_capacity policy);
  wo_consumers : length (consumers st) = Z.to_nat (concurrency policy);
  wo_known : forall s, s ∈ queue st ++ running_sources (consumers st) ->
    s ∈ map sch_source_id selected
}.

Lemma initial_ok now jitter : worker_ok (initial_state policy selected now jitter).
Proof.
  assert (E : queue (initial_state policy selected now jitter) ++
    running_sources (consumers (initial_state policy selected now jitter)) = []).
  { simpl. apply running_replicate. }
  split; rewrite ?E; simpl; try done.
  - constructor.
  - intros s. set_solver.
  - unfold py_len. simpl. lia.
  - by rewrite length_replicate.
  - intros s Hs. by apply elem_of_nil in Hs.
Qed.

(** A step that keeps what is queued or run keeps the rest. *)
Lemma worker_ok_same st st' :
  worker_ok st ->
  queue st' ++ running_sources (consumers st') ≡ₚ queue st ++ running_sources (consumers st) ->
  unfinished st' = unfinished st -> pending st' = pending st ->
  py_len (queue st') <= py_len (queue st) -> length (consumers st') = length (consumers st) ->
  worker_ok st'.
Proof.
  intros [] Hp Hu Hpe Hq Hc. split.
  - by rewrite Hp.
  - intros s. rewrite Hpe, Hp. auto.
  - rewrite Hu, (perm_len _ _ Hp). done.
  - lia.
  - by rewrite Hc.
  - intros s. rewrite Hp. auto.
Qed.

Lemma schedule_pass_ok part now jitter : forall st,
  (forall s, s ∈ part -> s ∈ selected) -> worker_ok st ->
  worker_ok (schedule_pass policy part now jitter st).
Proof.
  induction part as [|s part IH]; intros st Hsub Hok; simpl; [done|].
  assert (Hsub' : forall s', s' ∈ part -> s' ∈ selected) by (intros s' Hs'; apply Hsub; by constructor).
  destruct (_ || bool_decide _) eqn:Hskip; [by apply IH|]. reflect_bools.
  destruct (queue_capacity policy <=? py_len (queue st)) eqn:Hfull; [done|]. reflect_bools.
  apply IH; [done|]. destruct Hok as [Hnd Hpe Hun Hcap Hcs Hkn].
  set (n := sch_source_id s) in *.
  assert (Hperm : (queue st ++ [n]) ++ running_sources (consumers st) ≡ₚ
    n :: (queue st ++ running_sources (consumers st))).
  { rewrite <- app_assoc. simpl. by rewrite Permutation_middle. }
  split; simpl.
  - rewrite Hperm. constructor; [|done]. by rewrite <- Hpe.
  - intros s'. rewrite Hperm, elem_of_cons, <- Hpe. set_solver.
  - rewrite (perm_len _ _ Hperm), py_len_cons. lia.
  - rewrite py_len_app, py_len_cons, py_len_nil. lia.
  - done.
  - intros s'. rewrite Hperm, elem_of_cons. intros [->|Hs']; [|auto].
    apply list_elem_of_In, in_map, list_elem_of_In, Hsub. by constructor.
Qed.

Lemma take_ok i now st st' : worker_ok st -> take i now st = Some st' -> worker_ok st'.
Proof.
  intros Hok Ht. unfold take in Ht.
  destruct (consumers st !! i) as [[]|] eqn:Hi; try done.
  destruct (queue st) as [|s q] eqn:Hq; [done|]. unfold run_source in Ht. simplify_eq/=.
  apply (worker_ok_same st); simpl; try done.
  - rewrite Hq, (running_start _ _ _ _ Hi) by done. simpl. symmetry. apply Permutation_middle.
  - rewrite Hq, py_len_cons. lia.
  - apply length_insert.
Qed.

Lemma wake_ok i w st st' : worker_ok st -> wake i w st = Some st' -> worker_ok st'.
Proof.
  intros Hok Ht. unfold wake in Ht.
  destruct (consumers st !! i) as [[|p|]|] eqn:Hi; try done.
  destruct (resume_source p w (health st)) as [r h] eqn:Hr.
  assert (Hend : forall c, not_running c -> worker_ok
    {| queue := queue st; unfinished := unfinished st - 1;
       pending := pending st ∖ {[ phase_source p ]}; next_due := next_due st;
       consumers := <[ i := c ]> (consumers st); health := h |}).
  { intros c Hc. destruct Hok as [Hnd Hpe Hun Hcap Hcs Hkn].
    pose proof (running_stop _ _ c _ Hi Hc) as Hperm.
    assert (Hall : queue st ++ running_sources (consumers st) ≡ₚ
      phase_source p :: (queue st ++ running_sources (<[ i := c ]> (consumers st)))).
    { rewrite Hperm. symmetry. apply Permutation_middle. }
    rewrite Hall in Hnd. apply NoDup_cons in Hnd as [Hnot Hnd]. split; simpl; try done.
    - intros s. rewrite elem_of_difference, elem_of_singleton, Hpe, Hall, elem_of_cons.
      split; [naive_solver|]. intros Hs. split; [by right|]. by intros ->.
    - rewrite Hun, (perm_len _ _ Hall), py_len_cons. lia.
    - by rewrite length_insert.
    - intros s Hs. apply Hkn. rewrite Hall. by right. }
  destruct r as [p'|o|e]; simplify_eq/=; [|by apply Hend..].
  apply (worker_ok_same st); simpl; try done.
  - rewrite (running_continue _ _ p) by (done || by eapply resume_source_continue). done.
  - apply length_insert.
Qed.

Lemma cancel_ok i st st' : worker_ok st -> cancel_idle i st = Some st' -> worker_ok st'.
Proof.
  intros Hok Ht. unfold cancel_idle in Ht.
  destruct (consumers st !! i) as [[]|] eqn:Hi; simplify_eq.
  apply (worker_ok_same st); simpl; try done.
  - rewrite (running_same _ _ _ Ended Hi) by done. done.
  - apply length_insert.
Qed.

Lemma worker_step_ok st st' : worker_ok st -> worker_step policy selected st st' -> worker_ok st'.
Proof.
  intros Hok Hstep. revert Hok. destruct Hstep; intros Hok.
  - by apply schedule_pass_ok.
  - by eapply take_ok.
  - by eapply wake_ok.
  - by eapply cancel_ok.
Qed.

Definition worker_reachable (st : worker_state) : Prop :=
  exists now jitter, rtc (worker_step policy selected) (initial_state policy selected now jitter) st.

Lemma worker_reachable_ok st : worker_reachable st -> worker_ok st.
Proof.
  intros (now & jitter & Hsteps). revert Hsteps.
  apply (rtc_ind_r worker_ok); [apply initial_ok|]. intros st1 st2 _ Hstep Hok. by eapply worker_step_ok.
Qed.
End scheduler.

(** ** When a source is due *)

Section due.
Variable policy : WorkerPolicy.
Variable selected : list SourceSchedule.
Hypothesis Hdistinct : NoDup (map sch_source_id selected).
Hypothesis Hinterval : forall s, s ∈ selected -> 0 < sch_interval s.

(** What one pass does to a source: nothing, or it was due and is queued now. *)
Definition pass_effect (s : SourceSchedule) (now jitter : Z) (st st' : worker_state) : Prop :=
  let id := sch_source_id s in
  (next_due st' !! id = next_due st !! id /\ (id ∈ pending st' <-> id ∈ pending st)) \/
  (next_due st' !! id = Some (now + delay s jitter) /\ ~ id ∈ pending st /\ id ∈ pending st' /\
   default now (next_due st !! id) <= now).

Lemma schedule_pass_other id part now jitter : forall st,
  id ∉ map sch_source_id part ->
  next_due (schedule_pass policy part now jitter st) !! id = next_due st !! id /\
  (id ∈ pending (schedule_pass policy part now jitter st) <-> id ∈ pending st).
Proof.
  induction part as [|s part IH]; intros st Hid; simpl; [done|].
  simpl in Hid. rewrite not_elem_of_cons in Hid. destruct Hid as [Hne Hid].
  destruct (_ || bool_decide _); [by apply IH|]. destruct (_ <=? _); [done|].
  destruct (IH {| queue := queue st ++ [sch_source_id s]; unfinished := unfinished st + 1;
     pending := {[ sch_source_id s ]} ∪ pending st;
     next_due := <[ sch_source_id s := now + delay s (jitter (sch_source_id s)) ]> (next_due st);
     consumers := consumers st; health := health st |} Hid) as [H1 H2].
  rewrite H1, H2. simpl. rewrite lookup_insert_ne by done. split; [done|set_solver].
Qed.

Lemma schedule_pass_effect s part now jitter : forall st,
  NoDup (map sch_source_id part) -> s ∈ part ->
  pass_effect s now (jitter (sch_source_id s)) st (schedule_pass policy part now jitter st).
Proof.
  induction part as [|s0 part IH]; intros st Hnd Hs; [by apply elem_of_nil in Hs|]. simpl.
  simpl in Hnd. apply NoDup_cons in Hnd as [Hnot Hnd].
  assert (Hid : forall s1, s1 ∈ part -> sch_source_id s1 <> sch_source_id s0).
  { intros s1 Hs1 E. apply Hnot. rewrite <- E. by apply list_elem_of_In, in_map, list_elem_of_In. }
  apply elem_of_cons in Hs. destruct (_ || bool_decide _) eqn:Hskip.
  - destruct Hs as [->|Hs]; [|by apply IH]. left. by apply schedule_pass_other.
  - destruct (_ <=? _); [by left|]. reflect_bools.
    set (st1 := {| queue := _ |}). destruct Hs as [->|Hs].
    + destruct (schedule_pass_other _ part now jitter st1 Hnot) as [H1 H2]. right.
      rewrite H1, H2. subst st1. simpl. rewrite lookup_insert_eq.
      split_and!; [done|done|set_solver|lia].
    + pose proof (Hid _ Hs) as Hne. destruct (IH st1 Hnd Hs) as [[H1 H2]|(H1 & H2 & H3 & H4)].
      * left. rewrite H1, H2. subst st1. simpl. rewrite lookup_insert_ne by done.
        split; [done|set_solver].
      * right. subst st1. simpl in *. rewrite lookup_insert_ne in H4 by done. split_and!; [done|set_solver..|done].
Qed.

Definition due_from (s : SourceSchedule) (t : Z) (st : worker_state) : Prop :=
  exists d, next_due st !! sch_source_id s = Some d /\ t <= d.

Lemma due_from_step s t st st' : s ∈ selected ->
  worker_step policy selected st st' -> due_from s t st -> due_from s t st'.
Proof.
  intros Hs Hstep (d & Hd & Ht).
  assert (Hkeep : forall st', next_due st' = next_due st -> due_from s t st').
  { intros st1 E. exists d. by rewrite E. }
  revert Hd Hkeep. destruct Hstep as [now jitter st0 Hj|i now st0 st1 E|i w st0 st1 E|i st0 st1 E];
    intros Hd Hkeep.
  - destruct (schedule_pass_effect s selected now jitter st0 Hdistinct Hs)
      as [[H1 _]|(H1 & _ & _ & H4)].
    + exists d. by rewrite H1.
    + rewrite Hd in H4. simpl in H4. eexists. split; [exact H1|].
      pose proof (Hinterval _ Hs). pose proof (Hj _ Hs). unfold delay. lia.
  - apply Hkeep. unfold take in E. repeat case_match; by simplify_eq.
  - apply Hkeep. unfold wake in E. repeat case_match; by simplify_eq.
  - apply Hkeep. unfold cancel_idle in E. repeat case_match; by simplify_eq.
Qed.

Lemma due_from_steps s t st st' : s ∈ selected ->
  rtc (worker_step policy selected) st st' -> due_from s t st -> due_from s t st'.
Proof. intros Hs. induction 1; [done|]. intros Hd. by eauto using due_from_step. Qed.

(** Two passes that queue the same source are at least its interval apart. *)
Lemma queued_apart s now1 jitter1 now2 jitter2 st1 st3 :
  s ∈ selected -> 0 <= jitter1 (sch_source_id s) ->
  sch_source_id s ∉ pending st1 ->
  sch_source_id s ∈ pending (schedule_pass policy selected now1 jitter1 st1) ->
  rtc (worker_step policy selected) (schedule_pass policy selected now1 jitter1 st1) st3 ->
  sch_source_id s ∉ pending st3 ->
  sch_source_id s ∈ pending (schedule_pass policy selected now2 jitter2 st3) ->
  now1 + sch_interval s <= now2.
Proof.
  intros Hs Hj Hp1 Hp2 Hsteps Hp3 Hp4.
  destruct (schedule_pass_effect s selected now1 jitter1 st1 Hdistinct Hs)
    as [[_ H]|(Hd & _)]; [by apply H in Hp2|].
  assert (Hfrom : due_from s (now1 + sch_interval s) (schedule_pass policy selected now1 jitter1 st1)).
  { eexists. split; [exact Hd|]. unfold delay. lia. }
  destruct (due_from_steps _ _ _ _ Hs Hsteps Hfrom) as (d & Hd3 & Ht).
  destruct (schedule_pass_effect s selected now2 jitter2 st3 Hdistinct Hs)
    as [[_ H]|(_ & _ & _ & H4)]; [by apply H in Hp4|].
  rewrite Hd3 in H4. simpl in H4. lia.
Qed.
End due.

(** ** Draining *)

(** A wakeup as the ingestion service and a working telemetry give it: only the awaited
    ingestion raises, and no cancellation. *)
Definition calm (p : source_phase) (w : wakeup) : Prop :=
  match w with
  | Returns _ => True
  | Raises e _ => is_exception e = true /\ match p with Ingesting _ _ => True | _ => False end
  end.

Inductive drain_step : worker_state -> worker_state -> Prop :=
  | drain_take i now st st' : take i now st = Some st' -> drain_step st st'
  | drain_wake i w p st st' : consumers st !! i = Some (Running p) -> calm p w ->
      wake i w st = Some st' -> drain_step st st'.

Definition phase_work (p : source_phase) : Z :=
  match p with Starting _ _ => 3 | Ingesting _ _ => 2 | _ => 1 end.
Definition consumer_work (c : consumer) : Z :=
  match c with Running p => phase_work p | _ => 0 end.
Definition work (st : worker_state) : Z :=
  4 * py_len (queue st) + zsum (map consumer_work (consumers st)).

Lemma work_insert cs i c d : cs !! i = Some c ->
  zsum (map consumer_work (<[ i := d ]> cs)) =
  zsum (map consumer_work cs) - consumer_work c + consumer_work d.
Proof.
  revert i. induction cs as [|e cs IH]; intros [|i] Hi; simplify_eq/=; [lia|].
  rewrite (IH _ Hi). lia.
Qed.

Lemma consumer_work_nonneg cs : 0 <= zsum (map consumer_work cs).
Proof. induction cs as [|[|[]|] cs IH]; simpl; lia. Qed.

(** Every drain step uses up work. *)
Lemma calm_progress p w h r h' : calm p w -> resume_source p w h = (r, h') ->
  match r with Continue p' => phase_work p' < phase_work p /\
                 (forall s, p = Stopping s -> False) /\ (forall s, p' <> Stopping s)
  | Finished _ => True
  | Escaped _ => exists s, p = Stopping s
  end.
Proof.
  intros Hc Hr. destruct p, w; simpl in *; repeat case_match; simplify_eq/=; try naive_solver.
Qed.

Lemma drain_step_work st st' : drain_step st st' -> work st' < work st.
Proof.
  intros Hstep. unfold work. destruct Hstep as [i now st0 st1 E|i w p st0 st1 Hi Hc E].
  - unfold take in E. destruct (consumers st0 !! i) as [[]|] eqn:Hi; try done.
    destruct (queue st0) as [|s q]; [done|]. unfold run_source in E. simplify_eq/=.
    rewrite (work_insert _ _ _ _ Hi), py_len_cons. simpl. lia.
  - unfold wake in E. rewrite Hi in E. destruct (resume_source p w (health st0)) as [r h] eqn:Hr.
    pose proof (calm_progress _ _ _ _ _ Hc Hr) as Hp.
    assert (1 <= phase_work p) by (destruct p; simpl; lia).
    simplify_eq. destruct r; simpl; rewrite (work_insert _ _ _ _ Hi); simpl; lia.
Qed.

Lemma drain_steps_work n st st' : nsteps drain_step n st st' -> Z.of_nat n + work st' <= work st.
Proof.
  induction 1 as [|n x y z Hstep _ IH]; [lia|]. pose proof (drain_step_work _ _ Hstep). lia.
Qed.

(** A consumer that will come back to the queue. *)
Definition live (c : consumer) : Prop :=
  match c with Idle => True | Running p => forall s, p <> Stopping s | Ended => False end.

Lemma drain_step_live st st' : drain_step st st' ->
  (exists i c, consumers st !! i = Some c /\ live c) ->
  exists i c, consumers st' !! i = Some c /\ live c.
Proof.
  intros Hstep (j & c & Hj & Hl). destruct Hstep as [i now st0 st1 E|i w p st0 st1 Hi Hc E].
  - unfold take in E. destruct (consumers st0 !! i) as [[]|] eqn:Hi; try done.
    destruct (queue st0) as [|s q]; [done|]. unfold run_source in E. simplify_eq/=.
    eexists i, _. split; [apply list_lookup_insert_eq; by eapply lookup_lt_Some|]. by intros s'.
  - unfold wake in E. rewrite Hi in E. destruct (resume_source p w (health st0)) as [r h] eqn:Hr.
    pose proof (calm_progress _ _ _ _ _ Hc Hr) as Hp. simplify_eq.
    destruct (decide (i = j)) as [<-|Hne].
    + simplify_eq. destruct r; simpl.
      * eexists i, _. split; [apply list_lookup_insert_eq; by eapply lookup_lt_Some|]. simpl. naive_solver.
      * exists i, Idle. split; [apply list_lookup_insert_eq; by eapply lookup_lt_Some|done].
      * destruct Hp as [s ->]. simpl in Hl. by destruct (Hl s).
    + exists j, c. split; [|done]. destruct r; simpl; by rewrite list_lookup_insert_ne.
Qed.

Lemma drain_steps_live n st st' : nsteps drain_step n st st' ->
  (exists i c, consumers st !! i = Some c /\ live c) ->
  exists i c, consumers st' !! i = Some c /\ live c.
Proof. induction 1; eauto using drain_step_live. Qed.

(** A live consumer is stuck only before an empty queue, and no run is ever stuck. *)
Lemma drained st : (forall st', ~ drain_step st st') ->
  (exists i c, consumers st !! i = Some c /\ live c) ->
  queue st = [] /\ running_sources (consumers st) = [].
Proof.
  intros Hstuck (i & c & Hi & Hl).
  assert (Hrun : forall j p, consumers st !! j <> Some (Running p)).
  { intros j p Hj. destruct (resume_source p (Returns 0) (health st)) as [r h] eqn:Hr.
    eapply Hstuck, (drain_wake j (Returns 0) p); [done|done|]. unfold wake. by rewrite Hj, Hr. }
  split.
  - destruct c as [|p|]; [|by apply Hrun in Hi|done]. destruct (queue st) as [|s q] eqn:Hq; [done|].
    exfalso. eapply Hstuck, (drain_take i 0). unfold take. rewrite Hi, Hq. done.
  - destruct (running_sources (consumers st)) as [|s l] eqn:E; [done|].
    assert (Hs : s ∈ running_sources (consumers st)) by (rewrite E; constructor).
    apply list_elem_of_omap in Hs as ([|p|] & Hc & [= <-]).
    apply list_elem_of_lookup in Hc as [j Hj]. by apply Hrun in Hj.
Qed.

Lemma drain_step_ok policy selected st st' :
  drain_step st st' -> worker_step policy selected st st'.
Proof. intros []; [by eapply step_take|by eapply step_wake]. Qed.

(** ** [run_once] *)

Section once.
Variable policy : WorkerPolicy.
Variable selected : list pystr.
Variable h0 : gmap pystr SourceHealth.
Hypothesis Hselected : NoDup selected.
Hypothesis Hpolicy : 0 < concurrency policy /\ 0 < queue_capacity policy.

Definition once_reachable (st : once_state) : Prop :=
  rtc (once_step policy) (initial_once policy selected h0) st.

(** Consumers that have not ended, and sentinels still to be taken. *)
Definition open_consumers (cs : list consumer) : Z :=
  zsum (map (fun c => match c with Ended => 0 | _ => 1 end) cs).
Definition sentinels (l : list (option pystr)) : Z :=
  zsum (map (fun x => match x with None => 1 | Some _ => 0 end) l).
Definition waiting (st : once_state) : list (option pystr) := on_queue st ++ todo st.

Lemma open_insert cs i c d : cs !! i = Some c ->
  open_consumers (<[ i := d ]> cs) =
  open_consumers cs - (match c with Ended => 0 | _ => 1 end) + (match d with Ended => 0 | _ => 1 end).
Proof.
  unfold open_consumers. revert i. induction cs as [|e cs IH]; intros [|i] Hi; simplify_eq/=; [lia|].
  rewrite (IH _ Hi). lia.
Qed.

Lemma open_nonneg cs : 0 <= open_consumers cs.
Proof. unfold open_consumers. induction cs as [|[] cs IH]; simpl; lia. Qed.

Lemma none_open cs : open_consumers cs = 0 -> forallb has_ended cs = true.
Proof.
  unfold open_consumers. induction cs as [|c cs IH]; [done|]. simpl. pose proof (open_nonneg cs) as Hn. unfold open_consumers in Hn.
  destruct c; simpl; [lia|lia|auto].
Qed.
Lemma sentinels_app l k : sentinels (l ++ k) = sentinels l + sentinels k.
Proof. unfold sentinels. by rewrite map_app, zsum_app. Qed.
Lemma sentinels_nonneg l : 0 <= sentinels l.
Proof. unfold sentinels. induction l as [|[] l IH]; simpl; lia. Qed.
Lemma sentinels_len l : sentinels l <= py_len l.
Proof.
  induction l as [|[] l IH]; [done|..]; rewrite py_len_cons; unfold sentinels in *; simpl; lia.
Qed.
Lemma sentinels_some l : sentinels (map Some l) = 0.
Proof. unfold sentinels. by induction l. Qed.
Lemma sentinels_replicate n : sentinels (replicate n None) = Z.of_nat n.
Proof. induction n as [|n IH]; [done|]. unfold sentinels in *. simpl. lia. Qed.

(** What every interleaving keeps. *)
Record once_counts (st : once_state) : Prop := {
  oc_unfinished : on_unfinished st = py_len (on_queue st) + py_len (running_sources (on_consumers st));
  oc_sentinels : open_consumers (on_consumers st) <= sentinels (waiting st)
}.

Lemma initial_counts : once_counts (initial_once policy selected h0).
Proof.
  split; simpl.
  - by rewrite running_replicate.
  - unfold waiting. simpl. rewrite sentinels_app, sentinels_some, sentinels_replicate.
    unfold open_consumers. generalize (Z.to_nat (Z.min (concurrency policy) (py_len selected))).
    intros n. induction n; simpl in *; lia.
Qed.

(** Putting and taking moves nothing else. *)
Lemma put_effect st st' : once_put policy st = Some st' ->
  waiting st' = waiting st /\ on_unfinished st' = on_unfinished st + 1 /\
  py_len (on_queue st') = py_len (on_queue st) + 1 /\
  on_consumers st' = on_consumers st /\ outcomes st' = outcomes st.
Proof.
  unfold once_put, waiting. destruct (todo st) as [|x rest] eqn:Ht; [done|].
  case_match; intros; simplify_eq/=. rewrite py_len_app, py_len_cons, py_len_nil, <- app_assoc.
  split_and!; try done; lia.
Qed.

(** How far the sentinels exceed the open consumers: an escape adds one, nothing takes it
    back. *)
Definition surplus (st : once_state) : Z := sentinels (waiting st) - open_consumers (on_consumers st).

Lemma once_step_counts st st' : once_counts st -> once_step policy st st' ->
  once_counts st' /\ surplus st <= surplus st'.
Proof.
  intros Hok Hstep. revert Hok. unfold surplus. destruct Hstep as [st0 st1 E|i now st0 st1 E|i w st0 st1 E]; intros [Hu Hs].
  - destruct (put_effect _ _ E) as (Hw & Hn & Hq & Hc & _). rewrite Hc, Hw. split; [|lia].
    split; rewrite ?Hc, ?Hw; [lia|done].
  - unfold once_take in E. destruct (on_consumers st0 !! i) as [[]|] eqn:Hi; try done.
    destruct (on_queue st0) as [|[s|] q] eqn:Hq; [done|..]; unfold run_source, waiting in *;
      rewrite Hq in *; simplify_eq/=.
    + rewrite (open_insert _ _ _ _ Hi). rewrite py_len_cons in Hu.
      unfold sentinels in *. simpl in *. split; [|lia]. split; simpl.
      * rewrite (perm_len _ _ (running_start _ _ _ _ Hi I)), py_len_cons. lia.
      * rewrite (open_insert _ _ _ _ Hi). unfold sentinels, waiting. simpl. lia.
    + rewrite (open_insert _ _ _ _ Hi). rewrite py_len_cons in Hu.
      unfold sentinels in *. simpl in *. split; [|lia]. split; simpl.
      * rewrite (running_same _ _ _ Ended Hi) by done. lia.
      * rewrite (open_insert _ _ _ _ Hi). unfold sentinels, waiting. simpl. lia.
  - unfold once_wake in E. destruct (on_consumers st0 !! i) as [[|p|]|] eqn:Hi; try done.
    destruct (resume_source p w (on_health st0)) as [r h] eqn:Hr. simplify_eq.
    destruct r as [p'|o|e]; unfold waiting in *; simpl in *; rewrite (open_insert _ _ _ _ Hi).
    + split; [|lia]. split; unfold waiting; simpl; rewrite ?(open_insert _ _ _ _ Hi); [|lia].
      rewrite (running_continue _ _ p); [done|done|by eapply resume_source_continue].
    + split; [|lia]. split; unfold waiting; simpl; rewrite ?(open_insert _ _ _ _ Hi); [|lia].
      rewrite (perm_len _ _ (running_stop _ _ Idle _ Hi I)), py_len_cons in Hu. lia.
    + split; [|lia]. split; unfold waiting; simpl; rewrite ?(open_insert _ _ _ _ Hi); [|lia].
      rewrite (perm_len _ _ (running_stop _ _ Ended _ Hi I)), py_len_cons in Hu. lia.
Qed.

Lemma once_steps_counts st st' : rtc (once_step policy) st st' -> once_counts st ->
  once_counts st' /\ surplus st <= surplus st'.
Proof.
  induction 1 as [|x y z Hxy _ IH]; intros Hok; [done|].
  destruct (once_step_counts _ _ Hok Hxy) as [Hy Hs]. destruct (IH Hy). split; [done|lia].
Qed.

(** A sentinel nobody is left to take keeps the main task waiting. *)
Lemma surplus_not_joined st : once_counts st -> 0 < surplus st -> joined st = false.
Proof.
  intros [Hu _] Hs. unfold joined, surplus, waiting in *. rewrite sentinels_app in Hs.
  pose proof (open_nonneg (on_consumers st)).
  destruct (bool_decide (todo st = [])) eqn:Ht; [|done]. simpl. apply bool_decide_eq_true_1 in Ht.
  rewrite Ht in Hs. change (sentinels []) with 0 in Hs. pose proof (sentinels_len (on_queue st)).
  pose proof (py_len_nonneg (running_sources (on_consumers st))).
  apply Z.eqb_neq. lia.
Qed.

Lemma escape_surplus st i w p e h st' : once_counts st ->
  on_consumers st !! i = Some (Running p) -> resume_source p w (on_health st) = (Escaped e, h) ->
  once_wake i w st = Some st' -> once_counts st' /\ 0 < surplus st'.
Proof.
  intros Hok Hi Hr E. pose proof (once_step_counts st st' Hok (once_step_wake _ _ _ _ _ E)) as [Hok' _].
  split; [done|]. unfold once_wake in E. rewrite Hi, Hr in E. simplify_eq. unfold surplus, waiting. simpl.
  rewrite (open_insert _ _ _ _ Hi). destruct Hok as [_ Hs]. unfold waiting in Hs. lia.
Qed.

(** ** Steps in which only ingestions raise *)

Inductive calm_step : once_state -> once_state -> Prop :=
  | calm_put st st' : once_put policy st = Some st' -> calm_step st st'
  | calm_take i now st st' : once_take i now st = Some st' -> calm_step st st'
  | calm_wake i w p st st' : on_consumers st !! i = Some (Running p) -> calm p w ->
      once_wake i w st = Some st' -> calm_step st st'.

(** The sources wait in front of the sentinels, one per open consumer; every source is
    waiting, being run, or has its outcome; and no consumer ends before the sources are
    taken. *)
Record once_ok (st : once_state) : Prop := {
  ok_counts : once_counts st;
  ok_order : exists l, waiting st = map Some l ++ replicate (Z.to_nat (open_consumers (on_consumers st))) None /\
    Permutation (l ++ running_sources (on_consumers st) ++ elements (dom (outcomes st))) selected /\
    (l <> [] -> Forall (fun c => c <> Ended) (on_consumers st));
  ok_consumers : (0 < length (on_consumers st))%nat;
  ok_phases : forall i s, on_consumers st !! i <> Some (Running (Stopping s))
}.

Lemma open_replicate n : open_consumers (replicate n Idle) = Z.of_nat n.
Proof. unfold open_consumers. induction n; simpl in *; lia. Qed.

Lemma initial_once_ok : selected <> [] -> once_ok (initial_once policy selected h0).
Proof.
  intros Hne. split; simpl.
  - apply initial_counts.
  - exists selected. rewrite open_replicate, Nat2Z.id, running_replicate. split_and!; [done| |].
    + by rewrite dom_empty_L, elements_empty, !app_nil_r.
    + intros _. apply Forall_replicate. done.
  - rewrite length_replicate. destruct selected as [|s l]; [done|]. rewrite py_len_cons.
    pose proof (py_len_nonneg l). lia.
  - by intros i s [[=] _]%lookup_replicate.
Qed.

Lemma sources_waiting_head l n s q : map Some l ++ replicate n (@None pystr) = Some s :: q ->
  exists l', l = s :: l' /\ q = map Some l' ++ replicate n None.
Proof. destruct l as [|x l]; [by destruct n|]. simpl. intros [= -> <-]. by exists l. Qed.

Lemma sentinel_waiting_head (l : list pystr) n q : map Some l ++ replicate n None = None :: q ->
  l = [] /\ exists m, n = S m /\ q = replicate m None.
Proof. destruct l as [|x l]; [|done]. destruct n as [|m]; [done|]. simpl. intros [= <-]. eauto. Qed.

Lemma calm_counts st st' : calm_step st st' -> once_step policy st st'.
Proof. intros []; [by eapply once_step_put|by eapply once_step_take|by eapply once_step_wake]. Qed.

Lemma insert_consumer_alive cs i c : Forall (fun c => c <> Ended) cs -> c <> Ended ->
  Forall (fun c => c <> Ended) (<[ i := c ]> cs).
Proof. intros Hcs Hc. by apply Forall_insert. Qed.

Lemma calm_step_ok st st' : once_ok st -> calm_step st st' -> once_ok st'.
Proof.
  intros Hok Hstep.
  destruct (once_step_counts st st' (ok_counts _ Hok) (calm_counts _ _ Hstep)) as [Hc' _].
  revert Hok Hc'. destruct Hstep as [st0 st1 E|i now st0 st1 E|i w p st0 st1 Hi Hcalm E];
    intros [Hc (l & Hw & Hp & Hl) Hlen Hph] Hc'.
  - destruct (put_effect _ _ E) as (Hw' & _ & _ & Ec & Eo).
    split; rewrite ?Ec; try done. exists l. by rewrite Hw', Eo.
  - unfold once_take in E. destruct (on_consumers st0 !! i) as [[]|] eqn:Hi; try done.
    destruct (on_queue st0) as [|[s|] q] eqn:Hq; [done|..]; unfold run_source, waiting in *;
      rewrite Hq in *; simplify_eq/=.
    + destruct (sources_waiting_head _ _ _ _ (eq_sym Hw)) as (l' & -> & Hq').
      split; simpl; [done| | |].
      * exists l'. rewrite (open_insert _ _ _ _ Hi). unfold waiting. simpl.
        replace (open_consumers (on_consumers st0) - 1 + 1) with (open_consumers (on_consumers st0)) by lia.
        split_and!; [done| |].
        -- rewrite (running_start _ _ _ _ Hi) by done. simpl. rewrite <- Hp. simpl.
           symmetry. apply Permutation_middle.
        -- intros _. apply insert_consumer_alive; [by apply Hl|done].
      * by rewrite length_insert.
      * intros j s'. destruct (decide (i = j)) as [<-|Hne].
        -- rewrite list_lookup_insert_eq by (by eapply lookup_lt_Some). done.
        -- by rewrite list_lookup_insert_ne.
    + destruct (sentinel_waiting_head _ _ _ (eq_sym Hw)) as (-> & m & Hm & Hq').
      split; simpl; [done| | |].
      * exists []. rewrite (open_insert _ _ _ _ Hi). unfold waiting. simpl.
        replace (Z.to_nat (open_consumers (on_consumers st0) - 1 + 0)) with m by lia.
        split_and!; [done| |done]. by rewrite (running_same _ _ _ Ended Hi).
      * by rewrite length_insert.
      * intros j s'. destruct (decide (i = j)) as [<-|Hne].
        -- rewrite list_lookup_insert_eq by (by eapply lookup_lt_Some). done.
        -- by rewrite list_lookup_insert_ne.
  - unfold once_wake in E. rewrite Hi in E.
    destruct (resume_source p w (on_health st0)) as [r h] eqn:Hr.
    pose proof (calm_progress _ _ _ _ _ Hcalm Hr) as Hprog. simplify_eq.
    destruct r as [p'|o|e]; [| |by destruct Hprog as [s ->]; destruct (Hph i s)].
    + destruct Hprog as (_ & _ & Hp'). split; simpl; [done| | |].
      * exists l. rewrite (open_insert _ _ _ _ Hi). unfold waiting in *. simpl.
        replace (open_consumers (on_consumers st0) - 1 + 1) with (open_consumers (on_consumers st0)) by lia.
        rewrite (running_continue _ _ p) by (done || by eapply resume_source_continue).
        split_and!; [done..|]. intros Hne. apply insert_consumer_alive; [by apply Hl|done].
      * by rewrite length_insert.
      * intros j s'. destruct (decide (i = j)) as [<-|Hne].
        -- rewrite list_lookup_insert_eq by (by eapply lookup_lt_Some). intros [= E]. by eapply Hp'.
        -- by rewrite list_lookup_insert_ne.
    + split; simpl; [done| | |].
      * exists l. rewrite (open_insert _ _ _ _ Hi). unfold waiting in *. simpl.
        replace (open_consumers (on_consumers st0) - 1 + 1) with (open_consumers (on_consumers st0)) by lia.
        split_and!; [done| |].
        -- rewrite dom_insert_L, elements_disj_union, elements_singleton.
           ++ rewrite <- Hp, (running_stop _ _ Idle _ Hi I). simpl.
              apply Permutation_app_head. symmetry. apply Permutation_middle.
           ++ apply disjoint_singleton_l. intros Hin. rewrite <- elem_of_elements in Hin.
              rewrite <- Hp in Hselected. apply NoDup_app in Hselected as (_ & _ & Hnd).
              apply NoDup_app in Hnd as (_ & Hdis & _).
              eapply Hdis; [|exact Hin]. by eapply running_lookup.
        -- intros Hne. apply insert_consumer_alive; [by apply Hl|done].
      * by rewrite length_insert.
      * intros j s'. destruct (decide (i = j)) as [<-|Hne].
        -- rewrite list_lookup_insert_eq by (by eapply lookup_lt_Some). done.
        -- by rewrite list_lookup_insert_ne.
Qed.

Definition item_work (x : option pystr) : Z := match x with Some _ => 4 | None => 1 end.
Definition once_work (st : once_state) : Z :=
  zsum (map (fun x => item_work x + 1) (todo st)) + zsum (map item_work (on_queue st))
  + zsum (map consumer_work (on_consumers st)).

Lemma item_work_nonneg l : 0 <= zsum (map item_work l) /\ 0 <= zsum (map (fun x => item_work x + 1) l).
Proof. induction l as [|[] l IH]; simpl; lia. Qed.

Lemma once_work_nonneg st : 0 <= once_work st.
Proof.
  unfold once_work. pose proof (item_work_nonneg (todo st)). pose proof (item_work_nonneg (on_queue st)).
  pose proof (consumer_work_nonneg (on_consumers st)). lia.
Qed.

Lemma calm_step_work st st' : calm_step st st' -> once_work st' < once_work st.
Proof.
  intros Hstep. unfold once_work. destruct Hstep as [st0 st1 E|i now st0 st1 E|i w p st0 st1 Hi Hc E].
  - unfold once_put in E. destruct (todo st0) as [|x rest]; [done|]. case_match; simplify_eq/=.
    rewrite map_app, zsum_app. simpl. lia.
  - unfold once_take in E. destruct (on_consumers st0 !! i) as [[]|] eqn:Hi; try done.
    destruct (on_queue st0) as [|[s|] q]; [done|..]; unfold run_source in E; simplify_eq/=;
      rewrite (work_insert _ _ _ _ Hi); simpl; lia.
  - unfold once_wake in E. rewrite Hi in E. destruct (resume_source p w (on_health st0)) as [r h] eqn:Hr.
    pose proof (calm_progress _ _ _ _ _ Hc Hr) as Hp.
    assert (1 <= phase_work p) by (destruct p; simpl; lia).
    simplify_eq. destruct r; simpl; rewrite (work_insert _ _ _ _ Hi); simpl; lia.
Qed.

Lemma calm_steps n st st' : nsteps calm_step n st st' -> once_ok st ->
  once_ok st' /\ Z.of_nat n + once_work st' <= once_work st.
Proof.
  induction 1 as [|n x y z Hstep _ IH]; intros Hok; [split; [done|lia]|].
  destruct (IH (calm_step_ok _ _ Hok Hstep)) as [Hz Hw]. split; [done|].
  pose proof (calm_step_work _ _ Hstep). lia.
Qed.

(** A calm run that cannot go on has joined, every consumer has ended, and the outcome of every
    source is there. *)
Lemma calm_stuck st : once_ok st -> (forall st', ~ calm_step st st') ->
  gathered st = true /\ forall s, s ∈ selected <-> is_Some (outcomes st !! s).
Proof.
  intros [[Hu _] (l & Hw & Hp & Hl) Hlen Hph] Hstuck.
  assert (Hrun : forall j p, on_consumers st !! j <> Some (Running p)).
  { intros j p Hj. destruct (resume_source p (Returns 0) (on_health st)) as [r h] eqn:Hr.
    eapply Hstuck, (calm_wake j (Returns 0) p); [done|done|]. unfold once_wake. by rewrite Hj, Hr. }
  assert (Hnone : running_sources (on_consumers st) = []).
  { destruct (running_sources (on_consumers st)) as [|s k] eqn:E; [done|].
    assert (Hs : s ∈ running_sources (on_consumers st)) by (rewrite E; constructor).
    apply list_elem_of_omap in Hs as ([|p|] & Hc & [= <-]).
    apply list_elem_of_lookup in Hc as [j Hj]. by apply Hrun in Hj. }
  assert (Hidle : on_queue st <> [] -> forall j, on_consumers st !! j <> Some Idle).
  { intros Hq j Hj. destruct (on_queue st) as [|x q] eqn:E; [done|].
    destruct x; (eapply Hstuck, (calm_take j 0); unfold once_take; rewrite Hj, E; reflexivity). }
  assert (Hended : on_queue st <> [] -> Forall (fun c => c = Ended) (on_consumers st)).
  { intros Hq. apply Forall_lookup. intros j [|p|] Hj; [by apply Hidle in Hj|by apply Hrun in Hj|done]. }
  assert (Hq : on_queue st = []).
  { destruct (on_queue st) as [|x q] eqn:E; [done|].
    assert (Hend : Forall (fun c => c = Ended) (on_consumers st)) by by apply Hended.
    assert (Hl0 : l = []).
    { destruct l as [|s k]; [done|]. assert (Hal := Hl ltac:(done)).
      destruct (on_consumers st) as [|c cs]; [simpl in Hlen; lia|].
      apply Forall_cons in Hend as [-> _]. by apply Forall_cons in Hal as [? _]. }
    assert (Ho : open_consumers (on_consumers st) = 0).
    { unfold open_consumers. clear -Hend. induction Hend as [|c cs -> _ IH]; [done|]. exact IH. }
    rewrite Ho, Hl0 in Hw. unfold waiting in Hw. by rewrite E in Hw. }
  assert (Ht : todo st = []).
  { destruct (todo st) as [|x rest] eqn:E; [done|]. exfalso. eapply Hstuck, calm_put.
    unfold once_put. rewrite E, Hq. change (py_len []) with 0.
    destruct (Z.ltb_spec 0 (queue_capacity policy)); [reflexivity|lia]. }
  split.
  - assert (Ho : open_consumers (on_consumers st) = 0).
    { unfold waiting in Hw. rewrite Hq, Ht in Hw. pose proof (open_nonneg (on_consumers st)).
      symmetry in Hw. apply app_eq_nil in Hw as [_ Hw]. apply (f_equal length) in Hw. rewrite length_replicate in Hw. cbn in Hw. lia. }
    unfold gathered, joined. rewrite Ht, Hu, Hq, Hnone. simpl. by apply none_open.
  - assert (Hl0 : l = []).
    { unfold waiting in Hw. rewrite Hq, Ht in Hw. by destruct l. }
    intros s. rewrite <- Hp, Hl0, Hnone. simpl. rewrite elem_of_elements. apply elem_of_dom.
Qed.
End once.

(** The properties of the worker, and the runs that witness them. *)
(** C14: a source is never queued or run twice at once.  In every state the scheduler and the
    consumers can reach by interleaving, the sources queued or being run are distinct,
    scheduled, and exactly the pending ones; the queue stays within its capacity, the number
    of consumers is the policy's, and the queue's count of unfinished tasks is right. *)
Theorem worker_single_flight policy selected st :
  worker_reachable policy selected st ->
  NoDup (queue st ++ running_sources (consumers st)) /\
  (forall s, s ∈ pending st <-> s ∈ queue st ++ running_sources (consumers st)) /\
  (forall s, s ∈ pending st -> s ∈ map sch_source_id selected) /\
  py_len (queue st) <= Z.max 0 (queue_capacity policy) /\
  unfinished st = py_len (queue st) + py_len (running_sources (consumers st)) /\
  length (consumers st) = Z.to_nat (concurrency policy).
Proof.
  intros [? Hp Hu ? ? Hk]%worker_reachable_ok. split_and!; try done.
  - intros s Hs%Hp. auto.
  - by rewrite Hu, py_len_app.
Qed.

(** A source keeps its cadence: between two scheduling passes that queue it, whatever
    happens in between, lies at least its interval. *)
Theorem worker_keeps_cadence policy selected s now1 jitter1 now2 jitter2 st1 st2 :
  NoDup (map sch_source_id selected) -> (forall s, s ∈ selected -> 0 < sch_interval s) ->
  s ∈ selected -> 0 <= jitter1 (sch_source_id s) ->
  sch_source_id s ∉ pending st1 ->
  sch_source_id s ∈ pending (schedule_pass policy selected now1 jitter1 st1) ->
  rtc (worker_step policy selected) (schedule_pass policy selected now1 jitter1 st1) st2 ->
  sch_source_id s ∉ pending st2 ->
  sch_source_id s ∈ pending (schedule_pass policy selected now2 jitter2 st2) ->
  now1 + sch_interval s <= now2.
Proof. eauto using queued_apart. Qed.

(** C15: the consumers drain the queue.  Once scheduling has stopped, and as long as only
    ingestions raise and nobody is cancelled (so before the deadline of a shutdown), with a
    consumer that will come back to the queue, the consumers can take at most [work st] steps;
    and when they can take no more, the queue is empty, nothing is pending, and
    [queue.join()] returns. *)
Theorem worker_drains policy selected st n st' :
  worker_reachable policy selected st ->
  (exists i c, consumers st !! i = Some c /\ live c) ->
  nsteps drain_step n st st' ->
  Z.of_nat n <= work st /\
  ((forall st'', ~ drain_step st' st'') ->
   queue st' = [] /\ pending st' = ∅ /\ unfinished st' = 0).
Proof.
  intros Hst Hlive Hn. pose proof (drain_steps_work _ _ _ Hn).
  assert (Hok : worker_ok policy selected st').
  { pose proof (worker_reachable_ok _ _ _ Hst) as Hok. clear -Hn Hok.
    induction Hn as [|n x y z Hxy _ IH]; [done|]. apply IH.
    eapply worker_step_ok; [done|]. by eapply drain_step_ok. }
  split.
  - assert (0 <= work st'); [|lia]. unfold work.
    pose proof (py_len_nonneg (queue st')). pose proof (consumer_work_nonneg (consumers st')). lia.
  - intros Hstuck. destruct (drained st' Hstuck (drain_steps_live _ _ _ Hn Hlive)) as [Hq Hr].
    destruct Hok as [_ Hp Hu _ _ _]. split_and!; [done| |].
    + apply set_eq. intros s. rewrite Hp, Hq, Hr. set_solver.
    + rewrite Hu, Hq, Hr. done.
Qed.

(** C16: [run_once] completes.  While only ingestions raise, a run makes at most
    [once_work] steps, and when it can make no more the main task has joined the queue and
    gathered the consumers, each of which has left its loop, and its summary has the outcome of
    every selected source; there are no other outcomes. *)
Theorem run_once_completes policy selected h n st :
  NoDup selected -> selected <> [] -> 0 < concurrency policy /\ 0 < queue_capacity policy ->
  nsteps (calm_step policy) n (initial_once policy selected h) st ->
  Z.of_nat n <= once_work (initial_once policy selected h) /\
  ((forall st', ~ calm_step policy st st') ->
   gathered st = true /\ (forall s, s ∈ selected <-> is_Some (outcomes st !! s)) /\
   exists l, summary_outcomes selected st = Some l /\ length l = length selected).
Proof.
  intros Hnd Hne Hp Hn.
  destruct (calm_steps policy selected Hnd _ _ _ Hn) as [Hok Hw];
    [by apply initial_once_ok|].
  pose proof (once_work_nonneg st). split; [lia|]. intros Hstuck.
  destruct (calm_stuck policy selected Hp st Hok Hstuck) as [Hg Hout]. split_and!; [done|done|].
  assert (Hall : Forall (fun s => is_Some (outcomes st !! s)) selected) by (apply Forall_forall; intros s Hs; by apply Hout).
  destruct (mapM_is_Some_2 _ _ Hall) as [l Hl]. exists l. split; [done|]. symmetry. by eapply length_mapM.
Qed.

(** One failing health report hangs [run_once].  Once a run of a source raises out of
    its consumer, as it does when the telemetry raises, the sentinel meant for that consumer
    is never taken, and in every later state the main task still waits for the queue. *)
Theorem run_once_hangs policy selected h st i w p e h' st1 st2 :
  once_reachable policy selected h st ->
  on_consumers st !! i = Some (Running p) ->
  resume_source p w (on_health st) = (Escaped e, h') ->
  once_wake i w st = Some st1 -> rtc (once_step policy) st1 st2 ->
  joined st2 = false.
Proof.
  intros Hst Hi Hr E Hsteps.
  destruct (once_steps_counts policy _ _ Hst (initial_counts policy selected h)) as [Hok _].
  destruct (escape_surplus policy _ _ _ _ _ _ _ Hok Hi Hr E) as [Hok1 Hs1].
  destruct (once_steps_counts policy _ _ Hsteps Hok1) as [Hok2 Hs2].
  apply surplus_not_joined; [done|lia].
Qed.

(** ** Witnesses *)

Definition sample_worker_policy : WorkerPolicy := {|
  concurrency := 2; queue_capacity := 3; maximum_sources := 10; heartbeat_interval := 30;
  scheduler_resolution := 1; stale_after := 7200; stale_recovery_interval := 900;
  shutdown_grace := 30 |}.
Definition sample_schedule (name : string) : SourceSchedule := {|
  sch_source_id := py name; sch_interval := 60; sch_maximum_jitter := 6;
  sch_run_immediately := true |}.
Definition sample_schedules : list SourceSchedule := [sample_schedule "a"; sample_schedule "b"].
Definition no_jitter (s : pystr) : Z := 0.
Definition worker_start : worker_state :=
  initial_state sample_worker_policy sample_schedules 0 no_jitter.
Definition worker_scheduled : worker_state :=
  schedule_pass sample_worker_policy sample_schedules 0 no_jitter worker_start.
Definition worker_taken : worker_state := default worker_start (take 0 1 worker_scheduled).

Lemma no_jitter_ok s : s ∈ sample_schedules ->
  0 <= no_jitter (sch_source_id s) <= sch_maximum_jitter s.
Proof. unfold sample_schedules. rewrite !elem_of_cons, elem_of_nil. intros [->|[->|[]]]; done. Qed.

Lemma scheduled_reachable : worker_reachable sample_worker_policy sample_schedules worker_scheduled.
Proof. exists 0, no_jitter. apply rtc_once. apply step_schedule, no_jitter_ok. Qed.
Lemma taken_reachable : worker_reachable sample_worker_policy sample_schedules worker_taken.
Proof.
  destruct scheduled_reachable as (n & j & H). exists n, j. eapply rtc_r; [exact H|].
  by eapply (step_take _ _ 0 1).
Qed.

Lemma worker_single_flight_witness :
  NoDup (queue worker_taken ++ running_sources (consumers worker_taken)) /\
  (forall s, s ∈ pending worker_taken <->
     s ∈ queue worker_taken ++ running_sources (consumers worker_taken)) /\
  (forall s, s ∈ pending worker_taken -> s ∈ map sch_source_id sample_schedules) /\
  py_len (queue worker_taken) <= Z.max 0 (queue_capacity sample_worker_policy) /\
  unfinished worker_taken =
    py_len (queue worker_taken) + py_len (running_sources (consumers worker_taken)) /\
  length (consumers worker_taken) = Z.to_nat (concurrency sample_worker_policy).
Proof. apply (worker_single_flight sample_worker_policy sample_schedules), taken_reachable. Defined.

Definition done_0 (st : worker_state) : worker_state :=
  default st (wake 0 (Returns 4) (default st (wake 0 (Returns 3) (default st (wake 0 (Returns 2) st))))).
Lemma done_0_steps :
  rtc (worker_step sample_worker_policy sample_schedules) worker_scheduled (done_0 worker_taken).
Proof.
  eapply rtc_l; [by eapply (step_take _ _ 0 1 _ worker_taken)|].
  eapply rtc_l; [by eapply (step_wake _ _ 0 (Returns 2))|].
  eapply rtc_l; [by eapply (step_wake _ _ 0 (Returns 3))|].
  apply rtc_once. by eapply (step_wake _ _ 0 (Returns 4)).
Qed.

Lemma worker_keeps_cadence_witness : 0 + 60 <= 61.
Proof.
  apply (worker_keeps_cadence sample_worker_policy sample_schedules (sample_schedule "a")
    0 no_jitter 61 no_jitter worker_start (done_0 worker_taken)).
  - apply (bool_decide_unpack _). vm_compute. exact I.
  - intros s. unfold sample_schedules. rewrite !elem_of_cons, elem_of_nil. intros [->|[->|[]]]; done.
  - by constructor.
  - done.
  - apply (bool_decide_unpack _). vm_compute. exact I.
  - apply (bool_decide_unpack _). vm_compute. exact I.
  - apply done_0_steps.
  - apply (bool_decide_unpack _). vm_compute. exact I.
  - apply (bool_decide_unpack _). vm_compute. exact I.
Defined.

(** The first consumer runs everything that is queued. *)
Inductive drain_event := Takes | Wakes.
Definition drain_event_run (e : drain_event) (st : worker_state) : option worker_state :=
  match e with Takes => take 0 1 st | Wakes => wake 0 (Returns 2) st end.
Lemma drain_events_steps l st st' : foldl (fun o e => o ≫= drain_event_run e) (Some st) l = Some st' ->
  nsteps drain_step (length l) st st'.
Proof.
  revert st. induction l as [|e l IH]; intros st; simpl; [intros [= <-]; constructor|].
  destruct (drain_event_run e st) as [st1|] eqn:E.
  - intros Hl. eapply nsteps_l; [|by apply IH]. destruct e; simpl in E; [by eapply drain_take|].
    pose proof E as E'. unfold wake in E'. destruct (consumers st !! 0%nat) as [[|p|]|] eqn:Hp; try done.
    apply (drain_wake 0 (Returns 2) p); [done|done|exact E].
  - assert (Hnone : foldl (fun o e => o ≫= drain_event_run e) None l = None) by (clear; by induction l).
    by rewrite Hnone.
Qed.
Lemma drain_stuck st : queue st = [] -> Forall not_running (consumers st) -> forall st', ~ drain_step st st'.
Proof.
  intros Hq Hc st' Hs. destruct Hs as [i now st0 st1 E|i w p st0 st1 Hi _ _].
  - unfold take in E. rewrite Hq in E. by destruct (consumers st0 !! i) as [[]|].
  - by apply (Forall_lookup_1 _ _ _ _ Hc) in Hi.
Qed.
Definition drain_run : list drain_event := [Takes; Wakes; Wakes; Wakes; Takes; Wakes; Wakes; Wakes].
Definition worker_drained : worker_state := default worker_start
  (foldl (fun o e => o ≫= drain_event_run e) (Some worker_scheduled) drain_run).
Lemma worker_drains_witness : Z.of_nat 8 <= work worker_scheduled /\
  queue worker_drained = [] /\ pending worker_drained = ∅ /\ unfinished worker_drained = 0.
Proof.
  destruct (worker_drains sample_worker_policy sample_schedules worker_scheduled 8 worker_drained) as [Hw Hd].
  - apply scheduled_reachable.
  - by exists 0%nat, Idle.
  - change 8%nat with (length drain_run). apply drain_events_steps. vm_compute. reflexivity.
  - split; [exact Hw|]. apply Hd, drain_stuck; [vm_compute; reflexivity|vm_compute; repeat constructor].
Defined.

Definition once_start : once_state := initial_once sample_worker_policy [py "a"; py "b"] ∅.
Definition once_put1 : once_state := default once_start (once_put sample_worker_policy once_start).
Definition once_running : once_state := default once_start (once_take 0 1 once_put1).

(** A whole run of two sources by two consumers. *)
Inductive once_event := Puts | TakesOf (i : nat) | WakesOf (i : nat).
Definition once_event_run (e : once_event) (st : once_state) : option once_state :=
  match e with Puts => once_put sample_worker_policy st | TakesOf i => once_take i 1 st | WakesOf i => once_wake i (Returns 2) st end.
Lemma once_events_steps l st st' : foldl (fun o e => o ≫= once_event_run e) (Some st) l = Some st' ->
  nsteps (calm_step sample_worker_policy) (length l) st st'.
Proof.
  revert st. induction l as [|e l IH]; intros st; simpl; [intros [= <-]; constructor|].
  destruct (once_event_run e st) as [st1|] eqn:E.
  - intros Hl. eapply nsteps_l; [|by apply IH]. destruct e; simpl in E; [by eapply calm_put|by eapply calm_take|].
    pose proof E as E'. unfold once_wake in E'. destruct (on_consumers st !! i) as [[|p|]|] eqn:Hp; try done.
    apply (calm_wake _ i (Returns 2) p); [done|done|exact E].
  - assert (Hnone : foldl (fun o e => o ≫= once_event_run e) None l = None) by (clear; by induction l).
    by rewrite Hnone.
Qed.
Lemma once_stuck st : todo st = [] -> forallb has_ended (on_consumers st) = true -> forall st', ~ calm_step sample_worker_policy st st'.
Proof.
  intros Ht Hc st' Hs. assert (Hend : forall i c, on_consumers st !! i = Some c -> c = Ended).
  { intros i c Hi. apply List.forallb_forall with (x := c) in Hc; [by destruct c|]. by apply list_elem_of_In, list_elem_of_lookup_2 with i. }
  destruct Hs as [st0 st1 E|i now st0 st1 E|i w p st0 st1 Hi _ _].
  - unfold once_put in E. by rewrite Ht in E.
  - unfold once_take in E. destruct (on_consumers st0 !! i) as [c|] eqn:Hi; [|done]. by rewrite (Hend i c Hi) in E.
  - by apply Hend in Hi.
Qed.
Definition once_run : list once_event := [Puts; Puts; Puts; TakesOf 0; TakesOf 1; Puts; WakesOf 0; WakesOf 1; WakesOf 1; WakesOf 0;
  WakesOf 0; WakesOf 1; TakesOf 1; TakesOf 0].
Definition once_finished : once_state := default once_start (foldl (fun o e => o ≫= once_event_run e) (Some once_start) once_run).
Lemma run_once_completes_witness : Z.of_nat 14 <= once_work once_start /\ gathered once_finished = true /\
  exists l, summary_outcomes [py "a"; py "b"] once_finished = Some l /\ length l = 2%nat.
Proof.
  destruct (run_once_completes sample_worker_policy [py "a"; py "b"] ∅ 14 once_finished) as [Hw Hd].
  - apply (bool_decide_unpack _). vm_compute. exact I.
  - done.
  - done.
  - change 14%nat with (length once_run). apply once_events_steps. vm_compute. reflexivity.
  - split; [exact Hw|]. destruct Hd as (Hg & _ & Hl); [|split; [exact Hg|exact Hl]].
    apply once_stuck; vm_compute; reflexivity.
Defined.

(** A health report that raises. *)
Definition report_fails : wakeup := Raises (PyExn ValueError) 2.
Definition once_crashed : once_state := default once_start (once_wake 0 report_fails once_running).
Definition sample_phase : source_phase := Starting (py "a") (health_started 1 new_health).
Lemma run_once_hangs_witness : joined once_crashed = false.
Proof.
  apply (run_once_hangs sample_worker_policy [py "a"; py "b"] ∅ once_running 0 report_fails
    sample_phase (PyExn ValueError) (on_health once_running) once_crashed).
  - eapply rtc_l; [by eapply (once_step_put _ _ once_put1)|].
    apply rtc_once. by eapply (once_step_take _ 0 1).
  - reflexivity.
  - reflexivity.
  - reflexivity.
  - constructor.
Defined.
